(* ===== verification/_CoqProject ===== *)
-Q . S2P
Prelude.v
Wheeltimer.v
TimerObjects.v
SipMsg.v
SipTrans.v
TransTable.v
TransLayer.v
TransLogic.v
TransDemo.v
TransSafety.v
TransView.v
TransMatch.v
TransClient.v
TransServer.v
TransFailover.v
MimeBody.v
DialogMsg.v
Rel100.v
OfferAnswer.v
OfferAnswerSpec.v
SipDialog.v
SipDialogSpec.v
Exchanges.v
SipDialogInv.v
ParseCommon.v
AmUtils.v
SipHeader.v
SipParserAsync.v
TcpTrsp.v
MsgHdrs.v
ParseParams.v
ParseCSeq.v
ParseUri.v
ParseVia.v
ParseNameAddr.v
SipParser.v
MsgRoundtrip.v
ParseExtensions.v
SampleArray.v
JitterBuffer.v
PlayoutBuffer.v
RtpPacket.v
Crc4.v
RtpMux.v
Sdp.v
SdpRoundtrip.v
SdpProps.v
MimeParser.v
MimeRoundtrip.v
MimeView.v
B2BSession.v
DialogLeg.v
B2BProps.v
LocalBody.v
CallerSession.v
CallLegHelpers.v
CallLeg.v
CallLegRefs.v
CallLegSystem.v
CallLegProps.v
Dns.v
Resolver.v
ResolverProps.v
AppTimer.v
HdrText.v
SessionTimer.v
Subscription.v
SubscriptionProps.v
