(* ===== verification/Prelude.v ===== *)
(** * A verification of the core of SEMS

    SEMS is a SIP media and application server.  This library models the part of it that
    carries SIP signalling, from the bytes of a connection and the timer wheel up to dialogs
    and the legs of back-to-back calls, and the path of media from RTP packets to the samples
    that are played, and proves what makes it correct.

    ** The program and the files

    The bytes of a connection are cut into messages, which are parsed into their headers.  A
    message reaches the transaction layer, which finds or makes the transaction it belongs to,
    moves its state machine, arms and stops its timers, answers re-transmissions by itself and
    passes the rest up to the user agent.  The user agent sends requests and replies, and
    cancels, through the layer; the resolver finds the destinations of a request.  Timers live in the timer
    wheel; when one expires the layer re-transmits, gives up, tries the next destination of
    the request or deletes the transaction.  Above the layer a dialog runs the offer/answer
    exchange of session descriptions over the messages; the descriptions travel in message
    bodies.  In a back-to-back call two sessions, each with a dialog of its own, relay
    requests and replies to each other by events; the legs of the session border controller
    are such sessions that may fork to several others, be put on hold, reconnected and
    replaced.  RTP packets, which may come multiplexed
    over one port, go through a jitter buffer into a playout buffer, from which the samples
    are read at the pace of the media clock.

    - [Prelude]: 32-bit words, tactics and the hint database [sems] (this file).
    - [Wheeltimer]: core/sip/wheeltimer.h and .cpp.  The state is the record [wheeltimer]:
      four wheels of 256 slots, the queue of requests, the clock; one [Definition] per
      method.  The specification is a flat collection of pending timers.  [TimerObjects]: which
      timer objects the requests and slots of a wheel refer to, and that a tick deletes exactly
      those whose removal was asked for; shared by the transaction layer and [AppTimer].
    - [SipMsg]: the fields of a parsed message that the layer reads, sockets, and
      [sip_target_set] of core/sip/resolver.cpp, the iterator over destinations.
    - [SipTrans]: core/sip/sip_trans.h, sip_trans.cpp, sip_timers.h and .cpp.  Transactions
      and timers in heaps, the monad of the layer (state, faults, locks, events), the tick of
      the wheel that deletes timer objects ([wheel_tick]), the environment [env].
    - [TransTable]: core/sip/trans_table.cpp and core/hash_table.h: buckets, matching,
      branches and tags.
    - [TransLayer]: core/sip/trans_layer.cpp: [send_reply], [send_request], [cancel],
      [process_rcvd_msg], the four update functions, [timer_expired], [timeout],
      [transport_error], [try_next_ip].
    - [TransLogic]: Hoare triples over the monad, the representation invariant [Inv] and
      the rules for the operations; [TransView]: the exact effect of the operations on one
      transaction; [TransDemo]: a configuration and messages for concrete runs.
    - [TransSafety], [TransMatch], [TransClient], [TransServer], [TransFailover]: the
      theorems on the layer.
    - [MimeBody]: core/AmMimeBody.cpp, the parts of a body; [DialogMsg]: the messages and
      the transaction maps of a dialog.
    - [Rel100]: core/Am100rel.cpp, reliable provisional replies, with its theorems.
    - [OfferAnswer]: core/AmOfferAnswer.cpp and the fields of a dialog; the state [oa] is
      the machine together with its dialog.  [OfferAnswerSpec]: the abstract machine, the
      interface [Dialog] to the dialog and the theorems against it.
    - [SipDialog]: core/AmSipDialog.cpp and the transactions of core/AmBasicSipDialog.cpp;
      [SipDialogSpec]: it implements the interface; [Exchanges]: whole offer/answer
      exchanges; [SipDialogInv]: the invariant of its transactions over everything that the
      peer, the session and time-outs can do.
    - [ParseCommon]: core/sip/parse_common.h and .cpp, cstring.h: character classes, the
      comparison of names, strings as pieces of a byte memory, and the rules for the loops
      of the parsers; [AmUtils]: the number texts of core/AmUtils.cpp.
    - [SipHeader]: core/sip/parse_header.cpp; [ParseParams], [ParseCSeq], [ParseUri],
      [ParseVia], [ParseNameAddr], [ParseExtensions]: the parsers of header values
      (parse_common.cpp, parse_cseq.cpp and parse_100rel.cpp, parse_uri.cpp, parse_via.cpp,
      parse_nameaddr.cpp and parse_from_to.cpp, parse_extensions.cpp).  A parser is the
      function of the source on one character, run by a loop over the text, and its end.
    - [SipParser]: core/sip/sip_parser.cpp, the parser of whole messages.
    - [SipParserAsync]: core/sip/sip_parser_async.cpp, which finds the end of a message in a
      stream that is still arriving; [TcpTrsp]: the connection of core/sip/tcp_trsp.cpp.
    - [MsgHdrs]: core/sip/msg_hdrs.{h,cpp}, msg_fline.{h,cpp} and the places of
      trans_layer.cpp that compose messages; [MsgRoundtrip]: what is composed is parsed.
    - [MimeParser]: core/AmMimeBody.cpp, content types, the parser of multipart bodies, the
      printer and the operations on bodies; [MimeRoundtrip]: printed bodies are parsed back;
      [MimeView]: the operations implement the view of [MimeBody], on which the dialogs run.
    - [Sdp]: core/AmSdp.cpp, the parser, printer and comparison of session descriptions and
      the answer to an offer; [SdpRoundtrip] and [SdpProps]: the theorems on it.
    - [SampleArray]: core/SampleArray.cc, the ring of samples; [JitterBuffer]:
      core/AmJitterBuffer.cpp; [PlayoutBuffer]: core/AmPlayoutBuffer.cpp and the concealment
      of core/AmRtpAudio.cpp.  [RtpPacket]: core/AmRtpPacket.cpp; [Crc4]: core/crc4.cpp;
      [RtpMux]: core/AmRtpMuxStream.cpp, streams of RTP packets over one port.
    - [B2BSession]: core/AmB2BSession.cpp, the legs of a back-to-back call, over the
      interface [LegDialog] to their dialog; [DialogLeg]: the dialogs of [SipDialog] provide
      it; [B2BProps]: the theorems on relaying; [CallerSession]: [AmB2BCallerSession] of the
      same file, the leg that makes the other one, and how a call is set up; [LocalBody]: how
      the description in a relayed body is rewritten.  [CallLegHelpers]: the helpers of
      apps/sbc/CallLeg.cpp.
    - [CallLeg]: apps/sbc/CallLeg.cpp, CallLegEvents.h and SessionUpdate.cpp, the legs of the
      session border controller: the state of [B2BSession] with the record [leg], one
      definition per method.  [CallLegRefs]: what every operation does to the references to
      media sessions and to the queue of updates; [CallLegSystem]: legs and the events in
      flight between them, as a step relation; [CallLegProps]: forking and the end of calls.
    - [Dns]: core/sip/parse_dns.{h,cpp}, the parser of DNS messages, with its theorems;
      [Resolver]: core/sip/resolver.{h,cpp}, the records of an answer, the cache, the
      iteration over SRV records and addresses, and the targets of a request;
      [ResolverProps]: the theorems on it.
    - [AppTimer]: core/AmAppTimer.{h,cpp}, the timers of applications over [Wheeltimer], with
      a heap of timer objects and a step relation in which setting and removing timers comes
      between any two callbacks; [HdrText]: the functions of core/AmSipMsg.cpp and
      core/AmUtils.cpp on the text of headers; [SessionTimer]:
      core/plug-in/session_timer/SessionTimer.{h,cpp}, the session timer of RFC 4028, over both.
    - [Subscription]: core/AmSipSubscription.{h,cpp}, the subscriptions of a dialog, with their
      timers of [AppTimer] and the replies of their dialog, which call the handlers back;
      [SubscriptionProps]: the theorems on them.

    ** What the theorems show

    - Timer wheel: a tick refines the flat collection ([turn_wheel_refines]), a timer goes
      off at its tick ([timer_fires_exactly]); the limits of the 32-bit clock.
    - Safety: the layer is a transition system whose steps are the entry points, ticks of the
      wheel and the firing of the timers of a tick in any order; no step faults in a reachable
      state (use or repeated deletion of transactions and timer objects, null pointers, failed
      assertions, locking errors), every lock is released and the table stays well formed
      ([layer_safe]; a RAck that names PRACK is excluded, on which the code asserts); a timer
      touches its own transaction only.
    - Matching: [match_request] returns the first transaction that the request selects, by the
      rules of RFC 3261 or, without the cookie, by those of the code ([match_request_first]);
      an ACK built by the client finds the INVITE; the form of generated tags.
    - Client and server transactions: the handlers implement abstract machines of RFC 3261
      with the Accepted state of RFC 6026 ([invite_client_refines]; [server_refines], a
      simulation from the entry points and timers to a machine indexed by its state), with the
      timers of each state, re-transmission with doubled delays, time-outs and the absorption
      of repeated messages.
    - Cancellation and fail-over: the loop over the destinations ends, what [cancel] does.
    - Offer/answer: the handlers follow RFC 3264 (a completed exchange can be lost with a new
      offer that fails, as by a repeated ACK), sessions start once and only on a
      description they accepted, the usual exchanges complete.
    - Dialogs: the pending transactions and the count of pending INVITEs are right in every
      reachable state (unless lower CSeqs of NOTIFYs are ignored), glare is answered 491, ending a dialog ends its transactions;
      reliable provisional replies are acknowledged before others are sent and are handed
      over once.
    - Parsers: every parser ends on every text; what is written in the format of a message, a
      URI, a Via, a name-addr, a list of them or of option tags is read into its parts;
      messages with missing or repeated mandatory headers are refused.
    - Composition: every composed message fills its buffer exactly, and a composed request
      is parsed into what it was composed of.
    - Connections: the messages handed on do not depend on how the stream is cut into reads, as
      long as no read that completes a message ends inside a header of the next; what is stored
      and pointed to stays in the input buffer, while the scanner of headers reads one character
      behind the data ([header_over_read]); messages are sent whole and in order.
    - Bodies and descriptions: what is printed is parsed back, for bodies with nested parts
      that their boundaries do not clash with and for session descriptions ([mime_roundtrip], [sdp_roundtrip]); the parsers end on
      every text; an answer follows the offer.
    - Media: the sample ring is a time line ([sample_array_refines]), the jitter buffer a list
      of packets in the order of time ([jitter_buffer_refines], [jitter_buffer_in_order]), the
      simple playout a queue ([playout_is_queue]); the buffers are never left as long as the
      reads have no long pause ([jb_playout_safe]); no byte behind a packet is read
      ([rtp_parse_safe]); multiplexed and compressed packets of at most 255 bytes come out as
      they went in, when their time stamps advance as frames can tell ([mux_roundtrip]).
    - Back-to-back calls: a request that one leg relays is sent by the other one and its
      replies answer exactly that request ([relay_end_to_end]); the entry that leads them back
      stands as long as it is needed ([relayed_entry_kept]); a call is set up through both
      legs ([call_set_up]).
    - Call legs: in every system of legs that is reached media sessions are not deleted while
      they are used ([media_not_deleted_early]) and a session has one update under way at a
      time ([one_update_at_a_time]); the first answer of a forked call wins
      ([first_2xx_wins]) and a call that is stopped is stopped for all ([stop_ends_all]).
    - Resolver: whatever a name server answers, its message is read within its bounds
      ([dns_parse_safe]), and a message as it is written is read into its records
      ([dns_message_roundtrip]); resolving ends, and with addresses as the targets of SRV
      records it returns ([resolve_targets_end]), every SRV record is
      used once and in the order of the priorities ([srv_all_once]), and the cache serves an
      entry until it expires and not longer ([cache_serves]).
    - Application timers: no timer object is used after it was deleted, none is lost
      ([app_timers_safe]), a timer posts its event once and in its tick ([app_timer_exact]),
      and one that was removed is silent ([removed_timer_silent]).
    - Headers as text: the functions implement a list of headers ([header_text_refines]).
    - Session timers: the two ends of a session agree on the interval and on who refreshes it,
      and keep both over later requests ([session_timers_agree]), an interval that is refused is
      corrected if the own maximum allows it ([too_small_retried]), and a session that is not refreshed expires at its time
      ([session_expires], over the theorems on application timers).
    - Subscriptions, without the dialog class of their own: no subscription is used after it was deleted, the usages of the dialog are
      counted right and no subscription is left without a timer ([subscriptions_safe]), nor a
      timer without its subscription ([destroy_leaves_nothing]); one that is not refreshed ends
      at its time ([subscription_expires]); subscriber and notifier agree after an exchange
      ([subscribe_notify_agree]).
    - A number of theorems state what the code does where it does not do what it means to:
      the clock wrap, the tag alphabet, dialogs compared by a common part of their identifiers,
      PRACK of a PRACK, lost timers, abandoned calls, the
      RSeq that is searched in the request, unanswered offers and repeated ACKs, the INVITE
      that is counted as pending for good, replies that 100rel refuses too late; on the side of
      the parsers a header cut by two reads, empty lines between messages, names taken by a
      part of them only, white space around [=], folded and listed Via values; lines of
      session descriptions that are read behind their end, boundaries that are not found, the
      resynchronisation of the jitter buffer, multiplexed frames that are misread, relayed
      requests that could not be sent, entries of legs that stay and replacements that are lost;
      names in SRV records that are not looked up, records that are skipped or read behind
      their end; options that are lost when another one is removed, headers hidden by a tab and
      the compact form of Supported, which is not read; subscriptions that are ended or refused
      when SUBSCRIBEs overlap, lose their reply, are used after they were deleted or are ended by
      the time-out of another one.

    ** Conventions

    Unsigned machine integers are elements of [Z] with [u32] where they can wrap.  A
    [cstring] is a list of characters in the transaction layer; in the parsers it is a
    position and a length in a memory, a function from addresses to bytes.  Pointers are addresses in heaps; a null pointer or
    a missing header is [None].  The functions of the layer run one after another: a bucket
    is locked while a message or timer of it is handled, and the lock is part of the state,
    so that a double lock or a missing unlock is a fault; interleavings of threads inside
    one call are not modelled, but for the timers of applications, where each call of a session
    and each callback is a step of its own, and the timers of a tick of the transaction layer, which
    fire one by one between other calls.  Addresses are not used again.  A call into the user agent is an event; what the agent
    does in return is a later call.

    Two loops run with fuel over the destinations, in [try_next_ip] and in [send_request].
    The fuel is one more than the number of destinations, which the iterator cannot exceed
    ([try_next_dest_terminates], [send_request_loop_enough]); [get_next] has one more than
    the destinations left.  The loop of [termUasTrans] has one round per transaction and
    ends with none left ([term_uas_empties]).  The loops of the parsers run with
    the number of characters left as fuel, or twice that number where a state hands a
    character on to the next one; each parser has a theorem that this is enough, or a
    statement that covers its result on every text.  The stream scanner makes at most one
    round per stage and its header loop at most one round per character.  The parser of session
    descriptions has twice the length of the text and two more rounds ([sdp_parse_ends]), that
    of bodies one more than the length ([mime_parse_ends]); the loops over the lists of the
    jitter buffer have one round per node of the allocator and are run by theorems that
    exclude the fault of running out; the receiver of multiplexed frames has one round per
    byte.  The loop over the pending updates of a leg has one round per update, of which each
    round removes or starts one.  A name of a DNS message is expanded in at most as many rounds
    as the message has bytes and 258 more (each pointer is counted, [dns_parse_safe]); the
    calls of the resolver nest at most [DEPTH] = 67 deep (each uses one of the 64 choices that a
    handle of 32 records has at most), and a handle gives at most [rounds] targets
    ([resolve_targets_end]).  The loops over header texts have
    one round per character and one more; each round moves on by a line or takes a header away
    (the theorems of [HdrText] are on their results).  The handler of the replies to
    subscriptions calls itself at most once ([REPLY_DEPTH]; [subscriptions_safe] excludes the
    fault of going deeper).  All other recursions are structural.

    ** What is a parameter, and what is left out

    Parameters ([env], [oa_env]): the hash function, the outcome of sending, the choice of
    an interface by the operating system, the text of composed messages and whether it
    parses, whether a destination is blacklisted (the timers of the blacklist are not in the
    wheel of the layer), for the dialogs the SDP parser and printer, the session, the random first RSeq.  For
    the media the sending of packets and the concealment of another class ([PLC]) are
    parameters, for the back-to-back sessions their environment ([b2b_env]) and overridden
    methods ([hooks], [virtuals]), for the call legs [leg_env] with the methods of the derived
    class, for the resolver [res_env]: the answers of the name servers, [inet_pton], the hash and
    the random numbers, for the subscriptions [sub_env]: new addresses, the outcome of sending
    and the time; what another dialog calls back while it sends a message is handled when its call has
    returned.  The interface
    [Dialog] states what the offer/answer machine needs of the dialog; [sip_dialog_ok] is
    its instance.

    The layer runs on parsed messages as [SipMsg] has them, not on the records of the
    parsers; the two are not connected by a theorem.

    Left out: parse_route.cpp and parse_next_hop.cpp, listening and UDP sockets, logging
    and statistics, the URIs, routes and Contact of a dialog, the adaptive playout and LowcFE
    (floating point), codecs, mixers, the media streams (AmRtpStream.cpp, AmB2BMedia.cpp), the
    container of subscriptions, the configuration of session timers (their time-outs are whole
    numbers, of microseconds, not floating point numbers), the derived classes of [CallLeg] with the
    call profile, the configuration and the other applications. *)

From stdpp Require Import base list gmap.
From Stdlib Require Import ZArith Lia.

Local Open Scope Z_scope.

(** ** Machine integers

    An [unsigned int] / [u_int32_t] of the source is an element of [Z]
    kept in [0 .. 2^32): every operation of the source that can leave the range is
    followed by [u32]. *)

Definition u32_mod : Z := 4294967296.

Definition u32 (x : Z) : Z := x mod u32_mod.

(** [0 <= x < 2^32]. *)
Definition is_u32 (x : Z) : Prop := 0 <= x < u32_mod.

(** The [n]-th byte of [x], [(x >> (n * 8)) & 0xFF]. *)
Definition byte_at (n : nat) (x : Z) : Z :=
  Z.land (Z.shiftr x (8 * Z.of_nat n)) 255.

(** ** Tactics and hints *)

Create HintDb sems discriminated.

(** Split every conjunction of the goal. *)
Ltac splits := repeat match goal with |- _ /\ _ => split end.

(** Turn every boolean comparison in the context into its proposition. *)
Ltac zbool :=
  repeat match goal with
  | H : (_ =? _) = true |- _ => apply Z.eqb_eq in H
  | H : (_ =? _) = false |- _ => apply Z.eqb_neq in H
  | H : (_ <? _) = true |- _ => apply Z.ltb_lt in H
  | H : (_ <? _) = false |- _ => apply Z.ltb_ge in H
  | H : (_ <=? _) = true |- _ => apply Z.leb_le in H
  | H : (_ <=? _) = false |- _ => apply Z.leb_gt in H
  | H : (_ && _)%bool = true |- _ => apply andb_true_iff in H; destruct H
  | H : (_ || _)%bool = false |- _ => apply orb_false_iff in H; destruct H
  | H : negb _ = true |- _ => apply negb_true_iff in H
  | H : negb _ = false |- _ => apply negb_false_iff in H
  end.

(** ** Arithmetic of 32-bit words *)

Lemma u32_range x : is_u32 (u32 x).
Proof. unfold is_u32, u32. apply Z.mod_pos_bound. reflexivity. Qed.

Lemma u32_small x : is_u32 x -> u32 x = x.
Proof. unfold is_u32, u32. intros H. apply Z.mod_small. exact H. Qed.

#[export] Hint Resolve u32_range : sems.

(** [u32] of a value that left the range by less than one turn. *)
Lemma u32_below x : - u32_mod <= x < 0 -> u32 x = x + u32_mod.
Proof.
  unfold u32, u32_mod. intros H.
  symmetry. apply Z.mod_unique with (q := -1); lia.
Qed.

Lemma byte_at_div n x : byte_at n x = (x / 2 ^ (8 * Z.of_nat n)) mod 256.
Proof.
  unfold byte_at. rewrite Z.shiftr_div_pow2 by lia.
  change 255 with (Z.ones 8). rewrite Z.land_ones by lia. reflexivity.
Qed.

Lemma byte_at_range n x : 0 <= byte_at n x < 256.
Proof. rewrite byte_at_div. apply Z.mod_pos_bound. lia. Qed.

Lemma byte_at_lxor n a b :
  byte_at n (Z.lxor a b) = Z.lxor (byte_at n a) (byte_at n b).
Proof.
  unfold byte_at. rewrite Z.shiftr_lxor.
  apply Z.bits_inj'. intros k Hk.
  rewrite Z.lxor_spec, !Z.land_spec, Z.lxor_spec.
  destruct (Z.testbit 255 k), (Z.testbit (Z.shiftr a _) k),
    (Z.testbit (Z.shiftr b _) k); reflexivity.
Qed.

(** A byte of the exclusive or is zero exactly where the operands agree: the test
    the wheel timer uses to compare digits. *)
Lemma byte_at_lxor_0 n a b :
  byte_at n (Z.lxor a b) = 0 <-> byte_at n a = byte_at n b.
Proof. rewrite byte_at_lxor. apply Z.lxor_eq_0_iff. Qed.

(** A 32-bit word is its four bytes. *)
Lemma u32_bytes x :
  is_u32 x ->
  x = byte_at 0 x + 256 * byte_at 1 x + 65536 * byte_at 2 x + 16777216 * byte_at 3 x.
Proof.
  unfold is_u32, u32_mod. intros H. rewrite !byte_at_div.
  change (2 ^ (8 * Z.of_nat 0)) with 1. change (2 ^ (8 * Z.of_nat 1)) with 256.
  change (2 ^ (8 * Z.of_nat 2)) with 65536.
  change (2 ^ (8 * Z.of_nat 3)) with 16777216.
  Z.div_mod_to_equations. lia.
Qed.
