(* ===== verification/Wheeltimer.v ===== *)
(** * The hierarchical timer wheel

    Model of [core/sip/wheeltimer.h] and [core/sip/wheeltimer.cpp]: the four wheels of
    256 slots, the backlog of insert/remove requests, [turn_wheel] (one 20 ms tick),
    the placement and cascading of timers and [interval_elapsed].

    The intrusive doubly linked list of a slot is a list of timers, head first; a timer
    carries the address of its object ([tm_ptr]) because removal is by identity.  The
    virtual [fire] method only ever reaches the wheel through [insert_timer] and
    [remove_timer], that is through the backlog, so [process_current_timers] hands back
    the timers to fire and the owner of the timers runs them (SipTrans).  The real-time
    loop [run] and the Unix clock are not modelled: one call of [turn_wheel] is one tick.

    The specification is a plain collection of pending timers; [turn_wheel_refines]
    shows that the cascading wheels implement it, and [timer_fires_exactly] that a timer
    goes off at its tick and at no other. *)

From stdpp Require Import base list gmap.
From Stdlib Require Import ZArith Lia Permutation.
From S2P Require Import Prelude.

Local Open Scope Z_scope.

(** ** Data *)

Definition BITS_PER_WHEEL : Z := 8.
Definition WHEELS : nat := 4.
Definition TIMER_RESOLUTION : Z := 20000.

Definition MS_TO_WALL_CLOCK (t : Z) : Z := t / (TIMER_RESOLUTION / 1000).
Definition WALL_CLOCK_TO_MS (t : Z) : Z := u32 (t * (TIMER_RESOLUTION / 1000)).

Record timer := mk_timer { tm_ptr : nat; tm_expires : Z }.

#[export] Instance timer_eq_dec : EqDecision timer.
Proof. solve_decision. Defined.

Record timer_req := mk_req { rq_t : timer; rq_insert : bool }.

Record wheeltimer := mk_wheeltimer {
  wheels : gmap (nat * Z) (list timer);
  reqs_backlog : list timer_req;
  reqs_process : list timer_req;
  wall_clock : Z
}.

Definition wheeltimer_init : wheeltimer := mk_wheeltimer ∅ [] [] 0.

Definition set_wheels (ws : gmap (nat * Z) (list timer)) (s : wheeltimer) : wheeltimer :=
  mk_wheeltimer ws (reqs_backlog s) (reqs_process s) (wall_clock s).

Definition set_wall_clock (c : Z) (s : wheeltimer) : wheeltimer :=
  mk_wheeltimer (wheels s) (reqs_backlog s) (reqs_process s) c.

(** The list hanging off [wheels[w][p]]. *)
Definition slot (s : wheeltimer) (w : nat) (p : Z) : list timer :=
  default [] (wheels s !! (w, p)).

(** ** Operations *)

Definition insert_timer (t : timer) (s : wheeltimer) : wheeltimer :=
  mk_wheeltimer (wheels s) (reqs_backlog s ++ [mk_req t true]) (reqs_process s)
    (wall_clock s).

(** [None] is the null pointer, which the source ignores. *)
Definition remove_timer (t : option timer) (s : wheeltimer) : wheeltimer :=
  match t with
  | None => s
  | Some t =>
      mk_wheeltimer (wheels s) (reqs_backlog s ++ [mk_req t false]) (reqs_process s)
        (wall_clock s)
  end.

Definition interval_elapsed (s : wheeltimer) (old_wall_clock interval_ms : Z) : bool :=
  let diff := u32 (wall_clock s - old_wall_clock) in
  interval_ms <=? WALL_CLOCK_TO_MS diff.

(** [t1 - t2 > (1U<<31)] on 32-bit words. *)
Definition less_ts (t1 t2 : Z) : bool := 2147483648 <? u32 (t1 - t2).

Definition add_timer_to_wheel (t : timer) (wheel : nat) (pos : Z) (s : wheeltimer)
  : wheeltimer :=
  set_wheels (<[(wheel, pos) := t :: slot s wheel pos]> (wheels s)) s.

(** The [for] loop of [place_timer(t,wheel)]: the highest wheel, at most [wheel], whose
    digit of [clock_mask] is not zero, and wheel 0 otherwise. *)
Fixpoint wheel_level (clock_mask : Z) (wheel : nat) : nat :=
  match wheel with
  | O => O
  | S w => if byte_at wheel clock_mask =? 0 then wheel_level clock_mask w else wheel
  end.

Definition place_timer_from (t : timer) (wheel : nat) (s : wheeltimer) : wheeltimer :=
  let clock_mask := Z.lxor (tm_expires t) (wall_clock s) in
  let wheel := wheel_level clock_mask wheel in
  let pos := byte_at wheel (tm_expires t) in
  add_timer_to_wheel t wheel pos s.

Definition place_timer (t : timer) (s : wheeltimer) : wheeltimer :=
  if less_ts (tm_expires t) (wall_clock s)
  then add_timer_to_wheel t 0 (byte_at 0 (wall_clock s)) s
  else place_timer_from t (WHEELS - 1)%nat s.

(** Unlinking a timer from whatever list it is in; nothing happens when it is in none
    (it has fired already). *)
Definition delete_timer (t : timer) (s : wheeltimer) : wheeltimer :=
  set_wheels (List.filter (fun t' => negb (tm_ptr t' =? tm_ptr t)%nat) <$> wheels s) s.

(** [None] is undefined behaviour: [wheels[wheel]] is past the end of the array and
    [wall_clock >> (wheel*BITS_PER_WHEEL)] shifts by the width of the word. *)
Fixpoint update_wheel (wheel : nat) (s : wheeltimer) : option wheeltimer :=
  match wheel with
  | O => Some s
  | S w =>
      if (WHEELS <=? wheel)%nat then None
      else
        let pos := byte_at wheel (wall_clock s) in
        let s1 := fold_left (fun s t => place_timer_from t w s) (slot s wheel pos) s in
        update_wheel w (set_wheels (<[(wheel, pos) := []]> (wheels s1)) s1)
  end.

(** The loop of [turn_wheel] that determines which wheel should be updated: the first
    whose digit is not about to wrap. *)
Fixpoint wheel_to_update (clock mask : Z) (i n : nat) : nat :=
  match n with
  | O => i
  | S n =>
      if Z.lxor (Z.land clock mask) mask =? 0
      then wheel_to_update clock (u32 (Z.shiftl mask BITS_PER_WHEEL)) (S i) n
      else i
  end.

Definition process_req (s : wheeltimer) (rq : timer_req) : wheeltimer :=
  if rq_insert rq then place_timer (rq_t rq) s else delete_timer (rq_t rq) s.

Definition process_current_timers (s : wheeltimer) : wheeltimer * list timer :=
  let pos := byte_at 0 (wall_clock s) in
  (set_wheels (<[(0%nat, pos) := []]> (wheels s)) s, slot s 0 pos).

(** One tick.  The result is the new state and the timers to fire, in order. *)
Definition turn_wheel (s : wheeltimer) : option (wheeltimer * list timer) :=
  let i := wheel_to_update (wall_clock s) 255 0 WHEELS in
  let s := set_wall_clock (u32 (wall_clock s + 1)) s in
  match update_wheel i s with
  | None => None
  | Some s =>
      let s := mk_wheeltimer (wheels s) (reqs_process s) (reqs_backlog s) (wall_clock s) in
      let s := fold_left process_req (reqs_process s) s in
      let s := mk_wheeltimer (wheels s) (reqs_backlog s) [] (wall_clock s) in
      Some (process_current_timers s)
  end.

(** [n] ticks with no request in between: the final state and, per tick, what fired. *)
Fixpoint turn_wheels (n : nat) (s : wheeltimer) : option (wheeltimer * list (list timer)) :=
  match n with
  | O => Some (s, [])
  | S n =>
      match turn_wheel s with
      | None => None
      | Some (s, fired) =>
          match turn_wheels n s with
          | None => None
          | Some (s, fs) => Some (s, fired :: fs)
          end
      end
  end.

(** ** Specification: a collection of pending timers *)

(** A timer is due when it is late or its tick is now. *)
Definition due (now : Z) (t : timer) : bool :=
  less_ts (tm_expires t) now || (tm_expires t =? now).

Definition spec_req (pending : list timer) (rq : timer_req) : list timer :=
  if rq_insert rq then rq_t rq :: pending
  else List.filter (fun t' => negb (tm_ptr t' =? tm_ptr (rq_t rq))%nat) pending.

(** Everything linked into the wheels. *)
Definition timers_of (s : wheeltimer) : list timer :=
  concat (snd <$> map_to_list (wheels s)).

(** Where an unexpired timer belongs at time [now]. *)
Definition home (now : Z) (t : timer) : nat * Z :=
  let w := wheel_level (Z.lxor (tm_expires t) now) (WHEELS - 1)%nat in
  (w, byte_at w (tm_expires t)).

(** The position invariant while a tick is processed: late timers wait in the current
    slot, the others are at home. *)
Definition placed (now : Z) (w : nat) (p : Z) (t : timer) : Prop :=
  is_u32 (tm_expires t) /\
  if less_ts (tm_expires t) now then (w, p) = (0%nat, byte_at 0 now) else (w, p) = home now t.

Definition all_slots (P : nat -> Z -> timer -> Prop) (s : wheeltimer) : Prop :=
  forall w p t, t ∈ slot s w p -> P w p t.

(** The invariant between ticks: no timer in the wheels is due, each is in the slot of
    the highest digit in which it differs from the clock. *)
Definition wheel_wf (s : wheeltimer) : Prop :=
  is_u32 (wall_clock s) /\
  reqs_process s = [] /\
  all_slots (fun w p t => placed (wall_clock s) w p t /\ due (wall_clock s) t = false) s.

Definition reqs_ok (s : wheeltimer) : Prop :=
  Forall (fun rq => is_u32 (tm_expires (rq_t rq))) (reqs_backlog s).

(** ** Slots and the collection of timers *)

Lemma slot_set_wheels s k l w p :
  slot (set_wheels (<[k := l]> (wheels s)) s) w p
  = if decide (k = (w, p)) then l else slot s w p.
Proof.
  unfold slot, set_wheels. simpl. rewrite lookup_insert. by case_decide.
Qed.

Lemma slot_add t w p s w' p' :
  slot (add_timer_to_wheel t w p s) w' p'
  = if decide ((w, p) = (w', p')) then t :: slot s w p else slot s w' p'.
Proof. apply slot_set_wheels. Qed.

Lemma concat_slots_insert (ws : gmap (nat * Z) (list timer)) k l :
  concat (snd <$> map_to_list (<[k := l]> ws))
  ≡ₚ l ++ concat (snd <$> map_to_list (delete k ws)).
Proof.
  rewrite <- insert_delete_eq.
  rewrite (map_to_list_insert (delete k ws) k l) by apply lookup_delete_eq.
  done.
Qed.

Lemma concat_slots_split (ws : gmap (nat * Z) (list timer)) k :
  concat (snd <$> map_to_list ws)
  ≡ₚ default [] (ws !! k) ++ concat (snd <$> map_to_list (delete k ws)).
Proof.
  destruct (ws !! k) as [l|] eqn:E; simpl.
  - rewrite <- (insert_id ws k l E) at 1. apply concat_slots_insert.
  - by rewrite delete_id.
Qed.

Lemma timers_of_add t w p s :
  timers_of (add_timer_to_wheel t w p s) ≡ₚ t :: timers_of s.
Proof.
  unfold timers_of, add_timer_to_wheel. simpl.
  rewrite concat_slots_insert, (concat_slots_split (wheels s) (w, p)). done.
Qed.

Lemma timers_of_clear w p s :
  timers_of s ≡ₚ slot s w p ++ timers_of (set_wheels (<[(w, p) := []]> (wheels s)) s).
Proof.
  unfold timers_of, slot. simpl.
  rewrite concat_slots_insert, (concat_slots_split (wheels s) (w, p)). done.
Qed.

Lemma filter_concat {A} (f : A -> bool) (ls : list (list A)) :
  List.filter f (concat ls) = concat (List.filter f <$> ls).
Proof.
  induction ls as [|l ls IH]; simpl; [done|]. by rewrite List.filter_app, IH.
Qed.

Lemma filter_perm {A} (f : A -> bool) (l1 l2 : list A) :
  l1 ≡ₚ l2 -> List.filter f l1 ≡ₚ List.filter f l2.
Proof.
  induction 1; simpl; repeat case_match; try done; try by constructor.
  by etrans.
Qed.

Lemma timers_of_delete t s :
  timers_of (delete_timer t s)
  ≡ₚ List.filter (fun t' => negb (tm_ptr t' =? tm_ptr t)%nat) (timers_of s).
Proof.
  unfold timers_of, delete_timer. simpl.
  rewrite map_to_list_fmap, filter_concat.
  rewrite <- !list_fmap_compose. done.
Qed.

Lemma slot_delete t s w p :
  slot (delete_timer t s) w p
  = List.filter (fun t' => negb (tm_ptr t' =? tm_ptr t)%nat) (slot s w p).
Proof.
  unfold slot, delete_timer. simpl. rewrite lookup_fmap.
  by destruct (wheels s !! (w, p)).
Qed.

Lemma elem_of_filterb {A} (f : A -> bool) (l : list A) x :
  x ∈ List.filter f l <-> x ∈ l /\ f x = true.
Proof. by rewrite !list_elem_of_In, filter_In. Qed.

Lemma elem_of_timers_of s t : t ∈ timers_of s <-> exists w p, t ∈ slot s w p.
Proof.
  split.
  - unfold timers_of. rewrite list_elem_of_In, in_concat.
    intros (l & Hl & Ht). apply list_elem_of_In, list_elem_of_fmap in Hl as ([[w p] l'] & -> & Hl).
    apply elem_of_map_to_list in Hl. exists w, p. unfold slot. rewrite Hl.
    by apply list_elem_of_In.
  - intros (w & p & Ht). rewrite (timers_of_clear w p). apply elem_of_app. by left.
Qed.

(** Splitting a collection by a predicate recovers the two parts. *)
Lemma filter_split {A} (f : A -> bool) (l a b : list A) :
  l ≡ₚ a ++ b -> (forall x, x ∈ a -> f x = true) -> (forall x, x ∈ b -> f x = false) ->
  a ≡ₚ List.filter f l /\ b ≡ₚ List.filter (fun x => negb (f x)) l.
Proof.
  intros Hp Ha Hb.
  assert (Hall : forall (g : A -> bool) m, (forall x, x ∈ m -> g x = true) -> List.filter g m = m).
  { intros g m Hm. induction m as [|x m IH]; simpl; [done|].
    rewrite Hm by left. f_equal. apply IH. intros y Hy. apply Hm. by right. }
  assert (Hnone : forall (g : A -> bool) m, (forall x, x ∈ m -> g x = false) -> List.filter g m = []).
  { intros g m Hm. induction m as [|x m IH]; simpl; [done|].
    rewrite Hm by left. apply IH. intros y Hy. apply Hm. by right. }
  split.
  - rewrite (filter_perm f _ _ Hp), List.filter_app, (Hall f a), (Hnone f b) by done.
    by rewrite app_nil_r.
  - rewrite (filter_perm _ _ _ Hp), List.filter_app.
    rewrite (Hnone (fun x => negb (f x)) a), (Hall (fun x => negb (f x)) b); [done|..].
    + intros x Hx. by rewrite Hb.
    + intros x Hx. by rewrite Ha.
Qed.

(** ** Digits *)

Lemma due_false e now p :
  is_u32 e -> is_u32 now ->
  due now (mk_timer p e) = false <-> (0 < e - now <= 2147483648 \/ e - now <= -2147483648).
Proof.
  unfold due, less_ts, is_u32. cbn [tm_expires]. intros He Hn.
  destruct (Z_lt_le_dec (e - now) 0) as [Hlt|Hge].
  - rewrite u32_below by (unfold u32_mod in *; lia).
    rewrite orb_false_iff, Z.ltb_ge, Z.eqb_neq. unfold u32_mod in *. lia.
  - rewrite u32_small by (unfold is_u32, u32_mod in *; lia).
    rewrite orb_false_iff, Z.ltb_ge, Z.eqb_neq. lia.
Qed.

Lemma less_ts_false e now :
  is_u32 e -> is_u32 now ->
  less_ts e now = false <-> (0 <= e - now <= 2147483648 \/ e - now <= -2147483648).
Proof.
  unfold less_ts, is_u32. intros He Hn.
  destruct (Z_lt_le_dec (e - now) 0) as [Hlt|Hge].
  - rewrite u32_below by (unfold u32_mod in *; lia).
    rewrite Z.ltb_ge. unfold u32_mod in *. lia.
  - rewrite u32_small by (unfold is_u32, u32_mod in *; lia).
    rewrite Z.ltb_ge. lia.
Qed.

Lemma byte_mask_test clock (i : nat) :
  (Z.lxor (Z.land clock (Z.shiftl 255 (8 * Z.of_nat i))) (Z.shiftl 255 (8 * Z.of_nat i)) =? 0)
  = (byte_at i clock =? 255).
Proof.
  replace (Z.land clock (Z.shiftl 255 (8 * Z.of_nat i)))
    with (Z.shiftl (byte_at i clock) (8 * Z.of_nat i)).
  2: { unfold byte_at. apply Z.bits_inj'. intros k Hk.
       rewrite Z.land_spec, !Z.shiftl_spec by lia.
       destruct (Z_lt_le_dec k (8 * Z.of_nat i)).
       - rewrite !(Z.testbit_neg_r _ (k - 8 * Z.of_nat i)) by lia. by rewrite andb_false_r.
       - rewrite Z.land_spec, Z.shiftr_spec by lia. do 2 f_equal. lia. }
  rewrite <- Z.shiftl_lxor.
  apply eq_true_iff_eq. rewrite !Z.eqb_eq, Z.shiftl_eq_0_iff, Z.lxor_eq_0_iff by lia. done.
Qed.

(** The wheel that [turn_wheel] updates is the first whose digit is not 255. *)
Lemma wheel_to_update_spec clock :
  wheel_to_update clock 255 0 WHEELS
  = if negb (byte_at 0 clock =? 255) then 0%nat
    else if negb (byte_at 1 clock =? 255) then 1%nat
    else if negb (byte_at 2 clock =? 255) then 2%nat
    else if negb (byte_at 3 clock =? 255) then 3%nat else 4%nat.
Proof.
  rewrite <- !byte_mask_test. unfold wheel_to_update, WHEELS.
  change (Z.shiftl 255 (8 * Z.of_nat 0)) with 255.
  change (Z.shiftl 255 (8 * Z.of_nat 1)) with (u32 (Z.shiftl 255 BITS_PER_WHEEL)).
  change (Z.shiftl 255 (8 * Z.of_nat 2))
    with (u32 (Z.shiftl (u32 (Z.shiftl 255 BITS_PER_WHEEL)) BITS_PER_WHEEL)).
  change (Z.shiftl 255 (8 * Z.of_nat 3))
    with (u32 (Z.shiftl (u32 (Z.shiftl (u32 (Z.shiftl 255 BITS_PER_WHEEL)) BITS_PER_WHEEL))
      BITS_PER_WHEEL)).
  repeat case_match; done.
Qed.

Lemma byte_test_lxor n a b : (byte_at n (Z.lxor a b) =? 0) = (byte_at n a =? byte_at n b).
Proof. apply eq_true_iff_eq. rewrite !Z.eqb_eq. apply byte_at_lxor_0. Qed.

Lemma wheel_level_le x w : (wheel_level x w <= w)%nat.
Proof. induction w; simpl; [done|]. case_match; lia. Qed.

(** The digits determine the word. *)
Lemma digit_unique a b x y :
  0 <= a < 256 -> 0 <= b < 256 -> a + 256 * x = b + 256 * y -> a = b /\ x = y.
Proof. lia. Qed.

Lemma bytes_unique a0 a1 a2 a3 b0 b1 b2 b3 :
  0 <= a0 < 256 -> 0 <= a1 < 256 -> 0 <= a2 < 256 ->
  0 <= b0 < 256 -> 0 <= b1 < 256 -> 0 <= b2 < 256 ->
  a0 + 256 * a1 + 65536 * a2 + 16777216 * a3 = b0 + 256 * b1 + 65536 * b2 + 16777216 * b3 ->
  a0 = b0 /\ a1 = b1 /\ a2 = b2 /\ a3 = b3.
Proof.
  intros Ha0 Ha1 Ha2 Hb0 Hb1 Hb2 H.
  destruct (digit_unique a0 b0 (a1 + 256 * (a2 + 256 * a3)) (b1 + 256 * (b2 + 256 * b3)))
    as [E0 Hr1]; [done..|lia|].
  destruct (digit_unique a1 b1 (a2 + 256 * a3) (b2 + 256 * b3)) as [E1 Hr2]; [done..|].
  destruct (digit_unique a2 b2 a3 b3) as [E2 Hr3]; done.
Qed.

(** The digits of [now + 1]: the digits below the first one that is not 255 wrap to 0,
    that one is incremented, those above are unchanged. *)
Lemma succ_bytes now b0 b1 b2 b3 :
  is_u32 (now + 1) -> 0 <= b0 < 256 -> 0 <= b1 < 256 -> 0 <= b2 < 256 ->
  now + 1 = b0 + 256 * b1 + 65536 * b2 + 16777216 * b3 ->
  byte_at 0 (now + 1) = b0 /\ byte_at 1 (now + 1) = b1 /\
  byte_at 2 (now + 1) = b2 /\ byte_at 3 (now + 1) = b3.
Proof.
  intros H ? ? ? E. rewrite (u32_bytes _ H) in E.
  apply bytes_unique; try apply byte_at_range; done.
Qed.

(** One tick of the clock: a timer that was at home and not due is still at home, or it
    sits in the slot that the cascade is about to empty and then its new home is below. *)
Lemma home_tick now t i :
  is_u32 now -> is_u32 (now + 1) -> is_u32 (tm_expires t) ->
  due now t = false ->
  i = wheel_to_update now 255 0 WHEELS ->
  (i < 4)%nat /\
  (home (now + 1) t = home now t \/
   (0 < i)%nat /\ home now t = (i, byte_at i (now + 1)) /\
   wheel_level (Z.lxor (tm_expires t) (now + 1)) (i - 1)
   = wheel_level (Z.lxor (tm_expires t) (now + 1)) 3).
Proof.
  intros Hn Hn1 He Hdue ->. destruct t as [ptr e]. cbn [tm_expires] in *.
  apply due_false in Hdue; [|done..].
  rewrite wheel_to_update_spec. unfold home, wheel_level, WHEELS. cbn [Nat.sub tm_expires].
  rewrite !byte_test_lxor.
  pose proof (u32_bytes e He) as Ee. pose proof (u32_bytes now Hn) as En.
  pose proof (byte_at_range 0 now). pose proof (byte_at_range 1 now).
  pose proof (byte_at_range 2 now). pose proof (byte_at_range 3 now).
  pose proof (byte_at_range 0 e). pose proof (byte_at_range 1 e).
  pose proof (byte_at_range 2 e). pose proof (byte_at_range 3 e).
  assert (now <> 4294967295) by (unfold is_u32, u32_mod in *; lia).
  clear Hn He. rename Hn1 into Hs.
  set (c0 := byte_at 0 now) in *. set (c1 := byte_at 1 now) in *.
  set (c2 := byte_at 2 now) in *. set (c3 := byte_at 3 now) in *.
  set (e0 := byte_at 0 e) in *. set (e1 := byte_at 1 e) in *.
  set (e2 := byte_at 2 e) in *. set (e3 := byte_at 3 e) in *.
  destruct (Z.eqb_spec c0 255) as [E0|E0]; cbn [negb].
  2: { destruct (succ_bytes now (c0 + 1) c1 c2 c3 Hs) as (E4 & E5 & E6 & E7); [lia..|]; rewrite ?E4, ?E5, ?E6, ?E7.
       split; [lia|left; reflexivity]. }
  destruct (Z.eqb_spec c1 255) as [E1|E1]; cbn [negb].
  2: { destruct (succ_bytes now 0 (c1 + 1) c2 c3 Hs) as (E4 & E5 & E6 & E7); [lia..|]; rewrite ?E4, ?E5, ?E6, ?E7.
       split; [lia|]. cbn [Nat.sub].
       destruct (Z.eqb_spec e3 c3); [|by left]. destruct (Z.eqb_spec e2 c2); [|by left].
       destruct (Z.eqb_spec e1 (c1 + 1)) as [Heq|]; [right|].
       - rewrite (proj2 (Z.eqb_neq e1 c1)) by lia. splits; [lia|f_equal; exact Heq|reflexivity].
       - destruct (Z.eqb_spec e1 c1); [lia|by left]. }
  destruct (Z.eqb_spec c2 255) as [E2|E2]; cbn [negb].
  2: { destruct (succ_bytes now 0 0 (c2 + 1) c3 Hs) as (E4 & E5 & E6 & E7); [lia..|]; rewrite ?E4, ?E5, ?E6, ?E7.
       split; [lia|]. cbn [Nat.sub]. rewrite ?byte_test_lxor, ?E4, ?E5, ?E6, ?E7.
       destruct (Z.eqb_spec e3 c3); [|by left].
       destruct (Z.eqb_spec e2 (c2 + 1)) as [Heq|]; [right|].
       - rewrite (proj2 (Z.eqb_neq e2 c2)) by lia. splits; [lia|f_equal; exact Heq|reflexivity].
       - destruct (Z.eqb_spec e2 c2); [lia|by left]. }
  destruct (Z.eqb_spec c3 255) as [E3|E3]; cbn [negb].
  2: { destruct (succ_bytes now 0 0 0 (c3 + 1) Hs) as (E4 & E5 & E6 & E7); [lia..|]; rewrite ?E4, ?E5, ?E6, ?E7.
       split; [lia|]. cbn [Nat.sub]. rewrite ?byte_test_lxor, ?E4, ?E5, ?E6, ?E7.
       destruct (Z.eqb_spec e3 (c3 + 1)) as [Heq|]; [right|].
       - rewrite (proj2 (Z.eqb_neq e3 c3)) by lia. splits; [lia|f_equal; exact Heq|reflexivity].
       - destruct (Z.eqb_spec e3 c3); [lia|by left]. }
  lia.
Qed.

Lemma wheel_level_nonzero x k j : wheel_level x k = S j -> byte_at (S j) x <> 0.
Proof.
  induction k as [|k IH]; cbn [wheel_level]; [done|].
  destruct (Z.eqb_spec (byte_at (S k) x) 0); [done|]. by intros [= <-].
Qed.

(** ** Cascading *)

(** The states differ in the wheels only. *)
Definition same_clock (s s' : wheeltimer) : Prop :=
  wall_clock s' = wall_clock s /\ reqs_backlog s' = reqs_backlog s /\
  reqs_process s' = reqs_process s.

Lemma same_clock_trans s1 s2 s3 : same_clock s1 s2 -> same_clock s2 s3 -> same_clock s1 s3.
Proof. unfold same_clock. intros (-> & -> & ->) (-> & -> & ->). done. Qed.

(** Where [place_timer_from] puts a timer. *)
Definition spot (now : Z) (wheel : nat) (t : timer) : nat * Z :=
  let w := wheel_level (Z.lxor (tm_expires t) now) wheel in (w, byte_at w (tm_expires t)).

Lemma slot_place_from t w s w' p' :
  slot (place_timer_from t w s) w' p'
  = if decide (spot (wall_clock s) w t = (w', p')) then t :: slot s w' p' else slot s w' p'.
Proof.
  unfold place_timer_from. rewrite slot_add. unfold spot. case_decide as H; [|done].
  by injection H as -> ->.
Qed.

Lemma fold_place_spec l w s :
  let s' := fold_left (fun s t => place_timer_from t w s) l s in
  same_clock s s' /\ timers_of s' ≡ₚ l ++ timers_of s /\
  (forall w' p', (w < w')%nat -> slot s' w' p' = slot s w' p') /\
  (forall w' p' t, t ∈ slot s' w' p' ->
     t ∈ slot s w' p' \/ t ∈ l /\ spot (wall_clock s) w t = (w', p')).
Proof.
  revert s. induction l as [|t l IH]; intros s; cbn [fold_left].
  { cbn. splits; try done. by left. }
  destruct (IH (place_timer_from t w s)) as (Hsame & Hperm & Hup & Hin). splits.
  - exact Hsame.
  - rewrite Hperm. unfold place_timer_from. rewrite timers_of_add. simpl.
    by rewrite Permutation_middle.
  - intros w' p' Hw. rewrite Hup by done. rewrite slot_place_from.
    rewrite decide_False; [done|]. unfold spot. intros [= Hlev _].
    pose proof (wheel_level_le (Z.lxor (tm_expires t) (wall_clock s)) w). lia.
  - intros w' p' t' Ht'. destruct (Hin _ _ _ Ht') as [H|[H1 H2]].
    + rewrite slot_place_from in H. case_decide as Hs; [|by left].
      apply elem_of_cons in H as [->|H]; [right; split; [by left|done]|by left].
    + right. split; [by right|done].
Qed.

(** Every timer is at home or in the slot that the cascade at wheel [i] empties. *)
Definition cascade_ready (i : nat) (s : wheeltimer) : Prop :=
  all_slots (fun w p t =>
    (w, p) = home (wall_clock s) t \/
    (0 < i)%nat /\ (w, p) = (i, byte_at i (wall_clock s)) /\
    wheel_level (Z.lxor (tm_expires t) (wall_clock s)) (i - 1)
    = wheel_level (Z.lxor (tm_expires t) (wall_clock s)) 3) s.

Lemma update_wheel_spec i s :
  (i < 4)%nat -> cascade_ready i s ->
  exists s', update_wheel i s = Some s' /\ same_clock s s' /\ timers_of s' ≡ₚ timers_of s /\
    all_slots (fun w p t => (w, p) = home (wall_clock s) t) s'.
Proof.
  revert s. induction i as [|i IH]; intros s Hi Hr.
  { exists s. split; [done|]. split; [done|]. split; [done|].
    intros w p t Ht. destruct (Hr w p t Ht) as [H|[H _]]; [done|lia]. }
  cbn [update_wheel]. rewrite (proj2 (Nat.leb_gt WHEELS (S i))) by (unfold WHEELS; lia).
  set (pos := byte_at (S i) (wall_clock s)).
  destruct (fold_place_spec (slot s (S i) pos) i s) as (Hsame & Hperm & Hup & Hin).
  set (s1 := fold_left _ _ _) in *.
  set (s2 := set_wheels (<[(S i, pos) := []]> (wheels s1)) s1).
  assert (Hwall : wall_clock s2 = wall_clock s) by apply Hsame.
  assert (Hhome : all_slots (fun w p t => (w, p) = home (wall_clock s) t) s2).
  { intros w p t Ht. unfold s2 in Ht. rewrite slot_set_wheels in Ht.
    case_decide as Hd; [by apply elem_of_nil in Ht|].
    destruct (Hin w p t Ht) as [H|[H1 H2]].
    - destruct (Hr w p t H) as [|(_ & Hwp & _)]; [done|]. by rewrite Hwp in Hd.
    - destruct (Hr (S i) pos t H1) as [Hh|(_ & _ & Hl)].
      + exfalso. unfold home in Hh. apply pair_equal_spec in Hh as [Hlev Hpos].
        rewrite <- Hlev in Hpos. symmetry in Hlev.
        apply wheel_level_nonzero in Hlev. apply Hlev, byte_at_lxor_0. by rewrite <- Hpos.
      + rewrite <- H2. unfold spot, home. replace (S i - 1)%nat with i in Hl by lia.
        by rewrite Hl. }
  destruct (IH s2) as (s' & Hu & Hsame' & Hperm' & Hall); [lia| |].
  { intros w p t Ht. left. rewrite Hwall. by apply Hhome. }
  exists s'. split; [exact Hu|].
  split; [exact (same_clock_trans s s1 s' Hsame Hsame')|].
  split; [|by rewrite Hwall in Hall].
  rewrite Hperm'. apply (Permutation_app_inv_l (slot s (S i) pos)).
  rewrite <- Hperm, (timers_of_clear (S i) pos s1), Hup by lia. done.
Qed.

(** ** Requests *)

#[export] Instance spec_req_proper rq : Proper ((≡ₚ) ==> (≡ₚ)) (fun l => spec_req l rq).
Proof.
  intros l1 l2 H. unfold spec_req. case_match; [by rewrite H|by apply filter_perm].
Qed.

Lemma fold_spec_req_perm rqs l1 l2 :
  l1 ≡ₚ l2 -> fold_left spec_req rqs l1 ≡ₚ fold_left spec_req rqs l2.
Proof.
  revert l1 l2. induction rqs as [|rq rqs IH]; intros l1 l2 H; simpl; [done|].
  apply IH. by apply (spec_req_proper rq).
Qed.

Lemma placed_add now t w p s :
  placed now w p t -> all_slots (placed now) s ->
  all_slots (placed now) (add_timer_to_wheel t w p s).
Proof.
  intros Ht Hs w' p' t' Hin. rewrite slot_add in Hin. case_decide as Hd; [|by apply Hs].
  apply pair_equal_spec in Hd as [<- <-].
  apply elem_of_cons in Hin as [->|Hin]; [done|by apply Hs].
Qed.

Lemma process_req_spec s rq :
  is_u32 (tm_expires (rq_t rq)) -> all_slots (placed (wall_clock s)) s ->
  let s' := process_req s rq in
  same_clock s s' /\ timers_of s' ≡ₚ spec_req (timers_of s) rq /\
  all_slots (placed (wall_clock s)) s'.
Proof.
  intros He Hs. unfold process_req, spec_req. destruct (rq_insert rq).
  - unfold place_timer, place_timer_from. case_match eqn:Hl; splits; try done.
    + apply timers_of_add.
    + apply placed_add; [|done]. unfold placed. by rewrite Hl.
    + apply timers_of_add.
    + apply placed_add; [|done]. unfold placed. by rewrite Hl.
  - splits; try done; [apply timers_of_delete|].
    intros w p t Hin. rewrite slot_delete in Hin. apply elem_of_filterb in Hin as [Hin _].
    by apply Hs.
Qed.

Lemma process_reqs_spec rqs s :
  Forall (fun rq => is_u32 (tm_expires (rq_t rq))) rqs ->
  all_slots (placed (wall_clock s)) s ->
  let s' := fold_left process_req rqs s in
  same_clock s s' /\ timers_of s' ≡ₚ fold_left spec_req rqs (timers_of s) /\
  all_slots (placed (wall_clock s)) s'.
Proof.
  revert s. induction rqs as [|rq rqs IH]; intros s Hall Hs; cbn [fold_left]; [done|].
  inversion Hall as [|? ? Hrq Hrqs]; subst.
  destruct (process_req_spec s rq Hrq Hs) as (Hsame & Hperm & Hplaced).
  pose proof (proj1 Hsame) as Hw. rewrite <- Hw in Hplaced.
  destruct (IH (process_req s rq) Hrqs Hplaced) as (Hsame' & Hperm' & Hplaced').
  splits.
  - exact (same_clock_trans _ _ _ Hsame Hsame').
  - rewrite Hperm'. by apply fold_spec_req_perm.
  - by rewrite Hw in Hplaced'.
Qed.

(** ** Expiry *)

Lemma wheel_level_0 k : wheel_level 0 k = 0%nat.
Proof.
  induction k as [|k IH]; cbn [wheel_level]; [done|].
  rewrite byte_at_div, Z.div_0_l by (apply Z.pow_nonzero; lia). done.
Qed.

(** The current slot of wheel 0 holds exactly the timers that are due. *)
Lemma placed_due now w p t :
  is_u32 now -> placed now w p t ->
  due now t = true <-> (w, p) = (0%nat, byte_at 0 now).
Proof.
  intros Hn [He Hp]. unfold due. destruct (less_ts (tm_expires t) now) eqn:Hl; simpl; [done|].
  rewrite Z.eqb_eq, Hp. split.
  - intros Heq. unfold home. by rewrite Heq, Z.lxor_nilpotent, wheel_level_0.
  - unfold home. intros H. apply pair_equal_spec in H as [Hlev Hpos]. rewrite Hlev in Hpos.
    unfold wheel_level, WHEELS in Hlev. cbn [Nat.sub] in Hlev. rewrite !byte_test_lxor in Hlev.
    rewrite (u32_bytes _ He), (u32_bytes _ Hn), Hpos.
    destruct (Z.eqb_spec (byte_at 3 (tm_expires t)) (byte_at 3 now)) as [->|]; [|done].
    destruct (Z.eqb_spec (byte_at 2 (tm_expires t)) (byte_at 2 now)) as [->|]; [|done].
    destruct (Z.eqb_spec (byte_at 1 (tm_expires t)) (byte_at 1 now)) as [->|]; [|done].
    done.
Qed.

Lemma process_current_timers_spec s :
  is_u32 (wall_clock s) -> all_slots (placed (wall_clock s)) s ->
  let '(s', fired) := process_current_timers s in
  same_clock s s' /\
  fired ≡ₚ List.filter (due (wall_clock s)) (timers_of s) /\
  timers_of s' ≡ₚ List.filter (fun t => negb (due (wall_clock s) t)) (timers_of s) /\
  all_slots (fun w p t => placed (wall_clock s) w p t /\ due (wall_clock s) t = false) s'.
Proof.
  intros Hn Hs. unfold process_current_timers.
  set (pos := byte_at 0 (wall_clock s)).
  set (s' := set_wheels _ _).
  assert (Hkeep : all_slots (fun w p t => placed (wall_clock s) w p t /\
                     due (wall_clock s) t = false) s').
  { intros w p t Ht. unfold s' in Ht. rewrite slot_set_wheels in Ht.
    case_decide as Hd; [by apply elem_of_nil in Ht|].
    split; [by apply Hs|]. apply not_true_iff_false.
    rewrite (placed_due _ w p t Hn) by (by apply Hs). intros Heq. by apply Hd. }
  destruct (filter_split (due (wall_clock s)) _ _ _ (timers_of_clear 0 pos s)) as [Hf Hr].
  - intros t Ht. apply (placed_due _ 0 pos t Hn); [by apply Hs|done].
  - intros t Ht. apply elem_of_timers_of in Ht as (w & p & Ht). by apply (Hkeep w p).
  - done.
Qed.

(** The tick before the clock wraps is excluded: see [turn_wheel_wrap_undefined]. *)
Lemma wheel_tick_ready s :
  wheel_wf s -> wall_clock s <> u32_mod - 1 ->
  let i := wheel_to_update (wall_clock s) 255 0 WHEELS in
  (i < 4)%nat /\ cascade_ready i (set_wall_clock (wall_clock s + 1) s).
Proof.
  intros (Hc & _ & Hs) Hmax i.
  assert (Hc1 : is_u32 (wall_clock s + 1)) by (unfold is_u32, u32_mod in *; lia).
  split.
  - destruct (home_tick (wall_clock s) (mk_timer 0 (wall_clock s + 1)) i Hc Hc1 Hc1)
      as [H _]; [|done|done].
    apply due_false; [done|done|lia].
  - intros w p t Ht. change (slot (set_wall_clock _ s) w p) with (slot s w p) in Ht.
    cbn [set_wall_clock wall_clock].
    destruct (Hs w p t Ht) as [[He Hp] Hd].
    assert (Hl : less_ts (tm_expires t) (wall_clock s) = false)
      by (unfold due in Hd; by apply orb_false_iff in Hd as [-> _]).
    rewrite Hl in Hp.
    destruct (home_tick (wall_clock s) t i Hc Hc1 He Hd eq_refl) as [_ [H|(H1 & H2 & H3)]].
    + left. congruence.
    + right. splits; [done|congruence|done].
Qed.

(** The cascade of a tick: nothing is lost and every timer is placed for the new time. *)
Lemma cascade_spec s :
  wheel_wf s -> wall_clock s <> u32_mod - 1 ->
  exists s1,
    update_wheel (wheel_to_update (wall_clock s) 255 0 WHEELS)
      (set_wall_clock (wall_clock s + 1) s) = Some s1 /\
    wall_clock s1 = wall_clock s + 1 /\ reqs_backlog s1 = reqs_backlog s /\
    reqs_process s1 = [] /\ timers_of s1 ≡ₚ timers_of s /\
    all_slots (placed (wall_clock s + 1)) s1.
Proof.
  intros Hwf Hmax. destruct (wheel_tick_ready s Hwf Hmax) as [Hi Hr].
  destruct Hwf as (Hc & Hproc & Hs).
  assert (Hc1 : is_u32 (wall_clock s + 1)) by (unfold is_u32, u32_mod in *; lia).
  destruct (update_wheel_spec _ _ Hi Hr) as (s1 & Hu & (Hw1 & Hb1 & Hp1) & Hperm1 & Hhome).
  cbn [set_wall_clock wall_clock reqs_backlog reqs_process] in Hw1, Hb1, Hp1, Hhome.
  exists s1. splits; try done; [congruence|].
  intros w p t Ht. specialize (Hhome w p t Ht).
  assert (Hold : t ∈ timers_of s).
  { change (t ∈ timers_of (set_wall_clock (wall_clock s + 1) s)).
    rewrite <- Hperm1. apply elem_of_timers_of. eauto. }
  apply elem_of_timers_of in Hold as (w0 & p0 & Hold).
  destruct (Hs w0 p0 t Hold) as [[He _] Hd]. destruct t as [ptr e]. cbn [tm_expires] in He.
  apply due_false in Hd; [|done..]. split; [done|]. cbn [tm_expires].
  rewrite (proj2 (less_ts_false e (wall_clock s + 1) He Hc1)) by lia. done.
Qed.

Lemma turn_wheel_spec s :
  wheel_wf s -> reqs_ok s -> wall_clock s <> u32_mod - 1 ->
  exists s' fired,
    turn_wheel s = Some (s', fired) /\
    wall_clock s' = wall_clock s + 1 /\ reqs_backlog s' = [] /\ wheel_wf s' /\
    let pending := fold_left spec_req (reqs_backlog s) (timers_of s) in
    fired ≡ₚ List.filter (due (wall_clock s + 1)) pending /\
    timers_of s' ≡ₚ List.filter (fun t => negb (due (wall_clock s + 1) t)) pending.
Proof.
  intros Hwf Hreqs Hmax.
  assert (Hc1 : is_u32 (wall_clock s + 1))
    by (destruct Hwf as [Hc _]; unfold is_u32, u32_mod in *; lia).
  unfold turn_wheel. rewrite (u32_small _ Hc1).
  destruct (cascade_spec s Hwf Hmax) as (s1 & -> & Hw1 & Hb1 & Hp1 & Hperm1 & Hpl).
  rewrite Hw1, Hb1, Hp1. cbn [reqs_process].
  set (s2 := {| wheels := wheels s1; reqs_backlog := []; reqs_process := reqs_backlog s;
                wall_clock := wall_clock s + 1 |}).
  destruct (process_reqs_spec (reqs_backlog s) s2 Hreqs Hpl) as ((Hw3 & Hb3 & _) & Hperm3 & Hpl3).
  set (s3 := fold_left _ _ s2) in *.
  set (s4 := mk_wheeltimer (wheels s3) (reqs_backlog s3) [] (wall_clock s3)).
  cbn [wall_clock s2] in Hw3, Hpl3.
  assert (Hw4 : wall_clock s4 = wall_clock s + 1) by exact Hw3.
  pose proof (process_current_timers_spec s4) as Hcur. rewrite Hw4 in Hcur.
  specialize (Hcur Hc1 Hpl3).
  destruct (process_current_timers s4) as [s5 fired].
  destruct Hcur as ((Hw5 & Hb5 & Hp5) & Hf & Hrest & Hall).
  assert (Hpend : timers_of s4 ≡ₚ fold_left spec_req (reqs_backlog s) (timers_of s)).
  { change (timers_of s4) with (timers_of s3). rewrite Hperm3.
    apply fold_spec_req_perm. exact Hperm1. }
  exists s5, fired. rewrite Hw4 in Hw5. splits; try done.
  - by rewrite Hb5.
  - unfold wheel_wf. rewrite Hw5. done.
  - rewrite Hf. by apply filter_perm.
  - rewrite Hrest. by apply filter_perm.
Qed.

(** A timer that is not due after the tick stays pending through it. *)
Lemma turn_wheel_keeps s t :
  wheel_wf s -> reqs_ok s -> wall_clock s <> u32_mod - 1 ->
  t ∈ fold_left spec_req (reqs_backlog s) (timers_of s) ->
  exists s' fired, turn_wheel s = Some (s', fired) /\ wheel_wf s' /\
    wall_clock s' = wall_clock s + 1 /\ reqs_backlog s' = [] /\
    (t ∈ fired <-> due (wall_clock s + 1) t = true) /\
    (due (wall_clock s + 1) t = false -> t ∈ timers_of s').
Proof.
  intros Hwf Hreqs Hmax Ht.
  destruct (turn_wheel_spec s Hwf Hreqs Hmax) as (s' & fired & H & Hw & Hb & Hwf' & Hf & Hr).
  exists s', fired. splits; try done.
  - rewrite Hf, elem_of_filterb. split; [by intros [_ ?]|done].
  - intros Hd. rewrite Hr, elem_of_filterb. by rewrite Hd.
Qed.

Lemma reqs_ok_nil s : reqs_backlog s = [] -> reqs_ok s.
Proof. unfold reqs_ok. intros ->. constructor. Qed.

(** ** Properties *)

(** C2: one tick of the cascading wheels implements the specification.  From a state
    that satisfies the invariant, [turn_wheel] advances the clock by one, applies the
    queued insertions and removals to the collection of pending timers, fires exactly
    the timers of the result that are due (each once per time it was pending), keeps the
    others, and re-establishes the invariant. *)
Theorem turn_wheel_refines s :
  wheel_wf s -> reqs_ok s -> wall_clock s <> u32_mod - 1 ->
  exists s' fired,
    turn_wheel s = Some (s', fired) /\
    wall_clock s' = wall_clock s + 1 /\ reqs_backlog s' = [] /\ wheel_wf s' /\
    let pending := fold_left spec_req (reqs_backlog s) (timers_of s) in
    fired ≡ₚ List.filter (due (wall_clock s + 1)) pending /\
    timers_of s' ≡ₚ List.filter (fun t => negb (due (wall_clock s + 1) t)) pending.
Proof. apply turn_wheel_spec. Qed.

(** A pending timer whose expiry lies [d] ticks ahead ([1 <= d <= 2^31], no clock
    wrap on the way) goes off at the [d]-th tick and at no earlier one; the wheel runs
    through all [d] ticks without undefined behaviour. *)
Theorem timer_fires_exactly s t d :
  wheel_wf s -> reqs_ok s ->
  t ∈ fold_left spec_req (reqs_backlog s) (timers_of s) ->
  (1 <= d)%nat -> Z.of_nat d <= 2147483648 ->
  tm_expires t = wall_clock s + Z.of_nat d -> wall_clock s + Z.of_nat d < u32_mod ->
  exists s' fs, turn_wheels d s = Some (s', fs) /\ length fs = d /\
    forall k l, fs !! k = Some l -> (t ∈ l <-> k = (d - 1)%nat).
Proof.
  revert s. induction d as [|d IH]; intros s Hwf Hreqs Ht Hd1 Hd2 He Hmax; [lia|].
  destruct (turn_wheel_keeps s t) as (s' & fired & Hturn & Hwf' & Hw & Hb & Hf & Hk);
    [done|done|lia|done|].
  assert (Hc : is_u32 (wall_clock s)) by apply Hwf.
  assert (Hdue : due (wall_clock s + 1) t = bool_decide (d = 0%nat)).
  { destruct t as [ptr e]. cbn [tm_expires] in He. case_bool_decide as Hd0.
    - unfold due. cbn [tm_expires]. rewrite (proj2 (Z.eqb_eq _ _)) by lia. apply orb_true_r.
    - apply due_false; unfold is_u32 in *; lia. }
  cbn [turn_wheels]. rewrite Hturn. destruct d as [|d].
  - exists s', [fired]. split; [done|]. split; [done|]. rewrite Hdue in Hf.
    intros [|k] l [= <-]. by rewrite Hf.
  - rewrite bool_decide_eq_false_2 in Hdue by lia.
    destruct (IH s') as (s2 & fs & Hrun & Hlen & Hfs); try done;
      [by apply reqs_ok_nil|by rewrite Hb; apply Hk|lia|lia|lia|lia|].
    rewrite Hrun. exists s2, (fired :: fs). split; [done|]. split; [simpl; lia|].
    intros [|k] l Hl; cbn in Hl.
    + injection Hl as <-. rewrite Hf, Hdue. split; [done|lia].
    + rewrite (Hfs k l Hl). lia.
Qed.

(** [turn_wheel] is undefined at the tick on which the 32-bit clock wraps: all four
    digits are 255, the search for the wheel to update runs off the end and
    [update_wheel(WHEELS)] indexes past the last wheel. *)
Theorem turn_wheel_wrap_undefined ws backlog process :
  turn_wheel (mk_wheeltimer ws backlog process (u32_mod - 1)) = None.
Proof.
  unfold turn_wheel. cbn [wall_clock]. rewrite wheel_to_update_spec.
  replace (byte_at 0 (u32_mod - 1)) with 255 by reflexivity.
  replace (byte_at 1 (u32_mod - 1)) with 255 by reflexivity.
  replace (byte_at 2 (u32_mod - 1)) with 255 by reflexivity.
  replace (byte_at 3 (u32_mod - 1)) with 255 by reflexivity.
  reflexivity.
Qed.

(** [interval_elapsed] compares the elapsed time correctly, across a wrap of the
    clock too, as long as fewer than [2^32 / 20] ticks (49.7 days) have passed. *)
Theorem interval_elapsed_correct s k ms :
  is_u32 (wall_clock s) -> 0 <= k -> k * 20 < u32_mod ->
  interval_elapsed s (u32 (wall_clock s - k)) ms = (ms <=? k * 20).
Proof.
  intros Hc Hk Hov. unfold interval_elapsed, WALL_CLOCK_TO_MS, TIMER_RESOLUTION.
  assert (Hdiff : u32 (wall_clock s - u32 (wall_clock s - k)) = k).
  { unfold is_u32 in Hc. destruct (Z_lt_le_dec (wall_clock s - k) 0).
    - rewrite (u32_below (wall_clock s - k)) by (unfold u32_mod in *; lia).
      rewrite u32_below by (unfold u32_mod in *; lia). lia.
    - rewrite (u32_small (wall_clock s - k)) by (unfold is_u32, u32_mod in *; lia).
      rewrite u32_small by (unfold is_u32, u32_mod in *; lia). lia. }
  rewrite Hdiff. change (20000 / 1000) with 20. rewrite u32_small; [done|].
  unfold is_u32. lia.
Qed.

(** ** Witnesses *)

Definition wt_demo : wheeltimer :=
  insert_timer (mk_timer 7 300) (insert_timer (mk_timer 3 2) (set_wall_clock 0 wheeltimer_init)).

Lemma wt_demo_wf : wheel_wf wt_demo /\ reqs_ok wt_demo.
Proof.
  split; [split; [done|split; [done|]]|].
  - intros w p t Ht. unfold slot in Ht. cbn in Ht. rewrite lookup_empty in Ht.
    by apply elem_of_nil in Ht.
  - repeat constructor; done.
Qed.

Lemma turn_wheel_refines_witness :
  exists s' fired, turn_wheel wt_demo = Some (s', fired) /\ wall_clock s' = 1.
Proof.
  destruct (turn_wheel_refines wt_demo (proj1 wt_demo_wf) (proj2 wt_demo_wf))
    as (s' & fired & H & Hw & _); [by vm_compute|].
  exists s', fired. split; [exact H|exact Hw].
Defined.

Lemma timer_fires_exactly_witness :
  exists s' fs, turn_wheels 300 wt_demo = Some (s', fs) /\
    forall k l, fs !! k = Some l -> (mk_timer 7 300 ∈ l <-> k = 299%nat).
Proof.
  destruct (timer_fires_exactly wt_demo (mk_timer 7 300) 300) as (s' & fs & H & _ & Hk);
    [apply wt_demo_wf|apply wt_demo_wf| |lia|by vm_compute|by vm_compute|by vm_compute|].
  - cbn. by left.
  - exists s', fs. split; [exact H|exact Hk].
Defined.

Lemma interval_elapsed_correct_witness :
  interval_elapsed (set_wall_clock 3 wheeltimer_init) (u32 (3 - 10)) 200 = true.
Proof.
  apply (interval_elapsed_correct (set_wall_clock 3 wheeltimer_init) 10 200);
    [by vm_compute|lia|by vm_compute].
Defined.
