(* ===== verification/TimerObjects.v ===== *)
(** * The objects behind the timers of a wheel

    [_wheeltimer] (core/sip/wheeltimer.cpp) owns the timers that are handed to it: a request
    to remove a timer ends in [delete t] when the next tick works through the requests, and
    until then the object exists.  The users of the wheel, the transactions (SipTrans) and
    the timers of applications (AppTimer), keep pointers to their timers.

    Here are the effect of a tick on a heap of timer objects, in which touching an object
    that does not exist is a fault, the relation between the wheel, the heap and the pointers
    that the user holds, and its preservation by [insert_timer], [remove_timer] and a tick. *)

From Stdlib Require Import ZArith Lia Permutation.
From stdpp Require Import base list gmap.
From S2P Require Import Prelude Wheeltimer.

Local Open Scope Z_scope.

(** ** Operations *)

(** The objects after the requests of a tick: one that is inserted must exist, one that is
    removed is deleted. *)
Fixpoint reqs_objects {A} (l : list timer_req) (h : gmap nat A) : option (gmap nat A) :=
  match l with
  | [] => Some h
  | rq :: l =>
      match h !! tm_ptr (rq_t rq) with
      | None => None
      | Some _ => reqs_objects l (if rq_insert rq then h else base.delete (tm_ptr (rq_t rq)) h)
      end
  end.

(** The timers that the wheel will have when the requests are done, and the objects that it
    will have deleted. *)
Definition pending (w : wheeltimer) : list timer := fold_left spec_req (reqs_backlog w) (timers_of w).

Definition removed (w : wheeltimer) : list nat :=
  tm_ptr ∘ rq_t <$> List.filter (fun rq => negb (rq_insert rq)) (reqs_backlog w).

(** ** Requests *)

Lemma reqs_objects_app {A} l1 l2 (h : gmap nat A) : reqs_objects (l1 ++ l2) h = h' ← reqs_objects l1 h; reqs_objects l2 h'.
Proof. revert h. induction l1 as [|rq l IH]; intros h; cbn; [done|]. destruct (h !! _); [apply IH|done]. Qed.

Lemma reqs_objects_fresh {A} l (h h' : gmap nat A) p k :
  h !! p = None -> reqs_objects l h = Some h' -> reqs_objects l (<[p := k]> h) = Some (<[p := k]> h').
Proof.
  revert h. induction l as [|rq l IH]; intros h Hp; cbn; [by intros [= ->]|].
  destruct (h !! tm_ptr (rq_t rq)) eqn:Hq; [|done]. assert (p <> tm_ptr (rq_t rq)) by congruence.
  rewrite lookup_insert_ne, Hq by done. destruct (rq_insert rq); intros H1; [by apply IH|].
  rewrite delete_insert_ne by done. apply IH; [|done]. by rewrite lookup_delete_ne.
Qed.

Lemma reqs_objects_other {A} l (h h' : gmap nat A) p :
  Forall (fun rq => tm_ptr (rq_t rq) <> p) l -> reqs_objects l h = Some h' ->
  reqs_objects l (base.delete p h) = Some (base.delete p h').
Proof.
  intros Hl. revert h. induction Hl as [|rq l Hrq Hl IH]; intros h; cbn; [by intros [= ->]|].
  rewrite lookup_delete_ne by done. destruct (h !! tm_ptr (rq_t rq)); [|done].
  destruct (rq_insert rq); intros H1; [by apply IH|]. rewrite delete_delete. by apply IH.
Qed.

Lemma elem_spec_req l rq t : t ∈ spec_req l rq -> t ∈ l \/ rq_insert rq = true /\ t = rq_t rq.
Proof.
  unfold spec_req. destruct (rq_insert rq).
  - intros [->|?]%elem_of_cons; [by right|by left].
  - intros [? _]%elem_of_filterb. by left.
Qed.

Lemma pending_kept l acc t :
  t ∈ acc -> (forall r, r ∈ l -> rq_insert r = false -> tm_ptr (rq_t r) <> tm_ptr t) -> t ∈ fold_left spec_req l acc.
Proof.
  revert acc. induction l as [|r l IH]; intros acc Ha Hr; cbn; [done|]. apply IH; [|intros r' ?; apply Hr; by right].
  unfold spec_req. destruct (rq_insert r) eqn:Hi; [by right|]. apply elem_of_filterb. split; [done|].
  apply negb_true_iff, Nat.eqb_neq. intros He. eapply Hr; [by left|done|done].
Qed.

(** A request to insert a timer that is not removed again makes it pending. *)
Lemma inserted_pending l acc rq :
  rq ∈ l -> rq_insert rq = true -> (forall r, r ∈ l -> rq_insert r = false -> tm_ptr (rq_t r) <> tm_ptr (rq_t rq)) ->
  rq_t rq ∈ fold_left spec_req l acc.
Proof.
  revert acc. induction l as [|r l IH]; intros acc Hin Hi Hr; [by apply elem_of_nil in Hin|]. cbn.
  apply elem_of_cons in Hin as [<-|Hin].
  - apply pending_kept; [|intros r' ?; apply Hr; by right]. unfold spec_req. rewrite Hi. by left.
  - apply IH; [done|done|]. intros r' ?; apply Hr; by right.
Qed.

Lemma removed_elem w p : p ∈ removed w <-> exists r, r ∈ reqs_backlog w /\ rq_insert r = false /\ tm_ptr (rq_t r) = p.
Proof.
  unfold removed. rewrite list_elem_of_fmap. split.
  - intros (r & -> & [? Hr%negb_true_iff]%elem_of_filterb). eauto.
  - intros (r & ? & Hr & <-). exists r. split; [done|]. apply elem_of_filterb. by rewrite Hr.
Qed.

Lemma pending_insert t w : pending (insert_timer t w) = t :: pending w.
Proof. unfold pending. cbn. by rewrite fold_left_app. Qed.

Lemma pending_remove t w : pending (remove_timer (Some t) w) = List.filter (fun t' => negb (tm_ptr t' =? tm_ptr t)%nat) (pending w).
Proof. unfold pending. cbn. by rewrite fold_left_app. Qed.

Lemma removed_insert t w : removed (insert_timer t w) = removed w.
Proof. unfold removed. cbn. by rewrite List.filter_app, app_nil_r. Qed.

Lemma removed_remove t w : removed (remove_timer (Some t) w) = removed w ++ [tm_ptr t].
Proof. unfold removed. cbn. by rewrite List.filter_app, fmap_app. Qed.

Lemma removed_objects {A} (l : list nat) (p q : nat) (x : option A) :
  (if decide (p = q) then None else if decide (q ∈ l) then None else x) = if decide (q ∈ l ++ [p]) then None else x.
Proof.
  destruct (decide (p = q)) as [->|Hne]; [by rewrite decide_True by (apply elem_of_app; right; by left)|].
  destruct (decide (q ∈ l)); [by rewrite decide_True by (apply elem_of_app; by left)|].
  rewrite decide_False; [done|]. by intros [?|?%list_elem_of_singleton]%elem_of_app.
Qed.

Lemma filter_sublist {A} (f : A -> bool) l : sublist (List.filter f l) l.
Proof. induction l as [|x l IH]; cbn; [constructor|]. destruct (f x); by constructor. Qed.

Lemma filter_parts {A} (f : A -> bool) l : List.filter (fun x => negb (f x)) l ++ List.filter f l ≡ₚ l.
Proof. induction l as [|x l IH]; cbn; [done|]. destruct (f x); cbn; [by rewrite <- Permutation_middle, IH|by rewrite IH]. Qed.

(** A tick that works through the requests leaves the objects it does not delete. *)
Lemma reqs_objects_sub {A} l (h h' : gmap nat A) : reqs_objects l h = Some h' -> h' ⊆ h.
Proof.
  revert h. induction l as [|rq l IH]; intros h; cbn; [by intros [= ->]|].
  destruct (h !! _); [|done]. intros Hl%IH. destruct (rq_insert rq); [done|].
  etrans; [exact Hl|apply delete_subseteq].
Qed.

(** An object that is to be deleted exists. *)
Lemma removed_exists {A} l (h h' : gmap nat A) rq :
  reqs_objects l h = Some h' -> rq ∈ l -> is_Some (h !! tm_ptr (rq_t rq)).
Proof.
  revert h. induction l as [|x l IH]; intros h; cbn; [by intros _ ?%elem_of_nil|].
  destruct (h !! tm_ptr (rq_t x)) eqn:Hx; [|done]. intros Hl [->|Hr]%elem_of_cons; [by rewrite Hx|].
  destruct (IH _ Hl Hr) as [y Hy]. destruct (rq_insert x); [by eauto|].
  apply lookup_delete_Some in Hy as [_ Hy]. eauto.
Qed.

(** ** The wheel, the objects and the pointers of the user *)

(** What the wheel links, or is asked to link or to delete, exists; nothing is deleted twice
    or linked after its deletion.  The timers that the user holds exist and are not about to
    be deleted; every other object is. *)
Record wheel_objects {A} (w : wheeltimer) (h : gmap nat A) (held : nat -> Prop) : Prop := {
  wo_wheel : wheel_wf w;
  wo_reqs : reqs_ok w;
  wo_linked t : t ∈ timers_of w -> is_Some (h !! tm_ptr t);
  wo_pending t : t ∈ pending w -> is_Some (h !! tm_ptr t) /\ tm_ptr t ∉ removed w;
  wo_objects : exists h', reqs_objects (reqs_backlog w) h = Some h' /\
    forall p, h' !! p = if decide (p ∈ removed w) then None else h !! p;
  wo_held p : held p -> is_Some (h !! p) /\ p ∉ removed w;
  wo_kept p : is_Some (h !! p) -> p ∈ removed w \/ held p
}.

Lemma wheel_objects_ext {A} w (h : gmap nat A) (held held' : nat -> Prop) :
  (forall p, held' p <-> held p) -> wheel_objects w h held -> wheel_objects w h held'.
Proof.
  intros He [H1 H2 H3 H4 H5 H6 H7]. constructor; try done.
  - intros p Hp%He. by apply H6.
  - intros p Hp. rewrite He. by apply H7.
Qed.

Lemma wheel_objects_remove {A} w (h : gmap nat A) (held held' : nat -> Prop) t :
  wheel_objects w h held -> held (tm_ptr t) -> is_u32 (tm_expires t) ->
  (forall p, held' p <-> held p /\ p <> tm_ptr t) ->
  wheel_objects (remove_timer (Some t) w) h held'.
Proof.
  intros [H1 H2 H3 H4 (h' & H5 & H5') H6 H7] Ht He Hh. destruct (H6 _ Ht) as [[x Hx] Hnr].
  constructor; rewrite ?removed_remove; try done.
  - apply Forall_app. split; [done|]. by apply Forall_singleton.
  - intros t'. rewrite pending_remove. intros [[Ha Hb]%H4 Hne%negb_true_iff%Nat.eqb_neq]%elem_of_filterb.
    split; [done|]. by intros [?|?%list_elem_of_singleton]%elem_of_app.
  - exists (base.delete (tm_ptr t) h').
    change (reqs_backlog (remove_timer (Some t) w)) with (reqs_backlog w ++ [mk_req t false]).
    rewrite reqs_objects_app, H5. cbn. rewrite H5', decide_False, Hx by done.
    split; [done|]. intros p. rewrite lookup_delete, H5'. apply removed_objects.
  - intros p [Hp Hne]%Hh. destruct (H6 p Hp) as [? Hn]. split; [done|].
    by intros [?|?%list_elem_of_singleton]%elem_of_app.
  - intros p Hp. rewrite Hh, elem_of_app, list_elem_of_singleton. destruct (H7 p Hp); [tauto|].
    destruct (decide (p = tm_ptr t)); tauto.
Qed.

Lemma wheel_objects_insert {A} w (h : gmap nat A) (held held' : nat -> Prop) p e x :
  wheel_objects w h held -> h !! p = None -> is_u32 e -> (forall q, held' q <-> held q \/ q = p) ->
  wheel_objects (insert_timer (mk_timer p e) w) (<[p := x]> h) held'.
Proof.
  intros [H1 H2 H3 H4 (h' & H5 & H5') H6 H7] Hp He Hh.
  assert (Hnr : p ∉ removed w).
  { intros (rq & Hr & _ & <-)%removed_elem. destruct (removed_exists _ _ _ _ H5 Hr). congruence. }
  assert (Hsome : forall q, is_Some (h !! q) -> is_Some (<[p := x]> h !! q)).
  { intros q [y Hy]. rewrite lookup_insert_ne by congruence. eauto. }
  constructor; rewrite ?removed_insert; try done.
  - apply Forall_app. split; [done|]. by apply Forall_singleton.
  - intros t Ht. by apply Hsome, H3.
  - intros t. rewrite pending_insert. intros [->|[Ha Hb]%H4]%elem_of_cons; [|auto].
    cbn [tm_ptr]. rewrite lookup_insert_eq. eauto.
  - exists (<[p := x]> h'). change (reqs_backlog (insert_timer ?t w)) with (reqs_backlog w ++ [mk_req t true]).
    rewrite reqs_objects_app, (reqs_objects_fresh _ _ h') by done. cbn. rewrite lookup_insert_eq.
    split; [done|]. intros q. rewrite !lookup_insert. case_decide as Hd; [|apply H5'].
    by rewrite decide_False by (by subst).
  - intros q [Hq| ->]%Hh; [destruct (H6 q Hq); auto|]. rewrite lookup_insert_eq. eauto.
  - intros q. rewrite Hh, lookup_insert. case_decide as Hd; [by right; right|]. intros Hq. destruct (H7 q Hq); tauto.
Qed.

Lemma wheel_objects_tick {A} w (h : gmap nat A) held :
  wheel_objects w h held -> wall_clock w < u32_mod - 1 ->
  exists h' w' fired,
    reqs_objects (reqs_backlog w) h = Some h' /\ turn_wheel w = Some (w', fired) /\
    wheel_objects w' h' held /\ wall_clock w' = wall_clock w + 1 /\ removed w' = [] /\
    Forall (fun t => is_Some (h' !! tm_ptr t)) fired.
Proof.
  intros [H1 H2 H3 H4 (h' & H5 & H5') H6 H7] Hc.
  destruct (turn_wheel_spec w H1 H2) as (w' & fired & Ht & Hw & Hb & Hwf & Hf & Hr); [lia|].
  exists h', w', fired. fold (pending w) in Hf, Hr.
  assert (Hp' : pending w' = timers_of w') by (unfold pending; by rewrite Hb).
  assert (Hrm : removed w' = []) by (unfold removed; by rewrite Hb).
  assert (Hobj : forall t, t ∈ pending w -> is_Some (h' !! tm_ptr t)).
  { intros t [Ha Hn]%H4. by rewrite H5', decide_False. }
  assert (Hlk : forall t, t ∈ timers_of w' -> is_Some (h' !! tm_ptr t)).
  { intros t. rewrite Hr. intros [? _]%elem_of_filterb. auto. }
  split_and!; try done.
  - constructor; rewrite ?Hp', ?Hrm; try done.
    + by apply reqs_ok_nil.
    + intros t Hin. split; [auto|apply not_elem_of_nil].
    + exists h'. rewrite Hb. split; [done|]. intros p. by rewrite decide_False by apply not_elem_of_nil.
    + intros p Hp. destruct (H6 p Hp) as [Ha Hn]. rewrite H5', decide_False by done.
      split; [done|apply not_elem_of_nil].
    + intros p. rewrite H5'. case_decide; [by intros []|]. intros Hp. destruct (H7 p Hp); tauto.
  - apply Forall_forall. intros t. rewrite Hf. intros [? _]%elem_of_filterb. auto.
Qed.

Lemma wheel_objects_init {A} : wheel_objects wheeltimer_init (∅ : gmap nat A) (fun _ => False).
Proof.
  constructor; try done.
  - split_and!; [done|done|]. intros w p t. unfold slot. cbn. rewrite lookup_empty. by intros ?%elem_of_nil.
  - by constructor.
  - intros t Ht. by apply elem_of_nil in Ht.
  - intros t Ht. by apply elem_of_nil in Ht.
  - exists ∅. split; [done|]. intros p. rewrite lookup_empty. by case_decide.
  - intros p. rewrite lookup_empty. by intros [].
Qed.
