(* ===== verification/SipMsg.v ===== *)
(** * SIP messages, sockets and target sets as the transaction layer sees them

    Model of the data that [core/sip/trans_layer.cpp], [trans_table.cpp] and
    [sip_trans.cpp] read from a parsed message ([sip_msg], [sip_request], [sip_reply] of
    sip_parser.h, [sip_via_parm], [sip_cseq], [sip_rack], the tags of From and To), of a
    transport socket, and of [sip_target_set] (resolver.cpp), the list of destinations a
    request is tried on.

    A [cstring] (pointer and length) is the list of its characters; a length test
    followed by [memcmp] over that length is equality of lists.  A header that may be
    missing or unparsed ([hdr->p == NULL]) is an [option]. *)

From Stdlib Require Import ZArith Lia Ascii String.
From stdpp Require Import base list gmap.
From S2P Require Import Prelude.

Local Open Scope Z_scope.
Local Open Scope bool_scope.

Abbreviation cstring := (list ascii).

Definition cs (s : string) : cstring := list_ascii_of_string s.

(** [LOWER_B]: the bit that tells lower from upper case letters is set. *)
Definition LOWER_B (c : ascii) : ascii := ascii_of_N (N.lor (N_of_ascii c) 32).

(** [lower_cmp_n(l,r) == 0]: same length and same characters, case aside. *)
Fixpoint lower_eqb (l r : cstring) : bool :=
  match l, r with
  | [], [] => true
  | a :: l, b :: r => (LOWER_B a =? LOWER_B b)%char && lower_eqb l r
  | _, _ => false
  end.

(** ** Methods *)

Inductive method :=
| OTHER_METHOD | INVITE | ACK | PRACK | OPTIONS | BYE | CANCEL | REGISTER.

#[export] Instance method_eq_dec : EqDecision method.
Proof. solve_decision. Defined.

(** ** Sockets and addresses *)

(** A [sockaddr_storage]: the address family and the other bytes. *)
Record sockaddr_storage := mk_sockaddr { ss_family : Z; ss_data : list Z }.

#[export] Instance sockaddr_eq_dec : EqDecision sockaddr_storage.
Proof. solve_decision. Defined.

(** What the transaction layer uses of a [trsp_socket]. *)
Record trsp_socket := mk_socket {
  sk_id : nat;
  sk_if : Z;            (* get_if() *)
  sk_transport : cstring;
  is_reliable : bool
}.

#[export] Instance trsp_socket_eq_dec : EqDecision trsp_socket.
Proof. solve_decision. Defined.

(** ** Messages *)

Record sip_via_parm := mk_via { via_branch : cstring; via_host : cstring; via_port : cstring }.

(** [cseq_value] is the header value, the other fields its parsed parts. *)
Record sip_cseq := mk_cseq {
  cseq_value : cstring; num_str : cstring; cseq_method_str : cstring; cseq_num : Z
}.

Record sip_rack := mk_rack {
  rack_rseq : Z; rack_cseq : Z; rack_cseq_str : cstring; rack_method : method
}.

Record sip_request := mk_request {
  req_method_str : cstring; req_method : method; ruri_str : cstring
}.

Record sip_reply := mk_reply { code : Z; reason : cstring }.

(** [sip_msg::type] and the union [u]. *)
Inductive msg_type :=
| SIP_UNKNOWN
| SIP_REQUEST (r : sip_request)
| SIP_REPLY (r : sip_reply).

(** The headers that the reply code looks at, in message order, with the result of their
    parser: the extension mask of a Require, the number of an RSeq. *)
Inductive rel_hdr :=
| H_REQUIRE (ext : option Z)
| H_RSEQ (num : option Z).

Record sip_msg := mk_msg {
  m_buf : cstring;
  m_u : msg_type;
  m_via_p1 : option sip_via_parm;
  m_from_tag : option cstring;
  m_to_tag : option cstring;
  m_callid : option cstring;
  m_cseq : option sip_cseq;
  m_rack : option sip_rack;
  m_rel : list rel_hdr;
  m_local_socket : option trsp_socket;
  m_remote_ip : sockaddr_storage
}.

Definition set_remote_ip (a : sockaddr_storage) (m : sip_msg) : sip_msg :=
  mk_msg (m_buf m) (m_u m) (m_via_p1 m) (m_from_tag m) (m_to_tag m) (m_callid m) (m_cseq m)
    (m_rack m) (m_rel m) (m_local_socket m) a.

Definition set_local_socket (k : option trsp_socket) (m : sip_msg) : sip_msg :=
  mk_msg (m_buf m) (m_u m) (m_via_p1 m) (m_from_tag m) (m_to_tag m) (m_callid m) (m_cseq m)
    (m_rack m) (m_rel m) k (m_remote_ip m).

Definition set_via (v : option sip_via_parm) (m : sip_msg) : sip_msg :=
  mk_msg (m_buf m) (m_u m) v (m_from_tag m) (m_to_tag m) (m_callid m) (m_cseq m)
    (m_rack m) (m_rel m) (m_local_socket m) (m_remote_ip m).

Definition set_buf (b : cstring) (m : sip_msg) : sip_msg :=
  mk_msg b (m_u m) (m_via_p1 m) (m_from_tag m) (m_to_tag m) (m_callid m) (m_cseq m)
    (m_rack m) (m_rel m) (m_local_socket m) (m_remote_ip m).

Definition set_u (u : msg_type) (m : sip_msg) : sip_msg :=
  mk_msg (m_buf m) u (m_via_p1 m) (m_from_tag m) (m_to_tag m) (m_callid m) (m_cseq m)
    (m_rack m) (m_rel m) (m_local_socket m) (m_remote_ip m).

(** The method of a request, [None] when [u.request] is not the active member. *)
Definition msg_method (m : sip_msg) : option method :=
  match m_u m with SIP_REQUEST r => Some (req_method r) | _ => None end.

(** ** Branch cookie *)

Definition MAGIC_BRANCH_COOKIE : cstring := cs "z9hG4bK".
Definition MAGIC_BRANCH_LEN : nat := 7.

(** ** Request flags *)

Definition TR_FLAG_NEXT_HOP_RURI : Z := 1.
Definition TR_FLAG_DISABLE_BL : Z := 2.

Definition has_flag (flags f : Z) : bool := negb (Z.land flags f =? 0).

(** ** Target sets *)

Record sip_target := mk_target { tg_ss : sockaddr_storage; tg_trsp : cstring }.

(** [dest_list] and the position of [dest_list_it] in it. *)
Record sip_target_set := mk_targets { dest_list : list sip_target; dest_list_it : nat }.

Definition reset_iterator (ts : sip_target_set) : sip_target_set :=
  mk_targets (dest_list ts) 0.

Definition has_next (ts : sip_target_set) : bool :=
  negb (dest_list_it ts =? length (dest_list ts))%nat.

Definition next (ts : sip_target_set) : sip_target_set :=
  mk_targets (dest_list ts) (S (dest_list_it ts)).

(** The [do .. while] loop of [get_next]; [bl] is the blacklist look-up and the fuel is
    the number of targets left, plus one for the final failing test. *)
Fixpoint get_next_loop (fuel : nat) (bl : sockaddr_storage -> bool) (flags : Z)
    (ts : sip_target_set) : sip_target_set * option (sockaddr_storage * cstring) :=
  match fuel with
  | O => (ts, None)
  | S fuel =>
      if negb (has_next ts) then (ts, None)
      else
        match dest_list ts !! dest_list_it ts with
        | None => (ts, None)
        | Some t =>
            let ss := tg_ss t in
            let next_trsp := tg_trsp t in
            let ts := next ts in
            let next_trsp := match next_trsp with [] => cs "udp" | _ => next_trsp end in
            if negb (has_flag flags TR_FLAG_DISABLE_BL) && bl ss
            then get_next_loop fuel bl flags ts
            else (ts, Some (ss, next_trsp))
        end
  end.

Definition get_next (bl : sockaddr_storage -> bool) (flags : Z) (ts : sip_target_set)
  : sip_target_set * option (sockaddr_storage * cstring) :=
  get_next_loop (S (length (dest_list ts) - dest_list_it ts)) bl flags ts.

(** ** Properties of target sets *)

(** The targets not tried yet. *)
Definition targets_left (ts : sip_target_set) : list sip_target :=
  drop (dest_list_it ts) (dest_list ts).

(** [get_next] may use a target: it is not blacklisted, or blacklisting is disabled. *)
Definition usable (bl : sockaddr_storage -> bool) (flags : Z) (t : sip_target) : bool :=
  has_flag flags TR_FLAG_DISABLE_BL || negb (bl (tg_ss t)).

Definition target_trsp (t : sip_target) : cstring :=
  match tg_trsp t with [] => cs "udp" | _ => tg_trsp t end.

Definition targets_wf (ts : sip_target_set) : Prop :=
  (dest_list_it ts <= length (dest_list ts))%nat.

Lemma targets_left_next ts t :
  dest_list ts !! dest_list_it ts = Some t -> targets_left ts = t :: targets_left (next ts).
Proof. intros H. unfold targets_left. simpl. by apply drop_S. Qed.

Lemma has_next_true ts :
  targets_wf ts -> has_next ts = true -> exists t, dest_list ts !! dest_list_it ts = Some t.
Proof.
  unfold targets_wf, has_next. rewrite negb_true_iff, Nat.eqb_neq. intros H1 H2.
  apply lookup_lt_is_Some_2. lia.
Qed.

Lemma has_next_left ts : targets_wf ts -> has_next ts = negb (bool_decide (targets_left ts = [])).
Proof.
  unfold targets_wf, has_next, targets_left. intros H. f_equal.
  apply eq_true_iff_eq. rewrite bool_decide_eq_true, Nat.eqb_eq.
  split; intros E; [apply drop_ge; lia|].
  assert (length (drop (dest_list_it ts) (dest_list ts)) = 0%nat) by by rewrite E.
  rewrite length_drop in *. lia.
Qed.

Lemma get_next_loop_spec fuel bl flags ts :
  targets_wf ts -> (length (targets_left ts) < fuel)%nat ->
  let '(ts', r) := get_next_loop fuel bl flags ts in
  targets_wf ts' /\ dest_list ts' = dest_list ts /\
  exists skipped,
    Forall (fun t => usable bl flags t = false) skipped /\
    match r with
    | None => targets_left ts = skipped /\ targets_left ts' = []
    | Some (ss, trsp) => exists t, targets_left ts = skipped ++ t :: targets_left ts' /\
        usable bl flags t = true /\ ss = tg_ss t /\ trsp = target_trsp t
    end.
Proof.
  revert ts. induction fuel as [|fuel IH]; intros ts Hwf Hfuel; [lia|]. cbn [get_next_loop].
  destruct (has_next ts) eqn:Hn; cbn [negb].
  2: { rewrite (has_next_left ts Hwf) in Hn. apply negb_false_iff, bool_decide_eq_true in Hn.
       split; [done|]. split; [done|]. exists []. rewrite Hn. split; [constructor|done]. }
  destruct (has_next_true ts Hwf Hn) as [t Ht]. rewrite Ht.
  pose proof (targets_left_next ts t Ht) as Hleft.
  assert (Hwf' : targets_wf (next ts)) by (apply lookup_lt_Some in Ht; unfold targets_wf; simpl; lia).
  rewrite Hleft in Hfuel. simpl in Hfuel.
  destruct (negb (has_flag flags TR_FLAG_DISABLE_BL) && bl (tg_ss t)) eqn:Hbl.
  - specialize (IH (next ts) Hwf' ltac:(lia)).
    destruct (get_next_loop fuel bl flags (next ts)) as [ts' r].
    destruct IH as (Hwf2 & Hd & skipped & Hskip & Hr).
    split; [done|]. split; [done|]. exists (t :: skipped). split.
    { constructor; [|done]. unfold usable. zbool. by rewrite H, H0. }
    destruct r as [[ss trsp]|].
    + destruct Hr as (t' & Hl & Hu). exists t'. split; [|done]. by rewrite Hleft, Hl.
    + destruct Hr as [Hl Hr]. by rewrite Hleft, Hl, Hr.
  - split; [done|]. split; [done|]. exists []. split; [constructor|]. exists t.
    split; [exact Hleft|]. split; [|done]. unfold usable. rewrite <- (negb_involutive (_ || _)).
    rewrite negb_orb, negb_involutive. by rewrite Hbl.
Qed.

(** [sip_target_set::get_next] skips exactly the blacklisted destinations in front of
    the first usable one and returns that one, leaving the iterator behind it; it fails
    only when every remaining destination is blacklisted, and then none is left. *)
Theorem get_next_first_usable bl flags ts :
  targets_wf ts ->
  let '(ts', r) := get_next bl flags ts in
  targets_wf ts' /\ dest_list ts' = dest_list ts /\
  exists skipped,
    Forall (fun t => usable bl flags t = false) skipped /\
    match r with
    | None => targets_left ts = skipped /\ targets_left ts' = []
    | Some (ss, trsp) => exists t, targets_left ts = skipped ++ t :: targets_left ts' /\
        usable bl flags t = true /\ ss = tg_ss t /\ trsp = target_trsp t
    end.
Proof.
  intros Hwf. apply get_next_loop_spec; [done|].
  unfold targets_left. rewrite length_drop. lia.
Qed.

Definition demo_targets : sip_target_set :=
  mk_targets [mk_target (mk_sockaddr 2 [10;0;0;1]) []; mk_target (mk_sockaddr 2 [10;0;0;2]) []] 0.

Lemma get_next_first_usable_witness :
  let bl ss := bool_decide (ss = mk_sockaddr 2 [10;0;0;1]) in
  let '(ts', r) := get_next bl 0 demo_targets in
  r = Some (mk_sockaddr 2 [10;0;0;2], cs "udp") /\ targets_left ts' = [] /\ targets_wf ts'.
Proof.
  pose proof (get_next_first_usable
    (fun ss => bool_decide (ss = mk_sockaddr 2 [10;0;0;1])) 0 demo_targets) as H.
  assert (Hwf : targets_wf demo_targets) by (unfold targets_wf; simpl; lia).
  specialize (H Hwf). revert H. vm_compute. intros [H _]. auto.
Defined.
