(* ===== verification/SipTrans.v ===== *)
(** * Transactions and their timers

    Model of [core/sip/sip_trans.h], [sip_trans.cpp], [sip_timers.h] and of the state the
    transaction layer works on.

    Transactions and timer objects live in two heaps indexed by their address; a bucket of
    the transaction table is the list of the addresses of its transactions.  The code runs
    in a state monad that makes the faults of the C++ code explicit: a dereference of a
    deleted transaction or timer, of a null pointer, a failed [assert], an access outside of
    the wheel, locking a bucket that this thread holds already (the bucket mutex is not
    recursive) and unlocking one it does not hold.  A transaction is deleted when it leaves
    its bucket, a timer object at the tick after its removal was asked for.  Messages sent, calls into the user agent and blacklist entries are
    recorded as events, newest first. *)

From Stdlib Require Import ZArith Lia Ascii String.
From stdpp Require Import base list gmap.
From S2P Require Import Prelude Wheeltimer TimerObjects SipMsg.

Local Open Scope Z_scope.

(** ** Timers *)

Definition STIMER_A : Z := 0.
Definition STIMER_B : Z := 1.
Definition STIMER_D : Z := 2.
Definition STIMER_E : Z := 3.
Definition STIMER_F : Z := 4.
Definition STIMER_K : Z := 5.
Definition STIMER_G : Z := 6.
Definition STIMER_H : Z := 7.
Definition STIMER_I : Z := 8.
Definition STIMER_J : Z := 9.
Definition STIMER_L : Z := 10.
Definition STIMER_M : Z := 11.
Definition STIMER_C : Z := 12.
Definition STIMER_BL : Z := 13.

Definition T1_TIMER : Z := 500.
Definition DEFAULT_T2_TIMER : Z := 4000.
Definition T4_TIMER : Z := 5000.

(** The default value, in milliseconds, of each timer. *)
Definition default_sip_timers : list Z :=
  [ T1_TIMER; 64 * T1_TIMER; 64 * T1_TIMER;           (* A B D *)
    T1_TIMER; 64 * T1_TIMER; T4_TIMER;                (* E F K *)
    T1_TIMER; 64 * T1_TIMER; T4_TIMER;                (* G H I *)
    64 * T1_TIMER;                                    (* J *)
    64 * T1_TIMER;                                    (* L *)
    64 * T1_TIMER / 4;                                (* M *)
    3 * 60 * 1000;                                    (* C *)
    64 * T1_TIMER ].                                  (* BL *)

(** The slot of [sip_trans::timers] that a timer type uses. *)
Definition timer_type_lookup : list nat :=
  [ 0; 1; 2;   (* A B D *)
    0; 1; 2;   (* E F K *)
    0; 1; 2;   (* G H I *)
    0;         (* J *)
    2;         (* L *)
    2;         (* M *)
    2;         (* C *)
    2 ]%nat.   (* BL *)

(** [None] is the null pointer. *)
Definition fetch_timer (timer_type : Z) : option nat :=
  timer_type_lookup !! Z.to_nat (Z.land timer_type 65535).

(** [trans_timer]: the [timer] part is its expiry. *)
Record trans_timer := mk_trans_timer {
  tt_type : Z; tt_expires : Z; tt_bucket_id : Z; tt_t : nat
}.

(** ** Transactions *)

Inductive trans_type := TT_UAS | TT_UAC.

#[export] Instance trans_type_eq_dec : EqDecision trans_type.
Proof. solve_decision. Defined.

Inductive trans_state :=
| TS_ZERO
| TS_TRYING | TS_CALLING | TS_PROCEEDING | TS_PROCEEDING_REL | TS_COMPLETED
| TS_CONFIRMED | TS_TERMINATED_200 | TS_TERMINATED | TS_ABANDONED | TS_REMOVED.

#[export] Instance trans_state_eq_dec : EqDecision trans_state.
Proof. solve_decision. Defined.

Record sip_trans := mk_trans {
  timers : gmap nat nat;                (* slot -> timer object, absent = NULL *)
  t_type : trans_type;
  t_msg : sip_msg;
  t_to_tag : cstring;
  reply_status : Z;
  t_state : trans_state;
  last_rseq : Z;
  t_dialog_id : cstring;
  t_targets : option sip_target_set;
  retr_buf : cstring;                   (* empty = nothing to re-transmit *)
  retr_addr : sockaddr_storage;
  retr_socket : option trsp_socket;
  t_flags : Z;
  canceled : bool
}.

(** [sip_trans::sip_trans()], with the type and the message set right after. *)
Definition new_sip_trans (ty : trans_type) (m : sip_msg) : sip_trans :=
  mk_trans ∅ ty m [] 0 TS_ZERO 0 [] None [] (mk_sockaddr 0 []) None 0 false.

Definition set_timers (x : gmap nat nat) (t : sip_trans) : sip_trans :=
  mk_trans x (t_type t) (t_msg t) (t_to_tag t) (reply_status t) (t_state t) (last_rseq t)
    (t_dialog_id t) (t_targets t) (retr_buf t) (retr_addr t) (retr_socket t) (t_flags t)
    (canceled t).
Definition set_msg (x : sip_msg) (t : sip_trans) : sip_trans :=
  mk_trans (timers t) (t_type t) x (t_to_tag t) (reply_status t) (t_state t) (last_rseq t)
    (t_dialog_id t) (t_targets t) (retr_buf t) (retr_addr t) (retr_socket t) (t_flags t)
    (canceled t).
Definition set_to_tag (x : cstring) (t : sip_trans) : sip_trans :=
  mk_trans (timers t) (t_type t) (t_msg t) x (reply_status t) (t_state t) (last_rseq t)
    (t_dialog_id t) (t_targets t) (retr_buf t) (retr_addr t) (retr_socket t) (t_flags t)
    (canceled t).
Definition set_reply_status (x : Z) (t : sip_trans) : sip_trans :=
  mk_trans (timers t) (t_type t) (t_msg t) (t_to_tag t) x (t_state t) (last_rseq t)
    (t_dialog_id t) (t_targets t) (retr_buf t) (retr_addr t) (retr_socket t) (t_flags t)
    (canceled t).
Definition set_state (x : trans_state) (t : sip_trans) : sip_trans :=
  mk_trans (timers t) (t_type t) (t_msg t) (t_to_tag t) (reply_status t) x (last_rseq t)
    (t_dialog_id t) (t_targets t) (retr_buf t) (retr_addr t) (retr_socket t) (t_flags t)
    (canceled t).
Definition set_last_rseq (x : Z) (t : sip_trans) : sip_trans :=
  mk_trans (timers t) (t_type t) (t_msg t) (t_to_tag t) (reply_status t) (t_state t) x
    (t_dialog_id t) (t_targets t) (retr_buf t) (retr_addr t) (retr_socket t) (t_flags t)
    (canceled t).
Definition set_dialog_id (x : cstring) (t : sip_trans) : sip_trans :=
  mk_trans (timers t) (t_type t) (t_msg t) (t_to_tag t) (reply_status t) (t_state t)
    (last_rseq t) x (t_targets t) (retr_buf t) (retr_addr t) (retr_socket t) (t_flags t)
    (canceled t).
Definition set_targets (x : option sip_target_set) (t : sip_trans) : sip_trans :=
  mk_trans (timers t) (t_type t) (t_msg t) (t_to_tag t) (reply_status t) (t_state t)
    (last_rseq t) (t_dialog_id t) x (retr_buf t) (retr_addr t) (retr_socket t) (t_flags t)
    (canceled t).
Definition set_retr (b : cstring) (a : sockaddr_storage) (k : option trsp_socket)
    (t : sip_trans) : sip_trans :=
  mk_trans (timers t) (t_type t) (t_msg t) (t_to_tag t) (reply_status t) (t_state t)
    (last_rseq t) (t_dialog_id t) (t_targets t) b a k (t_flags t) (canceled t).
Definition set_flags (x : Z) (t : sip_trans) : sip_trans :=
  mk_trans (timers t) (t_type t) (t_msg t) (t_to_tag t) (reply_status t) (t_state t)
    (last_rseq t) (t_dialog_id t) (t_targets t) (retr_buf t) (retr_addr t) (retr_socket t)
    x (canceled t).
Definition set_canceled (x : bool) (t : sip_trans) : sip_trans :=
  mk_trans (timers t) (t_type t) (t_msg t) (t_to_tag t) (reply_status t) (t_state t)
    (last_rseq t) (t_dialog_id t) (t_targets t) (retr_buf t) (retr_addr t) (retr_socket t)
    (t_flags t) x.

(** ** State, faults and events *)

Inductive timeout_ev := noPRACK | noACK.

Inductive event :=
| EvSend (m : sip_msg) (flags : Z)                            (* sip_msg::send *)
| EvRetransmit (t : nat) (buf : cstring) (dst : sockaddr_storage) (flags : Z)
| EvAck (ack : sip_msg) (flags : Z)                           (* non-200 ACK *)
| EvReply (t : nat) (code : Z) (buf : cstring) (dst : sockaddr_storage)   (* send_reply *)
| EvStatelessReply (req : sip_msg) (code : Z)                 (* send_sl_reply *)
| EvUaRequest (t : option nat) (m : sip_msg)                  (* ua->handle_sip_request *)
| EvUaReply (dialog_id : cstring) (m : sip_msg)               (* ua->handle_sip_reply *)
| EvUaTimeout (ev : timeout_ev) (t : nat).                    (* ua->handle_reply_timeout *)

Inductive fault :=
  UseAfterFree | NullDeref | AssertFailed | SelfDeadlock | NotLocked | OutOfBounds.

Record tl := mk_tl {
  heap : gmap nat sip_trans;
  buckets : gmap Z (list nat);
  tmrs : gmap nat trans_timer;
  wt : wheeltimer;
  locked : gset Z;
  fresh : nat;                         (* next address of an allocation *)
  blacklist : list sockaddr_storage;
  sends : nat;                         (* number of messages handed to a socket *)
  branch_cnt : Z;                      (* __branch_cnt *)
  events : list event
}.

Definition set_heap (x : gmap nat sip_trans) (s : tl) : tl :=
  mk_tl x (buckets s) (tmrs s) (wt s) (locked s) (fresh s) (blacklist s) (sends s)
    (branch_cnt s) (events s).
Definition set_buckets (x : gmap Z (list nat)) (s : tl) : tl :=
  mk_tl (heap s) x (tmrs s) (wt s) (locked s) (fresh s) (blacklist s) (sends s)
    (branch_cnt s) (events s).
Definition set_tmrs (x : gmap nat trans_timer) (s : tl) : tl :=
  mk_tl (heap s) (buckets s) x (wt s) (locked s) (fresh s) (blacklist s) (sends s)
    (branch_cnt s) (events s).
Definition set_wt (x : wheeltimer) (s : tl) : tl :=
  mk_tl (heap s) (buckets s) (tmrs s) x (locked s) (fresh s) (blacklist s) (sends s)
    (branch_cnt s) (events s).
Definition set_locked (x : gset Z) (s : tl) : tl :=
  mk_tl (heap s) (buckets s) (tmrs s) (wt s) x (fresh s) (blacklist s) (sends s)
    (branch_cnt s) (events s).
Definition set_fresh (x : nat) (s : tl) : tl :=
  mk_tl (heap s) (buckets s) (tmrs s) (wt s) (locked s) x (blacklist s) (sends s)
    (branch_cnt s) (events s).
Definition set_blacklist (x : list sockaddr_storage) (s : tl) : tl :=
  mk_tl (heap s) (buckets s) (tmrs s) (wt s) (locked s) (fresh s) x (sends s)
    (branch_cnt s) (events s).
Definition set_sends (x : nat) (s : tl) : tl :=
  mk_tl (heap s) (buckets s) (tmrs s) (wt s) (locked s) (fresh s) (blacklist s) x
    (branch_cnt s) (events s).
Definition set_branch_cnt (x : Z) (s : tl) : tl :=
  mk_tl (heap s) (buckets s) (tmrs s) (wt s) (locked s) (fresh s) (blacklist s) (sends s)
    x (events s).
Definition set_events (x : list event) (s : tl) : tl :=
  mk_tl (heap s) (buckets s) (tmrs s) (wt s) (locked s) (fresh s) (blacklist s) (sends s)
    (branch_cnt s) x.

Definition bucket (s : tl) (b : Z) : list nat := default [] (buckets s !! b).

(** ** The monad *)

Inductive result (A : Type) :=
| Ok (a : A) (s : tl)
| Fault (f : fault).
Arguments Ok {A} a s.
Arguments Fault {A} f.

Definition M (A : Type) : Type := tl -> result A.

Definition ret {A} (a : A) : M A := fun s => Ok a s.
Definition bind {A B} (m : M A) (k : A -> M B) : M B :=
  fun s => match m s with Ok a s => k a s | Fault f => Fault f end.
Definition abort {A} (f : fault) : M A := fun _ => Fault f.

Declare Scope tl_scope.
Delimit Scope tl_scope with tl.
Notation "'let*' x ':=' m 'in' k" := (bind m (fun x => k))
  (at level 10, x pattern, k at level 200) : tl_scope.
Notation "m ;;; k" := (bind m (fun _ => k)) (at level 199, right associativity) : tl_scope.
Open Scope tl_scope.

Definition gets {A} (f : tl -> A) : M A := fun s => Ok (f s) s.
Definition update (f : tl -> tl) : M unit := fun s => Ok tt (f s).

Definition emit (e : event) : M unit := update (fun s => set_events (e :: events s) s).

(** [assert(p != NULL)] followed by the use of [*p]. *)
Definition assert_some {A} (o : option A) : M A :=
  match o with Some a => ret a | None => abort AssertFailed end.

(** Dereference of a pointer that the source does not check. *)
Definition deref {A} (o : option A) : M A :=
  match o with Some a => ret a | None => abort NullDeref end.

(** [*t] for a transaction and for a timer. *)
Definition get_trans (t : nat) : M sip_trans :=
  fun s => match heap s !! t with Some tr => Ok tr s | None => Fault UseAfterFree end.
Definition modify (t : nat) (f : sip_trans -> sip_trans) : M unit :=
  fun s => match heap s !! t with
           | Some tr => Ok tt (set_heap (<[t := f tr]> (heap s)) s)
           | None => Fault UseAfterFree
           end.
Definition get_tmr (p : nat) : M trans_timer :=
  fun s => match tmrs s !! p with Some x => Ok x s | None => Fault UseAfterFree end.

Definition lock (b : Z) : M unit :=
  fun s => if decide (b ∈ locked s) then Fault SelfDeadlock
           else Ok tt (set_locked ({[b]} ∪ locked s) s).
Definition unlock (b : Z) : M unit :=
  fun s => if decide (b ∈ locked s) then Ok tt (set_locked (locked s ∖ {[b]}) s)
           else Fault NotLocked.

(** ** Environment *)

(** Configuration, and what the layer asks of the outside: the registered transports, the
    operating system's choice of an interface, the transport ([send_ok n] is the outcome
    of the [n]-th send), the hash function, the address a socket advertises in Via, the
    R-URI rewriting (which parses the URI and may fail), the text of a generated message
    and whether the parser accepts it. *)
Record env := mk_env {
  sip_timers : list Z;
  sip_timer_t2 : Z;
  default_bl_ttl : Z;
  transports : list (list (cstring * trsp_socket));
  os_outbound_if : sockaddr_storage -> Z;
  hashlittle : cstring -> Z -> Z;
  send_ok : nat -> bool;
  sent_by : trsp_socket -> cstring * cstring;
  ruri_with_remote_ip : cstring -> sockaddr_storage -> option cstring;
  gen_buf : sip_msg -> cstring;
  parse_ok : cstring -> bool
}.

Definition timer_value (E : env) (ty : Z) : Z := nth (Z.to_nat ty) (sip_timers E) 0.

(** ** Operations of [sip_trans] *)

Section SipTrans.
Context (E : env).

Definition msg_send (m : sip_msg) (flags : Z) : M bool :=
  let* k := assert_some (m_local_socket m) in
  let* n := gets sends in
  update (set_sends (S n)) ;;;
  emit (EvSend m flags) ;;;
  ret (send_ok E n).

Definition retransmit (t : nat) : M unit :=
  let* tr := get_trans t in
  match retr_buf tr with
  | [] => ret tt
  | _ =>
      let* k := assert_some (retr_socket tr) in
      let* n := gets sends in
      update (set_sends (S n)) ;;;
      emit (EvRetransmit t (retr_buf tr) (retr_addr tr) (t_flags tr))
  end.

Definition get_timer (t : nat) (timer_type : Z) : M (option nat) :=
  let* sl := deref (fetch_timer timer_type) in
  let* tr := get_trans t in
  ret (timers tr !! sl).

Definition is_timer_set (t : nat) (timer_type : Z) : M bool :=
  let* p := get_timer t timer_type in
  ret (match p with Some _ => true | None => false end).

(** [wheeltimer::instance()->remove_timer] and [insert_timer] on a [trans_timer]. *)
Definition wheel_remove (p : nat) : M unit :=
  let* x := get_tmr p in
  update (fun s => set_wt (remove_timer (Some (mk_timer p (tt_expires x))) (wt s)) s).
Definition wheel_insert (p : nat) : M unit :=
  let* x := get_tmr p in
  update (fun s => set_wt (insert_timer (mk_timer p (tt_expires x)) (wt s)) s).

(** [reset_timer(trans_timer* t, unsigned int timer_type)]. *)
Definition reset_timer_to (t : nat) (p : option nat) (timer_type : Z) : M unit :=
  let* sl := deref (fetch_timer timer_type) in
  let* tr := get_trans t in
  match timers tr !! sl with Some old => wheel_remove old | None => ret tt end ;;;
  modify t (fun tr => set_timers (partial_alter (fun _ => p) sl (timers tr)) tr) ;;;
  match p with Some p => wheel_insert p | None => ret tt end.

Definition new_trans_timer (x : trans_timer) : M nat :=
  fun s => Ok (fresh s) (set_fresh (S (fresh s)) (set_tmrs (<[fresh s := x]> (tmrs s)) s)).

(** [reset_timer(unsigned int timer_type, unsigned int expire_delay, unsigned int bucket_id)]. *)
Definition reset_timer (t : nat) (timer_type expire_delay bucket_id : Z) : M unit :=
  let* clk := gets (fun s => wall_clock (wt s)) in
  let expires := u32 (expire_delay / (TIMER_RESOLUTION / 1000) + clk) in
  let* p := new_trans_timer (mk_trans_timer timer_type expires bucket_id t) in
  reset_timer_to t (Some p) timer_type.

Definition clear_timer (t : nat) (timer_type : Z) : M unit :=
  reset_timer_to t None timer_type.

(** One iteration of the loop of [reset_all_timers]. *)
Definition reset_slot (t : nat) (i : nat) : M unit :=
  let* tr := get_trans t in
  match timers tr !! i with
  | Some p => wheel_remove p ;;; modify t (fun tr => set_timers (delete i (timers tr)) tr)
  | None => ret tt
  end.

Definition reset_all_timers (t : nat) : M unit :=
  reset_slot t 0 ;;; reset_slot t 1 ;;; reset_slot t 2.

(** [turn_wheel] of the wheel of the transactions, up to the firing of the timers that are
    due, which are the result: the timer objects whose removal was asked for are deleted.
    A timer that is linked into the wheel, inserted or deleted must exist. *)
Definition wheel_tick : M (list timer) :=
  fun s =>
    if forallb (fun t => bool_decide (is_Some (tmrs s !! tm_ptr t))) (timers_of (wt s)) then
      match reqs_objects (reqs_backlog (wt s)) (tmrs s), turn_wheel (wt s) with
      | None, _ => Fault UseAfterFree
      | _, None => Fault OutOfBounds
      | Some h, Some (w, fired) => Ok fired (set_tmrs h (set_wt w s))
      end
    else Fault UseAfterFree.

End SipTrans.
