(* ===== verification/TransTable.v ===== *)
(** * The transaction table

    Model of [core/sip/trans_table.cpp] (matching of requests, replies, 200 ACKs and PRACKs
    to transactions, insertion, branch and tag generation) and of [ht_bucket] in
    [core/hash_table.h].

    The matching loops run over the transactions of a bucket in order; their result is
    the address of the matched transaction, and an outer [None] is a failed [assert]. *)

From Stdlib Require Import ZArith Lia Ascii String.
From stdpp Require Import base list gmap.
From S2P Require Import Prelude Wheeltimer SipMsg SipTrans.

Local Open Scope Z_scope.
Local Open Scope bool_scope.

(** ** Buckets *)

Definition H_TABLE_ENTRIES : Z := 1024.

(** [ht_bucket::exist]. *)
Definition exist (b : Z) (t : nat) : M bool :=
  gets (fun s => bool_decide (t ∈ bucket s b)).

(** [elmts.erase(find(t))]: the first occurrence. *)
Fixpoint erase (t : nat) (l : list nat) : list nat :=
  match l with
  | [] => []
  | x :: l => if (x =? t)%nat then l else x :: erase t l
  end.

(** [delete t]: the destructor clears the timers, then the memory is gone. *)
Definition delete_trans (t : nat) : M unit :=
  reset_all_timers t ;;;
  update (fun s => set_heap (delete t (heap s)) s).

(** [ht_bucket::remove]. *)
Definition remove (b : Z) (t : nat) : M unit :=
  let* e := exist b t in
  if e then
    update (fun s => set_buckets (<[b := erase t (bucket s b)]> (buckets s)) s) ;;;
    delete_trans t
  else ret tt.

(** [trans_bucket::append], and the allocation of a new transaction. *)
Definition append (b : Z) (t : nat) : M unit :=
  update (fun s => set_buckets (<[b := bucket s b ++ [t]]> (buckets s)) s).

Definition alloc_trans (tr : sip_trans) : M nat :=
  fun s => Ok (fresh s) (set_fresh (S (fresh s)) (set_heap (<[fresh s := tr]> (heap s)) s)).

(** [trans_bucket::add_trans]. *)
Definition add_trans (b : Z) (m : sip_msg) (ttype : trans_type) : M nat :=
  let* meth := assert_some (msg_method m) in
  let st :=
    if decide (meth = INVITE)
    then if decide (ttype = TT_UAS) then TS_PROCEEDING else TS_CALLING
    else TS_TRYING in
  let* t := alloc_trans (set_state st (new_sip_trans ttype m)) in
  append b t ;;;
  ret t.

(** The transactions of a bucket, dereferenced in order. *)
Fixpoint load_all (l : list nat) : M (list (nat * sip_trans)) :=
  match l with
  | [] => ret []
  | t :: l =>
      let* tr := get_trans t in
      let* rest := load_all l in
      ret ((t, tr) :: rest)
  end.

Definition elmts (b : Z) : M (list (nat * sip_trans)) :=
  let* l := gets (fun s => bucket s b) in load_all l.

(** ** Matching *)

Definition cs_eqb (a b : cstring) : bool := bool_decide (a = b).

(** [cstring::operator==], which compares over the shorter of the two lengths. *)
Fixpoint cstring_equal (a b : cstring) : bool :=
  match a, b with
  | x :: a, y :: b => bool_decide (x = y) && cstring_equal a b
  | _, _ => true
  end.

Definition ocs_eqb (a : cstring) (b : option cstring) : bool :=
  match b with Some b => cs_eqb a b | None => false end.

(** [compare_branch]: the cookie of the stored branch is skipped unread. *)
Definition compare_branch (t : sip_trans) (msg_via : sip_via_parm) (branch : cstring) : bool :=
  match m_via_p1 (t_msg t) with
  | None => false
  | Some via =>
      bool_decide (length (via_branch via) = length branch + MAGIC_BRANCH_LEN)%nat &&
      cs_eqb (drop MAGIC_BRANCH_LEN (via_branch via)) branch &&
      cs_eqb (via_host via) (via_host msg_via) &&
      cs_eqb (via_port via) (via_port msg_via)
  end.

(** [match_200_ack]; [None] is [assert(from && to && cseq)] failing. *)
Definition match_200_ack (t : sip_trans) (m : sip_msg) : option bool :=
  match m_from_tag m, m_to_tag m, m_cseq m with
  | Some from, Some to, Some cseq =>
      Some (ocs_eqb from (m_from_tag (t_msg t)) &&
            match m_cseq (t_msg t) with
            | Some t_cseq => cseq_num cseq =? cseq_num t_cseq
            | None => false
            end &&
            bool_decide (m_callid m = m_callid (t_msg t)) &&
            cs_eqb to (t_to_tag t))
  | _, _, _ => None
  end.

(** The RFC 3261 loop of [match_request]. *)
Fixpoint match_request_3261 (m : sip_msg) (meth : method) (via : sip_via_parm)
    (ttype : trans_type) (l : list (nat * sip_trans)) : option (option nat) :=
  match l with
  | [] => Some None
  | (p, t) :: l =>
      let continue := match_request_3261 m meth via ttype l in
      let branch := drop MAGIC_BRANCH_LEN (via_branch via) in
      match msg_method (t_msg t) with
      | None => continue
      | Some t_meth =>
          if negb (bool_decide (t_type t = ttype)) then continue
          else if negb (bool_decide (meth = t_meth)) then
            if bool_decide (t_meth = INVITE) && bool_decide (meth = ACK) then
              if compare_branch t via branch then Some (Some p)
              else
                match match_200_ack t m with
                | None => None
                | Some true => Some (Some p)
                | Some false => continue
                end
            else continue
          else if negb (compare_branch t via branch) then continue
          else Some (Some p)
      end
  end.

(** The pre-3261 loop of [match_request]. *)
Fixpoint match_request_2543 (m : sip_msg) (r : sip_request) (from to : cstring)
    (cseq : sip_cseq) (ttype : trans_type) (l : list (nat * sip_trans)) : option nat :=
  match l with
  | [] => None
  | (p, t) :: l =>
      let continue := match_request_2543 m r from to cseq ttype l in
      match m_u (t_msg t) with
      | SIP_REQUEST t_r =>
          if negb (bool_decide (t_type t = ttype)) then continue
          else if negb (bool_decide (req_method r = req_method t_r)) &&
                  (negb (bool_decide (req_method r = ACK)) ||
                   negb (bool_decide (req_method t_r = INVITE))) then continue
          else if negb (ocs_eqb from (m_from_tag (t_msg t))) then continue
          else if negb (ocs_eqb (num_str cseq) (num_str <$> m_cseq (t_msg t))) then continue
          else
            let ruri_test :=
              if cs_eqb (ruri_str t_r) (ruri_str r) then Some p else continue in
            if bool_decide (req_method r = ACK) then
              if negb (cs_eqb to (t_to_tag t)) then continue
              else if reply_status t <? 300 then Some p
              else ruri_test
            else if negb (ocs_eqb to (m_to_tag (t_msg t))) then continue
            else ruri_test
      | _ => continue
      end
  end.

Definition match_request (b : Z) (m : sip_msg) (ttype : trans_type) : M (option nat) :=
  let* r := deref (match m_u m with SIP_REQUEST r => Some r | _ => None end) in
  let* via := assert_some (m_via_p1 m) in
  let* l := elmts b in
  match l with
  | [] => ret None
  | _ =>
      let do_3261_match :=
        (MAGIC_BRANCH_LEN <? length (via_branch via))%nat &&
        cs_eqb (take MAGIC_BRANCH_LEN (via_branch via)) MAGIC_BRANCH_COOKIE in
      if do_3261_match
      then assert_some (match_request_3261 m (req_method r) via ttype l)
      else
        let* from := assert_some (m_from_tag m) in
        let* to := assert_some (m_to_tag m) in
        let* cseq := assert_some (m_cseq m) in
        ret (match_request_2543 m r from to cseq ttype l)
  end.

(** The loop of [match_reply]; [None] is the dereference of a missing CSeq. *)
Fixpoint match_reply_loop (via : sip_via_parm) (cseq : sip_cseq) (l : list (nat * sip_trans))
  : option (option nat) :=
  match l with
  | [] => Some None
  | (p, t) :: l =>
      let continue := match_reply_loop via cseq l in
      if negb (bool_decide (t_type t = TT_UAC)) then continue
      else
        match m_via_p1 (t_msg t) with
        | None => continue
        | Some t_via =>
            if negb (bool_decide (length (via_branch t_via) = length (via_branch via)))
            then continue
            else
              match m_cseq (t_msg t) with
              | None => None
              | Some t_cseq =>
                  if cs_eqb (drop MAGIC_BRANCH_LEN (via_branch t_via))
                            (drop MAGIC_BRANCH_LEN (via_branch via)) &&
                     cs_eqb (num_str t_cseq) (num_str cseq) &&
                     cs_eqb (cseq_method_str t_cseq) (cseq_method_str cseq)
                  then Some (Some p) else continue
              end
        end
  end.

Definition match_reply (b : Z) (m : sip_msg) : M (option nat) :=
  let* l := elmts b in
  match l with
  | [] => ret None
  | _ =>
      let* via := assert_some (m_via_p1 m) in
      if (length (via_branch via) <=? MAGIC_BRANCH_LEN)%nat then ret None
      else
        let* cseq := assert_some (m_cseq m) in
        deref (match_reply_loop via cseq l)
  end.

(** The loop of [match_1xx_prack]; it does not look at the transaction type. *)
Fixpoint match_1xx_prack_loop (m : sip_msg) (rack : sip_rack) (l : list (nat * sip_trans))
  : option nat :=
  match l with
  | [] => None
  | (p, t) :: l =>
      let continue := match_1xx_prack_loop m rack l in
      match m_u (t_msg t), m_from_tag m, m_to_tag m, m_cseq (t_msg t) with
      | SIP_REQUEST t_r, Some from, Some to, Some t_cseq =>
          if ocs_eqb from (m_from_tag (t_msg t)) &&
             bool_decide (m_callid m = m_callid (t_msg t)) &&
             (rack_cseq rack =? cseq_num t_cseq) &&
             (rack_rseq rack =? last_rseq t) &&
             bool_decide (rack_method rack = req_method t_r) &&
             cs_eqb to (t_to_tag t)
          then Some p else continue
      | _, _, _, _ => continue
      end
  end.

Definition match_1xx_prack (b : Z) (m : sip_msg) : M (option nat) :=
  let* l := elmts b in
  match l with
  | [] => ret None
  | _ =>
      let* rack := deref (m_rack m) in
      ret (match_1xx_prack_loop m rack l)
  end.

(** The loop of [find_uac_trans], over the bucket in reverse order. *)
Fixpoint find_uac_trans_loop (dialog_id : cstring) (inv_cseq : Z) (l : list (nat * sip_trans))
  : option nat :=
  match l with
  | [] => None
  | (p, t) :: l =>
      match t_type t, msg_method (t_msg t), m_cseq (t_msg t) with
      | TT_UAC, Some _, Some t_cseq =>
          if cstring_equal (t_dialog_id t) dialog_id && (cseq_num t_cseq =? inv_cseq) &&
             negb (bool_decide (t_state t = TS_ABANDONED))
          then Some p
          else find_uac_trans_loop dialog_id inv_cseq l
      | _, _, _ => find_uac_trans_loop dialog_id inv_cseq l
      end
  end.

Definition find_uac_trans (b : Z) (dialog_id : cstring) (inv_cseq : Z) : M (option nat) :=
  let* l := elmts b in ret (find_uac_trans_loop dialog_id inv_cseq (reverse l)).

(** ** Hashing, tags and branches *)

Definition tag_lookup : list ascii :=
  cs "abcdefghijklmnopqrstuvwxyzABCDEFGHIJKLMNOPQRSTUVWXYZ0123456789.~".

Definition tag_char (i : Z) : ascii := nth (Z.to_nat i) tag_lookup "000"%char.

Definition compute_tag (hl hh : Z) : cstring :=
  let hl := u32 (hl + Z.shiftr hh 16) in
  let hh := Z.land hh 65535 in
  [ tag_char (Z.land hl 63);
    tag_char (Z.land (Z.shiftr hl 6) 63);
    tag_char (Z.land (Z.shiftr hl 12) 63);
    tag_char (Z.land (Z.shiftr hl 18) 63);
    tag_char (Z.land (Z.shiftr hl 24) 63);
    tag_char (Z.land (Z.shiftr hl 30) (Z.land (u32 (Z.shiftl hh 2)) 63));
    tag_char (Z.land (Z.shiftr hh 4) 63);
    tag_char (Z.land (Z.shiftr hh 10) 63) ].

Section Hash.
Context (E : env).

(** [hash(ci, cs)]. *)
Definition trans_hash (ci cs : cstring) : Z := hashlittle E cs (hashlittle E ci 0).

(** [get_trans_bucket]: the index of the bucket, [_table[hash % size]]. *)
Definition get_trans_bucket (h : Z) : Z := h mod H_TABLE_ENTRIES.

(** [__branch_cnt.inc()]: the incremented value. *)
Definition branch_cnt_inc : M Z :=
  let* n := gets branch_cnt in
  update (set_branch_cnt (u32 (n + 1))) ;;; ret (u32 (n + 1)).

Definition compute_branch (callid cseq : cstring) : M cstring :=
  let* hh := branch_cnt_inc in
  let* hl := branch_cnt_inc in
  let hl := hashlittle E callid hl in
  let hh := hashlittle E cseq hh in
  ret (compute_tag hl hh).

End Hash.
