(* ===== verification/TransLayer.v ===== *)
(** * The transaction layer

    Model of [core/sip/trans_layer.cpp]: the client and server transaction state machines
    ([update_uac_request], [update_uac_reply], [update_uas_request], [update_uas_reply]),
    the timer handler [timer_expired], fail-over to the next destination
    ([try_next_ip]), [cancel], [timeout], and the dispatch of received messages
    ([process_rcvd_msg]).

    Every function takes the bucket by its index and the transaction by its address and
    runs in the monad of SipTrans, so the order of the source's effects (state changes,
    timers, messages, locks, calls into the user agent) is the order of the statements
    here.  Logging and the statistics counters are left out.  A call into the user agent
    is an event: what the agent does in reaction are later calls of the layer. *)

From Stdlib Require Import ZArith Lia Ascii String.
From stdpp Require Import base list gmap.
From S2P Require Import Prelude Wheeltimer SipMsg SipTrans TransTable.

Local Open Scope Z_scope.
Local Open Scope bool_scope.

Section TransLayer.
Context (E : env).

Definition A_TIMER := timer_value E STIMER_A.
Definition B_TIMER := timer_value E STIMER_B.
Definition C_TIMER := timer_value E STIMER_C.
Definition D_TIMER := timer_value E STIMER_D.
Definition E_TIMER := timer_value E STIMER_E.
Definition F_TIMER := timer_value E STIMER_F.
Definition G_TIMER := timer_value E STIMER_G.
Definition H_TIMER := timer_value E STIMER_H.
Definition I_TIMER := timer_value E STIMER_I.
Definition J_TIMER := timer_value E STIMER_J.
Definition K_TIMER := timer_value E STIMER_K.
Definition L_TIMER := timer_value E STIMER_L.
Definition M_TIMER := timer_value E STIMER_M.
Definition BL_TIMER := timer_value E STIMER_BL.

(** The request of a transaction: [t->msg->u.request]. *)
Definition trans_request (tr : sip_trans) : M sip_request :=
  deref (match m_u (t_msg tr) with SIP_REQUEST r => Some r | _ => None end).

Definition trans_method (t : nat) : M method :=
  let* tr := get_trans t in
  let* r := trans_request tr in
  ret (req_method r).

(** [t->state] and [t->state = st]. *)
Definition state_of (t : nat) : M trans_state :=
  let* tr := get_trans t in ret (t_state tr).
Definition become (t : nat) (st : trans_state) : M unit := modify t (set_state st).

(** [t->flags |= f]. *)
Definition or_flag (t : nat) (f : Z) : M unit :=
  modify t (fun tr => set_flags (Z.lor (t_flags tr) f) tr).

(** [if(default_bl_ttl) tr_blacklist::instance()->insert(addr,default_bl_ttl,..)]. *)
Definition bl_insert (a : sockaddr_storage) : M unit :=
  if default_bl_ttl E =? 0 then ret tt
  else update (fun s => if bool_decide (a ∈ blacklist s) then s
                        else set_blacklist (a :: blacklist s) s).

(** ** Choice of a socket *)

(** [transports[i].find(name)], keys compared without regard to case. *)
Definition find_transport (name : cstring) (l : list (cstring * trsp_socket))
  : option trsp_socket :=
  snd <$> List.find (fun kv => lower_eqb (fst kv) name) l.

Definition find_outbound_if (remote_ip : sockaddr_storage) : Z :=
  if (length (transports E) <=? 1)%nat then 0 else os_outbound_if E remote_ip.

(** [None] is the error return. *)
Definition set_trsp_socket (m : sip_msg) (next_trsp : cstring) (out_interface : Z)
  : option sip_msg :=
  let size := Z.of_nat (length (transports E)) in
  if size =? 0 then None
  else
    let out_interface :=
      if (out_interface <? 0) || (size <=? out_interface)
      then find_outbound_if (m_remote_ip m) else out_interface in
    if (out_interface <? 0) || (size <=? out_interface) then None
    else
      let prots := nth (Z.to_nat out_interface) (transports E) [] in
      match prots with
      | [] => None
      | (_, first) :: _ =>
          let sock :=
            match find_transport next_trsp prots with
            | Some k => k
            | None =>
                match find_transport (cs "udp") prots with
                | Some k => k
                | None => first
                end
            end in
          Some (set_local_socket (Some sock) m)
      end.

(** ** Generated messages *)

(** [patch_ruri_with_remote_ip]; [None] is the parse error. *)
Definition patch_ruri_with_remote_ip (m : sip_msg) : option sip_msg :=
  match m_u m with
  | SIP_REQUEST r =>
      match ruri_with_remote_ip E (ruri_str r) (m_remote_ip m) with
      | Some uri => Some (set_u (SIP_REQUEST (mk_request (req_method_str r) (req_method r) uri)) m)
      | None => None
      end
  | _ => None
  end.

(** [generate_and_parse_new_msg]: the message with a new topmost Via. *)
Definition generate_and_parse_new_msg (m : sip_msg) : M (option sip_msg) :=
  let* callid := deref (m_callid m) in
  let* cseq := deref (m_cseq m) in
  let* branch := compute_branch E callid (cseq_value cseq) in
  let* sock := deref (m_local_socket m) in
  let '(host, port) := sent_by E sock in
  let via := mk_via (MAGIC_BRANCH_COOKIE ++ branch) host port in
  let p := set_via (Some via) m in
  let p := set_buf (gen_buf E p) p in
  ret (if parse_ok E (m_buf p) then Some p else None).

(** The non-200 ACK: request line and CSeq of its own, To of the reply, the rest of the
    INVITE. *)
Definition non_200_ack (inv : sip_msg) (r : sip_request) (cseq : sip_cseq) (reply : sip_msg)
  : sip_msg :=
  let ack :=
    mk_msg [] (SIP_REQUEST (mk_request (cs "ACK") ACK (ruri_str r))) (m_via_p1 inv)
      (m_from_tag inv) (m_to_tag reply) (m_callid inv)
      (Some (mk_cseq (num_str cseq ++ cs " ACK") (num_str cseq) (cs "ACK") (cseq_num cseq)))
      None [] (m_local_socket inv) (m_remote_ip inv) in
  set_buf (gen_buf E ack) ack.

Definition send_non_200_ack (reply : sip_msg) (t : nat) : M unit :=
  let* tr := get_trans t in
  let inv := t_msg tr in
  let* r := trans_request tr in
  let* cseq := deref (m_cseq inv) in
  let* k := assert_some (m_local_socket inv) in
  let* n := gets sends in
  update (set_sends (S n)) ;;;
  emit (EvAck (non_200_ack inv r cseq reply) (t_flags tr)).

(** The CANCEL request for [req]. *)
Definition cancel_request (req : sip_msg) (r : sip_request) (cseq : sip_cseq) : sip_msg :=
  let c :=
    mk_msg [] (SIP_REQUEST (mk_request (cs "CANCEL") CANCEL (ruri_str r))) (m_via_p1 req)
      (m_from_tag req) (m_to_tag req) (m_callid req)
      (Some (mk_cseq (num_str cseq ++ cs " CANCEL") (num_str cseq) (cs "CANCEL")
               (cseq_num cseq)))
      None [] (m_local_socket req) (m_remote_ip req) in
  set_buf (gen_buf E c) c.

(** [gen_error_reply_from_req]: a reply made up by the layer itself. *)
Definition error_reply (req : sip_msg) (c : Z) (why : cstring) : sip_msg :=
  mk_msg (m_buf req) (SIP_REPLY (mk_reply c why)) None (m_from_tag req) (m_to_tag req)
    (m_callid req) (m_cseq req) None [] None (m_remote_ip req).

(** ** Client transactions: requests *)

(** [None] is the error return; [Some t] the transaction the message belongs to, if any. *)
Definition update_uac_request (b : Z) (m : sip_msg) : M (option (option nat)) :=
  let* meth := deref (msg_method m) in
  let* sock := deref (m_local_socket m) in
  if decide (meth = ACK) then
    if negb (is_reliable sock) then
      let* o := match_request b m TT_UAC in
      match o with
      | None => ret None
      | Some t =>
          modify t (set_retr (m_buf m) (m_remote_ip m) (Some sock)) ;;;
          ret (Some (Some t))
      end
    else ret (Some None)
  else
    let* t := add_trans b m TT_UAC in
    (if decide (meth = INVITE) then
       (if negb (is_reliable sock) then reset_timer t STIMER_A A_TIMER b else ret tt) ;;;
       reset_timer t STIMER_B B_TIMER b
     else
       (if negb (is_reliable sock) then reset_timer t STIMER_E E_TIMER b else ret tt) ;;;
       reset_timer t STIMER_F F_TIMER b) ;;;
    ret (Some (Some t)).

(** ** CANCEL *)

(** The last part of [cancel]: build, send and track the CANCEL request. *)
Definition send_cancel (b : Z) (t : nat) : M bool :=
  let* tr := get_trans t in
  let req := t_msg tr in
  let* r := trans_request tr in
  let* cseq := deref (m_cseq req) in
  let p_msg := cancel_request req r cseq in
  if negb (parse_ok E (m_buf p_msg)) then
    unlock b ;;; ret false
  else
    let* ok := msg_send E p_msg (t_flags tr) in
    let* done :=
      (if negb ok then ret false
       else
         let* o := update_uac_request b p_msg in
         match o with
         | None => ret false
         | Some _ => modify t (set_canceled true) ;;; ret true
         end) in
    unlock b ;;; ret done.

(** The part of [cancel] that works on the transaction it found. *)
Definition cancel_found (b : Z) (t : nat) : M bool :=
  let* tr := get_trans t in
  if canceled tr then unlock b ;;; ret true
  else
    let* r := trans_request tr in
    if negb (bool_decide (req_method r = INVITE)) then unlock b ;;; ret false
    else
      match t_state tr with
      | TS_CALLING =>
          clear_timer t STIMER_A ;;;
          clear_timer t STIMER_M ;;;
          or_flag t TR_FLAG_DISABLE_BL ;;;
          become t TS_ABANDONED ;;;
          unlock b ;;;
          emit (EvUaReply (t_dialog_id tr)
                  (error_reply (t_msg tr) 487 (cs "Request Terminated"))) ;;;
          ret true
      | TS_PROCEEDING | TS_ABANDONED => send_cancel b t
      | _ => unlock b ;;; ret false
      end.

(** [true] is the return value 0. *)
Definition cancel (b : Z) (t : nat) (dialog_id : cstring) (inv_cseq : Z) : M bool :=
  lock b ;;;
  let* e := exist b t in
  let* abandoned :=
    (if e then let* st := state_of t in ret (bool_decide (st = TS_ABANDONED)) else ret false) in
  let* o :=
    (if negb e || abandoned then
       match dialog_id with
       | [] => ret None
       | _ => find_uac_trans b dialog_id inv_cseq
       end
     else ret (Some t)) in
  match o with
  | None => unlock b ;;; ret true
  | Some t => cancel_found b t
  end.

(** [timeout]: unlocks the bucket. *)
Definition timeout (b : Z) (t : nat) : M unit :=
  reset_all_timers t ;;;
  become t TS_TERMINATED ;;;
  let* tr := get_trans t in
  let reply := error_reply (t_msg tr) 408 (cs "Request Timeout") in
  (if has_flag (t_flags tr) TR_FLAG_DISABLE_BL then remove b t
   else reset_timer t STIMER_BL BL_TIMER b) ;;;
  unlock b ;;;
  emit (EvUaReply (t_dialog_id tr) reply).

(** ** Fail-over to the next destination *)

(** The new transaction of [copy_uac_trans], completed by [try_next_ip]. *)
Definition copy_uac_trans (tr : sip_trans) (m : sip_msg) : sip_trans :=
  set_targets (t_targets tr)
    (set_dialog_id (t_dialog_id tr) (set_flags (t_flags tr) (new_sip_trans (t_type tr) m))).

(** The branch of [try_next_ip] that continues in a new transaction; [None] is the error
    return. *)
Definition retarget_new (b : Z) (t : nat) (sa : sockaddr_storage) (next_trsp : cstring)
  : M (option nat) :=
  let* tr := get_trans t in
  let tmp := set_remote_ip sa (t_msg tr) in
  let* old_sock := deref (m_local_socket tmp) in
  match set_trsp_socket (set_local_socket None tmp) next_trsp (sk_if old_sock) with
  | None => ret None
  | Some tmp =>
      let patched :=
        if has_flag (t_flags tr) TR_FLAG_NEXT_HOP_RURI
        then patch_ruri_with_remote_ip tmp else Some tmp in
      match patched with
      | None => ret None
      | Some tmp =>
          let* o := generate_and_parse_new_msg tmp in
          match o with
          | None => ret None
          | Some p_msg =>
              let* n_t := alloc_trans (copy_uac_trans tr p_msg) in
              modify t (set_targets None) ;;;
              let* t_bf := get_timer t STIMER_B in
              match t_bf with
              | Some p =>
                  let* x := get_tmr p in
                  let* p' := new_trans_timer (mk_trans_timer (tt_type x) (tt_expires x) b n_t) in
                  reset_timer_to n_t (Some p') (tt_type x)
              | None => ret tt
              end ;;;
              append b n_t ;;;
              ret (Some n_t)
          end
      end
  end.

(** The branch of [try_next_ip] that re-uses the transaction. *)
Definition retarget_same (t : nat) (sa : sockaddr_storage) (next_trsp : cstring)
  : M (option nat) :=
  modify t (fun tr => set_msg (set_remote_ip sa (t_msg tr)) tr) ;;;
  let* tr := get_trans t in
  let* old_sock := deref (m_local_socket (t_msg tr)) in
  match set_trsp_socket (t_msg tr) next_trsp (sk_if old_sock) with
  | None => ret None
  | Some m =>
      modify t (set_msg m) ;;;
      if has_flag (t_flags tr) TR_FLAG_NEXT_HOP_RURI then
        match patch_ruri_with_remote_ip m with
        | None => ret None
        | Some m =>
            modify t (set_msg m) ;;;
            let* o := generate_and_parse_new_msg m in
            match o with
            | None => ret None
            | Some p_msg => modify t (set_msg p_msg) ;;; ret (Some t)
            end
        end
      else if negb (bool_decide (m_local_socket m = Some old_sock)) then
        let* o := generate_and_parse_new_msg m in
        match o with
        | None => ret None
        | Some p_msg => modify t (set_msg p_msg) ;;; ret (Some t)
        end
      else
        let* via := deref (m_via_p1 m) in
        let* callid := deref (m_callid m) in
        let* cseq := deref (m_cseq m) in
        let* branch := compute_branch E callid (cseq_value cseq) in
        let n_branch :=
          take MAGIC_BRANCH_LEN (via_branch via) ++ branch ++
          drop (MAGIC_BRANCH_LEN + 8) (via_branch via) in
        modify t (set_msg (set_via (Some (mk_via n_branch (via_host via) (via_port via))) m)) ;;;
        ret (Some t)
  end.

(** The end of [try_next_ip], after the request has been sent. *)
Definition rearm (b : Z) (t : nat) : M unit :=
  let* tr := get_trans t in
  let* r := trans_request tr in
  let* sock := deref (m_local_socket (t_msg tr)) in
  (if decide (req_method r = INVITE) then
     become t TS_CALLING ;;;
     (if negb (is_reliable sock) then reset_timer t STIMER_A A_TIMER b else ret tt) ;;;
     let* tb := get_timer t STIMER_B in
     match tb with Some _ => ret tt | None => reset_timer t STIMER_B B_TIMER b end
   else
     become t TS_TRYING ;;;
     (if negb (is_reliable sock) then reset_timer t STIMER_E E_TIMER b else ret tt) ;;;
     let* tf := get_timer t STIMER_F in
     match tf with Some _ => ret tt | None => reset_timer t STIMER_F F_TIMER b end) ;;;
  let* tr := get_trans t in
  let* ts := deref (t_targets tr) in
  if has_next ts then reset_timer t STIMER_M M_TIMER b else ret tt.

(** The loop at the label [try_next_dest].  Every round takes a target off the set, so the
    fuel, one more than the number of targets, is never used up before the set is. *)
Fixpoint try_next_dest (fuel : nat) (b : Z) (t : nat) (use_new_trans : bool) : M bool :=
  match fuel with
  | O => ret false
  | S fuel =>
      let* tr := get_trans t in
      match t_targets tr with
      | None => ret false
      | Some ts =>
          let* bl := gets blacklist in
          let '(ts', r) := get_next (fun a => bool_decide (a ∈ bl)) (t_flags tr) ts in
          modify t (set_targets (Some ts')) ;;;
          match r with
          | None => ret false
          | Some (sa, next_trsp) =>
              let* o := (if use_new_trans then retarget_new b t sa next_trsp
                         else retarget_same t sa next_trsp) in
              match o with
              | None => ret false
              | Some t' =>
                  let* tr' := get_trans t' in
                  let* ok := msg_send E (t_msg tr') (t_flags tr') in
                  if negb ok then
                    bl_insert (m_remote_ip (t_msg tr')) ;;;
                    try_next_dest fuel b t' false
                  else rearm b t' ;;; ret true
              end
          end
      end
  end.

Definition targets_count (tr : sip_trans) : nat :=
  match t_targets tr with Some ts => length (dest_list ts) | None => 0 end.

(** [true] is the return value 0: the message has been re-sent. *)
Definition try_next_ip (b : Z) (t : nat) (use_new_trans : bool) : M bool :=
  clear_timer t STIMER_M ;;;
  let* tr := get_trans t in
  try_next_dest (S (targets_count tr)) b t use_new_trans.

(** ** Client transactions: replies *)

(** [pass_reply] and [end]: whether the reply goes on to the user agent. *)
Definition pass_reply : M bool := ret true.
Definition absorb : M bool := ret false.

(** A provisional reply. *)
Definition uac_provisional (b : Z) (t : nat) : M bool :=
  let proceed : M bool :=
    let* meth := trans_method t in
    if negb (bool_decide (meth = CANCEL)) then
      (if decide (meth = INVITE) then reset_timer t STIMER_C C_TIMER b else ret tt) ;;;
      pass_reply
    else absorb in
  let* st := state_of t in
  match st with
  | TS_CALLING => reset_all_timers t ;;; become t TS_PROCEEDING ;;; proceed
  | TS_TRYING => become t TS_PROCEEDING ;;; proceed
  | TS_PROCEEDING => proceed
  | TS_ABANDONED =>
      or_flag t TR_FLAG_DISABLE_BL ;;;
      unlock b ;;;
      let* _ := cancel b t [] 0 in
      lock b ;;;
      absorb
  | TS_TERMINATED => or_flag t TR_FLAG_DISABLE_BL ;;; absorb
  | _ => absorb
  end.

(** A final error reply to an INVITE, once the 503 case has been dealt with. *)
Definition uac_invite_error_final (b : Z) (t : nat) (m : sip_msg) (forget_reply : bool)
  : M bool :=
  let complete : M bool :=
    clear_timer t STIMER_C ;;;
    become t TS_COMPLETED ;;;
    send_non_200_ack m t ;;;
    reset_timer t STIMER_D D_TIMER b ;;;
    if forget_reply then absorb else pass_reply in
  let* st := state_of t in
  match st with
  | TS_CALLING => reset_all_timers t ;;; complete
  | TS_PROCEEDING => complete
  | TS_ABANDONED | TS_TERMINATED =>
      match m_local_socket m with
      | None => reset_all_timers t ;;; remove b t ;;; absorb
      | Some _ =>
          or_flag t TR_FLAG_DISABLE_BL ;;;
          send_non_200_ack m t ;;;
          absorb
      end
  | TS_COMPLETED => send_non_200_ack m t ;;; absorb
  | _ => absorb
  end.

(** A final error reply to an INVITE. *)
Definition uac_invite_error (b : Z) (t : nat) (m : sip_msg) (reply_code : Z) : M bool :=
  let* tr := get_trans t in
  if (reply_code =? 503) &&
     (bool_decide (t_state tr = TS_CALLING) || bool_decide (t_state tr = TS_PROCEEDING))
  then
    (if negb (has_flag (t_flags tr) TR_FLAG_DISABLE_BL)
     then bl_insert (m_remote_ip (t_msg tr)) else ret tt) ;;;
    match m_local_socket m with
    | Some _ =>
        let* moved := try_next_ip b t true in
        uac_invite_error_final b t m moved
    | None =>
        let* moved := try_next_ip b t false in
        if moved then absorb else uac_invite_error_final b t m false
    end
  else uac_invite_error_final b t m false.

(** A positive final reply to an INVITE. *)
Definition uac_invite_2xx (b : Z) (t : nat) (to_tag : cstring) : M bool :=
  let* tr := get_trans t in
  match t_state tr with
  | TS_CALLING | TS_PROCEEDING =>
      become t TS_TERMINATED_200 ;;;
      reset_all_timers t ;;;
      reset_timer t STIMER_L L_TIMER b ;;;
      (match t_to_tag tr, to_tag with
       | [], _ :: _ => modify t (set_to_tag to_tag)
       | _, _ => ret tt
       end) ;;;
      pass_reply
  | TS_TERMINATED_200 =>
      if negb (cs_eqb to_tag (t_to_tag tr)) then absorb
      else retransmit t ;;; absorb
  | TS_ABANDONED | TS_TERMINATED => or_flag t TR_FLAG_DISABLE_BL ;;; absorb
  | _ => absorb
  end.

(** A final reply to a non-INVITE request, once the 503 case has been dealt with. *)
Definition uac_non_invite_final (b : Z) (t : nat) (m : sip_msg) (reply_code : Z) : M bool :=
  let* st := state_of t in
  match st with
  | TS_TRYING | TS_CALLING | TS_PROCEEDING =>
      become t TS_COMPLETED ;;;
      clear_timer t STIMER_E ;;;
      clear_timer t STIMER_M ;;;
      clear_timer t STIMER_F ;;;
      let* t_method := trans_method t in
      (match m_local_socket m with
       | Some k => if negb (is_reliable k) then reset_timer t STIMER_K K_TIMER b
                   else remove b t
       | None => remove b t
       end) ;;;
      if negb (bool_decide (t_method = CANCEL)) then pass_reply else absorb
  | TS_COMPLETED => absorb
  | TS_ABANDONED | TS_TERMINATED =>
      match m_local_socket m with
      | None =>
          (if (reply_code =? 500) || (reply_code =? 503) then remove b t else ret tt) ;;;
          absorb
      | Some _ => or_flag t TR_FLAG_DISABLE_BL ;;; absorb
      end
  | _ => absorb
  end.

Definition uac_non_invite (b : Z) (t : nat) (m : sip_msg) (reply_code : Z) : M bool :=
  if reply_code =? 503 then
    let* tr := get_trans t in
    bl_insert (m_remote_ip (t_msg tr)) ;;;
    let* moved := try_next_ip b t false in
    if moved then absorb else uac_non_invite_final b t m reply_code
  else uac_non_invite_final b t m reply_code.

Definition update_uac_reply (b : Z) (t : nat) (m : sip_msg) : M bool :=
  let* rep := assert_some (match m_u m with SIP_REPLY r => Some r | _ => None end) in
  let reply_code := code rep in
  if reply_code <? 200 then uac_provisional b t
  else
    let* to_tag := deref (m_to_tag m) in
    let* meth := trans_method t in
    if decide (meth = INVITE) then
      if 300 <=? reply_code then uac_invite_error b t m reply_code
      else uac_invite_2xx b t to_tag
    else uac_non_invite b t m reply_code.

(** ** Server transactions *)

(** The result is the new state, [TS_REMOVED] when the transaction is gone. *)
Definition update_uas_reply (b : Z) (t : nat) (reply_code : Z) : M trans_state :=
  modify t (set_reply_status reply_code) ;;;
  let* tr := get_trans t in
  let* sock := deref (retr_socket tr) in
  let reliable_trsp := is_reliable sock in
  let arm_GH : M unit :=
    (if negb reliable_trsp then reset_timer t STIMER_G G_TIMER b else ret tt) ;;;
    reset_timer t STIMER_H H_TIMER b in
  let removed : M trans_state := remove b t ;;; ret TS_REMOVED in
  if 300 <=? reply_code then
    become t TS_COMPLETED ;;;
    let* meth := trans_method t in
    if decide (meth = INVITE) then arm_GH ;;; state_of t
    else if negb reliable_trsp then reset_timer t STIMER_J J_TIMER b ;;; state_of t
    else removed
  else if 200 <=? reply_code then
    let* meth := trans_method t in
    if decide (meth = INVITE) then become t TS_TERMINATED_200 ;;; arm_GH ;;; state_of t
    else if negb reliable_trsp then
      become t TS_COMPLETED ;;; reset_timer t STIMER_J J_TIMER b ;;; state_of t
    else removed
  else if negb (last_rseq tr =? 0) then become t TS_PROCEEDING_REL ;;; arm_GH ;;; state_of t
  else become t TS_PROCEEDING ;;; state_of t.

(** [None] is the error return. *)
Definition update_uas_request (b : Z) (t : nat) (m : sip_msg) : M (option trans_state) :=
  let* meth := deref (msg_method m) in
  if negb (bool_decide (meth = ACK)) && negb (bool_decide (meth = PRACK)) then ret None
  else
    let* st := state_of t in
    match st with
    | TS_PROCEEDING => ret None
    | TS_PROCEEDING_REL =>
        (if decide (meth = PRACK)
         then clear_timer t STIMER_G ;;; clear_timer t STIMER_H else ret tt) ;;;
        let* st := state_of t in ret (Some st)
    | TS_COMPLETED =>
        if negb (bool_decide (meth = ACK)) then ret None
        else
          become t TS_CONFIRMED ;;;
          clear_timer t STIMER_G ;;;
          clear_timer t STIMER_H ;;;
          let* sock := deref (m_local_socket m) in
          if is_reliable sock then remove b t ;;; ret (Some TS_REMOVED)
          else
            reset_timer t STIMER_I I_TIMER b ;;;
            let* st := state_of t in ret (Some st)
    | TS_CONFIRMED => ret (Some TS_CONFIRMED)
    | TS_TERMINATED_200 =>
        if negb (bool_decide (meth = ACK)) then ret None
        else remove b t ;;; ret (Some TS_REMOVED)
    | _ => ret None
    end.

(** The scan of the header list in [send_reply] for the number of a reliable provisional
    reply: the new [last_rseq], [None] when it is left alone. *)
Fixpoint scan_rseq (l : list rel_hdr) (rel100_ext : bool) (rseq : Z) (found : option Z)
  : option Z :=
  match l with
  | [] => found
  | H_REQUIRE ext :: l =>
      if rel100_ext then scan_rseq l rel100_ext rseq found
      else
        match ext with
        | None => scan_rseq l rel100_ext rseq found
        | Some mask =>
            let rel := Z.testbit mask 0 in
            if rel && negb (rseq =? 0) then scan_rseq l rel rseq (Some rseq)
            else scan_rseq l rel rseq found
        end
  | H_RSEQ num :: l =>
      if negb (rseq =? 0) then scan_rseq l rel100_ext rseq found
      else
        match num with
        | None => scan_rseq l rel100_ext rseq found
        | Some n => scan_rseq l rel100_ext n (if rel100_ext then Some n else found)
        end
  end.

(** The To tag that [send_reply] stores in the transaction: the tag of the request, or the
    one added to the reply; a final error without a tag clears it. *)
Definition reply_to_tag (req : sip_msg) (to_tag : cstring) (reply_code : Z) (old : cstring)
  : cstring :=
  match m_to_tag req with
  | None => old
  | Some req_tag =>
      match to_tag with
      | [] => if 300 <=? reply_code then [] else old
      | _ => match req_tag with [] => to_tag | _ => req_tag end
      end
  end.

(** [send_reply]; [reply_buf] is the text of the reply, [dst] the address it goes to, [None]
    when the Via address cannot be resolved. *)
Definition send_reply (b : Z) (t : nat) (reply_code : Z) (to_tag dialog_id : cstring)
    (reply_buf : cstring) (dst : option sockaddr_storage) : M bool :=
  lock b ;;;
  let* e := exist b t in
  if negb e then unlock b ;;; ret false
  else
    let* tr := get_trans t in
    if 200 <=? reply_status tr then unlock b ;;; ret false
    else
      let req := t_msg tr in
      let* sock := deref (m_local_socket req) in
      let* via := assert_some (m_via_p1 req) in
      modify t (set_to_tag (reply_to_tag req to_tag reply_code (t_to_tag tr))) ;;;
      (match scan_rseq (m_rel req) false 0 None with
       | Some n => modify t (set_last_rseq n)
       | None => ret tt
       end) ;;;
      match dst with
      | None => unlock b ;;; ret false
      | Some dst =>
          let* n := gets sends in
          update (set_sends (S n)) ;;;
          emit (EvReply t reply_code reply_buf dst) ;;;
          if negb (send_ok E n) then
            (if negb (is_reliable sock) then reset_timer t STIMER_J J_TIMER b
             else remove b t) ;;;
            unlock b ;;; ret false
          else
            modify t (set_retr reply_buf dst (Some sock)) ;;;
            let* st := update_uas_reply b t reply_code in
            (if decide (st = TS_REMOVED) then ret tt
             else
               modify t (fun tr => match t_dialog_id tr with
                                   | [] => set_dialog_id dialog_id tr
                                   | _ => tr
                                   end)) ;;;
            unlock b ;;; ret true
      end.

(** ** Timers *)

(** Timer H in a server transaction; the result tells whether it was handled. *)
Definition uas_timer_H (b : Z) (t : nat) : M bool :=
  let* st := state_of t in
  match st with
  | TS_PROCEEDING_REL =>
      let* tr := get_trans t in
      (match retr_buf tr with [] => abort AssertFailed | _ => ret tt end) ;;;
      clear_timer t STIMER_H ;;;
      emit (EvUaTimeout noPRACK t) ;;;
      ret true
  | TS_TERMINATED_200 | TS_COMPLETED =>
      clear_timer t STIMER_H ;;;
      emit (EvUaTimeout noACK t) ;;;
      remove b t ;;;
      ret true
  | _ => ret false
  end.

(** Timers D, K, J, I, L, and H when it was not handled: the transaction is over. *)
Definition timer_terminate (b : Z) (t : nat) (type : Z) : M unit :=
  clear_timer t type ;;; remove b t.

(** [type] is [t->type & 0xFFFF], [n] is [t->type >> 16]; unlocks the bucket. *)
Definition timer_expired (b : Z) (t : nat) (type n : Z) : M unit :=
  let blacklist_or_remove : M unit :=
    let* tr := get_trans t in
    if has_flag (t_flags tr) TR_FLAG_DISABLE_BL then remove b t
    else reset_timer t STIMER_BL BL_TIMER b in
  if type =? STIMER_A then
    let n := n + 1 in
    let* tr := get_trans t in
    let* _ := msg_send E (t_msg tr) (t_flags tr) in
    reset_timer t (Z.lor (Z.shiftl n 16) type) (u32 (Z.shiftl A_TIMER n)) b ;;;
    unlock b
  else if type =? STIMER_B then
    clear_timer t STIMER_B ;;;
    let* st := state_of t in
    match st with
    | TS_CALLING => timeout b t
    | TS_ABANDONED => blacklist_or_remove ;;; unlock b
    | _ => remove b t ;;; unlock b
    end
  else if type =? STIMER_C then
    clear_timer t STIMER_C ;;;
    unlock b ;;;
    let* _ := cancel b t [] 0 in
    lock b ;;;
    let* e := exist b t in
    if e then timeout b t else unlock b
  else if type =? STIMER_F then
    clear_timer t STIMER_F ;;;
    let* st := state_of t in
    match st with
    | TS_TRYING | TS_PROCEEDING => timeout b t
    | TS_ABANDONED => blacklist_or_remove ;;; unlock b
    | _ => remove b t ;;; unlock b
    end
  else if type =? STIMER_H then
    let* tr := get_trans t in
    let* handled := (if decide (t_type tr = TT_UAS) then uas_timer_H b t else ret false) in
    (if handled then ret tt else timer_terminate b t type) ;;;
    unlock b
  else if (type =? STIMER_D) || (type =? STIMER_K) || (type =? STIMER_J) ||
          (type =? STIMER_I) || (type =? STIMER_L) then
    timer_terminate b t type ;;;
    unlock b
  else if (type =? STIMER_E) || (type =? STIMER_G) then
    let n := n + 1 in
    let* tr := get_trans t in
    (if decide (t_type tr = TT_UAS) then retransmit t
     else let* _ := msg_send E (t_msg tr) (t_flags tr) in ret tt) ;;;
    let retr_timer :=
      if type =? STIMER_E then u32 (Z.shiftl E_TIMER n) else u32 (Z.shiftl G_TIMER n) in
    reset_timer t (Z.lor (Z.shiftl n 16) type)
      (if sip_timer_t2 E <? retr_timer then sip_timer_t2 E else retr_timer) b ;;;
    unlock b
  else if type =? STIMER_M then
    let* moved := try_next_ip b t true in
    (if moved then clear_timer t STIMER_A ;;; become t TS_ABANDONED else ret tt) ;;;
    unlock b
  else if type =? STIMER_BL then
    clear_timer t STIMER_BL ;;;
    let* tr := get_trans t in
    (if negb (has_flag (t_flags tr) TR_FLAG_DISABLE_BL)
     then bl_insert (m_remote_ip (t_msg tr)) else ret tt) ;;;
    remove b t ;;;
    unlock b
  else unlock b.

(** [trans_timer::fire] for the timer object [p]. *)
Definition fire (p : nat) : M unit :=
  let* x := get_tmr p in
  let b := get_trans_bucket (tt_bucket_id x) in
  lock b ;;;
  let* e := exist b (tt_t x) in
  if e then
    let* o := get_timer (tt_t x) (Z.land (tt_type x) 65535) in
    if negb (bool_decide (o = Some p)) then unlock b
    else timer_expired b (tt_t x) (Z.land (tt_type x) 65535) (Z.shiftr (tt_type x) 16)
  else unlock b.

(** ** Received messages *)

Definition process_request (b : Z) (m : sip_msg) (r : sip_request) : M unit :=
  let* o := match_request b m TT_UAS in
  match o with
  | Some t =>
      let* meth := trans_method t in
      if negb (bool_decide (req_method r = meth)) then
        let* st := state_of t in
        let* res := update_uas_request b t m in
        match res with
        | None => unlock b
        | Some _ =>
            unlock b ;;;
            if decide (st = TS_TERMINATED_200) then emit (EvUaRequest None m) else ret tt
        end
      else retransmit t ;;; unlock b
  | None =>
      let new_transaction : M unit :=
        let* t := add_trans b m TT_UAS in
        unlock b ;;;
        emit (EvUaRequest (Some t) m) in
      match req_method r with
      | ACK => unlock b
      | PRACK =>
          unlock b ;;;
          match m_rack m with
          | None => emit (EvStatelessReply m 400)
          | Some rack =>
              let* callid := deref (m_callid m) in
              let inv_b := get_trans_bucket (trans_hash E callid (rack_cseq_str rack)) in
              lock inv_b ;;;
              let* o := match_1xx_prack inv_b m in
              (match o with
               | Some inv_t =>
                   let* inv_meth := trans_method inv_t in
                   (if decide (PRACK = inv_meth) then abort AssertFailed else ret tt) ;;;
                   let* _ := update_uas_request inv_b inv_t m in ret tt
               | None => ret tt
               end) ;;;
              unlock inv_b ;;;
              lock b ;;;
              new_transaction
          end
      | _ => new_transaction
      end
  end.

Definition process_reply (b : Z) (m : sip_msg) : M unit :=
  let* o := match_reply b m in
  match o with
  | Some t =>
      let* tr := get_trans t in
      let* pass := update_uac_reply b t m in
      unlock b ;;;
      if pass then emit (EvUaReply (t_dialog_id tr) m) else ret tt
  | None => unlock b
  end.

Definition process_rcvd_msg (m : sip_msg) : M unit :=
  let* callid := assert_some (m_callid m) in
  let* cseq := assert_some (m_cseq m) in
  let b := get_trans_bucket (trans_hash E callid (num_str cseq)) in
  lock b ;;;
  match m_u m with
  | SIP_REQUEST r => process_request b m r
  | SIP_REPLY _ => process_reply b m
  | SIP_UNKNOWN => unlock b
  end.

(** [transport_error] for a message that parsed: a 503 made up for a lost request. *)
Definition transport_error (m : sip_msg) : M unit :=
  match m_u m with
  | SIP_REQUEST r =>
      if decide (req_method r = ACK) then ret tt
      else
        process_rcvd_msg
          (mk_msg [] (SIP_REPLY (mk_reply 503 (cs "Service Unavailable"))) (m_via_p1 m)
             (m_from_tag m) (m_to_tag m) (m_callid m) (m_cseq m) None [] None
             (mk_sockaddr 0 []))
  | _ => ret tt
  end.

(** ** Sent requests *)

(** The loop of [send_request] over the resolved targets [ts]; the result is the return
    value 0 or an error, and the transaction of the ticket.  The fuel is one more than the
    number of targets, as in [try_next_dest]. *)
Fixpoint send_request_loop (fuel : nat) (m : sip_msg) (ts : sip_target_set)
    (dialog_id : cstring) (out_interface flags : Z) : M (bool * option nat) :=
  match fuel with
  | O => ret (false, None)
  | S fuel =>
      let* bl := gets blacklist in
      let '(ts, r) := get_next (fun a => bool_decide (a ∈ bl)) flags ts in
      match r with
      | None =>
          emit (EvUaReply dialog_id (error_reply m 500 (cs "No destination available"))) ;;;
          ret (true, None)
      | Some (sa, next_trsp) =>
          match set_trsp_socket (set_remote_ip sa m) next_trsp out_interface with
          | None => ret (false, None)
          | Some m =>
              let patched :=
                if has_flag flags TR_FLAG_NEXT_HOP_RURI
                then patch_ruri_with_remote_ip m else Some m in
              match patched with
              | None => ret (false, None)
              | Some m =>
                  let* o := generate_and_parse_new_msg m in
                  match o with
                  | None => ret (false, None)
                  | Some p_msg =>
                      let* callid := deref (m_callid p_msg) in
                      let* cseq := deref (m_cseq p_msg) in
                      let b := get_trans_bucket (trans_hash E callid (num_str cseq)) in
                      lock b ;;;
                      let* ok := msg_send E p_msg flags in
                      if negb ok then
                        bl_insert (m_remote_ip p_msg) ;;;
                        unlock b ;;;
                        send_request_loop fuel m ts dialog_id out_interface flags
                      else
                        let* meth := deref (msg_method p_msg) in
                        let* o := update_uac_request b p_msg in
                        match o with
                        | None => unlock b ;;; ret (false, None)
                        | Some None => unlock b ;;; ret (true, None)
                        | Some (Some t) =>
                            (if decide (meth = ACK) then ret tt
                             else
                               modify t (set_flags flags) ;;;
                               modify t (set_targets (Some ts)) ;;;
                               if has_next ts then reset_timer t STIMER_M M_TIMER b
                               else ret tt) ;;;
                            modify t (fun tr => match t_dialog_id tr with
                                                | [] => set_dialog_id dialog_id tr
                                                | _ => tr
                                                end) ;;;
                            unlock b ;;; ret (true, Some t)
                        end
                  end
              end
          end
      end
  end.

Definition send_request (m : sip_msg) (targets : sip_target_set) (dialog_id : cstring)
    (out_interface flags : Z) : M (bool * option nat) :=
  let ts := reset_iterator targets in
  let* r := deref (match m_u m with SIP_REQUEST r => Some r | _ => None end) in
  match ruri_str r, req_method_str r with
  | [], _ | _, [] => ret (false, None)
  | _, _ => send_request_loop (S (length (dest_list ts))) m ts dialog_id out_interface flags
  end.

End TransLayer.
