(* ===== verification/TransLogic.v ===== *)
(** * A program logic for the transaction layer

    Hoare triples over the monad of SipTrans, the representation invariant of the
    transaction table, its timers and locks, and the rules for the operations of SipTrans
    and TransTable that the handlers are made of.  A triple claims that the operation does
    not fault: no access to a deleted transaction or timer, no failed assertion, no
    locking error. *)

From Stdlib Require Import ZArith Lia Ascii String.
From stdpp Require Import base list gmap.
From S2P Require Import Prelude Wheeltimer TimerObjects SipMsg SipTrans TransTable.

Local Open Scope Z_scope.

(** ** Triples *)

Definition hoare {A} (P : tl -> Prop) (m : M A) (Q : A -> tl -> Prop) : Prop :=
  forall s, P s -> match m s with Ok a s' => Q a s' | Fault _ => False end.

Lemma hoare_ret {A} (a : A) (P : tl -> Prop) (Q : A -> tl -> Prop) :
  (forall s, P s -> Q a s) -> hoare P (ret a) Q.
Proof. intros H s Hs. by apply H. Qed.

Lemma hoare_bind {A B} (P : tl -> Prop) (R : A -> tl -> Prop) (Q : B -> tl -> Prop)
    (m : M A) (k : A -> M B) :
  hoare P m R -> (forall a, hoare (R a) (k a) Q) -> hoare P (bind m k) Q.
Proof.
  intros Hm Hk s Hs. unfold bind. specialize (Hm s Hs).
  destruct (m s) as [a s'|]; [|done]. exact (Hk a s' Hm).
Qed.

Lemma hoare_conseq {A} (P P' : tl -> Prop) (Q Q' : A -> tl -> Prop) (m : M A) :
  hoare P' m Q' -> (forall s, P s -> P' s) -> (forall a s, Q' a s -> Q a s) -> hoare P m Q.
Proof.
  intros H HP HQ s Hs. specialize (H s (HP s Hs)). destruct (m s); [by apply HQ|done].
Qed.

Lemma hoare_pure {A} (phi : Prop) (P : tl -> Prop) (Q : A -> tl -> Prop) (m : M A) :
  (phi -> hoare P m Q) -> hoare (fun s => P s /\ phi) m Q.
Proof. intros H s [Hs Hphi]. exact (H Hphi s Hs). Qed.

Lemma hoare_gets {A} (f : tl -> A) (P : tl -> Prop) (Q : A -> tl -> Prop) :
  (forall s, P s -> Q (f s) s) -> hoare P (gets f) Q.
Proof. intros H s Hs. by apply H. Qed.

Lemma hoare_update (f : tl -> tl) (P : tl -> Prop) (Q : unit -> tl -> Prop) :
  (forall s, P s -> Q tt (f s)) -> hoare P (update f) Q.
Proof. intros H s Hs. by apply H. Qed.

Lemma hoare_assoc {A B C} P (m : M A) (k : A -> M B) (j : B -> M C) Q :
  hoare P (bind m (fun a => bind (k a) j)) Q -> hoare P (bind (bind m k) j) Q.
Proof. intros H s Hs. specialize (H s Hs). unfold bind in *. by destruct (m s). Qed.

Lemma hoare_skip {A B} P (a : A) (k : A -> M B) Q :
  hoare P (k a) Q -> hoare P (bind (ret a) k) Q.
Proof. intros H s Hs. exact (H s Hs). Qed.

Lemma hoare_tail {A} P (m : M A) Q : hoare P (bind m ret) Q -> hoare P m Q.
Proof. intros H s Hs. specialize (H s Hs). unfold bind, ret in H. by destruct (m s). Qed.

(** ** The invariant *)

(** A message the layer can work on. *)
Definition msg_ok (m : sip_msg) : Prop :=
  is_Some (m_via_p1 m) /\ is_Some (m_from_tag m) /\ is_Some (m_to_tag m) /\
  is_Some (m_callid m) /\ is_Some (m_cseq m).

(** A transaction holds a complete request that came in or goes out on a socket; it has a
    socket for what it may have to re-transmit, and a reply to re-transmit while it waits
    for a PRACK. *)
Definition trans_ok (tr : sip_trans) : Prop :=
  msg_ok (t_msg tr) /\ is_Some (msg_method (t_msg tr)) /\ is_Some (m_local_socket (t_msg tr)) /\
  (retr_buf tr <> [] -> is_Some (retr_socket tr)) /\
  (t_state tr = TS_PROCEEDING_REL -> retr_buf tr <> []).

(** The timer objects that a transaction points to. *)
Definition held (s : tl) (p : nat) : Prop :=
  exists t tr i, heap s !! t = Some tr /\ timers tr !! i = Some p.

(** A timer object that belongs to [t] and to slot [i]. *)
Definition owned (t i p : nat) (s : tl) : Prop :=
  exists x, tmrs s !! p = Some x /\ tt_t x = t /\ fetch_timer (tt_type x) = Some i.

Record Inv (s : tl) : Prop := {
  inv_bucket : forall b t, t ∈ bucket s b -> is_Some (heap s !! t);
  inv_trans : forall t tr, heap s !! t = Some tr -> trans_ok tr;
  inv_nodup : forall b, NoDup (bucket s b);
  inv_disj : forall b b' t, t ∈ bucket s b -> t ∈ bucket s b' -> b = b';
  inv_noleak : forall t, is_Some (heap s !! t) -> exists b, t ∈ bucket s b;
  inv_timer : forall t tr i p, heap s !! t = Some tr -> timers tr !! i = Some p -> owned t i p s;
  inv_type : forall p x, tmrs s !! p = Some x -> is_Some (fetch_timer (tt_type x));
  inv_fresh : (forall t, is_Some (heap s !! t) -> (t < fresh s)%nat) /\
              (forall p, is_Some (tmrs s !! p) -> (p < fresh s)%nat);
  inv_exp : forall p x, tmrs s !! p = Some x -> is_u32 (tt_expires x);
  inv_wheel : wheel_objects (wt s) (tmrs s) (held s)
}.

(** Transactions other than [t] are left alone, and no timer object is deleted. *)
Definition frame (t : nat) (s0 s : tl) : Prop :=
  (fresh s0 <= fresh s)%nat /\
  (forall t', t' <> t -> (t' < fresh s0)%nat ->
    heap s !! t' = heap s0 !! t' /\ forall b, t' ∈ bucket s0 b -> t' ∈ bucket s b) /\
  tmrs s0 ⊆ tmrs s.

Lemma frame_refl t s : frame t s s.
Proof. by splits. Qed.

(** Replacing a transaction by one with the same timers. *)
Lemma dom_replace (h : gmap nat sip_trans) t tr tr' t' :
  h !! t = Some tr -> is_Some (<[t := tr']> h !! t') <-> is_Some (h !! t').
Proof.
  intros Htr. destruct (decide (t = t')) as [<-|]; [|by rewrite lookup_insert_ne].
  by rewrite lookup_insert_eq, Htr.
Qed.

(** The part of the invariant that does not concern the wheel, when a transaction gets other
    timers, all of them its own, and timer objects come up. *)
Lemma inv_retime s t tr tr' tm f w :
  Inv s -> heap s !! t = Some tr -> trans_ok tr' ->
  let s' := set_wt w (set_heap (<[t := tr']> (heap s)) (set_fresh f (set_tmrs tm s))) in
  tmrs s ⊆ tm -> (fresh s <= f)%nat ->
  (forall i p, timers tr' !! i = Some p -> owned t i p s') ->
  (forall p x, tm !! p = Some x -> is_Some (fetch_timer (tt_type x)) /\ is_u32 (tt_expires x) /\
                                  (p < f)%nat) ->
  wheel_objects w tm (held s') -> Inv s'.
Proof.
  intros [I1 I2 I3 I4 I5 I6 I8 [I7 I7'] I9 I10] Htr Hok s' Hsub Hf Hown Hobj Hw.
  assert (Hdom : forall t', is_Some (heap s' !! t') <-> is_Some (heap s !! t')).
  { intros t'. by apply (dom_replace _ _ tr). }
  split; try done.
  - intros b' t' Ht'. apply Hdom, (I1 b'). exact Ht'.
  - cbn. intros t' tr0 [[<- <-]|[Hne H]]%lookup_insert_Some; [done|by apply (I2 t')].
  - intros t' Ht'%Hdom. exact (I5 t' Ht').
  - cbn. intros t' tr0 i p [[<- <-]|[Hne H]]%lookup_insert_Some Hp; [by apply Hown|].
    destruct (I6 t' tr0 i p H Hp) as (x & Hx & ?). exists x. split; [|done].
    by apply (lookup_weaken _ tm) in Hx.
  - cbn. intros p x Hx. by apply (Hobj p).
  - split; [intros t' Ht'%Hdom%I7; cbn; lia|]. cbn. intros p [x Hx]. by apply (Hobj p x).
  - cbn. intros p x Hx. by apply (Hobj p).
Qed.

Lemma inv_objects s p x :
  Inv s -> tmrs s !! p = Some x ->
  is_Some (fetch_timer (tt_type x)) /\ is_u32 (tt_expires x) /\ (p < fresh s)%nat.
Proof.
  intros HI Hx. splits; [by apply (inv_type s HI p)|by apply (inv_exp s HI p)|].
  apply (proj2 (inv_fresh s HI)). eauto.
Qed.

Lemma inv_replace s t tr tr' :
  Inv s -> heap s !! t = Some tr -> trans_ok tr' -> timers tr' = timers tr ->
  Inv (set_heap (<[t := tr']> (heap s)) s).
Proof.
  intros HI Htr Hok Htm. pose proof (inv_retime s t tr tr' (tmrs s) (fresh s) (wt s) HI Htr Hok) as H.
  cbv zeta in H. replace (set_heap (<[t := tr']> (heap s)) s)
    with (set_wt (wt s) (set_heap (<[t := tr']> (heap s)) (set_fresh (fresh s) (set_tmrs (tmrs s) s))))
    by (by destruct s).
  apply H; [done|done| | |].
  - rewrite Htm. intros i p Hp. exact (inv_timer s HI t tr i p Htr Hp).
  - intros p x. by apply inv_objects.
  - eapply wheel_objects_ext; [|apply (inv_wheel s HI)]. intros p. unfold held. cbn. split.
    + intros (t' & tr0 & i & [[<- <-]|[Hne H0]]%lookup_insert_Some & Hp); [|by eauto].
      rewrite Htm in Hp. eauto.
    + intros (t' & tr0 & i & H0 & Hp). destruct (decide (t = t')) as [<-|Hne].
      * exists t, tr', i. rewrite lookup_insert_eq, Htm. split; [done|]. congruence.
      * exists t', tr0, i. by rewrite lookup_insert_ne.
Qed.

Lemma frame_replace t s0 s tr : frame t s0 s -> frame t s0 (set_heap (<[t := tr]> (heap s)) s).
Proof.
  intros (H1 & H2 & H3). split; [done|]. split; [|done]. intros t' Hne Hlt. cbn.
  rewrite lookup_insert_ne by done. by apply H2.
Qed.

(** ** Judgements about a live transaction *)

Section Logic.
Context (s0 : tl) (b : Z) (t : nat).

(** [Live L phi]: the invariant holds, the locks held are [L], [t] is in bucket [b] and
    satisfies [phi], every other transaction of [s0] is untouched. *)
Definition Live (L : gset Z) (phi : sip_trans -> Prop) (s : tl) : Prop :=
  Inv s /\ locked s = L /\ t ∈ bucket s b /\
  (exists tr, heap s !! t = Some tr /\ phi tr) /\ frame t s0 s.

(** [Done L]: the same without [t], which may be gone. *)
Definition Done (L : gset Z) (s : tl) : Prop :=
  Inv s /\ locked s = L /\ frame t s0 s.

Lemma live_done L phi s : Live L phi s -> Done L s.
Proof. intros (? & ? & _ & _ & ?). done. Qed.

Lemma live_weaken L (phi psi : sip_trans -> Prop) s :
  Live L phi s -> (forall tr, phi tr -> psi tr) -> Live L psi s.
Proof.
  intros (HI & Hl & Hin & (tr & Htr & Hphi) & Hfr) Hw. unfold Live. splits; try done.
  exists tr. auto.
Qed.

(** The fields other than heap, buckets, timers and locks do not matter. *)
Definition same_core (s s' : tl) : Prop :=
  heap s' = heap s /\ buckets s' = buckets s /\ tmrs s' = tmrs s /\ locked s' = locked s /\
  fresh s' = fresh s /\ wt s' = wt s.

Lemma inv_same_core s s' : same_core s s' -> Inv s -> Inv s'.
Proof.
  intros (Hh & Hb & Ht & _ & Hf & Hw) [I1 I2 I3 I4 I5 I6 I8 I7 I9 I10].
  unfold bucket, owned, held in *.
  split; unfold bucket, owned, held; rewrite ?Hh, ?Hb, ?Ht, ?Hf, ?Hw; done.
Qed.

Lemma live_same_core L phi s s' : same_core s s' -> Live L phi s -> Live L phi s'.
Proof.
  intros Hc (HI & Hl & Hin & Hex & Hfr). pose proof Hc as (Hh & Hb & Ht & Hk & Hf & _).
  unfold Live, frame, bucket in *. rewrite Hh, Hb, Hk, Hf, Ht. splits; try done; try apply Hfr.
  by apply (inv_same_core s).
Qed.

Lemma h_update_core L phi f :
  (forall s, same_core s (f s)) -> hoare (Live L phi) (update f) (fun _ => Live L phi).
Proof. intros H. apply hoare_update. intros s. by apply live_same_core. Qed.

Lemma h_emit L phi e : hoare (Live L phi) (emit e) (fun _ => Live L phi).
Proof. by apply h_update_core. Qed.

Lemma h_get L phi :
  hoare (Live L phi) (get_trans t)
    (fun tr s => (Live L (fun tr' => phi tr' /\ tr' = tr) s) /\ (trans_ok tr /\ phi tr)).
Proof.
  intros s (HI & Hl & Hin & (tr & Htr & Hphi) & Hfr). unfold get_trans. rewrite Htr.
  split; [|by split; [apply (inv_trans s HI t)|]].
  unfold Live. splits; try done. exists tr. done.
Qed.

Lemma h_modify L (phi psi : sip_trans -> Prop) f :
  (forall tr, trans_ok tr -> phi tr -> trans_ok (f tr) /\ timers (f tr) = timers tr /\ psi (f tr)) ->
  hoare (Live L phi) (modify t f) (fun _ => Live L psi).
Proof.
  intros Hf s (HI & Hl & Hin & (tr & Htr & Hphi) & Hfr). unfold modify. rewrite Htr.
  destruct (Hf tr (inv_trans s HI t tr Htr) Hphi) as (Hok & Htm & Hpsi). unfold Live. splits; try done.
  - apply (inv_replace s t tr (f tr) HI Htr Hok Htm).
  - exists (f tr). cbn. rewrite lookup_insert_eq. done.
  - by apply frame_replace.
Qed.

(** ** Timers *)

(** [phi] does not depend on the timer slots. *)
Definition timer_blind (phi : sip_trans -> Prop) : Prop :=
  forall tr x, phi tr -> phi (set_timers x tr).

End Logic.

(** ** Exact effect of the timer operations *)

Lemma wheel_remove_eq p s x :
  tmrs s !! p = Some x ->
  wheel_remove p s = Ok tt (set_wt (remove_timer (Some (mk_timer p (tt_expires x))) (wt s)) s).
Proof. intros H. unfold wheel_remove, bind, get_tmr, update. by rewrite H. Qed.

Lemma wheel_insert_eq p s x :
  tmrs s !! p = Some x ->
  wheel_insert p s = Ok tt (set_wt (insert_timer (mk_timer p (tt_expires x)) (wt s)) s).
Proof. intros H. unfold wheel_insert, bind, get_tmr, update. by rewrite H. Qed.

Lemma set_wt_same s : set_wt (wt s) s = s.
Proof. by destruct s. Qed.

(** The wheel after it was asked to remove, or to insert, the timer [po]. *)
Definition unlink (s : tl) (po : option nat) (w : wheeltimer) : wheeltimer :=
  remove_timer (p ← po; x ← tmrs s !! p; Some (mk_timer p (tt_expires x))) w.
Definition link (s : tl) (po : option nat) (w : wheeltimer) : wheeltimer :=
  match p ← po; x ← tmrs s !! p; Some (mk_timer p (tt_expires x)) with
  | Some t => insert_timer t w
  | None => w
  end.

(** [t], whose transaction is [tr], without the timer in slot [i]. *)
Definition clear_slot (t : nat) (tr : sip_trans) (i : nat) (s : tl) : tl :=
  set_wt (unlink s (timers tr !! i) (wt s))
    (set_heap (<[t := set_timers (delete i (timers tr)) tr]> (heap s)) s).

(** [t] with the new timer [x] in slot [i]. *)
Definition arm_slot (t : nat) (tr : sip_trans) (i : nat) (x : trans_timer) (s : tl) : tl :=
  set_wt (insert_timer (mk_timer (fresh s) (tt_expires x)) (wt s))
    (set_heap (<[t := set_timers (<[i := fresh s]> (timers tr)) tr]> (heap s))
      (set_fresh (S (fresh s)) (set_tmrs (<[fresh s := x]> (tmrs s)) s))).

Lemma unlink_none s w : unlink s None w = w.
Proof. done. Qed.

Lemma unlink_some s p x w :
  tmrs s !! p = Some x -> unlink s (Some p) w = remove_timer (Some (mk_timer p (tt_expires x))) w.
Proof. unfold unlink. intros H. cbn. by rewrite H. Qed.

Lemma unlink_clock s po w : wall_clock (unlink s po w) = wall_clock w.
Proof. unfold unlink. by destruct (_ ≫= _). Qed.

Lemma link_clock s po w : wall_clock (link s po w) = wall_clock w.
Proof. unfold link. by destruct (_ ≫= _). Qed.

Lemma reset_timer_to_exact t po type i s tr :
  heap s !! t = Some tr -> fetch_timer type = Some i ->
  (forall old, timers tr !! i = Some old -> is_Some (tmrs s !! old)) ->
  (forall p, po = Some p -> is_Some (tmrs s !! p)) ->
  reset_timer_to t po type s =
    Ok tt (set_wt (link s po (unlink s (timers tr !! i) (wt s)))
      (set_heap (<[t := set_timers (partial_alter (fun _ => po) i (timers tr)) tr]> (heap s)) s)).
Proof.
  intros Htr Hi Hold Hnew. unfold reset_timer_to, bind. rewrite Hi. cbn [deref ret].
  unfold get_trans. rewrite Htr.
  replace ((match timers tr !! i with Some old => wheel_remove old | None => ret tt end) s)
    with (Ok tt (set_wt (unlink s (timers tr !! i) (wt s)) s)).
  2: { unfold unlink. destruct (timers tr !! i) as [old|]; [|cbn; by rewrite set_wt_same].
       destruct (Hold old eq_refl) as [x Hx]. rewrite (wheel_remove_eq _ _ _ Hx). cbn. by rewrite Hx. }
  unfold modify. cbn [heap set_wt]. rewrite Htr. unfold link. destruct po as [p|]; [|done].
  destruct (Hnew p eq_refl) as [x Hx]. erewrite wheel_insert_eq by (cbn; exact Hx). cbn. by rewrite Hx.
Qed.

Lemma reset_timer_to_eq t po type i s tr :
  heap s !! t = Some tr -> fetch_timer type = Some i ->
  (forall old, timers tr !! i = Some old -> is_Some (tmrs s !! old)) ->
  (forall p, po = Some p -> is_Some (tmrs s !! p)) ->
  exists w, wall_clock w = wall_clock (wt s) /\ reset_timer_to t po type s =
    Ok tt (set_wt w (set_heap (<[t := set_timers (partial_alter (fun _ => po) i (timers tr)) tr]>
                                 (heap s)) s)).
Proof.
  intros. eexists. split; [|by apply reset_timer_to_exact]. by rewrite link_clock, unlink_clock.
Qed.

Lemma reset_slot_exact t i s tr :
  heap s !! t = Some tr -> (forall p, timers tr !! i = Some p -> is_Some (tmrs s !! p)) ->
  reset_slot t i s = Ok tt (clear_slot t tr i s).
Proof.
  intros Htr Hp. unfold reset_slot, bind, get_trans. rewrite Htr. unfold clear_slot, unlink.
  destruct (timers tr !! i) as [p|] eqn:E.
  - destruct (Hp p eq_refl) as [x Hx]. rewrite (wheel_remove_eq _ _ _ Hx).
    unfold modify. cbn [heap set_wt]. rewrite Htr. cbn. by rewrite Hx.
  - cbn. rewrite delete_id by done. rewrite insert_id; [by destruct s|]. rewrite Htr. by destruct tr.
Qed.

(** [t] without any timer. *)
Definition no_timers (tr : sip_trans) : sip_trans :=
  set_timers (delete 2%nat (delete 1%nat (delete 0%nat (timers tr)))) tr.

Definition clear_slots (t : nat) (tr : sip_trans) (s : tl) : tl :=
  let tr1 := set_timers (delete 0%nat (timers tr)) tr in
  let tr2 := set_timers (delete 1%nat (timers tr1)) tr1 in
  clear_slot t tr2 2 (clear_slot t tr1 1 (clear_slot t tr 0 s)).

Lemma reset_all_timers_exact t s tr :
  heap s !! t = Some tr -> (forall i p, timers tr !! i = Some p -> is_Some (tmrs s !! p)) ->
  reset_all_timers t s = Ok tt (clear_slots t tr s).
Proof.
  intros Htr Hp. unfold reset_all_timers, bind. rewrite (reset_slot_exact t 0 s tr Htr (Hp 0%nat)).
  rewrite (reset_slot_exact t 1 _ (set_timers (delete 0%nat (timers tr)) tr));
    [|cbn; apply lookup_insert_eq|cbn; intros p [_ H]%lookup_delete_Some; by apply (Hp 1%nat)].
  rewrite (reset_slot_exact t 2 _ (set_timers (delete 1%nat (delete 0%nat (timers tr))) tr));
    [done|cbn; apply lookup_insert_eq|].
  cbn. intros p [_ [_ H]%lookup_delete_Some]%lookup_delete_Some. by apply (Hp 2%nat).
Qed.

Lemma clear_slots_fields t tr s :
  heap (clear_slots t tr s) = <[t := no_timers tr]> (heap s) /\
  wall_clock (wt (clear_slots t tr s)) = wall_clock (wt s) /\
  clear_slots t tr s = set_wt (wt (clear_slots t tr s)) (set_heap (heap (clear_slots t tr s)) s).
Proof.
  split; [cbn; by rewrite !insert_insert_eq|]. split; [by cbn; rewrite !unlink_clock|done].
Qed.

Lemma reset_all_timers_eq t s tr :
  heap s !! t = Some tr ->
  (forall i p, timers tr !! i = Some p -> is_Some (tmrs s !! p)) ->
  exists w, wall_clock w = wall_clock (wt s) /\ reset_all_timers t s =
    Ok tt (set_wt w (set_heap (<[t := no_timers tr]> (heap s)) s)).
Proof.
  intros Htr Hp. destruct (clear_slots_fields t tr s) as (Hh & Hw & He).
  exists (wt (clear_slots t tr s)). split; [done|].
  rewrite (reset_all_timers_exact t s tr Htr Hp), He at 1. by rewrite Hh.
Qed.

(** A retry of a timer keeps its slot: the count is above the type's 16 bits. *)
Lemma fetch_timer_retry n ty : fetch_timer (Z.lor (Z.shiftl n 16) ty) = fetch_timer ty.
Proof.
  unfold fetch_timer. f_equal. f_equal. rewrite Z.land_lor_distr_l.
  change 65535 with (Z.ones 16). rewrite Z.land_ones by lia.
  rewrite Z.shiftl_mul_pow2, Z_mod_mult by lia. by rewrite Z.lor_0_l.
Qed.

Lemma fetch_timer_land ty : fetch_timer (Z.land ty 65535) = fetch_timer ty.
Proof. unfold fetch_timer. by rewrite <- Z.land_assoc. Qed.

(** ** Exact effect of removal *)

Lemma erase_elem t t' l : t' ∈ erase t l -> t' ∈ l.
Proof.
  induction l as [|x l IH]; simpl; [done|]. case_match; rewrite !elem_of_cons; [by right|].
  intros [->|Hl]; [by left|right; by apply IH].
Qed.

Lemma erase_elem_ne t t' l : t' <> t -> t' ∈ l -> t' ∈ erase t l.
Proof.
  intros Hne. induction l as [|x l IH]; simpl; [done|].
  rewrite elem_of_cons. destruct (Nat.eqb_spec x t) as [->|].
  - by intros [->|].
  - rewrite elem_of_cons. intros [->|Hl]; [by left|right; by apply IH].
Qed.

Lemma erase_nodup t l : NoDup l -> NoDup (erase t l) /\ t ∉ erase t l.
Proof.
  induction 1 as [|x l Hx Hl [IH1 IH2]]; simpl; [split; [constructor|set_solver]|].
  destruct (Nat.eqb_spec x t) as [->|]; [done|]. split.
  - constructor; [|done]. intros H. by apply erase_elem in H.
  - rewrite elem_of_cons. by intros [->|].
Qed.

Definition unbucket (b : Z) (t : nat) (s : tl) : tl :=
  set_heap (delete t (heap s)) (set_buckets (<[b := erase t (bucket s b)]> (buckets s)) s).

Lemma remove_exact b t s tr :
  t ∈ bucket s b -> heap s !! t = Some tr ->
  (forall i p, timers tr !! i = Some p -> is_Some (tmrs s !! p)) ->
  remove b t s = Ok tt (unbucket b t (clear_slots t tr s)).
Proof.
  intros Hin Htr Hp. unfold remove, exist, gets, bind. rewrite bool_decide_eq_true_2 by done.
  unfold update, delete_trans, bind. erewrite (reset_all_timers_exact t); [|cbn; exact Htr|cbn; exact Hp].
  done.
Qed.

Lemma remove_eq b t s tr :
  t ∈ bucket s b -> heap s !! t = Some tr ->
  (forall i p, timers tr !! i = Some p -> is_Some (tmrs s !! p)) ->
  exists w, wall_clock w = wall_clock (wt s) /\ remove b t s =
    Ok tt (set_wt w (set_heap (delete t (heap s))
             (set_buckets (<[b := erase t (bucket s b)]> (buckets s)) s))).
Proof.
  intros Hin Htr Hp. destruct (clear_slots_fields t tr s) as (Hh & Hw & He).
  exists (wt (clear_slots t tr s)). split; [done|]. rewrite (remove_exact b t s tr Hin Htr Hp).
  unfold unbucket. rewrite Hh, delete_insert_eq, He at 1. done.
Qed.

Lemma bucket_set s b l b' :
  bucket (set_buckets (<[b := l]> (buckets s)) s) b' = if decide (b = b') then l else bucket s b'.
Proof. unfold bucket. cbn. rewrite lookup_insert. by case_decide. Qed.

(** ** The timer operations keep the invariant *)

Lemma fetch_timer_slot ty i : fetch_timer ty = Some i -> (i < 3)%nat.
Proof.
  unfold fetch_timer. generalize (Z.to_nat (Z.land ty 65535)). intros n H.
  apply list_elem_of_lookup_2 in H. unfold timer_type_lookup in H.
  repeat (apply elem_of_cons in H as [->|H]; [lia|]). by apply elem_of_nil in H.
Qed.

Lemma inv_alive s t tr i p :
  Inv s -> heap s !! t = Some tr -> timers tr !! i = Some p -> is_Some (tmrs s !! p).
Proof. intros HI Htr Hp. destruct (inv_timer s HI t tr i p Htr Hp) as (x & Hx & _). eauto. Qed.

(** A timer is in one slot of one transaction. *)
Lemma inv_one_slot s t tr i t' tr' i' p :
  Inv s -> heap s !! t = Some tr -> timers tr !! i = Some p ->
  heap s !! t' = Some tr' -> timers tr' !! i' = Some p -> t' = t /\ i' = i.
Proof.
  intros HI H1 H2 H3 H4. destruct (inv_timer s HI _ _ _ _ H1 H2) as (x & Hx & <- & Hi).
  destruct (inv_timer s HI _ _ _ _ H3 H4) as (y & Hy & <- & Hi'). simplify_eq. done.
Qed.

Lemma inv_clear_slot s t tr i :
  Inv s -> heap s !! t = Some tr -> Inv (clear_slot t tr i s).
Proof.
  intros HI Htr. unfold clear_slot. destruct (timers tr !! i) as [p|] eqn:Hp.
  2: { rewrite unlink_none, delete_id by done.
       change (Inv (set_heap (<[t := set_timers (timers tr) tr]> (heap s)) s)).
       apply (inv_replace s t tr); [done|done|exact (inv_trans s HI t tr Htr)|done]. }
  destruct (inv_timer s HI t tr i p Htr Hp) as (x & Hx & Hxt & Hxi). rewrite (unlink_some s p x) by done.
  replace (set_heap _ s) with (set_heap (<[t := set_timers (delete i (timers tr)) tr]> (heap s))
    (set_fresh (fresh s) (set_tmrs (tmrs s) s))) by (by destruct s).
  apply (inv_retime s t tr); [done|done|exact (inv_trans s HI t tr Htr)|done|done| | |].
  - cbn. intros j q [_ Hq]%lookup_delete_Some. exact (inv_timer s HI t tr j q Htr Hq).
  - intros q y. by apply inv_objects.
  - eapply wheel_objects_remove; [apply (inv_wheel s HI)|by exists t, tr, i|by apply (inv_exp s HI p)|].
    intros q. unfold held. cbn. split.
    + intros (t' & tr' & j & [[<- <-]|[Hne H]]%lookup_insert_Some & Hq).
      * cbn in Hq. apply lookup_delete_Some in Hq as [Hj Hq]. split; [by exists t, tr, j|]. intros ->.
        by destruct (inv_one_slot s t tr i t tr j p HI Htr Hp Htr Hq) as [_ ->].
      * split; [by exists t', tr', j|]. intros ->.
        by destruct (inv_one_slot s t tr i t' tr' j p HI Htr Hp H Hq) as [-> _].
    + intros [(t' & tr' & j & H & Hq) Hne]. destruct (decide (t = t')) as [<-|Ht].
      * exists t, (set_timers (delete i (timers tr)) tr), j. rewrite lookup_insert_eq. split; [done|].
        rewrite Htr in H. injection H as <-. cbn. rewrite lookup_delete_ne; [done|]. intros ->. congruence.
      * exists t', tr', j. by rewrite lookup_insert_ne.
Qed.

Lemma inv_arm_slot s t tr i x :
  Inv s -> heap s !! t = Some tr -> timers tr !! i = None ->
  tt_t x = t -> fetch_timer (tt_type x) = Some i -> is_u32 (tt_expires x) ->
  Inv (arm_slot t tr i x s).
Proof.
  intros HI Htr Hi Hxt Hxi Hxe. assert (Hnew : tmrs s !! fresh s = None).
  { apply eq_None_not_Some. intros H%(proj2 (inv_fresh s HI)). lia. }
  apply (inv_retime s t tr); [done|done|exact (inv_trans s HI t tr Htr)|by apply insert_subseteq|lia| | |].
  - cbn. intros j q [[<- <-]|[Hne Hq]]%lookup_insert_Some; [exists x; cbn; by rewrite lookup_insert_eq|].
    destruct (inv_timer s HI t tr j q Htr Hq) as (y & Hy & ?). exists y. split; [|done]. cbn.
    rewrite lookup_insert_ne; [done|congruence].
  - intros q y [[<- <-]|[Hne Hq]]%lookup_insert_Some; [splits; [by eexists|done|lia]|].
    destruct (inv_objects s q y HI Hq) as (? & ? & ?). splits; [done|done|lia].
  - apply (wheel_objects_insert _ _ (held s)); [apply (inv_wheel s HI)|done|done|].
    intros q. unfold held. cbn. split.
    + intros (t' & tr' & j & [[<- <-]|[Hne H]]%lookup_insert_Some & Hq); [|left; by exists t', tr', j].
      cbn in Hq. apply lookup_insert_Some in Hq as [[<- <-]|[Hj Hq]]; [by right|left; by exists t, tr, j].
    + intros [(t' & tr' & j & H & Hq)| ->].
      * destruct (decide (t = t')) as [<-|Ht]; [|exists t', tr', j; by rewrite lookup_insert_ne].
        exists t, (set_timers (<[i := fresh s]> (timers tr)) tr), j. rewrite lookup_insert_eq. split; [done|].
        rewrite Htr in H. injection H as <-. cbn. rewrite lookup_insert_ne; [done|congruence].
      * exists t, (set_timers (<[i := fresh s]> (timers tr)) tr), i. by rewrite lookup_insert_eq; cbn; rewrite lookup_insert_eq.
Qed.

Lemma reset_timer_exact t type d bid i s tr :
  Inv s -> heap s !! t = Some tr -> fetch_timer type = Some i ->
  let x := mk_trans_timer type (u32 (d / (TIMER_RESOLUTION / 1000) + wall_clock (wt s))) bid t in
  reset_timer t type d bid s =
    Ok tt (arm_slot t (set_timers (delete i (timers tr)) tr) i x (clear_slot t tr i s)).
Proof.
  intros HI Htr Hi x. unfold reset_timer, bind, gets, new_trans_timer. fold x.
  erewrite reset_timer_to_exact; [|exact Htr|exact Hi| |].
  - f_equal. set (s1 := set_fresh _ _).
    assert (Hu : unlink s1 (timers tr !! i) (wt s1) = unlink s (timers tr !! i) (wt s)).
    { destruct (timers tr !! i) as [old|] eqn:Hold; [|done].
      destruct (inv_alive s t tr i old HI Htr Hold) as [y Hy].
      assert (old < fresh s)%nat by (apply (proj2 (inv_fresh s HI)); eauto).
      rewrite (unlink_some s old y), (unlink_some s1 old y); [done| |done].
      cbn. rewrite lookup_insert_ne; [done|lia]. }
    assert (Hl : forall w, link s1 (Some (fresh s)) w = insert_timer (mk_timer (fresh s) (tt_expires x)) w).
    { intros w. unfold link. cbn. by rewrite lookup_insert_eq. }
    rewrite Hu, Hl. unfold arm_slot. cbn [heap clear_slot set_wt set_heap timers set_timers].
    rewrite insert_insert_eq, insert_delete_eq. done.
  - intros old Hold. cbn. destruct (inv_alive s t tr i old HI Htr Hold) as [y Hy].
    rewrite lookup_insert. case_decide; eauto.
  - intros p [= <-]. cbn. rewrite lookup_insert_eq. eauto.
Qed.

Lemma inv_clear_slots s t tr :
  Inv s -> heap s !! t = Some tr -> Inv (clear_slots t tr s).
Proof.
  intros HI Htr. unfold clear_slots.
  apply inv_clear_slot; [|cbn; apply lookup_insert_eq].
  apply inv_clear_slot; [by apply inv_clear_slot|cbn; apply lookup_insert_eq].
Qed.

Lemma no_timers_empty s t tr : Inv s -> heap s !! t = Some tr -> timers (no_timers tr) = ∅.
Proof.
  intros HI Htr. apply map_empty. intros j. apply eq_None_not_Some. intros [p Hp]. cbn in Hp.
  apply lookup_delete_Some in Hp as [H2 [H1 [H0 Hp]%lookup_delete_Some]%lookup_delete_Some].
  destruct (inv_timer s HI t tr j p Htr Hp) as (x & _ & _ & Hi%fetch_timer_slot). lia.
Qed.

(** A transaction without timers leaves its bucket. *)
Lemma inv_unbucket b s t tr :
  Inv s -> heap s !! t = Some tr -> t ∈ bucket s b -> timers tr = ∅ -> Inv (unbucket b t s).
Proof.
  intros [I1 I2 I3 I4 I5 I6 I8 [I7 I7'] I9 I10] Htr Hin Htm.
  destruct (erase_nodup t (bucket s b) (I3 b)) as [Hnd Hnot].
  assert (Hb : forall b' t', t' ∈ bucket (unbucket b t s) b' <-> t' ∈ bucket s b' /\ t' <> t).
  { intros b' t'. change (bucket (unbucket b t s) b')
      with (bucket (set_buckets (<[b := erase t (bucket s b)]> (buckets s)) s) b').
    rewrite bucket_set. case_decide as Hd; [subst b'|].
    - split; [intros H; split; [by apply (erase_elem t)|by intros ->]|].
      intros [??]. by apply erase_elem_ne.
    - split; [|by intros []]. intros H. split; [done|]. intros ->. apply Hd. by apply (I4 b b' t). }
  split; try done.
  - intros b' t' [H Hne]%Hb. cbn. rewrite lookup_delete_ne by done. by apply (I1 b').
  - cbn. intros t' tr' [_ H]%lookup_delete_Some. by apply (I2 t').
  - intros b'. change (NoDup (bucket (set_buckets (<[b := erase t (bucket s b)]> (buckets s)) s) b')).
    rewrite bucket_set. case_decide; [done|apply I3].
  - intros b1 b2 t' [H1 _]%Hb [H2 _]%Hb. by apply (I4 b1 b2 t').
  - cbn. intros t' [tr' [Hne H]%lookup_delete_Some]. destruct (I5 t') as [b' Hb1]; [by eauto|].
    exists b'. by rewrite Hb.
  - cbn. intros t' tr' i p [_ H]%lookup_delete_Some. by apply I6.
  - cbn. split; [|done]. intros t' [tr' [_ H]%lookup_delete_Some]. eauto.
  - eapply wheel_objects_ext; [|exact I10]. intros p. unfold held. cbn. split.
    + intros (t' & tr' & i & [_ H]%lookup_delete_Some & Hp). by exists t', tr', i.
    + intros (t' & tr' & i & H & Hp). exists t', tr', i. rewrite lookup_delete_ne; [done|].
      intros <-. rewrite Htr in H. injection H as <-. by rewrite Htm, lookup_empty in Hp.
Qed.

(** ** Rules for a live transaction *)

Section Rules.
Context (s0 : tl) (b : Z) (t : nat).

Abbreviation LIVE := (Live s0 b t).
Abbreviation DONE := (Done s0 t).

Lemma live_timers_alive L phi s tr i p :
  LIVE L phi s -> heap s !! t = Some tr -> timers tr !! i = Some p -> is_Some (tmrs s !! p).
Proof. intros (HI & _). by apply inv_alive. Qed.

(** Another state of [t] that differs in its timers and in the wheel. *)
Lemma live_retimed L phi s tr tms s' :
  timer_blind phi -> LIVE L phi s -> heap s !! t = Some tr -> Inv s' ->
  heap s' = <[t := set_timers tms tr]> (heap s) -> buckets s' = buckets s -> locked s' = locked s ->
  (fresh s <= fresh s')%nat -> tmrs s ⊆ tmrs s' -> LIVE L phi s'.
Proof.
  intros Hblind (_ & Hl & Hin & (tr0 & Htr0 & Hphi) & (H1 & H2 & H3)) Htr HI Hh Hb Hlk Hf Hs.
  rewrite Htr in Htr0. injection Htr0 as <-. unfold Live, frame, bucket in *. rewrite Hh, Hb, Hlk.
  splits; try done; [exists (set_timers tms tr); rewrite lookup_insert_eq; auto|lia| |by etrans].
  intros t' Hne Hlt. rewrite lookup_insert_ne by done. by apply H2.
Qed.

Lemma h_clear_timer L phi type i :
  timer_blind phi -> fetch_timer type = Some i ->
  hoare (LIVE L phi) (clear_timer t type) (fun _ => LIVE L phi).
Proof.
  intros Hblind Hi s Hs. pose proof Hs as (HI & _ & _ & (tr & Htr & _) & _). unfold clear_timer.
  rewrite (reset_timer_to_exact t None type i s tr Htr Hi); [|intros ?; by apply (live_timers_alive L phi)|done].
  eapply (live_retimed L phi s tr); [done|done|done|exact (inv_clear_slot s t tr i HI Htr)|done..].
Qed.

Lemma h_reset_timer L phi type d bid i :
  timer_blind phi -> fetch_timer type = Some i ->
  hoare (LIVE L phi) (reset_timer t type d bid) (fun _ => LIVE L phi).
Proof.
  intros Hblind Hi s Hs. pose proof Hs as (HI & _ & _ & (tr & Htr & _) & _).
  rewrite (reset_timer_exact t type d bid i s tr HI Htr Hi). set (x := mk_trans_timer _ _ _ _).
  eapply (live_retimed L phi s tr (<[i := fresh s]> (timers tr))); [done|done|done| | |done|done|cbn; lia|].
  - apply inv_arm_slot; [by apply inv_clear_slot|cbn; apply lookup_insert_eq|cbn; apply lookup_delete_eq|done|done|].
    cbn. apply Z.mod_pos_bound. done.
  - cbn. rewrite insert_insert_eq. by rewrite insert_delete_eq.
  - cbn. apply insert_subseteq. apply eq_None_not_Some. intros H%(proj2 (inv_fresh s HI)). lia.
Qed.

Lemma h_reset_all_timers L phi :
  timer_blind phi -> hoare (LIVE L phi) (reset_all_timers t) (fun _ => LIVE L phi).
Proof.
  intros Hblind s Hs. pose proof Hs as (HI & _ & _ & (tr & Htr & _) & _).
  rewrite (reset_all_timers_exact t s tr Htr); [|intros ? ?; by apply (live_timers_alive L phi)].
  eapply (live_retimed L phi s tr); [done|done|done|by apply inv_clear_slots|
    exact (proj1 (clear_slots_fields t tr s))|done..].
Qed.

Lemma h_remove L phi : hoare (LIVE L phi) (remove b t) (fun _ => DONE L).
Proof.
  intros s Hs. pose proof Hs as (HI & Hl & Hin & (tr & Htr & _) & (H1 & H2 & H3)).
  rewrite (remove_exact b t s tr Hin Htr); [|intros ? ?; by apply (live_timers_alive L phi)].
  destruct (clear_slots_fields t tr s) as (Hh & _ & _). split; [|split; [done|]].
  - apply (inv_unbucket b _ t (no_timers tr)); [by apply inv_clear_slots| |done|by apply (no_timers_empty s t)].
    rewrite Hh. apply lookup_insert_eq.
  - split; [done|]. split; [|done]. intros t' Hne Hlt. destruct (H2 t' Hne Hlt) as [H4 H5].
    cbn [heap unbucket set_heap set_buckets]. rewrite Hh, lookup_delete_ne, lookup_insert_ne by done. split; [done|].
    intros b' Hin'. change (t' ∈ bucket (set_buckets (<[b := erase t (bucket s b)]> (buckets s)) s) b').
    rewrite bucket_set. case_decide; [subst b'; apply erase_elem_ne; auto|auto].
Qed.

(** ** Locks *)

Lemma inv_set_locked l s : Inv s -> Inv (set_locked l s).
Proof. intros [I1 I2 I3 I4 I5 I6 I8 I7 I9 I10]. by split. Qed.

Lemma h_unlock L phi b' :
  b' ∈ L -> hoare (LIVE L phi) (unlock b') (fun _ => LIVE (L ∖ {[b']}) phi).
Proof.
  intros Hb s (HI & Hl & Hin & Hex & Hfr). unfold unlock. rewrite decide_True by (by rewrite Hl).
  unfold Live. splits; try done; [by apply inv_set_locked|cbn; by rewrite Hl].
Qed.

Lemma h_lock L phi b' :
  b' ∉ L -> hoare (LIVE L phi) (lock b') (fun _ => LIVE ({[b']} ∪ L) phi).
Proof.
  intros Hb s (HI & Hl & Hin & Hex & Hfr). unfold lock. rewrite decide_False by (by rewrite Hl).
  unfold Live. splits; try done; [by apply inv_set_locked|cbn; by rewrite Hl].
Qed.

Lemma h_unlock_done L b' :
  b' ∈ L -> hoare (DONE L) (unlock b') (fun _ => DONE (L ∖ {[b']})).
Proof.
  intros Hb s (HI & Hl & Hfr). unfold unlock. rewrite decide_True by (by rewrite Hl).
  split; [by apply inv_set_locked|]. split; [cbn; by rewrite Hl|done].
Qed.

Lemma h_lock_done L b' :
  b' ∉ L -> hoare (DONE L) (lock b') (fun _ => DONE ({[b']} ∪ L)).
Proof.
  intros Hb s (HI & Hl & Hfr). unfold lock. rewrite decide_False by (by rewrite Hl).
  split; [by apply inv_set_locked|]. split; [cbn; by rewrite Hl|done].
Qed.

Lemma h_emit_done L e : hoare (DONE L) (emit e) (fun _ => DONE L).
Proof.
  apply hoare_update. intros s (HI & Hl & Hfr). split; [|done].
  by apply (inv_same_core s).
Qed.

End Rules.

(** ** New transactions *)

Lemma inv_skip s : Inv s -> Inv (set_fresh (S (fresh s)) s).
Proof.
  intros [I1 I2 I3 I4 I5 I6 I8 [I7 I7']]. split; try done. cbn.
  split; intros y H; [apply I7 in H|apply I7' in H]; lia.
Qed.

Definition enter (b : Z) (n : nat) (tr : sip_trans) (s : tl) : tl :=
  set_buckets (<[b := bucket s b ++ [n]]> (buckets s)) (set_heap (<[n := tr]> (heap s)) s).

Lemma bucket_enter b n tr s b' :
  bucket (enter b n tr s) b' = if decide (b = b') then bucket s b ++ [n] else bucket s b'.
Proof. unfold enter, bucket. cbn. rewrite lookup_insert. by case_decide. Qed.

Lemma elem_of_enter b n tr s b' t :
  t ∈ bucket (enter b n tr s) b' <-> t ∈ bucket s b' \/ (t = n /\ b' = b).
Proof.
  rewrite bucket_enter. case_decide as Hd; [subst b'|].
  - rewrite elem_of_app, list_elem_of_singleton. intuition.
  - split; [by left|]. intros [|[_ ->]]; done.
Qed.

Lemma inv_enter b n tr s :
  Inv s -> (n < fresh s)%nat -> heap s !! n = None -> trans_ok tr ->
  timers tr = ∅ -> Inv (enter b n tr s).
Proof.
  intros [I1 I2 I3 I4 I5 I6 I8 [I7 I7'] I9 I10] Hn Hnone Hok Htm.
  assert (Hnb : forall b', n ∉ bucket s b').
  { intros b' H. apply I1 in H. rewrite Hnone in H. by destruct H. }
  assert (Hdom : forall t', is_Some (<[n := tr]> (heap s) !! t') <-> is_Some (heap s !! t') \/ t' = n).
  { intros t'. destruct (decide (n = t')) as [<-|].
    - rewrite lookup_insert_eq. split; [by right|eauto].
    - rewrite lookup_insert_ne by done. split; [by left|]. by intros [|<-]. }
  split; try done.
  - intros b' t'. rewrite elem_of_enter. cbn. rewrite Hdom. intros [H|[-> _]]; [|by right].
    left. by apply (I1 b').
  - cbn. intros t' tr'. destruct (decide (n = t')) as [<-|].
    + rewrite lookup_insert_eq. by intros [= <-].
    + rewrite lookup_insert_ne by done. apply I2.
  - intros b'. rewrite bucket_enter. case_decide; [|apply I3].
    apply NoDup_app. splits; [apply I3| |apply NoDup_singleton].
    intros x Hx. rewrite list_elem_of_singleton. intros ->. by apply (Hnb b).
  - intros b1 b2 t'. rewrite !elem_of_enter.
    intros [H1|[-> ->]] [H2|[E2 ->]]; try done; [by apply (I4 b1 b2 t')| |];
      [subst t'; by apply Hnb in H1|by apply Hnb in H2].
  - intros t'. cbn. rewrite Hdom. intros [H| ->].
    + destruct (I5 t' H) as [b' Hb']. exists b'. rewrite elem_of_enter. by left.
    + exists b. rewrite elem_of_enter. by right.
  - cbn. intros t' tr' i p. destruct (decide (n = t')) as [<-|].
    + rewrite lookup_insert_eq. intros [= <-]. by rewrite Htm, lookup_empty.
    + rewrite lookup_insert_ne by done. apply I6.
  - cbn. split; [|done]. intros t'. rewrite Hdom. intros [H| ->]; [by apply I7|done].
  - eapply wheel_objects_ext; [|exact I10]. intros p. unfold held. cbn. split.
    + intros (t' & tr' & i & [[<- <-]|[Hne H]]%lookup_insert_Some & Hp); [|by exists t', tr', i].
      by rewrite Htm, lookup_empty in Hp.
    + intros (t' & tr' & i & H & Hp). exists t', tr', i. rewrite lookup_insert_ne; [done|congruence].
Qed.

Lemma frame_enter b n tr s0 s :
  frame n s0 s -> (fresh s0 <= n)%nat -> frame n s0 (enter b n tr s).
Proof.
  intros (H1 & H2 & H5) Hn. split; [done|]. split; [|done]. intros t' Hne Hlt.
  destruct (H2 t' Hne Hlt) as [H3 H4]. cbn. rewrite lookup_insert_ne by done. split; [done|].
  intros b' Hin. rewrite elem_of_enter. left. auto.
Qed.

Lemma fresh_free s : Inv s -> heap s !! fresh s = None.
Proof.
  intros HI. destruct (heap s !! fresh s) eqn:H; [|done].
  assert (fresh s < fresh s)%nat; [|lia]. apply (proj1 (inv_fresh s HI)). eauto.
Qed.

Lemma add_trans_eq b m ty meth s :
  msg_method m = Some meth ->
  exists st, add_trans b m ty s =
    Ok (fresh s) (enter b (fresh s) (set_state st (new_sip_trans ty m)) (set_fresh (S (fresh s)) s)) /\
    st = (if decide (meth = INVITE)
          then if decide (ty = TT_UAS) then TS_PROCEEDING else TS_CALLING else TS_TRYING).
Proof. intros Hm. unfold add_trans, bind. rewrite Hm. cbn [assert_some ret]. eauto. Qed.

Lemma add_trans_live b m ty meth L s :
  msg_method m = Some meth -> msg_ok m -> is_Some (m_local_socket m) ->
  Inv s -> locked s = L ->
  exists n s', add_trans b m ty s = Ok n s' /\ n = fresh s /\
    Live s b n L (fun _ => True) s'.
Proof.
  intros Hm Hok Hsock HI Hl. destruct (add_trans_eq b m ty meth s Hm) as (st & -> & Hst).
  eexists _, _. split; [reflexivity|]. split; [done|]. unfold Live. splits; try done.
  - apply inv_enter; [by apply inv_skip|cbn; lia|exact (fresh_free s HI)| |by cbn].
    unfold trans_ok. cbn. splits; try done.
    subst st. by repeat case_decide.
  - rewrite elem_of_enter. by right.
  - eexists. cbn. by rewrite lookup_insert_eq.
  - apply frame_enter; [|done]. split; [cbn; lia|done].
Qed.

(** ** Working on another transaction for a while *)

Lemma frame_trans t n s0 s1 s2 :
  frame t s0 s1 -> frame n s1 s2 -> (fresh s0 <= n)%nat \/ n = t -> frame t s0 s2.
Proof.
  intros (A1 & A2 & A5) (B1 & B2 & B5) Hn. split; [lia|]. split; [|by etrans]. intros t' Hne Hlt.
  destruct (A2 t' Hne Hlt) as [A3 A4]. destruct (B2 t') as [B3 B4]; [|lia|].
  - destruct Hn as [Hn| ->]; [lia|done].
  - split; [congruence|auto].
Qed.

Lemma live_switch s0 b t L phi n L' s1 s2 :
  Live s0 b t L phi s1 -> Done s1 n L' s2 -> n <> t -> (fresh s0 <= n)%nat ->
  Live s0 b t L' phi s2.
Proof.
  intros (HI & Hl & Hin & (tr & Htr & Hphi) & Hfr) (HI2 & Hl2 & Hfr2) Hne Hn.
  assert (Hlt : (t < fresh s1)%nat) by (apply (proj1 (inv_fresh s1 HI)); eauto).
  destruct (proj1 (proj2 Hfr2) t (not_eq_sym Hne) Hlt) as [Hh Hb].
  unfold Live. splits; try done; [by apply Hb|rewrite Hh; eauto|].
  by apply (frame_trans t n s0 s1 s2); [| |left].
Qed.

Lemma done_trans s0 t L n L' s1 s2 :
  Done s0 t L s1 -> Done s1 n L' s2 -> (fresh s0 <= n)%nat \/ n = t -> Done s0 t L' s2.
Proof.
  intros (HI & Hl & Hfr) (HI2 & Hl2 & Hfr2) Hn. split; [done|]. split; [done|].
  by apply (frame_trans t n s0 s1 s2).
Qed.

(** ** Matching *)

Lemma load_all_ok s l :
  (forall t, t ∈ l -> is_Some (heap s !! t)) ->
  exists r, load_all l s = Ok r s /\ map fst r = l /\
    forall p tr, (p, tr) ∈ r -> heap s !! p = Some tr.
Proof.
  induction l as [|t l IH]; intros Hl; [exists []; by split; [|split; [|set_solver]]|].
  destruct (Hl t) as [tr Htr]; [set_solver|]. destruct IH as (r & Hr & Hmap & Hin); [set_solver|].
  exists ((t, tr) :: r). cbn. unfold bind, get_trans. rewrite Htr, Hr. splits; [done|by rewrite Hmap|].
  intros p tr'. rewrite elem_of_cons. intros [[= -> ->]|]; auto.
Qed.

Lemma elmts_ok b s :
  Inv s -> exists r, elmts b s = Ok r s /\ map fst r = bucket s b /\
    forall p tr, (p, tr) ∈ r -> heap s !! p = Some tr /\ trans_ok tr.
Proof.
  intros HI. destruct (load_all_ok s (bucket s b)) as (r & Hr & Hmap & Hin).
  { intros t. apply (inv_bucket s HI). }
  exists r. unfold elmts, bind, gets. splits; [done|done|]. intros p tr Hp.
  split; [by apply Hin|]. apply (inv_trans s HI p). by apply Hin.
Qed.

Lemma match_request_3261_ok m meth via ty l :
  msg_ok m ->
  exists o, match_request_3261 m meth via ty l = Some o /\ forall p, o = Some p -> p ∈ map fst l.
Proof.
  intros (_ & [f Hf] & [to Ht] & _ & [c Hc]). induction l as [|[p t] l IH]; [by exists None|].
  destruct IH as (o & Ho & Hin). cbn.
  assert (Hr : forall b : bool, exists o', (if b then Some (Some p) else match_request_3261 m meth via ty l)
                = Some o' /\ forall q, o' = Some q -> q ∈ p :: map fst l).
  { intros [].
    - exists (Some p). split; [done|]. intros q [= <-]. apply elem_of_cons. by left.
    - exists o. split; [done|]. intros q Hq. apply elem_of_cons. right. auto. }
  pose proof (Hr true) as Ht1. pose proof (Hr false) as Hf1.
  unfold match_200_ack. rewrite Hf, Ht, Hc.
  repeat case_match; simplify_eq; first [exact Ht1 | exact Hf1].
Qed.

Lemma match_request_2543_in m r from to cseq ty l p :
  match_request_2543 m r from to cseq ty l = Some p -> p ∈ map fst l.
Proof.
  induction l as [|[q t] l IH]; [done|]. cbn. rewrite elem_of_cons.
  repeat case_match; intros; simplify_eq; auto.
Qed.

Lemma match_reply_loop_ok via cseq l :
  (forall p tr, (p, tr) ∈ l -> trans_ok tr) ->
  exists o, match_reply_loop via cseq l = Some o /\ forall p, o = Some p -> p ∈ map fst l.
Proof.
  induction l as [|[q t] l IH]; intros Hok; [by exists None|].
  destruct IH as (o & Ho & Hin). { intros p tr Hp. apply (Hok p). apply elem_of_cons. by right. }
  destruct (Hok q t) as ((_ & _ & _ & _ & [c Hc]) & _); [apply elem_of_cons; by left|].
  assert (Hf : exists o', match_reply_loop via cseq l = Some o' /\
                 forall p, o' = Some p -> p ∈ q :: map fst l).
  { exists o. split; [done|]. intros p Hp. apply elem_of_cons. right. auto. }
  cbn. rewrite Hc. repeat case_match; simplify_eq; try exact Hf.
  exists (Some q). split; [done|]. intros p [= <-]. apply elem_of_cons. by left.
Qed.

Lemma match_1xx_prack_loop_in m rack l p :
  match_1xx_prack_loop m rack l = Some p ->
  exists tr, (p, tr) ∈ l /\ msg_method (t_msg tr) = Some (rack_method rack).
Proof.
  induction l as [|[q t] l IH]; [done|]. cbn. unfold msg_method.
  assert (Hr : match_1xx_prack_loop m rack l = Some p -> exists tr, (p, tr) ∈ (q, t) :: l /\
                 msg_method (t_msg tr) = Some (rack_method rack)).
  { intros H. destruct (IH H) as (tr & Hin & Hm). exists tr. by rewrite elem_of_cons; auto. }
  repeat case_match; intros Hp; try exact (Hr Hp). simplify_eq.
  exists t. rewrite elem_of_cons. split; [by left|]. case_match; simplify_eq. zbool.
  f_equal. symmetry. by eapply bool_decide_eq_true_1.
Qed.

Lemma find_uac_trans_loop_in d c l p : find_uac_trans_loop d c l = Some p -> p ∈ map fst l.
Proof.
  induction l as [|[q t] l IH]; [done|]. cbn. rewrite elem_of_cons.
  repeat case_match; intros; simplify_eq; auto.
Qed.

Lemma match_request_ok b m r ty s :
  Inv s -> msg_ok m -> m_u m = SIP_REQUEST r ->
  exists o, match_request b m ty s = Ok o s /\ forall p, o = Some p -> p ∈ bucket s b.
Proof.
  intros HI Hok Hr. pose proof Hok as ([via Hvia] & [f Hf] & [to Hto] & _ & [c Hc]).
  unfold match_request, bind. rewrite Hr, Hvia. cbn [deref assert_some ret].
  destruct (elmts_ok b s HI) as (l & -> & Hmap & _). rewrite <- Hmap.
  destruct l as [|x l]; [by exists None|]. case_match.
  - destruct (match_request_3261_ok m (req_method r) via ty (x :: l) Hok) as (o & -> & Hin). eauto.
  - rewrite Hf, Hto, Hc. cbn [assert_some ret]. eexists. split; [reflexivity|].
    intros p. apply match_request_2543_in.
Qed.

Lemma match_reply_ok b m s :
  Inv s -> msg_ok m ->
  exists o, match_reply b m s = Ok o s /\ forall p, o = Some p -> p ∈ bucket s b.
Proof.
  intros HI ([via Hvia] & _ & _ & _ & [c Hc]). unfold match_reply, bind.
  destruct (elmts_ok b s HI) as (l & -> & Hmap & Hl). rewrite <- Hmap.
  destruct l as [|x l]; [by exists None|]. rewrite Hvia. cbn [assert_some ret].
  case_match; [by exists None|]. rewrite Hc. cbn [assert_some ret].
  destruct (match_reply_loop_ok via c (x :: l)) as (o & -> & Hin); [|by exists o].
  intros p tr Hp. by apply (Hl p).
Qed.

Lemma match_1xx_prack_ok b m rack s :
  Inv s -> m_rack m = Some rack ->
  exists o, match_1xx_prack b m s = Ok o s /\
    forall p, o = Some p -> exists tr, p ∈ bucket s b /\ heap s !! p = Some tr /\
      msg_method (t_msg tr) = Some (rack_method rack).
Proof.
  intros HI Hrack. unfold match_1xx_prack, bind.
  destruct (elmts_ok b s HI) as (l & -> & Hmap & Hl). rewrite <- Hmap.
  destruct l as [|x l]; [by exists None|]. rewrite Hrack. cbn [deref ret].
  eexists. split; [reflexivity|]. intros p Hp.
  destruct (match_1xx_prack_loop_in _ _ _ _ Hp) as (tr & Hin & Hm). exists tr.
  splits; [|by apply (Hl p)|done]. apply list_elem_of_fmap. by exists (p, tr).
Qed.

Lemma find_uac_trans_ok b d c s :
  Inv s ->
  exists o, find_uac_trans b d c s = Ok o s /\ forall p, o = Some p -> p ∈ bucket s b.
Proof.
  intros HI. unfold find_uac_trans, bind. destruct (elmts_ok b s HI) as (l & -> & Hmap & _).
  eexists. split; [reflexivity|]. rewrite <- Hmap. intros p Hp.
  apply find_uac_trans_loop_in in Hp. change (map fst (reverse l)) with (fst <$> reverse l) in Hp.
  rewrite fmap_reverse in Hp.
  exact (proj1 (elem_of_reverse p _) Hp).
Qed.
