(* ===== verification/TransDemo.v ===== *)
(** * A configuration and messages to run the transaction layer on

    Concrete inputs for the theorems of the transaction layer: one UDP interface, a
    transport whose outcome is given by the caller, and the messages of small calls. *)

From Stdlib Require Import ZArith Lia Ascii String.
From stdpp Require Import base list gmap.
From S2P Require Import Prelude Wheeltimer SipMsg SipTrans TransTable TransLayer.

Local Open Scope Z_scope.

Definition demo_udp : trsp_socket := mk_socket 1 0 (cs "udp") false.
Definition demo_tcp : trsp_socket := mk_socket 2 0 (cs "tcp") true.

(** [sends_ok] are the outcomes of the first sends, the later ones succeed. *)
Definition demo_env (sends_ok : list bool) : env :=
  mk_env default_sip_timers DEFAULT_T2_TIMER 60000
    [[(cs "udp", demo_udp); (cs "tcp", demo_tcp)]] (fun _ => 0) (fun _ x => x)
    (fun n => nth n sends_ok true) (fun _ => (cs "10.0.0.9", cs "5060"))
    (fun u _ => Some u) (fun _ => cs "msg") (fun _ => true).

Definition demo_peer : sockaddr_storage := mk_sockaddr 2 [10; 0; 0; 1].
Definition demo_peer2 : sockaddr_storage := mk_sockaddr 2 [10; 0; 0; 2].
Definition demo_via (tag : cstring) : sip_via_parm :=
  mk_via (MAGIC_BRANCH_COOKIE ++ tag) (cs "10.0.0.9") (cs "5060").

Definition demo_cseq (n : Z) (n_str meth : cstring) : sip_cseq :=
  mk_cseq (n_str ++ cs " " ++ meth) n_str meth n.

(** A request of method [meth], written [name], with branch [tag] and To tag [to]. *)
Definition demo_request (meth : method) (name tag to : cstring) : sip_msg :=
  mk_msg (cs "msg") (SIP_REQUEST (mk_request name meth (cs "sip:bob@example.com")))
    (Some (demo_via tag)) (Some (cs "from")) (Some to) (Some (cs "call"))
    (Some (demo_cseq 1 (cs "1") name)) None [] (Some demo_udp) demo_peer.

Definition demo_invite : sip_msg := demo_request INVITE (cs "INVITE") (cs "abcdefgh") [].
Definition demo_options : sip_msg := demo_request OPTIONS (cs "OPTIONS") (cs "abcdefgh") [].

(** A reply to the request that went out with the Via [via]. *)
Definition demo_reply (c : Z) (via : sip_via_parm) (name : cstring) (sock : option trsp_socket)
  : sip_msg :=
  mk_msg (cs "rpl") (SIP_REPLY (mk_reply c (cs "reason"))) (Some via) (Some (cs "from"))
    (Some (cs "totag")) (Some (cs "call")) (Some (demo_cseq 1 (cs "1") name)) None [] sock
    demo_peer.

Definition demo_init : tl := mk_tl ∅ ∅ ∅ wheeltimer_init ∅ 0 [] 0 0 [].

(** The state after a run that did not fault. *)
Definition state_after {A} (r : result A) : tl :=
  match r with Ok _ s => s | Fault _ => demo_init end.

(** The transaction at an address, and what can be observed of it. *)
Definition trans_view (t : nat) (s : tl) : option (trans_state * list nat) :=
  (fun tr => (t_state tr, fst <$> map_to_list (timers tr))) <$> heap s !! t.

(** The state after [s] with the bucket locked, and its transaction. *)
Definition at_work (s : tl) : tl := set_locked {[0]} s.
Definition demo_trans (s : tl) (t : nat) : sip_trans :=
  match heap s !! t with Some tr => tr | None => new_sip_trans TT_UAC demo_invite end.
Definition demo_req (s : tl) (t : nat) : sip_request :=
  match m_u (t_msg (demo_trans s t)) with SIP_REQUEST r => r | _ => mk_request [] OPTIONS [] end.

(** Discharge a hypothesis about a concrete state. *)
Ltac demo :=
  lazymatch goal with
  | |- _ ∈ _ => apply (bool_decide_eq_true_1 _); vm_compute; reflexivity
  | |- _ \/ _ => first [left; solve [demo] | right; demo]
  | |- _ /\ _ => split; demo
  | |- _ <> _ => vm_compute; discriminate
  | |- _ <= _ => vm_compute; discriminate
  | |- _ < _ => vm_compute; reflexivity
  | |- _ = _ => vm_compute; reflexivity
  | |- _ => solve [eauto with sems]
  end.
