(* ===== verification/TransSafety.v ===== *)
(** * Memory and lock safety of the transaction layer

    No operation of the layer faults on a state that satisfies the invariant of
    TransLogic, each keeps the invariant and gives back the locks it takes; the entry
    points compose to a transition system all of whose reachable states are safe. *)

From Stdlib Require Import ZArith Lia Ascii String.
From stdpp Require Import base list gmap.
From S2P Require Import Prelude Wheeltimer TimerObjects SipMsg SipTrans TransTable TransLayer TransLogic TransDemo.

Local Open Scope Z_scope.
Local Open Scope bool_scope.

(** ** Locks of one bucket *)

Section Steps.
Context (s0 : tl) (b : Z) (t : nat).

Abbreviation LIVE := (Live s0 b t).
Abbreviation DONE := (Done s0 t).

Abbreviation ALIVE L := (LIVE L (fun _ => True)).

Lemma live_alive L phi s : LIVE L phi s -> ALIVE L s.
Proof. intros H. by apply (live_weaken s0 b t L phi). Qed.

Lemma to_alive {A} L phi (m : M A) Q : hoare (ALIVE L) m Q -> hoare (LIVE L phi) m Q.
Proof. intros H. eapply hoare_conseq; [exact H| |done]. intros s. apply live_alive. Qed.

Lemma to_done {A} L phi (m : M A) Q : hoare (DONE L) m Q -> hoare (LIVE L phi) m Q.
Proof. intros H. eapply hoare_conseq; [exact H| |done]. intros s. apply live_done. Qed.

Lemma step_unlock {A} phi (k : unit -> M A) Q :
  hoare (LIVE ∅ phi) (k tt) Q -> hoare (LIVE {[b]} phi) (bind (unlock b) k) Q.
Proof.
  intros H. eapply hoare_bind; [apply h_unlock; by apply elem_of_singleton|]. intros [].
  by replace ({[b]} ∖ {[b]} : gset Z) with (∅ : gset Z) by (symmetry; apply difference_diag_L).
Qed.

Lemma step_lock {A} phi (k : unit -> M A) Q :
  hoare (LIVE {[b]} phi) (k tt) Q -> hoare (LIVE ∅ phi) (bind (lock b) k) Q.
Proof.
  intros H. eapply hoare_bind; [apply h_lock; by apply not_elem_of_empty|]. intros [].
  by replace ({[b]} ∪ ∅ : gset Z) with ({[b]} : gset Z) by (symmetry; apply union_empty_r_L).
Qed.

Lemma step_unlock_done {A} (k : unit -> M A) Q :
  hoare (DONE ∅) (k tt) Q -> hoare (DONE {[b]}) (bind (unlock b) k) Q.
Proof.
  intros H. eapply hoare_bind; [apply h_unlock_done; by apply elem_of_singleton|]. intros [].
  by replace ({[b]} ∖ {[b]} : gset Z) with (∅ : gset Z) by (symmetry; apply difference_diag_L).
Qed.

Lemma step_lock_done {A} (k : unit -> M A) Q :
  hoare (DONE {[b]}) (k tt) Q -> hoare (DONE ∅) (bind (lock b) k) Q.
Proof.
  intros H. eapply hoare_bind; [apply h_lock_done; by apply not_elem_of_empty|]. intros [].
  by replace ({[b]} ∪ ∅ : gset Z) with ({[b]} : gset Z) by (symmetry; apply union_empty_r_L).
Qed.

(** ** One rule per primitive *)

Lemma step_get {A} L phi (k : sip_trans -> M A) Q :
  (forall tr, trans_ok tr -> phi tr -> hoare (LIVE L (fun tr' => phi tr' /\ tr' = tr)) (k tr) Q) ->
  hoare (LIVE L phi) (bind (get_trans t) k) Q.
Proof.
  intros H. eapply hoare_bind; [apply h_get|]. intros tr. apply hoare_pure. intros []. by apply H.
Qed.

Lemma step_get_weak {A} L phi (k : sip_trans -> M A) Q :
  (forall tr, trans_ok tr -> phi tr -> hoare (LIVE L phi) (k tr) Q) ->
  hoare (LIVE L phi) (bind (get_trans t) k) Q.
Proof.
  intros H. apply step_get. intros tr Hok Hphi. eapply hoare_conseq; [by apply H| |done].
  intros s Hs. apply (live_weaken s0 b t L _ phi s Hs). by intros ? [].
Qed.

Lemma step_unit {A} P P' (m : M unit) (k : unit -> M A) Q :
  hoare P m (fun _ => P') -> hoare P' (k tt) Q -> hoare P (bind m k) Q.
Proof. intros H1 H2. eapply hoare_bind; [exact H1|]. by intros []. Qed.

Lemma step_core {A} L phi f (k : unit -> M A) Q :
  (forall s, same_core s (f s)) ->
  hoare (LIVE L phi) (k tt) Q -> hoare (LIVE L phi) (bind (update f) k) Q.
Proof. intros Hf. apply step_unit. by apply h_update_core. Qed.

Lemma step_gets {A B} P (f : tl -> A) (k : A -> M B) Q :
  (forall a, hoare P (k a) Q) -> hoare P (bind (gets f) k) Q.
Proof. intros H s Hs. exact (H (f s) s Hs). Qed.

Lemma h_modify_alive L f :
  (forall tr, trans_ok tr -> trans_ok (f tr) /\ timers (f tr) = timers tr) ->
  hoare (ALIVE L) (modify t f) (fun _ => ALIVE L).
Proof. intros H. apply h_modify. intros tr Hok _. destruct (H tr Hok). done. Qed.

End Steps.

Lemma trans_ok_request tr :
  trans_ok tr -> exists r, m_u (t_msg tr) = SIP_REQUEST r.
Proof.
  intros (_ & [meth H] & _). unfold msg_method in H. destruct (m_u (t_msg tr)); try done. eauto.
Qed.

(** ** Automation *)

(** Side conditions: [phi] does not depend on what an operation changes. *)
Ltac blind := solve [done | intros ? ? ?; cbn in *; intuition eauto | intros; cbn in *; intuition eauto].

(** The slot of a timer. *)
Ltac slot := solve [reflexivity | eassumption | rewrite fetch_timer_retry; eassumption].

(** A changed field leaves the transaction well formed. *)
Ltac keep_ok :=
  intros ? (?&?&?&?&?) ?; unfold trans_ok; cbn in *;
  solve [intuition (first [done | congruence | eauto])].

(** The end of a path: what is left of the transaction is what is claimed. *)
Ltac fin :=
  apply hoare_ret; let s := fresh "s" in let H := fresh "Hs" in intros s H;
  solve [ exact H | split; [exact H|done] | exact (live_done _ _ _ _ _ _ H)
        | exact (live_alive _ _ _ _ _ _ H)
        | exact (live_done _ _ _ _ _ _ (live_alive _ _ _ _ _ _ H)) ].

Ltac hstep :=
  lazymatch goal with
  | |- hoare _ (bind (bind _ _) _) _ => apply hoare_assoc
  | |- hoare _ (bind (ret _) _) _ => apply hoare_skip; cbv beta
  | |- hoare _ (bind (get_trans _) _) _ =>
      apply step_get_weak; let tr := fresh "tr" in let H := fresh "Hok" in intros tr H ?; cbv beta
  | |- hoare _ (bind (state_of _) _) _ => unfold state_of at 1
  | |- hoare _ (bind (trans_method _) _) _ => unfold trans_method at 1
  | |- hoare _ (bind (become _ _) _) _ => unfold become at 1
  | |- hoare _ (bind (or_flag _ _) _) _ => unfold or_flag at 1
  | |- hoare _ (bind (trans_request ?tr) _) _ =>
      let r := fresh "r" in let Hr := fresh "Hr" in
      destruct (trans_ok_request tr) as [r Hr]; [assumption|];
      unfold trans_request at 1; rewrite Hr; apply hoare_skip; cbv beta
  | |- hoare _ (bind (clear_timer _ _) _) _ =>
      eapply step_unit; [eapply h_clear_timer; [blind|slot]|]
  | |- hoare _ (bind (reset_timer _ _ _ _) _) _ =>
      eapply step_unit; [eapply h_reset_timer; [blind|slot]|]
  | |- hoare _ (bind (reset_all_timers _) _) _ =>
      eapply step_unit; [eapply h_reset_all_timers; blind|]
  | |- hoare _ (bind (modify _ _) _) _ =>
      eapply step_unit; [apply h_modify with (psi := fun _ => True); keep_ok|]
  | |- hoare _ (bind (remove _ _) _) _ => eapply step_unit; [apply h_remove|]
  | |- hoare _ (bind (emit _) _) _ =>
      eapply step_unit; [first [apply h_emit | apply h_emit_done]|]
  | |- hoare _ (bind (unlock _) _) _ => first [apply step_unlock | apply step_unlock_done]
  | |- hoare _ (bind (lock _) _) _ => first [apply step_lock | apply step_lock_done]
  | |- hoare _ (bind (update _) _) _ => apply step_core; [done|]
  | |- hoare _ (bind (gets _) _) _ => apply step_gets; intros ?
  | |- hoare _ (bind (if ?c then _ else _) _) _ => destruct c
  | |- hoare _ (bind (match ?c with _ => _ end) _) _ => destruct c
  | |- hoare _ (if ?c then _ else _) _ => destruct c
  | |- hoare _ (match ?c with _ => _ end) _ => destruct c
  | |- hoare _ (ret _) _ => fin
  | |- hoare _ pass_reply _ => unfold pass_reply
  | |- hoare _ absorb _ => unfold absorb
  | |- hoare _ (clear_timer _ _) _ => apply hoare_tail
  | |- hoare _ (reset_timer _ _ _ _) _ => apply hoare_tail
  | |- hoare _ (reset_all_timers _) _ => apply hoare_tail
  | |- hoare _ (modify _ _) _ => apply hoare_tail
  | |- hoare _ (become _ _) _ => apply hoare_tail
  | |- hoare _ (state_of _) _ => apply hoare_tail
  | |- hoare _ (remove _ _) _ => apply hoare_tail
  | |- hoare _ (emit _) _ => apply hoare_tail
  | |- hoare _ (unlock _) _ => apply hoare_tail
  end.

Section Safety.
Context (E : env).

Lemma h_bl_insert s0 b t L phi a :
  hoare (Live s0 b t L phi) (bl_insert E a) (fun _ => Live s0 b t L phi).
Proof.
  unfold bl_insert. case_match; [by apply hoare_ret|]. apply h_update_core.
  intros s. by case_match.
Qed.

Lemma h_msg_send s0 b t L phi m flags :
  is_Some (m_local_socket m) ->
  hoare (Live s0 b t L phi) (msg_send E m flags) (fun _ => Live s0 b t L phi).
Proof.
  intros [k Hk]. unfold msg_send. rewrite Hk. cbn [assert_some]. repeat hstep.
Qed.

Lemma h_retransmit s0 b t L phi :
  hoare (Live s0 b t L phi) (retransmit t) (fun _ => Live s0 b t L phi).
Proof.
  unfold retransmit. hstep. destruct (retr_buf tr) eqn:Hb; [repeat hstep|].
  destruct Hok as (_ & _ & _ & Hsock & _). destruct Hsock as [k Hk]; [by rewrite Hb|].
  rewrite Hk. cbn [assert_some]. repeat hstep.
Qed.

Lemma h_send_non_200_ack s0 b t L phi m :
  hoare (Live s0 b t L phi) (send_non_200_ack E m t) (fun _ => Live s0 b t L phi).
Proof.
  unfold send_non_200_ack. hstep. hstep.
  destruct Hok as ((_ & _ & _ & _ & [c Hc]) & _ & [k Hk] & _). rewrite Hc, Hk.
  cbn [deref assert_some]. repeat hstep.
Qed.

Ltac hcall lem := eapply hoare_bind; [apply lem|intros ?; cbv beta].

(** ** Cancellation and time-out *)

Lemma cancel_request_ok req r c :
  msg_ok req -> is_Some (m_local_socket req) ->
  msg_ok (cancel_request E req r c) /\ is_Some (m_local_socket (cancel_request E req r c)) /\
  msg_method (cancel_request E req r c) = Some CANCEL.
Proof. intros (? & ? & ? & ? & ?) ?. unfold msg_ok. cbn. splits; eauto. Qed.

(** Tracking a request other than ACK creates one new transaction. *)
Lemma update_uac_request_new b m meth L s :
  msg_method m = Some meth -> meth <> ACK -> msg_ok m -> is_Some (m_local_socket m) ->
  Inv s -> locked s = L ->
  exists s', update_uac_request E b m s = Ok (Some (Some (fresh s))) s' /\
    Live s b (fresh s) L (fun _ => True) s'.
Proof.
  intros Hm Hack Hok [k Hk] HI Hl. unfold update_uac_request, bind at 1 2. rewrite Hm, Hk.
  cbn [deref ret]. rewrite decide_False by done. unfold bind at 1.
  destruct (add_trans_live b m TT_UAC meth L s) as (n & s1 & -> & -> & Hlive); try done.
  assert (Hh : hoare (Live s b (fresh s) L (fun _ => True))
    ((if decide (meth = INVITE) then
       (if negb (is_reliable k) then reset_timer (fresh s) STIMER_A (A_TIMER E) b else ret tt) ;;;
       reset_timer (fresh s) STIMER_B (B_TIMER E) b
     else
       (if negb (is_reliable k) then reset_timer (fresh s) STIMER_E (E_TIMER E) b else ret tt) ;;;
       reset_timer (fresh s) STIMER_F (F_TIMER E) b) ;;;
    ret (Some (Some (fresh s))))
    (fun o s' => Live s b (fresh s) L (fun _ => True) s' /\ o = Some (Some (fresh s)))).
  { repeat hstep. }
  specialize (Hh s1 Hlive). cbv beta in Hh |- *. case_match; [|done].
  destruct Hh as [? ->]. eauto.
Qed.

Lemma h_update_uac_request_new s0 b t L phi m meth :
  msg_method m = Some meth -> meth <> ACK -> msg_ok m -> is_Some (m_local_socket m) ->
  hoare (Live s0 b t L phi) (update_uac_request E b m)
    (fun o s => Live s0 b t L phi s /\ exists n, o = Some (Some n)).
Proof.
  intros Hm Hack Hok Hk s Hs. pose proof Hs as (HI & Hl & _ & (tr & Htr & _) & Hfr).
  destruct (update_uac_request_new b m meth L s Hm Hack Hok Hk HI Hl) as (s' & -> & Hlive).
  split; [|eauto]. apply live_done in Hlive.
  apply (live_switch s0 b t L phi (fresh s) L s s' Hs Hlive); [|apply (proj1 Hfr)].
  intros <-. rewrite fresh_free in Htr; done.
Qed.

Lemma h_send_cancel s0 b t :
  hoare (Live s0 b t {[b]} (fun _ => True)) (send_cancel E b t) (fun _ => Live s0 b t ∅ (fun _ => True)).
Proof.
  unfold send_cancel. hstep. hstep.
  destruct Hok as (Hmsg & _ & Hk & _). pose proof Hmsg as (_ & _ & _ & _ & [c Hc]).
  destruct (cancel_request_ok (t_msg tr) r c Hmsg Hk) as (Hc1 & Hc2 & Hc3).
  rewrite Hc. cbn [deref]. hstep. set (p := cancel_request _ _ _ _) in *.
  hstep; [repeat hstep|]. hcall h_msg_send; [done|].
  hstep; [repeat hstep|]. hstep.
  eapply hoare_bind; [by apply (h_update_uac_request_new s0 b t _ _ p CANCEL)|].
  intros o. apply hoare_pure. intros [n ->]. repeat hstep.
Qed.

Lemma h_cancel_found s0 b t :
  hoare (Live s0 b t {[b]} (fun _ => True)) (cancel_found E b t)
    (fun _ => Live s0 b t ∅ (fun _ => True)).
Proof.
  unfold cancel_found. hstep. destruct (canceled tr); [repeat hstep|]. hstep.
  destruct (bool_decide _); cbn [negb]; [|repeat hstep].
  destruct (t_state tr); try apply h_send_cancel; repeat hstep.
Qed.

Lemma h_timeout s0 b t :
  hoare (Live s0 b t {[b]} (fun _ => True)) (timeout E b t) (fun _ => Done s0 t ∅).
Proof. unfold timeout. repeat hstep. Qed.

Lemma step_exist {A} s0 b t L (k : bool -> M A) Q :
  hoare (Live s0 b t L (fun _ => True)) (k true) Q -> hoare (Done s0 t L) (k false) Q ->
  hoare (Done s0 t L) (bind (exist b t) k) Q.
Proof.
  intros H1 H2 s (HI & Hl & Hfr). unfold bind, exist, gets.
  destruct (bool_decide (t ∈ bucket s b)) eqn:Hin.
  - apply bool_decide_eq_true in Hin. apply H1. unfold Live. splits; try done.
    destruct (inv_bucket s HI b t Hin) as [tr Htr]. eauto.
  - by apply H2.
Qed.

Lemma h_cancel_nil s0 b t c :
  hoare (Done s0 t ∅) (cancel E b t [] c) (fun _ => Done s0 t ∅).
Proof.
  unfold cancel. apply step_lock_done. apply step_exist; cbn [negb orb]; [|repeat hstep].
  repeat hstep; apply hoare_tail; hcall h_cancel_found; repeat hstep.
Qed.

(** A state between two calls of the layer. *)
Definition Quiet (s : tl) : Prop := Inv s /\ locked s = ∅.

Lemma quiet_done s t : Quiet s -> Done s t ∅ s.
Proof. intros []. split; [done|]. split; [done|apply frame_refl]. Qed.

Lemma done_quiet s0 t s : Done s0 t ∅ s -> Quiet s.
Proof. by intros (? & ? & _). Qed.

Lemma lock_quiet b s : Quiet s ->
  exists s', lock b s = Ok tt s' /\ Inv s' /\ locked s' = {[b]} /\ s' = set_locked {[b]} s.
Proof.
  intros [HI Hl]. unfold lock. rewrite Hl, decide_False by apply not_elem_of_empty.
  rewrite union_empty_r_L. eexists. splits; [done| |done|done]. by apply inv_set_locked.
Qed.

(** Nothing has been touched yet. *)
Definition Clean (s0 : tl) (L : gset Z) (s : tl) : Prop :=
  Inv s /\ locked s = L /\ forall t, frame t s0 s.

Lemma clean_done s0 L t s : Clean s0 L s -> Done s0 t L s.
Proof. intros (? & ? & ?). done. Qed.

Lemma clean_live s0 L b t s : Clean s0 L s -> t ∈ bucket s b -> Live s0 b t L (fun _ => True) s.
Proof.
  intros (HI & Hl & Hfr) Hin. unfold Live. splits; try done.
  destruct (inv_bucket s HI b t Hin) as [tr Htr]. eauto.
Qed.

Lemma to_clean_done {A} s0 L t (m : M A) Q : hoare (Done s0 t L) m Q -> hoare (Clean s0 L) m Q.
Proof. intros H. eapply hoare_conseq; [exact H| |done]. intros s. apply clean_done. Qed.

Lemma step_lock_clean {A} b s0 (k : unit -> M A) Q :
  hoare (Clean s0 {[b]}) (k tt) Q -> hoare (Clean s0 ∅) (bind (lock b) k) Q.
Proof.
  intros H s (HI & Hl & Hfr). unfold bind, lock. rewrite Hl, decide_False by apply not_elem_of_empty.
  rewrite union_empty_r_L. apply H. split; [by apply inv_set_locked|]. done.
Qed.

Lemma step_unlock_clean {A} b s0 (k : unit -> M A) Q :
  hoare (Clean s0 ∅) (k tt) Q -> hoare (Clean s0 {[b]}) (bind (unlock b) k) Q.
Proof.
  intros H s (HI & Hl & Hfr). unfold bind, unlock. rewrite Hl, decide_True by by apply elem_of_singleton.
  rewrite difference_diag_L. apply H. split; [by apply inv_set_locked|]. done.
Qed.

Lemma step_emit_clean {A} e s0 L (k : unit -> M A) Q :
  hoare (Clean s0 L) (k tt) Q -> hoare (Clean s0 L) (bind (emit e) k) Q.
Proof.
  intros H s (HI & Hl & Hfr). unfold bind, emit, update. apply H.
  split; [by apply (inv_same_core s)|]. done.
Qed.

(** A search that changes nothing. *)
Lemma step_match {A} (m : M (option nat)) s0 b L (k : option nat -> M A) Q :
  (forall s, Inv s -> exists o, m s = Ok o s /\ forall p, o = Some p -> p ∈ bucket s b) ->
  (forall p, hoare (Live s0 b p L (fun _ => True)) (k (Some p)) Q) ->
  hoare (Clean s0 L) (k None) Q -> hoare (Clean s0 L) (bind m k) Q.
Proof.
  intros Hm H1 H2 s Hs. pose proof Hs as (HI & _). destruct (Hm s HI) as (o & Ho & Hin).
  unfold bind. rewrite Ho. destruct o as [p|]; [|by apply H2].
  apply H1. apply clean_live; [done|auto].
Qed.

(** What the call of a function of the layer has touched: one transaction. *)
Definition Isolated (s0 s : tl) : Prop := exists t, Done s0 t ∅ s.

Lemma quiet_clean s : Quiet s -> Clean s ∅ s.
Proof. intros []. split; [done|]. split; [done|]. intros t. apply frame_refl. Qed.

Lemma h_cancel s0 b t d c :
  hoare (Clean s0 ∅) (cancel E b t d c) (fun _ => Isolated s0).
Proof.
  destruct d as [|a d].
  { apply (to_clean_done _ _ t). eapply hoare_conseq; [apply h_cancel_nil|done|]. by exists t. }
  unfold cancel. apply step_lock_clean.
  assert (Hf : forall p, hoare (Live s0 b p {[b]} (fun _ => True)) (cancel_found E b p)
                 (fun _ => Isolated s0)).
  { intros p. eapply hoare_conseq; [apply h_cancel_found|done|].
    intros ? s Hs. exists p. exact (live_done _ _ _ _ _ _ Hs). }
  assert (Hfind : hoare (Clean s0 {[b]})
    (let* o := find_uac_trans b (a :: d) c in
     match o with None => unlock b ;;; ret true | Some t => cancel_found E b t end)
    (fun _ => Isolated s0)).
  { apply (step_match _ s0 b); [intros s; apply find_uac_trans_ok|exact Hf|].
    apply step_unlock_clean, hoare_ret. intros s Hs. exists t. by apply clean_done. }
  intros s Hs. unfold bind at 1, exist, gets.
  destruct (bool_decide (t ∈ bucket s b)) eqn:Hin; [|exact (Hfind s Hs)].
  apply bool_decide_eq_true in Hin. pose proof (clean_live s0 _ b t s Hs Hin) as Hlive.
  pose proof Hlive as (_ & _ & _ & (tr & Htr & _) & _).
  unfold bind at 1 2, state_of, bind at 1, get_trans. rewrite Htr. cbn [ret].
  destruct (bool_decide _); [exact (Hfind s Hs)|exact (Hf t s Hlive)].
Qed.

(** ** Fail-over *)

Lemma set_trsp_socket_ok m tr i m' :
  set_trsp_socket E m tr i = Some m' -> exists k, m' = set_local_socket (Some k) m.
Proof.
  unfold set_trsp_socket. repeat case_match; intros; simplify_eq; eauto.
Qed.

(** A message that can be the request of a transaction. *)
Definition good_msg (m : sip_msg) : Prop :=
  msg_ok m /\ is_Some (msg_method m) /\ is_Some (m_local_socket m).

Lemma good_remote_ip a m : good_msg m -> good_msg (set_remote_ip a m).
Proof. done. Qed.

Lemma good_set_trsp m tr i m' :
  good_msg (set_local_socket (Some (mk_socket 0 0 [] false)) m) ->
  set_trsp_socket E m tr i = Some m' -> good_msg m'.
Proof.
  intros (H1 & H2 & _) H. destruct (set_trsp_socket_ok _ _ _ _ H) as [k ->].
  split; [done|]. split; [done|]. by exists k.
Qed.

Lemma good_patch m m' : good_msg m -> patch_ruri_with_remote_ip E m = Some m' -> good_msg m'.
Proof.
  intros (H1 & H2 & H3). unfold patch_ruri_with_remote_ip. repeat case_match; intros; simplify_eq.
  split; [done|]. split; [|done]. by eexists.
Qed.

Lemma h_compute_branch s0 b t L phi c q :
  hoare (Live s0 b t L phi) (compute_branch E c q) (fun _ => Live s0 b t L phi).
Proof. unfold compute_branch, branch_cnt_inc. repeat hstep. Qed.

(** What [generate_and_parse_new_msg] needs: everything but the Via. *)
Definition sendable (m : sip_msg) : Prop :=
  is_Some (m_from_tag m) /\ is_Some (m_to_tag m) /\ is_Some (m_callid m) /\
  is_Some (m_cseq m) /\ is_Some (msg_method m).

Lemma good_sendable m : good_msg m -> sendable m.
Proof. intros ((_ & ? & ? & ? & ?) & ? & _). by unfold sendable. Qed.

Lemma generate_eq m s :
  sendable m -> is_Some (m_local_socket m) ->
  exists o x, generate_and_parse_new_msg E m s = Ok o (set_branch_cnt x s) /\
    forall p, o = Some p -> good_msg p /\ exists p0, m_buf p = gen_buf E p0.
Proof.
  intros (H1 & H2 & [ci Hci] & [c Hc] & Hm) [k Hk]. unfold generate_and_parse_new_msg.
  rewrite Hci, Hc, Hk. unfold bind. cbn [deref ret].
  unfold compute_branch, branch_cnt_inc, bind, gets, update, ret.
  destruct (sent_by E k) as [host port]. eexists _, _. split; [reflexivity|].
  intros p. case_match; [|done]. intros [= <-]. split; [|eexists; reflexivity].
  split; [|split; [exact Hm|by exists k]]. unfold msg_ok. cbn. rewrite Hci, Hc. splits; eauto.
Qed.

Lemma h_generate s0 b t L phi m :
  good_msg m ->
  hoare (Live s0 b t L phi) (generate_and_parse_new_msg E m)
    (fun o s => Live s0 b t L phi s /\ forall p, o = Some p -> good_msg p).
Proof.
  intros Hm s Hs. destruct (generate_eq m s (good_sendable m Hm) (proj2 (proj2 Hm)))
    as (o & x & -> & Ho).
  split; [by apply (live_same_core s0 b t L phi s)|]. intros p Hp. by apply Ho.
Qed.

Lemma trans_ok_good tr : trans_ok tr -> good_msg (t_msg tr).
Proof. intros (? & ? & ? & _). done. Qed.

Lemma trans_ok_set_msg m tr : good_msg m -> trans_ok tr -> trans_ok (set_msg m tr).
Proof. intros (? & ? & ?) (_ & _ & _ & ? & ?). unfold trans_ok. cbn. splits; done. Qed.

(** A property of the targets of the transaction; it knows its targets. *)
Definition on_targets (P : option sip_target_set -> Prop) (tr : sip_trans) : Prop :=
  P (t_targets tr).
Abbreviation has_targets := (on_targets is_Some).

Lemma h_set_msg s0 b t L P m :
  good_msg m ->
  hoare (Live s0 b t L (on_targets P)) (modify t (set_msg m))
    (fun _ => Live s0 b t L (on_targets P)).
Proof. intros Hm. apply h_modify. intros tr Hok Ht. splits; [by apply trans_ok_set_msg|done|done]. Qed.

Lemma h_retarget_same s0 b t L P sa trsp :
  hoare (Live s0 b t L (on_targets P)) (retarget_same E t sa trsp)
    (fun o s => Live s0 b t L (on_targets P) s /\ forall t', o = Some t' -> t' = t).
Proof.
  unfold retarget_same. eapply step_unit.
  { apply h_modify with (psi := (on_targets P)). by intros tr Hok Ht. }
  hstep. pose proof (trans_ok_good tr Hok) as Hg. pose proof Hg as (_ & _ & [k Hk]).
  rewrite Hk. cbn [deref]. hstep. destruct (set_trsp_socket E _ _ _) as [m|] eqn:Hset; [|hstep].
  assert (Hm : good_msg m).
  { eapply good_set_trsp; [|exact Hset]. destruct Hg as (? & ? & ?). split; [done|]. split; [done|]. by eexists. }
  assert (Hend : forall m', good_msg m' ->
    hoare (Live s0 b t L (on_targets P))
      (let* o := generate_and_parse_new_msg E m' in
       match o with None => ret None | Some p => modify t (set_msg p) ;;; ret (Some t) end)
      (fun o s => Live s0 b t L (on_targets P) s /\ forall t', o = Some t' -> t' = t)).
  { intros m' Hm'. eapply hoare_bind; [by apply h_generate|]. intros o. apply hoare_pure. intros Ho.
    destruct o as [p|]; [|hstep]. eapply step_unit; [apply h_set_msg; auto|].
    apply hoare_ret. intros s Hs. split; [exact Hs|]. congruence. }
  eapply step_unit; [by apply h_set_msg|]. hstep.
  - destruct (patch_ruri_with_remote_ip E m) as [m'|] eqn:Hp; [|hstep].
    pose proof (good_patch m m' Hm Hp). eapply step_unit; [by apply h_set_msg|]. auto.
  - hstep; [auto|]. pose proof Hm as (([via Hvia] & ? & ? & [ci Hci] & [c Hc]) & ? & ?).
    rewrite Hvia, Hci, Hc. cbn [deref]. hstep. hstep. hstep. hcall h_compute_branch.
    eapply step_unit; [apply h_set_msg; unfold good_msg, msg_ok; cbn; rewrite Hci, Hc; splits; eauto|].
    apply hoare_ret. intros s Hs. split; [exact Hs|]. congruence.
Qed.

Lemma step_get_timer {A} s0 b t L phi ty i (k : option nat -> M A) Q :
  fetch_timer ty = Some i -> (forall o, hoare (Live s0 b t L phi) (k o) Q) ->
  hoare (Live s0 b t L phi) (bind (get_timer t ty) k) Q.
Proof.
  intros Hi H. unfold get_timer. rewrite Hi. cbn [deref]. repeat hstep. apply H.
Qed.

Lemma h_become_targets s0 b t L st :
  st <> TS_PROCEEDING_REL ->
  hoare (Live s0 b t L has_targets) (become t st) (fun _ => Live s0 b t L has_targets).
Proof.
  intros Hst. apply h_modify. intros tr (? & ? & ? & ? & ?) Ht. unfold trans_ok. cbn.
  by splits.
Qed.

Lemma h_rearm s0 b t L :
  hoare (Live s0 b t L has_targets) (rearm E b t) (fun _ => Live s0 b t L has_targets).
Proof.
  unfold rearm. hstep. hstep. pose proof Hok as (_ & _ & [k Hk] & _). rewrite Hk. cbn [deref]. hstep.
  apply (step_unit _ (Live s0 b t L has_targets)).
  - hstep; (eapply step_unit; [by apply h_become_targets|]); hstep; repeat hstep;
      (eapply step_get_timer; [reflexivity|]; intros [?|]; repeat hstep).
  - hstep. match goal with H : has_targets _ |- _ => destruct H as [ts Hts] end.
    rewrite Hts. cbn [deref]. repeat hstep.
Qed.

(** Putting a new transaction [ntr] at address [n] into a well-formed state. *)
Lemma live_enter s1 s2 b n L P ntr :
  Inv s2 -> locked s2 = L -> (n < fresh s2)%nat -> heap s2 !! n = None -> trans_ok ntr ->
  timers ntr = ∅ -> (on_targets P) ntr -> frame n s1 s2 -> (fresh s1 <= n)%nat ->
  Live s1 b n L (on_targets P) (enter b n ntr s2).
Proof.
  intros HI Hl Hn Hnone Hok Htm Ht Hfr Hle. unfold Live. splits; try done.
  - by apply inv_enter.
  - rewrite elem_of_enter. by right.
  - exists ntr. cbn. rewrite lookup_insert_eq. done.
  - by apply frame_enter.
Qed.

Lemma copy_uac_trans_ok P tr p :
  good_msg p -> (on_targets P) tr ->
  trans_ok (copy_uac_trans tr p) /\ (on_targets P) (copy_uac_trans tr p) /\
  timers (copy_uac_trans tr p) = ∅.
Proof. intros (? & ? & ?) ?. unfold trans_ok. cbn. by splits. Qed.

Definition retarget_tail (b : Z) (t : nat) (tr : sip_trans) (p_msg : sip_msg) : M (option nat) :=
  let* n_t := alloc_trans (copy_uac_trans tr p_msg) in
  modify t (set_targets None) ;;;
  let* t_bf := get_timer t STIMER_B in
  match t_bf with
  | Some p =>
      let* x := get_tmr p in
      let* p' := new_trans_timer (mk_trans_timer (tt_type x) (tt_expires x) b n_t) in
      reset_timer_to n_t (Some p') (tt_type x)
  | None => ret tt
  end ;;;
  append b n_t ;;;
  ret (Some n_t).

(** [t] without its targets, in a state where [n] does not exist yet. *)
Lemma live_drop_targets s0 b t L phi s tr :
  Live s0 b t L phi s -> heap s !! t = Some tr ->
  Live s0 b t L (fun _ => True) (set_heap (<[t := set_targets None tr]> (heap s)) s).
Proof.
  intros Hs Htr. pose proof (h_modify s0 b t L phi (fun _ => True) (set_targets None)) as H.
  specialize (H ltac:(keep_ok) s Hs). unfold modify in H. by rewrite Htr in H.
Qed.

Lemma retarget_tail_ok s0 b t L P s tr p_msg :
  Live s0 b t L (on_targets P) s -> heap s !! t = Some tr -> (on_targets P) tr -> good_msg p_msg ->
  exists s1 s', retarget_tail b t tr p_msg s = Ok (Some (fresh s)) s' /\
    Live s0 b t L (fun _ => True) s1 /\ fresh s1 = fresh s /\
    Live s1 b (fresh s) L (on_targets P) s'.
Proof.
  intros Hs Htr Ht Hp. pose proof (live_drop_targets s0 b t L _ s tr Hs Htr) as Hs1.
  set (s1 := set_heap _ s) in Hs1. set (n := fresh s) in *.
  destruct (copy_uac_trans_ok P tr p_msg Hp Ht) as (Hok & Hnt & Htm).
  set (ntr := copy_uac_trans tr p_msg) in *.
  pose proof Hs as (HI & Hl & _). pose proof Hs1 as (HI1 & Hl1 & _).
  assert (Hnone : heap s !! n = None) by by apply fresh_free.
  assert (Hne : n <> t) by (intros E0; rewrite E0 in Hnone; congruence).
  assert (Hnone1 : heap s1 !! n = None) by (cbn; by rewrite lookup_insert_ne).
  assert (Hent : Live s1 b n L (on_targets P) (enter b n ntr (set_fresh (S n) s1))).
  { apply live_enter; try done; [exact (inv_skip s1 HI1)|cbn; lia|]. split; [cbn; lia|done]. }
  exists s1. unfold retarget_tail, bind, alloc_trans, modify. fold n.
  cbn [heap set_fresh set_heap]. rewrite lookup_insert_ne, Htr by done.
  unfold get_timer, bind. change (fetch_timer STIMER_B) with (Some 1%nat). cbn [deref ret].
  unfold get_trans. cbn [heap set_heap]. rewrite lookup_insert_eq.
  cbn [timers set_targets ret]. rewrite insert_insert_ne by done.
  destruct (timers tr !! 1%nat) as [p0|] eqn:Hp0.
  - destruct (inv_timer s HI t tr 1%nat p0 Htr Hp0) as (x & Hx & Hxt & Hxty).
    unfold get_tmr. cbn [tmrs set_fresh set_heap]. rewrite Hx. unfold new_trans_timer.
    cbn [fresh set_fresh set_heap tmrs]. set (x' := mk_trans_timer _ _ _ _).
    erewrite (reset_timer_to_exact n (Some (S n)) (tt_type x) 1%nat);
      [|cbn; apply lookup_insert_eq|done|by intros ?; cbn; rewrite ?Htm, ?lookup_empty
      |intros ? [= <-]; cbn; rewrite lookup_insert_eq; eauto].
    unfold append, update, ret. eexists. split; [reflexivity|]. splits; [done|done|].
    match goal with |- Live _ _ _ _ _ ?sf =>
      replace sf with (arm_slot n ntr 1 x' (enter b n ntr (set_fresh (S n) s1))) end.
    2: { fold ntr. clearbody ntr.
         unfold arm_slot, enter, link, unlink. cbn. rewrite Htm, lookup_empty, lookup_insert_eq. cbn.
         by rewrite !insert_insert_eq. }
    eapply (live_retimed s1 b n L _ (enter b n ntr (set_fresh (S n) s1)) ntr); [by intros ? ? ?|exact Hent| | |reflexivity|done|done| |].
    + cbn. apply lookup_insert_eq.
    + apply inv_arm_slot; [apply Hent|cbn; apply lookup_insert_eq|by rewrite Htm|done|done|].
      exact (inv_exp s HI p0 x Hx).
    + cbn. lia.
    + cbn. apply insert_subseteq. apply eq_None_not_Some. intros H%(proj2 (inv_fresh s HI)). unfold n in H. lia.
  - unfold append, update, ret. eexists. split; [reflexivity|]. by splits.
Qed.

Lemma h_retarget_new s0 b t L P sa trsp :
  hoare (Live s0 b t L (on_targets P)) (retarget_new E b t sa trsp)
    (fun o s => match o with
                | None => Live s0 b t L (fun _ => True) s
                | Some n => exists s1, Live s0 b t L (fun _ => True) s1 /\ n = fresh s1 /\
                                       Live s1 b n L (on_targets P) s
                end).
Proof.
  unfold retarget_new. apply step_get. intros tr Hok Ht.
  pose proof (trans_ok_good tr Hok) as Hg. pose proof Hg as (? & ? & [k Hk]).
  cbn [m_local_socket set_remote_ip]. rewrite Hk. cbn [deref]. hstep.
  destruct (set_trsp_socket E _ _ _) as [m|] eqn:Hset; [|hstep].
  assert (Hm : good_msg m).
  { eapply good_set_trsp; [|exact Hset]. split; [done|]. split; [done|]. by eexists. }
  destruct (if has_flag (t_flags tr) TR_FLAG_NEXT_HOP_RURI then _ else Some m) as [m'|] eqn:Hp; [|hstep].
  assert (Hm' : good_msg m').
  { destruct (has_flag _ _); [by apply (good_patch m)|by injection Hp as <-]. }
  eapply hoare_bind; [by apply h_generate|]. intros o. apply hoare_pure. intros Ho.
  destruct o as [p|]; [|hstep]. change (hoare (Live s0 b t L (fun tr' => (on_targets P) tr' /\ tr' = tr))
    (retarget_tail b t tr p) (fun o s => match o with
       | None => Live s0 b t L (fun _ => True) s
       | Some n => exists s1, Live s0 b t L (fun _ => True) s1 /\ n = fresh s1 /\
                              Live s1 b n L (on_targets P) s end)).
  intros s Hs. pose proof Hs as (_ & _ & _ & (tr' & Htr & _ & ->) & _).
  assert (Hs' : Live s0 b t L (on_targets P) s).
  { apply (live_weaken s0 b t L _ _ s Hs). by intros ? []. }
  destruct (retarget_tail_ok s0 b t L P s tr p Hs' Htr Ht (Ho p eq_refl)) as (s1 & s2 & -> & H1 & <- & H2).
  eauto.
Qed.

(** The end of a round, once the message has its new destination. *)
Definition resend (fuel : nat) (b : Z) (t : nat) : M bool :=
  let* tr' := get_trans t in
  let* ok := msg_send E (t_msg tr') (t_flags tr') in
  if negb ok then
    bl_insert E (m_remote_ip (t_msg tr')) ;;;
    try_next_dest E fuel b t false
  else rearm E b t ;;; ret true.

Lemma h_resend fuel s0 b t L :
  hoare (Live s0 b t L (fun _ => True)) (try_next_dest E fuel b t false)
    (fun _ => Live s0 b t L (fun _ => True)) ->
  hoare (Live s0 b t L has_targets) (resend fuel b t) (fun _ => Live s0 b t L (fun _ => True)).
Proof.
  intros H. unfold resend. hstep. hcall h_msg_send; [apply Hok|]. hstep.
  - hcall h_bl_insert. by apply to_alive.
  - hcall h_rearm. hstep.
Qed.

(** The start of a round: take the next target. *)
Lemma h_take_target s0 b t L ts :
  hoare (Live s0 b t L (fun _ => True)) (modify t (set_targets (Some ts)))
    (fun _ => Live s0 b t L has_targets).
Proof. apply h_modify. intros tr Hok _. splits; try done. by eexists. Qed.

Lemma h_try_next_dest_same fuel s0 b t L :
  hoare (Live s0 b t L (fun _ => True)) (try_next_dest E fuel b t false)
    (fun _ => Live s0 b t L (fun _ => True)).
Proof.
  induction fuel as [|fuel IH]; cbn [try_next_dest]; [hstep|]. hstep.
  destruct (t_targets tr) as [ts|]; [|hstep]. hstep.
  destruct (get_next _ _ ts) as [ts' r]. eapply step_unit; [apply h_take_target|].
  destruct r as [[sa trsp]|]; [|hstep].
  eapply hoare_bind; [apply h_retarget_same|]. intros o. apply hoare_pure. intros Ho.
  destruct o as [t'|]; [|hstep]. rewrite (Ho t' eq_refl). by apply h_resend.
Qed.

Lemma h_try_next_dest_new fuel s0 b t L :
  hoare (Live s0 b t L (fun _ => True)) (try_next_dest E fuel b t true)
    (fun _ => Live s0 b t L (fun _ => True)).
Proof.
  destruct fuel as [|fuel]; cbn [try_next_dest]; [hstep|]. hstep.
  destruct (t_targets tr) as [ts|]; [|hstep]. hstep.
  destruct (get_next _ _ ts) as [ts' r]. eapply step_unit; [apply h_take_target|].
  destruct r as [[sa trsp]|]; [|hstep].
  eapply hoare_bind; [apply h_retarget_new|]. intros [n|]; [|hstep].
  intros s (s1 & Hs1 & -> & Hn).
  pose proof (h_resend fuel s1 b (fresh s1) L (h_try_next_dest_same _ _ _ _ _) s Hn) as Hr.
  change (match resend fuel b (fresh s1) s with
          | Ok _ s' => Live s0 b t L (fun _ => True) s' | Fault _ => False end).
  destruct (resend fuel b (fresh s1) s) as [r s'|]; [|done]. apply live_done in Hr.
  pose proof Hs1 as (HI1 & _ & _ & (tr1 & Htr1 & _) & Hfr1).
  apply (live_switch s0 b t L _ (fresh s1) L s1 s' Hs1 Hr); [|apply (proj1 Hfr1)].
  intros <-. rewrite fresh_free in Htr1; done.
Qed.

Lemma h_try_next_ip s0 b t L nw :
  hoare (Live s0 b t L (fun _ => True)) (try_next_ip E b t nw)
    (fun _ => Live s0 b t L (fun _ => True)).
Proof.
  unfold try_next_ip. hstep. hstep.
  destruct nw; [apply h_try_next_dest_new|apply h_try_next_dest_same].
Qed.

(** ** Client transactions: replies *)

Lemma h_cancel_live s0 b t phi :
  hoare (Live s0 b t ∅ phi) (cancel E b t [] 0) (fun _ => Done s0 t ∅).
Proof. apply to_done, h_cancel_nil. Qed.

(** The steps of [hstep] and the calls of the functions above. *)
Ltac hs :=
  lazymatch goal with
  | |- hoare _ (bind (bl_insert _ _) _) _ => hcall h_bl_insert
  | |- hoare _ (bind (retransmit _) _) _ => hcall h_retransmit
  | |- hoare _ (bind (send_non_200_ack _ _ _) _) _ => hcall h_send_non_200_ack
  | |- hoare _ (bind (cancel _ _ _ _ _) _) _ => hcall h_cancel_live
  | |- hoare _ (bind (try_next_ip _ _ _ _) _) _ => hcall h_try_next_ip
  | |- hoare _ (bind (timeout _ _ _) _) _ => hcall h_timeout
  | |- hoare _ (timeout _ _ _) _ => apply h_timeout
  | _ => hstep
  end.

Lemma h_uac_provisional s0 b t :
  hoare (Live s0 b t {[b]} (fun _ => True)) (uac_provisional E b t) (fun _ => Done s0 t {[b]}).
Proof. unfold uac_provisional. repeat hs. Qed.

Lemma h_uac_invite_error_final s0 b t m f :
  hoare (Live s0 b t {[b]} (fun _ => True)) (uac_invite_error_final E b t m f)
    (fun _ => Done s0 t {[b]}).
Proof. unfold uac_invite_error_final. repeat hs. Qed.

Lemma h_uac_invite_error s0 b t m c :
  hoare (Live s0 b t {[b]} (fun _ => True)) (uac_invite_error E b t m c)
    (fun _ => Done s0 t {[b]}).
Proof.
  unfold uac_invite_error.
  repeat first [apply h_uac_invite_error_final | hs].
Qed.

Lemma h_uac_invite_2xx s0 b t to :
  hoare (Live s0 b t {[b]} (fun _ => True)) (uac_invite_2xx E b t to) (fun _ => Done s0 t {[b]}).
Proof. unfold uac_invite_2xx. repeat hs. Qed.

Lemma h_uac_non_invite_final s0 b t m c :
  hoare (Live s0 b t {[b]} (fun _ => True)) (uac_non_invite_final E b t m c)
    (fun _ => Done s0 t {[b]}).
Proof. unfold uac_non_invite_final. repeat hs. Qed.

Lemma h_uac_non_invite s0 b t m c :
  hoare (Live s0 b t {[b]} (fun _ => True)) (uac_non_invite E b t m c)
    (fun _ => Done s0 t {[b]}).
Proof.
  unfold uac_non_invite. repeat first [apply h_uac_non_invite_final | hs].
Qed.

Lemma h_update_uac_reply s0 b t m r :
  m_u m = SIP_REPLY r -> is_Some (m_to_tag m) ->
  hoare (Live s0 b t {[b]} (fun _ => True)) (update_uac_reply E b t m) (fun _ => Done s0 t {[b]}).
Proof.
  intros Hr [to Hto]. unfold update_uac_reply. rewrite Hr, Hto. cbn [assert_some deref].
  repeat first [apply h_uac_provisional | apply h_uac_invite_error | apply h_uac_invite_2xx
               | apply h_uac_non_invite | hs].
Qed.

(** ** Server transactions *)

Lemma h_update_uas_request s0 b t m meth :
  msg_method m = Some meth -> is_Some (m_local_socket m) ->
  hoare (Live s0 b t {[b]} (fun _ => True)) (update_uas_request E b t m)
    (fun _ => Done s0 t {[b]}).
Proof.
  intros Hm [k Hk]. unfold update_uas_request. rewrite Hm, Hk. cbn [deref].
  repeat hs.
Qed.

(** There is something to re-transmit, and a socket for it. *)
Definition has_reply (tr : sip_trans) : Prop := is_Some (retr_socket tr) /\ retr_buf tr <> [].

Lemma h_become_reply s0 b t L st :
  hoare (Live s0 b t L has_reply) (become t st) (fun _ => Live s0 b t L has_reply).
Proof.
  apply h_modify. intros tr (? & ? & ? & ? & ?) [? ?]. unfold trans_ok. cbn. by splits.
Qed.

(** The result [TS_REMOVED] tells the caller that the transaction is gone. *)
Definition or_removed (s0 : tl) (b : Z) (t : nat) (st : trans_state) (s : tl) : Prop :=
  Done s0 t {[b]} s /\ (st <> TS_REMOVED -> Live s0 b t {[b]} (fun _ => True) s).

Lemma h_state_reply s0 b t :
  hoare (Live s0 b t {[b]} has_reply) (state_of t) (or_removed s0 b t).
Proof.
  unfold state_of. hstep. apply hoare_ret. intros s Hs.
  split; [exact (live_done _ _ _ _ _ _ Hs)|intros _; exact (live_alive _ _ _ _ _ _ Hs)].
Qed.

Lemma h_removed_reply s0 b t phi :
  hoare (Live s0 b t {[b]} phi) (remove b t ;;; ret TS_REMOVED) (or_removed s0 b t).
Proof. hstep. apply hoare_ret. intros s Hs. by split. Qed.

Lemma h_update_uas_reply s0 b t c :
  hoare (Live s0 b t {[b]} has_reply) (update_uas_reply E b t c) (or_removed s0 b t).
Proof.
  unfold update_uas_reply. eapply step_unit.
  { apply h_modify with (psi := has_reply). by intros tr Hok Hr. }
  hstep. match goal with H : has_reply _ |- _ => destruct H as [[k Hk] _] end.
  rewrite Hk. cbn [deref].
  repeat lazymatch goal with
  | |- hoare _ (bind (become _ _) _) _ => eapply step_unit; [apply h_become_reply|]
  | |- hoare _ (state_of _) _ => apply h_state_reply
  | |- hoare _ (remove _ _ ;;; ret TS_REMOVED) _ => apply h_removed_reply
  | _ => hs
  end.
Qed.

Lemma h_send_reply s0 b t c to d buf dst :
  buf <> [] ->
  hoare (Done s0 t ∅) (send_reply E b t c to d buf dst) (fun _ => Done s0 t ∅).
Proof.
  intros Hbuf. unfold send_reply. apply step_lock_done. apply step_exist; cbn [negb]; [|repeat hs].
  hstep. hstep; [repeat hs|]. destruct Hok as (([via Hvia] & _) & _ & [k Hk] & _).
  rewrite Hk, Hvia. cbn [deref assert_some]. hstep. hstep. hstep.
  apply (step_unit _ (Live s0 b t {[b]} (fun _ => True))); [repeat hs|].
  destruct dst as [dst|]; [|repeat hs]. hstep. hstep. hstep.
  destruct (negb (send_ok E a)); [repeat hs|].
  eapply step_unit.
  { apply h_modify with (psi := has_reply). intros tr0 (? & ? & ? & ? & ?) _.
    unfold trans_ok, has_reply. cbn. by splits. }
  eapply hoare_bind; [apply h_update_uas_reply|]. intros st.
  destruct (decide (st = TS_REMOVED)) as [->|Hne].
  - intros s [Hs _]. revert s Hs. change (hoare (Done s0 t {[b]})
      (ret tt ;;; unlock b ;;; ret true) (fun _ => Done s0 t ∅)). repeat hs.
  - intros s [_ Hs]. specialize (Hs Hne). revert s Hs.
    match goal with |- forall s, _ -> match ?m s with _ => _ end =>
      change (hoare (Live s0 b t {[b]} (fun _ => True)) m (fun _ => Done s0 t ∅)) end.
    eapply step_unit; [apply h_modify with (psi := fun _ => True)|repeat hs].
    intros tr0 (? & ? & ? & ? & ?) _. unfold trans_ok. destruct (t_dialog_id tr0); cbn; by splits.
Qed.

(** ** Timers *)

Lemma h_uas_timer_H s0 b t :
  hoare (Live s0 b t {[b]} (fun _ => True)) (uas_timer_H b t)
    (fun handled s => Done s0 t {[b]} s /\ (handled = false -> Live s0 b t {[b]} (fun _ => True) s)).
Proof.
  unfold uas_timer_H, state_of. apply hoare_assoc, step_get. intros tr Hok _. hstep.
  assert (Hold : hoare (Live s0 b t {[b]} (fun tr' => True /\ tr' = tr)) (ret false)
    (fun handled s => Done s0 t {[b]} s /\
       (handled = false -> Live s0 b t {[b]} (fun _ => True) s))).
  { apply hoare_ret. intros s Hs. split; [exact (live_done _ _ _ _ _ _ Hs)|].
    intros _. exact (live_alive _ _ _ _ _ _ Hs). }
  destruct (t_state tr) eqn:Hst; try exact Hold.
  - apply step_get. intros tr' _ [_ ->]. destruct Hok as (_ & _ & _ & _ & Hrel).
    specialize (Hrel Hst). destruct (retr_buf tr); [done|]. hstep. apply to_alive. hstep. hstep.
    apply hoare_ret. intros s Hs. split; [exact (live_done _ _ _ _ _ _ Hs)|done].
  - apply to_alive. hstep. hstep. hstep. apply hoare_ret. by split.
  - apply to_alive. hstep. hstep. hstep. apply hoare_ret. by split.
Qed.

Lemma h_timer_expired s0 b t type n i :
  fetch_timer type = Some i ->
  hoare (Live s0 b t {[b]} (fun _ => True)) (timer_expired E b t type n) (fun _ => Done s0 t ∅).
Proof.
  intros Hi. unfold timer_expired, timer_terminate.
  hs. { hs. hcall h_msg_send; [apply Hok|]. repeat hs. }
  hs. { repeat hs. }
  hs. { hs. hs. hs. apply step_lock_done. apply step_exist; repeat hs. }
  hs. { repeat hs. }
  hs. { hs. eapply hoare_bind.
        - instantiate (1 := fun handled s => Done s0 t {[b]} s /\
            (handled = false -> Live s0 b t {[b]} (fun _ => True) s)).
          hs; [apply h_uas_timer_H|]. apply hoare_ret. intros s Hs.
          split; [exact (live_done _ _ _ _ _ _ Hs)|done].
        - intros [].
          + intros s [Hs _]. revert s Hs.
            change (hoare (Done s0 t {[b]}) (ret tt ;;; unlock b) (fun _ => Done s0 t ∅)). repeat hs.
          + intros s [_ Hs]. specialize (Hs eq_refl). revert s Hs.
            change (hoare (Live s0 b t {[b]} (fun _ => True))
              ((clear_timer t type ;;; remove b t) ;;; unlock b) (fun _ => Done s0 t ∅)).
            repeat hs. }
  hs. { repeat hs. }
  hs. { hs. eapply (step_unit _ (Live s0 b t {[b]} (fun _ => True))); [|repeat hs].
        hs; [apply h_retransmit|]. hcall h_msg_send; [apply Hok|]. repeat hs. }
  hs. { repeat hs. }
  hs. { repeat hs. }
  repeat hs.
Qed.

Lemma fire_safe p x s :
  Quiet s -> tmrs s !! p = Some x ->
  exists s', fire E p s = Ok tt s' /\ Done s (tt_t x) ∅ s'.
Proof.
  intros HQ Hx. unfold fire, bind at 1, get_tmr. rewrite Hx.
  destruct (inv_type s (proj1 HQ) p x Hx) as [i Hi]. set (b := get_trans_bucket _).
  match goal with |- exists s', ?m s = _ /\ _ =>
    assert (Hh : hoare (Done s (tt_t x) ∅) m (fun _ => Done s (tt_t x) ∅)) end.
  { apply step_lock_done. apply step_exist; [|repeat hs].
    eapply step_get_timer; [by rewrite fetch_timer_land|]. intros o.
    hs; [repeat hs|]. eapply h_timer_expired. by rewrite fetch_timer_land. }
  specialize (Hh s (quiet_done s _ HQ)). case_match; [|done].
  match goal with u : () |- _ => destruct u end. eauto.
Qed.

(** ** Received messages *)

(** What the parser and the transport guarantee of a received message: the mandatory
    headers, the socket it came in on.  The last clause excludes a RAck that names PRACK
    itself, on which the code asserts (see [prack_of_prack]). *)
Definition rcvd_ok (m : sip_msg) : Prop :=
  msg_ok m /\ (is_Some (msg_method m) -> is_Some (m_local_socket m)) /\
  (forall rack, m_rack m = Some rack -> rack_method rack <> PRACK).

Lemma h_add_trans s0 t L b m ty :
  msg_ok m -> is_Some (msg_method m) -> is_Some (m_local_socket m) ->
  hoare (Done s0 t L) (add_trans b m ty) (fun _ => Done s0 t L).
Proof.
  intros Hok [meth Hm] Hk s Hs. pose proof Hs as (HI & Hl & Hfr).
  destruct (add_trans_live b m ty meth L s Hm Hok Hk HI Hl) as (n & s' & -> & -> & Hlive).
  apply live_done in Hlive. apply (done_trans s0 t L (fresh s) L s s' Hs Hlive).
  left. apply (proj1 Hfr).
Qed.

Lemma h_new_transaction s0 t b m :
  msg_ok m -> is_Some (msg_method m) -> is_Some (m_local_socket m) ->
  hoare (Done s0 t {[b]})
    (let* n := add_trans b m TT_UAS in unlock b ;;; emit (EvUaRequest (Some n) m))
    (fun _ => Done s0 t ∅).
Proof.
  intros Hok Hm Hk. eapply hoare_bind; [by apply h_add_trans|]. intros n. cbv beta. repeat hs.
Qed.

Lemma h_done_isolated {A} s0 t (P : tl -> Prop) (m : M A) :
  hoare P m (fun _ => Done s0 t ∅) -> hoare P m (fun _ => Isolated s0).
Proof. intros H. eapply hoare_conseq; [exact H|done|]. intros a s Hs. by exists t. Qed.

(** A request that matches a server transaction. *)
Lemma h_process_matched s0 b t m r :
  m_u m = SIP_REQUEST r -> is_Some (m_local_socket m) ->
  hoare (Live s0 b t {[b]} (fun _ => True))
    (let* meth := trans_method t in
     if negb (bool_decide (req_method r = meth)) then
       let* st := state_of t in
       let* res := update_uas_request E b t m in
       match res with
       | None => unlock b
       | Some _ =>
           unlock b ;;;
           if decide (st = TS_TERMINATED_200) then emit (EvUaRequest None m) else ret tt
       end
     else retransmit t ;;; unlock b)
    (fun _ => Done s0 t ∅).
Proof.
  intros Hr Hk. hs. hs. hs. hs. hs. hs. hs; [|repeat hs]. hs. hs. hs. hs.
  eapply hoare_bind.
  { apply (h_update_uas_request s0 b t m (req_method r)); [|done]. unfold msg_method. by rewrite Hr. }
  intros res. cbv beta. repeat hs.
Qed.

(** The PRACK is matched to the INVITE it acknowledges. *)
Lemma h_prack_inv s0 ib m rack meth :
  m_rack m = Some rack -> rack_method rack <> PRACK -> msg_method m = Some meth ->
  is_Some (m_local_socket m) ->
  hoare (Clean s0 {[ib]})
    (let* o := match_1xx_prack ib m in
     match o with
     | Some inv_t =>
         let* inv_meth := trans_method inv_t in
         (if decide (PRACK = inv_meth) then abort AssertFailed else ret tt) ;;;
         let* _ := update_uas_request E ib inv_t m in ret tt
     | None => ret tt
     end)
    (fun _ s => exists t, Done s0 t {[ib]} s).
Proof.
  intros Hrack Hne Hm Hk s Hs. pose proof Hs as (HI & _). unfold bind at 1.
  destruct (match_1xx_prack_ok ib m rack s HI Hrack) as (o & -> & Ho).
  destruct o as [t|]; [|exists 0%nat; by apply clean_done].
  destruct (Ho t eq_refl) as (tr & Hin & Htr & Hmeth). unfold trans_method, bind at 1 2, get_trans.
  rewrite Htr. unfold msg_method in Hmeth. unfold trans_request.
  destruct (m_u (t_msg tr)) as [|r|]; try done. injection Hmeth as Hmeth.
  unfold bind at 1 2. cbn [deref ret]. rewrite Hmeth, decide_False by congruence. cbn [ret].
  pose proof (h_update_uas_request s0 ib t m meth Hm Hk s (clean_live _ _ _ _ _ Hs Hin)) as H.
  unfold bind. destruct (update_uas_request E ib t m s); [|done]. by exists t.
Qed.

Lemma step_prack_inv {A} s0 ib m rack meth (k : unit -> M A) Q :
  m_rack m = Some rack -> rack_method rack <> PRACK -> msg_method m = Some meth ->
  is_Some (m_local_socket m) -> (forall t, hoare (Done s0 t {[ib]}) (k tt) Q) ->
  hoare (Clean s0 {[ib]})
    (let* o := match_1xx_prack ib m in
     bind (match o with
     | Some inv_t =>
         let* inv_meth := trans_method inv_t in
         (if decide (PRACK = inv_meth) then abort AssertFailed else ret tt) ;;;
         let* _ := update_uas_request E ib inv_t m in ret tt
     | None => ret tt
     end) k) Q.
Proof.
  intros Hrack Hne Hm Hk H s Hs.
  pose proof (h_prack_inv s0 ib m rack meth Hrack Hne Hm Hk s Hs) as Hp.
  unfold bind at 1. unfold bind at 1 in Hp. destruct (match_1xx_prack ib m s) as [o s1|]; [|done].
  unfold bind at 1. match type of Hp with match ?x with _ => _ end => destruct x as [[] s2|]; [|done] end.
  destruct Hp as [t Ht]. exact (H t s2 Ht).
Qed.

Lemma h_process_request s0 b m r :
  rcvd_ok m -> m_u m = SIP_REQUEST r ->
  hoare (Clean s0 {[b]}) (process_request E b m r) (fun _ => Isolated s0).
Proof.
  intros (Hok & Hsock & Hrk) Hr.
  assert (Hm : msg_method m = Some (req_method r)) by (unfold msg_method; by rewrite Hr).
  assert (Hk : is_Some (m_local_socket m)) by (apply Hsock; rewrite Hm; eauto).
  assert (Hmm : is_Some (msg_method m)) by (rewrite Hm; eauto).
  unfold process_request. apply (step_match _ s0 b).
  { intros s HI. by apply (match_request_ok b m r). }
  { intros t. eapply h_done_isolated. by apply h_process_matched. }
  assert (Hnew : hoare (Clean s0 {[b]})
    (let* n := add_trans b m TT_UAS in unlock b ;;; emit (EvUaRequest (Some n) m))
    (fun _ => Isolated s0)).
  { apply (to_clean_done _ _ 0%nat), (h_done_isolated s0 0%nat). by apply h_new_transaction. }
  cbv zeta. destruct (req_method r); try exact Hnew.
  - apply (to_clean_done _ _ 0%nat), (h_done_isolated s0 0%nat). repeat hs.
  - apply step_unlock_clean. destruct (m_rack m) as [rack|] eqn:Hrack.
    2: { apply (to_clean_done _ _ 0%nat), (h_done_isolated s0 0%nat). repeat hs. }
    destruct Hok as (? & ? & ? & [ci Hci] & ?). rewrite Hci. cbn [deref]. hs.
    apply step_lock_clean. eapply (step_prack_inv _ _ _ rack); try done; [by apply Hrk|].
    intros t. apply (h_done_isolated s0 t). apply step_unlock_done, step_lock_done.
    by apply h_new_transaction.
Qed.

Lemma h_process_reply s0 b m r :
  msg_ok m -> m_u m = SIP_REPLY r ->
  hoare (Clean s0 {[b]}) (process_reply E b m) (fun _ => Isolated s0).
Proof.
  intros Hok Hr. unfold process_reply. apply (step_match _ s0 b).
  { intros s HI. by apply match_reply_ok. }
  - intros t. apply (h_done_isolated s0 t). hs.
    eapply hoare_bind; [apply (h_update_uac_reply s0 b t m r Hr); apply Hok|].
    intros pass. cbv beta. repeat hs.
  - apply (to_clean_done _ _ 0%nat), (h_done_isolated s0 0%nat). repeat hs.
Qed.

Lemma h_process_rcvd_msg s0 m :
  rcvd_ok m -> hoare (Clean s0 ∅) (process_rcvd_msg E m) (fun _ => Isolated s0).
Proof.
  intros Hrcvd. pose proof Hrcvd as (Hok & _). pose proof Hok as (_ & _ & _ & [ci Hci] & [c Hc]).
  unfold process_rcvd_msg. rewrite Hci, Hc. cbn [assert_some]. hs. hs. apply step_lock_clean.
  destruct (m_u m) eqn:Hu.
  - apply (to_clean_done _ _ 0%nat), (h_done_isolated s0 0%nat). repeat hs.
  - by apply h_process_request.
  - by eapply h_process_reply.
Qed.

Lemma h_transport_error s0 m :
  msg_ok m -> hoare (Clean s0 ∅) (transport_error E m) (fun _ => Isolated s0).
Proof.
  intros Hok. assert (Hq : hoare (Clean s0 ∅) (ret tt) (fun _ => Isolated s0)).
  { apply hoare_ret. intros s Hs. exists 0%nat. by apply clean_done. }
  unfold transport_error. destruct (m_u m); try exact Hq. case_decide; [exact Hq|].
  apply h_process_rcvd_msg. split; [done|]. split; [|done]. by intros [].
Qed.

(** ** Sent requests *)

Lemma sendable_set_trsp m tr i m' :
  sendable m -> set_trsp_socket E m tr i = Some m' -> sendable m' /\ is_Some (m_local_socket m').
Proof.
  intros Hm H. destruct (set_trsp_socket_ok _ _ _ _ H) as [k ->]. split; [done|by eexists].
Qed.

Lemma sendable_patch m m' :
  sendable m -> patch_ruri_with_remote_ip E m = Some m' ->
  sendable m' /\ m_local_socket m' = m_local_socket m.
Proof.
  unfold patch_ruri_with_remote_ip, sendable. intros (? & ? & ? & ? & ?).
  repeat case_match; intros; simplify_eq. split; [|done]. cbn. by splits.
Qed.

(** Tracking a request: a new transaction, or the one an ACK belongs to. *)
Lemma h_track s0 b p :
  good_msg p -> m_buf p <> [] ->
  hoare (Clean s0 {[b]}) (update_uac_request E b p)
    (fun o s => match o with
                | Some (Some t) => Live s0 b t {[b]} (fun _ => True) s
                | _ => Clean s0 {[b]} s
                end).
Proof.
  intros Hg Hbuf s Hs. pose proof Hg as (Hok & [meth Hm] & Hsk). pose proof Hsk as [k Hk].
  pose proof Hs as (HI & Hl & Hfr). destruct (decide (meth = ACK)) as [->|Hne].
  - unfold msg_method in Hm. destruct (m_u p) as [|r|] eqn:Hu; try done.
    unfold update_uac_request, bind at 1 2, msg_method. rewrite Hu, Hk. cbn [deref ret].
    injection Hm as ->. rewrite decide_True by done.
    destruct (is_reliable k); cbn [negb]; [by apply Hs|]. unfold bind at 1.
    destruct (match_request_ok b p r TT_UAC s HI Hok Hu) as (o & -> & Hin).
    destruct o as [t|]; [|by apply Hs].
    pose proof (clean_live s0 _ b t s Hs (Hin t eq_refl)) as Hlive. revert Hlive.
    generalize s. change (hoare (Live s0 b t {[b]} (fun _ => True))
      (modify t (set_retr (m_buf p) (m_remote_ip p) (Some k)) ;;; ret (Some (Some t)))
      (fun o s => match o with
                | Some (Some t) => Live s0 b t {[b]} (fun _ => True) s
                | _ => Clean s0 {[b]} s
                end)).
    eapply step_unit; [|hs]. apply h_modify. intros tr (? & ? & ? & ? & ?) _.
    unfold trans_ok. cbn. by splits.
  - destruct (update_uac_request_new b p meth {[b]} s Hm Hne Hok Hsk HI Hl) as (s' & -> & Hlive).
    destruct Hlive as (H1 & H2 & H3 & H4 & H5). unfold Live. splits; try done.
    apply (frame_trans _ (fresh s) s0 s s' (Hfr _) H5). by right.
Qed.

Lemma clean_same_core s0 L s s' : same_core s s' -> Clean s0 L s -> Clean s0 L s'.
Proof.
  intros Hc (HI & Hl & Hfr). pose proof Hc as (Hh & Hb & Ht & Hk & Hf & _).
  split; [by apply (inv_same_core s)|]. split; [by rewrite Hk|].
  intros t. specialize (Hfr t). unfold frame, bucket in *. by rewrite Hh, Hb, Hf, Ht.
Qed.

Lemma step_core_clean {A} s0 L f (k : unit -> M A) Q :
  (forall s, same_core s (f s)) ->
  hoare (Clean s0 L) (k tt) Q -> hoare (Clean s0 L) (bind (update f) k) Q.
Proof. intros Hf H s Hs. apply H. by apply (clean_same_core s0 L s). Qed.

Lemma step_bl_insert_clean {A} s0 L a (k : unit -> M A) Q :
  hoare (Clean s0 L) (k tt) Q -> hoare (Clean s0 L) (bind (bl_insert E a) k) Q.
Proof.
  intros H. unfold bl_insert. case_match; [by apply hoare_skip|]. apply step_core_clean; [|done].
  intros s. by case_match.
Qed.

Context (gen_buf_nonempty : forall m, gen_buf E m <> []).

Lemma h_send_request_loop fuel s0 m ts d oif flags :
  sendable m ->
  hoare (Clean s0 ∅) (send_request_loop E fuel m ts d oif flags) (fun _ => Isolated s0).
Proof.
  assert (Hq : forall (A : Type) (a : A), hoare (Clean s0 ∅) (ret a) (fun _ => Isolated s0)).
  { intros A a. apply hoare_ret. intros s Hs. exists 0%nat. by apply clean_done. }
  revert m ts. induction fuel as [|fuel IH]; intros m ts Hm; cbn [send_request_loop]; [apply Hq|].
  hs. destruct (get_next _ _ ts) as [ts' r]. destruct r as [[sa trsp]|].
  2: { apply step_emit_clean, Hq. }
  destruct (set_trsp_socket E _ _ _) as [m1|] eqn:Hset; [|apply Hq].
  destruct (sendable_set_trsp _ _ _ _ (Hm : sendable (set_remote_ip sa m)) Hset) as [Hm1 Hk1].
  destruct (if has_flag flags TR_FLAG_NEXT_HOP_RURI then _ else Some m1) as [m2|] eqn:Hp; [|apply Hq].
  assert (Hm2 : sendable m2 /\ is_Some (m_local_socket m2)).
  { destruct (has_flag flags _); [|by injection Hp as <-].
    destruct (sendable_patch m1 m2 Hm1 Hp) as [? ->]. done. }
  destruct Hm2 as [Hm2 Hk2]. intros s Hs. unfold bind at 1.
  destruct (generate_eq m2 s Hm2 Hk2) as (o & x & -> & Ho).
  apply (clean_same_core s0 ∅ s (set_branch_cnt x s)) in Hs; [|done]. revert Hs.
  generalize (set_branch_cnt x s). clear s x.
  destruct o as [p|]; [|exact (Hq _ (false, @None nat))]. destruct (Ho p eq_refl) as [Hg [p0 Hbuf]].
  pose proof Hg as ((? & ? & ? & [ci Hci] & [c Hc]) & [meth Hmeth] & [k Hk]).
  rewrite Hci, Hc, Hmeth. cbn [deref].
  match goal with |- forall s, _ -> match ?m s with _ => _ end =>
    change (hoare (Clean s0 ∅) m (fun _ => Isolated s0)) end.
  hs. hs. set (b := get_trans_bucket _). apply step_lock_clean. unfold msg_send. rewrite Hk.
  cbn [assert_some]. hs. hs. hs. hs. hs. apply step_core_clean; [done|]. hs.
  apply step_emit_clean. hs. hs; [apply step_bl_insert_clean, step_unlock_clean, IH, Hm2|].
  hs. eapply hoare_bind; [apply (h_track s0 b p Hg); by rewrite Hbuf|].
  intros [[t|]|]; [|apply step_unlock_clean, Hq|apply step_unlock_clean, Hq].
  apply (h_done_isolated s0 t).
  apply (step_unit _ (Live s0 b t {[b]} (fun _ => True))); [repeat hs|].
  eapply step_unit; [apply h_modify with (psi := fun _ => True)|repeat hs].
  intros tr0 (? & ? & ? & ? & ?) _. unfold trans_ok. destruct (t_dialog_id tr0); cbn; by splits.
Qed.

Lemma h_send_request s0 m ts d oif flags :
  sendable m -> hoare (Clean s0 ∅) (send_request E m ts d oif flags) (fun _ => Isolated s0).
Proof.
  intros Hm. pose proof Hm as (_ & _ & _ & _ & [meth Hmeth]). unfold msg_method in Hmeth.
  unfold send_request. destruct (m_u m) as [|r|]; try done. cbn [deref]. hs.
  assert (Hq : hoare (Clean s0 ∅) (ret (false, None : option nat)) (fun _ => Isolated s0)).
  { apply hoare_ret. intros s Hs. exists 0%nat. by apply clean_done. }
  destruct (ruri_str r); [exact Hq|]. destruct (req_method_str r); [exact Hq|].
  by apply h_send_request_loop.
Qed.

(** ** The layer as a transition system *)

(** The entry points: messages from the transports, requests of the user agent. *)
Inductive call :=
| CReceive (m : sip_msg)
| CTransportError (m : sip_msg)
| CSendReply (b : Z) (t : nat) (c : Z) (to_tag dialog_id buf : cstring)
    (dst : option sockaddr_storage)
| CCancel (b : Z) (t : nat) (dialog_id : cstring) (inv_cseq : Z)
| CSendRequest (m : sip_msg) (targets : sip_target_set) (dialog_id : cstring)
    (out_interface flags : Z).

Definition run_call (c : call) : M unit :=
  match c with
  | CReceive m => process_rcvd_msg E m
  | CTransportError m => transport_error E m
  | CSendReply b t c to d buf dst => let* _ := send_reply E b t c to d buf dst in ret tt
  | CCancel b t d q => let* _ := cancel E b t d q in ret tt
  | CSendRequest m ts d i f => let* _ := send_request E m ts d i f in ret tt
  end.

(** What the callers guarantee.  A ticket (bucket and transaction) may be stale. *)
Definition call_ok (c : call) : Prop :=
  match c with
  | CReceive m => rcvd_ok m
  | CTransportError m => msg_ok m
  | CSendReply _ _ _ _ _ buf _ => buf <> []
  | CCancel _ _ _ _ => True
  | CSendRequest m _ _ _ _ => sendable m
  end.

(** The thread of the wheel turns it and then fires the timers of the tick, one after
    another; calls come between any two of these steps.  [f] are the timers that it has
    still to fire. *)
Inductive label := LCall (c : call) | LTick | LFire.

Definition layer_do (l : label) (f : list timer) : M (list timer) :=
  match l with
  | LCall c => run_call c ;;; ret f
  | LTick => wheel_tick
  | LFire => match f with [] => ret [] | t :: f => fire E (tm_ptr t) ;;; ret f end
  end.

(** The wheel turns when all timers of the last tick were fired, and not over the end of
    its clock (see [turn_wheel_wrap_undefined]). *)
Definition enabled (l : label) (s : tl) (f : list timer) : Prop :=
  match l with
  | LCall c => call_ok c
  | LTick => f = [] /\ wall_clock (wt s) < u32_mod - 1
  | LFire => True
  end.

Inductive step : tl * list timer -> tl * list timer -> Prop :=
| step_do l s f s' f' : enabled l s f -> layer_do l f s = Ok f' s' -> step (s, f) (s', f').

(** The layer after start-up. *)
Definition tl_init (cnt : Z) : tl := mk_tl ∅ ∅ ∅ wheeltimer_init ∅ 0 [] 0 cnt [].

(** The timers [f] exist. *)
Definition alive (s : tl) (f : list timer) : Prop := Forall (fun t => is_Some (tmrs s !! tm_ptr t)) f.

Lemma init_quiet cnt : Quiet (tl_init cnt).
Proof.
  split; [|done]. split; cbn; try done.
  - intros b t. unfold bucket. cbn. rewrite lookup_empty. cbn. by intros ?%not_elem_of_nil.
  - intros b. unfold bucket. cbn. rewrite lookup_empty. constructor.
  - intros b b' t. unfold bucket. cbn. rewrite lookup_empty. cbn. by intros ?%not_elem_of_nil.
  - intros t. rewrite lookup_empty. by intros [].
  - split; intros t; rewrite lookup_empty; by intros [].
  - eapply wheel_objects_ext; [|apply wheel_objects_init]. intros p. split; [|done].
    intros (t & tr & i & H & _). cbn in H. by rewrite lookup_empty in H.
Qed.

Lemma run_call_safe c s :
  Quiet s -> call_ok c -> exists s', run_call c s = Ok tt s' /\ Isolated s s'.
Proof.
  intros HQ Hc. pose proof (quiet_clean s HQ) as Hcl.
  assert (Hunit : forall m : M unit, hoare (Clean s ∅) m (fun _ => Isolated s) ->
    exists s', m s = Ok tt s' /\ Isolated s s').
  { intros m H. specialize (H s Hcl). destruct (m s) as [[] s'|]; [eauto|done]. }
  assert (Hany : forall A (m : M A), hoare (Clean s ∅) m (fun _ => Isolated s) ->
    exists s', (let* _ := m in ret tt) s = Ok tt s' /\ Isolated s s').
  { intros A m H. specialize (H s Hcl). unfold bind. destruct (m s) as [a s'|]; [eauto|done]. }
  destruct c; cbn in *.
  - by apply Hunit, h_process_rcvd_msg.
  - by apply Hunit, h_transport_error.
  - apply Hany. apply (to_clean_done _ _ t), (h_done_isolated s t). by apply h_send_reply.
  - by apply Hany, h_cancel.
  - by apply Hany, h_send_request.
Qed.

Lemma call_quiet c s s' : Quiet s -> call_ok c -> run_call c s = Ok tt s' -> Quiet s'.
Proof.
  intros HQ Hc Hr. destruct (run_call_safe c s HQ Hc) as (s1 & H1 & t & HD).
  rewrite Hr in H1. injection H1 as <-. by eapply done_quiet.
Qed.

(** A tick deletes the objects that no transaction points to, and those only. *)
Lemma tick_safe s :
  Quiet s -> wall_clock (wt s) < u32_mod - 1 ->
  exists f' s', wheel_tick s = Ok f' s' /\ Quiet s' /\ alive s' f' /\
    heap s' = heap s /\ buckets s' = buckets s /\ (forall p, is_Some (tmrs s' !! p) <-> held s p).
Proof.
  intros [HI Hl] Hc. destruct (wheel_objects_tick _ _ _ (inv_wheel s HI) Hc)
    as (h' & w' & fired & Hreq & Hturn & Hwo & _ & Hrm & Hal).
  unfold wheel_tick. rewrite (proj2 (forallb_forall _ _)).
  2: { intros t Ht. apply bool_decide_eq_true_2, (wo_linked _ _ _ (inv_wheel s HI)).
       by apply list_elem_of_In. }
  rewrite Hreq, Hturn. pose proof (reqs_objects_sub _ _ _ Hreq) as Hsub.
  assert (Hex : forall p, is_Some (h' !! p) <-> held s p).
  { intros p. split; [|intros Hp; by apply (wo_held _ _ _ Hwo)].
    intros Hp. destruct (wo_kept _ _ _ Hwo p Hp) as [H|H]; [|done]. by rewrite Hrm in H; apply elem_of_nil in H. }
  eexists _, _. split; [reflexivity|]. splits; try done.
  destruct HI as [I1 I2 I3 I4 I5 I6 I8 [I7 I7'] I9 I10].
  assert (Hin : forall p x, h' !! p = Some x -> tmrs s !! p = Some x) by (intros p x Hp; by eapply lookup_weaken).
  split; [|done]. split; cbn; try done.
  - intros t tr i p Htr Hp. destruct (I6 t tr i p Htr Hp) as (x & Hx & ?). exists x. split; [|done]. cbn.
    destruct (proj2 (Hex p)) as [y Hy]; [by exists t, tr, i|]. pose proof (Hin p y Hy). congruence.
  - intros p x Hp%Hin. by apply (I8 p).
  - split; [done|]. intros p [x Hp%Hin]. eauto.
  - intros p x Hp%Hin. by apply (I9 p).
Qed.

(** What a step may change: a tick only the timer objects, the other steps at most one of
    the transactions that exist. *)
Definition effect (l : label) (s s' : tl) : Prop :=
  match l with
  | LTick => heap s' = heap s /\ buckets s' = buckets s /\ (forall p, is_Some (tmrs s' !! p) <-> held s p)
  | _ => exists t, frame t s s'
  end.

Lemma alive_frame t s s' f : frame t s s' -> alive s f -> alive s' f.
Proof.
  intros (_ & _ & Hs) Hf. eapply Forall_impl; [exact Hf|]. intros x [y Hy]. exists y. by eapply lookup_weaken.
Qed.

Lemma layer_do_safe l s f :
  Quiet s -> alive s f -> enabled l s f ->
  exists f' s', layer_do l f s = Ok f' s' /\ Quiet s' /\ alive s' f' /\ effect l s s'.
Proof.
  intros HQ Hf He. destruct l as [c| |]; cbn [layer_do effect].
  - destruct (run_call_safe c s HQ He) as (s' & Hr & t & HD). unfold bind. rewrite Hr.
    pose proof HD as (_ & _ & Hfr). eexists _, s'. split; [reflexivity|].
    splits; [by eapply done_quiet|by eapply alive_frame|by exists t].
  - destruct He as [_ Hc]. destruct (tick_safe s HQ Hc) as (f' & s' & ? & ? & ? & ?). eauto 10.
  - destruct f as [|t f]; [exists [], s; splits; try done; exists 0%nat; apply frame_refl|].
    apply Forall_cons in Hf as [[x Hx] Hf]. destruct (fire_safe (tm_ptr t) x s HQ Hx) as (s' & Hr & HD).
    unfold bind. rewrite Hr. pose proof HD as (_ & _ & Hfr). eexists _, s'. split; [reflexivity|].
    splits; [by eapply done_quiet|by eapply alive_frame|by exists (tt_t x)].
Qed.

Lemma reachable_safe cnt s f : rtc step (tl_init cnt, []) (s, f) -> Quiet s /\ alive s f.
Proof.
  assert (Hall : forall x y, rtc step x y -> Quiet x.1 /\ alive x.1 x.2 -> Quiet y.1 /\ alive y.1 y.2).
  { induction 1 as [|x y z H1 H2 IH]; [done|]. intros [HQ Ha]. apply IH.
    destruct H1 as [l s1 f1 s2 f2 He Hr]. destruct (layer_do_safe l s1 f1 HQ Ha He) as (f3 & s3 & H3 & ? & ? & _).
    cbn. rewrite Hr in H3. by injection H3 as <- <-. }
  intros H. apply (Hall _ _ H). split; [apply init_quiet|constructor].
Qed.

End Safety.

(** C1: from start-up on, whatever sequence of messages, transport errors, replies,
    cancellations, requests, ticks of the wheel and timer expirations between them the layer
    has gone through, the next one does not fault: no deleted transaction or timer object is
    used or deleted again, no null pointer, no assertion fails, no mutex is locked twice.  It
    returns with every lock released, with a well-formed table (no transaction lost or in two
    buckets, every timer slot pointing to a live timer of that transaction) and has touched
    at most one of the transactions that existed before; a tick deletes exactly the timer
    objects that no transaction points to any more.  Messages are such as the parser lets
    through, but for a RAck that names the method PRACK, on which the code asserts
    ([prack_of_prack]); replies are not empty, and the wheel is not turned over the end of
    its 32-bit clock. *)
Theorem layer_safe E cnt s f l :
  (forall m, gen_buf E m <> []) -> rtc (step E) (tl_init cnt, []) (s, f) -> enabled l s f ->
  exists f' s', layer_do E l f s = Ok f' s' /\ Inv s' /\ locked s' = ∅ /\ alive s' f' /\
    effect l s s'.
Proof.
  intros Hgen Hr Hc. destruct (reachable_safe E Hgen cnt s f Hr) as [HQ Ha].
  destruct (layer_do_safe E Hgen l s f HQ Ha Hc) as (f' & s' & ? & [? ?] & ? & ?). eauto 10.
Qed.

(** An expired timer works on its own transaction only: [trans_timer::fire] leaves
    every other transaction, and its place in the table, as they were, also when it
    starts a new one on the next destination. *)
Theorem fire_isolated E p x s :
  Quiet s -> tmrs s !! p = Some x ->
  exists s', fire E p s = Ok tt s' /\ Quiet s' /\ frame (tt_t x) s s'.
Proof.
  intros HQ Hx. destruct (fire_safe E p x s HQ Hx) as (s' & -> & HD).
  exists s'. split; [done|]. split; [by eapply done_quiet|apply HD].
Qed.

(** ** Concrete runs *)

Definition demo_targets2 : sip_target_set :=
  mk_targets [mk_target demo_peer []; mk_target demo_peer2 []] 0.

(** The layer after an INVITE has been sent to the first of two targets. *)
Definition demo_sent : tl :=
  state_after (send_request (demo_env []) demo_invite demo_targets2 (cs "dlg") 0 0 demo_init).

Lemma demo_gen_buf l m : gen_buf (demo_env l) m <> [].
Proof. done. Qed.

Lemma demo_msg_ok meth name tag to : msg_ok (demo_request meth name tag to).
Proof. unfold msg_ok. cbn. splits; eauto. Qed.

Lemma demo_rcvd_ok meth name tag to : rcvd_ok (demo_request meth name tag to).
Proof. split; [apply demo_msg_ok|]. cbn. split; [eauto|done]. Qed.

Lemma demo_sendable meth name tag to : sendable (demo_request meth name tag to).
Proof. unfold sendable. cbn. splits; eauto. Qed.

Lemma demo_sent_quiet : Quiet demo_sent.
Proof.
  refine (call_quiet (demo_env []) (demo_gen_buf []) (CSendRequest demo_invite demo_targets2 (cs "dlg") 0 0)
    (tl_init 0) demo_sent (init_quiet 0) (demo_sendable _ _ _ _) _). vm_compute. reflexivity.
Qed.

(** The request of [demo_sent], then the first tick of the wheel. *)
Definition demo_ticked : tl := state_after (wheel_tick demo_sent).

Lemma demo_ticked_reachable : rtc (step (demo_env [])) (tl_init 0, []) (demo_ticked, []).
Proof.
  eapply rtc_l; [|eapply rtc_once].
  - apply (step_do _ (LCall (CSendRequest demo_invite demo_targets2 (cs "dlg") 0 0)) _ _ demo_sent []).
    + apply demo_sendable.
    + vm_compute. reflexivity.
  - apply (step_do _ LTick).
    + split; vm_compute; reflexivity.
    + vm_compute. reflexivity.
Qed.

Lemma layer_safe_witness :
  exists f' s', layer_do (demo_env []) (LCall (CCancel 0 0 [] 0)) [] demo_ticked = Ok f' s' /\ Inv s' /\
    locked s' = ∅ /\ alive s' f' /\ effect (LCall (CCancel 0 0 [] 0)) demo_ticked s'.
Proof.
  apply (layer_safe (demo_env []) 0 demo_ticked [] (LCall (CCancel 0 0 [] 0))).
  - apply demo_gen_buf.
  - exact demo_ticked_reachable.
  - exact I.
Defined.

Lemma fire_isolated_witness :
  exists s', fire (demo_env []) 3 demo_sent = Ok tt s' /\ Quiet s' /\ frame 0 demo_sent s'.
Proof.
  apply (fire_isolated (demo_env []) 3 (mk_trans_timer STIMER_M 400 0 0) demo_sent).
  - exact demo_sent_quiet.
  - vm_compute. reflexivity.
Defined.

(** A PRACK whose RAck names the method PRACK and the number 0 is matched to the server
    transaction of an earlier PRACK of the same dialog, and the assertion that the matched
    transaction is of another method fails: two messages from the network stop the
    server. *)
Theorem prack_of_prack :
  let prack := mk_msg (cs "msg") (SIP_REQUEST (mk_request (cs "PRACK") PRACK (cs "sip:bob@example.com")))
    (Some (demo_via (cs "abcdefgh"))) (Some (cs "from")) (Some []) (Some (cs "call"))
    (Some (demo_cseq 1 (cs "1") (cs "PRACK"))) (Some (mk_rack 0 1 (cs "1") PRACK)) []
    (Some demo_udp) demo_peer in
  let second := set_via (Some (demo_via (cs "ijklmnop"))) prack in
  exists s, process_rcvd_msg (demo_env []) prack demo_init = Ok tt s /\
    process_rcvd_msg (demo_env []) second s = Fault AssertFailed.
Proof. eexists. split; vm_compute; reflexivity. Qed.
