(* ===== verification/TransView.v ===== *)
(** * What can be observed of one transaction

    The view of a transaction is the transaction without the addresses of its timers, the
    timers that are armed, and the observable state around it (clock, locks, number of
    sends, events).  The rules give the exact effect on the view of each operation the
    handlers of TransLayer are made of, so that the behaviour of a handler is found by
    running it symbolically. *)

From Stdlib Require Import ZArith Lia Ascii String.
From stdpp Require Import base list gmap.
From S2P Require Import Prelude Wheeltimer SipMsg SipTrans TransTable TransLayer TransLogic.

Local Open Scope Z_scope.
Local Open Scope bool_scope.

(** The timer objects in the slots of a transaction. *)
Definition armed (s : tl) (tr : sip_trans) : gmap nat trans_timer :=
  omap (fun p => tmrs s !! p) (timers tr).

Record view := mk_view {
  v_tr : sip_trans;
  v_armed : gmap nat trans_timer;
  v_clock : Z;
  v_locked : gset Z;
  v_sends : nat;
  v_blacklist : list sockaddr_storage;
  v_events : list event
}.

Definition vset_tr (x : sip_trans) (v : view) : view :=
  mk_view x (v_armed v) (v_clock v) (v_locked v) (v_sends v) (v_blacklist v) (v_events v).
Definition vset_armed (x : gmap nat trans_timer) (v : view) : view :=
  mk_view (v_tr v) x (v_clock v) (v_locked v) (v_sends v) (v_blacklist v) (v_events v).
Definition vset_locked (x : gset Z) (v : view) : view :=
  mk_view (v_tr v) (v_armed v) (v_clock v) x (v_sends v) (v_blacklist v) (v_events v).
Definition vset_sends (x : nat) (v : view) : view :=
  mk_view (v_tr v) (v_armed v) (v_clock v) (v_locked v) x (v_blacklist v) (v_events v).
Definition vset_events (x : list event) (v : view) : view :=
  mk_view (v_tr v) (v_armed v) (v_clock v) (v_locked v) (v_sends v) (v_blacklist v) x.

Definition vset_blacklist (x : list sockaddr_storage) (v : view) : view :=
  mk_view (v_tr v) (v_armed v) (v_clock v) (v_locked v) (v_sends v) x (v_events v).

(** The blacklist after [bl_insert]. *)
Definition bl_after (E : env) (a : sockaddr_storage) (bl : list sockaddr_storage)
  : list sockaddr_storage :=
  if default_bl_ttl E =? 0 then bl else if bool_decide (a ∈ bl) then bl else a :: bl.

(** Fields around the transaction. *)
Definition around (v : view) (s : tl) : Prop :=
  wall_clock (wt s) = v_clock v /\ locked s = v_locked v /\ sends s = v_sends v /\
  blacklist s = v_blacklist v /\ events s = v_events v.

Section View.
Context (b : Z) (t : nat).

(** [v] is the view of [t], which is in bucket [b]. *)
Definition Viewed (v : view) (s : tl) : Prop :=
  (t ∈ bucket s b /\ NoDup (bucket s b)) /\ around v s /\
  exists tms, heap s !! t = Some (set_timers tms (v_tr v)) /\
    (omap (fun p => tmrs s !! p) tms) = v_armed v /\
    (forall i p, tms !! i = Some p -> is_Some (tmrs s !! p)) /\
    (forall p, is_Some (tmrs s !! p) -> (p < fresh s)%nat).

(** [t] has been deleted; the rest is as in [v]. *)
Definition Gone (v : view) (s : tl) : Prop :=
  heap s !! t = None /\ (t ∉ bucket s b) /\ around v s.

(** Every well-formed state has a view of each of its transactions. *)
Definition view_of (s : tl) (tr : sip_trans) : view :=
  mk_view (set_timers ∅ tr) (armed s tr) (wall_clock (wt s)) (locked s) (sends s) (blacklist s)
    (events s).

Lemma viewed_of s tr :
  Inv s -> t ∈ bucket s b -> heap s !! t = Some tr -> Viewed (view_of s tr) s.
Proof.
  intros HI Hin Htr. split; [split; [done|apply (inv_nodup s HI)]|]. split; [done|]. exists (timers tr). splits; [|done| |].
  - rewrite Htr. by destruct tr.
  - intros i p Hp. destruct (inv_timer s HI t tr i p Htr Hp) as (x & Hx & _). eauto.
  - apply (proj2 (inv_fresh s HI)).
Qed.

Lemma v_get {A} v (k : sip_trans -> M A) Q :
  (forall tms, hoare (Viewed v) (k (set_timers tms (v_tr v))) Q) ->
  hoare (Viewed v) (bind (get_trans t) k) Q.
Proof.
  intros H s Hs. pose proof Hs as (_ & _ & tms & Htr & _). unfold bind, get_trans. rewrite Htr.
  by apply H.
Qed.

Lemma v_modify {A} v f (k : unit -> M A) Q :
  (forall x tr, f (set_timers x tr) = set_timers x (f tr)) ->
  hoare (Viewed (vset_tr (f (v_tr v)) v)) (k tt) Q ->
  hoare (Viewed v) (bind (modify t f) k) Q.
Proof.
  intros Hf H s (Hin & Har & tms & Htr & Harm & Hal & Hfr). unfold bind, modify. rewrite Htr.
  apply H. split; [done|]. split; [done|]. exists tms. cbn.
  rewrite lookup_insert_eq. rewrite Hf. done.
Qed.

Lemma v_emit {A} v e (k : unit -> M A) Q :
  hoare (Viewed (vset_events (e :: v_events v) v)) (k tt) Q ->
  hoare (Viewed v) (bind (emit e) k) Q.
Proof.
  intros H s (Hin & (H1 & H2 & H3 & H4 & H5) & Hex). apply H. split; [done|].
  split; [|done]. unfold around. cbn. rewrite H5. done.
Qed.

Lemma v_gets_sends {A} v (k : nat -> M A) Q :
  hoare (Viewed v) (k (v_sends v)) Q -> hoare (Viewed v) (bind (gets sends) k) Q.
Proof.
  intros H s Hs. pose proof Hs as (_ & (_ & _ & H3 & _) & _). unfold bind, gets. rewrite H3.
  by apply H.
Qed.

Lemma v_gets_blacklist {A} v (k : list sockaddr_storage -> M A) Q :
  hoare (Viewed v) (k (v_blacklist v)) Q -> hoare (Viewed v) (bind (gets blacklist) k) Q.
Proof.
  intros H s Hs. pose proof Hs as (_ & (_ & _ & _ & H4 & _) & _). unfold bind, gets. rewrite H4.
  by apply H.
Qed.

Lemma v_set_sends {A} v n (k : unit -> M A) Q :
  hoare (Viewed (vset_sends n v)) (k tt) Q ->
  hoare (Viewed v) (bind (update (set_sends n)) k) Q.
Proof.
  intros H s (Hin & (H1 & H2 & H3 & H4 & H5) & Hex). apply H. split; [done|]. done.
Qed.

Lemma v_unlock {A} v (k : unit -> M A) Q :
  v_locked v = {[b]} -> hoare (Viewed (vset_locked ∅ v)) (k tt) Q ->
  hoare (Viewed v) (bind (unlock b) k) Q.
Proof.
  intros Hl H s (Hin & (H1 & H2 & H3) & Hex). unfold bind, unlock. rewrite H2, Hl.
  rewrite decide_True by by apply elem_of_singleton. rewrite difference_diag_L. apply H.
  split; [done|]. done.
Qed.

Lemma v_lock {A} v (k : unit -> M A) Q :
  v_locked v = ∅ -> hoare (Viewed (vset_locked {[b]} v)) (k tt) Q ->
  hoare (Viewed v) (bind (lock b) k) Q.
Proof.
  intros Hl H s (Hin & (H1 & H2 & H3) & Hex). unfold bind, lock. rewrite H2, Hl.
  rewrite decide_False by apply not_elem_of_empty. rewrite union_empty_r_L. apply H.
  split; [done|]. done.
Qed.

Lemma v_exist {A} v (k : bool -> M A) Q :
  hoare (Viewed v) (k true) Q -> hoare (Viewed v) (bind (exist b t) k) Q.
Proof.
  intros H s Hs. pose proof Hs as ([Hin _] & _). unfold bind, exist, gets.
  rewrite bool_decide_eq_true_2 by done. by apply H.
Qed.

(** ** Timers *)

Lemma v_reset_timer {A} v type d bid i (k : unit -> M A) Q :
  fetch_timer type = Some i ->
  hoare (Viewed (vset_armed (<[i := mk_trans_timer type (u32 (d / 20 + v_clock v)) bid t]>
                               (v_armed v)) v)) (k tt) Q ->
  hoare (Viewed v) (bind (reset_timer t type d bid) k) Q.
Proof.
  intros Hi H s (Hin & Har & tms & Htr & Harm & Hal & Hfr).
  unfold bind at 1, reset_timer, bind at 1, gets, bind at 1, new_trans_timer.
  rewrite (proj1 Har). change (TIMER_RESOLUTION / 1000) with 20.
  set (x := mk_trans_timer _ _ _ _). set (s1 := set_fresh _ _).
  assert (Hp : tmrs s1 !! fresh s = Some x) by (cbn; apply lookup_insert_eq).
  assert (Hne : forall p, is_Some (tmrs s !! p) -> tmrs s1 !! p = tmrs s !! p).
  { intros p Hs. cbn. rewrite lookup_insert_ne; [done|]. apply Hfr in Hs. lia. }
  edestruct (reset_timer_to_eq t (Some (fresh s)) type i s1) as (w & Hw & ->).
  { exact Htr. } { done. }
  { intros old Ho. pose proof (Hal i old Ho) as Hs. by rewrite <- (Hne old Hs) in Hs. }
  { intros p [= <-]. eauto. }
  apply H. split; [done|]. split; [by unfold around in *; cbn; rewrite Hw|].
  eexists. split; [cbn; apply lookup_insert_eq|]. cbn [v_armed vset_armed]. splits.
  - apply map_eq. intros j. cbn. rewrite lookup_omap. destruct (decide (i = j)) as [<-|Hj].
    + rewrite lookup_partial_alter_eq, lookup_insert_eq. exact Hp.
    + rewrite lookup_partial_alter_ne, lookup_insert_ne by done. rewrite <- Harm, lookup_omap.
      destruct (tms !! j) as [p|] eqn:Hj'; [|done]. cbn. apply (Hne p). by eapply Hal.
  - intros j p. cbn. destruct (decide (i = j)) as [<-|Hj].
    + rewrite lookup_partial_alter_eq. intros [= <-]. eauto.
    + rewrite lookup_partial_alter_ne by done. intros Hp'. pose proof (Hal j p Hp') as Hs.
      by rewrite <- (Hne p Hs) in Hs.
  - intros p Hs. cbn in Hs |- *. destruct (decide (fresh s = p)) as [<-|]; [lia|].
    rewrite lookup_insert_ne in Hs by done. apply Hfr in Hs. lia.
Qed.

Lemma v_clear_timer {A} v type i (k : unit -> M A) Q :
  fetch_timer type = Some i ->
  hoare (Viewed (vset_armed (delete i (v_armed v)) v)) (k tt) Q ->
  hoare (Viewed v) (bind (clear_timer t type) k) Q.
Proof.
  intros Hi H s (Hin & Har & tms & Htr & Harm & Hal & Hfr). unfold bind, clear_timer.
  edestruct (reset_timer_to_eq t None type i s) as (w & Hw & ->); [exact Htr|done|apply Hal|done|].
  apply H. split; [done|]. split; [by unfold around in *; cbn; rewrite Hw|].
  eexists. split; [cbn; apply lookup_insert_eq|]. splits; [|intros j p Hp; apply (Hal j)|done].
  - cbn. rewrite <- Harm. apply map_eq. intros j.
    rewrite lookup_omap. destruct (decide (i = j)) as [<-|Hj].
    + by rewrite lookup_partial_alter_eq, lookup_delete_eq.
    + by rewrite lookup_partial_alter_ne, lookup_delete_ne, lookup_omap by done.
  - cbn in Hp. destruct (decide (i = j)) as [<-|Hj]; [by rewrite lookup_partial_alter_eq in Hp|].
    by rewrite lookup_partial_alter_ne in Hp.
Qed.

Lemma v_reset_all {A} v (k : unit -> M A) Q :
  hoare (Viewed (vset_armed (delete 2%nat (delete 1%nat (delete 0%nat (v_armed v)))) v)) (k tt) Q ->
  hoare (Viewed v) (bind (reset_all_timers t) k) Q.
Proof.
  intros H s (Hin & Har & tms & Htr & Harm & Hal & Hfr). unfold bind.
  edestruct (reset_all_timers_eq t s) as (w & Hw & ->); [exact Htr|apply Hal|].
  apply H. split; [done|]. split; [by unfold around in *; cbn; rewrite Hw|].
  eexists. split; [cbn; apply lookup_insert_eq|]. splits; [|intros j p Hp; apply (Hal j)|done].
  - cbn. rewrite <- Harm. by rewrite !omap_delete.
  - cbn in Hp. by repeat apply lookup_delete_Some in Hp as [_ Hp].
Qed.

Lemma v_remove {A} v (k : unit -> M A) Q :
  hoare (Gone v) (k tt) Q -> hoare (Viewed v) (bind (remove b t) k) Q.
Proof.
  intros H s Hs. destruct Hs as ([Hin Hnd] & Har & tms & Htr & Harm & Hal & Hfr). unfold bind.
  edestruct (remove_eq b t s) as (w & Hw & ->); [done|exact Htr|apply Hal|].
  apply H. split; [cbn; apply lookup_delete_eq|]. split.
  - match goal with |- t ∉ bucket ?x b => replace (bucket x b) with (erase t (bucket s b)) end.
    + by apply erase_nodup.
    + unfold bucket. cbn. by rewrite lookup_insert_eq.
  - unfold around in *. cbn. by rewrite Hw.
Qed.

Lemma g_emit {A} v e (k : unit -> M A) Q :
  hoare (Gone (vset_events (e :: v_events v) v)) (k tt) Q ->
  hoare (Gone v) (bind (emit e) k) Q.
Proof.
  intros H s (H0 & Hb & (H1 & H2 & H3 & H4 & H5)). apply H. split; [done|]. split; [done|].
  unfold around. cbn. rewrite H5. done.
Qed.

Lemma g_unlock {A} v (k : unit -> M A) Q :
  v_locked v = {[b]} -> hoare (Gone (vset_locked ∅ v)) (k tt) Q ->
  hoare (Gone v) (bind (unlock b) k) Q.
Proof.
  intros Hl H s (H0 & Hb & (H1 & H2 & H3)). unfold bind, unlock. rewrite H2, Hl.
  rewrite decide_True by by apply elem_of_singleton. rewrite difference_diag_L. apply H.
  split; [done|]. done.
Qed.

Lemma v_bl_insert {A} E v a (k : unit -> M A) Q :
  hoare (Viewed (vset_blacklist (bl_after E a (v_blacklist v)) v)) (k tt) Q ->
  hoare (Viewed v) (bind (bl_insert E a) k) Q.
Proof.
  intros H s Hs. unfold bind, bl_insert. unfold bl_after in H. destruct (default_bl_ttl E =? 0).
  - apply H. by destruct v.
  - unfold update. cbn. pose proof Hs as (Hin & (H1 & H2 & H3 & H4 & H5) & Hex). rewrite H4.
    case_bool_decide; apply H; [by destruct v|].
    split; [done|]. split; [|done]. by unfold around.
Qed.

End View.

(** ** Symbolic execution *)

Ltac vsimp :=
  cbn [t_type t_msg t_to_tag reply_status t_state last_rseq t_dialog_id t_targets retr_buf
       retr_addr retr_socket t_flags canceled set_timers set_msg set_to_tag set_reply_status
       set_state set_last_rseq set_dialog_id set_targets set_retr set_flags set_canceled
       v_tr v_armed v_clock v_locked v_sends v_blacklist v_events vset_tr vset_armed
       vset_locked vset_sends vset_events vset_blacklist assert_some deref negb andb orb].

(** One step; conditions that the context does not decide are left to the caller. *)
Ltac vstep :=
  vsimp;
  lazymatch goal with
  | |- hoare _ (bind (bind _ _) _) _ => apply hoare_assoc
  | |- hoare _ (bind (ret _) _) _ => apply hoare_skip; cbv beta
  | |- hoare _ (bind (get_trans _) _) _ => apply v_get; intros ?; cbv beta
  | |- hoare _ (bind (state_of _) _) _ => unfold state_of at 1
  | |- hoare _ (bind (trans_method _) _) _ => unfold trans_method at 1
  | |- hoare _ (bind (trans_request _) _) _ => unfold trans_request at 1
  | |- hoare _ (bind (become _ _) _) _ => unfold become at 1
  | |- hoare _ (bind (or_flag _ _) _) _ => unfold or_flag at 1
  | |- hoare _ (bind (modify _ _) _) _ => apply v_modify; [solve [done | intros ? tr0; cbn; by destruct (t_dialog_id tr0) | intros; cbn; by case_match]|]
  | |- hoare _ (bind (clear_timer _ _) _) _ => eapply v_clear_timer; [reflexivity|]
  | |- hoare _ (bind (reset_timer _ _ _ _) _) _ => eapply v_reset_timer; [first [reflexivity | rewrite fetch_timer_retry; reflexivity]|]
  | |- hoare _ (bind (reset_all_timers _) _) _ => apply v_reset_all
  | |- hoare _ (bind (remove _ _) _) _ => apply v_remove
  | |- hoare _ (bind (emit _) _) _ => first [apply v_emit | apply g_emit]
  | |- hoare _ (bind (unlock _) _) _ => first [apply v_unlock; [vsimp; eassumption || reflexivity|]
                                              | apply g_unlock; [vsimp; eassumption || reflexivity|]]
  | |- hoare _ (bind (lock _) _) _ => apply v_lock; [vsimp; eassumption || reflexivity|]
  | |- hoare _ (bind (exist _ _) _) _ => apply v_exist; cbv beta
  | |- hoare _ (bind (bl_insert _ _) _) _ => apply v_bl_insert
  | |- hoare _ (bind (gets sends) _) _ => apply v_gets_sends; cbv beta
  | |- hoare _ (bind (gets blacklist) _) _ => apply v_gets_blacklist; cbv beta
  | |- hoare _ (bind (update (set_sends _)) _) _ => apply v_set_sends
  | |- hoare _ pass_reply _ => unfold pass_reply
  | |- hoare _ absorb _ => unfold absorb
  | |- hoare _ (become _ _) _ => apply hoare_tail
  | |- hoare _ (state_of _) _ => apply hoare_tail
  | |- hoare _ (reset_timer _ _ _ _) _ => apply hoare_tail
  | |- hoare _ (clear_timer _ _) _ => apply hoare_tail
  | |- hoare _ (remove _ _) _ => apply hoare_tail
  | |- hoare _ (emit _) _ => apply hoare_tail
  | |- hoare _ (unlock _) _ => apply hoare_tail
  end; vsimp.

(** ** From symbolic runs to results *)

(** The transaction [t] of [s'], its timers aside, is [tr']; [arm] are its timers. *)
Definition now_is (t : nat) (s' : tl) (tr' : sip_trans) (arm : gmap nat trans_timer) : Prop :=
  exists tms, heap s' !! t = Some (set_timers tms tr') /\
    (omap (fun p => tmrs s' !! p) tms) = arm.

Lemma run_viewed {A} (m : M A) b t s tr x v' :
  Inv s -> t ∈ bucket s b -> heap s !! t = Some tr ->
  hoare (Viewed b t (view_of s tr)) m (fun a s' => a = x /\ Viewed b t v' s') ->
  exists s', m s = Ok x s' /\ now_is t s' (v_tr v') (v_armed v') /\ around v' s'.
Proof.
  intros HI Hin Htr H. specialize (H s (viewed_of b t s tr HI Hin Htr)).
  destruct (m s) as [a s'|]; [|done]. destruct H as [-> (_ & Har & tms & Hh & Harm & _)].
  exists s'. split; [done|]. split; [by exists tms|done].
Qed.

(** Only the slots 0, 1 and 2 are ever used. *)
Lemma armed_slot s t tr i x :
  Inv s -> heap s !! t = Some tr -> armed s tr !! i = Some x -> (i < 3)%nat.
Proof.
  intros HI Htr H. unfold armed in H. rewrite lookup_omap in H.
  destruct (timers tr !! i) as [p|] eqn:Hp; [|done].
  destruct (inv_timer s HI t tr i p Htr Hp) as (y & _ & _ & Hi). unfold fetch_timer in Hi.
  assert (Hall : forallb (fun j => j <? 3)%nat timer_type_lookup = true) by done.
  rewrite forallb_forall in Hall. apply Nat.ltb_lt, Hall.
  apply list_elem_of_In. by eapply list_elem_of_lookup_2.
Qed.

Lemma armed_cleared s t tr :
  Inv s -> heap s !! t = Some tr ->
  delete 2%nat (delete 1%nat (delete 0%nat (armed s tr))) = ∅.
Proof.
  intros HI Htr. apply map_eq. intros i. rewrite lookup_empty.
  destruct (delete 2%nat _ !! i) as [x|] eqn:H; [|done].
  apply lookup_delete_Some in H as [H2 H]. apply lookup_delete_Some in H as [H1 H].
  apply lookup_delete_Some in H as [H0 H]. pose proof (armed_slot s t tr i x HI Htr H). lia.
Qed.

(** The timer of type [ty] that is started now for [d] milliseconds. *)
Definition started (s : tl) (b : Z) (t : nat) (ty d : Z) : trans_timer :=
  mk_trans_timer ty (u32 (d / 20 + wall_clock (wt s))) b t.


Lemma armed_K s b t tr ty d :
  Inv s -> heap s !! t = Some tr ->
  <[2%nat := started s b t ty d]>
    (delete 1%nat (delete 2%nat (delete 0%nat (armed s tr)))) = {[2%nat := started s b t ty d]}.
Proof.
  intros HI Htr. rewrite (delete_delete _ 1%nat 2%nat), (armed_cleared s t tr HI Htr).
  apply insert_empty.
Qed.

Lemma armed_BL s b t tr ty d :
  Inv s -> heap s !! t = Some tr ->
  <[2%nat := started s b t ty d]>
    (delete 2%nat (delete 1%nat (delete 0%nat (delete 1%nat (armed s tr))))) =
  {[2%nat := started s b t ty d]}.
Proof.
  intros HI Htr. rewrite (delete_delete _ 0%nat 1%nat), delete_delete_eq.
  rewrite (delete_delete _ 1%nat 0%nat), (delete_delete _ 0%nat 1%nat).
  rewrite (armed_cleared s t tr HI Htr). apply insert_empty.
Qed.

(** The transaction is gone: its memory, its place in the table, its timers. *)
Definition gone (b : Z) (t : nat) (s' : tl) : Prop := heap s' !! t = None /\ (t ∉ bucket s' b).

Lemma run_removed {A} (h : M A) b t s tr x v' :
  Inv s -> t ∈ bucket s b -> heap s !! t = Some tr ->
  hoare (Viewed b t (view_of s tr)) h (fun a s' => a = x /\ Gone b t v' s') ->
  exists s', h s = Ok x s' /\ gone b t s' /\ locked s' = v_locked v' /\ events s' = v_events v'.
Proof.
  intros HI Hin Htr H. specialize (H s (viewed_of b t s tr HI Hin Htr)).
  destruct (h s) as [a s'|]; [|done]. destruct H as [-> (Hh & Hb & (_ & H3 & _ & _ & H5))].
  exists s'. splits; done.
Qed.

Lemma pass_unless c : (if negb c then pass_reply else absorb) = ret (negb c).
Proof. by destruct c. Qed.

(** A test on a timer type that is known. *)
Ltac vconst :=
  match goal with
  | |- hoare _ (if ?c then _ else _) _ =>
      let v := eval compute in c in
      lazymatch v with true => idtac | false => idtac end; change c with v; cbv iota
  | |- hoare _ (bind (if ?c then _ else _) _) _ =>
      let v := eval compute in c in
      lazymatch v with true => idtac | false => idtac end; change c with v; cbv iota
  end.

Ltac vdecide :=
  match goal with
  | |- hoare _ ?m _ =>
      match m with
      | context [bool_decide (?x = ?y)] =>
          first [ rewrite (bool_decide_eq_true_2 (x = y)) by congruence
                | rewrite (bool_decide_eq_false_2 (x = y)) by congruence ]
      | context [decide (?x = ?y)] =>
          first [ rewrite (decide_True (P := x = y)) by congruence
                | rewrite (decide_False (P := x = y)) by congruence ]
      end
  end.

(** Run a handler as far as the hypotheses decide its conditions. *)
Ltac vgo :=
  first
    [ vstep
    | match goal with
      | H : m_u ?x = _ |- hoare _ ?h _ =>
          match h with context [m_u x] => rewrite H; cbn [assert_some deref] end
      | H : m_to_tag ?x = _ |- hoare _ ?h _ =>
          match h with context [m_to_tag x] => rewrite H; cbn [assert_some deref] end
      | H : ?x = _ |- hoare _ (bind (assert_some ?x) _) _ => rewrite H
      | H : ?x = _ |- hoare _ (bind (deref ?x) _) _ => rewrite H
      | H : ?x = _ |- hoare _ (if negb ?x then _ else _) _ => rewrite H
      | H : ?x = _ |- hoare _ (bind (if negb ?x then _ else _) _) _ => rewrite H
      | H : ?c = true |- hoare _ (if ?c then _ else _) _ => rewrite H
      | H : ?c = false |- hoare _ (if ?c then _ else _) _ => rewrite H
      | H : ?x = _ |- hoare _ (match ?x with _ => _ end) _ => rewrite H
      | H : ?x = _ |- hoare _ (bind (match ?x with _ => _ end) _) _ => rewrite H
      | H : (?x =? ?y) = _ |- hoare _ (if (?x =? ?y) && _ then _ else _) _ => rewrite H
      end
    | vconst
    | vdecide
    | rewrite pass_unless ].

Ltac vend := apply hoare_ret; intros ? ?; split; [reflexivity|eassumption].

Ltac vbranch := unfold view_of; repeat vgo; try vend.

(** Run the handler of the goal on the view of the transaction; [tac] unfolds it. *)
Ltac vcase tac :=
  lazymatch goal with HI : Inv ?s, Htr : heap ?s !! ?t = Some ?tr, Hin : ?t ∈ bucket ?s ?b
    |- exists s', ?h ?s = _ /\ _ =>
  let s' := fresh "s'" in
  let H1 := fresh in let H2 := fresh in let H3 := fresh in
  edestruct (run_viewed h b t s tr) as (s' & H1 & H2 & H3);
    [exact HI|exact Hin|exact Htr|tac; vbranch|];
  exists s'; destruct H3 as (_ & H3 & _ & _ & ?);
  splits; [exact H1|exact H2|rewrite H3; vsimp; first [done|assumption]|assumption]
  end.

(** The same for a handler that deletes the transaction. *)
Ltac vgone tac :=
  lazymatch goal with HI : Inv ?s, Htr : heap ?s !! ?t = Some ?tr, Hin : ?t ∈ bucket ?s ?b
    |- exists s', ?h ?s = _ /\ _ =>
  let s' := fresh "s'" in
  let H1 := fresh in let H2 := fresh in let H3 := fresh in let H4 := fresh in
  edestruct (run_removed h b t s tr) as (s' & H1 & H2 & H3 & H4);
    [exact HI|exact Hin|exact Htr|tac; vbranch|];
  exists s'; splits; [exact H1|exact H2|rewrite H3; vsimp; first [done|assumption]|assumption]
  end.
