(* ===== verification/TransMatch.v ===== *)
(** * Matching messages to transactions, tags and branches

    The matching loops of TransTable against the rules of RFC 3261 17.1.3 and 17.2.3, the
    round trip from the ACK and the reply back to the transaction they belong to, and the
    generated tags. *)

From Stdlib Require Import ZArith Lia Ascii String.
From stdpp Require Import base list gmap.
From S2P Require Import Prelude Wheeltimer SipMsg SipTrans TransTable TransLayer TransLogic TransDemo TransSafety.

Local Open Scope Z_scope.
Local Open Scope bool_scope.

(** ** Requests *)

(** A branch of RFC 3261: the cookie, and something after it. *)
Definition modern (v : sip_via_parm) : Prop :=
  (MAGIC_BRANCH_LEN < length (via_branch v))%nat /\
  take MAGIC_BRANCH_LEN (via_branch v) = MAGIC_BRANCH_COOKIE.

#[export] Instance modern_dec v : Decision (modern v).
Proof. unfold modern. apply _. Defined.

(** The same sent-by and the same branch; of a stored branch the cookie is not read. *)
Definition same_via (v via : sip_via_parm) : Prop :=
  length (via_branch v) = length (via_branch via) /\
  drop MAGIC_BRANCH_LEN (via_branch v) = drop MAGIC_BRANCH_LEN (via_branch via) /\
  via_host v = via_host via /\ via_port v = via_port via.

(** RFC 3261 17.2.3, first rule, and 17.2.1 for the ACK of a 2xx. *)
Definition request_matches (m : sip_msg) (meth : method) (via : sip_via_parm) (ty : trans_type)
    (t : sip_trans) : Prop :=
  t_type t = ty /\
  exists t_meth, msg_method (t_msg t) = Some t_meth /\
    let by_via := exists v, m_via_p1 (t_msg t) = Some v /\ same_via v via in
    ((meth = t_meth /\ by_via) \/
     (t_meth = INVITE /\ meth = ACK /\ (by_via \/ match_200_ack t m = Some true))).

(** The rule for the other branches, without the Call-ID: From tag, CSeq number, and for an
    ACK the tag of the reply, with the R-URI unless that was a 2xx; for others To tag and
    R-URI. *)
Definition old_matches (m : sip_msg) (r : sip_request) (ty : trans_type) (t : sip_trans) : Prop :=
  t_type t = ty /\
  exists t_r, m_u (t_msg t) = SIP_REQUEST t_r /\
    (req_method r = req_method t_r \/ (req_method r = ACK /\ req_method t_r = INVITE)) /\
    m_from_tag (t_msg t) = m_from_tag m /\ num_str <$> m_cseq (t_msg t) = num_str <$> m_cseq m /\
    if decide (req_method r = ACK)
    then Some (t_to_tag t) = m_to_tag m /\ (reply_status t < 300 \/ ruri_str t_r = ruri_str r)
    else m_to_tag (t_msg t) = m_to_tag m /\ ruri_str t_r = ruri_str r.

(** The transactions that the request [m] selects. *)
Definition selects (m : sip_msg) (r : sip_request) (via : sip_via_parm) (ty : trans_type)
    (t : sip_trans) : Prop :=
  if decide (modern via) then request_matches m (req_method r) via ty t else old_matches m r ty t.

Lemma compare_branch_spec t via :
  (MAGIC_BRANCH_LEN < length (via_branch via))%nat ->
  compare_branch t via (drop MAGIC_BRANCH_LEN (via_branch via)) = true <->
  exists v, m_via_p1 (t_msg t) = Some v /\ same_via v via.
Proof.
  intros Hlen. unfold compare_branch. destruct (m_via_p1 (t_msg t)) as [v|]; [|by split; [|intros (? & ? & _)]].
  rewrite !andb_true_iff. unfold cs_eqb. rewrite !bool_decide_eq_true, length_drop. unfold same_via, MAGIC_BRANCH_LEN in *.
  split.
  - intros [[[H1 H2] H3] H4]. exists v. splits; try done. lia.
  - intros (v' & [= <-] & H1 & H2 & H3 & H4). splits; try done. lia.
Qed.

(** One round of the loop. *)
Lemma match_request_cons m meth via ty p t l :
  msg_ok m -> (MAGIC_BRANCH_LEN < length (via_branch via))%nat ->
  (request_matches m meth via ty t /\
   match_request_3261 m meth via ty ((p, t) :: l) = Some (Some p)) \/
  (~ request_matches m meth via ty t /\
   match_request_3261 m meth via ty ((p, t) :: l) = match_request_3261 m meth via ty l).
Proof.
  intros (_ & [f Hf] & [to Ht] & _ & [c Hc]) Hlen. pose proof (compare_branch_spec t via Hlen) as Hcmp.
  assert (Hack : exists b, match_200_ack t m = Some b).
  { unfold match_200_ack. rewrite Hf, Ht, Hc. eauto. }
  destruct Hack as [ack Hack]. cbn [match_request_3261]. unfold request_matches. cbv zeta.
  destruct (msg_method (t_msg t)) as [t_meth|]; [|right; split; [by intros (_ & ? & ? & _)|done]].
  destruct (decide (t_type t = ty)) as [Hty|Hty].
  2: { rewrite (bool_decide_eq_false_2 _ Hty). right. split; [by intros (? & _)|done]. }
  rewrite (bool_decide_eq_true_2 _ Hty). cbn [negb].
  destruct (decide (meth = t_meth)) as [<-|Hne].
  - rewrite (bool_decide_eq_true_2 (meth = meth)) by done. cbn [negb].
    destruct (compare_branch t via _) eqn:Hb; cbn [negb].
    + left. split; [|done]. split; [done|]. exists meth. split; [done|]. left. by rewrite <- Hcmp.
    + right. split; [|done]. intros (_ & x & [= <-] & [[_ Hv]|(-> & Ha & _)]); [|done].
      rewrite <- Hcmp in Hv. congruence.
  - rewrite (bool_decide_eq_false_2 _ Hne). cbn [negb].
    destruct (decide (t_meth = INVITE /\ meth = ACK)) as [[-> ->]|Hno].
    + rewrite !bool_decide_eq_true_2 by done. cbn [andb].
      destruct (compare_branch t via _) eqn:Hb.
      * left. split; [|done]. split; [done|]. exists INVITE. split; [done|]. right.
        splits; try done. left. by apply Hcmp.
      * rewrite Hack. destruct ack.
        -- left. split; [|done]. split; [done|]. exists INVITE. split; [done|]. right. by auto.
        -- right. split; [|done]. intros (_ & x & [= <-] & [[? _]|(_ & _ & [Hv|Hv])]); [done| |done].
           rewrite <- Hcmp in Hv. congruence.
    + replace (bool_decide (t_meth = INVITE) && bool_decide (meth = ACK)) with false.
      2: { symmetry. apply andb_false_iff. rewrite !bool_decide_eq_false.
           destruct (decide (t_meth = INVITE)), (decide (meth = ACK)); tauto. }
      right. split; [|done]. intros (_ & x & [= <-] & [[? _]|(? & ? & _)]); [done|by destruct Hno].
Qed.

Lemma ocs_eqb_spec a o : ocs_eqb a o = true <-> o = Some a.
Proof.
  unfold ocs_eqb, cs_eqb. destruct o as [x|]; [|done]. rewrite bool_decide_eq_true.
  split; [by intros ->|by intros [= ->]].
Qed.

(** One round of the other loop. *)
Lemma match_old_cons m r from to cseq ty p t l :
  m_from_tag m = Some from -> m_to_tag m = Some to -> m_cseq m = Some cseq ->
  (old_matches m r ty t /\ match_request_2543 m r from to cseq ty ((p, t) :: l) = Some p) \/
  (~ old_matches m r ty t /\
   match_request_2543 m r from to cseq ty ((p, t) :: l) = match_request_2543 m r from to cseq ty l).
Proof.
  intros Hf Ht Hc. cbn [match_request_2543]. unfold old_matches. rewrite Hf, Ht, Hc. cbn [fmap option_fmap option_map].
  destruct (m_u (t_msg t)) as [|t_r|]; try (right; split; [by intros (_ & ? & ? & _)|done]).
  destruct (decide (t_type t = ty)) as [Hty|Hty].
  2: { rewrite (bool_decide_eq_false_2 _ Hty). right. split; [by intros (? & _)|done]. }
  rewrite (bool_decide_eq_true_2 _ Hty). cbn [negb].
  assert (Hmeth : negb (bool_decide (req_method r = req_method t_r)) &&
      (negb (bool_decide (req_method r = ACK)) || negb (bool_decide (req_method t_r = INVITE))) = false <->
      req_method r = req_method t_r \/ (req_method r = ACK /\ req_method t_r = INVITE)).
  { repeat case_bool_decide; cbn; intuition congruence. }
  destruct (negb _ && _) eqn:Hm; [right; split; [|done]|].
  { intros (_ & x & [= <-] & Hx%Hmeth & _). congruence. }
  pose proof (proj1 Hmeth eq_refl) as Hmm. clear Hmeth Hm.
  pose proof (ocs_eqb_spec from (m_from_tag (t_msg t))) as H1.
  destruct (ocs_eqb from _); cbn [negb]; [|right; split; [|done]; intros (_ & x & [= <-] & _ & Hx%H1 & _); done].
  pose proof (ocs_eqb_spec (num_str cseq) (num_str <$> m_cseq (t_msg t))) as H2.
  destruct (ocs_eqb (num_str cseq) _); cbn [negb]; [|right; split; [|done]; intros (_ & x & [= <-] & _ & _ & Hx%H2 & _); done].
  pose proof (proj1 H1 eq_refl) as H1'. pose proof (proj1 H2 eq_refl) as H2'.
  unfold cs_eqb. destruct (decide (req_method r = ACK)) as [Ha|Ha].
  - rewrite (bool_decide_eq_true_2 _ Ha). destruct (decide (to = t_to_tag t)) as [->|Hto].
    2: { rewrite (bool_decide_eq_false_2 _ Hto). right. split; [|done]. intros (_ & x & [= <-] & _ & _ & _ & [= Hx] & _). done. }
    rewrite bool_decide_eq_true_2 by done. cbn [negb]. destruct (Z.ltb_spec (reply_status t) 300) as [Hs|Hs].
    { left. split; [|done]. split; [done|]. exists t_r. splits; try done. by left. }
    destruct (decide (ruri_str t_r = ruri_str r)) as [Hu|Hu].
    + rewrite (bool_decide_eq_true_2 _ Hu). left. split; [|done]. split; [done|]. exists t_r. splits; try done. by right.
    + rewrite (bool_decide_eq_false_2 _ Hu). right. split; [|done].
      intros (_ & x & [= <-] & _ & _ & _ & _ & [Hx|Hx]); [lia|done].
  - rewrite (bool_decide_eq_false_2 _ Ha). pose proof (ocs_eqb_spec to (m_to_tag (t_msg t))) as H3.
    destruct (ocs_eqb to _); cbn [negb]; [|right; split; [|done]; intros (_ & x & [= <-] & _ & _ & _ & Hx%H3 & _); done].
    pose proof (proj1 H3 eq_refl) as H3'. destruct (decide (ruri_str t_r = ruri_str r)) as [Hu|Hu].
    + rewrite (bool_decide_eq_true_2 _ Hu). left. split; [|done]. split; [done|]. by exists t_r.
    + rewrite (bool_decide_eq_false_2 _ Hu). right. split; [|done]. intros (_ & x & [= <-] & _ & _ & _ & _ & Hx). done.
Qed.

(** A loop that tests the elements one after the other finds the first that passes. *)
Lemma loop_first (P : sip_trans -> Prop) (loop : list (nat * sip_trans) -> option (option nat)) l :
  loop [] = Some None ->
  (forall p t l, (P t /\ loop ((p, t) :: l) = Some (Some p)) \/ (~ P t /\ loop ((p, t) :: l) = loop l)) ->
  exists o, loop l = Some o /\
    match o with
    | Some p => exists l1 t l2, l = l1 ++ (p, t) :: l2 /\ P t /\ Forall (fun x => ~ P (snd x)) l1
    | None => Forall (fun x => ~ P (snd x)) l
    end.
Proof.
  intros Hnil Hcons. induction l as [|[p t] l (o & Ho & Hspec)]; [by exists None|].
  destruct (Hcons p t l) as [[Hm ->]|[Hm ->]]; [exists (Some p); split; [done|]; by exists [], t, l|].
  exists o. split; [done|]. destruct o as [q|]; [|by constructor].
  destruct Hspec as (l1 & t' & l2 & -> & Hm' & Hl1). exists ((p, t) :: l1), t', l2.
  splits; [done|done|by constructor].
Qed.

(** The elements of a bucket and the transactions that were read from them. *)
Lemma first_in_bucket (P : sip_trans -> Prop) s b l o :
  map fst l = bucket s b -> (forall p tr, (p, tr) ∈ l -> heap s !! p = Some tr) ->
  match o with
  | Some p => exists l1 t l2, l = l1 ++ (p, t) :: l2 /\ P t /\ Forall (fun x => ~ P (snd x)) l1
  | None => Forall (fun x => ~ P (snd x)) l
  end ->
  match o with
  | Some p => exists l1 l2 t, bucket s b = l1 ++ p :: l2 /\ heap s !! p = Some t /\ P t /\
                forall q x, q ∈ l1 -> heap s !! q = Some x -> ~ P x
  | None => forall q x, q ∈ bucket s b -> heap s !! q = Some x -> ~ P x
  end.
Proof.
  intros Hmap Hin. assert (Hno : forall l', l' ⊆ l -> Forall (fun x => ~ P (snd x)) l' ->
    forall q x, q ∈ map fst l' -> heap s !! q = Some x -> ~ P x).
  { intros l' Hsub Hall q x (y & -> & Hy)%list_elem_of_fmap Hx. destruct y as [q y]. cbn in Hx.
    rewrite (Hin q y) in Hx by auto. injection Hx as <-. eapply (proj1 (Forall_forall _ _) Hall (q, y)). done. }
  destruct o as [p|]; [|intros Hall; rewrite <- Hmap; by apply Hno].
  intros (l1 & t & l2 & -> & HP & Hall). exists (map fst l1), (map fst l2), t. splits.
  - rewrite <- Hmap. by rewrite map_app.
  - apply Hin. set_solver.
  - done.
  - apply Hno; [set_solver|done].
Qed.

(** C5: [match_request] returns the first transaction of the bucket that the request selects,
    and none only when there is no such transaction.  A request whose Via branch has the
    cookie of RFC 3261 selects by 17.2.3 (same type, same method or ACK for INVITE, the same
    topmost Via branch and sent-by) or, a 200 ACK, by tags, Call-ID and CSeq number; a request
    without selects by method, From tag, CSeq number, To tag and R-URI. *)
Theorem match_request_first b m r via ty s :
  Inv s -> msg_ok m -> m_u m = SIP_REQUEST r -> m_via_p1 m = Some via ->
  exists o, match_request b m ty s = Ok o s /\
    match o with
    | Some p => exists l1 l2 t, bucket s b = l1 ++ p :: l2 /\ heap s !! p = Some t /\
                  selects m r via ty t /\
                  forall q x, q ∈ l1 -> heap s !! q = Some x -> ~ selects m r via ty x
    | None => forall q x, q ∈ bucket s b -> heap s !! q = Some x -> ~ selects m r via ty x
    end.
Proof.
  intros HI Hok Hr Hvia. pose proof Hok as (_ & [f Hf] & [to Hto] & _ & [c Hc]).
  unfold match_request, bind. rewrite Hr, Hvia. cbn [deref assert_some ret].
  destruct (elmts_ok b s HI) as (l & -> & Hmap & Hl).
  assert (Hl' : forall p tr, (p, tr) ∈ l -> heap s !! p = Some tr) by (intros p tr H; by apply Hl).
  assert (Hmod : (MAGIC_BRANCH_LEN <? length (via_branch via))%nat &&
      cs_eqb (take MAGIC_BRANCH_LEN (via_branch via)) MAGIC_BRANCH_COOKIE = bool_decide (modern via)).
  { apply eq_bool_prop_intro. rewrite andb_True, bool_decide_spec. unfold modern, cs_eqb. rewrite bool_decide_spec.
    by rewrite Is_true_true, Nat.ltb_lt. }
  destruct l as [|x l]; [exists None; split; [done|]; rewrite <- Hmap; by intros ? ? ?%elem_of_nil|].
  rewrite Hmod. unfold selects. destruct (decide (modern via)) as [Hm|Hm].
  - rewrite (bool_decide_eq_true_2 _ Hm).
    destruct (loop_first (request_matches m (req_method r) via ty) (match_request_3261 m (req_method r) via ty) (x :: l))
      as (o & -> & Ho); [done|intros; apply match_request_cons; [done|apply Hm]|].
    exists o. split; [done|]. by apply (first_in_bucket _ s b (x :: l)).
  - rewrite (bool_decide_eq_false_2 _ Hm), Hf, Hto, Hc. cbn [assert_some ret].
    destruct (loop_first (old_matches m r ty) (fun l => Some (match_request_2543 m r f to c ty l)) (x :: l))
      as (o & Heq & Ho); [done| |].
    { intros p t l'. destruct (match_old_cons m r f to c ty p t l' Hf Hto Hc) as [[? ->]|[? ->]]; auto. }
    exists o. split; [by rewrite (inj Some _ _ Heq)|]. by apply (first_in_bucket _ s b (x :: l)).
Qed.

(** The ACK that the client builds for a final error reply finds, on the server, the
    transaction of the INVITE it acknowledges: when no transaction before it in the bucket
    is selected, [match_request] returns the one that holds the INVITE. *)
Theorem ack_finds_invite E inv r cseq reply via p t l1 l2 :
  msg_ok inv -> is_Some (m_to_tag reply) -> m_via_p1 inv = Some via -> modern via ->
  t_type t = TT_UAS -> msg_method (t_msg t) = Some INVITE -> m_via_p1 (t_msg t) = Some via ->
  Forall (fun x => ~ request_matches (non_200_ack E inv r cseq reply) ACK via TT_UAS (snd x)) l1 ->
  match_request_3261 (non_200_ack E inv r cseq reply) ACK via TT_UAS (l1 ++ (p, t) :: l2)
  = Some (Some p).
Proof.
  intros (H1 & H2 & H3 & H4 & H5) Hto Hvia [Hcv _] Hty Hmeth Htvia. set (ack := non_200_ack E inv r cseq reply).
  assert (Hok : msg_ok ack) by (unfold msg_ok; cbn; splits; eauto).
  induction l1 as [|[q x] l1 IH]; intros Hl1; cbn [app].
  - destruct (match_request_cons ack ACK via TT_UAS p t l2 Hok Hcv) as [[_ ->]|[Hno _]]; [done|].
    destruct Hno. split; [done|]. exists INVITE. split; [done|]. right. splits; try done. left. by exists via.
  - apply Forall_cons_1 in Hl1 as [Hno Hl1].
    destruct (match_request_cons ack ACK via TT_UAS q x (l1 ++ (p, t) :: l2) Hok Hcv)
      as [[Hyes _]|[_ ->]]; [done|by apply IH].
Qed.

Lemma ack_finds_invite_witness :
  match_request_3261 (non_200_ack (demo_env []) demo_invite
      (mk_request (cs "INVITE") INVITE (cs "sip:bob@example.com")) (demo_cseq 1 (cs "1") (cs "INVITE"))
      (demo_reply 486 (demo_via (cs "abcdefgh")) (cs "INVITE") (Some demo_udp)))
    ACK (demo_via (cs "abcdefgh")) TT_UAS [(5%nat, new_sip_trans TT_UAS demo_invite)]
  = Some (Some 5%nat).
Proof.
  refine (ack_finds_invite (demo_env []) demo_invite _ _ _ (demo_via (cs "abcdefgh")) 5
    (new_sip_trans TT_UAS demo_invite) [] [] _ _ _ _ _ _ _ _); try reflexivity.
  - unfold msg_ok. cbn. splits; eauto.
  - eexists. reflexivity.
  - apply (bool_decide_eq_true_1 (modern _)). vm_compute. reflexivity.
  - constructor.
Defined.

Lemma match_request_first_witness :
  exists o, match_request 0 demo_invite TT_UAS demo_sent = Ok o demo_sent.
Proof.
  destruct (match_request_first 0 demo_invite (mk_request (cs "INVITE") INVITE (cs "sip:bob@example.com"))
    (demo_via (cs "abcdefgh")) TT_UAS demo_sent) as (o & H & _).
  - exact (proj1 demo_sent_quiet).
  - unfold msg_ok. cbn. splits; eauto.
  - reflexivity.
  - reflexivity.
  - exists o. exact H.
Defined.

(** [find_uac_trans] compares the identifiers of dialogs with [cstring::operator==], which
    looks at the common length only: it returns a transaction of another dialog whose
    identifier begins with the one looked for, and any when that is empty. *)
Theorem prefix_of_dialog_id d x c p t l :
  t_type t = TT_UAC -> is_Some (msg_method (t_msg t)) -> m_cseq (t_msg t) = Some c ->
  t_state t <> TS_ABANDONED -> t_dialog_id t = d ++ x ->
  find_uac_trans_loop d (cseq_num c) ((p, t) :: l) = Some p.
Proof.
  intros Hty [meth Hm] Hc Hst Hd. cbn. rewrite Hty, Hm, Hc, Hd, Z.eqb_refl.
  assert (Heq : cstring_equal (d ++ x) d = true).
  { clear Hd. induction d as [|a d IH]; [by destruct x|]. cbn. by rewrite bool_decide_eq_true_2, IH. }
  rewrite Heq, bool_decide_eq_false_2 by done. done.
Qed.

(** ** Replies *)

(** RFC 3261 17.1.3: the branch of the topmost Via and the method of the CSeq; the code also
    compares the CSeq number. *)
Definition reply_matches (via : sip_via_parm) (cseq : sip_cseq) (t : sip_trans) : Prop :=
  t_type t = TT_UAC /\
  exists t_via t_cseq, m_via_p1 (t_msg t) = Some t_via /\ m_cseq (t_msg t) = Some t_cseq /\
    length (via_branch t_via) = length (via_branch via) /\
    drop MAGIC_BRANCH_LEN (via_branch t_via) = drop MAGIC_BRANCH_LEN (via_branch via) /\
    num_str t_cseq = num_str cseq /\ cseq_method_str t_cseq = cseq_method_str cseq.

Lemma match_reply_cons via cseq p t l :
  is_Some (m_cseq (t_msg t)) ->
  (reply_matches via cseq t /\ match_reply_loop via cseq ((p, t) :: l) = Some (Some p)) \/
  (~ reply_matches via cseq t /\
   match_reply_loop via cseq ((p, t) :: l) = match_reply_loop via cseq l).
Proof.
  intros [c Hc]. cbn [match_reply_loop]. unfold reply_matches. rewrite Hc.
  destruct (decide (t_type t = TT_UAC)) as [Hty|Hty].
  2: { rewrite (bool_decide_eq_false_2 _ Hty). right. by split; [intros []|]. }
  rewrite (bool_decide_eq_true_2 _ Hty). cbn [negb].
  destruct (m_via_p1 (t_msg t)) as [v|]; [|right; split; [by intros (_ & ? & ? & ? & _)|done]].
  destruct (decide (length (via_branch v) = length (via_branch via))) as [Hlen|Hlen].
  2: { rewrite (bool_decide_eq_false_2 _ Hlen). right. split; [|done].
       by intros (_ & v' & c' & [= <-] & _ & ? & _). }
  rewrite (bool_decide_eq_true_2 _ Hlen). cbn [negb].
  destruct (_ && _) eqn:Hb.
  - left. split; [|done]. apply andb_true_iff in Hb as [Hb H3]. apply andb_true_iff in Hb as [H1 H2].
    apply bool_decide_eq_true in H1, H2, H3. split; [done|]. by exists v, c.
  - right. split; [|done]. intros (_ & v' & c' & [= <-] & [= <-] & _ & H1 & H2 & H3).
    unfold cs_eqb in Hb. rewrite !bool_decide_eq_true_2 in Hb by done. done.
Qed.

(** [match_reply] returns the first client transaction of the bucket whose request has
    the branch, the CSeq number and the CSeq method of the reply, and none only when there
    is no such transaction; so a reply that copies the Via and the CSeq of a request that
    is waiting always finds a transaction. *)
Theorem match_reply_first via cseq l :
  (forall p t, (p, t) ∈ l -> is_Some (m_cseq (t_msg t))) ->
  exists o, match_reply_loop via cseq l = Some o /\
    match o with
    | Some p => exists l1 t l2, l = l1 ++ (p, t) :: l2 /\ reply_matches via cseq t /\
                  Forall (fun x => ~ reply_matches via cseq (snd x)) l1
    | None => Forall (fun x => ~ reply_matches via cseq (snd x)) l
    end.
Proof.
  induction l as [|[p t] l IH]; intros Hl; [by exists None|].
  destruct IH as (o & Ho & Hspec). { intros q x Hq. apply (Hl q). by apply elem_of_cons; right. }
  destruct (match_reply_cons via cseq p t l) as [[Hm ->]|[Hm ->]].
  { apply (Hl p). apply elem_of_cons. by left. }
  - exists (Some p). split; [done|]. by exists [], t, l.
  - exists o. split; [done|]. destruct o as [q|]; [|by constructor].
    destruct Hspec as (l1 & t' & l2 & -> & Hm' & Hl1). exists ((p, t) :: l1), t', l2.
    splits; [done|done|by constructor].
Qed.

Lemma match_reply_first_witness :
  exists o, match_reply_loop (demo_via (cs "abcdefgh")) (demo_cseq 1 (cs "1") (cs "INVITE"))
    [(5%nat, new_sip_trans TT_UAC demo_invite)] = Some o.
Proof.
  destruct (match_reply_first (demo_via (cs "abcdefgh")) (demo_cseq 1 (cs "1") (cs "INVITE"))
    [(5%nat, new_sip_trans TT_UAC demo_invite)]) as (o & H & _).
  - intros p t H. apply list_elem_of_singleton in H. injection H as -> ->. eexists. reflexivity.
  - exists o. exact H.
Defined.

(** ** Tags *)

Lemma tag_char_in i : 0 <= i < 64 -> tag_char i ∈ tag_lookup.
Proof.
  intros Hi. unfold tag_char. apply list_elem_of_In, nth_In.
  change (length tag_lookup) with 64%nat. lia.
Qed.

Lemma land_63 x : 0 <= Z.land x 63 < 64.
Proof. change 63 with (Z.ones 6). rewrite Z.land_ones by lia. apply Z.mod_pos_bound. done. Qed.

(** The two operands have no bit in common. *)
Lemma sixth_index hl hh :
  is_u32 hl -> 0 <= hh ->
  Z.land (Z.shiftr hl 30) (Z.land (u32 (Z.shiftl hh 2)) 63) = 0.
Proof.
  intros Hl Hh. apply Z.bits_inj'. intros n Hn. rewrite Z.bits_0, !Z.land_spec, Z.shiftr_spec by done.
  destruct (Z.ltb_spec n 2) as [Hlt|Hge].
  - replace (Z.testbit (u32 (Z.shiftl hh 2)) n) with false; [by rewrite andb_false_r|].
    unfold u32, u32_mod. change 4294967296 with (2 ^ 32). rewrite <- Z.land_ones by lia.
    rewrite Z.land_spec, Z.shiftl_spec by done. rewrite Z.testbit_neg_r by lia. done.
  - replace (Z.testbit hl (n + 30)) with false; [done|]. symmetry.
    destruct (Z.eq_dec hl 0) as [->|Hne]; [apply Z.bits_0|]. apply Z.bits_above_log2; [apply Hl|].
    apply Z.lt_le_trans with 32; [|lia]. apply Z.log2_lt_pow2; [|apply Hl].
    unfold is_u32 in Hl. lia.
Qed.

(** A generated tag (and the branch made of it) has eight characters of the alphabet of
    letters, digits, dot and tilde, whatever the hash values. *)
Theorem compute_tag_wf hl hh :
  0 <= hh -> length (compute_tag hl hh) = 8%nat /\ Forall (fun c => c ∈ tag_lookup) (compute_tag hl hh).
Proof.
  intros Hh. split; [done|]. unfold compute_tag. set (h := u32 _).
  repeat (constructor; [apply tag_char_in|]); try apply land_63; [|constructor].
  rewrite sixth_index; [lia|apply u32_range|]. apply Z.land_nonneg. lia.
Qed.

Lemma compute_tag_wf_witness :
  0 <= 5 /\ length (compute_tag 3 5) = 8%nat.
Proof. split; [lia|]. exact (proj1 (compute_tag_wf 3 5 ltac:(lia))). Defined.

(** The sixth character of every generated tag is the same: the two halves of its index
    are combined with AND where the other characters show that OR was meant, and they have
    no bit in common, so six of the 48 bits of the tag are lost. *)
Theorem compute_tag_sixth hl hh :
  0 <= hh -> compute_tag hl hh !! 5%nat = Some "a"%char.
Proof.
  intros Hh. cbn [compute_tag lookup list_lookup]. rewrite sixth_index; [done|apply u32_range|].
  apply Z.land_nonneg. lia.
Qed.

Lemma compute_tag_sixth_witness : compute_tag 4000000000 65535 !! 5%nat = Some "a"%char.
Proof. exact (compute_tag_sixth 4000000000 65535 ltac:(lia)). Defined.
