(* ===== verification/TransClient.v ===== *)
(** * Behaviour of client transactions

    Abstract state machines of the INVITE and non-INVITE client transactions (RFC 3261
    17.1 with the Accepted state of RFC 6026) and the theorems that the reply and timer
    handlers of TransLayer implement them: the next state, the timer that is armed, the
    messages sent and whether the reply reaches the user agent. *)

From Stdlib Require Import ZArith Lia Ascii String.
From stdpp Require Import base list gmap.
From S2P Require Import Prelude Wheeltimer SipMsg SipTrans TransTable TransLayer TransLogic TransView.
From S2P Require Import TransDemo TransSafety.

Local Open Scope Z_scope.
Local Open Scope bool_scope.

(** ** INVITE client transactions *)



Section Client.
Context (E : env) (b : Z) (t : nat) (s : tl) (tr : sip_trans) (r : sip_request).
Context (HI : Inv s) (Hin : t ∈ bucket s b) (Htr : heap s !! t = Some tr).
Context (Hl : locked s = {[b]}) (Hr : m_u (t_msg tr) = SIP_REQUEST r).

Lemma trans_ok_here : trans_ok tr.
Proof. exact (inv_trans s HI t tr Htr). Qed.

Abbreviation V := (view_of s tr).


Context (m : sip_msg) (rep : sip_reply) (to : cstring).
Context (Hrep : m_u m = SIP_REPLY rep) (Hto : m_to_tag m = Some to).
















(** A re-transmitted 2xx in the Accepted state makes the client send the stored ACK
    again when it carries the tag of the dialog that was acknowledged, is never passed on,
    and changes neither the transaction nor its timers; a 2xx with another tag is
    dropped. *)
Theorem accepted_2xx_reacks :
  req_method r = INVITE -> 200 <= code rep < 300 -> t_state tr = TS_TERMINATED_200 ->
  exists s', update_uac_reply E b t m s = Ok false s' /\ now_is t s' tr (armed s tr) /\
    locked s' = {[b]} /\
    events s' = (if bool_decide (to = t_to_tag tr /\ retr_buf tr <> [])
                 then [EvRetransmit t (retr_buf tr) (retr_addr tr) (t_flags tr)] else [])
                ++ events s.
Proof.
  intros Hm Hc Hst. pose proof trans_ok_here as (_ & _ & _ & Hsock & _).
  assert (H200 : (code rep <? 200) = false) by (apply Z.ltb_ge; lia).
  assert (H300 : (300 <=? code rep) = false) by (apply Z.leb_gt; lia).
  destruct (decide (to = t_to_tag tr)) as [Heq|Hne].
  - assert (Heqb : cs_eqb to (t_to_tag tr) = true) by by apply bool_decide_eq_true_2.
    destruct (retr_buf tr) as [|a l] eqn:Hb.
    + rewrite bool_decide_eq_false_2 by by intros [].
      vcase ltac:(unfold update_uac_reply, uac_invite_2xx, retransmit).
    + rewrite bool_decide_eq_true_2 by done. destruct (Hsock ltac:(done)) as [k Hk].
      vcase ltac:(unfold update_uac_reply, uac_invite_2xx, retransmit).
  - assert (Heqb : cs_eqb to (t_to_tag tr) = false) by by apply bool_decide_eq_false_2.
    rewrite bool_decide_eq_false_2 by by intros [].
    vcase ltac:(unfold update_uac_reply, uac_invite_2xx, retransmit).
Qed.

(** ** Non-INVITE client transactions *)

(** A final reply other than 503 to a non-INVITE request completes the transaction: the
    request is no longer re-transmitted or tried elsewhere; over an unreliable transport
    only timer K is left to absorb re-transmissions, otherwise the transaction is deleted
    at once.  The reply is passed on unless the request was a CANCEL of the layer's own. *)
Theorem non_invite_client_final :
  req_method r <> INVITE -> 200 <= code rep -> code rep <> 503 ->
  (t_state tr = TS_TRYING \/ t_state tr = TS_PROCEEDING) ->
  exists s', update_uac_reply E b t m s = Ok (negb (bool_decide (req_method r = CANCEL))) s' /\
    match m_local_socket m with
    | Some k =>
        if is_reliable k then gone b t s'
        else now_is t s' (set_state TS_COMPLETED tr)
               {[2%nat := started s b t STIMER_K (K_TIMER E)]}
    | None => gone b t s'
    end /\
    locked s' = {[b]} /\ events s' = events s.
Proof.
  intros Hm Hc H503%Z.eqb_neq Hst.
  assert (H200 : (code rep <? 200) = false) by (apply Z.ltb_ge; lia).
  destruct (m_local_socket m) as [k|] eqn:Hk; [destruct (is_reliable k) eqn:Hrel|].
  2: { rewrite <- (armed_K s b t tr _ _ HI Htr). destruct Hst as [Hst|Hst];
       vcase ltac:(unfold update_uac_reply, uac_non_invite, uac_non_invite_final). }
  all: destruct Hst as [Hst|Hst];
    vgone ltac:(unfold update_uac_reply, uac_non_invite, uac_non_invite_final).
Qed.

(** ** Timers of client transactions *)

(** The delay before the [n]-th re-transmission under timer A or E. *)
Definition retry_delay (type n : Z) : Z :=
  if type =? STIMER_A then u32 (Z.shiftl (A_TIMER E) n)
  else
    let d := u32 (Z.shiftl (E_TIMER E) n) in
    if sip_timer_t2 E <? d then sip_timer_t2 E else d.

(** When timer A or E of a client transaction expires for the [n]-th time the request is
    sent again as it is, and the timer is started with the doubled delay (for E no longer
    than T2), counting its expirations above its type; state and other timers stay. *)
Theorem client_retransmits type n :
  t_type tr = TT_UAC -> type = STIMER_A \/ type = STIMER_E ->
  exists s', timer_expired E b t type n s = Ok tt s' /\
    now_is t s' tr
      (<[0%nat := started s b t (Z.lor (Z.shiftl (n + 1) 16) type) (retry_delay type (n + 1))]>
         (armed s tr)) /\
    locked s' = ∅ /\ events s' = EvSend (t_msg tr) (t_flags tr) :: events s.
Proof.
  intros Hty Htype. destruct trans_ok_here as (_ & _ & [k Hk] & _).
  destruct Htype as [-> | ->];
    vcase ltac:(unfold timer_expired, msg_send).
Qed.

(** When no reply has come before timer B (INVITE) or F expires, the user agent gets a
    408 for its request, and what is left is the wait before the destination is
    blacklisted (timer BL), or nothing when blacklisting is disabled; no lock is held while
    the user agent is called. *)
Theorem client_times_out type :
  (type = STIMER_B /\ t_state tr = TS_CALLING) \/
  (type = STIMER_F /\ (t_state tr = TS_TRYING \/ t_state tr = TS_PROCEEDING)) ->
  exists s', timer_expired E b t type 0 s = Ok tt s' /\
    (if has_flag (t_flags tr) TR_FLAG_DISABLE_BL then gone b t s'
     else now_is t s' (set_state TS_TERMINATED tr)
            {[2%nat := started s b t STIMER_BL (BL_TIMER E)]}) /\
    locked s' = ∅ /\
    events s' = EvUaReply (t_dialog_id tr) (error_reply (t_msg tr) 408 (cs "Request Timeout"))
                :: events s.
Proof.
  intros Hcase. destruct (has_flag (t_flags tr) TR_FLAG_DISABLE_BL) eqn:Hbl.
  - destruct Hcase as [[-> Hst]|[-> [Hst|Hst]]]; vgone ltac:(unfold timer_expired, timeout).
  - rewrite <- (armed_BL s b t tr _ _ HI Htr). destruct Hcase as [[-> Hst]|[-> [Hst|Hst]]];
      vcase ltac:(unfold timer_expired, timeout).
Qed.

(** Timers D and L (INVITE) and K end a client transaction: it is deleted with all its
    timers, nothing is sent and nobody is told. *)
Theorem client_wait_ends type n :
  type = STIMER_D \/ type = STIMER_L \/ type = STIMER_K ->
  exists s', timer_expired E b t type n s = Ok tt s' /\ gone b t s' /\ locked s' = ∅ /\
    events s' = events s.
Proof.
  intros [-> | [-> | ->]]; vgone ltac:(unfold timer_expired, timer_terminate).
Qed.

End Client.

(** ** Concrete runs *)

Definition demo_options_sent : tl :=
  state_after (send_request (demo_env []) demo_options demo_targets2 (cs "dlg") 0 0 demo_init).
Definition demo_sent_via : sip_via_parm := demo_via (cs "caaaaaaa").
Definition demo_accepted : tl :=
  state_after (process_rcvd_msg (demo_env [])
    (demo_reply 200 demo_sent_via (cs "INVITE") (Some demo_udp)) demo_sent).

Lemma demo_rpl_ok c via name sock : rcvd_ok (demo_reply c via name sock).
Proof.
  split; [|split]; [unfold msg_ok; cbn; splits; eauto|by intros []|done].
Qed.

Lemma demo_sent_inv : Inv (at_work demo_sent).
Proof.
  apply inv_set_locked.
  exact (proj1 demo_sent_quiet).
Qed.

Lemma demo_options_inv : Inv (at_work demo_options_sent).
Proof.
  apply inv_set_locked. refine (proj1 (call_quiet (demo_env []) (demo_gen_buf [])
    (CSendRequest demo_options demo_targets2 (cs "dlg") 0 0) (tl_init 0) _ (init_quiet 0) _ _));
    [apply demo_sendable|vm_compute; reflexivity].
Qed.

Lemma demo_accepted_inv : Inv (at_work demo_accepted).
Proof.
  apply inv_set_locked. refine (proj1 (call_quiet (demo_env []) (demo_gen_buf [])
    (CReceive (demo_reply 200 demo_sent_via (cs "INVITE") (Some demo_udp))) demo_sent _ demo_sent_quiet _ _));
    [apply demo_rpl_ok|vm_compute; reflexivity].
Qed.

#[local] Hint Resolve demo_sent_inv demo_options_inv demo_accepted_inv : sems.

Definition demo_200 : sip_msg := demo_reply 200 demo_sent_via (cs "INVITE") (Some demo_udp).
Definition demo_ok : sip_msg := demo_reply 200 demo_sent_via (cs "OPTIONS") (Some demo_tcp).


Lemma accepted_2xx_reacks_witness :
  exists s', update_uac_reply (demo_env []) 0 0 demo_200 (at_work demo_accepted) = Ok false s'.
Proof.
  destruct (accepted_2xx_reacks (demo_env []) 0 0 (at_work demo_accepted)
    (demo_trans demo_accepted 0) (demo_req demo_accepted 0) ltac:(demo) ltac:(demo) ltac:(demo)
    ltac:(demo) ltac:(demo) demo_200 (mk_reply 200 (cs "reason")) (cs "totag")
    ltac:(demo) ltac:(demo) ltac:(demo) ltac:(demo) ltac:(demo)) as (s' & H & _).
  exists s'. exact H.
Defined.

Lemma non_invite_client_final_witness :
  exists s' pass, update_uac_reply (demo_env []) 0 0 demo_ok (at_work demo_options_sent) = Ok pass s' /\
    gone 0 0 s'.
Proof.
  destruct (non_invite_client_final (demo_env []) 0 0 (at_work demo_options_sent)
    (demo_trans demo_options_sent 0) (demo_req demo_options_sent 0) ltac:(demo) ltac:(demo)
    ltac:(demo) ltac:(demo) ltac:(demo) demo_ok (mk_reply 200 (cs "reason")) (cs "totag")
    ltac:(demo) ltac:(demo) ltac:(demo) ltac:(demo) ltac:(demo) ltac:(demo)) as (s' & H & Hg & _).
  exists s'. eexists. split; [exact H|exact Hg].
Defined.

Lemma client_retransmits_witness :
  exists s', timer_expired (demo_env []) 0 0 STIMER_A 0 (at_work demo_sent) = Ok tt s'.
Proof.
  destruct (client_retransmits (demo_env []) 0 0 (at_work demo_sent) (demo_trans demo_sent 0)
    ltac:(demo) ltac:(demo) ltac:(demo) ltac:(demo) STIMER_A 0 ltac:(demo) ltac:(demo))
    as (s' & H & _).
  exists s'. exact H.
Defined.

Lemma client_times_out_witness :
  exists s', timer_expired (demo_env []) 0 0 STIMER_B 0 (at_work demo_sent) = Ok tt s'.
Proof.
  destruct (client_times_out (demo_env []) 0 0 (at_work demo_sent) (demo_trans demo_sent 0)
    ltac:(demo) ltac:(demo) ltac:(demo) ltac:(demo) STIMER_B ltac:(demo)) as (s' & H & _).
  exists s'. exact H.
Defined.

Lemma client_wait_ends_witness :
  exists s', timer_expired (demo_env []) 0 0 STIMER_D 0 (at_work demo_accepted) = Ok tt s' /\
    gone 0 0 s'.
Proof.
  destruct (client_wait_ends (demo_env []) 0 0 (at_work demo_accepted) (demo_trans demo_accepted 0)
    ltac:(demo) ltac:(demo) ltac:(demo) ltac:(demo) STIMER_D 0 ltac:(demo)) as (s' & H & Hg & _).
  exists s'. split; [exact H|exact Hg].
Defined.
