(* ===== verification/TransServer.v ===== *)
(** * Behaviour of server transactions

    The abstract machine of the server transactions (RFC 3261 17.2 with the Accepted state
    of RFC 6026) and the theorems that the reply, ACK and timer handlers of TransLayer
    implement it, with the cases in which they do not do what they are meant to. *)

From Stdlib Require Import ZArith Lia Ascii String.
From stdpp Require Import base list gmap.
From S2P Require Import Prelude Wheeltimer SipMsg SipTrans TransTable TransLayer TransLogic TransView.
From S2P Require Import TransDemo TransSafety.

Local Open Scope Z_scope.
Local Open Scope bool_scope.

Section Server.
Context (E : env) (b : Z) (t : nat) (s : tl) (tr : sip_trans) (r : sip_request).
Context (HI : Inv s) (Hin : t ∈ bucket s b) (Htr : heap s !! t = Some tr).
Context (Hl : locked s = {[b]}) (Hr : m_u (t_msg tr) = SIP_REQUEST r).

(** An ACK confirms the transaction: in Completed the reply is no longer re-sent (timers
    G and H are stopped) and the transaction waits in Confirmed for timer I, or is deleted
    on a reliable transport; in Accepted it is deleted; in Confirmed nothing happens; in
    Proceeding, before a final reply, the ACK is refused.  Nothing is sent. *)
Theorem server_ack_refines m k :
  msg_method m = Some ACK -> m_local_socket m = Some k ->
  let '(res, after) :=
    match t_state tr with
    | TS_PROCEEDING => (None, Some (tr, armed s tr))
    | TS_COMPLETED =>
        if is_reliable k then (Some TS_REMOVED, None)
        else (Some TS_CONFIRMED,
              Some (set_state TS_CONFIRMED tr,
                    <[2%nat := started s b t STIMER_I (I_TIMER E)]>
                      (delete 1%nat (delete 0%nat (armed s tr)))))
    | TS_CONFIRMED => (Some TS_CONFIRMED, Some (tr, armed s tr))
    | TS_TERMINATED_200 => (Some TS_REMOVED, None)
    | TS_PROCEEDING_REL => (Some TS_PROCEEDING_REL, Some (tr, armed s tr))
    | _ => (None, Some (tr, armed s tr))
    end in
  exists s', update_uas_request E b t m s = Ok res s' /\
    match after with Some (tr', arm') => now_is t s' tr' arm' | None => gone b t s' end /\
    locked s' = {[b]} /\ events s' = events s.
Proof.
  intros Hm Hk. destruct (t_state tr) eqn:Hst; [..|destruct (is_reliable k) eqn:Hrel| | | | |].
  all: first [vcase ltac:(unfold update_uas_request) | vgone ltac:(unfold update_uas_request) | idtac].
  rewrite <- Hst. vcase ltac:(unfold update_uas_request).
Qed.

(** The delay before the [n]-th re-transmission under timer G. *)
Definition reply_delay (n : Z) : Z :=
  let d := u32 (Z.shiftl (G_TIMER E) n) in if sip_timer_t2 E <? d then sip_timer_t2 E else d.

(** Timer G of a server transaction sends the stored reply again, with a doubled delay
    no longer than T2, and changes nothing else. *)
Theorem server_retransmits n :
  t_type tr = TT_UAS ->
  exists s', timer_expired E b t STIMER_G n s = Ok tt s' /\
    now_is t s' tr
      (<[0%nat := started s b t (Z.lor (Z.shiftl (n + 1) 16) STIMER_G) (reply_delay (n + 1))]>
         (armed s tr)) /\
    locked s' = ∅ /\
    events s' = (match retr_buf tr with
                 | [] => []
                 | buf => [EvRetransmit t buf (retr_addr tr) (t_flags tr)]
                 end) ++ events s.
Proof.
  intros Hty. destruct (inv_trans s HI t tr Htr) as (_ & _ & _ & Hsock & _).
  destruct (retr_buf tr) as [|x l] eqn:Hbuf.
  - vcase ltac:(unfold timer_expired, retransmit).
  - destruct (Hsock ltac:(done)) as [k Hk]. vcase ltac:(unfold timer_expired, retransmit).
Qed.

(** When the ACK of a final reply has not come before timer H expires, the user agent is
    told so, and the transaction is deleted; timers I and J delete it silently. *)
Theorem server_gives_up type n :
  t_type tr = TT_UAS ->
  (type = STIMER_H /\ (t_state tr = TS_COMPLETED \/ t_state tr = TS_TERMINATED_200)) \/
  type = STIMER_I \/ type = STIMER_J ->
  exists s', timer_expired E b t type n s = Ok tt s' /\ gone b t s' /\ locked s' = ∅ /\
    events s' = (if type =? STIMER_H then [EvUaTimeout noACK t] else []) ++ events s.
Proof.
  intros Hty [[-> [Hst|Hst]]|[-> | ->]];
    vgone ltac:(unfold timer_expired, uas_timer_H, timer_terminate).
Qed.

(** Timer H in Proceeding-reliable reports the missing PRACK but stops only itself:
    timer G stays armed, and the unacknowledged reply goes on being re-transmitted, which
    is what the comment at that place says it ends. *)
Theorem prack_timeout_keeps_G n :
  t_type tr = TT_UAS -> t_state tr = TS_PROCEEDING_REL ->
  exists s', timer_expired E b t STIMER_H n s = Ok tt s' /\
    now_is t s' tr (delete 1%nat (armed s tr)) /\ locked s' = ∅ /\
    events s' = EvUaTimeout noPRACK t :: events s.
Proof.
  intros Hty Hst. destruct (inv_trans s HI t tr Htr) as (_ & _ & _ & _ & Hrel).
  specialize (Hrel Hst). destruct (retr_buf tr) as [|x l] eqn:Hbuf; [done|].
  vcase ltac:(unfold timer_expired, uas_timer_H).
Qed.

(** A request that comes again is answered by the layer alone: the last reply is sent
    again when there is one, the user agent does not see it, no transaction is made and
    the one there is stays as it was. *)
Theorem retransmission_absorbed m :
  m_u m = SIP_REQUEST r -> match_request b m TT_UAS s = Ok (Some t) s ->
  exists s', process_request E b m r s = Ok tt s' /\ now_is t s' tr (armed s tr) /\
    locked s' = ∅ /\
    events s' = (match retr_buf tr with
                 | [] => []
                 | buf => [EvRetransmit t buf (retr_addr tr) (t_flags tr)]
                 end) ++ events s.
Proof.
  intros Hm Hmatch. unfold process_request, bind at 1. rewrite Hmatch.
  destruct (inv_trans s HI t tr Htr) as (_ & _ & _ & Hsock & _).
  destruct (retr_buf tr) as [|x l] eqn:Hbuf.
  - vcase ltac:(unfold retransmit).
  - destruct (Hsock ltac:(done)) as [k Hk]. vcase ltac:(unfold retransmit).
Qed.

End Server.

Definition no_rseq (h : rel_hdr) : Prop := match h with H_RSEQ (Some _) => False | _ => True end.

Lemma scan_rseq_none l rel : Forall no_rseq l -> scan_rseq l rel 0 None = None.
Proof.
  intros H. revert rel. induction H as [|h l Hh Hl IH]; intros rel; [done|].
  destruct h as [[mask|]|[n|]]; cbn; try done; destruct rel; try apply IH.
  rewrite andb_false_r. apply IH.
Qed.

(** [send_reply] looks for the RSeq of a reliable provisional reply in the headers of the
    request.  A request carries none, so whatever reply the user agent gives, Require
    100rel or not, the transaction goes to Proceeding with no timer to re-transmit the
    reply and with no RSeq that a PRACK could match. *)
Theorem reliable_1xx_not_tracked E b t s tr r k via c to d buf dst :
  Inv s -> t ∈ bucket s b -> heap s !! t = Some tr -> locked s = ∅ ->
  m_u (t_msg tr) = SIP_REQUEST r -> m_local_socket (t_msg tr) = Some k ->
  m_via_p1 (t_msg tr) = Some via ->
  Forall no_rseq (m_rel (t_msg tr)) -> last_rseq tr = 0 ->
  reply_status tr < 200 -> c < 200 -> send_ok E (sends s) = true ->
  exists s', send_reply E b t c to d buf (Some dst) s = Ok true s' /\
    (exists tr', now_is t s' tr' (armed s tr) /\ t_state tr' = TS_PROCEEDING /\
                 last_rseq tr' = 0 /\ retr_buf tr' = buf) /\
    locked s' = ∅ /\ events s' = EvReply t c buf dst :: events s.
Proof.
  intros HI Hin Htr Hl Hr Hk Hvia Hrel Hrs Hst%Z.leb_gt Hc Hok.
  pose proof (scan_rseq_none _ false Hrel) as Hscan.
  assert (H200 : (200 <=? c) = false) by (apply Z.leb_gt; lia).
  assert (H300 : (300 <=? c) = false) by (apply Z.leb_gt; lia).
  assert (Hrs0 : (last_rseq tr =? 0) = true) by by apply Z.eqb_eq.
  edestruct (run_viewed (send_reply E b t c to d buf (Some dst)) b t s tr) as (s' & H1 & H2 & H3);
    [exact HI|exact Hin|exact Htr|unfold send_reply, update_uas_reply; vbranch|].
  destruct H3 as (_ & H3 & _ & _ & H4). exists s'. splits; [exact H1| |exact H3|exact H4].
  eexists. split; [exact H2|]. vsimp. destruct (t_dialog_id tr); by splits.
Qed.

(** ** The server machine *)

(** The states of the server transactions of RFC 3261 17.2, of an INVITE (Proceeding,
    Completed, Confirmed, and Accepted of RFC 6026, in which this layer re-sends the 2xx
    itself) and of other requests (Trying, Proceeding, Completed), with the last reply. *)
Inductive server_state := STrying | SProceeding | SCompleted | SConfirmed | SAccepted.

#[export] Instance server_state_eq_dec : EqDecision server_state.
Proof. solve_decision. Defined.

Record server := mk_server {
  sv_state : server_state;
  sv_last : option (cstring * sockaddr_storage)
}.

(** What can happen to a transaction: the user agent replies, the request comes again, its
    ACK comes, a timer expires for the [n]-th time. *)
Inductive server_event :=
| SReply (c : Z) (to_tag dialog_id buf : cstring) (dst : sockaddr_storage)
| SAgain (m : sip_msg)
| SAck (m : sip_msg)
| STimer (type n : Z).

(** What the transaction lets out. *)
Inductive server_out :=
| OReply (c : Z) (buf : cstring) (dst : sockaddr_storage)
| OResend (buf : cstring) (dst : sockaddr_storage)
| OAck (m : sip_msg)
| ONoAck.

(** The timers that run in a state, by slot. *)
Definition server_timers (E : env) (invite reliable : bool) (st : server_state) : list (nat * Z * Z) :=
  let GH := (if reliable then [] else [(0%nat, STIMER_G, G_TIMER E)]) ++ [(1%nat, STIMER_H, H_TIMER E)] in
  match st with
  | STrying | SProceeding => []
  | SCompleted => if invite then GH else [(0%nat, STIMER_J, J_TIMER E)]
  | SAccepted => GH
  | SConfirmed => [(2%nat, STIMER_I, I_TIMER E)]
  end.

Definition resend (sv : server) : list server_out :=
  match sv_last sv with Some (buf, dst) => [OResend buf dst] | None => [] end.

(** The machine: the next state, [None] when the transaction is over, and what comes out. *)
Definition server_step (invite reliable : bool) (sv : server) (ev : server_event)
  : option server * list server_out :=
  match ev, sv_state sv with
  | SReply c _ _ buf dst, (STrying | SProceeding) =>
      let next st := Some (mk_server st (Some (buf, dst))) in
      (if c <? 200 then next SProceeding
       else if invite then next (if c <? 300 then SAccepted else SCompleted)
       else if reliable then None
       else next SCompleted, [OReply c buf dst])
  | SReply _ _ _ _ _, _ => (Some sv, [])
  | SAgain _, _ => (Some sv, resend sv)
  | SAck _, SCompleted =>
      (if reliable then None else Some (mk_server SConfirmed (sv_last sv)), [])
  | SAck m, SAccepted => (None, [OAck m])
  | SAck _, _ => (Some sv, [])
  | STimer type _, _ =>
      if type =? STIMER_G then (Some sv, resend sv)
      else if type =? STIMER_H then (None, [ONoAck])
      else (None, [])
  end.

(** *** The machine and the layer *)

Section Refinement.
Context (E : env) (b : Z) (t : nat) (r : sip_request) (k : trsp_socket).

Definition conc_state (st : server_state) : trans_state :=
  match st with
  | STrying => TS_TRYING
  | SProceeding => TS_PROCEEDING
  | SCompleted => TS_COMPLETED
  | SConfirmed => TS_CONFIRMED
  | SAccepted => TS_TERMINATED_200
  end.

Definition answered (st : server_state) : bool :=
  match st with STrying | SProceeding => false | _ => true end.

Definition conc_out (flags : Z) (o : server_out) : event :=
  match o with
  | OReply c buf dst => EvReply t c buf dst
  | OResend buf dst => EvRetransmit t buf dst flags
  | OAck m => EvUaRequest None m
  | ONoAck => EvUaTimeout noACK t
  end.

Abbreviation invite := (bool_decide (req_method r = INVITE)).
Abbreviation reliable := (is_reliable k).

Definition kind (x : trans_timer) : Z := Z.land (tt_type x) 65535.

Definition stored (o : option (cstring * sockaddr_storage)) (tr : sip_trans) : Prop :=
  match o with
  | Some (buf, dst) => retr_buf tr = buf /\ buf <> [] /\ retr_addr tr = dst /\ retr_socket tr = Some k
  | None => retr_buf tr = []
  end.

(** The transaction [t], whose request [r] came on the socket [k] and carries no RSeq, is in
    the state [sv] of the machine: the state and the final reply that was given, the reply
    that is kept for re-transmission, and the timers that run. *)
Definition server_is (sv : server) (tr : sip_trans) (arm : gmap nat trans_timer) : Prop :=
  t_type tr = TT_UAS /\ m_u (t_msg tr) = SIP_REQUEST r /\ m_local_socket (t_msg tr) = Some k /\
  Forall no_rseq (m_rel (t_msg tr)) /\ last_rseq tr = 0 /\
  t_state tr = conc_state (sv_state sv) /\ (200 <=? reply_status tr) = answered (sv_state sv) /\
  stored (sv_last sv) tr /\
  kind <$> arm = list_to_map (fst <$> server_timers E invite reliable (sv_state sv)).

Definition server_rel (sv : server) (s : tl) : Prop :=
  Inv s /\ locked s = ∅ /\ t ∈ bucket s b /\
  exists tr, heap s !! t = Some tr /\ server_is sv tr (armed s tr).

(** The handler of an event, as the layer runs it. *)
Definition server_do (ev : server_event) : M unit :=
  match ev with
  | SReply c to d buf dst => let* _ := send_reply E b t c to d buf (Some dst) in ret tt
  | SAgain m | SAck m =>
      match m_u m with SIP_REQUEST r' => lock b ;;; process_request E b m r' | _ => ret tt end
  | STimer type n => lock b ;;; timer_expired E b t type n
  end.

(** The inputs: a reply is sent, a message is matched to the transaction, a timer is one that
    runs. *)
Definition server_input (sv : server) (ev : server_event) (s : tl) : Prop :=
  match ev with
  | SReply _ _ _ buf _ => buf <> [] /\ send_ok E (sends s) = true
  | SAgain m => m_u m = SIP_REQUEST r /\ rcvd_ok m /\
      match_request b m TT_UAS (set_locked {[b]} s) = Ok (Some t) (set_locked {[b]} s)
  | SAck m => (exists r', m_u m = SIP_REQUEST r' /\ req_method r' = ACK) /\ req_method r = INVITE /\
      rcvd_ok m /\ (exists k', m_local_socket m = Some k' /\ is_reliable k' = reliable) /\
      match_request b m TT_UAS (set_locked {[b]} s) = Ok (Some t) (set_locked {[b]} s)
  | STimer type _ => exists i d, (i, type, d) ∈ server_timers E invite reliable (sv_state sv)
  end.

(** *** Each event is a step of the machine *)

(** The timers that [server_timers] lists, started now. *)
Definition all_started (s : tl) (l : list (nat * Z * Z)) : gmap nat trans_timer :=
  list_to_map ((fun x : nat * Z * Z => let '(i, ty, d) := x in (i, started s b t ty d)) <$> l).

(** The layer does on [s] what the machine says: [sv] is the state before. *)
Definition server_does (sv : server) (ev : server_event) (s : tl) : Prop :=
  let '(o, outs) := server_step invite reliable sv ev in
  exists s' flags, server_do ev s = Ok tt s' /\ locked s' = ∅ /\ Inv s' /\
    events s' = (conc_out flags <$> outs) ++ events s /\
    match o with
    | None => gone b t s'
    | Some sv' =>
        server_rel sv' s' /\
        exists tr', heap s' !! t = Some tr' /\
          (sv_state sv' <> sv_state sv ->
           armed s' tr' = all_started s (server_timers E invite reliable (sv_state sv')))
    end.

Context (Hgen : forall m, gen_buf E m <> []).

Lemma do_safe sv ev s s' :
  server_rel sv s -> server_input sv ev s -> server_do ev s = Ok tt s' -> Inv s' /\ locked s' = ∅.
Proof.
  intros (HI & Hl & Hin & tr & Htr & Hsv) Hinp Hdo. assert (HQ : Quiet s) by done.
  assert (Hrcv : forall m r', m_u m = SIP_REQUEST r' -> rcvd_ok m ->
            (lock b ;;; process_request E b m r') s = Ok tt s' -> Inv s' /\ locked s' = ∅).
  { intros m r' Hm Hok Hr. pose proof (step_lock_clean b s (fun _ => process_request E b m r') (fun _ => Isolated s)) as H.
    specialize (H (h_process_request E s b m r' Hok Hm) s (quiet_clean s HQ)). rewrite Hr in H.
    destruct H as (t' & ? & ? & _). done. }
  destruct ev as [c to d buf dst|m|m|type n]; cbn in *.
  - destruct (run_call_safe E Hgen (CSendReply b t c to d buf (Some dst)) s HQ (proj1 Hinp)) as (s1 & H1 & t' & ? & ? & _).
    cbn in H1. rewrite Hdo in H1. injection H1 as <-. done.
  - destruct Hinp as (Hm & Hok & _). rewrite Hm in Hdo. eauto.
  - destruct Hinp as ((r' & Hm & _) & _ & Hok & _). rewrite Hm in Hdo. eauto.
  - assert (Hf : exists i, fetch_timer type = Some i).
    { destruct Hinp as (i & d & H). destruct (sv_state sv); cbn in H; try destruct invite; try destruct reliable; cbn in H;
        repeat (apply elem_of_cons in H as [[= -> -> ->]|H]); try (by eexists); by apply elem_of_nil in H. }
    destruct Hf as [i Hi].
    assert (HL : Live s b t ∅ (fun _ => True) s) by (unfold Live; split_and!; eauto using frame_refl).
    pose proof (step_lock s b t (fun _ => True) (fun _ => timer_expired E b t type n) (fun _ => Done s t ∅)) as H.
    specialize (H (h_timer_expired E s b t type n i Hi) s HL). rewrite Hdo in H. by destruct H as (? & ? & _).
Qed.

Lemma server_is_timers sv tr tms arm : server_is sv tr arm -> server_is sv (set_timers tms tr) arm.
Proof. intros H. exact H. Qed.

(** A symbolic run of the handler, or of the part [h] that is left once the bucket is locked,
    that ends in the state [sv'] of the machine. *)
Lemma server_result_from sv ev s tr sv' outs v' flags L (h : M unit) :
  server_rel sv s -> server_input sv ev s -> heap s !! t = Some tr ->
  server_step invite reliable sv ev = (Some sv', outs) ->
  server_do ev s = h (set_locked L s) ->
  hoare (Viewed b t (vset_locked L (view_of s tr))) h (fun a s' => a = tt /\ Viewed b t v' s') ->
  server_is sv' (v_tr v') (v_armed v') -> v_events v' = (conc_out flags <$> outs) ++ events s ->
  (sv_state sv' <> sv_state sv ->
   v_armed v' = all_started s (server_timers E invite reliable (sv_state sv'))) ->
  server_does sv ev s.
Proof.
  intros Hrel Hinp Htr Hstep Hh0 Hrun Hsv Hev Hst. unfold server_does. rewrite Hstep.
  pose proof Hrel as (HI & _ & Hin & _).
  specialize (Hrun (set_locked L s) (viewed_of b t (set_locked L s) tr (inv_set_locked L s HI) Hin Htr)).
  rewrite <- Hh0 in Hrun. destruct (server_do ev s) as [[] s'|] eqn:Hdo; [|done].
  destruct Hrun as [_ ((Hb & _) & (_ & _ & _ & _ & He) & tms & Hh & Harm & _)].
  destruct (do_safe sv ev s s' Hrel Hinp Hdo) as [HI' Hl'].
  exists s', flags. splits; try done; [congruence| |].
  - unfold server_rel. splits; try done. exists (set_timers tms (v_tr v')). split; [done|].
    unfold armed. cbn [timers set_timers]. by rewrite Harm.
  - exists (set_timers tms (v_tr v')). split; [done|]. intros Hne. unfold armed. cbn [timers set_timers].
    rewrite Harm. auto.
Qed.

Lemma set_locked_same s : set_locked (locked s) s = s.
Proof. by destruct s. Qed.

Lemma server_result sv ev s tr sv' outs v' flags :
  server_rel sv s -> server_input sv ev s -> heap s !! t = Some tr ->
  server_step invite reliable sv ev = (Some sv', outs) ->
  hoare (Viewed b t (view_of s tr)) (server_do ev) (fun a s' => a = tt /\ Viewed b t v' s') ->
  server_is sv' (v_tr v') (v_armed v') -> v_events v' = (conc_out flags <$> outs) ++ events s ->
  (sv_state sv' <> sv_state sv ->
   v_armed v' = all_started s (server_timers E invite reliable (sv_state sv'))) ->
  server_does sv ev s.
Proof.
  intros. eapply (server_result_from sv ev s tr sv' outs v' flags (locked s) (server_do ev)); try done.
  by rewrite set_locked_same.
Qed.

(** A symbolic run that deletes the transaction. *)
Lemma server_over_from sv ev s tr outs v' flags L (h : M unit) :
  server_rel sv s -> server_input sv ev s -> heap s !! t = Some tr ->
  server_step invite reliable sv ev = (None, outs) ->
  server_do ev s = h (set_locked L s) ->
  hoare (Viewed b t (vset_locked L (view_of s tr))) h (fun a s' => a = tt /\ Gone b t v' s') ->
  v_events v' = (conc_out flags <$> outs) ++ events s -> server_does sv ev s.
Proof.
  intros Hrel Hinp Htr Hstep Hh0 Hrun Hev. unfold server_does. rewrite Hstep.
  pose proof Hrel as (HI & _ & Hin & _).
  destruct (run_removed h b t (set_locked L s) tr tt v' (inv_set_locked L s HI) Hin Htr Hrun) as (s' & Hdo & Hg & _ & He).
  rewrite <- Hh0 in Hdo. destruct (do_safe sv ev s s' Hrel Hinp Hdo) as [HI' Hl'].
  exists s', flags. splits; try done. congruence.
Qed.

Lemma server_over sv ev s tr outs v' flags :
  server_rel sv s -> server_input sv ev s -> heap s !! t = Some tr ->
  server_step invite reliable sv ev = (None, outs) ->
  hoare (Viewed b t (view_of s tr)) (server_do ev) (fun a s' => a = tt /\ Gone b t v' s') ->
  v_events v' = (conc_out flags <$> outs) ++ events s -> server_does sv ev s.
Proof.
  intros. eapply (server_over_from sv ev s tr outs v' flags (locked s) (server_do ev)); try done.
  by rewrite set_locked_same.
Qed.

(** Timers that were started are of the kinds that run. *)
Lemma kinds_started s l :
  Forall (fun x : nat * Z * Z => Z.land x.1.2 65535 = x.1.2) l ->
  kind <$> all_started s l = list_to_map (fst <$> l).
Proof.
  intros Hl. unfold all_started. rewrite <- list_to_map_fmap. f_equal.
  induction Hl as [|[[i ty] d] l Hx Hl IH]; cbn; [done|]. cbn in Hx, IH. unfold kind at 1. cbn. by rewrite Hx, IH.
Qed.

Lemma server_timers_kinds st :
  Forall (fun x : nat * Z * Z => Z.land x.1.2 65535 = x.1.2) (server_timers E invite reliable st).
Proof. unfold server_timers. destruct st, invite, reliable; repeat constructor. Qed.

Lemma kinds_none (arm : gmap nat trans_timer) : kind <$> arm = ∅ -> arm = ∅.
Proof. apply fmap_empty_inv. Qed.

Ltac vdone := unfold all_started, server_timers; repeat case_bool_decide; try done.

(** The end of a symbolic run, whether the transaction knew its dialog or not. *)
Ltac closing :=
  vsimp;
  match goal with
  | tr : sip_trans |- _ =>
      destruct (t_dialog_id tr) eqn:?; vsimp;
      first [done
            | by eexists
            | by exists (t_dialog_id tr)
            | match goal with H : armed _ tr = ∅ |- _ => rewrite H end; vdone ]
  end.

Lemma reply_step sv s c to d buf dst :
  server_rel sv s -> server_input sv (SReply c to d buf dst) s ->
  server_does sv (SReply c to d buf dst) s.
Proof.
  intros Hrel Hinp. pose proof Hrel as (HI & Hl & Hin & tr & Htr & Hsv).
  pose proof Hsv as (Hty & Hr & Hk & Hnr & Hrs & Hst & Hrst & Hlast & Harm).
  destruct (inv_trans s HI t tr Htr) as (([via Hvia] & _) & _). destruct Hinp as [Hbuf Hok].
  destruct (answered (sv_state sv)) eqn:Hans.
  { assert (Hstep : server_step invite reliable sv (SReply c to d buf dst) = (Some sv, [])).
    { unfold server_step. destruct (sv_state sv); done. }
    eapply (server_result sv _ s tr sv [] _ 0); [done|done|done|exact Hstep| | | |].
    - unfold server_do, send_reply. vbranch.
    - vsimp. exact Hsv.
    - vsimp. done.
    - done. }
  assert (Hscan : scan_rseq (m_rel (t_msg tr)) false 0 None = None) by by apply scan_rseq_none.
  assert (Hrs0 : (last_rseq tr =? 0) = true) by by apply Z.eqb_eq.
  assert (Hnone : armed s tr = ∅).
  { apply kinds_none. rewrite Harm. by destruct (sv_state sv). }
  assert (H200 : (200 <=? c) = negb (c <? 200)) by apply Z.leb_antisym.
  assert (H300 : (300 <=? c) = negb (c <? 300)) by apply Z.leb_antisym.
  assert (Hstep : server_step invite reliable sv (SReply c to d buf dst) =
    (if c <? 200 then Some (mk_server SProceeding (Some (buf, dst)))
     else if invite then Some (mk_server (if c <? 300 then SAccepted else SCompleted) (Some (buf, dst)))
     else if reliable then None else Some (mk_server SCompleted (Some (buf, dst))), [OReply c buf dst])).
  { unfold server_step. destruct (sv_state sv); done. }
  assert (Hne : sv_state sv = STrying \/ sv_state sv = SProceeding) by (destruct (sv_state sv); auto; done).
  assert (Hkinds : forall st, kind <$> all_started s (server_timers E invite reliable st)
             = list_to_map (fst <$> server_timers E invite reliable st))
    by (intros; apply kinds_started, server_timers_kinds).
  (* A reply that leaves the transaction in the state [st]. *)
  assert (Hnext : forall st v',
    server_step invite reliable sv (SReply c to d buf dst) =
      (Some (mk_server st (Some (buf, dst))), [OReply c buf dst]) ->
    (200 <=? c) = answered st ->
    hoare (Viewed b t (view_of s tr)) (server_do (SReply c to d buf dst))
      (fun a s' => a = tt /\ Viewed b t v' s') ->
    v_events v' = EvReply t c buf dst :: events s ->
    v_armed v' = all_started s (server_timers E invite reliable st) ->
    (exists did, v_tr v' = set_dialog_id did (set_state (conc_state st) (set_reply_status c
       (set_retr buf dst (Some k) (set_to_tag (reply_to_tag (t_msg tr) to c (t_to_tag tr))
         (set_timers ∅ tr)))))) ->
    server_does sv (SReply c to d buf dst) s).
  { intros st v' Hs Hc Hrun He Ha (did & Ht).
    eapply (server_result sv _ s tr _ _ v' 0); [done|by split|done|exact Hs|exact Hrun| |done|by intros _].
    rewrite Ht, Ha. unfold server_is. vsimp. splits; done. }
  destruct (c <? 200) eqn:Hc2; cbn [negb] in H200.
  { assert (Hc3 : (c <? 300) = true) by (apply Z.ltb_lt; apply Z.ltb_lt in Hc2; lia).
    rewrite Hc3 in H300. cbn [negb] in H300.
    eapply Hnext; [exact Hstep|done| | | |].
    - unfold server_do, send_reply, update_uas_reply. vbranch.
    - closing.
    - closing.
    - closing. }
  destruct (decide (req_method r = INVITE)) as [Hm|Hm].
  - assert (Hinv : invite = true) by by apply bool_decide_eq_true_2.
    destruct (is_reliable k) eqn:Hrel'; destruct (c <? 300) eqn:Hc3; cbn [negb] in H300;
      (eapply Hnext; [rewrite Hstep, Hinv; reflexivity|done| | | |]; [unfold server_do, send_reply, update_uas_reply; vbranch|closing..]).
  - assert (Hinv : invite = false) by by apply bool_decide_eq_false_2.
    destruct (is_reliable k) eqn:Hrel'; destruct (c <? 300) eqn:Hc3; cbn [negb] in H300.
    1,2: eapply (server_over sv _ s tr _ _ 0); [done|by split|done|rewrite Hrel', Hstep, Hinv; reflexivity| |]; [unfold server_do, send_reply, update_uas_reply; vbranch|done].
    1,2: eapply Hnext; [rewrite Hstep, Hinv; reflexivity|done| | | |]; [unfold server_do, send_reply, update_uas_reply; vbranch|closing..].
Qed.

Lemma lock_when_free (h : M unit) s : locked s = ∅ -> (lock b ;;; h) s = h (set_locked {[b]} s).
Proof.
  intros Hl. unfold bind, lock. rewrite Hl, decide_False by apply not_elem_of_empty.
  by rewrite union_empty_r_L.
Qed.

Lemma trans_method_eq s tr :
  heap s !! t = Some tr -> m_u (t_msg tr) = SIP_REQUEST r -> trans_method t s = Ok (req_method r) s.
Proof.
  intros Htr Hr. unfold trans_method, bind, get_trans, trans_request. rewrite Htr, Hr. done.
Qed.

(** The stored reply, sent again. *)
Lemma again_step sv s m :
  server_rel sv s -> server_input sv (SAgain m) s -> server_does sv (SAgain m) s.
Proof.
  intros Hrel Hinp. pose proof Hrel as (HI & Hl & Hin & tr & Htr & Hsv).
  pose proof Hsv as (Hty & Hr & Hk & Hnr & Hrs & Hst & Hrst & Hlast & Harm).
  pose proof Hinp as (Hm & Hok & Hmatch).
  assert (Hdo : server_do (SAgain m) s = (retransmit t ;;; unlock b) (set_locked {[b]} s)).
  { cbn [server_do]. rewrite Hm, lock_when_free by done. unfold process_request, bind at 1. rewrite Hmatch.
    unfold bind at 1. rewrite (trans_method_eq (set_locked {[b]} s) tr Htr Hr).
    by rewrite bool_decide_eq_true_2 by done. }
  assert (Hstep : server_step invite reliable sv (SAgain m) = (Some sv, resend sv)) by done.
  unfold resend in Hstep. unfold stored in Hlast. destruct (sv_last sv) as [[buf dst]|] eqn:Hls.
  - destruct Hlast as (Hb & Hbn & Ha & Hsk). destruct buf as [|x l]; [done|].
    eapply (server_result_from sv _ s tr _ _ _ (t_flags tr) {[b]}); [done|done|done|exact Hstep|exact Hdo| | | |done].
    + unfold retransmit. vbranch.
    + vsimp. exact Hsv.
    + vsimp. cbn. by rewrite Ha.
  - eapply (server_result_from sv _ s tr _ _ _ 0 {[b]}); [done|done|done|exact Hstep|exact Hdo| | | |done].
    + unfold retransmit. vbranch.
    + vsimp. exact Hsv.
    + vsimp. done.
Qed.

Lemma ack_step sv s m :
  server_rel sv s -> server_input sv (SAck m) s -> server_does sv (SAck m) s.
Proof.
  intros Hrel Hinp. pose proof Hrel as (HI & Hl & Hin & tr & Htr & Hsv).
  pose proof Hsv as (Hty & Hr & Hk & Hnr & Hrs & Hst & Hrst & Hlast & Harm).
  pose proof Hinp as ((r' & Hm & Hack) & Hinv & Hok & (k' & Hk' & Hk'r) & Hmatch).
  assert (Hmm : msg_method m = Some ACK) by (unfold msg_method; by rewrite Hm, Hack).
  set (h := let* st := state_of t in
            let* res := update_uas_request E b t m in
            match res with
            | None => unlock b
            | Some _ => unlock b ;;; if decide (st = TS_TERMINATED_200) then emit (EvUaRequest None m) else ret tt
            end).
  assert (Hdo : server_do (SAck m) s = h (set_locked {[b]} s)).
  { cbn [server_do]. rewrite Hm, lock_when_free by done. unfold process_request, bind at 1. rewrite Hmatch.
    unfold bind at 1. rewrite (trans_method_eq (set_locked {[b]} s) tr Htr Hr).
    rewrite bool_decide_eq_false_2; [done|congruence]. }
  assert (Hi : invite = true) by by apply bool_decide_eq_true_2.
  destruct (sv_state sv) eqn:Hs; cbn [conc_state answered] in Hst, Hrst.
  - eapply (server_result_from sv _ s tr sv [] _ 0 {[b]} h); [done|done|done|unfold server_step; by rewrite Hs|exact Hdo| | | |done];
      [unfold h, update_uas_request; vbranch|vsimp; exact Hsv|done].
  - eapply (server_result_from sv _ s tr sv [] _ 0 {[b]} h); [done|done|done|unfold server_step; by rewrite Hs|exact Hdo| | | |done];
      [unfold h, update_uas_request; vbranch|vsimp; exact Hsv|done].
  - destruct (is_reliable k) eqn:Hrk.
    + eapply (server_over_from sv _ s tr [] _ 0 {[b]} h); [done|done|done|unfold server_step; by rewrite Hs, Hrk|exact Hdo| |];
        [unfold h, update_uas_request; vbranch|done].
    + assert (Hnone : delete 1%nat (delete 0%nat (armed s tr)) = ∅).
      { apply kinds_none. rewrite !fmap_delete, Harm. unfold server_timers. by rewrite Hi. }
      eapply (server_result_from sv _ s tr (mk_server SConfirmed (sv_last sv)) [] _ 0 {[b]} h);
        [done|done|done|unfold server_step; by rewrite Hs, Hrk|exact Hdo| | | |].
      * unfold h, update_uas_request. vbranch.
      * vsimp. rewrite Hnone. unfold server_is. vsimp. splits; done.
      * done.
      * vsimp. by rewrite Hnone.
  - eapply (server_result_from sv _ s tr sv [] _ 0 {[b]} h); [done|done|done|unfold server_step; by rewrite Hs|exact Hdo| | | |done];
      [unfold h, update_uas_request; vbranch|vsimp; exact Hsv|done].
  - eapply (server_over_from sv _ s tr [OAck m] _ 0 {[b]} h); [done|done|done|unfold server_step; by rewrite Hs|exact Hdo| |];
      [unfold h, update_uas_request; vbranch|done].
Qed.

Lemma kind_retry n ty : Z.land (Z.lor (Z.shiftl n 16) ty) 65535 = Z.land ty 65535.
Proof.
  rewrite Z.land_lor_distr_l. change 65535 with (Z.ones 16). rewrite Z.land_ones by lia.
  rewrite Z.shiftl_mul_pow2, Z_mod_mult by lia. by rewrite Z.lor_0_l.
Qed.

Lemma timer_step sv s type n :
  server_rel sv s -> server_input sv (STimer type n) s -> server_does sv (STimer type n) s.
Proof.
  intros Hrel Hinp. pose proof Hrel as (HI & Hl & Hin & tr & Htr & Hsv).
  pose proof Hsv as (Hty & Hr & Hk & Hnr & Hrs & Hst & Hrst & Hlast & Harm).
  assert (Hdo : server_do (STimer type n) s = timer_expired E b t type n (set_locked {[b]} s)) by by apply lock_when_free.
  assert (Hcase : (type = STIMER_G /\ (kind <$> armed s tr) !! 0%nat = Some STIMER_G) \/
    (type = STIMER_H /\ (t_state tr = TS_COMPLETED \/ t_state tr = TS_TERMINATED_200)) \/
    type = STIMER_I \/ type = STIMER_J).
  { destruct Hinp as (i & d & H). destruct (sv_state sv) eqn:Hs; cbn in H, Hst, Harm; try (by apply elem_of_nil in H).
    all: rewrite ?Harm; try destruct invite; try destruct reliable; cbn in H;
      repeat (apply elem_of_cons in H as [[= -> -> ->]|H]); try (by apply elem_of_nil in H); auto 6. }
  destruct Hcase as [[-> Hg]|[[-> Hg]|Hg]].
  - assert (Hkeep : kind <$> <[0%nat := started s b t (Z.lor (Z.shiftl (n + 1) 16) STIMER_G) (reply_delay E (n + 1))]> (armed s tr)
                    = kind <$> armed s tr).
    { rewrite fmap_insert. apply insert_id. rewrite Hg. unfold kind. cbn. by rewrite kind_retry. }
    assert (Hstep : server_step invite reliable sv (STimer STIMER_G n) = (Some sv, resend sv)) by done.
    unfold resend in Hstep. unfold stored in Hlast. destruct (sv_last sv) as [[buf dst]|] eqn:Hls.
    + destruct Hlast as (Hb & Hbn & Ha & Hsk). destruct buf as [|x l]; [done|].
      eapply (server_result_from sv _ s tr _ _ _ (t_flags tr) {[b]}); [done|done|done|exact Hstep|exact Hdo| | | |done].
      * unfold timer_expired, retransmit. vbranch.
      * vsimp. unfold server_is. vsimp. splits; try done; [unfold stored; by rewrite Hls|]. rewrite <- Harm. exact Hkeep.
      * vsimp. cbn. by rewrite Ha.
    + eapply (server_result_from sv _ s tr _ _ _ 0 {[b]}); [done|done|done|exact Hstep|exact Hdo| | | |done].
      * unfold timer_expired, retransmit. vbranch.
      * vsimp. unfold server_is. vsimp. splits; try done; [unfold stored; by rewrite Hls|]. rewrite <- Harm. exact Hkeep.
      * done.
  - destruct Hg as [Hg|Hg];
      (eapply (server_over_from sv _ s tr [ONoAck] _ 0 {[b]}); [done|done|done|done|exact Hdo| |]; 
       [unfold timer_expired, uas_timer_H; vbranch|done]).
  - destruct Hg as [-> | ->];
      (eapply (server_over_from sv _ s tr [] _ 0 {[b]}); [done|done|done|done|exact Hdo| |];
       [unfold timer_expired, timer_terminate; vbranch|done]).
Qed.

Lemma server_simulates sv ev s :
  server_rel sv s -> server_input sv ev s -> server_does sv ev s.
Proof. destruct ev; [apply reply_step|apply again_step|apply ack_step|apply timer_step]. Qed.

End Refinement.

(** A new request starts the machine in its first state. *)
Lemma server_starts E b m r k s :
  Inv s -> locked s = ∅ -> m_u m = SIP_REQUEST r -> m_local_socket m = Some k -> msg_ok m ->
  Forall no_rseq (m_rel m) ->
  exists s', add_trans b m TT_UAS s = Ok (fresh s) s' /\
    server_rel E b (fresh s) r k
      (mk_server (if decide (req_method r = INVITE) then SProceeding else STrying) None) s'.
Proof.
  intros HI Hl Hm Hk Hok Hnr. assert (Hmeth : msg_method m = Some (req_method r)) by (unfold msg_method; by rewrite Hm).
  destruct (add_trans_eq b m TT_UAS _ s Hmeth) as (st & Hadd & Hst).
  destruct (add_trans_live b m TT_UAS _ ∅ s Hmeth Hok (ex_intro _ k Hk) HI Hl) as (n & s' & Hadd' & -> & HI' & Hl' & Hin' & _).
  rewrite Hadd in Hadd'. injection Hadd' as <-. eexists. split; [exact Hadd|]. unfold server_rel. splits; try done.
  eexists. split; [cbn; apply lookup_insert_eq|]. unfold server_is. cbn.
  subst st. destruct (decide (req_method r = INVITE)); [rewrite decide_True by done|]; by splits.
Qed.

(** C4: the layer refines the server transaction machine of RFC 3261 17.2 (with the Accepted
    state of RFC 6026, in which this layer re-sends the 2xx): in every state, whatever comes
    next, a reply of the user agent, the request once more, its ACK or one of the timers that
    run, the handler moves the transaction to the state of the machine, lets out exactly what
    the machine says and leaves exactly the timers of that state running, started now when the
    state is new.  A reply is sent only as long as no final one was given.  The state that
    results is again one of the machine, so that the steps compose.  The request carries no
    RSeq (reliable provisional replies are not tracked, see [reliable_1xx_not_tracked]), the
    transport takes the reply, the ACK comes over a transport like that of the request. *)
Theorem server_refines E b t r k sv ev s :
  (forall m, gen_buf E m <> []) ->
  server_rel E b t r k sv s -> server_input E b t r k sv ev s -> server_does E b t r k sv ev s.
Proof. intros Hgen. by apply server_simulates. Qed.

(** ** Concrete runs *)

Definition demo_E : env := demo_env [].

(** An INVITE has been received; it has been refused; a request that carries RSeq and
    Require has been answered with a provisional reply. *)
Definition demo_rcvd : tl := state_after (process_rcvd_msg demo_E demo_invite demo_init).
Definition demo_refused : tl :=
  state_after (send_reply demo_E 0 0 486 (cs "tag") (cs "dlg") (cs "rpl") (Some demo_peer) demo_rcvd).
Definition demo_rel_invite : sip_msg :=
  mk_msg (m_buf demo_invite) (m_u demo_invite) (m_via_p1 demo_invite) (m_from_tag demo_invite)
    (m_to_tag demo_invite) (m_callid demo_invite) (m_cseq demo_invite) None
    [H_REQUIRE (Some 1); H_RSEQ (Some 7)] (m_local_socket demo_invite) (m_remote_ip demo_invite).
Definition demo_rel : tl :=
  state_after (send_reply demo_E 0 0 183 (cs "tag") (cs "dlg") (cs "rpl") (Some demo_peer)
    (state_after (process_rcvd_msg demo_E demo_rel_invite demo_init))).

Lemma demo_rel_ok : rcvd_ok demo_rel_invite.
Proof. split; [unfold msg_ok; cbn; splits; eauto|]. cbn. split; [eauto|done]. Qed.

Lemma demo_init_quiet : Quiet demo_init.
Proof. exact (init_quiet 0). Qed.

Lemma demo_step c s s' : Quiet s -> call_ok c -> run_call demo_E c s = Ok tt s' -> Quiet s'.
Proof.
  apply (call_quiet demo_E (demo_gen_buf [])).
Qed.

Lemma demo_rcvd_quiet : Quiet demo_rcvd.
Proof.
  apply (demo_step (CReceive demo_invite) demo_init); [exact demo_init_quiet|apply demo_rcvd_ok|].
  vm_compute. reflexivity.
Qed.

Lemma demo_refused_quiet : Quiet demo_refused.
Proof.
  refine (demo_step (CSendReply 0 0 486 (cs "tag") (cs "dlg") (cs "rpl") (Some demo_peer))
    demo_rcvd demo_refused demo_rcvd_quiet _ _); [discriminate|vm_compute; reflexivity].
Qed.

Lemma demo_rel_quiet : Quiet demo_rel.
Proof.
  refine (demo_step (CSendReply 0 0 183 (cs "tag") (cs "dlg") (cs "rpl") (Some demo_peer))
    _ demo_rel (demo_step (CReceive demo_rel_invite) demo_init
      (state_after (process_rcvd_msg demo_E demo_rel_invite demo_init)) demo_init_quiet demo_rel_ok _)
    _ _); [vm_compute; reflexivity|discriminate|vm_compute; reflexivity].
Qed.

Lemma quiet_at_work s : Quiet s -> Inv (at_work s).
Proof. intros [HI _]. by apply inv_set_locked. Qed.

#[local] Hint Resolve quiet_at_work demo_rcvd_quiet demo_refused_quiet demo_rel_quiet : sems.

Definition demo_ack : sip_msg := demo_request ACK (cs "ACK") (cs "abcdefgh") (cs "tag").

Lemma server_refines_witness :
  let sv := mk_server SCompleted (Some (cs "rpl", demo_peer)) in
  server_does demo_E 0 0 (demo_req demo_refused 0) demo_udp sv (SAck demo_ack) demo_refused /\
  server_step true (is_reliable demo_udp) sv (SAck demo_ack)
  = (Some (mk_server SConfirmed (Some (cs "rpl", demo_peer))), []).
Proof.
  split; [|vm_compute; reflexivity].
  apply (server_refines demo_E 0 0 (demo_req demo_refused 0) demo_udp).
  - intros m. discriminate.
  - split; [exact (proj1 demo_refused_quiet)|]. split; [demo|]. split; [demo|].
    exists (demo_trans demo_refused 0). split; [demo|]. unfold server_is.
    split_and!; try demo. all: first [constructor; demo | vm_compute; constructor].
  - split; [eexists; split; [reflexivity|vm_compute; reflexivity]|].
    split; [demo|]. split; [apply demo_rcvd_ok|]. split; [exists demo_udp; demo|]. demo.
Defined.

Lemma server_ack_refines_witness :
  t_state (demo_trans demo_refused 0) = TS_COMPLETED /\
  exists s' res, update_uas_request demo_E 0 0 demo_ack (at_work demo_refused) = Ok res s'.
Proof.
  split; [vm_compute; reflexivity|].
  pose proof (server_ack_refines demo_E 0 0 (at_work demo_refused) (demo_trans demo_refused 0)
    ltac:(demo) ltac:(demo) ltac:(demo) ltac:(demo) demo_ack demo_udp ltac:(demo) ltac:(demo)) as H.
  destruct (match t_state _ with TS_ZERO => _ | _ => _ end) as [res after].
  destruct H as (s' & H & _). exists s'. eexists. exact H.
Defined.

Lemma server_retransmits_witness :
  exists s', timer_expired demo_E 0 0 STIMER_G 0 (at_work demo_refused) = Ok tt s'.
Proof.
  destruct (server_retransmits demo_E 0 0 (at_work demo_refused) (demo_trans demo_refused 0)
    ltac:(demo) ltac:(demo) ltac:(demo) ltac:(demo) 0 ltac:(demo)) as (s' & H & _).
  exists s'. exact H.
Defined.

Lemma server_gives_up_witness :
  exists s', timer_expired demo_E 0 0 STIMER_H 0 (at_work demo_refused) = Ok tt s' /\ gone 0 0 s'.
Proof.
  destruct (server_gives_up demo_E 0 0 (at_work demo_refused) (demo_trans demo_refused 0)
    ltac:(demo) ltac:(demo) ltac:(demo) ltac:(demo) STIMER_H 0 ltac:(demo) ltac:(demo))
    as (s' & H & Hg & _).
  exists s'. split; [exact H|exact Hg].
Defined.

Lemma prack_timeout_keeps_G_witness :
  is_Some (armed (at_work demo_rel) (demo_trans demo_rel 0) !! 0%nat) /\
  exists s', timer_expired demo_E 0 0 STIMER_H 0 (at_work demo_rel) = Ok tt s'.
Proof.
  split; [eexists; vm_compute; reflexivity|].
  destruct (prack_timeout_keeps_G demo_E 0 0 (at_work demo_rel) (demo_trans demo_rel 0)
    ltac:(demo) ltac:(demo) ltac:(demo) ltac:(demo) 0 ltac:(demo) ltac:(demo)) as (s' & H & _).
  exists s'. exact H.
Defined.

Lemma retransmission_absorbed_witness :
  exists s', process_request demo_E 0 demo_invite (demo_req demo_refused 0) (at_work demo_refused) = Ok tt s'.
Proof.
  destruct (retransmission_absorbed demo_E 0 0 (at_work demo_refused) (demo_trans demo_refused 0)
    (demo_req demo_refused 0) ltac:(demo) ltac:(demo) ltac:(demo) ltac:(demo) ltac:(demo)
    demo_invite ltac:(demo) ltac:(demo)) as (s' & H & _).
  exists s'. exact H.
Defined.

Lemma reliable_1xx_not_tracked_witness :
  exists s', send_reply demo_E 0 0 183 (cs "tag") (cs "dlg") (cs "rpl") (Some demo_peer) demo_rcvd
             = Ok true s'.
Proof.
  destruct (reliable_1xx_not_tracked demo_E 0 0 demo_rcvd (demo_trans demo_rcvd 0)
    (demo_req demo_rcvd 0) demo_udp (demo_via (cs "abcdefgh")) 183 (cs "tag") (cs "dlg") (cs "rpl")
    demo_peer (proj1 demo_rcvd_quiet) ltac:(demo) ltac:(demo) ltac:(demo) ltac:(demo) ltac:(demo)
    ltac:(demo) (Forall_nil_2 no_rseq) ltac:(demo) ltac:(demo) ltac:(demo) ltac:(demo)) as (s' & H & _).
  exists s'. exact H.
Defined.
