(* ===== verification/TransFailover.v ===== *)
(** * Cancellation and fail-over

    What [cancel] and [try_next_ip] do to a client transaction, that the loop over the
    destinations needs no more rounds than there are destinations, and runs that show
    where the code leaves a transaction behind or does not do what its comments say. *)

From Stdlib Require Import ZArith Lia Ascii String.
From stdpp Require Import base list gmap.
From S2P Require Import Prelude Wheeltimer SipMsg SipTrans TransTable TransLayer TransLogic TransView.
From S2P Require Import TransDemo TransSafety TransClient.

Local Open Scope Z_scope.
Local Open Scope bool_scope.

(** ** The loop over the destinations *)

Section Fuel.
Context (E : env).

(** One round on the current transaction takes a target off the set. *)
Lemma get_next_left bl flags ts ts' sa trsp :
  targets_wf ts -> get_next bl flags ts = (ts', Some (sa, trsp)) ->
  targets_wf ts' /\ (length (targets_left ts') < length (targets_left ts))%nat.
Proof.
  intros Hwf Hn. pose proof (get_next_loop_spec (S (length (dest_list ts) - dest_list_it ts))
    bl flags ts Hwf) as H. unfold get_next in Hn. rewrite Hn in H.
  destruct H as (Hwf' & _ & sk & _ & t & Hl & _).
  { unfold targets_left. rewrite length_drop. lia. }
  split; [done|]. rewrite Hl, length_app. cbn. lia.
Qed.

Lemma live_take s0 b t L phi s tr ts :
  Live s0 b t L phi s -> heap s !! t = Some tr ->
  Live s0 b t L (on_targets (eq (Some ts)))
    (set_heap (<[t := set_targets (Some ts) tr]> (heap s)) s).
Proof.
  intros Hs Htr. pose proof (h_modify s0 b t L phi (on_targets (eq (Some ts))) (set_targets (Some ts))) as H.
  specialize (H ltac:(by intros ? ? ?) s Hs). unfold modify in H. by rewrite Htr in H.
Qed.

Lemma bind_ext {A B} (m : M A) (k k' : A -> M B) s :
  (forall a s', m s = Ok a s' -> k a s' = k' a s') -> bind m k s = bind m k' s.
Proof. intros H. unfold bind. destruct (m s); [by apply H|done]. Qed.

Lemma run_hoare {A} P (m : M A) Q s a s' : hoare P m Q -> P s -> m s = Ok a s' -> Q a s'.
Proof. intros H Hs Hr. specialize (H s Hs). by rewrite Hr in H. Qed.

Lemma resend_fuel fuel fuel' s0 b t L ts s :
  (forall s, Live s0 b t L (on_targets (eq (Some ts))) s ->
     try_next_dest E fuel b t false s = try_next_dest E fuel' b t false s) ->
  Live s0 b t L (on_targets (eq (Some ts))) s -> resend E fuel b t s = resend E fuel' b t s.
Proof.
  intros Heq Hs. unfold resend. apply bind_ext. intros tr s1 Hg. unfold get_trans in Hg.
  destruct (heap s !! t) as [tr0|] eqn:Htr; [|done]. injection Hg as -> <-.
  pose proof (inv_trans s (proj1 Hs) t tr Htr) as (_ & _ & Hk & _).
  apply bind_ext. intros ok s1 Hsend.
  pose proof (run_hoare _ _ _ _ _ _ (h_msg_send E s0 b t L _ _ _ Hk) Hs Hsend) as H1.
  destruct (negb ok); [|done]. apply bind_ext. intros u s2 Hbl.
  apply Heq. exact (run_hoare _ _ _ _ _ _ (h_bl_insert E s0 b t L _ _) H1 Hbl).
Qed.

(** A round on a transaction with the targets [ts]: both fuels give the same when the
    re-sending does. *)
Lemma round_fuel fuel fuel' nw s0 b t L ts s :
  Live s0 b t L (on_targets (eq (Some ts))) s -> targets_wf ts ->
  (forall ts' t' s1 s2, targets_wf ts' -> (length (targets_left ts') < length (targets_left ts))%nat ->
     Live s1 b t' L (on_targets (eq (Some ts'))) s2 ->
     resend E fuel b t' s2 = resend E fuel' b t' s2) ->
  try_next_dest E (S fuel) b t nw s = try_next_dest E (S fuel') b t nw s.
Proof.
  intros Hs Hwf Hround. cbn [try_next_dest]. apply bind_ext. intros tr s1 Hg. unfold get_trans in Hg.
  pose proof Hs as (_ & _ & _ & (tr0 & Htr & Hts) & _). rewrite Htr in Hg. injection Hg as -> <-.
  unfold on_targets in Hts. rewrite <- Hts. apply bind_ext. intros bl s1 Hg.
  injection Hg as _ <-. destruct (get_next _ (t_flags tr) ts) as [ts' r] eqn:Hn.
  apply bind_ext. intros u s1 Hm. unfold modify in Hm. rewrite Htr in Hm. injection Hm as _ <-.
  destruct r as [[sa trsp]|]; [|done]. pose proof (live_take s0 b t L _ s tr ts' Hs Htr) as Hs1.
  destruct (get_next_left _ _ _ _ _ _ Hwf Hn) as [Hwf' Hlt].
  apply bind_ext. intros o s2 Ho. destruct o as [t'|]; [|done].
  change (resend E fuel b t' s2 = resend E fuel' b t' s2). destruct nw.
  - pose proof (run_hoare _ _ _ _ _ _ (h_retarget_new E s0 b t L (eq (Some ts')) sa trsp) Hs1 Ho)
      as (s3 & _ & _ & Hs3). by apply (Hround ts' t' s3).
  - pose proof (run_hoare _ _ _ _ _ _ (h_retarget_same E s0 b t L (eq (Some ts')) sa trsp) Hs1 Ho)
      as [Hs2 Heq]. rewrite (Heq t' eq_refl). by apply (Hround ts' t s0).
Qed.

Lemma same_fuel fuel : forall fuel' s0 b t L ts s,
  Live s0 b t L (on_targets (eq (Some ts))) s -> targets_wf ts ->
  (length (targets_left ts) < fuel)%nat -> (length (targets_left ts) < fuel')%nat ->
  try_next_dest E fuel b t false s = try_next_dest E fuel' b t false s.
Proof.
  induction fuel as [|fuel IH]; intros fuel' s0 b t L ts s Hs Hwf Hf Hf'; [lia|].
  destruct fuel' as [|fuel']; [lia|]. apply (round_fuel _ _ _ s0 b t L ts); [done|done|].
  intros ts' t' s1 s2 Hwf' Hlt Hs2. apply (resend_fuel fuel fuel' s1 b t' L ts'); [|done].
  intros s3 Hs3. apply (IH fuel' s1 b t' L ts'); [done|done|lia|lia].
Qed.

(** The same for the loop of [send_request]: from one round more than there are destinations
    on, the bound does not matter. *)
Lemma send_request_loop_enough fuel : forall fuel' m ts did oif flags s,
  targets_wf ts ->
  (length (targets_left ts) < fuel)%nat -> (length (targets_left ts) < fuel')%nat ->
  send_request_loop E fuel m ts did oif flags s = send_request_loop E fuel' m ts did oif flags s.
Proof.
  induction fuel as [|fuel IH]; intros fuel' m ts did oif flags s Hwf Hf Hf'; [lia|].
  destruct fuel' as [|fuel']; [lia|]. cbn [send_request_loop].
  apply bind_ext. intros bl s1 _.
  destruct (get_next _ flags ts) as [ts' [[sa trsp]|]] eqn:Hn; [|done].
  destruct (get_next_left _ _ _ _ _ _ Hwf Hn) as [Hwf' Hlt].
  destruct (set_trsp_socket _ _ _ _) as [m1|]; [|done].
  destruct (if _ : bool then _ else _) as [m2|]; [|done].
  apply bind_ext. intros [p|] s2 _; [|done].
  do 4 (apply bind_ext; intros ? ? _).
  match goal with |- (if negb ?ok then _ else _) _ = _ => destruct ok end; [done|]. cbn [negb].
  do 2 (apply bind_ext; intros ? ? _).
  apply IH; [done|lia|lia].
Qed.

End Fuel.

(** The loop over the destinations ends after at most one round per destination that is
    left: [try_next_ip] gives the same result with any larger bound on the number of
    rounds, in a new transaction or in the same one, so the bound cuts nothing off. *)
Theorem try_next_dest_terminates E b t s tr ts nw fuel :
  Inv s -> t ∈ bucket s b -> heap s !! t = Some tr -> t_targets tr = Some ts -> targets_wf ts ->
  (S (targets_count tr) <= fuel)%nat ->
  try_next_dest E fuel b t nw s = try_next_dest E (S (targets_count tr)) b t nw s.
Proof.
  intros HI Hin Htr Hts Hwf Hfuel. unfold targets_count in *. rewrite Hts in *.
  assert (Hs : Live s b t (locked s) (on_targets (eq (Some ts))) s).
  { unfold Live. splits; first [done|by exists tr|apply frame_refl]. }
  assert (Hleft : (length (targets_left ts) <= length (dest_list ts))%nat).
  { unfold targets_left. rewrite length_drop. lia. }
  destruct fuel as [|fuel]; [lia|]. apply (round_fuel E _ _ _ s b t (locked s) ts); [done|done|].
  intros ts' t' s1 s2 Hwf' Hlt Hs2. apply (resend_fuel E _ _ s1 b t' (locked s) ts'); [|done].
  intros s3 Hs3. apply (same_fuel E fuel (length (dest_list ts)) s1 b t' (locked s) ts'); [done|done|lia|lia].
Qed.

(** ** Cancellation *)

Section Cancel.
Context (E : env) (b : Z) (t : nat) (s : tl) (tr : sip_trans) (r : sip_request).
Context (HI : Inv s) (Hin : t ∈ bucket s b) (Htr : heap s !! t = Some tr).
Context (Hr : m_u (t_msg tr) = SIP_REQUEST r).

(** Cancelling an INVITE that has had no reply yet sends nothing: the request is no
    longer re-transmitted (timer A) nor tried elsewhere (timer M), the user agent gets a
    487, and the transaction is abandoned: timer B goes on, so that it ends, and the
    destination is not blacklisted for the reply that was not waited for. *)
Theorem cancel_before_reply d q :
  locked s = ∅ -> req_method r = INVITE -> t_state tr = TS_CALLING -> canceled tr = false ->
  exists s', cancel E b t d q s = Ok true s' /\
    now_is t s' (set_state TS_ABANDONED (set_flags (Z.lor (t_flags tr) TR_FLAG_DISABLE_BL) tr))
      (delete 2%nat (delete 0%nat (armed s tr))) /\
    locked s' = ∅ /\
    events s' = EvUaReply (t_dialog_id tr) (error_reply (t_msg tr) 487 (cs "Request Terminated"))
                :: events s.
Proof.
  intros Hl Hm Hst Hcan. vcase ltac:(unfold cancel, cancel_found).
Qed.

(** A transaction that has been cancelled is not cancelled again, and only an INVITE can
    be: the call returns without an effect. *)
Theorem cancel_once d q :
  locked s = ∅ -> t_state tr <> TS_ABANDONED -> canceled tr = true \/ req_method r <> INVITE ->
  exists s', cancel E b t d q s = Ok (canceled tr) s' /\ now_is t s' tr (armed s tr) /\
    locked s' = ∅ /\ events s' = events s.
Proof.
  intros Hl Hst Hcan. destruct (canceled tr) eqn:Hc.
  - vcase ltac:(unfold cancel, cancel_found).
  - destruct Hcan as [|Hm]; [done|]. vcase ltac:(unfold cancel, cancel_found).
Qed.

(** A provisional reply in an abandoned INVITE transaction is where the CANCEL that could
    not be sent before is due, and the code calls [cancel] for it; but [cancel] looks past
    abandoned transactions, so no CANCEL is ever sent and the callee keeps ringing. *)
Theorem abandoned_never_cancelled m rep :
  locked s = {[b]} -> m_u m = SIP_REPLY rep -> code rep < 200 -> t_state tr = TS_ABANDONED ->
  exists s', update_uac_reply E b t m s = Ok false s' /\
    now_is t s' (set_flags (Z.lor (t_flags tr) TR_FLAG_DISABLE_BL) tr) (armed s tr) /\
    locked s' = {[b]} /\ events s' = events s.
Proof.
  intros Hl Hrep Hc%Z.ltb_lt Hst. vcase ltac:(unfold update_uac_reply, uac_provisional, cancel).
Qed.

(** A re-transmitted 503 in a completed non-INVITE transaction stops timer K, whose slot
    it shares with timer M: nothing is passed on, but the timer that would end the
    transaction is gone. *)
Theorem repeated_503_stops_K m rep to :
  locked s = {[b]} -> m_u m = SIP_REPLY rep -> m_to_tag m = Some to -> code rep = 503 ->
  req_method r <> INVITE -> t_state tr = TS_COMPLETED ->
  (forall ts, t_targets tr = Some ts -> has_next ts = false) ->
  exists s', update_uac_reply E b t m s = Ok false s' /\
    now_is t s' tr (delete 2%nat (armed s tr)) /\ locked s' = {[b]} /\ events s' = events s.
Proof.
  intros Hl Hrep Hto H503 Hm Hst Hnone.
  assert (H200 : (code rep <? 200) = false) by (rewrite H503; done).
  assert (Hc : (code rep =? 503) = true) by (rewrite H503; done).
  destruct (t_targets tr) as [ts|] eqn:Hts.
  2: { vcase ltac:(unfold update_uac_reply, uac_non_invite, uac_non_invite_final, try_next_ip;
         cbn [try_next_dest]). }
  assert (Hnext : forall bl fl, get_next bl fl ts = (ts, None)).
  { intros bl fl. unfold get_next. cbn [get_next_loop]. by rewrite (Hnone ts eq_refl). }
  assert (Hsame : tr = set_targets (Some ts) tr) by (rewrite <- Hts; by destruct tr).
  edestruct (run_viewed (update_uac_reply E b t m) b t s tr) as (s' & H1 & H2 & H3);
    [exact HI|exact Hin|exact Htr| |].
  { unfold update_uac_reply, uac_non_invite, uac_non_invite_final, try_next_ip. vbranch.
    cbn [try_next_dest]. repeat vgo. rewrite Hnext. vbranch. }
  exists s'. destruct H3 as (_ & H3 & _ & _ & H4). splits; [exact H1| |by rewrite H3|exact H4].
  rewrite Hsame. exact H2.
Qed.
End Cancel.

(** ** Concrete runs *)

Definition demo_one_target : sip_target_set := mk_targets [mk_target demo_peer []] 0.

(** An OPTIONS that has been answered 503, twice. *)
Definition demo_503 : sip_msg :=
  demo_reply 503 (demo_via (cs "caaaaaaa")) (cs "OPTIONS") (Some demo_udp).
Definition demo_busy : tl :=
  state_after (process_rcvd_msg (demo_env []) demo_503
    (state_after (send_request (demo_env []) demo_options demo_one_target (cs "dlg") 0 0 demo_init))).

(** Two 503 replies to an OPTIONS leave its transaction in the table for good: it is
    completed, and no timer is armed that would ever delete it. *)
Example two_503_leak :
  exists s, process_rcvd_msg (demo_env []) demo_503 demo_busy = Ok tt s /\
    trans_view 0 s = Some (TS_COMPLETED, []) /\ bucket s 0 = [0%nat].
Proof. eexists. split; [vm_compute; reflexivity|]. split; vm_compute; reflexivity. Qed.

(** When an INVITE that already had a provisional reply is answered 503, and sending it to
    the next destination fails, the transaction made for that destination stays in the
    table in its initial state with no timer, next to the completed one. *)
Theorem failed_failover_leaks :
  let E := demo_env [true; false] in
  let via := demo_via (cs "caaaaaaa") in
  let s1 := state_after (send_request E demo_invite
              (mk_targets [mk_target demo_peer []; mk_target demo_peer2 []] 0) (cs "dlg") 0 0 demo_init) in
  let s2 := state_after (process_rcvd_msg E (demo_reply 180 via (cs "INVITE") (Some demo_udp)) s1) in
  exists s n, process_rcvd_msg E (demo_reply 503 via (cs "INVITE") (Some demo_udp)) s2 = Ok tt s /\
    bucket s 0 = [0%nat; n] /\ trans_view n s = Some (TS_ZERO, []).
Proof.
  eexists _, _. split; [vm_compute; reflexivity|]. split; vm_compute; reflexivity.
Qed.

(** The INVITE of [demo_sent], abandoned. *)
Definition demo_abandoned : tl := state_after (cancel (demo_env []) 0 0 [] 0 demo_sent).

Lemma demo_next c s s' :
  Quiet s -> call_ok c -> run_call (demo_env []) c s = Ok tt s' -> Quiet s'.
Proof.
  apply (call_quiet (demo_env []) (demo_gen_buf [])).
Qed.

Lemma demo_abandoned_quiet : Quiet demo_abandoned.
Proof.
  refine (demo_next (CCancel 0 0 [] 0) demo_sent demo_abandoned demo_sent_quiet _ _);
    [exact I|vm_compute; reflexivity].
Qed.

Lemma demo_options_quiet : Quiet demo_options_sent.
Proof.
  refine (demo_next (CSendRequest demo_options demo_targets2 (cs "dlg") 0 0) demo_init
    demo_options_sent (init_quiet _) (demo_sendable _ _ _ _) _). vm_compute. reflexivity.
Qed.

Lemma demo_busy_quiet : Quiet demo_busy.
Proof.
  refine (demo_next (CReceive demo_503)
    (state_after (send_request (demo_env []) demo_options demo_one_target (cs "dlg") 0 0 demo_init))
    demo_busy (demo_next (CSendRequest demo_options demo_one_target (cs "dlg") 0 0) demo_init _
      (init_quiet _) (demo_sendable _ _ _ _) _) (demo_rpl_ok _ _ _ _) _);
    vm_compute; reflexivity.
Qed.

Lemma quiet_work s : Quiet s -> Inv (at_work s).
Proof. intros [HI _]. by apply inv_set_locked. Qed.

Lemma quiet_inv s : Quiet s -> Inv s.
Proof. by intros []. Qed.

Lemma try_next_dest_terminates_witness :
  try_next_dest (demo_env []) 9 0 0 true demo_sent =
  try_next_dest (demo_env []) (S (targets_count (demo_trans demo_sent 0))) 0 0 true demo_sent.
Proof.
  refine (try_next_dest_terminates (demo_env []) 0 0 demo_sent (demo_trans demo_sent 0)
    (mk_targets (dest_list demo_targets2) 1) true 9 (quiet_inv _ demo_sent_quiet) _ _ _ _ _); try demo.
  - unfold targets_wf. cbn. lia.
  - apply Nat.leb_le. vm_compute. reflexivity.
Defined.

Lemma cancel_before_reply_witness :
  exists s', cancel (demo_env []) 0 0 [] 0 demo_sent = Ok true s'.
Proof.
  destruct (cancel_before_reply (demo_env []) 0 0 demo_sent (demo_trans demo_sent 0)
    (demo_req demo_sent 0) (quiet_inv _ demo_sent_quiet) ltac:(demo) ltac:(demo) ltac:(demo) [] 0
    ltac:(demo) ltac:(demo) ltac:(demo) ltac:(demo)) as (s' & H & _).
  exists s'. exact H.
Defined.

Lemma cancel_once_witness :
  exists s' ok, cancel (demo_env []) 0 0 [] 0 demo_options_sent = Ok ok s'.
Proof.
  destruct (cancel_once (demo_env []) 0 0 demo_options_sent (demo_trans demo_options_sent 0)
    (demo_req demo_options_sent 0) (quiet_inv _ demo_options_quiet) ltac:(demo) ltac:(demo) ltac:(demo) [] 0
    ltac:(demo) ltac:(demo) ltac:(demo)) as (s' & H & _).
  exists s'. eexists. exact H.
Defined.

Definition demo_180 : sip_msg := demo_reply 180 demo_sent_via (cs "INVITE") (Some demo_udp).

Lemma abandoned_never_cancelled_witness :
  exists s', update_uac_reply (demo_env []) 0 0 demo_180 (at_work demo_abandoned) = Ok false s'.
Proof.
  destruct (abandoned_never_cancelled (demo_env []) 0 0 (at_work demo_abandoned)
    (demo_trans demo_abandoned 0) (quiet_work _ demo_abandoned_quiet) ltac:(demo) ltac:(demo) demo_180
    (mk_reply 180 (cs "reason")) ltac:(demo) ltac:(demo) ltac:(demo) ltac:(demo)) as (s' & H & _).
  exists s'. exact H.
Defined.

Lemma demo_busy_no_target ts :
  t_targets (demo_trans demo_busy 0) = Some ts -> has_next ts = false.
Proof.
  intros H. assert (E : t_targets (demo_trans demo_busy 0) = Some (mk_targets (dest_list demo_one_target) 1))
    by (vm_compute; reflexivity). rewrite E in H. injection H as <-. reflexivity.
Qed.

Lemma repeated_503_stops_K_witness :
  is_Some (armed (at_work demo_busy) (demo_trans demo_busy 0) !! 2%nat) /\
  exists s', update_uac_reply (demo_env []) 0 0 demo_503 (at_work demo_busy) = Ok false s'.
Proof.
  split; [eexists; vm_compute; reflexivity|].
  destruct (repeated_503_stops_K (demo_env []) 0 0 (at_work demo_busy) (demo_trans demo_busy 0)
    (demo_req demo_busy 0) (quiet_work _ demo_busy_quiet) ltac:(demo) ltac:(demo) ltac:(demo) demo_503
    (mk_reply 503 (cs "reason")) (cs "totag") ltac:(demo) ltac:(demo) ltac:(demo) ltac:(demo)
    ltac:(demo) ltac:(demo) demo_busy_no_target) as (s' & H & _).
  exists s'. exact H.
Defined.
