(* ===== verification/MimeBody.v ===== *)
(** * Message bodies

    Model of [core/AmMimeBody.cpp]: finding a part of a body by its content type, adding
    and filling one, as the dialogs use it.  [MimeParser] has the parser, the printer and the
    whole class, [MimeView] how they agree. *)

From Stdlib Require Import ZArith Lia Ascii String.
From stdpp Require Import base list.
From S2P Require Import Prelude SipMsg.

Local Open Scope Z_scope.
Local Open Scope bool_scope.

#[local] Set Warnings "-register-all".

(** ** Bodies *)

(** [AmMimeBody]: content type, payload ([content_len] bytes) and parts. *)
Inductive mime :=
  mk_mime (ct_type ct_subtype payload : cstring) (parts : list mime).

Definition ct_type (m : mime) : cstring := match m with mk_mime x _ _ _ => x end.
Definition ct_subtype (m : mime) : cstring := match m with mk_mime _ x _ _ => x end.
Definition payload (m : mime) : cstring := match m with mk_mime _ _ x _ => x end.
Definition parts (m : mime) : list mime := match m with mk_mime _ _ _ x => x end.

Definition mime_empty_body : mime := mk_mime [] [] [] [].

(** [AmMimeBody::empty]. *)
Definition body_empty (m : mime) : bool :=
  match payload m, parts m with [], [] => true | _, _ => false end.

(** [AmMimeBody::isContentType], i.e. [AmContentType::hasContentType]. *)
Definition isContentType (content_type : cstring) (m : mime) : bool :=
  let no_ct := match ct_type m, ct_subtype m with [], [] => true | _, _ => false end in
  match content_type with
  | [] => no_ct
  | _ => if no_ct then false
         else lower_eqb (ct_type m ++ cs "/" ++ ct_subtype m) content_type
  end.

Definition isMultipart (m : mime) : bool := lower_eqb (cs "multipart") (ct_type m).

(** [hasContentType(..) != NULL]. *)
Fixpoint contains (content_type : cstring) (m : mime) : bool :=
  isContentType content_type m ||
  (isMultipart m &&
   match m with mk_mime _ _ _ ps => existsb (contains content_type) ps end).

(** The body that [hasContentType] returns: the body itself or the part of it that has (or
    contains) the type. *)
Inductive part_ref := Self | Part (i : nat).

Fixpoint find_part (content_type : cstring) (i : nat) (ps : list mime) : option part_ref :=
  match ps with
  | [] => None
  | p :: ps => if contains content_type p then Some (Part i) else find_part content_type (S i) ps
  end.

Definition hasContentType (content_type : cstring) (m : mime) : option part_ref :=
  if isContentType content_type m then Some Self
  else if isMultipart m then find_part content_type 0 (parts m) else None.

Definition part_at (r : part_ref) (m : mime) : mime :=
  match r with Self => m | Part i => nth i (parts m) mime_empty_body end.

(** [getPayload] and [setPayload] through the returned pointer. *)
Definition getPayload (r : part_ref) (m : mime) : cstring := payload (part_at r m).
Definition set_payload (x : cstring) (m : mime) : mime :=
  match m with mk_mime t st _ ps => mk_mime t st x ps end.
Definition setPayload (r : part_ref) (x : cstring) (m : mime) : mime :=
  match r with
  | Self => set_payload x m
  | Part i =>
      match m with mk_mime t st p ps =>
        mk_mime t st p (match ps !! i with Some q => <[i := set_payload x q]> ps | None => ps end)
      end
  end.

(** [convertToMultipart]. *)
Definition convertToMultipart (m : mime) : mime :=
  match m with mk_mime t st p ps => mk_mime (cs "multipart") (cs "mixed") [] (ps ++ [m]) end.

(** [addPart] for a content type [type/subtype]; [None] is the null pointer. *)
Definition addPart (type subtype : cstring) (m : mime) : mime * option part_ref :=
  match ct_type m, ct_subtype m with
  | [], [] => (mk_mime type subtype (payload m) (parts m), Some Self)
  | _, _ =>
      if isMultipart m then (m, None)
      else
        let m := convertToMultipart m in
        (mk_mime (ct_type m) (ct_subtype m) (payload m)
           (parts m ++ [mk_mime type subtype [] []]),
         Some (Part (length (parts m))))
  end.

Definition SIP_APPLICATION_SDP : cstring := cs "application/sdp".
Definition CSTA : cstring := cs "application/csta+xml".

Definition has (ct : cstring) (m : mime) : bool :=
  match hasContentType ct m with Some _ => true | None => false end.

(** ** Bodies: adding a part and finding it *)

Lemma find_part_app ct ps m i :
  Forall (fun p => contains ct p = false) ps -> contains ct m = true ->
  find_part ct i (ps ++ [m]) = Some (Part (i + length ps)%nat).
Proof.
  intros Hps Hm. revert i. induction Hps as [|p ps Hp _ IH]; intros i; cbn.
  - rewrite Hm. by rewrite Nat.add_0_r.
  - rewrite Hp, IH. do 2 f_equal. lia.
Qed.

(** The part that [addPart] returns is the one [hasContentType] finds afterwards, and the
    payload set through it is what is read back: adding an SDP part to a body without one
    and filling it round-trips, for an empty body and for a body of another type. *)
Theorem add_part_roundtrip m m' r txt :
  parts m = [] -> contains SIP_APPLICATION_SDP m = false ->
  addPart (cs "application") (cs "sdp") m = (m', Some r) ->
  hasContentType SIP_APPLICATION_SDP (setPayload r txt m') = Some r /\
  getPayload r (setPayload r txt m') = txt.
Proof.
  intros Hp Hno Hadd. unfold addPart in Hadd.
  destruct m as [t st p ps]. cbn in Hp. subst ps. cbn [ct_type ct_subtype payload parts] in Hadd.
  assert (Hcase : (t = [] /\ st = []) \/
    (isMultipart (mk_mime t st p []) = false /\
     m' = mk_mime (cs "multipart") (cs "mixed") []
            ([mk_mime t st p []] ++ [mk_mime (cs "application") (cs "sdp") [] []]) /\ r = Part 1%nat)).
  { destruct t as [|a t]; [destruct st as [|c st]; [by left|]|]; right;
      (destruct (isMultipart _) eqn:Hmp; [done|]); injection Hadd as <- <-; done. }
  destruct Hcase as [[-> ->]|(Hmp & -> & ->)].
  - injection Hadd as <- <-. done.
  - cbn [setPayload lookup list_lookup app list_insert insert set_payload].
    split; [|done]. cbn [hasContentType isContentType]. unfold hasContentType.
    change (isContentType SIP_APPLICATION_SDP _) with false.
    change (isMultipart (mk_mime (cs "multipart") (cs "mixed") [] _)) with true.
    cbn [parts]. by apply (find_part_app _ [_]); [constructor|].
Qed.

Lemma add_part_roundtrip_witness :
  let m := mk_mime (cs "text") (cs "plain") (cs "x") [] in
  exists m' r, addPart (cs "application") (cs "sdp") m = (m', Some r) /\
    getPayload r (setPayload r (cs "v=0") m') = cs "v=0".
Proof.
  eexists _, _. split; [reflexivity|].
  refine (proj2 (add_part_roundtrip (mk_mime (cs "text") (cs "plain") (cs "x") []) _ _ (cs "v=0") _ _ _));
    reflexivity.
Defined.
