(* ===== verification/DialogMsg.v ===== *)
(** * Requests, replies and transactions as a dialog sees them

    [AmSipRequest] and [AmSipReply] of [core/AmSipMsg.h] with the fields that the
    dialog, its offer/answer machine and the 100rel extension read or write, and
    [TransMap], the transactions of a dialog by their CSeq number. *)

From Stdlib Require Import ZArith Lia Ascii String Sorted.
From stdpp Require Import base list.
From S2P Require Import Prelude SipMsg MimeBody.

Local Open Scope Z_scope.
Local Open Scope bool_scope.

Inductive sip_meth :=
| M_INVITE | M_UPDATE | M_ACK | M_PRACK | M_CANCEL | M_BYE | M_INFO | M_NOTIFY | M_OTHER.

#[export] Instance sip_meth_eq_dec : EqDecision sip_meth.
Proof. solve_decision. Defined.

Definition meth_eqb (a b : sip_meth) : bool := bool_decide (a = b).

(** [rq_rseq] is the RSeq number of the RAck header of a PRACK; whether the Supported and
    the Require headers list 100rel is kept instead of their text. *)
Record AmSipRequest := build_req {
  rq_method : sip_meth;
  rq_cseq : Z;
  rq_body : mime;
  rq_from_tag : cstring;
  rq_rseq : Z;
  rq_supported : bool;
  rq_require : bool
}.

(** [rp_rseq] is the RSeq header, if there is one. *)
Record AmSipReply := build_rpl {
  rp_code : Z;
  rp_cseq : Z;
  rp_method : sip_meth;
  rp_body : mime;
  rp_to_tag : cstring;
  rp_rseq : option Z;
  rp_supported : bool;
  rp_require : bool
}.

(** Messages with nothing but a body. *)
Abbreviation mk_req m c b := (build_req m c b [] 0 false false).
Abbreviation mk_rpl code c m b := (build_rpl code c m b [] None false false).

Definition set_rq_body (b : mime) (r : AmSipRequest) : AmSipRequest :=
  build_req (rq_method r) (rq_cseq r) b (rq_from_tag r) (rq_rseq r) (rq_supported r) (rq_require r).
Definition set_rp_body (b : mime) (r : AmSipReply) : AmSipReply :=
  build_rpl (rp_code r) (rp_cseq r) (rp_method r) b (rp_to_tag r) (rp_rseq r) (rp_supported r)
    (rp_require r).

(** ** Transactions

    [std::map<int,AmSipRequest>], indexed by the CSeq, an [unsigned int]: the entries in
    the order of their keys as [int], each key once.  Two CSeqs are the same key exactly
    when they are equal, since the conversion is one-to-one on 32 bits; from [2^31] on it
    is negative, so that the entries are not always in the order of their CSeqs. *)
Definition int_key (c : Z) : Z := if c <? 2147483648 then c else c - u32_mod.

Definition TransMap := list (Z * AmSipRequest).

Fixpoint tm_find (c : Z) (m : TransMap) : option AmSipRequest :=
  match m with
  | [] => None
  | (k, r) :: m => if k =? c then Some r else tm_find c m
  end.

(** [m[c] = r]. *)
Fixpoint tm_set (c : Z) (r : AmSipRequest) (m : TransMap) : TransMap :=
  match m with
  | [] => [(c, r)]
  | (k, q) :: m' =>
      if c =? k then (c, r) :: m'
      else if int_key c <? int_key k then (c, r) :: m
      else (k, q) :: tm_set c r m'
  end.

(** [m.erase(c)]. *)
Definition tm_erase (c : Z) (m : TransMap) : TransMap :=
  List.filter (fun kv => negb (fst kv =? c)) m.

Definition is_invite (kv : Z * AmSipRequest) : bool := meth_eqb (rq_method (snd kv)) M_INVITE.

(** The loops over the map that look for an INVITE. *)
Definition tm_invite (m : TransMap) : option AmSipRequest := snd <$> List.find is_invite m.
Definition tm_has_invite (m : TransMap) : bool := existsb is_invite m.
Definition tm_invites (m : TransMap) : list Z := rq_cseq ∘ snd <$> List.filter is_invite m.

(** ** Lemmas *)

(** Ascending and different keys, and each key is the CSeq of its request. *)
Definition key_before (a b : Z * AmSipRequest) : Prop :=
  int_key (fst a) <= int_key (fst b) /\ fst a <> fst b.
Definition tm_ok (m : TransMap) : Prop :=
  StronglySorted key_before m /\ Forall (fun kv => rq_cseq (snd kv) = fst kv) m.

Lemma tm_set_in c r m kv : In kv (tm_set c r m) -> kv = (c, r) \/ In kv m.
Proof.
  induction m as [|[k q] m IH]; cbn; [intuition|].
  destruct (c =? k); [cbn; intuition|]. destruct (int_key c <? int_key k); cbn; intuition.
Qed.

Lemma tm_set_has c r m : In (c, r) (tm_set c r m).
Proof.
  induction m as [|[k q] m IH]; cbn; [by left|].
  destruct (c =? k); [by left|]. destruct (int_key c <? int_key k); [by left|by right].
Qed.

Lemma tm_erase_in c m kv : In kv (tm_erase c m) <-> In kv m /\ fst kv <> c.
Proof.
  unfold tm_erase. rewrite filter_In, negb_true_iff, Z.eqb_neq. done.
Qed.

Lemma tm_set_ok c r m : rq_cseq r = c -> tm_ok m -> tm_ok (tm_set c r m).
Proof.
  intros <- [Hs Hk]. split.
  - clear Hk. induction Hs as [|[k q] m Hs IH Hall]; cbn; [by repeat constructor|].
    destruct (Z.eqb_spec (rq_cseq r) k) as [->|Hne]; [by constructor|].
    destruct (Z.ltb_spec (int_key (rq_cseq r)) (int_key k)) as [Hlt|Hge].
    + constructor; [by constructor|]. constructor; [split; cbn; [lia|done]|].
      rewrite List.Forall_forall in *. intros kv Hin. pose proof (Hall _ Hin) as [? ?]. cbn in *.
      split; cbn; [lia|]. intros He. rewrite He in Hlt. lia.
    + constructor; [done|]. rewrite List.Forall_forall in *. intros kv Hin.
      apply tm_set_in in Hin as [-> | Hin]; [split; cbn; [lia|congruence]|by apply Hall].
  - rewrite List.Forall_forall in *. intros kv Hin. apply tm_set_in in Hin as [-> | Hin]; auto.
Qed.

Lemma sorted_filter {A} (R : A -> A -> Prop) (f : A -> bool) l :
  StronglySorted R l -> StronglySorted R (List.filter f l).
Proof.
  induction 1 as [|a l _ IH Hall]; cbn; [constructor|].
  destruct (f a); [|done]. constructor; [done|].
  apply List.Forall_forall. intros x Hx. apply filter_In in Hx as [Hx _].
  rewrite List.Forall_forall in Hall. by apply Hall.
Qed.

Lemma tm_erase_ok c m : tm_ok m -> tm_ok (tm_erase c m).
Proof.
  intros [Hs Hk]. split; [by apply sorted_filter|].
  apply List.Forall_forall. intros kv Hin. apply tm_erase_in in Hin as [Hin _].
  rewrite List.Forall_forall in Hk. by apply Hk.
Qed.

Lemma tm_find_in c m r : tm_find c m = Some r -> In (c, r) m.
Proof.
  induction m as [|[k q] m IH]; cbn; [done|].
  destruct (k =? c) eqn:H; zbool; [intros [= ->]; left; congruence|auto].
Qed.
