(* ===== verification/Rel100.v ===== *)
(** * Reliable provisional replies

    Model of [core/Am100rel.cpp]: the RSeq numbers of a dialog, which reliable provisional
    replies may be sent and which replies of the peer are acknowledged with a PRACK.

    The class works on the headers of the messages and asks its dialog to end the session
    or its handler to go on; the latter are returned as actions, in order.  The random
    number of the first RSeq is an argument. *)

From Stdlib Require Import ZArith Lia Ascii String Sorted.
From stdpp Require Import base list.
From S2P Require Import Prelude SipMsg MimeBody DialogMsg.

Local Open Scope Z_scope.
Local Open Scope bool_scope.

(** [AmBasicSipDialog::Status]. *)
Inductive Status :=
| Disconnected | Trying | Proceeding | Cancelling | Early | Connected | Disconnecting.

#[export] Instance Status_eq_dec : EqDecision Status.
Proof. solve_decision. Defined.

Inductive rel_state := REL100_DISABLED | REL100_SUPPORTED | REL100_REQUIRE | REL100_IGNORED.

#[export] Instance rel_state_eq_dec : EqDecision rel_state.
Proof. solve_decision. Defined.

Record Am100rel := mk_rel {
  reliable_1xx : rel_state;
  rseq : Z;
  rseq_confirmed : bool;
  rseq_1st : Z;
  rseq_last : Z
}.

Definition rel_init (cfg : rel_state) : Am100rel := mk_rel cfg 0 false 0 0.

Definition set_reliable (x : rel_state) (r : Am100rel) : Am100rel :=
  mk_rel x (rseq r) (rseq_confirmed r) (rseq_1st r) (rseq_last r).
Definition set_confirmed (x : bool) (r : Am100rel) : Am100rel :=
  mk_rel (reliable_1xx r) (rseq r) x (rseq_1st r) (rseq_last r).
Definition set_rseq_last (x : Z) (r : Am100rel) : Am100rel :=
  mk_rel (reliable_1xx r) (rseq r) (rseq_confirmed r) (rseq_1st r) x.

Inductive rel_action :=
| RelBye            (* dlg->bye() *)
| RelFailure        (* hdl->onFailure() *)
| Rel1xx            (* hdl->onInvite1xxRel(reply) *)
| RelPrack2xx       (* hdl->onPrack2xx(reply) *)
| RelNoPrack.       (* hdl->onNoPrack(req, rpl) *)

(** [Some code]: the request was refused with that code. *)
Definition rel_onRequestIn (req : AmSipRequest) (r : Am100rel) : Am100rel * option Z :=
  match reliable_1xx r with
  | REL100_IGNORED => (r, None)
  | st =>
      if meth_eqb (rq_method req) M_INVITE then
        match st with
        | REL100_SUPPORTED =>
            (if rq_supported req || rq_require req then set_reliable REL100_REQUIRE r else r, None)
        | REL100_REQUIRE =>
            (r, if negb (rq_supported req || rq_require req) then Some 421 else None)
        | REL100_DISABLED => (r, if rq_require req then Some 420 else None)
        | REL100_IGNORED => (r, None)
        end
      else if meth_eqb (rq_method req) M_PRACK then
        if negb (bool_decide (st = REL100_REQUIRE)) then (r, None)
        else if (rseq_1st r <=? rq_rseq req) && (rq_rseq req <=? rseq r) then
          (if rq_rseq req =? rseq r then set_confirmed true r else r, None)
        else (r, None)
      else (r, None)
  end.

(** The case [REL100_REQUIRE] of [onReplyIn]. *)
Definition rel_require_in (reply : AmSipReply) (r : Am100rel) : Am100rel * list rel_action :=
  let n := default 0 (rp_rseq reply) in
  if negb (rp_require reply) || (n =? 0) then (r, [RelBye; RelFailure])
  else if rseq_last r <? n then (set_rseq_last n r, [Rel1xx])
  else (r, []).

(** The result [false]: the reply is absorbed. *)
Definition rel_onReplyIn (st : Status) (reply : AmSipReply) (r : Am100rel)
  : Am100rel * list rel_action * bool :=
  let c := rp_code reply in
  if bool_decide (reliable_1xx r = REL100_IGNORED) then (r, [], true)
  else if negb (bool_decide (st = Trying)) && negb (bool_decide (st = Proceeding)) &&
          negb (bool_decide (st = Early)) && negb (bool_decide (st = Connected))
  then (r, [], true)
  else if (100 <? c) && (c <? 200) && meth_eqb (rp_method reply) M_INVITE then
    match reliable_1xx r with
    | REL100_SUPPORTED =>
        if rp_require reply
        then (rel_require_in reply (set_reliable REL100_REQUIRE r), true)
        else (r, [], true)
    | REL100_REQUIRE => (rel_require_in reply r, true)
    | _ => (r, [], true)
    end
  else if negb (bool_decide (reliable_1xx r = REL100_DISABLED)) && meth_eqb (rp_method reply) M_PRACK then
    (r, if 300 <=? c then [RelBye; RelFailure] else if 200 <=? c then [RelPrack2xx] else [], false)
  else (r, [], true).

Definition rel_onRequestOut (req : AmSipRequest) (r : Am100rel) : AmSipRequest :=
  if negb (meth_eqb (rq_method req) M_INVITE) then req
  else
    let with_hdrs s q :=
      build_req (rq_method req) (rq_cseq req) (rq_body req) (rq_from_tag req) (rq_rseq req) s q in
    match reliable_1xx r with
    | REL100_SUPPORTED => if rq_require req then req else with_hdrs true (rq_require req)
    | REL100_REQUIRE => with_hdrs (rq_supported req) true
    | _ => req
    end.

Definition set_rp_rel (s q : bool) (n : option Z) (reply : AmSipReply) : AmSipReply :=
  build_rpl (rp_code reply) (rp_cseq reply) (rp_method reply) (rp_body reply) (rp_to_tag reply) n s q.

(** The case [REL100_REQUIRE] for a provisional reply: Require is added, and the next RSeq
    unless the application has put one; [None] is the exception 491. *)
Definition rel_number (rnd : Z) (reply : AmSipReply) (r : Am100rel) : option (Am100rel * AmSipReply) :=
  match rp_rseq reply with
  | Some n => Some (r, set_rp_rel (rp_supported reply) true (Some n) reply)
  | None =>
      let numbered (r : Am100rel) :=
        Some (r, set_rp_rel (rp_supported reply) true (Some (rseq r)) reply) in
      if rseq r =? 0 then
        let n := Z.land rnd 1023 + 1 in
        numbered (mk_rel (reliable_1xx r) n false n (rseq_last r))
      else if negb (rseq_confirmed r) && (rseq_1st r =? rseq r) then None
      else numbered (mk_rel (reliable_1xx r) (u32 (rseq r + 1)) (rseq_confirmed r) (rseq_1st r)
                       (rseq_last r))
  end.

Definition rel_onReplyOut (rnd : Z) (reply : AmSipReply) (r : Am100rel)
  : option (Am100rel * AmSipReply) :=
  let c := rp_code reply in
  if bool_decide (reliable_1xx r = REL100_IGNORED) then Some (r, reply)
  else if meth_eqb (rp_method reply) M_INVITE then
    if (100 <? c) && (c <? 200) then
      match reliable_1xx r with
      | REL100_SUPPORTED =>
          Some (r, if rp_require reply then reply
                   else set_rp_rel true (rp_require reply) (rp_rseq reply) reply)
      | REL100_REQUIRE => rel_number rnd reply r
      | _ => Some (r, reply)
      end
    else if (c <? 300) && bool_decide (reliable_1xx r = REL100_REQUIRE) then
      if negb (rseq r =? 0) && negb (rseq_confirmed r) then None else Some (r, reply)
    else Some (r, reply)
  else Some (r, reply).

Definition rel_onTimeout (rpl : AmSipReply) (r : Am100rel) : list rel_action :=
  if bool_decide (reliable_1xx r = REL100_IGNORED) then []
  else if (100 <? rp_code rpl) && (rp_code rpl <? 200) && bool_decide (reliable_1xx r = REL100_REQUIRE) &&
          (rseq r =? default 0 (rp_rseq rpl)) && meth_eqb (rp_method rpl) M_INVITE
  then [RelNoPrack] else [].

(** ** What is reliable *)

Definition is_1xx (c : Z) : Prop := 100 < c < 200.

(** The first reliable provisional reply. *)
Lemma rel_first rnd rpl r :
  reliable_1xx r = REL100_REQUIRE -> rseq r = 0 -> rp_method rpl = M_INVITE ->
  is_1xx (rp_code rpl) -> rp_rseq rpl = None ->
  rel_onReplyOut rnd rpl r =
  let n := Z.land rnd 1023 + 1 in
  Some (mk_rel REL100_REQUIRE n false n (rseq_last r), set_rp_rel (rp_supported rpl) true (Some n) rpl).
Proof.
  intros Hr Hz Hm [Hlo Hhi] Hn. unfold rel_onReplyOut, rel_number. rewrite Hr, Hm, Hz, Hn.
  rewrite (proj2 (Z.ltb_lt 100 _)), (proj2 (Z.ltb_lt _ 200)) by done. done.
Qed.

(** C14: the first reliable provisional reply to an INVITE carries an RSeq between 1 and 1024,
    and until the peer acknowledges that RSeq with a PRACK neither another provisional nor
    a 2xx reply can be sent (the session gets an exception); a PRACK with that number, and
    no other PRACK, ends this. *)
Theorem rel_waits_for_prack rnd rpl r r1 rpl1 :
  reliable_1xx r = REL100_REQUIRE -> rseq r = 0 -> rp_method rpl = M_INVITE ->
  is_1xx (rp_code rpl) -> rp_rseq rpl = None ->
  rel_onReplyOut rnd rpl r = Some (r1, rpl1) ->
  1 <= rseq r1 <= 1024 /\ rp_rseq rpl1 = Some (rseq r1) /\
  (forall rnd' rpl', rp_method rpl' = M_INVITE -> 100 < rp_code rpl' < 300 -> rp_rseq rpl' = None ->
     rel_onReplyOut rnd' rpl' r1 = None) /\
  (forall req, rq_method req = M_PRACK ->
     let r2 := fst (rel_onRequestIn req r1) in
     if rq_rseq req =? rseq r1
     then forall rnd' rpl', rel_onReplyOut rnd' rpl' r2 <> None
     else r2 = r1).
Proof.
  intros Hr Hz Hm Hc Hn. rewrite rel_first by done. intros [= <- <-].
  set (n := Z.land rnd 1023 + 1).
  assert (Hn0 : 1 <= n <= 1024).
  { subst n. change 1023 with (Z.ones 10). rewrite Z.land_ones by lia.
    pose proof (Z.mod_pos_bound rnd (2 ^ 10) ltac:(lia)). lia. }
  cbn [rseq rp_rseq set_rp_rel]. split; [done|]. split; [done|]. split.
  - intros rnd' rpl' Hm' Hc' Hn'. unfold rel_onReplyOut, rel_number. cbn. rewrite Hm', Hn'.
    rewrite (proj2 (Z.eqb_neq n 0)) by lia. rewrite Z.eqb_refl. cbn.
    rewrite (proj2 (Z.ltb_lt 100 _)), (proj2 (Z.ltb_lt _ 300)) by lia. by destruct (_ <? 200).
  - intros req Hp. unfold rel_onRequestIn. cbn [reliable_1xx]. rewrite Hp.
    cbn [rseq rseq_1st]. change (meth_eqb M_PRACK M_INVITE) with false.
    change (meth_eqb M_PRACK M_PRACK) with true. rewrite bool_decide_eq_true_2 by done. cbn [negb].
    destruct (rq_rseq req =? n) eqn:He; zbool.
    + rewrite He, !Z.leb_refl. cbn. intros rnd' rpl'. unfold rel_onReplyOut, rel_number. cbn.
      rewrite (proj2 (Z.eqb_neq n 0)) by lia. cbn. by repeat case_match.
    + by destruct (_ && _).
Qed.

(** Once the first reliable provisional reply has been acknowledged, later ones are not
    waited for: the flag is not reset when the RSeq is advanced, and a 2xx is let through
    while the last reliable provisional reply is not acknowledged, which the exception
    text says is refused. *)
Theorem rel_last_1xx_not_awaited rnd rpl r r1 rpl1 rnd' rpl2xx :
  reliable_1xx r = REL100_REQUIRE -> rseq r <> 0 -> rseq_confirmed r = true ->
  rp_method rpl = M_INVITE -> is_1xx (rp_code rpl) -> rp_rseq rpl = None ->
  rel_onReplyOut rnd rpl r = Some (r1, rpl1) ->
  200 <= rp_code rpl2xx < 300 ->
  rseq r1 = u32 (rseq r + 1) /\ rp_rseq rpl1 = Some (rseq r1) /\
  rel_onReplyOut rnd' rpl2xx r1 = Some (r1, rpl2xx).
Proof.
  intros Hr Hz Hcf Hm [Hlo Hhi] Hn. unfold rel_onReplyOut at 1, rel_number.
  rewrite Hr, Hm, Hn, Hcf. rewrite (proj2 (Z.ltb_lt 100 _)), (proj2 (Z.ltb_lt _ 200)) by done.
  rewrite (proj2 (Z.eqb_neq (rseq r) 0)) by done. cbn. intros [= <- <-] H2.
  split; [done|]. split; [done|]. unfold rel_onReplyOut. cbn.
  rewrite (proj2 (Z.ltb_ge _ 200)) by lia. rewrite andb_false_r, andb_false_r.
  by repeat case_match.
Qed.

(** The RSeq numbers of the provisional replies handed to the session. *)
Fixpoint rel_accepted (l : list (Status * AmSipReply)) (r : Am100rel) : list Z :=
  match l with
  | [] => []
  | (st, rpl) :: l =>
      let '(r', acts, _) := rel_onReplyIn st rpl r in
      (if existsb (fun a => match a with Rel1xx => true | _ => false end) acts
       then [default 0 (rp_rseq rpl)] else []) ++ rel_accepted l r'
  end.

Lemma rel_in_last st rpl r :
  let '(r', acts, _) := rel_onReplyIn st rpl r in
  if existsb (fun a => match a with Rel1xx => true | _ => false end) acts
  then rseq_last r < default 0 (rp_rseq rpl) /\ rseq_last r' = default 0 (rp_rseq rpl)
  else rseq_last r' = rseq_last r.
Proof.
  assert (Hreq : forall r0, rseq_last r0 = rseq_last r ->
    let '(r', acts) := rel_require_in rpl r0 in
    if existsb (fun a => match a with Rel1xx => true | _ => false end) acts
    then rseq_last r < default 0 (rp_rseq rpl) /\ rseq_last r' = default 0 (rp_rseq rpl)
    else rseq_last r' = rseq_last r).
  { intros r0 H0. unfold rel_require_in. destruct (_ || _); [done|]. rewrite H0.
    destruct (_ <? _) eqn:Hlt; cbn; zbool; done. }
  unfold rel_onReplyIn. cbn zeta.
  destruct (bool_decide _); [done|]. destruct (_ && _ && _ && _); [done|].
  destruct (_ && _ && _).
  - destruct (reliable_1xx r); try done.
    + destruct (rp_require rpl); [|done].
      pose proof (Hreq (set_reliable REL100_REQUIRE r) eq_refl) as H.
      by destruct (rel_require_in rpl _).
    + pose proof (Hreq r eq_refl) as H. by destruct (rel_require_in rpl _).
  - destruct (_ && _); [|done]. by repeat case_match.
Qed.

(** Whatever replies arrive, the reliable provisional replies handed to the session (to be
    acknowledged with a PRACK) have strictly increasing RSeq numbers: a re-transmission is
    never handed over twice. *)
Theorem rel_1xx_once l r :
  StronglySorted Z.lt (rel_accepted l r) /\ Forall (fun n => rseq_last r < n) (rel_accepted l r).
Proof.
  revert r. induction l as [|[st rpl] l IH]; intros r; cbn [rel_accepted]; [by split; constructor|].
  pose proof (rel_in_last st rpl r) as H.
  destruct (rel_onReplyIn st rpl r) as [[r' acts] cont]. destruct (IH r') as [IH1 IH2].
  destruct (existsb _ acts); cbn [app].
  - destruct H as [Hlt Heq]. rewrite Heq in IH2. split; [by constructor|].
    constructor; [done|]. eapply Forall_impl; [exact IH2|]. cbn. lia.
  - by rewrite H in IH2.
Qed.

(** ** Witnesses *)

Lemma rel_waits_for_prack_witness :
  let r := rel_init REL100_REQUIRE in
  exists r1 rpl1, rel_onReplyOut 4711 (mk_rpl 183 1 M_INVITE mime_empty_body) r = Some (r1, rpl1) /\
    1 <= rseq r1 <= 1024.
Proof.
  eexists _, _. split; [reflexivity|].
  refine (proj1 (rel_waits_for_prack 4711 (mk_rpl 183 1 M_INVITE mime_empty_body)
    (rel_init REL100_REQUIRE) _ _ _ _ _ _ _ _)); (reflexivity || (split; reflexivity)).
Defined.

Lemma rel_last_1xx_not_awaited_witness :
  let r := mk_rel REL100_REQUIRE 5 true 5 0 in
  exists r1 rpl1, rel_onReplyOut 0 (mk_rpl 183 1 M_INVITE mime_empty_body) r = Some (r1, rpl1) /\
    rel_onReplyOut 0 (mk_rpl 200 1 M_INVITE mime_empty_body) r1 =
      Some (r1, mk_rpl 200 1 M_INVITE mime_empty_body).
Proof.
  eexists _, _. split; [reflexivity|].
  refine (proj2 (proj2 (rel_last_1xx_not_awaited 0 (mk_rpl 183 1 M_INVITE mime_empty_body)
    (mk_rel REL100_REQUIRE 5 true 5 0) _ _ 0 (mk_rpl 200 1 M_INVITE mime_empty_body)
    _ _ _ _ _ _ _ _)));
    (reflexivity || discriminate || (split; reflexivity) || (cbn; lia)).
Defined.
