(* ===== verification/OfferAnswer.v ===== *)
(** * The SDP offer/answer state of a dialog

    The fields of a dialog, and the model of [core/AmOfferAnswer.cpp], its offer/answer
    machine (RFC 3264), with the handlers for requests and replies in both directions.

    The SDP itself (AmSdp: parser, printer), the session that is asked for an offer or an
    answer and told that the exchange is complete, and the dialog through which an error is
    answered are an environment.  The dialog calls the machine back while it sends an
    error reply or a BYE; its reactions ([dialog_ops]) are functions on the state, about
    which the interface [Dialog] of OfferAnswerSpec says what the machine relies on; the
    dialog of SipDialog implements it. *)

From Stdlib Require Import ZArith Lia Ascii String.
From stdpp Require Import base list.
From S2P Require Import Prelude SipMsg MimeBody DialogMsg Rel100.

Local Open Scope Z_scope.
Local Open Scope bool_scope.

(** ** The machine *)

Inductive OAState := OA_None | OA_OfferRecved | OA_OfferSent | OA_Completed.

#[export] Instance OAState_eq_dec : EqDecision OAState.
Proof. solve_decision. Defined.

Section OfferAnswer.
Context {sdp : Type}.

(** What the machine and the dialog tell the session and the peer, newest first. *)
Inductive oa_event :=
| OReply (code : Z)                       (* dlg->reply *)
| OBye                                    (* dlg->bye *)
| OCompleted (local remote : sdp)         (* the session's onSdpCompleted *)
| OEarlyStart                             (* onEarlySessionStart *)
| OStart                                  (* onSessionStart *)
| DTxReply (rpl : AmSipReply)             (* a reply sent *)
| DTxRequest (req : AmSipRequest)         (* a request sent *)
| DError (cseq code : Z)                  (* reply_error: a reply outside of the dialog *)
| DCancel (cseq : Z)                      (* a CANCEL for the INVITE with that cseq *)
| DRequest (req : AmSipRequest)           (* onSipRequest *)
| DReply (rpl : AmSipReply) (old : Status) (* onSipReply *)
| DInvite2xx (rpl : AmSipReply)           (* onInvite2xx *)
| DDisappeared (code : Z)                 (* onRemoteDisappeared *)
| DLocalTerminate (code : Z)              (* onLocalTerminate *)
| DNoAck (cseq : Z)                       (* onNoAck *)
| DRel (a : rel_action).                  (* the calls of Am100rel *)

(** [AmSipDialog] and [AmBasicSipDialog]; [d_callid] is whether the dialog is initialised
    (its Call-ID is not empty), [d_sends] counts the messages given to the network. *)
Record AmSipDialog := mk_dlg {
  d_hdl : bool;                           (* an event handler is set *)
  d_status : Status;
  d_sdp_local : sdp;
  d_sdp_remote : sdp;
  early_session_started : bool;
  session_started : bool;
  d_callid : bool;
  remote_tag : cstring;
  d_cseq : Z;
  r_cseq : Z;
  r_cseq_i : bool;
  uas_trans : TransMap;
  uac_trans : TransMap;
  pending_invites : Z;
  rel100 : Am100rel;
  d_sends : nat
}.

Definition set_d_status (x : Status) (d : AmSipDialog) : AmSipDialog :=
  mk_dlg (d_hdl d) x (d_sdp_local d) (d_sdp_remote d) (early_session_started d) (session_started d)
    (d_callid d) (remote_tag d) (d_cseq d) (r_cseq d) (r_cseq_i d) (uas_trans d) (uac_trans d)
    (pending_invites d) (rel100 d) (d_sends d).
Definition set_session (l r : sdp) (early start : bool) (d : AmSipDialog) : AmSipDialog :=
  mk_dlg (d_hdl d) (d_status d) l r early start (d_callid d) (remote_tag d) (d_cseq d) (r_cseq d)
    (r_cseq_i d) (uas_trans d) (uac_trans d) (pending_invites d) (rel100 d) (d_sends d).
Definition set_remote_tag (c : bool) (x : cstring) (d : AmSipDialog) : AmSipDialog :=
  mk_dlg (d_hdl d) (d_status d) (d_sdp_local d) (d_sdp_remote d) (early_session_started d)
    (session_started d) c x (d_cseq d) (r_cseq d) (r_cseq_i d) (uas_trans d) (uac_trans d)
    (pending_invites d) (rel100 d) (d_sends d).
Definition set_d_cseq (x : Z) (d : AmSipDialog) : AmSipDialog :=
  mk_dlg (d_hdl d) (d_status d) (d_sdp_local d) (d_sdp_remote d) (early_session_started d)
    (session_started d) (d_callid d) (remote_tag d) x (r_cseq d) (r_cseq_i d) (uas_trans d)
    (uac_trans d) (pending_invites d) (rel100 d) (d_sends d).
Definition set_r_cseq (x : Z) (d : AmSipDialog) : AmSipDialog :=
  mk_dlg (d_hdl d) (d_status d) (d_sdp_local d) (d_sdp_remote d) (early_session_started d)
    (session_started d) (d_callid d) (remote_tag d) (d_cseq d) x true (uas_trans d) (uac_trans d)
    (pending_invites d) (rel100 d) (d_sends d).
Definition set_uas (x : TransMap) (d : AmSipDialog) : AmSipDialog :=
  mk_dlg (d_hdl d) (d_status d) (d_sdp_local d) (d_sdp_remote d) (early_session_started d)
    (session_started d) (d_callid d) (remote_tag d) (d_cseq d) (r_cseq d) (r_cseq_i d) x
    (uac_trans d) (pending_invites d) (rel100 d) (d_sends d).
Definition set_uac (x : TransMap) (d : AmSipDialog) : AmSipDialog :=
  mk_dlg (d_hdl d) (d_status d) (d_sdp_local d) (d_sdp_remote d) (early_session_started d)
    (session_started d) (d_callid d) (remote_tag d) (d_cseq d) (r_cseq d) (r_cseq_i d)
    (uas_trans d) x (pending_invites d) (rel100 d) (d_sends d).
Definition set_pending (x : Z) (d : AmSipDialog) : AmSipDialog :=
  mk_dlg (d_hdl d) (d_status d) (d_sdp_local d) (d_sdp_remote d) (early_session_started d)
    (session_started d) (d_callid d) (remote_tag d) (d_cseq d) (r_cseq d) (r_cseq_i d)
    (uas_trans d) (uac_trans d) x (rel100 d) (d_sends d).
Definition set_rel100 (x : Am100rel) (d : AmSipDialog) : AmSipDialog :=
  mk_dlg (d_hdl d) (d_status d) (d_sdp_local d) (d_sdp_remote d) (early_session_started d)
    (session_started d) (d_callid d) (remote_tag d) (d_cseq d) (r_cseq d) (r_cseq_i d)
    (uas_trans d) (uac_trans d) (pending_invites d) x (d_sends d).
Definition set_sends (x : nat) (d : AmSipDialog) : AmSipDialog :=
  mk_dlg (d_hdl d) (d_status d) (d_sdp_local d) (d_sdp_remote d) (early_session_started d)
    (session_started d) (d_callid d) (remote_tag d) (d_cseq d) (r_cseq d) (r_cseq_i d)
    (uas_trans d) (uac_trans d) (pending_invites d) (rel100 d) x.

(** The machine, with the dialog it belongs to. *)
Record oa := mk_oa {
  state : OAState;
  saved_state : OAState;
  cseq : Z;
  sdp_remote : sdp;
  sdp_local : sdp;
  dlg : AmSipDialog;
  oa_events : list oa_event
}.

(** The SDP code: [sdp_parse old text] is the new value and the error flag.  The session:
    an offer or answer and whether there is one; the result of [onSdpCompleted].  Then the
    configuration and the network: whether the [n]-th message can be sent, the random
    number of the first RSeq, [AmConfig::rel100] and [AmConfig::IgnoreNotifyLowerCSeq]. *)
Record oa_env := mk_oa_env {
  sdp_empty : sdp;
  sdp_parse : sdp -> cstring -> sdp * bool;
  sdp_no_media : sdp -> bool;
  sdp_print : sdp -> cstring;
  get_offer : sdp -> sdp * bool;
  get_answer : sdp -> sdp -> sdp * bool;
  sdp_completed : sdp -> sdp -> Z;
  tx_ok : nat -> bool;
  random_rseq : nat -> Z;
  cfg_rel100 : rel_state;
  ignore_notify_cseq : bool
}.

(** The calls of the machine back into the dialog. *)
Record dialog_ops := mk_dialog_ops {
  dlg_replied : AmSipRequest -> Z -> oa -> oa;
  dlg_byed : oa -> oa
}.

Context (E : oa_env) (D : dialog_ops).

Definition set_st (x : OAState) (o : oa) : oa :=
  mk_oa x (saved_state o) (cseq o) (sdp_remote o) (sdp_local o) (dlg o) (oa_events o).
Definition set_cseq (x : Z) (o : oa) : oa :=
  mk_oa (state o) (saved_state o) x (sdp_remote o) (sdp_local o) (dlg o) (oa_events o).
Definition set_remote (x : sdp) (o : oa) : oa :=
  mk_oa (state o) (saved_state o) (cseq o) x (sdp_local o) (dlg o) (oa_events o).
Definition set_local (x : sdp) (o : oa) : oa :=
  mk_oa (state o) (saved_state o) (cseq o) (sdp_remote o) x (dlg o) (oa_events o).
Definition set_dlg (x : AmSipDialog) (o : oa) : oa :=
  mk_oa (state o) (saved_state o) (cseq o) (sdp_remote o) (sdp_local o) x (oa_events o).
Definition oa_emit (e : oa_event) (o : oa) : oa :=
  mk_oa (state o) (saved_state o) (cseq o) (sdp_remote o) (sdp_local o) (dlg o) (e :: oa_events o).

Definition oa_init (hdl : bool) : oa :=
  mk_oa OA_None OA_None 0 (sdp_empty E) (sdp_empty E)
    (mk_dlg hdl Disconnected (sdp_empty E) (sdp_empty E) false false false [] 10 0 false [] [] 0
       (rel_init (cfg_rel100 E)) 0%nat) [].

Definition saveState (o : oa) : oa :=
  mk_oa (state o) (state o) (cseq o) (sdp_remote o) (sdp_local o) (dlg o) (oa_events o).

Definition clear (o : oa) : oa :=
  mk_oa OA_None (saved_state o) 0 (sdp_empty E) (sdp_empty E) (dlg o) (oa_events o).

Definition clearTransitionalState (o : oa) : oa :=
  if negb (bool_decide (state o = OA_Completed)) then clear o else o.

(** [AmSipDialog::onSdpCompleted]. *)
Definition onSdpCompleted (o : oa) : oa * Z :=
  if negb (d_hdl (dlg o)) then (o, 0)
  else
    let r := sdp_completed E (sdp_local o) (sdp_remote o) in
    let o := oa_emit (OCompleted (sdp_local o) (sdp_remote o)) o in
    if r =? 0 then
      let d := dlg o in
      let early := bool_decide (d_status d = Early) && negb (early_session_started d) in
      let start := bool_decide (d_status d = Connected) && negb (session_started d) in
      let o := if early then oa_emit OEarlyStart o else o in
      let o := if start then oa_emit OStart o else o in
      (set_dlg (set_session (sdp_local o) (sdp_remote o) (early || early_session_started d)
                  (start || session_started d) d) o, r)
    else (clear o, r).

Definition checkStateChange (o : oa) : oa * Z :=
  if negb (bool_decide (saved_state o = state o)) && bool_decide (state o = OA_Completed)
  then onSdpCompleted o else (o, 0).

(** [AmSipDialog::getSdpOffer], [getSdpAnswer]: the session is asked if there is one. *)
Definition getSdpOffer (o : oa) : sdp * bool :=
  if d_hdl (dlg o) then get_offer E (sdp_local o) else (sdp_local o, false).
Definition getSdpAnswer (o : oa) : sdp * bool :=
  if d_hdl (dlg o) then get_answer E (sdp_remote o) (sdp_local o) else (sdp_local o, false).

(** [getSdpBody]: the text, [None] on error. *)
Definition getSdpBody (o : oa) : oa * option cstring :=
  match state o with
  | OA_None | OA_Completed =>
      let '(l, ok) := getSdpOffer o in
      (set_local l o, if ok then Some (sdp_print E l) else None)
  | OA_OfferRecved =>
      let '(l, ok) := getSdpAnswer o in
      (set_local l o, if ok then Some (sdp_print E l) else None)
  | OA_OfferSent => (o, None)
  end.

Definition onRxSdp (m_cseq : Z) (body : mime) (o : oa) : oa * Z :=
  let '(o, err) :=
    match hasContentType SIP_APPLICATION_SDP body with
    | None =>
        (o, if negb (body_empty body) &&
               negb (match hasContentType CSTA body with Some _ => true | None => false end)
            then 400 else 0)
    | Some r =>
        let '(s, failed) := sdp_parse E (sdp_remote o) (getPayload r body) in
        (set_remote s o, if failed then 400 else if sdp_no_media E s then 400 else 0)
    end in
  let o := if negb (err =? 0) then set_remote (sdp_empty E) o else o in
  if err =? 0 then
    match state o with
    | OA_None | OA_Completed => (set_cseq m_cseq (set_st OA_OfferRecved o), 0)
    | OA_OfferSent => (set_st OA_Completed o, 0)
    | OA_OfferRecved => (o, 400)
    end
  else (o, err).

(** [true] is the return value 0. *)
Definition onTxSdp (m_cseq : Z) (body : mime) (o : oa) : oa * bool :=
  if body_empty body then (o, false)
  else
    match state o with
    | OA_None | OA_Completed => (set_cseq m_cseq (set_st OA_OfferSent o), true)
    | OA_OfferRecved => (set_st OA_Completed o, true)
    | OA_OfferSent => (o, false)
    end.

(** ** Handlers; a result [true] is the return value 0 *)

Definition onRequestIn (req : AmSipRequest) (o : oa) : oa * bool :=
  let o := saveState o in
  let meth := rq_method req in
  let body := rq_body req in
  let '(o, err) :=
    if (meth_eqb meth M_INVITE || meth_eqb meth M_UPDATE || meth_eqb meth M_ACK ||
        meth_eqb meth M_PRACK) && negb (body_empty body)
    then
      match hasContentType SIP_APPLICATION_SDP body with
      | Some r => onRxSdp (rq_cseq req) (part_at r body) o
      | None => (o, if has CSTA body then 0 else 400)
      end
    else (o, 0) in
  let '(o, chg) := checkStateChange o in
  let err := if chg =? 0 then err else 500 in
  let o :=
    if err =? 0 then o
    else if negb (meth_eqb meth M_ACK) then dlg_replied D req err (oa_emit (OReply err) o)
    else dlg_byed D (oa_emit OBye o) in
  let o :=
    if meth_eqb meth M_ACK && (rq_cseq req =? cseq o) then clearTransitionalState o else o in
  (o, err =? 0).

Definition onReplyIn (reply : AmSipReply) (o : oa) : oa * bool :=
  if (300 <=? rp_code reply) && (rp_cseq reply =? cseq o) then (clearTransitionalState o, true)
  else
    let meth := rp_method reply in
    let body := rp_body reply in
    let '(o, err) :=
      if (meth_eqb meth M_INVITE || meth_eqb meth M_UPDATE || meth_eqb meth M_PRACK) &&
         negb (body_empty body) && (has SIP_APPLICATION_SDP body || has CSTA body)
      then
        if (bool_decide (state o = OA_Completed) || bool_decide (state o = OA_OfferRecved)) &&
           (rp_cseq reply =? cseq o)
        then (if rp_code reply =? 200 then fst (onSdpCompleted o) else o, 0)
        else
          let '(o, err) := onRxSdp (rp_cseq reply) body (saveState o) in
          (fst (checkStateChange o), err)
      else (o, 0) in
    (if err =? 0 then o else dlg_byed D (oa_emit OBye o), true).

(** The end of [onRequestOut]. *)
Definition request_out_end (req : AmSipRequest) (body : mime) (has_sdp : bool) (o : oa)
  : oa * AmSipRequest * bool :=
  let req := set_rq_body body req in
  if has_sdp || (has CSTA body && negb (meth_eqb (rq_method req) M_INFO)) then
    let '(o, ok) := onTxSdp (rq_cseq req) body o in (o, req, ok)
  else (o, req, true).

(** [None] is the use of a null [sdp_body]. *)
Definition onRequestOut (req : AmSipRequest) (o : oa) : option (oa * AmSipRequest * bool) :=
  let meth := rq_method req in
  let sdp_body := hasContentType SIP_APPLICATION_SDP (rq_body req) in
  let len := match sdp_body with Some r => getPayload r (rq_body req) | None => [] end in
  let generate_sdp := match sdp_body, len with Some _, [] => true | _, _ => false end in
  let has_sdp := match sdp_body, len with Some _, _ :: _ => true | _, _ => false end in
  let '(body, sdp_body, generate_sdp) :=
    if negb (match sdp_body with Some _ => true | None => false end) &&
       negb (has CSTA (rq_body req)) && (meth_eqb meth M_PRACK || meth_eqb meth M_ACK) &&
       bool_decide (state o = OA_OfferRecved)
    then let '(b, r) := addPart (cs "application") (cs "sdp") (rq_body req) in (b, r, true)
    else (rq_body req, sdp_body, generate_sdp) in
  let o := saveState o in
  if generate_sdp then
    let '(o, txt) := getSdpBody o in
    match txt with
    | None => Some (o, set_rq_body body req, false)
    | Some txt =>
        match sdp_body with
        | None => None
        | Some r => Some (request_out_end req (setPayload r txt body) true o)
        end
    end
  else
    match sdp_body with
    | Some r =>
        if has_sdp then
          Some (request_out_end req body has_sdp
                  (set_local (fst (sdp_parse E (sdp_local o) (getPayload r body))) o))
        else Some (request_out_end req body has_sdp o)
    | None => Some (request_out_end req body has_sdp o)
    end.

(** Whether [onReplyOut] forces SDP into a reply that has none. *)
Definition force_sdp (reply : AmSipReply) (st : OAState) : bool :=
  let c := rp_code reply in
  if meth_eqb (rp_method reply) M_INVITE then
    ((c =? 183) || ((200 <=? c) && (c <? 300))) && negb (bool_decide (st = OA_OfferSent))
  else if meth_eqb (rp_method reply) M_UPDATE then
    (200 <=? c) && (c <? 300) && bool_decide (st = OA_OfferRecved)
  else false.

(** The end of [onReplyOut]. *)
Definition reply_out_end (reply : AmSipReply) (body : mime) (has_sdp : bool) (o : oa)
  : oa * AmSipReply * bool :=
  let reply := set_rp_body body reply in
  let '(o, ok) :=
    if has_sdp || (negb (meth_eqb (rp_method reply) M_INFO) && has CSTA body)
    then onTxSdp (rp_cseq reply) body o else (o, true) in
  if negb ok then (o, reply, false)
  else
    (if (300 <=? rp_code reply) && (rp_cseq reply =? cseq o) then clearTransitionalState o else o,
     reply, true).

Definition onReplyOut (reply : AmSipReply) (o : oa) : oa * AmSipReply * bool :=
  let body := rp_body reply in
  let c := rp_code reply in
  let meth := rp_method reply in
  let sdp_body := hasContentType SIP_APPLICATION_SDP body in
  let len := match sdp_body with Some r => getPayload r body | None => [] end in
  let generate_sdp := match sdp_body, len with Some _, [] => true | _, _ => false end in
  let has_sdp := match sdp_body, len with Some _, _ :: _ => true | _, _ => false end in
  let generate_sdp :=
    if negb has_sdp && negb generate_sdp && negb (has CSTA body)
    then force_sdp reply (state o) else generate_sdp in
  let has_sdp :=
    if meth_eqb meth M_INVITE && (c <? 300) && has_sdp &&
       (bool_decide (state o = OA_Completed) || bool_decide (state o = OA_OfferSent)) &&
       (rp_cseq reply =? cseq o)
    then false else has_sdp in
  let o := saveState o in
  if generate_sdp then
    let '(o, txt) := getSdpBody o in
    match txt with
    | None =>
        if ((c =? 183) && meth_eqb meth M_INVITE) ||
           ((c =? 200) && meth_eqb meth M_INVITE && bool_decide (state o = OA_Completed))
        then reply_out_end reply body has_sdp o
        else (o, reply, false)
    | Some txt =>
        let '(body, r) :=
          match sdp_body with
          | Some r => (body, Some r)
          | None => addPart (cs "application") (cs "sdp") body
          end in
        match r with
        | None => (o, reply, false)
        | Some r => reply_out_end reply (setPayload r txt body) true o
        end
    end
  else
    match sdp_body with
    | Some r =>
        if has_sdp
        then reply_out_end reply body has_sdp
               (set_local (fst (sdp_parse E (sdp_local o) (getPayload r body))) o)
        else reply_out_end reply body has_sdp o
    | None => reply_out_end reply body has_sdp o
    end.

Definition onRequestSent (req : AmSipRequest) (o : oa) : oa * Z :=
  let '(o, r) := checkStateChange o in
  (if meth_eqb (rq_method req) M_ACK && (rq_cseq req =? cseq o)
   then clearTransitionalState o else o, r).

Definition onReplySent (reply : AmSipReply) (o : oa) : oa * Z :=
  let '(o, r) := checkStateChange o in
  (if (200 <=? rp_code reply) && negb (meth_eqb (rp_method reply) M_CANCEL) &&
      (rp_cseq reply =? cseq o) && negb (meth_eqb (rp_method reply) M_INVITE)
   then clearTransitionalState o else o, r).

Definition onNoAck (ack_cseq : Z) (o : oa) : oa :=
  if ack_cseq =? cseq o then clearTransitionalState o else o.

End OfferAnswer.

