(* ===== verification/OfferAnswerSpec.v ===== *)
(** * What the offer/answer machine guarantees

    The abstract machine of RFC 3264 ([exchange]), the interface [Dialog] between the
    machine and the dialog that calls it back while it answers an error or ends the
    session, and the theorems on the handlers of [AmOfferAnswer]: they follow the abstract
    machine, and the session is started at most once and only on a description it
    accepted. *)

From Stdlib Require Import ZArith Lia Ascii String.
From stdpp Require Import base list.
From S2P Require Import Prelude SipMsg MimeBody DialogMsg Rel100 OfferAnswer.

Local Open Scope Z_scope.
Local Open Scope bool_scope.

(** ** The abstract machine *)

(** The effect of an SDP sent ([tx]) or received: an offer when none is pending, the answer
    to the pending offer of the other side, or nothing that the machine allows. *)
Definition exchange (tx : bool) (s : OAState) : option OAState :=
  match s, tx with
  | OA_None, true | OA_Completed, true => Some OA_OfferSent
  | OA_None, false | OA_Completed, false => Some OA_OfferRecved
  | OA_OfferSent, false | OA_OfferRecved, true => Some OA_Completed
  | OA_OfferSent, true | OA_OfferRecved, false => None
  end.

(** The calls of the dialog into the machine; [StatusSet] is the dialog's own change of
    status between them. *)
Inductive oa_op :=
| RequestIn (req : AmSipRequest)
| ReplyIn (rpl : AmSipReply)
| RequestOut (req : AmSipRequest)
| ReplyOut (rpl : AmSipReply)
| RequestSent (req : AmSipRequest)
| ReplySent (rpl : AmSipReply)
| NoAck (c : Z)
| StatusSet (st : Status).

Definition direction (op : oa_op) : option bool :=
  match op with
  | RequestIn _ | ReplyIn _ => Some false
  | RequestOut _ | ReplyOut _ => Some true
  | _ => None
  end.

Section Spec.
Context {sdp : Type}.
Context (E : @oa_env sdp) (D : @dialog_ops sdp).

Implicit Types o : @oa sdp.

Definition set_status (st : Status) o : oa := set_dlg (set_d_status st (dlg o)) o.

Definition oa_run (op : oa_op) o : option oa :=
  match op with
  | RequestIn req => Some (fst (onRequestIn E D req o))
  | ReplyIn rpl => Some (fst (onReplyIn E D rpl o))
  | RequestOut req => option_map (fun r => fst (fst r)) (onRequestOut E req o)
  | ReplyOut rpl => Some (fst (fst (onReplyOut E rpl o)))
  | RequestSent req => Some (fst (onRequestSent E req o))
  | ReplySent rpl => Some (fst (onReplySent E rpl o))
  | NoAck c => Some (onNoAck E c o)
  | StatusSet st => Some (set_status st o)
  end.

Fixpoint oa_runs (ops : list oa_op) o : option oa :=
  match ops with
  | [] => Some o
  | op :: ops => match oa_run op o with Some o => oa_runs ops o | None => None end
  end.

(** The session was told of a description and refused it. *)
Definition refused o : Prop :=
  exists l r, In (OCompleted l r) (oa_events o) /\ sdp_completed E l r <> 0.

(** [o'] comes from [o] without an SDP exchange: the state is kept or reset, a completed
    exchange is reset only if the session refused; what was reported stays reported. *)
Definition settles o o' : Prop :=
  (exists l, oa_events o' = l ++ oa_events o) /\
  (state o' = state o \/
   (state o' = OA_None /\ (state o <> OA_Completed \/ refused o'))).

(** At most one step of the abstract machine, then [settles]. *)
Definition follows (dir : option bool) o o' : Prop :=
  exists o1, (state o1 = state o \/ exists tx, dir = Some tx /\ exchange tx (state o) = Some (state o1)) /\
             oa_events o1 = oa_events o /\ settles o1 o'.

(** Events in order: a start is reported directly after a description the session
    accepted. *)
Fixpoint events_ok (l : list (@oa_event sdp)) : Prop :=
  match l with
  | [] => True
  | e :: tl =>
      match e with
      | OStart | OEarlyStart =>
          match tl with OCompleted a b :: _ => sdp_completed E a b = 0 | _ => False end
      | _ => True
      end /\ events_ok tl
  end.

Definition count_starts (l : list (@oa_event sdp)) : nat :=
  length (List.filter (fun e => match e with OStart => true | _ => false end) l).
Definition count_early (l : list (@oa_event sdp)) : nat :=
  length (List.filter (fun e => match e with OEarlyStart => true | _ => false end) l).

Record oa_wf o : Prop := {
  wf_none : state o = OA_None -> cseq o = 0;
  wf_events : events_ok (oa_events o);
  wf_starts : count_starts (oa_events o) = if session_started (dlg o) then 1%nat else 0%nat;
  wf_early : count_early (oa_events o) = if early_session_started (dlg o) then 1%nat else 0%nat
}.

(** ** The interface to the dialog

    While it sends an error reply the dialog calls the machine back for a message without
    SDP; while it ends the session it may also send the ACK of a pending INVITE, and with
    it the answer to an offer. *)
Class Dialog : Prop := {
  replied_settles req code o : 300 <= code -> settles o (dlg_replied D req code o);
  replied_wf req code o : oa_wf o -> oa_wf (dlg_replied D req code o);
  byed_settles o :
    settles o (dlg_byed D o) \/
    ((exists l, oa_events (dlg_byed D o) = l ++ oa_events o) /\
     state o = OA_OfferRecved /\ state (dlg_byed D o) = OA_Completed);
  byed_wf o : oa_wf o -> oa_wf (dlg_byed D o)
}.

(** ** Lemmas on [settles] *)

Lemma refused_app o o' l : oa_events o' = l ++ oa_events o -> refused o -> refused o'.
Proof.
  intros He (a & b & Hin & H). exists a, b. split; [|done].
  rewrite He. apply in_or_app. by right.
Qed.

Lemma settles_refl o : settles o o.
Proof. split; [by exists []|]. by left. Qed.

Lemma settles_trans o o1 o2 : settles o o1 -> settles o1 o2 -> settles o o2.
Proof.
  intros [[l1 H1] Hs1] [[l2 H2] Hs2]. split.
  { exists (l2 ++ l1). by rewrite H2, H1, app_assoc. }
  destruct Hs1 as [Hs1|(Hs1 & Hc1)], Hs2 as [Hs2|(Hs2 & Hc2)].
  - left. congruence.
  - right. rewrite <-Hs1. auto.
  - right. split; [congruence|]. destruct Hc1; [by left|]. right. by eapply refused_app.
  - right. split; [done|]. destruct Hc1; [by left|]. right. by eapply refused_app.
Qed.

Lemma settles_clearTransitional o : settles o (clearTransitionalState E o).
Proof.
  unfold clearTransitionalState. case_bool_decide; cbn; [apply settles_refl|].
  split; [by exists []|]. right. auto.
Qed.

Lemma settles_emit e o : settles o (oa_emit e o).
Proof. split; [by exists [e]|]. by left. Qed.

Lemma settles_completed o : settles o (fst (onSdpCompleted E o)).
Proof.
  unfold onSdpCompleted. destruct (d_hdl (dlg o)); cbn; [|apply settles_refl].
  destruct (_ =? 0) eqn:Hr; cbn.
  - repeat case_match; (split; [|by left]); cbn;
      [by eexists [_; _; _]|by eexists [_; _]|by eexists [_; _]|by eexists [_]].
  - split; [by eexists [_]|]. right. split; [done|]. right.
    eexists _, _. split; [by left|]. by apply Z.eqb_neq.
Qed.

Lemma settles_check o : settles o (fst (checkStateChange E o)).
Proof.
  unfold checkStateChange. case_match; [apply settles_completed|apply settles_refl].
Qed.

(** ** Equality up to the descriptions *)

Record same o o' : Prop := {
  same_state : state o' = state o;
  same_saved : saved_state o' = saved_state o;
  same_cseq : cseq o' = cseq o;
  same_dlg : dlg o' = dlg o;
  same_events : oa_events o' = oa_events o
}.

Lemma same_refl o : same o o.
Proof. done. Qed.

Lemma same_trans o o1 o2 : same o o1 -> same o1 o2 -> same o o2.
Proof. intros [] []. split; congruence. Qed.

Lemma same_set_local x o : same o (set_local x o).
Proof. done. Qed.

Lemma same_set_remote x o : same o (set_remote x o).
Proof. done. Qed.

Lemma same_wf o o' : same o o' -> oa_wf o -> oa_wf o'.
Proof. intros [H1 H2 H3 H4 H5] []. split; rewrite ?H1, ?H3, ?H4, ?H5; done. Qed.

Lemma getSdpBody_same o : same o (fst (getSdpBody E o)).
Proof. unfold getSdpBody. repeat case_match; done. Qed.

(** ** The two steps of the machine *)

Definition steps_to (tx : bool) (c : Z) o o' : Prop :=
  exchange tx (state o) = Some (state o') /\ saved_state o' = saved_state o /\
  dlg o' = dlg o /\ oa_events o' = oa_events o /\
  cseq o' = (if bool_decide (state o' = OA_Completed) then cseq o else c).

Lemma onRxSdp_spec c body o o' err :
  onRxSdp E c body o = (o', err) ->
  (err = 0 /\ steps_to false c o o') \/ (err <> 0 /\ same o o').
Proof.
  unfold onRxSdp, steps_to. intros H.
  destruct (hasContentType SIP_APPLICATION_SDP body) as [r|].
  - destruct (sdp_parse E _ _) as [s []]; [|destruct (sdp_no_media E s)];
      try (cbn in H; injection H as <- <-; by right).
    cbn in H. destruct (state o) eqn:Hs; injection H as <- <-;
      first [by right|left; cbn; by rewrite ?Hs].
  - destruct (_ && _) in H; [cbn in H; injection H as <- <-; by right|].
    cbn in H. destruct (state o) eqn:Hs; injection H as <- <-;
      first [by right|left; cbn; by rewrite ?Hs].
Qed.

Lemma onTxSdp_spec c body o o' ok :
  onTxSdp c body o = (o', ok) ->
  (ok = true /\ steps_to true c o o') \/ (ok = false /\ o' = o).
Proof.
  unfold onTxSdp, steps_to. intros H.
  destruct (body_empty body); [injection H as <- <-; by right|].
  destruct (state o) eqn:Hs; injection H as <- <-;
    first [by right|left; cbn; by rewrite ?Hs].
Qed.

Lemma steps_wf tx c o o' : steps_to tx c o o' -> oa_wf o -> oa_wf o'.
Proof.
  intros (Hx & _ & Hd & He & _) [H1 H2 H3 H4]. split; rewrite ?Hd, ?He; try done.
  intros Hn. rewrite Hn in Hx. by destruct (state o), tx.
Qed.

Lemma clear_wf o : oa_wf o -> oa_wf (clear E o).
Proof. by intros []. Qed.

Lemma clearTransitional_wf o : oa_wf o -> oa_wf (clearTransitionalState E o).
Proof. unfold clearTransitionalState. case_match; auto using clear_wf. Qed.

Lemma emit_wf e o :
  (match e with OStart | OEarlyStart => False | _ => True end) -> oa_wf o -> oa_wf (oa_emit e o).
Proof. intros He [H1 H2 H3 H4]. by split; destruct e. Qed.

Lemma saveState_wf o : oa_wf o -> oa_wf (saveState o).
Proof. by intros []. Qed.

Lemma onSdpCompleted_wf o : oa_wf o -> oa_wf (fst (onSdpCompleted E o)).
Proof.
  intros [H1 H2 H3 H4]. unfold onSdpCompleted.
  destruct (d_hdl (dlg o)); cbn; [|by split].
  destruct (_ =? 0) eqn:Hr; cbn; [|by split].
  apply Z.eqb_eq in Hr.
  destruct (bool_decide (d_status (dlg o) = Early)) eqn:He,
    (bool_decide (d_status (dlg o) = Connected)) eqn:Hc; cbn;
    try (apply bool_decide_eq_true in He); try (apply bool_decide_eq_true in Hc);
    try congruence;
    destruct (early_session_started (dlg o)) eqn:Hes, (session_started (dlg o)) eqn:Hss; cbn;
    split; cbn; unfold count_starts, count_early in *; cbn; rewrite ?H3, ?H4; auto.
Qed.

Lemma check_wf o : oa_wf o -> oa_wf (fst (checkStateChange E o)).
Proof. unfold checkStateChange. case_match; auto using onSdpCompleted_wf. Qed.

Lemma set_status_wf st o : oa_wf o -> oa_wf (set_status st o).
Proof. by intros []. Qed.

Lemma oa_init_wf hdl : oa_wf (oa_init E hdl).
Proof. done. Qed.

Lemma settles_same o o' : same o o' -> settles o o'.
Proof. intros []. split; [by exists []|]. by left. Qed.

(** ** The handlers *)

Lemma follows_settles dir o o' : settles o o' -> follows dir o o'.
Proof. intros H. exists o. auto. Qed.

Lemma follows_then dir o o1 o2 : follows dir o o1 -> settles o1 o2 -> follows dir o o2.
Proof. intros (o0 & H1 & H2 & H3) H. exists o0. eauto using settles_trans. Qed.

Lemma follows_steps tx c o o0 o' :
  state o0 = state o -> oa_events o0 = oa_events o -> steps_to tx c o0 o' ->
  follows (Some tx) o o'.
Proof.
  intros Hs He (Hx & _ & _ & He' & _). exists o'. split; [|split; [congruence|apply settles_refl]].
  right. exists tx. by rewrite <-Hs.
Qed.

(** Receiving, from a saved state: the step or an error. *)
Lemma received o o0 o1 err c :
  state o0 = state o -> oa_events o0 = oa_events o ->
  (err = 0 /\ steps_to false c o0 o1) \/ same o0 o1 ->
  follows (Some false) o o1.
Proof.
  intros Hs He [[_ H]|H]; [by eapply follows_steps|].
  destruct H. exists o1. split; [left; congruence|]. split; [congruence|apply settles_refl].
Qed.

Lemma follows_saved dir o o' : follows dir o o' -> follows dir (saveState o) o'.
Proof. intros (o1 & H & He & Hs). by exists o1. Qed.

Lemma onReplyOut_end_spec reply body has_sdp o :
  let o' := fst (fst (reply_out_end E reply body has_sdp o)) in
  follows (Some true) o o' /\ (oa_wf o -> oa_wf o').
Proof.
  unfold reply_out_end. cbn.
  assert (Hend : forall o1, follows (Some true) o o1 -> (oa_wf o -> oa_wf o1) ->
    let o2 := if (300 <=? rp_code reply) && (rp_cseq reply =? cseq o1)
              then clearTransitionalState E o1 else o1 in
    follows (Some true) o o2 /\ (oa_wf o -> oa_wf o2)).
  { intros o1 Hf Hw. cbn. case_match; [|done].
    split; [|by auto using clearTransitional_wf].
    eapply follows_then; [done|]. apply settles_clearTransitional. }
  destruct (has_sdp || _).
  - destruct (onTxSdp _ _ _) as [o1 ok] eqn:Htx.
    destruct (onTxSdp_spec _ _ _ _ _ Htx) as [[-> Hst]|[-> ->]]; cbn.
    + apply Hend; [by eapply follows_steps|]. by eapply steps_wf.
    + split; [|done]. by apply follows_settles, settles_refl.
  - cbn. apply Hend; [|done]. by apply follows_settles, settles_refl.
Qed.

Lemma follows_same_pre dir o o1 o' : same (saveState o) o1 -> follows dir o1 o' -> follows dir o o'.
Proof.
  intros [Hs _ _ _ He] (o2 & H & He2 & H2). cbn in *. exists o2.
  split; [|split; [congruence|done]]. by rewrite <-Hs.
Qed.

Lemma wf_same_pre o o1 : same (saveState o) o1 -> oa_wf o -> oa_wf o1.
Proof. intros H Hw. eapply same_wf; [done|]. by apply saveState_wf. Qed.

Lemma onReplyOut_spec reply o :
  let o' := fst (fst (onReplyOut E reply o)) in
  follows (Some true) o o' /\ (oa_wf o -> oa_wf o').
Proof.
  assert (Hend : forall b h o1, same (saveState o) o1 ->
    let o' := fst (fst (reply_out_end E reply b h o1)) in
    follows (Some true) o o' /\ (oa_wf o -> oa_wf o')).
  { intros b h o1 Hsame. cbn. destruct (onReplyOut_end_spec reply b h o1) as [H1 H2].
    split; [by eapply follows_same_pre|]. eauto using wf_same_pre. }
  assert (Hfail : forall o1, same (saveState o) o1 ->
    follows (Some true) o o1 /\ (oa_wf o -> oa_wf o1)).
  { intros o1 Hsame. split; [|eauto using wf_same_pre].
    eapply follows_same_pre; [done|]. by apply follows_settles, settles_refl. }
  unfold onReplyOut. cbn zeta.
  destruct (if _ : bool then force_sdp reply (state o) else _).
  - pose proof (getSdpBody_same (saveState o)) as Hg.
    destruct (getSdpBody E (saveState o)) as [o1 [txt|]]; cbn in Hg.
    + destruct (hasContentType _ _) as [r|]; [by apply Hend|].
      destruct (addPart _ _ _) as [b [r|]]; [by apply Hend|]. by apply Hfail.
    + destruct (_ || _); [by apply Hend|by apply Hfail].
  - destruct (hasContentType _ _) as [r|]; [destruct (if _ : bool then false else _)|];
      by apply Hend.
Qed.

Lemma onRequestOut_spec req o o' req' ok :
  onRequestOut E req o = Some (o', req', ok) ->
  follows (Some true) o o' /\ (oa_wf o -> oa_wf o').
Proof.
  assert (Hfail : forall o1, same (saveState o) o1 ->
    follows (Some true) o o1 /\ (oa_wf o -> oa_wf o1)).
  { intros o1 Hsame. split; [|eauto using wf_same_pre].
    eapply follows_same_pre; [done|]. by apply follows_settles, settles_refl. }
  assert (Hend : forall b h o1, same (saveState o) o1 -> request_out_end req b h o1 = (o', req', ok) ->
    follows (Some true) o o' /\ (oa_wf o -> oa_wf o')).
  { intros b h o1 Hsame Hf. unfold request_out_end in Hf. cbn zeta in Hf. destruct (h || _) in Hf.
    - destruct (onTxSdp _ _ _) as [o2 k] eqn:Htx. injection Hf as <- _ _.
      destruct (onTxSdp_spec _ _ _ _ _ Htx) as [[_ Hst]|[_ ->]]; [|by apply Hfail].
      split; [|eauto using wf_same_pre, steps_wf].
      eapply follows_same_pre; [done|]. by eapply follows_steps.
    - injection Hf as <- _ _. by apply Hfail. }
  unfold onRequestOut. cbn zeta.
  destruct (if _ : bool then _ else _) as [[body sb] g]; intros H.
  destruct g.
  - pose proof (getSdpBody_same (saveState o)) as Hg.
    destruct (getSdpBody E (saveState o)) as [o1 [txt|]]; cbn in Hg.
    + destruct sb as [r|]; [|done]. injection H as H. by apply (Hend _ _ _ Hg H).
    + injection H as <- _ _. by apply Hfail.
  - destruct sb as [r|]; [destruct (match hasContentType _ _ with Some _ => _ | None => _ end)|];
      injection H as H; refine (Hend _ _ _ _ H); done.
Qed.

(** ** With the dialog *)

Section WithDialog.
Context {HD : Dialog}.

(** Bye, when the exchange made no progress: it may answer a pending offer. *)
Definition bye_answered o o' : Prop := state o = OA_OfferRecved /\ state o' = OA_Completed.

Lemma byed_follows dir o o1 :
  state o1 = state o \/ state o1 = OA_None -> follows dir o o1 ->
  follows dir o (dlg_byed D (oa_emit OBye o1)) \/ bye_answered o (dlg_byed D (oa_emit OBye o1)).
Proof.
  intros Hs Hf. destruct (byed_settles (oa_emit OBye o1)) as [H|(_ & H1 & H2)].
  - left. eapply follows_then; [done|]. eapply settles_trans; [apply settles_emit|done].
  - right. cbn in H1. split; [|done]. destruct Hs; congruence.
Qed.

(** The part of [onRequestIn] before the reaction to an error. *)
Definition request_rx (req : AmSipRequest) o : oa * Z :=
  let meth := rq_method req in
  let body := rq_body req in
  if (meth_eqb meth M_INVITE || meth_eqb meth M_UPDATE || meth_eqb meth M_ACK ||
      meth_eqb meth M_PRACK) && negb (body_empty body)
  then
    match hasContentType SIP_APPLICATION_SDP body with
    | Some r => onRxSdp E (rq_cseq req) (part_at r body) o
    | None => (o, if has CSTA body then 0 else 400)
    end
  else (o, 0).

Lemma request_rx_spec req o o' err :
  request_rx req o = (o', err) ->
  (err = 0 /\ steps_to false (rq_cseq req) o o') \/ same o o'.
Proof.
  unfold request_rx. cbn zeta. intros H.
  destruct (_ && _); [|injection H as <- <-; by right].
  destruct (hasContentType _ _) as [r|]; [|injection H as <- <-; by right].
  destruct (onRxSdp_spec _ _ _ _ _ H) as [H'|[_ H']]; auto.
Qed.

Lemma request_rx_code req o o' err :
  request_rx req o = (o', err) -> err = 0 \/ err = 400.
Proof.
  unfold request_rx, onRxSdp. cbn zeta. intros H.
  repeat (case_match; simplify_eq/=); auto.
Qed.

(** A failed completion resets the state. *)
Lemma check_failed o o' r :
  checkStateChange E o = (o', r) -> r <> 0 -> state o' = OA_None.
Proof.
  unfold checkStateChange, onSdpCompleted. intros H Hr.
  destruct (_ && _); [|by injection H as _ <-].
  destruct (d_hdl _); cbn in H; [|by injection H as _ <-].
  destruct (_ =? 0) eqn:Hz; injection H as <- <-; [|done]. by apply Z.eqb_eq in Hz.
Qed.

Lemma check_quiet o : state o = saved_state o -> checkStateChange E o = (o, 0).
Proof. intros H. unfold checkStateChange. by rewrite bool_decide_eq_true_2 by done. Qed.

Lemma onRequestIn_follows req o :
  let o' := fst (onRequestIn E D req o) in
  follows (Some false) o o' \/ (rq_method req = M_ACK /\ bye_answered o o').
Proof.
  unfold onRequestIn. cbn zeta.
  change (if _ && _ then _ else (saveState o, 0)) with (request_rx req (saveState o)).
  destruct (request_rx req (saveState o)) as [o1 err] eqn:Hrx.
  pose proof (request_rx_spec _ _ _ _ Hrx) as Hs.
  assert (Hf1 : follows (Some false) o o1) by (by eapply (received o (saveState o))).
  pose proof (settles_check o1) as Hc.
  destruct (checkStateChange E o1) as [o2 chg] eqn:Hchk. cbn in Hc.
  assert (Hf2 : follows (Some false) o o2) by (by eapply follows_then).
  assert (Hend : forall o3, follows (Some false) o o3 ->
    follows (Some false) o
      (if meth_eqb (rq_method req) M_ACK && (rq_cseq req =? cseq o3)
       then clearTransitionalState E o3 else o3)).
  { intros o3 H. case_match; [|done]. eapply follows_then; [done|].
    apply settles_clearTransitional. }
  set (err' := if chg =? 0 then err else 500).
  assert (Herr : err' = 0 \/ 300 <= err').
  { subst err'. case_match; [|lia]. destruct (request_rx_code _ _ _ _ Hrx); lia. }
  destruct (err' =? 0) eqn:He; cbn [fst]; [left; by apply Hend|].
  apply Z.eqb_neq in He. destruct Herr as [|Herr]; [done|].
  destruct (meth_eqb (rq_method req) M_ACK) eqn:Hack; cbn [negb].
  - assert (Hst : state o2 = state o \/ state o2 = OA_None).
    { subst err'. destruct (chg =? 0) eqn:Hz.
      - destruct Hs as [[-> _]|Hs]; [done|]. rewrite check_quiet in Hchk by (by destruct Hs; cbn in *; congruence).
        injection Hchk as <- _. left. by destruct Hs.
      - right. eapply check_failed; [done|]. by apply Z.eqb_neq. }
    destruct (byed_follows _ _ _ Hst Hf2) as [Hb|[Hb1 Hb2]].
    + left. specialize (Hend _ Hb). cbn in Hend. by destruct (_ =? _).
    + right. split; [by apply bool_decide_eq_true in Hack|]. split; [done|].
      case_match; [|done]. unfold clearTransitionalState. by rewrite Hb2.
  - left. cbn [andb]. eapply follows_then; [done|].
    eapply settles_trans; [apply settles_emit|by apply replied_settles].
Qed.

Lemma onReplyIn_follows reply o :
  let o' := fst (onReplyIn E D reply o) in
  follows (Some false) o o' \/ bye_answered o o'.
Proof.
  unfold onReplyIn. cbn zeta. destruct (_ && (rp_cseq reply =? cseq o)).
  { left. apply follows_settles, settles_clearTransitional. }
  destruct (_ && (has SIP_APPLICATION_SDP _ || _));
    [|left; apply follows_settles, settles_refl].
  destruct (_ && (rp_cseq reply =? cseq o)).
  { left. cbn. apply follows_settles. case_match; [apply settles_completed|apply settles_refl]. }
  destruct (onRxSdp _ _ _ _) as [o1 err] eqn:Hrx. cbn.
  destruct (onRxSdp_spec _ _ _ _ _ Hrx) as [[-> Hs]|[Herr Hs]]; cbn.
  - left. eapply follows_then; [by eapply (follows_steps _ _ _ (saveState o))|]. apply settles_check.
  - destruct (err =? 0) eqn:He; [by apply Z.eqb_eq in He|].
    destruct Hs as [H1 H2 _ _ H3]. cbn in *.
    rewrite check_quiet by congruence. cbn.
    apply byed_follows; [by left|]. by exists o1; split; [left|split; [|apply settles_refl]].
Qed.

Lemma onRequestIn_wf req o : oa_wf o -> oa_wf (fst (onRequestIn E D req o)).
Proof.
  intros Hw. unfold onRequestIn. cbn zeta.
  change (if _ && _ then _ else (saveState o, 0)) with (request_rx req (saveState o)).
  destruct (request_rx req (saveState o)) as [o1 err] eqn:Hrx.
  assert (Hw1 : oa_wf o1).
  { apply saveState_wf in Hw.
    destruct (request_rx_spec _ _ _ _ Hrx) as [[_ H]|H]; eauto using steps_wf, same_wf. }
  apply check_wf in Hw1. destruct (checkStateChange E o1) as [o2 chg]. cbn in Hw1.
  cbn [fst]. destruct (_ && _); [apply clearTransitional_wf|];
    (destruct (_ =? 0) in |- *; [done|]; destruct (negb _); [apply replied_wf|apply byed_wf]; by apply emit_wf).
Qed.

Lemma onReplyIn_wf reply o : oa_wf o -> oa_wf (fst (onReplyIn E D reply o)).
Proof.
  intros Hw. unfold onReplyIn. cbn zeta. destruct (_ && (rp_cseq reply =? cseq o)).
  { by apply clearTransitional_wf. }
  destruct (_ && (has SIP_APPLICATION_SDP _ || _)); [|done].
  destruct (_ && (rp_cseq reply =? cseq o)).
  { cbn. case_match; [by apply onSdpCompleted_wf|done]. }
  destruct (onRxSdp _ _ _ _) as [o1 err] eqn:Hrx. cbn.
  assert (Hw1 : oa_wf o1).
  { apply saveState_wf in Hw.
    destruct (onRxSdp_spec _ _ _ _ _ Hrx) as [[_ H]|[_ H]]; eauto using steps_wf, same_wf. }
  apply check_wf in Hw1. case_match; [done|]. by apply byed_wf, emit_wf.
Qed.

Lemma oa_run_wf op o o' : oa_wf o -> oa_run op o = Some o' -> oa_wf o'.
Proof.
  intros Hw. destruct op; cbn; intros H;
    try (injection H as <-);
    auto using onRequestIn_wf, onReplyIn_wf, set_status_wf.
  - destruct (onRequestOut E req o) as [[[o1 r] k]|] eqn:Ho; [|done]. injection H as <-.
    by eapply onRequestOut_spec.
  - by apply onReplyOut_spec.
  - unfold onRequestSent. apply check_wf in Hw. destruct (checkStateChange E o). cbn in *.
    case_match; auto using clearTransitional_wf.
  - unfold onReplySent. apply check_wf in Hw. destruct (checkStateChange E o). cbn in *.
    case_match; auto using clearTransitional_wf.
  - unfold onNoAck. case_match; auto using clearTransitional_wf.
Qed.

Lemma sent_settles o (b : oa -> bool) :
  let '(o', _) := checkStateChange E o in
  settles o (if b o' then clearTransitionalState E o' else o').
Proof.
  pose proof (settles_check o) as H. destruct (checkStateChange E o) as [o' r]. cbn in H.
  destruct (b o'); [|done]. eapply settles_trans; [done|]. apply settles_clearTransitional.
Qed.

(** C11: every call of the dialog into the offer/answer machine that returns (a request out
    can write through a null pointer instead, [request_out_null]) follows RFC 3264: a
    received (sent) message moves the state by at most one step of the abstract machine in
    that direction; then the state is kept or reset to [OA_None].  A state [OA_Completed]
    that the call finds and keeps, or reaches, is reset in it only when the session refused
    the description; an offer that the message has just made can be reset in the same call,
    which is how a repeated ACK loses a completed exchange ([repeated_ack_forgets]).  The
    one exception to the direction is a session that is ended by an ACK or a reply while
    an offer is unanswered: the ACK sent with the BYE may answer it. *)
Theorem oa_follows_rfc3264 op o o' :
  oa_run op o = Some o' ->
  follows (direction op) o o' \/
  (match op with RequestIn req => rq_method req = M_ACK | ReplyIn _ => True | _ => False end /\
   bye_answered o o').
Proof.
  destruct op; cbn; intros H.
  - injection H as <-. apply onRequestIn_follows.
  - injection H as <-. destruct (onReplyIn_follows rpl o); auto.
  - destruct (onRequestOut E req o) as [[[o1 r] k]|] eqn:Ho; [|done]. injection H as <-.
    left. by eapply onRequestOut_spec.
  - injection H as <-. left. apply onReplyOut_spec.
  - injection H as <-. left. apply follows_settles. unfold onRequestSent.
    pose proof (sent_settles o (fun o => meth_eqb (rq_method req) M_ACK && (rq_cseq req =? cseq o))) as H.
    by destruct (checkStateChange E o).
  - injection H as <-. left. apply follows_settles. unfold onReplySent.
    pose proof (sent_settles o (fun o =>
      (200 <=? rp_code rpl) && negb (meth_eqb (rp_method rpl) M_CANCEL) &&
      (rp_cseq rpl =? cseq o) && negb (meth_eqb (rp_method rpl) M_INVITE))) as H.
    by destruct (checkStateChange E o).
  - injection H as <-. left. apply follows_settles. unfold onNoAck.
    case_match; [apply settles_clearTransitional|apply settles_refl].
  - injection H as <-. left. apply follows_settles. split; [by exists []|]. by left.
Qed.

(** States that a dialog can bring the machine into. *)
Inductive oa_reachable (hdl : bool) : oa -> Prop :=
| reach_init : oa_reachable hdl (oa_init E hdl)
| reach_run op o o' : oa_reachable hdl o -> oa_run op o = Some o' -> oa_reachable hdl o'.

(** C12: whatever messages a dialog exchanges, the session is told to start at most once (and
    to start early media at most once), and only directly after it accepted a description;
    a machine without an exchange refers to no transaction. *)
Theorem session_starts_once hdl o :
  oa_reachable hdl o ->
  events_ok (oa_events o) /\
  (count_starts (oa_events o) <= 1)%nat /\ (count_early (oa_events o) <= 1)%nat /\
  (state o = OA_None -> cseq o = 0).
Proof.
  intros Hr. assert (Hw : oa_wf o).
  { induction Hr as [|op o o' _ IH Hrun]; [apply oa_init_wf|by eapply oa_run_wf]. }
  destruct Hw as [H1 H2 H3 H4]. rewrite H3, H4. split; [done|]. repeat case_match; auto with lia.
Qed.

End WithDialog.
End Spec.
