(* ===== verification/SipDialog.v ===== *)
(** * SIP dialogs

    Model of [core/AmSipDialog.cpp] and of the transactions and status in
    [core/AmBasicSipDialog.cpp]: requests and replies received and sent, with the
    offer/answer machine and the 100rel extension, the calls of the session ([invite],
    [bye], [cancel], ...), and the time-outs.

    The state is that of OfferAnswer: the machine with the fields of the dialog.  The
    offer/answer handling is enabled, as it is by default.  A call into the session is an
    event; what the session does in return is a later call.  URIs, routes, the Contact, the
    outgoing interface and the logger are left out. *)

From Stdlib Require Import ZArith Lia Ascii String.
From stdpp Require Import base list.
From S2P Require Import Prelude SipMsg MimeBody DialogMsg Rel100 OfferAnswer OfferAnswerSpec.

Local Open Scope Z_scope.
Local Open Scope bool_scope.

(** The result of sending: an error return, or an exception thrown by Am100rel. *)
Inductive tx_result := TxOk | TxError | TxThrown.

#[export] Instance tx_result_eq_dec : EqDecision tx_result.
Proof. solve_decision. Defined.

(** The codes that end a dialog usage (RFC 5057). *)
Definition ends_usage (code : Z) : bool :=
  existsb (Z.eqb code) [404; 408; 410; 416; 480; 482; 483; 484; 485; 502; 604].

Section SipDialog.
Context {sdp : Type}.
Context (E : @oa_env sdp).

Implicit Types o : @oa sdp.

Definition on_dlg (f : @AmSipDialog sdp -> @AmSipDialog sdp) o : oa := set_dlg (f (dlg o)) o.

(** [if(hdl) hdl->..]. *)
Definition tell (e : @oa_event sdp) o : oa := if d_hdl (dlg o) then oa_emit e o else o.

(** [SipCtrlInterface::send]. *)
Definition net_send (e : @oa_event sdp) o : oa * bool :=
  let n := d_sends (dlg o) in
  let o := on_dlg (set_sends (S n)) o in
  if tx_ok E n then (oa_emit e o, true) else (o, false).

(** [AmBasicSipDialog::reply_error]: the outcome of sending is only logged. *)
Definition reply_error (req : AmSipRequest) (code : Z) o : oa :=
  oa_emit (DError (rq_cseq req) code) (on_dlg (set_sends (S (d_sends (dlg o)))) o).

(** ** Replies sent *)

(** The status part of [AmSipDialog::onTxReply]; [None] is a refused reply. *)
Definition onTxReply_status (meth : sip_meth) (code : Z) (st : Status) : option Status :=
  let final :=
    if meth_eqb meth M_INVITE
    then if code <? 200 then Early else if code <? 300 then Connected else Disconnected
    else st in
  match st with
  | Connected | Disconnected => Some st
  | Cancelling => if meth_eqb meth M_INVITE && (code <? 200) then None else Some final
  | Proceeding | Trying | Early => Some final
  | Disconnecting => Some (if meth_eqb meth M_BYE && (200 <=? code) then Disconnected else st)
  end.

Definition onTxReply (reply : AmSipReply) o : oa * AmSipReply * tx_result :=
  let '(o, reply, ok) := onReplyOut E reply o in
  if negb ok then (o, reply, TxError)
  else
    match rel_onReplyOut (random_rseq E (d_sends (dlg o))) reply (rel100 (dlg o)) with
    | None => (o, reply, TxThrown)
    | Some (r, reply) =>
        let o := on_dlg (set_rel100 r) o in
        match onTxReply_status (rp_method reply) (rp_code reply) (d_status (dlg o)) with
        | None => (o, reply, TxError)
        | Some st => (set_status st o, reply, TxOk)
        end
    end.

Definition onReplyTxed (reply : AmSipReply) o : oa :=
  let c := rp_code reply in
  let o := if ends_usage c then tell (DLocalTerminate c) o else o in
  let o :=
    if (200 <=? c) && negb (meth_eqb (rp_method reply) M_CANCEL)
    then on_dlg (fun d => set_uas (tm_erase (rp_cseq reply) (uas_trans d)) d) o else o in
  let o := fst (onReplySent E reply o) in
  if (200 <=? c) && meth_eqb (rp_method reply) M_INVITE
  then on_dlg (fun d => set_pending (u32 (pending_invites d - 1)) d) o else o.

(** [AmBasicSipDialog::reply]; [h] are the Supported, Require and RSeq headers put by the
    application. *)
Definition reply (req : AmSipRequest) (code : Z) (body : mime) (h : bool * bool * option Z) o
  : oa * tx_result :=
  let '(sup, requ, rs) := h in
  match tm_find (rq_cseq req) (uas_trans (dlg o)) with
  | None => (o, TxError)
  | Some _ =>
      let rpl := build_rpl code (rq_cseq req) (rq_method req) body [] rs sup requ in
      let '(o, rpl, res) := onTxReply rpl o in
      match res with
      | TxOk =>
          let '(o, sent) := net_send (DTxReply rpl) o in
          if sent then (onReplyTxed rpl o, TxOk) else (o, TxError)
      | _ => (o, res)
      end
  end.

Definition no_hdrs : bool * bool * option Z := (false, false, None).

(** ** Requests sent *)

(** [None] is the fault of [onRequestOut]; the result [false] is an error return. *)
Definition onTxRequest (req : AmSipRequest) o : option (oa * AmSipRequest * bool) :=
  let req := rel_onRequestOut req (rel100 (dlg o)) in
  match onRequestOut E req o with
  | None => None
  | Some (o, req, false) => Some (o, req, false)
  | Some (o, req, true) =>
      let st := d_status (dlg o) in
      Some (if meth_eqb (rq_method req) M_INVITE && bool_decide (st = Disconnected)
            then set_status Trying o
            else if meth_eqb (rq_method req) M_BYE && negb (bool_decide (st = Disconnecting))
            then set_status Disconnecting o else o, req, true)
  end.

Definition onRequestTxed (req : AmSipRequest) o : oa :=
  let o :=
    if negb (meth_eqb (rq_method req) M_ACK)
    then on_dlg (fun d => set_d_cseq (u32 (d_cseq d + 1))
                            (set_uac (tm_set (rq_cseq req) req (uac_trans d)) d)) o
    else on_dlg (fun d => set_uac (tm_erase (rq_cseq req) (uac_trans d)) d) o in
  fst (onRequestSent E req o).

Definition transmit (req : AmSipRequest) o : option (oa * bool) :=
  match onTxRequest req o with
  | None => None
  | Some (o, _, false) => Some (o, false)
  | Some (o, req, true) =>
      let '(o, sent) := net_send (DTxRequest req) o in
      Some (if sent then onRequestTxed req o else o, sent)
  end.

Definition sendRequest (meth : sip_meth) (body : mime) o : option (oa * bool) :=
  transmit (mk_req meth (d_cseq (dlg o)) body) o.

Definition send_200_ack (inv_cseq : Z) (body : mime) o : option (oa * bool) :=
  match tm_find inv_cseq (uac_trans (dlg o)) with
  | None => Some (o, false)
  | Some _ => transmit (mk_req M_ACK inv_cseq body) o
  end.

(** A request without a body cannot fault ([transmit_total]). *)
Definition no_fault o (r : option (oa * bool)) : oa := fst (default (o, false) r).

Definition cancel o : oa * bool :=
  match List.find is_invite (rev (uac_trans (dlg o))) with
  | None => (o, false)
  | Some (c, _) =>
      if negb (bool_decide (d_status (dlg o) = Cancelling))
      then (oa_emit (DCancel c) (set_status Cancelling o), true)
      else (o, false)
  end.

Definition bye o : oa :=
  let quit o :=
    match tm_invite (uas_trans (dlg o)) with
    | Some r => fst (reply r 487 mime_empty_body no_hdrs o)
    | None => set_status Disconnected o
    end in
  match d_status (dlg o) with
  | Disconnecting | Connected =>
      let o := fold_left (fun o c => no_fault o (send_200_ack c mime_empty_body o))
                 (tm_invites (uac_trans (dlg o))) o in
      if negb (bool_decide (d_status (dlg o) = Disconnecting))
      then let o := set_status Disconnected o in no_fault o (sendRequest M_BYE mime_empty_body o)
      else o
  | Trying | Proceeding | Early =>
      if tm_has_invite (uac_trans (dlg o)) then fst (cancel o) else quit o
  | Cancelling => quit o
  | Disconnected => o
  end.

(** What the offer/answer machine calls. *)
Definition sip_dialog : @dialog_ops sdp :=
  mk_dialog_ops (fun req code o => fst (reply req code mime_empty_body no_hdrs o)) bye.

(** ** Requests received *)

Definition onRxReqSanity_basic (req : AmSipRequest) o : oa * bool :=
  let d := dlg o in
  let differs :=
    match remote_tag d, rq_from_tag req with
    | _ :: _, _ :: _ => negb (bool_decide (rq_from_tag req = remote_tag d))
    | _, _ => false
    end in
  let late :=
    r_cseq_i d && (rq_cseq req <=? r_cseq d) &&
    negb (meth_eqb (rq_method req) M_NOTIFY && ignore_notify_cseq E) in
  if differs then (reply_error req 481 o, false)
  else if late then (reply_error req 500 o, false)
  else (on_dlg (set_r_cseq (rq_cseq req)) o, true).

Definition onRxReqStatus (req : AmSipRequest) o : oa * bool :=
  let meth := rq_method req in
  let o :=
    match d_status (dlg o) with
    | Disconnected => if meth_eqb meth M_INVITE then set_status Trying o else o
    | Connected => if meth_eqb meth M_BYE then set_status Disconnecting o else o
    | Trying | Proceeding | Early =>
        if meth_eqb meth M_BYE then set_status Disconnecting o
        else if meth_eqb meth M_CANCEL
        then fst (reply req 200 mime_empty_body no_hdrs (set_status Cancelling o))
        else o
    | _ => o
    end in
  onRequestIn E sip_dialog req o.

Definition pass_request (req : AmSipRequest) o : oa :=
  let '(o, cont) := onRxReqStatus req o in
  if cont then tell (DRequest req) o else o.

Definition onRxReqSanity (req : AmSipRequest) o : oa * bool :=
  if meth_eqb (rq_method req) M_ACK then (pass_request req o, false)
  else if meth_eqb (rq_method req) M_CANCEL then
    (match tm_find (rq_cseq req) (uas_trans (dlg o)) with
     | None => reply_error req 481 o
     | Some _ => pass_request req o
     end, false)
  else
    let '(o, ok) := onRxReqSanity_basic req o in
    if negb ok then (o, false)
    else
      let invite := meth_eqb (rq_method req) M_INVITE in
      let pending :=
        negb (pending_invites (dlg o) =? 0) || tm_has_invite (uac_trans (dlg o)) ||
        (negb (bool_decide (state o = OA_None)) && negb (bool_decide (state o = OA_Completed))) in
      if invite && pending then (reply_error req 491 o, false)
      else
        let o := if invite
                 then on_dlg (fun d => set_pending (u32 (pending_invites d + 1)) d) o else o in
        let '(r, refused) := rel_onRequestIn req (rel100 (dlg o)) in
        let o := on_dlg (set_rel100 r) o in
        match refused with
        | Some code => (tell (DRel RelFailure) (reply_error req code o), false)
        | None => (o, true)
        end.

Definition onRxRequest (req : AmSipRequest) o : oa :=
  let '(o, ok) := onRxReqSanity req o in
  if negb ok then o
  else
    let o := on_dlg (fun d => set_uas (tm_set (rq_cseq req) req (uas_trans d)) d) o in
    let o := if d_callid (dlg o) then o else on_dlg (set_remote_tag true (rq_from_tag req)) o in
    pass_request req o.

(** ** Replies received *)

Definition setRemoteTag (t : cstring) o : oa := on_dlg (fun d => set_remote_tag (d_callid d) t d) o.

Definition is_nil (t : cstring) : bool := match t with [] => true | _ => false end.

Definition onRxReplySanity (reply : AmSipReply) o : bool :=
  let d := dlg o in
  if negb (is_nil (remote_tag d)) && negb (bool_decide (rp_to_tag reply = remote_tag d)) then
    if bool_decide (d_status d = Early) then true
    else meth_eqb (rp_method reply) M_INVITE || meth_eqb (rp_method reply) M_CANCEL ||
         meth_eqb (rp_method reply) M_BYE
  else true.

(** The reply to an INVITE in [onRxReplyStatus]. *)
Definition invite_reply_status (reply : AmSipReply) o : oa :=
  let c := rp_code reply in
  let tag := rp_to_tag reply in
  let connect ack o :=
    let o := set_status Connected o in
    if is_nil tag then
      let o := if ack : bool then no_fault o (send_200_ack (rp_cseq reply) mime_empty_body o) else o in
      no_fault o (sendRequest M_BYE mime_empty_body o)
    else setRemoteTag tag o in
  match d_status (dlg o) with
  | Trying | Proceeding =>
      if c <? 200 then
        if (c =? 100) || is_nil tag then set_status Proceeding o
        else setRemoteTag tag (set_status Early o)
      else if c <? 300 then connect true o
      else setRemoteTag tag (set_status Disconnected o)
  | Early =>
      if c <? 200 then
        if negb (is_nil tag) && negb (bool_decide (tag = remote_tag (dlg o)))
        then setRemoteTag tag o else o
      else if c <? 300 then connect false o
      else setRemoteTag tag (set_status Disconnected o)
  | Cancelling =>
      if c <? 200 then if is_nil tag then o else setRemoteTag tag o
      else if 300 <=? c then set_status Disconnected o
      else bye (set_status Connected (setRemoteTag tag o))
  | _ => o
  end.

Definition rel_act (o : oa) (a : rel_action) : oa :=
  match a with RelBye => bye o | _ => tell (DRel a) o end.

Definition onRxReplyStatus (reply : AmSipReply) o : oa * bool :=
  let c := rp_code reply in
  let meth := rp_method reply in
  let o := if meth_eqb meth M_INVITE then invite_reply_status reply o else o in
  let o := if bool_decide (d_status (dlg o) = Disconnecting) && meth_eqb meth M_BYE && (200 <=? c)
           then set_status Disconnected o else o in
  let o := if bool_decide (d_status (dlg o) = Cancelling) && meth_eqb meth M_CANCEL && (200 <=? c)
           then set_status Disconnected o else o in
  let o := fst (onReplyIn E sip_dialog reply o) in
  let o := if (200 <=? c) && (c <? 300) && meth_eqb meth M_INVITE then tell (DInvite2xx reply) o
           else if ends_usage c then tell (DDisappeared c) o else o in
  let '(r, acts, cont) := rel_onReplyIn (d_status (dlg o)) reply (rel100 (dlg o)) in
  (fold_left rel_act acts (on_dlg (set_rel100 r) o), cont).

Definition onRxReply (reply : AmSipReply) o : oa :=
  if negb (onRxReplySanity reply o) then o
  else
    match tm_find (rp_cseq reply) (uac_trans (dlg o)) with
    | None => o
    | Some _ =>
        let saved_status := d_status (dlg o) in
        let '(o, cont) := onRxReplyStatus reply o in
        let o := if cont then tell (DReply reply saved_status) o else o in
        if (200 <=? rp_code reply) &&
           (negb (meth_eqb (rp_method reply) M_INVITE) || (300 <=? rp_code reply))
        then on_dlg (fun d => set_uac (tm_erase (rp_cseq reply) (uac_trans d)) d) o else o
    end.

(** ** The session's other calls *)

Definition invite (body : mime) o : option (oa * bool) :=
  if bool_decide (d_status (dlg o) = Disconnected) then sendRequest M_INVITE body o
  else Some (o, false).

Definition reinvite (body : mime) o : option (oa * bool) :=
  if bool_decide (d_status (dlg o) = Connected) then sendRequest M_INVITE body o
  else Some (o, false).

Definition update (body : mime) o : option (oa * bool) :=
  match d_status (dlg o) with
  | Connected | Trying | Proceeding | Early => sendRequest M_UPDATE body o
  | _ => Some (o, false)
  end.

Definition refer o : option (oa * bool) :=
  if bool_decide (d_status (dlg o) = Connected) then sendRequest M_OTHER mime_empty_body o
  else Some (o, true).

Definition info (body : mime) o : option (oa * bool) :=
  if bool_decide (d_status (dlg o) = Connected) then sendRequest M_INFO body o
  else Some (o, true).

Definition prack (body : mime) o : option (oa * bool) :=
  match d_status (dlg o) with
  | Disconnected | Disconnecting => Some (o, false)
  | _ => sendRequest M_PRACK body o
  end.

Definition drop o : oa := set_status Disconnected o.

Definition noAckTimeout (c : Z) o : oa := tell (DNoAck c) (onNoAck E c o).

Definition noPrackTimeout (rpl : AmSipReply) o : oa :=
  fold_left rel_act (rel_onTimeout rpl (rel100 (dlg o))) o.

(** The loop of [termUasTrans]; every round erases the entry it starts with. *)
Fixpoint termUasTrans_loop (fuel : nat) o : oa :=
  match fuel, uas_trans (dlg o) with
  | S fuel, (c, req) :: _ =>
      let o := fst (reply req 481 mime_empty_body no_hdrs o) in
      termUasTrans_loop fuel (on_dlg (fun d => set_uas (tm_erase c (uas_trans d)) d) o)
  | _, _ => o
  end.

Definition termUasTrans o : oa := termUasTrans_loop (length (uas_trans (dlg o))) o.

Definition termUacTrans o : oa := on_dlg (set_uac []) o.

Definition finalize o : oa := termUacTrans (termUasTrans o).

Definition dropTransactions o : oa := on_dlg (set_uas []) (termUacTrans o).

End SipDialog.
