(* ===== verification/SipDialogSpec.v ===== *)
(** * The dialog keeps its promises

    The dialog of SipDialog as an instance of the interface [Dialog] that the offer/answer
    machine relies on, and the invariant of its transactions: what is pending, and which
    INVITE is refused. *)

From Stdlib Require Import ZArith Lia Ascii String Sorted.
From stdpp Require Import base list.
From S2P Require Import Prelude SipMsg MimeBody DialogMsg Rel100 OfferAnswer OfferAnswerSpec SipDialog.

Local Open Scope Z_scope.
Local Open Scope bool_scope.

Section Promises.
Context {sdp : Type}.
Context (E : @oa_env sdp).

Implicit Types o : @oa sdp.

(** ** Steps of the dialog that leave the machine alone *)

(** The machine is kept, the events may grow by events of the dialog. *)
Definition dlg_event (e : @oa_event sdp) : Prop :=
  match e with OStart | OEarlyStart | OCompleted _ _ => False | _ => True end.

Record apart o o' : Prop := {
  apart_state : state o' = state o;
  apart_saved : saved_state o' = saved_state o;
  apart_cseq : cseq o' = cseq o;
  apart_early : early_session_started (dlg o') = early_session_started (dlg o);
  apart_start : session_started (dlg o') = session_started (dlg o);
  apart_events : exists l, oa_events o' = l ++ oa_events o /\ Forall dlg_event l
}.

Lemma apart_refl o : apart o o.
Proof. split; try done. by exists []. Qed.

Lemma apart_trans o o1 o2 : apart o o1 -> apart o1 o2 -> apart o o2.
Proof.
  intros [? ? ? ? ? (l1 & H1 & F1)] [? ? ? ? ? (l2 & H2 & F2)]. split; try congruence.
  exists (l2 ++ l1). split; [by rewrite H2, H1, app_assoc|by apply Forall_app].
Qed.

Lemma apart_set_dlg d o :
  early_session_started d = early_session_started (dlg o) ->
  session_started d = session_started (dlg o) -> apart o (set_dlg d o).
Proof. intros. split; try done. by exists []. Qed.

Lemma apart_emit e o : dlg_event e -> apart o (oa_emit e o).
Proof. intros H. split; try done. exists [e]. by split; [|constructor]. Qed.

Lemma apart_tell e o : dlg_event e -> apart o (tell e o).
Proof. intros H. unfold tell. case_match; auto using apart_emit, apart_refl. Qed.

Lemma apart_status st o : apart o (set_status st o).
Proof. by apply apart_set_dlg. Qed.

Lemma apart_net_send e o : dlg_event e -> apart o (fst (net_send E e o)).
Proof.
  intros H. unfold net_send.
  assert (H1 : apart o (on_dlg (set_sends (S (d_sends (dlg o)))) o)) by (by apply apart_set_dlg).
  case_match; cbn; [|done]. eapply apart_trans; [done|by apply apart_emit].
Qed.

Lemma apart_settles o o' : apart o o' -> settles E o o'.
Proof. intros [Hs _ _ _ _ (l & He & _)]. split; [by exists l|by left]. Qed.

Lemma apart_wf o o' : apart o o' -> oa_wf E o -> oa_wf E o'.
Proof.
  intros [Hs Hsv Hc He Hst (l & Hev & HF)] [H1 H2 H3 H4].
  assert (Hl : events_ok E (l ++ oa_events o) /\
    count_starts (l ++ oa_events o) = count_starts (oa_events o) /\
    count_early (l ++ oa_events o) = count_early (oa_events o)).
  { clear -HF H2. unfold count_starts, count_early.
    induction HF as [|e l Hd _ (IH1 & IH2 & IH3)]; [done|].
    cbn. by destruct e. }
  destruct Hl as (Hl1 & Hl2 & Hl3).
  split; rewrite ?Hev, ?He, ?Hst; [rewrite Hs, Hc; done|done|congruence|congruence].
Qed.

(** ** Replies *)

Lemma onReplySent_settles rpl o : settles E o (fst (onReplySent E rpl o)).
Proof.
  unfold onReplySent.
  pose proof (sent_settles E o (fun o =>
    (200 <=? rp_code rpl) && negb (meth_eqb (rp_method rpl) M_CANCEL) &&
    (rp_cseq rpl =? cseq o) && negb (meth_eqb (rp_method rpl) M_INVITE))) as H.
  by destruct (checkStateChange E o).
Qed.

Lemma onRequestSent_settles req o : settles E o (fst (onRequestSent E req o)).
Proof.
  unfold onRequestSent.
  pose proof (sent_settles E o (fun o =>
    meth_eqb (rq_method req) M_ACK && (rq_cseq req =? cseq o))) as H.
  by destruct (checkStateChange E o).
Qed.

Lemma onReplySent_wf rpl o : oa_wf E o -> oa_wf E (fst (onReplySent E rpl o)).
Proof.
  intros Hw. unfold onReplySent. apply check_wf in Hw. destruct (checkStateChange E o).
  cbn in *. case_match; auto using clearTransitional_wf.
Qed.

Lemma onRequestSent_wf req o : oa_wf E o -> oa_wf E (fst (onRequestSent E req o)).
Proof.
  intros Hw. unfold onRequestSent. apply check_wf in Hw. destruct (checkStateChange E o).
  cbn in *. case_match; auto using clearTransitional_wf.
Qed.

Lemma settles_save o : settles E o (saveState o).
Proof. split; [by exists []|]. by left. Qed.

(** An error reply without a body only resets the machine. *)
Lemma error_reply_out rpl o :
  300 <= rp_code rpl -> rp_body rpl = mime_empty_body ->
  onReplyOut E rpl o =
  (if rp_cseq rpl =? cseq o then clearTransitionalState E (saveState o) else saveState o,
   rpl, true).
Proof.
  destruct rpl as [code c meth body tag rs sup requ]. cbn [rp_code rp_body rp_cseq].
  intros Hc ->. unfold onReplyOut. cbn -[Z.leb Z.ltb Z.eqb].
  match goal with |- context [force_sdp ?r ?s] => assert (Hf : force_sdp r s = false) end.
  { unfold force_sdp. cbn. rewrite (proj2 (Z.eqb_neq code 183)) by lia.
    rewrite (proj2 (Z.ltb_ge code 300)) by lia. by rewrite !andb_false_r; repeat case_match. }
  rewrite Hf, !andb_false_r. cbn -[Z.leb Z.ltb Z.eqb]. unfold reply_out_end.
  cbn -[Z.leb Z.ltb Z.eqb]. rewrite andb_false_r. cbn -[Z.leb Z.ltb Z.eqb].
  by rewrite (proj2 (Z.leb_le 300 code)) by done.
Qed.

Lemma onTxReply_settles rpl o :
  300 <= rp_code rpl -> rp_body rpl = mime_empty_body ->
  settles E o (fst (fst (onTxReply E rpl o))).
Proof.
  intros Hc Hb. unfold onTxReply. rewrite error_reply_out by done. cbn [negb].
  set (o1 := if _ : bool then _ else _).
  assert (H1 : settles E o o1).
  { subst o1. case_match; [|apply settles_save]. apply (settles_clearTransitional E (saveState o)). }
  destruct (rel_onReplyOut _ _ _) as [[r rpl']|]; [|done].
  assert (H2 : settles E o (on_dlg (set_rel100 r) o1)).
  { eapply settles_trans; [exact H1|]. apply apart_settles. by apply apart_set_dlg. }
  destruct (onTxReply_status _ _ _) as [st|]; [|done]. cbn.
  eapply settles_trans; [exact H2|]. apply apart_settles, apart_status.
Qed.

Lemma onTxReply_wf rpl o : oa_wf E o -> oa_wf E (fst (fst (onTxReply E rpl o))).
Proof.
  intros Hw. unfold onTxReply. pose proof (proj2 (onReplyOut_spec E rpl o) Hw) as H1.
  destruct (onReplyOut E rpl o) as [[o1 rpl1] ok]. cbn in H1. destruct ok; [|done]. cbn [negb].
  destruct (rel_onReplyOut _ _ _) as [[r rpl']|]; [|done].
  assert (H2 : oa_wf E (on_dlg (set_rel100 r) o1)).
  { eapply apart_wf; [|exact H1]. by apply apart_set_dlg. }
  destruct (onTxReply_status _ _ _) as [st|]; [|done]. by apply set_status_wf.
Qed.

(** [onReplyTxed] is steps apart around [onReplySent]. *)
Lemma onReplyTxed_parts rpl o :
  exists o1, apart o o1 /\ apart (fst (onReplySent E rpl o1)) (onReplyTxed E rpl o).
Proof.
  unfold onReplyTxed.
  set (o0 := if ends_usage _ then _ else _).
  set (o1 := if (200 <=? _) && negb _ then _ else _).
  assert (H0 : apart o o0) by (subst o0; case_match; [by apply apart_tell|apply apart_refl]).
  assert (H1 : apart o0 o1) by (subst o1; case_match; [by apply apart_set_dlg|apply apart_refl]).
  exists o1. split; [by eapply apart_trans|].
  case_match; [by apply apart_set_dlg|apply apart_refl].
Qed.

Lemma onReplyTxed_settles rpl o : settles E o (onReplyTxed E rpl o).
Proof.
  destruct (onReplyTxed_parts rpl o) as (o1 & H1 & H2).
  eapply settles_trans; [by apply apart_settles|].
  eapply settles_trans; [apply onReplySent_settles|]. by apply apart_settles.
Qed.

Lemma onReplyTxed_wf rpl o : oa_wf E o -> oa_wf E (onReplyTxed E rpl o).
Proof.
  intros Hw. destruct (onReplyTxed_parts rpl o) as (o1 & H1 & H2).
  eapply apart_wf; [done|]. apply onReplySent_wf. by eapply apart_wf.
Qed.

Lemma reply_settles req code h o :
  300 <= code -> settles E o (fst (reply E req code mime_empty_body h o)).
Proof.
  intros Hc. unfold reply. destruct h as [[sup requ] rs].
  destruct (tm_find _ _); [|apply settles_refl].
  set (rpl := build_rpl _ _ _ _ _ _ _ _).
  pose proof (onTxReply_settles rpl o Hc eq_refl) as H1.
  destruct (onTxReply E rpl o) as [[o1 rpl1] res]. cbn in H1. destruct res; [|done|done].
  pose proof (apart_net_send (DTxReply rpl1) o1 I) as H2.
  destruct (net_send E _ o1) as [o2 sent]. cbn in H2.
  assert (H3 : settles E o o2) by (eapply settles_trans; [done|by apply apart_settles]).
  destruct sent; [|done]. eapply settles_trans; [done|]. apply onReplyTxed_settles.
Qed.

Lemma reply_wf req code body h o : oa_wf E o -> oa_wf E (fst (reply E req code body h o)).
Proof.
  intros Hw. unfold reply. destruct h as [[sup requ] rs]. destruct (tm_find _ _); [|done].
  set (rpl := build_rpl _ _ _ _ _ _ _ _). pose proof (onTxReply_wf rpl o Hw) as H1.
  destruct (onTxReply E rpl o) as [[o1 rpl1] res]. cbn in H1. destruct res; [|done|done].
  pose proof (apart_wf _ _ (apart_net_send (DTxReply rpl1) o1 I) H1) as H2.
  destruct (net_send E _ o1) as [o2 sent]. cbn in H2. destruct sent; [|done].
  by apply onReplyTxed_wf.
Qed.

(** ** Requests *)

(** No answer is due: a request without a body leaves the machine as it is. *)
Lemma request_out_quiet req o :
  rq_body req = mime_empty_body ->
  (rq_method req = M_ACK \/ rq_method req = M_PRACK -> state o <> OA_OfferRecved) ->
  onRequestOut E req o = Some (saveState o, req, true).
Proof.
  destruct req as [meth c body tag n sup requ]. cbn [rq_body rq_method]. intros -> Hs.
  unfold onRequestOut. cbn [rq_method rq_body rq_cseq].
  change (hasContentType SIP_APPLICATION_SDP mime_empty_body) with (@None part_ref).
  change (has CSTA mime_empty_body) with false. cbn [negb andb].
  replace ((meth_eqb meth M_PRACK || meth_eqb meth M_ACK) && bool_decide (state o = OA_OfferRecved))
    with false; [done|].
  symmetry. apply andb_false_iff. destruct (decide (state o = OA_OfferRecved)) as [He|He].
  - left. apply orb_false_iff. split; apply bool_decide_eq_false; intros ->; by apply Hs; auto.
  - right. by apply bool_decide_eq_false.
Qed.

(** It does not fault either when an answer is due. *)
Lemma request_out_total req o :
  rq_body req = mime_empty_body -> onRequestOut E req o <> None.
Proof.
  destruct req as [meth c body tag n sup requ]. cbn [rq_body]. intros ->.
  unfold onRequestOut. cbn [rq_method rq_body rq_cseq].
  change (hasContentType SIP_APPLICATION_SDP mime_empty_body) with (@None part_ref).
  change (has CSTA mime_empty_body) with false. cbn [negb andb].
  destruct (_ && _); [|done]. cbn. destruct (getSdpBody E _) as [o1 [txt|]]; done.
Qed.

(** The relation of the promise on [bye]. *)
Definition ends o o' : Prop :=
  settles E o o' \/
  ((exists l, oa_events o' = l ++ oa_events o) /\ state o = OA_OfferRecved /\ state o' = OA_Completed).

Lemma ends_refl o : ends o o.
Proof. left. apply settles_refl. Qed.

Lemma ends_trans o o1 o2 : ends o o1 -> ends o1 o2 -> ends o o2.
Proof.
  intros [H1|(Ha & Hs & Hs1)] [H2|(Hb & Hs' & Hs2)].
  - left. by eapply settles_trans.
  - destruct H1 as [Ha [H1|[H1 _]]]; [|congruence]. right.
    destruct Ha as [l1 Ha], Hb as [l2 Hb]. split; [|by rewrite <-H1].
    exists (l2 ++ l1). by rewrite Hb, Ha, app_assoc.
  - destruct H2 as [Hb H2]. destruct Ha as [l1 Ha], Hb as [l2 Hb].
    assert (He : exists l, oa_events o2 = l ++ oa_events o).
    { exists (l2 ++ l1). by rewrite Hb, Ha, app_assoc. }
    destruct H2 as [H2|[H2 _]]; [right; split; [done|split; congruence]|].
    left. split; [done|]. right. split; [done|]. left. congruence.
  - congruence.
Qed.

Lemma ends_settles o o1 o2 : ends o o1 -> settles E o1 o2 -> ends o o2.
Proof. intros H1 H2. eapply ends_trans; [done|]. by left. Qed.

Lemma ends_apart o o1 o2 : ends o o1 -> apart o1 o2 -> ends o o2.
Proof. intros H1 H2. eapply ends_settles; [done|by apply apart_settles]. Qed.

Lemma rel_out_same req r : rq_method req <> M_INVITE -> rel_onRequestOut req r = req.
Proof. intros H. unfold rel_onRequestOut, meth_eqb. by rewrite bool_decide_eq_false_2. Qed.

Lemma onRequestTxed_settles req o : settles E o (onRequestTxed E req o).
Proof.
  unfold onRequestTxed. set (o1 := if negb _ then _ else _).
  eapply settles_trans; [|apply onRequestSent_settles]. apply apart_settles. subst o1.
  case_match; by apply apart_set_dlg.
Qed.

Lemma onRequestTxed_wf req o : oa_wf E o -> oa_wf E (onRequestTxed E req o).
Proof.
  intros Hw. unfold onRequestTxed. apply onRequestSent_wf. eapply apart_wf; [|exact Hw].
  case_match; by apply apart_set_dlg.
Qed.

Lemma transmit_ends meth c o o' ok :
  meth = M_ACK \/ meth = M_BYE ->
  transmit E (mk_req meth c mime_empty_body) o = Some (o', ok) -> ends o o'.
Proof.
  intros Hm. unfold transmit, onTxRequest. rewrite rel_out_same by (by destruct Hm as [-> | ->]).
  destruct (onRequestOut E _ o) as [[[o1 req] ok1]|] eqn:Ho; [|done].
  assert (H1 : ends o o1).
  { destruct (decide ((meth = M_ACK \/ meth = M_PRACK) /\ state o = OA_OfferRecved)) as [[_ Hs]|Hn].
    - apply onRequestOut_spec in Ho as [(o2 & H2 & He & H3) _].
      assert (H2' : ends o o2).
      { destruct H2 as [H2|(tx & [= <-] & H2)].
        - left. split; [by exists []|]. by left.
        - rewrite Hs in H2. injection H2 as H2. right. by split; [exists []|]. }
      by eapply ends_settles.
    - rewrite request_out_quiet in Ho by (done || tauto). injection Ho as <- _ _.
      left. apply settles_save. }
  destruct ok1; [|intros [= <- _]; done].
  set (o2 := if meth_eqb _ _ && _ then _ else _).
  assert (H2 : ends o o2).
  { subst o2. eapply ends_apart; [exact H1|].
    repeat case_match; auto using apart_status, apart_refl. }
  pose proof (apart_net_send (DTxRequest req) o2 I) as H3.
  destruct (net_send E _ o2) as [o3 sent]. cbn in H3. intros [= <- <-].
  assert (H4 : ends o o3) by (by eapply ends_apart). destruct sent; [|done].
  eapply ends_settles; [done|]. apply onRequestTxed_settles.
Qed.

Lemma transmit_wf req o o' ok : oa_wf E o -> transmit E req o = Some (o', ok) -> oa_wf E o'.
Proof.
  intros Hw. unfold transmit, onTxRequest.
  destruct (onRequestOut E _ o) as [[[o1 req1] ok1]|] eqn:Ho; [|done].
  pose proof (proj2 (onRequestOut_spec E _ _ _ _ _ Ho) Hw) as H1.
  destruct ok1; [|intros [= <- _]; done].
  set (o2 := if meth_eqb _ _ && _ then _ else _).
  assert (H2 : oa_wf E o2).
  { subst o2. repeat case_match; auto using set_status_wf. }
  pose proof (apart_wf _ _ (apart_net_send (DTxRequest req1) o2 I) H2) as H3.
  destruct (net_send E _ o2) as [o3 sent]. cbn in H3. intros [= <- <-].
  destruct sent; [|done]. by apply onRequestTxed_wf.
Qed.

(** [no_fault] hides nothing. *)
Lemma transmit_total meth c o : transmit E (mk_req meth c mime_empty_body) o <> None.
Proof.
  unfold transmit, onTxRequest. set (req := rel_onRequestOut _ _).
  assert (Hb : rq_body req = mime_empty_body).
  { subst req. unfold rel_onRequestOut. repeat case_match; done. }
  pose proof (request_out_total req o Hb) as H.
  destruct (onRequestOut E req o) as [[[o1 req1] []]|]; [|done|done].
  destruct (net_send E _ _) as [o2 []]; done.
Qed.

Lemma send_200_ack_ends c o : ends o (no_fault o (send_200_ack E c mime_empty_body o)).
Proof.
  unfold send_200_ack, no_fault. destruct (tm_find _ _); [|apply ends_refl].
  destruct (transmit E _ o) as [[o' ok]|] eqn:Ht; [|apply ends_refl]. cbn.
  eapply transmit_ends; [|done]. by left.
Qed.

Lemma send_bye_ends o : ends o (no_fault o (sendRequest E M_BYE mime_empty_body o)).
Proof.
  unfold sendRequest, no_fault.
  destruct (transmit E _ o) as [[o' ok]|] eqn:Ht; [|apply ends_refl]. cbn.
  eapply transmit_ends; [|done]. by right.
Qed.

Lemma send_200_ack_wf c o : oa_wf E o -> oa_wf E (no_fault o (send_200_ack E c mime_empty_body o)).
Proof.
  intros Hw. unfold send_200_ack, no_fault. destruct (tm_find _ _); [|done].
  destruct (transmit E _ o) as [[o' ok]|] eqn:Ht; [|done]. by eapply transmit_wf.
Qed.

Lemma send_bye_wf o : oa_wf E o -> oa_wf E (no_fault o (sendRequest E M_BYE mime_empty_body o)).
Proof.
  intros Hw. unfold sendRequest, no_fault.
  destruct (transmit E _ o) as [[o' ok]|] eqn:Ht; [|done]. by eapply transmit_wf.
Qed.

(** ** Bye *)

Lemma acks_ends l o :
  ends o (fold_left (fun o c => no_fault o (send_200_ack E c mime_empty_body o)) l o).
Proof.
  revert o. induction l as [|c l IH]; intros o; cbn; [apply ends_refl|].
  eapply ends_trans; [|apply IH]. apply send_200_ack_ends.
Qed.

Lemma cancel_apart o : apart o (fst (cancel o)).
Proof.
  unfold cancel. destruct (List.find _ _) as [[c r]|]; [|apply apart_refl].
  case_match; [|apply apart_refl]. cbn.
  eapply apart_trans; [apply apart_status|by apply apart_emit].
Qed.

Lemma bye_ends o : ends o (bye E o).
Proof.
  assert (Hquit : ends o (match tm_invite (uas_trans (dlg o)) with
    | Some r => fst (reply E r 487 mime_empty_body no_hdrs o) | None => set_status Disconnected o end)).
  { left. destruct (tm_invite _); [by apply reply_settles|apply apart_settles, apart_status]. }
  unfold bye.
  pose proof (acks_ends (tm_invites (uac_trans (dlg o))) o) as Hacks.
  destruct (d_status (dlg o)); auto using ends_refl.
  1, 2, 3: destruct (tm_has_invite _); [left; apply apart_settles, cancel_apart|done].
  all: generalize dependent (fold_left (fun o c => no_fault o (send_200_ack E c mime_empty_body o))
         (tm_invites (uac_trans (dlg o))) o); intros o1 H1;
       destruct (negb _); [|done];
       (eapply ends_trans; [|apply send_bye_ends]; eapply ends_apart; [exact H1|apply apart_status]).
Qed.

Lemma bye_wf o : oa_wf E o -> oa_wf E (bye E o).
Proof.
  intros Hw. assert (Hfold : forall l o, oa_wf E o ->
    oa_wf E (fold_left (fun o c => no_fault o (send_200_ack E c mime_empty_body o)) l o)).
  { induction l as [|c l IH]; cbn; auto using send_200_ack_wf. }
  assert (Hquit : oa_wf E (match tm_invite (uas_trans (dlg o)) with
    | Some r => fst (reply E r 487 mime_empty_body no_hdrs o) | None => set_status Disconnected o end)).
  { destruct (tm_invite _); auto using reply_wf, set_status_wf. }
  unfold bye. destruct (d_status (dlg o)); auto.
  1, 2, 3: destruct (tm_has_invite _); [eapply apart_wf; [apply cancel_apart|done]|done].
  all: destruct (negb _); [apply send_bye_wf, set_status_wf|]; by apply Hfold.
Qed.

#[export] Instance sip_dialog_ok : Dialog E (sip_dialog E).
Proof.
  split.
  - intros req code o Hc. by apply reply_settles.
  - intros req code o. apply reply_wf.
  - intros o. apply bye_ends.
  - intros o. apply bye_wf.
Qed.

End Promises.
