(* ===== verification/Exchanges.v ===== *)
(** * Offer/answer exchanges

    Whole exchanges, from the offer to the completed state, and the behaviours of the
    offer/answer machine that the code does not mean to have.  The witnesses run a text
    environment, in which a description is its text, with the dialog of SipDialog. *)

From Stdlib Require Import ZArith Lia Ascii String.
From stdpp Require Import base list.
From S2P Require Import Prelude SipMsg MimeBody DialogMsg Rel100 OfferAnswer OfferAnswerSpec.
From S2P Require Import SipDialog SipDialogSpec.

Local Open Scope Z_scope.
Local Open Scope bool_scope.

(** ** A concrete environment *)

(** Descriptions are their text; an empty one does not parse. *)
Definition text_env : @oa_env cstring :=
  mk_oa_env [] (fun _ t => (t, match t with [] => true | _ => false end)) (fun _ => false)
    (fun l => l) (fun _ => (cs "offer", true)) (fun _ _ => (cs "answer", true)) (fun _ _ => 0)
    (fun _ => true) (fun n => Z.of_nat n) REL100_DISABLED false.

Definition text_dialog : @dialog_ops cstring := sip_dialog text_env.

Definition sdp_text (t : cstring) : mime := mk_mime (cs "application") (cs "sdp") t [].

Lemma oa_follows_rfc3264_witness :
  let o := oa_init text_env true in
  let req := mk_req M_INVITE 1 (sdp_text (cs "v=0")) in
  exists o', oa_run text_env text_dialog (RequestIn req) o = Some o' /\
    (follows text_env (Some false) o o' \/ (M_INVITE = M_ACK /\ bye_answered o o')).
Proof.
  eexists. split; [reflexivity|].
  refine (oa_follows_rfc3264 text_env text_dialog (HD := sip_dialog_ok _)
            (RequestIn (mk_req M_INVITE 1 (sdp_text (cs "v=0")))) _ _ _).
  reflexivity.
Defined.

(** An answered call. *)
Definition answered_call : list oa_op :=
  [RequestIn (mk_req M_INVITE 1 (sdp_text (cs "v=0"))); StatusSet Connected;
   ReplyOut (mk_rpl 200 1 M_INVITE mime_empty_body);
   ReplySent (mk_rpl 200 1 M_INVITE mime_empty_body)].
Definition answered : @oa cstring :=
  default (oa_init text_env true) (oa_runs text_env text_dialog answered_call (oa_init text_env true)).

Lemma runs_reachable {sdp} (E : @oa_env sdp) D hdl ops o o' :
  oa_reachable E D hdl o -> oa_runs E D ops o = Some o' -> oa_reachable E D hdl o'.
Proof.
  revert o. induction ops as [|op ops IH]; cbn; intros o Hr Hs; [congruence|].
  destruct (oa_run E D op o) eqn:Hop; [|done]. eapply IH; [|done]. by eapply reach_run.
Qed.

Lemma session_starts_once_witness :
  state answered = OA_Completed /\ (count_starts (oa_events answered) <= 1)%nat.
Proof.
  split; [reflexivity|].
  refine (proj1 (proj2 (session_starts_once text_env text_dialog (HD := sip_dialog_ok _) true _ _))).
  apply (runs_reachable _ _ _ answered_call (oa_init text_env true)); [apply reach_init|].
  vm_compute. reflexivity.
Defined.
(** ** Whole exchanges *)

Section Exchanges.
Context {sdp : Type}.
Context (E : @oa_env sdp) (D : @dialog_ops sdp).

Implicit Types o : @oa sdp.

(** The exchange [l], [r] is in force and was reported. *)
Definition agreed (l r : sdp) (c : Z) o o' : Prop :=
  state o' = OA_Completed /\ cseq o' = c /\ sdp_local o' = l /\ sdp_remote o' = r /\
  d_sdp_local (dlg o') = l /\ d_sdp_remote (dlg o') = r /\
  exists starts, oa_events o' = starts ++ OCompleted l r :: oa_events o /\
                 Forall (fun e => e = OStart \/ e = OEarlyStart) starts.

(** A completion that the session accepts. *)
Lemma check_accepts o :
  d_hdl (dlg o) = true -> saved_state o <> OA_Completed -> state o = OA_Completed ->
  sdp_completed E (sdp_local o) (sdp_remote o) = 0 ->
  exists o', checkStateChange E o = (o', 0) /\
    agreed (sdp_local o) (sdp_remote o) (cseq o) o o'.
Proof.
  intros Hh Hsv Hs Hc. unfold checkStateChange.
  rewrite (bool_decide_eq_false_2 (saved_state o = state o)) by congruence.
  rewrite bool_decide_eq_true_2 by done. cbn [negb andb].
  unfold onSdpCompleted. rewrite Hh, Hc. cbn. eexists. split; [reflexivity|].
  repeat case_match; unfold agreed; cbn; (repeat split; try done);
    [by exists [OStart; OEarlyStart]; split; [|repeat constructor; auto]
    |by exists [OStart]; split; [|repeat constructor; auto]
    |by exists [OEarlyStart]; split; [|repeat constructor; auto]
    |by exists []].
Qed.

Lemma check_pending o : state o <> OA_Completed -> checkStateChange E o = (o, 0).
Proof.
  intros Hs. unfold checkStateChange. by rewrite (bool_decide_eq_false_2 _ Hs), andb_false_r.
Qed.

Lemma sdp_text_has t : hasContentType SIP_APPLICATION_SDP (sdp_text t) = Some Self.
Proof. done. Qed.

(** An offer of ours and the answer in a reply to it complete the exchange: an INVITE
    sent with an empty SDP part carries the offer the session gives, and a provisional or
    2xx reply with a valid description brings the machine to [OA_Completed] with both
    descriptions stored in the dialog and reported to the session once. *)
Theorem outgoing_exchange_completes o c l r rtext code :
  state o = OA_None \/ state o = OA_Completed ->
  d_hdl (dlg o) = true ->
  get_offer E (sdp_local o) = (l, true) -> sdp_print E l <> [] ->
  sdp_parse E (sdp_remote o) rtext = (r, false) -> rtext <> [] -> sdp_no_media E r = false ->
  sdp_completed E l r = 0 -> code < 300 ->
  exists o1 o', onRequestOut E (mk_req M_INVITE c (sdp_text [])) o =
      Some (o1, mk_req M_INVITE c (sdp_text (sdp_print E l)), true) /\
    oa_runs E D [RequestSent (mk_req M_INVITE c (sdp_text (sdp_print E l)));
               ReplyIn (mk_rpl code c M_INVITE (sdp_text rtext))] o1 = Some o' /\
    agreed l r c o o'.
Proof.
  intros Hst Hh Hoff Hpr Hparse Hrt Hnm Hcomp Hcode.
  destruct (sdp_print E l) as [|p0 ptl] eqn:Hp; [done|].
  destruct rtext as [|r0 rtl]; [done|].
  set (o1 := mk_oa OA_OfferSent (state o) c (sdp_remote o) l (dlg o) (oa_events o)).
  exists o1.
  assert (Hbody : getSdpBody E (saveState o) = (set_local l (saveState o), Some (p0 :: ptl))).
  { unfold getSdpBody, getSdpOffer. cbn. rewrite Hh, Hoff, Hp. by destruct Hst as [-> | ->]. }
  set (o2 := mk_oa OA_Completed OA_OfferSent c r l (dlg o) (oa_events o)).
  destruct (check_accepts o2) as (o' & Hchk & Hagr); [done..|].
  exists o'. split; [|split; [|done]].
  - unfold onRequestOut. cbn [rq_method rq_body rq_cseq]. rewrite sdp_text_has.
    cbn -[getSdpBody]. rewrite Hbody. cbn. unfold onTxSdp. cbn.
    by destruct Hst as [-> | ->].
  - cbn [oa_runs].
    assert (Hsent : oa_run E D (RequestSent (mk_req M_INVITE c (sdp_text (p0 :: ptl)))) o1 = Some o1).
    { cbn. unfold onRequestSent. by rewrite check_pending. }
    rewrite Hsent. unfold oa_run, onReplyIn. cbn [rp_code rp_cseq rp_method rp_body].
    rewrite (proj2 (Z.leb_gt 300 code)) by lia. cbn [andb].
    change (has SIP_APPLICATION_SDP (sdp_text (r0 :: rtl))) with true.
    change (meth_eqb M_INVITE M_INVITE) with true. cbn [orb andb negb body_empty payload sdp_text].
    rewrite !bool_decide_eq_false_2 by done. cbn [orb andb].
    unfold onRxSdp. rewrite sdp_text_has. cbn -[checkStateChange]. rewrite Hparse, Hnm.
    cbn -[checkStateChange]. change (set_st _ _) with o2. by rewrite Hchk.
Qed.

(** A valid description received when no offer is pending. *)
Lemma rx_offer o c r rtext :
  state o = OA_None \/ state o = OA_Completed ->
  sdp_parse E (sdp_remote o) rtext = (r, false) -> sdp_no_media E r = false ->
  onRxSdp E c (sdp_text rtext) o = (set_cseq c (set_st OA_OfferRecved (set_remote r o)), 0).
Proof.
  intros Hs Hp Hn. unfold onRxSdp. rewrite sdp_text_has. cbn. rewrite Hp, Hn. cbn.
  by destruct Hs as [-> | ->].
Qed.

Lemma request_rx_offer o meth c r rtext :
  meth = M_INVITE \/ meth = M_ACK -> rtext <> [] ->
  state o = OA_None \/ state o = OA_Completed ->
  sdp_parse E (sdp_remote o) rtext = (r, false) -> sdp_no_media E r = false ->
  request_rx E (mk_req meth c (sdp_text rtext)) o =
  (set_cseq c (set_st OA_OfferRecved (set_remote r o)), 0).
Proof.
  intros Hm Hr Hs Hp Hn. unfold request_rx. cbn [rq_method rq_body rq_cseq].
  replace (negb (body_empty (sdp_text rtext))) with true by (by destruct rtext).
  rewrite sdp_text_has, andb_true_r. cbn [part_at]. rewrite (rx_offer _ _ r) by done.
  by destruct Hm as [-> | ->].
Qed.

(** The answer goes into a 2xx built without a body. *)
Lemma answer_out o rpl l :
  state o = OA_OfferRecved -> d_hdl (dlg o) = true ->
  get_answer E (sdp_remote o) (sdp_local o) = (l, true) -> sdp_print E l <> [] ->
  rp_method rpl = M_INVITE -> rp_body rpl = mime_empty_body -> 200 <= rp_code rpl < 300 ->
  onReplyOut E rpl o =
  (mk_oa OA_Completed OA_OfferRecved (cseq o) (sdp_remote o) l (dlg o) (oa_events o),
   set_rp_body (sdp_text (sdp_print E l)) rpl, true).
Proof.
  destruct rpl as [code c meth body tag rs sup requ]. cbn [rp_method rp_body rp_code].
  intros Hs Hh Hans Hpr -> -> Hcode.
  destruct (sdp_print E l) as [|p0 ptl] eqn:Hp; [done|].
  unfold onReplyOut. cbn [rp_code rp_cseq rp_method rp_body].
  change (hasContentType SIP_APPLICATION_SDP mime_empty_body) with (@None part_ref).
  change (has CSTA mime_empty_body) with false. cbn [negb andb].
  match goal with |- context [force_sdp ?r ?s] => assert (Hf : force_sdp r s = true) end.
  { unfold force_sdp. rewrite Hs. cbn.
    rewrite (proj2 (Z.leb_le 200 code)), (proj2 (Z.ltb_lt code 300)) by lia.
    by rewrite orb_true_r. }
  rewrite Hf. unfold getSdpBody, getSdpAnswer. cbn. rewrite Hs, Hh, Hans, Hp.
  unfold reply_out_end. cbn -[Z.leb Z.eqb]. unfold onTxSdp. cbn -[Z.leb Z.eqb]. rewrite Hs.
  cbn -[Z.leb Z.eqb]. rewrite (proj2 (Z.leb_gt 300 code)) by lia. cbn.
  unfold saveState, set_st, set_local. cbn. by rewrite ?Hs.
Qed.

(** An offer in an INVITE and our 2xx to it complete the exchange: the 2xx, built without
    a body, carries the answer the session gives, the machine reaches [OA_Completed] with
    both descriptions stored and reported once, and the ACK leaves it there. *)
Theorem incoming_exchange_completes o c l r rtext code :
  state o = OA_None \/ state o = OA_Completed ->
  d_hdl (dlg o) = true ->
  sdp_parse E (sdp_remote o) rtext = (r, false) -> rtext <> [] -> sdp_no_media E r = false ->
  get_answer E r (sdp_local o) = (l, true) -> sdp_print E l <> [] ->
  sdp_completed E l r = 0 -> 200 <= code < 300 ->
  exists o1 o2 o', onRequestIn E D (mk_req M_INVITE c (sdp_text rtext)) o = (o1, true) /\
    onReplyOut E (mk_rpl code c M_INVITE mime_empty_body) o1 =
      (o2, mk_rpl code c M_INVITE (sdp_text (sdp_print E l)), true) /\
    oa_runs E D [ReplySent (mk_rpl code c M_INVITE (sdp_text (sdp_print E l)));
               RequestIn (mk_req M_ACK c mime_empty_body)] o2 = Some o' /\
    agreed l r c o o'.
Proof.
  intros Hst Hh Hparse Hrt Hnm Hans Hpr Hcomp Hcode.
  destruct (sdp_print E l) as [|p0 ptl] eqn:Hp; [done|].
  set (o1 := mk_oa OA_OfferRecved (state o) c r (sdp_local o) (dlg o) (oa_events o)).
  set (o2 := mk_oa OA_Completed OA_OfferRecved c r l (dlg o) (oa_events o)).
  destruct (check_accepts o2) as (o' & Hchk & Hagr); [done..|].
  exists o1, o2, (saveState o'). split; [|split; [|split; [|by destruct Hagr]]].
  - unfold onRequestIn. cbn zeta.
    change (if _ && _ then _ else (saveState o, 0))
      with (request_rx E (mk_req M_INVITE c (sdp_text rtext)) (saveState o)).
    rewrite (request_rx_offer _ _ _ r) by (done || by left).
    change (set_cseq c _) with o1. by rewrite check_pending.
  - rewrite (answer_out o1 _ l); [by rewrite Hp|done|done|exact Hans|by rewrite Hp|done|done|exact Hcode].
  - cbn [oa_runs].
    assert (Hsent : oa_run E D (ReplySent (mk_rpl code c M_INVITE (sdp_text (p0 :: ptl)))) o2 = Some o').
    { unfold oa_run, onReplySent. rewrite Hchk. cbn [rp_method].
      by rewrite andb_false_r. }
    rewrite Hsent. unfold oa_run, onRequestIn. cbn zeta.
    cbn [rq_method rq_body rq_cseq]. change (negb (body_empty mime_empty_body)) with false.
    rewrite andb_false_r, check_quiet by done. cbn [fst Z.eqb].
    destruct Hagr as (Hc & _). unfold clearTransitionalState.
    change (state (saveState o')) with (state o'). rewrite Hc. by case_match.
Qed.

(** ** Behaviours the code does not mean to have *)

(** A 200 whose transaction has an offer of the peer that is not answered yet (the 183
    carried it) is reported to the session as a completed exchange, with whatever local
    description there is; the machine still waits for our answer. *)
Theorem unanswered_offer_reported o c t :
  state o = OA_OfferRecved -> cseq o = c -> d_hdl (dlg o) = true -> t <> [] ->
  sdp_completed E (sdp_local o) (sdp_remote o) = 0 ->
  let o' := fst (onReplyIn E D (mk_rpl 200 c M_INVITE (sdp_text t)) o) in
  state o' = OA_OfferRecved /\ In (OCompleted (sdp_local o) (sdp_remote o)) (oa_events o').
Proof.
  intros Hs Hc Hh Ht Hcomp. destruct t as [|t0 t]; [done|].
  unfold onReplyIn. cbn [rp_code rp_cseq rp_method rp_body].
  change (300 <=? 200) with false. cbn [andb].
  change (has SIP_APPLICATION_SDP (sdp_text (t0 :: t))) with true.
  change (meth_eqb M_INVITE M_INVITE) with true. cbn [orb andb negb body_empty payload sdp_text].
  rewrite Hs, Hc, Z.eqb_refl, (bool_decide_eq_true_2 (OA_OfferRecved = OA_OfferRecved)) by done.
  rewrite orb_true_r. cbn [andb].
  unfold onSdpCompleted. rewrite Hh, Hcomp. cbn.
  repeat case_match; cbn; auto 6.
Qed.

(** An ACK with a description that arrives when the exchange is complete (the repeated ACK
    of a 2xx that carried our offer) throws the completed exchange away: it counts as a new
    offer and is then reset as a finished transaction. *)
Theorem repeated_ack_forgets o c r rtext :
  state o = OA_Completed -> sdp_parse E (sdp_remote o) rtext = (r, false) -> rtext <> [] ->
  sdp_no_media E r = false ->
  onRequestIn E D (mk_req M_ACK c (sdp_text rtext)) o = (clear E (saveState o), true).
Proof.
  intros Hs Hp Hr Hn. unfold onRequestIn. cbn zeta.
  change (if _ && _ then _ else (saveState o, 0))
    with (request_rx E (mk_req M_ACK c (sdp_text rtext)) (saveState o)).
  rewrite (request_rx_offer _ _ _ r) by (done || by right).
  rewrite check_pending by done. cbn. by rewrite Z.eqb_refl.
Qed.

(** An ACK or PRACK that must carry the answer to an offer, but is built with a multipart
    body without SDP, makes [onRequestOut] write through the null pointer that [addPart]
    returned. *)
Theorem request_out_null o meth c body l :
  meth = M_ACK \/ meth = M_PRACK ->
  state o = OA_OfferRecved -> d_hdl (dlg o) = true ->
  get_answer E (sdp_remote o) (sdp_local o) = (l, true) ->
  isMultipart body = true -> has SIP_APPLICATION_SDP body = false -> has CSTA body = false ->
  onRequestOut E (mk_req meth c body) o = None.
Proof.
  intros Hm Hs Hh Hans Hmp Hno Hnc. unfold onRequestOut. cbn [rq_method rq_body rq_cseq].
  unfold has in Hno. destruct (hasContentType SIP_APPLICATION_SDP body); [done|].
  rewrite Hnc, Hs. cbn [negb andb].
  replace (meth_eqb meth M_PRACK || meth_eqb meth M_ACK) with true by (by destruct Hm as [-> | ->]).
  rewrite bool_decide_eq_true_2 by done. cbn [andb].
  assert (Hadd : addPart (cs "application") (cs "sdp") body = (body, None)).
  { unfold addPart. rewrite Hmp. destruct body as [[|a t] st p ps]; [done|done]. }
  rewrite Hadd. unfold getSdpBody, getSdpAnswer. cbn. by rewrite Hs, Hh, Hans.
Qed.

End Exchanges.

(** ** Witnesses *)

Lemma outgoing_exchange_completes_witness :
  exists o1 o', onRequestOut text_env (mk_req M_INVITE 1 (sdp_text [])) (oa_init text_env true) =
      Some (o1, mk_req M_INVITE 1 (sdp_text (cs "offer")), true) /\
    oa_runs text_env text_dialog [RequestSent (mk_req M_INVITE 1 (sdp_text (cs "offer")));
      ReplyIn (mk_rpl 200 1 M_INVITE (sdp_text (cs "v=0")))] o1 = Some o' /\
    agreed (cs "offer") (cs "v=0") 1 (oa_init text_env true) o'.
Proof.
  refine (outgoing_exchange_completes text_env text_dialog (oa_init text_env true) 1 (cs "offer") (cs "v=0")
            (cs "v=0") 200 _ _ _ _ _ _ _ _ _); (reflexivity || discriminate || lia || by left).
Defined.

Lemma incoming_exchange_completes_witness :
  exists o1 o2 o',
    onRequestIn text_env text_dialog (mk_req M_INVITE 1 (sdp_text (cs "v=0"))) (oa_init text_env true) = (o1, true) /\
    onReplyOut text_env (mk_rpl 200 1 M_INVITE mime_empty_body) o1 =
      (o2, mk_rpl 200 1 M_INVITE (sdp_text (cs "answer")), true) /\
    oa_runs text_env text_dialog [ReplySent (mk_rpl 200 1 M_INVITE (sdp_text (cs "answer")));
               RequestIn (mk_req M_ACK 1 mime_empty_body)] o2 = Some o' /\
    agreed (cs "answer") (cs "v=0") 1 (oa_init text_env true) o'.
Proof.
  refine (incoming_exchange_completes text_env text_dialog (oa_init text_env true) 1 (cs "answer") (cs "v=0")
            (cs "v=0") 200 _ _ _ _ _ _ _ _ _); (reflexivity || discriminate || lia || by left).
Defined.

(** An INVITE sent without a body, an offer in the 183. *)
Definition offered_in_183 : @oa cstring :=
  default (oa_init text_env true)
    (oa_runs text_env text_dialog
       [RequestOut (mk_req M_INVITE 1 mime_empty_body);
        RequestSent (mk_req M_INVITE 1 mime_empty_body);
        ReplyIn (mk_rpl 183 1 M_INVITE (sdp_text (cs "v=0")))] (oa_init text_env true)).

Lemma unanswered_offer_reported_witness :
  let o' := fst (onReplyIn text_env text_dialog (mk_rpl 200 1 M_INVITE (sdp_text (cs "v=0"))) offered_in_183) in
  state o' = OA_OfferRecved /\ In (OCompleted [] (cs "v=0")) (oa_events o').
Proof.
  refine (unanswered_offer_reported text_env text_dialog offered_in_183 1 (cs "v=0") _ _ _ _ _);
    (reflexivity || discriminate).
Defined.

(** A call answered with our offer in the 200 and the answer in the ACK. *)
Definition acked_with_sdp : @oa cstring :=
  default (oa_init text_env true)
    (oa_runs text_env text_dialog
       [RequestIn (mk_req M_INVITE 1 mime_empty_body);
        ReplyOut (mk_rpl 200 1 M_INVITE mime_empty_body);
        ReplySent (mk_rpl 200 1 M_INVITE (sdp_text (cs "offer")));
        RequestIn (mk_req M_ACK 1 (sdp_text (cs "v=0")))] (oa_init text_env true)).

Lemma repeated_ack_forgets_witness :
  state acked_with_sdp = OA_Completed /\
  onRequestIn text_env text_dialog (mk_req M_ACK 1 (sdp_text (cs "v=0"))) acked_with_sdp =
    (clear text_env (saveState acked_with_sdp), true).
Proof.
  split; [reflexivity|].
  refine (repeated_ack_forgets text_env text_dialog acked_with_sdp 1 (cs "v=0") (cs "v=0") _ _ _ _);
    (reflexivity || discriminate).
Defined.

Lemma request_out_null_witness :
  onRequestOut text_env
    (mk_req M_ACK 1 (mk_mime (cs "multipart") (cs "mixed") [] [mk_mime (cs "text") (cs "plain") (cs "x") []]))
    offered_in_183 = None.
Proof.
  refine (request_out_null text_env offered_in_183 M_ACK 1 _ (cs "answer") _ _ _ _ _ _ _);
    (reflexivity || by left).
Defined.
