(* ===== verification/SipDialogInv.v ===== *)
(** * The transactions of a dialog

    The invariant of the pending requests of a dialog over everything that the peer and
    the session can do, with the INVITE that is refused with 491 because another is pending
    (RFC 3261 14.2), and the INVITE that is never forgotten. *)

From Stdlib Require Import ZArith Lia Ascii String Sorted.
From stdpp Require Import base list.
From S2P Require Import Prelude SipMsg MimeBody DialogMsg Rel100 OfferAnswer OfferAnswerSpec SipDialog.
From S2P Require Import SipDialogSpec Exchanges.

Local Open Scope Z_scope.
Local Open Scope bool_scope.

(** ** Counting INVITEs *)

Definition count_invites (m : TransMap) : Z := Z.of_nat (length (List.filter is_invite m)).

Lemma tm_has_invite_count m : tm_has_invite m = negb (count_invites m =? 0).
Proof.
  unfold tm_has_invite, count_invites. induction m as [|kv m IH]; [done|].
  cbn. destruct (is_invite kv); cbn; [|done]. symmetry. apply negb_true_iff, Z.eqb_neq. lia.
Qed.

(** A new key. *)
Lemma count_set_new c r m :
  (forall kv, In kv m -> fst kv < c) ->
  count_invites (tm_set c r m) =
  count_invites m + if meth_eqb (rq_method r) M_INVITE then 1 else 0.
Proof.
  unfold count_invites. induction m as [|[k q] m IH]; intros H; cbn [tm_set].
  - unfold is_invite. cbn. by destruct (meth_eqb _ _).
  - pose proof (H (k, q) ltac:(by left)) as Hk. cbn in Hk.
    rewrite (proj2 (Z.eqb_neq c k)) by lia. specialize (IH (fun kv Hin => H kv (or_intror Hin))).
    destruct (int_key c <? int_key k); cbn [List.filter].
    + replace (is_invite (c, r)) with (meth_eqb (rq_method r) M_INVITE) by done.
      destruct (meth_eqb _ _), (is_invite (k, q)); cbn [length]; lia.
    + destruct (is_invite (k, q)); cbn [length]; lia.
Qed.

(** Erasing a key that is there once. *)
Lemma count_erase c r m :
  tm_ok m -> tm_find c m = Some r ->
  count_invites m =
  count_invites (tm_erase c m) + if meth_eqb (rq_method r) M_INVITE then 1 else 0.
Proof.
  intros [Hs _]. unfold count_invites, tm_erase.
  induction Hs as [|[k q] m Hs IH Hall]; cbn; [done|].
  destruct (k =? c) eqn:Hk; cbn; zbool.
  - intros [= ->].
    assert (Hf : List.filter (fun kv => negb (fst kv =? c)) m = m).
    { clear -Hall Hk. induction Hall as [|[k' q'] m [_ Hne] _ IH]; [done|]. cbn in *.
      rewrite (proj2 (Z.eqb_neq k' c)) by congruence. cbn. by rewrite IH. }
    rewrite Hf. unfold is_invite at 1. cbn. destruct (meth_eqb _ _); cbn; lia.
  - intros Hf. specialize (IH Hf). destruct (is_invite (k, q)); cbn; lia.
Qed.

Lemma tm_find_some c r m : tm_ok m -> In (c, r) m -> tm_find c m = Some r.
Proof.
  intros [Hs _]. induction Hs as [|[k q] m Hs IH Hall]; cbn; [done|].
  intros [[= -> ->]|Hin]; [by rewrite Z.eqb_refl|].
  rewrite List.Forall_forall in Hall. destruct (Hall _ Hin) as [_ Hne]. cbn in Hne.
  rewrite (proj2 (Z.eqb_neq k c)) by done. by apply IH.
Qed.

Lemma tm_invite_found m r : tm_ok m -> tm_invite m = Some r -> tm_find (rq_cseq r) m = Some r.
Proof.
  intros Hok. unfold tm_invite. destruct (List.find is_invite m) as [[k q]|] eqn:Hf; [|done].
  cbn. intros [= ->]. apply find_some in Hf as [Hin _]. pose proof Hok as [_ Hk].
  rewrite List.Forall_forall in Hk. pose proof (Hk _ Hin) as Hkey. cbn in Hkey.
  rewrite Hkey. by apply tm_find_some.
Qed.

Section Inv.
Context {sdp : Type}.
Context (E : @oa_env sdp).

Implicit Types o : @oa sdp.

(** INVITEs refused by the 100rel extension. *)
Definition rel_refused (l : list (@oa_event sdp)) : Z :=
  Z.of_nat (length (List.filter
    (fun e => match e with DError _ code => (code =? 420) || (code =? 421) | _ => false end) l)).

(** The part of the dialog that the invariant is about. *)
Definition core o :=
  let d := dlg o in
  (d_cseq d, r_cseq d, r_cseq_i d, uas_trans d, uac_trans d, pending_invites d, d_sends d,
   rel_refused (oa_events o)).

Definition keeps o o' : Prop := core o' = core o.

Lemma keeps_trans o o1 o2 : keeps o o1 -> keeps o1 o2 -> keeps o o2.
Proof. unfold keeps. congruence. Qed.

Lemma keeps_completed o : keeps o (fst (onSdpCompleted E o)).
Proof.
  unfold onSdpCompleted, keeps. destruct (d_hdl _); cbn; [|done].
  destruct (_ =? 0); cbn; [|done]. by repeat case_match.
Qed.

Lemma keeps_check o : keeps o (fst (checkStateChange E o)).
Proof. unfold checkStateChange. case_match; [apply keeps_completed|done]. Qed.

Lemma keeps_clearTransitional o : keeps o (clearTransitionalState E o).
Proof. unfold clearTransitionalState. by case_match. Qed.

Lemma keeps_same o o' : same o o' -> keeps o o'.
Proof. intros [_ _ _ Hd He]. unfold keeps, core. by rewrite Hd, He. Qed.

Lemma keeps_steps tx c o o' : steps_to tx c o o' -> keeps o o'.
Proof. intros (_ & _ & Hd & He & _). unfold keeps, core. by rewrite Hd, He. Qed.

Lemma keeps_reply_end rpl body h o :
  let r := reply_out_end E rpl body h o in
  keeps o (fst (fst r)) /\ rp_code (snd (fst r)) = rp_code rpl /\
  rp_cseq (snd (fst r)) = rp_cseq rpl /\ rp_method (snd (fst r)) = rp_method rpl.
Proof.
  unfold reply_out_end.
  assert (Hc : forall o1, keeps o o1 -> keeps o
    (if (300 <=? rp_code rpl) && (rp_cseq rpl =? cseq o1) then clearTransitionalState E o1 else o1)).
  { intros o1 H. case_match; [|done]. eapply keeps_trans; [done|]. apply keeps_clearTransitional. }
  destruct (h || _).
  - destruct (onTxSdp _ _ o) as [o1 ok] eqn:Htx.
    destruct (onTxSdp_spec _ _ _ _ _ Htx) as [[-> Hst]|[-> ->]]; cbn [negb fst snd]; [|done].
    split; [|done]. apply Hc. by eapply keeps_steps.
  - cbn [negb fst snd]. split; [|done]. by apply Hc.
Qed.

Lemma keeps_reply_out rpl o :
  let r := onReplyOut E rpl o in
  keeps o (fst (fst r)) /\ rp_code (snd (fst r)) = rp_code rpl /\
  rp_cseq (snd (fst r)) = rp_cseq rpl /\ rp_method (snd (fst r)) = rp_method rpl.
Proof.
  assert (Hend : forall b h o1, keeps (saveState o) o1 ->
    let r := reply_out_end E rpl b h o1 in
    keeps o (fst (fst r)) /\ rp_code (snd (fst r)) = rp_code rpl /\
    rp_cseq (snd (fst r)) = rp_cseq rpl /\ rp_method (snd (fst r)) = rp_method rpl).
  { intros b h o1 Hk. cbn. destruct (keeps_reply_end rpl b h o1) as [H1 H2].
    split; [|done]. eapply keeps_trans; [exact Hk|done]. }
  unfold onReplyOut. cbn zeta.
  destruct (if _ : bool then force_sdp rpl (state o) else _).
  - pose proof (keeps_same _ _ (getSdpBody_same E (saveState o))) as Hg.
    destruct (getSdpBody E (saveState o)) as [o1 [txt|]]; cbn in Hg.
    + destruct (hasContentType _ _) as [r|]; [by apply Hend|].
      destruct (addPart _ _ _) as [b [r|]]; [by apply Hend|done].
    + destruct (_ || _); [by apply Hend|done].
  - destruct (hasContentType _ _) as [r|]; [destruct (if _ : bool then false else _)|];
      by apply Hend.
Qed.

Lemma keeps_request_out req o o' req' ok :
  onRequestOut E req o = Some (o', req', ok) ->
  keeps o o' /\ rq_method req' = rq_method req /\ rq_cseq req' = rq_cseq req.
Proof.
  assert (Hend : forall b h o1, keeps (saveState o) o1 -> request_out_end req b h o1 = (o', req', ok) ->
    keeps o o' /\ rq_method req' = rq_method req /\ rq_cseq req' = rq_cseq req).
  { intros b h o1 Hk Hf. unfold request_out_end in Hf. cbn zeta in Hf. destruct (h || _) in Hf.
    - destruct (onTxSdp _ _ _) as [o2 k] eqn:Htx. injection Hf as <- <- _.
      destruct (onTxSdp_spec _ _ _ _ _ Htx) as [[_ Hst]|[_ ->]]; (split; [|done]); [|exact Hk].
      eapply keeps_trans; [exact Hk|by eapply keeps_steps].
    - injection Hf as <- <- _. split; [exact Hk|done]. }
  unfold onRequestOut. cbn zeta.
  destruct (if _ : bool then _ else _) as [[body sb] g]; intros H.
  destruct g.
  - pose proof (keeps_same _ _ (getSdpBody_same E (saveState o))) as Hg.
    destruct (getSdpBody E (saveState o)) as [o1 [txt|]]; cbn in Hg.
    + destruct sb as [r|]; [|done]. injection H as H. by apply (Hend _ _ _ Hg H).
    + injection H as <- <- _. split; [exact Hg|done].
  - destruct sb as [r|]; [destruct (match hasContentType _ _ with Some _ => _ | None => _ end)|];
      injection H as H; refine (Hend _ _ _ _ H); done.
Qed.

Lemma keeps_reply_sent rpl o : keeps o (fst (onReplySent E rpl o)).
Proof.
  unfold onReplySent. pose proof (keeps_check o) as H. destruct (checkStateChange E o) as [o1 r].
  cbn in *. case_match; [|done]. eapply keeps_trans; [done|apply keeps_clearTransitional].
Qed.

Lemma keeps_request_sent req o : keeps o (fst (onRequestSent E req o)).
Proof.
  unfold onRequestSent. pose proof (keeps_check o) as H. destruct (checkStateChange E o) as [o1 r].
  cbn in *. case_match; [|done]. eapply keeps_trans; [done|apply keeps_clearTransitional].
Qed.

(** ** The invariant *)

Record dlg_inv o : Prop := {
  inv_uas : tm_ok (uas_trans (dlg o));
  inv_uac : tm_ok (uac_trans (dlg o));
  inv_cseq : Z.of_nat (d_sends (dlg o)) < u32_mod - 10 ->
    10 <= d_cseq (dlg o) <= 10 + Z.of_nat (d_sends (dlg o)) /\
    forall kv, In kv (uac_trans (dlg o)) -> fst kv < d_cseq (dlg o);
  inv_r_cseq : forall kv, In kv (uas_trans (dlg o)) ->
    r_cseq_i (dlg o) = true /\ fst kv <= r_cseq (dlg o);
  inv_pending : pending_invites (dlg o) =
    count_invites (uas_trans (dlg o)) + rel_refused (oa_events o);
  inv_one : pending_invites (dlg o) <= 1
}.

(** The same but for messages sent. *)
Definition sent_on o o' : Prop :=
  (d_sends (dlg o) <= d_sends (dlg o'))%nat /\
  keeps (on_dlg (set_sends (d_sends (dlg o'))) o) o'.

Lemma keeps_sent_on o o' : keeps o o' -> sent_on o o'.
Proof.
  unfold sent_on, keeps, core. cbn. intros [= Ha Hb Hc Hd He Hf Hg Hh].
  split; [by rewrite Hg|]. congruence.
Qed.

Lemma sent_on_trans o o1 o2 : sent_on o o1 -> sent_on o1 o2 -> sent_on o o2.
Proof.
  unfold sent_on, keeps, core. cbn. intros [Hle1 Heq1] [Hle2 Heq2]. split; [lia|]. congruence.
Qed.

Lemma inv_sent_on o o' : sent_on o o' -> dlg_inv o -> dlg_inv o'.
Proof.
  unfold sent_on, keeps, core. cbn. intros [Hn [= Ha Hb Hc Hd He Hf Hh]] [H1 H2 H3 H4 H5 H6].
  split; rewrite ?Ha, ?Hb, ?Hc, ?Hd, ?He, ?Hf, ?Hh; try done.
  intros Hlt. destruct H3 as [H3 H3']; [lia|]. split; [lia|done].
Qed.

Lemma inv_keeps o o' : keeps o o' -> dlg_inv o -> dlg_inv o'.
Proof. intros H. by apply inv_sent_on, keeps_sent_on. Qed.

Lemma sent_on_uas o o' : sent_on o o' -> uas_trans (dlg o') = uas_trans (dlg o).
Proof. unfold sent_on, keeps, core. cbn. by intros [_ [=]]. Qed.

Lemma sent_on_cseq o o' : sent_on o o' -> d_cseq (dlg o') = d_cseq (dlg o).
Proof. unfold sent_on, keeps, core. cbn. by intros [_ [=]]. Qed.

(** Events that are no refusal of the 100rel extension. *)
Definition harmless (e : @oa_event sdp) : Prop := rel_refused [e] = 0.

Lemma refused_cons e l : rel_refused (e :: l) = rel_refused [e] + rel_refused l.
Proof. unfold rel_refused. cbn. destruct e; cbn; try lia. destruct (_ || _); cbn; lia. Qed.

Lemma keeps_emit e o : harmless e -> keeps o (oa_emit e o).
Proof.
  intros He. unfold keeps, core. cbn [oa_events oa_emit dlg]. rewrite refused_cons, He.
  by rewrite Z.add_0_l.
Qed.

Lemma keeps_tell e o : harmless e -> keeps o (tell e o).
Proof. intros He. unfold tell. case_match; [by apply keeps_emit|done]. Qed.

Lemma net_send_on e o : harmless e -> sent_on o (fst (net_send E e o)).
Proof.
  intros He. unfold net_send.
  assert (H1 : sent_on o (on_dlg (set_sends (S (d_sends (dlg o)))) o)).
  { split; [cbn; lia|done]. }
  case_match; cbn [fst]; [|done]. eapply sent_on_trans; [exact H1|].
  apply keeps_sent_on. by apply keeps_emit.
Qed.

(** ** Replies *)

Lemma onReplyTxed_inv rpl r o :
  tm_find (rp_cseq rpl) (uas_trans (dlg o)) = Some r ->
  rp_method rpl = rq_method r \/ rp_method rpl = M_CANCEL ->
  dlg_inv o -> dlg_inv (onReplyTxed E rpl o).
Proof.
  intros Hf Hm Hi. unfold onReplyTxed.
  set (o0 := if ends_usage _ then _ else _).
  assert (H0 : keeps o o0) by (subst o0; case_match; [by apply keeps_tell|done]).
  clearbody o0. apply (inv_keeps _ _ H0) in Hi.
  rewrite <-(sent_on_uas _ _ (keeps_sent_on _ _ H0)) in Hf. clear H0 o.
  set (o1 := if (200 <=? _) && negb _ then _ else _).
  pose proof (keeps_reply_sent rpl o1) as Hk.
  destruct (onReplySent E rpl o1) as [o2 x]. cbn [fst] in *.
  destruct (200 <=? rp_code rpl) eqn:Hcode; cbn [andb] in *.
  2:{ by eapply inv_keeps. }
  destruct (meth_eqb (rp_method rpl) M_CANCEL) eqn:Hc; cbn [negb] in *.
  { apply bool_decide_eq_true in Hc. rewrite Hc. cbn. by eapply inv_keeps. }
  apply bool_decide_eq_false in Hc. destruct Hm as [Hm|]; [|done].
  destruct Hi as [H1 H2 H3 H4 H5 H6].
  pose proof (count_erase _ _ _ H1 Hf) as Hcount.
  assert (Hpos : 0 <= rel_refused (oa_events o0) /\ 0 <= count_invites (tm_erase (rp_cseq rpl) (uas_trans (dlg o0)))).
  { unfold rel_refused, count_invites. lia. }
  unfold keeps, core in Hk. subst o1. cbn in Hk. injection Hk as Ka Kb Kc Kd Ke Kf Kg Kh.
  rewrite Hm. destruct (meth_eqb (rq_method r) M_INVITE);
    split; cbn; rewrite ?Ka, ?Kb, ?Kc, ?Kd, ?Ke, ?Kf, ?Kg, ?Kh;
    auto using tm_erase_ok;
    try (intros kv Hin; apply tm_erase_in in Hin as [Hin _]; by apply H4);
    try lia.
  - rewrite u32_small; [lia|]. unfold is_u32, u32_mod. lia.
  - rewrite u32_small; [lia|]. unfold is_u32, u32_mod. lia.
Qed.

Lemma onTxReply_keeps rpl o :
  let r := onTxReply E rpl o in
  keeps o (fst (fst r)) /\ rp_cseq (snd (fst r)) = rp_cseq rpl /\
  rp_method (snd (fst r)) = rp_method rpl.
Proof.
  unfold onTxReply. pose proof (keeps_reply_out rpl o) as (H1 & Hc & Hq & Hm).
  destruct (onReplyOut E rpl o) as [[o1 rpl1] ok]. cbn in H1, Hc, Hq, Hm.
  destruct ok; [|done]. cbn [negb].
  destruct (rel_onReplyOut _ _ _) as [[r rpl2]|] eqn:Hr; [|done].
  assert (Hsame : rp_cseq rpl2 = rp_cseq rpl1 /\ rp_method rpl2 = rp_method rpl1).
  { unfold rel_onReplyOut, rel_number in Hr. cbn zeta in Hr.
    repeat (case_match; simplify_eq/=); done. }
  destruct Hsame as [Hq' Hm'].
  destruct (onTxReply_status _ _ _) as [st|]; cbn [fst snd];
    (split; [|split; congruence]); (eapply keeps_trans; [exact H1|done]).
Qed.

Definition reply_ok (req : AmSipRequest) o : Prop :=
  forall r, tm_find (rq_cseq req) (uas_trans (dlg o)) = Some r ->
    rq_method req = rq_method r \/ rq_method req = M_CANCEL.

Lemma reply_inv req code body h o :
  reply_ok req o -> dlg_inv o -> dlg_inv (fst (reply E req code body h o)).
Proof.
  intros Hok Hi. unfold reply. destruct h as [[sup requ] rs].
  destruct (tm_find _ _) as [r|] eqn:Hf; [|done]. specialize (Hok _ Hf).
  set (rpl := build_rpl _ _ _ _ _ _ _ _).
  pose proof (onTxReply_keeps rpl o) as (H1 & Hq & Hm).
  destruct (onTxReply E rpl o) as [[o1 rpl1] res]. cbn in H1, Hq, Hm.
  apply keeps_sent_on in H1.
  destruct res; [|by eapply inv_sent_on|by eapply inv_sent_on].
  pose proof (net_send_on (DTxReply rpl1) o1 eq_refl) as H2.
  destruct (net_send E _ o1) as [o2 sent]. cbn in H2.
  pose proof (sent_on_trans _ _ _ H1 H2) as H3.
  destruct sent; [|by eapply inv_sent_on]. cbn [fst].
  apply (onReplyTxed_inv rpl1 r); [|by rewrite Hm|by eapply inv_sent_on].
  by rewrite Hq, (sent_on_uas _ _ H3).
Qed.

(** ** Requests *)

Lemma rel_out_kept req r :
  rq_method (rel_onRequestOut req r) = rq_method req /\ rq_cseq (rel_onRequestOut req r) = rq_cseq req.
Proof. unfold rel_onRequestOut. repeat case_match; done. Qed.

Lemma onRequestTxed_inv req o o1 :
  rq_method req = M_ACK \/ rq_cseq req = d_cseq (dlg o) ->
  dlg_inv o -> sent_on o o1 -> (d_sends (dlg o) < d_sends (dlg o1))%nat ->
  dlg_inv (onRequestTxed E req o1).
Proof.
  intros Hreq Hi Hon Hlt. unfold onRequestTxed. set (o2 := if negb _ then _ else _).
  eapply inv_keeps; [apply keeps_request_sent|].
  pose proof (inv_sent_on _ _ Hon Hi) as [H1 H2 _ H4 H5 H6].
  pose proof (inv_cseq _ Hi) as H3. pose proof (sent_on_cseq _ _ Hon) as Hcs.
  assert (Huac : uac_trans (dlg o1) = uac_trans (dlg o)).
  { destruct Hon as [_ Hk]. unfold keeps, core in Hk. cbn in Hk. by injection Hk. }
  subst o2. destruct (meth_eqb (rq_method req) M_ACK) eqn:Hm; cbn [negb].
  - split; cbn; try done; [by apply tm_erase_ok|]. intros Hs. destruct H3 as [H3 H3']; [lia|].
    split; [lia|]. intros kv Hin. apply tm_erase_in in Hin as [Hin _]. rewrite Hcs.
    apply H3'. by rewrite <-Huac.
  - apply bool_decide_eq_false in Hm. destruct Hreq as [|Hreq]; [done|].
    split; cbn; try done; [by apply tm_set_ok|]. intros Hs. destruct H3 as [H3 H3']; [lia|].
    rewrite Hcs, u32_small by (unfold is_u32, u32_mod in *; lia). split; [lia|].
    intros kv Hin. apply tm_set_in in Hin as [-> | Hin]; cbn; [lia|].
    rewrite Huac in Hin. specialize (H3' _ Hin). lia.
Qed.

Lemma transmit_inv req o o' ok :
  rq_method req = M_ACK \/ rq_cseq req = d_cseq (dlg o) ->
  dlg_inv o -> transmit E req o = Some (o', ok) -> dlg_inv o'.
Proof.
  intros Hreq Hi. unfold transmit, onTxRequest.
  destruct (rel_out_kept req (rel100 (dlg o))) as [Hm Hc].
  destruct (onRequestOut E _ o) as [[[o1 req1] ok1]|] eqn:Ho; [|done].
  apply keeps_request_out in Ho as (Hk & Hm1 & Hc1). apply keeps_sent_on in Hk.
  destruct ok1; [|intros [= <- _]; by eapply inv_sent_on].
  set (o2 := if meth_eqb _ _ && _ then _ else _).
  assert (H2 : sent_on o o2).
  { subst o2. repeat case_match; (eapply sent_on_trans; [exact Hk|]); by apply keeps_sent_on. }
  clearbody o2. unfold net_send.
  set (o3 := on_dlg _ o2).
  assert (H3 : sent_on o2 o3) by (split; [cbn; lia|done]).
  assert (Hn : (d_sends (dlg o) < d_sends (dlg o3))%nat) by (cbn; destruct H2; lia).
  destruct (tx_ok E _); intros [= <- _].
  - apply (onRequestTxed_inv req1 o); [rewrite Hm1, Hc1, Hm, Hc; done|done| |done].
    eapply sent_on_trans; [exact H2|]. eapply sent_on_trans; [exact H3|].
    apply keeps_sent_on. by apply keeps_emit.
  - eapply inv_sent_on; [|exact Hi]. by eapply sent_on_trans.
Qed.

Lemma sendRequest_inv meth body o o' ok :
  dlg_inv o -> sendRequest E meth body o = Some (o', ok) -> dlg_inv o'.
Proof. intros Hi. apply transmit_inv; [by right|done]. Qed.

Lemma send_200_ack_inv c body o o' ok :
  dlg_inv o -> send_200_ack E c body o = Some (o', ok) -> dlg_inv o'.
Proof.
  intros Hi. unfold send_200_ack. destruct (tm_find _ _); [|by intros [= <- _]].
  apply transmit_inv; [by left|done].
Qed.

Lemma no_fault_inv o r :
  (forall o' ok, r = Some (o', ok) -> dlg_inv o') -> dlg_inv o -> dlg_inv (no_fault o r).
Proof. intros H Hi. unfold no_fault. destruct r as [[o' ok]|]; cbn; [by eapply H|done]. Qed.

(** ** Bye *)

Lemma cancel_keeps o : keeps o (fst (cancel o)).
Proof.
  unfold cancel. destruct (List.find _ _) as [[c r]|]; [|done]. case_match; [|done].
  cbn [fst]. by apply (keeps_emit (DCancel c) (set_status Cancelling o)).
Qed.

Lemma quit_inv o :
  dlg_inv o ->
  dlg_inv (match tm_invite (uas_trans (dlg o)) with
           | Some r => fst (reply E r 487 mime_empty_body no_hdrs o)
           | None => set_status Disconnected o
           end).
Proof.
  intros Hi. destruct (tm_invite _) as [r|] eqn:Hr; [|by apply (inv_keeps o)].
  apply reply_inv; [|done]. intros r' Hf. left.
  apply tm_invite_found in Hr; [|by apply inv_uas]. congruence.
Qed.

Lemma bye_inv o : dlg_inv o -> dlg_inv (bye E o).
Proof.
  intros Hi. pose proof (quit_inv o Hi) as Hquit.
  assert (Hfold : forall l o, dlg_inv o -> dlg_inv
    (fold_left (fun o c => no_fault o (send_200_ack E c mime_empty_body o)) l o)).
  { induction l as [|c l IH]; cbn; [done|]. intros o1 H1. apply IH, no_fault_inv; [|done].
    intros o' ok. by apply send_200_ack_inv. }
  unfold bye. destruct (d_status (dlg o)); auto.
  1, 2, 3: destruct (tm_has_invite _); [eapply inv_keeps; [apply cancel_keeps|done]|done].
  all: set (o1 := fold_left _ _ _); pose proof (Hfold (tm_invites (uac_trans (dlg o))) o Hi) as H1;
       change (dlg_inv o1) in H1; destruct (negb _); [|done];
       apply no_fault_inv; [|by apply (inv_keeps o1)];
       intros o' ok; apply sendRequest_inv; by apply (inv_keeps o1).
Qed.

(** ** The machine with the dialog *)

Lemma onRequestIn_inv req o :
  (tm_find (rq_cseq req) (uas_trans (dlg o)) = Some req \/
   rq_method req = M_ACK \/ rq_method req = M_CANCEL) ->
  dlg_inv o -> dlg_inv (fst (onRequestIn E (sip_dialog E) req o)).
Proof.
  intros Hreq Hi. unfold onRequestIn. cbn zeta.
  change (if _ && _ then _ else (saveState o, 0)) with (request_rx E req (saveState o)).
  destruct (request_rx E req (saveState o)) as [o1 err] eqn:Hrx.
  assert (H1 : keeps o o1).
  { destruct (request_rx_spec _ _ _ _ _ Hrx) as [[_ H]|H];
      [apply (keeps_steps _ _ _ _ H)|apply (keeps_same _ _ H)]. }
  pose proof (keeps_check o1) as H2. destruct (checkStateChange E o1) as [o2 chg]. cbn in H2.
  assert (H3 : keeps o o2) by (by eapply keeps_trans).
  assert (Hi2 : dlg_inv o2) by (by eapply inv_keeps).
  assert (Hend : forall o3, dlg_inv o3 -> dlg_inv
    (if meth_eqb (rq_method req) M_ACK && (rq_cseq req =? cseq o3) then clearTransitionalState E o3 else o3)).
  { intros o3 H. case_match; [|done]. eapply inv_keeps; [apply keeps_clearTransitional|done]. }
  cbn [fst]. set (err' := if chg =? 0 then err else 500). apply Hend.
  destruct (err' =? 0); [done|].
  destruct (meth_eqb (rq_method req) M_ACK) eqn:Hack; cbn [negb sip_dialog dlg_replied dlg_byed].
  - apply bye_inv. eapply inv_keeps; [|exact Hi2]. by apply keeps_emit.
  - apply bool_decide_eq_false in Hack. apply reply_inv.
    + intros r Hf. cbn in Hf. rewrite (sent_on_uas _ _ (keeps_sent_on _ _ H3)) in Hf.
      destruct Hreq as [Hreq|[|]]; [left; congruence|done|by right].
    + eapply inv_keeps; [|exact Hi2]. by apply keeps_emit.
Qed.

Lemma onReplyIn_inv rpl o : dlg_inv o -> dlg_inv (fst (onReplyIn E (sip_dialog E) rpl o)).
Proof.
  intros Hi. unfold onReplyIn. cbn zeta. destruct (_ && (rp_cseq rpl =? cseq o)).
  { eapply inv_keeps; [apply keeps_clearTransitional|done]. }
  destruct (_ && (has SIP_APPLICATION_SDP _ || _)); [|done].
  destruct (_ && (rp_cseq rpl =? cseq o)).
  { cbn. case_match; [eapply inv_keeps; [apply keeps_completed|done]|done]. }
  destruct (onRxSdp _ _ _ _) as [o1 err] eqn:Hrx. cbn [fst].
  assert (H1 : keeps o o1).
  { destruct (onRxSdp_spec _ _ _ _ _ _ Hrx) as [[_ H]|[_ H]];
      [apply (keeps_steps _ _ _ _ H)|apply (keeps_same _ _ H)]. }
  pose proof (inv_keeps _ _ (keeps_trans _ _ _ H1 (keeps_check o1)) Hi) as H2.
  destruct (err =? 0); [done|]. cbn [sip_dialog dlg_byed]. apply bye_inv.
  eapply inv_keeps; [|exact H2]. by apply keeps_emit.
Qed.

(** ** Requests received *)

Context (Hnotify : ignore_notify_cseq E = false).

Lemma reply_error_on req code o :
  code <> 420 -> code <> 421 -> sent_on o (reply_error req code o).
Proof.
  intros H1 H2. unfold reply_error.
  eapply (sent_on_trans _ (on_dlg (set_sends (S (d_sends (dlg o)))) o)); [split; [cbn; lia|done]|].
  apply keeps_sent_on, keeps_emit. unfold harmless, rel_refused. cbn [List.filter].
  by rewrite (proj2 (Z.eqb_neq code 420)), (proj2 (Z.eqb_neq code 421)) by done.
Qed.

Lemma pass_request_inv req o :
  (tm_find (rq_cseq req) (uas_trans (dlg o)) = Some req \/
   rq_method req = M_ACK \/ rq_method req = M_CANCEL) ->
  dlg_inv o -> dlg_inv (pass_request E req o).
Proof.
  intros Hreq Hi. unfold pass_request, onRxReqStatus.
  set (o1 := match d_status (dlg o) with Disconnected => _ | _ => _ end).
  assert (H1 : (keeps o o1 \/ rq_method req = M_CANCEL) /\ dlg_inv o1).
  { subst o1. destruct (d_status (dlg o)); try (by split; [left|]);
      try (case_match; [by split; [left|apply (inv_keeps o)]|by split; [left|]]);
      (case_match; [by split; [left|apply (inv_keeps o)]|]);
      (case_match; [|by split; [left|]]);
      (match goal with H : meth_eqb _ M_CANCEL = true |- _ => apply bool_decide_eq_true in H end);
      (split; [by right|]; apply reply_inv; [by right|by apply (inv_keeps o)]). }
  destruct H1 as [Hk H1]. clearbody o1.
  pose proof (onRequestIn_inv req o1) as H2.
  destruct (onRequestIn E (sip_dialog E) req o1) as [o2 cont]. cbn [fst] in H2.
  assert (H3 : dlg_inv o2).
  { apply H2; [|done]. destruct Hreq as [Hreq|Hreq]; [|by right].
    destruct Hk as [Hk|Hc]; [|by right; right]. left.
    by rewrite (sent_on_uas _ _ (keeps_sent_on _ _ Hk)). }
  destruct cont; [|done]. apply (inv_keeps o2); [by apply keeps_tell|done].
Qed.

Lemma sanity_basic_spec req o o' ok :
  onRxReqSanity_basic E req o = (o', ok) -> dlg_inv o ->
  dlg_inv o' /\
  (ok = true ->
     o' = on_dlg (set_r_cseq (rq_cseq req)) o /\
     forall kv, In kv (uas_trans (dlg o')) -> fst kv < rq_cseq req).
Proof.
  unfold onRxReqSanity_basic. rewrite Hnotify, andb_false_r. cbn [negb]. rewrite andb_true_r.
  intros H Hi. destruct (match remote_tag (dlg o) with [] => false | _ => _ end).
  { injection H as <- <-. split; [|done]. eapply inv_sent_on; [by apply reply_error_on|done]. }
  destruct (r_cseq_i (dlg o) && (rq_cseq req <=? r_cseq (dlg o))) eqn:Hlate; injection H as <- <-.
  { split; [|done]. eapply inv_sent_on; [by apply reply_error_on|done]. }
  destruct Hi as [H1 H2 H3 H4 H5 H6].
  assert (Hkeys : forall kv, In kv (uas_trans (dlg o)) -> fst kv < rq_cseq req).
  { intros kv Hin. destruct (H4 _ Hin) as [Hr Hle]. rewrite Hr in Hlate. cbn in Hlate.
    apply Z.leb_gt in Hlate. lia. }
  split; [|done]. split; cbn; try done. intros kv Hin. split; [done|]. specialize (Hkeys _ Hin). lia.
Qed.

(** Putting an accepted request into the map. *)
Lemma insert_inv req o1 o2 p :
  dlg_inv o1 -> r_cseq_i (dlg o1) = true -> r_cseq (dlg o1) = rq_cseq req ->
  (forall kv, In kv (uas_trans (dlg o1)) -> fst kv < rq_cseq req) ->
  p = pending_invites (dlg o1) + (if meth_eqb (rq_method req) M_INVITE then 1 else 0) -> p <= 1 ->
  keeps (on_dlg (fun d => set_pending p (set_uas (tm_set (rq_cseq req) req (uas_trans d)) d)) o1) o2 ->
  dlg_inv o2.
Proof.
  intros [H1 H2 H3 H4 H5 H6] Hri Hr Hkeys Hp Hle Hk.
  eapply inv_keeps; [exact Hk|]. split; cbn; try done.
  - by apply tm_set_ok.
  - intros kv Hin. split; [done|]. apply tm_set_in in Hin as [-> | Hin]; cbn; [lia|].
    specialize (Hkeys _ Hin). lia.
  - rewrite count_set_new by done. lia.
Qed.

Lemma rel_refuses req r r' code :
  rel_onRequestIn req r = (r', Some code) ->
  rq_method req = M_INVITE /\ (code = 420 \/ code = 421).
Proof.
  unfold rel_onRequestIn. intros H. destruct (reliable_1xx r); [..|done].
  1, 2, 3: destruct (meth_eqb (rq_method req) M_INVITE) eqn:Hm;
    [|destruct (meth_eqb (rq_method req) M_PRACK); [|done]; by repeat case_match].
  all: (split; [by apply bool_decide_eq_true in Hm|]); case_match; simplify_eq; auto.
Qed.

(** Counting an INVITE that 100rel refuses. *)
Lemma refuse_inv req code r p o1 :
  dlg_inv o1 -> code = 420 \/ code = 421 -> p = pending_invites (dlg o1) + 1 -> p <= 1 ->
  dlg_inv (reply_error req code (on_dlg (set_rel100 r) (on_dlg (set_pending p) o1))).
Proof.
  intros [H1 H2 H3 H4 H5 H6] Hcode Hp Hle.
  split; cbn [reply_error oa_emit on_dlg set_dlg dlg oa_events set_rel100 set_pending set_sends
    uas_trans uac_trans d_sends d_cseq r_cseq r_cseq_i pending_invites]; try done.
  - intros Hs. destruct H3 as [H3 H3']; [lia|]. split; [lia|done].
  - rewrite refused_cons. replace (rel_refused [_]) with 1; [lia|]. by destruct Hcode as [-> | ->].
Qed.

Lemma onRxRequest_inv req o : dlg_inv o -> dlg_inv (onRxRequest E req o).
Proof.
  intros Hi. unfold onRxRequest, onRxReqSanity.
  destruct (meth_eqb (rq_method req) M_ACK) eqn:Hack.
  { apply bool_decide_eq_true in Hack. cbn [negb]. apply pass_request_inv; auto. }
  destruct (meth_eqb (rq_method req) M_CANCEL) eqn:Hcan.
  { apply bool_decide_eq_true in Hcan. cbn [negb]. destruct (tm_find _ _).
    - apply pass_request_inv; auto.
    - eapply inv_sent_on; [by apply reply_error_on|done]. }
  destruct (onRxReqSanity_basic E req o) as [o1 ok] eqn:Hb.
  destruct (sanity_basic_spec _ _ _ _ Hb Hi) as [Hi1 Hok].
  destruct ok; [|done]. cbn [negb]. destruct (Hok eq_refl) as [Ho1 Hkeys]. clear Hok Hb.
  assert (Hri : r_cseq_i (dlg o1) = true /\ r_cseq (dlg o1) = rq_cseq req) by (by subst o1).
  clear Ho1. set (pend := negb (pending_invites (dlg o1) =? 0) || _ || _).
  destruct (meth_eqb (rq_method req) M_INVITE && pend) eqn:Hpend; cbn [negb].
  { eapply inv_sent_on; [by apply reply_error_on|done]. }
  set (o2 := if meth_eqb (rq_method req) M_INVITE then _ else _).
  set (p := pending_invites (dlg o1) + (if meth_eqb (rq_method req) M_INVITE then 1 else 0)).
  assert (Hp : p <= 1 /\ o2 = on_dlg (set_pending p) o1).
  { pose proof (inv_one _ Hi1) as Hone. subst o2 p.
    destruct (meth_eqb (rq_method req) M_INVITE); cbn [andb] in Hpend.
    - apply orb_false_iff in Hpend as [Hpend _]. apply orb_false_iff in Hpend as [Hpend _].
      apply negb_false_iff, Z.eqb_eq in Hpend. split; [lia|].
      unfold on_dlg. rewrite Hpend. done.
    - rewrite Z.add_0_r. split; [done|]. by destruct o1 as [? ? ? ? ? [] ?]. }
  destruct Hp as [Hp ->].
  destruct (rel_onRequestIn req _) as [r refused] eqn:Hrel. destruct refused as [code|]; cbn [negb].
  - apply rel_refuses in Hrel as [Hm Hcode]. eapply inv_keeps; [by apply keeps_tell|].
    apply (refuse_inv req code r p o1); [done|done| |done]. subst p. by rewrite Hm.
  - set (o3 := on_dlg (set_rel100 r) _).
    set (o4 := on_dlg (fun d => set_uas (tm_set (rq_cseq req) req (uas_trans d)) d) o3).
    set (o5 := if d_callid (dlg o4) then o4 else _).
    assert (Hk : keeps (on_dlg (fun d => set_pending p (set_uas (tm_set (rq_cseq req) req (uas_trans d)) d)) o1) o5).
    { subst o5. by case_match. }
    assert (Hi5 : dlg_inv o5).
    { destruct Hri. by eapply (insert_inv req o1 o5 p). }
    apply pass_request_inv; [|done]. left. apply tm_find_some; [by apply inv_uas|].
    rewrite (sent_on_uas _ _ (keeps_sent_on _ _ Hk)). apply tm_set_has.
Qed.

(** ** Replies received *)

Lemma no_fault_bye_inv o : dlg_inv o -> dlg_inv (no_fault o (sendRequest E M_BYE mime_empty_body o)).
Proof. intros Hi. apply no_fault_inv; [|done]. intros o' ok. by apply sendRequest_inv. Qed.

Lemma no_fault_ack_inv c o : dlg_inv o -> dlg_inv (no_fault o (send_200_ack E c mime_empty_body o)).
Proof. intros Hi. apply no_fault_inv; [|done]. intros o' ok. by apply send_200_ack_inv. Qed.

Lemma status_inv st o : dlg_inv o -> dlg_inv (set_status st o).
Proof. by apply inv_keeps. Qed.

Lemma tag_inv t o : dlg_inv o -> dlg_inv (setRemoteTag t o).
Proof. by apply inv_keeps. Qed.

Lemma tell_inv e o : harmless e -> dlg_inv o -> dlg_inv (tell e o).
Proof. intros He. by apply inv_keeps, keeps_tell. Qed.

Lemma invite_reply_inv rpl o : dlg_inv o -> dlg_inv (invite_reply_status E rpl o).
Proof.
  intros Hi.
  assert (Hcon : forall ack : bool, dlg_inv
    (let o := set_status Connected o in
     if is_nil (rp_to_tag rpl) then
       let o := if ack then no_fault o (send_200_ack E (rp_cseq rpl) mime_empty_body o) else o in
       no_fault o (sendRequest E M_BYE mime_empty_body o)
     else setRemoteTag (rp_to_tag rpl) o)).
  { intros ack. cbn zeta. case_match; [|by apply tag_inv, status_inv].
    apply no_fault_bye_inv. destruct ack; auto using no_fault_ack_inv, status_inv. }
  unfold invite_reply_status. destruct (d_status (dlg o)); auto.
  1, 2: (destruct (_ <? 200); [destruct (_ || _); auto using status_inv, tag_inv|];
         destruct (_ <? 300); [apply (Hcon true)|auto using status_inv, tag_inv]).
  - destruct (_ <? 200); [destruct (is_nil _); auto using tag_inv|].
    destruct (300 <=? _); auto using status_inv, tag_inv, bye_inv.
  - destruct (_ <? 200); [destruct (_ && _); auto using tag_inv|].
    destruct (_ <? 300); [apply (Hcon false)|auto using status_inv, tag_inv].
Qed.

Lemma rel_acts_inv acts o : dlg_inv o -> dlg_inv (fold_left (rel_act E) acts o).
Proof.
  revert o. induction acts as [|a acts IH]; intros o Hi; cbn; [done|]. apply IH.
  destruct a; cbn; auto using bye_inv; by apply tell_inv.
Qed.

Lemma onRxReply_inv rpl o : dlg_inv o -> dlg_inv (onRxReply E rpl o).
Proof.
  intros Hi. unfold onRxReply. destruct (negb _); [done|]. destruct (tm_find _ _); [|done].
  assert (H1 : dlg_inv (fst (onRxReplyStatus E rpl o))).
  { unfold onRxReplyStatus.
    set (o1 := if meth_eqb _ M_INVITE then _ else _).
    assert (H1 : dlg_inv o1) by (subst o1; case_match; auto using invite_reply_inv). clearbody o1.
    set (o2 := if _ && _ && _ then set_status Disconnected o1 else o1).
    assert (H2 : dlg_inv o2) by (subst o2; case_match; auto using status_inv). clearbody o2.
    set (o3 := if _ && _ && _ then set_status Disconnected o2 else o2).
    assert (H3 : dlg_inv o3) by (subst o3; case_match; auto using status_inv). clearbody o3.
    pose proof (onReplyIn_inv rpl o3 H3) as H4.
    set (o5 := if _ && _ && _ then tell _ _ else _).
    assert (H5 : dlg_inv o5) by (subst o5; repeat case_match; by try apply tell_inv). clearbody o5.
    destruct (rel_onReplyIn _ _ _) as [[r acts] cont]. cbn [fst].
    apply rel_acts_inv. by apply (inv_keeps o5). }
  destruct (onRxReplyStatus E rpl o) as [o1 cont]. cbn [fst] in H1.
  set (o2 := if cont then _ else o1).
  assert (H2 : dlg_inv o2) by (subst o2; case_match; by try apply tell_inv). clearbody o2.
  destruct (_ && _); [|done]. destruct H2 as [I1 I2 I3 I4 I5 I6].
  split; cbn; try done; [by apply tm_erase_ok|].
  intros Hs. destruct (I3 Hs) as [I3a I3b]. split; [done|].
  intros kv Hin. apply tm_erase_in in Hin as [Hin _]. by apply I3b.
Qed.

(** ** Everything the peer and the session can do *)

Inductive dlg_call :=
| RxRequest (req : AmSipRequest)
| RxReply (rpl : AmSipReply)
| TxReply (req : AmSipRequest) (code : Z) (body : mime) (h : bool * bool * option Z)
| TxAck (c : Z) (body : mime)
| CallInvite (body : mime)
| CallReinvite (body : mime)
| CallUpdate (body : mime)
| CallRefer
| CallInfo (body : mime)
| CallPrack (body : mime)
| CallBye
| CallCancel
| CallDrop
| AckTimeout (c : Z)
| PrackTimeout (rpl : AmSipReply).

(** [None] is the fault of [request_out_null]. *)
Definition dlg_run (call : dlg_call) o : option oa :=
  match call with
  | RxRequest req => Some (onRxRequest E req o)
  | RxReply rpl => Some (onRxReply E rpl o)
  | TxReply req code body h => Some (fst (reply E req code body h o))
  | TxAck c body => fst <$> send_200_ack E c body o
  | CallInvite body => fst <$> invite E body o
  | CallReinvite body => fst <$> reinvite E body o
  | CallUpdate body => fst <$> update E body o
  | CallRefer => fst <$> refer E o
  | CallInfo body => fst <$> info E body o
  | CallPrack body => fst <$> prack E body o
  | CallBye => Some (bye E o)
  | CallCancel => Some (fst (cancel o))
  | CallDrop => Some (drop o)
  | AckTimeout c => Some (noAckTimeout E c o)
  | PrackTimeout rpl => Some (noPrackTimeout E rpl o)
  end.

(** The session answers requests it was given. *)
Definition call_ok (call : dlg_call) o : Prop :=
  match call with TxReply req _ _ _ => reply_ok req o | _ => True end.

Inductive dlg_reachable (hdl : bool) : oa -> Prop :=
| dlg_reach_init : dlg_reachable hdl (oa_init E hdl)
| dlg_reach_run call o o' :
    dlg_reachable hdl o -> call_ok call o -> dlg_run call o = Some o' -> dlg_reachable hdl o'.

Lemma init_inv hdl : dlg_inv (oa_init E hdl).
Proof. split; cbn; try done; try (by split; constructor). Qed.

Lemma option_inv (m : option (oa * bool)) o' :
  (forall o1 ok, m = Some (o1, ok) -> dlg_inv o1) -> fst <$> m = Some o' -> dlg_inv o'.
Proof. intros H. destruct m as [[o1 ok]|]; [|done]. intros [= <-]. by eapply H. Qed.

Lemma dlg_run_inv call o o' : dlg_inv o -> call_ok call o -> dlg_run call o = Some o' -> dlg_inv o'.
Proof.
  intros Hi Hok Hrun. destruct call; cbn in Hrun;
    try (injection Hrun as <-); auto using onRxRequest_inv, onRxReply_inv, bye_inv, status_inv;
    try (eapply option_inv; [|exact Hrun]; intros o1 ok;
         unfold invite, reinvite, update, refer, info, prack;
         repeat case_match; try (by intros [= <- _]); by apply sendRequest_inv).
  - by apply reply_inv.
  - eapply option_inv; [|exact Hrun]. intros o1 ok. by apply send_200_ack_inv.
  - eapply inv_keeps; [apply cancel_keeps|done].
  - by apply status_inv.
  - apply tell_inv; [done|]. unfold onNoAck.
    case_match; [eapply inv_keeps; [apply keeps_clearTransitional|done]|done].
  - by apply rel_acts_inv.
Qed.

Lemma reachable_inv hdl o : dlg_reachable hdl o -> dlg_inv o.
Proof. induction 1; [apply init_inv|by eapply dlg_run_inv]. Qed.

(** A request in order: with a CSeq above the last and the tag of the dialog. *)
Definition in_order (req : AmSipRequest) o : Prop :=
  (r_cseq_i (dlg o) = true -> r_cseq (dlg o) < rq_cseq req) /\
  (remote_tag (dlg o) = [] \/ rq_from_tag req = [] \/ rq_from_tag req = remote_tag (dlg o)).

Lemma sanity_in_order req o :
  in_order req o -> onRxReqSanity_basic E req o = (on_dlg (set_r_cseq (rq_cseq req)) o, true).
Proof.
  intros [Hc Ht]. unfold onRxReqSanity_basic.
  replace (match remote_tag (dlg o) with [] => false | _ => _ end) with false.
  - replace (r_cseq_i (dlg o) && (rq_cseq req <=? r_cseq (dlg o))) with false; [done|].
    destruct (r_cseq_i (dlg o)); [|done]. specialize (Hc eq_refl). symmetry. apply Z.leb_gt. lia.
  - destruct (remote_tag (dlg o)) as [|a t] eqn:Hrt; [done|].
    destruct (rq_from_tag req) as [|a' t'] eqn:Hft; [done|].
    destruct Ht as [|[|Ht]]; [done|done|]. rewrite Ht.
    symmetry. apply negb_false_iff. by apply bool_decide_eq_true.
Qed.

(** The INVITE is answered 491 and has no other effect. *)
Lemma invite_pending req o :
  rq_method req = M_INVITE -> in_order req o ->
  pending_invites (dlg o) <> 0 \/ tm_has_invite (uac_trans (dlg o)) = true \/
  (state o <> OA_None /\ state o <> OA_Completed) ->
  onRxRequest E req o = reply_error req 491 (on_dlg (set_r_cseq (rq_cseq req)) o).
Proof.
  intros Hm Ho Hp. unfold onRxRequest, onRxReqSanity. rewrite sanity_in_order by done. rewrite Hm.
  change (meth_eqb M_INVITE M_ACK) with false. change (meth_eqb M_INVITE M_CANCEL) with false.
  change (meth_eqb M_INVITE M_INVITE) with true. cbn [negb andb on_dlg set_dlg dlg set_r_cseq
    pending_invites uac_trans state].
  replace (negb (pending_invites (dlg o) =? 0) || _ || _) with true; [done|].
  symmetry. destruct Hp as [Hp|[Hp|[Hp1 Hp2]]].
  - rewrite (proj2 (Z.eqb_neq _ 0)) by done. done.
  - rewrite Hp. by rewrite orb_true_r.
  - rewrite !bool_decide_eq_false_2 by done. by rewrite orb_true_r.
Qed.

(** An INVITE that arrives in order while an INVITE of ours is pending, an INVITE of the
    peer is not finally answered, or an offer is not answered, is refused with 491 and does
    nothing else to the dialog: no transaction, no change of the status, nothing for the
    session. *)
Theorem invite_glare hdl req o :
  dlg_reachable hdl o -> rq_method req = M_INVITE -> in_order req o ->
  tm_has_invite (uac_trans (dlg o)) = true \/ tm_has_invite (uas_trans (dlg o)) = true \/
  state o = OA_OfferSent \/ state o = OA_OfferRecved ->
  onRxRequest E req o = reply_error req 491 (on_dlg (set_r_cseq (rq_cseq req)) o).
Proof.
  intros Hr Hm Ho Hp. apply invite_pending; [done|done|].
  destruct Hp as [Hp|[Hp|[Hp|Hp]]]; [by auto| |right; right; by rewrite Hp..].
  left. rewrite tm_has_invite_count in Hp. apply negb_true_iff, Z.eqb_neq in Hp.
  rewrite (inv_pending _ (reachable_inv _ _ Hr)).
  unfold count_invites, rel_refused in *. lia.
Qed.

(** An INVITE that the 100rel extension refused is counted as pending for good: from then
    on every INVITE of the peer that arrives in order is refused with 491, although none is
    pending. *)
Theorem refused_invite_blocks hdl req o c code :
  dlg_reachable hdl o -> In (DError c code) (oa_events o) -> code = 420 \/ code = 421 ->
  rq_method req = M_INVITE -> in_order req o ->
  uas_trans (dlg (onRxRequest E req o)) = uas_trans (dlg o) /\
  In (DError (rq_cseq req) 491) (oa_events (onRxRequest E req o)).
Proof.
  intros Hr Hin Hcode Hm Ho.
  assert (Hpos : 0 < rel_refused (oa_events o)).
  { unfold rel_refused. apply List.in_split in Hin as (l1 & l2 & ->).
    rewrite List.filter_app, length_app. cbn [List.filter].
    replace ((code =? 420) || (code =? 421)) with true by (by destruct Hcode as [-> | ->]).
    cbn [length]. lia. }
  rewrite invite_pending; [by split; [|left]|done|done|]. left.
  rewrite (inv_pending _ (reachable_inv _ _ Hr)). unfold count_invites. lia.
Qed.

(** ** Ending the server transactions *)

Lemma onReplyTxed_uas rpl o :
  uas_trans (dlg (onReplyTxed E rpl o)) = uas_trans (dlg o) \/
  uas_trans (dlg (onReplyTxed E rpl o)) = tm_erase (rp_cseq rpl) (uas_trans (dlg o)).
Proof.
  unfold onReplyTxed. set (o0 := if ends_usage _ then _ else _).
  assert (H0 : keeps o o0) by (subst o0; case_match; [by apply keeps_tell|done]).
  apply keeps_sent_on, sent_on_uas in H0. clearbody o0. rewrite <-H0.
  set (o1 := if (200 <=? _) && negb _ then _ else _).
  pose proof (sent_on_uas _ _ (keeps_sent_on _ _ (keeps_reply_sent rpl o1))) as Hs.
  assert (H1 : uas_trans (dlg o1) = uas_trans (dlg o0) \/
               uas_trans (dlg o1) = tm_erase (rp_cseq rpl) (uas_trans (dlg o0))).
  { subst o1. case_match; [by right|by left]. }
  rewrite <-Hs in H1. case_match; done.
Qed.

Lemma reply_uas req code body h o :
  uas_trans (dlg (fst (reply E req code body h o))) = uas_trans (dlg o) \/
  uas_trans (dlg (fst (reply E req code body h o))) = tm_erase (rq_cseq req) (uas_trans (dlg o)).
Proof.
  unfold reply. destruct h as [[sup requ] rs]. destruct (tm_find _ _) as [r|]; [|by left].
  set (rpl := build_rpl _ _ _ _ _ _ _ _).
  pose proof (onTxReply_keeps rpl o) as (H1 & Hq & _).
  destruct (onTxReply E rpl o) as [[o1 rpl1] res]. cbn in H1, Hq. apply keeps_sent_on in H1.
  destruct res; [|left; by apply sent_on_uas|left; by apply sent_on_uas].
  pose proof (net_send_on (DTxReply rpl1) o1 eq_refl) as H2.
  destruct (net_send E _ o1) as [o2 sent]. cbn in H2.
  pose proof (sent_on_uas _ _ (sent_on_trans _ _ _ H1 H2)) as H3.
  destruct sent; cbn [fst]; [|by left].
  destruct (onReplyTxed_uas rpl1 o2) as [H|H]; rewrite H, ?Hq, H3; auto.
Qed.

Lemma erase_comm a b m : tm_erase a (tm_erase b m) = tm_erase b (tm_erase a m).
Proof.
  unfold tm_erase. induction m as [|kv m IH]; [done|]. cbn.
  destruct (negb (fst kv =? b)) eqn:Hb, (negb (fst kv =? a)) eqn:Ha; cbn; rewrite ?Ha, ?Hb, IH; done.
Qed.

Lemma erase_length a m : (length (tm_erase a m) <= length m)%nat.
Proof. apply List.filter_length_le. Qed.

Lemma term_loop_empty fuel : forall o,
  (length (uas_trans (dlg o)) <= fuel)%nat ->
  uas_trans (dlg (termUasTrans_loop E fuel o)) = [].
Proof.
  induction fuel as [|fuel IH]; intros o Hlen; cbn [termUasTrans_loop].
  - destruct (uas_trans (dlg o)) as [|kv m] eqn:Hm; [done|cbn in Hlen; lia].
  - destruct (uas_trans (dlg o)) as [|[c req] m] eqn:Hm; [done|]. apply IH.
    cbn [on_dlg set_dlg dlg uas_trans set_uas].
    assert (Hc : (length (tm_erase c ((c, req) :: m)) <= length m)%nat).
    { unfold tm_erase. cbn. rewrite Z.eqb_refl. cbn. apply List.filter_length_le. }
    cbn in Hlen. destruct (reply_uas req 481 mime_empty_body no_hdrs o) as [H|H]; rewrite H, Hm.
    + lia.
    + rewrite erase_comm. pose proof (erase_length (rq_cseq req) (tm_erase c ((c, req) :: m))). lia.
Qed.

(** Ending a dialog leaves no transaction of the peer behind: the loop of [termUasTrans]
    ends after one round per transaction, with all of them gone, also when the replies
    cannot be sent. *)
Theorem term_uas_empties o : uas_trans (dlg (termUasTrans E o)) = [].
Proof. by apply term_loop_empty. Qed.

End Inv.

(** C13: with NOTIFY requests checked like all others ([ignore_notify_cseq] off, the default),
    in every state that messages of the peer, calls of the session and time-outs can bring
    a dialog into until it is finalized, its pending transactions are kept under their own
    CSeqs, in the order of these as [int]s; a request that is still pending was sent with a
    CSeq below the next one (for less than [2^32 - 10] messages sent) or received with one
    not above the last; the count of pending INVITEs of the peer is the number of INVITEs
    not finally answered plus the number of those that the 100rel extension refused, and is
    at most one.  Finalizing it there leaves no transaction. *)
Theorem dialog_transactions {sdp} (E : @oa_env sdp) hdl o :
  ignore_notify_cseq E = false -> dlg_reachable E hdl o ->
  tm_ok (uas_trans (dlg o)) /\ tm_ok (uac_trans (dlg o)) /\
  (Z.of_nat (d_sends (dlg o)) < u32_mod - 10 ->
     forall kv, In kv (uac_trans (dlg o)) -> fst kv < d_cseq (dlg o)) /\
  (forall kv, In kv (uas_trans (dlg o)) -> fst kv <= r_cseq (dlg o)) /\
  pending_invites (dlg o) = count_invites (uas_trans (dlg o)) + rel_refused (oa_events o) /\
  pending_invites (dlg o) <= 1 /\
  uas_trans (dlg (finalize E o)) = [] /\ uac_trans (dlg (finalize E o)) = [].
Proof.
  intros Hn Hr. destruct (reachable_inv E Hn _ _ Hr) as [H1 H2 H3 H4 H5 H6].
  split; [done|]. split; [done|]. split; [intros Hs; by apply H3|].
  split; [intros kv Hin; by apply H4|]. split; [done|]. split; [done|]. split; [|done].
  apply (term_uas_empties E o).
Qed.

(** ** A 2xx that 100rel does not allow yet *)

Section Thrown.
Context {sdp : Type}.
Context (E : @oa_env sdp).

Implicit Types o : @oa sdp.

Definition settled_completed o : Prop := state o = OA_Completed /\ saved_state o = OA_Completed.

Lemma apart_completed o o' : apart o o' -> settled_completed o -> settled_completed o'.
Proof. intros [Hs Hv _ _ _ _] [H1 H2]. split; congruence. Qed.

(** An error reply keeps a completed exchange. *)
Lemma error_reply_completed req code o :
  300 <= code -> state o = OA_Completed ->
  state (fst (reply E req code mime_empty_body no_hdrs o)) = OA_Completed.
Proof.
  intros Hc Hs. unfold reply, no_hdrs. destruct (tm_find _ _); [|done].
  set (rpl := build_rpl _ _ _ _ _ _ _ _). unfold onTxReply.
  rewrite error_reply_out by done. cbn [negb].
  set (o1 := if _ : bool then _ else _).
  assert (H1 : settled_completed o1).
  { subst o1. unfold clearTransitionalState. cbn [saveState state]. rewrite Hs.
    case_match; by split. }
  clearbody o1. destruct (rel_onReplyOut _ _ _) as [[r rpl']|]; [|by destruct H1].
  assert (H2 : settled_completed (on_dlg (set_rel100 r) o1)) by done.
  destruct (onTxReply_status _ _ _) as [st|]; [|by destruct H2].
  set (o3 := set_status st _). assert (H3 : settled_completed o3) by done. clearbody o3.
  pose proof (apart_completed _ _ (apart_net_send E (DTxReply rpl') o3 I) H3) as H4.
  destruct (net_send E _ o3) as [o4 sent]. cbn [fst] in H4. destruct sent; [|by destruct H4].
  cbn [fst]. destruct (onReplyTxed_parts E rpl' o4) as (o5 & Ha & Hb).
  pose proof (apart_completed _ _ Ha H4) as [H5 H5']. destruct Hb as [Hb _ _ _ _ _]. rewrite Hb.
  unfold onReplySent. rewrite check_quiet by congruence. cbn [fst].
  case_match; [|done]. unfold clearTransitionalState. by rewrite H5.
Qed.

(** A 2xx that the 100rel extension refuses (the reliable provisional reply is not
    acknowledged) is not sent, but the offer/answer machine has already taken it for the
    answer: the exchange counts as completed although the session was never told, and
    stays so when the INVITE is then rejected with an error. *)
Theorem refused_2xx_counts_as_answer req q o l :
  tm_find (rq_cseq req) (uas_trans (dlg o)) = Some q -> rq_method req = M_INVITE ->
  state o = OA_OfferRecved -> d_hdl (dlg o) = true ->
  get_answer E (sdp_remote o) (sdp_local o) = (l, true) -> sdp_print E l <> [] ->
  reliable_1xx (rel100 (dlg o)) = REL100_REQUIRE -> rseq (rel100 (dlg o)) <> 0 ->
  rseq_confirmed (rel100 (dlg o)) = false ->
  exists o', reply E req 200 mime_empty_body no_hdrs o = (o', TxThrown) /\
    oa_events o' = oa_events o /\ state o' = OA_Completed /\
    forall code, 300 <= code ->
      state (fst (reply E req code mime_empty_body no_hdrs o')) = OA_Completed.
Proof.
  intros Hf Hm Hs Hh Hans Hpr Hr Hz Hcf.
  exists (mk_oa OA_Completed OA_OfferRecved (cseq o) (sdp_remote o) l (dlg o) (oa_events o)).
  split; [|split; [done|split; [done|]]].
  - unfold reply, no_hdrs. rewrite Hf. unfold onTxReply.
    rewrite (answer_out E o _ l) by (done || cbn; lia). cbn [negb dlg]. rewrite Hm.
    unfold rel_onReplyOut. cbn [set_rp_body rp_code rp_method]. rewrite Hr, Hcf.
    rewrite (proj2 (Z.eqb_neq _ 0)) by done. done.
  - intros code Hc. by apply error_reply_completed.
Qed.

End Thrown.

(** ** Witnesses *)

Definition rel_env : @oa_env cstring :=
  mk_oa_env (sdp_empty text_env) (sdp_parse text_env) (sdp_no_media text_env) (sdp_print text_env)
    (get_offer text_env) (get_answer text_env) (sdp_completed text_env) (tx_ok text_env)
    (random_rseq text_env) REL100_REQUIRE false.

Definition an_invite (c : Z) (supported : bool) : AmSipRequest :=
  build_req M_INVITE c (sdp_text (cs "v=0")) (cs "peer") 0 supported false.

(** A dialog that has received an INVITE. *)
Definition invited (E : @oa_env cstring) (supported : bool) : @oa cstring :=
  onRxRequest E (an_invite 1 supported) (oa_init E true).

Lemma invited_reachable E supported : dlg_reachable E true (invited E supported).
Proof.
  eapply (dlg_reach_run E true (RxRequest (an_invite 1 supported))); [apply dlg_reach_init|done|done].
Qed.

Lemma dialog_transactions_witness :
  pending_invites (dlg (invited text_env false)) = 1 /\
  pending_invites (dlg (invited text_env false)) =
    count_invites (uas_trans (dlg (invited text_env false))) +
    rel_refused (oa_events (invited text_env false)).
Proof.
  split; [reflexivity|].
  refine (proj1 (proj2 (proj2 (proj2 (proj2
    (dialog_transactions text_env true (invited text_env false) _ _)))))).
  - reflexivity.
  - apply invited_reachable.
Defined.

(** With [ignore_notify_cseq] on, a NOTIFY with the CSeq of a pending INVITE takes its place
    in the map: the INVITE still counts as pending, but is not there to be answered. *)
Definition lax_env : @oa_env cstring :=
  mk_oa_env (sdp_empty text_env) (sdp_parse text_env) (sdp_no_media text_env) (sdp_print text_env)
    (get_offer text_env) (get_answer text_env) (sdp_completed text_env) (tx_ok text_env)
    (random_rseq text_env) REL100_DISABLED true.

Theorem notify_replaces_invite :
  let o := onRxRequest lax_env (build_req M_NOTIFY 1 mime_empty_body (cs "peer") 0 false false)
             (invited lax_env false) in
  tm_invite (uas_trans (dlg (invited lax_env false))) <> None /\
  tm_invite (uas_trans (dlg o)) = None /\ pending_invites (dlg o) = 1.
Proof. vm_compute. by split. Qed.

Lemma invite_glare_witness :
  onRxRequest text_env (an_invite 2 false) (invited text_env false) =
  reply_error (an_invite 2 false) 491 (on_dlg (set_r_cseq 2) (invited text_env false)).
Proof.
  refine (invite_glare text_env _ true (an_invite 2 false) (invited text_env false) _ _ _ _).
  - reflexivity.
  - apply invited_reachable.
  - reflexivity.
  - split; [intros _; vm_compute; reflexivity|right; right; vm_compute; reflexivity].
  - right. left. vm_compute. reflexivity.
Defined.

Lemma refused_invite_blocks_witness :
  uas_trans (dlg (onRxRequest rel_env (an_invite 2 true) (invited rel_env false))) = [] /\
  In (DError 2 491) (oa_events (onRxRequest rel_env (an_invite 2 true) (invited rel_env false))).
Proof.
  refine (refused_invite_blocks rel_env _ true (an_invite 2 true) (invited rel_env false) 1 421
            _ _ _ _ _).
  - reflexivity.
  - apply invited_reachable.
  - vm_compute. right. left. reflexivity.
  - by right.
  - reflexivity.
  - split; [intros _; vm_compute; reflexivity|left; vm_compute; reflexivity].
Defined.

(** Then ringing has been sent reliably. *)
Definition ringing : @oa cstring :=
  fst (reply rel_env (an_invite 1 true) 180 mime_empty_body no_hdrs (invited rel_env true)).

Lemma refused_2xx_counts_as_answer_witness :
  exists o', reply rel_env (an_invite 1 true) 200 mime_empty_body no_hdrs ringing = (o', TxThrown) /\
    oa_events o' = oa_events ringing /\ state o' = OA_Completed /\
    forall code, 300 <= code ->
      state (fst (reply rel_env (an_invite 1 true) code mime_empty_body no_hdrs o')) = OA_Completed.
Proof.
  refine (refused_2xx_counts_as_answer rel_env (an_invite 1 true) (an_invite 1 true) ringing
            (cs "answer") _ _ _ _ _ _ _ _ _);
    (vm_compute; (reflexivity || discriminate)).
Defined.
