(* ===== verification/ParseCommon.v ===== *)
(** * Characters, buffers and the helpers all SIP parsers share

    Model of core/sip/parse_common.h and of [parse_sip_version] (parse_common.cpp), of
    [cstring] (cstring.h), and of [str2int] (core/AmUtils.cpp).

    Every parser of core/sip works on one buffer with [char*] pointers.  Here a buffer is
    a memory [m : mem], the characters by position, and a pointer into it is a position;
    a [cstring] is a position and a length, so that what it designates follows the
    memory, as in the code.  A character is the [int] the code promotes it to.  A string
    literal is the list of its characters.  Each [for]-loop over the buffer is written as
    its body on one character, which either goes on or returns, and a loop that runs the
    body. *)

From Stdlib Require Import ZArith Lia Ascii String.
From stdpp Require Import base list.
From S2P Require Import Prelude.

Local Open Scope Z_scope.
Local Open Scope bool_scope.

(** ** Return codes and characters *)

Definition UNDEFINED_ERR : Z := -1.
Definition UNEXPECTED_EOT : Z := -2.
Definition UNEXPECTED_EOL : Z := -3.
Definition MALFORMED_SIP_MSG : Z := -4.
Definition INCOMPLETE_SIP_MSG : Z := -5.
Definition MALFORMED_URI : Z := -6.
Definition MALFORMED_FLINE : Z := -7.

Definition CR : Z := 13.
Definition LF : Z := 10.
Definition SP : Z := 32.
Definition HTAB : Z := 9.
Definition HCOLON : Z := 58.
Definition SEMICOLON : Z := 59.
Definition COMMA : Z := 44.
Definition DQUOTE : Z := 34.
Definition SLASH : Z := 47.
Definition BACKSLASH : Z := 92.
Definition HYPHEN : Z := 45.
Definition EQU : Z := 61.

Definition IS_IN (c l r : Z) : bool := (l <=? c) && (c <=? r).
Definition IS_WSP (c : Z) : bool := (SP =? c) || (HTAB =? c).
Definition IS_ALPHA (c : Z) : bool := IS_IN c 65 90 || IS_IN c 97 122.
Definition IS_DIGIT (c : Z) : bool := IS_IN c 48 57.
Definition IS_ALPHANUM (c : Z) : bool := IS_ALPHA c || IS_DIGIT c.
Definition LOWER_B (c : Z) : Z := Z.lor c 32.

(** [lit "Via"]: the characters of a string literal. *)
Definition lit (s : string) : list Z :=
  map (fun a => Z.of_N (N_of_ascii a)) (list_ascii_of_string s).

Definition inb (c : Z) (l : list Z) : bool := existsb (Z.eqb c) l.

Definition IS_TOKEN (c : Z) : bool := IS_ALPHANUM c || inb c (lit "-.!%*_+`'~").
Definition IS_MARK (c : Z) : bool := inb c (lit "-_.!~*'()").
Definition IS_UNRESERVED (c : Z) : bool := IS_ALPHANUM c || IS_MARK c.
Definition IS_USER_UNRESERVED (c : Z) : bool := inb c (lit "&=+$,;?/").
Definition IS_USER (c : Z) : bool := IS_UNRESERVED c || IS_USER_UNRESERVED c.

(** States common to all the parsers, above the states of their own. *)
Definition ST_CR : Z := 100.
Definition ST_LF : Z := 101.
Definition ST_CRLF : Z := 102.

(** [st==ST_CRLF ? 2 : 1], the length of the line end that was read. *)
Definition eol_len (st : Z) : Z := if st =? ST_CRLF then 2 else 1.

(** ** Buffers *)

Abbreviation mem := (Z -> Z).

(** The [n] characters from position [a]. *)
Fixpoint bytes (m : mem) (a : Z) (n : nat) : list Z :=
  match n with
  | O => []
  | S n => m a :: bytes m (a + 1) n
  end.

(** A [cstring]: where it starts and how long it is. *)
Record cstr := mk_cstr { s : Z; len : Z }.

Definition cstr0 : cstr := mk_cstr 0 0.

Definition chars (m : mem) (x : cstr) : list Z := bytes m (s x) (Z.to_nat (len x)).

(** A buffer with [l] from position [a] on. *)
Definition mem_at (a : Z) (l : list Z) : mem :=
  fun i => if a <=? i then nth (Z.to_nat (i - a)) l 0 else 0.

(** What the body of a parser's loop does with a character. *)
Inductive outcome (A : Type) : Type :=
| Go (x : A)
| Ret (x : A) (r : Z).
Arguments Go {A} x.
Arguments Ret {A} x r.

(** ** Comparison *)

Fixpoint lower_cmp (l r : list Z) : Z :=
  match l, r with
  | a :: l, b :: r =>
      if LOWER_B a =? LOWER_B b then lower_cmp l r
      else if LOWER_B a <? LOWER_B b then -1 else 1
  | _, _ => 0
  end.

Definition lower_cmp_n (l r : list Z) : Z :=
  if Nat.eqb (length l) (length r) then lower_cmp l r
  else if Nat.ltb (length l) (length r) then -1 else 1.

(** [parse_sip_version] on the characters of the version. *)
Definition parse_sip_version (l : list Z) : Z :=
  match l with
  | [c0; c1; c2; c3; c4; c5; c6] =>
      if negb ((c0 =? 83) || (c0 =? 115)) || negb ((c1 =? 73) || (c1 =? 105))
         || negb ((c2 =? 80) || (c2 =? 112))
      then MALFORMED_SIP_MSG
      else if bool_decide ([c3; c4; c5; c6] = lit "/2.0") then 0
      else MALFORMED_SIP_MSG
  | _ => MALFORMED_SIP_MSG
  end.

(** ** [str2int] *)

Definition INT_MAX : Z := 2147483647.

(** [for(; *str == ' '; str++);] *)
Fixpoint skip_sp (l : list Z) : list Z :=
  match l with
  | c :: l' => if c =? 32 then skip_sp l' else l
  | [] => []
  end.

(** The digit loop that [str2int] and [str2i] share, up to the largest value: the number,
    or [None] on the paths [error_digits] and [error_char].  The list ends where the C
    string has its terminator. *)
Fixpoint digits_loop (maxv sep : Z) (l : list Z) (ret i : Z) : option Z :=
  match l with
  | [] => Some ret
  | c :: l' =>
      if c =? 0 then Some ret
      else if IS_DIGIT c then
        let digit := c - 48 in
        if ret >? (maxv - digit) / 10 then None
        else if i + 1 >? 10 then None
        else digits_loop maxv sep l' (ret * 10 + digit) (i + 1)
      else if (c =? CR) || (c =? LF) || (c =? sep) then Some ret
      else None
  end.

(** [str2int]: the result it stores, [None] when it returns false (and stores nothing). *)
Definition str2int (l : list Z) : option Z :=
  let l := skip_sp l in
  match l with
  | c :: l' =>
      if c =? 45 then option_map Z.opp (digits_loop INT_MAX 32 (skip_sp l') 0 0)
      else digits_loop INT_MAX 32 l 0 0
  | [] => digits_loop INT_MAX 32 l 0 0
  end.

(** ** Lemmas on buffers *)

Lemma length_bytes m a n : length (bytes m a n) = n.
Proof. revert a; induction n as [|n IH]; intros a; cbn; [done | by rewrite IH]. Qed.

Lemma bytes_app m a n1 n2 :
  bytes m a (n1 + n2) = bytes m a n1 ++ bytes m (a + Z.of_nat n1) n2.
Proof.
  revert a; induction n1 as [|n IH]; intros a; cbn [bytes Nat.add app].
  - by rewrite Z.add_0_r.
  - rewrite IH. do 2 f_equal. f_equal. lia.
Qed.

Lemma bytes_ext m m' a n :
  (forall i, a <= i < a + Z.of_nat n -> m i = m' i) -> bytes m a n = bytes m' a n.
Proof.
  revert a; induction n as [|n IH]; intros a H; cbn; [done|].
  rewrite (H a), IH; [done | intros; apply H |]; lia.
Qed.

Lemma bytes_shift m m' a b n :
  (forall i, 0 <= i < Z.of_nat n -> m (a + i) = m' (b + i)) -> bytes m a n = bytes m' b n.
Proof.
  revert a b; induction n as [|n IH]; intros a b H; cbn; [done|].
  rewrite <- (Z.add_0_r a) at 1. rewrite (H 0) by lia. rewrite Z.add_0_r. f_equal.
  apply IH. intros i Hi. rewrite <- !Z.add_assoc. apply H. lia.
Qed.

Lemma bytes_inv m m' a n i :
  bytes m a n = bytes m' a n -> a <= i < a + Z.of_nat n -> m i = m' i.
Proof.
  revert a; induction n as [|n IH]; intros a H Hi; [lia|]. cbn in H. injection H as H1 H2.
  destruct (decide (i = a)) as [->|]; [done|]. apply (IH (a + 1)); [done|lia].
Qed.

(** ** A list lying in a buffer *)

(** [l] lies in [m] from position [a] on. *)
Definition holds (m : mem) (a : Z) (l : list Z) : Prop := bytes m a (length l) = l.

Lemma holds_nil m a : holds m a [].
Proof. done. Qed.

Lemma holds_cons m a x l : holds m a (x :: l) <-> m a = x /\ holds m (a + 1) l.
Proof. unfold holds; cbn. split; [intros H; by injection H | intros [-> ->]; done]. Qed.

Lemma holds_app m a l1 l2 :
  holds m a (l1 ++ l2) <-> holds m a l1 /\ holds m (a + Z.of_nat (length l1)) l2.
Proof.
  unfold holds. rewrite length_app, bytes_app. split.
  - intros H. apply app_inj_1 in H; [done | by rewrite length_bytes].
  - by intros [-> ->].
Qed.

Lemma holds_mem_at a l : holds (mem_at a l) a l.
Proof.
  cut (forall p, holds (mem_at a (p ++ l)) (a + Z.of_nat (length p)) l).
  { intros H. specialize (H []). cbn in H. by rewrite Z.add_0_r in H. }
  induction l as [|x l IH]; intros p; [done|]. apply holds_cons. split.
  - unfold mem_at. destruct (Z.leb_spec a (a + Z.of_nat (length p))); [|lia].
    replace (Z.to_nat _) with (length p) by lia. by rewrite nth_middle.
  - specialize (IH (p ++ [x])). rewrite <- app_assoc in IH. cbn in IH.
    rewrite length_app in IH. cbn in IH. replace (a + Z.of_nat (length p) + 1)
      with (a + Z.of_nat (length p + 1)) by lia. done.
Qed.

Lemma holds_ext m m' a l :
  (forall i, a <= i < a + Z.of_nat (length l) -> m i = m' i) -> holds m a l -> holds m' a l.
Proof. intros H. unfold holds. by rewrite (bytes_ext m m'). Qed.

Lemma chars_holds m a l : holds m a l -> chars m (mk_cstr a (Z.of_nat (length l))) = l.
Proof. unfold chars, holds; cbn. by rewrite Nat2Z.id. Qed.

#[export] Hint Resolve holds_nil : sems.

(** ** [str2int] stays within an [int] *)

Lemma digits_loop_bounds maxv sep l ret i r :
  digits_loop maxv sep l ret i = Some r -> 0 <= ret <= maxv -> 0 <= r <= maxv.
Proof.
  revert ret i; induction l as [|c l IH]; intros ret i H Hr; cbn in H; [by simplify_eq|].
  repeat case_match; simplify_eq; try done.
  unfold IS_DIGIT, IS_IN in *. zbool. eapply IH; [exact H|].
  assert (ret <= (maxv - (c - 48)) / 10) by lia.
  pose proof (Z.mul_div_le (maxv - (c - 48)) 10). lia.
Qed.

Lemma str2int_bounds l r : str2int l = Some r -> - INT_MAX <= r <= INT_MAX.
Proof.
  unfold str2int. destruct (skip_sp l) as [|c l'].
  - intros H%digits_loop_bounds; unfold INT_MAX in *; lia.
  - case_match.
    + destruct (digits_loop _ _ _ _ _) eqn:E; cbn; intros ?; simplify_eq.
      apply digits_loop_bounds in E; unfold INT_MAX in *; lia.
    + intros H'%digits_loop_bounds; unfold INT_MAX in *; lia.
Qed.

(** ** Loops that end at the end of the text

    [for(; *c != end; ( *c)++)] with the body [body] on states of type [A], [cur] being
    where the state has its cursor.  The result is the state in which the loop ends and
    the value returned from inside it, if it was; [None] is out of fuel. *)

Section Loop.
Context {A : Type} (cur : A -> Z) (set_cur : Z -> A -> A) (body : mem -> A -> outcome A).

Definition advance (x : A) : A := set_cur (cur x + 1) x.

Fixpoint run_loop (fuel : nat) (m : mem) (e : Z) (x : A) : option (A * option Z) :=
  match fuel with
  | O => None
  | S fuel =>
      if cur x =? e then Some (x, None)
      else match body m x with
           | Go x => run_loop fuel m e (advance x)
           | Ret x r => Some (x, Some r)
           end
  end.

(** A body that moves the cursor forward only, and never past the end, ends. *)
Lemma run_loop_total fuel m e x :
  (forall x y, cur x < e -> body m x = Go y -> cur x <= cur y < e) ->
  (forall y x, cur (set_cur y x) = y) ->
  cur x <= e -> (Z.to_nat (e - cur x) < fuel)%nat ->
  exists y o, run_loop fuel m e x = Some (y, o).
Proof.
  intros Hb Hs. revert x; induction fuel as [|fuel IH]; intros x Hx Hf; [lia|]. cbn [run_loop].
  destruct (Z.eqb_spec (cur x) e); [by eauto|].
  destruct (body m x) as [y|y r] eqn:E; [|by eauto].
  apply Hb in E; [|lia]. apply IH; unfold advance; rewrite Hs; lia.
Qed.

(** With an invariant and a measure, for a body that may step back or jump: the loop ends,
    at the end of the text or by a return of the body. *)
Lemma run_loop_ends (P : A -> Prop) (mu : A -> nat) fuel m e x :
  (forall x y, P x -> cur x <> e -> body m x = Go y -> P (advance y) /\ (mu (advance y) < mu x)%nat) ->
  P x -> (mu x < fuel)%nat ->
  exists y o, run_loop fuel m e x = Some (y, o) /\
    match o with
    | None => P y /\ cur y = e
    | Some r => exists z, P z /\ cur z <> e /\ body m z = Ret y r
    end.
Proof.
  intros Hb. revert x; induction fuel as [|fuel IH]; intros x Hx Hf; [lia|]. cbn [run_loop].
  destruct (Z.eqb_spec (cur x) e); [by exists x, None|].
  destruct (body m x) as [y|y r] eqn:E; [|eexists _, _; split; [done|]; by exists x].
  apply Hb in E as [??]; [|done..]. apply IH; [done|lia].
Qed.

Lemma run_loop_mono f k m e x y :
  run_loop f m e x = Some y -> run_loop (f + k) m e x = Some y.
Proof.
  revert x; induction f as [|f IH]; intros x; cbn [run_loop Nat.add]; [done|].
  destruct (cur x =? e); [done|]. destruct (body m x); auto.
Qed.

(** An invariant of the loop, and what holds when the body returns. *)
Lemma run_loop_inv (P : A -> Prop) (Q : A -> Z -> Prop) fuel m e x y o :
  (forall x y, P x -> body m x = Go y -> P (advance y)) -> (forall x y r, P x -> body m x = Ret y r -> Q y r) ->
  P x -> run_loop fuel m e x = Some (y, o) ->
  match o with None => P y | Some r => Q y r end.
Proof.
  intros Hgo Hret. revert x; induction fuel as [|fuel IH]; intros x Hx; cbn [run_loop]; [done|].
  destruct (cur x =? e); [by intros [= <- <-]|].
  destruct (body m x) as [z|z r] eqn:E; [|intros [= <- <-]; by eapply Hret]. apply IH. by eapply Hgo.
Qed.

(** From [x] the loop ends with [y]. *)
Definition loop_to (m : mem) (e : Z) (x : A) (y : A * option Z) : Prop := exists f, run_loop f m e x = Some y.

Lemma loop_to_run m e x y f z :
  loop_to m e x y -> run_loop f m e x = Some z -> z = y.
Proof.
  intros [f' H] Hz. apply (run_loop_mono _ f') in Hz. apply (run_loop_mono _ f) in H.
  rewrite Nat.add_comm in H. congruence.
Qed.

Lemma loop_end m e x : cur x = e -> loop_to m e x (x, None).
Proof. intros H. exists 1%nat. cbn. by rewrite H, Z.eqb_refl. Qed.

Lemma loop_ret m e x y r : cur x <> e -> body m x = Ret y r -> loop_to m e x (y, Some r).
Proof. intros H E. exists 1%nat. cbn. destruct (Z.eqb_spec (cur x) e); [done|]. by rewrite E. Qed.

Lemma loop_step m e x x' y : cur x <> e -> body m x = Go x' -> loop_to m e (advance x') y -> loop_to m e x y.
Proof.
  intros H E [f Hf]. exists (S f). cbn. destruct (Z.eqb_spec (cur x) e); [done|]. by rewrite E.
Qed.

(** A run of characters that the body passes over while the state satisfies [P]. *)
Lemma loop_run (P : A -> Prop) m e x l y :
  (forall y x, cur (set_cur y x) = y) -> (forall y z x, set_cur y (set_cur z x) = set_cur y x) ->
  (forall x, set_cur (cur x) x = x) -> (forall y x, P x -> P (set_cur y x)) ->
  P x -> holds m (cur x) l -> cur x + Z.of_nat (length l) <= e ->
  (forall a z, a ∈ l -> P z -> m (cur z) = a -> body m z = Go z) ->
  loop_to m e (set_cur (cur x + Z.of_nat (length l)) x) y -> loop_to m e x y.
Proof.
  intros H1 H2 H3 HP. revert x; induction l as [|a l IH]; intros x Hx Hh He Hf; cbn [length].
  { rewrite Z.add_0_r. by rewrite H3. }
  intros Hy. apply holds_cons in Hh as [Ha Hh]. cbn [length] in He.
  apply (loop_step _ _ _ x); [lia | apply (Hf a); [by left | done | done] |]. unfold advance.
  apply IH; [by apply HP | by rewrite H1 | rewrite H1; lia | intros; apply (Hf a0); [by right | done..] |].
  rewrite H1, H2. by replace (cur x + 1 + Z.of_nat (length l)) with (cur x + Z.of_nat (S (length l))) by lia.
Qed.

End Loop.
