(* ===== verification/AmUtils.v ===== *)
(** * Numbers as text

    Model of [int2str] (unsigned and signed) and [str2i] of core/AmUtils.cpp; [str2int]
    is in [ParseCommon].  The properties: reading what was printed gives the number back,
    over the whole range. *)

From Stdlib Require Import ZArith Lia Ascii String.
From stdpp Require Import base list.
From S2P Require Import Prelude ParseCommon.

Local Open Scope Z_scope.
Local Open Scope bool_scope.

Definition UINT_MAX : Z := 4294967295.

(** The loop that fills the buffer from its end: [do ... while(--i && d.quot)]. *)
Fixpoint int2str_loop (i : nat) (n : Z) (acc : list Z) : list Z :=
  match i with
  | O => acc
  | S i =>
      let acc := (48 + n mod 10) :: acc in
      if n / 10 =? 0 then acc else int2str_loop i (n / 10) acc
  end.

(** [int2str(unsigned int)] *)
Definition int2str (n : Z) : list Z := int2str_loop 62 n [].

(** [int2str(int)], for a value whose absolute value is an [int]. *)
Definition int2str_signed (n : Z) : list Z :=
  if n <? 0 then 45 :: int2str_loop 62 (Z.abs n) [] else int2str_loop 62 (Z.abs n) [].

(** [str2i]: the result it stores, [None] when it returns true. *)
Definition str2i (l : list Z) : option Z := digits_loop UINT_MAX 32 (skip_sp l) 0 0.

(** ** Round trips *)

Lemma digit_step maxv sep d acc ret i :
  0 <= d < 10 -> ret * 10 + d <= maxv -> i + 1 <= 10 ->
  digits_loop maxv sep ((48 + d) :: acc) ret i = digits_loop maxv sep acc (ret * 10 + d) (i + 1).
Proof.
  intros Hd Hr Hi. cbn [digits_loop].
  destruct (Z.eqb_spec (48 + d) 0); [lia|].
  assert (IS_DIGIT (48 + d) = true) as -> by (unfold IS_DIGIT, IS_IN; apply andb_true_iff; split; apply Z.leb_le; lia).
  replace (48 + d - 48) with d by lia.
  assert (ret <= (maxv - d) / 10) by (apply Z.div_le_lower_bound; lia).
  destruct (Z.gtb_spec ret ((maxv - d) / 10)); [lia|]. destruct (Z.gtb_spec (i + 1) 10); [lia | done].
Qed.

(** The digits of [n], read after nothing, give [n] and count as [k]. *)
Lemma int2str_loop_read maxv sep f n :
  maxv < 10 ^ 10 -> 0 <= n <= maxv -> n < 10 ^ Z.of_nat (S f) ->
  exists k, 1 <= k /\ 10 ^ (k - 1) <= Z.max 1 n /\
    forall acc, digits_loop maxv sep (int2str_loop (S f) n acc) 0 0 = digits_loop maxv sep acc n k.
Proof.
  intros Hm. revert n; induction f as [|f IH]; intros n Hn Hf.
  { exists 1. split; [lia|]. split; [lia|]. intros acc. cbn [int2str_loop].
    change (10 ^ Z.of_nat 1) with 10 in Hf. rewrite Z.div_small, Z.mod_small by lia. cbn [Z.eqb].
    rewrite digit_step by lia. f_equal; lia. }
  remember (S f) as f' eqn:Ef. cbn [int2str_loop]. pose proof (Z.mod_pos_bound n 10 ltac:(lia)) as Hd.
  pose proof (Z.div_mod n 10 ltac:(lia)) as Hdm.
  destruct (Z.eqb_spec (n / 10) 0) as [H0|H0].
  - exists 1. split; [lia|]. split; [lia|]. intros acc. rewrite digit_step by lia.
    f_equal. lia.
  - assert (0 <= n / 10) by (apply Z.div_pos; lia).
    destruct (IH (n / 10)) as (k & Hk1 & Hk & IH').
    { split; [lia|]. transitivity n; [apply Z.div_le_upper_bound; lia | lia]. }
    { apply Z.div_lt_upper_bound; [lia|]. rewrite <- Z.pow_succ_r by lia.
      by replace (Z.succ (Z.of_nat f')) with (Z.of_nat (S f')) by lia. }
    assert (Hp : 10 ^ k <= n).
    { replace k with (Z.succ (k - 1)) by lia. rewrite Z.pow_succ_r by lia. lia. }
    assert (k < 10) by (apply (Z.pow_lt_mono_r_iff 10); lia).
    exists (k + 1). split; [lia|]. split; [by replace (k + 1 - 1) with k by lia; lia|].
    intros acc. rewrite IH', digit_step by lia. f_equal. lia.
Qed.

Lemma skip_sp_digits f n acc : 0 <= n -> skip_sp (int2str_loop (S f) n acc) = int2str_loop (S f) n acc.
Proof.
  assert (forall f n a acc, 0 <= n -> skip_sp (48 + a :: acc) = 48 + a :: acc ->
    0 <= a -> skip_sp (int2str_loop f n (48 + a :: acc)) = int2str_loop f n (48 + a :: acc)) as H.
  { clear. induction f as [|f IH]; intros n a acc Hn He Ha; [done|]. cbn [int2str_loop].
    pose proof (Z.mod_pos_bound n 10 ltac:(lia)).
    assert (skip_sp (48 + n mod 10 :: 48 + a :: acc) = 48 + n mod 10 :: 48 + a :: acc)
      by (cbn [skip_sp]; by destruct (Z.eqb_spec (48 + n mod 10) 32); [lia|]).
    destruct (n / 10 =? 0); [done|]. apply IH; [apply Z.div_pos; lia | done | lia]. }
  intros Hn. cbn [int2str_loop]. pose proof (Z.mod_pos_bound n 10 ltac:(lia)).
  assert (skip_sp (48 + n mod 10 :: acc) = 48 + n mod 10 :: acc)
    by (cbn [skip_sp]; by destruct (Z.eqb_spec (48 + n mod 10) 32); [lia|]).
  destruct (n / 10 =? 0); [done|]. apply H; [apply Z.div_pos; lia | done | lia].
Qed.

Lemma str2i_int2str n : 0 <= n <= UINT_MAX -> str2i (int2str n) = Some n.
Proof.
  intros Hn. unfold str2i, int2str. rewrite skip_sp_digits by lia.
  destruct (int2str_loop_read UINT_MAX 32 61 n) as (k & _ & _ & ->); [done | done | | done].
  assert (UINT_MAX < 10 ^ Z.of_nat 62) by done. lia.
Qed.

Lemma int2str_loop_head f n : 0 <= n ->
  exists x l, int2str_loop (S f) n [] = x :: l /\ 48 <= x <= 57.
Proof.
  assert (forall f n a acc, 0 <= n -> 0 <= a < 10 -> exists x l, int2str_loop f n (48 + a :: acc) = x :: l /\ 48 <= x <= 57) as H.
  { clear. induction f as [|f IH]; intros n a acc Hn Ha; cbn [int2str_loop]; [do 2 eexists; split; [done | lia]|].
    pose proof (Z.mod_pos_bound n 10 ltac:(lia)).
    destruct (n / 10 =? 0); [do 2 eexists; split; [done | lia]|]. apply IH; [apply Z.div_pos; lia | lia]. }
  intros Hn. cbn [int2str_loop]. pose proof (Z.mod_pos_bound n 10 ltac:(lia)).
  destruct (n / 10 =? 0); [do 2 eexists; split; [done | lia]|]. apply H; [apply Z.div_pos; lia | lia].
Qed.

Lemma str2int_int2str n : 0 <= n <= INT_MAX -> str2int (int2str n) = Some n.
Proof.
  intros Hn. unfold str2int, int2str. rewrite skip_sp_digits by lia.
  destruct (int2str_loop_head 61 n ltac:(lia)) as (x & l & E & Hx). rewrite E.
  destruct (Z.eqb_spec x 45); [lia|]. rewrite <- E.
  destruct (int2str_loop_read INT_MAX 32 61 n) as (k & _ & _ & ->); [done | done | | done].
  assert (INT_MAX < 10 ^ Z.of_nat 62) by done. lia.
Qed.

(** Numbers survive their text: [str2i] reads back what [int2str] printed for every
    unsigned 32-bit number, and [str2int] what it printed for every [int] but the smallest,
    sign included. *)
Theorem int_text_roundtrip n :
  (0 <= n <= UINT_MAX -> str2i (int2str n) = Some n) /\
  (- INT_MAX <= n <= INT_MAX -> str2int (int2str_signed n) = Some n).
Proof.
  split; [apply str2i_int2str|]. intros Hn. unfold int2str_signed.
  fold (int2str (Z.abs n)). destruct (Z.ltb_spec n 0).
  - pose proof (str2int_int2str (Z.abs n) ltac:(lia)) as Hs.
    unfold str2int in *. cbn [skip_sp Z.eqb Pos.eqb].
    unfold int2str in *. rewrite skip_sp_digits in Hs by lia.
    destruct (int2str_loop_head 61 (Z.abs n) ltac:(lia)) as (x & l & E & Hx).
    rewrite skip_sp_digits by lia. rewrite E in *. destruct (Z.eqb_spec x 45); [lia|]. rewrite Hs. cbn. f_equal. lia.
  - rewrite str2int_int2str by lia. f_equal. lia.
Qed.

Lemma int_text_roundtrip_witness :
  str2i (int2str 4294967295) = Some 4294967295 /\ str2int (int2str_signed (-2147483647)) = Some (-2147483647).
Proof.
  split; [apply (proj1 (int_text_roundtrip 4294967295)) | apply (proj2 (int_text_roundtrip (-2147483647)))];
    unfold UINT_MAX, INT_MAX; lia.
Defined.

(** ** The digits of a number *)

Definition dec_val (acc : Z) (l : list Z) : Z := fold_left (fun a c => a * 10 + (c - 48)) l acc.

Lemma dec_val_app acc l1 l2 : dec_val acc (l1 ++ l2) = dec_val (dec_val acc l1) l2.
Proof. apply fold_left_app. Qed.

Lemma is_digit_range c : IS_DIGIT c = true <-> 48 <= c <= 57.
Proof. unfold IS_DIGIT, IS_IN. rewrite andb_true_iff, !Z.leb_le. lia. Qed.

Lemma dec_val_ge acc l : forallb IS_DIGIT l = true -> 0 <= acc -> acc <= dec_val acc l.
Proof.
  revert acc; induction l as [|c l IH]; intros acc H Ha; cbn in *; [lia|].
  apply andb_true_iff in H as [Hc%is_digit_range H]. specialize (IH (acc * 10 + (c - 48)) H ltac:(lia)).
  unfold dec_val in IH. lia.
Qed.

Lemma int2str_loop_digits f n acc :
  0 <= n < 10 ^ Z.of_nat (S f) ->
  exists ds, int2str_loop (S f) n acc = ds ++ acc /\ ds <> [] /\ forallb IS_DIGIT ds = true /\ dec_val 0 ds = n.
Proof.
  assert (Hlast : forall n acc, 0 <= n -> n / 10 = 0 -> exists ds, (48 + n mod 10) :: acc = ds ++ acc /\
    ds <> [] /\ forallb IS_DIGIT ds = true /\ dec_val 0 ds = n).
  { clear. intros n acc Hn H. pose proof (Z.div_mod n 10 ltac:(lia)). pose proof (Z.mod_pos_bound n 10 ltac:(lia)).
    exists [48 + n mod 10]. cbn -[Z.modulo Z.add]. rewrite andb_true_r, is_digit_range. repeat split; try done; lia. }
  revert n acc; induction f as [|f IH]; intros n acc Hn.
  { cbn [int2str_loop]. replace (10 ^ Z.of_nat 1) with 10 in Hn by done.
    assert (n / 10 = 0) as E by (apply Z.div_small; lia). rewrite E. cbn [Z.eqb]. apply Hlast; [lia|done]. }
  remember (S f) as f' eqn:Ef. cbn [int2str_loop].
  destruct (Z.eqb_spec (n / 10) 0) as [H0|H0]; [apply Hlast; [lia|done]|].
  destruct (IH (n / 10) ((48 + n mod 10) :: acc)) as (ds & E & Hn0 & Hd & Hv).
  { split; [apply Z.div_pos; lia|]. apply Z.div_lt_upper_bound; [lia|]. rewrite <- Z.pow_succ_r by lia.
    replace (Z.succ (Z.of_nat f')) with (Z.of_nat (S f')) by lia. lia. }
  exists (ds ++ [48 + n mod 10]). rewrite E, <- app_assoc. split; [done|]. split; [by destruct ds|].
  pose proof (Z.div_mod n 10 ltac:(lia)). pose proof (Z.mod_pos_bound n 10 ltac:(lia)).
  rewrite forallb_app, Hd, dec_val_app, Hv. cbn -[Z.modulo Z.add Z.div]. rewrite andb_true_r, is_digit_range. lia.
Qed.

Lemma int2str_digits n :
  0 <= n <= UINT_MAX -> int2str n <> [] /\ forallb IS_DIGIT (int2str n) = true /\ dec_val 0 (int2str n) = n.
Proof.
  intros Hn. unfold int2str.
  destruct (int2str_loop_digits 61 n []) as (ds & -> & H1 & H2 & H3).
  { split; [lia|]. unfold UINT_MAX in Hn. apply (Z.le_lt_trans _ (10 ^ 10)); [lia|]. apply Z.pow_lt_mono_r; lia. }
  by rewrite app_nil_r.
Qed.
