(* ===== verification/SipHeader.v ===== *)
(** * SIP headers: their types and the header parser

    Model of core/sip/parse_header.{h,cpp}: [parse_header_type], which recognises the
    headers the stack itself uses by name, and [parse_headers], the state machine that
    splits the header part of a message into headers.  The properties: the type table
    against the list of names it stands for, termination of the loop, which can step back
    and read a character again, and the round trip with the writer of [MsgHdrs]. *)

From Stdlib Require Import ZArith Lia Ascii String.
From stdpp Require Import base list.
From S2P Require Import Prelude ParseCommon.

Local Open Scope Z_scope.
Local Open Scope bool_scope.

(** ** Data *)

Inductive hdr_type :=
| H_UNPARSED | H_TO | H_VIA | H_FROM | H_CSEQ | H_RSEQ | H_RACK | H_ROUTE | H_CALL_ID
| H_CONTACT | H_REQUIRE | H_RECORD_ROUTE | H_CONTENT_TYPE | H_CONTENT_LENGTH
| H_MAX_FORWARDS | H_OTHER.

#[export] Instance hdr_type_eq_dec : EqDecision hdr_type.
Proof. solve_decision. Defined.

(** [sip_header]; [p], the parsed value, belongs to the parsers of the values. *)
Record sip_header := mk_header { type : hdr_type; name : cstr; value : cstr }.

(** [sip_header::sip_header()] and [sip_header::clear()]. *)
Definition sip_header0 : sip_header := mk_header H_UNPARSED cstr0 cstr0.

(** ** [parse_header_type] *)

(** [!lower_cmp(name,lit,len)] where [name] has the length of the literal. *)
Definition ci_eq (l r : list Z) : bool := lower_cmp l r =? 0.

(** [switch(name.s[0]) { case 'f': case 'F': ... }] *)
Definition is_letter (c : Z) (lower upper : Z) : bool := (c =? lower) || (c =? upper).

Definition hdr_type_compact (c : Z) : hdr_type :=
  let c := LOWER_B c in
  if c =? 105 then H_CALL_ID
  else if c =? 109 then H_CONTACT
  else if c =? 108 then H_CONTENT_LENGTH
  else if c =? 99 then H_CONTENT_TYPE
  else if c =? 102 then H_FROM
  else if c =? 116 then H_TO
  else if c =? 118 then H_VIA
  else H_OTHER.

(** Names of four characters: From, CSeq, RSeq, RAck. *)
Definition hdr_type_4 (n : list Z) : hdr_type :=
  let c0 := nth 0 n 0 in
  let c1 := nth 1 n 0 in
  if is_letter c0 102 70 then
    if ci_eq (drop 1 n) (drop 1 (lit "From")) then H_FROM else H_UNPARSED
  else if is_letter c0 99 67 then
    if ci_eq (drop 1 n) (drop 1 (lit "CSeq")) then H_CSEQ else H_UNPARSED
  else if is_letter c0 114 82 then
    if is_letter c1 115 83 then
      if ci_eq (drop 2 n) (drop 2 (lit "RSeq")) then H_RSEQ else H_UNPARSED
    else if is_letter c1 97 65 then
      if ci_eq (drop 2 n) (drop 2 (lit "RAck")) then H_RACK else H_UNPARSED
    else H_UNPARSED
  else H_UNPARSED.

(** Names of seven characters: Call-ID, Contact, Require. *)
Definition hdr_type_7 (n : list Z) : hdr_type :=
  let c0 := nth 0 n 0 in
  let c1 := nth 1 n 0 in
  if is_letter c0 99 67 then
    if is_letter c1 97 65 then
      if ci_eq (drop 2 n) (drop 2 (lit "Call-ID")) then H_CALL_ID else H_UNPARSED
    else if is_letter c1 111 79 then
      if ci_eq (drop 2 n) (drop 2 (lit "Contact")) then H_CONTACT else H_UNPARSED
    else H_OTHER
  else if is_letter c0 114 82 then
    if ci_eq (drop 1 n) (drop 1 (lit "Require")) then H_REQUIRE else H_UNPARSED
  else H_OTHER.

(** Names of twelve characters: Content-Type, Record-Route, Max-Forwards. *)
Definition hdr_type_12 (n : list Z) : hdr_type :=
  let c0 := nth 0 n 0 in
  if is_letter c0 99 67 then
    if ci_eq n (lit "Content-Type") then H_CONTENT_TYPE else H_UNPARSED
  else if is_letter c0 114 82 then
    if ci_eq n (lit "Record-Route") then H_RECORD_ROUTE else H_UNPARSED
  else if is_letter c0 109 77 then
    if ci_eq n (lit "Max-Forwards") then H_MAX_FORWARDS else H_UNPARSED
  else H_UNPARSED.

(** The type by the characters of the name. *)
Definition parse_header_type (n : list Z) : hdr_type :=
  let t :=
    match length n with
    | 1%nat => hdr_type_compact (nth 0 n 0)
    | 2%nat => if ci_eq n (lit "To") then H_TO else H_UNPARSED
    | 3%nat => if ci_eq n (lit "Via") then H_VIA else H_UNPARSED
    | 4%nat => hdr_type_4 n
    | 5%nat => if ci_eq (drop 1 n) (drop 1 (lit "Route")) then H_ROUTE else H_UNPARSED
    | 7%nat => hdr_type_7 n
    | 12%nat => hdr_type_12 n
    | 14%nat => if ci_eq n (lit "Content-Length") then H_CONTENT_LENGTH else H_UNPARSED
    | _ => H_UNPARSED
    end in
  if decide (t = H_UNPARSED) then H_OTHER else t.

(** ** [parse_headers] *)

Definition H_NAME : Z := 0.
Definition H_HCOLON : Z := 1.
Definition H_VALUE_SWS : Z := 2.
Definition H_VALUE : Z := 3.

(** The local variables of [parse_headers]: the cursor [*c], [begin], [st], [saved_st],
    [*hdr], and the list it appends to. *)
Record ph_state := mk_ph {
  ph_c : Z; ph_begin : Z; ph_st : Z; ph_saved : Z; ph_hdr : sip_header;
  ph_hdrs : list sip_header
}.

Definition ph_set_st (x : Z) (p : ph_state) : ph_state :=
  mk_ph (ph_c p) (ph_begin p) x (ph_saved p) (ph_hdr p) (ph_hdrs p).

Definition ph_set_name (p : ph_state) : ph_state :=
  mk_ph (ph_c p) (ph_begin p) (ph_st p) (ph_saved p)
        (mk_header (type (ph_hdr p)) (mk_cstr (ph_begin p) (ph_c p - ph_begin p))
                   (value (ph_hdr p))) (ph_hdrs p).

(** [case_CR_LF]: the state is saved and the line end awaited. *)
Definition ph_save_eol (x : Z) (p : ph_state) : ph_state :=
  mk_ph (ph_c p) (ph_begin p) x (ph_st p) (ph_hdr p) (ph_hdrs p).

(** [hdr->value.set(begin,len)], [add_parsed_header], a new header. *)
Definition ph_add_header (m : mem) (l : Z) (p : ph_state) : ph_state :=
  let n := name (ph_hdr p) in
  mk_ph (ph_c p) (ph_begin p) (ph_st p) (ph_saved p) sip_header0
        (ph_hdrs p ++ [mk_header (parse_header_type (chars m n)) n
                                 (mk_cstr (ph_begin p) l)]).

(** [begin = *c; saved_st = H_NAME; ( *c)--;] and [st = saved_st]. *)
Definition ph_reparse (p : ph_state) : ph_state :=
  mk_ph (ph_c p - 1) (ph_c p) H_NAME H_NAME (ph_hdr p) (ph_hdrs p).

(** The body of the loop on the character at the cursor. *)
Definition parse_headers_char (m : mem) (p : ph_state) : outcome ph_state :=
  let ch := m (ph_c p) in
  let st := ph_st p in
  if st =? H_NAME then
    if ch =? CR then Go (ph_save_eol ST_CR p)
    else if ch =? LF then Go (ph_save_eol ST_LF p)
    else if ch =? HCOLON then Go (ph_set_name (ph_set_st H_VALUE_SWS p))
    else if (ch =? SP) || (ch =? HTAB) then Go (ph_set_name (ph_set_st H_HCOLON p))
    else Go p
  else if st =? H_VALUE_SWS then
    if ch =? CR then Go (ph_save_eol ST_CR p)
    else if ch =? LF then Go (ph_save_eol ST_LF p)
    else if (ch =? SP) || (ch =? HTAB) then Go p
    else Go (mk_ph (ph_c p) (ph_c p) H_VALUE (ph_saved p) (ph_hdr p) (ph_hdrs p))
  else if st =? H_VALUE then
    if ch =? CR then Go (ph_save_eol ST_CR p)
    else if ch =? LF then Go (ph_save_eol ST_LF p)
    else Go p
  else if st =? H_HCOLON then
    if ch =? HCOLON then Go (ph_set_st H_VALUE_SWS p)
    else if (ch =? SP) || (ch =? HTAB) then Go p
    else Ret p MALFORMED_SIP_MSG
  else if st =? ST_CR then
    if ch =? LF then Go (ph_set_st ST_CRLF p) else Ret p MALFORMED_SIP_MSG
  else if (st =? ST_LF) || (st =? ST_CRLF) then
    if ph_saved p =? H_NAME then
      if (ph_c p - eol_len st) - ph_begin p =? 0 then Ret p 0 else Ret p MALFORMED_SIP_MSG
    else if ph_saved p =? H_VALUE_SWS then
      if negb (IS_WSP ch) then Go (ph_reparse p) else Go (ph_set_st (ph_saved p) p)
    else if ph_saved p =? H_VALUE then
      if negb (IS_WSP ch) then
        Go (ph_reparse (ph_add_header m ((ph_c p - eol_len st) - ph_begin p) p))
      else Go (ph_set_st (ph_saved p) p)
    else Go (ph_set_st (ph_saved p) p)
  else Go p.

(** The [switch] after the loop. *)
Definition parse_headers_end (m : mem) (p : ph_state) : ph_state * Z :=
  let st := ph_st p in
  if st =? H_NAME then (p, UNEXPECTED_EOT)
  else if st =? H_VALUE then
    if ph_c p - ph_begin p >? 0 then (ph_add_header m (ph_c p - ph_begin p) p, 0)
    else (p, UNEXPECTED_EOT)
  else if (st =? ST_LF) || (st =? ST_CRLF) then
    if ph_saved p =? H_NAME then
      if (ph_c p - eol_len st) - ph_begin p =? 0 then (p, 0) else (p, MALFORMED_SIP_MSG)
    else if ph_saved p =? H_VALUE then
      if ph_c p - ph_begin p >? 2 then
        (ph_add_header m (ph_c p - ph_begin p - eol_len st) p, 0)
      else (p, UNEXPECTED_EOT)
    else (p, UNEXPECTED_EOT)
  else (p, UNEXPECTED_EOT).

Definition ph_next (p : ph_state) : ph_state :=
  mk_ph (ph_c p + 1) (ph_begin p) (ph_st p) (ph_saved p) (ph_hdr p) (ph_hdrs p).

(** The loop; [None] is out of fuel. *)
Fixpoint ph_loop (fuel : nat) (m : mem) (e : Z) (p : ph_state) : option (ph_state * Z) :=
  match fuel with
  | O => None
  | S fuel =>
      if (ph_c p <? e) && negb (m (ph_c p) =? 0) then
        match parse_headers_char m p with
        | Go p' => ph_loop fuel m e (ph_next p')
        | Ret p' r => Some (p', r)
        end
      else Some (parse_headers_end m p)
  end.

(** Every character is read at most twice. *)
Definition ph_fuel (c e : Z) : nat := S (Z.to_nat (2 * (e - c) + 1)).

(** [parse_headers(hdrs,c,end)] on a non-null cursor, appending to an empty list: the
    headers, the final cursor and the return code. *)
Definition parse_headers (m : mem) (c e : Z) : option (list sip_header * Z * Z) :=
  if c =? e then Some ([], c, 0)
  else
    match ph_loop (ph_fuel c e) m e (mk_ph c c H_NAME 0 sip_header0 []) with
    | Some (p, r) => Some (ph_hdrs p, ph_c p, r)
    | None => None
    end.

(** ** The wire format of a header

    What the stack writes ([copy_hdr_wr]) and what a peer that follows RFC 3261 without
    folding writes: the name, a colon and a space, the value, CRLF. *)

(** Characters that neither end a line nor the data. *)
Definition text_char (ch : Z) : bool := negb ((ch =? 0) || (ch =? CR) || (ch =? LF)).

Definition name_char (ch : Z) : bool :=
  text_char ch && negb ((ch =? HCOLON) || (ch =? SP) || (ch =? HTAB)).

(** A name is not empty; a value is not empty and does not start with white space. *)
Definition good_name (n : list Z) : bool := negb (Nat.eqb (length n) 0) && forallb name_char n.

Definition good_value (v : list Z) : bool :=
  match v with
  | [] => false
  | ch :: _ => negb (IS_WSP ch) && forallb text_char v
  end.

Definition good_hdr (h : list Z * list Z) : bool := good_name h.1 && good_value h.2.

Definition CRLF : list Z := [CR; LF].

Definition hdr_line (h : list Z * list Z) : list Z := h.1 ++ [HCOLON; SP] ++ h.2 ++ CRLF.

Definition hdr_lines (l : list (list Z * list Z)) : list Z := concat (map hdr_line l).

Lemma hdr_line_length h : length (hdr_line h) = (length h.1 + length h.2 + 4)%nat.
Proof. unfold hdr_line. rewrite !length_app. cbn. lia. Qed.

(** ** Termination *)

(** Each round moves the cursor, or leaves a line end behind. *)
Definition ph_measure (e : Z) (p : ph_state) : nat :=
  Z.to_nat (2 * (e - ph_c p) + (if (ph_st p =? ST_LF) || (ph_st p =? ST_CRLF) then 1 else 0)).

Definition at_eol (st : Z) : bool := (st =? ST_LF) || (st =? ST_CRLF).

Lemma parse_headers_char_cursor m p p' :
  parse_headers_char m p = Go p' ->
  ph_c p' = ph_c p \/ at_eol (ph_st p) = true /\ ph_c p' = ph_c p - 1 /\ ph_st p' = H_NAME.
Proof.
  unfold parse_headers_char, at_eol. intros H.
  repeat (case_match; [try (simplify_eq; by left)|]); try (simplify_eq; by left);
    repeat case_match; simplify_eq; first [by left | by right].
Qed.

Lemma parse_headers_char_measure m e p p' :
  ph_c p < e -> parse_headers_char m p = Go p' ->
  (ph_measure e (ph_next p') < ph_measure e p)%nat.
Proof.
  intros Hc H. unfold ph_measure. fold (at_eol (ph_st p)) (at_eol (ph_st (ph_next p'))). cbn [ph_next ph_c ph_st].
  apply parse_headers_char_cursor in H as [H|(-> & H & ->)]; rewrite H.
  - destruct (at_eol (ph_st p)), (at_eol (ph_st p')); lia.
  - cbn. lia.
Qed.

Lemma ph_loop_total f m e p :
  (ph_measure e p < f)%nat -> exists q r, ph_loop f m e p = Some (q, r).
Proof.
  revert p; induction f as [|f IH]; intros p Hf; [lia|]. cbn [ph_loop].
  destruct ((ph_c p <? e) && negb (m (ph_c p) =? 0)) eqn:Ec.
  - apply andb_true_iff in Ec as [Ec _]. zbool.
    destruct (parse_headers_char m p) as [p'|p' r] eqn:E; [|by eauto].
    apply IH. pose proof (parse_headers_char_measure m e p p' Ec E). lia.
  - destruct (parse_headers_end m p). eauto.
Qed.

Lemma ph_loop_mono f k m e p x :
  ph_loop f m e p = Some x -> ph_loop (f + k) m e p = Some x.
Proof.
  revert p; induction f as [|f IH]; intros p; cbn [ph_loop Nat.add]; [done|].
  destruct (_ && _); [|done]. destruct (parse_headers_char m p); auto.
Qed.

(** [ph_to m e p x]: from [p] the loop ends with [x]. *)
Definition ph_to (m : mem) (e : Z) (p : ph_state) (x : ph_state * Z) : Prop :=
  exists f, ph_loop f m e p = Some x.

Lemma ph_to_parse m a e q r :
  a <> e -> ph_to m e (mk_ph a a H_NAME 0 sip_header0 []) (q, r) ->
  parse_headers m a e = Some (ph_hdrs q, ph_c q, r).
Proof.
  intros Ha [f Hf]. unfold parse_headers. destruct (Z.eqb_spec a e); [done|].
  destruct (ph_loop_total (ph_fuel a e) m e (mk_ph a a H_NAME 0 sip_header0 []))
    as (q' & r' & H). { unfold ph_measure, ph_fuel. cbn. lia. }
  rewrite H. apply (ph_loop_mono _ f) in H. apply (ph_loop_mono _ (ph_fuel a e)) in Hf.
  rewrite Nat.add_comm in Hf. rewrite H in Hf. by injection Hf as -> ->.
Qed.

(** One character on which the loop goes on. *)
Lemma ph_step m e p p' x :
  ph_c p < e -> m (ph_c p) <> 0 -> parse_headers_char m p = Go p' ->
  ph_to m e (ph_next p') x -> ph_to m e p x.
Proof.
  intros Hc Hm Hg [f Hf]. exists (S f). cbn [ph_loop].
  destruct (Z.ltb_spec (ph_c p) e); [|lia]. destruct (Z.eqb_spec (m (ph_c p)) 0); [done|].
  cbn. by rewrite Hg.
Qed.

Definition ph_set_c (x : Z) (p : ph_state) : ph_state :=
  mk_ph x (ph_begin p) (ph_st p) (ph_saved p) (ph_hdr p) (ph_hdrs p).

(** A run of characters that the body passes over. *)
Lemma ph_run m e p l x :
  holds m (ph_c p) l -> ph_c p + Z.of_nat (length l) <= e ->
  (forall y q, y ∈ l -> ph_st q = ph_st p -> m (ph_c q) = y -> y <> 0 /\ parse_headers_char m q = Go q) ->
  ph_to m e (ph_set_c (ph_c p + Z.of_nat (length l)) p) x -> ph_to m e p x.
Proof.
  revert p; induction l as [|y l IH]; intros p Hh He Hf; cbn [length].
  { rewrite Z.add_0_r. by destruct p. }
  intros Hx. apply holds_cons in Hh as [Hy Hh]. cbn [length] in He.
  destruct (Hf y p ltac:(left) eq_refl Hy) as [Hy0 Hgo].
  apply (ph_step m e p p); [lia | by rewrite Hy | done |].
  apply IH; [exact Hh | cbn; lia | intros; apply Hf; [by right | done..] |]. cbn.
  by replace (ph_c p + 1 + Z.of_nat (length l)) with (ph_c p + Z.of_nat (S (length l))) by lia.
Qed.

Lemma hdr_lines_app l1 l2 : hdr_lines (l1 ++ l2) = hdr_lines l1 ++ hdr_lines l2.
Proof. unfold hdr_lines. by rewrite map_app, concat_app. Qed.

Lemma text_char_spec x : text_char x = true -> x <> 0 /\ x <> CR /\ x <> LF.
Proof. unfold text_char. intros H. zbool. done. Qed.

Lemma name_char_spec x : name_char x = true -> x <> 0 /\ x <> CR /\ x <> LF /\ x <> HCOLON /\ x <> SP /\ x <> HTAB.
Proof. unfold name_char, text_char. intros H. zbool. done. Qed.

Lemma ph_name_char m p :
  ph_st p = H_NAME -> name_char (m (ph_c p)) = true -> parse_headers_char m p = Go p.
Proof.
  unfold parse_headers_char. intros -> (? & H1 & H2 & H3 & H4 & H5)%name_char_spec.
  apply Z.eqb_neq in H1, H2, H3, H4, H5. by rewrite H1, H2, H3, H4, H5.
Qed.

Lemma ph_value_char m p :
  ph_st p = H_VALUE -> text_char (m (ph_c p)) = true -> parse_headers_char m p = Go p.
Proof.
  unfold parse_headers_char. intros -> (? & H1 & H2)%text_char_spec.
  apply Z.eqb_neq in H1, H2. by rewrite H1, H2.
Qed.

Lemma ph_value_first m p :
  ph_st p = H_VALUE_SWS -> text_char (m (ph_c p)) = true -> IS_WSP (m (ph_c p)) = false ->
  parse_headers_char m p = Go (mk_ph (ph_c p) (ph_c p) H_VALUE (ph_saved p) (ph_hdr p) (ph_hdrs p)).
Proof.
  unfold parse_headers_char, IS_WSP. intros -> (? & H1 & H2)%text_char_spec Hw.
  apply Z.eqb_neq in H1, H2. rewrite H1, H2. rewrite (Z.eqb_sym SP), (Z.eqb_sym HTAB) in Hw. by rewrite Hw.
Qed.

(** The line end after a name or a value. *)
Lemma ph_crlf m e p x :
  holds m (ph_c p) CRLF -> ph_c p + 2 <= e -> ph_st p = H_NAME \/ ph_st p = H_VALUE ->
  ph_to m e (mk_ph (ph_c p + 2) (ph_begin p) ST_CRLF (ph_st p) (ph_hdr p) (ph_hdrs p)) x ->
  ph_to m e p x.
Proof.
  intros [Hcr [Hlf _]%holds_cons]%holds_cons He Hs Hx.
  eapply (ph_step _ _ _ (ph_save_eol ST_CR p)); [lia | by rewrite Hcr | |].
  { unfold parse_headers_char. rewrite Hcr. by destruct Hs as [-> | ->]. }
  eapply ph_step; [cbn; lia | cbn; by rewrite Hlf | |].
  { unfold parse_headers_char. cbn [ph_next ph_save_eol ph_c ph_st]. rewrite Hlf. reflexivity. }
  unfold ph_next, ph_set_st, ph_save_eol. cbn [ph_c ph_begin ph_st ph_saved ph_hdr ph_hdrs].
  replace (ph_c p + 1 + 1) with (ph_c p + 2) by lia. exact Hx.
Qed.

(** The state at the beginning of a header, after the headers [hs]. *)
Definition ph_at (a : Z) (hs : list sip_header) (sv : Z) : ph_state := mk_ph a a H_NAME sv sip_header0 hs.

(** The header that a line at [a] is read as. *)
Definition hdr_of (a : Z) (h : list Z * list Z) : sip_header :=
  mk_header (parse_header_type h.1) (mk_cstr a (Z.of_nat (length h.1)))
            (mk_cstr (a + Z.of_nat (length h.1) + 2) (Z.of_nat (length h.2))).

Ltac ph_cbn := cbn [ph_next ph_set_c ph_set_st ph_set_name ph_save_eol ph_at ph_c ph_begin ph_st ph_saved ph_hdr ph_hdrs
  type name value sip_header0].

Lemma ph_line m e a hs sv h x :
  good_hdr h = true -> holds m a (hdr_line h) ->
  let b := a + Z.of_nat (length (hdr_line h)) in
  b < e -> m b <> 0 -> IS_WSP (m b) = false ->
  ph_to m e (ph_at b (hs ++ [hdr_of a h]) H_NAME) x -> ph_to m e (ph_at a hs sv) x.
Proof.
  destruct h as [n v]. intros Hg Hh b Hb Hm Hw Hx.
  assert (Hn' : holds m a n) by (unfold hdr_line in Hh; by apply holds_app in Hh as [Hh _]).
  unfold good_hdr, good_name, hdr_line in *. cbn [fst snd] in *.
  apply andb_true_iff in Hg as [Hn Hv]. apply andb_true_iff in Hn as [_ Hn]. rewrite forallb_forall in Hn.
  destruct v as [|v0 v]; [done|]. cbn [good_value] in Hv. apply andb_true_iff in Hv as [Hw0 Hv].
  apply negb_true_iff in Hw0. rewrite forallb_forall in Hv.
  assert (b = a + Z.of_nat (length n) + 2 + Z.of_nat (S (length v)) + 2) as Eb
    by (unfold b; rewrite !length_app; cbn; lia).
  apply holds_app in Hh as [Hhn Hh]. apply holds_cons in Hh as [Hcol Hh].
  apply holds_cons in Hh as [Hsp Hh]. apply holds_app in Hh as [Hhv Hcrlf].
  apply holds_cons in Hhv as [Hv0 Hhv]. cbn [length] in *. clearbody b.
  apply (ph_run m e _ n); [done | cbn; lia | |].
  { intros y q Hin%list_elem_of_In%Hn Hs <-. split; [by apply name_char_spec | by apply ph_name_char]. }
  ph_cbn. eapply ph_step; [cbn; lia | cbn; by rewrite Hcol | unfold parse_headers_char; ph_cbn; rewrite Hcol; reflexivity |].
  ph_cbn. eapply ph_step; [cbn; lia | cbn; by rewrite Hsp | unfold parse_headers_char; ph_cbn; rewrite Hsp; reflexivity |].
  ph_cbn. eapply ph_step;
    [ph_cbn; lia | ph_cbn; rewrite Hv0; by apply text_char_spec, Hv; left
    | apply ph_value_first; ph_cbn; [done | rewrite Hv0; by apply Hv; left | by rewrite Hv0] |].
  ph_cbn. apply (ph_run m e _ v); [exact Hhv | ph_cbn; lia | |].
  { intros y q Hin Hs <-. assert (text_char (m (ph_c q)) = true) by (apply Hv; right; by apply list_elem_of_In).
    split; [by apply text_char_spec | by apply ph_value_char]. }
  ph_cbn. apply ph_crlf; ph_cbn; [| lia | by right |].
  { by replace (a + Z.of_nat (length n) + 1 + 1 + 1 + Z.of_nat (length v))
      with (a + Z.of_nat (length n) + 1 + 1 + Z.of_nat (S (length v))) by lia. }
  replace (a + Z.of_nat (length n) + 1 + 1 + 1 + Z.of_nat (length v) + 2) with b by lia.
  eapply ph_step; [ph_cbn; lia | done | unfold parse_headers_char; ph_cbn; rewrite Hw; reflexivity |].
  unfold ph_next, ph_reparse, ph_add_header. ph_cbn. replace (b - 1 + 1) with b by lia.
  replace (a + Z.of_nat (length n) - a) with (Z.of_nat (length n)) by lia.
  rewrite (chars_holds _ _ _ Hn').
  unfold hdr_of in Hx. cbn [fst snd] in Hx.
  replace (a + Z.of_nat (length n) + 2) with (a + Z.of_nat (length n) + 1 + 1) in Hx by lia.
  replace (b - eol_len ST_CRLF - (a + Z.of_nat (length n) + 1 + 1)) with (Z.of_nat (S (length v)))
    by (unfold eol_len; cbn; lia). exact Hx.
Qed.

(** The first character of what follows a header line. *)
Lemma next_line_char m a l :
  forallb good_hdr l = true -> holds m a (hdr_lines l ++ CRLF) ->
  m a <> 0 /\ IS_WSP (m a) = false /\ 2 <= Z.of_nat (length (hdr_lines l ++ CRLF)).
Proof.
  destruct l as [|[n v] l]; cbn [forallb].
  - intros _ [-> _]%holds_cons. done.
  - intros [Hg _]%andb_true_iff. unfold good_hdr, good_name in Hg.
    apply andb_true_iff in Hg as [[Hne Hn]%andb_true_iff _]. unfold hdr_lines. cbn [map concat].
    rewrite !length_app, hdr_line_length. cbn [fst snd].
    destruct n as [|x n]; [done|]. intros Hh. unfold hdr_line in Hh. cbn [fst snd app] in Hh.
    apply holds_cons in Hh as [-> _].
    cbn in Hn. apply andb_true_iff in Hn as [(? & ? & ? & ? & H1 & H2)%name_char_spec _].
    splits; [done | | cbn; lia].
    unfold IS_WSP. apply Z.eqb_neq in H1, H2. by rewrite (Z.eqb_sym SP), (Z.eqb_sym HTAB), H1, H2.
Qed.

Fixpoint hdrs_of (a : Z) (l : list (list Z * list Z)) : list sip_header :=
  match l with
  | [] => []
  | h :: l => hdr_of a h :: hdrs_of (a + Z.of_nat (length (hdr_line h))) l
  end.

Lemma ph_lines m e l a hs sv :
  forallb good_hdr l = true -> holds m a (hdr_lines l ++ CRLF) ->
  let b := a + Z.of_nat (length (hdr_lines l ++ CRLF)) in
  b <= e ->
  exists q, ph_to m e (ph_at a hs sv) (q, 0) /\ ph_hdrs q = hs ++ hdrs_of a l /\ ph_c q = b.
Proof.
  revert a hs sv; induction l as [|h l IH]; intros a hs sv Hg Hh b Hb; cbn [hdrs_of].
  - unfold b in *. cbn in Hh, Hb |- *. exists (mk_ph (a + 2) a ST_CRLF H_NAME sip_header0 hs).
    split; [|by rewrite app_nil_r].
    apply ph_crlf; [done | cbn; lia | by left |]. ph_cbn. exists 1%nat. cbn [ph_loop ph_c].
    assert (Hz : (a + 2 - 2 - a =? 0) = true) by (apply Z.eqb_eq; lia).
    destruct (_ && _); [unfold parse_headers_char | unfold parse_headers_end]; ph_cbn;
      unfold eol_len; cbn [Z.eqb Pos.eqb orb H_NAME H_VALUE H_VALUE_SWS H_HCOLON ST_CR ST_LF ST_CRLF]; by rewrite Hz.
  - cbn [forallb] in Hg. apply andb_true_iff in Hg as [Hg Hgl]. unfold b in *. clear b.
    unfold hdr_lines in Hh, Hb |- *. cbn [map concat] in *. rewrite <- app_assoc in Hh, Hb |- *.
    rewrite length_app in Hb |- *. apply holds_app in Hh as [Hh Hl].
    destruct (next_line_char _ _ _ Hgl Hl) as (H0 & Hw & H2). unfold hdr_lines in H2.
    destruct (IH (a + Z.of_nat (length (hdr_line h))) (hs ++ [hdr_of a h]) H_NAME Hgl Hl)
      as (q & Hq & Hhs & Hc); [unfold hdr_lines; lia|].
    exists q. split; [eapply ph_line; try done; lia|]. rewrite Hhs, <- app_assoc. split; [done|].
    rewrite Hc. unfold hdr_lines. lia.
Qed.

(** What a header says: its type, its name and its value. *)
Definition hdr_view (m : mem) (h : sip_header) : hdr_type * list Z * list Z :=
  (type h, chars m (name h), chars m (value h)).

Lemma hdrs_of_view m l a :
  holds m a (hdr_lines l) -> map (hdr_view m) (hdrs_of a l) = map (fun h => (parse_header_type h.1, h.1, h.2)) l.
Proof.
  revert a; induction l as [|h l IH]; intros a Hh; [done|]. unfold hdr_lines in Hh. cbn [map concat] in Hh.
  apply holds_app in Hh as [Hh Hl]. cbn [hdrs_of map]. rewrite (IH _ Hl). f_equal.
  unfold hdr_line in Hh. apply holds_app in Hh as [Hn Hh]. do 2 apply holds_cons in Hh as [_ Hh].
  apply holds_app in Hh as [Hv _]. unfold hdr_view, hdr_of. cbn [type name value].
  replace (a + Z.of_nat (length h.1) + 1 + 1) with (a + Z.of_nat (length h.1) + 2) in Hv by lia.
  by rewrite (chars_holds _ _ _ Hn), (chars_holds _ _ _ Hv).
Qed.

(** ** The types against the names they stand for *)

Definition hdr_names : list (list Z * hdr_type) :=
  [(lit "i", H_CALL_ID); (lit "m", H_CONTACT); (lit "l", H_CONTENT_LENGTH); (lit "c", H_CONTENT_TYPE);
   (lit "f", H_FROM); (lit "t", H_TO); (lit "v", H_VIA);
   (lit "To", H_TO); (lit "Via", H_VIA); (lit "From", H_FROM); (lit "CSeq", H_CSEQ); (lit "RSeq", H_RSEQ);
   (lit "RAck", H_RACK); (lit "Route", H_ROUTE); (lit "Call-ID", H_CALL_ID); (lit "Contact", H_CONTACT);
   (lit "Require", H_REQUIRE); (lit "Content-Type", H_CONTENT_TYPE); (lit "Record-Route", H_RECORD_ROUTE);
   (lit "Max-Forwards", H_MAX_FORWARDS); (lit "Content-Length", H_CONTENT_LENGTH)].

(** The first name in the list that is [n], upper and lower case aside. *)
Fixpoint find_name (l : list (list Z * hdr_type)) (n : list Z) : hdr_type :=
  match l with
  | [] => H_OTHER
  | (x, t) :: l => if lower_cmp_n n x =? 0 then t else find_name l n
  end.

Fixpoint lower_all (l r : list Z) : bool :=
  match l, r with
  | a :: l, b :: r => (LOWER_B a =? LOWER_B b) && lower_all l r
  | _, _ => true
  end.

Lemma lower_cmp_all l r : (lower_cmp l r =? 0) = lower_all l r.
Proof.
  revert r; induction l as [|a l IH]; intros [|b r]; cbn [lower_cmp lower_all]; try done.
  destruct (LOWER_B a =? LOWER_B b); [apply IH|]. by destruct (LOWER_B a <? LOWER_B b).
Qed.

Lemma lower_cmp_n_all l r : (lower_cmp_n l r =? 0) = (Nat.eqb (length l) (length r) && lower_all l r).
Proof.
  unfold lower_cmp_n. destruct (Nat.eqb (length l) (length r)); [apply lower_cmp_all|].
  by destruct (Nat.ltb (length l) (length r)).
Qed.

(** A letter is recognised in both cases. *)
Lemma LOWER_B_letter c x : Z.testbit x 5 = true -> (LOWER_B c =? x) = is_letter c x (x - 32).
Proof.
  intros Hx. unfold LOWER_B, is_letter.
  assert (Hl : Z.lor c 32 = if Z.testbit c 5 then c else c + 32).
  { destruct (Z.testbit c 5) eqn:E.
    - apply Z.bits_inj'. intros n Hn. rewrite Z.lor_spec. change 32 with (2 ^ 5).
      rewrite Z.pow2_bits_eqb by lia. destruct (Z.eqb_spec 5 n) as [<-|]; [by rewrite E | by rewrite orb_false_r].
    - symmetry. rewrite <- Z.lxor_lor, <- Z.add_nocarry_lxor; [done | |];
        apply Z.bits_inj'; intros n Hn; rewrite Z.land_spec, Z.bits_0; change 32 with (2 ^ 5);
        rewrite Z.pow2_bits_eqb by lia; destruct (Z.eqb_spec 5 n) as [<-|]; by rewrite ?E, ?andb_false_r. }
  rewrite Hl. destruct (Z.testbit c 5) eqn:E.
  - destruct (Z.eqb_spec c x) as [?|?]; [done|]. destruct (Z.eqb_spec c (x - 32)) as [Hc|?]; [|done].
    exfalso. rewrite Hc in E. rewrite Z.testbit_true in * by lia. change (2 ^ 5) with 32 in *.
    replace (x - 32) with (x + -1 * 32) in E by lia. rewrite Z.div_add, Zplus_mod, Hx in E by lia. done.
  - destruct (Z.eqb_spec c x) as [Hc|]; [congruence|].
    destruct (Z.eqb_spec (c + 32) x), (Z.eqb_spec c (x - 32)); try done; lia.
Qed.

Lemma is_letter_lower c x y : Z.testbit x 5 = true -> y = x - 32 -> is_letter c x y = (LOWER_B c =? x).
Proof. intros H ->. by rewrite LOWER_B_letter. Qed.

(** The types as tests on lower-case letters, decided one after the other. *)
Ltac type_case :=
  unfold hdr_type_4, hdr_type_7, hdr_type_12, hdr_type_compact, hdr_names, ci_eq;
  cbn [find_name]; rewrite ?lower_cmp_n_all, ?lower_cmp_all;
  cbn -[LOWER_B Z.eqb decide is_letter lit]; rewrite ?is_letter_lower by done;
  repeat match goal with |- context [LOWER_B ?x] => is_var x; generalize (LOWER_B x); intro end;
  cbv -[Z.eqb];
  repeat match goal with
  | |- context [?x =? ?k] => is_var x; destruct (Z.eqb_spec x k); [subst x|]; cbv -[Z.eqb]; cbn [Z.eqb Pos.eqb]
  end; try reflexivity.

(** Header names are recognised as the list [hdr_names] says: upper and lower case are
    the same, the compact forms count, a name of another length or spelling is of type
    [H_OTHER].  (Names of five letters are Route by their last four only, see below.) *)
Theorem header_type_table n :
  (length n = 5%nat -> LOWER_B (nth 0 n 0) = 114) -> parse_header_type n = find_name hdr_names n.
Proof.
  intros H5. unfold parse_header_type. destruct n as [|c0 n]; [done|].
  destruct n as [|c1 n]; [clear H5; type_case|].
  destruct n as [|c2 n]; [clear H5; type_case|].
  destruct n as [|c3 n]; [clear H5; type_case|].
  destruct n as [|c4 n]; [clear H5; type_case|].
  destruct n as [|c5 n].
  { specialize (H5 eq_refl). cbn in H5. revert H5. type_case; intros; subst; done. }
  clear H5. destruct n as [|c6 n]; [type_case|]. destruct n as [|c7 n]; [type_case|].
  destruct n as [|c8 n]; [type_case|]. destruct n as [|c9 n]; [type_case|].
  destruct n as [|c10 n]; [type_case|]. destruct n as [|c11 n]; [type_case|].
  destruct n as [|c12 n]; [type_case|]. destruct n as [|c13 n]; [type_case|].
  destruct n as [|c14 n]; [type_case|].
  unfold hdr_names. cbn [find_name]. rewrite !lower_cmp_n_all. cbn -[LOWER_B]. done.
Qed.

Lemma header_type_table_witness :
  parse_header_type (lit "cOnTeNt-LeNgTh") = find_name hdr_names (lit "cOnTeNt-LeNgTh").
Proof. apply (header_type_table (lit "cOnTeNt-LeNgTh")). discriminate. Defined.

(** The comparison for Route skips the first character: any of the 256 names of five
    characters that end in "oute" is a Route header. *)
Theorem route_by_suffix c : parse_header_type (c :: lit "oute") = H_ROUTE.
Proof. unfold parse_header_type. cbn. done. Qed.
