(* ===== verification/SipParserAsync.v ===== *)
(** * The incremental message scanner

    Model of core/sip/sip_parser_async.{h,cpp}: [skip_sip_msg_async] finds where the
    message that starts at [orig_buf] ends, from whatever has been received so far, and
    resumes where it stopped when more has arrived.  It is what cuts a TCP stream into
    messages ([TcpTrsp]).

    The properties: the loops end; what the scanner finds does not depend on how the
    bytes arrived (stopping at any point and resuming is the same as scanning once); a
    verdict is not changed by what follows; the position of the end for a message as the
    stack writes it. *)

From Stdlib Require Import ZArith Lia Ascii String.
From stdpp Require Import base list.
From S2P Require Import Prelude ParseCommon SipHeader.

Local Open Scope Z_scope.
Local Open Scope bool_scope.

(** ** State *)

Record parser_state := mk_pst {
  orig_buf : Z;
  c : Z;             (* cursor *)
  beg : Z;           (* last marker for field start *)
  stage : Z;
  st : Z;            (* parser state (within stage) *)
  saved_st : Z;
  hdr : sip_header;
  content_len : Z
}.

Definition reset_hdr_parser (p : parser_state) : parser_state :=
  mk_pst (orig_buf p) (c p) (c p) (stage p) 0 0 sip_header0 (content_len p).

(** [parser_state::reset]. *)
Definition reset (buf : Z) : parser_state := mk_pst buf buf buf 0 0 0 sip_header0 0.

Definition get_msg_len (p : parser_state) : Z := c p - orig_buf p + content_len p.

Definition set_c (x : Z) (p : parser_state) : parser_state :=
  mk_pst (orig_buf p) x (beg p) (stage p) (st p) (saved_st p) (hdr p) (content_len p).
Definition set_beg (x : Z) (p : parser_state) : parser_state :=
  mk_pst (orig_buf p) (c p) x (stage p) (st p) (saved_st p) (hdr p) (content_len p).
Definition set_stage (x : Z) (p : parser_state) : parser_state :=
  mk_pst (orig_buf p) (c p) (beg p) x (st p) (saved_st p) (hdr p) (content_len p).
Definition set_st (x : Z) (p : parser_state) : parser_state :=
  mk_pst (orig_buf p) (c p) (beg p) (stage p) x (saved_st p) (hdr p) (content_len p).
Definition set_hdr (x : sip_header) (p : parser_state) : parser_state :=
  mk_pst (orig_buf p) (c p) (beg p) (stage p) (st p) (saved_st p) x (content_len p).
Definition set_content_len (x : Z) (p : parser_state) : parser_state :=
  mk_pst (orig_buf p) (c p) (beg p) (stage p) (st p) (saved_st p) (hdr p) x.

(** [case_CR_LF]: [saved_st = st; st = x]. *)
Definition save_eol (x : Z) (p : parser_state) : parser_state :=
  mk_pst (orig_buf p) (c p) (beg p) (stage p) x (st p) (hdr p) (content_len p).

(** [hdr->name.set(begin,*c-begin)] *)
Definition set_name (p : parser_state) : parser_state :=
  set_hdr (mk_header (type (hdr p)) (mk_cstr (beg p) (c p - beg p)) (value (hdr p))) p.

(** [hdr->value.set(begin,l)] *)
Definition set_value (l : Z) (p : parser_state) : parser_state :=
  set_hdr (mk_header (type (hdr p)) (name (hdr p)) (mk_cstr (beg p) l)) p.

(** ** The loops *)

(** The body of [skip_line_async]'s loop. *)
Definition skip_line_char (m : mem) (p : parser_state) : outcome parser_state :=
  let ch := m (c p) in
  if st p =? 0 then
    if ch =? CR then Go (save_eol ST_CR p)
    else if ch =? LF then Go (save_eol ST_LF p)
    else Go p
  else if st p =? ST_CR then
    if ch =? LF then Go (set_st ST_CRLF p) else Ret p MALFORMED_SIP_MSG
  else if (st p =? ST_LF) || (st p =? ST_CRLF) then Ret p 0
  else Ret p (-99).

(** The body of [parse_header_async]'s loop. *)
Definition parse_header_char (m : mem) (p : parser_state) : outcome parser_state :=
  let ch := m (c p) in
  if st p =? H_NAME then
    if ch =? CR then Go (save_eol ST_CR p)
    else if ch =? LF then Go (save_eol ST_LF p)
    else if ch =? HCOLON then Go (set_name (set_st H_VALUE_SWS p))
    else if (ch =? SP) || (ch =? HTAB) then Go (set_name (set_st H_HCOLON p))
    else Go p
  else if st p =? H_VALUE_SWS then
    if ch =? CR then Go (save_eol ST_CR p)
    else if ch =? LF then Go (save_eol ST_LF p)
    else if (ch =? SP) || (ch =? HTAB) then Go p
    else Go (set_beg (c p) (set_st H_VALUE p))
  else if st p =? H_VALUE then
    if ch =? CR then Go (save_eol ST_CR p)
    else if ch =? LF then Go (save_eol ST_LF p)
    else Go p
  else if st p =? H_HCOLON then
    if ch =? HCOLON then Go (set_st H_VALUE_SWS p)
    else if (ch =? SP) || (ch =? HTAB) then Go p
    else Ret p MALFORMED_SIP_MSG
  else if st p =? ST_CR then
    if ch =? LF then Go (set_st ST_CRLF p) else Ret p MALFORMED_SIP_MSG
  else if (st p =? ST_LF) || (st p =? ST_CRLF) then
    if saved_st p =? H_NAME then
      if (c p - eol_len (st p)) - beg p =? 0 then Ret p 0 else Ret p MALFORMED_SIP_MSG
    else if saved_st p =? H_VALUE_SWS then
      if negb (IS_WSP ch) then Ret p MALFORMED_SIP_MSG else Go (set_st (saved_st p) p)
    else if saved_st p =? H_VALUE then
      if negb (IS_WSP ch) then Ret (set_value ((c p - eol_len (st p)) - beg p) p) 0
      else Go (set_st (saved_st p) p)
    else Go (set_st (saved_st p) p)
  else Go p.

(** [skip_line_async]'s loop, [for(;(c < end) && *c;c++)], with the body [f], over at most
    [n] characters: the state it stops in and the value it returns from inside, if it
    does. *)
Fixpoint scan (f : mem -> parser_state -> outcome parser_state) (n : nat) (m : mem)
    (p : parser_state) : parser_state * option Z :=
  match n with
  | O => (p, None)
  | S n =>
      if m (c p) =? 0 then (p, None)
      else match f m p with
           | Go p' => scan f n m (set_c (c p' + 1) p')
           | Ret p' r => (p', Some r)
           end
  end.

(** [parse_header_async]'s loop, [for(;**c && ( *c < end);( *c)++)]: the character is read
    before the end is tested, so the one behind the data is read too. *)
Fixpoint scan_deref (f : mem -> parser_state -> outcome parser_state) (n : nat) (m : mem)
    (p : parser_state) : parser_state * option Z :=
  if m (c p) =? 0 then (p, None)
  else match n with
       | O => (p, None)
       | S n =>
           match f m p with
           | Go p' => scan_deref f n m (set_c (c p' + 1) p')
           | Ret p' r => (p', Some r)
           end
       end.

(** Characters between the cursor and the end of the data. *)
Definition left_to (e : Z) (p : parser_state) : nat := Z.to_nat (e - c p).

Definition skip_line_async (m : mem) (e : Z) (p : parser_state) : parser_state * Z :=
  match scan skip_line_char (left_to e p) m p with
  | (p, Some r) => (p, r)
  | (p, None) => (p, UNEXPECTED_EOT)
  end.

(** The [switch] after [parse_header_async]'s loop. *)
Definition parse_header_end (p : parser_state) : Z :=
  if (st p =? ST_LF) || (st p =? ST_CRLF) then
    if saved_st p =? H_NAME then
      if (c p - eol_len (st p)) - beg p =? 0 then 0 else MALFORMED_SIP_MSG
    else UNEXPECTED_EOT
  else UNEXPECTED_EOT.

Definition parse_header_async (m : mem) (e : Z) (p : parser_state) : parser_state * Z :=
  match scan_deref parse_header_char (left_to e p) m p with
  | (p, Some r) => (p, r)
  | (p, None) => (p, parse_header_end p)
  end.

(** What [parse_headers_async] does with a complete header: the Content-Length. *)
Definition read_content_len (m : mem) (p : parser_state) : parser_state * Z :=
  let n := name (hdr p) in
  let v := value (hdr p) in
  if negb (len n =? 0) && negb (len v =? 0) then
    let p := set_hdr (mk_header (parse_header_type (chars m n)) n v) p in
    if decide (type (hdr p) = H_CONTENT_LENGTH) then
      let p := set_content_len (default (content_len p) (str2int (chars m v))) p in
      if content_len p <? 0 then (p, MALFORMED_SIP_MSG) else (p, 0)
    else (p, 0)
  else (p, 0).

Definition hdr_empty (p : parser_state) : bool :=
  (len (name (hdr p)) =? 0) && (len (value (hdr p)) =? 0).

(** [parse_headers_async]; [None] is out of fuel. *)
Fixpoint parse_headers_loop (fuel : nat) (m : mem) (e : Z) (p : parser_state)
    : option (parser_state * Z) :=
  match fuel with
  | O => None
  | S fuel =>
      if c p <? e then
        let '(p, err) := parse_header_async m e p in
        if negb (err =? 0) then Some (p, err)
        else
          let '(p, err) := read_content_len m p in
          if negb (err =? 0) then Some (p, err)
          else if hdr_empty p then Some (p, 0)
          else parse_headers_loop fuel m e (reset_hdr_parser p)
      else Some (p, UNEXPECTED_EOT)
  end.

(** A header takes a character, except the one that had only its first look at the next
    line left: two more rounds are enough. *)
Definition parse_headers_async (m : mem) (e : Z) (p : parser_state)
    : option (parser_state * Z) :=
  parse_headers_loop (left_to e p + 2) m e p.

Definition ST_FL : Z := 0.
Definition ST_HDRS : Z := 1.
Definition ST_BODY : Z := 2.

(** [skip_sip_msg_async]; [err] is the local variable of that name. *)
Fixpoint skip_sip_msg_loop (fuel : nat) (m : mem) (e : Z) (err : Z) (p : parser_state)
    : option (parser_state * Z) :=
  match fuel with
  | O => None
  | S fuel =>
      if c p <=? e then
        if stage p =? ST_BODY then
          if content_len p =? 0 then Some (p, 0)
          else if content_len p >? e - c p then Some (p, UNEXPECTED_EOT)
          else Some (p, 0)
        else if negb ((stage p =? ST_FL) || (stage p =? ST_HDRS)) then Some (p, -1)
        else
          match (if stage p =? ST_FL then Some (skip_line_async m e p)
                 else parse_headers_async m e p) with
          | None => None
          | Some (p, err) =>
              if err =? 0 then
                if stage p =? ST_FL then
                  skip_sip_msg_loop fuel m e err (reset_hdr_parser (set_stage ST_HDRS p))
                else if hdr_empty p then
                  skip_sip_msg_loop fuel m e err (set_stage ST_BODY p)
                else skip_sip_msg_loop fuel m e err (reset_hdr_parser p)
              else if (err =? UNEXPECTED_EOT) && (c p <? e) then Some (p, MALFORMED_SIP_MSG)
              else Some (p, err)
          end
      else Some (p, err)
  end.

(** First line, headers, body: three rounds. *)
Definition skip_sip_msg_async (m : mem) (e : Z) (p : parser_state)
    : option (parser_state * Z) :=
  skip_sip_msg_loop 3 m e 0 p.
(** ** What the bodies of the loops have in common *)

(** The two bodies look at the character under the cursor only, leave the cursor to the
    loop, keep what belongs to the message as a whole, and keep their marks between the
    start of the message and the cursor. *)

Definition out {A} (o : outcome A) : A := match o with Go x => x | Ret x _ => x end.

Record same_frame (p q : parser_state) : Prop := {
  sf_orig : orig_buf q = orig_buf p;
  sf_stage : stage q = stage p;
  sf_len : content_len q = content_len p
}.

(** [x] is empty, or lies between [a] and [b]. *)
Definition cstr_in (a b : Z) (x : cstr) : Prop := len x <= 0 \/ a <= s x /\ s x + len x <= b.

Record wf (p : parser_state) : Prop := {
  wf_beg : orig_buf p <= beg p <= c p;
  wf_name : cstr_in (orig_buf p) (c p) (name (hdr p));
  wf_value : cstr_in (orig_buf p) (c p) (value (hdr p))
}.

Class ScanBody (f : mem -> parser_state -> outcome parser_state) := {
  body_cursor m p : c (out (f m p)) = c p;
  body_frame m p : same_frame p (out (f m p));
  body_wf m p : wf p -> wf (out (f m p));
  body_local m m' p : m (c p) = m' (c p) -> f m p = f m' p;
  body_ret m p q r : f m p = Ret q r -> r <> UNEXPECTED_EOT
}.

Ltac body_cases := repeat case_match; cbn; try done.

Lemma cstr_in_mono a b b' x : cstr_in a b x -> b <= b' -> cstr_in a b' x.
Proof. unfold cstr_in; lia. Qed.

Lemma eol_len_pos x : 1 <= eol_len x <= 2.
Proof. unfold eol_len; case_match; lia. Qed.

Lemma wf_st x y p : wf p -> wf (mk_pst (orig_buf p) (c p) (beg p) (stage p) x y (hdr p) (content_len p)).
Proof. intros [? ? ?]; split; cbn; done. Qed.

Lemma wf_set_name p : wf p -> wf (set_name p).
Proof. intros [? ? ?]; split; cbn; try done. right; cbn; lia. Qed.

Lemma wf_set_value l p : wf p -> l <= c p - beg p -> wf (set_value l p).
Proof. intros [? ? ?]; split; cbn; try done. right; cbn; lia. Qed.

Lemma wf_set_beg x p : wf p -> orig_buf p <= x <= c p -> wf (set_beg x p).
Proof. intros [? ? ?] ?; split; cbn; done. Qed.

Lemma wf_next p : wf p -> wf (set_c (c p + 1) p).
Proof. intros [? ? ?]; split; cbn; try (eapply cstr_in_mono; [done|]); lia. Qed.

Lemma wf_reset_hdr p : wf p -> wf (reset_hdr_parser p).
Proof. intros [? ? ?]; split; cbn; unfold cstr_in; cbn; lia. Qed.

Lemma wf_reset a : wf (reset a).
Proof. split; cbn; unfold cstr_in; cbn; lia. Qed.

#[export] Hint Resolve wf_st wf_set_name wf_set_value wf_set_beg wf_next wf_reset_hdr
  wf_reset : sems.

#[export] Instance skip_line_body : ScanBody skip_line_char.
Proof.
  split; intros m p; unfold skip_line_char.
  - body_cases.
  - split; body_cases.
  - intros H. body_cases; unfold save_eol, set_st; auto with sems.
  - by intros q ->.
  - intros r x H. repeat case_match; by simplify_eq.
Qed.

#[export] Instance parse_header_body : ScanBody parse_header_char.
Proof.
  split; intros m p; unfold parse_header_char.
  - body_cases.
  - split; body_cases.
  - intros H. pose proof (eol_len_pos (st p)). destruct H as [Hb Hn Hv] eqn:E; clear E.
    body_cases; unfold save_eol, set_st; try apply wf_set_name; try apply wf_set_beg;
      try apply wf_set_value; unfold set_st; cbn; try lia; auto with sems.
  - by intros q ->.
  - intros r x H. repeat case_match; by simplify_eq.
Qed.

(** ** Scanning *)

Section Scan.
Context (f : mem -> parser_state -> outcome parser_state) `{!ScanBody f}.

(** One step of the loop over a character that lets it go on. *)
Lemma body_go_frame m p q :
  f m p = Go q -> c q = c p /\ same_frame p q /\ (wf p -> wf (set_c (c q + 1) q)).
Proof.
  intros E. pose proof (body_cursor m p) as H1. pose proof (body_frame m p) as H2.
  pose proof (body_wf m p) as H3. rewrite E in *. cbn in *. auto with sems.
Qed.

Lemma scan_frame n m p q o :
  scan f n m p = (q, o) -> same_frame p q /\ c p <= c q <= c p + Z.of_nat n /\ (wf p -> wf q).
Proof.
  revert p; induction n as [|n IH]; intros p H; cbn [scan] in H.
  { simplify_eq. splits; [split; done | lia | lia | done]. }
  case_match. { simplify_eq. splits; [split; done | lia | lia | done]. }
  destruct (f m p) as [p'|p' r] eqn:E.
  - apply body_go_frame in E as (Hc & [? ? ?] & Hw). apply IH in H as ([? ? ?] & Hc' & Hw').
    cbn in *. splits; [split; congruence | lia | lia | auto].
  - simplify_eq. pose proof (body_cursor m p) as H1. pose proof (body_frame m p) as H2.
    pose proof (body_wf m p) as H3. rewrite E in *. cbn in *. splits; [done | lia | lia | done].
Qed.

(** Where the loop stops without returning, the data ends or a NUL stands. *)
Lemma scan_stop n m p q :
  scan f n m p = (q, None) -> c q = c p + Z.of_nat n \/ m (c q) = 0.
Proof.
  revert p; induction n as [|n IH]; intros p H; cbn [scan] in H.
  { simplify_eq. left. lia. }
  case_match; [simplify_eq; right; by zbool|].
  destruct (f m p) as [p'|] eqn:E; [|done].
  apply body_go_frame in E as (Hc & _). apply IH in H as [H|H]; [left; cbn in H; lia | by right].
Qed.

(** Scanning in two goes is scanning once. *)
Lemma scan_app n1 n2 m p :
  scan f (n1 + n2) m p =
  match scan f n1 m p with
  | (q, Some r) => (q, Some r)
  | (q, None) => scan f n2 m q
  end.
Proof.
  revert p; induction n1 as [|n IH]; intros p; cbn [scan Nat.add]; [done|].
  case_match eqn:E; [|by case_match].
  destruct n2; cbn [scan]; [done | by rewrite E].
Qed.

Lemma scan_nul n m p : m (c p) = 0 -> scan f n m p = (p, None).
Proof. intros H. destruct n; cbn [scan]; [done|]. by rewrite H. Qed.

(** Resuming with more data. *)
Lemma scan_resume m e1 e2 p q :
  c p <= e1 <= e2 -> scan f (left_to e1 p) m p = (q, None) ->
  scan f (left_to e2 p) m p = scan f (left_to e2 q) m q.
Proof.
  intros He H. unfold left_to in *.
  replace (Z.to_nat (e2 - c p)) with (Z.to_nat (e1 - c p) + Z.to_nat (e2 - e1))%nat by lia.
  rewrite scan_app, H. apply scan_stop in H as [H|H].
  - f_equal. lia.
  - by rewrite !scan_nul.
Qed.

Lemma scan_at_nul m e1 e2 p q :
  c p <= e1 <= e2 -> scan f (left_to e1 p) m p = (q, None) -> c q < e1 ->
  scan f (left_to e2 q) m q = (q, None).
Proof.
  intros He H Hc. apply scan_stop in H as [H|H]; [unfold left_to in H; lia|].
  by apply scan_nul.
Qed.

(** A return from inside the loop stands, whatever follows. *)
Lemma scan_stable m e1 e2 p q r :
  c p <= e1 <= e2 -> scan f (left_to e1 p) m p = (q, Some r) ->
  scan f (left_to e2 p) m p = (q, Some r).
Proof.
  intros He H. unfold left_to in *.
  replace (Z.to_nat (e2 - c p)) with (Z.to_nat (e1 - c p) + Z.to_nat (e2 - e1))%nat by lia.
  by rewrite scan_app, H.
Qed.

Lemma scan_ext n m m' p :
  (forall i, c p <= i < c p + Z.of_nat n -> m i = m' i) -> scan f n m p = scan f n m' p.
Proof.
  revert p; induction n as [|n IH]; intros p H; cbn [scan]; [done|].
  rewrite <- (H (c p)) by lia. case_match; [done|].
  rewrite <- (body_local m m') by (apply H; lia).
  destruct (f m p) as [p'|] eqn:E; [|done].
  apply body_go_frame in E as (Hc & _). apply IH. cbn. intros i Hi. apply H. lia.
Qed.

End Scan.

Lemma scan_ret f `{!ScanBody f} n m p q r :
  scan f n m p = (q, Some r) -> r <> UNEXPECTED_EOT.
Proof.
  revert p; induction n as [|n IH]; intros p H; cbn [scan] in H; [done|].
  case_match; [done|]. destruct (f m p) as [p'|p' r'] eqn:E; [by eapply IH|].
  simplify_eq. by eapply body_ret.
Qed.

(** ** Resumable scanners *)

(** [F e p]: scanning from state [p] with data up to [e].  When it runs out of data it can
    be resumed with more; when it does not, or stops at a NUL before the end of the data,
    more data changes nothing. *)
Record resumable (F : Z -> parser_state -> parser_state * Z) : Prop := {
  res_eot e1 e2 p q :
    c p <= e1 <= e2 -> F e1 p = (q, UNEXPECTED_EOT) -> F e2 p = F e2 q;
  res_nul e1 e2 p q :
    c p <= e1 <= e2 -> F e1 p = (q, UNEXPECTED_EOT) -> c q < e1 -> F e2 p = (q, UNEXPECTED_EOT);
  res_stable e1 e2 p q r :
    c p <= e1 <= e2 -> F e1 p = (q, r) -> r <> UNEXPECTED_EOT -> F e2 p = (q, r)
}.

Lemma skip_line_resumable m : resumable (skip_line_async m).
Proof.
  split; unfold skip_line_async; intros e1 e2 p q; [| |intros r]; intros He;
    destruct (scan _ (left_to e1 p) m p) as [p' [x|]] eqn:E; intros H; simplify_eq.
  - by destruct (scan_ret _ _ _ _ _ _ E).
  - by rewrite (scan_resume _ _ _ _ _ _ He E).
  - by destruct (scan_ret _ _ _ _ _ _ E).
  - intros Hc. rewrite (scan_resume _ _ _ _ _ _ He E).
    by rewrite (scan_at_nul _ _ _ _ _ _ He E Hc).
  - by rewrite (scan_stable _ _ _ _ _ _ _ He E).
  - done.
Qed.

(** At the blank line that ends the headers the loop returns what the [switch] after it
    would. *)
Lemma parse_header_char_end m p :
  parse_header_end p <> UNEXPECTED_EOT -> parse_header_char m p = Ret p (parse_header_end p).
Proof.
  unfold parse_header_char, parse_header_end. intros Hr.
  destruct ((st p =? ST_LF) || (st p =? ST_CRLF)) eqn:Es; [|done].
  destruct (saved_st p =? H_NAME) eqn:Ev; [|done].
  apply orb_true_iff in Es as [E|E]; apply Z.eqb_eq in E; rewrite E in *; clear Hr; cbn;
    by destruct (_ =? 0).
Qed.

Lemma parse_header_end_scan n m p :
  parse_header_end p <> UNEXPECTED_EOT ->
  (let '(q, o) := scan parse_header_char n m p in (q, default (parse_header_end q) o)) =
  (p, parse_header_end p).
Proof.
  intros Hr. destruct n; cbn [scan]; [done|]. destruct (m (c p) =? 0); [done|].
  by rewrite (parse_header_char_end m p Hr).
Qed.

(** The order of the two tests changes which character is read, not the result. *)
Lemma scan_deref_eq f n m p : scan_deref f n m p = scan f n m p.
Proof.
  revert p; induction n as [|n IH]; intros p; cbn [scan scan_deref];
    destruct (m (c p) =? 0); try done. destruct (f m p); [apply IH | done].
Qed.

(** The positions [scan_deref] reads in its condition. *)
Fixpoint deref_reads (f : mem -> parser_state -> outcome parser_state) (n : nat) (m : mem)
    (p : parser_state) : list Z :=
  c p :: (if m (c p) =? 0 then []
          else match n with
               | O => []
               | S n => match f m p with Go p' => deref_reads f n m (set_c (c p' + 1) p') | Ret _ _ => [] end
               end).

Lemma parse_header_async_eq m e p :
  parse_header_async m e p =
  let '(q, o) := scan parse_header_char (left_to e p) m p in (q, default (parse_header_end q) o).
Proof. unfold parse_header_async. rewrite scan_deref_eq. by destruct (scan _ _ _ _) as [? []]. Qed.

(** The header scanner reads nothing before its cursor and at most the one character behind
    the data, and that one exactly when it has consumed all of the data. *)
Lemma header_reads_bound m e p :
  c p <= e -> Forall (fun i => c p <= i <= e) (deref_reads parse_header_char (left_to e p) m p).
Proof.
  remember (left_to e p) as n eqn:En. revert p En; induction n as [|n IH]; intros p En Hp;
    cbn [deref_reads]; unfold left_to in En; constructor; try lia;
    destruct (m (c p) =? 0); [constructor..|]; try constructor.
  destruct (parse_header_char m p) as [p'|p' r] eqn:E; [|constructor].
  apply body_go_frame in E as (Hc & _); [|apply _]. assert (c p < e) by lia.
  eapply Forall_impl; [apply IH; unfold left_to; cbn; lia|]. cbn. lia.
Qed.

Lemma header_over_read m e p q :
  c p <= e -> scan_deref parse_header_char (left_to e p) m p = (q, None) -> c q = e ->
  e ∈ deref_reads parse_header_char (left_to e p) m p.
Proof.
  remember (left_to e p) as n eqn:En. revert p En; induction n as [|n IH]; intros p En Hp;
    cbn [deref_reads scan_deref]; unfold left_to in En;
    (destruct (m (c p) =? 0); [intros [= <-] <-; left|]); [intros [= <-] <-; left|].
  destruct (parse_header_char m p) as [p'|p' r] eqn:E; [|done].
  apply body_go_frame in E as (Hc & _); [|apply _]. intros H Hq. right.
  apply (IH (set_c (c p' + 1) p')); unfold left_to; cbn; [lia..|done|done].
Qed.

Lemma parse_header_resumable m : resumable (parse_header_async m).
Proof.
  split; intros e1 e2 p q; [| |intros r]; intros He; rewrite !parse_header_async_eq;
    destruct (scan _ (left_to e1 p) m p) as [p' [x|]] eqn:E; cbn [default]; intros H; simplify_eq.
  - by destruct (scan_ret _ _ _ _ _ _ E).
  - by rewrite (scan_resume _ _ _ _ _ _ He E).
  - by destruct (scan_ret _ _ _ _ _ _ E).
  - intros Hc. rewrite (scan_resume _ _ _ _ _ _ He E).
    rewrite (scan_at_nul _ _ _ _ _ _ He E Hc). cbn. congruence.
  - by rewrite (scan_stable _ _ _ _ _ _ _ He E).
  - intros Hr. rewrite (scan_resume _ _ _ _ _ _ He E). by apply parse_header_end_scan.
Qed.

(** ** Frames of the stages *)

(** What a stage leaves in place; the cursor moves forward, up to the end of the data. *)
Record advances (e : Z) (p q : parser_state) : Prop := {
  adv_orig : orig_buf q = orig_buf p;
  adv_stage : stage q = stage p;
  adv_c : c p <= c q <= e;
  adv_wf : wf p -> wf q
}.

Lemma advances_refl e p : c p <= e -> advances e p p.
Proof. split; auto; lia. Qed.

Lemma advances_trans e p q r : advances e p q -> advances e q r -> advances e p r.
Proof. intros [? ? ? ?] [? ? ? ?]; split; auto; [congruence.. | lia]. Qed.

Lemma scan_advances f `{!ScanBody f} e m p q o :
  c p <= e -> scan f (left_to e p) m p = (q, o) -> advances e p q.
Proof.
  intros He H. apply scan_frame in H as ([? ? ?] & ? & ?); [|done].
  unfold left_to in *. split; auto. lia.
Qed.

Lemma skip_line_advances e m p q r :
  c p <= e -> skip_line_async m e p = (q, r) -> advances e p q.
Proof.
  unfold skip_line_async. intros He. destruct (scan _ _ _ _) as [? [|]] eqn:E; intros; simplify_eq;
    exact (scan_advances _ _ _ _ _ _ He E).
Qed.

Lemma parse_header_advances e m p q r :
  c p <= e -> parse_header_async m e p = (q, r) ->
  advances e p q /\ content_len q = content_len p.
Proof.
  intros He. rewrite parse_header_async_eq.
  destruct (scan _ _ _ _) as [q' o] eqn:E; intros; simplify_eq.
  split; [exact (scan_advances _ _ _ _ _ _ He E)|].
  by apply scan_frame in E as ([? ? ?] & _); [|apply _].
Qed.

Lemma reset_hdr_advances e p : c p <= e -> advances e p (reset_hdr_parser p).
Proof. split; cbn; auto with sems; lia. Qed.

Lemma read_content_len_frame m p q r :
  read_content_len m p = (q, r) ->
  c q = c p /\ orig_buf q = orig_buf p /\ stage q = stage p /\ (wf p -> wf q) /\
  hdr_empty q = hdr_empty p /\ st q = st p /\ beg q = beg p.
Proof.
  unfold read_content_len. intros H. repeat case_match; simplify_eq; cbn; splits; try done;
    intros [? ? ?]; split; done.
Qed.

(** A header read from its beginning takes at least a character. *)
Lemma parse_header_progress m e p q :
  st p = 0 -> c p < e -> parse_header_async m e p = (q, 0) -> c p < c q.
Proof.
  intros Hs Hc H. rewrite parse_header_async_eq in H.
  destruct (left_to e p) as [|n] eqn:En; [unfold left_to in En; lia|]. cbn [scan] in H.
  destruct (m (c p) =? 0). { unfold parse_header_end in H. simplify_eq. by rewrite Hs in *. }
  destruct (parse_header_char m p) as [p'|p' r] eqn:E; cbn [default] in H.
  - destruct (scan _ n m _) as [q' o] eqn:E'. simplify_eq.
    apply scan_frame in E' as (_ & Hq & _); [|apply _].
    apply body_go_frame in E as (Hc' & _); [|apply _]. cbn in Hq. lia.
  - unfold parse_header_char in E. rewrite Hs in E. cbn in E. repeat case_match; done.
Qed.

(** ** The header stage *)

(** One round of [parse_headers_async]: a header and its Content-Length. *)
Definition one_header (m : mem) (e : Z) (p : parser_state) : parser_state * Z :=
  let '(p, err) := parse_header_async m e p in
  if negb (err =? 0) then (p, err) else read_content_len m p.

Lemma parse_headers_loop_eq fuel m e p :
  parse_headers_loop (S fuel) m e p =
  if c p <? e then
    let '(q, err) := one_header m e p in
    if negb (err =? 0) then Some (q, err)
    else if hdr_empty q then Some (q, 0)
    else parse_headers_loop fuel m e (reset_hdr_parser q)
  else Some (p, UNEXPECTED_EOT).
Proof.
  cbn [parse_headers_loop]. unfold one_header. destruct (c p <? e); [|done].
  destruct (parse_header_async m e p) as [q err] eqn:E. by destruct (negb (err =? 0)) eqn:E'; [rewrite E'|].
Qed.

Lemma one_header_resumable m : resumable (one_header m).
Proof.
  destruct (parse_header_resumable m) as [Heot Hnul Hstable].
  split; unfold one_header; intros e1 e2 p q; [| |intros r]; intros He;
    destruct (parse_header_async m e1 p) as [p' x] eqn:E; destruct (negb (x =? 0)) eqn:Ex;
    intros H; simplify_eq.
  - by rewrite (Heot _ _ _ _ He E).
  - unfold read_content_len in H. repeat case_match; simplify_eq.
  - intros Hc. by rewrite (Hnul _ _ _ _ He E).
  - unfold read_content_len in H. repeat case_match; simplify_eq.
  - intros Hr. rewrite (Hstable _ _ _ _ _ He E) by done. by rewrite Ex.
  - intros Hr. zbool. subst x. by rewrite (Hstable _ _ _ _ _ He E).
Qed.

Lemma one_header_advances e m p q r :
  c p <= e -> one_header m e p = (q, r) -> advances e p q.
Proof.
  intros He. unfold one_header. destruct (parse_header_async m e p) as [p' x] eqn:E.
  apply parse_header_advances in E as [Ha _]; [|done].
  case_match; intros Hq; simplify_eq; [done|].
  apply read_content_len_frame in Hq as (? & ? & ? & ? & _). eapply advances_trans; [exact Ha|].
  destruct Ha. split; [congruence | congruence | lia | done].
Qed.

Lemma one_header_progress m e p q :
  st p = 0 -> c p < e -> one_header m e p = (q, 0) -> c p < c q.
Proof.
  intros Hs Hc. unfold one_header. destruct (parse_header_async m e p) as [p' x] eqn:E.
  destruct (negb (x =? 0)) eqn:Ex; intros Hq; simplify_eq. zbool. subst x.
  apply read_content_len_frame in Hq as (-> & _). by eapply parse_header_progress.
Qed.

Lemma parse_headers_mono f k m e p x :
  parse_headers_loop f m e p = Some x -> parse_headers_loop (f + k) m e p = Some x.
Proof.
  revert p; induction f as [|f IH]; intros p; [done|].
  rewrite Nat.add_succ_l, !parse_headers_loop_eq. repeat case_match; auto.
Qed.

(** Enough fuel for any state, and one round less at the start of a header. *)
Lemma parse_headers_total f m e p :
  (left_to e p + (if (st p =? 0)%Z then 1 else 2) <= f)%nat ->
  exists q r, parse_headers_loop f m e p = Some (q, r).
Proof.
  revert p; induction f as [|f IH]; intros p Hf; [case_match; lia|].
  rewrite parse_headers_loop_eq. destruct (c p <? e) eqn:Ec; [zbool|by eauto].
  destruct (one_header m e p) as [q r] eqn:E.
  destruct (negb (r =? 0)) eqn:Er; [by eauto|]. destruct (hdr_empty q); [by eauto|].
  zbool. subst r. apply IH. cbn.
  pose proof (one_header_advances e m p q 0 ltac:(lia) E) as [? ? ? ?].
  destruct (st p =? 0) eqn:Es; zbool.
  - pose proof (one_header_progress m e p q Es Ec E). unfold left_to in *; cbn; lia.
  - unfold left_to in *; cbn; lia.
Qed.

Lemma parse_headers_async_total m e p :
  exists q r, parse_headers_async m e p = Some (q, r).
Proof. apply parse_headers_total. case_match; lia. Qed.

Lemma parse_headers_advances f e m p q r :
  c p <= e -> parse_headers_loop f m e p = Some (q, r) ->
  advances e p q /\ (r = 0 -> hdr_empty q = true).
Proof.
  revert p; induction f as [|f IH]; intros p He H; [done|].
  rewrite parse_headers_loop_eq in H. destruct (c p <? e) eqn:Ec.
  2: { simplify_eq. split; [by apply advances_refl | by intros ?]. }
  destruct (one_header m e p) as [p' x] eqn:E. apply one_header_advances in E; [|done].
  case_match eqn:Ex; [simplify_eq; split; [done | by intros ->]|].
  case_match; [by simplify_eq|].
  apply IH in H as [Ha Hr]; [|destruct E; cbn; lia]. split; [|done].
  eapply advances_trans; [exact E|]. eapply advances_trans; [|exact Ha].
  apply reset_hdr_advances. destruct E; lia.
Qed.

Lemma parse_headers_eot m f e1 e2 p q :
  c p <= e1 <= e2 -> parse_headers_loop f m e1 p = Some (q, UNEXPECTED_EOT) ->
  forall f' x, parse_headers_loop f' m e2 q = Some x ->
  parse_headers_loop (f + f') m e2 p = Some x.
Proof.
  destruct (one_header_resumable m) as [Heot Hnul Hstable].
  revert p; induction f as [|f IH]; intros p He H f' x Hx; [done|].
  assert (Hle : c p <= e1) by lia. rewrite parse_headers_loop_eq in H. destruct (c p <? e1) eqn:Ec.
  2: { simplify_eq. rewrite Nat.add_comm. by apply parse_headers_mono. }
  rewrite Nat.add_succ_l, parse_headers_loop_eq. zbool.
  destruct (Z.ltb_spec (c p) e2); [|lia].
  destruct (one_header m e1 p) as [p' r] eqn:E. case_match eqn:Er.
  - simplify_eq. destruct f' as [|f']; [done|]. rewrite parse_headers_loop_eq in Hx.
    destruct (Z.ltb_spec (c q) e2).
    + rewrite (Heot _ _ _ _ He E). destruct (one_header m e2 q) as [q' r'].
      repeat case_match; try done. rewrite Nat.add_comm, Nat.add_succ_l, <- Nat.add_succ_r.
      by apply parse_headers_mono.
    + destruct (one_header_advances _ _ _ _ _ Hle E) as [? ? ? ?].
      assert (e2 = e1) as -> by lia. rewrite E. by simplify_eq.
  - zbool. subst r. rewrite (Hstable _ _ _ _ _ He E) by done. cbn [negb Z.eqb].
    destruct (hdr_empty p'); [by simplify_eq|].
    destruct (one_header_advances _ _ _ _ _ Hle E) as [? ? ? ?].
    eapply IH; [cbn; lia | done | done].
Qed.

Lemma parse_headers_stable m f e1 e2 p q r :
  c p <= e1 <= e2 -> parse_headers_loop f m e1 p = Some (q, r) ->
  r <> UNEXPECTED_EOT \/ c q < e1 -> parse_headers_loop f m e2 p = Some (q, r).
Proof.
  destruct (one_header_resumable m) as [Heot Hnul Hstable].
  revert p; induction f as [|f IH]; intros p He H Hr; [done|].
  assert (Hle : c p <= e1) by lia.
  rewrite parse_headers_loop_eq in H |- *. destruct (Z.ltb_spec (c p) e1) as [Ec|Ec].
  2: { simplify_eq. destruct Hr; [done|lia]. }
  destruct (Z.ltb_spec (c p) e2); [|lia].
  destruct (one_header m e1 p) as [p' x] eqn:E.
  assert (one_header m e2 p = (p', x)) as ->.
  { destruct (decide (x = UNEXPECTED_EOT)) as [->|]; [|by eapply Hstable].
    cbn in H. simplify_eq. destruct Hr; [done|]. by eapply Hnul. }
  destruct (one_header_advances _ _ _ _ _ Hle E) as [? ? ? ?].
  repeat case_match; try done. apply IH; [cbn; lia | done | done].
Qed.

Lemma parse_headers_det f f' m e p x y :
  parse_headers_loop f m e p = Some x -> parse_headers_loop f' m e p = Some y -> x = y.
Proof.
  intros H%(parse_headers_mono _ f') H'%(parse_headers_mono _ f).
  rewrite Nat.add_comm in H'. congruence.
Qed.

Lemma parse_headers_async_eot m e1 e2 p q :
  c p <= e1 <= e2 -> parse_headers_async m e1 p = Some (q, UNEXPECTED_EOT) ->
  parse_headers_async m e2 p = parse_headers_async m e2 q.
Proof.
  intros He H. destruct (parse_headers_async_total m e2 p) as (a & r & Hp).
  destruct (parse_headers_async_total m e2 q) as (b & r' & Hq).
  rewrite Hp, Hq. f_equal. eapply parse_headers_det; [exact Hp|].
  eapply parse_headers_eot; [exact He | exact H | exact Hq].
Qed.

Lemma parse_headers_async_stable m e1 e2 p q r :
  c p <= e1 <= e2 -> parse_headers_async m e1 p = Some (q, r) ->
  r <> UNEXPECTED_EOT \/ c q < e1 -> parse_headers_async m e2 p = Some (q, r).
Proof.
  intros He H Hr. destruct (parse_headers_async_total m e2 p) as (a & r' & Hp). rewrite Hp.
  f_equal. eapply parse_headers_det; [exact Hp|]. by eapply parse_headers_stable.
Qed.

(** ** The whole scanner, stage by stage *)

Definition body_verdict (e : Z) (p : parser_state) : Z :=
  if content_len p =? 0 then 0 else if content_len p >? e - c p then UNEXPECTED_EOT else 0.

(** A stage that stops short of the end of the data has met a NUL. *)
Definition stage_verdict (e : Z) (q : parser_state) (r : Z) : Z :=
  if (r =? UNEXPECTED_EOT) && (c q <? e) then MALFORMED_SIP_MSG else r.

Lemma skip_body n m e err p :
  stage p = ST_BODY -> c p <= e -> skip_sip_msg_loop (S n) m e err p = Some (p, body_verdict e p).
Proof.
  intros Hs Hc. cbn [skip_sip_msg_loop]. destruct (Z.leb_spec (c p) e); [|lia].
  rewrite Hs. cbn. unfold body_verdict. by repeat case_match.
Qed.

Lemma skip_hdrs n m e err p q r :
  stage p = ST_HDRS -> c p <= e -> parse_headers_async m e p = Some (q, r) ->
  skip_sip_msg_loop (S (S n)) m e err p =
  Some (if r =? 0 then (set_stage ST_BODY q, body_verdict e q) else (q, stage_verdict e q r)).
Proof.
  intros Hs Hc H. remember (S n) as k eqn:Ek. cbn [skip_sip_msg_loop].
  destruct (Z.leb_spec (c p) e); [|lia]. rewrite Hs, H. cbn [Z.eqb ST_HDRS ST_BODY ST_FL negb orb].
  apply parse_headers_advances in H as [[? Hst ? ?] Hr]; [|done].
  destruct (Z.eqb_spec r 0) as [->|].
  - rewrite Hst, Hs, Hr by done. cbn [Z.eqb ST_HDRS ST_BODY ST_FL]. subst k. rewrite skip_body; [done | done | cbn; lia].
  - unfold stage_verdict. by destruct ((r =? UNEXPECTED_EOT) && (c q <? e)).
Qed.

Definition next_headers (p : parser_state) : parser_state :=
  reset_hdr_parser (set_stage ST_HDRS p).

Lemma skip_fl n m e err p q r :
  stage p = ST_FL -> c p <= e -> skip_line_async m e p = (q, r) ->
  skip_sip_msg_loop (S n) m e err p =
  if r =? 0 then skip_sip_msg_loop n m e 0 (next_headers q) else Some (q, stage_verdict e q r).
Proof.
  intros Hs Hc H. cbn [skip_sip_msg_loop].
  destruct (Z.leb_spec (c p) e); [|lia]. rewrite Hs, H. cbn [Z.eqb ST_HDRS ST_BODY ST_FL negb orb].
  apply skip_line_advances in H as [? Hst ? ?]; [|done].
  destruct (Z.eqb_spec r 0) as [->|].
  - rewrite Hst, Hs. done.
  - unfold stage_verdict. by destruct ((r =? UNEXPECTED_EOT) && (c q <? e)).
Qed.

(** The scanner from a state in one of its stages. *)
Definition in_stage (p : parser_state) : Prop := stage p = ST_FL \/ stage p = ST_HDRS \/ stage p = ST_BODY.

(** Fuel beyond three rounds is not used, and the headers and the body need two. *)
Lemma skip_hdrs_fuel n k m e err err' p :
  stage p = ST_HDRS \/ stage p = ST_BODY -> c p <= e ->
  skip_sip_msg_loop (S (S n)) m e err p = skip_sip_msg_loop (S (S k)) m e err' p.
Proof.
  intros [Hs|Hs] Hc.
  - destruct (parse_headers_async_total m e p) as (q & r & H).
    by rewrite !(skip_hdrs _ m e _ p q r).
  - by rewrite !skip_body.
Qed.

Lemma stage_verdict_eot e q r :
  stage_verdict e q r = UNEXPECTED_EOT -> r = UNEXPECTED_EOT /\ e <= c q.
Proof.
  unfold stage_verdict. destruct (Z.eqb_spec r UNEXPECTED_EOT); cbn; [|done].
  destruct (Z.ltb_spec (c q) e); [done | auto].
Qed.

(** A verdict reached before the end of the data stands. *)
Lemma stage_verdict_stable e1 e2 q r :
  e1 <= e2 -> stage_verdict e1 q r <> UNEXPECTED_EOT ->
  (r <> UNEXPECTED_EOT \/ c q < e1) /\ stage_verdict e2 q r = stage_verdict e1 q r.
Proof.
  unfold stage_verdict. intros He. destruct (Z.eqb_spec r UNEXPECTED_EOT); cbn; [|auto].
  destruct (Z.ltb_spec (c q) e1); [|done]. destruct (Z.ltb_spec (c q) e2); [auto | lia].
Qed.

Lemma body_verdict_stable e1 e2 p :
  e1 <= e2 -> body_verdict e1 p <> UNEXPECTED_EOT -> body_verdict e2 p = body_verdict e1 p.
Proof.
  unfold body_verdict. intros He H. case_match; [done|].
  destruct (Z.gtb_spec (content_len p) (e1 - c p)); [done|].
  destruct (Z.gtb_spec (content_len p) (e2 - c p)); [lia | done].
Qed.

Section Verdict.
Context (m : mem) (e1 e2 : Z) (He : e1 <= e2).

Lemma skip_hdrs_resume p q :
  stage p = ST_HDRS -> c p <= e1 -> skip_sip_msg_loop 2 m e1 0 p = Some (q, UNEXPECTED_EOT) ->
  skip_sip_msg_loop 2 m e2 0 p = skip_sip_msg_loop 3 m e2 0 q /\ (stage q = ST_HDRS \/ stage q = ST_BODY).
Proof.
  intros Hs Hc. assert (Hc2 : c p <= e2) by lia.
  destruct (parse_headers_async_total m e1 p) as (p' & r & H).
  rewrite (skip_hdrs _ _ _ _ _ _ _ Hs Hc H).
  destruct (parse_headers_advances _ _ _ _ _ _ Hc H) as [[? Hst ? ?] _].
  destruct (Z.eqb_spec r 0) as [->|Hr0]; intros [= <- Hq].
  - apply (parse_headers_async_stable _ _ e2) in H; [|lia | by left].
    rewrite (skip_hdrs _ _ _ _ _ _ _ Hs Hc2 H), skip_body by (cbn; first [done | lia]).
    split; [done | by right].
  - apply stage_verdict_eot in Hq as [-> Hc']. split; [|left; congruence].
    destruct (parse_headers_async_total m e2 p') as (x & y & Hx).
    rewrite (skip_hdrs 1 _ _ _ p' x y) by (first [congruence | lia]).
    rewrite <- (parse_headers_async_eot _ e1) with (p := p) in Hx by (first [done | lia]).
    by rewrite (skip_hdrs _ _ _ _ _ _ _ Hs Hc2 Hx).
Qed.

Lemma skip_hdrs_stable p q r :
  stage p = ST_HDRS -> c p <= e1 -> skip_sip_msg_loop 2 m e1 0 p = Some (q, r) ->
  r <> UNEXPECTED_EOT -> skip_sip_msg_loop 2 m e2 0 p = Some (q, r).
Proof.
  intros Hs Hc. assert (Hc2 : c p <= e2) by lia.
  destruct (parse_headers_async_total m e1 p) as (p' & r' & H).
  rewrite (skip_hdrs _ _ _ _ _ _ _ Hs Hc H).
  destruct (Z.eqb_spec r' 0) as [->|Hr0]; intros [= <- <-] Hr.
  - apply (parse_headers_async_stable _ _ e2) in H; [|lia | by left].
    rewrite (skip_hdrs _ _ _ _ _ _ _ Hs Hc2 H). cbn. by rewrite (body_verdict_stable e1).
  - apply (stage_verdict_stable _ e2) in Hr as [Hr Hv]; [|done].
    apply (parse_headers_async_stable _ _ e2) in H; [|lia | done].
    rewrite (skip_hdrs _ _ _ _ _ _ _ Hs Hc2 H), Hv. by destruct (Z.eqb_spec r' 0).
Qed.

(** Resuming the scanner, in any stage. *)
Lemma skip_sip_msg_resume p q :
  in_stage p -> c p <= e1 -> skip_sip_msg_async m e1 p = Some (q, UNEXPECTED_EOT) ->
  skip_sip_msg_async m e2 p = skip_sip_msg_async m e2 q.
Proof.
  unfold skip_sip_msg_async. intros [Hs|[Hs|Hs]] Hc H.
  - assert (Hc2 : c p <= e2) by lia.
    destruct (skip_line_async m e1 p) as [p' r] eqn:E.
    rewrite (skip_fl _ _ _ _ _ _ _ Hs Hc E) in H.
    destruct (skip_line_advances _ _ _ _ _ Hc E) as [? Hst ? ?].
    destruct (skip_line_resumable m) as [Heot _ Hstable].
    assert (Hle : c p <= e1 <= e2) by lia.
    destruct (Z.eqb r 0) eqn:Hr0.
    + apply Z.eqb_eq in Hr0. subst r.
      rewrite (skip_fl _ _ _ _ _ _ _ Hs Hc2 (Hstable e1 e2 p p' 0 Hle E ltac:(done))).
      cbn [Z.eqb]. by apply skip_hdrs_resume in H as [H _]; [|done | cbn; lia].
    + injection H as <- Hq. apply stage_verdict_eot in Hq as [-> Hc'].
      destruct (skip_line_async m e2 p') as [x y] eqn:Ex.
      rewrite (skip_fl _ _ _ _ p' x y) by (first [congruence | lia]).
      rewrite <- (Heot e1 e2 p p' Hle E) in Ex.
      by rewrite (skip_fl _ _ _ _ p x y).
  - rewrite (skip_hdrs_fuel 1 0 m e1 0 0) in H by auto.
    rewrite (skip_hdrs_fuel 1 0 m e2 0 0) by (auto; lia).
    by apply skip_hdrs_resume in H as [H _].
  - rewrite skip_body in H by done. by injection H as <- _.
Qed.

(** A verdict is final. *)
Lemma skip_sip_msg_stable p q r :
  in_stage p -> c p <= e1 -> skip_sip_msg_async m e1 p = Some (q, r) -> r <> UNEXPECTED_EOT ->
  skip_sip_msg_async m e2 p = Some (q, r).
Proof.
  unfold skip_sip_msg_async. intros [Hs|[Hs|Hs]] Hc H Hr; assert (Hc2 : c p <= e2) by lia.
  - destruct (skip_line_async m e1 p) as [p' x] eqn:E.
    rewrite (skip_fl _ _ _ _ _ _ _ Hs Hc E) in H.
    destruct (skip_line_advances _ _ _ _ _ Hc E) as [? Hst ? ?].
    destruct (skip_line_resumable m) as [_ Hnul Hstable].
    assert (Hle : c p <= e1 <= e2) by lia.
    assert (E' : skip_line_async m e2 p = (p', x)).
    { destruct (Z.eqb_spec x UNEXPECTED_EOT) as [Hx|Hx]; [|by eapply Hstable].
      subst x. cbn in H. injection H as <- <-. apply (stage_verdict_stable _ e2) in Hr as [[Hr|Hr] _]; [by destruct Hr | | done].
      by eapply Hnul. }
    rewrite (skip_fl _ _ _ _ _ _ _ Hs Hc2 E'). destruct (x =? 0) eqn:Hx.
    + by apply skip_hdrs_stable; [|cbn; lia|..].
    + injection H as <- <-. by apply (stage_verdict_stable _ e2) in Hr as [_ ->].
  - rewrite (skip_hdrs_fuel 1 0 m e1 0 0) in H by auto.
    rewrite (skip_hdrs_fuel 1 0 m e2 0 0) by (auto; lia). by apply skip_hdrs_stable.
  - rewrite skip_body in H |- * by done. injection H as <- <-. by rewrite (body_verdict_stable e1).
Qed.

End Verdict.

(** ** Bounds *)

(** The content length is kept non-negative: a negative one ends the scan. *)
Lemma read_content_len_nonneg m p q :
  0 <= content_len p -> read_content_len m p = (q, 0) -> 0 <= content_len q.
Proof. unfold read_content_len. intros Hp H. repeat case_match; simplify_eq; cbn in *; zbool; lia. Qed.

Lemma one_header_nonneg m e p q r :
  c p <= e -> 0 <= content_len p -> one_header m e p = (q, r) -> r <> MALFORMED_SIP_MSG ->
  0 <= content_len q.
Proof.
  intros Hc Hp. unfold one_header. destruct (parse_header_async m e p) as [p1 r1] eqn:E1.
  apply parse_header_advances in E1 as [_ Hl]; [|done]. rewrite <- Hl in Hp.
  destruct (negb (r1 =? 0)); [intros [= <- <-]; done|]. intros H Hr.
  destruct (Z.eqb_spec r 0) as [H0|H0]; [rewrite H0 in H; by eapply read_content_len_nonneg|].
  unfold read_content_len in H. repeat case_match; simplify_eq.
Qed.

Lemma parse_headers_nonneg f m e p q r :
  c p <= e -> 0 <= content_len p -> parse_headers_loop f m e p = Some (q, r) ->
  r <> MALFORMED_SIP_MSG -> 0 <= content_len q.
Proof.
  revert p; induction f as [|f IH]; intros p Hc Hp H Hr; [done|].
  rewrite parse_headers_loop_eq in H. destruct (Z.ltb_spec (c p) e); [|by injection H as <- <-].
  destruct (one_header m e p) as [p' x] eqn:E.
  destruct (one_header_advances _ _ _ _ _ Hc E) as [_ _ Hc' _].
  destruct (negb (x =? 0)) eqn:Ex.
  { injection H as <- <-. by eapply one_header_nonneg. }
  zbool. subst x. pose proof (one_header_nonneg _ _ _ _ _ Hc Hp E ltac:(done)).
  destruct (hdr_empty p'); [by injection H as <- <-|]. eapply IH; [| |exact H|done]; [cbn; lia | done].
Qed.

Lemma skip_line_progress m e p q :
  st p = 0 -> skip_line_async m e p = (q, 0) -> c p < c q.
Proof.
  intros Hs. unfold skip_line_async. destruct (left_to e p) as [|n]; cbn [scan]; [done|].
  destruct (m (c p) =? 0); [done|]. unfold skip_line_char at 1. rewrite Hs. cbn [Z.eqb].
  assert (forall p', c p' = c p -> (let '(q', o) := scan skip_line_char n m (set_c (c p' + 1) p') in
    match o with Some r => (q', r) | None => (q', UNEXPECTED_EOT) end) = (q, 0) -> c p < c q) as Hn.
  { intros p' Hp. destruct (scan _ _ _ _) as [q' o] eqn:E. apply scan_frame in E as (_ & Hc & _); [|apply _].
    cbn in Hc. intros H. assert (q = q') as -> by (by destruct o; simplify_eq). lia. }
  destruct (m (c p) =? CR); [|destruct (m (c p) =? LF)]; intros H;
    [apply (Hn (save_eol ST_CR p)) | apply (Hn (save_eol ST_LF p)) | apply (Hn p)];
    first [reflexivity | exact H].
Qed.

Lemma skip_line_len m e p q r : skip_line_async m e p = (q, r) -> content_len q = content_len p.
Proof.
  unfold skip_line_async. destruct (scan _ _ _ _) as [q' o] eqn:E.
  apply scan_frame in E as ([_ _ <-] & _); [|apply _]. by destruct o; intros; simplify_eq.
Qed.

Section Bounds.
Context (m : mem) (e : Z).

(** Scanning a message from its start: the scanner answers; the cursor stays in the data;
    a message found has its body in the data too, and is not empty. *)
Lemma skip_sip_msg_start a :
  a <= e -> exists q r, skip_sip_msg_async m e (reset a) = Some (q, r) /\
    orig_buf q = a /\ a <= c q <= e /\ in_stage q /\ wf q /\
    (r = 0 -> a < c q /\ 0 <= content_len q <= e - c q).
Proof.
  intros Ha. unfold skip_sip_msg_async.
  destruct (skip_line_async m e (reset a)) as [p r] eqn:E.
  rewrite (skip_fl _ _ _ _ (reset a) p r) by done.
  pose proof E as E'. apply skip_line_advances in E' as [Ho Hst Hc Hw]; [|done]. cbn in Ho, Hst, Hc.
  destruct (Z.eqb_spec r 0) as [Hr|Hr].
  2: { exists p, (stage_verdict e p r). split; [done|]. split; [done|]. split; [lia|].
       split; [by left|]. split; [auto with sems|]. unfold stage_verdict.
       destruct ((r =? UNEXPECTED_EOT) && (c p <? e)); [done | by intros]. }
  subst r. apply skip_line_progress in E as Hp; [|done]. cbn in Hp.
  destruct (parse_headers_async_total m e (next_headers p)) as (q & r & H).
  rewrite (skip_hdrs _ _ _ _ (next_headers p) q r) by (cbn; first [done | lia]).
  pose proof H as H'. apply parse_headers_advances in H' as [[Ho' Hst' Hc' Hw'] _]; [|cbn; lia].
  cbn in Ho', Hst', Hc'.
  assert (wf q) as Hq by (apply Hw', wf_reset_hdr; destruct Hw; auto with sems; by split).
  destruct (Z.eqb_spec r 0) as [Hr|Hr].
  - subst r. exists (set_stage ST_BODY q), (body_verdict e q). split; [done|]. cbn.
    split; [congruence|]. split; [lia|]. split; [by right; right|]. split; [by destruct Hq; split|].
    intros Hv. apply parse_headers_nonneg in H; [|cbn; lia| |done]. 2:{ apply skip_line_len in E. cbn in *. lia. }
    unfold body_verdict in Hv. destruct (Z.eqb_spec (content_len q) 0); [lia|].
    destruct (Z.gtb_spec (content_len q) (e - c q)); [done | lia].
  - exists q, (stage_verdict e q r). split; [done|]. split; [congruence|]. split; [lia|].
    split; [by right; left|]. split; [done|]. unfold stage_verdict.
    destruct ((r =? UNEXPECTED_EOT) && (c q <? e)); [done | by intros].
Qed.
End Bounds.

(** ** Moving the message in the buffer

    [sim d p q]: [q] is [p] with the message moved by [d] characters.  A [cstring] that is
    empty designates nothing, wherever it points. *)

Definition csim (d : Z) (x y : cstr) : Prop := len y = len x /\ (0 < len x -> s y = s x + d).

Record sim (d : Z) (p q : parser_state) : Prop := {
  sim_orig : orig_buf q = orig_buf p + d;
  sim_c : c q = c p + d;
  sim_beg : beg q = beg p + d;
  sim_stage : stage q = stage p;
  sim_st : st q = st p;
  sim_saved : saved_st q = saved_st p;
  sim_len : content_len q = content_len p;
  sim_type : type (hdr q) = type (hdr p);
  sim_name : csim d (name (hdr p)) (name (hdr q));
  sim_value : csim d (value (hdr p)) (value (hdr q))
}.

(** [m] and [m'] hold the same between [a] and [b], [d] characters apart. *)
Definition agree (d a b : Z) (m m' : mem) : Prop := forall i, a <= i < b -> m' (i + d) = m i.

Inductive osim (d : Z) : outcome parser_state -> outcome parser_state -> Prop :=
| osim_go p q : sim d p q -> osim d (Go p) (Go q)
| osim_ret p q r : sim d p q -> osim d (Ret p r) (Ret q r).

Class ScanSim (f : mem -> parser_state -> outcome parser_state) :=
  body_sim d m m' p q : sim d p q -> m' (c q) = m (c p) -> osim d (f m p) (f m' q).

(** The setters keep [sim]. *)
Ltac sim_tac := intros [? ? ? ? ? ? ? ? ? ?]; split; cbn; try congruence; try done.

Lemma sim_st' d p q x : sim d p q -> sim d (set_st x p) (set_st x q).
Proof. sim_tac. Qed.
Lemma sim_save_eol d p q x : sim d p q -> sim d (save_eol x p) (save_eol x q).
Proof. sim_tac. Qed.
Lemma sim_set_name d p q : sim d p q -> sim d (set_name p) (set_name q).
Proof. sim_tac. split; cbn; lia. Qed.
Lemma sim_set_value d p q l : sim d p q -> sim d (set_value l p) (set_value l q).
Proof. sim_tac. Qed.
Lemma sim_mark d p q : sim d p q -> sim d (set_beg (c p) (set_st H_VALUE p)) (set_beg (c q) (set_st H_VALUE q)).
Proof. sim_tac. Qed.
Lemma sim_next d p q : sim d p q -> sim d (set_c (c p + 1) p) (set_c (c q + 1) q).
Proof. sim_tac. lia. Qed.
Lemma sim_reset_hdr d p q : sim d p q -> sim d (reset_hdr_parser p) (reset_hdr_parser q).
Proof. sim_tac. Qed.
Lemma sim_set_stage d p q x : sim d p q -> sim d (set_stage x p) (set_stage x q).
Proof. sim_tac. Qed.
Lemma sim_reset d a : sim d (reset a) (reset (a + d)).
Proof. split; done. Qed.

#[export] Hint Resolve sim_st' sim_save_eol sim_set_name sim_set_value sim_mark sim_next
  sim_reset_hdr sim_set_stage sim_reset : sems.
#[export] Hint Constructors osim : sems.

#[export] Instance skip_line_sim : ScanSim skip_line_char.
Proof.
  intros d m m' p q H E. unfold skip_line_char. rewrite E, (sim_st _ _ _ H).
  repeat case_match; auto with sems.
Qed.

#[export] Instance parse_header_sim : ScanSim parse_header_char.
Proof.
  intros d m m' p q H E. unfold parse_header_char.
  rewrite E, (sim_st _ _ _ H), (sim_saved _ _ _ H).
  replace (c q - eol_len (st p) - beg q) with (c p - eol_len (st p) - beg p)
    by (rewrite (sim_c _ _ _ H), (sim_beg _ _ _ H); lia).
  repeat case_match; auto with sems.
Qed.

Lemma agree_sub d a b a' b' m m' : agree d a b m m' -> a <= a' -> b' <= b -> agree d a' b' m m'.
Proof. intros H ? ? i Hi. apply H. lia. Qed.

Lemma scan_sim f `{!ScanBody f, !ScanSim f} d m m' n p q a o :
  sim d p q -> agree d (c p) (c p + Z.of_nat n) m m' -> scan f n m p = (a, o) ->
  exists b, scan f n m' q = (b, o) /\ sim d a b.
Proof.
  revert p q; induction n as [|n IH]; intros p q H Ha Hs; cbn [scan] in *; [simplify_eq; eauto|].
  assert (E : m' (c q) = m (c p)) by (rewrite (sim_c _ _ _ H); apply Ha; lia).
  rewrite E. destruct (m (c p) =? 0); [simplify_eq; eauto|].
  pose proof (body_sim d m m' p q H E) as Ho. destruct (f m p) as [p'|p' r] eqn:Ep; inversion Ho; subst.
  - apply body_go_frame in Ep as (Hc & _); [|done].
    eapply IH; [eauto with sems | | done]. eapply agree_sub; [done | cbn; lia..].
  - simplify_eq. eauto.
Qed.

Lemma left_to_sim d e p q : sim d p q -> left_to (e + d) q = left_to e p.
Proof. intros H. unfold left_to. rewrite (sim_c _ _ _ H). f_equal. lia. Qed.

(** Two results of a stage, of the same value and in similar states. *)
Definition rsim (d : Z) (x y : parser_state * Z) : Prop := sim d x.1 y.1 /\ y.2 = x.2.

Section Sim.
Context (d e : Z) (m m' : mem).

Lemma stage_scan_sim f `{!ScanBody f, !ScanSim f} p q :
  sim d p q -> c p <= e -> agree d (c p) e m m' ->
  exists a b o, scan f (left_to e p) m p = (a, o) /\ scan f (left_to (e + d) q) m' q = (b, o) /\ sim d a b.
Proof.
  intros H Hc Ha. destruct (scan f (left_to e p) m p) as [a o] eqn:E.
  assert (Ha' : agree d (c p) (c p + Z.of_nat (left_to e p)) m m')
    by (eapply agree_sub; [exact Ha | lia | unfold left_to; lia]).
  destruct (scan_sim f d m m' _ _ _ _ _ H Ha' E) as (b & Hb & Hab).
  exists a, b, o. by rewrite (left_to_sim _ _ _ _ H).
Qed.

Lemma skip_line_async_sim p q :
  sim d p q -> c p <= e -> agree d (c p) e m m' ->
  rsim d (skip_line_async m e p) (skip_line_async m' (e + d) q).
Proof.
  intros H Hc Ha. unfold skip_line_async.
  destruct (stage_scan_sim skip_line_char p q H Hc Ha) as (a & b & o & -> & -> & Hab).
  by destruct o.
Qed.

Lemma parse_header_async_sim p q :
  sim d p q -> c p <= e -> agree d (c p) e m m' ->
  rsim d (parse_header_async m e p) (parse_header_async m' (e + d) q).
Proof.
  intros H Hc Ha. rewrite !parse_header_async_eq.
  destruct (stage_scan_sim parse_header_char p q H Hc Ha) as (a & b & o & -> & -> & Hab).
  split; [done|]. destruct o; [done|]. cbn. unfold parse_header_end.
  rewrite (sim_st _ _ _ Hab), (sim_saved _ _ _ Hab), (sim_c _ _ _ Hab), (sim_beg _ _ _ Hab).
  by replace (c a + d - eol_len (st a) - (beg a + d)) with (c a - eol_len (st a) - beg a) by lia.
Qed.

Lemma chars_sim a b x y :
  agree d a b m m' -> cstr_in a b x -> csim d x y -> chars m' y = chars m x.
Proof.
  intros Ha Hx [Hl Hs]. unfold chars. rewrite Hl. destruct (Z.leb_spec (len x) 0).
  - by replace (Z.to_nat (len x)) with 0%nat by lia.
  - destruct Hx as [|Hx]; [lia|]. rewrite Hs by done. apply bytes_shift. intros i Hi.
    replace (s x + d + i) with (s x + i + d) by lia. apply Ha. lia.
Qed.

Lemma read_content_len_sim p q :
  sim d p q -> wf p -> agree d (orig_buf p) (c p) m m' ->
  rsim d (read_content_len m p) (read_content_len m' q).
Proof.
  intros H [_ Hn Hv] Ha. unfold read_content_len.
  rewrite (chars_sim _ _ _ _ Ha Hn (sim_name _ _ _ H)), (chars_sim _ _ _ _ Ha Hv (sim_value _ _ _ H)).
  destruct (sim_name _ _ _ H) as [-> Hns]. destruct (sim_value _ _ _ H) as [-> Hvs].
  destruct H as [? ? ? ? ? ? Hl ? ? ?].
  repeat (case_match; cbn in *; try congruence); split; cbn; try done; split; cbn; try congruence; try done.
Qed.

Lemma one_header_sim p q :
  sim d p q -> wf p -> c p <= e -> agree d (orig_buf p) e m m' ->
  rsim d (one_header m e p) (one_header m' (e + d) q).
Proof.
  intros H Hw Hc Ha. unfold one_header.
  destruct (parse_header_async_sim p q H Hc) as [Hs Hr].
  { eapply agree_sub; [exact Ha | destruct Hw; lia | lia]. }
  destruct (parse_header_async m e p) as [p' r] eqn:E.
  destruct (parse_header_async m' (e + d) q) as [q' r']. cbn in Hs, Hr. subst r'.
  destruct (negb (r =? 0)); [by split|].
  apply parse_header_advances in E as [[Ho _ Hc' Hw'] _]; [|done].
  apply read_content_len_sim; [done | by apply Hw' |].
  eapply agree_sub; [exact Ha | lia..].
Qed.

Lemma hdr_empty_sim p q : sim d p q -> hdr_empty q = hdr_empty p.
Proof.
  intros H. unfold hdr_empty. by destruct (sim_name _ _ _ H) as [-> _], (sim_value _ _ _ H) as [-> _].
Qed.

Lemma parse_headers_sim f p q a r :
  sim d p q -> wf p -> c p <= e -> agree d (orig_buf p) e m m' ->
  parse_headers_loop f m e p = Some (a, r) ->
  exists b, parse_headers_loop f m' (e + d) q = Some (b, r) /\ sim d a b.
Proof.
  revert p q; induction f as [|f IH]; intros p q H Hw Hc Ha Hs; [done|].
  rewrite parse_headers_loop_eq in Hs |- *.
  replace (c q <? e + d) with (c p <? e)
    by (rewrite (sim_c _ _ _ H); destruct (Z.ltb_spec (c p) e), (Z.ltb_spec (c p + d) (e + d)); first [done | lia]).
  destruct (c p <? e); [|simplify_eq; eauto].
  destruct (one_header_sim p q H Hw Hc Ha) as [Hs' Hr'].
  destruct (one_header m e p) as [p' x] eqn:E. destruct (one_header m' (e + d) q) as [q' y].
  cbn in Hs', Hr'. subst y. rewrite (hdr_empty_sim _ _ Hs').
  destruct (one_header_advances _ _ _ _ _ Hc E) as [Ho _ Hc' Hw'].
  destruct (negb (x =? 0)); [simplify_eq; eauto|].
  destruct (hdr_empty p'); [simplify_eq; eauto|].
  apply (IH (reset_hdr_parser p')); cbn; auto with sems; [lia | by rewrite Ho].
Qed.

(** The stage that runs in a round. *)
Definition run_stage (m : mem) (e : Z) (p : parser_state) : option (parser_state * Z) :=
  if stage p =? ST_FL then Some (skip_line_async m e p) else parse_headers_async m e p.

Lemma run_stage_sim p q :
  sim d p q -> wf p -> c p <= e -> agree d (orig_buf p) e m m' ->
  exists p' q' x, run_stage m e p = Some (p', x) /\ run_stage m' (e + d) q = Some (q', x) /\
    sim d p' q' /\ advances e p p'.
Proof.
  intros H Hw Hc Ha. unfold run_stage. rewrite (sim_stage _ _ _ H). destruct (stage p =? ST_FL).
  - destruct (skip_line_async_sim p q H Hc) as [Hs Hx].
    { eapply agree_sub; [exact Ha | destruct Hw; lia | lia]. }
    destruct (skip_line_async m e p) as [p' x] eqn:E. destruct (skip_line_async m' (e + d) q) as [q' y].
    cbn in *. subst y. exists p', q', x. splits; try done. by eapply skip_line_advances.
  - destruct (parse_headers_async_total m e p) as (p' & x & E).
    destruct (parse_headers_sim _ _ _ _ _ H Hw Hc Ha E) as (q' & E' & Hs').
    rewrite <- (left_to_sim _ _ _ _ H) in E'. exists p', q', x. splits; try done.
    by apply parse_headers_advances in E as [? _].
Qed.

Lemma skip_sip_msg_sim n p q err a r :
  sim d p q -> wf p -> c p <= e -> agree d (orig_buf p) e m m' ->
  skip_sip_msg_loop n m e err p = Some (a, r) ->
  exists b, skip_sip_msg_loop n m' (e + d) err q = Some (b, r) /\ sim d a b.
Proof.
  revert p q err; induction n as [|n IH]; intros p q err H Hw Hc Ha Hs; [done|].
  cbn [skip_sip_msg_loop] in Hs |- *.
  destruct (Z.leb_spec (c p) e); [|lia].
  destruct (Z.leb_spec (c q) (e + d)); [|rewrite (sim_c _ _ _ H) in *; lia].
  rewrite (sim_stage _ _ _ H). destruct (stage p =? ST_BODY) eqn:Eb.
  { rewrite (sim_len _ _ _ H), (sim_c _ _ _ H). replace (e + d - (c p + d)) with (e - c p) by lia.
    repeat case_match; simplify_eq; eauto. }
  destruct (negb _); [simplify_eq; eauto|].
  destruct (run_stage_sim p q H Hw Hc Ha) as (p' & q' & x & E1 & E2 & Hs' & [Ho Hst Hc' Hw']).
  unfold run_stage in E1, E2. rewrite (sim_stage _ _ _ H) in E2.
  rewrite E1 in Hs. rewrite E2. clear E1 E2.
  rewrite (sim_stage _ _ _ Hs'), (hdr_empty_sim _ _ Hs').
  replace (c q' <? e + d) with (c p' <? e)
    by (rewrite (sim_c _ _ _ Hs'); destruct (Z.ltb_spec (c p') e), (Z.ltb_spec (c p' + d) (e + d)); first [done | lia]).
  destruct (x =? 0).
  - assert (forall u v, sim d u v -> wf u -> c u = c p' -> orig_buf u = orig_buf p' ->
      skip_sip_msg_loop n m e x u = Some (a, r) -> exists b,
      skip_sip_msg_loop n m' (e + d) x v = Some (b, r) /\ sim d a b) as Hgo.
    { intros u v Huv Hu Hcu Hou Hr. eapply IH; [exact Huv | done | lia | | done]. by rewrite Hou, Ho. }
    assert (forall y, wf (set_stage y p')) by (intros y; destruct (Hw' Hw); by split).
    destruct (stage p' =? ST_FL); [|destruct (hdr_empty p')]; eapply Hgo; try exact Hs; auto with sems.
  - destruct (_ && _); simplify_eq; eauto.
Qed.

End Sim.

(** ** Progress, from any state

    A state that has not advanced is a state before its first character. *)

Record fresh_or_moved (p : parser_state) : Prop := {
  fom_stage : in_stage p;
  fom_len : 0 <= content_len p;
  fom_start : c p = orig_buf p -> stage p = ST_FL /\ st p = 0
}.

Lemma skip_line_moved m e p q r :
  c p <= e -> st p = 0 -> skip_line_async m e p = (q, r) -> stage_verdict e q r <> MALFORMED_SIP_MSG ->
  c p < c q \/ q = p /\ r = UNEXPECTED_EOT.
Proof.
  intros Hc Hs. unfold skip_line_async. destruct (left_to e p) as [|n] eqn:En; cbn [scan]; [intros [= <- <-]; auto|].
  destruct (m (c p) =? 0).
  { intros [= <- <-]. unfold stage_verdict. destruct (Z.ltb_spec (c p) e); [done|]. auto. }
  assert (exists p', skip_line_char m p = Go p' /\ c p' = c p) as (p' & -> & Hc').
  { unfold skip_line_char. rewrite Hs. cbn. repeat case_match; eexists; done. }
  destruct (scan _ _ _ _) as [q' o] eqn:E. apply scan_frame in E as (_ & Hq & _); [|apply _]. cbn in Hq.
  intros H _. left. assert (q' = q) as <- by (by destruct o; simplify_eq). lia.
Qed.

(** What a scan that did not fail tells: [a] is where the message starts. *)
Definition progressed (a e : Z) (q : parser_state) (r : Z) : Prop :=
  0 <= content_len q /\ (r = 0 -> a < c q /\ content_len q <= e - c q) /\
  (r = UNEXPECTED_EOT -> fresh_or_moved q).

Lemma body_verdict_progressed a e q :
  stage q = ST_BODY -> orig_buf q = a -> a < c q -> 0 <= content_len q -> c q <= e ->
  progressed a e q (body_verdict e q).
Proof.
  intros Hs Ho Hc Hl He. split; [done|]. split.
  - unfold body_verdict. destruct (Z.eqb_spec (content_len q) 0); [lia|].
    destruct (Z.gtb_spec (content_len q) (e - c q)); [done | lia].
  - split; [by right; right | done | lia].
Qed.

Lemma skip_hdrs_progress n m e err p q r :
  stage p = ST_HDRS -> orig_buf p < c p -> 0 <= content_len p -> c p <= e ->
  skip_sip_msg_loop (S (S n)) m e err p = Some (q, r) -> r = 0 \/ r = UNEXPECTED_EOT ->
  progressed (orig_buf p) e q r.
Proof.
  intros Hs Ho Hl Hc H Hr. destruct (parse_headers_async_total m e p) as (p' & x & E).
  rewrite (skip_hdrs _ _ _ _ _ _ _ Hs Hc E) in H.
  destruct (parse_headers_advances _ _ _ _ _ _ Hc E) as [[Ho' Hst Hc' _] _].
  destruct (Z.eqb_spec x 0) as [Hx|Hx]; injection H as <- <-.
  - rewrite Hx in E. pose proof (parse_headers_nonneg _ _ _ _ _ _ Hc Hl E ltac:(done)).
    apply (body_verdict_progressed (orig_buf p) e (set_stage ST_BODY p')); cbn; try done; lia.
  - destruct Hr as [Hr|Hr]; [exfalso; unfold stage_verdict in Hr; by destruct (_ && _)|].
    apply stage_verdict_eot in Hr as Hx'. destruct Hx' as [-> Hx'].
    pose proof (parse_headers_nonneg _ _ _ _ _ _ Hc Hl E ltac:(done)). rewrite Hr.
    split; [done|]. split; [done|]. split; [right; left; congruence | done | lia].
Qed.

Lemma skip_sip_msg_progress m e p q r :
  fresh_or_moved p -> orig_buf p <= c p -> c p <= e ->
  skip_sip_msg_async m e p = Some (q, r) -> r = 0 \/ r = UNEXPECTED_EOT ->
  progressed (orig_buf p) e q r.
Proof.
  unfold skip_sip_msg_async. intros [[Hs|[Hs|Hs]] Hl H0] Ho Hc H Hr.
  - destruct (skip_line_async m e p) as [p' x] eqn:E. rewrite (skip_fl _ _ _ _ _ _ _ Hs Hc E) in H.
    destruct (skip_line_advances _ _ _ _ _ Hc E) as [Ho' Hst Hc' _].
    pose proof (skip_line_len _ _ _ _ _ E) as Hl'.
    assert (Hmv : stage_verdict e p' x <> MALFORMED_SIP_MSG ->
                  orig_buf p < c p' \/ p' = p /\ x = UNEXPECTED_EOT).
    { intros Hv. destruct (decide (c p = orig_buf p)) as [Heq|]; [|left; lia].
      destruct (H0 Heq) as [_ Hst0]. rewrite <- Heq. by eapply skip_line_moved. }
    destruct (Z.eqb_spec x 0) as [Hx|Hx].
    + assert (Hv : stage_verdict e p' x <> MALFORMED_SIP_MSG) by (by rewrite Hx).
      destruct (Hmv Hv) as [Hmv'|[_ Hx']]; [|by rewrite Hx in Hx'].
      rewrite <- Ho'. apply (skip_hdrs_progress 0 m e 0 (next_headers p') q r); try done; cbn; lia.
    + injection H as <- <-. destruct Hr as [Hr|Hr]; [exfalso; unfold stage_verdict in Hr; by destruct (_ && _)|].
      rewrite Hr. split; [lia|]. split; [done|]. intros _.
      split; [left; congruence | lia |]. intros Heq.
      assert (Hv : stage_verdict e p' x <> MALFORMED_SIP_MSG) by (by rewrite Hr).
      destruct (Hmv Hv) as [?|[-> _]]; [lia | auto].
  - eapply (skip_hdrs_progress 1); try done. destruct (decide (c p = orig_buf p)) as [Heq|]; [|lia].
    destruct (H0 Heq) as [Hf _]. by rewrite Hs in Hf.
  - rewrite skip_body in H by done. injection H as <- <-. apply body_verdict_progressed; try done.
    destruct (decide (c p = orig_buf p)) as [Heq|]; [|lia]. destruct (H0 Heq) as [Hf _]. by rewrite Hs in Hf.
Qed.

(** ** Pointers stay within the buffer

    Unlike [wf], this does not ask that the name read so far belongs to the message: it
    also holds of a state whose name was left behind when the message was moved. *)

Record bounded (lo hi : Z) (p : parser_state) : Prop := {
  bnd_marks : lo <= orig_buf p <= beg p /\ beg p <= c p;
  bnd_name : cstr_in lo hi (name (hdr p));
  bnd_value : cstr_in lo hi (value (hdr p))
}.

Class ScanBounded (f : mem -> parser_state -> outcome parser_state) :=
  body_bounded lo hi m p : bounded lo hi p -> c p <= hi -> bounded lo hi (out (f m p)).

#[export] Instance skip_line_bounded : ScanBounded skip_line_char.
Proof. intros lo hi m p [? ? ?] Hc. unfold skip_line_char. repeat case_match; by split. Qed.

#[export] Instance parse_header_bounded : ScanBounded parse_header_char.
Proof.
  intros lo hi m p [? ? ?] Hc. unfold parse_header_char. pose proof (eol_len_pos (st p)).
  repeat case_match; split; cbn; unfold cstr_in in *; cbn; lia.
Qed.

Lemma scan_bounded f `{!ScanBody f, !ScanBounded f} lo hi n m p q o :
  bounded lo hi p -> c p + Z.of_nat n <= hi -> scan f n m p = (q, o) -> bounded lo hi q.
Proof.
  revert p; induction n as [|n IH]; intros p Hb Hc H; cbn [scan] in H; [by simplify_eq|].
  destruct (m (c p) =? 0); [by simplify_eq|].
  pose proof (body_bounded lo hi m p Hb ltac:(lia)) as Hb'. pose proof (body_cursor m p) as Hc'.
  destruct (f m p) as [p'|p' r]; cbn in *; [|by simplify_eq].
  eapply IH; [| |exact H]; [|cbn; lia]. destruct Hb' as [? ? ?]. split; cbn; try done. lia.
Qed.

Section Bounded.
Context (lo hi e : Z) (m : mem) (Hhi : e <= hi).

Lemma stage_bounded f `{!ScanBody f, !ScanBounded f} p q o :
  bounded lo hi p -> c p <= e -> scan f (left_to e p) m p = (q, o) -> bounded lo hi q.
Proof. intros Hb Hc. apply scan_bounded; [apply _ | apply _ | done | unfold left_to; lia]. Qed.

Lemma one_header_bounded p q r :
  bounded lo hi p -> c p <= e -> one_header m e p = (q, r) -> bounded lo hi q.
Proof.
  intros Hb Hc. unfold one_header. rewrite parse_header_async_eq.
  destruct (scan _ _ _ _) as [p' o] eqn:E. pose proof (stage_bounded _ _ _ _ Hb Hc E) as Hb'.
  destruct (negb _); intros H; [by simplify_eq|]. destruct Hb' as [? ? ?].
  unfold read_content_len in H. repeat case_match; simplify_eq; by split.
Qed.

Lemma parse_headers_bounded f p q r :
  bounded lo hi p -> c p <= e -> parse_headers_loop f m e p = Some (q, r) -> bounded lo hi q.
Proof.
  revert p; induction f as [|f IH]; intros p Hb Hc; [done|]. rewrite parse_headers_loop_eq.
  destruct (c p <? e); [|by intros [= <- <-]]. destruct (one_header m e p) as [p' x] eqn:E.
  pose proof (one_header_bounded _ _ _ Hb Hc E) as Hb'. apply one_header_advances in E as [_ _ Hc' _]; [|done].
  destruct (negb _); [by intros [= <- <-]|]. destruct (hdr_empty p'); [by intros [= <- <-]|].
  apply IH; [|cbn; lia]. destruct Hb' as [? ? ?]. split; cbn; unfold cstr_in; cbn; lia.
Qed.

Lemma skip_sip_msg_bounded n err p q r :
  bounded lo hi p -> c p <= e -> skip_sip_msg_loop n m e err p = Some (q, r) ->
  bounded lo hi q /\ orig_buf q = orig_buf p /\ c p <= c q <= e.
Proof.
  revert err p; induction n as [|n IH]; intros err p Hb Hc; [done|]. cbn [skip_sip_msg_loop].
  destruct (c p <=? e); [|intros [= <- <-]; splits; by first [done | lia]].
  destruct (stage p =? ST_BODY).
  { repeat case_match; intros [= <- <-]; splits; by first [done | lia]. }
  destruct (negb _); [intros [= <- <-]; splits; by first [done | lia]|].
  assert (forall p' x, (if stage p =? ST_FL then Some (skip_line_async m e p) else parse_headers_async m e p)
    = Some (p', x) -> bounded lo hi p' /\ orig_buf p' = orig_buf p /\ c p <= c p' <= e) as Hst.
  { intros p' x. destruct (stage p =? ST_FL).
    - intros [= E]. pose proof (skip_line_advances _ _ _ _ _ Hc E) as [? _ ? _]. split; [|done].
      unfold skip_line_async in E. destruct (scan _ _ _ _) as [p1 o] eqn:E1.
      apply (stage_bounded _ _ _ _ Hb Hc) in E1. by destruct o; simplify_eq.
    - intros E. split; [by eapply parse_headers_bounded|].
      by apply parse_headers_advances in E as [[? _ ? _] _]. }
  destruct (if stage p =? ST_FL then _ else _) as [[p' x]|]; [|done].
  destruct (Hst p' x eq_refl) as (Hb' & Ho & Hc').
  destruct (x =? 0); [|destruct (_ && _); intros [= <- <-]; done].
  assert (forall y, bounded lo hi (set_stage y p')) as Hset by (intros y; destruct Hb'; by split).
  assert (forall u, bounded lo hi u -> bounded lo hi (reset_hdr_parser u)) as Hrst
    by (intros u [? ? ?]; split; cbn; unfold cstr_in; cbn; lia).
  destruct (stage p' =? ST_FL); [|destruct (hdr_empty p')]; intros H; apply IH in H; auto; cbn in *; try lia;
    destruct H as (? & ? & ?); splits; try done; try congruence; lia.
Qed.

End Bounded.

(** ** Messages as they are written *)

(** A run of characters that the body passes over. *)
Lemma scan_run f m e p l :
  holds m (c p) l -> c p + Z.of_nat (length l) <= e ->
  (forall x q, x ∈ l -> st q = st p -> saved_st q = saved_st p -> m (c q) = x -> x <> 0 /\ f m q = Go q) ->
  scan f (left_to e p) m p =
  scan f (left_to e (set_c (c p + Z.of_nat (length l)) p)) m (set_c (c p + Z.of_nat (length l)) p).
Proof.
  revert p; induction l as [|x l IH]; intros p Hh He Hf; cbn [length].
  - rewrite Z.add_0_r. by destruct p.
  - apply holds_cons in Hh as [Hx Hh].
    destruct (Hf x p ltac:(left) eq_refl eq_refl Hx) as [Hx0 Hgo]. cbn [length] in He.
    assert (left_to e p = S (left_to e (set_c (c p + 1) p))) as -> by (unfold left_to; cbn; lia).
    cbn [scan]. rewrite Hx, Hgo. destruct (Z.eqb_spec x 0); [done|].
    rewrite IH; [| exact Hh | cbn; lia | intros; apply Hf; [by right | done..]].
    cbn. by replace (c p + 1 + Z.of_nat (length l)) with (c p + Z.of_nat (S (length l))) by lia.
Qed.

(** One character that the body acts on. *)
Lemma scan_one f `{!ScanBody f} m e p q x :
  m (c p) = x -> x <> 0 -> c p < e -> f m p = Go q ->
  scan f (left_to e p) m p = scan f (left_to e (set_c (c p + 1) q)) m (set_c (c p + 1) q).
Proof.
  intros Hx H0 He Hf. destruct (body_go_frame _ _ _ _ Hf) as [Hc _].
  assert (left_to e p = S (left_to e (set_c (c p + 1) q))) as -> by (unfold left_to; cbn; lia).
  cbn [scan]. rewrite Hx, Hf, Hc. by destruct (Z.eqb_spec x 0).
Qed.

Lemma scan_last f m e p q x r :
  m (c p) = x -> x <> 0 -> c p < e -> f m p = Ret q r ->
  scan f (left_to e p) m p = (q, Some r).
Proof.
  intros Hx H0 He Hf. destruct (left_to e p) as [|n] eqn:E; [unfold left_to in E; lia|].
  cbn [scan]. rewrite Hx, Hf. by destruct (Z.eqb_spec x 0).
Qed.

(** The state in which a header is begun. *)
Definition at_header (o a cl : Z) : parser_state := mk_pst o a a ST_HDRS 0 0 sip_header0 cl.

(** The tests of the loop bodies, decided from what is known of the character. *)
Lemma header_name_char m p :
  st p = H_NAME -> name_char (m (c p)) = true -> parse_header_char m p = Go p.
Proof.
  unfold parse_header_char. intros -> (? & H1 & H2 & H3 & H4 & H5)%name_char_spec.
  apply Z.eqb_neq in H1, H2, H3, H4, H5. by rewrite H1, H2, H3, H4, H5.
Qed.

Lemma header_value_char m p :
  st p = H_VALUE -> text_char (m (c p)) = true -> parse_header_char m p = Go p.
Proof.
  unfold parse_header_char. intros -> (? & H1 & H2)%text_char_spec.
  apply Z.eqb_neq in H1, H2. by rewrite H1, H2.
Qed.

Lemma header_value_first m p :
  st p = H_VALUE_SWS -> text_char (m (c p)) = true -> IS_WSP (m (c p)) = false ->
  parse_header_char m p = Go (set_beg (c p) (set_st H_VALUE p)).
Proof.
  unfold parse_header_char, IS_WSP. intros -> (? & H1 & H2)%text_char_spec Hw.
  apply Z.eqb_neq in H1, H2. rewrite H1, H2. rewrite (Z.eqb_sym SP), (Z.eqb_sym HTAB) in Hw. by rewrite Hw.
Qed.

Lemma header_value_end m p :
  st p = ST_CRLF -> saved_st p = H_VALUE -> IS_WSP (m (c p)) = false ->
  parse_header_char m p = Ret (set_value (c p - 2 - beg p) p) 0.
Proof. unfold parse_header_char. intros -> -> ->. done. Qed.

Ltac pst_cbn :=
  cbn [c set_c set_st set_name set_beg set_value save_eol set_hdr orig_buf beg stage st saved_st hdr content_len
       type name value at_header sip_header0 s len].

(** One step over a character known by [H]. *)
Ltac scan_step H :=
  erewrite scan_one;
    [| apply _ | exact H | done | pst_cbn; lia
     | unfold parse_header_char, skip_line_char; pst_cbn; rewrite H; reflexivity];
  pst_cbn.

(** The line end, after which the loop has the next character to look at. *)
Lemma scan_crlf f `{!ScanBody f} m e p :
  holds m (c p) CRLF -> c p + 2 <= e ->
  (forall q, m (c q) = CR -> st q = st p -> f m q = Go (save_eol ST_CR q)) ->
  (forall q, m (c q) = LF -> st q = ST_CR -> f m q = Go (set_st ST_CRLF q)) ->
  scan f (left_to e p) m p =
  let q := mk_pst (orig_buf p) (c p + 2) (beg p) (stage p) ST_CRLF (st p) (hdr p) (content_len p) in
  scan f (left_to e q) m q.
Proof.
  intros [Hcr [Hlf _]%holds_cons]%holds_cons He H1 H2.
  rewrite (scan_one f m e p (save_eol ST_CR p) CR) by (first [done | lia | auto]).
  rewrite (scan_one f m e _ (set_st ST_CRLF (set_c (c p + 1) (save_eol ST_CR p))) LF);
    [| exact Hlf | done | cbn; lia | by apply H2].
  cbn. by replace (c p + 1 + 1) with (c p + 2) by lia.
Qed.

Lemma scan_header_crlf m e p :
  holds m (c p) CRLF -> c p + 2 <= e -> st p = H_NAME \/ st p = H_VALUE ->
  scan parse_header_char (left_to e p) m p =
  let q := mk_pst (orig_buf p) (c p + 2) (beg p) (stage p) ST_CRLF (st p) (hdr p) (content_len p) in
  scan parse_header_char (left_to e q) m q.
Proof.
  intros Hh He Hs. apply scan_crlf; [apply _ | done | done | |].
  - intros q Hq Hst. unfold parse_header_char. rewrite Hst, Hq. by destruct Hs as [-> | ->].
  - intros q Hq Hst. unfold parse_header_char. by rewrite Hst, Hq.
Qed.

(** A header as it is written, read from its first character. *)
Lemma parse_header_line m e o a cl h :
  good_hdr h = true -> holds m a (hdr_line h) ->
  let b := a + Z.of_nat (length (hdr_line h)) in
  b < e -> m b <> 0 -> IS_WSP (m b) = false ->
  exists sv bg, parse_header_async m e (at_header o a cl) =
    (mk_pst o b bg ST_HDRS ST_CRLF sv
       (mk_header H_UNPARSED (mk_cstr a (Z.of_nat (length h.1)))
                  (mk_cstr (a + Z.of_nat (length h.1) + 2) (Z.of_nat (length h.2)))) cl, 0).
Proof.
  destruct h as [n v]. intros Hg Hh b Hb Hm Hw.
  unfold good_hdr, good_name, hdr_line in *. cbn [fst snd] in *. apply andb_true_iff in Hg as [Hn Hv]. apply andb_true_iff in Hn as [_ Hn].
  rewrite forallb_forall in Hn.
  destruct v as [|v0 v]; [done|]. cbn [good_value] in Hv. apply andb_true_iff in Hv as [Hw0 Hv].
  apply negb_true_iff in Hw0. rewrite forallb_forall in Hv.
  assert (b = a + Z.of_nat (length n) + 2 + Z.of_nat (S (length v)) + 2) as Eb
    by (unfold b; rewrite !length_app; cbn; lia).
  apply holds_app in Hh as [Hhn Hh]. apply holds_cons in Hh as [Hcol Hh].
  apply holds_cons in Hh as [Hsp Hh]. apply holds_app in Hh as [Hhv Hcrlf].
  apply holds_cons in Hhv as [Hv0 Hhv]. cbn [length] in *.
  rewrite parse_header_async_eq. do 2 eexists.
  rewrite (scan_run _ m e _ n); [| done | cbn; lia |].
  2: { intros x q Hin%list_elem_of_In%Hn Hs _ <-. split; [by apply name_char_spec|]. by apply header_name_char. }
  scan_step Hcol. scan_step Hsp.
  erewrite (scan_one _ m e _ _ v0);
    [| exact Hv0 | by apply text_char_spec, Hv; left | pst_cbn; lia
     | apply header_value_first; [done | pst_cbn; rewrite Hv0; by apply Hv; left | pst_cbn; by rewrite Hv0]].
  pst_cbn. rewrite (scan_run _ m e _ v); [| exact Hhv | pst_cbn; lia |].
  2: { intros x q Hin Hs _ <-. assert (text_char (m (c q)) = true) by (apply Hv; right; by apply list_elem_of_In).
       split; [by apply text_char_spec|]. by apply header_value_char. }
  pst_cbn. rewrite scan_header_crlf; [| pst_cbn | pst_cbn; lia | by right].
  2: { by replace (a + Z.of_nat (length n) + 1 + 1 + 1 + Z.of_nat (length v))
         with (a + Z.of_nat (length n) + 1 + 1 + Z.of_nat (S (length v))) by lia. }
  pst_cbn. replace (a + Z.of_nat (length n) + 1 + 1 + 1 + Z.of_nat (length v) + 2) with b by lia.
  erewrite (scan_last _ m e _ _ (m b) 0); [| done | done | done | by apply header_value_end].
  pst_cbn. cbn [default]. unfold set_value, set_hdr. pst_cbn.
  replace (a + Z.of_nat (length n) - a) with (Z.of_nat (length n)) by lia.
  replace (a + Z.of_nat (length n) + 1 + 1) with (a + Z.of_nat (length n) + 2) by lia.
  replace (b - 2 - (a + Z.of_nat (length n) + 2)) with (Z.of_nat (S (length v))) by lia.
  reflexivity.
Qed.

(** The blank line that ends the headers needs no character after it. *)
Lemma parse_header_blank m e o a cl :
  holds m a CRLF -> a + 2 <= e ->
  parse_header_async m e (at_header o a cl) =
  (mk_pst o (a + 2) a ST_HDRS ST_CRLF H_NAME sip_header0 cl, 0).
Proof.
  intros Hh He. rewrite parse_header_async_eq, scan_header_crlf by (first [done | by left]).
  cbn zeta. pst_cbn. rewrite parse_header_end_scan; unfold parse_header_end; pst_cbn; cbn [Z.eqb orb eol_len ST_LF ST_CRLF H_NAME Pos.eqb];
    by replace (a + 2 - 2 - a) with 0 by lia.
Qed.

(** The Content-Length that a list of headers declares, [cl] being what was known before:
    the last one that is a number counts, and a negative one is refused. *)
Fixpoint declared_length (cl : Z) (l : list (list Z * list Z)) : option Z :=
  match l with
  | [] => Some cl
  | h :: l =>
      let cl' := if decide (parse_header_type h.1 = H_CONTENT_LENGTH)
                 then default cl (str2int h.2) else cl in
      if cl' <? 0 then None else declared_length cl' l
  end.

Lemma read_content_len_line m p a h :
  good_hdr h = true -> holds m a (hdr_line h) ->
  hdr p = mk_header H_UNPARSED (mk_cstr a (Z.of_nat (length h.1)))
                    (mk_cstr (a + Z.of_nat (length h.1) + 2) (Z.of_nat (length h.2))) ->
  let cl' := if decide (parse_header_type h.1 = H_CONTENT_LENGTH)
             then default (content_len p) (str2int h.2) else content_len p in
  0 <= content_len p -> 0 <= cl' ->
  exists q, read_content_len m p = (q, 0) /\ hdr_empty q = false /\
    reset_hdr_parser q = mk_pst (orig_buf p) (c p) (c p) (stage p) 0 0 sip_header0 cl'.
Proof.
  intros Hg Hh Hp cl' Hcl Hcl'. unfold hdr_line in Hh.
  apply holds_app in Hh as [Hn Hh]. do 2 apply holds_cons in Hh as [_ Hh]. apply holds_app in Hh as [Hv _].
  replace (a + Z.of_nat (length h.1) + 1 + 1) with (a + Z.of_nat (length h.1) + 2) in Hv by lia.
  unfold read_content_len. rewrite Hp. cbn [name value len s].
  rewrite (chars_holds _ _ _ Hn), (chars_holds _ _ _ Hv).
  unfold good_hdr, good_name in Hg. destruct h as [n v]; cbn [fst snd] in *.
  destruct n as [|n0 n]; [done|]. destruct v as [|v0 v]; [by rewrite andb_false_r in Hg|].
  destruct (Z.eqb_spec (Z.of_nat (length (n0 :: n))) 0); [done|].
  destruct (Z.eqb_spec (Z.of_nat (length (v0 :: v))) 0); [done|]. cbn [negb andb type hdr set_hdr].
  unfold cl' in *. destruct (decide _).
  - pst_cbn. cbn [set_content_len content_len]. destruct (Z.ltb_spec (default (content_len p) (str2int (v0 :: v))) 0); [lia|].
    eexists. split; [done|]. done.
  - eexists. split; [done|]. done.
Qed.

Lemma parse_headers_lines m e o l f a cl n :
  forallb good_hdr l = true -> holds m a (hdr_lines l ++ CRLF) ->
  0 <= cl -> declared_length cl l = Some n ->
  a + Z.of_nat (length (hdr_lines l ++ CRLF)) <= e -> (length l < f)%nat ->
  exists q, parse_headers_loop f m e (at_header o a cl) = Some (q, 0) /\ orig_buf q = o /\
    c q = a + Z.of_nat (length (hdr_lines l ++ CRLF)) /\ content_len q = n.
Proof.
  revert f a cl; induction l as [|h l IH]; intros f a cl Hg Hh Hcl Hd He Hf;
    destruct f as [|f]; try (cbn in Hf; lia); rewrite parse_headers_loop_eq; unfold one_header; pst_cbn.
  - cbn in He, Hd. simplify_eq. destruct (Z.ltb_spec a e); [|lia].
    rewrite parse_header_blank by (first [done | lia]). cbn. eexists. splits; done.
  - cbn [forallb] in Hg. apply andb_true_iff in Hg as [Hg Hgl].
    unfold hdr_lines in Hh, He |- *. cbn [map concat] in *. rewrite <- app_assoc in Hh, He |- *.
    rewrite length_app in He |- *. apply holds_app in Hh as [Hh Hl].
    destruct (next_line_char _ _ _ Hgl Hl) as (H0 & Hw & H2).
    destruct (Z.ltb_spec a e); [|unfold hdr_lines in H2; lia].
    destruct (parse_header_line m e o a cl h) as (sv & bg & ->); try done.
    { unfold hdr_lines in H2. lia. }
    cbn [negb Z.eqb declared_length length] in *. destruct (_ <? 0) eqn:Ecl in Hd; [done|]. zbool.
    destruct (read_content_len_line m (mk_pst o (a + Z.of_nat (length (hdr_line h))) bg ST_HDRS ST_CRLF sv
       (mk_header H_UNPARSED (mk_cstr a (Z.of_nat (length h.1)))
                  (mk_cstr (a + Z.of_nat (length h.1) + 2) (Z.of_nat (length h.2)))) cl) a h)
      as (q & -> & -> & ->); try done.
    pst_cbn. destruct (IH f (a + Z.of_nat (length (hdr_line h))) _ Hgl Hl Ecl Hd) as (q' & Hq & ? & ? & ?);
      [unfold hdr_lines; lia | lia |].
    exists q'. split; [exact Hq|]. unfold hdr_lines in *. splits; [done | lia | done].
Qed.

(** First line and headers of a message. *)
Definition msg_head (fl : list Z) (l : list (list Z * list Z)) : list Z :=
  fl ++ CRLF ++ hdr_lines l ++ CRLF.

Definition good_head (fl : list Z) (l : list (list Z * list Z)) : bool :=
  forallb text_char fl && forallb good_hdr l.

Lemma skip_line_written m e a fl :
  forallb text_char fl = true -> holds m a (fl ++ CRLF) ->
  let b := a + Z.of_nat (length (fl ++ CRLF)) in
  b < e -> m b <> 0 ->
  skip_line_async m e (reset a) = (mk_pst a b a ST_FL ST_CRLF 0 sip_header0 0, 0).
Proof.
  intros Hg [Hh Hcr]%holds_app b Hb Hm. unfold b in *. rewrite length_app in *. cbn [length CRLF] in *.
  rewrite forallb_forall in Hg. unfold skip_line_async.
  rewrite (scan_run _ m e (reset a) fl); [| done | cbn; lia |].
  2: { intros x q Hin%list_elem_of_In%Hg Hs _ Hx. apply text_char_spec in Hin as (? & H1 & H2).
       split; [done|]. unfold skip_line_char. rewrite Hs, Hx. cbn [reset st Z.eqb].
       apply Z.eqb_neq in H1, H2. by rewrite H1, H2. }
  rewrite scan_crlf; [| apply _ | done | cbn; lia | |].
  2: { intros q Hq Hs. unfold skip_line_char. by rewrite Hs, Hq. }
  2: { intros q Hq Hs. unfold skip_line_char. by rewrite Hs, Hq. }
  cbn zeta. unfold reset, set_c. pst_cbn.
  replace (a + Z.of_nat (length fl) + 2) with (a + Z.of_nat (length fl + 2)) by lia.
  by erewrite (scan_last _ m e _ _ (m (a + Z.of_nat (length fl + 2))) 0).
Qed.

Lemma declared_length_nonneg cl l n : declared_length cl l = Some n -> 0 <= cl -> 0 <= n.
Proof.
  revert cl; induction l as [|h l IH]; intros cl; cbn [declared_length]; [by intros [= ->]|].
  destruct (Z.ltb_spec (if decide (parse_header_type h.1 = H_CONTENT_LENGTH)
    then default cl (str2int h.2) else cl) 0); [done|]. eauto.
Qed.

(** The whole of a written message: where it ends. *)
Lemma skip_written m e a fl l n :
  good_head fl l = true -> holds m a (msg_head fl l) -> declared_length 0 l = Some n ->
  let total := Z.of_nat (length (msg_head fl l)) + n in
  a + total <= e ->
  exists q, skip_sip_msg_async m e (reset a) = Some (q, 0) /\ orig_buf q = a /\
    c q = a + Z.of_nat (length (msg_head fl l)) /\ get_msg_len q = total.
Proof.
  intros [Hfl Hl]%andb_true_iff Hh Hd total He. pose proof (declared_length_nonneg _ _ _ Hd (Z.le_refl 0)) as Hn.
  unfold total, msg_head in *.
  rewrite app_assoc in Hh. apply holds_app in Hh as [Hh1 Hh2].
  destruct (next_line_char _ _ _ Hl Hh2) as (H0 & _ & H2).
  assert (Htot : length (fl ++ CRLF ++ hdr_lines l ++ CRLF) =
                 (length (fl ++ CRLF) + length (hdr_lines l ++ CRLF))%nat)
    by (by rewrite app_assoc, length_app).
  rewrite Htot in He |- *. clear Htot.
  assert (Hlt : a + Z.of_nat (length (fl ++ CRLF)) < e) by lia.
  pose proof (skip_line_written m e a fl Hfl Hh1 Hlt H0) as E.
  unfold skip_sip_msg_async. rewrite (skip_fl _ _ _ _ (reset a) _ _ eq_refl) by (first [exact E | cbn; lia]).
  cbn [Z.eqb]. set (b := a + Z.of_nat (length (fl ++ CRLF))) in *.
  change (next_headers _) with (at_header a b 0).
  destruct (parse_headers_lines m e a l (length l + 1 + (left_to e (at_header a b 0) + 2)) b 0 n)
    as (q & Hq & Ho & Hc & Hcl); try done; try lia.
  destruct (parse_headers_async_total m e (at_header a b 0)) as (q' & r & Hq').
  pose proof (parse_headers_det _ _ _ _ _ _ _ Hq Hq') as [= <- <-].
  rewrite (skip_hdrs _ _ _ _ (at_header a b 0) q 0) by (first [done | cbn; lia]). cbn [Z.eqb].
  exists (set_stage ST_BODY q). unfold get_msg_len. cbn. rewrite Hc, Ho, Hcl.
  splits; [|done | unfold b; lia | unfold b; lia].
  do 2 f_equal. unfold body_verdict. rewrite Hc, Hcl. destruct (Z.eqb_spec n 0); [done|].
  destruct (Z.gtb_spec n (e - (b + Z.of_nat (length (hdr_lines l ++ CRLF))))); [unfold b in *; lia | done].
Qed.

(** ** Properties *)

(** Scanning as the data grows: [es] are the ends of the data, one per arrival. *)
Fixpoint feed (m : mem) (es : list Z) (p : parser_state) : option (parser_state * Z) :=
  match es with
  | [] => Some (p, UNEXPECTED_EOT)
  | e :: es =>
      match skip_sip_msg_async m e p with
      | Some (q, r) => if r =? UNEXPECTED_EOT then feed m es q else Some (q, r)
      | None => None
      end
  end.

(** [es] grows from [a] to [e]. *)
Fixpoint growing (a : Z) (es : list Z) (e : Z) : bool :=
  match es with
  | [] => a =? e
  | x :: es => (a <=? x) && growing x es e
  end.

Lemma growing_le a es e : growing a es e = true -> a <= e.
Proof.
  revert a; induction es as [|x es IH]; intros a; cbn; intros H; [zbool; lia|].
  apply andb_true_iff in H as [H1 H2%IH]. zbool. lia.
Qed.

(** The scanner answers, and keeps its stage and its cursor within the data. *)
Lemma skip_sip_msg_frame m e p :
  in_stage p -> c p <= e ->
  exists q r, skip_sip_msg_async m e p = Some (q, r) /\ in_stage q /\ c q <= e.
Proof.
  assert (Hh : forall p, stage p = ST_HDRS -> c p <= e -> forall n, exists q r,
    skip_sip_msg_loop (S (S n)) m e 0 p = Some (q, r) /\ in_stage q /\ c q <= e).
  { intros p' Hs Hc n. destruct (parse_headers_async_total m e p') as (q & y & Hq).
    rewrite (skip_hdrs _ _ _ _ p' q y) by done.
    apply parse_headers_advances in Hq as [[_ Hst Hc' _] _]; [|done].
    destruct (y =? 0); do 2 eexists; split; [done | | done |]; cbn; split; try lia;
      [by right; right | right; left; congruence]. }
  unfold skip_sip_msg_async. intros [Hs|[Hs|Hs]] Hc; [|by apply Hh|].
  - destruct (skip_line_async m e p) as [p' x] eqn:E. rewrite (skip_fl _ _ _ _ _ _ _ Hs Hc E).
    destruct (skip_line_advances _ _ _ _ _ Hc E) as [_ Hst Hc' _].
    destruct (x =? 0); [apply Hh; [done | cbn; lia]|].
    do 2 eexists. split; [done|]. split; [left; congruence | lia].
  - rewrite skip_body by done. do 2 eexists. split; [done|]. split; [by right; right | done].
Qed.

Lemma feed_skip m es p a e :
  in_stage p -> c p <= a -> es <> [] -> growing a es e = true ->
  feed m es p = skip_sip_msg_async m e p.
Proof.
  revert p a; induction es as [|x es IH]; intros p a Hp Hc Hne Hg; [done|].
  cbn [growing feed] in *. apply andb_true_iff in Hg as [Hx Hg]. zbool.
  pose proof (growing_le _ _ _ Hg) as Hxe. assert (Hcx : c p <= x) by lia.
  destruct (skip_sip_msg_frame m x p Hp Hcx) as (q & r & E & Hq & Hcq). rewrite E.
  destruct (Z.eqb_spec r UNEXPECTED_EOT) as [->|Hr].
  - rewrite (skip_sip_msg_resume m x e Hxe p q) by done.
    destruct es as [|y es]; [|by apply (IH q x)].
    cbn in Hg. zbool. subst e. by rewrite <- (skip_sip_msg_resume m x x Hxe p q).
  - by rewrite (skip_sip_msg_stable m x e Hxe p q r).
Qed.

(** However the bytes of a message arrive, the incremental scanner comes to the same
    state and the same verdict as one scan over all of them: stopping at the end of the
    data at any points and resuming there changes nothing, and the scan always answers. *)
Theorem scan_segmentation m a es e :
  es <> [] -> growing a es e = true ->
  feed m es (reset a) = skip_sip_msg_async m e (reset a) /\
  exists q r, skip_sip_msg_async m e (reset a) = Some (q, r).
Proof.
  intros Hne Hg. split; [apply (feed_skip m es (reset a) a e); [by left | done..]|].
  destruct (skip_sip_msg_start m e a (growing_le _ _ _ Hg)) as (q & r & H & _). eauto.
Qed.

(** A request with a body of three characters. *)
Definition demo_request : list Z :=
  msg_head (lit "INFO sip:a@b SIP/2.0")
    [(lit "Via", lit "SIP/2.0/TCP c"); (lit "l", lit "3")] ++ lit "abc".

Lemma scan_segmentation_witness :
  feed (mem_at 0 demo_request) [1; 20; 21; 21; 30; 46; 53; 54; 56] (reset 0) =
  skip_sip_msg_async (mem_at 0 demo_request) 56 (reset 0) /\
  exists q r, skip_sip_msg_async (mem_at 0 demo_request) 56 (reset 0) = Some (q, r).
Proof. apply (scan_segmentation (mem_at 0 demo_request) 0 [1; 20; 21; 21; 30; 46; 53; 54; 56] 56); done. Defined.

(** A message as it is written (first line, headers "name: value", blank line, body of
    the length its Content-Length declares) is found exactly: as long as a character of
    it is missing the scanner asks for more, and from then on, whatever follows, it
    reports the message complete with its exact length. *)
Theorem framing_exact m e a fl l n :
  good_head fl l = true -> holds m a (msg_head fl l) -> declared_length 0 l = Some n ->
  a <= e ->
  let total := Z.of_nat (length (msg_head fl l)) + n in
  (e < a + total -> exists q, skip_sip_msg_async m e (reset a) = Some (q, UNEXPECTED_EOT)) /\
  (a + total <= e ->
   exists q, skip_sip_msg_async m e (reset a) = Some (q, 0) /\ orig_buf q = a /\ get_msg_len q = total).
Proof.
  intros Hg Hh Hd Ha total. split; intros He.
  - destruct (skip_sip_msg_start m e a Ha) as (q & r & E & Ho & Hc & _ & _ & Hr).
    exists q. rewrite E. do 2 f_equal. destruct (decide (r = UNEXPECTED_EOT)) as [|Hne]; [done|].
    destruct (skip_written m (a + total) a fl l n) as (q' & E' & _ & _ & Hlen); try done.
    assert (Hle : e <= a + total) by lia.
    rewrite (skip_sip_msg_stable m e (a + total) Hle (reset a) q r) in E' by (first [by left | done]).
    simplify_eq. destruct (Hr eq_refl). unfold get_msg_len in Hlen. unfold total in *. lia.
  - destruct (skip_written m e a fl l n) as (q & E & Ho & _ & Hlen); try done. by exists q.
Qed.

Lemma framing_exact_witness :
  let fl := lit "INFO sip:a@b SIP/2.0" in
  let l := [(lit "Via", lit "SIP/2.0/TCP c"); (lit "l", lit "3")] in
  let total := Z.of_nat (length (msg_head fl l)) + 3 in
  (40 < 0 + total -> exists q,
     skip_sip_msg_async (mem_at 0 demo_request) 40 (reset 0) = Some (q, UNEXPECTED_EOT)) /\
  (0 + total <= 40 -> exists q, skip_sip_msg_async (mem_at 0 demo_request) 40 (reset 0) = Some (q, 0) /\
     orig_buf q = 0 /\ get_msg_len q = total).
Proof.
  apply (framing_exact (mem_at 0 demo_request) 40 0 (lit "INFO sip:a@b SIP/2.0")
    [(lit "Via", lit "SIP/2.0/TCP c"); (lit "l", lit "3")] 3); [done | | done | done].
  apply (proj1 (proj1 (holds_app _ _ _ _) (holds_mem_at 0 demo_request))).
Defined.
