(* ===== verification/TcpTrsp.v ===== *)
(** * TCP connections: cutting the stream into messages, sending

    Model of [tcp_trsp_socket] (core/sip/tcp_trsp.{h,cpp}): the input buffer with the
    incremental scanner ([SipParserAsync]) that hands complete messages to the transaction
    layer, and the queue of messages to send.  System calls are arguments: what [read],
    [write], [connect] and [getsockopt] returned.  What the socket does to the outside is
    a list of events.

    The properties: the messages handed over are those of the stream, however it was
    segmented, as long as no header name is pending when the buffer is moved; what goes
    wrong when one is; the buffer is not overrun and there is always room to read; queued
    messages leave whole and in order, and each that does not is reported. *)

From Stdlib Require Import ZArith Lia Ascii String.
From stdpp Require Import base list.
From S2P Require Import Prelude ParseCommon SipHeader SipParserAsync.

Local Open Scope Z_scope.
Local Open Scope bool_scope.

Definition MAX_TCP_MSGLEN : Z := 65535.

(** ** State *)

(** [msg_buf]: a message to send and how much of it has been written ([cursor - msg]). *)
Record msg_buf := mk_msg_buf { mb_msg : list Z; mb_cursor : nat }.

Definition bytes_left (b : msg_buf) : nat := length (mb_msg b) - mb_cursor b.

(** What a socket does to the rest of the system. *)
Inductive tcp_event :=
| Received (msg : list Z)          (* trans_layer::received_msg *)
| TransportError (msg : list Z)    (* trans_layer::transport_error *)
| Written (l : list Z)             (* bytes accepted by write() *)
| RemoveConnection                 (* server_worker->remove_connection *)
| SocketClosed                     (* ::close *)
| AddReadEvent
| AddWriteEvent.

Record tcp_sock := mk_tcp {
  closed : bool;
  connected : bool;
  sd : Z;
  pst : parser_state;
  input_buf : mem;       (* position 0 is input_buf[0] *)
  input_len : Z;
  send_q : list msg_buf;
  events : list tcp_event
}.

Definition set_input (p : parser_state) (m : mem) (n : Z) (t : tcp_sock) : tcp_sock :=
  mk_tcp (closed t) (connected t) (sd t) p m n (send_q t) (events t).
Definition set_pst (p : parser_state) (t : tcp_sock) : tcp_sock :=
  set_input p (input_buf t) (input_len t) t.
Definition set_send_q (q : list msg_buf) (t : tcp_sock) : tcp_sock :=
  mk_tcp (closed t) (connected t) (sd t) (pst t) (input_buf t) (input_len t) q (events t).
Definition set_connected (x : bool) (t : tcp_sock) : tcp_sock :=
  mk_tcp (closed t) x (sd t) (pst t) (input_buf t) (input_len t) (send_q t) (events t).
Definition set_sd (x : Z) (t : tcp_sock) : tcp_sock :=
  mk_tcp (closed t) (connected t) x (pst t) (input_buf t) (input_len t) (send_q t) (events t).
Definition emit (l : list tcp_event) (t : tcp_sock) : tcp_sock :=
  mk_tcp (closed t) (connected t) (sd t) (pst t) (input_buf t) (input_len t) (send_q t)
         (events t ++ l).

(** The constructor; the buffer is not initialised. *)
Definition new_tcp_sock (sd : Z) (m : mem) : tcp_sock := mk_tcp false false sd (reset 0) m 0 [] [].

(** [create_connected], for a descriptor that is not negative: accepted connections. *)
Definition create_connected (sd : Z) (m : mem) : tcp_sock :=
  emit [AddReadEvent] (set_connected true (new_tcp_sock sd m)).

(** ** Closing *)

(** [generate_transport_errors] and [close]. *)
Definition generate_transport_errors (t : tcp_sock) : tcp_sock :=
  emit (map (fun b => TransportError (mb_msg b)) (send_q t)) (set_send_q [] t).

Definition close (t : tcp_sock) : tcp_sock :=
  let t := emit [RemoveConnection] t in
  let t := mk_tcp true (connected t) (sd t) (pst t) (input_buf t) (input_len t) (send_q t) (events t) in
  let t := if sd t >? 0 then emit [SocketClosed] (set_sd (-1) t) else t in
  generate_transport_errors t.

(** ** Reading *)

Definition get_input_free_space (t : tcp_sock) : Z :=
  if input_len t >? MAX_TCP_MSGLEN then 0 else MAX_TCP_MSGLEN - input_len t.

(** [memmove(buf,buf+shift,n)] *)
Definition memmove (m : mem) (shift n : Z) : mem :=
  fun i => if (0 <=? i) && (i <? n) then m (i + shift) else m i.

(** The bytes [l] stored from position [a] on. *)
Definition store (m : mem) (a : Z) (l : list Z) : mem :=
  fun i => if (a <=? i) && (i <? a + Z.of_nat (length l)) then nth (Z.to_nat (i - a)) l 0 else m i.

(** The scanner needs more data: the message is moved to the front of the buffer. *)
Definition shift_input (t : tcp_sock) : tcp_sock :=
  let p := pst t in
  let d := orig_buf p in
  set_input (mk_pst 0 (c p - d) (beg p - d) (stage p) (st p) (saved_st p) (hdr p) (content_len p))
            (memmove (input_buf t) d (input_len t - d)) (input_len t - d) t.

(** The scanner returned [err], which is not 0: the input waits for more data, or the
    connection is given up. *)
Definition parse_input_stop (err : Z) (t : tcp_sock) : tcp_sock * Z :=
  let fail := (set_input (reset 0) (input_buf t) 0 t, -1) in
  if err =? UNEXPECTED_EOT then
    if orig_buf (pst t) >? 0 then (shift_input t, 0)
    else if negb (get_input_free_space t =? 0) then (t, 0)
    else fail
  else fail.

(** [parse_input]; [None] is out of fuel, the result is negative on error. *)
Fixpoint parse_input_loop (fuel : nat) (t : tcp_sock) : option (tcp_sock * Z) :=
  match fuel with
  | O => None
  | S fuel =>
      match skip_sip_msg_async (input_buf t) (input_len t) (pst t) with
      | None => None
      | Some (p, err) =>
          let t := set_pst p t in
          if negb (err =? 0) then Some (parse_input_stop err t)
          else
            let msg_len := get_msg_len p in
            let t := emit [Received (bytes (input_buf t) (orig_buf p) (Z.to_nat msg_len))] t in
            let msg_end := orig_buf p + msg_len in
            if msg_end <? input_len t then parse_input_loop fuel (set_pst (reset msg_end) t)
            else Some (set_input (reset 0) (input_buf t) 0 t, 0)
      end
  end.

(** A message takes at least a character. *)
Definition parse_input (t : tcp_sock) : option (tcp_sock * Z) :=
  parse_input_loop (S (Z.to_nat (input_len t))) t.

(** What [read] returned: the bytes, or an error and whether it is [EAGAIN]. *)
Inductive read_result :=
| ReadBytes (l : list Z)     (* [] is the end of the stream *)
| ReadError (again : bool).

Definition on_read (timeout : bool) (r : read_result) (t : tcp_sock) : option tcp_sock :=
  if timeout then Some (close t)
  else
    match r with
    | ReadError again => if again then Some t else Some (close t)
    | ReadBytes [] => Some (close t)
    | ReadBytes l =>
        let t := set_input (pst t) (store (input_buf t) (input_len t) l)
                           (input_len t + Z.of_nat (length l)) t in
        match parse_input t with
        | None => None
        | Some (t, r) => if r <? 0 then Some (close t) else Some t
        end
    end.

(** ** Sending *)

(** What [connect] returned: 0, in progress, or an error. *)
Inductive connect_result := ConnectOk (sd : Z) | ConnectPending (sd : Z) | ConnectFailed.

(** [check_connection]: the result is negative on error. *)
Definition check_connection (r : connect_result) (t : tcp_sock) : tcp_sock * Z :=
  if sd t <? 0 then
    match r with
    | ConnectFailed => (set_sd (-1) t, -1)
    | ConnectPending n => (emit [AddWriteEvent] (set_sd n t), 0)
    | ConnectOk n => (emit [AddReadEvent] (set_connected true (set_sd n t)), 0)
    end
  else (t, 0).

Definition send (r : connect_result) (msg : list Z) (t : tcp_sock) : tcp_sock * Z :=
  if closed t then (t, -1)
  else
    let '(t, e) := check_connection r t in
    if e <? 0 then (t, -1)
    else
      let t := set_send_q (send_q t ++ [mk_msg_buf msg 0]) t in
      (if connected t then emit [AddWriteEvent] t else t, 0).

(** [on_connect]: [ok] is a [getsockopt] that succeeded and found no error. *)
Definition on_connect (timeout ok : bool) (t : tcp_sock) : tcp_sock * Z :=
  if timeout then (close t, -1)
  else if negb ok then (close t, -1)
  else (emit [AddReadEvent] (set_connected true t), 0).

(** What [write] returned: a number of bytes, or an error and whether it is temporary
    ([EINTR], [EAGAIN]). *)
Inductive write_result := Wrote (n : nat) | WriteError (again : bool).

(** The loop of [on_write]; [ws] are the results of the calls to [write], in order.  It
    ends when the queue is empty or [write] did not take everything. *)
Fixpoint on_write_loop (q : list msg_buf) (ws : list write_result) (t : tcp_sock) : tcp_sock :=
  match q with
  | [] => set_send_q [] t
  | b :: q' =>
      if Nat.eqb (bytes_left b) 0 then on_write_loop q' ws t
      else
        match ws with
        | [] => set_send_q q t
        | WriteError again :: _ =>
            if again then emit [AddWriteEvent] (set_send_q q t) else close (set_send_q q t)
        | Wrote n :: ws =>
            let t := emit [Written (take n (drop (mb_cursor b) (mb_msg b)))] t in
            if Nat.ltb n (bytes_left b) then
              emit [AddWriteEvent] (set_send_q (mk_msg_buf (mb_msg b) (mb_cursor b + n) :: q') t)
            else on_write_loop q' ws t
        end
  end.

Definition on_write (timeout ok : bool) (ws : list write_result) (t : tcp_sock) : tcp_sock :=
  if negb (connected t) then
    let '(t, e) := on_connect timeout ok t in
    if negb (e =? 0) then t else on_write_loop (send_q t) ws t
  else on_write_loop (send_q t) ws t.

(** ** The messages of a stream *)

(** The messages handed to the transaction layer. *)
Definition received (l : list tcp_event) : list (list Z) :=
  concat (map (fun e => match e with Received m => [m] | _ => [] end) l).

(** What a stream of bytes holds, scanned message by message in one piece: the complete
    messages, the rest, and whether the rest is the beginning of a message. *)
Fixpoint cut (fuel : nat) (l : list Z) : list (list Z) * list Z * bool :=
  match fuel with
  | O => ([], l, false)
  | S fuel =>
      match skip_sip_msg_async (mem_at 0 l) (Z.of_nat (length l)) (reset 0) with
      | Some (q, r) =>
          if r =? 0 then
            let n := Z.to_nat (get_msg_len q) in
            let '(msgs, rest, ok) := cut fuel (drop n l) in
            (take n l :: msgs, rest, ok)
          else ([], l, r =? UNEXPECTED_EOT)
      | None => ([], l, false)
      end
  end.

Definition messages (l : list Z) : list (list Z) * list Z * bool := cut (S (length l)) l.

(** ** A scanner at rest *)

(** The state [p] is what scanning the data from [a] to [e] leads to, up to where empty
    [cstring]s point. *)
Definition resting (m : mem) (a e : Z) (p : parser_state) : Prop :=
  a <= e /\ exists q, skip_sip_msg_async m e (reset a) = Some (q, UNEXPECTED_EOT) /\ sim 0 q p.

Lemma sim_refl p : sim 0 p p.
Proof. split; try lia; try done; split; [done | lia | done | lia]. Qed.

Lemma sim_trans d d' p q r : sim d p q -> sim d' q r -> sim (d + d') p r.
Proof.
  intros [? ? ? ? ? ? ? ? [? Hn] [? Hv]] [? ? ? ? ? ? ? ? [? Hn'] [? Hv']].
  split; try congruence; try lia; (split; [congruence|]); intros Hpos.
  - rewrite Hn', Hn; lia.
  - rewrite Hv', Hv; lia.
Qed.

Lemma resting_start m a : resting m a a (reset a).
Proof.
  split; [lia|]. exists (reset a). split; [|apply sim_refl].
  unfold skip_sip_msg_async. rewrite (skip_fl _ _ _ _ (reset a) (reset a) UNEXPECTED_EOT); [| done | cbn; lia |].
  - cbn. unfold stage_verdict. cbn. by rewrite Z.ltb_irrefl.
  - unfold skip_line_async, left_to. cbn. by rewrite Z.sub_diag.
Qed.

(** The same data elsewhere, with the state moved along. *)
Lemma resting_move d m m' a e p p' :
  resting m a e p -> agree d a e m m' -> sim d p p' -> resting m' (a + d) (e + d) p'.
Proof.
  intros [He (q & Hq & Hs)] Ha Hp. split; [lia|].
  destruct (skip_sip_msg_sim d e m m' 3 (reset a) (reset (a + d)) 0 q UNEXPECTED_EOT)
    as (b & Hb & Hsb); [apply sim_reset | apply wf_reset | done | done | done |].
  exists b. split; [exact Hb|].
  (* b is q moved by d, p is q, p' is p moved by d *)
  destruct Hs as [? ? ? ? ? ? ? ? [? Hn1] [? Hv1]], Hp as [? ? ? ? ? ? ? ? [? Hn2] [? Hv2]],
    Hsb as [? ? ? ? ? ? ? ? [? Hn3] [? Hv3]].
  split; try lia; try congruence; (split; [congruence|]); intros Hpos.
  - rewrite Hn2, Hn1, Hn3 by lia. lia.
  - rewrite Hv2, Hv1, Hv3 by lia. lia.
Qed.

(** Scanning on from a state at rest is scanning from the start. *)
Lemma resting_go m a e1 e2 p q r :
  resting m a e1 p -> e1 <= e2 -> skip_sip_msg_async m e2 (reset a) = Some (q, r) ->
  exists b, skip_sip_msg_async m e2 p = Some (b, r) /\ sim 0 q b.
Proof.
  intros [Ha (q1 & H1 & Hs)] He Hq.
  destruct (skip_sip_msg_start m e1 a Ha) as (q1' & r1 & E & Ho & Hc & Hst & Hw & _).
  rewrite H1 in E. injection E as <- <-.
  rewrite (skip_sip_msg_resume m e1 e2 He (reset a) q1) in Hq by (first [by left | done]).
  assert (agree 0 (orig_buf q1) e2 m m) as Hag by (intros i _; by rewrite Z.add_0_r).
  assert (Hc2 : c q1 <= e2) by lia.
  pose proof (skip_sip_msg_sim 0 e2 m m 3 q1 p 0 q r Hs Hw Hc2 Hag Hq) as H.
  by rewrite Z.add_0_r in H.
Qed.

(** The scanner on a stretch of the buffer against the scanner on that stretch alone. *)
Lemma skip_at m a l :
  holds m a l -> exists q b r,
    skip_sip_msg_async (mem_at 0 l) (Z.of_nat (length l)) (reset 0) = Some (q, r) /\
    skip_sip_msg_async m (a + Z.of_nat (length l)) (reset a) = Some (b, r) /\ sim a q b /\ orig_buf q = 0 /\
    (r = 0 -> 0 < get_msg_len q <= Z.of_nat (length l)).
Proof.
  intros Hh.
  destruct (skip_sip_msg_start (mem_at 0 l) (Z.of_nat (length l)) 0 ltac:(lia))
    as (q & r & E & Ho & Hc & _ & _ & Hr).
  destruct (skip_sip_msg_sim a (Z.of_nat (length l)) (mem_at 0 l) m 3 (reset 0) (reset (0 + a)) 0 q r)
    as (b & Hb & Hsb); [apply sim_reset | apply wf_reset | cbn; lia | | exact E |].
  - intros i Hi. cbn in Hi.
    pose proof (eq_trans (holds_mem_at 0 l) (eq_sym Hh)) as Heq.
    assert (bytes (mem_at 0 l) 0 (length l) = bytes (fun j => m (j + a)) 0 (length l)) as Heq'.
    { rewrite Heq. apply bytes_shift. intros j _. f_equal. lia. }
    symmetry. exact (bytes_inv _ _ _ _ i Heq' ltac:(lia)).
  - exists q, b, r. change (0 + a) with a in Hb. rewrite (Z.add_comm (Z.of_nat (length l)) a) in Hb.
    splits; [done | exact Hb | done | done |].
    intros H0. specialize (Hr H0). unfold get_msg_len. lia.
Qed.

(** A message is not empty and lies in the data, so the fuel is enough. *)
Lemma cut_fuel f f' l : (length l < f)%nat -> (length l < f')%nat -> cut f l = cut f' l.
Proof.
  revert f' l; induction f as [|f IH]; intros [|f'] l Hf Hf'; try lia. cbn [cut].
  destruct (skip_at (mem_at 0 l) 0 l (holds_mem_at 0 l)) as (q & _ & r & -> & _ & _ & _ & Hr).
  destruct (Z.eqb_spec r 0) as [H0|]; [|done]. specialize (Hr H0).
  rewrite (IH f' (drop (Z.to_nat (get_msg_len q)) l)); [done | rewrite length_drop; lia..].
Qed.

(** [messages], message by message. *)
Lemma messages_eq l :
  messages l =
  match skip_sip_msg_async (mem_at 0 l) (Z.of_nat (length l)) (reset 0) with
  | Some (q, r) =>
      if r =? 0 then
        let n := Z.to_nat (get_msg_len q) in
        let '(msgs, rest, ok) := messages (drop n l) in (take n l :: msgs, rest, ok)
      else ([], l, r =? UNEXPECTED_EOT)
  | None => ([], l, false)
  end.
Proof.
  unfold messages at 1. cbn [cut].
  destruct (skip_at (mem_at 0 l) 0 l (holds_mem_at 0 l)) as (q & _ & r & -> & _ & _ & _ & Hr).
  destruct (Z.eqb_spec r 0) as [H0|]; [|done]. specialize (Hr H0). cbn zeta. unfold messages.
  by rewrite (cut_fuel (length l) (S (length (drop (Z.to_nat (get_msg_len q)) l))))
    by (rewrite length_drop; lia).
Qed.

(** [rest] ends inside a header whose name has been read. *)
Definition hdr_pending (rest : list Z) : bool :=
  match skip_sip_msg_async (mem_at 0 rest) (Z.of_nat (length rest)) (reset 0) with
  | Some (q, _) => negb (hdr_empty q)
  | None => false
  end.

(** What does not concern the input. *)
Definition same_conn (t t' : tcp_sock) : Prop :=
  closed t' = closed t /\ connected t' = connected t /\ sd t' = sd t /\ send_q t' = send_q t.

(** The input buffer holds [rest], and the scanner has seen it. *)
Definition scanned (t : tcp_sock) (rest : list Z) : Prop :=
  input_len t = Z.of_nat (length rest) /\ holds (input_buf t) 0 rest /\
  resting (input_buf t) 0 (Z.of_nat (length rest)) (pst t).

Lemma holds_drop m a l n :
  (n <= length l)%nat -> holds m a l -> holds m (a + Z.of_nat n) (drop n l).
Proof.
  intros Hn Hh. rewrite <- (take_drop n l) in Hh. apply holds_app in Hh as [_ Hh].
  by rewrite length_take, Nat.min_l in Hh by done.
Qed.

Lemma holds_take m a l n : (n <= length l)%nat -> holds m a l -> bytes m a n = take n l.
Proof.
  intros Hn Hh. rewrite <- (take_drop n l) in Hh. apply holds_app in Hh as [Hh _].
  unfold holds in Hh. by rewrite length_take, Nat.min_l in Hh by done.
Qed.

Lemma messages_nil : messages [] = ([], [], true).
Proof. done. Qed.

(** Moving an input that ends in no pending header. *)
Lemma shift_input_scanned t a rest :
  0 <= a -> orig_buf (pst t) = a -> input_len t = a + Z.of_nat (length rest) ->
  holds (input_buf t) a rest -> resting (input_buf t) a (input_len t) (pst t) ->
  hdr_empty (pst t) = true -> scanned (shift_input t) rest.
Proof.
  intros Ha Ho Hl Hh Hr He. unfold shift_input, scanned. rewrite Ho. cbn.
  assert (Hmv : forall i, 0 <= i < Z.of_nat (length rest) ->
    memmove (input_buf t) a (input_len t - a) i = input_buf t (i + a)).
  { intros i Hi. unfold memmove.
    destruct (Z.leb_spec 0 i); [|lia]. destruct (Z.ltb_spec i (input_len t - a)); [done | lia]. }
  splits; [lia | |].
  - unfold holds in *. rewrite <- Hh at 2. apply bytes_shift. intros i Hi.
    rewrite Hmv by lia. f_equal. lia.
  - replace 0 with (a + - a) at 1 by lia.
    replace (Z.of_nat (length rest)) with (input_len t + - a) by lia.
    eapply resting_move; [exact Hr | |].
    + intros i Hi. rewrite Hmv by lia. f_equal. lia.
    + unfold hdr_empty in He. zbool. split; cbn; try lia; try done; split; try done; lia.
Qed.

Lemma hdr_empty_at d p q : sim d p q -> hdr_empty q = hdr_empty p.
Proof.
  intros H. unfold hdr_empty. by destruct (sim_name _ _ _ H) as [-> _], (sim_value _ _ _ H) as [-> _].
Qed.

(** Where the messages end: the rest of the input waits at the front of the buffer, or the
    connection is given up, because of the rest or because it fills the buffer. *)
Lemma parse_input_stop_spec t a l q r :
  0 <= a -> input_len t = a + Z.of_nat (length l) -> input_len t <= MAX_TCP_MSGLEN ->
  holds (input_buf t) a l -> orig_buf (pst t) = a ->
  skip_sip_msg_async (mem_at 0 l) (Z.of_nat (length l)) (reset 0) = Some (q, r) ->
  sim a q (pst t) -> (r = UNEXPECTED_EOT -> resting (input_buf t) a (input_len t) (pst t)) ->
  exists t' r', parse_input_stop r t = (t', r') /\ same_conn t t' /\ events t' = events t /\
    if (r =? UNEXPECTED_EOT) && negb ((a =? 0) && (input_len t =? MAX_TCP_MSGLEN))
    then r' = 0 /\ (a = 0 \/ hdr_pending l = false -> scanned t' l) else r' = -1.
Proof.
  intros Ha Hl Hmax Hh Hpo Eq Hqp Hres. unfold parse_input_stop.
  destruct (Z.eqb_spec r UNEXPECTED_EOT) as [->|Hne]; cbn [andb]; [|do 2 eexists; splits; done].
  specialize (Hres eq_refl). rewrite Hpo. destruct (Z.gtb_spec a 0), (Z.eqb_spec a 0) as [Ea|]; try lia; cbn [andb negb].
  - do 2 eexists. split; [done|]. split; [done|]. split; [done|]. split; [done|]. intros [?|Hpend]; [lia|].
    apply (shift_input_scanned _ a); try done. rewrite (hdr_empty_at _ _ _ Hqp).
    unfold hdr_pending in Hpend. rewrite Eq in Hpend. by apply negb_false_iff in Hpend.
  - unfold get_input_free_space. destruct (Z.gtb_spec (input_len t) MAX_TCP_MSGLEN); [lia|].
    destruct (Z.eqb_spec (input_len t) MAX_TCP_MSGLEN) as [E|E].
    + rewrite E, Z.sub_diag. do 2 eexists. splits; done.
    + destruct (Z.eqb_spec (MAX_TCP_MSGLEN - input_len t) 0); [lia|].
      do 2 eexists. split; [done|]. split; [done|]. split; [done|]. split; [done|]. intros _.
      rewrite Ea in *. split; [done|]. split; [done|]. by rewrite <- (Hl : _ = Z.of_nat (length l)).
Qed.

(** [parse_input] from a buffer that holds [l] from [a] on, seen up to [e1]. *)
Lemma parse_input_loop_spec f t a e1 l msgs rest ok :
  (length l < f)%nat -> 0 <= a -> input_len t = a + Z.of_nat (length l) ->
  input_len t <= MAX_TCP_MSGLEN -> holds (input_buf t) a l ->
  resting (input_buf t) a e1 (pst t) -> e1 <= input_len t -> orig_buf (pst t) = a ->
  messages l = (msgs, rest, ok) ->
  exists t' r, parse_input_loop f t = Some (t', r) /\ same_conn t t' /\
    events t' = events t ++ map Received msgs /\
    if ok && negb ((a =? 0) && Nat.eqb (length msgs) 0 && (input_len t =? MAX_TCP_MSGLEN))
    then r = 0 /\ ((a = 0 /\ msgs = []) \/ hdr_pending rest = false -> scanned t' rest)
    else r = -1.
Proof.
  revert t a e1 l msgs rest ok; induction f as [|f IH]; intros t a e1 l msgs rest ok Hf Ha Hl Hmax Hh Hres He Ho Hm; [lia|].
  cbn [parse_input_loop]. rewrite messages_eq in Hm.
  destruct (skip_at _ _ _ Hh) as (q & b & r & Eq & Eb & Hsb & Hq0 & Hr). rewrite Eq in Hm. rewrite <- Hl in Eb.
  destruct (resting_go _ _ _ _ _ _ _ Hres He Eb) as (p & -> & Hp).
  pose proof (sim_trans _ _ _ _ _ Hsb Hp) as Hqp. rewrite Z.add_0_r in Hqp.
  assert (Hpo : orig_buf p = a) by (rewrite (sim_orig _ _ _ Hqp), Hq0; lia).
  destruct (Z.eqb_spec r 0) as [H0|H0]; cbn [negb].
  - specialize (Hr H0). clear Hp Hres Eb.
    assert (Hlen : get_msg_len p = get_msg_len q).
    { unfold get_msg_len. rewrite (sim_c _ _ _ Hqp), (sim_orig _ _ _ Hqp), (sim_len _ _ _ Hqp). lia. }
    rewrite Hlen, Hpo. set (n := Z.to_nat (get_msg_len q)) in *. cbn [input_buf set_pst set_input].
    rewrite (holds_take _ _ l n) by (first [done | lia]). cbn zeta in Hm.
    destruct (messages (drop n l)) as [[msgs' rest'] ok'] eqn:Em. injection Hm as <- <- <-.
    cbn [length Nat.eqb]. rewrite andb_false_r. cbn [andb negb]. rewrite andb_true_r.
    cbn [input_len emit set_pst set_input].
    destruct (Z.ltb_spec (a + get_msg_len q) (input_len t)) as [Hlt|Hge].
    + set (t1 := set_pst (reset (a + get_msg_len q)) (emit [Received (take n l)] (set_pst p t))).
      destruct (IH t1 (a + get_msg_len q) (a + get_msg_len q) (drop n l) msgs' rest' ok')
        as (t' & r' & E & Hs & Hev & Hres); unfold t1; cbn [input_len input_buf pst set_pst set_input emit];
        try (rewrite ?length_drop; lia); try done.
      * replace (a + get_msg_len q) with (a + Z.of_nat n) by lia. apply holds_drop; [lia | done].
      * apply resting_start.
      * destruct (Z.eqb_spec (a + get_msg_len q) 0); [lia|]. cbn [andb negb] in Hres.
        rewrite andb_true_r in Hres. exists t', r'. split; [exact E|]. split; [exact Hs|].
        split; [by rewrite Hev; cbn; rewrite <- app_assoc|]. destruct ok'; [|done].
        destruct Hres as [-> Hres]. split; [done|]. intros [[_ ?]|]; [done | auto].
    + rewrite drop_ge in Em by lia. rewrite messages_nil in Em. injection Em as <- <- <-.
      do 2 eexists. split; [done|]. split; [done|]. split; [done|]. split; [done|]. intros _.
      split; [done|]. split; [done | apply resting_start].
  - injection Hm as <- <- <-. cbn [length Nat.eqb map]. rewrite andb_true_r, app_nil_r.
    destruct (parse_input_stop_spec (set_pst p t) a l q r) as (t' & r' & -> & Hs & Hev & Hspec);
      cbn; try done.
    { intros ->. split; [lia|]. by exists b. }
    exists t', r'. split; [done|]. split; [done|]. split; [done|]. cbn in Hspec.
    destruct (_ && negb _); [|done]. destruct Hspec as [-> Hspec]. split; [done|]. intros [[? _]|]; auto.
Qed.

(** ** Streams *)

(** Reasoning on a stream message by message. *)
Lemma messages_ind (P : list Z -> list (list Z) -> list Z -> bool -> Prop) :
  (forall l q r, skip_sip_msg_async (mem_at 0 l) (Z.of_nat (length l)) (reset 0) = Some (q, r) ->
     r <> 0 -> P l [] l (r =? UNEXPECTED_EOT)) ->
  (forall l q msgs rest ok,
     let n := Z.to_nat (get_msg_len q) in
     skip_sip_msg_async (mem_at 0 l) (Z.of_nat (length l)) (reset 0) = Some (q, 0) ->
     (0 < n <= length l)%nat -> P (drop n l) msgs rest ok -> P l (take n l :: msgs) rest ok) ->
  forall l msgs rest ok, messages l = (msgs, rest, ok) -> P l msgs rest ok.
Proof.
  intros Hstop Hgo l.
  assert (forall k l, (length l < k)%nat -> forall msgs rest ok,
            messages l = (msgs, rest, ok) -> P l msgs rest ok) as H; [|apply (H (S (length l))); lia].
  clear l. induction k as [|k IH]; intros l Hk msgs rest ok Hm; [lia|].
  rewrite messages_eq in Hm.
  destruct (skip_at (mem_at 0 l) 0 l (holds_mem_at 0 l)) as (q & _ & r & E & _ & _ & _ & Hr).
  rewrite E in Hm. destruct (Z.eqb_spec r 0) as [H0|H0]; [|injection Hm as <- <- <-; by eapply Hstop].
  specialize (Hr H0). rewrite H0 in E. cbn zeta in Hm.
  destruct (messages (drop (Z.to_nat (get_msg_len q)) l)) as [[msgs' rest'] ok'] eqn:Em.
  injection Hm as <- <- <-. apply (Hgo l q msgs' rest' ok' E); [lia|]. eapply IH; [|done].
  rewrite length_drop. lia.
Qed.

Lemma messages_concat l msgs rest ok :
  messages l = (msgs, rest, ok) ->
  concat msgs ++ rest = l /\ (length msgs + length rest <= length l)%nat.
Proof.
  revert l msgs rest ok. apply messages_ind; [intros; split; [done | cbn; lia]|].
  intros l q msgs rest ok n _ Hn [Hc Hlen]. rewrite length_drop in Hlen. cbn [concat length].
  rewrite <- app_assoc, Hc, take_drop. split; [done | lia].
Qed.

(** The verdict on a message does not depend on what follows it in the stream. *)
Lemma skip_app l d q r :
  skip_sip_msg_async (mem_at 0 l) (Z.of_nat (length l)) (reset 0) = Some (q, r) ->
  r <> UNEXPECTED_EOT ->
  exists q', skip_sip_msg_async (mem_at 0 (l ++ d)) (Z.of_nat (length (l ++ d))) (reset 0) = Some (q', r) /\
    get_msg_len q' = get_msg_len q.
Proof.
  intros H Hr. pose proof (proj1 (proj1 (holds_app _ _ _ _) (holds_mem_at 0 (l ++ d)))) as Hh.
  destruct (skip_at _ _ _ Hh) as (q1 & b & r1 & E & Eb & Hs & _ & _).
  rewrite H in E. injection E as <- <-. exists b. split.
  - assert (Hle : 0 + Z.of_nat (length l) <= Z.of_nat (length (l ++ d))) by (rewrite length_app; lia).
    apply (skip_sip_msg_stable _ _ _ Hle) in Eb; [done | by left | cbn; lia | done].
  - unfold get_msg_len. rewrite (sim_c _ _ _ Hs), (sim_orig _ _ _ Hs), (sim_len _ _ _ Hs). lia.
Qed.

(** A stream can be cut where it arrived: the messages of a part stay, and the rest goes
    on. *)
Lemma messages_app d l msgs rest ok :
  messages l = (msgs, rest, ok) ->
  messages (l ++ d) =
  if ok then let '(msgs', rest', ok') := messages (rest ++ d) in (msgs ++ msgs', rest', ok')
  else (msgs, rest ++ d, false).
Proof.
  revert l msgs rest ok. apply messages_ind.
  - intros l q r E H0. destruct (Z.eqb_spec r UNEXPECTED_EOT) as [->|Hr].
    + by destruct (messages (l ++ d)) as [[? ?] ?].
    + rewrite messages_eq. destruct (skip_app l d q r E Hr) as (q' & -> & _).
      by destruct (Z.eqb_spec r 0), (Z.eqb_spec r UNEXPECTED_EOT).
  - intros l q msgs rest ok n E Hn IH. rewrite messages_eq.
    destruct (skip_app l d q 0 E ltac:(done)) as (q' & -> & Hlen). cbn [Z.eqb]. cbn zeta.
    rewrite Hlen. fold n. rewrite drop_app_le, take_app_le by lia. rewrite IH.
    destruct ok; [|done]. by destruct (messages (rest ++ d)) as [[? ?] ?].
Qed.

(** ** Reads *)

Lemma resting_orig m a e p : resting m a e p -> orig_buf p = a.
Proof.
  intros [Ha (q & H & Hs)]. destruct (skip_sip_msg_start m e a Ha) as (q' & r & E & Ho & _).
  rewrite H in E. injection E as <- <-. rewrite (sim_orig _ _ _ Hs). lia.
Qed.

(** An open connection whose input buffer holds [pend], with room for more. *)
Definition ready (t : tcp_sock) (pend : list Z) : Prop :=
  closed t = false /\ scanned t pend /\ Z.of_nat (length pend) < MAX_TCP_MSGLEN.

Lemma received_app l1 l2 : received (l1 ++ l2) = received l1 ++ received l2.
Proof. unfold received. by rewrite map_app, concat_app. Qed.

Lemma received_msgs l : received (map Received l) = l.
Proof. induction l as [|x l IH]; [done|]. cbn. unfold received in IH. by rewrite IH. Qed.

Lemma store_holds m pend d :
  holds m 0 pend -> holds (store m (Z.of_nat (length pend)) d) 0 (pend ++ d).
Proof.
  intros H. apply holds_app. split.
  - eapply holds_ext; [|exact H]. intros i Hi. unfold store.
    by destruct (Z.leb_spec (Z.of_nat (length pend)) i); [lia|].
  - cbn. eapply holds_ext; [|apply (holds_mem_at (Z.of_nat (length pend)) d)]. intros i Hi. cbn in Hi.
    unfold store, mem_at. destruct (Z.leb_spec (Z.of_nat (length pend)) i); [|lia].
    by destruct (Z.ltb_spec i (Z.of_nat (length pend) + Z.of_nat (length d))); [|lia].
Qed.

(** The messages reported as undeliverable. *)
Definition undelivered (l : list tcp_event) : list (list Z) :=
  concat (map (fun e => match e with TransportError m => [m] | _ => [] end) l).

Lemma undelivered_app l1 l2 : undelivered (l1 ++ l2) = undelivered l1 ++ undelivered l2.
Proof. unfold undelivered. by rewrite map_app, concat_app. Qed.

Lemma undelivered_msgs l : undelivered (map Received l) = [].
Proof. induction l as [|x l IH]; [done | exact IH]. Qed.

(** [t'] is [t] closed, with every queued message reported. *)
Definition gave_up (t t' : tcp_sock) : Prop :=
  closed t' = true /\ send_q t' = [] /\
  undelivered (events t') = undelivered (events t) ++ map mb_msg (send_q t).

Lemma close_spec t : gave_up t (close t) /\ received (events (close t)) = received (events t).
Proof.
  assert (forall l, received (map (fun b => TransportError (mb_msg b)) l) = []) as Hn
    by (induction l as [|x l IH]; [done | exact IH]).
  assert (forall l, undelivered (map (fun b => TransportError (mb_msg b)) l) = map mb_msg l) as Hu.
  { induction l as [|x l IH]; [done|]. cbn. unfold undelivered in IH. by rewrite IH. }
  unfold gave_up, close, generate_transport_errors.
  destruct (sd _ >? 0); splits; try done; cbn [events emit set_send_q send_q set_sd];
    rewrite ?received_app, ?undelivered_app, ?Hn, ?Hu, ?app_nil_r; done.
Qed.

(** [pend] does not outgrow the buffer. *)
Definition too_big (msgs : list (list Z)) (l : list Z) : bool :=
  Nat.eqb (length msgs) 0 && (Z.of_nat (length l) =? MAX_TCP_MSGLEN).

Lemma on_read_spec t pend d msgs rest ok :
  ready t pend -> d <> [] -> Z.of_nat (length (pend ++ d)) <= MAX_TCP_MSGLEN ->
  messages (pend ++ d) = (msgs, rest, ok) ->
  exists t', on_read false (ReadBytes d) t = Some t' /\
    received (events t') = received (events t) ++ msgs /\
    if ok && negb (too_big msgs (pend ++ d))
    then closed t' = false /\ (msgs = [] \/ hdr_pending rest = false -> ready t' rest)
    else gave_up t t'.
Proof.
  intros (Hcl & (Hlen & Hh & Hres) & Hlt) Hd Hmax Hm. unfold on_read.
  destruct d as [|d0 d']; [done|]. set (d := d0 :: d') in *. clearbody d.
  set (t1 := set_input _ _ _ _). unfold parse_input.
  assert (Hl1 : input_len t1 = 0 + Z.of_nat (length (pend ++ d))) by (cbn; rewrite length_app; lia).
  assert (Hh1 : holds (input_buf t1) 0 (pend ++ d)) by (cbn; rewrite Hlen; by apply store_holds).
  destruct (parse_input_loop_spec (S (Z.to_nat (input_len t1))) t1 0 (Z.of_nat (length pend)) (pend ++ d) msgs rest ok)
    as (t' & r & -> & (Hc' & _ & _ & Hsq) & Hev & Hspec); try done; try lia.
  - replace 0 with (0 + 0) by lia. replace (Z.of_nat (length pend)) with (Z.of_nat (length pend) + 0) by lia.
    eapply resting_move; [exact Hres | | apply sim_refl]. intros i Hi. rewrite Z.add_0_r. cbn. unfold store.
    by destruct (Z.leb_spec (input_len t) i); [lia|].
  - rewrite Hl1, length_app. lia.
  - by apply resting_orig in Hres.
  - rewrite Hl1, Z.add_0_l in Hspec. 
    change ((0 =? 0) && Nat.eqb (length msgs) 0 && (Z.of_nat (length (pend ++ d)) =? MAX_TCP_MSGLEN))
      with (too_big msgs (pend ++ d)) in Hspec.
    destruct (ok && negb (too_big msgs (pend ++ d))) eqn:Eok.
    + destruct Hspec as [-> Hsc]. exists t'. split; [done|].
      split; [by rewrite Hev, received_app, received_msgs|]. split; [by rewrite Hc'|].
      intros Hp. split; [by rewrite Hc'|]. split; [apply Hsc; destruct Hp; auto|].
      apply andb_true_iff in Eok as [_ Eok]. apply negb_true_iff in Eok. unfold too_big in Eok.
      apply messages_concat in Hm as [_ Hm]. destruct msgs; cbn in *; [|lia].
      destruct (Z.eqb_spec (Z.of_nat (length (pend ++ d))) MAX_TCP_MSGLEN); [done | lia].
    + rewrite Hspec. exists (close t'). cbn [Z.ltb Z.compare]. destruct (close_spec t') as ((? & ? & Hu) & ->).
      split; [done|]. split; [by rewrite Hev, received_app, received_msgs|]. split; [done|]. split; [done|].
      by rewrite Hu, Hev, Hsq, undelivered_app, undelivered_msgs, app_nil_r.
Qed.

(** A connection that reads [ds], one read each. *)
Fixpoint run_reads (ds : list (list Z)) (t : tcp_sock) : option tcp_sock :=
  match ds with
  | [] => Some t
  | d :: ds =>
      match on_read false (ReadBytes d) t with
      | Some t => run_reads ds t
      | None => None
      end
  end.

(** Reads that fit in the buffer and do not end, after a complete message, within a header
    whose name has been read; [pend] is what the buffer holds. *)
Fixpoint reads_clean (pend : list Z) (ds : list (list Z)) : bool :=
  match ds with
  | [] => true
  | d :: ds =>
      let '(msgs, rest, _) := messages (pend ++ d) in
      negb (Nat.eqb (length d) 0) && (Z.of_nat (length (pend ++ d)) <=? MAX_TCP_MSGLEN) &&
      negb (too_big msgs (pend ++ d)) && (Nat.eqb (length msgs) 0 || negb (hdr_pending rest)) &&
      reads_clean rest ds
  end.

Lemma ready_messages t pend : ready t pend -> messages pend = ([], pend, true).
Proof.
  intros (_ & (_ & Hh & [_ (q & E & _)]) & _). destruct (skip_at _ _ _ Hh) as (q' & b & r & E' & Eb & _).
  rewrite Z.add_0_l in Eb. rewrite E in Eb. injection Eb as _ <-. by rewrite messages_eq, E'.
Qed.

Lemma run_reads_spec ds t pend msgs rest :
  ready t pend -> reads_clean pend ds = true -> messages (pend ++ concat ds) = (msgs, rest, true) ->
  exists t', run_reads ds t = Some t' /\ ready t' rest /\ received (events t') = received (events t) ++ msgs.
Proof.
  revert t pend msgs; induction ds as [|d ds IH]; intros t pend msgs Hr Hc Hm; cbn [run_reads concat] in *.
  - rewrite app_nil_r, (ready_messages _ _ Hr) in Hm. injection Hm as <- <-. exists t. by rewrite app_nil_r.
  - cbn [reads_clean] in Hc. destruct (messages (pend ++ d)) as [[m1 r1] ok1] eqn:E1.
    apply andb_true_iff in Hc as [Hc Hcl]. apply andb_true_iff in Hc as [Hc Hp].
    apply andb_true_iff in Hc as [Hc Hbig]. apply andb_true_iff in Hc as [Hd Hmax]. zbool.
    rewrite app_assoc, (messages_app _ _ _ _ _ E1) in Hm. destruct ok1; [|done].
    destruct (messages (r1 ++ concat ds)) as [[m2 r2] ok2] eqn:E2. injection Hm as <- <- ->.
    destruct (on_read_spec t pend d m1 r1 true) as (t1 & -> & Hev & Hspec); try done.
    { by destruct d. }
    rewrite Hbig in Hspec. destruct Hspec as [_ Hready].
    destruct (IH t1 r1 m2) as (t' & Hrun & Hr' & Hev'); try done.
    { apply Hready. apply orb_true_iff in Hp as [Hp|Hp]; [left; by destruct m1 | right; by apply negb_true_iff in Hp]. }
    exists t'. rewrite Hev', Hev, app_assoc. done.
Qed.

Lemma ready_new sd m : ready (create_connected sd m) [].
Proof. split; [done|]. split; [|done]. split; [done|]. split; [done | apply resting_start]. Qed.

(** C8: A TCP connection hands the transaction layer exactly the complete messages of a
    well-formed stream, in order, keeps the rest and stays open, for every way of cutting
    the stream into reads ([reads_clean]) in which no read is empty, the data fits in the
    buffer after each read (and does not fill it without a complete message), and no read
    that completes a message ends inside a header of the next one whose name has been read.  Without the last condition it does
    not hold ([stale_header_name]). *)
Theorem tcp_segmentation sd m ds msgs rest :
  reads_clean [] ds = true -> messages (concat ds) = (msgs, rest, true) ->
  exists t, run_reads ds (create_connected sd m) = Some t /\ closed t = false /\
    received (events t) = msgs /\ input_len t = Z.of_nat (length rest) /\ holds (input_buf t) 0 rest.
Proof.
  intros Hc Hm. destruct (run_reads_spec ds _ [] msgs rest (ready_new sd m) Hc Hm) as (t & Hrun & Hr & Hev).
  exists t. destruct Hr as (? & (? & ? & _) & _). rewrite Hev. by splits.
Qed.

(** The pieces of a list of the given lengths, the last with what is left. *)
Fixpoint pieces (ns : list nat) (l : list Z) : list (list Z) :=
  match ns with
  | [] => [l]
  | n :: ns => take n l :: pieces ns (drop n l)
  end.

Lemma tcp_segmentation_witness :
  let ds := pieces [5; 30; 28; 20]%nat (demo_request ++ demo_request ++ lit "BYE") in
  exists t, run_reads ds (create_connected 7 (fun _ => 255)) = Some t /\ closed t = false /\
    received (events t) = [demo_request; demo_request] /\ input_len t = Z.of_nat (length (lit "BYE")) /\
    holds (input_buf t) 0 (lit "BYE").
Proof.
  intros ds. apply (tcp_segmentation 7 (fun _ => 255) ds [demo_request; demo_request] (lit "BYE"));
    vm_compute; reflexivity.
Defined.

(** ** Streams of messages as they are written *)

Record wmsg := mk_wmsg { w_line : list Z; w_hdrs : list (list Z * list Z); w_body : list Z }.

Definition wmsg_bytes (w : wmsg) : list Z := msg_head (w_line w) (w_hdrs w) ++ w_body w.

(** Its Content-Length is the length of its body. *)
Definition wmsg_good (w : wmsg) : bool :=
  good_head (w_line w) (w_hdrs w) &&
  bool_decide (declared_length 0 (w_hdrs w) = Some (Z.of_nat (length (w_body w)))).

Lemma messages_written ws :
  forallb wmsg_good ws = true -> messages (concat (map wmsg_bytes ws)) = (map wmsg_bytes ws, [], true).
Proof.
  induction ws as [|w ws IH]; [done|]. cbn [forallb map concat]. intros [Hw Hws]%andb_true_iff.
  apply andb_true_iff in Hw as [Hg Hd]. apply bool_decide_eq_true in Hd.
  set (l := wmsg_bytes w ++ concat (map wmsg_bytes ws)).
  assert (Hlen : length (wmsg_bytes w) = (length (msg_head (w_line w) (w_hdrs w)) + length (w_body w))%nat)
    by (unfold wmsg_bytes; apply length_app).
  destruct (skip_written (mem_at 0 l) (Z.of_nat (length l)) 0 (w_line w) (w_hdrs w) (Z.of_nat (length (w_body w))))
    as (q & E & _ & _ & Hq); try done.
  { pose proof (holds_mem_at 0 l) as Hh. unfold l at 2, wmsg_bytes at 1 in Hh. rewrite <- app_assoc in Hh.
    by apply holds_app in Hh as [Hh _]. }
  { unfold l. rewrite length_app, Hlen. lia. }
  rewrite messages_eq. rewrite E. cbn [Z.eqb]. cbn zeta. rewrite Hq.
  replace (Z.to_nat _) with (length (wmsg_bytes w)) by lia.
  unfold l. rewrite drop_app_length, take_app_length. by rewrite (IH Hws).
Qed.

(** Messages written one after the other on a connection (first line, headers, a
    Content-Length that is the length of the body) come out of it one by one, each byte
    for byte, however the stream is cut into reads that fit in the buffer and do not end
    inside a pipelined header; nothing is left in the buffer. *)
Theorem tcp_delivers sd m ws ds :
  forallb wmsg_good ws = true -> concat ds = concat (map wmsg_bytes ws) -> reads_clean [] ds = true ->
  exists t, run_reads ds (create_connected sd m) = Some t /\ closed t = false /\
    received (events t) = map wmsg_bytes ws /\ input_len t = 0.
Proof.
  intros Hws Hds Hc. destruct (run_reads_spec ds _ [] (map wmsg_bytes ws) [] (ready_new sd m) Hc) as (t & Hrun & Hr & Hev).
  { cbn. rewrite Hds. by apply messages_written. }
  exists t. destruct Hr as (? & (? & _) & _). rewrite Hev. by splits.
Qed.

Definition demo_wmsgs : list wmsg :=
  [mk_wmsg (lit "SIP/2.0 100 Trying") [(lit "Via", lit "SIP/2.0/TCP c"); (lit "l", lit "0")] [];
   mk_wmsg (lit "INFO sip:a@b SIP/2.0") [(lit "Via", lit "SIP/2.0/TCP c"); (lit "Content-Length", lit "5")] (lit "hello")].

Lemma tcp_delivers_witness :
  let ds := pieces [7; 20; 30; 40]%nat (concat (map wmsg_bytes demo_wmsgs)) in
  exists t, run_reads ds (create_connected 7 (fun _ => 255)) = Some t /\ closed t = false /\
    received (events t) = map wmsg_bytes demo_wmsgs /\ input_len t = 0.
Proof.
  intros ds. apply (tcp_delivers 7 (fun _ => 255) demo_wmsgs ds); vm_compute; reflexivity.
Defined.

(** A read that brings a malformed message closes the connection: the messages before
    it have been handed over, nothing of it or after it is, and every message still
    queued for sending is reported as undeliverable. *)
Theorem malformed_closes t pend d msgs rest :
  ready t pend -> d <> [] -> Z.of_nat (length (pend ++ d)) <= MAX_TCP_MSGLEN ->
  messages (pend ++ d) = (msgs, rest, false) ->
  exists t', on_read false (ReadBytes d) t = Some t' /\ gave_up t t' /\
    received (events t') = received (events t) ++ msgs.
Proof.
  intros Hr Hd Hmax Hm. destruct (on_read_spec t pend d msgs rest false Hr Hd Hmax Hm) as (t' & ? & ? & ?).
  by exists t'.
Qed.

(** A second message with a negative Content-Length. *)
Lemma malformed_closes_witness :
  let bad := lit "BYE sip:a SIP/2.0" ++ CRLF ++ lit "l: -1" ++ CRLF ++ CRLF in
  let t := set_send_q [mk_msg_buf (lit "NOTIFY") 2] (create_connected 7 (fun _ => 255)) in
  exists t', on_read false (ReadBytes (demo_request ++ bad)) t = Some t' /\ gave_up t t' /\
    received (events t') = received (events t) ++ [demo_request].
Proof.
  intros bad t. apply (malformed_closes t [] (demo_request ++ bad) [demo_request] bad);
    [apply (ready_new 7 (fun _ => 255)) | done | done | vm_compute; reflexivity].
Defined.

(** When a read completes one message and ends inside a header of the next, after its
    name, the name is lost when the buffer is moved: here the Content-Length of the second
    message is not recognised, so it is handed over without its body, and the body is taken
    for the beginning of another message.  Read in one piece, the same bytes are two whole
    messages. *)
Theorem stale_header_name :
  let w := mk_wmsg (lit "INFO sip:a@b SIP/2.0")
             [(lit "Via", lit "SIP/2.0/TCP c"); (lit "Content-Length", lit "5")] (lit "hello") in
  let stream := (CRLF ++ CRLF) ++ wmsg_bytes w in
  let reads ds := match run_reads ds (create_connected 7 (fun _ => 0)) with
                  | Some t => Some (received (events t), closed t, bytes (input_buf t) 0 (Z.to_nat (input_len t)))
                  | None => None
                  end in
  wmsg_good w = true /\
  reads [stream] = Some ([CRLF ++ CRLF; wmsg_bytes w], false, []) /\
  reads [take 62 stream; drop 62 stream] =
    Some ([CRLF ++ CRLF; msg_head (w_line w) (w_hdrs w)], false, lit "hello").
Proof. by vm_compute. Qed.

(** A line that begins like a request is not a header. *)
Lemma request_line_not_header m e o a cl meth x :
  forallb name_char meth = true -> holds m a (meth ++ [SP; x]) ->
  negb (inb x [0; HCOLON; SP; HTAB]) = true -> a + Z.of_nat (length meth) + 2 <= e ->
  exists q, parse_header_async m e (at_header o a cl) = (q, MALFORMED_SIP_MSG).
Proof.
  intros Hn [Hh Hx]%holds_app Hc He. apply holds_cons in Hx as [Hsp Hx]. apply holds_cons in Hx as [Hx _].
  rewrite parse_header_async_eq, (scan_run _ m e _ meth); [| done | cbn; lia |].
  2: { intros y q Hin Hs _ <-. rewrite forallb_forall in Hn. apply list_elem_of_In, Hn in Hin.
       split; [by apply name_char_spec | by apply header_name_char]. }
  scan_step Hsp. apply negb_true_iff in Hc. cbn in Hc. rewrite !orb_false_iff in Hc.
  destruct Hc as (H0 & H1 & H2 & H3 & _).
  eexists. erewrite (scan_last _ m e _ _ x MALFORMED_SIP_MSG); [done | exact Hx | by apply Z.eqb_neq | pst_cbn; lia |].
  unfold parse_header_char. pst_cbn. rewrite Hx. cbn -[Z.eqb SP HTAB HCOLON]. cbn [Z.eqb Pos.eqb]. by rewrite H1, H2, H3.
Qed.

(** A line end before the start line of a message, which RFC 3261 (7.5) requires a
    stream transport to ignore, makes the connection fail: whatever request follows it is
    taken for a header, nothing is handed over and the connection is closed. *)
Theorem leading_crlf_closes sd m meth x l :
  forallb name_char meth = true -> meth <> [] -> negb (inb x [0; HCOLON; SP; HTAB]) = true ->
  let stream := CRLF ++ meth ++ [SP; x] ++ l in
  Z.of_nat (length stream) <= MAX_TCP_MSGLEN ->
  exists t, on_read false (ReadBytes stream) (create_connected sd m) = Some t /\ closed t = true /\
    received (events t) = [].
Proof.
  intros Hn Hne Hx stream Hmax. set (M := mem_at 0 stream). set (e := Z.of_nat (length stream)) in *.
  pose proof (holds_mem_at 0 stream) as Hh. unfold stream at 2 in Hh. fold M in Hh.
  rewrite app_assoc, (app_assoc _ [SP; x]), <- (app_assoc CRLF) in Hh.
  apply holds_app in Hh as [[Hcr Hh]%holds_app _]. change (0 + Z.of_nat (length CRLF)) with 2 in Hh.
  assert (He : 2 + Z.of_nat (length meth) + 2 <= e) by (unfold e, stream; rewrite !length_app; cbn; lia).
  assert (H2 : M 2 <> 0).
  { destruct meth as [|c0 meth]; [done|]. cbn in Hn. apply andb_true_iff in Hn as [Hn _].
    cbn [app] in Hh. apply holds_cons in Hh as [-> _]. by apply name_char_spec. }
  assert (Hlt : 0 + Z.of_nat (length ([] ++ CRLF)) < e) by (cbn; lia).
  pose proof (skip_line_written M e 0 [] eq_refl Hcr Hlt H2) as E1.
  destruct (request_line_not_header M e 0 2 0 meth x Hn Hh Hx He) as (q & E2).
  assert (E3 : parse_headers_async M e (at_header 0 2 0) = Some (q, MALFORMED_SIP_MSG)).
  { unfold parse_headers_async. rewrite Nat.add_comm. cbn [Nat.add]. rewrite parse_headers_loop_eq. unfold one_header.
    rewrite E2. cbn [c at_header]. by destruct (Z.ltb_spec 2 e); [|lia]. }
  assert (E : skip_sip_msg_async M e (reset 0) = Some (q, MALFORMED_SIP_MSG)).
  { unfold skip_sip_msg_async. rewrite (skip_fl _ _ _ _ (reset 0) _ _ eq_refl) by (first [exact E1 | cbn; lia]).
    cbn [Z.eqb]. change (next_headers _) with (at_header 0 2 0).
    by rewrite (skip_hdrs _ _ _ _ (at_header 0 2 0) q MALFORMED_SIP_MSG) by (first [done | cbn; lia]). }
  destruct (on_read_spec _ [] stream [] stream false (ready_new sd m)) as (t & Ht & Hev & Hg & _); try done.
  { rewrite messages_eq. cbn [app]. fold M e. by rewrite E. }
  exists t. by rewrite Hev.
Qed.

Lemma leading_crlf_closes_witness :
  let stream := CRLF ++ lit "BYE" ++ [SP; 115] ++ lit "ip:a SIP/2.0" ++ CRLF ++ CRLF in
  exists t, on_read false (ReadBytes stream) (create_connected 7 (fun _ => 0)) = Some t /\ closed t = true /\
    received (events t) = [].
Proof. apply (leading_crlf_closes 7 (fun _ => 0) (lit "BYE") 115 (lit "ip:a SIP/2.0" ++ CRLF ++ CRLF)); done. Defined.

(** ** The buffer is not overrun *)

Record in_buffer (t : tcp_sock) : Prop := {
  ib_len : 0 <= input_len t < MAX_TCP_MSGLEN;
  ib_bounded : bounded 0 MAX_TCP_MSGLEN (pst t);
  ib_state : fresh_or_moved (pst t);
  ib_cursor : orig_buf (pst t) = 0 /\ c (pst t) <= input_len t
}.

Lemma reset_bounded a : 0 <= a -> bounded 0 MAX_TCP_MSGLEN (reset a).
Proof. split; cbn; unfold cstr_in; cbn; lia. Qed.

Lemma reset_fresh a : fresh_or_moved (reset a).
Proof. split; [by left | done | done]. Qed.

Lemma in_buffer_reset m t : in_buffer (set_input (reset 0) m 0 t).
Proof. split; cbn; [done | by apply reset_bounded | apply reset_fresh | done]. Qed.

Lemma parse_input_stop_safe r t :
  0 <= input_len t <= MAX_TCP_MSGLEN -> bounded 0 MAX_TCP_MSGLEN (pst t) -> c (pst t) <= input_len t ->
  (r = UNEXPECTED_EOT -> fresh_or_moved (pst t)) ->
  exists t' x, parse_input_stop r t = (t', x) /\ in_buffer t'.
Proof.
  intros Hl Hb Hc Hf. unfold parse_input_stop. destruct (Z.eqb_spec r UNEXPECTED_EOT) as [Hr|].
  2: { do 2 eexists. split; [done | apply in_buffer_reset]. }
  specialize (Hf Hr). destruct Hb as [Hm Hn Hv] eqn:Eb. clear Eb. destruct (Z.gtb_spec (orig_buf (pst t)) 0).
  - do 2 eexists. split; [done|]. destruct Hf as [? ? Hs].
    split; cbn; [lia | split; cbn; [lia | done | done] | split; [done | done |] | lia].
    cbn. intros. apply Hs. lia.
  - unfold get_input_free_space. destruct (Z.gtb_spec (input_len t) MAX_TCP_MSGLEN); [lia|].
    destruct (Z.eqb_spec (MAX_TCP_MSGLEN - input_len t) 0); do 2 eexists; (split; [done|]).
    + apply in_buffer_reset.
    + split; [lia | done | done | lia].
Qed.

Lemma parse_input_loop_safe f t :
  (Z.to_nat (input_len t - orig_buf (pst t)) < f)%nat ->
  0 <= input_len t <= MAX_TCP_MSGLEN -> bounded 0 MAX_TCP_MSGLEN (pst t) ->
  fresh_or_moved (pst t) -> c (pst t) <= input_len t ->
  exists t' x, parse_input_loop f t = Some (t', x) /\ in_buffer t'.
Proof.
  revert t; induction f as [|f IH]; intros t Hf Hl Hb Hfm Hc; [lia|]. cbn [parse_input_loop].
  destruct (skip_sip_msg_frame (input_buf t) _ _ (fom_stage _ Hfm) Hc) as (q & r & E & _ & _).
  rewrite E. destruct (skip_sip_msg_bounded 0 MAX_TCP_MSGLEN _ _ (proj2 Hl) _ _ _ _ _ Hb Hc E) as (Hbq & Ho & Hcq).
  assert (Hoc : orig_buf (pst t) <= c (pst t)) by (destruct Hb; lia).
  pose proof (skip_sip_msg_progress _ _ _ _ _ Hfm Hoc Hc E) as Hp.
  destruct (Z.eqb_spec r 0) as [Hr|Hr]; cbn [negb].
  - destruct (Hp (or_introl Hr)) as (Hq & Hq0 & _). destruct (Hq0 Hr) as [Hq1 Hq2].
    cbn [input_len input_buf set_pst set_input emit]. unfold get_msg_len.
    destruct (Z.ltb_spec (orig_buf q + (c q - orig_buf q + content_len q)) (input_len t)).
    + apply IH; cbn; try lia; [apply reset_bounded | apply reset_fresh]. destruct Hbq; lia.
    + do 2 eexists. split; [done|]. apply in_buffer_reset.
  - destruct (parse_input_stop_safe r (set_pst q t)) as (t' & x & -> & Ht'); cbn; try done; try lia; [|by eauto].
    intros Hr'. by destruct (Hp (or_intror Hr')) as (_ & _ & Hq); apply Hq.
Qed.

(** [read] returns at most the room it was given. *)
Definition read_fits (r : read_result) (t : tcp_sock) : Prop :=
  match r with ReadBytes l => Z.of_nat (length l) <= get_input_free_space t | ReadError _ => True end.

Lemma close_input t : input_len (close t) = input_len t /\ pst (close t) = pst t.
Proof. unfold close, generate_transport_errors. by destruct (sd _ >? 0). Qed.

Lemma in_buffer_close t : in_buffer t -> in_buffer (close t).
Proof. intros [? ? ? ?]. destruct (close_input t) as [H1 H2]. by split; rewrite ?H1, ?H2. Qed.

(** The states of a connection that has read anything. *)
Inductive reach_input : tcp_sock -> Prop :=
| ri_new sd m : reach_input (create_connected sd m)
| ri_read t timeout r t' :
    reach_input t -> read_fits r t -> on_read timeout r t = Some t' -> reach_input t'.

Lemma on_read_safe t timeout r :
  in_buffer t -> read_fits r t -> exists t', on_read timeout r t = Some t' /\ in_buffer t'.
Proof.
  intros Hi Hr. unfold on_read. destruct timeout; [by eauto using in_buffer_close|].
  destruct r as [l|again]; [|destruct again; by eauto using in_buffer_close].
  destruct l as [|x l]; [by eauto using in_buffer_close|]. unfold parse_input.
  destruct Hi as [Hl Hb Hf [Ho Hc]]. unfold read_fits, get_input_free_space in Hr.
  destruct (Z.gtb_spec (input_len t) MAX_TCP_MSGLEN); [lia|].
  edestruct parse_input_loop_safe as (t' & y & -> & Ht');
    [| | | | |destruct (y <? 0); by eauto using in_buffer_close]; cbn in *; try done; lia.
Qed.

(** C9: Whatever bytes arrive, in reads of at most the room offered, every read is processed
    to the end and leaves the fill level of the input buffer below its size, so that the
    next read has room, the scanner's cursor within the data received, and the scanner's
    other pointers (the start of the message and of the field, name and value of the
    header) within the buffer; the name may point to moved bytes ([stale_header_name]).
    This is about the pointers kept and the bytes stored: the header loop also reads the
    one character behind the data ([header_reads_bound], [header_over_read]). *)
Theorem input_in_bounds t :
  reach_input t ->
  0 <= input_len t < MAX_TCP_MSGLEN /\ 0 < get_input_free_space t /\
  bounded 0 MAX_TCP_MSGLEN (pst t) /\ c (pst t) <= input_len t /\
  forall timeout r, read_fits r t -> exists t', on_read timeout r t = Some t'.
Proof.
  intros H. assert (in_buffer t) as Hi.
  { induction H as [sd m|t timeout r t' _ IH Hr E].
    - split; cbn; [done | by apply reset_bounded | apply reset_fresh | done].
    - destruct (on_read_safe t timeout r IH Hr) as (t1 & E1 & Ht1). rewrite E in E1. by injection E1 as ->. }
  pose proof Hi as [Hl Hb _ [_ Hc]]. split; [done|]. split.
  { unfold get_input_free_space. destruct (Z.gtb_spec (input_len t) MAX_TCP_MSGLEN); lia. }
  split; [done|]. split; [done|]. intros timeout r Hr. destruct (on_read_safe t timeout r Hi Hr) as (t' & ? & _). eauto.
Qed.

Lemma input_in_bounds_witness :
  let t := create_connected 7 (fun _ => 0) in
  0 <= input_len t < MAX_TCP_MSGLEN /\ 0 < get_input_free_space t /\
  bounded 0 MAX_TCP_MSGLEN (pst t) /\ c (pst t) <= input_len t /\
  forall timeout r, read_fits r t -> exists t', on_read timeout r t = Some t'.
Proof. apply (input_in_bounds (create_connected 7 (fun _ => 0)) (ri_new 7 (fun _ => 0))). Defined.

(** ** Sending *)

(** The bytes put on the wire. *)
Definition written (l : list tcp_event) : list Z :=
  concat (map (fun e => match e with Written x => x | _ => [] end) l).

Lemma written_app l1 l2 : written (l1 ++ l2) = written l1 ++ written l2.
Proof. unfold written. by rewrite map_app, concat_app. Qed.

(** What of the head of the queue is on the wire already; only the head can be begun. *)
Definition begun (q : list msg_buf) : list Z :=
  match q with [] => [] | b :: _ => take (mb_cursor b) (mb_msg b) end.

Definition queue_ok (q : list msg_buf) : Prop := Forall (fun b => mb_cursor b = 0%nat) (tail q).

(** [acc] are the messages accepted so far, [done] those completely written. *)
Record sends (acc done : list (list Z)) (q : list msg_buf) (ev : list tcp_event) : Prop := {
  sd_acc : acc = done ++ map mb_msg q;
  sd_written : written ev = concat done ++ begun q;
  sd_queue : queue_ok q;
  sd_undelivered : undelivered ev = []
}.

(** An event of another kind. *)
Lemma sends_event acc done q ev e :
  sends acc done q ev -> written [e] = [] -> undelivered [e] = [] -> sends acc done q (ev ++ [e]).
Proof. intros [? ? ? ?] H1 H2. split; rewrite ?written_app, ?undelivered_app, ?H1, ?H2, ?app_nil_r; done. Qed.

(** The head of the queue is completely written. *)
Lemma sends_pop acc done b q ev ev' :
  sends acc done (b :: q) ev -> written ev' = drop (mb_cursor b) (mb_msg b) -> undelivered ev' = [] ->
  sends acc (done ++ [mb_msg b]) q (ev ++ ev').
Proof.
  intros [-> Hw Hq Hu] Hw' Hu'. split.
  - by rewrite <- app_assoc.
  - rewrite written_app, Hw, Hw', concat_app. cbn. rewrite app_nil_r, <- app_assoc, take_drop.
    destruct q as [|b' q]; cbn; [by rewrite app_nil_r|]. unfold queue_ok in Hq. cbn in Hq.
    apply Forall_inv in Hq. by rewrite Hq, app_nil_r.
  - unfold queue_ok in *. cbn in Hq. destruct q; [done|]. by apply Forall_inv_tail in Hq.
  - by rewrite undelivered_app, Hu, Hu'.
Qed.

(** What a closed connection has sent: every accepted message is completely written, or
    reported, and the part of a message that was written belongs to the first reported. *)
Definition gave_account (acc : list (list Z)) (ev : list tcp_event) : Prop :=
  exists done part, acc = done ++ undelivered ev /\ written ev = concat done ++ part /\
    part `prefix_of` concat (undelivered ev).

Definition sends_ok (acc : list (list Z)) (t : tcp_sock) : Prop :=
  if closed t then gave_account acc (events t) else exists done, sends acc done (send_q t) (events t).

Lemma begun_prefix q : begun q `prefix_of` concat (map mb_msg q).
Proof.
  destruct q as [|b q]; [done|]. cbn. exists (drop (mb_cursor b) (mb_msg b) ++ concat (map mb_msg q)).
  by rewrite app_assoc, take_drop.
Qed.

Lemma close_written t : written (events (close t)) = written (events t).
Proof.
  assert (forall l, written (map (fun b => TransportError (mb_msg b)) l) = []) as Hn
    by (induction l as [|x l IH]; [done | exact IH]).
  unfold close, generate_transport_errors.
  destruct (sd _ >? 0); cbn [events emit set_send_q send_q set_sd]; rewrite !written_app, Hn, !app_nil_r; done.
Qed.

Lemma sends_close acc done t : sends acc done (send_q t) (events t) -> sends_ok acc (close t).
Proof.
  intros [Ha Hw _ Hu]. destruct (close_spec t) as [(Hc & _ & Hun) _]. unfold sends_ok. rewrite Hc.
  exists done, (begun (send_q t)). rewrite Hun, Hu, close_written. cbn. splits; [done | done | apply begun_prefix].
Qed.

Lemma sends_ok_open acc done t : closed t = false -> sends acc done (send_q t) (events t) -> sends_ok acc t.
Proof. intros Hc H. unfold sends_ok. rewrite Hc. eauto. Qed.

(** The loop of [on_write] over the queue [q]. *)
Lemma on_write_loop_sends acc ws q done t :
  closed t = false -> sends acc done q (events t) -> sends_ok acc (on_write_loop q ws t).
Proof.
  revert ws done t; induction q as [|b q IH]; intros ws done t Hc H; cbn [on_write_loop].
  { by eapply sends_ok_open. }
  destruct (Nat.eqb_spec (bytes_left b) 0) as [Hb|Hb].
  - eapply IH; [done|]. rewrite <- (app_nil_r (events t)). eapply sends_pop; [exact H | | done].
    unfold bytes_left in Hb. by rewrite drop_ge by lia.
  - destruct ws as [|[n|again] ws]; [by eapply sends_ok_open | |].
    + destruct (Nat.ltb_spec n (bytes_left b)) as [Hn|Hn].
      * eapply (sends_ok_open _ done); [done|]. cbn [send_q emit set_send_q events].
        apply sends_event; [|done..].
        destruct H as [Ha Hw Hq Hu]. split; [done | | done |].
        -- rewrite written_app, Hw. cbn. by rewrite app_nil_r, <- app_assoc, take_take_drop.
        -- by rewrite undelivered_app, Hu.
      * eapply IH; [done|]. cbn [events emit]. eapply sends_pop; [exact H | | done].
        cbn. rewrite app_nil_r, take_ge; [done|]. rewrite length_drop. unfold bytes_left in Hn. lia.
    + destruct again; [|by eapply sends_close].
      eapply (sends_ok_open _ done); [done|]. cbn. by apply sends_event.
Qed.

(** Reading touches the queue only when it closes the connection. *)
Lemma parse_input_loop_frame f t t' r :
  parse_input_loop f t = Some (t', r) ->
  same_conn t t' /\ exists msgs, events t' = events t ++ map Received msgs.
Proof.
  revert t; induction f as [|f IH]; intros t; [done|]. cbn [parse_input_loop].
  destruct (skip_sip_msg_async _ _ _) as [[p x]|]; [|done].
  assert (forall m n, same_conn t (set_input (reset 0) m n t)) as Hs by done.
  destruct (negb (x =? 0)).
  - unfold parse_input_stop. intros H. assert (same_conn t t' /\ events t' = events t) as [? ->]
      by (repeat case_match; simplify_eq; done). split; [done|]. exists []. by rewrite app_nil_r.
  - cbn zeta. destruct (_ <? _).
    + intros (Hs' & msgs & Hev)%IH. split; [done|]. eexists (_ :: msgs). rewrite Hev. cbn. by rewrite <- app_assoc.
    + intros [= <- <-]. split; [done|]. by eexists [_].
Qed.

Lemma written_msgs l : written (map Received l) = [].
Proof. induction l as [|x l IH]; [done | exact IH]. Qed.

Lemma on_read_sends acc done timeout r t t' :
  closed t = false -> sends acc done (send_q t) (events t) -> on_read timeout r t = Some t' -> sends_ok acc t'.
Proof.
  intros Hc H. unfold on_read. destruct timeout; [intros [= <-]; by eapply sends_close|].
  destruct r as [l|again]; [|destruct again; intros [= <-]; [by eapply sends_ok_open | by eapply sends_close]].
  destruct l as [|x l]; [intros [= <-]; by eapply sends_close|]. unfold parse_input.
  destruct (parse_input_loop _ _) as [[t1 y]|] eqn:E; [|done].
  apply parse_input_loop_frame in E as ((Hc1 & _ & _ & Hq1) & msgs & Hev).
  assert (sends acc done (send_q t1) (events t1)) as H1.
  { rewrite Hq1, Hev. destruct H as [? ? ? ?].
    split; rewrite ?written_app, ?undelivered_app, ?written_msgs, ?undelivered_msgs, ?app_nil_r; done. }
  destruct (y <? 0); intros [= <-]; [by eapply sends_close|]. eapply sends_ok_open; [by rewrite Hc1 | done].
Qed.

(** A connection in use, and the messages [send] has accepted on it. *)
Inductive in_use : tcp_sock -> list (list Z) -> Prop :=
| iu_new sd m : in_use (new_tcp_sock sd m) []
| iu_accepted sd m : in_use (create_connected sd m) []
| iu_send t acc r msg t' : in_use t acc -> send r msg t = (t', 0) -> in_use t' (acc ++ [msg])
| iu_refused t acc r msg t' : in_use t acc -> send r msg t = (t', -1) -> in_use t' acc
| iu_write t acc timeout ok ws :
    in_use t acc -> closed t = false -> in_use (on_write timeout ok ws t) acc
| iu_read t acc timeout r t' :
    in_use t acc -> closed t = false -> on_read timeout r t = Some t' -> in_use t' acc.

Lemma check_connection_sends acc done r t t' x :
  closed t = false -> sends acc done (send_q t) (events t) -> check_connection r t = (t', x) ->
  closed t' = false /\ sends acc done (send_q t') (events t').
Proof.
  intros Hc H. unfold check_connection. destruct (sd t <? 0); [|by intros [= <- <-]].
  destruct r; intros [= <- <-]; cbn; (split; [done|]); try done; by apply sends_event.
Qed.

Lemma sends_push acc done q ev msg :
  sends acc done q ev -> sends (acc ++ [msg]) done (q ++ [mk_msg_buf msg 0]) ev.
Proof.
  intros [-> Hw Hq Hu]. split; [| | |done].
  - by rewrite map_app, <- app_assoc.
  - rewrite Hw. by destruct q.
  - unfold queue_ok in *. destruct q as [|b q]; [done|]. cbn in *. apply Forall_app. split; [done | by repeat constructor].
Qed.

(** C10: Messages accepted for sending on a connection go out whole and in the order in
    which they were accepted, whatever part of the offered bytes each write takes: while
    the connection is open, what is on the wire is the accepted messages up to the head of
    the queue, plus the part of the head already written; once it is closed, every
    accepted message was either completely written or reported to the transaction layer
    as undeliverable. *)
Theorem sent_in_order t acc :
  in_use t acc ->
  if closed t
  then exists done part, acc = done ++ undelivered (events t) /\
         written (events t) = concat done ++ part /\ part `prefix_of` concat (undelivered (events t))
  else exists done, acc = done ++ map mb_msg (send_q t) /\
         written (events t) = concat done ++ begun (send_q t) /\ undelivered (events t) = [].
Proof.
  intros H. assert (sends_ok acc t) as Hs.
  { induction H as [sd m|sd m|t acc r msg t' _ IH E|t acc r msg t' _ IH E|t acc timeout ok ws _ IH Hc|t acc timeout r t' _ IH Hc E].
    - exists []. split; [done | done | constructor | done].
    - exists []. split; [done | done | constructor | done].
    - unfold send in E. destruct (closed t) eqn:Hc; [done|]. unfold sends_ok in IH. rewrite Hc in IH.
      destruct IH as [done Hd]. destruct (check_connection r t) as [t1 x] eqn:E1.
      destruct (check_connection_sends _ _ _ _ _ _ Hc Hd E1) as [Hc1 Hd1]. destruct (x <? 0); [done|].
      apply (sends_push _ _ _ _ msg) in Hd1.
      destruct (connected _); injection E as <-; eapply sends_ok_open; try done. by apply sends_event.
    - unfold send in E. destruct (closed t) eqn:Hc; [by injection E as <-|]. unfold sends_ok in IH. rewrite Hc in IH.
      destruct IH as [done Hd]. destruct (check_connection r t) as [t1 x] eqn:E1.
      destruct (check_connection_sends _ _ _ _ _ _ Hc Hd E1) as [Hc1 Hd1].
      destruct (x <? 0); [injection E as <-; by eapply sends_ok_open | by destruct (connected _)].
    - unfold sends_ok in IH. rewrite Hc in IH. destruct IH as [done Hd]. unfold on_write.
      destruct (negb (connected t)); [|by eapply on_write_loop_sends]. unfold on_connect.
      destruct timeout; [by eapply sends_close|]. destruct ok; [|by eapply sends_close]. cbn.
      eapply on_write_loop_sends; [done|]. cbn. by apply sends_event.
    - unfold sends_ok in IH. rewrite Hc in IH. destruct IH as [done Hd]. by eapply on_read_sends. }
  unfold sends_ok in Hs. destruct (closed t); [exact Hs|]. destruct Hs as [done [? ? ? ?]]. by exists done.
Qed.

(** Two messages, of which a first write takes three bytes, a second the rest and five
    more. *)
Lemma sent_in_order_witness :
  let t0 := create_connected 7 (fun _ => 0) in
  let t1 := fst (send ConnectFailed (lit "INVITE") t0) in
  let t2 := fst (send ConnectFailed (lit "CANCEL") t1) in
  let t := on_write false true [Wrote 3; Wrote 5] (on_write false true [Wrote 3] t2) in
  let acc := ([] ++ [lit "INVITE"]) ++ [lit "CANCEL"] in
  if closed t
  then exists done part, acc = done ++ undelivered (events t) /\
         written (events t) = concat done ++ part /\ part `prefix_of` concat (undelivered (events t))
  else exists done, acc = done ++ map mb_msg (send_q t) /\
         written (events t) = concat done ++ begun (send_q t) /\ undelivered (events t) = [].
Proof.
  intros t0 t1 t2 t acc. apply (sent_in_order t acc).
  apply iu_write; [|reflexivity]. apply iu_write; [|reflexivity].
  apply (iu_send t1 _ ConnectFailed); [|reflexivity]. apply (iu_send t0 _ ConnectFailed); [|reflexivity].
  apply iu_accepted.
Defined.
