(* ===== verification/MsgHdrs.v ===== *)
(** * Writing messages

    Model of core/sip/msg_hdrs.{h,cpp} and msg_fline.{h,cpp}, which write the parts of a
    message and compute their lengths, and of the places of core/sip/trans_layer.cpp that
    compose whole messages from them: the reply ([send_reply]), the stateless reply
    ([send_sl_reply]), the new request ([generate_and_parse_new_msg]), the CANCEL
    ([cancel]) and the ACK for a non-2xx reply ([send_non_200_ack]).

    All the strings copied live in one memory [m].  A writer ([..._wr]) is the list of
    bytes it puts from the cursor on; a length function ([..._len]) is what the code adds
    up before it allocates the buffer.  The properties: each composed message fills its
    buffer exactly; written headers are read back. *)

From Stdlib Require Import ZArith Lia Ascii String.
From stdpp Require Import base list.
From S2P Require Import Prelude ParseCommon AmUtils SipHeader SipParserAsync.

Local Open Scope Z_scope.
Local Open Scope bool_scope.

(** ** The parts (msg_hdrs.h, msg_fline.h) *)

Definition copy_hdr_len (h : sip_header) : Z := len (name h) + len (value h) + 4.

Definition copy_hdr_wr (m : mem) (h : sip_header) : list Z :=
  chars m (name h) ++ [HCOLON; SP] ++ chars m (value h) ++ [CR; LF].

Definition contact_len (contact : cstr) : Z := 11 + len contact.

Definition contact_wr (m : mem) (contact : cstr) : list Z :=
  lit "Contact: " ++ chars m contact ++ [CR; LF].

Definition MAGIC_BRANCH_LEN : Z := 7.

Definition via_len (trsp addr branch : list Z) (rport : bool) : Z :=
  16 + Z.of_nat (length trsp) + Z.of_nat (length addr) + 8 + MAGIC_BRANCH_LEN
  + Z.of_nat (length branch) + (if rport then 6 else 0).

(** The transport is written in upper case; a character that is not a lower case letter is
    left out. *)
Definition via_trsp_wr (trsp : list Z) : list Z :=
  concat (map (fun x => if (97 <=? x) && (x <=? 122) then [x - 97 + 65] else []) trsp).

Definition via_wr (trsp addr branch : list Z) (rport : bool) : list Z :=
  lit "Via: SIP/2.0/" ++ via_trsp_wr trsp ++ [SP] ++ addr ++ lit ";branch=z9hG4bK" ++ branch
  ++ (if rport then lit ";rport" else []) ++ [CR; LF].

Definition cseq_len (num method : list Z) : Z := 9 + Z.of_nat (length num) + Z.of_nat (length method).

Definition cseq_wr (num method : list Z) : list Z := lit "CSeq: " ++ num ++ [SP] ++ method ++ [CR; LF].

Definition content_length_len (l : list Z) : Z := 18 + Z.of_nat (length l).

Definition content_length_wr (l : list Z) : list Z := lit "Content-Length: " ++ l ++ [CR; LF].

Definition content_type_len (l : list Z) : Z := 16 + Z.of_nat (length l).

Definition content_type_wr (l : list Z) : list Z := lit "Content-Type: " ++ l ++ [CR; LF].

Definition request_line_len (method ruri : list Z) : Z :=
  Z.of_nat (length method) + Z.of_nat (length ruri) + 7 + 4.

Definition request_line_wr (method ruri : list Z) : list Z :=
  method ++ [SP] ++ ruri ++ lit " SIP/2.0" ++ [CR; LF].

Definition status_line_len (reason : list Z) : Z := 7 + 3 + Z.of_nat (length reason) + 4.

(** [div] truncates towards zero. *)
Definition status_code_wr (code : Z) : list Z :=
  let r := Z.rem code 100 in
  [Z.quot code 100 + 48; Z.quot r 10 + 48; Z.rem r 10 + 48].

Definition status_line_wr (code : Z) (reason : list Z) : list Z :=
  lit "SIP/2.0 " ++ status_code_wr code ++ [SP] ++ reason ++ [CR; LF].

(** ** Lists of headers (msg_hdrs.cpp) *)

Definition copy_hdrs_len (hdrs : list sip_header) : Z := fold_right (fun h n => copy_hdr_len h + n) 0 hdrs.

Definition copy_hdrs_wr (m : mem) (hdrs : list sip_header) : list Z := concat (map (copy_hdr_wr m) hdrs).

Definition is_via (h : sip_header) : bool := bool_decide (type h = H_VIA).

Definition is_via_contact (h : sip_header) : bool :=
  bool_decide (type h = H_VIA) || bool_decide (type h = H_CONTACT) ||
  bool_decide (type h = H_CONTENT_LENGTH).

Fixpoint copy_hdrs_len_no_via (hdrs : list sip_header) : Z :=
  match hdrs with
  | [] => 0
  | h :: hdrs => (if is_via h then 0 else copy_hdr_len h) + copy_hdrs_len_no_via hdrs
  end.

Fixpoint copy_hdrs_wr_no_via (m : mem) (hdrs : list sip_header) : list Z :=
  match hdrs with
  | [] => []
  | h :: hdrs => (if is_via h then [] else copy_hdr_wr m h) ++ copy_hdrs_wr_no_via m hdrs
  end.

Fixpoint copy_hdrs_len_no_via_contact (hdrs : list sip_header) : Z :=
  match hdrs with
  | [] => 0
  | h :: hdrs => (if is_via_contact h then 0 else copy_hdr_len h) + copy_hdrs_len_no_via_contact hdrs
  end.

Fixpoint copy_hdrs_wr_no_via_contact (m : mem) (hdrs : list sip_header) : list Z :=
  match hdrs with
  | [] => []
  | h :: hdrs => (if is_via_contact h then [] else copy_hdr_wr m h) ++ copy_hdrs_wr_no_via_contact m hdrs
  end.

(** ** What is read of a parsed request *)

(** The top Via: the header, whether it has an rport parameter, where its value ends (or
    would begin), its length, and where the first parameter of the header ends. *)
Record via1_info := mk_via1 {
  v1_hdr : sip_header;
  v1_host : list Z;
  v1_has_rport : bool;
  v1_rport : cstr;
  v1_eop : Z
}.

(** A header of the request as the composers look at it: whether it is the top Via, and
    the To tag if it has been parsed. *)
Record req_hdr := mk_req_hdr {
  rh_hdr : sip_header;
  rh_is_via1 : bool;
  rh_tag : option (list Z)      (* of a parsed To header *)
}.

Definition is_to (h : req_hdr) : bool := bool_decide (type (rh_hdr h) = H_TO).

Definition has_tag (h : req_hdr) : bool :=
  match rh_tag h with Some t => negb (Nat.eqb (length t) 0) | None => false end.

(** [cstring::operator==(const char* )]: only the common length is compared. *)
Fixpoint cstring_eqb (l r : list Z) : bool :=
  match l, r with
  | a :: l, b :: r => (a =? b) && cstring_eqb l r
  | _, _ => true
  end.

(** The characters between two pointers. *)
Definition between (m : mem) (a b : Z) : list Z := bytes m a (Z.to_nat (b - a)).

(** ** The reply ([send_reply]) *)

Section Reply.
Context (m : mem) (v : via1_info) (remote_ip_str remote_port_str : list Z).

Definition append_received : bool := negb (cstring_eqb (v1_host v) remote_ip_str).

Definition rport_empty : bool := v1_has_rport v && (len (v1_rport v) =? 0).

Definition new_via1_len : Z :=
  copy_hdr_len (v1_hdr v)
  + (if append_received then 10 + Z.of_nat (length remote_ip_str) else 0)
  + (if rport_empty then Z.of_nat (length remote_port_str) + 1 else 0).

Definition via1_wr : list Z :=
  let val := value (v1_hdr v) in
  let rend := s (v1_rport v) + len (v1_rport v) in
  chars m (name (v1_hdr v)) ++ [HCOLON; SP]
  ++ (if rport_empty then between m (s val) rend ++ [EQU] ++ remote_port_str ++ between m rend (v1_eop v)
      else between m (s val) (v1_eop v))
  ++ (if append_received then lit ";received=" ++ remote_ip_str else [])
  ++ between m (v1_eop v) (s val + len val) ++ [CR; LF].

Context (to_tag : list Z).

(** [have_to_tag], after the first loop. *)
Definition have_to_tag (hdrs : list req_hdr) : bool :=
  existsb (fun h => is_to h && (negb (Nat.eqb (length to_tag) 0) && has_tag h)) hdrs.

Definition reply_hdr_len (h : req_hdr) : Z :=
  match type (rh_hdr h) with
  | H_VIA => if rh_is_via1 h then new_via1_len else copy_hdr_len (rh_hdr h)
  | H_TO =>
      match rh_tag h with
      | None => 0
      | Some t =>
          (if negb (Nat.eqb (length to_tag) 0) && Nat.eqb (length t) 0
           then 5 + Z.of_nat (length to_tag) else 0) + copy_hdr_len (rh_hdr h)
      end
  | H_FROM | H_CALL_ID | H_CSEQ | H_RECORD_ROUTE => copy_hdr_len (rh_hdr h)
  | _ => 0
  end.

Definition tagged_to_wr (tag : list Z) (h : sip_header) : list Z :=
  chars m (name h) ++ [HCOLON; SP] ++ chars m (value h) ++ lit ";tag=" ++ tag ++ [CR; LF].

Definition reply_hdr_wr (have : bool) (h : req_hdr) : list Z :=
  match type (rh_hdr h) with
  | H_VIA => if rh_is_via1 h then via1_wr else copy_hdr_wr m (rh_hdr h)
  | H_TO =>
      match rh_tag h with
      | None => []
      | Some _ =>
          if Nat.eqb (length to_tag) 0 || have then copy_hdr_wr m (rh_hdr h)
          else tagged_to_wr to_tag (rh_hdr h)
      end
  | H_FROM | H_CALL_ID | H_CSEQ | H_RECORD_ROUTE => copy_hdr_wr m (rh_hdr h)
  | _ => []
  end.

Context (code : Z) (reason : list Z) (req_hdrs : list req_hdr) (msg_hdrs : list sip_header) (body : list Z).

(** [reply_len]. *)
Definition reply_len : Z :=
  status_line_len reason + fold_right (fun h n => reply_hdr_len h + n) 0 req_hdrs
  + copy_hdrs_len msg_hdrs + content_length_len (int2str (Z.of_nat (length body)))
  + Z.of_nat (length body) + 2.

(** What is written into the buffer of [reply_len] bytes. *)
Definition reply_wr : list Z :=
  status_line_wr code reason ++ concat (map (reply_hdr_wr (have_to_tag req_hdrs)) req_hdrs)
  ++ copy_hdrs_wr m msg_hdrs ++ content_length_wr (int2str (Z.of_nat (length body))) ++ [CR; LF] ++ body.

End Reply.

(** ** The stateless reply ([send_sl_reply]) *)

Definition SL_TOTAG_LEN : Z := 8.

Section StatelessReply.
Context (m : mem) (sl_tag : list Z) (code : Z) (reason : list Z) (req_hdrs : list req_hdr) (hdrs body : list Z).

Definition sl_have_to_tag : bool :=
  existsb (fun h => is_to h && has_tag h) req_hdrs.

Definition sl_hdr_len (h : req_hdr) : Z :=
  match type (rh_hdr h) with
  | H_TO => (if has_tag h then 0 else 5 + SL_TOTAG_LEN) + copy_hdr_len (rh_hdr h)
  | H_FROM | H_CALL_ID | H_CSEQ | H_VIA | H_RECORD_ROUTE => copy_hdr_len (rh_hdr h)
  | _ => 0
  end.

Definition sl_hdr_wr (h : req_hdr) : list Z :=
  match type (rh_hdr h) with
  | H_TO => if sl_have_to_tag then copy_hdr_wr m (rh_hdr h) else tagged_to_wr m sl_tag (rh_hdr h)
  | H_FROM | H_CALL_ID | H_CSEQ | H_VIA | H_RECORD_ROUTE => copy_hdr_wr m (rh_hdr h)
  | _ => []
  end.

Definition sl_reply_len : Z :=
  status_line_len reason + fold_right (fun h n => sl_hdr_len h + n) 0 req_hdrs + Z.of_nat (length hdrs)
  + content_length_len (int2str (Z.of_nat (length body))) + Z.of_nat (length body) + 2.

Definition sl_reply_wr : list Z :=
  status_line_wr code reason ++ concat (map sl_hdr_wr req_hdrs) ++ hdrs
  ++ content_length_wr (int2str (Z.of_nat (length body))) ++ [CR; LF] ++ body.

End StatelessReply.

(** ** Requests *)

Section Requests.
Context (m : mem).

(** [generate_and_parse_new_msg]: the length, and what is written. *)
Definition new_request_len (method ruri trsp via_addr branch : list Z)
    (vias hdrs contacts : list sip_header) (body : list Z) : Z :=
  request_line_len method ruri + via_len trsp via_addr branch true + copy_hdrs_len vias
  + copy_hdrs_len_no_via_contact hdrs + copy_hdrs_len contacts
  + content_length_len (int2str (Z.of_nat (length body))) + 2 + Z.of_nat (length body).

Definition new_request_wr (method ruri trsp via_addr branch : list Z)
    (vias hdrs contacts : list sip_header) (body : list Z) : list Z :=
  request_line_wr method ruri ++ via_wr trsp via_addr branch true ++ copy_hdrs_wr m vias
  ++ copy_hdrs_wr_no_via_contact m hdrs ++ copy_hdrs_wr m contacts
  ++ content_length_wr (int2str (Z.of_nat (length body))) ++ [CR; LF] ++ body.

(** [cancel]: [mf] is the Max-Forwards header that is copied or made up. *)
Definition cancel_len (ruri cseq_num : list Z) (via1 to from callid mf : sip_header)
    (route contacts : list sip_header) (hdrs : list Z) : Z :=
  request_line_len (lit "CANCEL") ruri + copy_hdr_len via1 + copy_hdr_len to + copy_hdr_len from
  + copy_hdr_len callid + cseq_len cseq_num (lit "CANCEL") + copy_hdrs_len route + copy_hdrs_len contacts
  + copy_hdr_len mf + Z.of_nat (length hdrs) + content_length_len (lit "0") + 2.

Definition cancel_wr (ruri cseq_num : list Z) (via1 to from callid mf : sip_header)
    (route contacts : list sip_header) (hdrs : list Z) : list Z :=
  request_line_wr (lit "CANCEL") ruri ++ copy_hdr_wr m via1 ++ copy_hdr_wr m to ++ copy_hdr_wr m from
  ++ copy_hdr_wr m callid ++ cseq_wr cseq_num (lit "CANCEL") ++ copy_hdr_wr m mf ++ copy_hdrs_wr m route
  ++ copy_hdrs_wr m contacts ++ hdrs ++ content_length_wr (lit "0") ++ [CR; LF].

(** [send_non_200_ack] *)
Definition ack_len (ruri cseq_num : list Z) (via1 from to callid mf : sip_header) (route : list sip_header) : Z :=
  request_line_len (lit "ACK") ruri + copy_hdr_len via1 + copy_hdr_len from + copy_hdr_len to
  + copy_hdr_len callid + cseq_len cseq_num (lit "ACK") + copy_hdr_len mf + copy_hdrs_len route
  + content_length_len (lit "0") + 2.

Definition ack_wr (ruri cseq_num : list Z) (via1 from to callid mf : sip_header) (route : list sip_header) : list Z :=
  request_line_wr (lit "ACK") ruri ++ copy_hdr_wr m via1 ++ copy_hdr_wr m from ++ copy_hdr_wr m to
  ++ copy_hdr_wr m callid ++ cseq_wr cseq_num (lit "ACK") ++ copy_hdr_wr m mf ++ copy_hdrs_wr m route
  ++ content_length_wr (lit "0") ++ [CR; LF].

End Requests.

(** ** The buffers are filled exactly *)

Lemma length_chars m x : 0 <= len x -> Z.of_nat (length (chars m x)) = len x.
Proof. intros. unfold chars. rewrite length_bytes. lia. Qed.

Lemma length_between m a b : a <= b -> Z.of_nat (length (between m a b)) = b - a.
Proof. intros. unfold between. rewrite length_bytes. lia. Qed.

(** The lengths in a header are unsigned. *)
Definition hdr_ok (h : sip_header) : Prop := 0 <= len (name h) /\ 0 <= len (value h).

(** Turn the length of what is written into a sum. *)
Ltac len_sum :=
  repeat (rewrite length_app || rewrite length_cons || rewrite Nat2Z.inj_add || rewrite Nat2Z.inj_succ);
  rewrite ?length_chars by done.

Lemma copy_hdr_exact m h : hdr_ok h -> Z.of_nat (length (copy_hdr_wr m h)) = copy_hdr_len h.
Proof. intros [Hn Hv]. unfold copy_hdr_wr, copy_hdr_len. len_sum. cbn [length]. lia. Qed.

Lemma copy_hdrs_exact m hs : Forall hdr_ok hs -> Z.of_nat (length (copy_hdrs_wr m hs)) = copy_hdrs_len hs.
Proof.
  induction 1 as [|h hs Hh _ IH]; [done|]. unfold copy_hdrs_wr in *. cbn [map concat copy_hdrs_len fold_right].
  rewrite length_app, Nat2Z.inj_add, IH, copy_hdr_exact by done. done.
Qed.

Lemma copy_hdrs_no_via_exact m hs :
  Forall hdr_ok hs -> Z.of_nat (length (copy_hdrs_wr_no_via m hs)) = copy_hdrs_len_no_via hs.
Proof.
  induction 1 as [|h hs Hh _ IH]; [done|]. cbn [copy_hdrs_wr_no_via copy_hdrs_len_no_via].
  rewrite length_app, Nat2Z.inj_add, IH. destruct (is_via h); [done|]. by rewrite copy_hdr_exact.
Qed.

Lemma copy_hdrs_no_via_contact_exact m hs :
  Forall hdr_ok hs -> Z.of_nat (length (copy_hdrs_wr_no_via_contact m hs)) = copy_hdrs_len_no_via_contact hs.
Proof.
  induction 1 as [|h hs Hh _ IH]; [done|]. cbn [copy_hdrs_wr_no_via_contact copy_hdrs_len_no_via_contact].
  rewrite length_app, Nat2Z.inj_add, IH. destruct (is_via_contact h); [done|]. by rewrite copy_hdr_exact.
Qed.

Lemma request_line_exact x y : Z.of_nat (length (request_line_wr x y)) = request_line_len x y.
Proof. unfold request_line_wr, request_line_len. rewrite !length_app. cbn [length lit map list_ascii_of_string]. lia. Qed.

Lemma status_line_exact x y : Z.of_nat (length (status_line_wr x y)) = status_line_len y.
Proof. unfold status_line_wr, status_line_len. rewrite !length_app. cbn [length lit map list_ascii_of_string status_code_wr]. lia. Qed.

Lemma cseq_exact x y : Z.of_nat (length (cseq_wr x y)) = cseq_len x y.
Proof. unfold cseq_wr, cseq_len. rewrite !length_app. cbn [length lit map list_ascii_of_string]. lia. Qed.

Lemma content_length_exact x : Z.of_nat (length (content_length_wr x)) = content_length_len x.
Proof. unfold content_length_wr, content_length_len. rewrite !length_app. cbn [length lit map list_ascii_of_string]. lia. Qed.

Lemma content_type_exact x : Z.of_nat (length (content_type_wr x)) = content_type_len x.
Proof. unfold content_type_wr, content_type_len. rewrite !length_app. cbn [length lit map list_ascii_of_string]. lia. Qed.

Lemma contact_exact m x : 0 <= len x -> Z.of_nat (length (contact_wr m x)) = contact_len x.
Proof.
  intros. unfold contact_wr, contact_len. rewrite !length_app, !Nat2Z.inj_add, length_chars by done.
  cbn [length lit map list_ascii_of_string]. lia.
Qed.

Definition lower_letter (x : Z) : bool := (97 <=? x) && (x <=? 122).

Lemma via_trsp_exact t : forallb lower_letter t = true -> length (via_trsp_wr t) = length t.
Proof.
  induction t as [|x t IH]; [done|]. cbn [forallb]. intros [Hx Ht]%andb_true_iff. unfold via_trsp_wr in *.
  cbn [map concat]. unfold lower_letter in Hx. rewrite Hx. cbn. by rewrite IH.
Qed.

Lemma via_exact t a b r :
  forallb lower_letter t = true -> Z.of_nat (length (via_wr t a b r)) = via_len t a b r.
Proof.
  intros Ht. unfold via_wr, via_len, MAGIC_BRANCH_LEN. rewrite !length_app, via_trsp_exact by done.
  destruct r; cbn [length lit map list_ascii_of_string]; lia.
Qed.

(** The pointers into the top Via are in order. *)
Record via1_ok (v : via1_info) : Prop := {
  v1_hdr_ok : hdr_ok (v1_hdr v);
  v1_eop_in : s (value (v1_hdr v)) <= v1_eop v <= s (value (v1_hdr v)) + len (value (v1_hdr v));
  v1_rport_in : rport_empty v = true ->
    s (value (v1_hdr v)) <= s (v1_rport v) + len (v1_rport v) <= v1_eop v
}.

Lemma via1_exact m v ip port :
  via1_ok v -> Z.of_nat (length (via1_wr m v ip port)) = new_via1_len v ip port.
Proof.
  intros [[Hn Hv] He Hr]. unfold via1_wr, new_via1_len, copy_hdr_len. rewrite !length_app, !Nat2Z.inj_add.
  rewrite length_chars, (length_between _ (v1_eop v)) by lia.
  destruct (rport_empty v).
  - specialize (Hr eq_refl). rewrite !length_app, !Nat2Z.inj_add, !length_between by lia.
    destruct (append_received v ip); rewrite ?length_app; cbn [length lit map list_ascii_of_string]; lia.
  - rewrite length_between by lia. destruct (append_received v ip); rewrite ?length_app; cbn [length lit map list_ascii_of_string]; lia.
Qed.

Lemma tagged_to_exact m tag h :
  hdr_ok h -> Z.of_nat (length (tagged_to_wr m tag h)) = copy_hdr_len h + 5 + Z.of_nat (length tag).
Proof.
  intros [Hn Hv]. unfold tagged_to_wr, copy_hdr_len. rewrite !length_app, !Nat2Z.inj_add, !length_chars by done.
  cbn [length lit map list_ascii_of_string]. lia.
Qed.

(** At most one To header, which the parser sees to. *)
Definition one_to (hs : list req_hdr) : Prop := (length (List.filter is_to hs) <= 1)%nat.

Lemma one_to_same hs h h' :
  one_to hs -> In h hs -> In h' hs -> is_to h = true -> is_to h' = true -> h = h'.
Proof.
  unfold one_to. intros H1 Hh Hh' Ht Ht'.
  assert (In h (List.filter is_to hs)) as Hi by (by apply filter_In).
  assert (In h' (List.filter is_to hs)) as Hi' by (by apply filter_In).
  destruct (List.filter is_to hs) as [|x [|y l]]; [done | | cbn in H1; lia].
  destruct Hi as [<-|[]], Hi' as [<-|[]]. done.
Qed.

(** An existential test on the To headers is the test on the only one. *)
Lemma one_to_existsb (P : req_hdr -> bool) hs h :
  one_to hs -> In h hs -> is_to h = true -> existsb (fun x => is_to x && P x) hs = P h.
Proof.
  intros H1 Hh Ht. destruct (existsb _ hs) eqn:E.
  - apply existsb_exists in E as (x & Hx & Hp). apply andb_true_iff in Hp as [Htx Hp].
    by rewrite (one_to_same hs h x).
  - symmetry. apply not_true_iff_false. intros Hp. assert (existsb (fun x => is_to x && P x) hs = true) by
      (apply existsb_exists; exists h; by rewrite Ht, Hp). congruence.
Qed.

Lemma sum_lengths {A} (f : A -> list Z) (g : A -> Z) l :
  (forall x, In x l -> Z.of_nat (length (f x)) = g x) ->
  Z.of_nat (length (concat (map f l))) = fold_right (fun x n => g x + n) 0 l.
Proof.
  induction l as [|x l IH]; intros H; [done|]. cbn [map concat fold_right].
  rewrite length_app, Nat2Z.inj_add, IH, H; [done | by left | intros; apply H; by right].
Qed.

(** A reply is composed into a buffer of exactly its length: the bytes written for the
    status line, the headers copied from the request (the top Via with its received and
    rport parameters, the To with its tag), the headers of the reply, the Content-Length
    and the body are as many as the length added up before, so the buffer is neither
    overrun nor sent with an uninitialised tail. *)
Theorem reply_fills_buffer m v ip port to_tag code reason hs mh body :
  via1_ok v -> Forall (fun h => hdr_ok (rh_hdr h)) hs -> Forall hdr_ok mh -> one_to hs ->
  Z.of_nat (length (reply_wr m v ip port to_tag code reason hs mh body)) =
  reply_len v ip port to_tag reason hs mh body.
Proof.
  intros Hv Hh Hm H1. unfold reply_wr, reply_len.
  rewrite !length_app, !Nat2Z.inj_add, status_line_exact, copy_hdrs_exact, content_length_exact by done.
  rewrite (sum_lengths _ (reply_hdr_len v ip port to_tag)); [cbn [length]; lia|].
  intros h Hin. rewrite Forall_forall in Hh. specialize (Hh h (proj2 (list_elem_of_In _ _) Hin)).
  unfold reply_hdr_wr, reply_hdr_len.
  destruct (type (rh_hdr h)) eqn:Et; try done; try (by apply copy_hdr_exact).
  - destruct (rh_tag h) as [t|] eqn:Etag; [|done].
    assert (is_to h = true) as Hto by (unfold is_to; by rewrite Et).
    rewrite (one_to_existsb (fun x => negb (Nat.eqb (length to_tag) 0) && has_tag x) hs h H1 Hin Hto
             : have_to_tag to_tag hs = _). unfold has_tag. rewrite Etag.
    destruct (Nat.eqb (length to_tag) 0); cbn [negb andb orb]; [by rewrite copy_hdr_exact|].
    destruct (Nat.eqb (length t) 0); cbn [negb]; [rewrite tagged_to_exact by done; lia | by rewrite copy_hdr_exact].
  - destruct (rh_is_via1 h); [by apply via1_exact | by apply copy_hdr_exact].
Qed.

(** The other messages the transaction layer composes fill their buffers exactly, too:
    the stateless reply, the new request for a destination (for a transport name in lower
    case letters, as all the transports have), the CANCEL, and the ACK for a non-2xx
    reply. *)
Theorem composed_fill_buffers m :
  (forall tag code reason hs hdrs body,
     Forall (fun h => hdr_ok (rh_hdr h)) hs -> one_to hs -> Z.of_nat (length tag) = SL_TOTAG_LEN ->
     Z.of_nat (length (sl_reply_wr m tag code reason hs hdrs body)) = sl_reply_len reason hs hdrs body) /\
  (forall method ruri trsp addr branch vias hdrs contacts body,
     forallb lower_letter trsp = true -> Forall hdr_ok vias -> Forall hdr_ok hdrs -> Forall hdr_ok contacts ->
     Z.of_nat (length (new_request_wr m method ruri trsp addr branch vias hdrs contacts body)) =
     new_request_len method ruri trsp addr branch vias hdrs contacts body) /\
  (forall ruri num via1 to from callid mf route contacts hdrs,
     Forall hdr_ok [via1; to; from; callid; mf] -> Forall hdr_ok route -> Forall hdr_ok contacts ->
     Z.of_nat (length (cancel_wr m ruri num via1 to from callid mf route contacts hdrs)) =
     cancel_len ruri num via1 to from callid mf route contacts hdrs) /\
  (forall ruri num via1 from to callid mf route,
     Forall hdr_ok [via1; from; to; callid; mf] -> Forall hdr_ok route ->
     Z.of_nat (length (ack_wr m ruri num via1 from to callid mf route)) =
     ack_len ruri num via1 from to callid mf route).
Proof.
  splits.
  - intros tag code reason hs hdrs body Hh H1 Htag. unfold sl_reply_wr, sl_reply_len.
    rewrite !length_app, !Nat2Z.inj_add, status_line_exact, content_length_exact.
    rewrite (sum_lengths _ sl_hdr_len); [cbn [length]; lia|].
    intros h Hin. rewrite Forall_forall in Hh. specialize (Hh h (proj2 (list_elem_of_In _ _) Hin)).
    unfold sl_hdr_wr, sl_hdr_len. destruct (type (rh_hdr h)) eqn:Et; try done; try (by apply copy_hdr_exact).
    assert (is_to h = true) as Hto by (unfold is_to; by rewrite Et).
    rewrite (one_to_existsb has_tag hs h H1 Hin Hto : sl_have_to_tag hs = _).
    destruct (has_tag h); [by rewrite copy_hdr_exact | rewrite tagged_to_exact by done; lia].
  - intros. unfold new_request_wr, new_request_len.
    rewrite !length_app, !Nat2Z.inj_add, request_line_exact, via_exact, !copy_hdrs_exact,
      copy_hdrs_no_via_contact_exact, content_length_exact by done. cbn [length]. lia.
  - intros * H5 Hr Hc. rewrite !Forall_cons in H5. destruct H5 as (? & ? & ? & ? & ? & _). unfold cancel_wr, cancel_len.
    rewrite !length_app, !Nat2Z.inj_add, request_line_exact, cseq_exact, !copy_hdr_exact, !copy_hdrs_exact,
      content_length_exact by done. cbn [length]. lia.
  - intros * H5 Hr. rewrite !Forall_cons in H5. destruct H5 as (? & ? & ? & ? & ? & _). unfold ack_wr, ack_len.
    rewrite !length_app, !Nat2Z.inj_add, request_line_exact, cseq_exact, !copy_hdr_exact, !copy_hdrs_exact,
      content_length_exact by done. cbn [length]. lia.
Qed.

(** ** What was written is read back *)

Definition hdr_text (m : mem) (h : sip_header) : list Z * list Z := (chars m (name h), chars m (value h)).

Lemma copy_hdrs_wr_lines m hs : copy_hdrs_wr m hs = hdr_lines (map (hdr_text m) hs).
Proof. unfold copy_hdrs_wr, hdr_lines. by rewrite map_map. Qed.

(** Headers that were written out are read back by the header parser of received
    messages: the same number in the same order, each with its name and value byte for
    byte and the type its name has, the cursor behind the blank line. *)
Theorem headers_roundtrip m hs m' a e :
  Forall (fun h => good_hdr (hdr_text m h) = true) hs ->
  let w := copy_hdrs_wr m hs ++ CRLF in
  holds m' a w -> a + Z.of_nat (length w) <= e ->
  exists hs', parse_headers m' a e = Some (hs', a + Z.of_nat (length w), 0) /\
    map (hdr_view m') hs' =
    map (fun h => (parse_header_type (chars m (name h)), chars m (name h), chars m (value h))) hs.
Proof.
  intros Hg w Hh He. unfold w in *. rewrite copy_hdrs_wr_lines in *.
  assert (Hg' : forallb good_hdr (map (hdr_text m) hs) = true).
  { apply forallb_forall. intros x (h & <- & Hin%list_elem_of_In)%in_map_iff.
    rewrite Forall_forall in Hg. by apply Hg. }
  destruct (ph_lines m' e (map (hdr_text m) hs) a [] 0 Hg' Hh He) as (q & Hq & Hhs & Hc).
  exists (ph_hdrs q). split.
  - rewrite (ph_to_parse m' a e q 0); [by rewrite Hc | | exact Hq]. rewrite length_app in He. cbn in He. lia.
  - rewrite Hhs. cbn [app]. apply holds_app in Hh as [Hh _]. rewrite (hdrs_of_view _ _ _ Hh), map_map. done.
Qed.

(** A header for the witnesses: [n] at 0, [v] at 100. *)
Definition demo_mem (n v : list Z) : mem :=
  fun i => if i <? 100 then mem_at 0 n i else mem_at 100 v i.

Definition demo_hdr (t : hdr_type) (n v : list Z) : sip_header :=
  mk_header t (mk_cstr 0 (Z.of_nat (length n))) (mk_cstr 100 (Z.of_nat (length v))).

Lemma headers_roundtrip_witness :
  let m := demo_mem (lit "Via") (lit "SIP/2.0/UDP h;branch=1") in
  let hs := [demo_hdr H_VIA (lit "Via") (lit "SIP/2.0/UDP h;branch=1")] in
  let w := copy_hdrs_wr m hs ++ CRLF in
  exists hs', parse_headers (mem_at 7 w) 7 60 = Some (hs', 7 + Z.of_nat (length w), 0) /\
    map (hdr_view (mem_at 7 w)) hs' =
    map (fun h => (parse_header_type (chars m (name h)), chars m (name h), chars m (value h))) hs.
Proof.
  intros m hs w. apply (headers_roundtrip m hs (mem_at 7 w) 7 60); [by repeat constructor | apply holds_mem_at | done].
Defined.

Lemma reply_fills_buffer_witness :
  let m := demo_mem (lit "Via") (lit "SIP/2.0/UDP h;rport;branch=1") in
  let h := demo_hdr H_VIA (lit "Via") (lit "SIP/2.0/UDP h;rport;branch=1") in
  let v := mk_via1 h (lit "h") true (mk_cstr 119 0) 128 in
  let hs := [mk_req_hdr h true None] in
  Z.of_nat (length (reply_wr m v (lit "10.0.0.1") (lit "5070") (lit "tag") 200 (lit "OK") hs [] (lit "v=0"))) =
  reply_len v (lit "10.0.0.1") (lit "5070") (lit "tag") (lit "OK") hs [] (lit "v=0").
Proof.
  intros m h v hs. apply (reply_fills_buffer m v); [| apply List.Forall_cons; [split; cbn; lia | apply List.Forall_nil] | apply List.Forall_nil | vm_compute; lia].
  split; [split; cbn; lia | cbn; lia | cbn; lia].
Defined.

Lemma composed_fill_buffers_witness :
  let m := demo_mem (lit "To") (lit "<sip:a@b>") in
  let h := demo_hdr H_TO (lit "To") (lit "<sip:a@b>") in
  Z.of_nat (length (sl_reply_wr m (lit "12345678") 404 (lit "Not Found") [mk_req_hdr h false (Some [])] [] [])) =
    sl_reply_len (lit "Not Found") [mk_req_hdr h false (Some [])] [] [] /\
  Z.of_nat (length (new_request_wr m (lit "BYE") (lit "sip:a") (lit "udp") (lit "c") (lit "1") [] [h] [] [])) =
    new_request_len (lit "BYE") (lit "sip:a") (lit "udp") (lit "c") (lit "1") [] [h] [] [].
Proof.
  intros m h. split.
  - apply (proj1 (composed_fill_buffers m)); [apply List.Forall_cons; [split; cbn; lia | apply List.Forall_nil] | vm_compute; lia | done].
  - apply (proj1 (proj2 (composed_fill_buffers m))); try done.
    apply List.Forall_cons; [split; cbn; lia | apply List.Forall_nil].
Defined.

(** The received parameter is left out when the address in the Via only begins like the
    address the request came from: the comparison stops at the shorter of the two. *)
Theorem received_prefix_not_appended v ip x :
  v1_host v = ip -> append_received v (ip ++ x) = false.
Proof. intros H. unfold append_received. rewrite H. clear H. induction ip as [|a ip IH]; [done|]. cbn. by rewrite Z.eqb_refl. Qed.

(** ** What was written is framed *)

(** The header list of a composed request, as text. *)
Definition new_request_hdrs (m : mem) (trsp addr branch : list Z) (vias hdrs contacts : list sip_header)
    (body : list Z) : list (list Z * list Z) :=
  (lit "Via", lit "SIP/2.0/" ++ via_trsp_wr trsp ++ [SP] ++ addr ++ lit ";branch=z9hG4bK" ++ branch ++ lit ";rport")
  :: map (hdr_text m) vias ++ map (hdr_text m) (List.filter (fun h => negb (is_via_contact h)) hdrs)
  ++ map (hdr_text m) contacts ++ [(lit "Content-Length", int2str (Z.of_nat (length body)))].

Lemma copy_hdrs_no_via_contact_lines m hs :
  copy_hdrs_wr_no_via_contact m hs =
  hdr_lines (map (hdr_text m) (List.filter (fun h => negb (is_via_contact h)) hs)).
Proof.
  induction hs as [|h hs IH]; [done|]. cbn [copy_hdrs_wr_no_via_contact List.filter].
  destruct (is_via_contact h); cbn [negb]; [exact IH|]. rewrite IH. done.
Qed.

Lemma hdr_lines_cons h l : hdr_lines (h :: l) = hdr_line h ++ hdr_lines l.
Proof. done. Qed.

Lemma new_request_head m method ruri trsp addr branch vias hdrs contacts body :
  new_request_wr m method ruri trsp addr branch vias hdrs contacts body =
  msg_head (method ++ [SP] ++ ruri ++ lit " SIP/2.0") (new_request_hdrs m trsp addr branch vias hdrs contacts body)
  ++ body.
Proof.
  unfold new_request_wr, msg_head, new_request_hdrs. rewrite copy_hdrs_no_via_contact_lines, !copy_hdrs_wr_lines.
  rewrite (hdr_lines_cons (lit "Via", _)), !hdr_lines_app, hdr_lines_cons.
  unfold request_line_wr, via_wr, content_length_wr, hdr_line, CRLF. cbn [fst snd].
  rewrite <- !app_assoc. reflexivity.
Qed.

Lemma int2str_all_digits n : 0 <= n -> forallb IS_DIGIT (int2str n) = true /\ int2str n <> [].
Proof.
  assert (forall f n acc, 0 <= n -> forallb IS_DIGIT acc = true -> forallb IS_DIGIT (int2str_loop f n acc) = true) as H.
  { induction f as [|f IH]; intros k acc Hk Ha; [done|]. cbn [int2str_loop].
    pose proof (Z.mod_pos_bound k 10 ltac:(lia)).
    assert (forallb IS_DIGIT (48 + k mod 10 :: acc) = true).
    { cbn [forallb]. rewrite Ha, andb_true_r. unfold IS_DIGIT, IS_IN. apply andb_true_iff; split; apply Z.leb_le; lia. }
    destruct (k / 10 =? 0); [done|]. apply IH; [apply Z.div_pos; lia | done]. }
  intros Hn. split; [by apply H|]. unfold int2str. destruct (int2str_loop_head 61 n Hn) as (x & l & -> & _). done.
Qed.

Lemma digit_text x : IS_DIGIT x = true -> text_char x = true /\ IS_WSP x = false.
Proof.
  unfold IS_DIGIT, IS_IN, text_char, IS_WSP, CR, LF, SP, HTAB. intros H. zbool.
  split; [apply negb_true_iff; rewrite !orb_false_iff; splits | apply orb_false_iff; split]; apply Z.eqb_neq; lia.
Qed.

Lemma good_value_digits l : forallb IS_DIGIT l = true -> l <> [] -> good_value l = true.
Proof.
  intros Hd Hne. destruct l as [|x l]; [done|]. cbn [good_value].
  rewrite forallb_forall in Hd. apply andb_true_iff; split.
  - apply negb_true_iff, digit_text, Hd. by left.
  - apply forallb_forall. intros y Hy. by apply digit_text, Hd.
Qed.

Lemma declared_length_app cl l l' :
  0 <= cl -> Forall (fun h => parse_header_type h.1 <> H_CONTENT_LENGTH) l ->
  declared_length cl (l ++ l') = declared_length cl l'.
Proof.
  intros Hcl H. induction H as [|h l Hh _ IH]; [done|]. cbn [app declared_length].
  destruct (decide _); [done|]. destruct (Z.ltb_spec cl 0); [lia | exact IH].
Qed.

Lemma via_trsp_text t : forallb text_char (via_trsp_wr t) = true.
Proof.
  induction t as [|x t IH]; [done|]. unfold via_trsp_wr in *. cbn [map concat]. rewrite forallb_app, IH, andb_true_r.
  destruct ((97 <=? x) && (x <=? 122)) eqn:E; [|done]. zbool. cbn. rewrite andb_true_r.
  unfold text_char, CR, LF. apply negb_true_iff. rewrite !orb_false_iff. splits; apply Z.eqb_neq; lia.
Qed.

(** A header as the parser left it: text that can be on one line, typed by its name. *)
Definition hdr_good (m : mem) (h : sip_header) : Prop :=
  good_hdr (hdr_text m h) = true /\ type h = parse_header_type (chars m (name h)).

Lemma hdr_good_text m hs : Forall (hdr_good m) hs -> forallb good_hdr (map (hdr_text m) hs) = true.
Proof. induction 1 as [|h hs [Hh _] _ IH]; [done|]. cbn. by rewrite Hh, IH. Qed.

Lemma hdr_good_not_cl m hs :
  Forall (hdr_good m) hs -> Forall (fun h => type h <> H_CONTENT_LENGTH) hs ->
  Forall (fun h => parse_header_type h.1 <> H_CONTENT_LENGTH) (map (hdr_text m) hs).
Proof.
  intros Hg. induction Hg as [|h hs [_ Ht] _ IH]; intros H; [constructor|].
  apply Forall_cons in H as [H1 H2]. cbn [map]. apply List.Forall_cons; [cbn; congruence | auto].
Qed.

Lemma Forall_filter_good m (P : sip_header -> bool) hs :
  Forall (hdr_good m) hs -> Forall (hdr_good m) (List.filter P hs).
Proof. induction 1 as [|h hs Hh _ IH]; [constructor|]. cbn. destruct (P h); [by constructor | done]. Qed.

Section NewRequest.
Context (m : mem) (method ruri trsp addr branch : list Z) (vias hdrs contacts : list sip_header) (body : list Z).
Hypothesis text_ok : forallb text_char (method ++ ruri ++ addr ++ branch) = true.
Hypothesis hdrs_ok : Forall (hdr_good m) (vias ++ hdrs ++ contacts).
Hypothesis no_length : Forall (fun h => type h <> H_CONTENT_LENGTH) (vias ++ contacts).
Hypothesis body_ok : Z.of_nat (length body) <= INT_MAX.

Lemma new_request_good :
  good_head (method ++ [SP] ++ ruri ++ lit " SIP/2.0")
    (new_request_hdrs m trsp addr branch vias hdrs contacts body) = true.
Proof.
  rewrite !forallb_app, !andb_true_iff in text_ok. destruct text_ok as (Hme & Hru & Had & Hbr).
  rewrite !Forall_app in hdrs_ok. destruct hdrs_ok as (Hg1 & Hg2 & Hg3).
  destruct (int2str_all_digits (Z.of_nat (length body)) ltac:(lia)) as [Hdig Hne].
  unfold good_head, new_request_hdrs. rewrite !forallb_app, Hme, Hru. cbn [forallb andb].
  rewrite !forallb_app, !hdr_good_text by (first [done | by apply Forall_filter_good]).
  assert (good_hdr (lit "Content-Length", int2str (Z.of_nat (length body))) = true) as Hcl
    by (unfold good_hdr; cbn [fst snd]; by rewrite good_value_digits).
  cbn [forallb]. rewrite Hcl. cbn [andb]. rewrite andb_true_r.
  assert (forall x, forallb text_char x = true -> good_value (lit "SIP/2.0/" ++ x) = true) as Hsip
    by (intros x Hx; cbn [app lit map list_ascii_of_string good_value]; cbn; by rewrite Hx).
  unfold good_hdr. cbn [fst snd]. rewrite Hsip; [done|].
  by rewrite !forallb_app, via_trsp_text, Had, Hbr.
Qed.

Lemma new_request_declared :
  declared_length 0 (new_request_hdrs m trsp addr branch vias hdrs contacts body) = Some (Z.of_nat (length body)).
Proof.
  rewrite !Forall_app in hdrs_ok. destruct hdrs_ok as (Hg1 & Hg2 & Hg3).
  apply Forall_app in no_length as [Hn1 Hn3].
  assert (Forall (fun h => type h <> H_CONTENT_LENGTH) (List.filter (fun h => negb (is_via_contact h)) hdrs)) as Hnf.
  { apply Forall_forall. intros h Hin%list_elem_of_In. apply filter_In in Hin as [_ Hin]. intros Ht.
    unfold is_via_contact in Hin. rewrite Ht in Hin. done. }
  unfold new_request_hdrs. change (?x :: ?l) with ([x] ++ l) at 1.
  rewrite declared_length_app; [|done | by constructor].
  rewrite declared_length_app by (first [lia | by apply hdr_good_not_cl]).
  rewrite declared_length_app by (first [lia | apply hdr_good_not_cl; [by apply Forall_filter_good | done]]).
  rewrite declared_length_app by (first [lia | by apply hdr_good_not_cl]).
  cbn [declared_length fst snd]. rewrite decide_True by reflexivity.
  rewrite str2int_int2str by lia.
  change (default 0 (Some (Z.of_nat (length body)))) with (Z.of_nat (length body)).
  by destruct (Z.ltb_spec (Z.of_nat (length body)) 0); [lia|].
Qed.
End NewRequest.

(** A request the stack composes for a destination is a message its own stream scanner
    delimits exactly: found complete at its last byte, with the length that was computed
    for its buffer, whatever follows it, because the Content-Length it writes is the
    length of the body and is the only one in it. *)
Theorem request_framed m method ruri trsp addr branch vias hdrs contacts body m' a e :
  forallb text_char (method ++ ruri ++ addr ++ branch) = true -> forallb lower_letter trsp = true ->
  Forall (hdr_good m) (vias ++ hdrs ++ contacts) ->
  Forall (fun h => type h <> H_CONTENT_LENGTH) (vias ++ contacts) ->
  Z.of_nat (length body) <= INT_MAX ->
  let w := new_request_wr m method ruri trsp addr branch vias hdrs contacts body in
  holds m' a w -> a + Z.of_nat (length w) <= e ->
  exists q, skip_sip_msg_async m' e (reset a) = Some (q, 0) /\ orig_buf q = a /\
    get_msg_len q = Z.of_nat (length w).
Proof.
  intros Ht Htr Hg Hnc Hb w Hh He. unfold w in *. clear w. rewrite new_request_head in *.
  apply holds_app in Hh as [Hh _]. rewrite length_app, Nat2Z.inj_add in He |- *.
  destruct (skip_written m' e a _ _ (Z.of_nat (length body))
    (new_request_good m method ruri trsp addr branch vias hdrs contacts body Ht Hg) Hh
    (new_request_declared m trsp addr branch vias hdrs contacts body Hg Hnc Hb) He) as (q & Hq & Ho & _ & Hl).
  by exists q.
Qed.

Lemma request_framed_witness :
  let m := demo_mem (lit "To") (lit "<sip:a@b>") in
  let h := demo_hdr H_TO (lit "To") (lit "<sip:a@b>") in
  let w := new_request_wr m (lit "INFO") (lit "sip:a") (lit "tcp") (lit "c") (lit "12345678") [] [h] [] (lit "hello") in
  exists q, skip_sip_msg_async (mem_at 3 (w ++ lit "BYE")) 200 (reset 3) = Some (q, 0) /\ orig_buf q = 3 /\
    get_msg_len q = Z.of_nat (length w).
Proof.
  intros m h w. apply (request_framed m (lit "INFO") (lit "sip:a") (lit "tcp") (lit "c") (lit "12345678") [] [h] [] (lit "hello"));
    [done | done | by constructor | constructor | done | | done].
  exact (proj1 (proj1 (holds_app _ _ _ _) (holds_mem_at 3 (w ++ lit "BYE")))).
Defined.
