(* ===== verification/ParseParams.v ===== *)
(** * Generic parameters

    Model of [_parse_gen_params] and its two entry points (core/sip/parse_common.cpp),
    the state machine that reads the [;name=value] parameters of Via, From, To, Contact
    and Route.  The properties: the loop ends; parameters as they are written are read
    back; what the missing [break] after [VP_PNAME_EQU] does to white space around "=". *)

From Stdlib Require Import ZArith Lia Ascii String.
From stdpp Require Import base list.
From S2P Require Import Prelude ParseCommon.

Local Open Scope Z_scope.
Local Open Scope bool_scope.

Record sip_avp := mk_avp { avp_name : cstr; avp_value : cstr }.

Definition sip_avp0 : sip_avp := mk_avp cstr0 cstr0.

Definition VP_PARAM_SEP : Z := 0.
Definition VP_PARAM_SEP_SWS : Z := 1.
Definition VP_PNAME : Z := 2.
Definition VP_PNAME_EQU : Z := 3.
Definition VP_PNAME_EQU_SWS : Z := 4.
Definition VP_PVALUE : Z := 5.
Definition VP_PVALUE_QUOTED : Z := 6.

(** The local variables: [*c], [beg], [st], [saved_st], [*avp], and [*params]. *)
Record gp_state := mk_gp {
  gp_c : Z; gp_beg : Z; gp_st : Z; gp_saved : Z; gp_avp : sip_avp; gp_params : list sip_avp
}.

Definition gp_set_c (x : Z) (p : gp_state) : gp_state :=
  mk_gp x (gp_beg p) (gp_st p) (gp_saved p) (gp_avp p) (gp_params p).
Definition gp_set_st (x : Z) (p : gp_state) : gp_state :=
  mk_gp (gp_c p) (gp_beg p) x (gp_saved p) (gp_avp p) (gp_params p).
Definition gp_set_beg (x : Z) (p : gp_state) : gp_state :=
  mk_gp (gp_c p) x (gp_st p) (gp_saved p) (gp_avp p) (gp_params p).
Definition gp_set_saved (x : Z) (p : gp_state) : gp_state :=
  mk_gp (gp_c p) (gp_beg p) (gp_st p) x (gp_avp p) (gp_params p).

(** [case_CR_LF]: [saved_st = st; st = x]. *)
Definition gp_save_eol (x : Z) (p : gp_state) : gp_state :=
  mk_gp (gp_c p) (gp_beg p) x (gp_st p) (gp_avp p) (gp_params p).

(** [avp->name.set(beg,l)] and [avp->value.set(beg,l)] *)
Definition gp_set_name (l : Z) (p : gp_state) : gp_state :=
  mk_gp (gp_c p) (gp_beg p) (gp_st p) (gp_saved p) (mk_avp (mk_cstr (gp_beg p) l) (avp_value (gp_avp p))) (gp_params p).
Definition gp_set_value (l : Z) (p : gp_state) : gp_state :=
  mk_gp (gp_c p) (gp_beg p) (gp_st p) (gp_saved p) (mk_avp (avp_name (gp_avp p)) (mk_cstr (gp_beg p) l)) (gp_params p).

(** [params->push_back(avp.release()); avp.reset(new sip_avp());] *)
Definition gp_push (p : gp_state) : gp_state :=
  mk_gp (gp_c p) (gp_beg p) (gp_st p) (gp_saved p) sip_avp0 (gp_params p ++ [gp_avp p]).

(** [case VP_PNAME_EQU_SWS] *)
Definition gp_equ_sws (ch : Z) (p : gp_state) : outcome gp_state :=
  if ch =? CR then Go (gp_save_eol ST_CR p)
  else if ch =? LF then Go (gp_save_eol ST_LF p)
  else if (ch =? SP) || (ch =? HTAB) then Go p
  else if ch =? DQUOTE then Go (gp_set_beg (gp_c p + 1) (gp_set_st VP_PVALUE_QUOTED p))
  else if ch =? SEMICOLON then Go (gp_push (gp_set_st VP_PARAM_SEP_SWS p))
  else Go (gp_set_beg (gp_c p) (gp_set_st VP_PVALUE p)).

(** The body of the loop; [e] is the end of the text, [stop] the stop character. *)
Definition gen_params_char (stop e : Z) (m : mem) (p : gp_state) : outcome gp_state :=
  let ch := m (gp_c p) in
  let st := gp_st p in
  if st =? VP_PARAM_SEP then
    if ch =? CR then Go (gp_save_eol ST_CR p)
    else if ch =? LF then Go (gp_save_eol ST_LF p)
    else if (ch =? SP) || (ch =? HTAB) then Go p
    else if ch =? SEMICOLON then Go (gp_set_st VP_PARAM_SEP_SWS p)
    else if ch =? stop then Ret p 0
    else Ret p MALFORMED_SIP_MSG
  else if st =? VP_PARAM_SEP_SWS then
    if ch =? CR then Go (gp_save_eol ST_CR p)
    else if ch =? LF then Go (gp_save_eol ST_LF p)
    else if (ch =? SP) || (ch =? HTAB) then Go p
    else Go (gp_set_beg (gp_c p) (gp_set_st VP_PNAME p))
  else if st =? VP_PNAME then
    if ch =? CR then Go (gp_save_eol ST_CR p)
    else if ch =? LF then Go (gp_save_eol ST_LF p)
    else if (ch =? SP) || (ch =? HTAB) then Go (gp_set_name (gp_c p - gp_beg p) (gp_set_st VP_PNAME_EQU p))
    else if ch =? EQU then Go (gp_set_name (gp_c p - gp_beg p) (gp_set_st VP_PNAME_EQU_SWS p))
    else if ch =? SEMICOLON then
      Go (gp_push (gp_set_name (gp_c p - gp_beg p) (gp_set_st VP_PARAM_SEP_SWS p)))
    else if ch =? stop then Ret (gp_push (gp_set_name (gp_c p - gp_beg p) p)) 0
    else Go p
  else if st =? VP_PNAME_EQU then
    (* no break at the end: what goes on falls through into the next case *)
    if ch =? CR then gp_equ_sws ch (gp_save_eol ST_CR p)
    else if ch =? LF then gp_equ_sws ch (gp_save_eol ST_LF p)
    else if (ch =? SP) || (ch =? HTAB) then gp_equ_sws ch p
    else if ch =? EQU then gp_equ_sws ch (gp_set_st VP_PNAME_EQU_SWS p)
    else if ch =? SEMICOLON then gp_equ_sws ch (gp_push (gp_set_st VP_PARAM_SEP_SWS p))
    else if ch =? stop then Ret (gp_push p) 0
    else Ret p MALFORMED_SIP_MSG
  else if st =? VP_PNAME_EQU_SWS then gp_equ_sws ch p
  else if st =? VP_PVALUE then
    if ch =? CR then Go (gp_save_eol ST_CR p)
    else if ch =? LF then Go (gp_save_eol ST_LF p)
    else if ch =? DQUOTE then Go (gp_set_st VP_PVALUE_QUOTED p)
    else if ch =? SEMICOLON then
      Go (gp_push (gp_set_value (gp_c p - gp_beg p) (gp_set_st VP_PARAM_SEP_SWS p)))
    else if ch =? stop then Ret (gp_push (gp_set_value (gp_c p - gp_beg p) p)) 0
    else Go p
  else if st =? VP_PVALUE_QUOTED then
    if ch =? CR then Go (gp_save_eol ST_CR p)
    else if ch =? LF then Go (gp_save_eol ST_LF p)
    else if ch =? DQUOTE then
      Go (gp_push (gp_set_value (gp_c p - gp_beg p) (gp_set_st VP_PARAM_SEP p)))
    else if ch =? BACKSLASH then
      if gp_c p + 1 >=? e then Ret p MALFORMED_SIP_MSG else Go (gp_set_c (gp_c p + 1) p)
    else Go p
  else if st =? ST_CR then
    if ch =? LF then Go (gp_set_st ST_CRLF p) else Ret p MALFORMED_SIP_MSG
  else if (st =? ST_LF) || (st =? ST_CRLF) then
    let l := gp_c p - eol_len st - gp_beg p in
    let p :=
      if gp_saved p =? VP_PNAME then gp_set_saved VP_PNAME_EQU (gp_set_name l p)
      else if gp_saved p =? VP_PVALUE then gp_push (gp_set_saved VP_PARAM_SEP (gp_set_value l p))
      else p in
    Go (gp_set_st (gp_saved p) p)
  else Go p.

(** The [switch] after the loop. *)
Definition gen_params_end (p : gp_state) : gp_state * Z :=
  let st := gp_st p in
  if st =? VP_PNAME then (gp_push (gp_set_name (gp_c p - gp_beg p) p), 0)
  else if st =? VP_PVALUE then (gp_push (gp_set_value (gp_c p - gp_beg p) p), 0)
  else if (st =? VP_PARAM_SEP) || (st =? VP_PARAM_SEP_SWS) then (p, 0)
  else if (st =? VP_PNAME_EQU) || (st =? VP_PNAME_EQU_SWS) then (gp_push p, 0)
  else (p, MALFORMED_SIP_MSG).

Abbreviation gp_loop stop e := (run_loop gp_c gp_set_c (gen_params_char stop e)).

(** [_parse_gen_params] on the text from [c] to [e], appending to [params]: the cursor, the
    parameters and the return code. *)
Definition _parse_gen_params (m : mem) (c e stop : Z) (beg_w_sc : bool) (params : list sip_avp)
    : option (Z * list sip_avp * Z) :=
  let st := if beg_w_sc then VP_PARAM_SEP else VP_PARAM_SEP_SWS in
  match gp_loop stop e (S (Z.to_nat (e - c))) m e (mk_gp c c st 0 sip_avp0 params) with
  | None => None
  | Some (p, Some r) => Some (gp_c p, gp_params p, r)
  | Some (p, None) => let '(p, r) := gen_params_end p in Some (gp_c p, gp_params p, r)
  end.

Definition parse_gen_params_sc (m : mem) (c e stop : Z) (params : list sip_avp) : option (Z * list sip_avp * Z) :=
  _parse_gen_params m c e stop true params.

Definition parse_gen_params (m : mem) (c e stop : Z) (params : list sip_avp) : option (Z * list sip_avp * Z) :=
  _parse_gen_params m c e stop false params.

(** ** Termination *)

Lemma gp_equ_sws_cursor ch p p' : gp_equ_sws ch p = Go p' -> gp_c p' = gp_c p.
Proof. unfold gp_equ_sws. intros H. repeat case_match; by simplify_eq. Qed.

Lemma gen_params_char_cursor stop e m p p' :
  gp_c p < e -> gen_params_char stop e m p = Go p' -> gp_c p <= gp_c p' < e.
Proof.
  intros He. unfold gen_params_char. intros H.
  assert (gp_c p' = gp_c p \/ gp_c p' = gp_c p + 1 /\ gp_c p + 1 < e) as [->|[-> ?]]; [|lia..].
  repeat case_match; try done;
    try (apply gp_equ_sws_cursor in H; cbn in H; by left); simplify_eq; try (by left).
  right. destruct (Z.geb_spec (gp_c p + 1) e); [done|]. cbn. lia.
Qed.

Lemma gen_params_ret_cursor stop e m p p' r :
  gp_c p < e -> gen_params_char stop e m p = Ret p' r -> gp_c p' = gp_c p.
Proof.
  intros He. unfold gen_params_char, gp_equ_sws. intros H. repeat case_match; by simplify_eq.
Qed.

(** The loop ends, and the cursor with it inside the text. *)
Lemma gen_params_total m c e stop sc params :
  c <= e -> exists c' ps r, _parse_gen_params m c e stop sc params = Some (c', ps, r) /\ c <= c' <= e.
Proof.
  intros He. unfold _parse_gen_params.
  destruct (run_loop_ends gp_c gp_set_c (gen_params_char stop e) (fun p => c <= gp_c p <= e) (fun p => Z.to_nat (e - gp_c p))
    (S (Z.to_nat (e - c))) m e (mk_gp c c (if sc then VP_PARAM_SEP else VP_PARAM_SEP_SWS) 0 sip_avp0 params))
    as (p & o & -> & Ho).
  - intros x y Hx Hne Hy. apply gen_params_char_cursor in Hy; [|lia]. cbn. lia.
  - cbn. lia.
  - cbn. lia.
  - destruct o as [r|].
    + destruct Ho as (z & Hz & Hne & Hr). apply gen_params_ret_cursor in Hr; [|lia]. eexists _, _, _. split; [done|lia].
    + destruct (gen_params_end p) as [p' r] eqn:E. eexists _, _, _. split; [done|].
      assert (gp_c p' = gp_c p) as ->; [|lia]. unfold gen_params_end in E. repeat case_match; by simplify_eq.
Qed.

Lemma gen_params_run m c e stop (sc : bool) params p' o :
  c <= e ->
  loop_to gp_c gp_set_c (gen_params_char stop e) m e
    (mk_gp c c (if sc then VP_PARAM_SEP else VP_PARAM_SEP_SWS) 0 sip_avp0 params) (p', o) ->
  _parse_gen_params m c e stop sc params =
    Some (match o with
          | Some r => (gp_c p', gp_params p', r)
          | None => let '(p, r) := gen_params_end p' in (gp_c p, gp_params p, r)
          end).
Proof.
  intros He Hl. unfold _parse_gen_params.
  destruct (run_loop_total gp_c gp_set_c (gen_params_char stop e) (S (Z.to_nat (e - c))) m e
              (mk_gp c c (if sc then VP_PARAM_SEP else VP_PARAM_SEP_SWS) 0 sip_avp0 params))
    as (y & o' & Hr); try done.
  - intros x y Hx Hy. by eapply gen_params_char_cursor.
  - cbn. lia.
  - pose proof (loop_to_run gp_c gp_set_c _ _ _ _ _ _ _ Hl Hr) as E. injection E as -> ->. rewrite Hr. clear Hr.
    destruct o; [done|]. by destruct (gen_params_end p').
Qed.

(** ** Parameters as they are written *)

Inductive pvalue : Type :=
| NoValue
| Token (v : list Z)
| Quoted (v : list Z).

Definition pvalue_text (v : pvalue) : list Z :=
  match v with NoValue => [] | Token v => v | Quoted v => v end.

Definition param_wr (p : list Z * pvalue) : list Z :=
  SEMICOLON :: p.1 ++ match p.2 with
                      | NoValue => []
                      | Token v => EQU :: v
                      | Quoted v => EQU :: DQUOTE :: v ++ [DQUOTE]
                      end.

Definition params_wr (ps : list (list Z * pvalue)) : list Z := flat_map param_wr ps.

(** A character of a name or of an unquoted value, [stop] being the stop character. *)
Definition param_char (stop c : Z) : bool :=
  negb (inb c [CR; LF; SP; HTAB; SEMICOLON; EQU; DQUOTE; stop]).

(** The inside of a quoted string: a backslash takes the next character with it. *)
Fixpoint quoted_ok (l : list Z) : bool :=
  match l with
  | [] => true
  | c :: l' =>
      if c =? BACKSLASH then match l' with [] => false | _ :: l'' => quoted_ok l'' end
      else negb (inb c [CR; LF; DQUOTE]) && quoted_ok l'
  end.

Definition good_param (stop : Z) (p : list Z * pvalue) : bool :=
  negb (Nat.eqb (length p.1) 0) && forallb (param_char stop) p.1 &&
  match p.2 with
  | NoValue => true
  | Token v => negb (Nat.eqb (length v) 0) && forallb (param_char stop) v
  | Quoted v => quoted_ok v
  end.

Definition stop_ok (stop : Z) : bool := negb (inb stop [CR; LF; SP; HTAB; SEMICOLON; EQU; DQUOTE]).

(** What a parameter reads as. *)
Definition avp_text (m : mem) (a : sip_avp) : list Z * list Z := (chars m (avp_name a), chars m (avp_value a)).
Definition param_text (p : list Z * pvalue) : list Z * list Z := (p.1, pvalue_text p.2).

(** Between two parameters: [acc] are the parameters read, the last of them maybe pending. *)
Definition pending (acc : list sip_avp) (p : gp_state) : Prop :=
  (gp_st p = VP_PARAM_SEP /\ gp_avp p = sip_avp0 /\ gp_params p = acc) \/
  (gp_st p = VP_PNAME /\ gp_avp p = sip_avp0 /\
     acc = gp_params p ++ [mk_avp (mk_cstr (gp_beg p) (gp_c p - gp_beg p)) cstr0]) \/
  (gp_st p = VP_PVALUE /\
     acc = gp_params p ++ [mk_avp (avp_name (gp_avp p)) (mk_cstr (gp_beg p) (gp_c p - gp_beg p))]).

Lemma pending_semi stop e m acc p :
  pending acc p -> m (gp_c p) = SEMICOLON ->
  exists beg sv, gen_params_char stop e m p = Go (mk_gp (gp_c p) beg VP_PARAM_SEP_SWS sv sip_avp0 acc).
Proof.
  destruct p as [c beg st sv a ps]; unfold pending, gen_params_char; cbn.
  intros [(->&->&->)|[(->&->&->)|(->&->)]] ->; cbn; by exists beg, sv.
Qed.

Lemma pending_stop stop e m acc p :
  pending acc p -> stop_ok stop = true -> m (gp_c p) = stop ->
  exists p', gen_params_char stop e m p = Ret p' 0 /\ gp_c p' = gp_c p /\ gp_params p' = acc.
Proof.
  unfold stop_ok, inb; cbn. intros Hp Hs Hm. rewrite !orb_false_r, !negb_orb in Hs.
  repeat rewrite andb_true_iff in Hs. rewrite !negb_true_iff in Hs. destruct Hs as (H1&H2&H3&H4&H5&H6&H7).
  destruct p as [c beg st sv a ps]; unfold pending, gen_params_char in *; cbn in *.
  rewrite Hm, H1, H2, H3, H4, H5, H6, H7, Z.eqb_refl.
  destruct Hp as [(->&->&->)|[(->&->&->)|(->&->)]]; cbn; eauto.
Qed.

Lemma pending_end acc p :
  pending acc p -> exists p', gen_params_end p = (p', 0) /\ gp_c p' = gp_c p /\ gp_params p' = acc.
Proof.
  destruct p as [c beg st sv a ps]; unfold pending, gen_params_end; cbn.
  intros [(->&->&->)|[(->&->&->)|(->&->)]]; cbn; eauto.
Qed.

Lemma param_char_false stop c :
  param_char stop c = true ->
  (c =? CR) = false /\ (c =? LF) = false /\ (c =? SP) = false /\ (c =? HTAB) = false /\
  (c =? SEMICOLON) = false /\ (c =? EQU) = false /\ (c =? DQUOTE) = false /\ (c =? stop) = false.
Proof.
  unfold param_char, inb; cbn. rewrite orb_false_r, !negb_orb.
  repeat rewrite andb_true_iff. by rewrite !negb_true_iff.
Qed.

(** A name or a value is passed over. *)
Lemma gp_text stop e m l beg st sv a ps c y :
  st = VP_PNAME \/ st = VP_PVALUE -> forallb (param_char stop) l = true ->
  holds m c l -> c + Z.of_nat (length l) <= e ->
  loop_to gp_c gp_set_c (gen_params_char stop e) m e (mk_gp (c + Z.of_nat (length l)) beg st sv a ps) y ->
  loop_to gp_c gp_set_c (gen_params_char stop e) m e (mk_gp c beg st sv a ps) y.
Proof.
  intros Hst Hl Hh He Hy.
  apply (loop_run gp_c gp_set_c _ (fun p => gp_st p = st) m e _ l); try done.
  - by intros [].
  - intros x z Hx Hz Hm. apply list_elem_of_In in Hx. rewrite forallb_forall in Hl.
    apply Hl, param_char_false in Hx as (E1&E2&E3&E4&E5&E6&E7&E8).
    unfold gen_params_char. rewrite Hm, Hz, E1, E2, E3, E4, E5, E6, E7, E8.
    by destruct Hst as [-> | ->].
Qed.

(** The inside of a quoted string is passed over. *)
Lemma gp_quoted stop e m l beg sv a ps c y :
  quoted_ok l = true -> holds m c l -> c + Z.of_nat (length l) < e ->
  loop_to gp_c gp_set_c (gen_params_char stop e) m e (mk_gp (c + Z.of_nat (length l)) beg VP_PVALUE_QUOTED sv a ps) y ->
  loop_to gp_c gp_set_c (gen_params_char stop e) m e (mk_gp c beg VP_PVALUE_QUOTED sv a ps) y.
Proof.
  remember (length l) as n eqn:Hn. revert l c Hn.
  induction n as [n IH] using lt_wf_ind; intros l c -> Hl Hh He Hy.
  destruct l as [|x l]; [cbn in Hy; by rewrite Z.add_0_r in Hy|].
  apply holds_cons in Hh as [Hx Hh]. cbn [quoted_ok length] in *.
  destruct (Z.eqb_spec x BACKSLASH) as [Hb|Hb].
  - destruct l as [|z l]; [done|]. apply holds_cons in Hh as [_ Hh]. cbn [length] in *.
    apply (loop_step _ _ _ _ _ _ (mk_gp (c + 1) beg VP_PVALUE_QUOTED sv a ps)); cbn; [lia| |].
    + unfold gen_params_char; cbn. rewrite Hx, Hb. cbn. destruct (Z.geb_spec (c + 1) e); [lia|done].
    + unfold advance; cbn. apply (IH (length l)) with l; [lia|done|done|done|lia|].
      by replace (c + 1 + 1 + Z.of_nat (length l)) with (c + Z.of_nat (S (S (length l)))) by lia.
  - apply andb_true_iff in Hl as [Hc Hl]. unfold inb in Hc; cbn in Hc. rewrite orb_false_r, !negb_orb in Hc.
    repeat rewrite andb_true_iff in Hc. rewrite !negb_true_iff in Hc. destruct Hc as (E1&E2&E3).
    apply (loop_step _ _ _ _ _ _ (mk_gp c beg VP_PVALUE_QUOTED sv a ps)); cbn; [lia| |].
    + unfold gen_params_char; cbn. rewrite Hx, E1, E2, E3. by apply Z.eqb_neq in Hb as ->.
    + unfold advance; cbn. apply (IH (length l)) with l; [lia|done|done|done|lia|].
      by replace (c + 1 + Z.of_nat (length l)) with (c + Z.of_nat (S (length l))) by lia.
Qed.

(** After "=" a value is read. *)
Lemma gp_token stop e m w v c beg sv nm ps y :
  forallb (param_char stop) (w :: v) = true -> holds m c (w :: v) -> c + Z.of_nat (length (w :: v)) <= e ->
  loop_to gp_c gp_set_c (gen_params_char stop e) m e
    (mk_gp (c + Z.of_nat (length (w :: v))) c VP_PVALUE sv (mk_avp nm cstr0) ps) y ->
  loop_to gp_c gp_set_c (gen_params_char stop e) m e (mk_gp c beg VP_PNAME_EQU_SWS sv (mk_avp nm cstr0) ps) y.
Proof.
  intros Hv Hh He Hy. cbn [forallb length] in *. apply andb_true_iff in Hv as [Hw Hv].
  apply param_char_false in Hw as (F1&F2&F3&F4&F5&F6&F7&F8). apply holds_cons in Hh as [Hc Hh].
  apply (loop_step _ _ _ _ _ _ (mk_gp c c VP_PVALUE sv (mk_avp nm cstr0) ps)); cbn [gp_c]; [lia| |].
  { unfold gen_params_char, gp_equ_sws; cbn. by rewrite Hc, F1, F2, F3, F4, F5, F7. }
  unfold advance; cbn [gp_set_c gp_c gp_beg gp_st gp_saved gp_avp gp_params].
  apply (gp_text stop e m v); [by right|done|done|lia|].
  by replace (c + 1 + Z.of_nat (length v)) with (c + Z.of_nat (S (length v))) by lia.
Qed.

Lemma gp_string stop e m v c beg sv nm ps y :
  quoted_ok v = true -> holds m c (DQUOTE :: v ++ [DQUOTE]) -> c + Z.of_nat (length v) + 2 <= e ->
  loop_to gp_c gp_set_c (gen_params_char stop e) m e
    (mk_gp (c + Z.of_nat (length v) + 2) (c + 1) VP_PARAM_SEP sv sip_avp0
       (ps ++ [mk_avp nm (mk_cstr (c + 1) (Z.of_nat (length v)))])) y ->
  loop_to gp_c gp_set_c (gen_params_char stop e) m e (mk_gp c beg VP_PNAME_EQU_SWS sv (mk_avp nm cstr0) ps) y.
Proof.
  intros Hv Hh He Hy. apply holds_cons in Hh as [Hc Hh]. apply holds_app in Hh as [Hh Hd].
  apply holds_cons in Hd as [Hd _].
  apply (loop_step _ _ _ _ _ _ (mk_gp c (c + 1) VP_PVALUE_QUOTED sv (mk_avp nm cstr0) ps)); cbn [gp_c]; [lia| |].
  { unfold gen_params_char, gp_equ_sws; cbn. by rewrite Hc. }
  unfold advance; cbn [gp_set_c gp_c gp_beg gp_st gp_saved gp_avp gp_params].
  apply (gp_quoted stop e m v); [done|done|lia|].
  apply (loop_step _ _ _ _ _ _ (mk_gp (c + 1 + Z.of_nat (length v)) (c + 1) VP_PARAM_SEP sv sip_avp0
           (ps ++ [mk_avp nm (mk_cstr (c + 1) (Z.of_nat (length v)))]))); cbn [gp_c]; [lia| |].
  { unfold gen_params_char; cbn [gp_c gp_st]. rewrite Hd. cbn. unfold gp_push, gp_set_value; cbn.
    by replace (c + 1 + Z.of_nat (length v) - (c + 1)) with (Z.of_nat (length v)) by lia. }
  unfold advance; cbn [gp_set_c gp_c gp_beg gp_st gp_saved gp_avp gp_params].
  replace (c + 1 + Z.of_nat (length v) + 1) with (c + Z.of_nat (length v) + 2) by lia. apply Hy.
Qed.

(** After ";" a name is read. *)
Lemma gp_name stop e m x nm c beg sv ps y :
  forallb (param_char stop) (x :: nm) = true -> holds m c (x :: nm) -> c + Z.of_nat (length (x :: nm)) <= e ->
  loop_to gp_c gp_set_c (gen_params_char stop e) m e
    (mk_gp (c + Z.of_nat (length (x :: nm))) c VP_PNAME sv sip_avp0 ps) y ->
  loop_to gp_c gp_set_c (gen_params_char stop e) m e (mk_gp c beg VP_PARAM_SEP_SWS sv sip_avp0 ps) y.
Proof.
  intros Hv Hh He Hy. cbn [forallb length] in *. apply andb_true_iff in Hv as [Hw Hv].
  apply param_char_false in Hw as (F1&F2&F3&F4&F5&F6&F7&F8). apply holds_cons in Hh as [Hc Hh].
  apply (loop_step _ _ _ _ _ _ (mk_gp c c VP_PNAME sv sip_avp0 ps)); cbn [gp_c]; [lia| |].
  { unfold gen_params_char, gp_equ_sws; cbn. by rewrite Hc, F1, F2, F3, F4. }
  unfold advance; cbn [gp_set_c gp_c gp_beg gp_st gp_saved gp_avp gp_params].
  apply (gp_text stop e m nm); [by left|done|done|lia|].
  by replace (c + 1 + Z.of_nat (length nm)) with (c + Z.of_nat (S (length nm))) by lia.
Qed.

Lemma gp_equ stop e m n c sv ps y :
  m (c + n) = EQU -> c + n < e ->
  loop_to gp_c gp_set_c (gen_params_char stop e) m e
    (mk_gp (c + n + 1) c VP_PNAME_EQU_SWS sv (mk_avp (mk_cstr c n) cstr0) ps) y ->
  loop_to gp_c gp_set_c (gen_params_char stop e) m e (mk_gp (c + n) c VP_PNAME sv sip_avp0 ps) y.
Proof.
  intros Hm He Hy. apply (loop_step _ _ _ _ _ _ (mk_gp (c + n) c VP_PNAME_EQU_SWS sv (mk_avp (mk_cstr c n) cstr0) ps));
    cbn [gp_c]; [lia| |exact Hy]. unfold gen_params_char; cbn. rewrite Hm. cbn.
  unfold gp_set_name; cbn. by replace (c + n - c) with n by lia.
Qed.

(** After ";" a parameter is read, up to what follows it. *)
Lemma gp_param stop e m nm v c beg sv ps :
  good_param stop (nm, v) = true -> holds m c (tail (param_wr (nm, v))) ->
  c + Z.of_nat (length (tail (param_wr (nm, v)))) <= e ->
  exists p a, pending (ps ++ [a]) p /\ avp_text m a = param_text (nm, v) /\
    gp_c p = c + Z.of_nat (length (tail (param_wr (nm, v)))) /\
    forall y, loop_to gp_c gp_set_c (gen_params_char stop e) m e p y ->
    loop_to gp_c gp_set_c (gen_params_char stop e) m e (mk_gp c beg VP_PARAM_SEP_SWS sv sip_avp0 ps) y.
Proof.
  unfold good_param; cbn [fst snd param_wr tail]. rewrite !andb_true_iff, negb_true_iff.
  intros [[Hn Hnm] Hv] Hh He. apply holds_app in Hh as [Hh1 Hh2].
  rewrite length_app, Nat2Z.inj_add in He |- *. destruct nm as [|x nm]; [done|].
  pose proof (chars_holds _ _ _ Hh1) as Hname.
  pose proof (gp_name stop e m x nm c beg sv ps) as Hrun. assert (Hle : c + Z.of_nat (length (x :: nm)) <= e) by (destruct v; lia). specialize (fun y => Hrun y Hnm Hh1 Hle).
  remember (Z.of_nat (length (x :: nm))) as n eqn:E. clear E. destruct v as [|[|w v]|v]; [| done | |].
  - exists (mk_gp (c + n) c VP_PNAME sv sip_avp0 ps), (mk_avp (mk_cstr c n) cstr0).
    unfold avp_text; cbn [avp_name avp_value]. rewrite Hname. repeat split; [|cbn [gp_c length]; lia|done].
    right; left; cbn [gp_st gp_avp gp_params gp_beg gp_c]. by replace (c + n - c) with n by lia.
  - apply holds_cons in Hh2 as [Heq Hh2]. apply andb_true_iff in Hv as [_ Hv]. cbn [length] in He |- *.
    exists (mk_gp (c + n + 1 + Z.of_nat (length (w :: v))) (c + n + 1) VP_PVALUE sv (mk_avp (mk_cstr c n) cstr0) ps),
      (mk_avp (mk_cstr c n) (mk_cstr (c + n + 1) (Z.of_nat (length (w :: v))))).
    unfold avp_text; cbn [avp_name avp_value]. rewrite Hname, (chars_holds _ _ _ Hh2).
    repeat split; [|cbn [gp_c length]; lia|].
    + right; right; cbn [gp_st gp_avp gp_params gp_beg gp_c avp_name]. split; [done|]. do 4 f_equal. lia.
    + intros y Hy. apply Hrun, gp_equ; [done|lia|]. apply (gp_token stop e m w v); [done|done|cbn [length]; lia|done].
  - apply holds_cons in Hh2 as [Heq Hh2]. cbn [length] in He |- *. rewrite length_app in *. cbn [length] in He |- *.
    exists (mk_gp (c + n + 1 + Z.of_nat (length v) + 2) (c + n + 1 + 1) VP_PARAM_SEP sv sip_avp0
       (ps ++ [mk_avp (mk_cstr c n) (mk_cstr (c + n + 1 + 1) (Z.of_nat (length v)))])),
      (mk_avp (mk_cstr c n) (mk_cstr (c + n + 1 + 1) (Z.of_nat (length v)))).
    pose proof Hh2 as Hs. apply holds_cons in Hs as [_ Hs]. apply holds_app in Hs as [Hs _].
    unfold avp_text; cbn [avp_name avp_value]. rewrite Hname, (chars_holds _ _ _ Hs).
    repeat split; [by left|cbn [gp_c length]; lia|].
    intros y Hy. apply Hrun, gp_equ; [done|lia|]. apply (gp_string stop e m v); [done|done|lia|exact Hy].
Qed.

(** What ends the parameters: the end of the text or the stop character. *)
Definition params_end (m : mem) (stop e c : Z) : Prop :=
  c = e \/ (c < e /\ m c = stop /\ stop_ok stop = true).

Lemma gp_params_run stop e m ps p acc :
  forallb (good_param stop) ps = true -> holds m (gp_c p) (params_wr ps) ->
  params_end m stop e (gp_c p + Z.of_nat (length (params_wr ps))) -> pending acc p ->
  exists p' o avps, loop_to gp_c gp_set_c (gen_params_char stop e) m e p (p', o) /\
    map (avp_text m) avps = map param_text ps /\
    (o = None /\ pending (acc ++ avps) p' \/ o = Some 0 /\ gp_params p' = acc ++ avps) /\
    gp_c p' = gp_c p + Z.of_nat (length (params_wr ps)).
Proof.
  revert p acc; induction ps as [|[nm v] ps IH]; intros p acc Hg Hh Hend Hp.
  - cbn [params_wr flat_map length] in *. rewrite Z.add_0_r in *. destruct Hend as [Hend|(Hlt&Hm&Hs)].
    + exists p, None, []. rewrite app_nil_r. repeat split; [by apply loop_end|by left].
    + destruct (pending_stop stop e m acc p Hp Hs Hm) as (p' & E & Hc & Ha).
      exists p', (Some 0), []. rewrite app_nil_r. repeat split; [apply loop_ret; [lia|done]|by right|done].
  - cbn [forallb] in Hg. apply andb_true_iff in Hg as [Hg Hgs]. cbn [params_wr flat_map] in *. fold (params_wr ps) in *.
    rewrite length_app, Nat2Z.inj_add in *. apply holds_app in Hh as [Hh1 Hh2].
    change (param_wr (nm, v)) with (SEMICOLON :: tail (param_wr (nm, v))) in Hh1, Hh2, Hend |- *.
    apply holds_cons in Hh1 as [Hs Hh1]. cbn [length] in *.
    destruct (pending_semi stop e m acc p Hp Hs) as (beg & sv & E).
    destruct (gp_param stop e m nm v (gp_c p + 1) beg sv acc) as (p1 & a & Hp1 & Ha & Hc1 & Hrun); try done.
    { unfold params_end in Hend. lia. }
    destruct (IH p1 (acc ++ [a])) as (p' & o & avps & Hl & Hm & Ho & Hc); try done.
    + by replace (gp_c p1) with (gp_c p + Z.of_nat (S (length (tail (param_wr (nm, v)))))) by lia.
    + replace (gp_c p1 + _) with (gp_c p + (Z.of_nat (S (length (tail (param_wr (nm, v))))) + Z.of_nat (length (params_wr ps)))) by lia. done.
    + exists p', o, (a :: avps). cbn [map]. rewrite Ha, Hm. rewrite <- app_assoc in Ho.
      repeat split; [|done|lia]. eapply loop_step; [|exact E|by apply Hrun]. unfold params_end in Hend. lia.
Qed.

(** Parameters as they are written (";name", ";name=value" or ";name=quoted string",
    escapes included) are read back, all of them, in order and with the text they were
    written with; the parser stops right behind them, at the end of the text or on the
    stop character. *)
Theorem params_read m c e stop ps params :
  forallb (good_param stop) ps = true ->
  holds m c (params_wr ps) -> params_end m stop e (c + Z.of_nat (length (params_wr ps))) ->
  exists avps, parse_gen_params_sc m c e stop params = Some (c + Z.of_nat (length (params_wr ps)), params ++ avps, 0) /\
    map (avp_text m) avps = map param_text ps.
Proof.
  intros Hg Hh Hend.
  destruct (gp_params_run stop e m ps (mk_gp c c VP_PARAM_SEP 0 sip_avp0 params) params)
    as (p' & o & avps & Hl & Hm & Ho & Hc); try done; [by left|].
  exists avps. split; [|done].
  assert (Hce : c <= e) by (unfold params_end in Hend; lia).
  unfold parse_gen_params_sc. rewrite (gen_params_run _ _ _ _ true _ _ _ Hce Hl). cbn [gp_c] in Hc.
  destruct Ho as [[-> Hp]|[-> ->]]; [|by rewrite Hc].
  apply pending_end in Hp as (q & -> & -> & ->). by rewrite Hc.
Qed.

Lemma params_read_witness : exists avps,
  parse_gen_params_sc (mem_at 7 (params_wr [(lit "lr", NoValue); (lit "x", Quoted [97; 92; 34; 62]); (lit "tag", Token (lit "z9"))] ++ lit ">"))
    7 40 62 [] = Some (7 + 19, [] ++ avps, 0) /\
  map (avp_text (mem_at 7 (params_wr [(lit "lr", NoValue); (lit "x", Quoted [97; 92; 34; 62]); (lit "tag", Token (lit "z9"))] ++ lit ">"))) avps
  = [(lit "lr", []); (lit "x", [97; 92; 34; 62]); (lit "tag", lit "z9")].
Proof.
  apply (params_read _ 7 40 62 [(lit "lr", NoValue); (lit "x", Quoted [97; 92; 34; 62]); (lit "tag", Token (lit "z9"))] []).
  - reflexivity.
  - reflexivity.
  - right. vm_compute. done.
Defined.

(** White space around "=" (RFC 3261 25.1: EQUAL = SWS "=" SWS): the value that is read
    starts with the "=", because the case [VP_PNAME_EQU] has no [break] at its end and the
    "=" is seen a second time by the case below it; before ";" the same fall through adds
    a parameter that was not there. *)
Theorem param_equ_fallthrough m c nm v :
  forallb (param_char 0) nm = true -> nm <> [] -> forallb (param_char 0) v = true ->
  holds m c (SEMICOLON :: nm ++ [SP; EQU] ++ v) ->
  exists avp, parse_gen_params_sc m c (c + Z.of_nat (length (SEMICOLON :: nm ++ [SP; EQU] ++ v))) 0 []
    = Some (c + Z.of_nat (length (SEMICOLON :: nm ++ [SP; EQU] ++ v)), [avp], 0) /\
    avp_text m avp = (nm, EQU :: v).
Proof.
  intros Hn Hnn Hv Hh. destruct nm as [|x nm]; [done|]. apply holds_cons in Hh as [Hs Hh].
  apply holds_app in Hh as [Hh1 Hh2]. apply holds_cons in Hh2 as [Hsp Hh2]. apply holds_cons in Hh2 as [Heq Hh2].
  cbn [length]. rewrite !length_app. cbn [length].
  set (e := c + _). set (n := Z.of_nat (length (x :: nm))) in *. set (k := Z.of_nat (length v)).
  assert (He : e = c + 1 + n + 2 + k) by (subst e n k; cbn [length]; lia). clearbody e. assert (0 <= n) by lia. assert (0 <= k) by lia.
  set (a := mk_avp (mk_cstr (c + 1) n) (mk_cstr (c + 1 + n + 1) (k + 1))).
  exists a. split.
  - unfold parse_gen_params_sc.
    assert (Hl : loop_to gp_c gp_set_c (gen_params_char 0 e) m e (mk_gp c c VP_PARAM_SEP 0 sip_avp0 [])
        (mk_gp e (c + 1 + n + 1) VP_PVALUE 0 (mk_avp (mk_cstr (c + 1) n) cstr0) [], None)).
    { apply (loop_step _ _ _ _ _ _ (mk_gp c c VP_PARAM_SEP_SWS 0 sip_avp0 [])); cbn [gp_c]; [lia| |].
      { unfold gen_params_char; cbn [gp_c gp_st]. by rewrite Hs. }
      unfold advance; cbn [gp_c gp_set_c gp_beg gp_st gp_saved gp_avp gp_params].
      apply (gp_name 0 e m x nm); [done|done|fold n; lia|]. fold n.
      apply (loop_step _ _ _ _ _ _ (mk_gp (c + 1 + n) (c + 1) VP_PNAME_EQU 0 (mk_avp (mk_cstr (c + 1) n) cstr0) [])); cbn [gp_c]; [lia| |].
      { unfold gen_params_char; cbn [gp_c gp_st]. rewrite Hsp. cbn -[Z.sub Z.add]. unfold gp_set_name, gp_set_st; cbn -[Z.sub Z.add].
        by replace (c + 1 + n - (c + 1)) with n by lia. }
      apply (loop_step _ _ _ _ _ _ (mk_gp (c + 1 + n + 1) (c + 1 + n + 1) VP_PVALUE 0 (mk_avp (mk_cstr (c + 1) n) cstr0) [])); cbn [gp_c advance gp_set_c]; [lia| |].
      { unfold gen_params_char; cbn [gp_c gp_st gp_set_c advance]. by rewrite Heq. }
      unfold advance; cbn [gp_c gp_set_c gp_beg gp_st gp_saved gp_avp gp_params].
      apply (gp_text 0 e m v); [by right|done|done|fold k; lia|]. fold k.
      replace (c + 1 + n + 1 + 1 + k) with e by lia. by apply loop_end. }
    assert (Hce : c <= e) by lia. rewrite (gen_params_run _ _ _ _ true _ _ _ Hce Hl). cbn -[Z.sub Z.add]. subst a.
    by replace (e - (c + 1 + n + 1)) with (k + 1) by lia.
  - unfold avp_text. subst a n. cbn [avp_name avp_value].
    rewrite (chars_holds _ _ _ Hh1). f_equal. unfold k. replace (Z.of_nat (length v) + 1) with (Z.of_nat (length (EQU :: v))) by (cbn [length]; lia).
    apply chars_holds. by apply holds_cons.
Qed.
