(* ===== verification/ParseCSeq.v ===== *)
(** * Methods, CSeq and RAck

    Model of [parse_method] (core/sip/sip_parser.cpp), [parse_cseq] (parse_cseq.cpp),
    [parse_rseq] and [parse_rack] (parse_100rel.cpp).  The properties: which names
    [parse_method] takes for which method; a CSeq and a RAck as they are composed are read
    back, over all 32-bit numbers; what happens to larger numbers, and to a CSeq with
    white space behind the method. *)

From Stdlib Require Import ZArith Lia Ascii String.
From stdpp Require Import base list.
From S2P Require Import Prelude SipMsg ParseCommon AmUtils.

Local Open Scope Z_scope.
Local Open Scope bool_scope.

(** ** [parse_method] *)

(** [!memcmp] of two texts of the same length. *)
Definition same (l r : list Z) : bool := bool_decide (l = r).

(** The method the name stands for, and the return code. *)
Definition parse_method (l : list Z) : method * Z :=
  let rest := tail l in
  let meth :=
    match length l with
    | 6%nat =>
        if inb (nth 0 l 0) (lit "I") then
          if same rest (lit "NVITE") then INVITE else OTHER_METHOD
        else if inb (nth 0 l 0) (lit "C") then
          if same rest (lit "ANCEL") then CANCEL else OTHER_METHOD
        else OTHER_METHOD
    | 3%nat =>
        if inb (nth 0 l 0) (lit "A") then
          if same rest (lit "CK") then ACK else OTHER_METHOD
        else if inb (nth 0 l 0) (lit "B") then
          if same rest (lit "YE") then BYE else OTHER_METHOD
        else OTHER_METHOD
    | 7%nat => if same rest (lit "PTIONS") then OPTIONS else OTHER_METHOD
    | 8%nat => if same rest (lit "EGISTER") then REGISTER else OTHER_METHOD
    | 5%nat => if same l (lit "PRACK") then PRACK else OTHER_METHOD
    | _ => OTHER_METHOD
    end in
  if forallb IS_TOKEN l then (meth, 0) else (meth, MALFORMED_SIP_MSG).

(** ** [parse_cseq] *)

Definition C_NUM : Z := 0.
Definition C_NUM_SWS : Z := 1.
Definition C_METHOD : Z := 2.

Record sip_cseq := mk_pcseq { cq_num_str : cstr; cq_num : Z; cq_method_str : cstr; cq_method : method }.

(** A new [sip_cseq]: the constructor sets [num] and not [method], which is [junk]. *)
Definition sip_cseq0 (junk : method) : sip_cseq := mk_pcseq cstr0 0 cstr0 junk.

Definition cq_set_num_str (x : cstr) (q : sip_cseq) : sip_cseq := mk_pcseq x (cq_num q) (cq_method_str q) (cq_method q).
Definition cq_set_num (x : Z) (q : sip_cseq) : sip_cseq := mk_pcseq (cq_num_str q) x (cq_method_str q) (cq_method q).
Definition cq_set_method_str (x : cstr) (q : sip_cseq) : sip_cseq := mk_pcseq (cq_num_str q) (cq_num q) x (cq_method q).
Definition cq_set_method (x : method) (q : sip_cseq) : sip_cseq := mk_pcseq (cq_num_str q) (cq_num q) (cq_method_str q) x.

(** The local variables [c], [beg], [st], [saved_st], and [*cseq]. *)
Record cq_state := mk_cq { cq_c : Z; cq_beg : Z; cq_st : Z; cq_saved : Z; cq_out : sip_cseq }.

Definition cq_set_c (x : Z) (p : cq_state) : cq_state := mk_cq x (cq_beg p) (cq_st p) (cq_saved p) (cq_out p).
Definition cq_set_st (x : Z) (p : cq_state) : cq_state := mk_cq (cq_c p) (cq_beg p) x (cq_saved p) (cq_out p).
Definition cq_set_beg (x : Z) (p : cq_state) : cq_state := mk_cq (cq_c p) x (cq_st p) (cq_saved p) (cq_out p).
Definition cq_save_eol (x : Z) (p : cq_state) : cq_state := mk_cq (cq_c p) (cq_beg p) x (cq_st p) (cq_out p).
Definition cq_upd (f : sip_cseq -> sip_cseq) (p : cq_state) : cq_state :=
  mk_cq (cq_c p) (cq_beg p) (cq_st p) (cq_saved p) (f (cq_out p)).

(** The body of the loop. *)
Definition cseq_char (m : mem) (p : cq_state) : outcome cq_state :=
  let ch := m (cq_c p) in
  let st := cq_st p in
  let l := cq_c p - cq_beg p in
  if st =? C_NUM then
    if ch =? CR then Go (cq_save_eol ST_CR p)
    else if ch =? LF then Go (cq_save_eol ST_LF p)
    else if (ch =? SP) || (ch =? HTAB) then
      Go (cq_upd (cq_set_num_str (mk_cstr (cq_beg p) l)) (cq_set_st C_NUM_SWS p))
    else if negb (IS_DIGIT ch) then Ret p MALFORMED_SIP_MSG
    else Go (cq_upd (cq_set_num ((cq_num (cq_out p) * 10 + ch - 48) mod 2 ^ 32)) p)
  else if st =? C_NUM_SWS then
    if ch =? CR then Go (cq_save_eol ST_CR p)
    else if ch =? LF then Go (cq_save_eol ST_LF p)
    else if (ch =? SP) || (ch =? HTAB) then Go p
    else Go (cq_set_beg (cq_c p) (cq_set_st C_METHOD p))
  else if st =? C_METHOD then
    if ch =? CR then Go (cq_save_eol ST_CR p)
    else if ch =? LF then Go (cq_save_eol ST_LF p)
    else if (ch =? SP) || (ch =? HTAB) then Ret (cq_upd (cq_set_method_str (mk_cstr (cq_beg p) l)) p) 0
    else Go p
  else if st =? ST_CR then
    if ch =? LF then Go (cq_set_st ST_CRLF p) else Ret p MALFORMED_SIP_MSG
  else if (st =? ST_LF) || (st =? ST_CRLF) then
    if cq_saved p =? C_NUM then
      Go (cq_set_st (cq_saved p) (cq_upd (cq_set_num_str (mk_cstr (cq_beg p) (cq_c p - eol_len st - cq_beg p))) p))
    else if cq_saved p =? C_METHOD then Ret (cq_upd (cq_set_method_str (mk_cstr (cq_beg p) l)) p) 0
    else Go (cq_set_st (cq_saved p) p)
  else Go p.

(** What follows the loop. *)
Definition cseq_end (m : mem) (p : cq_state) : sip_cseq * Z :=
  if negb (cq_st p =? C_METHOD) then (cq_out p, MALFORMED_SIP_MSG)
  else
    let x := mk_cstr (cq_beg p) (cq_c p - cq_beg p) in
    let '(meth, err) := parse_method (chars m x) in
    let q := cq_set_method meth (cq_set_method_str x (cq_out p)) in
    if err <? 0 then (q, MALFORMED_SIP_MSG) else (q, 0).

(** [parse_cseq] into the object [q]: the object and the return code. *)
Definition parse_cseq (m : mem) (q : sip_cseq) (beg len : Z) : option (sip_cseq * Z) :=
  match run_loop cq_c cq_set_c cseq_char (S (Z.to_nat len)) m (beg + len) (mk_cq beg beg C_NUM 0 q) with
  | None => None
  | Some (p, Some r) => Some (cq_out p, r)
  | Some (p, None) => Some (cseq_end m p)
  end.

(** ** [parse_rseq], [parse_rack] *)

(** [EAT_WS] *)
Fixpoint eat_ws (l : list Z) : list Z :=
  match l with
  | c :: l' => if (c =? 32) || (c =? 9) then eat_ws l' else l
  | [] => []
  end.

(** [READ_NUMBER]: the number and what follows it, [None] when it jumps to [error]. *)
Fixpoint read_number (no : Z) (l : list Z) : option (Z * list Z) :=
  match l with
  | c :: l' =>
      if IS_DIGIT c then
        if UINT_MAX - no <? c then None else read_number ((no * 10 + c - 48) mod 2 ^ 32) l'
      else Some (no, l)
  | [] => Some (no, [])
  end.

(** [EAT_TOKEN]: the token and what follows it. *)
Fixpoint eat_token (l : list Z) : list Z * list Z :=
  match l with
  | c :: l' => if IS_TOKEN c then let '(t, r) := eat_token l' in (c :: t, r) else ([], l)
  | [] => ([], [])
  end.

(** [parse_rseq]: the number it stores, [None] when it returns false. *)
Definition parse_rseq (l : list Z) : option Z :=
  let l := eat_ws l in
  match read_number 0 l with
  | None => None
  | Some (n, l') => if Nat.eqb (length l') (length l) then None else Some n
  end.

Record sip_rack := mk_prack { rk_rseq : Z; rk_cseq : Z; rk_cseq_str : list Z; rk_method : method; rk_method_str : list Z }.

(** [parse_rack]: the object it fills, [None] when it returns false. *)
Definition parse_rack (l : list Z) : option sip_rack :=
  let l := eat_ws l in
  match read_number 0 l with
  | None => None
  | Some (rseq, l1) =>
      if Nat.eqb (length l1) (length l) then None
      else
        let l1 := eat_ws l1 in
        match read_number 0 l1 with
        | None => None
        | Some (cseq, l2) =>
            if Nat.eqb (length l2) (length l1) then None
            else
              let '(method_str, _) := eat_token (eat_ws l2) in
              let '(method, err) := parse_method method_str in
              if negb (err =? 0) then None
              else Some (mk_prack rseq cseq (take (length l1 - length l2) l1) method method_str)
        end
  end.

(** ** Which names are which methods *)

Definition method_name (M : method) : list Z :=
  match M with
  | INVITE => lit "INVITE" | ACK => lit "ACK" | PRACK => lit "PRACK" | OPTIONS => lit "OPTIONS"
  | BYE => lit "BYE" | CANCEL => lit "CANCEL" | REGISTER => lit "REGISTER" | OTHER_METHOD => []
  end.

(** The names that are taken for [M]: of OPTIONS and REGISTER the first character is not
    looked at. *)
Definition taken_for (M : method) (l : list Z) : bool :=
  match M with
  | OPTIONS | REGISTER => Nat.eqb (length l) (length (method_name M)) && same (tail l) (tail (method_name M))
  | _ => same l (method_name M)
  end.

Lemma same_spec l r : reflect (l = r) (same l r).
Proof. unfold same. apply bool_decide_reflect. Qed.

Lemma parse_method_meth l M : M <> OTHER_METHOD -> (fst (parse_method l) = M <-> taken_for M l = true).
Proof.
  intros HM. unfold parse_method. rewrite (surjective_pairing (if forallb _ l then _ else _)).
  assert (E : forall (A B : Type) (b : bool) (x : A) (y z : B), (if b then (x, y) else (x, z)).1 = x) by by intros ? ? [].
  cbn [fst]. rewrite E.
  do 9 (destruct l as [|? l]; [destruct M; try done; cbn [length tail nth taken_for method_name];
    unfold inb; cbn [existsb lit map list_ascii_of_string]; rewrite ?orb_false_r; cbn;
    repeat match goal with |- context [same ?a ?b] => destruct (same_spec a b) end;
    repeat match goal with |- context [Z.eqb ?a ?b] => destruct (Z.eqb_spec a b) end; simplify_eq; naive_solver|]).
  destruct M; try done; cbn -[lit]; repeat match goal with |- context [same ?a ?b] => destruct (same_spec a b) end; naive_solver.
Qed.

(** The names [parse_method] takes for a method it knows: exactly the method's own name,
    in upper case, for INVITE, ACK, PRACK, BYE and CANCEL; any token that agrees with the
    name from its second character on for OPTIONS and REGISTER. *)
Theorem method_names l M :
  M <> OTHER_METHOD ->
  (parse_method l = (M, 0) <-> forallb IS_TOKEN l = true /\ taken_for M l = true).
Proof.
  intros HM. rewrite <- (parse_method_meth l M HM). unfold parse_method.
  destruct (forallb IS_TOKEN l); cbn [fst]; [split; [intros H; by injection H | intros [_ H]; by f_equal]|]. split; [intros H; by injection H | by intros [? _]].
Qed.

Lemma method_names_witness : parse_method (lit "XEGISTER") = (REGISTER, 0).
Proof. apply (method_names (lit "XEGISTER") REGISTER); [done|]. by vm_compute. Defined.

Lemma parse_method_token l : forallb IS_TOKEN l = true -> snd (parse_method l) = 0.
Proof. unfold parse_method. by intros ->. Qed.

(** ** CSeq *)

Abbreviation cq_to := (loop_to cq_c cq_set_c cseq_char).

Lemma digit_not_ws c : IS_DIGIT c = true ->
  (c =? CR) = false /\ (c =? LF) = false /\ (c =? SP) = false /\ (c =? HTAB) = false.
Proof. rewrite is_digit_range, !Z.eqb_neq. unfold CR, LF, SP, HTAB. lia. Qed.

Lemma token_not_ws c : IS_TOKEN c = true ->
  (c =? CR) = false /\ (c =? LF) = false /\ (c =? SP) = false /\ (c =? HTAB) = false.
Proof.
  intros H. rewrite !Z.eqb_neq. repeat split; intros ->; by vm_compute in H.
Qed.

Lemma cq_digits m e ds c beg sv q y :
  forallb IS_DIGIT ds = true -> 0 <= cq_num q -> dec_val (cq_num q) ds <= UINT_MAX ->
  holds m c ds -> c + Z.of_nat (length ds) <= e ->
  cq_to m e (mk_cq (c + Z.of_nat (length ds)) beg C_NUM sv (cq_set_num (dec_val (cq_num q) ds) q)) y ->
  cq_to m e (mk_cq c beg C_NUM sv q) y.
Proof.
  revert c q; induction ds as [|d ds IH]; intros c q Hd Hq Hv Hh He.
  { cbn. rewrite Z.add_0_r. by destruct q. }
  cbn [forallb length] in *. apply andb_true_iff in Hd as [Hd Hds]. apply holds_cons in Hh as [Hc Hh]. intros Hy.
  change (dec_val (cq_num q) (d :: ds)) with (dec_val (cq_num q * 10 + (d - 48)) ds) in Hv, Hy.
  pose proof (proj1 (is_digit_range d) Hd). pose proof (dec_val_ge (cq_num q * 10 + (d - 48)) ds Hds ltac:(lia)).
  unfold UINT_MAX in Hv.
  apply (loop_step _ _ _ _ _ _ (mk_cq c beg C_NUM sv (cq_set_num (cq_num q * 10 + (d - 48)) q))); cbn [cq_c]; [lia| |].
  { unfold cseq_char; cbn [cq_c cq_st cq_beg]. destruct (digit_not_ws d Hd) as (E1&E2&E3&E4). rewrite Hc, E1, E2, E3, E4, Hd.
    cbn -[Z.modulo Z.pow]. unfold cq_upd; cbn -[Z.modulo Z.pow]. rewrite Z.mod_small by lia. do 3 f_equal. lia. }
  unfold advance, cq_set_c; cbn [cq_c cq_set_c cq_beg cq_st cq_saved cq_out].
  apply IH; cbn [cq_num cq_set_num]; [done|lia|unfold UINT_MAX; lia|done|lia|].
  by replace (c + 1 + Z.of_nat (length ds)) with (c + Z.of_nat (S (length ds))) by lia.
Qed.

Lemma cq_token m e l c beg sv q y :
  forallb IS_TOKEN l = true -> holds m c l -> c + Z.of_nat (length l) <= e ->
  cq_to m e (mk_cq (c + Z.of_nat (length l)) beg C_METHOD sv q) y -> cq_to m e (mk_cq c beg C_METHOD sv q) y.
Proof.
  intros Hl Hh He Hy. apply (loop_run cq_c cq_set_c _ (fun p => cq_st p = C_METHOD) m e _ l); try done.
  - by intros [].
  - intros x z Hx%list_elem_of_In Hz Hm. rewrite forallb_forall in Hl.
    apply Hl, token_not_ws in Hx as (E1&E2&E3&E4). unfold cseq_char. by rewrite Hm, Hz, E1, E2, E3, E4.
Qed.

Lemma cseq_char_cursor m p p' : cseq_char m p = Go p' -> cq_c p' = cq_c p.
Proof. unfold cseq_char. intros H. repeat case_match; by simplify_eq. Qed.

Lemma parse_cseq_run m q beg len p o :
  0 <= len -> cq_to m (beg + len) (mk_cq beg beg C_NUM 0 q) (p, o) ->
  parse_cseq m q beg len = Some (match o with Some r => (cq_out p, r) | None => cseq_end m p end).
Proof.
  intros Hlen Hl. unfold parse_cseq.
  destruct (run_loop_total cq_c cq_set_c cseq_char (S (Z.to_nat len)) m (beg + len) (mk_cq beg beg C_NUM 0 q))
    as (y & o' & Hr); try done.
  - intros x y Hx Hy. apply cseq_char_cursor in Hy. lia.
  - cbn. lia.
  - cbn. lia.
  - pose proof (loop_to_run cq_c cq_set_c _ _ _ _ _ _ _ Hl Hr) as E. injection E as -> ->. rewrite Hr. by destruct o.
Qed.

(** The number, a space and the method up to its end. *)
Lemma cq_value m a n meth q e y :
  0 <= n <= UINT_MAX -> forallb IS_TOKEN meth = true -> meth <> [] -> cq_num q = 0 ->
  holds m a (int2str n ++ [SP] ++ meth) -> a + Z.of_nat (length (int2str n ++ [SP] ++ meth)) <= e ->
  cq_to m e (mk_cq (a + Z.of_nat (length (int2str n ++ [SP] ++ meth))) (a + Z.of_nat (length (int2str n)) + 1) C_METHOD 0
     (cq_set_num_str (mk_cstr a (Z.of_nat (length (int2str n)))) (cq_set_num n q))) y ->
  cq_to m e (mk_cq a a C_NUM 0 q) y.
Proof.
  intros Hn Ht Hne Hq Hh He Hy. destruct (int2str_digits n Hn) as (_ & Hd & Hv).
  remember (int2str n) as ds eqn:E. clear E. rewrite !length_app in *. cbn [length] in *.
  apply holds_app in Hh as [Hh1 Hh2]. apply holds_cons in Hh2 as [Hsp Hh2].
  destruct meth as [|x meth]; [done|]. cbn [forallb length] in *. apply andb_true_iff in Ht as [Hx Ht].
  apply holds_cons in Hh2 as [Hxc Hh2]. rewrite !Nat2Z.inj_add, !Nat2Z.inj_succ in *.
  apply (cq_digits m e ds); [done|lia|rewrite Hq; unfold UINT_MAX in *; lia|done|lia|].
  rewrite Hq, Hv. remember (Z.of_nat (length ds)) as k eqn:Ek. assert (0 <= k) by lia.
  apply (loop_step _ _ _ _ _ _ (mk_cq (a + k) a C_NUM_SWS 0 (cq_set_num_str (mk_cstr a k) (cq_set_num n q)))); cbn [cq_c]; [lia| |].
  { unfold cseq_char; cbn [cq_c cq_st cq_beg]. rewrite Hsp. cbn -[Z.sub Z.add]. unfold cq_upd; cbn -[Z.sub Z.add].
    by replace (a + k - a) with k by lia. }
  apply (loop_step _ _ _ _ _ _ (mk_cq (a + k + 1) (a + k + 1) C_METHOD 0 (cq_set_num_str (mk_cstr a k) (cq_set_num n q))));
    cbn [cq_c advance cq_set_c]; [lia| |].
  { unfold cseq_char, advance, cq_set_c; cbn [cq_c cq_st cq_beg cq_set_c]. destruct (token_not_ws x Hx) as (E1&E2&E3&E4).
    by rewrite Hxc, E1, E2, E3, E4. }
  unfold advance, cq_set_c; cbn [cq_c cq_st cq_beg cq_set_c cq_saved cq_out].
  apply (cq_token m e meth); [done|done|lia|].
  replace (a + k + 1 + 1 + Z.of_nat (length meth)) with (a + (k + (Z.succ (Z.of_nat 0) + Z.succ (Z.of_nat (length meth))))) by lia.
  exact Hy.
Qed.

(** A CSeq value as it is composed, a 32-bit number, a space and a method, is read back:
    the text and the value of the number, the text of the method and which one it is. *)
Lemma cseq_read m a n meth junk :
  0 <= n <= UINT_MAX -> forallb IS_TOKEN meth = true -> meth <> [] ->
  holds m a (int2str n ++ [SP] ++ meth) ->
  exists q, parse_cseq m (sip_cseq0 junk) a (Z.of_nat (length (int2str n ++ [SP] ++ meth))) = Some (q, 0) /\
    cq_num q = n /\ chars m (cq_num_str q) = int2str n /\
    chars m (cq_method_str q) = meth /\ cq_method q = fst (parse_method meth).
Proof.
  intros Hn Ht Hne Hh. pose proof Hh as Hh0. apply holds_app in Hh0 as [Hh1 Hh2].
  apply holds_cons in Hh2 as [_ Hh2].
  set (L := Z.of_nat (length (int2str n ++ [SP] ++ meth))). set (k := Z.of_nat (length (int2str n))) in *.
  assert (HL : L = k + 1 + Z.of_nat (length meth)) by (unfold L, k; rewrite !length_app; cbn [length]; lia).
  set (q := cq_set_num_str (mk_cstr a k) (cq_set_num n (sip_cseq0 junk))).
  assert (Hx : chars m (mk_cstr (a + k + 1) (a + L - (a + k + 1))) = meth).
  { replace (a + L - (a + k + 1)) with (Z.of_nat (length meth)) by lia. by apply chars_holds. }
  exists (cq_set_method (fst (parse_method meth)) (cq_set_method_str (mk_cstr (a + k + 1) (a + L - (a + k + 1))) q)). split.
  - rewrite (parse_cseq_run m _ a L (mk_cq (a + L) (a + k + 1) C_METHOD 0 q) None).
    + unfold cseq_end; cbn [cq_st cq_beg cq_c cq_out]. rewrite Hx.
      destruct (parse_method meth) as [M err] eqn:EM. apply parse_method_token in Ht. rewrite EM in Ht. cbn in Ht. subst err. reflexivity.
    + lia.
    + apply (cq_value m a n meth); try done. by apply loop_end.
  - cbn [cq_num cq_num_str cq_method_str cq_method cq_set_method cq_set_method_str q cq_set_num_str]. rewrite Hx. repeat split; [by apply chars_holds].
Qed.

(** White space behind the method ends the parser with success before [parse_method] is
    called: the object's [method] keeps whatever was in the memory it was allocated in. *)
Theorem cseq_trailing_ws m a n meth junk :
  0 <= n <= UINT_MAX -> forallb IS_TOKEN meth = true -> meth <> [] ->
  holds m a (int2str n ++ [SP] ++ meth ++ [SP]) ->
  exists q, parse_cseq m (sip_cseq0 junk) a (Z.of_nat (length (int2str n ++ [SP] ++ meth ++ [SP]))) = Some (q, 0) /\
    cq_num q = n /\ chars m (cq_method_str q) = meth /\ cq_method q = junk.
Proof.
  intros Hn Ht Hne Hh. rewrite (app_assoc [SP]), (app_assoc (int2str n)) in *. apply holds_app in Hh as [Hh Hsp].
  apply holds_cons in Hsp as [Hsp _]. rewrite length_app.
  pose proof Hh as Hh0. apply holds_app in Hh0 as [Hh1 Hh2]. apply holds_cons in Hh2 as [_ Hh2].
  set (L := length (int2str n ++ [SP] ++ meth)) in *. set (k := Z.of_nat (length (int2str n))) in *.
  assert (HL : Z.of_nat L = k + 1 + Z.of_nat (length meth)) by (unfold L, k; rewrite !length_app; cbn [length]; lia).
  set (q := cq_set_num_str (mk_cstr a k) (cq_set_num n (sip_cseq0 junk))).
  eexists. split.
  - rewrite (parse_cseq_run m _ a _ (cq_upd (cq_set_method_str (mk_cstr (a + k + 1) (Z.of_nat (length meth))))
               (mk_cq (a + Z.of_nat L) (a + k + 1) C_METHOD 0 q)) (Some 0)); [reflexivity|lia|].
    apply (cq_value m a n meth); try done; [fold L; cbn [length]; lia|]. fold L k q.
    apply loop_ret; cbn [cq_c length]; [lia|]. unfold cseq_char; cbn [cq_c cq_st cq_beg]. rewrite Hsp.
    replace (a + Z.of_nat L - (a + k + 1)) with (Z.of_nat (length meth)) by lia. reflexivity.
  - repeat split. by apply chars_holds.
Qed.

(** ** RAck *)

Lemma read_number_digits ds no r :
  forallb IS_DIGIT ds = true -> 0 <= no -> dec_val no ds <= UINT_MAX ->
  read_number no (ds ++ r) = read_number (dec_val no ds) r.
Proof.
  revert no; induction ds as [|d ds IH]; intros no Hd Hno Hv; [done|]. cbn [forallb app read_number] in *.
  apply andb_true_iff in Hd as [Hd Hds]. rewrite Hd. apply is_digit_range in Hd.
  change (dec_val no (d :: ds)) with (dec_val (no * 10 + (d - 48)) ds) in Hv |- *.
  pose proof (dec_val_ge (no * 10 + (d - 48)) ds Hds ltac:(lia)). unfold UINT_MAX in *.
  destruct (Z.ltb_spec (4294967295 - no) d); [lia|]. rewrite Z.mod_small by lia.
  replace (no * 10 + d - 48) with (no * 10 + (d - 48)) by lia. apply IH; [done|lia|done].
Qed.

Lemma eat_ws_int2str n r : 0 <= n <= UINT_MAX -> eat_ws (int2str n ++ r) = int2str n ++ r.
Proof.
  intros Hn. destruct (int2str_digits n Hn) as (Hne & Hd & _). destruct (int2str n) as [|d ds]; [done|].
  cbn [forallb] in Hd. apply andb_true_iff in Hd as [Hd _]. destruct (digit_not_ws d Hd) as (_&_&E3&E4).
  unfold SP, HTAB in *. cbn [app eat_ws]. by rewrite E3, E4.
Qed.

Lemma eat_token_all l : forallb IS_TOKEN l = true -> eat_token l = (l, []).
Proof. induction l as [|c l IH]; [done|]. cbn [forallb eat_token]. intros [-> H]%andb_true_iff. by rewrite IH. Qed.

(** A number and a space in front of [r]. *)
Lemma read_number_int2str n r : 0 <= n <= UINT_MAX -> read_number 0 (int2str n ++ SP :: r) = Some (n, SP :: r).
Proof.
  intros Hn. destruct (int2str_digits n Hn) as (_ & Hd & Hv). rewrite read_number_digits by (rewrite ?Hv; lia || done).
  by rewrite Hv.
Qed.

(** A RAck value as it is composed, two 32-bit numbers and a method, is read back; so is
    an RSeq. *)
Theorem rack_roundtrip rseq cseq meth :
  0 <= rseq <= UINT_MAX -> 0 <= cseq <= UINT_MAX -> forallb IS_TOKEN meth = true -> meth <> [] ->
  parse_rack (int2str rseq ++ [SP] ++ int2str cseq ++ [SP] ++ meth) =
    Some (mk_prack rseq cseq (int2str cseq) (fst (parse_method meth)) meth) /\
  parse_rseq (int2str rseq) = Some rseq.
Proof.
  intros Hr Hc Ht Hne. cbn [app]. split.
  - unfold parse_rack. rewrite eat_ws_int2str, read_number_int2str by done.
    destruct (int2str_digits rseq Hr) as (Hn1 & _). destruct (int2str_digits cseq Hc) as (Hn2 & _).
    rewrite !length_app. cbn [length]. destruct (Nat.eqb_spec (S (length (int2str cseq ++ SP :: meth))) (length (int2str rseq) + S (length (int2str cseq ++ SP :: meth)))) as [E|_].
    { destruct (int2str rseq); [done|cbn [length] in E; lia]. }
    cbn [eat_ws orb Z.eqb Pos.eqb SP]. rewrite eat_ws_int2str, read_number_int2str by done. rewrite !length_app. cbn [length].
    destruct (Nat.eqb_spec (S (length meth)) (length (int2str cseq) + S (length meth))) as [E|_].
    { destruct (int2str cseq); [done|cbn [length] in E; lia]. }
    cbn [eat_ws orb Z.eqb Pos.eqb SP].
    assert (Hw : eat_ws meth = meth).
    { destruct meth as [|x meth]; [done|]. cbn [forallb] in Ht. apply andb_true_iff in Ht as [Hx _].
      destruct (token_not_ws x Hx) as (_&_&E3&E4). cbn [eat_ws]. unfold SP, HTAB in *. by rewrite E3, E4. }
    rewrite Hw, eat_token_all, (surjective_pairing (parse_method meth)), parse_method_token by done. cbn [Z.eqb negb].
    replace (length (int2str cseq) + S (length meth) - S (length meth))%nat with (length (int2str cseq)) by lia.
    by rewrite take_app_length.
  - unfold parse_rseq. destruct (int2str_digits rseq Hr) as (Hn1 & Hd & Hv).
    pose proof (eat_ws_int2str rseq [] Hr) as E. rewrite app_nil_r in E. rewrite E.
    pose proof (read_number_digits (int2str rseq) 0 [] Hd) as E2. rewrite app_nil_r, Hv in E2. rewrite E2 by lia.
    cbn [read_number length]. by destruct (int2str rseq).
Qed.

Lemma rack_roundtrip_witness :
  parse_rack (lit "4294967295 7 INVITE") = Some (mk_prack 4294967295 7 (lit "7") INVITE (lit "INVITE")) /\
  parse_rseq (lit "4294967295") = Some 4294967295.
Proof. apply (rack_roundtrip 4294967295 7 (lit "INVITE")); by vm_compute. Defined.

(** The overflow check of [READ_NUMBER] adds the character instead of multiplying by ten:
    a number of 2^32 or more is taken modulo 2^32. *)
Lemma rseq_wraps : parse_rseq (lit "4294967300") = Some 4.
Proof. by vm_compute. Qed.
