(* ===== verification/ParseUri.v ===== *)
(** * SIP URIs

    Model of core/sip/parse_uri.cpp: [parse_uri], which reads the scheme, and
    [parse_sip_uri], the state machine for the rest.  The properties: the parser ends and
    stays in the text; every part of a URI as RFC 3261 writes it (user, password, host,
    IPv6 reference, port, parameters, headers) is read back; the port is in range; the
    texts that are taken for a URI and are none. *)

From Stdlib Require Import ZArith Lia Ascii String.
From stdpp Require Import base list.
From S2P Require Import Prelude ParseCommon AmUtils ParseParams.

Local Open Scope Z_scope.
Local Open Scope bool_scope.

Inductive uri_scheme := UNKNOWN | SIP | SIPS.

Record sip_uri := mk_uri {
  scheme : uri_scheme;
  user : cstr;
  passwd : cstr;
  host : cstr;
  port_str : cstr;
  port : Z;
  params : list sip_avp;
  hdrs : list sip_avp;
  trsp : option sip_avp
}.

Definition sip_uri0 : sip_uri := mk_uri UNKNOWN cstr0 cstr0 cstr0 cstr0 0 [] [] None.

Definition set_scheme x u := mk_uri x (user u) (passwd u) (host u) (port_str u) (port u) (params u) (hdrs u) (trsp u).
Definition set_user x u := mk_uri (scheme u) x (passwd u) (host u) (port_str u) (port u) (params u) (hdrs u) (trsp u).
Definition set_passwd x u := mk_uri (scheme u) (user u) x (host u) (port_str u) (port u) (params u) (hdrs u) (trsp u).
Definition set_host x u := mk_uri (scheme u) (user u) (passwd u) x (port_str u) (port u) (params u) (hdrs u) (trsp u).
Definition set_port_str x u := mk_uri (scheme u) (user u) (passwd u) (host u) x (port u) (params u) (hdrs u) (trsp u).
Definition set_port x u := mk_uri (scheme u) (user u) (passwd u) (host u) (port_str u) x (params u) (hdrs u) (trsp u).
Definition set_trsp x u := mk_uri (scheme u) (user u) (passwd u) (host u) (port_str u) (port u) (params u) (hdrs u) x.

(** [params.push_back(new sip_avp(a,b))], [hdrs.push_back(...)] *)
Definition push_param a b u :=
  mk_uri (scheme u) (user u) (passwd u) (host u) (port_str u) (port u) (params u ++ [mk_avp a b]) (hdrs u) (trsp u).
Definition push_hdr a b u :=
  mk_uri (scheme u) (user u) (passwd u) (host u) (port_str u) (port u) (params u) (hdrs u ++ [mk_avp a b]) (trsp u).

Definition URI_USER : Z := 0.
Definition URI_PW : Z := 1.
Definition URI_HOST : Z := 2.
Definition URI_HOST_V6 : Z := 3.
Definition URI_PORT : Z := 4.
Definition URI_PNAME : Z := 5.
Definition URI_PVALUE : Z := 6.
Definition URI_HNAME : Z := 7.
Definition URI_HVALUE : Z := 8.

(** [x.len = c - x.s] *)
Definition upto (c : Z) (x : cstr) : cstr := mk_cstr (s x) (c - s x).

(** [x.s = c] *)
Definition start_at (c : Z) (x : cstr) : cstr := mk_cstr c (len x).

(** The local variables [c], [st], [tmp1], [tmp2], and [*uri]. *)
Record us_state := mk_us { us_c : Z; us_st : Z; us_tmp1 : cstr; us_tmp2 : cstr; us_uri : sip_uri }.

Definition us_set_c (x : Z) (p : us_state) : us_state := mk_us x (us_st p) (us_tmp1 p) (us_tmp2 p) (us_uri p).
Definition us_go (st : Z) (u : sip_uri) (p : us_state) : us_state := mk_us (us_c p) st (us_tmp1 p) (us_tmp2 p) u.
Definition us_tmp (t1 t2 : cstr) (p : us_state) : us_state := mk_us (us_c p) (us_st p) t1 t2 (us_uri p).

Definition QMARK : Z := 63.
Definition AT : Z := 64.
Definition AMPERSAND : Z := 38.
Definition LBRACKET : Z := 91.
Definition RBRACKET : Z := 93.

(** The body of the main loop. *)
Definition sip_uri_char (m : mem) (p : us_state) : outcome us_state :=
  let c := us_c p in
  let ch := m c in
  let st := us_st p in
  let u := us_uri p in
  let tmp1 := us_tmp1 p in
  let tmp2 := us_tmp2 p in
  if ch =? HCOLON then
    if st =? URI_USER then
      let u := set_user (upto c (user u)) u in
      if len (user u) =? 0 then Ret (us_go st u p) MALFORMED_URI
      else Go (us_go URI_PW (set_passwd (start_at (c + 1) (passwd u)) u) p)
    else if st =? URI_HOST then
      let u := set_host (upto c (host u)) u in
      if len (host u) =? 0 then Ret (us_go st u p) MALFORMED_URI
      else Go (us_go URI_PORT (set_port_str (start_at (c + 1) (port_str u)) u) p)
    else Go p
  else if ch =? AT then
    if st =? URI_USER then Go (us_go URI_HOST (set_host (mk_cstr (c + 1) 0) (set_user (upto c (user u)) u)) p)
    else if st =? URI_PW then Go (us_go URI_HOST (set_host (mk_cstr (c + 1) 0) (set_passwd (upto c (passwd u)) u)) p)
    else Ret p MALFORMED_URI
  else if ch =? SEMICOLON then
    if st =? URI_HOST then Go (us_tmp (mk_cstr (c + 1) 0) tmp2 (us_go URI_PNAME (set_host (upto c (host u)) u) p))
    else if st =? URI_PORT then
      Go (us_tmp (mk_cstr (c + 1) 0) tmp2 (us_go URI_PNAME (set_port_str (upto c (port_str u)) u) p))
    else if st =? URI_PNAME then
      Go (us_tmp (start_at (c + 1) (upto c tmp1)) tmp2 (us_go st (push_param (upto c tmp1) cstr0 u) p))
    else if st =? URI_PVALUE then
      Go (us_tmp (start_at (c + 1) tmp1) (upto c tmp2) (us_go URI_PNAME (push_param tmp1 (upto c tmp2) u) p))
    else Go p
  else if ch =? QMARK then
    if st =? URI_HOST then Go (us_tmp (start_at (c + 1) tmp1) tmp2 (us_go URI_HNAME (set_host (upto c (host u)) u) p))
    else if st =? URI_PORT then
      Go (us_tmp (start_at (c + 1) tmp1) tmp2 (us_go URI_HNAME (set_port_str (upto c (port_str u)) u) p))
    else if st =? URI_PNAME then
      Go (us_tmp (start_at (c + 1) (upto c tmp1)) tmp2 (us_go URI_HNAME (push_param (upto c tmp1) cstr0 u) p))
    else if st =? URI_PVALUE then
      Go (us_tmp (start_at (c + 1) tmp1) (upto c tmp2) (us_go URI_HNAME (push_param tmp1 (upto c tmp2) u) p))
    else Go p
  else if ch =? EQU then
    if (st =? URI_PNAME) || (st =? URI_HNAME) then
      let p := us_tmp (upto c tmp1) tmp2 p in
      if len (us_tmp1 p) =? 0 then Ret p MALFORMED_URI
      else Go (us_tmp (us_tmp1 p) (start_at (c + 1) tmp2) (us_go (st + 1) u p))
    else Go p
  else if ch =? AMPERSAND then
    if st =? URI_HNAME then Ret p MALFORMED_URI
    else if st =? URI_HVALUE then
      Go (us_tmp (start_at (c + 1) tmp1) (upto c tmp2) (us_go URI_HNAME (push_hdr tmp1 (upto c tmp2) u) p))
    else Go p
  else if ch =? LBRACKET then if st =? URI_HOST then Go (us_go URI_HOST_V6 u p) else Go p
  else if ch =? RBRACKET then if st =? URI_HOST_V6 then Go (us_go URI_HOST u p) else Go p
  else Go p.

(** The [switch] after the loop: the URI and, unless it goes on, the return code. *)
Definition sip_uri_end (p : us_state) : sip_uri * option Z :=
  let c := us_c p in
  let st := us_st p in
  let u := us_uri p in
  if (st =? URI_USER) || (st =? URI_PW) then (u, Some MALFORMED_URI)
  else if st =? URI_HOST then
    let u := set_host (upto c (host u)) u in
    if len (host u) =? 0 then (u, Some MALFORMED_URI) else (u, None)
  else if st =? URI_HOST_V6 then (u, Some MALFORMED_URI)
  else if st =? URI_PORT then (set_port_str (upto c (port_str u)) u, None)
  else if st =? URI_PNAME then (push_param (upto c (us_tmp1 p)) cstr0 u, None)
  else if st =? URI_PVALUE then (push_param (us_tmp1 p) (upto c (us_tmp2 p)) u, None)
  else if st =? URI_HNAME then (u, Some MALFORMED_URI)
  else if st =? URI_HVALUE then (push_hdr (us_tmp1 p) (upto c (us_tmp2 p)) u, None)
  else (u, None).

(** The loop over the port's digits, [None] when it returns [MALFORMED_URI]. *)
Fixpoint port_loop (l : list Z) (p : Z) : option Z :=
  match l with
  | [] => Some p
  | d :: l =>
      if (d <? 48) || (d >? 57) then None
      else let p := p * 10 + (d - 48) in if p >? 65535 then None else port_loop l p
  end.

Definition is_trsp (m : mem) (a : sip_avp) : bool := lower_cmp_n (chars m (avp_name a)) (lit "transport") =? 0.

(** The loop over the parameters that sets [uri->trsp]. *)
Definition find_trsp (m : mem) (u : sip_uri) : sip_uri :=
  fold_left (fun u a => if is_trsp m a then set_trsp (Some a) u else u) (params u) u.

(** From [if(uri->port_str.len)] to the end. *)
Definition sip_uri_port (m : mem) (u : sip_uri) : sip_uri * Z :=
  match (if negb (len (port_str u) =? 0) then port_loop (chars m (port_str u)) 0 else Some 5060) with
  | None => (u, MALFORMED_URI)
  | Some p => (find_trsp m (set_port p u), 0)
  end.

Definition parse_sip_uri (m : mem) (u : sip_uri) (beg len : Z) : option (sip_uri * Z) :=
  let st := if inb AT (bytes m beg (Z.to_nat len)) then URI_USER else URI_HOST in
  let u :=
    if st =? URI_USER then set_user (start_at beg (user u)) u else set_host (start_at beg (host u)) u in
  match run_loop us_c us_set_c sip_uri_char (S (Z.to_nat len)) m (beg + len) (mk_us beg st cstr0 cstr0 u) with
  | None => None
  | Some (p, Some r) => Some (us_uri p, r)
  | Some (p, None) =>
      match sip_uri_end p with
      | (u, Some r) => Some (u, r)
      | (u, None) => Some (sip_uri_port m u)
      end
  end.

(** The scheme, with what follows it read by [parse_sip_uri]. *)
Definition URI_BEG : Z := 0.
Definition SIP_S : Z := 1.
Definition SIP_I : Z := 2.
Definition SIP_P : Z := 3.
Definition SIPS_S : Z := 4.

(** [parse_uri]: [n] characters are left at [c]. *)
Fixpoint parse_uri_loop (m : mem) (u : sip_uri) (st c : Z) (n : nat) : option (sip_uri * Z) :=
  match n with
  | O => Some (u, 0)
  | S n =>
      let ch := m c in
      if st =? URI_BEG then
        if inb ch (lit "sS") then parse_uri_loop m u SIP_S (c + 1) n else Some (u, MALFORMED_URI)
      else if st =? SIP_S then
        if inb ch (lit "iI") then parse_uri_loop m u SIP_I (c + 1) n else Some (u, MALFORMED_URI)
      else if st =? SIP_I then
        if inb ch (lit "pP") then parse_uri_loop m u SIP_P (c + 1) n else Some (u, MALFORMED_URI)
      else if st =? SIP_P then
        if ch =? HCOLON then parse_sip_uri m (set_scheme SIP u) (c + 1) (Z.of_nat n)
        else if inb ch (lit "sS") then parse_uri_loop m u SIPS_S (c + 1) n
        else Some (u, MALFORMED_URI)
      else if st =? SIPS_S then
        if ch =? HCOLON then parse_sip_uri m (set_scheme SIPS u) (c + 1) (Z.of_nat n)
        else Some (u, MALFORMED_URI)
      else Some (u, UNDEFINED_ERR)
  end.

Definition parse_uri (m : mem) (u : sip_uri) (beg len : Z) : option (sip_uri * Z) :=
  parse_uri_loop m u URI_BEG beg (Z.to_nat len).

(** ** URIs as they are written *)

(** A host name or IPv4 address, or what an IPv6 reference has between its brackets. *)
Inductive host_text := Plain (l : list Z) | IPv6 (l : list Z).

Definition host_wr (h : host_text) : list Z :=
  match h with Plain l => l | IPv6 l => LBRACKET :: l ++ [RBRACKET] end.

Record uri_text := mk_ut {
  ut_user : option (list Z * option (list Z));   (* user and password *)
  ut_host : host_text;
  ut_port : option Z;
  ut_params : list (list Z * option (list Z));
  ut_hdrs : list (list Z * list Z)
}.

Definition user_wr (x : option (list Z * option (list Z))) : list Z :=
  match x with
  | None => []
  | Some (n, None) => n ++ [AT]
  | Some (n, Some pw) => n ++ [HCOLON] ++ pw ++ [AT]
  end.

Definition port_wr (x : option Z) : list Z :=
  match x with None => [] | Some n => HCOLON :: int2str n end.

Definition uparam_wr (x : list Z * option (list Z)) : list Z :=
  SEMICOLON :: x.1 ++ match x.2 with None => [] | Some v => EQU :: v end.

Definition uhdr_wr (sep : Z) (x : list Z * list Z) : list Z := sep :: x.1 ++ EQU :: x.2.

Definition uhdrs_wr (l : list (list Z * list Z)) : list Z :=
  match l with [] => [] | x :: l => uhdr_wr QMARK x ++ flat_map (uhdr_wr AMPERSAND) l end.

Definition uri_wr (t : uri_text) : list Z :=
  user_wr (ut_user t) ++ host_wr (ut_host t) ++ port_wr (ut_port t) ++ flat_map uparam_wr (ut_params t) ++ uhdrs_wr (ut_hdrs t).

(** What the loop leaves alone in a state. *)
Definition uri_idle (st ch : Z) : bool :=
  if ch =? HCOLON then negb ((st =? URI_USER) || (st =? URI_HOST))
  else if ch =? AT then false
  else if (ch =? SEMICOLON) || (ch =? QMARK) then
    negb ((st =? URI_HOST) || (st =? URI_PORT) || (st =? URI_PNAME) || (st =? URI_PVALUE))
  else if ch =? EQU then negb ((st =? URI_PNAME) || (st =? URI_HNAME))
  else if ch =? AMPERSAND then negb ((st =? URI_HNAME) || (st =? URI_HVALUE))
  else if ch =? LBRACKET then negb (st =? URI_HOST)
  else if ch =? RBRACKET then negb (st =? URI_HOST_V6)
  else true.

Definition nonempty (l : list Z) : bool := negb (Nat.eqb (length l) 0).

Definition good_user (x : option (list Z * option (list Z))) : bool :=
  match x with
  | None => true
  | Some (n, None) => forallb (uri_idle URI_USER) n
  | Some (n, Some pw) => nonempty n && forallb (uri_idle URI_USER) n && forallb (uri_idle URI_PW) pw
  end.

Definition good_host (h : host_text) : bool :=
  match h with
  | Plain l => nonempty l && forallb (uri_idle URI_HOST) l
  | IPv6 l => forallb (uri_idle URI_HOST_V6) l
  end.

Definition good_port (x : option Z) : bool :=
  match x with None => true | Some n => (0 <=? n) && (n <=? 65535) end.

Definition good_uparam (x : list Z * option (list Z)) : bool :=
  forallb (uri_idle URI_PNAME) x.1 &&
  match x.2 with None => true | Some v => nonempty x.1 && forallb (uri_idle URI_PVALUE) v end.

Definition good_uhdr (x : list Z * list Z) : bool :=
  nonempty x.1 && forallb (uri_idle URI_HNAME) x.1 && forallb (uri_idle URI_HVALUE) x.2.

Definition good_uri (t : uri_text) : bool :=
  good_user (ut_user t) && good_host (ut_host t) && good_port (ut_port t)
  && forallb good_uparam (ut_params t) && forallb good_uhdr (ut_hdrs t).

(** What a URI reads as: user, password, host, text of the port, parameters, headers. *)
Record uri_view := mk_uv {
  uv_user : list Z; uv_passwd : list Z; uv_host : list Z; uv_port : list Z;
  uv_params : list (list Z * list Z); uv_hdrs : list (list Z * list Z)
}.

Definition view_uri (m : mem) (u : sip_uri) : uri_view :=
  mk_uv (chars m (user u)) (chars m (passwd u)) (chars m (host u)) (chars m (port_str u))
    (map (avp_text m) (params u)) (map (avp_text m) (hdrs u)).

Definition uparam_text (x : list Z * option (list Z)) : list Z * list Z := (x.1, default [] x.2).

Definition view_text (t : uri_text) : uri_view :=
  mk_uv (default [] (option_map fst (ut_user t))) (default [] (ut_user t ≫= snd)) (host_wr (ut_host t))
    (default [] (option_map int2str (ut_port t))) (map uparam_text (ut_params t)) (ut_hdrs t).

Definition add_param (x : list Z * list Z) (v : uri_view) : uri_view :=
  mk_uv (uv_user v) (uv_passwd v) (uv_host v) (uv_port v) (uv_params v ++ [x]) (uv_hdrs v).
Definition add_hdr (x : list Z * list Z) (v : uri_view) : uri_view :=
  mk_uv (uv_user v) (uv_passwd v) (uv_host v) (uv_port v) (uv_params v) (uv_hdrs v ++ [x]).

(** ** Running the state machine *)

Abbreviation us_to := (loop_to us_c us_set_c sip_uri_char).

Lemma idle_char m p : uri_idle (us_st p) (m (us_c p)) = true -> sip_uri_char m p = Go p.
Proof.
  unfold uri_idle, sip_uri_char.
  repeat match goal with
  | |- context [m (us_c p) =? ?b] => destruct (m (us_c p) =? b); cbn [orb negb]; try done
  | |- context [us_st p =? ?b] => destruct (us_st p =? b); cbn [orb negb]; try done
  end.
Qed.

Lemma us_idle m e l c st t1 t2 u y :
  forallb (uri_idle st) l = true -> holds m c l -> c + Z.of_nat (length l) <= e ->
  us_to m e (mk_us (c + Z.of_nat (length l)) st t1 t2 u) y -> us_to m e (mk_us c st t1 t2 u) y.
Proof.
  intros Hl Hh He Hy. apply (loop_run us_c us_set_c _ (fun p => us_st p = st) m e _ l); try done.
  - by intros [].
  - intros x z Hx%list_elem_of_In Hz Hm. apply idle_char. rewrite Hz, Hm. by apply (proj1 (forallb_forall _ _) Hl).
Qed.

(** A state in which a parameter or the headers may start, and the URI when what is being
    read ends here. *)
Definition open_st (st : Z) : bool := inb st [URI_HOST; URI_PORT; URI_PNAME; URI_PVALUE].

Definition settle (p : us_state) : sip_uri :=
  let c := us_c p in
  let u := us_uri p in
  if us_st p =? URI_HOST then set_host (upto c (host u)) u
  else if us_st p =? URI_PORT then set_port_str (upto c (port_str u)) u
  else if us_st p =? URI_PNAME then push_param (upto c (us_tmp1 p)) cstr0 u
  else if us_st p =? URI_PVALUE then push_param (us_tmp1 p) (upto c (us_tmp2 p)) u
  else push_hdr (us_tmp1 p) (upto c (us_tmp2 p)) u.

(** What parameters and headers leave alone. *)
Definition uri_fix (u : sip_uri) : uri_scheme * cstr * option sip_avp := (scheme u, port_str u, trsp u).

Lemma open_cases st :
  open_st st = true -> st = URI_HOST \/ st = URI_PORT \/ st = URI_PNAME \/ st = URI_PVALUE.
Proof. unfold open_st, inb. cbn [existsb]. rewrite orb_false_r, !orb_true_iff, !Z.eqb_eq. tauto. Qed.

Lemma settle_semi m p :
  open_st (us_st p) = true -> m (us_c p) = SEMICOLON ->
  exists n t2, sip_uri_char m p = Go (mk_us (us_c p) URI_PNAME (mk_cstr (us_c p + 1) n) t2 (settle p)).
Proof.
  destruct p as [c st t1 t2 u]; cbn [us_st us_c]. intros [->|[->|[->| ->]]]%open_cases Hm;
    unfold sip_uri_char; cbn [us_c us_st us_uri us_tmp1 us_tmp2]; rewrite Hm; cbn -[Z.add Z.sub]; unfold us_tmp, us_go, settle, start_at; cbn -[Z.add Z.sub]; eauto.
Qed.

Definition hdr_sep (st sep : Z) : bool := (open_st st && (sep =? QMARK)) || ((st =? URI_HVALUE) && (sep =? AMPERSAND)).

Lemma settle_sep m p :
  hdr_sep (us_st p) (m (us_c p)) = true ->
  exists n t2, sip_uri_char m p = Go (mk_us (us_c p) URI_HNAME (mk_cstr (us_c p + 1) n) t2 (settle p)).
Proof.
  destruct p as [c st t1 t2 u]; cbn [us_st us_c]. unfold hdr_sep.
  rewrite orb_true_iff, !andb_true_iff, !Z.eqb_eq. intros [[[->|[->|[->| ->]]]%open_cases Hm]|[-> Hm]];
    unfold sip_uri_char; cbn [us_c us_st us_uri us_tmp1 us_tmp2]; rewrite Hm; cbn -[Z.add Z.sub]; unfold us_tmp, us_go, settle, start_at; cbn -[Z.add Z.sub]; eauto.
Qed.

Lemma nonempty_len l : nonempty l = true -> 0 < Z.of_nat (length l).
Proof. unfold nonempty. destruct l; [done|]. cbn [length]. lia. Qed.

Lemma chars_upto m a l c n : holds m a l -> c = a + Z.of_nat (length l) -> chars m (upto c (mk_cstr a n)) = l.
Proof.
  intros Hh ->. unfold upto; cbn [s]. replace (a + Z.of_nat (length l) - a) with (Z.of_nat (length l)) by lia.
  by apply chars_holds.
Qed.

Lemma view_push_param m a b u : view_uri m (push_param a b u) = add_param (chars m a, chars m b) (view_uri m u).
Proof. unfold view_uri, push_param, add_param; cbn. by rewrite map_app. Qed.

Lemma view_push_hdr m a b u : view_uri m (push_hdr a b u) = add_hdr (chars m a, chars m b) (view_uri m u).
Proof. unfold view_uri, push_hdr, add_hdr; cbn. by rewrite map_app. Qed.

(** [=] after a name: the name is in [tmp1], the value starts. *)
Lemma us_equ m e c st n t2 u k y :
  (st =? URI_PNAME) || (st =? URI_HNAME) = true -> m (c + k) = EQU -> 0 < k -> c + k < e ->
  us_to m e (mk_us (c + k + 1) (st + 1) (mk_cstr c k) (start_at (c + k + 1) t2) u) y ->
  us_to m e (mk_us (c + k) st (mk_cstr c n) t2 u) y.
Proof.
  intros Hst Hm Hk He Hy.
  apply (loop_step _ _ _ _ _ _ (mk_us (c + k) (st + 1) (mk_cstr c k) (start_at (c + k + 1) t2) u)); cbn [us_c]; [lia| |exact Hy].
  unfold sip_uri_char; cbn [us_c us_st us_uri us_tmp1 us_tmp2]. rewrite Hm, Hst.
  assert (Hup : upto (c + k) (mk_cstr c n) = mk_cstr c k) by (unfold upto; cbn [s]; f_equal; lia).
  cbn -[Z.add Z.sub upto]. rewrite Hup. cbn [len]. destruct (Z.eqb_spec k 0); [lia|]. done.
Qed.

Lemma us_param m e x p :
  good_uparam x = true -> open_st (us_st p) = true -> holds m (us_c p) (uparam_wr x) ->
  us_c p + Z.of_nat (length (uparam_wr x)) <= e ->
  exists p', open_st (us_st p') = true /\ us_st p' <> URI_HOST /\ us_c p' = us_c p + Z.of_nat (length (uparam_wr x)) /\
    uri_fix (settle p') = uri_fix (settle p) /\
    view_uri m (settle p') = add_param (uparam_text x) (view_uri m (settle p)) /\
    forall y, us_to m e p' y -> us_to m e p y.
Proof.
  destruct x as [nm v]; unfold good_uparam, uparam_wr, uparam_text; cbn [fst snd].
  intros [Hn Hv]%andb_true_iff Ho Hh He. apply holds_cons in Hh as [Hs Hh]. apply holds_app in Hh as [Hh1 Hh2].
  cbn [length] in *. rewrite length_app in *.
  destruct (settle_semi m p Ho Hs) as (n & t2 & E).
  assert (Hrun : forall y, us_to m e (mk_us (us_c p + 1 + Z.of_nat (length nm)) URI_PNAME (mk_cstr (us_c p + 1) n) t2 (settle p)) y ->
                  us_to m e p y).
  { intros y Hy. eapply loop_step; [|exact E|]; [lia|]. unfold advance, us_set_c; cbn [us_c us_st us_tmp1 us_tmp2 us_uri].
    by apply (us_idle m e nm); [| |lia|]. }
  destruct v as [v|]; cbn [length] in *.
  - apply andb_true_iff in Hv as [Hne Hv]. apply nonempty_len in Hne. apply holds_cons in Hh2 as [Heq Hh2].
    set (k := Z.of_nat (length nm)) in *. set (c := us_c p + 1) in *.
    exists (mk_us (c + k + 1 + Z.of_nat (length v)) URI_PVALUE (mk_cstr c k) (start_at (c + k + 1) t2) (settle p)).
    split; [done|]. split; [done|]. split; [cbn [us_c]; lia|]. split; [done|]. split.
    + unfold settle at 1; cbn -[Z.add Z.of_nat view_uri settle push_param]. rewrite view_push_param. unfold k.
      rewrite (chars_holds _ _ _ Hh1). unfold start_at. by rewrite (chars_upto m (c + k + 1) v).
    + intros y Hy. apply Hrun. apply us_equ; [done|done|lia|lia|]. by apply (us_idle m e v); [| |lia|].
  - eexists. split; [|split; [|split; [|split; [|split; [|exact Hrun]]]]]; cbn [us_c us_st]; try done; [lia|].
    unfold settle at 1; cbn -[Z.add Z.of_nat view_uri settle push_param]. rewrite view_push_param.
    by rewrite (chars_upto m (us_c p + 1) nm).
Qed.

Lemma us_hdr m e sep x p :
  good_uhdr x = true -> hdr_sep (us_st p) sep = true -> holds m (us_c p) (uhdr_wr sep x) ->
  us_c p + Z.of_nat (length (uhdr_wr sep x)) <= e ->
  exists p', us_st p' = URI_HVALUE /\ us_c p' = us_c p + Z.of_nat (length (uhdr_wr sep x)) /\
    uri_fix (settle p') = uri_fix (settle p) /\
    view_uri m (settle p') = add_hdr x (view_uri m (settle p)) /\
    forall y, us_to m e p' y -> us_to m e p y.
Proof.
  destruct x as [nm v]; unfold good_uhdr, uhdr_wr; cbn [fst snd]. rewrite !andb_true_iff.
  intros [[Hne%nonempty_len Hn] Hv] Ho Hh He. apply holds_cons in Hh as [Hs Hh]. apply holds_app in Hh as [Hh1 Hh2].
  apply holds_cons in Hh2 as [Heq Hh2]. cbn [length] in *. rewrite length_app in *. cbn [length] in *.
  rewrite <- Hs in Ho. destruct (settle_sep m p Ho) as (n & t2 & E).
  set (k := Z.of_nat (length nm)) in *. set (c := us_c p + 1) in *.
  exists (mk_us (c + k + 1 + Z.of_nat (length v)) URI_HVALUE (mk_cstr c k) (start_at (c + k + 1) t2) (settle p)).
  split; [done|]. split; [cbn [us_c]; lia|]. split; [done|]. split.
  - unfold settle at 1; cbn -[Z.add Z.of_nat view_uri settle push_hdr]. rewrite view_push_hdr. unfold k.
    rewrite (chars_holds _ _ _ Hh1). unfold start_at. by rewrite (chars_upto m (c + k + 1) v).
  - intros y Hy. eapply loop_step; [|exact E|]; [lia|]. unfold advance, us_set_c; cbn [us_c us_st us_tmp1 us_tmp2 us_uri].
    fold c. apply (us_idle m e nm); [done|done|fold k; lia|]. fold k. apply us_equ; [done|done|lia|lia|].
    by apply (us_idle m e v); [| |lia|].
Qed.

Lemma us_params m e l p :
  forallb good_uparam l = true -> open_st (us_st p) = true -> holds m (us_c p) (flat_map uparam_wr l) ->
  us_c p + Z.of_nat (length (flat_map uparam_wr l)) <= e ->
  exists p', open_st (us_st p') = true /\ (us_st p' = URI_HOST -> p' = p) /\
    us_c p' = us_c p + Z.of_nat (length (flat_map uparam_wr l)) /\
    uri_fix (settle p') = uri_fix (settle p) /\
    view_uri m (settle p') = fold_left (fun v x => add_param (uparam_text x) v) l (view_uri m (settle p)) /\
    forall y, us_to m e p' y -> us_to m e p y.
Proof.
  revert p; induction l as [|x l IH]; intros p Hg Ho Hh He.
  { exists p. cbn [flat_map length]. rewrite Z.add_0_r. by repeat split. }
  cbn [forallb flat_map fold_left] in *. apply andb_true_iff in Hg as [Hx Hg]. apply holds_app in Hh as [Hh1 Hh2].
  rewrite length_app in *.
  destruct (us_param m e x p Hx Ho Hh1 ltac:(lia)) as (p1 & Ho1 & Hn1 & Hc1 & Hs1 & Hv1 & Hr1).
  destruct (IH p1 Hg Ho1) as (p2 & Ho2 & Hn2 & Hc2 & Hs2 & Hv2 & Hr2); [by rewrite Hc1|lia|].
  exists p2. rewrite <- Hv1. repeat split; [done| |lia|congruence|done|auto].
  intros H. pose proof (Hn2 H) as ->. done.
Qed.

Lemma us_amp_hdrs m e l p :
  forallb good_uhdr l = true -> us_st p = URI_HVALUE -> holds m (us_c p) (flat_map (uhdr_wr AMPERSAND) l) ->
  us_c p + Z.of_nat (length (flat_map (uhdr_wr AMPERSAND) l)) <= e ->
  exists p', us_st p' = URI_HVALUE /\ us_c p' = us_c p + Z.of_nat (length (flat_map (uhdr_wr AMPERSAND) l)) /\
    uri_fix (settle p') = uri_fix (settle p) /\
    view_uri m (settle p') = fold_left (fun v x => add_hdr x v) l (view_uri m (settle p)) /\
    forall y, us_to m e p' y -> us_to m e p y.
Proof.
  revert p; induction l as [|x l IH]; intros p Hg Ho Hh He.
  { exists p. cbn [flat_map length]. rewrite Z.add_0_r. by repeat split. }
  cbn [forallb flat_map fold_left] in *. apply andb_true_iff in Hg as [Hx Hg]. apply holds_app in Hh as [Hh1 Hh2].
  rewrite length_app in *.
  destruct (us_hdr m e AMPERSAND x p Hx) as (p1 & Ho1 & Hc1 & Hs1 & Hv1 & Hr1); [by rewrite Ho|done|lia|].
  destruct (IH p1 Hg Ho1) as (p2 & Ho2 & Hc2 & Hs2 & Hv2 & Hr2); [by rewrite Hc1|lia|].
  exists p2. rewrite <- Hv1. repeat split; [done|lia|congruence|done|auto].
Qed.

Lemma us_hdrs m e l p :
  forallb good_uhdr l = true -> open_st (us_st p) = true -> holds m (us_c p) (uhdrs_wr l) ->
  us_c p + Z.of_nat (length (uhdrs_wr l)) <= e ->
  exists p', (us_st p' = URI_HVALUE \/ p' = p) /\ us_c p' = us_c p + Z.of_nat (length (uhdrs_wr l)) /\
    uri_fix (settle p') = uri_fix (settle p) /\
    view_uri m (settle p') = fold_left (fun v x => add_hdr x v) l (view_uri m (settle p)) /\
    forall y, us_to m e p' y -> us_to m e p y.
Proof.
  destruct l as [|x l]; intros Hg Ho Hh He.
  { exists p. cbn [uhdrs_wr length]. rewrite Z.add_0_r. repeat split; auto. }
  cbn [forallb uhdrs_wr fold_left] in *. apply andb_true_iff in Hg as [Hx Hg]. apply holds_app in Hh as [Hh1 Hh2].
  rewrite length_app in *.
  destruct (us_hdr m e QMARK x p Hx) as (p1 & Ho1 & Hc1 & Hs1 & Hv1 & Hr1); [unfold hdr_sep; by rewrite Ho|done|lia|].
  destruct (us_amp_hdrs m e l p1 Hg Ho1) as (p2 & Ho2 & Hc2 & Hs2 & Hv2 & Hr2); [by rewrite Hc1|lia|].
  exists p2. rewrite <- Hv1. repeat split; [auto|lia|congruence|done|auto].
Qed.

Lemma settle_end m p :
  open_st (us_st p) = true \/ us_st p = URI_HVALUE -> uv_host (view_uri m (settle p)) <> [] ->
  sip_uri_end p = (settle p, None).
Proof.
  destruct p as [c st t1 t2 u]; cbn [us_st]. unfold sip_uri_end, settle; cbn [us_st us_c us_uri us_tmp1 us_tmp2].
  intros [[->|[->|[->| ->]]]%open_cases| ->] Hh; cbn [Z.eqb Pos.eqb URI_USER URI_PW URI_HOST URI_HOST_V6 URI_PORT URI_PNAME URI_PVALUE URI_HNAME URI_HVALUE orb] in *; try done.
  destruct (Z.eqb_spec (len (host (set_host (upto c (host u)) u))) 0) as [E|]; [|done].
  exfalso. apply Hh. cbn -[Z.sub upto chars] in *. unfold chars. by rewrite E.
Qed.

(** Where the loop starts, and the URI it starts with. *)
Definition uri_start (beg : Z) (t : uri_text) (u : sip_uri) : us_state :=
  match ut_user t with
  | None => mk_us beg URI_HOST cstr0 cstr0 (set_host (start_at beg (host u)) u)
  | Some _ => mk_us beg URI_USER cstr0 cstr0 (set_user (start_at beg (user u)) u)
  end.

Lemma us_user m e t beg sch :
  good_user (ut_user t) = true -> holds m beg (user_wr (ut_user t)) ->
  beg + Z.of_nat (length (user_wr (ut_user t))) <= e ->
  exists u n, let c := beg + Z.of_nat (length (user_wr (ut_user t))) in
    host u = mk_cstr c n /\ scheme u = sch /\ chars m (user u) = uv_user (view_text t) /\
    chars m (passwd u) = uv_passwd (view_text t) /\ port_str u = cstr0 /\ params u = [] /\ hdrs u = [] /\ trsp u = None /\
    forall y, us_to m e (mk_us c URI_HOST cstr0 cstr0 u) y -> us_to m e (uri_start beg t (set_scheme sch sip_uri0)) y.
Proof.
  unfold uri_start, view_text; cbn [uv_user uv_passwd]. destruct (ut_user t) as [[n [pw|]]|]; cbn [good_user user_wr option_map default fst snd mbind option_bind].
  - rewrite !andb_true_iff. intros [[Hne%nonempty_len Hn] Hpw] Hh He.
    apply holds_app in Hh as [Hh1 Hh2]. apply holds_cons in Hh2 as [Hcol Hh2]. apply holds_app in Hh2 as [Hh2 Hat].
    apply holds_cons in Hat as [Hat _]. rewrite !length_app in *. cbn [length] in *. rewrite !Nat2Z.inj_add in *. cbn [Z.of_nat Pos.of_succ_nat] in *.
    set (k := Z.of_nat (length n)) in *. set (j := Z.of_nat (length pw)) in *.
    set (u := set_host (mk_cstr (beg + (k + (1 + (j + 1)))) 0)
       (set_passwd (mk_cstr (beg + k + 1) j) (set_user (mk_cstr beg k) (set_scheme sch sip_uri0)))).
    exists u, 0. repeat split; [by apply chars_holds|by apply chars_holds|].
    intros y Hy. apply (us_idle m e n); [done|done|fold k; lia|]. fold k.
    apply (loop_step _ _ _ _ _ _ (mk_us (beg + k) URI_PW cstr0 cstr0 (set_passwd (mk_cstr (beg + k + 1) 0) (set_user (mk_cstr beg k) (set_scheme sch sip_uri0))))); cbn [us_c]; [lia| |].
    { unfold sip_uri_char; cbn [us_c us_st us_uri us_tmp1 us_tmp2]. rewrite Hcol. cbn -[Z.add Z.sub].
      unfold upto, start_at, us_go; cbn -[Z.add Z.sub]. replace (beg + k - beg) with k by lia. destruct (Z.eqb_spec k 0); [lia|done]. }
    unfold advance, us_set_c; cbn [us_c us_st us_tmp1 us_tmp2 us_uri].
    apply (us_idle m e pw); [done|done|fold j; lia|]. fold j.
    eapply (loop_step _ _ _ _ _ _ (mk_us (beg + k + 1 + j) URI_HOST cstr0 cstr0 u)); cbn [us_c]; [lia| |].
    { unfold sip_uri_char; cbn [us_c us_st us_uri us_tmp1 us_tmp2]. rewrite Hat. cbn -[Z.add Z.sub].
      unfold upto, start_at, us_go, u; cbn -[Z.add Z.sub]. unfold set_host, set_passwd; cbn -[Z.add Z.sub]. do 3 f_equal; [f_equal; lia|f_equal; lia]. }
    unfold advance, us_set_c; cbn [us_c us_st us_tmp1 us_tmp2 us_uri].
    by replace (beg + k + 1 + j + 1) with (beg + (k + (1 + (j + 1)))) by lia.
  - intros Hn Hh He. apply holds_app in Hh as [Hh1 Hat]. apply holds_cons in Hat as [Hat _].
    rewrite !length_app in *. cbn [length] in *. rewrite !Nat2Z.inj_add in *. cbn [Z.of_nat Pos.of_succ_nat] in *.
    set (k := Z.of_nat (length n)) in *.
    set (u := set_host (mk_cstr (beg + (k + 1)) 0) (set_user (mk_cstr beg k) (set_scheme sch sip_uri0))).
    exists u, 0. repeat split; [by apply chars_holds|].
    intros y Hy. apply (us_idle m e n); [done|done|fold k; lia|]. fold k.
    apply (loop_step _ _ _ _ _ _ (mk_us (beg + k) URI_HOST cstr0 cstr0 u)); cbn [us_c]; [lia| |].
    { unfold sip_uri_char; cbn [us_c us_st us_uri us_tmp1 us_tmp2]. rewrite Hat. cbn -[Z.add Z.sub].
      unfold upto, start_at, us_go, u; cbn -[Z.add Z.sub]. unfold set_host, set_user; cbn -[Z.add Z.sub]. do 3 f_equal; [f_equal; lia|f_equal; lia]. }
    unfold advance, us_set_c; cbn [us_c us_st us_tmp1 us_tmp2 us_uri].
    by replace (beg + k + 1) with (beg + (k + 1)) by lia.
  - intros _ _ He. cbn [length] in *. rewrite Z.add_0_r in *. exists (set_host (mk_cstr beg 0) (set_scheme sch sip_uri0)), 0.
    repeat split. done.
Qed.

Lemma us_host m e h c u n t1 t2 :
  good_host h = true -> host u = mk_cstr c n -> holds m c (host_wr h) -> c + Z.of_nat (length (host_wr h)) <= e ->
  forall y, us_to m e (mk_us (c + Z.of_nat (length (host_wr h))) URI_HOST t1 t2 u) y -> us_to m e (mk_us c URI_HOST t1 t2 u) y.
Proof.
  intros Hg Hu Hh He y Hy. destruct h as [l|l]; cbn [good_host host_wr] in *.
  { apply andb_true_iff in Hg as [_ Hg]. by apply (us_idle m e l). }
  apply holds_cons in Hh as [Hl Hh]. apply holds_app in Hh as [Hh Hr]. apply holds_cons in Hr as [Hr _].
  cbn [length] in *. rewrite length_app in *. cbn [length] in *.
  apply (loop_step _ _ _ _ _ _ (mk_us c URI_HOST_V6 t1 t2 u)); cbn [us_c]; [lia| |].
  { unfold sip_uri_char; cbn [us_c us_st us_uri us_tmp1 us_tmp2]. by rewrite Hl. }
  unfold advance, us_set_c; cbn [us_c us_st us_tmp1 us_tmp2 us_uri].
  apply (us_idle m e l); [done|done|lia|].
  apply (loop_step _ _ _ _ _ _ (mk_us (c + 1 + Z.of_nat (length l)) URI_HOST t1 t2 u)); cbn [us_c]; [lia| |].
  { unfold sip_uri_char; cbn [us_c us_st us_uri us_tmp1 us_tmp2]. by rewrite Hr. }
  unfold advance, us_set_c; cbn [us_c us_st us_tmp1 us_tmp2 us_uri].
  by replace (c + 1 + Z.of_nat (length l) + 1) with (c + Z.of_nat (S (length l + 1))) by lia.
Qed.

Lemma host_wr_nonempty h : good_host h = true -> 0 < Z.of_nat (length (host_wr h)).
Proof. destruct h as [l|l]; cbn; [by intros [?%nonempty_len _]%andb_true_iff | lia]. Qed.

Lemma idle_digits st l : st = URI_PORT -> forallb IS_DIGIT l = true -> forallb (uri_idle st) l = true.
Proof.
  intros ->. rewrite !forallb_forall. intros H x Hx. specialize (H x Hx). apply is_digit_range in H. unfold uri_idle.
  repeat match goal with |- context [x =? ?b] => replace (x =? b) with false by (symmetry; apply Z.eqb_neq; unfold HCOLON, AT, SEMICOLON, QMARK, EQU, AMPERSAND, LBRACKET, RBRACKET; lia) end.
  done.
Qed.

(** Host and port: what is read when they end. *)
Lemma us_host_port m e h q c u n :
  good_host h = true -> good_port q = true -> host u = mk_cstr c n -> port_str u = cstr0 ->
  holds m c (host_wr h ++ port_wr q) -> c + Z.of_nat (length (host_wr h ++ port_wr q)) <= e ->
  exists p, open_st (us_st p) = true /\ us_c p = c + Z.of_nat (length (host_wr h ++ port_wr q)) /\
    scheme (settle p) = scheme u /\ trsp (settle p) = trsp u /\ 0 <= len (port_str (settle p)) /\
    view_uri m (settle p) = mk_uv (chars m (user u)) (chars m (passwd u)) (host_wr h) (default [] (option_map int2str q))
      (map (avp_text m) (params u)) (map (avp_text m) (hdrs u)) /\
    forall y, us_to m e p y -> us_to m e (mk_us c URI_HOST cstr0 cstr0 u) y.
Proof.
  intros Hg Hq Hu Hp Hh He. pose proof (host_wr_nonempty h Hg) as Hpos. apply holds_app in Hh as [Hh1 Hh2].
  rewrite length_app in *. set (k := Z.of_nat (length (host_wr h))) in *.
  assert (Hup : upto (c + k) (host u) = mk_cstr c k) by (rewrite Hu; unfold upto; cbn [s]; f_equal; lia).
  pose proof (us_host m e h c u n cstr0 cstr0 Hg Hu Hh1 ltac:(lia)) as Hrun. fold k in Hrun.
  destruct q as [q|]; cbn [port_wr length option_map default] in *.
  - apply andb_true_iff in Hq as [?%Z.leb_le ?%Z.leb_le]. apply holds_cons in Hh2 as [Hcol Hh2].
    destruct (int2str_digits q) as (Hne & Hd & Hval); [unfold UINT_MAX; lia|].
    remember (int2str q) as ds eqn:E. clear E.
    exists (mk_us (c + k + 1 + Z.of_nat (length ds)) URI_PORT cstr0 cstr0
       (set_port_str (mk_cstr (c + k + 1) 0) (set_host (mk_cstr c k) u))).
    split; [done|]. split; [cbn [us_c]; lia|]. split; [done|]. split; [done|]. split; [cbn -[Z.add Z.of_nat]; lia|]. split.
    + unfold settle, view_uri; cbn -[Z.add Z.of_nat chars upto]. unfold k at 1. rewrite (chars_holds _ _ _ Hh1).
      by rewrite (chars_upto m (c + k + 1) ds).
    + intros y Hy. apply Hrun.
      apply (loop_step _ _ _ _ _ _ (mk_us (c + k) URI_PORT cstr0 cstr0 (set_port_str (mk_cstr (c + k + 1) 0) (set_host (mk_cstr c k) u)))); cbn [us_c]; [lia| |].
      { unfold sip_uri_char; cbn [us_c us_st us_uri us_tmp1 us_tmp2]. rewrite Hcol. cbn -[Z.add Z.sub upto].
        rewrite Hup, Hp. cbn [len]. destruct (Z.eqb_spec k 0); [lia|done]. }
      unfold advance, us_set_c; cbn [us_c us_st us_tmp1 us_tmp2 us_uri].
      apply (us_idle m e ds); [by apply idle_digits|done|lia|done].
  - exists (mk_us (c + k) URI_HOST cstr0 cstr0 u). cbn [us_st us_c]. split; [done|]. split; [lia|]. split; [done|]. split; [done|].
    split; [unfold settle; cbn -[upto]; by rewrite Hp|]. split; [|done].
    unfold settle, view_uri; cbn -[Z.add Z.of_nat chars upto]. rewrite Hup, Hp. unfold k. by rewrite (chars_holds _ _ _ Hh1).
Qed.

Lemma fold_add_param l v :
  fold_left (fun v x => add_param (uparam_text x) v) l v =
  mk_uv (uv_user v) (uv_passwd v) (uv_host v) (uv_port v) (uv_params v ++ map uparam_text l) (uv_hdrs v).
Proof.
  revert v; induction l as [|x l IH]; intros v; cbn [fold_left map]; [rewrite app_nil_r; by destruct v|].
  rewrite IH. unfold add_param; cbn. by rewrite <- app_assoc.
Qed.

Lemma fold_add_hdr l v :
  fold_left (fun v x => add_hdr x v) l v =
  mk_uv (uv_user v) (uv_passwd v) (uv_host v) (uv_port v) (uv_params v) (uv_hdrs v ++ l).
Proof.
  revert v; induction l as [|x l IH]; intros v; cbn [fold_left]; [rewrite app_nil_r; by destruct v|].
  rewrite IH. unfold add_hdr; cbn. by rewrite <- app_assoc.
Qed.

(** The whole loop, on the text of a URI. *)
Lemma us_uri_run m t beg sch :
  good_uri t = true -> holds m beg (uri_wr t) ->
  exists p, us_to m (beg + Z.of_nat (length (uri_wr t))) (uri_start beg t (set_scheme sch sip_uri0)) (p, None) /\
    sip_uri_end p = (settle p, None) /\ scheme (settle p) = sch /\ trsp (settle p) = None /\ 0 <= len (port_str (settle p)) /\ view_uri m (settle p) = view_text t.
Proof.
  unfold good_uri. rewrite !andb_true_iff. intros [[[[Hu Hho] Hpo] Hpa] Hhd] Hh.
  unfold uri_wr in *. set (e := beg + Z.of_nat (length (user_wr (ut_user t) ++ _))).
  apply holds_app in Hh as [Hh1 Hh]. rewrite (app_assoc (host_wr _)) in *. apply holds_app in Hh as [Hh2 Hh].
  apply holds_app in Hh as [Hh3 Hh4].
  assert (He : e = beg + Z.of_nat (length (user_wr (ut_user t))) + Z.of_nat (length (host_wr (ut_host t) ++ port_wr (ut_port t)))
     + Z.of_nat (length (flat_map uparam_wr (ut_params t))) + Z.of_nat (length (uhdrs_wr (ut_hdrs t)))).
  { unfold e. rewrite !length_app. lia. }
  destruct (us_user m e t beg sch Hu Hh1 ltac:(lia)) as (u & n & Eh & Es & Ev1 & Ev2 & Ep & Epa & Ehd & Et & Hr1).
  destruct (us_host_port m e (ut_host t) (ut_port t) _ u n Hho Hpo Eh Ep Hh2 ltac:(lia)) as (p1 & Ho1 & Hc1 & Hs1 & Ht1 & Hl1 & Hv1 & Hr2).
  destruct (us_params m e (ut_params t) p1 Hpa Ho1) as (p2 & Ho2 & _ & Hc2 & Hs2 & Hv2 & Hr3); [by rewrite Hc1|lia|].
  destruct (us_hdrs m e (ut_hdrs t) p2 Hhd Ho2) as (p3 & Ho3 & Hc3 & Hs3 & Hv3 & Hr4); [by rewrite Hc2, Hc1|lia|].
  assert (HV : view_uri m (settle p3) = view_text t).
  { rewrite Hv3, fold_add_hdr, Hv2, fold_add_param, Hv1. cbn [uv_user uv_passwd uv_host uv_port uv_params uv_hdrs].
    by rewrite Ev1, Ev2, Epa, Ehd. }
  unfold uri_fix in *. injection Hs2 as Hs2 Hs2' Hs2''. injection Hs3 as Hs3 Hs3' Hs3''.
  exists p3. split; [|split; [|split; [congruence|split; [congruence|split; [congruence|done]]]]].
  - apply Hr1, Hr2, Hr3, Hr4. apply loop_end. lia.
  - apply (settle_end m); [destruct Ho3 as [->| ->]; auto|]. rewrite HV. cbn [view_text uv_host].
    pose proof (host_wr_nonempty _ Hho). by destruct (host_wr (ut_host t)).
Qed.

(** ** Reading a URI back *)

Lemma inb_app c l1 l2 : inb c (l1 ++ l2) = inb c l1 || inb c l2.
Proof. apply existsb_app. Qed.

Lemma idle_no_at st l : forallb (uri_idle st) l = true -> inb AT l = false.
Proof.
  induction l as [|x l IH]; [done|]. cbn [forallb]. intros [Hx Hl]%andb_true_iff. unfold inb in *; cbn [existsb]. rewrite IH by done.
  destruct (Z.eqb_spec AT x) as [<-|]; [done|done].
Qed.

Lemma at_search t : good_uri t = true -> inb AT (uri_wr t) = match ut_user t with None => false | Some _ => true end.
Proof.
  unfold good_uri. rewrite !andb_true_iff. intros [[[[_ Hho] Hpo] Hpa] Hhd]. unfold uri_wr. rewrite !inb_app.
  destruct (ut_user t) as [[n [pw|]]|]; cbn [user_wr]; [by rewrite !inb_app, !orb_true_r|by rewrite !inb_app, !orb_true_r|].
  assert (inb AT (host_wr (ut_host t)) = false) as ->.
  { destruct (ut_host t) as [l|l]; cbn [good_host host_wr] in *.
    - apply andb_true_iff in Hho as [_ Hho]. by eapply idle_no_at.
    - change (inb AT (LBRACKET :: l ++ [RBRACKET])) with (inb AT (l ++ [RBRACKET])). rewrite inb_app.
      by rewrite (idle_no_at _ _ Hho). }
  assert (inb AT (port_wr (ut_port t)) = false) as ->.
  { destruct (ut_port t) as [n|]; [|done]. cbn [good_port port_wr] in *. apply andb_true_iff in Hpo as [?%Z.leb_le ?%Z.leb_le].
    destruct (int2str_digits n) as (_ & Hd & _); [unfold UINT_MAX; lia|].
    change (inb AT (int2str n) = false). by apply (idle_no_at URI_PORT), idle_digits. }
  assert (inb AT (flat_map uparam_wr (ut_params t)) = false) as ->.
  { induction (ut_params t) as [|[n v] l IH]; [done|]. cbn [forallb flat_map] in *. apply andb_true_iff in Hpa as [Hx Hpa].
    rewrite inb_app, IH by done. apply andb_true_iff in Hx as [Hn Hv]. cbn [fst snd] in *. rewrite orb_false_r.
    change (inb AT (n ++ match v with None => [] | Some v => EQU :: v end) = false). rewrite inb_app, (idle_no_at _ _ Hn).
    destruct v as [v|]; [|done]. apply andb_true_iff in Hv as [_ Hv]. apply (idle_no_at _ _ Hv). }
  assert (Hx : forall sep x, sep <> AT -> good_uhdr x = true -> inb AT (uhdr_wr sep x) = false).
  { intros sep [n v] Hs. unfold good_uhdr; cbn [fst snd]. rewrite !andb_true_iff. intros [[_ Hn] Hv].
    unfold uhdr_wr, inb; cbn [fst snd existsb]. destruct (Z.eqb_spec AT sep); [congruence|]. cbn [orb].
    fold (inb AT (n ++ EQU :: v)). rewrite inb_app, (idle_no_at _ _ Hn). apply (idle_no_at _ _ Hv). }
  cbn [inb existsb orb]. destruct (ut_hdrs t) as [|x l]; [done|]. cbn [uhdrs_wr forallb] in *. apply andb_true_iff in Hhd as [Hg Hhd].
  rewrite inb_app, Hx by done. cbn [orb]. induction l as [|z l IH]; [done|]. cbn [flat_map forallb] in *.
  apply andb_true_iff in Hhd as [Hz Hhd]. by rewrite inb_app, Hx, IH.
Qed.

Lemma port_loop_digits l p :
  forallb IS_DIGIT l = true -> 0 <= p -> dec_val p l <= 65535 -> port_loop l p = Some (dec_val p l).
Proof.
  revert p; induction l as [|d l IH]; intros p Hd Hp Hv; [done|]. cbn [forallb port_loop] in *.
  apply andb_true_iff in Hd as [Hd Hds]. apply is_digit_range in Hd.
  change (dec_val p (d :: l)) with (dec_val (p * 10 + (d - 48)) l) in Hv |- *.
  pose proof (dec_val_ge (p * 10 + (d - 48)) l Hds ltac:(lia)).
  destruct (Z.ltb_spec d 48), (Z.gtb_spec d 57); try lia. cbn [orb].
  destruct (Z.gtb_spec (p * 10 + (d - 48)) 65535); [lia|]. apply IH; [done|lia|done].
Qed.

Lemma find_trsp_spec m u :
  trsp u = None -> find_trsp m u = set_trsp (last (List.filter (is_trsp m) (params u))) u.
Proof.
  intros Hu. unfold find_trsp. generalize (params u) as l.
  cut (forall l u, fold_left (fun u a => if is_trsp m a then set_trsp (Some a) u else u) l u =
         set_trsp (match last (List.filter (is_trsp m) l) with Some a => Some a | None => trsp u end) u).
  { intros H l. rewrite H, Hu. by destruct (last _). }
  clear. induction l as [|a l IH]; intros u; cbn [fold_left List.filter]; [by destruct u|]. rewrite IH.
  destruct (is_trsp m a); [|done]. destruct (List.filter (is_trsp m) l) as [|b r]; [by destruct u|].
  change (last (a :: b :: r)) with (last (b :: r)).
  destruct (last (b :: r)) eqn:E; [by destruct u|]. by apply last_None in E.
Qed.

Definition scheme_wr (b : bool) : list Z := if b then lit "sips:" else lit "sip:".

Lemma parse_uri_scheme m u (sips : bool) a n :
  holds m a (scheme_wr sips) ->
  parse_uri m u a (Z.of_nat (length (scheme_wr sips ++ n))) =
  parse_sip_uri m (set_scheme (if sips then SIPS else SIP) u) (a + Z.of_nat (length (scheme_wr sips))) (Z.of_nat (length n)).
Proof.
  intros Hh. unfold parse_uri. rewrite length_app, Nat2Z.id. destruct sips; cbn [scheme_wr] in *.
  - do 5 (apply holds_cons in Hh as [? Hh]). cbn [length lit map list_ascii_of_string Nat.add parse_uri_loop].
    repeat match goal with H : m _ = _ |- _ => rewrite H; clear H end.
    change (Z.of_nat 5) with 5. rewrite <- !Z.add_assoc. reflexivity.
  - do 4 (apply holds_cons in Hh as [? Hh]). cbn [length lit map list_ascii_of_string Nat.add parse_uri_loop].
    repeat match goal with H : m _ = _ |- _ => rewrite H; clear H end.
    change (Z.of_nat 4) with 4. rewrite <- !Z.add_assoc. reflexivity.
Qed.

Lemma sip_uri_char_cursor m p p' : sip_uri_char m p = Go p' -> us_c p' = us_c p.
Proof. unfold sip_uri_char. intros H. repeat case_match; by simplify_eq. Qed.

Lemma parse_sip_uri_run m u beg l p o :
  bytes m beg (length l) = l ->
  us_to m (beg + Z.of_nat (length l))
    (if inb AT l then mk_us beg URI_USER cstr0 cstr0 (set_user (start_at beg (user u)) u)
     else mk_us beg URI_HOST cstr0 cstr0 (set_host (start_at beg (host u)) u)) (p, o) ->
  parse_sip_uri m u beg (Z.of_nat (length l)) =
    match o with
    | Some r => Some (us_uri p, r)
    | None => match sip_uri_end p with (u, Some r) => Some (u, r) | (u, None) => Some (sip_uri_port m u) end
    end.
Proof.
  intros Hb Hl. unfold parse_sip_uri. rewrite Nat2Z.id, Hb.
  replace (mk_us beg (if inb AT l then URI_USER else URI_HOST) cstr0 cstr0 _) with
    (if inb AT l then mk_us beg URI_USER cstr0 cstr0 (set_user (start_at beg (user u)) u)
     else mk_us beg URI_HOST cstr0 cstr0 (set_host (start_at beg (host u)) u)) by by destruct (inb AT l).
  set (x := if inb AT l then _ else _) in *.
  assert (Hx : us_c x = beg) by (unfold x; by destruct (inb AT l)).
  destruct (run_loop_total us_c us_set_c sip_uri_char (S (length l)) m (beg + Z.of_nat (length l)) x) as (y & o' & Hr); try done.
  - intros z y Hz Hy. apply sip_uri_char_cursor in Hy. lia.
  - lia.
  - lia.
  - pose proof (loop_to_run us_c us_set_c _ _ _ _ _ _ _ Hl Hr) as E. injection E as -> ->. rewrite Hr. by destruct o.
Qed.

(** A URI as RFC 3261 writes it, with or without user, password, port, parameters and
    headers, its host a name, an address or an IPv6 reference, is read back: each part has
    the text it was written with, the port is its number (5060 without one) and the
    transport parameter is found whatever its case. *)
Lemma uri_read m t (sips : bool) a :
  good_uri t = true -> holds m a (scheme_wr sips ++ uri_wr t) ->
  exists u, parse_uri m sip_uri0 a (Z.of_nat (length (scheme_wr sips ++ uri_wr t))) = Some (u, 0) /\
    scheme u = (if sips then SIPS else SIP) /\ view_uri m u = view_text t /\
    port u = default 5060 (ut_port t) /\ trsp u = last (List.filter (is_trsp m) (params u)).
Proof.
  intros Hg Hh. apply holds_app in Hh as [Hsch Hh]. set (sch := if sips then SIPS else SIP).
  set (b := a + Z.of_nat (length (scheme_wr sips))) in *.
  destruct (us_uri_run m t b sch Hg Hh) as (p & Hl & Hend & Hs & Ht & Hlen & Hv).
  exists (find_trsp m (set_port (default 5060 (ut_port t)) (settle p))).
  rewrite (parse_uri_scheme m sip_uri0 sips a _ Hsch), find_trsp_spec by done. fold sch b. split; [|by rewrite <- Hs, <- Hv].
  rewrite (parse_sip_uri_run m _ b (uri_wr t) p None), Hend; [|by unfold holds in Hh|].
  - unfold sip_uri_port. assert (Hport : (if negb (len (port_str (settle p)) =? 0) then port_loop (chars m (port_str (settle p))) 0
        else Some 5060) = Some (default 5060 (ut_port t))).
    { assert (HvP : chars m (port_str (settle p)) = uv_port (view_text t)) by by rewrite <- Hv.
      unfold view_text in HvP; cbn [uv_port] in HvP. unfold good_uri in Hg. rewrite !andb_true_iff in Hg.
      destruct Hg as [[[[_ _] Hpo] _] _]. destruct (ut_port t) as [n|]; cbn [option_map default good_port] in *.
      - change (chars m (port_str (settle p)) = int2str n) in HvP. apply andb_true_iff in Hpo as [?%Z.leb_le ?%Z.leb_le].
        destruct (int2str_digits n) as (Hne & Hd & Hval); [unfold UINT_MAX; lia|].
        destruct (Z.eqb_spec (len (port_str (settle p))) 0) as [E|_].
        + exfalso. apply Hne. rewrite <- HvP. unfold chars. by rewrite E.
        + cbn [negb]. rewrite HvP, port_loop_digits by (done || lia). by rewrite Hval.
      - destruct (Z.eqb_spec (len (port_str (settle p))) 0) as [E|E]; [done|]. exfalso.
        unfold chars in HvP. apply (f_equal length) in HvP. rewrite length_bytes in HvP. cbn [length] in HvP. lia. }
    rewrite Hport. by rewrite find_trsp_spec.
  - unfold uri_start in Hl. rewrite (at_search t Hg). by destruct (ut_user t).
Qed.

(** ** Every text is answered *)

Lemma port_loop_bounds l p q : 0 <= p <= 65535 -> port_loop l p = Some q -> 0 <= q <= 65535.
Proof.
  revert p; induction l as [|d l IH]; intros p Hp; cbn [port_loop]; [by intros [= <-]|].
  destruct (Z.ltb_spec d 48), (Z.gtb_spec d 57); cbn [orb]; try done.
  destruct (Z.gtb_spec (p * 10 + (d - 48)) 65535); [done|]. apply IH. lia.
Qed.

Lemma find_trsp_port m u : port (find_trsp m u) = port u.
Proof.
  unfold find_trsp. generalize (params u) as l. intros l. revert u. induction l as [|a l IH]; intros u; [done|].
  cbn [fold_left]. rewrite IH. by destruct (is_trsp m a).
Qed.

Lemma sip_uri_char_port m p :
  match sip_uri_char m p with
  | Go p' => port (us_uri p') = port (us_uri p)
  | Ret p' r => port (us_uri p') = port (us_uri p) /\ r = MALFORMED_URI
  end.
Proof. unfold sip_uri_char. cbv zeta. repeat (case_match; try done); by simplify_eq. Qed.

Lemma parse_sip_uri_total m u a len :
  port u = 0 -> 0 <= len ->
  exists u' r, parse_sip_uri m u a len = Some (u', r) /\ (r = 0 \/ r = MALFORMED_URI) /\ 0 <= port u' <= 65535.
Proof.
  intros Hu Hl. unfold parse_sip_uri. set (x := mk_us a _ _ _ _).
  assert (Hx : port (us_uri x) = 0) by (cbn; by destruct (_ =? _)).
  destruct (run_loop_total us_c us_set_c sip_uri_char (S (Z.to_nat len)) m (a + len) x) as (p & o & Hr); try done.
  { intros z y Hz Hy. apply sip_uri_char_cursor in Hy. lia. }
  { cbn. lia. }
  { cbn. lia. }
  rewrite Hr. apply (run_loop_inv _ _ _ (fun p => port (us_uri p) = 0) (fun p r => port (us_uri p) = 0 /\ r = MALFORMED_URI)) in Hr; [| | |done].
  2: { intros p0 p1 H0 H1. pose proof (sip_uri_char_port m p0) as H2. rewrite H1 in H2. cbn. congruence. }
  2: { intros p0 p1 r H0 H1. pose proof (sip_uri_char_port m p0) as H2. rewrite H1 in H2. split; [by rewrite (proj1 H2)|by destruct H2]. }
  destruct o as [r|]; [destruct Hr as [H0 ->]; eexists _, _; split; [done|]; split; [by right|]; rewrite H0; lia|].
  assert (He : port (fst (sip_uri_end p)) = 0 /\ (forall r, snd (sip_uri_end p) = Some r -> r = MALFORMED_URI)).
  { unfold sip_uri_end. cbv zeta. repeat (case_match; try done); split; try done; by intros ? [= <-]. }
  destruct (sip_uri_end p) as [u1 [r|]]; cbn [fst snd] in He; destruct He as [H1 H2].
  - eexists _, _. split; [done|]. split; [right; by apply H2|]. rewrite H1. lia.
  - unfold sip_uri_port. destruct (if negb _ then _ else _) as [q|] eqn:E.
    + eexists _, _. split; [done|]. split; [by left|]. rewrite find_trsp_port. cbn.
      destruct (negb _); [eapply port_loop_bounds; [|exact E]; lia|]. injection E as <-. lia.
    + eexists _, _. split; [done|]. split; [by right|]. rewrite H1. lia.
Qed.

(** Whatever the text, [parse_uri] ends, with success or with [MALFORMED_URI], and the port
    it stores is a port. *)
Lemma uri_ends m a len :
  exists u r, parse_uri m sip_uri0 a len = Some (u, r) /\ (r = 0 \/ r = MALFORMED_URI) /\ 0 <= port u <= 65535.
Proof.
  unfold parse_uri. remember (Z.to_nat len) as n eqn:E. clear E.
  cut (forall st, 0 <= st <= 4 -> forall a, exists u r, parse_uri_loop m sip_uri0 st a n = Some (u, r) /\
         (r = 0 \/ r = MALFORMED_URI) /\ 0 <= port u <= 65535).
  { intros H. by apply (H 0). }
  induction n as [|n IH]; intros st Hst b.
  { exists sip_uri0, 0. repeat split; [by left|cbn; lia..]. }
  assert (Hbad : exists u r, Some (sip_uri0, MALFORMED_URI) = Some (u, r) /\ (r = 0 \/ r = MALFORMED_URI) /\ 0 <= port u <= 65535).
  { eexists _, _. split; [done|]. split; [by right|cbn; lia]. }
  assert (st = 0 \/ st = 1 \/ st = 2 \/ st = 3 \/ st = 4) as [->|[->|[->|[->| ->]]]] by lia; cbn [parse_uri_loop Z.eqb Pos.eqb URI_BEG SIP_S SIP_I SIP_P SIPS_S].
  1-3: destruct (inb _ _); [by apply IH | done].
  - destruct (m b =? HCOLON); [apply parse_sip_uri_total; [done|lia]|]. destruct (inb _ _); [by apply IH | done].
  - destruct (m b =? HCOLON); [apply parse_sip_uri_total; [done|lia]|]. done.
Qed.

(** A text that ends inside the scheme is accepted, with no scheme and no host; so is an
    empty host in front of parameters. *)
Lemma uri_scheme_only :
  parse_uri (mem_at 0 (lit "sip")) sip_uri0 0 3 = Some (sip_uri0, 0) /\
  exists u, parse_uri (mem_at 0 (lit "sip:;lr")) sip_uri0 0 7 = Some (u, 0) /\ len (host u) = 0.
Proof. split; [by vm_compute|]. eexists. by vm_compute. Qed.

(** [parse_uri] on every text: it ends, with success or [MALFORMED_URI] and a port in
    range; and a URI as RFC 3261 writes it, with or without user, password, port, parameters
    and headers, its host a name, an address or an IPv6 reference, is read back: each part has
    the text it was written with, the port is its number (5060 without one) and the transport
    parameter is found whatever its case. *)
Theorem uri_correct m :
  (forall a len, exists u r, parse_uri m sip_uri0 a len = Some (u, r) /\ (r = 0 \/ r = MALFORMED_URI) /\ 0 <= port u <= 65535) /\
  (forall t (sips : bool) a, good_uri t = true -> holds m a (scheme_wr sips ++ uri_wr t) ->
     exists u, parse_uri m sip_uri0 a (Z.of_nat (length (scheme_wr sips ++ uri_wr t))) = Some (u, 0) /\
       scheme u = (if sips then SIPS else SIP) /\ view_uri m u = view_text t /\
       port u = default 5060 (ut_port t) /\ trsp u = last (List.filter (is_trsp m) (params u))).
Proof. split; [apply uri_ends|apply uri_read]. Qed.

Lemma uri_correct_witness :
  let t := mk_ut (Some (lit "al", Some (lit "p:w"))) (IPv6 (lit "::1")) (Some 65535)
             [(lit "Transport", Some (lit "tcp")); (lit "lr", None)] [(lit "a", lit "b"); (lit "c", [])] in
  exists u, parse_uri (mem_at 4 (lit "sips:al:p:w@[::1]:65535;Transport=tcp;lr?a=b&c=")) sip_uri0 4 47 = Some (u, 0) /\
    scheme u = SIPS /\ view_uri (mem_at 4 (lit "sips:al:p:w@[::1]:65535;Transport=tcp;lr?a=b&c=")) u = view_text t /\
    port u = 65535 /\ trsp u = last (List.filter (is_trsp (mem_at 4 (lit "sips:al:p:w@[::1]:65535;Transport=tcp;lr?a=b&c="))) (params u)).
Proof.
  intros t. apply (proj2 (uri_correct (mem_at 4 (lit "sips:al:p:w@[::1]:65535;Transport=tcp;lr?a=b&c="))) t true 4); by vm_compute.
Defined.
