(* ===== verification/ParseVia.v ===== *)
(** * Via

    Model of core/sip/parse_via.cpp: [parse_transport], [parse_by], [parse_via_params] and
    [parse_via].  The properties: the parser ends on every text; a Via value with one or
    several entries as they are written is read back, entry by entry; which parameter
    names are taken for branch, received and rport. *)

From Stdlib Require Import ZArith Lia Ascii String.
From stdpp Require Import base list.
From S2P Require Import Prelude ParseCommon AmUtils ParseParams ParseUri.

Local Open Scope Z_scope.
Local Open Scope bool_scope.

Definition UNPARSED : Z := 0.
Definition UDP : Z := 1.
Definition TCP : Z := 2.
Definition TLS : Z := 3.
Definition SCTP : Z := 4.
Definition OTHER : Z := 5.

Record sip_transport := mk_transport { tr_type : Z; tr_val : cstr }.

Record sip_via_parm := mk_vparm {
  eop : Z;
  vp_params : list sip_avp;
  trans : sip_transport;
  vp_host : cstr;
  vp_port : cstr;
  port_i : Z;
  branch : cstr;
  recved : cstr;
  has_rport : bool;
  rport : cstr;
  rport_i : Z
}.

Definition sip_via_parm0 : sip_via_parm :=
  mk_vparm 0 [] (mk_transport UNPARSED cstr0) cstr0 cstr0 0 cstr0 cstr0 false cstr0 0.

Definition set_eop x v := mk_vparm x (vp_params v) (trans v) (vp_host v) (vp_port v) (port_i v) (branch v) (recved v) (has_rport v) (rport v) (rport_i v).
Definition set_vparams x v := mk_vparm (eop v) x (trans v) (vp_host v) (vp_port v) (port_i v) (branch v) (recved v) (has_rport v) (rport v) (rport_i v).
Definition set_trans x v := mk_vparm (eop v) (vp_params v) x (vp_host v) (vp_port v) (port_i v) (branch v) (recved v) (has_rport v) (rport v) (rport_i v).
Definition set_vhost x v := mk_vparm (eop v) (vp_params v) (trans v) x (vp_port v) (port_i v) (branch v) (recved v) (has_rport v) (rport v) (rport_i v).
Definition set_vport x v := mk_vparm (eop v) (vp_params v) (trans v) (vp_host v) x (port_i v) (branch v) (recved v) (has_rport v) (rport v) (rport_i v).
Definition set_port_i x v := mk_vparm (eop v) (vp_params v) (trans v) (vp_host v) (vp_port v) x (branch v) (recved v) (has_rport v) (rport v) (rport_i v).
Definition set_branch x v := mk_vparm (eop v) (vp_params v) (trans v) (vp_host v) (vp_port v) (port_i v) x (recved v) (has_rport v) (rport v) (rport_i v).
Definition set_recved x v := mk_vparm (eop v) (vp_params v) (trans v) (vp_host v) (vp_port v) (port_i v) (branch v) x (has_rport v) (rport v) (rport_i v).
Definition set_rport x i v := mk_vparm (eop v) (vp_params v) (trans v) (vp_host v) (vp_port v) (port_i v) (branch v) (recved v) true x i.

(** ** [parse_transport] *)

Definition SIPVER_len : Z := 7.

Definition TR_BEG : Z := 0.
Definition TR_UDP : Z := 1.
Definition TR_T : Z := 2.
Definition TR_TCP : Z := 3.
Definition TR_TLS : Z := 4.
Definition TR_SCTP : Z := 5.
Definition TR_OTHER : Z := 6.

Record tr_state := mk_tr { tr_c : Z; tr_st : Z; tr_t : sip_transport }.

Definition tr_set_c (x : Z) (p : tr_state) : tr_state := mk_tr x (tr_st p) (tr_t p).
Definition tr_go (st : Z) (p : tr_state) : tr_state := mk_tr (tr_c p) st (tr_t p).

(** [t->type = ty; st = st; *c += k] *)
Definition tr_found (ty st k : Z) (p : tr_state) : tr_state := mk_tr (tr_c p + k) st (mk_transport ty (tr_val (tr_t p))).

(** [t->val.len = *c - t->val.s] and, for [Some ty], [t->type = ty]. *)
Definition tr_end (ty : option Z) (p : tr_state) : tr_state :=
  mk_tr (tr_c p) (tr_st p) (mk_transport (default (tr_type (tr_t p)) ty) (upto (tr_c p) (tr_val (tr_t p)))).

(** The body of the loop; a NUL ends the loop as the end of the text does.  [len] is the
    length left behind "SIP/2.0/". *)
Definition transport_char (len : Z) (m : mem) (p : tr_state) : outcome tr_state :=
  let c := tr_c p in
  let ch := m c in
  let st := tr_st p in
  if ch =? 0 then Ret (tr_end (Some OTHER) p) 0
  else if st =? TR_BEG then
    if inb ch (lit "uU") then
      if (len >=? 3) && inb (m (c + 1)) (lit "dD") && inb (m (c + 2)) (lit "pP")
      then Go (tr_found UDP TR_UDP 2 p) else Go (tr_go TR_OTHER p)
    else if inb ch (lit "tT") then Go (tr_go TR_T p)
    else if inb ch (lit "sS") then
      if (len >=? 4) && inb (m (c + 1)) (lit "cC") && inb (m (c + 2)) (lit "tT") && inb (m (c + 3)) (lit "pP")
      then Go (tr_found SCTP TR_SCTP 3 p) else Go (tr_go TR_OTHER p)
    else Go (tr_go TR_OTHER p)
  else if st =? TR_T then
    if inb ch (lit "lL") then
      if (len >=? 3) && inb (m (c + 1)) (lit "sS") then Go (tr_found TLS TR_TLS 1 p) else Go (tr_go TR_OTHER p)
    else if inb ch (lit "cC") then
      if (len >=? 3) && inb (m (c + 1)) (lit "pP") then Go (tr_found TCP TR_TCP 1 p) else Go (tr_go TR_OTHER p)
    else Go (tr_go TR_OTHER p)
  else if inb st [TR_UDP; TR_TCP; TR_TLS; TR_SCTP] then
    if inb ch [0; CR; LF; SP] then Ret (tr_end None p) 0 else Go (tr_go TR_OTHER p)
  else if st =? TR_OTHER then
    if inb ch [0; CR; LF; SP] then Ret (tr_end (Some OTHER) p) 0 else Go p
  else Go p.

(** The transport, the cursor and the return code. *)
Definition parse_transport (m : mem) (t : sip_transport) (c len : Z) : option (sip_transport * Z * Z) :=
  if len <? SIPVER_len + 2 then Some (t, c, MALFORMED_SIP_MSG)
  else if negb (parse_sip_version (bytes m c 7) =? 0) then Some (t, c, MALFORMED_SIP_MSG)
  else
    let c := c + SIPVER_len in
    if negb (m c =? SLASH) then Some (t, c + 1, MALFORMED_SIP_MSG)
    else
      let c := c + 1 in
      let t := mk_transport (tr_type t) (start_at c (tr_val t)) in
      let len := len - (SIPVER_len + 1) in
      match run_loop tr_c tr_set_c (transport_char len) (S (Z.to_nat len)) m (c + len) (mk_tr c TR_BEG t) with
      | None => None
      | Some (p, Some r) => Some (tr_t p, tr_c p, r)
      | Some (p, None) => let p := tr_end (Some OTHER) p in Some (tr_t p, tr_c p, 0)
      end.

(** ** [parse_by] *)

Definition BY_HOST : Z := 0.
Definition BY_HOST_V6 : Z := 1.
Definition BY_COLON : Z := 2.
Definition BY_PORT_SWS : Z := 3.
Definition BY_PORT : Z := 4.

Record by_state := mk_by { by_c : Z; by_beg : Z; by_st : Z; by_saved : Z; by_v : sip_via_parm }.

Definition by_set_c (x : Z) (p : by_state) : by_state := mk_by x (by_beg p) (by_st p) (by_saved p) (by_v p).
Definition by_go (st : Z) (v : sip_via_parm) (p : by_state) : by_state := mk_by (by_c p) (by_beg p) st (by_saved p) v.
Definition by_save_eol (st : Z) (p : by_state) : by_state := mk_by (by_c p) (by_beg p) st (by_st p) (by_v p).

(** What follows the label [end_by]. *)
Definition by_end (p : by_state) : by_state * Z :=
  let st := by_st p in
  let v := by_v p in
  if st =? BY_HOST then (by_go st (set_vhost (mk_cstr (by_beg p) (by_c p - by_beg p)) v) p, 0)
  else if st =? BY_PORT then (by_go st (set_vport (mk_cstr (by_beg p) (by_c p - by_beg p)) v) p, 0)
  else if (st =? ST_LF) || (st =? ST_CRLF) then
    if by_saved p =? BY_PORT then
      (by_go st (set_vport (mk_cstr (by_beg p) (by_c p - eol_len st - by_beg p)) v) p, 0)
    else (p, 0)
  else if st =? BY_COLON then (p, 0)
  else (p, UNDEFINED_ERR).

Definition goto_end_by (p : by_state) : outcome by_state := let '(p, r) := by_end p in Ret p r.

(** The body of the loop. *)
Definition by_char (m : mem) (p : by_state) : outcome by_state :=
  let c := by_c p in
  let ch := m c in
  let st := by_st p in
  let v := by_v p in
  if st =? BY_HOST then
    if ch =? CR then Go (by_save_eol ST_CR p)
    else if ch =? LF then Go (by_save_eol ST_LF p)
    else if ch =? LBRACKET then Go (by_go BY_HOST_V6 v p)
    else if ch =? HCOLON then Go (by_go BY_PORT_SWS (set_vhost (mk_cstr (by_beg p) (c - by_beg p)) v) p)
    else if ch =? SEMICOLON then goto_end_by p
    else if (ch =? SP) || (ch =? HTAB) then Go (by_go BY_COLON (set_vhost (mk_cstr (by_beg p) (c - by_beg p)) v) p)
    else Go p
  else if st =? BY_HOST_V6 then
    if ch =? RBRACKET then Go (by_go BY_COLON (set_vhost (mk_cstr (by_beg p) (c + 1 - by_beg p)) v) p)
    else if inb ch [SP; HTAB; CR; LF] then Ret p MALFORMED_SIP_MSG
    else Go p
  else if st =? BY_COLON then
    if ch =? CR then Go (by_save_eol ST_CR p)
    else if ch =? LF then Go (by_save_eol ST_LF p)
    else if ch =? HCOLON then Go (by_go BY_PORT_SWS v p)
    else if ch =? SEMICOLON then goto_end_by p
    else if (ch =? SP) || (ch =? HTAB) then Go p
    else Ret p MALFORMED_SIP_MSG
  else if st =? BY_PORT_SWS then
    if ch =? CR then Go (by_save_eol ST_CR p)
    else if ch =? LF then Go (by_save_eol ST_LF p)
    else if (ch =? SP) || (ch =? HTAB) then Go p
    else Go (mk_by (c - 1) c BY_PORT (by_saved p) (set_port_i 0 v))
  else if st =? BY_PORT then
    (* the breaks of [case_CR_LF] leave the inner switch only *)
    let p' := if ch =? CR then by_save_eol ST_CR p else if ch =? LF then by_save_eol ST_LF p else p in
    if (ch =? SP) || (ch =? HTAB) || (ch =? SEMICOLON) then goto_end_by p
    else if (ch <? 48) || (ch >? 57) then Ret p' MALFORMED_SIP_MSG
    else
      let p := by_go st (set_port_i (port_i v * 10 + (ch - 48)) v) p in
      if port_i (by_v p) >? 65535 then Ret p MALFORMED_SIP_MSG else Go p
  else if st =? ST_CR then
    if ch =? LF then Go (by_go ST_CRLF v p) else Ret p MALFORMED_SIP_MSG
  else if (st =? ST_LF) || (st =? ST_CRLF) then
    if by_saved p =? BY_HOST then
      Go (mk_by c (by_beg p) BY_COLON BY_COLON (set_vhost (mk_cstr (by_beg p) (c - eol_len st - by_beg p)) v))
    else if by_saved p =? BY_PORT then goto_end_by p
    else Go (by_go (by_saved p) v p)
  else Go p.

(** The entry, the cursor and the return code. *)
Definition parse_by (m : mem) (v : sip_via_parm) (c len : Z) : option (sip_via_parm * Z * Z) :=
  match run_loop by_c by_set_c by_char (S (2 * Z.to_nat len + 1)) m (c + len) (mk_by c c BY_HOST 0 v) with
  | None => None
  | Some (p, Some r) => Some (by_v p, by_c p, r)
  | Some (p, None) => let '(p, r) := by_end p in Some (by_v p, by_c p, r)
  end.

(** ** [parse_via_params] *)

Definition VP_BEG : Z := 0.
Definition VP_BRANCH1 : Z := 1.
Definition VP_BRANCH2 : Z := 2.
Definition VP_BRANCH3 : Z := 3.
Definition VP_BRANCH4 : Z := 4.
Definition VP_BRANCH5 : Z := 5.
Definition VP_BRANCH : Z := 6.
Definition VP_R : Z := 7.
Definition VP_RECVD1 : Z := 8.
Definition VP_RECVD2 : Z := 9.
Definition VP_RECVD3 : Z := 10.
Definition VP_RECVD4 : Z := 11.
Definition VP_RECVD5 : Z := 12.
Definition VP_RECVD6 : Z := 13.
Definition VP_RECVD : Z := 14.
Definition VP_RPORT1 : Z := 15.
Definition VP_RPORT2 : Z := 16.
Definition VP_RPORT3 : Z := 17.
Definition VP_RPORT : Z := 18.
Definition VP_OTHER : Z := 19.

(** One character of a parameter's name.  The complete names have no case of their own, so
    that what follows them is passed over; [VP_OTHER] stays, as the code gives up there. *)
Definition via_name_char (st ch : Z) : Z :=
  let step cs st2 := if inb ch cs then st2 else VP_OTHER in
  if st =? VP_BEG then
    if inb ch (lit "bB") then VP_BRANCH1 else if inb ch (lit "rR") then VP_R else VP_OTHER
  else if st =? VP_R then
    if inb ch (lit "eE") then VP_RECVD1 else if inb ch (lit "pP") then VP_RPORT1 else VP_OTHER
  else if st =? VP_BRANCH1 then step (lit "rR") VP_BRANCH2
  else if st =? VP_BRANCH2 then step (lit "aA") VP_BRANCH3
  else if st =? VP_BRANCH3 then step (lit "nN") VP_BRANCH4
  else if st =? VP_BRANCH4 then step (lit "cC") VP_BRANCH5
  else if st =? VP_BRANCH5 then step (lit "hH") VP_BRANCH
  else if st =? VP_RECVD1 then step (lit "cC") VP_RECVD2
  else if st =? VP_RECVD2 then step (lit "eE") VP_RECVD3
  else if st =? VP_RECVD3 then step (lit "iI") VP_RECVD4
  else if st =? VP_RECVD4 then step (lit "vV") VP_RECVD5
  else if st =? VP_RECVD5 then step (lit "eE") VP_RECVD6
  else if st =? VP_RECVD6 then step (lit "dD") VP_RECVD
  else if st =? VP_RPORT1 then step (lit "oO") VP_RPORT2
  else if st =? VP_RPORT2 then step (lit "rR") VP_RPORT3
  else if st =? VP_RPORT3 then step (lit "tT") VP_RPORT
  else st.

Definition via_name (l : list Z) : Z := fold_left via_name_char l VP_BEG.

(** The [switch] behind the name. *)
Definition via_param (m : mem) (v : sip_via_parm) (a : sip_avp) : sip_via_parm :=
  let st := via_name (chars m (avp_name a)) in
  if st =? VP_BRANCH then set_branch (avp_value a) v
  else if st =? VP_RECVD then set_recved (avp_value a) v
  else if st =? VP_RPORT then
    if negb (len (avp_value a) =? 0) then
      set_rport (avp_value a) (default (rport_i v) (str2i (chars m (avp_value a)))) v
    else set_rport (mk_cstr (s (avp_name a) + len (avp_name a)) (len (avp_value a))) (rport_i v) v
  else v.

Definition parse_via_params (m : mem) (v : sip_via_parm) (c len : Z) : option (sip_via_parm * Z * Z) :=
  match parse_gen_params_sc m c (c + len) COMMA (vp_params v) with
  | None => None
  | Some (c, ps, r) =>
      let v := set_vparams ps v in
      if negb (r =? 0) then Some (v, c, r) else Some (fold_left (via_param m) ps v, c, r)
  end.

(** ** [parse_via] *)

Definition V_TRANS : Z := 0.
Definition V_URI : Z := 1.
Definition V_PARM_SEP : Z := 2.
Definition V_PARM_SEP_SWS : Z := 3.

(** The local variables [c], [st], [saved_st], [parm], and [via->parms]. *)
Record v_state := mk_v { v_c : Z; v_st : Z; v_saved : Z; v_parm : sip_via_parm; v_parms : list sip_via_parm }.

Definition v_go (c st : Z) (p : v_state) : v_state := mk_v c st (v_saved p) (v_parm p) (v_parms p).
Definition v_save_eol (st : Z) (p : v_state) : v_state := mk_v (v_c p) st (v_st p) (v_parm p) (v_parms p).

(** The body of the loop, [e] being the end of the text; [None] when a parser it calls is
    out of fuel. *)
Definition via_char (m : mem) (e : Z) (p : v_state) : option (outcome v_state) :=
  let c := v_c p in
  let ch := m c in
  let st := v_st p in
  if st =? V_TRANS then
    match parse_transport m (trans (v_parm p)) c (e - c) with
    | None => None
    | Some (t, c, r) =>
        let p := mk_v c st (v_saved p) (set_trans t (v_parm p)) (v_parms p) in
        if negb (r =? 0) then Some (Ret p r) else Some (Go (v_go c V_URI p))
    end
  else if st =? V_URI then
    if ch =? CR then Some (Go (v_save_eol ST_CR p))
    else if ch =? LF then Some (Go (v_save_eol ST_LF p))
    else if (ch =? SP) || (ch =? HTAB) then Some (Go p)
    else
      match parse_by m (v_parm p) c (e - c) with
      | None => None
      | Some (v, c, r) =>
          if negb (r =? 0) then Some (Ret (mk_v c st (v_saved p) v (v_parms p)) r)
          else
            match parse_via_params m v c (e - c) with
            | None => None
            | Some (v, c, r) =>
                if negb (r =? 0) then Some (Ret (mk_v c st (v_saved p) v (v_parms p)) r)
                else Some (Go (mk_v (c - 1) V_PARM_SEP (v_saved p) sip_via_parm0 (v_parms p ++ [set_eop c v])))
            end
      end
  else if st =? V_PARM_SEP then
    if ch =? CR then Some (Go (v_save_eol ST_CR p))
    else if ch =? LF then Some (Go (v_save_eol ST_LF p))
    else if (ch =? SP) || (ch =? HTAB) then Some (Go p)
    else if ch =? COMMA then Some (Go (v_go c V_PARM_SEP_SWS p))
    else Some (Ret p MALFORMED_SIP_MSG)
  else if st =? V_PARM_SEP_SWS then
    if ch =? CR then Some (Go (v_save_eol ST_CR p))
    else if ch =? LF then Some (Go (v_save_eol ST_LF p))
    else if (ch =? SP) || (ch =? HTAB) then Some (Go p)
    else Some (Go (v_go (c - 1) V_TRANS p))
  else if st =? ST_CR then
    if ch =? LF then Some (Go (v_go c ST_CRLF p)) else Some (Ret p MALFORMED_SIP_MSG)
  else if (st =? ST_LF) || (st =? ST_CRLF) then Some (Go (v_go c (v_saved p) p))
  else Some (Go p).

(** [for(;c<end;c++)] *)
Fixpoint via_loop (fuel : nat) (m : mem) (e : Z) (p : v_state) : option (list sip_via_parm * Z) :=
  match fuel with
  | O => None
  | S fuel =>
      if v_c p <? e then
        match via_char m e p with
        | None => None
        | Some (Ret p r) => Some (v_parms p, r)
        | Some (Go p) => via_loop fuel m e (v_go (v_c p + 1) (v_st p) p)
        end
      else Some (v_parms p, 0)
  end.

(** The entries that were read, and the return code. *)
Definition parse_via (m : mem) (beg len : Z) : option (list sip_via_parm * Z) :=
  via_loop (S (2 * Z.to_nat len + 1)) m (beg + len) (mk_v beg V_TRANS 0 sip_via_parm0 []).

Example via_example :
  let txt := lit "SIP/2.0/UDP [::1]:5060;branch=z9hG4bK-1;rport, SIP/2.0/TCP a.b;Branch=x;received=1.2.3.4;rport=77" in
  match parse_via (mem_at 0 txt) 0 (Z.of_nat (length txt)) with
  | Some ([v; w], 0) =>
      chars (mem_at 0 txt) (vp_host v) = lit "[::1]" /\ port_i v = 5060 /\ has_rport v = true /\
      chars (mem_at 0 txt) (branch v) = lit "z9hG4bK-1" /\ tr_type (trans w) = TCP /\ rport_i w = 77 /\
      chars (mem_at 0 txt) (recved w) = lit "1.2.3.4"
  | _ => False
  end.
Proof. vm_compute. repeat split. Qed.

(** ** Every text is answered *)

Lemma transport_total m t c len :
  0 <= len -> exists t' c' r, parse_transport m t c len = Some (t', c', r) /\ (r = 0 -> c + 8 <= c' <= c + len).
Proof.
  intros Hlen. unfold parse_transport. destruct (Z.ltb_spec len (SIPVER_len + 2)) as [|Hl]; [by eexists _, _, _|].
  unfold SIPVER_len in *. destruct (negb (parse_sip_version _ =? 0)); [by eexists _, _, _|].
  destruct (negb (m (c + 7) =? SLASH)); [by eexists _, _, _|].
  set (L := len - (7 + 1)). set (b := c + 7 + 1). set (x := mk_tr b TR_BEG _).
  destruct (run_loop_ends tr_c tr_set_c (transport_char L)
    (fun p => b <= tr_c p <= b + L /\ (tr_st p = TR_BEG -> tr_c p = b) /\ (tr_st p = TR_T -> tr_c p = b + 1))
    (fun p => Z.to_nat (b + L - tr_c p)) (S (Z.to_nat L)) m (b + L) x) as (p & o & -> & Ho).
  - intros p q (Hb & H0 & H1) Hne. unfold transport_char.
    destruct (m (tr_c p) =? 0); [done|].
    destruct (Z.eqb_spec (tr_st p) TR_BEG) as [E0|E0].
    { specialize (H0 E0). repeat case_match; intros [= <-]; zbool; cbn; split; [split; [lia|done]|lia|split; [lia|done]|lia|split; [lia|split; [done|lia]]|lia|split; [lia|done]|lia|split; [lia|done]|lia|split; [lia|done]|lia]. }
    destruct (Z.eqb_spec (tr_st p) TR_T) as [E1|E1].
    { specialize (H1 E1). repeat case_match; intros [= <-]; zbool; cbn; (split; [split; [lia|done]|lia]). }
    repeat case_match; intros [= <-]; cbn; (split; [split; [lia|done]|lia]).
  - cbn. repeat split; try done; lia.
  - cbn. lia.
  - destruct o as [r|].
    + destruct Ho as (z & (Hb & _) & _ & Hz). eexists _, _, _. split; [done|]. intros _.
      assert (tr_c p = tr_c z) as ->; [|lia]. unfold transport_char in Hz. repeat case_match; by simplify_eq.
    + destruct Ho as [(Hb & _) He]. eexists _, _, _. split; [done|]. intros _. cbn. lia.
Qed.

Lemma by_end_cursor p : by_c (fst (by_end p)) = by_c p.
Proof. unfold by_end. cbv zeta. repeat (case_match; try done). Qed.

Lemma by_total m v c len :
  0 <= len -> exists v' c' r, parse_by m v c len = Some (v', c', r) /\ c <= c' <= c + len.
Proof.
  intros Hlen. unfold parse_by.
  destruct (run_loop_ends by_c by_set_c by_char (fun p => c <= by_c p <= c + len)
    (fun p => (2 * Z.to_nat (c + len - by_c p) + (if (by_st p =? BY_PORT_SWS)%Z then 1 else 0))%nat)
    (S (2 * Z.to_nat len + 1)) m (c + len) (mk_by c c BY_HOST 0 v)) as (p & o & -> & Ho).
  - intros p q Hp Hne Hq.
    assert (by_c q = by_c p \/ (by_c q = by_c p - 1 /\ by_st p = BY_PORT_SWS /\ by_st q = BY_PORT)) as Hc.
    { unfold by_char, goto_end_by in Hq. destruct (Z.eqb_spec (by_st p) BY_PORT_SWS) as [E|E];
        repeat case_match; simplify_eq; auto. }
    unfold advance; cbn. destruct Hc as [->|(-> & E & E')].
    + split; [lia|]. destruct (_ =? _), (_ =? _); lia.
    + rewrite E, E'. cbn. split; [lia|]. lia.
  - cbn. lia.
  - cbn. lia.
  - destruct o as [r|].
    + destruct Ho as (z & Hz & Hne & Hr). eexists _, _, _. split; [done|].
      assert (by_c p = by_c z) as ->; [|lia]. unfold by_char, goto_end_by in Hr. pose proof (by_end_cursor z) as Hc.
      destruct (by_end z) as [z' r'] eqn:E. cbn [fst] in Hc. repeat case_match; by simplify_eq.
    + pose proof (by_end_cursor p) as Hc. destruct (by_end p) as [p' r]. cbn [fst] in Hc. eexists _, _, _. split; [done|lia].
Qed.

Lemma via_params_total m v c len :
  0 <= len -> exists v' c' r, parse_via_params m v c len = Some (v', c', r) /\ c <= c' <= c + len.
Proof.
  intros Hlen. unfold parse_via_params, parse_gen_params_sc.
  destruct (gen_params_total m c (c + len) COMMA true (vp_params v)) as (c' & ps & r & -> & Hc); [lia|].
  case_match; by eexists _, _, _.
Qed.

Lemma via_char_step m e p q :
  v_c p < e -> via_char m e p = Some (Go q) ->
  v_c p <= v_c q \/ (v_c q = v_c p - 1 /\ (v_st p = V_URI /\ v_st q = V_PARM_SEP \/ v_st p = V_PARM_SEP_SWS /\ v_st q = V_TRANS)).
Proof.
  intros He. unfold via_char.
  destruct (Z.eqb_spec (v_st p) V_TRANS).
  { destruct (transport_total m (trans (v_parm p)) (v_c p) (e - v_c p)) as (t & c & r & -> & Hc); [lia|].
    destruct (Z.eqb_spec r 0); cbn [negb]; [|done]. intros [= <-]. cbn. lia. }
  destruct (Z.eqb_spec (v_st p) V_URI) as [E|E].
  { repeat (case_match; [intros [= <-]; by left|]).
    destruct (by_total m (v_parm p) (v_c p) (e - v_c p)) as (v & c & r & -> & Hc); [lia|].
    destruct (negb (r =? 0)); [done|].
    destruct (via_params_total m v c (e - c)) as (v' & c' & r' & -> & Hc'); [lia|].
    destruct (negb (r' =? 0)); [done|]. intros [= <-]. cbn. destruct (decide (c' = v_c p)); [right|left]; lia. }
  destruct (Z.eqb_spec (v_st p) V_PARM_SEP); [repeat case_match; intros [= <-]; by left|].
  destruct (Z.eqb_spec (v_st p) V_PARM_SEP_SWS).
  { repeat (case_match; [intros [= <-]; by left|]). intros [= <-]. cbn. auto. }
  repeat case_match; intros [= <-]; by left.
Qed.

Lemma via_char_total m e p : v_c p < e -> exists o, via_char m e p = Some o.
Proof.
  intros He. unfold via_char.
  destruct (v_st p =? V_TRANS).
  { destruct (transport_total m (trans (v_parm p)) (v_c p) (e - v_c p)) as (t & c & r & -> & _); [lia|]. case_match; eauto. }
  destruct (v_st p =? V_URI).
  { destruct (by_total m (v_parm p) (v_c p) (e - v_c p)) as (v & c & r & -> & Hc); [lia|].
    destruct (via_params_total m v c (e - c)) as (v' & c' & r' & -> & _); [lia|]. repeat case_match; eauto. }
  repeat case_match; eauto.
Qed.

(** Whatever the text, [parse_via] ends: what it reads again after stepping back never makes
    it go round. *)
Lemma via_ends m a len : 0 <= len -> exists vs r, parse_via m a len = Some (vs, r).
Proof.
  intros Hlen. unfold parse_via. set (x := mk_v a _ _ _ _).
  set (rank := fun p => if (v_st p =? V_URI) || (v_st p =? V_PARM_SEP_SWS) then 1%nat else 0%nat).
  cut (forall fuel p, (2 * Z.to_nat (a + len - v_c p) + rank p < fuel)%nat -> exists vs r, via_loop fuel m (a + len) p = Some (vs, r)).
  { intros H. apply H. cbn. lia. }
  intros fuel. induction fuel as [|fuel IH]; intros p Hf; [lia|]. cbn [via_loop].
  destruct (Z.ltb_spec (v_c p) (a + len)) as [Hc|]; [|by eauto].
  destruct (via_char_total m (a + len) p Hc) as [[q|q r] E]; rewrite E; [|by eauto].
  apply IH. apply via_char_step in E; [|done]. unfold rank, v_go in *; cbn [v_c v_st].
  destruct E as [E|(E1 & [(E2 & E3)|(E2 & E3)])].
  - destruct (_ || _), (_ || _); lia.
  - rewrite E1. rewrite E2 in Hf. rewrite E3. cbn in *. lia.
  - rewrite E1. rewrite E2 in Hf. rewrite E3. cbn in *. lia.
Qed.

(** ** Which names are which parameters *)

(** [nm] starts with the letters of [ws], in either case. *)
Fixpoint ci_prefix (ws : list (list Z)) (nm : list Z) : bool :=
  match ws, nm with
  | [], _ => true
  | w :: ws, c :: nm => inb c w && ci_prefix ws nm
  | _ :: _, [] => false
  end.

Definition n_branch : list (list Z) := map lit ["bB"; "rR"; "aA"; "nN"; "cC"; "hH"]%string.
Definition n_received : list (list Z) := map lit ["rR"; "eE"; "cC"; "eE"; "iI"; "vV"; "eE"; "dD"]%string.
Definition n_rport : list (list Z) := map lit ["rR"; "pP"; "oO"; "rR"; "tT"]%string.

Lemma name_stays l st : inb st [VP_BRANCH; VP_RECVD; VP_RPORT; VP_OTHER] = true -> fold_left via_name_char l st = st.
Proof.
  unfold inb. cbn [existsb]. rewrite orb_false_r, !orb_true_iff, !Z.eqb_eq.
  intros H. induction l as [|c l IH]; [done|]. cbn [fold_left].
  replace (via_name_char st c) with st; [done|]. by destruct H as [->|[->|[->| ->]]].
Qed.

Lemma inb_disjoint c l r : forallb (fun x => negb (inb x r)) l = true -> inb c l = true -> inb c r = false.
Proof.
  intros Hl Hc. unfold inb in Hc. apply existsb_exists in Hc as (x & Hx & ->%Z.eqb_eq).
  rewrite forallb_forall in Hl. apply Hl in Hx. by destruct (inb x r).
Qed.

(** The complete names; [VP_OTHER] for the rest. *)
Definition known (st : Z) : Z := if inb st [VP_BRANCH; VP_RECVD; VP_RPORT] then st else VP_OTHER.

Lemma known_chain st w st2 ws tgt :
  (forall c, via_name_char st c = if inb c w then st2 else VP_OTHER) -> known st = VP_OTHER ->
  (forall l, known (fold_left via_name_char l st2) = if ci_prefix ws l then tgt else VP_OTHER) ->
  forall l, known (fold_left via_name_char l st) = if ci_prefix (w :: ws) l then tgt else VP_OTHER.
Proof.
  intros Hst Hk IH [|c l]; [done|]. cbn [fold_left ci_prefix]. rewrite Hst.
  destruct (inb c w); [apply IH|]. by rewrite name_stays.
Qed.

Lemma known_done st l : inb st [VP_BRANCH; VP_RECVD; VP_RPORT] = true ->
  known (fold_left via_name_char l st) = if ci_prefix [] l then st else VP_OTHER.
Proof.
  intros H. rewrite name_stays; [cbn [ci_prefix]; unfold known; by rewrite H|].
  unfold inb in *. cbn [existsb] in *. rewrite !orb_false_r in *. rewrite !orb_true_iff in *. tauto.
Qed.

(** What a name stands for. *)
Definition via_kind (nm : list Z) : Z :=
  if ci_prefix n_branch nm then VP_BRANCH
  else if ci_prefix n_received nm then VP_RECVD
  else if ci_prefix n_rport nm then VP_RPORT else VP_OTHER.

Lemma via_name_known nm : known (via_name nm) = via_kind nm.
Proof.
  unfold via_kind.
  assert (H1 : forall l, known (fold_left via_name_char l VP_BRANCH1) = if ci_prefix (tail n_branch) l then VP_BRANCH else VP_OTHER).
  { cbn [n_branch map tail]. do 5 (eapply known_chain; [done|done|]). intros l. by apply known_done. }
  assert (H2 : forall l, known (fold_left via_name_char l VP_RECVD1) = if ci_prefix (tail (tail n_received)) l then VP_RECVD else VP_OTHER).
  { cbn [n_received map tail]. do 6 (eapply known_chain; [done|done|]). intros l. by apply known_done. }
  assert (H3 : forall l, known (fold_left via_name_char l VP_RPORT1) = if ci_prefix (tail (tail n_rport)) l then VP_RPORT else VP_OTHER).
  { cbn [n_rport map tail]. do 3 (eapply known_chain; [done|done|]). intros l. by apply known_done. }
  unfold via_name. destruct nm as [|c nm]; [done|]. cbn [fold_left].
  change (ci_prefix n_branch (c :: nm)) with (inb c (lit "bB") && ci_prefix (tail n_branch) nm).
  change (ci_prefix n_received (c :: nm)) with (inb c (lit "rR") && ci_prefix (tail n_received) nm).
  change (ci_prefix n_rport (c :: nm)) with (inb c (lit "rR") && ci_prefix (tail n_rport) nm).
  change (via_name_char VP_BEG c) with (if inb c (lit "bB") then VP_BRANCH1 else if inb c (lit "rR") then VP_R else VP_OTHER).
  destruct (inb c (lit "bB")) eqn:Eb; cbn [andb].
  { rewrite H1, (inb_disjoint c (lit "bB")) by done. by destruct (ci_prefix _ _). }
  destruct (inb c (lit "rR")); cbn [andb]; [|by rewrite name_stays].
  destruct nm as [|d nm]; [done|]. cbn [fold_left].
  change (ci_prefix (tail n_received) (d :: nm)) with (inb d (lit "eE") && ci_prefix (tail (tail n_received)) nm).
  change (ci_prefix (tail n_rport) (d :: nm)) with (inb d (lit "pP") && ci_prefix (tail (tail n_rport)) nm).
  change (via_name_char VP_R d) with (if inb d (lit "eE") then VP_RECVD1 else if inb d (lit "pP") then VP_RPORT1 else VP_OTHER).
  destruct (inb d (lit "eE")) eqn:Ee; cbn [andb].
  { rewrite H2, (inb_disjoint d (lit "eE")) by done. by destruct (ci_prefix _ _). }
  destruct (inb d (lit "pP")); cbn [andb]; [apply H3|]. by rewrite name_stays.
Qed.

Lemma via_param_kind m v a :
  via_param m v a =
    let k := via_kind (chars m (avp_name a)) in
    if k =? VP_BRANCH then set_branch (avp_value a) v
    else if k =? VP_RECVD then set_recved (avp_value a) v
    else if k =? VP_RPORT then
      set_rport (if len (avp_value a) =? 0 then mk_cstr (s (avp_name a) + len (avp_name a)) 0 else avp_value a)
        (if len (avp_value a) =? 0 then rport_i v else default (rport_i v) (str2i (chars m (avp_value a)))) v
    else v.
Proof.
  unfold via_param. rewrite <- via_name_known. remember (via_name _) as st eqn:E. clear E. unfold known, inb. cbn [existsb].
  rewrite orb_false_r. cbv zeta.
  destruct (Z.eqb_spec st VP_BRANCH) as [->|H1]; [done|]. destruct (Z.eqb_spec st VP_RECVD) as [->|H2]; [done|].
  destruct (Z.eqb_spec st VP_RPORT) as [->|H3]; [|done]. cbn [orb Z.eqb Pos.eqb VP_RPORT VP_BRANCH VP_RECVD].
  destruct (Z.eqb_spec (len (avp_value a)) 0) as [E|E]; cbn [negb]; [by rewrite E|done].
Qed.

(** Which parameters of a Via are taken for its branch, received address and rport: all
    those whose name starts with "branch", "received" or "rport", in either case, whatever
    follows in the name. *)
Theorem via_param_names m v a :
  let nm := chars m (avp_name a) in
  (ci_prefix n_branch nm = true -> via_param m v a = set_branch (avp_value a) v) /\
  (ci_prefix n_received nm = true -> via_param m v a = set_recved (avp_value a) v) /\
  (ci_prefix n_rport nm = true -> has_rport (via_param m v a) = true /\ branch (via_param m v a) = branch v) /\
  (ci_prefix n_branch nm = false -> ci_prefix n_received nm = false -> ci_prefix n_rport nm = false -> via_param m v a = v).
Proof.
  intros nm. rewrite via_param_kind. fold nm. unfold via_kind.
  assert (Hd : (ci_prefix n_received nm = true -> ci_prefix n_branch nm = false) /\
    (ci_prefix n_rport nm = true -> ci_prefix n_branch nm = false /\ ci_prefix n_received nm = false)).
  { clearbody nm. destruct nm as [|c [|d nm]]; [done| |].
    { split; intros H; exfalso; revert H; cbn [n_received n_rport map ci_prefix]; by rewrite andb_false_r. }
    cbn [n_branch n_received n_rport map ci_prefix]. rewrite !andb_true_iff. split.
    - intros [Hc _]. by rewrite (inb_disjoint c (lit "rR") (lit "bB")).
    - intros (Hc & Hd & _). rewrite (inb_disjoint c (lit "rR") (lit "bB")), (inb_disjoint d (lit "pP") (lit "eE")), andb_false_r by done. done. }
  destruct Hd as [Hd1 Hd2]. repeat split.
  - by intros ->.
  - intros H. by rewrite (Hd1 H), H.
  - by rewrite (proj1 (Hd2 H)), (proj2 (Hd2 H)), H.
  - by rewrite (proj1 (Hd2 H)), (proj2 (Hd2 H)), H.
  - by intros -> -> ->.
Qed.

Lemma via_param_names_witness :
  branch (via_param (mem_at 1 (lit "Branch-id")) (set_branch (mk_cstr 50 9) sip_via_parm0) (mk_avp (mk_cstr 1 9) (mk_cstr 20 3))) = mk_cstr 20 3.
Proof.
  destruct (via_param_names (mem_at 1 (lit "Branch-id")) (set_branch (mk_cstr 50 9) sip_via_parm0) (mk_avp (mk_cstr 1 9) (mk_cstr 20 3))) as [H _].
  rewrite H; [done|by vm_compute].
Defined.

(** ** Via entries as they are written *)

Inductive via_trsp := T_UDP | T_TCP | T_TLS | T_SCTP.

Definition trsp_wr (t : via_trsp) : list Z :=
  match t with T_UDP => lit "UDP" | T_TCP => lit "TCP" | T_TLS => lit "TLS" | T_SCTP => lit "SCTP" end.

Definition trsp_type (t : via_trsp) : Z :=
  match t with T_UDP => UDP | T_TCP => TCP | T_TLS => TLS | T_SCTP => SCTP end.

Record via_text := mk_vt {
  vt_trsp : via_trsp; vt_host : host_text; vt_port : option Z; vt_params : list (list Z * pvalue)
}.

Definition via_text_wr (t : via_text) : list Z :=
  lit "SIP/2.0/" ++ trsp_wr (vt_trsp t) ++ [SP] ++ host_wr (vt_host t) ++ port_wr (vt_port t) ++ params_wr (vt_params t).

Fixpoint via_list_wr (l : list via_text) : list Z :=
  match l with
  | [] => []
  | [t] => via_text_wr t
  | t :: l => via_text_wr t ++ [COMMA; SP] ++ via_list_wr l
  end.

Definition good_by_host (h : host_text) : bool :=
  match h with
  | Plain l => nonempty l && forallb (fun c => negb (inb c [CR; LF; LBRACKET; HCOLON; SEMICOLON; SP; HTAB])) l
  | IPv6 l => forallb (fun c => negb (inb c [RBRACKET; SP; HTAB; CR; LF])) l
  end.

Definition good_via (t : via_text) : bool :=
  good_by_host (vt_host t) && good_port (vt_port t) && negb (Nat.eqb (length (vt_params t)) 0)
  && forallb (good_param COMMA) (vt_params t).

(** The last parameter of a kind. *)
Definition last_of (k : Z) (ps : list (list Z * list Z)) : list Z :=
  fold_left (fun b x => if via_kind x.1 =? k then x.2 else b) ps [].

(** An entry reads as [t]. *)
Record via_reads (m : mem) (t : via_text) (v : sip_via_parm) : Prop := {
  vr_type : tr_type (trans v) = trsp_type (vt_trsp t);
  vr_trsp : chars m (tr_val (trans v)) = trsp_wr (vt_trsp t);
  vr_host : chars m (vp_host v) = host_wr (vt_host t);
  vr_port : chars m (vp_port v) = default [] (option_map int2str (vt_port t));
  vr_port_i : port_i v = default 0 (vt_port t);
  vr_params : map (avp_text m) (vp_params v) = map param_text (vt_params t);
  vr_branch : chars m (branch v) = last_of VP_BRANCH (map param_text (vt_params t));
  vr_recved : chars m (recved v) = last_of VP_RECVD (map param_text (vt_params t));
  vr_rport : chars m (rport v) = last_of VP_RPORT (map param_text (vt_params t));
  vr_has_rport : has_rport v = existsb (fun x => via_kind x.1 =? VP_RPORT) (map param_text (vt_params t))
}.

(** ** [parse_transport] on a transport it knows *)

Lemma parse_transport_run m t0 c len p r :
  SIPVER_len + 2 <= len -> parse_sip_version (bytes m c 7) = 0 -> m (c + 7) = SLASH ->
  loop_to tr_c tr_set_c (transport_char (len - 8)) m (c + len) (mk_tr (c + 8) TR_BEG (mk_transport (tr_type t0) (start_at (c + 8) (tr_val t0)))) (p, Some r) ->
  parse_transport m t0 c len = Some (tr_t p, tr_c p, r).
Proof.
  intros Hl Hv Hs Hr. destruct (transport_total m t0 c len) as (t' & c' & r' & E & _); [unfold SIPVER_len in Hl; lia|].
  rewrite E. unfold parse_transport in E. unfold SIPVER_len in *. rewrite Hv, Hs in E.
  destruct (Z.ltb_spec len (7 + 2)); [lia|]. cbn [Z.eqb negb SLASH Pos.eqb] in E.
  replace (c + 7 + 1) with (c + 8) in E by lia. replace (c + 8 + (len - (7 + 1))) with (c + len) in E by lia.
  change (7 + 1) with 8 in E.
  destruct (run_loop _ _ _ _ _ _ _) as [[q o]|] eqn:Eq; [|done].
  pose proof (loop_to_run tr_c tr_set_c _ _ _ _ _ _ _ Hr Eq) as Ex. injection Ex as -> ->. congruence.
Qed.

Lemma holds_at m a l i : holds m a l -> (i < length l)%nat -> m (a + Z.of_nat i) = nth i l 0.
Proof.
  revert a i; induction l as [|x l IH]; intros a i Hh Hi; [cbn in Hi; lia|]. apply holds_cons in Hh as [Hx Hh].
  destruct i as [|i]; [by rewrite Z.add_0_r|]. cbn [length nth] in *. rewrite <- (IH (a + 1)) by (done || lia). f_equal. lia.
Qed.

(** The end of a known transport: the space behind it. *)
Lemma transport_sp L m e b k st ty n :
  inb st [TR_UDP; TR_TCP; TR_TLS; TR_SCTP] = true -> m (b + k) = SP -> b + k <> e ->
  loop_to tr_c tr_set_c (transport_char L) m e (mk_tr (b + k) st (mk_transport ty (mk_cstr b n)))
    (mk_tr (b + k) st (mk_transport ty (mk_cstr b k)), Some 0).
Proof.
  intros Hst Hm He. apply loop_ret; [done|]. unfold transport_char; cbn [tr_c tr_st tr_t]. rewrite Hm, Hst.
  assert (st <> TR_BEG /\ st <> TR_T) as [H1 H2] by (split; intros ->; by vm_compute in Hst).
  apply Z.eqb_neq in H1 as ->. apply Z.eqb_neq in H2 as ->. cbn [Z.eqb SP].
  change (inb 32 [0; CR; LF; 32]) with true. unfold tr_end, upto; cbn -[Z.add Z.sub]. do 4 f_equal. lia.
Qed.

Definition trsp_state (t : via_trsp) : Z :=
  match t with T_UDP => TR_UDP | T_TCP => TR_TCP | T_TLS => TR_TLS | T_SCTP => TR_SCTP end.

Lemma transport_loop L m b t n :
  holds m b (trsp_wr t ++ [SP]) -> Z.of_nat (length (trsp_wr t)) < L ->
  loop_to tr_c tr_set_c (transport_char L) m (b + L) (mk_tr b TR_BEG (mk_transport UNPARSED (mk_cstr b n)))
    (mk_tr (b + Z.of_nat (length (trsp_wr t))) (trsp_state t) (mk_transport (trsp_type t) (mk_cstr b (Z.of_nat (length (trsp_wr t))))), Some 0).
Proof.
  intros Hh HL.
  assert (Hc : forall i, (i < length (trsp_wr t ++ [SP]))%nat -> m (b + Z.of_nat i) = nth i (trsp_wr t ++ [SP]) 0) by (intros; by apply holds_at).
  pose proof (Hc 0%nat) as H0. rewrite Z.add_0_r in H0.
  pose proof (Hc 1%nat : _ -> m (b + 1) = _) as H1.
  pose proof (Hc 2%nat : _ -> m (b + 2) = _) as H2.
  pose proof (Hc 3%nat : _ -> m (b + 3) = _) as H3.
  pose proof (Hc 4%nat : _ -> m (b + 4) = _) as H4.
  clear Hc Hh.
  destruct t; cbn [length trsp_wr lit map list_ascii_of_string app nth] in *;
    change (Z.of_nat 3) with 3 in *; change (Z.of_nat 4) with 4 in *;
    specialize (H0 ltac:(lia)); specialize (H1 ltac:(lia)); specialize (H2 ltac:(lia)); specialize (H3 ltac:(lia)).
  - apply (loop_step _ _ _ _ _ _ (mk_tr (b + 2) TR_UDP (mk_transport UDP (mk_cstr b n)))); cbn [tr_c]; [lia| |].
    { unfold transport_char; cbn [tr_c tr_st]. rewrite H0, H1, H2. by destruct (Z.geb_spec L 3); [|lia]. }
    unfold advance, tr_set_c; cbn [tr_c tr_st tr_t]. rewrite <- Z.add_assoc. apply (transport_sp L m (b + L) b 3); [done|done|lia].
  - apply (loop_step _ _ _ _ _ _ (mk_tr b TR_T (mk_transport UNPARSED (mk_cstr b n)))); cbn [tr_c]; [lia| |].
    { unfold transport_char; cbn [tr_c tr_st]. by rewrite H0. }
    apply (loop_step _ _ _ _ _ _ (mk_tr (b + 2) TR_TCP (mk_transport TCP (mk_cstr b n)))); unfold advance, tr_set_c; cbn [tr_c tr_st tr_t]; [lia| |].
    { unfold transport_char; cbn [tr_c tr_st]. rewrite H1, <- Z.add_assoc. change (1 + 1) with 2. rewrite H2.
      destruct (Z.geb_spec L 3); [|lia]. unfold tr_found; cbn -[Z.add]. by rewrite <- Z.add_assoc. }
    rewrite <- Z.add_assoc. apply (transport_sp L m (b + L) b 3); [done|done|lia].
  - apply (loop_step _ _ _ _ _ _ (mk_tr b TR_T (mk_transport UNPARSED (mk_cstr b n)))); cbn [tr_c]; [lia| |].
    { unfold transport_char; cbn [tr_c tr_st]. by rewrite H0. }
    apply (loop_step _ _ _ _ _ _ (mk_tr (b + 2) TR_TLS (mk_transport TLS (mk_cstr b n)))); unfold advance, tr_set_c; cbn [tr_c tr_st tr_t]; [lia| |].
    { unfold transport_char; cbn [tr_c tr_st]. rewrite H1, <- Z.add_assoc. change (1 + 1) with 2. rewrite H2.
      destruct (Z.geb_spec L 3); [|lia]. unfold tr_found; cbn -[Z.add]. by rewrite <- Z.add_assoc. }
    rewrite <- Z.add_assoc. apply (transport_sp L m (b + L) b 3); [done|done|lia].
  - specialize (H4 ltac:(lia)).
    apply (loop_step _ _ _ _ _ _ (mk_tr (b + 3) TR_SCTP (mk_transport SCTP (mk_cstr b n)))); cbn [tr_c]; [lia| |].
    { unfold transport_char; cbn [tr_c tr_st]. rewrite H0, H1, H2, H3. by destruct (Z.geb_spec L 4); [|lia]. }
    unfold advance, tr_set_c; cbn [tr_c tr_st tr_t]. rewrite <- Z.add_assoc. apply (transport_sp L m (b + L) b 4); [done|done|lia].
Qed.

Lemma transport_read m t v c len :
  holds m c (lit "SIP/2.0/" ++ trsp_wr t ++ [SP]) -> Z.of_nat (length (lit "SIP/2.0/" ++ trsp_wr t ++ [SP])) <= len ->
  parse_transport m (mk_transport UNPARSED v) c len =
    Some (mk_transport (trsp_type t) (mk_cstr (c + 8) (Z.of_nat (length (trsp_wr t)))), c + 8 + Z.of_nat (length (trsp_wr t)), 0).
Proof.
  intros Hh Hl. apply holds_app in Hh as [Hh1 Hh2]. rewrite !length_app in Hl. change (length (lit "SIP/2.0/")) with 8%nat in *.
  change (Z.of_nat 8) with 8 in Hh2. cbn [length] in Hl.
  assert (bytes m c 7 = lit "SIP/2.0" /\ m (c + 7) = SLASH) as [Hv Hs].
  { change (lit "SIP/2.0/") with (lit "SIP/2.0" ++ lit "/") in Hh1. apply holds_app in Hh1 as [H1 H2].
    split; [done|]. by apply holds_cons in H2 as [H2 _]. }
  assert (Hk : (3 <= length (trsp_wr t))%nat) by (destruct t; cbn; lia).
  rewrite (parse_transport_run m _ c len (mk_tr (c + 8 + Z.of_nat (length (trsp_wr t))) (trsp_state t)
     (mk_transport (trsp_type t) (mk_cstr (c + 8) (Z.of_nat (length (trsp_wr t)))))) 0); [done|unfold SIPVER_len; lia|by rewrite Hv|done|].
  replace (c + len) with (c + 8 + (len - 8)) by lia. apply transport_loop; [done|lia].
Qed.

(** ** [parse_by] on a host and a port *)

Abbreviation by_to := (loop_to by_c by_set_c by_char).

Lemma parse_by_run m v c len p r :
  0 <= len -> by_to m (c + len) (mk_by c c BY_HOST 0 v) (p, Some r) -> parse_by m v c len = Some (by_v p, by_c p, r).
Proof.
  intros Hl Hr. destruct (by_total m v c len Hl) as (v' & c' & r' & E & _). rewrite E. unfold parse_by in E.
  destruct (run_loop _ _ _ _ _ _ _) as [[q o]|] eqn:Eq; [|done].
  pose proof (loop_to_run by_c by_set_c _ _ _ _ _ _ _ Hr Eq) as Ex. injection Ex as -> ->. congruence.
Qed.

Lemma inb_cons_false c x l : inb c (x :: l) = false -> (c =? x) = false /\ inb c l = false.
Proof. unfold inb; cbn [existsb]. apply orb_false_iff. Qed.

Lemma by_host m e h c v :
  good_by_host h = true -> holds m c (host_wr h) -> c + Z.of_nat (length (host_wr h)) <= e ->
  exists st v1, (st = BY_HOST /\ v1 = v \/ st = BY_COLON /\ v1 = set_vhost (mk_cstr c (Z.of_nat (length (host_wr h)))) v) /\
    forall y, by_to m e (mk_by (c + Z.of_nat (length (host_wr h))) c st 0 v1) y -> by_to m e (mk_by c c BY_HOST 0 v) y.
Proof.
  intros Hg Hh He. destruct h as [l|l]; cbn [good_by_host host_wr] in *.
  - exists BY_HOST, v. split; [by left|]. intros y Hy. apply andb_true_iff in Hg as [_ Hg].
    apply (loop_run by_c by_set_c _ (fun p => by_st p = BY_HOST) m e _ l); try done; [by intros []|].
    intros x z Hx%list_elem_of_In Hz Hm. rewrite forallb_forall in Hg. apply Hg, negb_true_iff in Hx.
    repeat (apply inb_cons_false in Hx as [? Hx]). unfold by_char. rewrite Hz, Hm.
    repeat match goal with H : (_ =? _) = false |- _ => rewrite H; clear H end. done.
  - apply holds_cons in Hh as [Hb Hh]. apply holds_app in Hh as [Hh Hr]. apply holds_cons in Hr as [Hr _].
    cbn [length] in *. rewrite length_app in *. cbn [length] in *. set (k := Z.of_nat (S (length l + 1))) in *. assert (Hk : k = Z.of_nat (length l) + 2) by (unfold k; lia). clearbody k.
    exists BY_COLON, (set_vhost (mk_cstr c k) v). split; [by right|]. intros y Hy.
    apply (loop_step _ _ _ _ _ _ (mk_by c c BY_HOST_V6 0 v)); cbn [by_c]; [lia| |].
    { unfold by_char; cbn [by_c by_st]. by rewrite Hb. }
    unfold advance, by_set_c; cbn [by_c by_beg by_st by_saved by_v].
    apply (loop_run by_c by_set_c _ (fun p => by_st p = BY_HOST_V6) m e _ l); try done; [by intros []|cbn [by_c]; lia| |].
    { intros x z Hx%list_elem_of_In Hz Hm. rewrite forallb_forall in Hg. apply Hg, negb_true_iff in Hx.
      apply inb_cons_false in Hx as [E Hx]. unfold by_char. rewrite Hz, Hm, E, Hx. done. }
    unfold by_set_c; cbn [by_c by_beg by_st by_saved by_v].
    apply (loop_step _ _ _ _ _ _ (mk_by (c + 1 + Z.of_nat (length l)) c BY_COLON 0 (set_vhost (mk_cstr c k) v))); cbn [by_c]; [lia| |].
    { unfold by_char, by_set_c; cbn [by_c by_st by_beg by_v]. rewrite Hr. cbn -[Z.add Z.sub]. unfold by_go; cbn -[Z.add Z.sub].
      do 4 f_equal. lia. }
    unfold advance, by_set_c; cbn [by_c by_beg by_st by_saved by_v].
    by replace (c + 1 + Z.of_nat (length l) + 1) with (c + k) by lia.
Qed.

Lemma by_digits m e ds c beg v y :
  forallb IS_DIGIT ds = true -> 0 <= port_i v -> dec_val (port_i v) ds <= 65535 ->
  holds m c ds -> c + Z.of_nat (length ds) <= e ->
  by_to m e (mk_by (c + Z.of_nat (length ds)) beg BY_PORT 0 (set_port_i (dec_val (port_i v) ds) v)) y ->
  by_to m e (mk_by c beg BY_PORT 0 v) y.
Proof.
  revert c v; induction ds as [|d ds IH]; intros c v Hd Hp Hv Hh He Hy.
  { cbn in Hy. rewrite Z.add_0_r in Hy. by destruct v. }
  cbn [forallb length] in *. apply andb_true_iff in Hd as [Hd%is_digit_range Hds]. apply holds_cons in Hh as [Hc Hh].
  change (dec_val (port_i v) (d :: ds)) with (dec_val (port_i v * 10 + (d - 48)) ds) in Hv, Hy.
  pose proof (dec_val_ge (port_i v * 10 + (d - 48)) ds Hds ltac:(lia)).
  apply (loop_step _ _ _ _ _ _ (mk_by c beg BY_PORT 0 (set_port_i (port_i v * 10 + (d - 48)) v))); cbn [by_c]; [lia| |].
  { unfold by_char; cbn [by_c by_st by_v]. rewrite Hc.
    assert ((d =? SP) = false /\ (d =? HTAB) = false /\ (d =? SEMICOLON) = false) as (E1&E2&E3)
      by (rewrite !Z.eqb_neq; unfold SP, HTAB, SEMICOLON; lia).
    rewrite E1, E2, E3. destruct (Z.ltb_spec d 48), (Z.gtb_spec d 57); try lia. cbn -[Z.add Z.mul Z.sub Z.gtb].
    destruct (Z.gtb_spec (port_i v * 10 + (d - 48)) 65535); [lia|done]. }
  unfold advance, by_set_c; cbn [by_c by_beg by_st by_saved by_v].
  apply IH; [done|cbn; lia|cbn; lia|done|lia|]. cbn [port_i set_port_i].
  by replace (c + 1 + Z.of_nat (length ds)) with (c + Z.of_nat (S (length ds))) by lia.
Qed.

Lemma by_read m v h q c L :
  good_by_host h = true -> good_port q = true -> holds m c (host_wr h ++ port_wr q) ->
  m (c + Z.of_nat (length (host_wr h ++ port_wr q))) = SEMICOLON -> Z.of_nat (length (host_wr h ++ port_wr q)) < L ->
  let v1 := set_vhost (mk_cstr c (Z.of_nat (length (host_wr h)))) v in
  parse_by m v c L = Some (match q with
      | None => v1
      | Some n => set_vport (mk_cstr (c + Z.of_nat (length (host_wr h)) + 1) (Z.of_nat (length (int2str n)))) (set_port_i n v1)
      end, c + Z.of_nat (length (host_wr h ++ port_wr q)), 0).
Proof.
  intros Hg Hq Hh Hs HL v1. apply holds_app in Hh as [Hh1 Hh2]. rewrite length_app, Nat2Z.inj_add in *.
  destruct (by_host m (c + L) h c v Hg Hh1 ltac:(lia)) as (st & v0 & Hst & Hrun). set (k := Z.of_nat (length (host_wr h))) in *.
  destruct q as [n|]; cbn [port_wr length good_port] in *.
  - apply holds_cons in Hh2 as [Hcol Hh2]. apply andb_true_iff in Hq as [?%Z.leb_le ?%Z.leb_le].
    destruct (int2str_digits n) as (Hne & Hd & Hval); [unfold UINT_MAX; lia|].
    set (j := Z.of_nat (length (int2str n))) in *. rewrite Nat2Z.inj_succ in *. fold j in HL, Hs |- *.
    rewrite (parse_by_run m v c L (mk_by (c + (k + Z.succ j)) (c + k + 1) BY_PORT 0 (set_vport (mk_cstr (c + k + 1) j) (set_port_i n v1))) 0); [done|lia|].
    apply Hrun. apply (loop_step _ _ _ _ _ _ (mk_by (c + k) c BY_PORT_SWS 0 v1)); cbn [by_c]; [lia| |].
    { unfold by_char; cbn [by_c by_st by_v]. rewrite Hcol. destruct Hst as [[-> ->]|[-> ->]]; cbn -[Z.add Z.sub]; [|done].
      unfold by_go; cbn -[Z.add Z.sub]. unfold v1. do 4 f_equal. lia. }
    unfold advance, by_set_c; cbn [by_c by_beg by_st by_saved by_v].
    apply (loop_step _ _ _ _ _ _ (mk_by (c + k + 1 - 1) (c + k + 1) BY_PORT 0 (set_port_i 0 v1))); cbn [by_c]; [lia| |].
    { unfold by_char; cbn [by_c by_st by_v by_saved]. destruct (int2str n) as [|d ds]; [done|]. apply holds_cons in Hh2 as [Hc2 _].
      cbn [forallb] in Hd. apply andb_true_iff in Hd as [Hd%is_digit_range _].
      assert ((d =? CR) = false /\ (d =? LF) = false /\ (d =? SP) = false /\ (d =? HTAB) = false) as (E1&E2&E3&E4)
        by (rewrite !Z.eqb_neq; unfold CR, LF, SP, HTAB; lia). by rewrite Hc2, E1, E2, E3, E4. }
    unfold advance, by_set_c; cbn [by_c by_beg by_st by_saved by_v]. replace (c + k + 1 - 1 + 1) with (c + k + 1) by lia.
    apply (by_digits m (c + L) (int2str n)); cbn [port_i set_port_i]; [done|lia|lia|done|fold j; lia|].
    rewrite Hval. fold j. replace (c + k + 1 + j) with (c + (k + Z.succ j)) by lia.
    apply loop_ret; cbn [by_c]; [lia|]. unfold by_char; cbn [by_c by_st by_v]. rewrite Hs. cbn -[Z.add Z.sub].
    unfold goto_end_by, by_end, by_go; cbn -[Z.add Z.sub]. do 4 f_equal. lia.
  - rewrite Z.add_0_r in *.
    rewrite (parse_by_run m v c L (mk_by (c + k) c st 0 v1) 0); [done|lia|]. apply Hrun.
    apply loop_ret; cbn [by_c]; [lia|]. unfold by_char; cbn [by_c by_st by_v]. rewrite Hs.
    destruct Hst as [[-> ->]|[-> ->]]; cbn -[Z.add Z.sub]; [|done].
    unfold goto_end_by, by_end, by_go; cbn -[Z.add Z.sub]. unfold v1. do 4 f_equal. lia.
Qed.

(** ** The parameters of an entry *)

Lemma via_param_fold m l v :
  let v' := fold_left (via_param m) l v in
  let upd k := fold_left (fun b x => if via_kind x.1 =? k then x.2 else b) (map (avp_text m) l) in
  (trans v', vp_host v', vp_port v', port_i v', vp_params v') = (trans v, vp_host v, vp_port v, port_i v, vp_params v) /\
  chars m (branch v') = upd VP_BRANCH (chars m (branch v)) /\
  chars m (recved v') = upd VP_RECVD (chars m (recved v)) /\
  chars m (rport v') = upd VP_RPORT (chars m (rport v)) /\
  has_rport v' = has_rport v || existsb (fun x => via_kind x.1 =? VP_RPORT) (map (avp_text m) l).
Proof.
  revert v; induction l as [|a l IH]; intros v; cbn [fold_left map existsb]; [by rewrite orb_false_r|].
  specialize (IH (via_param m v a)). cbn zeta in *. destruct IH as (IH1 & IH2 & IH3 & IH4 & IH5).
  rewrite IH1, IH2, IH3, IH4, IH5. clear IH1 IH2 IH3 IH4 IH5. rewrite via_param_kind. cbv zeta. change (avp_text m a) with (chars m (avp_name a), chars m (avp_value a)). cbn [fst snd].
  set (k := via_kind (chars m (avp_name a))).
  assert (Hr : chars m (if len (avp_value a) =? 0 then mk_cstr (s (avp_name a) + len (avp_name a)) 0 else avp_value a) = chars m (avp_value a)).
  { destruct (Z.eqb_spec (len (avp_value a)) 0) as [E|]; [|done]. unfold chars; cbn [len s]. by rewrite E. }
  destruct (Z.eqb_spec k VP_BRANCH) as [->|H1]; [done|]. destruct (Z.eqb_spec k VP_RECVD) as [->|H2]; [done|].
  destruct (Z.eqb_spec k VP_RPORT) as [->|H3]; [|done]. cbn -[chars map fold_left existsb]. by rewrite Hr, orb_true_r.
Qed.

Lemma via_params_read m v c e ps :
  vp_params v = [] -> branch v = cstr0 -> recved v = cstr0 -> rport v = cstr0 -> has_rport v = false ->
  forallb (good_param COMMA) ps = true -> holds m c (params_wr ps) ->
  params_end m COMMA e (c + Z.of_nat (length (params_wr ps))) ->
  exists v', parse_via_params m v c (e - c) = Some (v', c + Z.of_nat (length (params_wr ps)), 0) /\
    (trans v', vp_host v', vp_port v', port_i v') = (trans v, vp_host v, vp_port v, port_i v) /\
    map (avp_text m) (vp_params v') = map param_text ps /\
    chars m (branch v') = last_of VP_BRANCH (map param_text ps) /\
    chars m (recved v') = last_of VP_RECVD (map param_text ps) /\
    chars m (rport v') = last_of VP_RPORT (map param_text ps) /\
    has_rport v' = existsb (fun x => via_kind x.1 =? VP_RPORT) (map param_text ps).
Proof.
  intros H1 H2 H3 H4 H5 Hg Hh He. destruct (params_read m c e COMMA ps [] Hg Hh He) as (avps & E & Hm).
  exists (fold_left (via_param m) avps (set_vparams avps v)). unfold parse_via_params.
  replace (c + (e - c)) with e by lia. rewrite H1, E. split; [done|].
  destruct (via_param_fold m avps (set_vparams avps v)) as (F1 & F2 & F3 & F4 & F5). injection F1 as F1 F1' F1'' F1''' F1''''.
  unfold last_of. rewrite <- Hm, F1, F1', F1'', F1''', F1'''', F2, F3, F4, F5. cbn [set_vparams trans vp_host vp_port port_i vp_params branch recved rport has_rport].
  by rewrite H2, H3, H4, H5.
Qed.

(** ** One entry, and a list of them *)

Definition via_to (m : mem) (e : Z) (p : v_state) (y : list sip_via_parm * Z) : Prop := exists f, via_loop f m e p = Some y.

Lemma via_loop_mono f k m e p y : via_loop f m e p = Some y -> via_loop (f + k) m e p = Some y.
Proof.
  revert p; induction f as [|f IH]; intros p; cbn [via_loop Nat.add]; [done|]. destruct (v_c p <? e); [|done].
  destruct (via_char m e p) as [[q|q r]|]; auto.
Qed.

Lemma via_to_run m e p y f z : via_to m e p y -> via_loop f m e p = Some z -> z = y.
Proof.
  intros [f' H] Hz. apply (via_loop_mono _ f') in Hz. apply (via_loop_mono _ f) in H. rewrite Nat.add_comm in H. congruence.
Qed.

Lemma via_step m e p q y :
  v_c p < e -> via_char m e p = Some (Go q) -> via_to m e (v_go (v_c q + 1) (v_st q) q) y -> via_to m e p y.
Proof. intros Hc E [f Hf]. exists (S f). cbn [via_loop]. destruct (Z.ltb_spec (v_c p) e); [|lia]. by rewrite E. Qed.

Lemma host_first h : good_by_host h = true -> exists x r, host_wr h = x :: r /\
  (x =? CR) = false /\ (x =? LF) = false /\ (x =? SP) = false /\ (x =? HTAB) = false.
Proof.
  destruct h as [l|l]; cbn [good_by_host host_wr]; [|intros _; by eexists _, _].
  intros [Hn Hg]%andb_true_iff. destruct l as [|x l]; [done|]. exists x, l. cbn [forallb] in Hg.
  apply andb_true_iff in Hg as [Hx%negb_true_iff _]. repeat (apply inb_cons_false in Hx as [? Hx]). done.
Qed.

Lemma via_entry m e t c sv acc :
  good_via t = true -> holds m c (via_text_wr t) -> params_end m COMMA e (c + Z.of_nat (length (via_text_wr t))) ->
  exists v, via_reads m t v /\ forall y,
    via_to m e (mk_v (c + Z.of_nat (length (via_text_wr t))) V_PARM_SEP sv sip_via_parm0 (acc ++ [v])) y ->
    via_to m e (mk_v c V_TRANS sv sip_via_parm0 acc) y.
Proof.
  unfold good_via. rewrite !andb_true_iff, negb_true_iff. intros [[[Hh Hp] Hn] Hps] Hw Hend.
  unfold via_text_wr in *. rewrite (app_assoc (lit "SIP/2.0/")), (app_assoc (_ ++ _) [SP]), <- (app_assoc (lit "SIP/2.0/")), (app_assoc (host_wr _)) in *.
  apply holds_app in Hw as [Hw1 Hw]. apply holds_app in Hw as [Hw2 Hw3].
  set (T := lit "SIP/2.0/" ++ trsp_wr (vt_trsp t) ++ [SP]) in *. set (B := host_wr (vt_host t) ++ port_wr (vt_port t)) in *.
  set (PS := params_wr (vt_params t)) in *. rewrite (length_app T), (length_app B) in *.
  assert (HT : Z.of_nat (length T) = 8 + Z.of_nat (length (trsp_wr (vt_trsp t))) + 1).
  { unfold T. rewrite !length_app. change (length (lit "SIP/2.0/")) with 8%nat. cbn [length]. lia. }
  assert (HPS : exists r, PS = SEMICOLON :: r).
  { unfold PS. destruct (vt_params t) as [|x l]; [done|]. by eexists. }
  destruct HPS as [r HPS]. assert (Hlen : 0 < Z.of_nat (length PS)) by (rewrite HPS; cbn [length]; lia).
  set (c1 := c + Z.of_nat (length T)) in *. set (c2 := c1 + Z.of_nat (length B)) in *.
  assert (Hce : c2 + Z.of_nat (length PS) <= e) by (unfold params_end in Hend; lia).
  set (v0 := set_trans (mk_transport (trsp_type (vt_trsp t)) (mk_cstr (c + 8) (Z.of_nat (length (trsp_wr (vt_trsp t)))))) sip_via_parm0).
  pose proof (by_read m v0 (vt_host t) (vt_port t) c1 (e - c1) Hh Hp Hw2) as Hby.
  fold B in Hby. fold c2 in Hby. specialize (Hby ltac:(rewrite HPS in Hw3; by apply holds_cons in Hw3 as [? _]) ltac:(unfold c2 in Hce; lia)).
  cbv zeta in Hby. set (v1 := match vt_port t with None => _ | Some _ => _ end) in Hby.
  destruct (via_params_read m v1 c2 e (vt_params t)) as (v2 & Epar & F1 & F2 & F3 & F4 & F5 & F6);
    [unfold v1; by destruct (vt_port t)..|done|done| |].
  { fold PS. by replace (c2 + Z.of_nat (length PS)) with (c + Z.of_nat (length T + (length B + length PS))) by (unfold c2, c1; lia). }
  fold PS in Epar. exists (set_eop (c2 + Z.of_nat (length PS)) v2). split.
  - injection F1 as G1 G2 G3 G4. apply holds_app in Hw2 as [Hw2 Hw2']. apply holds_app in Hw1 as [_ Hw1]. apply holds_app in Hw1 as [Hw1 _].
    change (Z.of_nat (length (lit "SIP/2.0/"))) with 8 in Hw1.
    split; cbn [set_eop trans vp_host vp_port port_i vp_params branch recved rport has_rport]; try done.
    + rewrite G1. unfold v1. by destruct (vt_port t).
    + rewrite G1. transitivity (chars m (mk_cstr (c + 8) (Z.of_nat (length (trsp_wr (vt_trsp t)))))); [unfold v1; by destruct (vt_port t)|by apply chars_holds].
    + rewrite G2. transitivity (chars m (mk_cstr c1 (Z.of_nat (length (host_wr (vt_host t)))))); [unfold v1; by destruct (vt_port t)|by apply chars_holds].
    + rewrite G3. unfold v1. destruct (vt_port t) as [n|]; [|done]. apply holds_cons in Hw2' as [_ Hw2']. by apply chars_holds.
    + rewrite G4. unfold v1. by destruct (vt_port t).
  - intros y Hy. eapply via_step; [cbn [v_c]; unfold c2, c1 in Hce; lia| |].
    { unfold via_char; cbn [v_c v_st v_parm]. rewrite Z.eqb_refl. change (trans sip_via_parm0) with (mk_transport UNPARSED cstr0). rewrite (transport_read m (vt_trsp t)); [reflexivity|exact Hw1|].
      fold T. unfold c2, c1 in Hce. lia. }
    unfold v_go; cbn [v_c v_st v_saved v_parm v_parms]. replace (c + 8 + _ + 1) with c1 by (unfold c1; lia).
    destruct (host_first _ Hh) as (x & hr & Ex & E1 & E2 & E3 & E4).
    assert (Hx : m c1 = x) by (unfold B in Hw2; rewrite Ex in Hw2; by apply holds_cons in Hw2 as [? _]).
    eapply via_step; [cbn [v_c]; unfold c2 in Hce; lia| |].
    { unfold via_char; cbn [v_c v_st v_parm]. rewrite Hx, E1, E2, E3, E4. cbn [Z.eqb Pos.eqb V_URI V_TRANS orb].
      fold v0. rewrite Hby. cbn [Z.eqb negb]. rewrite Epar. reflexivity. }
    unfold v_go; cbn [v_c v_st v_saved v_parm v_parms].
    replace (c2 + Z.of_nat (length PS) - 1 + 1) with (c + Z.of_nat (length T + (length B + length PS))) by (unfold c2, c1; lia).
    exact Hy.
Qed.

Lemma via_list_head t l : exists r, via_list_wr (t :: l) = 83 :: r.
Proof. destruct l; cbn [via_list_wr]; by eexists. Qed.

Lemma via_list_read m e ts c sv acc :
  ts <> [] -> forallb good_via ts = true -> holds m c (via_list_wr ts) -> e = c + Z.of_nat (length (via_list_wr ts)) ->
  exists vs, Forall2 (via_reads m) ts vs /\ via_to m e (mk_v c V_TRANS sv sip_via_parm0 acc) (acc ++ vs, 0).
Proof.
  revert c acc; induction ts as [|t [|t2 l] IH]; intros c acc Hne Hg Hh He; [done| |].
  - cbn [forallb] in Hg. rewrite andb_true_r in Hg. cbn [via_list_wr] in *.
    destruct (via_entry m e t c sv acc Hg Hh) as (v & Hv & Hrun); [by left|].
    exists [v]. split; [constructor; [exact Hv|constructor]|]. apply Hrun. exists 1%nat. cbn [via_loop v_c].
    destruct (Z.ltb_spec (c + Z.of_nat (length (via_text_wr t))) e); [lia|done].
  - cbn [forallb] in Hg. apply andb_true_iff in Hg as [Ht Hg].
    change (via_list_wr (t :: t2 :: l)) with (via_text_wr t ++ [COMMA; SP] ++ via_list_wr (t2 :: l)) in *.
    apply holds_app in Hh as [Hh1 Hh]. apply holds_cons in Hh as [Hco Hh]. apply holds_cons in Hh as [Hsp Hh].
    rewrite !length_app in He. cbn [length] in He. set (c1 := c + Z.of_nat (length (via_text_wr t))) in *.
    destruct (via_entry m e t c sv acc Ht Hh1) as (v & Hv & Hrun); [right; fold c1; repeat split; [unfold c1; lia|done]|].
    destruct (IH (c1 + 1 + 1) (acc ++ [v])) as (vs & Hvs & Hto); [done|done|done|unfold c1; lia|].
    exists (v :: vs). split; [by constructor|]. rewrite <- app_assoc in Hto. apply Hrun. fold c1.
    eapply via_step; [cbn [v_c]; unfold c1; lia|unfold via_char; cbn [v_c v_st]; rewrite Hco; reflexivity|].
    unfold v_go; cbn [v_c v_st v_saved v_parm v_parms].
    eapply via_step; [cbn [v_c]; unfold c1; lia|unfold via_char; cbn [v_c v_st]; rewrite Hsp; reflexivity|].
    unfold v_go; cbn [v_c v_st v_saved v_parm v_parms].
    destruct (via_list_head t2 l) as [r Er]. rewrite Er in Hh, He. apply holds_cons in Hh as [Hs _]. cbn [length] in He.
    eapply via_step; [cbn [v_c]; unfold c1; lia|unfold via_char; cbn [v_c v_st]; rewrite Hs; reflexivity|].
    unfold v_go; cbn [v_c v_st v_saved v_parm v_parms]. by replace (c1 + 1 + 1 - 1 + 1) with (c1 + 1 + 1) by lia.
Qed.

(** A Via value of one or more entries as they are written, each with its transport,
    host (name, address or IPv6 reference), port and parameters, is read back entry by
    entry: transport, host, port number and every parameter; the branch, the received
    address and the rport are those of the entry's own parameters. *)
Lemma via_read m a ts :
  ts <> [] -> forallb good_via ts = true -> holds m a (via_list_wr ts) ->
  exists vs, parse_via m a (Z.of_nat (length (via_list_wr ts))) = Some (vs, 0) /\ Forall2 (via_reads m) ts vs.
Proof.
  intros Hne Hg Hh. destruct (via_list_read m (a + Z.of_nat (length (via_list_wr ts))) ts a 0 [] Hne Hg Hh) as (vs & Hvs & Hto); [done|].
  exists vs. split; [|done]. destruct (via_ends m a (Z.of_nat (length (via_list_wr ts)))) as (vs' & r & E); [lia|].
  rewrite E. f_equal. apply (via_to_run _ _ _ _ _ _ Hto E).
Qed.

(** [parse_via] on every text: it ends; and a Via value of one or more entries as they are
    written, each with its transport, host (name, address or IPv6 reference), port and
    parameters, is read back entry by entry: transport, host, port number and every
    parameter; the branch, the received address and the rport are those of the entry's own
    parameters. *)
Theorem via_correct m a :
  (forall len, 0 <= len -> exists vs r, parse_via m a len = Some (vs, r)) /\
  (forall ts, ts <> [] -> forallb good_via ts = true -> holds m a (via_list_wr ts) ->
     exists vs, parse_via m a (Z.of_nat (length (via_list_wr ts))) = Some (vs, 0) /\ Forall2 (via_reads m) ts vs).
Proof. split; [apply via_ends|apply via_read]. Qed.

Definition demo_vias : list via_text :=
  [mk_vt T_UDP (IPv6 (lit "::1")) (Some 5060) [(lit "branch", Token (lit "z9hG4bK-1")); (lit "rport", NoValue)];
   mk_vt T_SCTP (Plain (lit "a.b")) None [(lit "Branch", Token (lit "x")); (lit "received", Token (lit "1.2.3.4"))]].

Lemma via_correct_witness :
  exists vs, parse_via (mem_at 2 (via_list_wr demo_vias)) 2 (Z.of_nat (length (via_list_wr demo_vias))) = Some (vs, 0) /\
    Forall2 (via_reads (mem_at 2 (via_list_wr demo_vias))) demo_vias vs.
Proof. apply (proj2 (via_correct (mem_at 2 (via_list_wr demo_vias)) 2) demo_vias); by vm_compute. Defined.

(** A port followed by a line break (folding, RFC 3261 7.3.1) is refused: the [break]s of the
    CR and LF cases leave the inner [switch] only, and the digit check behind it rejects the
    character. *)
Lemma via_port_folded :
  let txt := lit "SIP/2.0/UDP a.b:5060" ++ [CR; LF; SP] ++ lit ";branch=z9hG4bK1" in
  let ok := lit "SIP/2.0/UDP a.b" ++ [CR; LF; SP] ++ lit ";branch=z9hG4bK1" in
  parse_via (mem_at 0 txt) 0 (Z.of_nat (length txt)) = Some ([], MALFORMED_SIP_MSG) /\
  exists v, parse_via (mem_at 0 ok) 0 (Z.of_nat (length ok)) = Some ([v], 0).
Proof. split; [by vm_compute|]. eexists. by vm_compute. Qed.

(** Two entries of which the first has no parameters (no branch, RFC 2543) are refused: the
    comma behind a host or a port does not end [parse_by]. *)
Lemma via_comma_after_host :
  parse_via (mem_at 0 (lit "SIP/2.0/UDP a, SIP/2.0/UDP b")) 0 28 = Some ([], MALFORMED_SIP_MSG).
Proof. by vm_compute. Qed.
