(* ===== verification/ParseNameAddr.v ===== *)
(** * Name-addr, From and To

    Model of core/sip/parse_nameaddr.cpp and parse_from_to.cpp: [parse_nameaddr] (display
    name, address, parameters), [skip_2_next_nameaddr] and the lists of name-addrs of
    Route, Record-Route and Contact, and [parse_from_to], which picks the tag.  The
    properties: the parsers end; a name-addr as it is written is read back, its tag
    included; a list is split where its commas are. *)

From Stdlib Require Import ZArith Lia Ascii String.
From stdpp Require Import base list.
From S2P Require Import Prelude ParseCommon AmUtils ParseParams ParseUri ParseVia.

Local Open Scope Z_scope.
Local Open Scope bool_scope.

Record sip_nameaddr := mk_na { na_name : cstr; na_addr : cstr; na_uri : sip_uri; na_params : list sip_avp }.

Definition sip_nameaddr0 : sip_nameaddr := mk_na cstr0 cstr0 sip_uri0 [].

Definition na_set_name x n := mk_na x (na_addr n) (na_uri n) (na_params n).
Definition na_set_addr x n := mk_na (na_name n) x (na_uri n) (na_params n).
Definition na_set_uri x n := mk_na (na_name n) (na_addr n) x (na_params n).
Definition na_set_params x n := mk_na (na_name n) (na_addr n) (na_uri n) x.

Definition NA_SWS : Z := 0.
Definition NA_MAYBE_URI : Z := 1.
Definition NA_MAYBE_URI_END : Z := 2.
Definition NA_DISP : Z := 3.
Definition NA_DISP_QUOTED : Z := 4.
Definition NA_DISP_LAQUOT : Z := 5.
Definition NA_URI : Z := 6.

Definition LAQUOT : Z := 60.
Definition RAQUOT : Z := 62.

(** The local variables [*c], [beg], [uri_end], [st], [saved_st], and [*na]. *)
Record na_state := mk_nas { ns_c : Z; ns_beg : Z; ns_uri_end : Z; ns_st : Z; ns_saved : Z; ns_na : sip_nameaddr }.

Definition ns_set_c x p := mk_nas x (ns_beg p) (ns_uri_end p) (ns_st p) (ns_saved p) (ns_na p).
Definition ns_go st p := mk_nas (ns_c p) (ns_beg p) (ns_uri_end p) st (ns_saved p) (ns_na p).
Definition ns_set_beg x p := mk_nas (ns_c p) x (ns_uri_end p) (ns_st p) (ns_saved p) (ns_na p).
Definition ns_set_uri_end x p := mk_nas (ns_c p) (ns_beg p) x (ns_st p) (ns_saved p) (ns_na p).
Definition ns_save_eol st p := mk_nas (ns_c p) (ns_beg p) (ns_uri_end p) st (ns_st p) (ns_na p).
Definition ns_name x p := mk_nas (ns_c p) (ns_beg p) (ns_uri_end p) (ns_st p) (ns_saved p) (na_set_name (mk_cstr (ns_beg p) (x - ns_beg p)) (ns_na p)).
Definition ns_addr x p := mk_nas (ns_c p) (ns_beg p) (ns_uri_end p) (ns_st p) (ns_saved p) (na_set_addr (mk_cstr (ns_beg p) (x - ns_beg p)) (ns_na p)).

(** [return parse_gen_params_sc(&na->params,c, end-*c, 0)] inside the loop: the loop ends and
    the parameters are read.  The loop's own return codes are negative. *)
Definition READ_PARAMS : Z := 1.

(** The body of the loop, [e] being the end of the text. *)
Definition nameaddr_char (e : Z) (m : mem) (p : na_state) : outcome na_state :=
  let c := ns_c p in
  let ch := m c in
  let st := ns_st p in
  if st =? NA_SWS then
    if ch =? DQUOTE then Go (ns_set_beg c (ns_go NA_DISP_QUOTED p))
    else if ch =? LAQUOT then Go (ns_set_beg (c + 1) (ns_go NA_URI p))
    else if inb ch [CR; LF; SP; HTAB] then Go p
    else Go (ns_set_beg c (ns_go NA_MAYBE_URI p))
  else if st =? NA_MAYBE_URI then
    if ch =? CR then Go (ns_save_eol ST_CR p)
    else if ch =? LF then Go (ns_save_eol ST_LF p)
    else if (ch =? SP) || (ch =? HTAB) then Go (ns_set_uri_end c (ns_go NA_MAYBE_URI_END p))
    else if ch =? LAQUOT then Go (ns_set_beg (c + 1) (ns_name c (ns_go NA_URI p)))
    else if ch =? SEMICOLON then Ret (ns_addr c p) READ_PARAMS
    else Go p
  else if st =? NA_MAYBE_URI_END then
    if ch =? CR then Go (ns_save_eol ST_CR p)
    else if ch =? LF then Go (ns_save_eol ST_LF p)
    else if ch =? SEMICOLON then Ret (ns_addr (ns_uri_end p) p) READ_PARAMS
    else if ch =? LAQUOT then Go (ns_set_beg (c + 1) (ns_name (ns_uri_end p) (ns_go NA_URI p)))
    else if (ch =? SP) || (ch =? HTAB) then Go p
    else Go (ns_go NA_DISP p)
  else if st =? NA_DISP then
    if ch =? DQUOTE then Go (ns_set_beg c (ns_go NA_DISP_QUOTED p))
    else if ch =? LAQUOT then Go (ns_set_beg (c + 1) (ns_name c (ns_go NA_URI p)))
    else Go p
  else if st =? NA_DISP_QUOTED then
    if ch =? DQUOTE then Go (ns_name (c + 1) (ns_go NA_DISP_LAQUOT p))
    else if ch =? BACKSLASH then
      let p := ns_set_c (c + 1) p in if ns_c p =? e then Ret p MALFORMED_SIP_MSG else Go p
    else Go p
  else if st =? NA_DISP_LAQUOT then
    if ch =? CR then Go (ns_save_eol ST_CR p)
    else if ch =? LF then Go (ns_save_eol ST_LF p)
    else if ch =? LAQUOT then Go (ns_set_beg (c + 1) (ns_go NA_URI p))
    else if (ch =? SP) || (ch =? HTAB) then Go p
    else Ret p MALFORMED_SIP_MSG
  else if st =? NA_URI then
    if ch =? RAQUOT then Ret (ns_set_c (c + 1) (ns_addr c p)) READ_PARAMS else Go p
  else if st =? ST_CR then
    if ch =? LF then Go (ns_go ST_CRLF p) else Ret p MALFORMED_SIP_MSG
  else if (st =? ST_LF) || (st =? ST_CRLF) then
    if ns_saved p =? NA_MAYBE_URI then
      Go (mk_nas c (ns_beg p) (c - eol_len st) NA_MAYBE_URI_END NA_MAYBE_URI_END (ns_na p))
    else Go (ns_go (ns_saved p) p)
  else Go p.

(** The [switch] after the loop. *)
Definition nameaddr_end (p : na_state) : na_state * Z :=
  if ns_st p =? NA_MAYBE_URI then (ns_addr (ns_c p) (ns_set_uri_end (ns_c p) p), READ_PARAMS)
  else if ns_st p =? NA_MAYBE_URI_END then (ns_addr (ns_uri_end p) p, READ_PARAMS)
  else (p, MALFORMED_SIP_MSG).

(** The parameters, from the cursor on. *)
Definition nameaddr_params (m : mem) (e : Z) (n : sip_nameaddr) (c : Z) : option (sip_nameaddr * Z * Z) :=
  match parse_gen_params_sc m c e 0 (na_params n) with
  | None => None
  | Some (c, ps, r) => Some (na_set_params ps n, c, r)
  end.

(** The name-addr, the cursor and the return code. *)
Definition parse_nameaddr (m : mem) (n : sip_nameaddr) (c len : Z) : option (sip_nameaddr * Z * Z) :=
  let e := c + len in
  match run_loop ns_c ns_set_c (nameaddr_char e) (S (Z.to_nat len)) m e (mk_nas c c 0 NA_SWS 0 n) with
  | None => None
  | Some (p, o) =>
      let '(p, r) := match o with Some r => (p, r) | None => nameaddr_end p end in
      if r =? READ_PARAMS then nameaddr_params m e (ns_na p) (ns_c p) else Some (ns_na p, ns_c p, r)
  end.

Definition parse_nameaddr_uri (m : mem) (n : sip_nameaddr) (c len : Z) : option (sip_nameaddr * Z) :=
  match parse_nameaddr m n c len with
  | None => None
  | Some (n, _, r) =>
      if r <? 0 then Some (n, -1)
      else match parse_uri m (na_uri n) (s (na_addr n)) (ParseCommon.len (na_addr n)) with
           | None => None
           | Some (u, r) => Some (na_set_uri u n, if r <? 0 then -1 else 0)
           end
  end.

(** ** Lists *)

Definition RR_BEGIN : Z := 0.
Definition RR_QUOTED : Z := 1.
Definition RR_SWS : Z := 2.
Definition RR_SEP_SWS : Z := 3.
Definition RR_NXT_NA : Z := 4.

(** The [switch] behind the labels: the cursor, [na_end] ([None] is [NULL]), the result. *)
Definition skip_end (st c : Z) (na_end : option Z) : Z * option Z * Z :=
  if st =? RR_QUOTED then (c, na_end, -1)
  else if (st =? RR_SEP_SWS) || (st =? RR_BEGIN) then (c, Some c, 0)
  else if st =? RR_NXT_NA then (c, na_end, 1)
  else (c, na_end, 0).

(** [n] characters are left at [c]. *)
Fixpoint skip_loop (m : mem) (st c : Z) (na_end : option Z) (n : nat) : Z * option Z * Z :=
  match n with
  | O => skip_end st c na_end
  | S n =>
      let ch := m c in
      let sws := inb ch [SP; HTAB; CR; LF] in
      if st =? RR_BEGIN then
        if sws then skip_loop m RR_SWS (c + 1) (Some c) n
        else if ch =? COMMA then skip_loop m RR_SEP_SWS (c + 1) (Some c) n
        else if ch =? DQUOTE then skip_loop m RR_QUOTED (c + 1) na_end n
        else skip_loop m st (c + 1) na_end n
      else if st =? RR_QUOTED then
        if ch =? BACKSLASH then
          match n with
          | O => skip_end st (c + 1) na_end
          | S n => skip_loop m st (c + 1 + 1) na_end n
          end
        else if ch =? DQUOTE then skip_loop m RR_BEGIN (c + 1) na_end n
        else skip_loop m st (c + 1) na_end n
      else if st =? RR_SWS then
        if sws then skip_loop m st (c + 1) na_end n
        else if ch =? COMMA then skip_loop m RR_SEP_SWS (c + 1) na_end n
        else skip_loop m RR_BEGIN (c + 1) None n
      else if st =? RR_SEP_SWS then
        if sws then skip_loop m st (c + 1) na_end n else skip_end RR_NXT_NA c na_end
      else skip_loop m st (c + 1) na_end n
  end.

Definition skip_2_next_nameaddr (m : mem) (c e : Z) : Z * option Z * Z := skip_loop m RR_BEGIN c None (Z.to_nat (e - c)).

(** [while(c < end)]: the pieces and the return code. *)
Fixpoint nameaddr_list_loop (fuel : nat) (m : mem) (nas : list cstr) (c e : Z) : option (list cstr * Z) :=
  match fuel with
  | O => None
  | S fuel =>
      if c <? e then
        let '(c', na_end, err) := skip_2_next_nameaddr m c e in
        if err <? 0 then Some (nas, -1)
        else
          let nas := match na_end with Some x => nas ++ [mk_cstr c (x - c)] | None => nas end in
          if err =? 0 then Some (nas, 0) else nameaddr_list_loop fuel m nas c' e
      else Some (nas, 0)
  end.

Definition parse_nameaddr_list (m : mem) (c len : Z) : option (list cstr * Z) :=
  nameaddr_list_loop (S (Z.to_nat len)) m [] c (c + len).

Definition parse_first_nameaddr (m : mem) (n : sip_nameaddr) (c len : Z) : option (sip_nameaddr * Z) :=
  let '(_, na_end, err) := skip_2_next_nameaddr m c (c + len) in
  if err <? 0 then Some (n, -1)
  else option_map (fun x => (x.1.1, x.2)) (parse_nameaddr m n c (default 0 na_end - c)).

(** ** [parse_from_to] *)

Definition FTP_BEG : Z := 0.
Definition FTP_TAG1 : Z := 1.
Definition FTP_TAG2 : Z := 2.
Definition FTP_TAG3 : Z := 3.
Definition FTP_OTHER : Z := 4.

(** One character of a parameter's name; the complete name has no case of its own. *)
Definition ft_name_char (st ch : Z) : Z :=
  if st =? FTP_BEG then if inb ch (lit "tT") then FTP_TAG1 else FTP_OTHER
  else if st =? FTP_TAG1 then if inb ch (lit "aA") then FTP_TAG2 else FTP_OTHER
  else if st =? FTP_TAG2 then if inb ch (lit "gG") then FTP_TAG3 else FTP_OTHER
  else st.

Definition ft_name (l : list Z) : Z := fold_left ft_name_char l FTP_BEG.

Record sip_from_to := mk_ft { ft_nameaddr : sip_nameaddr; ft_tag : cstr }.

Definition sip_from_to0 : sip_from_to := mk_ft sip_nameaddr0 cstr0.

(** The loop over the parameters. *)
Definition ft_param (m : mem) (tag : cstr) (a : sip_avp) : cstr :=
  if ft_name (chars m (avp_name a)) =? FTP_TAG3 then avp_value a else tag.

Definition parse_from_to (m : mem) (ft : sip_from_to) (beg len : Z) : option (sip_from_to * Z) :=
  match parse_nameaddr m (ft_nameaddr ft) beg len with
  | None => None
  | Some (n, _, r) =>
      if negb (r =? 0) then Some (mk_ft n (ft_tag ft), r)
      else Some (mk_ft n (fold_left (ft_param m) (na_params n) (ft_tag ft)), r)
  end.

Example from_example :
  let txt := lit "Alice <sip:a@b.c;lr>;x=1;tag=88sja8x" in
  match parse_from_to (mem_at 0 txt) sip_from_to0 0 (Z.of_nat (length txt)) with
  | Some (f, 0) => chars (mem_at 0 txt) (ft_tag f) = lit "88sja8x" /\
      chars (mem_at 0 txt) (na_addr (ft_nameaddr f)) = lit "sip:a@b.c;lr" /\ chars (mem_at 0 txt) (na_name (ft_nameaddr f)) = lit "Alice"
  | _ => False
  end.
Proof. by vm_compute. Qed.

(** ** Every text is answered *)

Lemma nameaddr_char_go e m p q :
  ns_c p < e -> nameaddr_char e m p = Go q -> ns_c p <= ns_c q < e.
Proof.
  intros He. unfold nameaddr_char. intros H.
  assert (ns_c q = ns_c p \/ (ns_c q = ns_c p + 1 /\ ns_c p + 1 <> e)) as [->|[-> ?]]; [|lia..].
  repeat case_match; simplify_eq; try (by left). right. cbn in *. zbool. done.
Qed.

Lemma nameaddr_char_ret e m p q r :
  ns_c p < e -> nameaddr_char e m p = Ret q r -> ns_c p <= ns_c q <= e /\ (r = READ_PARAMS \/ r = MALFORMED_SIP_MSG).
Proof.
  intros He. unfold nameaddr_char. intros H. repeat case_match; simplify_eq; cbn in *; zbool; (split; [lia|auto]).
Qed.

Lemma nameaddr_total m n c len :
  0 <= len -> exists n' c' r, parse_nameaddr m n c len = Some (n', c', r).
Proof.
  intros Hl. unfold parse_nameaddr.
  destruct (run_loop_ends ns_c ns_set_c (nameaddr_char (c + len)) (fun p => c <= ns_c p <= c + len) (fun p => Z.to_nat (c + len - ns_c p))
    (S (Z.to_nat len)) m (c + len) (mk_nas c c 0 NA_SWS 0 n)) as (p & o & -> & Ho).
  - intros x y Hx Hne Hy. apply nameaddr_char_go in Hy; [|lia]. cbn. lia.
  - cbn. lia.
  - cbn. lia.
  - assert (Hpar : forall n x, x <= c + len -> exists n' c' r, nameaddr_params m (c + len) n x = Some (n', c', r)).
    { intros n0 x Hx. unfold nameaddr_params, parse_gen_params_sc.
      destruct (gen_params_total m x (c + len) 0 true (na_params n0)) as (c' & ps & r & -> & _); eauto. }
    destruct o as [r|].
    + destruct Ho as (z & Hz & Hne & Hr). apply nameaddr_char_ret in Hr as [? _]; [|lia].
      case_match; [apply Hpar; lia|by eauto].
    + destruct Ho as [Hb He]. destruct (nameaddr_end p) as [q r] eqn:E.
      assert (ns_c q = ns_c p) as Hc by (unfold nameaddr_end in E; repeat case_match; by simplify_eq).
      case_match; [apply Hpar; lia|by eauto].
Qed.

(** ** Name-addrs as they are written *)

Inductive display := NoName | Word (l : list Z) | QuotedName (l : list Z).

Inductive na_text := Bare (a : list Z) | Angle (d : display) (a : list Z).

Definition display_wr (d : display) : list Z :=
  match d with NoName => [] | Word l => l | QuotedName l => DQUOTE :: l ++ [DQUOTE] end.

Definition na_text_wr (t : na_text) : list Z :=
  match t with
  | Bare a => a
  | Angle NoName a => LAQUOT :: a ++ [RAQUOT]
  | Angle d a => display_wr d ++ [SP; LAQUOT] ++ a ++ [RAQUOT]
  end.

Definition bare_char (c : Z) : bool := negb (inb c [CR; LF; SP; HTAB; LAQUOT; SEMICOLON; DQUOTE]).

Definition good_display (d : display) : bool :=
  match d with NoName => true | Word l => nonempty l && forallb bare_char l | QuotedName l => quoted_ok l end.

Definition good_na (t : na_text) : bool :=
  match t with
  | Bare a => nonempty a && forallb bare_char a
  | Angle d a => good_display d && negb (inb RAQUOT a)
  end.

Definition na_text_name (t : na_text) : list Z := match t with Bare _ => [] | Angle d _ => display_wr d end.
Definition na_text_addr (t : na_text) : list Z := match t with Bare a => a | Angle _ a => a end.

Abbreviation ns_to e := (loop_to ns_c ns_set_c (nameaddr_char e)).

Lemma bare_char_false c : bare_char c = true ->
  (c =? CR) = false /\ (c =? LF) = false /\ (c =? SP) = false /\ (c =? HTAB) = false /\ (c =? LAQUOT) = false /\
  (c =? SEMICOLON) = false /\ (c =? DQUOTE) = false.
Proof. unfold bare_char. rewrite negb_true_iff. intros H. repeat (apply inb_cons_false in H as [? H]). done. Qed.

(** A word: an address or a display name. *)
Lemma ns_word m e x l c ue n y :
  forallb bare_char (x :: l) = true -> holds m c (x :: l) -> c + Z.of_nat (length (x :: l)) <= e ->
  ns_to e m e (mk_nas (c + Z.of_nat (length (x :: l))) c ue NA_MAYBE_URI 0 n) y ->
  ns_to e m e (mk_nas c c ue NA_SWS 0 n) y.
Proof.
  intros Hl Hh He Hy. cbn [forallb length] in *. apply andb_true_iff in Hl as [Hx Hl]. apply holds_cons in Hh as [Hc Hh].
  apply bare_char_false in Hx as (E1&E2&E3&E4&E5&E6&E7).
  apply (loop_step _ _ _ _ _ _ (mk_nas c c ue NA_MAYBE_URI 0 n)); cbn [ns_c]; [lia| |].
  { unfold nameaddr_char, inb; cbn [ns_c ns_st existsb]. by rewrite Hc, E1, E2, E3, E4, E5, E7. }
  unfold advance, ns_set_c; cbn [ns_c ns_beg ns_uri_end ns_st ns_saved ns_na].
  apply (loop_run ns_c ns_set_c _ (fun p => ns_st p = NA_MAYBE_URI) m e _ l); try done; [by intros []|cbn [ns_c]; lia| |].
  - intros a z Ha%list_elem_of_In Hz Hm. rewrite forallb_forall in Hl. apply Hl, bare_char_false in Ha as (F1&F2&F3&F4&F5&F6&F7).
    unfold nameaddr_char. by rewrite Hz, Hm, F1, F2, F3, F4, F5, F6.
  - unfold ns_set_c; cbn [ns_c ns_beg ns_uri_end ns_st ns_saved ns_na].
    by replace (c + 1 + Z.of_nat (length l)) with (c + Z.of_nat (S (length l))) by lia.
Qed.

(** The inside of a quoted display name. *)
Lemma ns_quoted m e l c beg ue n y :
  quoted_ok l = true -> holds m c l -> c + Z.of_nat (length l) < e ->
  ns_to e m e (mk_nas (c + Z.of_nat (length l)) beg ue NA_DISP_QUOTED 0 n) y ->
  ns_to e m e (mk_nas c beg ue NA_DISP_QUOTED 0 n) y.
Proof.
  remember (length l) as k eqn:Hk. revert l c Hk.
  induction k as [k IH] using lt_wf_ind; intros l c -> Hl Hh He Hy.
  destruct l as [|x l]; [cbn in Hy; by rewrite Z.add_0_r in Hy|].
  apply holds_cons in Hh as [Hx Hh]. cbn [quoted_ok length] in *.
  destruct (Z.eqb_spec x BACKSLASH) as [Hb|Hb].
  - destruct l as [|z l]; [done|]. apply holds_cons in Hh as [_ Hh]. cbn [length] in *.
    apply (loop_step _ _ _ _ _ _ (mk_nas (c + 1) beg ue NA_DISP_QUOTED 0 n)); cbn [ns_c]; [lia| |].
    + unfold nameaddr_char; cbn [ns_c ns_st]. rewrite Hx, Hb. cbn -[Z.add]. destruct (Z.eqb_spec (c + 1) e); [lia|done].
    + unfold advance, ns_set_c; cbn [ns_c ns_beg ns_uri_end ns_st ns_saved ns_na].
      apply (IH (length l)) with l; [lia|done|done|done|lia|].
      by replace (c + 1 + 1 + Z.of_nat (length l)) with (c + Z.of_nat (S (S (length l)))) by lia.
  - apply andb_true_iff in Hl as [Hc Hl]. apply negb_true_iff in Hc. repeat (apply inb_cons_false in Hc as [? Hc]).
    apply (loop_step _ _ _ _ _ _ (mk_nas c beg ue NA_DISP_QUOTED 0 n)); cbn [ns_c]; [lia| |].
    + unfold nameaddr_char; cbn [ns_c ns_st]. rewrite Hx. apply Z.eqb_neq in Hb. by rewrite H1, Hb.
    + unfold advance, ns_set_c; cbn [ns_c ns_beg ns_uri_end ns_st ns_saved ns_na].
      apply (IH (length l)) with l; [lia|done|done|done|lia|].
      by replace (c + 1 + Z.of_nat (length l)) with (c + Z.of_nat (S (length l))) by lia.
Qed.

(** The address in angle brackets, from behind the "<". *)
Lemma ns_angle m e a c ue sv n :
  inb RAQUOT a = false -> holds m c (a ++ [RAQUOT]) -> c + Z.of_nat (length a) < e ->
  ns_to e m e (mk_nas c c ue NA_URI sv n)
    (mk_nas (c + Z.of_nat (length a) + 1) c ue NA_URI sv (na_set_addr (mk_cstr c (Z.of_nat (length a))) n), Some READ_PARAMS).
Proof.
  intros Ha Hh He. apply holds_app in Hh as [Hh Hr]. apply holds_cons in Hr as [Hr _].
  apply (loop_run ns_c ns_set_c _ (fun p => ns_st p = NA_URI) m e _ a); try done; [by intros []|cbn [ns_c]; lia| |].
  - intros x z Hx%list_elem_of_In Hz Hm. unfold nameaddr_char. rewrite Hz, Hm.
    assert ((x =? RAQUOT) = false) as ->; [|done]. apply Z.eqb_neq. intros ->.
    assert (inb RAQUOT a = true); [|congruence]. apply existsb_exists. exists RAQUOT. split; [done|by rewrite Z.eqb_refl].
  - unfold ns_set_c; cbn [ns_c ns_beg ns_uri_end ns_st ns_saved ns_na].
    apply loop_ret; cbn [ns_c]; [lia|]. unfold nameaddr_char; cbn [ns_c ns_st]. rewrite Hr. cbn -[Z.add Z.sub].
    unfold ns_set_c, ns_addr; cbn -[Z.add Z.sub]. do 4 f_equal. lia.
Qed.

Lemma parse_nameaddr_run m n c len p o :
  0 <= len -> ns_to (c + len) m (c + len) (mk_nas c c 0 NA_SWS 0 n) (p, o) ->
  parse_nameaddr m n c len =
    let '(p, r) := match o with Some r => (p, r) | None => nameaddr_end p end in
    if r =? READ_PARAMS then nameaddr_params m (c + len) (ns_na p) (ns_c p) else Some (ns_na p, ns_c p, r).
Proof.
  intros Hl Hr. destruct (nameaddr_total m n c len Hl) as (n' & c' & r' & E). unfold parse_nameaddr in *.
  destruct (run_loop _ _ _ _ _ _ _) as [[q o']|] eqn:Eq; [|done].
  pose proof (loop_to_run ns_c ns_set_c _ _ _ _ _ _ _ Hr Eq) as Ex. by injection Ex as -> ->.
Qed.

(** Up to the parameters: what is left is read by [nameaddr_params]. *)
Definition na_upto (m : mem) (t : na_text) (c len : Z) : Prop :=
  good_na t = true -> holds m c (na_text_wr t) -> Z.of_nat (length (na_text_wr t)) <= len ->
  (c + Z.of_nat (length (na_text_wr t)) = c + len \/ m (c + Z.of_nat (length (na_text_wr t))) = SEMICOLON) ->
  exists n, parse_nameaddr m sip_nameaddr0 c len = nameaddr_params m (c + len) n (c + Z.of_nat (length (na_text_wr t))) /\
    chars m (na_name n) = na_text_name t /\ chars m (na_addr n) = na_text_addr t /\ na_params n = [].

(** An address without brackets. *)
Lemma na_bare m a c len : na_upto m (Bare a) c len.
Proof.
  set (e := c + len). intros Hg Hh He Hend. cbn [good_na good_display na_text_wr na_text_name na_text_addr display_wr] in *.
  apply andb_true_iff in Hg as [Hne Hg]. destruct a as [|x a]; [done|].
  set (k := Z.of_nat (length (x :: a))) in *. exists (na_set_addr (mk_cstr c k) sip_nameaddr0).
  split; [|split; [done|]; split; [by apply chars_holds|done]].
  destruct (decide (k = len)) as [Hk|Hk].
  - rewrite (parse_nameaddr_run m _ c len (mk_nas (c + k) c 0 NA_MAYBE_URI 0 sip_nameaddr0) None); [|lia|].
    + cbn -[Z.add Z.sub nameaddr_params]. unfold ns_addr, ns_set_uri_end; cbn -[Z.add Z.sub nameaddr_params]. by replace (c + k - c) with k by lia.
    + apply (ns_word m (c + len) x a); [done|done|fold k; lia|]. fold k. apply loop_end. cbn. lia.
  - destruct Hend as [?|Hs]; [lia|].
    rewrite (parse_nameaddr_run m _ c len (mk_nas (c + k) c 0 NA_MAYBE_URI 0 (na_set_addr (mk_cstr c k) sip_nameaddr0)) (Some READ_PARAMS)); [done|lia|].
    apply (ns_word m (c + len) x a); [done|done|fold k; lia|]. fold k. apply loop_ret; cbn [ns_c]; [lia|].
    unfold nameaddr_char; cbn [ns_c ns_st]. rewrite Hs. cbn -[Z.add Z.sub]. unfold ns_addr; cbn -[Z.add Z.sub]. do 4 f_equal. lia.
Qed.

(** An address in brackets. *)
Lemma na_noname m a c len : na_upto m (Angle NoName a) c len.
Proof.
  set (e := c + len). intros Hg Hh He Hend. cbn [good_na good_display na_text_wr na_text_name na_text_addr display_wr] in *.
  apply negb_true_iff in Hg. apply holds_cons in Hh as [Hc Hh]. cbn [length] in *. rewrite length_app in *. cbn [length] in *.
  exists (na_set_addr (mk_cstr (c + 1) (Z.of_nat (length a))) sip_nameaddr0).
  split; [|split; [done|]; split; [apply holds_app in Hh as [Hh _]; by apply chars_holds|done]].
  rewrite (parse_nameaddr_run m _ c len (mk_nas (c + 1 + Z.of_nat (length a) + 1) (c + 1) 0 NA_URI 0 (na_set_addr (mk_cstr (c + 1) (Z.of_nat (length a))) sip_nameaddr0)) (Some READ_PARAMS)); [|lia|].
  - cbn [Z.eqb Pos.eqb READ_PARAMS ns_na ns_c]. fold e. f_equal. lia.
  - apply (loop_step _ _ _ _ _ _ (mk_nas c (c + 1) 0 NA_URI 0 sip_nameaddr0)); cbn [ns_c]; [lia| |].
    { unfold nameaddr_char; cbn [ns_c ns_st]. by rewrite Hc. }
    apply (ns_angle m (c + len) a (c + 1)); [done|done|lia].
Qed.

(** With a word in front. *)
Lemma na_word m w a c len : na_upto m (Angle (Word w) a) c len.
Proof.
  set (e := c + len). intros Hg Hh He Hend. cbn [good_na good_display na_text_wr na_text_name na_text_addr display_wr] in *.
  apply andb_true_iff in Hg as [Hw Ha%negb_true_iff]. apply andb_true_iff in Hw as [Hne Hw]. destruct w as [|x w]; [done|].
  apply holds_app in Hh as [Hh1 Hh]. apply holds_cons in Hh as [Hsp Hh]. apply holds_cons in Hh as [Hla Hh].
  rewrite !length_app in *. cbn [length] in He, Hend |- *. fold (length (x :: w)) in *. set (k := Z.of_nat (length (x :: w))) in *.
  exists (na_set_addr (mk_cstr (c + k + 1 + 1) (Z.of_nat (length a))) (na_set_name (mk_cstr c k) sip_nameaddr0)).
  split; [|split; [by apply chars_holds|]; split; [apply holds_app in Hh as [Hh _]; by apply chars_holds|done]].
  rewrite (parse_nameaddr_run m _ c len (mk_nas (c + k + 1 + 1 + Z.of_nat (length a) + 1) (c + k + 1 + 1) (c + k) NA_URI 0
     (na_set_addr (mk_cstr (c + k + 1 + 1) (Z.of_nat (length a))) (na_set_name (mk_cstr c k) sip_nameaddr0))) (Some READ_PARAMS)); [|lia|].
  - cbn [Z.eqb Pos.eqb READ_PARAMS ns_na ns_c]. fold e. f_equal. unfold k. cbn [length]. lia.
  - apply (ns_word m (c + len) x w); [done|done|fold k; unfold k; cbn [length]; lia|]. fold k.
    assert (Hk : k = Z.of_nat (S (length w))) by done. clearbody k.
    apply (loop_step _ _ _ _ _ _ (mk_nas (c + k) c (c + k) NA_MAYBE_URI_END 0 sip_nameaddr0)); cbn [ns_c]; [lia| |].
    { unfold nameaddr_char; cbn [ns_c ns_st]. by rewrite Hsp. }
    unfold advance, ns_set_c; cbn [ns_c ns_beg ns_uri_end ns_st ns_saved ns_na].
    apply (loop_step _ _ _ _ _ _ (mk_nas (c + k + 1) (c + k + 1 + 1) (c + k) NA_URI 0 (na_set_name (mk_cstr c k) sip_nameaddr0))); cbn [ns_c]; [lia| |].
    { unfold nameaddr_char; cbn [ns_c ns_st]. rewrite Hla. cbn -[Z.add Z.sub]. unfold ns_set_beg, ns_name; cbn -[Z.add Z.sub].
      by replace (c + k - c) with k by lia. }
    apply (ns_angle m (c + len) a (c + k + 1 + 1)); [done|done|lia].
Qed.

(** With a quoted display name in front. *)
Lemma na_quoted m q a c len : na_upto m (Angle (QuotedName q) a) c len.
Proof.
  set (e := c + len). intros Hg Hh He Hend. cbn [good_na good_display na_text_wr na_text_name na_text_addr display_wr] in *.
  apply andb_true_iff in Hg as [Hq Ha%negb_true_iff]. cbn [app] in *. apply holds_cons in Hh as [Hdq Hh].
  rewrite <- app_assoc in Hh. apply holds_app in Hh as [Hh1 Hh]. apply holds_cons in Hh as [Hd2 Hh].
  apply holds_cons in Hh as [Hsp Hh]. apply holds_cons in Hh as [Hla Hh].
  cbn [length] in He, Hend |- *. rewrite !length_app in *. cbn [length] in He, Hend |- *. rewrite length_app in *. cbn [length] in He, Hend |- *.
  set (k := Z.of_nat (length q)) in *. set (b := c + 1 + k + 1 + 1 + 1) in *.
  set (n := na_set_addr (mk_cstr b (Z.of_nat (length a))) (na_set_name (mk_cstr c (k + 2)) sip_nameaddr0)).
  exists n. split; [|split; [|split; [apply holds_app in Hh as [Hh _]; by apply chars_holds|done]]].
  2: { unfold n; cbn [na_set_addr na_set_name na_name]. replace (k + 2) with (Z.of_nat (length (DQUOTE :: q ++ [DQUOTE])))
         by (cbn [length]; rewrite length_app; cbn [length]; unfold k; lia). apply chars_holds. apply holds_cons. split; [done|].
       apply holds_app. split; [done|]. by apply holds_cons. }
  rewrite (parse_nameaddr_run m _ c len (mk_nas (b + Z.of_nat (length a) + 1) b 0 NA_URI 0 n) (Some READ_PARAMS)); [|lia|].
  - cbn [Z.eqb Pos.eqb READ_PARAMS ns_na ns_c]. fold e. f_equal. unfold b, k. lia.
  - assert (Hk : k = Z.of_nat (length q)) by done. clearbody k.
    apply (loop_step _ _ _ _ _ _ (mk_nas c c 0 NA_DISP_QUOTED 0 sip_nameaddr0)); cbn [ns_c]; [lia| |].
    { unfold nameaddr_char; cbn [ns_c ns_st]. by rewrite Hdq. }
    unfold advance, ns_set_c; cbn [ns_c ns_beg ns_uri_end ns_st ns_saved ns_na].
    apply (ns_quoted m (c + len) q); [done|done|lia|]. rewrite <- Hk.
    apply (loop_step _ _ _ _ _ _ (mk_nas (c + 1 + k) c 0 NA_DISP_LAQUOT 0 (na_set_name (mk_cstr c (k + 2)) sip_nameaddr0))); cbn [ns_c]; [lia| |].
    { unfold nameaddr_char; cbn [ns_c ns_st]. rewrite Hd2. cbn -[Z.add Z.sub]. unfold ns_name; cbn -[Z.add Z.sub]. do 4 f_equal. lia. }
    unfold advance, ns_set_c; cbn [ns_c ns_beg ns_uri_end ns_st ns_saved ns_na].
    apply (loop_step _ _ _ _ _ _ (mk_nas (c + 1 + k + 1) c 0 NA_DISP_LAQUOT 0 (na_set_name (mk_cstr c (k + 2)) sip_nameaddr0))); cbn [ns_c]; [lia| |].
    { unfold nameaddr_char; cbn [ns_c ns_st]. by rewrite Hsp. }
    unfold advance, ns_set_c; cbn [ns_c ns_beg ns_uri_end ns_st ns_saved ns_na].
    apply (loop_step _ _ _ _ _ _ (mk_nas (c + 1 + k + 1 + 1) b 0 NA_URI 0 (na_set_name (mk_cstr c (k + 2)) sip_nameaddr0))); cbn [ns_c]; [lia| |].
    { unfold nameaddr_char; cbn [ns_c ns_st]. by rewrite Hla. }
    apply (ns_angle m (c + len) a b); [done|done|unfold b; lia].
Qed.

Lemma na_upto_params m t c len : na_upto m t c len.
Proof. destruct t as [a|[|w|q] a]; [apply na_bare|apply na_noname|apply na_word|apply na_quoted]. Qed.

(** ** The tag *)

Definition n_tag : list (list Z) := map lit ["tT"; "aA"; "gG"]%string.

Lemma ft_stays l st : st = FTP_TAG3 \/ st = FTP_OTHER -> fold_left ft_name_char l st = st.
Proof. intros H. induction l as [|c l IH]; [done|]. cbn [fold_left]. by destruct H as [-> | ->]. Qed.

Lemma ft_name_tag nm : (ft_name nm =? FTP_TAG3) = ci_prefix n_tag nm.
Proof.
  unfold ft_name. cbn [n_tag map].
  destruct nm as [|c1 nm]; [done|]. cbn [fold_left ci_prefix].
  change (ft_name_char FTP_BEG c1) with (if inb c1 (lit "tT") then FTP_TAG1 else FTP_OTHER).
  destruct (inb c1 (lit "tT")); cbn [andb]; [|by rewrite ft_stays by auto].
  destruct nm as [|c2 nm]; [done|]. cbn [fold_left].
  change (ft_name_char FTP_TAG1 c2) with (if inb c2 (lit "aA") then FTP_TAG2 else FTP_OTHER).
  destruct (inb c2 (lit "aA")); cbn [andb]; [|by rewrite ft_stays by auto].
  destruct nm as [|c3 nm]; [done|]. cbn [fold_left].
  change (ft_name_char FTP_TAG2 c3) with (if inb c3 (lit "gG") then FTP_TAG3 else FTP_OTHER).
  destruct (inb c3 (lit "gG")); cbn [andb]; by rewrite ft_stays by auto.
Qed.

(** The last parameter whose name starts with "tag". *)
Definition tag_of (ps : list (list Z * list Z)) : list Z :=
  fold_left (fun b x => if ci_prefix n_tag x.1 then x.2 else b) ps [].

Lemma ft_param_fold m l tag :
  chars m (fold_left (ft_param m) l tag) = fold_left (fun b x => if ci_prefix n_tag x.1 then x.2 else b) (map (avp_text m) l) (chars m tag).
Proof.
  revert tag; induction l as [|a l IH]; intros tag; [done|]. cbn [fold_left map]. rewrite IH. f_equal.
  unfold ft_param. rewrite ft_name_tag. change (fst (avp_text m a)) with (chars m (avp_name a)). by destruct (ci_prefix _ _).
Qed.

(** A From or To value as it is written, an address alone or in angle brackets behind a
    word, a quoted display name or nothing, and its parameters, is read back: display name,
    address and parameters have the text they were written with, and the tag is the value of
    the (last) parameter whose name starts with "tag". *)
Lemma from_to_read m a t ps :
  good_na t = true -> forallb (good_param 0) ps = true -> holds m a (na_text_wr t ++ params_wr ps) ->
  exists ft, parse_from_to m sip_from_to0 a (Z.of_nat (length (na_text_wr t ++ params_wr ps))) = Some (ft, 0) /\
    chars m (na_name (ft_nameaddr ft)) = na_text_name t /\ chars m (na_addr (ft_nameaddr ft)) = na_text_addr t /\
    map (avp_text m) (na_params (ft_nameaddr ft)) = map param_text ps /\ chars m (ft_tag ft) = tag_of (map param_text ps).
Proof.
  intros Hg Hps Hh. apply holds_app in Hh as [Hh1 Hh2]. set (len := Z.of_nat (length (na_text_wr t ++ params_wr ps))).
  assert (Hlen : len = Z.of_nat (length (na_text_wr t)) + Z.of_nat (length (params_wr ps))) by (unfold len; rewrite length_app; lia).
  destruct (na_upto_params m t a len Hg Hh1) as (n & E & En & Ea & Ep); [lia| |].
  { destruct ps as [|p ps]; [left; cbn [params_wr flat_map length] in Hlen; lia|right]. by apply holds_cons in Hh2 as [Hs _]. }
  destruct (params_read m (a + Z.of_nat (length (na_text_wr t))) (a + len) 0 ps [] Hps Hh2) as (avps & Epar & Htxt); [left; lia|].
  exists (mk_ft (na_set_params avps n) (fold_left (ft_param m) avps cstr0)).
  unfold parse_from_to. cbn [sip_from_to0 ft_nameaddr ft_tag]. rewrite E. unfold nameaddr_params. rewrite Ep, Epar. split; [done|].
  cbn [na_set_params na_name na_addr na_params ft_nameaddr ft_tag]. rewrite ft_param_fold, Htxt. by repeat split.
Qed.

(** ** Lists of name-addrs *)

Inductive item := Item (l : list Z) | Named (q l : list Z).

Definition item_wr (x : item) : list Z :=
  match x with Item l => l | Named q l => DQUOTE :: q ++ [DQUOTE; SP] ++ l end.

Definition item_char (c : Z) : bool := negb (inb c [SP; HTAB; CR; LF; COMMA; DQUOTE]).

Definition good_item (x : item) : bool :=
  match x with
  | Item l => nonempty l && forallb item_char l
  | Named q l => quoted_ok q && nonempty l && forallb item_char l
  end.

Fixpoint items_wr (l : list item) : list Z :=
  match l with
  | [] => []
  | [x] => item_wr x
  | x :: l => item_wr x ++ [COMMA; SP] ++ items_wr l
  end.

Lemma item_char_false c : item_char c = true ->
  inb c [SP; HTAB; CR; LF] = false /\ (c =? COMMA) = false /\ (c =? DQUOTE) = false.
Proof.
  unfold item_char. rewrite negb_true_iff. intros H. repeat (apply inb_cons_false in H as [? H]).
  unfold inb; cbn [existsb]. by repeat match goal with E : (_ =? _) = false |- _ => rewrite E; clear E end.
Qed.

Lemma skip_chars m l c ne n :
  forallb item_char l = true -> holds m c l ->
  skip_loop m RR_BEGIN c ne (length l + n) = skip_loop m RR_BEGIN (c + Z.of_nat (length l)) ne n.
Proof.
  revert c; induction l as [|x l IH]; intros c Hl Hh; [by rewrite Z.add_0_r|]. cbn [forallb length Nat.add skip_loop] in *.
  apply andb_true_iff in Hl as [Hx Hl]. apply holds_cons in Hh as [Hc Hh]. apply item_char_false in Hx as (E1&E2&E3).
  rewrite Hc, E1, E2, E3. cbn [Z.eqb RR_BEGIN]. rewrite IH by done. f_equal. lia.
Qed.

Lemma skip_quoted m q c ne n :
  quoted_ok q = true -> holds m c q ->
  skip_loop m RR_QUOTED c ne (length q + n) = skip_loop m RR_QUOTED (c + Z.of_nat (length q)) ne n.
Proof.
  remember (length q) as k eqn:Hk. revert q c Hk.
  induction k as [k IH] using lt_wf_ind; intros q c -> Hq Hh.
  destruct q as [|x q]; [by rewrite Z.add_0_r|]. apply holds_cons in Hh as [Hx Hh]. cbn [quoted_ok length Nat.add skip_loop] in *.
  rewrite Hx. cbn [Z.eqb RR_QUOTED RR_BEGIN]. destruct (Z.eqb_spec x BACKSLASH) as [Hb|Hb].
  - destruct q as [|z q]; [done|]. apply holds_cons in Hh as [_ Hh]. cbn [length Nat.add] in *.
    rewrite (IH (length q)) with (q := q) by (done || lia). f_equal. lia.
  - apply andb_true_iff in Hq as [Hc Hq]. apply negb_true_iff in Hc. repeat (apply inb_cons_false in Hc as [? Hc]).
    rewrite H1, (IH (length q)) with (q := q) by (done || lia). f_equal. lia.
Qed.

Lemma skip_item m x c n :
  good_item x = true -> holds m c (item_wr x) ->
  skip_loop m RR_BEGIN c None (length (item_wr x) + n) = skip_loop m RR_BEGIN (c + Z.of_nat (length (item_wr x))) None n.
Proof.
  destruct x as [l|q l]; cbn [good_item item_wr].
  - intros [_ Hl]%andb_true_iff Hh. by apply skip_chars.
  - rewrite !andb_true_iff. intros [[Hq Hn] Hl] Hh. apply holds_cons in Hh as [Hd Hh]. apply holds_app in Hh as [Hh1 Hh].
    apply holds_cons in Hh as [Hd2 Hh]. apply holds_cons in Hh as [Hsp Hh]. destruct l as [|y l]; [done|].
    cbn [forallb] in Hl. apply andb_true_iff in Hl as [Hy Hl]. apply holds_cons in Hh as [Hyc Hh].
    cbn [length]. rewrite !length_app. cbn [length app Nat.add skip_loop]. rewrite Hd.
    change (inb DQUOTE [SP; HTAB; CR; LF]) with false. cbn [Z.eqb Pos.eqb RR_BEGIN DQUOTE COMMA].
    rewrite <- Nat.add_assoc, skip_quoted by done. cbn [Nat.add skip_loop]. rewrite Hd2.
    cbn [Z.eqb Pos.eqb RR_QUOTED RR_BEGIN DQUOTE BACKSLASH]. rewrite Hsp. change (inb SP [SP; HTAB; CR; LF]) with true.
    cbn [Z.eqb RR_BEGIN]. rewrite Hyc. apply item_char_false in Hy as (E1&E2&E3).
    cbn [Z.eqb Pos.eqb RR_SWS RR_QUOTED RR_BEGIN]. rewrite E1, E2, skip_chars by done. f_equal. lia.
Qed.

Lemma item_head x : good_item x = true -> exists y r, item_wr x = y :: r /\ inb y [SP; HTAB; CR; LF] = false.
Proof.
  destruct x as [[|y l]|q l]; cbn [good_item item_wr]; [done| |intros _; by eexists _, _].
  intros [_ H]%andb_true_iff. cbn [forallb] in H. apply andb_true_iff in H as [H _]. apply item_char_false in H as (H&_&_). eauto.
Qed.

Lemma items_head x l : good_item x = true -> exists y r, items_wr (x :: l) = y :: r /\ inb y [SP; HTAB; CR; LF] = false.
Proof.
  intros H. destruct (item_head x H) as (y & r & E & Hy). destruct l as [|z l]; cbn [items_wr]; rewrite E; [by eauto|]. cbn [app]. eauto.
Qed.

Lemma nameaddr_list_read m items c e acc fuel :
  items <> [] -> forallb good_item items = true -> holds m c (items_wr items) -> e = c + Z.of_nat (length (items_wr items)) ->
  (length items <= fuel)%nat ->
  exists cs, nameaddr_list_loop fuel m acc c e = Some (acc ++ cs, 0) /\ map (chars m) cs = map item_wr items.
Proof.
  revert c acc fuel; induction items as [|x [|x2 l] IH]; intros c acc fuel Hne Hg Hh He Hf; [done| |];
    (destruct fuel as [|fuel]; [cbn in Hf; lia|]); cbn [forallb nameaddr_list_loop] in *.
  - rewrite andb_true_r in Hg. cbn [items_wr] in *. destruct (item_head x Hg) as (y & r & Ey & _).
    assert (0 < Z.of_nat (length (item_wr x))) by (rewrite Ey; cbn [length]; lia).
    destruct (Z.ltb_spec c e); [|lia]. unfold skip_2_next_nameaddr.
    replace (Z.to_nat (e - c)) with (length (item_wr x) + 0)%nat by lia. rewrite skip_item by done.
    exists [mk_cstr c (Z.of_nat (length (item_wr x)))]. cbn [skip_loop skip_end Z.eqb RR_BEGIN RR_QUOTED RR_SEP_SWS orb Z.ltb Z.compare map].
    split; [do 4 f_equal; f_equal; lia|]. by rewrite chars_holds.
  - apply andb_true_iff in Hg as [Hx Hg]. change (items_wr (x :: x2 :: l)) with (item_wr x ++ [COMMA; SP] ++ items_wr (x2 :: l)) in *.
    apply holds_app in Hh as [Hh1 Hh]. apply holds_cons in Hh as [Hco Hh]. apply holds_cons in Hh as [Hsp Hh].
    rewrite !length_app in He. cbn [length] in He. destruct (Z.ltb_spec c e); [|lia]. unfold skip_2_next_nameaddr.
    destruct (items_head x2 l) as (y & r & Ey & Hy); [by apply andb_true_iff in Hg as [? _]|].
    set (k := Z.of_nat (length (item_wr x))) in *.
    replace (Z.to_nat (e - c)) with (length (item_wr x) + (2 + (1 + length r)))%nat by (rewrite Ey in He; cbn [length] in He; unfold k in *; lia).
    rewrite skip_item by done. fold k. cbn [Nat.add skip_loop]. rewrite Hco. change (inb COMMA [SP; HTAB; CR; LF]) with false.
    cbn [Z.eqb Pos.eqb RR_BEGIN COMMA]. rewrite Hsp. change (inb SP [SP; HTAB; CR; LF]) with true.
    cbn [Z.eqb Pos.eqb RR_BEGIN RR_QUOTED RR_SWS RR_SEP_SWS].
    assert (m (c + k + 1 + 1) = y) as -> by (rewrite Ey in Hh; by apply holds_cons in Hh as [? _]). rewrite Hy.
    cbn [skip_end Z.eqb Pos.eqb RR_NXT_NA RR_QUOTED RR_SEP_SWS RR_BEGIN orb Z.ltb Z.compare].
    destruct (IH (c + k + 1 + 1) (acc ++ [mk_cstr c (c + k - c)]) fuel) as (cs & E & Hcs); [done|done|done|lia|cbn [length] in *; lia|].
    exists (mk_cstr c k :: cs). replace (c + k - c) with k in E |- * by lia. rewrite E, <- app_assoc. split; [done|]. cbn [map]. rewrite Hcs. f_equal.
    by apply chars_holds.
Qed.

(** A list of name-addrs as Route, Record-Route and Contact carry it, the elements
    separated by commas, is split into exactly its elements; a comma, a space or an escaped
    quote inside a quoted display name does not split it. *)
Theorem nameaddr_list_split m a items :
  items <> [] -> forallb good_item items = true -> holds m a (items_wr items) ->
  exists cs, parse_nameaddr_list m a (Z.of_nat (length (items_wr items))) = Some (cs, 0) /\ map (chars m) cs = map item_wr items.
Proof.
  intros Hne Hg Hh. unfold parse_nameaddr_list.
  apply (nameaddr_list_read m items a _ [] _ Hne Hg Hh); [done|]. rewrite Nat2Z.id.
  assert (Hlen : forall l, forallb good_item l = true -> (length l <= length (items_wr l))%nat); [|specialize (Hlen items Hg); lia].
  clear. induction l as [|x [|x2 l] IH]; intros Hg; [done| |].
  - cbn [forallb items_wr length] in *. rewrite andb_true_r in Hg. destruct (item_head x Hg) as (y & r & -> & _). cbn [length]. lia.
  - cbn [forallb] in Hg. apply andb_true_iff in Hg as [_ Hg]. specialize (IH Hg).
    change (items_wr (x :: x2 :: l)) with (item_wr x ++ [COMMA; SP] ++ items_wr (x2 :: l)). rewrite !length_app. cbn [length] in *. lia.
Qed.

Lemma nameaddr_list_split_witness :
  let items := [Named [65; 44; 92; 34; 32; 66] (lit "<sip:a@b;lr>"); Item (lit "<sip:c@d>;x=1")] in
  exists cs, parse_nameaddr_list (mem_at 0 (items_wr items)) 0 (Z.of_nat (length (items_wr items))) = Some (cs, 0) /\
    map (chars (mem_at 0 (items_wr items))) cs = map item_wr items.
Proof. intros items. apply (nameaddr_list_split (mem_at 0 (items_wr items)) 0 items); by vm_compute. Defined.

(** A comma inside the angle brackets, which RFC 3261 allows in the user part of a URI, does
    split the element. *)
Lemma nameaddr_list_comma_in_uri :
  exists cs, parse_nameaddr_list (mem_at 0 (lit "<sip:1,2@b>")) 0 11 = Some (cs, 0) /\
    map (chars (mem_at 0 (lit "<sip:1,2@b>"))) cs = [lit "<sip:1"; lit "2@b>"].
Proof. eexists. by vm_compute. Qed.
