(* ===== verification/SipParser.v ===== *)
(** * The message parser

    Model of core/sip/sip_parser.cpp: [parse_first_line], [parse_headers] on a message,
    [parse_sip_msg], which every received message goes through.  The parsers it calls are
    those of the other files.  The properties: a request and a reply as they are composed
    are read back, part by part; what makes a message be refused, and with which code. *)

From Stdlib Require Import ZArith Lia Ascii String.
From stdpp Require Import base list.
From S2P Require Import Prelude SipMsg ParseCommon AmUtils SipHeader ParseParams ParseCSeq ParseUri ParseVia ParseNameAddr.

Local Open Scope Z_scope.
Local Open Scope bool_scope.

Definition MALFORMED_SIP_VERSION : Z := -8.

(** ** The first line *)

Record p_request := mk_preq { rq_method_str : cstr; rq_method : method; rq_ruri_str : cstr; rq_ruri : sip_uri }.

Record p_reply := mk_prep { rp_code : Z; rp_reason : cstr }.

(** [type] and the union [u]. *)
Inductive p_u := P_UNKNOWN | P_REQUEST (r : p_request) | P_REPLY (r : p_reply).

Definition FL_METH : Z := 0.
Definition FL_RURI : Z := 1.
Definition FL_SIPVER1 : Z := 2.
Definition FL_SIPVER2 : Z := 3.
Definition FL_SIPVER3 : Z := 4.
Definition FL_SIPVER4 : Z := 5.
Definition FL_SIPVER_DIG1 : Z := 6.
Definition FL_SIPVER_SEP : Z := 7.
Definition FL_SIPVER_DIG2 : Z := 8.
Definition FL_SIPVER_SP : Z := 9.
Definition FL_STAT1 : Z := 10.
Definition FL_STAT2 : Z := 11.
Definition FL_STAT3 : Z := 12.
Definition FL_STAT_SP : Z := 13.
Definition FL_REASON : Z := 14.
Definition FL_EOL : Z := 15.
Definition FL_ERR : Z := 16.
Definition FL_BAD_VERSION : Z := 17.

(** The local variables [*c], [beg], [saved_st], [st], [is_request], and [type] with [u]. *)
Record fl_state := mk_fl { fl_c : Z; fl_beg : Z; fl_st : Z; fl_saved : Z; fl_req : bool; fl_u : p_u }.

Definition fl_set_c x p := mk_fl x (fl_beg p) (fl_st p) (fl_saved p) (fl_req p) (fl_u p).
Definition fl_go st p := mk_fl (fl_c p) (fl_beg p) st (fl_saved p) (fl_req p) (fl_u p).
Definition fl_set_beg x p := mk_fl (fl_c p) x (fl_st p) (fl_saved p) (fl_req p) (fl_u p).
Definition fl_set_u x p := mk_fl (fl_c p) (fl_beg p) (fl_st p) (fl_saved p) (fl_req p) x.
Definition fl_save_eol st p := mk_fl (fl_c p) (fl_beg p) st (fl_st p) (fl_req p) (fl_u p).

(** [case_SIPVER] and [FL_SIPVER4]: one of [cs] goes on to [st2]; anything else is a method
    unless the request URI has been read. *)
Definition fl_sipver (m : mem) (cs : list Z) (st2 : Z) (p : fl_state) : outcome fl_state :=
  if inb (m (fl_c p)) cs then Go (fl_go st2 p)
  else if negb (fl_req p) then Go (fl_set_c (fl_c p - 1) (fl_go FL_METH p))
  else Go (fl_go FL_ERR p).

(** A character of the version number. *)
Definition fl_version (p : fl_state) : outcome fl_state :=
  if fl_req p then Go (fl_go FL_BAD_VERSION p) else Go (fl_go FL_ERR p).

(** [case_STCODE] *)
Definition fl_stcode (m : mem) (p : fl_state) : outcome fl_state :=
  let ch := m (fl_c p) in
  if IS_DIGIT ch then
    let u := match fl_u p with
             | P_REPLY r => P_REPLY (mk_prep (rp_code r * 10 + (ch - 48)) (rp_reason r))
             | u => u
             end in
    Go (fl_set_u u (fl_go (fl_st p + 1) p))
  else Go (fl_go FL_ERR p).

(** The body of the loop.  A NUL ends the loop as the end of the text does. *)
Definition fl_char (m : mem) (p : fl_state) : outcome fl_state :=
  let c := fl_c p in
  let ch := m c in
  let st := fl_st p in
  if ch =? 0 then Ret p UNEXPECTED_EOT
  else if st =? FL_SIPVER1 then fl_sipver m (lit "Ss") FL_SIPVER2 p
  else if st =? FL_SIPVER2 then fl_sipver m (lit "Ii") FL_SIPVER3 p
  else if st =? FL_SIPVER3 then fl_sipver m (lit "Pp") FL_SIPVER4 p
  else if st =? FL_SIPVER4 then fl_sipver m (lit "/") FL_SIPVER_DIG1 p
  else if st =? FL_SIPVER_DIG1 then if ch =? 50 then Go (fl_go FL_SIPVER_SEP p) else fl_version p
  else if st =? FL_SIPVER_SEP then if ch =? 46 then Go (fl_go FL_SIPVER_DIG2 p) else fl_version p
  else if st =? FL_SIPVER_DIG2 then
    if ch =? 48 then
      if fl_req p then Go (fl_go FL_EOL p)
      else Go (fl_go FL_SIPVER_SP (fl_set_u (P_REPLY (mk_prep 0 cstr0)) p))
    else fl_version p
  else if st =? FL_METH then
    if ch =? SP then
      let x := mk_cstr (fl_beg p) (c - fl_beg p) in
      let '(meth, err) := parse_method (chars m x) in
      let p := fl_set_u (P_REQUEST (mk_preq x meth cstr0 sip_uri0)) p in
      if negb (err =? 0) then Ret p err else Go (fl_set_beg (c + 1) (fl_go FL_RURI p))
    else Go p
  else if st =? FL_RURI then
    if ch =? SP then
      match fl_u p with
      | P_REQUEST r =>
          let x := mk_cstr (fl_beg p) (c - fl_beg p) in
          (* [parse_uri] always returns, see [uri_ends] *)
          let '(u, err) := default (rq_ruri r, UNDEFINED_ERR) (parse_uri m (rq_ruri r) (fl_beg p) (c - fl_beg p)) in
          let p := fl_set_u (P_REQUEST (mk_preq (rq_method_str r) (rq_method r) x u)) p in
          if negb (err =? 0) then Ret p err
          else Go (mk_fl c (fl_beg p) FL_SIPVER1 (fl_saved p) true (fl_u p))
      | _ => Ret p UNDEFINED_ERR
      end
    else if inb ch [CR; LF; HTAB] then Ret p MALFORMED_SIP_MSG
    else Go p
  else if st =? FL_SIPVER_SP then
    if negb (ch =? SP) then Go (fl_go FL_ERR p) else Go (fl_set_beg (c + 1) (fl_go FL_STAT1 p))
  else if inb st [FL_STAT1; FL_STAT2; FL_STAT3] then fl_stcode m p
  else if st =? FL_STAT_SP then
    if negb (ch =? SP) then Go (fl_go FL_ERR p) else Go (fl_set_beg (c + 1) (fl_go FL_REASON p))
  else if (st =? FL_REASON) || (st =? FL_BAD_VERSION) then
    if ch =? CR then Go (fl_save_eol ST_CR p)
    else if ch =? LF then Go (fl_save_eol ST_LF p)
    else Go p
  else if st =? FL_EOL then
    if ch =? CR then Go (fl_save_eol ST_CR p)
    else if ch =? LF then Go (fl_save_eol ST_LF p)
    else Ret p MALFORMED_SIP_MSG
  else if st =? FL_ERR then Ret p MALFORMED_SIP_MSG
  else if st =? ST_CR then
    if ch =? LF then Go (fl_go ST_CRLF p) else Ret p MALFORMED_SIP_MSG
  else if (st =? ST_LF) || (st =? ST_CRLF) then
    let p :=
      if fl_saved p =? FL_REASON then
        let reason_len := c - eol_len st - fl_beg p in
        match fl_u p with
        | P_REPLY r =>
            if reason_len >? 0 then fl_set_u (P_REPLY (mk_prep (rp_code r) (mk_cstr (fl_beg p) reason_len))) p else p
        | _ => p
        end
      else p in
    if fl_saved p =? FL_BAD_VERSION then Ret p MALFORMED_SIP_VERSION else Ret p 0
  else Ret p (-99).

(** What the first line says, the cursor and the return code. *)
Definition parse_first_line (m : mem) (c e : Z) : option (p_u * Z * Z) :=
  match run_loop fl_c fl_set_c fl_char (S (2 * Z.to_nat (e - c) + 1)) m e (mk_fl c c FL_SIPVER1 0 false P_UNKNOWN) with
  | None => None
  | Some (p, Some r) => Some (fl_u p, fl_c p, r)
  | Some (p, None) => Some (fl_u p, fl_c p, UNEXPECTED_EOT)
  end.

(** ** Headers into the message *)

(** The header members of a [sip_msg]. *)
Record hdr_slots := mk_hs {
  hdrs : list sip_header;
  to : option sip_header;
  from : option sip_header;
  cseq : option sip_header;
  rack : option sip_header;
  vias : list sip_header;
  via1 : option sip_header;
  callid : option sip_header;
  contacts : list sip_header;
  route : list sip_header;
  record_route : list sip_header;
  content_type : option sip_header;
  content_length : option sip_header
}.

Definition hdr_slots0 : hdr_slots := mk_hs [] None None None None [] None None [] [] [] None None.

(** [if(slot) err = MALFORMED_SIP_MSG;] *)
Definition dup (slot : option sip_header) (err : Z) : Z := match slot with Some _ => MALFORMED_SIP_MSG | None => err end.

(** The body of the loop over the parsed headers; [prack] tells that the message is a PRACK
    request. *)
Definition add_hdr (prack : bool) (x : hdr_slots * Z) (h : sip_header) : hdr_slots * Z :=
  let '(mk_hs al t f q k vs v i c r rr ct cl, err) := x in
  let al := al ++ [h] in
  match type h with
  | H_CALL_ID => (mk_hs al t f q k vs v (Some h) c r rr ct cl, dup i err)
  | H_CONTACT => (mk_hs al t f q k vs v i (c ++ [h]) r rr ct cl, err)
  | H_CONTENT_LENGTH => (mk_hs al t f q k vs v i c r rr ct (Some h), dup cl err)
  | H_CONTENT_TYPE => (mk_hs al t f q k vs v i c r rr (Some h) cl, err)
  | H_FROM => (mk_hs al t (Some h) q k vs v i c r rr ct cl, dup f err)
  | H_TO => (mk_hs al (Some h) f q k vs v i c r rr ct cl, dup t err)
  | H_VIA => (mk_hs al t f q k (vs ++ [h]) (match v with Some v => Some v | None => Some h end) i c r rr ct cl, err)
  | H_RACK => (mk_hs al t f q (if prack then Some h else k) vs v i c r rr ct cl, err)
  | H_CSEQ => (mk_hs al t f (Some h) k vs v i c r rr ct cl, dup q err)
  | H_ROUTE => (mk_hs al t f q k vs v i c (r ++ [h]) rr ct cl, err)
  | H_RECORD_ROUTE => (mk_hs al t f q k vs v i c r (rr ++ [h]) ct cl, err)
  | _ => (mk_hs al t f q k vs v i c r rr ct cl, err)
  end.

Definition is_prack (u : p_u) : bool :=
  match u with P_REQUEST r => bool_decide (rq_method r = PRACK) | _ => false end.

(** [parse_headers(msg,c,end)]: the members, the cursor and the return code. *)
Definition parse_msg_headers (m : mem) (u : p_u) (c e : Z) : option (hdr_slots * Z * Z) :=
  match parse_headers m c e with
  | None => None
  | Some (hs, c, err) =>
      if negb (err =? 0) then Some (hdr_slots0, c, err)
      else let '(x, err) := fold_left (add_hdr (is_prack u)) hs (hdr_slots0, err) in Some (x, c, err)
  end.

(** ** The message *)

(** What [parse_sip_msg] leaves in the message: the members that point to parsed headers
    hold what is parsed. *)
Record p_msg := mk_pmsg {
  pm_u : p_u;
  pm_hdrs : hdr_slots;
  pm_body : cstr;
  pm_via : list sip_via_parm;
  pm_cseq : option sip_cseq;
  pm_from : option sip_from_to;
  pm_to : option sip_from_to;
  pm_rack : option sip_rack
}.

Definition via_p1 (x : p_msg) : option sip_via_parm := head (pm_via x).

(** The value of a Content-Length: blanks, digits up to a blank; [None] with the message
    for an error. *)
Fixpoint cl_digits (l : list Z) (v : Z) : Z + string :=
  match l with
  | [] => inl v
  | c :: l =>
      if IS_DIGIT c then
        let digit := c - 48 in
        if v >? (INT_MAX - digit) / 10 then inr "Content-Length value too large"%string
        else cl_digits l (v * 10 + digit)
      else if (c =? SP) || (c =? HTAB) then inl v
      else inr "Invalid Content-Length value"%string
  end.

Definition cl_value (l : list Z) : Z + string :=
  match eat_ws l with
  | [] => inr "Invalid Content-Length value"%string
  | l => cl_digits l 0
  end.

(** Where the body is, or the message for an error. *)
Definition msg_body (m : mem) (x : hdr_slots) (c available : Z) : cstr + string :=
  match content_length x with
  | Some h =>
      match cl_value (chars m (value h)) with
      | inr err => inr err
      | inl n => if n >? available then inr "Content-Length exceeds available body data"%string else inl (mk_cstr c n)
      end
  | None => inl (mk_cstr c available)
  end.

(** The mandatory headers that are missing. *)
Definition missing_hdr (x : hdr_slots) : option string :=
  match via1 x, cseq x, from x, to x, callid x with
  | None, _, _, _, _ => Some "missing Via header field"%string
  | _, None, _, _, _ => Some "missing CSeq header field"%string
  | _, _, None, _, _ => Some "missing From header field"%string
  | _, _, _, None, _ => Some "missing To header field"%string
  | _, _, _, _, None => Some "missing Call-ID header field"%string
  | _, _, _, _, _ => None
  end.

(** The CSeq method is not the request's. *)
Definition cseq_mismatch (m : mem) (u : p_u) (q : sip_cseq) : bool :=
  match u with
  | P_REQUEST r =>
      negb (bool_decide (cq_method q = rq_method r))
      || (bool_decide (cq_method q = OTHER_METHOD)
          && negb (same (chars m (cq_method_str q)) (chars m (rq_method_str r))))
  | _ => false
  end.

(** The outcome of [parse_sip_msg]: the message as far as it was read, the return code and
    [err_msg]. *)
Definition p_result : Type := p_msg * Z * string.

Definition msg_fail (x : p_msg) (r : Z) (err : string) : option p_result := Some (x, r, err).

(** From the mandatory headers on.  [junk] is what [sip_cseq::method] holds when it is
    allocated. *)
Definition parse_msg_parts (m : mem) (junk : method) (x : p_msg) : option p_result :=
  let hs := pm_hdrs x in
  match via1 hs, cseq hs, from hs, to hs with
  | Some hvia, Some hcseq, Some hfrom, Some hto =>
      match parse_via m (s (value hvia)) (len (value hvia)) with
      | None => None
      | Some (vs, r) =>
          if negb (r =? 0) || (match vs with [] => true | _ => false end) then msg_fail x MALFORMED_SIP_MSG "could not parse Via hf"
          else
          let x := mk_pmsg (pm_u x) hs (pm_body x) vs (pm_cseq x) (pm_from x) (pm_to x) (pm_rack x) in
          match parse_cseq m (sip_cseq0 junk) (s (value hcseq)) (len (value hcseq)) with
          | None => None
          | Some (q, r) =>
              if negb (r =? 0) || (len (cq_num_str q) =? 0) || (len (cq_method_str q) =? 0)
              then msg_fail x MALFORMED_SIP_MSG "could not parse CSeq hf"
              else
              let x := mk_pmsg (pm_u x) hs (pm_body x) vs (Some q) (pm_from x) (pm_to x) (pm_rack x) in
              if cseq_mismatch m (pm_u x) q then msg_fail x MALFORMED_SIP_MSG "CSeq method does not match request method"
              else
              match parse_from_to m sip_from_to0 (s (value hfrom)) (len (value hfrom)) with
              | None => None
              | Some (f, r) =>
                  if negb (r =? 0) then msg_fail x MALFORMED_SIP_MSG "could not parse From hf"
                  else if len (ft_tag f) =? 0 then msg_fail x MALFORMED_SIP_MSG "missing From-tag"
                  else
                  let x := mk_pmsg (pm_u x) hs (pm_body x) vs (Some q) (Some f) (pm_to x) (pm_rack x) in
                  match parse_from_to m sip_from_to0 (s (value hto)) (len (value hto)) with
                  | None => None
                  | Some (t, r) =>
                      if negb (r =? 0) then msg_fail x MALFORMED_SIP_MSG "could not parse To hf"
                      else
                      let x := mk_pmsg (pm_u x) hs (pm_body x) vs (Some q) (Some f) (Some t) (pm_rack x) in
                      match rack hs with
                      | None => Some (x, 0, EmptyString)
                      | Some hrack =>
                          match parse_rack (chars m (value hrack)) with
                          | Some k => Some (mk_pmsg (pm_u x) hs (pm_body x) vs (Some q) (Some f) (Some t) (Some k), 0, EmptyString)
                          | None => msg_fail x MALFORMED_SIP_MSG "could not parse RAck hf"
                          end
                      end
                  end
              end
          end
      end
  | _, _, _, _ => msg_fail x INCOMPLETE_SIP_MSG EmptyString
  end.

(** [parse_sip_msg] on the [len] characters from [buf]. *)
Definition parse_sip_msg (m : mem) (junk : method) (buf len : Z) : option p_result :=
  let e := buf + len in
  match parse_first_line m buf e with
  | None => None
  | Some (u, c, err) =>
      let x := mk_pmsg u hdr_slots0 cstr0 [] None None None None in
      if negb (err =? 0) then
        if err =? MALFORMED_SIP_VERSION then
          match parse_msg_headers m u c e with
          | None => None
          | Some (hs, _, _) => msg_fail (mk_pmsg u hs cstr0 [] None None None None) MALFORMED_SIP_VERSION "Version Not Supported"
          end
        else msg_fail x MALFORMED_FLINE "Could not parse first line"
      else
      match parse_msg_headers m u c e with
      | None => None
      | Some (hs, c, err) =>
          let x := mk_pmsg u hs cstr0 [] None None None None in
          if negb (err =? 0) then msg_fail x err "Malformed headers"
          else
          match msg_body m hs c (len - (c - buf)) with
          | inr err => msg_fail x MALFORMED_SIP_MSG err
          | inl b =>
              let x := mk_pmsg u hs b [] None None None None in
              match missing_hdr hs with
              | Some err => msg_fail x INCOMPLETE_SIP_MSG err
              | None => parse_msg_parts m junk x
              end
          end
      end
  end.

Definition demo_msg : list Z :=
  lit "INVITE sip:bob@b.com SIP/2.0" ++ CRLF ++
  hdr_lines [(lit "Via", lit "SIP/2.0/UDP a.com:5060;branch=z9hG4bK77;rport"); (lit "f", lit "<sip:al@a.com>;tag=9fx");
    (lit "To", lit "Bob <sip:bob@b.com>"); (lit "Call-ID", lit "843817637684230@998sdasdh09"); (lit "CSeq", lit "1826 INVITE");
    (lit "X-Other", lit "1"); (lit "Content-Length", lit "3")] ++ CRLF ++ lit "v=0".

Example demo_msg_parsed :
  let m := mem_at 5 demo_msg in
  match parse_sip_msg m OTHER_METHOD 5 (Z.of_nat (length demo_msg)) with
  | Some (x, 0, _) =>
      chars m (pm_body x) = lit "v=0" /\ option_map (fun q => (cq_num q, cq_method q)) (pm_cseq x) = Some (1826, INVITE) /\
      option_map (fun f => chars m (ft_tag f)) (pm_from x) = Some (lit "9fx") /\
      option_map (fun v => chars m (branch v)) (via_p1 x) = Some (lit "z9hG4bK77")
  | _ => False
  end.
Proof. by vm_compute. Qed.

(** ** The first line ends *)

Definition fl_ver (st : Z) : bool := inb st [FL_SIPVER1; FL_SIPVER2; FL_SIPVER3; FL_SIPVER4].

Lemma fl_char_cursor m p q :
  fl_char m p = Go q -> fl_c q = fl_c p \/ (fl_c q = fl_c p - 1 /\ fl_ver (fl_st p) = true /\ fl_st q = FL_METH).
Proof.
  unfold fl_char, fl_sipver, fl_version, fl_stcode. intros H.
  destruct (m (fl_c p) =? 0); [done|].
  destruct (Z.eqb_spec (fl_st p) FL_SIPVER1) as [->|]; [repeat case_match; simplify_eq; auto|].
  destruct (Z.eqb_spec (fl_st p) FL_SIPVER2) as [->|]; [repeat case_match; simplify_eq; auto|].
  destruct (Z.eqb_spec (fl_st p) FL_SIPVER3) as [->|]; [repeat case_match; simplify_eq; auto|].
  destruct (Z.eqb_spec (fl_st p) FL_SIPVER4) as [->|]; [repeat case_match; simplify_eq; auto|].
  left. repeat case_match; by simplify_eq.
Qed.

Lemma first_line_total m c e : c <= e -> exists u c' r, parse_first_line m c e = Some (u, c', r).
Proof.
  intros He. unfold parse_first_line.
  destruct (run_loop_ends fl_c fl_set_c fl_char (fun p => fl_c p <= e)
    (fun p => (2 * Z.to_nat (e - fl_c p) + (if fl_ver (fl_st p) then 1 else 0))%nat)
    (S (2 * Z.to_nat (e - c) + 1)) m e (mk_fl c c FL_SIPVER1 0 false P_UNKNOWN)) as (p & o & -> & _).
  - intros x y Hx Hne Hy. unfold advance, fl_set_c; cbn [fl_c fl_st]. apply fl_char_cursor in Hy as [->|(-> & E0 & E1)].
    + split; [lia|]. destruct (fl_ver _), (fl_ver _); lia.
    + rewrite E0, E1. change (fl_ver FL_METH) with false. cbn. split; lia.
  - done.
  - cbn. lia.
  - destruct o; eauto.
Qed.

Abbreviation fl_to := (loop_to fl_c fl_set_c fl_char).

Lemma first_line_run m c e p r :
  c <= e -> fl_to m e (mk_fl c c FL_SIPVER1 0 false P_UNKNOWN) (p, Some r) -> parse_first_line m c e = Some (fl_u p, fl_c p, r).
Proof.
  intros He Hr. destruct (first_line_total m c e He) as (u & c' & r' & E). rewrite E. unfold parse_first_line in E.
  destruct (run_loop _ _ _ _ _ _ _) as [[q o]|] eqn:Eq; [|done].
  pose proof (loop_to_run fl_c fl_set_c _ _ _ _ _ _ _ Hr Eq) as Ex. injection Ex as -> ->. congruence.
Qed.

(** ** Reading a request line *)

Definition ver_chars (st : Z) : list Z :=
  if st =? FL_SIPVER1 then lit "Ss" else if st =? FL_SIPVER2 then lit "Ii" else if st =? FL_SIPVER3 then lit "Pp" else lit "/".

Lemma fl_ver_char m p :
  fl_ver (fl_st p) = true -> m (fl_c p) <> 0 -> fl_char m p = fl_sipver m (ver_chars (fl_st p)) (fl_st p + 1) p.
Proof.
  unfold fl_ver, inb. cbn [existsb]. rewrite orb_false_r, !orb_true_iff, !Z.eqb_eq. intros H Hm. unfold fl_char.
  apply Z.eqb_neq in Hm. rewrite Hm. by destruct H as [->|[->|[->| ->]]].
Qed.

Lemma token_not_zero c : IS_TOKEN c = true -> c <> 0 /\ c <> SP /\ c <> SLASH.
Proof. intros H. repeat split; intros ->; by vm_compute in H. Qed.

(** A method, whatever part of it looks like the start of "SIP/". *)
Lemma fl_method m e l c beg st y :
  st = FL_METH \/ fl_ver st = true -> forallb IS_TOKEN l = true -> holds m c (l ++ [SP]) -> c + Z.of_nat (length l) < e ->
  fl_to m e (mk_fl (c + Z.of_nat (length l)) beg FL_METH 0 false P_UNKNOWN) y -> fl_to m e (mk_fl c beg st 0 false P_UNKNOWN) y.
Proof.
  assert (Hmeth : forall l c y, forallb IS_TOKEN l = true -> holds m c l -> c + Z.of_nat (length l) < e ->
    fl_to m e (mk_fl (c + Z.of_nat (length l)) beg FL_METH 0 false P_UNKNOWN) y -> fl_to m e (mk_fl c beg FL_METH 0 false P_UNKNOWN) y).
  { clear. intros l c y Hl Hh He Hy. apply (loop_run fl_c fl_set_c _ (fun p => fl_st p = FL_METH) m e _ l); try done; [by intros []|cbn [fl_c]; lia|].
    intros x z Hx%list_elem_of_In Hz Hm. rewrite forallb_forall in Hl. apply Hl, token_not_zero in Hx as (H0 & H1 & _).
    unfold fl_char. apply Z.eqb_neq in H0, H1. by rewrite Hz, Hm, H0, H1. }
  revert c st; induction l as [|x l IH]; intros c st [->|Hst] Hl Hh He Hy; try (apply holds_app in Hh as [Hh _]; by eapply Hmeth).
  - cbn [length] in *. rewrite Z.add_0_r in *. apply holds_cons in Hh as [Hsp _].
    apply (loop_step _ _ _ _ _ _ (mk_fl (c - 1) beg FL_METH 0 false P_UNKNOWN)); cbn [fl_c]; [lia| |].
    { rewrite fl_ver_char; cbn [fl_st fl_c]; [|done|by rewrite Hsp]. unfold fl_sipver; cbn [fl_c fl_req]. rewrite Hsp.
      replace (inb SP (ver_chars st)) with false; [done|]. unfold ver_chars. by repeat case_match. }
    unfold advance, fl_set_c; cbn [fl_c fl_beg fl_st fl_saved fl_req fl_u]. by replace (c - 1 + 1) with c by lia.
  - cbn [forallb length app] in *. apply andb_true_iff in Hl as [Hx Hl]. pose proof (token_not_zero x Hx) as (H0 & H1 & H2).
    pose proof Hh as Hh0. apply holds_cons in Hh as [Hc Hh].
    destruct (inb x (ver_chars st) && negb (st =? FL_SIPVER4)) eqn:E.
    + apply andb_true_iff in E as [E1 E2%negb_true_iff].
      apply (loop_step _ _ _ _ _ _ (mk_fl c beg (st + 1) 0 false P_UNKNOWN)); cbn [fl_c]; [lia| |].
      { rewrite fl_ver_char; cbn [fl_st fl_c]; [|done|by rewrite Hc]. unfold fl_sipver; cbn [fl_c fl_req]. by rewrite Hc, E1. }
      apply IH; [right|done|done|cbn [fl_c]; lia|].
      * unfold fl_ver, inb in *. cbn [existsb] in *. rewrite orb_false_r, !orb_true_iff, !Z.eqb_eq in *.
        apply Z.eqb_neq in E2. unfold FL_SIPVER1, FL_SIPVER2, FL_SIPVER3, FL_SIPVER4 in *. cbn. lia.
      * cbn [fl_c]. by replace (c + 1 + Z.of_nat (length l)) with (c + Z.of_nat (S (length l))) by lia.
    + apply (loop_step _ _ _ _ _ _ (mk_fl (c - 1) beg FL_METH 0 false P_UNKNOWN)); cbn [fl_c]; [lia| |].
      { rewrite fl_ver_char; cbn [fl_st fl_c]; [|done|by rewrite Hc]. unfold fl_sipver; cbn [fl_c fl_req]. rewrite Hc.
        replace (inb x (ver_chars st)) with false; [done|]. symmetry. apply andb_false_iff in E as [E|E]; [done|].
        apply negb_false_iff, Z.eqb_eq in E as ->. change (inb x (ver_chars FL_SIPVER4)) with ((x =? SLASH) || false). apply Z.eqb_neq in H2. by rewrite H2. }
      unfold advance, fl_set_c; cbn [fl_c fl_beg fl_st fl_saved fl_req fl_u]. replace (c - 1 + 1) with c by lia.
      apply (Hmeth (x :: l)); [cbn [forallb]; by rewrite Hx|by apply (holds_app _ _ (x :: l)) in Hh0 as [? _]|cbn [length]; lia|done].
Qed.

(** One step of the loop on the character that [H] says is there. *)
Ltac fl_one H :=
  eapply loop_step;
  [ cbn [fl_c]; lia
  | unfold fl_char, fl_sipver, fl_version, fl_stcode; cbn [fl_c fl_st fl_req fl_u fl_beg fl_saved]; rewrite H; reflexivity
  | unfold advance, fl_set_c, fl_go, fl_set_beg, fl_set_u, fl_save_eol; cbn [fl_c fl_beg fl_st fl_saved fl_req fl_u] ].

Lemma fl_sip20 m e c beg sv (req : bool) u y :
  holds m c (lit "SIP/2.0") -> c + 7 <= e ->
  fl_to m e (mk_fl (c + 7) beg (if req then FL_EOL else FL_SIPVER_SP) sv req (if req then u else P_REPLY (mk_prep 0 cstr0))) y ->
  fl_to m e (mk_fl c beg FL_SIPVER1 sv req u) y.
Proof.
  intros Hh He Hy. cbn [lit map list_ascii_of_string] in Hh.
  apply holds_cons in Hh as [H1 Hh]. apply holds_cons in Hh as [H2 Hh]. apply holds_cons in Hh as [H3 Hh].
  apply holds_cons in Hh as [H4 Hh]. apply holds_cons in Hh as [H5 Hh]. apply holds_cons in Hh as [H6 Hh].
  apply holds_cons in Hh as [H7 _].
  destruct req; fl_one H1; fl_one H2; fl_one H3; fl_one H4; fl_one H5; fl_one H6; fl_one H7;
    by replace (c + 1 + 1 + 1 + 1 + 1 + 1 + 1) with (c + 7) by lia.
Qed.

(** The line end and the first character of the next line. *)
Lemma fl_crlf m e c beg st req u :
  st = FL_EOL \/ st = FL_REASON -> holds m c CRLF -> c + 2 < e -> m (c + 2) <> 0 ->
  fl_to m e (mk_fl c beg st 0 req u)
    (mk_fl (c + 2) beg ST_CRLF st req
       (match u with
        | P_REPLY r => if (st =? FL_REASON) && (c - beg >? 0) then P_REPLY (mk_prep (rp_code r) (mk_cstr beg (c - beg))) else u
        | _ => u
        end), Some 0).
Proof.
  intros Hst Hh He H0. unfold CRLF in Hh. apply holds_cons in Hh as [H1 Hh]. apply holds_cons in Hh as [H2 _].
  apply Z.eqb_neq in H0.
  destruct Hst as [-> | ->]; fl_one H1; fl_one H2; replace (c + 1 + 1) with (c + 2) by lia;
    (apply loop_ret; cbn [fl_c]; [lia|]); unfold fl_char; cbn [fl_c fl_st fl_saved fl_u fl_beg]; rewrite H0; cbn -[Z.sub Z.add Z.gtb];
    [by destruct u|]. replace (c + 2 - 2 - beg) with (c - beg) by lia. destruct u as [|r|r]; cbn [fl_saved]; try done. by destruct (c - beg >? 0).
Qed.

Definition ruri_char (c : Z) : bool := negb (inb c [0; SP; CR; LF; HTAB]).

Definition request_line (meth ruri : list Z) : list Z := meth ++ [SP] ++ ruri ++ [SP] ++ lit "SIP/2.0" ++ CRLF.

Lemma request_line_read m c e meth ruri u :
  forallb IS_TOKEN meth = true -> forallb ruri_char ruri = true -> holds m c (request_line meth ruri) ->
  c + Z.of_nat (length (request_line meth ruri)) < e -> m (c + Z.of_nat (length (request_line meth ruri))) <> 0 ->
  let b := c + Z.of_nat (length meth) + 1 in
  parse_uri m sip_uri0 b (Z.of_nat (length ruri)) = Some (u, 0) ->
  parse_first_line m c e =
    Some (P_REQUEST (mk_preq (mk_cstr c (Z.of_nat (length meth))) (fst (parse_method meth)) (mk_cstr b (Z.of_nat (length ruri))) u),
          c + Z.of_nat (length (request_line meth ruri)), 0).
Proof.
  intros Hm Hr Hh He H0 b Hu. remember (c + Z.of_nat (length (request_line meth ruri))) as N eqn:HN.
  unfold request_line in *. rewrite !length_app in HN. rewrite app_assoc in Hh. apply holds_app in Hh as [Hh1 Hh2].
  apply holds_app in Hh2 as [Hh2 Hh3]. apply holds_cons in Hh3 as [Hsp Hh3]. apply holds_app in Hh3 as [Hh3 Hh4].
  rewrite length_app in Hh2, Hsp, Hh3, Hh4. change (length (lit "SIP/2.0")) with 7%nat in *.
  change (length CRLF) with 2%nat in *. change (length [SP]) with 1%nat in *. set (k := Z.of_nat (length meth)) in *. set (j := Z.of_nat (length ruri)) in *.
  replace (c + Z.of_nat (length meth + 1)) with b in * by (unfold b, k; lia).
  set (r0 := mk_preq (mk_cstr c k) (fst (parse_method meth)) cstr0 sip_uri0).
  set (r1 := mk_preq (mk_cstr c k) (fst (parse_method meth)) (mk_cstr b j) u).
  assert (Hn : N = b + j + 1 + 7 + 2) by (unfold b, k, j; lia). clear HN. subst N.
  rewrite (first_line_run m c e (mk_fl (b + j + 1 + 7 + 2) b ST_CRLF FL_EOL true (P_REQUEST r1)) 0); [done|unfold b, k, j in *; lia|].
  apply (fl_method m e meth); [right; done|done|done|fold k; unfold b, k, j in *; lia|]. fold k.
  apply holds_app in Hh1 as [Hh0 Hsp0]. apply holds_cons in Hsp0 as [Hsp0 _]. fold k in Hsp0.
  apply (loop_step _ _ _ _ _ _ (mk_fl (c + k) b FL_RURI 0 false (P_REQUEST r0))); cbn [fl_c]; [unfold b, k, j in *; lia| |].
  { unfold fl_char; cbn [fl_c fl_st fl_beg]. rewrite Hsp0. cbn [Z.eqb Pos.eqb SP FL_METH FL_SIPVER1 FL_SIPVER2 FL_SIPVER3 FL_SIPVER4 FL_SIPVER_DIG1 FL_SIPVER_SEP FL_SIPVER_DIG2].
    replace (c + k - c) with k by lia. unfold k. rewrite (chars_holds _ _ _ Hh0).
    destruct (parse_method meth) as [M err] eqn:EM. pose proof (parse_method_token meth Hm) as Ht. rewrite EM in Ht. cbn in Ht. rewrite Ht. done. }
  unfold advance, fl_set_c; cbn [fl_c fl_beg fl_st fl_saved fl_req fl_u]. fold b.
  apply (loop_run fl_c fl_set_c _ (fun p => fl_st p = FL_RURI) m e _ ruri); try done; [by intros []|cbn [fl_c]; fold j; lia| |].
  { intros x z Hx%list_elem_of_In Hz Hmz. rewrite forallb_forall in Hr. apply Hr, negb_true_iff in Hx.
    apply inb_cons_false in Hx as [F0 Hx]. apply inb_cons_false in Hx as [F1 Hx]. apply inb_cons_false in Hx as [F2 Hx].
    apply inb_cons_false in Hx as [F3 Hx]. apply inb_cons_false in Hx as [F4 _].
    unfold fl_char, inb. rewrite Hz, Hmz, F0, F1. cbn [existsb]. by rewrite F2, F3, F4. }
  unfold fl_set_c; cbn [fl_c fl_beg fl_st fl_saved fl_req fl_u]. fold j.
  apply (loop_step _ _ _ _ _ _ (mk_fl (b + j) b FL_SIPVER1 0 true (P_REQUEST r1))); cbn [fl_c]; [lia| |].
  { unfold fl_char; cbn [fl_c fl_st fl_beg fl_u]. rewrite Hsp. cbn [Z.eqb Pos.eqb SP FL_RURI FL_METH FL_SIPVER1 FL_SIPVER2 FL_SIPVER3 FL_SIPVER4 FL_SIPVER_DIG1 FL_SIPVER_SEP FL_SIPVER_DIG2].
    replace (b + j - b) with j by lia. cbn [r0 rq_ruri]. rewrite Hu. cbn. done. }
  unfold advance, fl_set_c; cbn [fl_c fl_beg fl_st fl_saved fl_req fl_u].
  apply fl_sip20; [done|lia|]. cbn iota.
  apply (fl_crlf m e (b + j + 1 + 7) b FL_EOL true (P_REQUEST r1)); [by left|done|lia|done].
Qed.

Definition status_line (code : Z) (reason : list Z) : list Z :=
  lit "SIP/2.0" ++ [SP] ++ [code / 100 + 48; code / 10 mod 10 + 48; code mod 10 + 48] ++ [SP] ++ reason ++ CRLF.

(** One digit of the status code. *)
Lemma fl_digit m e c d beg st code0 y :
  c < e -> m c = d + 48 -> 0 <= d <= 9 -> inb st [FL_STAT1; FL_STAT2; FL_STAT3] = true ->
  fl_to m e (mk_fl (c + 1) beg (st + 1) 0 false (P_REPLY (mk_prep (code0 * 10 + d) cstr0))) y ->
  fl_to m e (mk_fl c beg st 0 false (P_REPLY (mk_prep code0 cstr0))) y.
Proof.
  intros Hc Hm Hd Hst Hy.
  apply (loop_step _ _ _ _ _ _ (mk_fl c beg (st + 1) 0 false (P_REPLY (mk_prep (code0 * 10 + d) cstr0)))); cbn [fl_c]; [lia| |exact Hy].
  assert (Hdig : IS_DIGIT (d + 48) = true) by (apply is_digit_range; lia).
  assert (Hbody : fl_char m (mk_fl c beg st 0 false (P_REPLY (mk_prep code0 cstr0))) = fl_stcode m (mk_fl c beg st 0 false (P_REPLY (mk_prep code0 cstr0)))).
  { unfold fl_char; cbn [fl_c fl_st]. rewrite Hm. destruct (Z.eqb_spec (d + 48) 0); [lia|].
    unfold inb in Hst. cbn [existsb] in Hst. rewrite orb_false_r, !orb_true_iff, !Z.eqb_eq in Hst. by destruct Hst as [->|[->| ->]]. }
  rewrite Hbody. unfold fl_stcode; cbn [fl_c fl_st fl_u rp_code rp_reason]. rewrite Hm, Hdig.
  unfold fl_set_u, fl_go; cbn [fl_c fl_beg fl_st fl_saved fl_req fl_u]. do 5 f_equal. lia.
Qed.

Lemma status_line_read m c e code reason :
  0 <= code <= 999 -> forallb text_char reason = true -> holds m c (status_line code reason) ->
  c + Z.of_nat (length (status_line code reason)) < e -> m (c + Z.of_nat (length (status_line code reason))) <> 0 ->
  exists r, parse_first_line m c e = Some (P_REPLY r, c + Z.of_nat (length (status_line code reason)), 0) /\
    rp_code r = code /\ chars m (rp_reason r) = reason.
Proof.
  intros Hc Hr Hh He H0. remember (c + Z.of_nat (length (status_line code reason))) as N eqn:HN.
  unfold status_line in *. rewrite !length_app in HN. apply holds_app in Hh as [Hv Hh]. apply holds_cons in Hh as [Hs1 Hh].
  cbn [app] in Hh. apply holds_cons in Hh as [H1 Hh]. apply holds_cons in Hh as [H2 Hh]. apply holds_cons in Hh as [H3 Hh].
  apply holds_cons in Hh as [Hs2 Hh]. apply holds_app in Hh as [Hrs Hcr].
  change (Z.of_nat (length (lit "SIP/2.0"))) with 7 in *. change (length CRLF) with 2%nat in *. change (length (lit "SIP/2.0")) with 7%nat in *.
  cbn [length] in HN.
  set (b := c + 7 + 1 + 1 + 1 + 1 + 1) in *. set (j := Z.of_nat (length reason)) in *.
  assert (Hn : N = b + j + 2) by (unfold b, j; lia). clear HN. subst N.
  assert (Hd : 0 <= code / 100 <= 9 /\ 0 <= code / 10 mod 10 <= 9 /\ 0 <= code mod 10 <= 9 /\
               ((0 * 10 + code / 100) * 10 + code / 10 mod 10) * 10 + code mod 10 = code).
  { split; [split; [apply Z.div_pos; lia|apply Z.lt_succ_r, Z.div_lt_upper_bound; lia]|]. split; [pose proof (Z.mod_pos_bound (code / 10) 10); lia|].
    split; [pose proof (Z.mod_pos_bound code 10); lia|]. replace (code / 100) with (code / 10 / 10) by (rewrite Z.div_div; [done|lia|lia]).
    pose proof (Z.div_mod (code / 10) 10). pose proof (Z.div_mod code 10). lia. }
  destruct Hd as (Hd1 & Hd2 & Hd3 & Hd4).
  exists (mk_prep code (if j >? 0 then mk_cstr b j else cstr0)). split.
  - rewrite (first_line_run m c e (mk_fl (b + j + 2) b ST_CRLF FL_REASON false (P_REPLY (mk_prep code (if j >? 0 then mk_cstr b j else cstr0)))) 0); [done|unfold b, j in *; lia|].
    apply fl_sip20; [done|unfold b, j in *; lia|]. cbn iota. fl_one Hs1.
    apply (fl_digit m e _ (code / 100)); [unfold b, j in *; lia|done|done|done|].
    apply (fl_digit m e _ (code / 10 mod 10)); [unfold b, j in *; lia|done|done|done|].
    apply (fl_digit m e _ (code mod 10)); [unfold b, j in *; lia|done|done|done|]. rewrite Hd4.
    change (FL_STAT1 + 1 + 1 + 1) with FL_STAT_SP.
    apply (loop_step _ _ _ _ _ _ (mk_fl (c + 7 + 1 + 1 + 1 + 1) b FL_REASON 0 false (P_REPLY (mk_prep code cstr0)))); cbn [fl_c]; [unfold b, j in *; lia| |].
    { unfold fl_char; cbn [fl_c fl_st]. by rewrite Hs2. }
    unfold advance, fl_set_c; cbn [fl_c fl_beg fl_st fl_saved fl_req fl_u]. fold b.
    apply (loop_run fl_c fl_set_c _ (fun p => fl_st p = FL_REASON) m e _ reason); try done; [by intros []|cbn [fl_c]; fold j; lia| |].
    { intros x z Hx%list_elem_of_In Hz Hm. rewrite forallb_forall in Hr. apply Hr, text_char_spec in Hx as (F0 & F1 & F2).
      unfold fl_char. apply Z.eqb_neq in F0, F1, F2. by rewrite Hz, Hm, F0, F1, F2. }
    unfold fl_set_c; cbn [fl_c fl_beg fl_st fl_saved fl_req fl_u]. fold j.
    pose proof (fl_crlf m e (b + j) b FL_REASON false (P_REPLY (mk_prep code cstr0))) as Hend. cbn [rp_code] in Hend.
    replace (b + j - b) with j in Hend by lia. change (FL_REASON =? FL_REASON) with true in Hend. cbn [andb] in Hend.
    replace (P_REPLY (mk_prep code (if j >? 0 then mk_cstr b j else cstr0))) with
      (if j >? 0 then P_REPLY (mk_prep code (mk_cstr b j)) else P_REPLY (mk_prep code cstr0)) by by destruct (j >? 0).
    apply Hend; [by right|done|lia|done].
  - split; [done|]. cbn [rp_reason]. destruct (Z.gtb_spec j 0); [by apply chars_holds|]. destruct reason; [done|]. unfold j in *. cbn [length] in *. lia.
Qed.

(** ** The headers of a message *)

Definition of_type (t : hdr_type) (hs : list sip_header) : list sip_header :=
  List.filter (fun h => bool_decide (type h = t)) hs.

(** The members after all headers. *)
Definition slots_of (prack : bool) (hs : list sip_header) : hdr_slots :=
  mk_hs hs (last (of_type H_TO hs)) (last (of_type H_FROM hs)) (last (of_type H_CSEQ hs))
    (if prack then last (of_type H_RACK hs) else None) (of_type H_VIA hs) (head (of_type H_VIA hs)) (last (of_type H_CALL_ID hs))
    (of_type H_CONTACT hs) (of_type H_ROUTE hs) (of_type H_RECORD_ROUTE hs)
    (last (of_type H_CONTENT_TYPE hs)) (last (of_type H_CONTENT_LENGTH hs)).

(** One of the headers that RFC 3261 20 allows once is there twice. *)
Definition dup_hdr (hs : list sip_header) : bool :=
  existsb (fun t => Nat.ltb 1 (length (of_type t hs))) [H_CALL_ID; H_CONTENT_LENGTH; H_FROM; H_TO; H_CSEQ].

Lemma of_type_snoc t hs h : of_type t (hs ++ [h]) = of_type t hs ++ (if bool_decide (type h = t) then [h] else []).
Proof. unfold of_type. rewrite List.filter_app. cbn. by destruct (bool_decide _). Qed.

Lemma dup_last (l : list sip_header) err : dup (last l) err = if Nat.ltb 0 (length l) then MALFORMED_SIP_MSG else err.
Proof.
  destruct l as [|h l _] using rev_ind; [done|]. rewrite last_snoc, length_app. cbn [length dup].
  by destruct (Nat.ltb_spec 0 (length l + 1)); [|lia].
Qed.

Lemma ltb_snoc {A} (l : list A) (h : A) : Nat.ltb 1 (length (l ++ [h])) = Nat.ltb 0 (length l).
Proof. rewrite length_app. cbn [length]. destruct (Nat.ltb_spec 1 (length l + 1)), (Nat.ltb_spec 0 (length l)); (done || lia). Qed.

Lemma add_hdr_fold prack hs :
  fold_left (add_hdr prack) hs (hdr_slots0, 0) = (slots_of prack hs, if dup_hdr hs then MALFORMED_SIP_MSG else 0).
Proof.
  induction hs as [|h hs IH] using rev_ind; [unfold slots_of; cbn; by destruct prack|].
  rewrite fold_left_app, IH. cbn [fold_left]. clear IH.
  unfold slots_of, dup_hdr. cbn [existsb]. rewrite !of_type_snoc. unfold add_hdr.
  destruct (type h);
    repeat match goal with
    | |- context [bool_decide (?a = ?b)] =>
        let r := eval vm_compute in (bool_decide (a = b)) in change (bool_decide (a = b)) with r
    end; cbn iota; rewrite ?app_nil_r, ?last_snoc, ?ltb_snoc; try done.
  2: by destruct (of_type H_VIA hs).
  all: rewrite ?dup_last; try (by destruct prack).
  all: match goal with |- context [Nat.ltb 0 (length ?l)] =>
         destruct (Nat.ltb_spec 0 (length l)), (Nat.ltb_spec 1 (length l)); try lia end.
  all: cbn [orb]; rewrite ?orb_true_r, ?orb_false_r; try done.
Qed.

(** The values of the headers of a type, as text. *)
Definition values_of (t : hdr_type) (hs : list (list Z * list Z)) : list (list Z) :=
  map snd (List.filter (fun h => bool_decide (parse_header_type h.1 = t)) hs).

Lemma of_type_values m t a hs :
  holds m a (hdr_lines hs) -> map (fun h => chars m (value h)) (of_type t (hdrs_of a hs)) = values_of t hs.
Proof.
  intros Hh. apply hdrs_of_view in Hh. revert Hh. generalize (hdrs_of a hs) as l. unfold of_type, values_of.
  induction hs as [|h hs IH]; intros [|x l]; cbn [map List.filter]; try done. intros H. injection H as H1 H2 H3 H4.
  specialize (IH l H4). rewrite H1. destruct (bool_decide (parse_header_type h.1 = t)); cbn [map]; by rewrite ?IH, ?H3.
Qed.

Lemma values_count m t a hs : holds m a (hdr_lines hs) -> length (of_type t (hdrs_of a hs)) = length (values_of t hs).
Proof. intros Hh. by rewrite <- (of_type_values m t a hs Hh), length_map. Qed.

Lemma hdrs_of_len a hs h : In h (hdrs_of a hs) -> 0 <= len (value h).
Proof. revert a; induction hs as [|x hs IH]; intros a; [done|]. intros [<-|H]; [cbn; lia|by eapply IH]. Qed.

Lemma chars_inv m x l : chars m x = l -> 0 <= len x -> holds m (s x) l /\ len x = Z.of_nat (length l).
Proof.
  intros <- Hx. unfold chars, holds. rewrite length_bytes. split; [done|]. lia.
Qed.

(** The only header of a type. *)
Lemma only_value m t a hs v :
  holds m a (hdr_lines hs) -> values_of t hs = [v] ->
  exists h, of_type t (hdrs_of a hs) = [h] /\ holds m (s (value h)) v /\ len (value h) = Z.of_nat (length v).
Proof.
  intros Hh Hv. pose proof (of_type_values m t a hs Hh) as E. rewrite Hv in E.
  destruct (of_type t (hdrs_of a hs)) as [|h [|h2 l]] eqn:Eo; try done. exists h. split; [done|].
  injection E as E. apply chars_inv; [done|]. apply (hdrs_of_len a hs).
  assert (In h (of_type t (hdrs_of a hs))) as Hin by (rewrite Eo; by left). by apply filter_In in Hin as [? _].
Qed.

(** The first header of a type. *)
Lemma first_value m t a hs v :
  holds m a (hdr_lines hs) -> head (values_of t hs) = Some v ->
  exists h, head (of_type t (hdrs_of a hs)) = Some h /\ holds m (s (value h)) v /\ len (value h) = Z.of_nat (length v).
Proof.
  intros Hh Hv. pose proof (of_type_values m t a hs Hh) as E. destruct (values_of t hs) as [|v' vs]; [done|]. injection Hv as <-.
  destruct (of_type t (hdrs_of a hs)) as [|h l] eqn:Eo; [done|]. exists h. split; [done|].
  injection E as E _. apply chars_inv; [done|]. apply (hdrs_of_len a hs).
  assert (In h (of_type t (hdrs_of a hs))) as Hin by (rewrite Eo; by left). by apply filter_In in Hin as [? _].
Qed.

(** ** From the first line on *)

Lemma msg_headers_read m u c e hs :
  forallb good_hdr hs = true -> holds m c (hdr_lines hs ++ CRLF) -> c + Z.of_nat (length (hdr_lines hs ++ CRLF)) <= e ->
  parse_msg_headers m u c e =
    Some (slots_of (is_prack u) (hdrs_of c hs), c + Z.of_nat (length (hdr_lines hs ++ CRLF)),
          if dup_hdr (hdrs_of c hs) then MALFORMED_SIP_MSG else 0).
Proof.
  intros Hg Hh He. destruct (ph_lines m e hs c [] 0 Hg Hh He) as (q & Hq & Hhs & Hc).
  unfold parse_msg_headers. rewrite (ph_to_parse m c e q 0); [|rewrite length_app in He; cbn in He; lia|exact Hq].
  rewrite Hhs, Hc. cbn [Z.eqb negb app]. by rewrite add_hdr_fold.
Qed.

(** Content-Length of the body that is there, or none. *)
Lemma cl_digits_read l v : forallb IS_DIGIT l = true -> 0 <= v -> dec_val v l <= INT_MAX -> cl_digits l v = inl (dec_val v l).
Proof.
  revert v; induction l as [|d l IH]; intros v Hd Hv Hm; [done|]. cbn [forallb cl_digits] in *.
  apply andb_true_iff in Hd as [Hd Hds]. rewrite Hd. apply is_digit_range in Hd.
  change (dec_val v (d :: l)) with (dec_val (v * 10 + (d - 48)) l) in *.
  pose proof (dec_val_ge (v * 10 + (d - 48)) l Hds ltac:(lia)).
  assert (v <= (INT_MAX - (d - 48)) / 10) by (apply Z.div_le_lower_bound; lia).
  destruct (Z.gtb_spec v ((INT_MAX - (d - 48)) / 10)); [lia|]. apply IH; [done|lia|done].
Qed.

Lemma cl_value_read n : 0 <= n <= INT_MAX -> cl_value (int2str n) = inl n.
Proof.
  intros Hn. assert (Hu : 0 <= n <= UINT_MAX) by (unfold INT_MAX, UINT_MAX in *; lia).
  destruct (int2str_digits n Hu) as (Hne & Hd & Hv). unfold cl_value.
  pose proof (eat_ws_int2str n [] Hu) as E. rewrite app_nil_r in E. rewrite E.
  destruct (int2str n) as [|d ds] eqn:Ed; [done|]. rewrite cl_digits_read; [by rewrite Hv|done|lia|lia].
Qed.

Lemma msg_body_read m prack a hs c (body : list Z) :
  holds m a (hdr_lines hs) -> Z.of_nat (length body) <= INT_MAX ->
  values_of H_CONTENT_LENGTH hs = [] \/ values_of H_CONTENT_LENGTH hs = [int2str (Z.of_nat (length body))] ->
  msg_body m (slots_of prack (hdrs_of a hs)) c (Z.of_nat (length body)) = inl (mk_cstr c (Z.of_nat (length body))).
Proof.
  intros Hh Hb Hcl. unfold msg_body. cbn [slots_of content_length]. destruct Hcl as [Hcl|Hcl].
  - pose proof (values_count m H_CONTENT_LENGTH a hs Hh) as E. rewrite Hcl in E.
    destruct (of_type H_CONTENT_LENGTH (hdrs_of a hs)); [done|done].
  - destruct (only_value m H_CONTENT_LENGTH a hs _ Hh Hcl) as (h & -> & Hv & Hl). cbn [last].
    assert (chars m (value h) = int2str (Z.of_nat (length body))) as ->.
    { unfold chars. rewrite Hl, Nat2Z.id. exact Hv. }
    rewrite cl_value_read by lia. by destruct (Z.gtb_spec (Z.of_nat (length body)) (Z.of_nat (length body))); [lia|].
Qed.

(** ** Messages as they are written *)

(** The parts of a message that its headers spell out. *)
Record msg_parts := mk_parts {
  mp_vias : list via_text;          (* the entries of the first Via *)
  mp_cseq : Z;
  mp_method : list Z;               (* of the CSeq *)
  mp_from : na_text * list (list Z * pvalue);
  mp_to : na_text * list (list Z * pvalue);
  mp_callid : list Z;
  mp_body : list Z
}.

Definition na_wr (x : na_text * list (list Z * pvalue)) : list Z := na_text_wr x.1 ++ params_wr x.2.

Definition good_na_params (x : na_text * list (list Z * pvalue)) : bool := good_na x.1 && forallb (good_param 0) x.2.

Definition na_tag (x : na_text * list (list Z * pvalue)) : list Z := tag_of (map param_text x.2).

(** The headers [hs] say [p], whatever their order and whatever else is among them. *)
Record says (hs : list (list Z * list Z)) (p : msg_parts) : Prop := {
  sy_good : forallb good_hdr hs = true;
  sy_via : head (values_of H_VIA hs) = Some (via_list_wr (mp_vias p));
  sy_cseq : values_of H_CSEQ hs = [int2str (mp_cseq p) ++ [SP] ++ mp_method p];
  sy_from : values_of H_FROM hs = [na_wr (mp_from p)];
  sy_to : values_of H_TO hs = [na_wr (mp_to p)];
  sy_callid : values_of H_CALL_ID hs = [mp_callid p];
  sy_cl : values_of H_CONTENT_LENGTH hs = [] \/
          values_of H_CONTENT_LENGTH hs = [int2str (Z.of_nat (length (mp_body p)))]
}.

Record good_parts (p : msg_parts) : Prop := {
  gp_vias : mp_vias p <> [] /\ forallb good_via (mp_vias p) = true;
  gp_cseq : 0 <= mp_cseq p <= UINT_MAX;
  gp_method : forallb IS_TOKEN (mp_method p) = true /\ mp_method p <> [];
  gp_from : good_na_params (mp_from p) = true /\ na_tag (mp_from p) <> [];
  gp_to : good_na_params (mp_to p) = true;
  gp_body : Z.of_nat (length (mp_body p)) <= INT_MAX
}.

(** A From or To reads as [x]. *)
Definition na_reads (m : mem) (x : na_text * list (list Z * pvalue)) (f : sip_from_to) : Prop :=
  chars m (na_name (ft_nameaddr f)) = na_text_name x.1 /\ chars m (na_addr (ft_nameaddr f)) = na_text_addr x.1 /\
  map (avp_text m) (na_params (ft_nameaddr f)) = map param_text x.2 /\ chars m (ft_tag f) = na_tag x.

(** A message reads as the headers [hs] with the parts [p]. *)
Record msg_reads (m : mem) (hs : list (list Z * list Z)) (p : msg_parts) (x : p_msg) : Prop := {
  mr_hdrs : map (hdr_view m) (hdrs (pm_hdrs x)) = map (fun h => (parse_header_type h.1, h.1, h.2)) hs;
  mr_vias : Forall2 (via_reads m) (mp_vias p) (pm_via x);
  mr_cseq : exists q, pm_cseq x = Some q /\ cq_num q = mp_cseq p /\ cq_method q = fst (parse_method (mp_method p)) /\
              chars m (cq_method_str q) = mp_method p;
  mr_from : exists f, pm_from x = Some f /\ na_reads m (mp_from p) f;
  mr_to : exists t, pm_to x = Some t /\ na_reads m (mp_to p) t;
  mr_callid : exists h, callid (pm_hdrs x) = Some h /\ chars m (value h) = mp_callid p;
  mr_rack : pm_rack x = if is_prack (pm_u x) then last (values_of H_RACK hs) ≫= parse_rack else None;
  mr_body : chars m (pm_body x) = mp_body p
}.

Lemma from_to_value m h x :
  good_na_params x = true -> holds m (s (value h)) (na_wr x) -> len (value h) = Z.of_nat (length (na_wr x)) ->
  exists f, parse_from_to m sip_from_to0 (s (value h)) (len (value h)) = Some (f, 0) /\ na_reads m x f.
Proof.
  destruct x as [t ps]. intros [Hg Hps]%andb_true_iff Hh Hl. rewrite Hl.
  destruct (from_to_read m (s (value h)) t ps Hg Hps Hh) as (f & E & H). exists f. split; [exact E|exact H].
Qed.

Lemma says_no_dup m a hs p : says hs p -> holds m a (hdr_lines hs) -> dup_hdr (hdrs_of a hs) = false.
Proof.
  intros H Hh. unfold dup_hdr. cbn [existsb]. rewrite !(values_count m _ a hs Hh).
  rewrite (sy_callid _ _ H), (sy_from _ _ H), (sy_to _ _ H), (sy_cseq _ _ H). by destruct (sy_cl _ _ H) as [-> | ->].
Qed.

(** The parts, given that the CSeq goes with the message and its RAck can be read. *)
Lemma msg_parts_read m junk u a hs p c :
  says hs p -> good_parts p -> holds m a (hdr_lines hs) -> holds m c (mp_body p) ->
  (forall q, cq_method q = fst (parse_method (mp_method p)) -> chars m (cq_method_str q) = mp_method p -> cseq_mismatch m u q = false) ->
  (is_prack u = true -> Forall (fun v => parse_rack v <> None) (values_of H_RACK hs)) ->
  exists x, parse_msg_parts m junk
      (mk_pmsg u (slots_of (is_prack u) (hdrs_of a hs)) (mk_cstr c (Z.of_nat (length (mp_body p)))) [] None None None None) = Some (x, 0, EmptyString) /\
    pm_u x = u /\ msg_reads m hs p x /\ pm_hdrs x = slots_of (is_prack u) (hdrs_of a hs).
Proof.
  intros Hs Hg Hh Hb Hmm Hrk.
  destruct (first_value m H_VIA a hs _ Hh (sy_via _ _ Hs)) as (hv & Ev & Hv & Lv).
  destruct (only_value m H_CSEQ a hs _ Hh (sy_cseq _ _ Hs)) as (hq & Eq & Hq & Lq).
  destruct (only_value m H_FROM a hs _ Hh (sy_from _ _ Hs)) as (hf & Ef & Hf & Lf).
  destruct (only_value m H_TO a hs _ Hh (sy_to _ _ Hs)) as (ht & Et & Ht & Lt).
  destruct (only_value m H_CALL_ID a hs _ Hh (sy_callid _ _ Hs)) as (hi & Ei & Hi & Li).
  destruct (gp_vias _ Hg) as [Hvne Hvg]. destruct (gp_method _ Hg) as [Hmt Hmne]. destruct (gp_from _ Hg) as [Hfg Htag].
  destruct (via_read m (s (value hv)) (mp_vias p) Hvne Hvg Hv) as (vs & Epv & Hvs).
  destruct (cseq_read m (s (value hq)) (mp_cseq p) (mp_method p) junk (gp_cseq _ Hg) Hmt Hmne Hq) as (q & Epq & Q1 & Q2 & Q3 & Q4).
  destruct (from_to_value m hf (mp_from p) Hfg Hf Lf) as (f & Epf & Hfr).
  destruct (from_to_value m ht (mp_to p) (gp_to _ Hg) Ht Lt) as (t & Ept & Htr).
  assert (Hnum : (len (cq_num_str q) =? 0) = false).
  { apply Z.eqb_neq. intros E. destruct (int2str_digits _ (gp_cseq _ Hg)) as (Hne & _). apply Hne. rewrite <- Q2. unfold chars. by rewrite E. }
  assert (Hmeth : (len (cq_method_str q) =? 0) = false).
  { apply Z.eqb_neq. intros E. apply Hmne. rewrite <- Q3. unfold chars. by rewrite E. }
  assert (Htagl : (len (ft_tag f) =? 0) = false).
  { apply Z.eqb_neq. intros E. apply Htag. destruct Hfr as (_ & _ & _ & <-). unfold chars. by rewrite E. }
  assert (Hne : match vs with [] => true | _ => false end = false).
  { apply Forall2_length in Hvs. destruct vs; [|done]. by destruct (mp_vias p). }
  unfold parse_msg_parts. cbn [pm_hdrs slots_of via1 cseq from to]. rewrite Ev, Eq, Ef, Et. cbn [last].
  rewrite Lv, Epv. cbn [Z.eqb negb orb]. rewrite Hne. rewrite Lq, Epq. cbn [Z.eqb negb orb]. rewrite Hnum, Hmeth. cbn [orb pm_u].
  rewrite (Hmm q Q4 Q3), Epf. cbn [Z.eqb negb]. rewrite Htagl, Ept. cbn [Z.eqb negb rack slots_of].
  set (hsl := slots_of (is_prack u) (hdrs_of a hs)).
  assert (Hx : forall k, k = (if is_prack u then last (values_of H_RACK hs) ≫= parse_rack else None) ->
    msg_reads m hs p (mk_pmsg u hsl (mk_cstr c (Z.of_nat (length (mp_body p)))) vs (Some q) (Some f) (Some t) k)).
  { intros k Hk. split; cbn [pm_u pm_hdrs pm_via pm_cseq pm_from pm_to pm_body pm_rack hsl slots_of hdrs callid].
    - by apply hdrs_of_view.
    - done.
    - exists q. by rewrite Q1, Q4, Q3.
    - by exists f.
    - by exists t.
    - exists hi. rewrite Ei. cbn [last]. split; [done|]. unfold chars. rewrite Li, Nat2Z.id. exact Hi.
    - done.
    - by apply chars_holds. }
  assert (Hlast : last (values_of H_RACK hs) = (fun h => chars m (value h)) <$> last (of_type H_RACK (hdrs_of a hs))).
  { rewrite <- (of_type_values m H_RACK a hs Hh). apply fmap_last. }
  destruct (is_prack u) eqn:Ep; [|eexists; split; [reflexivity|]; split; [done|split; [by apply Hx|done]]].
  destruct (last (of_type H_RACK (hdrs_of a hs))) as [hr|] eqn:Er; cbn [fmap option_fmap option_map] in Hlast.
  2: { eexists. split; [reflexivity|]. split; [done|]. split; [apply Hx; by rewrite Hlast|done]. }
  destruct (parse_rack (chars m (value hr))) as [k|] eqn:Ek.
  { eexists. split; [reflexivity|]. split; [done|]. split; [apply Hx; rewrite Hlast; cbn; by rewrite Ek|done]. }
  exfalso. specialize (Hrk eq_refl). rewrite <- (of_type_values m H_RACK a hs Hh) in Hrk. rewrite Forall_forall in Hrk.
  apply (Hrk (chars m (value hr))); [|done]. apply list_elem_of_In, in_map_iff. exists hr. split; [done|].
  apply last_Some in Er as [l' ->]. apply in_app_iff. right. by left.
Qed.

(** Behind a first line that was read. *)
Lemma msg_read m junk a u line hs p :
  let txt := line ++ hdr_lines hs ++ CRLF ++ mp_body p in
  parse_first_line m a (a + Z.of_nat (length txt)) = Some (u, a + Z.of_nat (length line), 0) ->
  says hs p -> good_parts p -> holds m a txt ->
  (forall q, cq_method q = fst (parse_method (mp_method p)) -> chars m (cq_method_str q) = mp_method p -> cseq_mismatch m u q = false) ->
  (is_prack u = true -> Forall (fun v => parse_rack v <> None) (values_of H_RACK hs)) ->
  exists x, parse_sip_msg m junk a (Z.of_nat (length txt)) = Some (x, 0, EmptyString) /\ pm_u x = u /\ msg_reads m hs p x /\
    pm_hdrs x = slots_of (is_prack u) (hdrs_of (a + Z.of_nat (length line)) hs).
Proof.
  intros txt Hfl Hs Hg Hh Hmm Hrk. unfold txt in Hh. apply holds_app in Hh as [_ Hh]. rewrite app_assoc in Hh.
  apply holds_app in Hh as [Hh Hb]. pose proof Hh as Hhl. apply holds_app in Hhl as [Hhl _].
  set (c1 := a + Z.of_nat (length line)) in *. set (H := hdr_lines hs ++ CRLF) in *.
  assert (Htxt : Z.of_nat (length txt) = Z.of_nat (length line) + Z.of_nat (length H) + Z.of_nat (length (mp_body p))).
  { unfold txt, H. rewrite !length_app. lia. }
  unfold parse_sip_msg. rewrite Hfl. cbn [Z.eqb negb].
  rewrite (msg_headers_read m u c1 _ hs (sy_good _ _ Hs) Hh) by (fold H; unfold c1; lia).
  rewrite (says_no_dup m c1 hs p Hs Hhl). cbn [Z.eqb negb]. fold H.
  replace (Z.of_nat (length txt) - (c1 + Z.of_nat (length H) - a)) with (Z.of_nat (length (mp_body p))) by (unfold c1; lia).
  rewrite (msg_body_read m (is_prack u) c1 hs _ (mp_body p) Hhl (gp_body _ Hg) (sy_cl _ _ Hs)).
  assert (missing_hdr (slots_of (is_prack u) (hdrs_of c1 hs)) = None) as ->.
  { unfold missing_hdr. cbn [slots_of via1 cseq from to callid].
    destruct (first_value m H_VIA c1 hs _ Hhl (sy_via _ _ Hs)) as (hv & -> & _).
    destruct (only_value m H_CSEQ c1 hs _ Hhl (sy_cseq _ _ Hs)) as (hq & -> & _).
    destruct (only_value m H_FROM c1 hs _ Hhl (sy_from _ _ Hs)) as (hf & -> & _).
    destruct (only_value m H_TO c1 hs _ Hhl (sy_to _ _ Hs)) as (ht & -> & _).
    by destruct (only_value m H_CALL_ID c1 hs _ Hhl (sy_callid _ _ Hs)) as (hi & -> & _). }
  by apply msg_parts_read.
Qed.

(** The text behind a line is not empty and starts with no NUL. *)
Lemma after_line m a line hs p :
  says hs p -> holds m a (line ++ hdr_lines hs ++ CRLF ++ mp_body p) ->
  a + Z.of_nat (length line) < a + Z.of_nat (length (line ++ hdr_lines hs ++ CRLF ++ mp_body p)) /\ m (a + Z.of_nat (length line)) <> 0.
Proof.
  intros Hs Hh. apply holds_app in Hh as [_ Hh]. rewrite app_assoc in Hh. apply holds_app in Hh as [Hh _].
  destruct (next_line_char m _ hs (sy_good _ _ Hs) Hh) as (H0 & _ & H2). split; [|done]. rewrite !length_app in *. lia.
Qed.

(** A request as it is written. *)
Lemma request_read m junk a (sips : bool) t hs p :
  let ruri := scheme_wr sips ++ uri_wr t in
  let txt := request_line (mp_method p) ruri ++ hdr_lines hs ++ CRLF ++ mp_body p in
  good_uri t = true -> forallb ruri_char ruri = true -> says hs p -> good_parts p -> holds m a txt ->
  (fst (parse_method (mp_method p)) = PRACK -> Forall (fun v => parse_rack v <> None) (values_of H_RACK hs)) ->
  exists x r, parse_sip_msg m junk a (Z.of_nat (length txt)) = Some (x, 0, EmptyString) /\ pm_u x = P_REQUEST r /\
    chars m (rq_method_str r) = mp_method p /\ rq_method r = fst (parse_method (mp_method p)) /\
    chars m (rq_ruri_str r) = ruri /\ scheme (rq_ruri r) = (if sips then SIPS else SIP) /\ view_uri m (rq_ruri r) = view_text t /\
    msg_reads m hs p x /\
    pm_hdrs x = slots_of (is_prack (pm_u x)) (hdrs_of (a + Z.of_nat (length (request_line (mp_method p) ruri))) hs).
Proof.
  intros ruri txt Hu Hru Hs Hg Hh Hrk. destruct (gp_method _ Hg) as [Hmt Hmne].
  destruct (after_line m a _ hs p Hs Hh) as [Hlt H0]. pose proof Hh as Hline. unfold txt in Hline. apply holds_app in Hline as [Hline _].
  pose proof Hline as Hl2. unfold request_line in Hl2. apply holds_app in Hl2 as [Hm1 Hl2]. apply holds_cons in Hl2 as [_ Hl2].
  apply holds_app in Hl2 as [Hr1 _].
  destruct (uri_read m t sips _ Hu Hr1) as (u & Eu & Hsch & Hview & _).
  pose proof (request_line_read m a (a + Z.of_nat (length txt)) (mp_method p) ruri u Hmt Hru Hline Hlt H0 Eu) as Hfl.
  set (r := mk_preq _ _ _ u) in Hfl.
  destruct (msg_read m junk a (P_REQUEST r) (request_line (mp_method p) ruri) hs p Hfl Hs Hg Hh) as (x & Ex & Eux & Hx & Hpos).
  - intros q Hq Hqs. unfold cseq_mismatch. cbn [r rq_method rq_method_str]. rewrite bool_decide_true by done. cbn [negb orb].
    rewrite (chars_holds _ _ _ Hm1), Hqs. unfold same. rewrite (bool_decide_true (mp_method p = mp_method p)) by done. by rewrite andb_false_r.
  - cbn [is_prack r rq_method]. rewrite bool_decide_eq_true. exact Hrk.
  - exists x, r. split; [exact Ex|]. split; [exact Eux|]. cbn [r rq_method_str rq_method rq_ruri_str rq_ruri].
    split; [by apply chars_holds|]. split; [done|]. split; [by apply chars_holds|]. split; [done|]. split; [done|]. split; [done|]. by rewrite Eux.
Qed.

(** A reply as it is written. *)
Lemma reply_read m junk a code reason hs p :
  let txt := status_line code reason ++ hdr_lines hs ++ CRLF ++ mp_body p in
  0 <= code <= 999 -> forallb text_char reason = true -> says hs p -> good_parts p -> holds m a txt ->
  exists x r, parse_sip_msg m junk a (Z.of_nat (length txt)) = Some (x, 0, EmptyString) /\ pm_u x = P_REPLY r /\
    rp_code r = code /\ chars m (rp_reason r) = reason /\ msg_reads m hs p x /\
    pm_hdrs x = slots_of (is_prack (pm_u x)) (hdrs_of (a + Z.of_nat (length (status_line code reason))) hs).
Proof.
  intros txt Hc Hr Hs Hg Hh. destruct (after_line m a _ hs p Hs Hh) as [Hlt H0].
  pose proof Hh as Hline. unfold txt in Hline. apply holds_app in Hline as [Hline _].
  destruct (status_line_read m a (a + Z.of_nat (length txt)) code reason Hc Hr Hline Hlt H0) as (r & Hfl & Hcode & Hreason).
  destruct (msg_read m junk a (P_REPLY r) (status_line code reason) hs p Hfl Hs Hg Hh) as (x & Ex & Eux & Hx & Hpos); [done|done|].
  exists x, r. by rewrite Eux.
Qed.

(** The RAck of a PRACK as it is written. *)
Definition rack_wr (rseq cseq : Z) (meth : list Z) : list Z := int2str rseq ++ [SP] ++ int2str cseq ++ [SP] ++ meth.

Lemma rack_read m hs p x rseq cseq meth :
  msg_reads m hs p x -> is_prack (pm_u x) = true -> last (values_of H_RACK hs) = Some (rack_wr rseq cseq meth) ->
  0 <= rseq <= UINT_MAX -> 0 <= cseq <= UINT_MAX -> forallb IS_TOKEN meth = true -> meth <> [] ->
  pm_rack x = Some (mk_prack rseq cseq (int2str cseq) (fst (parse_method meth)) meth).
Proof.
  intros Hx Hp Hv H1 H2 H3 H4. rewrite (mr_rack _ _ _ _ Hx), Hp, Hv. cbn. by apply rack_roundtrip.
Qed.

(** C6: a message as it is written, a first line, headers in any order (the mandatory ones once,
    any others among them), a blank line and a body, is read back by [parse_sip_msg] with
    code 0, part by part: of a request the method and the URI, of a reply the status code and
    the reason; every header with its type, text and position, and in each member of the
    message the header it stands for; the entries of the first Via, CSeq, From with its tag,
    To, Call-ID, of a PRACK the RAck, and the body. *)
Theorem message_roundtrip m junk a hs p :
  says hs p -> good_parts p ->
  (forall (sips : bool) t,
     let ruri := scheme_wr sips ++ uri_wr t in
     let line := request_line (mp_method p) ruri in
     let txt := line ++ hdr_lines hs ++ CRLF ++ mp_body p in
     good_uri t = true -> forallb ruri_char ruri = true -> holds m a txt ->
     (fst (parse_method (mp_method p)) = PRACK -> Forall (fun v => parse_rack v <> None) (values_of H_RACK hs)) ->
     exists x r, parse_sip_msg m junk a (Z.of_nat (length txt)) = Some (x, 0, EmptyString) /\ pm_u x = P_REQUEST r /\
       chars m (rq_method_str r) = mp_method p /\ rq_method r = fst (parse_method (mp_method p)) /\
       chars m (rq_ruri_str r) = ruri /\ scheme (rq_ruri r) = (if sips then SIPS else SIP) /\
       view_uri m (rq_ruri r) = view_text t /\ msg_reads m hs p x /\
       pm_hdrs x = slots_of (is_prack (pm_u x)) (hdrs_of (a + Z.of_nat (length line)) hs) /\
       (forall rseq cseq meth, rq_method r = PRACK -> last (values_of H_RACK hs) = Some (rack_wr rseq cseq meth) ->
          0 <= rseq <= UINT_MAX -> 0 <= cseq <= UINT_MAX -> forallb IS_TOKEN meth = true -> meth <> [] ->
          pm_rack x = Some (mk_prack rseq cseq (int2str cseq) (fst (parse_method meth)) meth))) /\
  (forall code reason,
     let line := status_line code reason in
     let txt := line ++ hdr_lines hs ++ CRLF ++ mp_body p in
     0 <= code <= 999 -> forallb text_char reason = true -> holds m a txt ->
     exists x r, parse_sip_msg m junk a (Z.of_nat (length txt)) = Some (x, 0, EmptyString) /\ pm_u x = P_REPLY r /\
       rp_code r = code /\ chars m (rp_reason r) = reason /\ msg_reads m hs p x /\
       pm_hdrs x = slots_of false (hdrs_of (a + Z.of_nat (length line)) hs)).
Proof.
  intros Hs Hg. split.
  - intros sips t ruri line txt Hu Hru Hh Hrk.
    destruct (request_read m junk a sips t hs p Hu Hru Hs Hg Hh Hrk) as (x & r & Ex & Eu & R1 & R2 & R3 & R4 & R5 & Hx & Hpos).
    exists x, r. do 8 (split; [done|]). split; [exact Hpos|]. intros rseq cseq meth Hm. apply (rack_read m hs p x); [done|].
    rewrite Eu. by apply bool_decide_eq_true_2.
  - intros code reason line txt Hc Hr Hh.
    destruct (reply_read m junk a code reason hs p Hc Hr Hs Hg Hh) as (x & r & Ex & Eu & R1 & R2 & Hx & Hpos).
    exists x, r. rewrite Eu in Hpos. done.
Qed.

Definition demo_parts : msg_parts :=
  mk_parts [mk_vt T_UDP (Plain (lit "a.com")) (Some 5060) [(lit "branch", Token (lit "z9hG4bK77")); (lit "rport", NoValue)]]
    1826 (lit "INVITE") (Angle NoName (lit "sip:al@a.com"), [(lit "tag", Token (lit "9fx"))])
    (Angle (Word (lit "Bob")) (lit "sip:bob@b.com"), []) (lit "8438@998s") (lit "v=0").

Definition demo_hdrs : list (list Z * list Z) :=
  [(lit "v", lit "SIP/2.0/UDP a.com:5060;branch=z9hG4bK77;rport"); (lit "X-Other", lit "1"); (lit "f", lit "<sip:al@a.com>;tag=9fx");
   (lit "To", lit "Bob <sip:bob@b.com>"); (lit "Call-ID", lit "8438@998s"); (lit "cseq", lit "1826 INVITE"); (lit "Content-Length", lit "3")].

Definition demo_ruri : uri_text := mk_ut (Some (lit "bob", None)) (Plain (lit "b.com")) None [] [].

Lemma message_roundtrip_witness :
  let line := request_line (lit "INVITE") (lit "sip:bob@b.com") in
  let txt := line ++ hdr_lines demo_hdrs ++ CRLF ++ lit "v=0" in
  exists x r, parse_sip_msg (mem_at 9 txt) OTHER_METHOD 9 (Z.of_nat (length txt)) = Some (x, 0, EmptyString) /\ pm_u x = P_REQUEST r /\
    chars (mem_at 9 txt) (rq_method_str r) = lit "INVITE" /\ msg_reads (mem_at 9 txt) demo_hdrs demo_parts x /\
    pm_hdrs x = slots_of (is_prack (pm_u x)) (hdrs_of (9 + Z.of_nat (length line)) demo_hdrs).
Proof.
  intros line txt.
  destruct (proj1 (message_roundtrip (mem_at 9 txt) OTHER_METHOD 9 demo_hdrs demo_parts
    ltac:(split; try (by vm_compute); right; by vm_compute)
    ltac:(split; try (by vm_compute); (split; by vm_compute))) false demo_ruri
    ltac:(by vm_compute) ltac:(by vm_compute) ltac:(by vm_compute) ltac:(done))
    as (x & r & H1 & H2 & H3 & _ & _ & _ & _ & H4 & H5 & _).
  exists x, r. split; [exact H1|]. split; [exact H2|]. split; [exact H3|]. split; [exact H4|exact H5].
Defined.

(** ** What is refused *)

Definition dup_values (hs : list (list Z * list Z)) : bool :=
  existsb (fun t => Nat.ltb 1 (length (values_of t hs))) [H_CALL_ID; H_CONTENT_LENGTH; H_FROM; H_TO; H_CSEQ].

Definition no_value (t : hdr_type) (hs : list (list Z * list Z)) : bool := Nat.eqb (length (values_of t hs)) 0.

Lemma missing_none m prack a hs :
  holds m a (hdr_lines hs) -> existsb (fun t => no_value t hs) [H_VIA; H_CSEQ; H_FROM; H_TO; H_CALL_ID] = true ->
  exists err, missing_hdr (slots_of prack (hdrs_of a hs)) = Some err.
Proof.
  intros Hh. unfold no_value, missing_hdr. cbn [slots_of via1 cseq from to callid existsb]. rewrite <- !(values_count m _ a hs Hh).
  assert (Hl : forall l : list sip_header, last l = None <-> length l = 0%nat) by (intros l; rewrite last_None; by destruct l).
  destruct (of_type H_VIA (hdrs_of a hs)) as [|hv lv]; [by eauto|]. cbn [head length Nat.eqb orb].
  destruct (last (of_type H_CSEQ _)) eqn:E1; [|by eauto]. destruct (last (of_type H_FROM _)) eqn:E2; [|by eauto].
  destruct (last (of_type H_TO _)) eqn:E3; [|by eauto]. destruct (last (of_type H_CALL_ID _)) eqn:E4; [|by eauto].
  rewrite orb_false_r, !orb_true_iff, !Nat.eqb_eq, <- !Hl, E1, E2, E3, E4. by intros [|[|[|]]].
Qed.

(** Behind a first line that is read, [parse_sip_msg] refuses a message with one of Call-ID,
    Content-Length, From, To and CSeq twice ([MALFORMED_SIP_MSG]), one whose Content-Length is
    more than the bytes there are ([MALFORMED_SIP_MSG]), and one without Via, CSeq, From, To or
    Call-ID ([INCOMPLETE_SIP_MSG]). *)
Theorem message_refused m junk a u line hs body :
  let txt := line ++ hdr_lines hs ++ CRLF ++ body in
  parse_first_line m a (a + Z.of_nat (length txt)) = Some (u, a + Z.of_nat (length line), 0) ->
  forallb good_hdr hs = true -> holds m a txt ->
  let result r err := exists x, parse_sip_msg m junk a (Z.of_nat (length txt)) = Some (x, r, err) in
  (dup_values hs = true -> result MALFORMED_SIP_MSG "Malformed headers"%string) /\
  (forall n, dup_values hs = false -> values_of H_CONTENT_LENGTH hs = [int2str n] -> Z.of_nat (length body) < n <= INT_MAX ->
     result MALFORMED_SIP_MSG "Content-Length exceeds available body data"%string) /\
  (dup_values hs = false -> values_of H_CONTENT_LENGTH hs = [int2str (Z.of_nat (length body))] -> Z.of_nat (length body) <= INT_MAX ->
     existsb (fun t => no_value t hs) [H_VIA; H_CSEQ; H_FROM; H_TO; H_CALL_ID] = true ->
     exists err, result INCOMPLETE_SIP_MSG err).
Proof.
  intros txt Hfl Hg Hh result. unfold txt in Hh. apply holds_app in Hh as [_ Hh]. rewrite app_assoc in Hh.
  apply holds_app in Hh as [Hh _]. pose proof Hh as Hhl. apply holds_app in Hhl as [Hhl _].
  set (c1 := a + Z.of_nat (length line)) in *. set (H := hdr_lines hs ++ CRLF) in *.
  assert (Htxt : Z.of_nat (length txt) = Z.of_nat (length line) + Z.of_nat (length H) + Z.of_nat (length body)).
  { unfold txt, H. rewrite !length_app. lia. }
  assert (Hd : dup_hdr (hdrs_of c1 hs) = dup_values hs).
  { unfold dup_hdr, dup_values. cbn [existsb]. by rewrite !(values_count m _ c1 hs Hhl). }
  pose proof (msg_headers_read m u c1 (a + Z.of_nat (length txt)) hs Hg Hh) as Hp. fold H in Hp. specialize (Hp ltac:(unfold c1; lia)).
  assert (Hav : Z.of_nat (length txt) - (c1 + Z.of_nat (length H) - a) = Z.of_nat (length body)) by (unfold c1; lia).
  assert (Hcl : forall prack v, values_of H_CONTENT_LENGTH hs = [v] -> exists h, content_length (slots_of prack (hdrs_of c1 hs)) = Some h /\ chars m (value h) = v).
  { intros prack v Hv. destruct (only_value m H_CONTENT_LENGTH c1 hs v Hhl Hv) as (h & E & Hvv & Hlen). exists h. cbn [slots_of content_length].
    rewrite E. split; [done|]. unfold chars. rewrite Hlen, Nat2Z.id. exact Hvv. }
  unfold result, parse_sip_msg. rewrite Hfl. cbn [Z.eqb negb]. rewrite Hp, Hd, Hav. split; [|split].
  - intros ->. by eexists.
  - intros n -> Hv Hn. cbn [Z.eqb negb]. unfold msg_body. destruct (Hcl (is_prack u) _ Hv) as (h & -> & ->).
    rewrite cl_value_read by lia. destruct (Z.gtb_spec n (Z.of_nat (length body))); [by eexists|lia].
  - intros -> Hv Hb Hm. cbn [Z.eqb negb]. rewrite (msg_body_read m (is_prack u) c1 hs _ body Hhl Hb (or_intror Hv)).
    destruct (missing_none m (is_prack u) c1 hs Hhl Hm) as (err & ->). by eexists _, _.
Qed.

Lemma message_refused_witness :
  let hs := [(lit "To", lit "<sip:a>"); (lit "t", lit "<sip:b>")] in
  let txt := status_line 200 (lit "OK") ++ hdr_lines hs ++ CRLF ++ [] in
  exists x, parse_sip_msg (mem_at 0 txt) OTHER_METHOD 0 (Z.of_nat (length txt)) = Some (x, MALFORMED_SIP_MSG, "Malformed headers"%string).
Proof.
  intros hs txt.
  apply (message_refused (mem_at 0 txt) OTHER_METHOD 0 (P_REPLY (mk_prep 200 (mk_cstr 12 2))) (status_line 200 (lit "OK")) hs []); by vm_compute.
Defined.
