(* ===== verification/MsgRoundtrip.v ===== *)
(** * Composed messages are read back

    The writers of [MsgHdrs] and the parser of [SipParser] together:
    [generate_and_parse_new_msg] (core/sip/trans_layer.cpp) composes the request for a
    destination and parses what it has composed; the property says that this succeeds and
    gives the message that was meant. *)

From Stdlib Require Import ZArith Lia Ascii String.
From stdpp Require Import base list.
From S2P Require Import Prelude SipMsg ParseCommon AmUtils SipHeader SipParserAsync TcpTrsp MsgHdrs ParseParams ParseCSeq ParseUri ParseVia ParseNameAddr SipParser.

Local Open Scope Z_scope.
Local Open Scope bool_scope.

Lemma request_line_same meth ruri : request_line_wr meth ruri = request_line meth ruri.
Proof. unfold request_line_wr, request_line. reflexivity. Qed.

Lemma status_line_same code reason : 0 <= code -> status_line_wr code reason = status_line code reason.
Proof.
  intros Hc. unfold status_line_wr, status_line, status_code_wr. rewrite Z.rem_mod_nonneg, !Z.quot_div_nonneg, Z.rem_mod_nonneg by (lia || apply Z.mod_pos_bound; lia).
  replace (code mod 100 / 10) with (code / 10 mod 10); [replace (code mod 100 mod 10) with (code mod 10); [reflexivity|]|].
  - change 100 with (10 * 10). rewrite Z.rem_mul_r by lia. rewrite Z.mul_comm, Z.mod_add by lia. by rewrite Z.mod_mod by lia.
  - change 100 with (10 * 10). rewrite Z.rem_mul_r by lia. rewrite Z.mul_comm, Z.div_add by lia. rewrite (Z.div_small (code mod 10)); [done|]. apply Z.mod_pos_bound. lia.
Qed.

Lemma values_of_app t l1 l2 : values_of t (l1 ++ l2) = values_of t l1 ++ values_of t l2.
Proof. unfold values_of. by rewrite List.filter_app, map_app. Qed.

Lemma values_of_one t (n v : list Z) : values_of t [(n, v)] = if bool_decide (parse_header_type n = t) then [v] else [].
Proof. unfold values_of. cbn [List.filter fst]. by destruct (bool_decide _). Qed.

(** The transport names as the sockets have them. *)
Definition trsp_lower (t : via_trsp) : list Z :=
  match t with T_UDP => lit "udp" | T_TCP => lit "tcp" | T_TLS => lit "tls" | T_SCTP => lit "sctp" end.

Lemma via_trsp_upper t : via_trsp_wr (trsp_lower t) = trsp_wr t.
Proof. by destruct t. Qed.

(** The top Via of a composed request. *)
Definition own_via (t : via_trsp) (h : host_text) (q : option Z) (br : list Z) : via_text :=
  mk_vt t h q [(lit "branch", Token (lit "z9hG4bK" ++ br)); (lit "rport", NoValue)].

Definition via_value (t : via_trsp) (h : host_text) (q : option Z) (br : list Z) : list Z :=
  lit "SIP/2.0/" ++ via_trsp_wr (trsp_lower t) ++ [SP] ++ (host_wr h ++ port_wr q) ++ lit ";branch=z9hG4bK" ++ br ++ lit ";rport".

Lemma own_via_wr t h q br : via_list_wr [own_via t h q br] = via_value t h q br.
Proof.
  unfold via_value, own_via. cbn [via_list_wr]. unfold via_text_wr. cbn [vt_trsp vt_host vt_port vt_params]. rewrite via_trsp_upper, <- !app_assoc.
  cbn [params_wr flat_map param_wr fst snd]. do 5 f_equal.
Qed.

(** What a composed request says: its own Via on top, its own Content-Length, and the rest as
    the headers it copies say it. *)
Lemma composed_says (others : list (list Z * list Z)) t h q br n meth f to id body :
  forallb good_hdr others = true -> good_hdr (lit "Via", via_value t h q br) = true ->
  values_of H_CSEQ others = [int2str n ++ [SP] ++ meth] -> values_of H_FROM others = [na_wr f] ->
  values_of H_TO others = [na_wr to] -> values_of H_CALL_ID others = [id] -> values_of H_CONTENT_LENGTH others = [] ->
  good_hdr (lit "Content-Length", int2str (Z.of_nat (length body))) = true ->
  says ((lit "Via", via_value t h q br) :: others ++ [(lit "Content-Length", int2str (Z.of_nat (length body)))])
    (mk_parts [own_via t h q br] n meth f to id body).
Proof.
  intros Hg Hv H1 H2 H3 H4 H5 Hc. set (cl := [(lit "Content-Length", _)]).
  assert (Hval : forall ty, ty <> H_VIA -> ty <> H_CONTENT_LENGTH -> values_of ty ((lit "Via", via_value t h q br) :: others ++ cl) = values_of ty others).
  { intros ty N1 N2. change (_ :: others ++ cl) with ([(lit "Via", via_value t h q br)] ++ others ++ cl). rewrite !values_of_app.
    unfold cl. rewrite !values_of_one. change (parse_header_type (lit "Via")) with H_VIA.
    change (parse_header_type (lit "Content-Length")) with H_CONTENT_LENGTH. rewrite !bool_decide_false by congruence. by rewrite app_nil_r. }
  split; cbn [mp_vias mp_cseq mp_method mp_from mp_to mp_callid mp_body]; rewrite ?Hval by done; try done.
  - cbn [forallb]. rewrite Hv. rewrite forallb_app, Hg. cbn [forallb cl]. by rewrite Hc.
  - rewrite own_via_wr. unfold values_of. cbn [List.filter fst]. change (parse_header_type (lit "Via")) with H_VIA.
    by rewrite bool_decide_true.
  - right. change (_ :: others ++ cl) with ([(lit "Via", via_value t h q br)] ++ others ++ cl). by rewrite !values_of_app, H5, !values_of_one.
Qed.

Lemma content_length_good n : 0 <= n -> good_hdr (lit "Content-Length", int2str n) = true.
Proof.
  intros Hn. destruct (int2str_all_digits n Hn) as [Hd Hne]. unfold good_hdr; cbn [fst snd]. apply andb_true_iff. split; [by vm_compute|].
  destruct (int2str n) as [|x l]; [done|]. cbn [good_value]. rewrite forallb_forall in Hd. apply andb_true_iff. split.
  - specialize (Hd x (or_introl eq_refl)). apply is_digit_range in Hd. unfold IS_WSP, SP, HTAB.
    by destruct (Z.eqb_spec 32 x), (Z.eqb_spec 9 x); try lia.
  - apply forallb_forall. intros y Hy. apply Hd, is_digit_range in Hy. unfold text_char, CR, LF.
    by destruct (Z.eqb_spec y 0), (Z.eqb_spec y 13), (Z.eqb_spec y 10); try lia.
Qed.

(** C7: [generate_and_parse_new_msg] parses what it has composed: the request for a destination,
    its line, its own Via (transport, address, a branch of its own, rport) on top of the
    copied headers, its own Content-Length and the body, is read with code 0 and gives back
    the method, the URI, every header and part, the top Via entry with the new branch. *)
Theorem new_request_parses m0 m junk a (sips : bool) uri t h q br vias hs contacts n meth f to id body :
  let ruri := scheme_wr sips ++ uri_wr uri in
  let others := map (hdr_text m0) vias ++ map (hdr_text m0) (List.filter (fun x => negb (is_via_contact x)) hs) ++ map (hdr_text m0) contacts in
  let txt := new_request_wr m0 meth ruri (trsp_lower t) (host_wr h ++ port_wr q) br vias hs contacts body in
  let p := mk_parts [own_via t h q br] n meth f to id body in
  good_uri uri = true -> forallb ruri_char ruri = true -> good_parts p ->
  forallb good_hdr others = true -> good_hdr (lit "Via", via_value t h q br) = true ->
  values_of H_CSEQ others = [int2str n ++ [SP] ++ meth] -> values_of H_FROM others = [na_wr f] ->
  values_of H_TO others = [na_wr to] -> values_of H_CALL_ID others = [id] -> values_of H_CONTENT_LENGTH others = [] ->
  (fst (parse_method meth) = PRACK -> Forall (fun v => parse_rack v <> None) (values_of H_RACK others)) ->
  holds m a txt ->
  exists x r v, parse_sip_msg m junk a (Z.of_nat (length txt)) = Some (x, 0, EmptyString) /\ pm_u x = P_REQUEST r /\
    chars m (rq_method_str r) = meth /\ chars m (rq_ruri_str r) = ruri /\ view_uri m (rq_ruri r) = view_text uri /\
    msg_reads m (new_request_hdrs m0 (trsp_lower t) (host_wr h ++ port_wr q) br vias hs contacts body) p x /\
    via_p1 x = Some v /\ chars m (branch v) = lit "z9hG4bK" ++ br /\ has_rport v = true.
Proof.
  intros ruri others txt p Hu Hru Hp Hg Hv H1 H2 H3 H4 H5 Hrk Hh.
  pose proof (composed_says others t h q br n meth f to id body Hg Hv H1 H2 H3 H4 H5 (content_length_good _ (Nat2Z.is_nonneg _))) as Hs.
  set (H := _ :: others ++ _) in Hs.
  assert (EH : new_request_hdrs m0 (trsp_lower t) (host_wr h ++ port_wr q) br vias hs contacts body = H).
  { unfold new_request_hdrs, H, others, via_value. by rewrite <- !app_assoc. }
  assert (Etxt : txt = request_line meth ruri ++ hdr_lines H ++ CRLF ++ body).
  { unfold txt. rewrite new_request_head, EH. unfold msg_head, request_line. rewrite <- !app_assoc. reflexivity. }
  rewrite EH, Etxt. rewrite Etxt in Hh.
  destruct (request_read m junk a sips uri H p Hu Hru Hs Hp Hh) as (x & r & Ex & Eu & R1 & R2 & R3 & R4 & R5 & Hx & _).
  { intros HM. specialize (Hrk HM). unfold H. change (_ :: others ++ _) with ([(lit "Via", via_value t h q br)] ++ others ++ [(lit "Content-Length", int2str (Z.of_nat (length body)))]).
    rewrite !values_of_app. by apply Forall_app; split; [constructor|apply Forall_app; split; [done|constructor]]. }
  pose proof (mr_vias _ _ _ _ Hx) as Hvs. cbn [p mp_vias] in Hvs.
  destruct (pm_via x) as [|v vs] eqn:Ev; [by apply Forall2_cons_nil_inv in Hvs|]. apply Forall2_cons in Hvs as [Hr _].
  exists x, r, v. repeat (split; [done|]). split; [unfold via_p1; by rewrite Ev|]. split.
  - rewrite (vr_branch _ _ _ Hr). done.
  - rewrite (vr_has_rport _ _ _ Hr). done.
Qed.

(** The headers of a request, one after the other from position 0. *)
Definition demo_hdrs_mem : list (list Z * list Z) :=
  [(lit "From", lit "<sip:al@a.com>;tag=9fx"); (lit "To", lit "<sip:bob@b.com>");
   (lit "Call-ID", lit "8438@998s"); (lit "CSeq", lit "7 BYE"); (lit "Max-Forwards", lit "70")].

Lemma new_request_parses_witness :
  let m0 := mem_at 0 (hdr_lines demo_hdrs_mem) in
  let f := (Angle NoName (lit "sip:al@a.com"), [(lit "tag", Token (lit "9fx"))]) in
  let to := (Angle NoName (lit "sip:bob@b.com"), []) in
  let txt := new_request_wr m0 (lit "BYE") (lit "sip:bob@b.com") (lit "tcp") (lit "10.0.0.1:5060") (lit "abc") [] (hdrs_of 0 demo_hdrs_mem) [] (lit "x") in
  exists x r v, parse_sip_msg (mem_at 3 txt) OTHER_METHOD 3 (Z.of_nat (length txt)) = Some (x, 0, EmptyString) /\ pm_u x = P_REQUEST r /\
    chars (mem_at 3 txt) (rq_method_str r) = lit "BYE" /\ chars (mem_at 3 txt) (rq_ruri_str r) = lit "sip:bob@b.com" /\
    view_uri (mem_at 3 txt) (rq_ruri r) = view_text demo_ruri /\
    msg_reads (mem_at 3 txt) (new_request_hdrs m0 (lit "tcp") (lit "10.0.0.1:5060") (lit "abc") [] (hdrs_of 0 demo_hdrs_mem) [] (lit "x"))
      (mk_parts [own_via T_TCP (Plain (lit "10.0.0.1")) (Some 5060) (lit "abc")] 7 (lit "BYE") f to (lit "8438@998s") (lit "x")) x /\
    via_p1 x = Some v /\ chars (mem_at 3 txt) (branch v) = lit "z9hG4bKabc" /\ has_rport v = true.
Proof.
  intros m0 f to txt.
  apply (new_request_parses m0 (mem_at 3 txt) OTHER_METHOD 3 false demo_ruri T_TCP (Plain (lit "10.0.0.1")) (Some 5060) (lit "abc") []
           (hdrs_of 0 demo_hdrs_mem) [] 7 (lit "BYE") f to (lit "8438@998s") (lit "x")).
  - by vm_compute.
  - by vm_compute.
  - split; try (by vm_compute); (split; by vm_compute).
  - by vm_compute.
  - by vm_compute.
  - by vm_compute.
  - by vm_compute.
  - by vm_compute.
  - by vm_compute.
  - by vm_compute.
  - intros H. by vm_compute in H.
  - by vm_compute.
Defined.
