(* ===== verification/ParseExtensions.v ===== *)
(** * Option tags

    Model of core/sip/parse_extensions.cpp: [parse_extensions], the mask of known option
    tags in a Supported or Require header, and the registry of supported extensions with
    [get_unsupported_extensions], what a 420 reply lists (RFC 3261 8.2.2.3).  The
    properties: the mask and the list are those of the tags the header spells out; what a
    malformed Require gives. *)

From Stdlib Require Import ZArith Lia Ascii String.
From stdpp Require Import base list.
From S2P Require Import Prelude ParseCommon ParseCSeq.

Local Open Scope Z_scope.
Local Open Scope bool_scope.

(** ** The mask *)

Definition SIP_EXTENSION_100REL : Z := 1.
Definition SIP_EXTENSION_TIMER : Z := 2.
Definition SIP_EXTENSION_REPLACES : Z := 4.

Definition parse_extension (l : list Z) : Z :=
  if same l (lit "100rel") then SIP_EXTENSION_100REL
  else if same l (lit "timer") then SIP_EXTENSION_TIMER
  else if same l (lit "replaces") then SIP_EXTENSION_REPLACES
  else 0.

(** What separates option tags. *)
Definition is_delim (c : Z) : bool := inb c [32; 9; 44; CR; LF].

(** The loop: [tag] is the text from [begin] on while [state == OVER_TAG].  The mask, [None]
    when it returns false. *)
Fixpoint extensions_loop (l : list Z) (tag : option (list Z)) (mask : Z) : option Z :=
  match l with
  | [] => Some (match tag with Some t => Z.lor mask (parse_extension t) | None => mask end)
  | c :: l =>
      if is_delim c then
        extensions_loop l None (match tag with Some t => Z.lor mask (parse_extension t) | None => mask end)
      else if negb (IS_TOKEN c) then None
      else extensions_loop l (Some (match tag with Some t => t ++ [c] | None => [c] end)) mask
  end.

Definition parse_extensions (l : list Z) : option Z := extensions_loop l None 0.

(** ** The registry: a [std::set<string>], in order and without duplicates *)

Fixpoint str_lt (l r : list Z) : bool :=
  match l, r with
  | _, [] => false
  | [], _ :: _ => true
  | a :: l, b :: r => if a =? b then str_lt l r else a <? b
  end.

Fixpoint register_supported_extension (tag : list Z) (reg : list (list Z)) : list (list Z) :=
  match reg with
  | [] => [tag]
  | x :: reg' =>
      if str_lt tag x then tag :: reg
      else if str_lt x tag then x :: register_supported_extension tag reg'
      else reg
  end.

Definition is_extension_supported (reg : list (list Z)) (tag : list Z) : bool := existsb (same tag) reg.

(** [if(!res.empty()) res += ", "; res += x] *)
Definition append_tag (res x : list Z) : list Z := (match res with [] => [] | _ => res ++ lit ", " end) ++ x.

Definition get_supported_extensions (reg : list (list Z)) : list Z := fold_left append_tag reg [].

(** [while(tag_end > tag_start && blank before tag_end) tag_end--], on the reversed tag *)
Fixpoint trim_rev (l : list Z) : list Z :=
  match l with
  | c :: l' => if (c =? 32) || (c =? 9) then trim_rev l' else l
  | [] => []
  end.

(** A tag ends. *)
Definition end_tag (reg : list (list Z)) (tag : option (list Z)) (unsupported : list Z) : list Z :=
  match tag with
  | None => unsupported
  | Some t =>
      let t := rev (trim_rev (rev t)) in
      if negb (Nat.eqb (length t) 0) && negb (is_extension_supported reg t) then append_tag unsupported t else unsupported
  end.

Fixpoint unsupported_loop (reg : list (list Z)) (l : list Z) (tag : option (list Z)) (unsupported : list Z) : list Z :=
  match l with
  | [] => end_tag reg tag unsupported
  | c :: l =>
      if is_delim c then unsupported_loop reg l None (end_tag reg tag unsupported)
      else if negb (IS_TOKEN c) then []
      else unsupported_loop reg l (Some (match tag with Some t => t ++ [c] | None => [c] end)) unsupported
  end.

Definition get_unsupported_extensions (reg : list (list Z)) (l : list Z) : list Z := unsupported_loop reg l None [].

(** ** Tags as they are written *)

Definition good_tag (t : list Z) : bool := negb (Nat.eqb (length t) 0) && forallb IS_TOKEN t.

Lemma token_not_delim c : IS_TOKEN c = true -> is_delim c = false.
Proof.
  intros H. destruct (is_delim c) eqn:E; [|done]. unfold is_delim, inb in E. apply existsb_exists in E as (x & Hx & ->%Z.eqb_eq).
  by repeat (destruct Hx as [<-|Hx]; [by vm_compute in H|]).
Qed.

(** The header as the tags with ", " between them. *)
Fixpoint join (ts : list (list Z)) : list Z :=
  match ts with
  | [] => []
  | [t] => t
  | t :: ts => t ++ lit ", " ++ join ts
  end.

Lemma extensions_tag t r tag mask :
  forallb IS_TOKEN t = true -> t <> [] \/ tag <> None ->
  extensions_loop (t ++ r) tag mask = extensions_loop r (Some (default [] tag ++ t)) mask.
Proof.
  revert tag; induction t as [|c t IH]; intros tag Ht Hne; cbn [app].
  { destruct tag as [x|]; [|by destruct Hne]. cbn [default from_option id]. by rewrite app_nil_r. }
  cbn [forallb extensions_loop] in *. apply andb_true_iff in Ht as [Hc Ht]. rewrite (token_not_delim c Hc), Hc. cbn [negb].
  rewrite IH by auto. destruct tag as [x|]; cbn [default from_option id]; [by rewrite <- app_assoc|done].
Qed.

Lemma unsupported_tag reg t r tag u :
  forallb IS_TOKEN t = true -> t <> [] \/ tag <> None ->
  unsupported_loop reg (t ++ r) tag u = unsupported_loop reg r (Some (default [] tag ++ t)) u.
Proof.
  revert tag; induction t as [|c t IH]; intros tag Ht Hne; cbn [app].
  { destruct tag as [x|]; [|by destruct Hne]. cbn [default from_option id]. by rewrite app_nil_r. }
  cbn [forallb unsupported_loop] in *. apply andb_true_iff in Ht as [Hc Ht]. rewrite (token_not_delim c Hc), Hc. cbn [negb].
  rewrite IH by auto. destruct tag as [x|]; cbn [default from_option id]; [by rewrite <- app_assoc|done].
Qed.

(** A tag has nothing to trim. *)
Lemma end_tag_good reg t u :
  good_tag t = true -> end_tag reg (Some t) u = if is_extension_supported reg t then u else append_tag u t.
Proof.
  intros [Hn Ht]%andb_true_iff. unfold end_tag.
  assert (trim_rev (rev t) = rev t) as ->.
  { destruct (rev t) as [|c l] eqn:E; [done|]. cbn [trim_rev].
    assert (IS_TOKEN c = true) as Hc. { rewrite forallb_forall in Ht. apply Ht. apply in_rev. rewrite E. by left. }
    destruct (token_not_ws c Hc) as (_ & _ & E3 & E4). unfold SP, HTAB in *. by rewrite E3, E4. }
  rewrite rev_involutive, Hn. by destruct (is_extension_supported reg t).
Qed.

Lemma str_lt_total a b : str_lt a b = false -> str_lt b a = false -> a = b.
Proof.
  revert b; induction a as [|x a IH]; intros [|y b]; cbn [str_lt]; try done.
  destruct (Z.eqb_spec x y) as [->|Hne]; [rewrite Z.eqb_refl; intros; f_equal; auto|].
  destruct (Z.eqb_spec y x); [congruence|]. intros ?%Z.ltb_ge ?%Z.ltb_ge. lia.
Qed.

Lemma registered tag reg x :
  is_extension_supported (register_supported_extension tag reg) x = same x tag || is_extension_supported reg x.
Proof.
  unfold is_extension_supported. induction reg as [|y reg IH]; [done|]. cbn [register_supported_extension].
  destruct (str_lt tag y) eqn:E1; [done|]. destruct (str_lt y tag) eqn:E2.
  - cbn [existsb]. rewrite IH. by destruct (same x y), (same x tag).
  - rewrite (str_lt_total tag y E1 E2). cbn [existsb]. by destruct (same x y).
Qed.

Lemma registered_all rs x : is_extension_supported (fold_right register_supported_extension [] rs) x = existsb (same x) rs.
Proof. induction rs as [|t rs IH]; [done|]. cbn [fold_right existsb]. by rewrite registered, IH. Qed.

Lemma good_tag_parts t : good_tag t = true -> forallb IS_TOKEN t = true /\ t <> [].
Proof. unfold good_tag. intros [Hn Ht]%andb_true_iff. split; [done|]. by destruct t. Qed.

(** Of a header that lists option tags, the tags that are no registered extension are
    listed, in their order and separated by ", ", so the list is empty exactly when all are
    supported; and the mask has the bits of the known tags. *)
Theorem extensions_listed rs ts :
  forallb good_tag ts = true ->
  get_unsupported_extensions (fold_right register_supported_extension [] rs) (join ts)
    = fold_left append_tag (List.filter (fun t => negb (existsb (same t) rs)) ts) [] /\
  parse_extensions (join ts) = Some (fold_left (fun m t => Z.lor m (parse_extension t)) ts 0).
Proof.
  intros Hg. set (reg := fold_right register_supported_extension [] rs).
  assert (H1 : forall ts u, forallb good_tag ts = true -> unsupported_loop reg (join ts) None u =
    fold_left append_tag (List.filter (fun t => negb (existsb (same t) rs)) ts) u).
  { clear ts Hg. induction ts as [|t [|t2 ts] IH]; intros u Hg; [done| |]; cbn [forallb] in Hg; apply andb_true_iff in Hg as [Ht Hg];
      destruct (good_tag_parts t Ht) as [Htok Hne].
    - cbn [join]. rewrite <- (app_nil_r t) at 1. rewrite unsupported_tag by auto. cbn [unsupported_loop default app List.filter].
      rewrite end_tag_good by done. unfold reg. rewrite registered_all. by destruct (existsb (same t) rs).
    - change (join (t :: t2 :: ts)) with (t ++ lit ", " ++ join (t2 :: ts)). rewrite unsupported_tag by auto.
      change (unsupported_loop reg (join (t2 :: ts)) None (end_tag reg (Some t) u) = fold_left append_tag (List.filter (fun t => negb (existsb (same t) rs)) (t :: t2 :: ts)) u).
      rewrite IH by done. rewrite end_tag_good by done. unfold reg. rewrite registered_all. cbn [List.filter]. by destruct (existsb (same t) rs). }
  assert (H2 : forall ts k, forallb good_tag ts = true -> extensions_loop (join ts) None k = Some (fold_left (fun m t => Z.lor m (parse_extension t)) ts k)).
  { clear ts Hg H1. induction ts as [|t [|t2 ts] IH]; intros k Hg; [done| |]; cbn [forallb] in Hg; apply andb_true_iff in Hg as [Ht Hg];
      destruct (good_tag_parts t Ht) as [Htok Hne].
    - cbn [join]. rewrite <- (app_nil_r t) at 1. by rewrite extensions_tag by auto.
    - change (join (t :: t2 :: ts)) with (t ++ lit ", " ++ join (t2 :: ts)). rewrite extensions_tag by auto.
      change (extensions_loop (join (t2 :: ts)) None (Z.lor k (parse_extension t)) = Some (fold_left (fun m t => Z.lor m (parse_extension t)) (t :: t2 :: ts) k)).
      by rewrite IH. }
  split; [by apply H1|by apply H2].
Qed.

Lemma extensions_listed_witness :
  get_unsupported_extensions (fold_right register_supported_extension [] [lit "timer"; lit "100rel"]) (lit "foo, 100rel, bar") = lit "foo, bar" /\
  parse_extensions (lit "foo, 100rel, bar") = Some 1.
Proof. apply (extensions_listed [lit "timer"; lit "100rel"] [lit "foo"; lit "100rel"; lit "bar"]). by vm_compute. Defined.

(** A Require with a character that is neither of a token nor a separator gives the empty
    string, which is what a Require with only supported tags gives. *)
Theorem malformed_require_accepted reg l c r :
  forallb (fun x => IS_TOKEN x || is_delim x) l = true -> is_delim c = false -> IS_TOKEN c = false ->
  get_unsupported_extensions reg (l ++ c :: r) = [].
Proof.
  intros Hl Hd Ht. unfold get_unsupported_extensions. generalize (@None (list Z)) as tag. generalize (@nil Z) at 1 as u.
  induction l as [|x l IH]; intros u tag; cbn [app unsupported_loop]; [by rewrite Hd, Ht|].
  cbn [forallb] in Hl. apply andb_true_iff in Hl as [Hx Hl].
  destruct (is_delim x) eqn:E; [by apply IH|]. rewrite orb_false_r in Hx. rewrite Hx. cbn [negb]. by apply IH.
Qed.
