(* ===== verification/SampleArray.v ===== *)
(** * The timed array of samples

    Model of core/SampleArray.h and SampleArray.cc: a ring of 2^14 samples that is written
    and read at 32-bit time stamps, as the playout buffer and the mixers use it.

    The ring is a function from indices to samples; [memcpy] and [memset] fail outside of
    it.  The specification is a time line without end: a sample for every point of an
    unbounded time, of which the last 2^14 before the end of the data are kept. *)

From Stdlib Require Import ZArith Lia.
From stdpp Require Import base list.
From S2P Require Import Prelude.

Local Open Scope Z_scope.
Local Open Scope bool_scope.

(** ** The code *)

Definition SIZE_MIX_BUFFER : Z := 16384.

(** [ts_less::operator()]: the difference is taken in 32 bits. *)
Definition ts_less (l r : Z) : bool := 2147483648 <? u32 (l - r).

Record sample_array := mk_sa { samples : Z -> Z; last_ts : Z; sa_init : bool }.

Definition zeros (n : Z) : list Z := repeat 0 (Z.to_nat n).

(** [memcpy(samples+off,l,...)]; [None] when it leaves the array. *)
Definition store_at (a : Z -> Z) (off : Z) (l : list Z) : option (Z -> Z) :=
  if (0 <=? off) && (off + Z.of_nat (length l) <=? SIZE_MIX_BUFFER)
  then Some (fun i => if (off <=? i) && (i <? off + Z.of_nat (length l))
                      then nth (Z.to_nat (i - off)) l 0 else a i)
  else None.

(** [memcpy(buffer,samples+off,n)] *)
Definition load_at (a : Z -> Z) (off n : Z) : option (list Z) :=
  if (0 <=? off) && (0 <=? n) && (off + n <=? SIZE_MIX_BUFFER)
  then Some (map (fun i => a (off + Z.of_nat i)) (seq 0 (Z.to_nat n))) else None.

Definition set_samples (a : Z -> Z) (s : sample_array) : sample_array := mk_sa a (last_ts s) (sa_init s).

Definition set_last_ts (t : Z) (s : sample_array) : sample_array := mk_sa (samples s) t (sa_init s).

Definition clear_all (s : sample_array) : sample_array := set_samples (fun _ => 0) s.

Definition off_of (ts : Z) : Z := Z.land ts (SIZE_MIX_BUFFER - 1).

Definition clear (start_ts end_ts : Z) (s : sample_array) : option sample_array :=
  if u32 (end_ts - start_ts) >=? SIZE_MIX_BUFFER then Some (clear_all s)
  else
    let start_off := off_of start_ts in
    let end_off := off_of end_ts in
    if start_off <? end_off then
      a ← store_at (samples s) start_off (zeros (end_off - start_off)); Some (set_samples a s)
    else
      a ← store_at (samples s) start_off (zeros (SIZE_MIX_BUFFER - start_off));
      a ← store_at a 0 (zeros end_off); Some (set_samples a s).

Definition write (ts : Z) (buffer : list Z) (s : sample_array) : option sample_array :=
  let off := off_of ts in
  let size := Z.of_nat (length buffer) in
  if off + size <=? SIZE_MIX_BUFFER then
    a ← store_at (samples s) off buffer; Some (set_samples a s)
  else
    let n := Z.to_nat (SIZE_MIX_BUFFER - off) in
    a ← store_at (samples s) off (take n buffer);
    a ← store_at a 0 (drop n buffer); Some (set_samples a s).

Definition read (ts size : Z) (s : sample_array) : option (list Z) :=
  let off := off_of ts in
  if off + size <=? SIZE_MIX_BUFFER then load_at (samples s) off size
  else
    let n := SIZE_MIX_BUFFER - off in
    l1 ← load_at (samples s) off n;
    l2 ← load_at (samples s) 0 (size - n); Some (l1 ++ l2).

Definition put (ts : Z) (buffer : list Z) (s : sample_array) : option sample_array :=
  let s := if sa_init s then s else mk_sa (fun _ => 0) ts true in
  if ts_less ts (u32 (last_ts s - SIZE_MIX_BUFFER)) then Some s
  else
    s ← (if ts_less (last_ts s) ts then clear (last_ts s) ts s else Some s);
    s ← write ts buffer s;
    let e := u32 (ts + Z.of_nat (length buffer)) in
    Some (if ts_less (last_ts s) e then set_last_ts e s else s).

Definition get (ts size : Z) (s : sample_array) : option (list Z) :=
  let e := u32 (ts + size) in
  if negb (sa_init s) || negb (ts_less ts (last_ts s)) ||
     negb (ts_less (u32 (last_ts s - SIZE_MIX_BUFFER)) e)
  then Some (zeros size)
  else if ts_less ts (u32 (last_ts s - SIZE_MIX_BUFFER)) then
    let n := u32 (last_ts s - SIZE_MIX_BUFFER - ts) in
    l ← read (u32 (ts + n)) (u32 (size - n)) s; Some (zeros n ++ l)
  else if ts_less (last_ts s) e then
    let n := u32 (last_ts s - ts) in
    l ← read ts n s; Some (l ++ zeros (u32 (size - n)))
  else read ts size s.

(** ** The specification: a time line *)

(** The samples of all times, and the end of the data; nothing before the first [put]. *)
Record time_line := mk_line { sample_at : Z -> Z; line_end : Z }.

Definition tl_put (T : Z) (buf : list Z) (l : time_line) : time_line :=
  if T <? line_end l - SIZE_MIX_BUFFER then l
  else mk_line (fun t => if (T <=? t) && (t <? T + Z.of_nat (length buf)) then nth (Z.to_nat (t - T)) buf 0
                         else if (line_end l <=? t) && (t <? T) then 0 else sample_at l t)
               (Z.max (line_end l) (T + Z.of_nat (length buf))).

(** What is heard at time [t]: the data kept, silence before and behind it. *)
Definition tl_sample (l : time_line) (t : Z) : Z :=
  if (line_end l - SIZE_MIX_BUFFER <=? t) && (t <? line_end l) then sample_at l t else 0.

(** The [n] values of [f] from [a] on. *)
Definition span {A} (f : Z -> A) (a n : Z) : list A := map (fun i => f (a + Z.of_nat i)) (seq 0 (Z.to_nat n)).

Definition tl_get (T n : Z) (l : time_line) : list Z := span (tl_sample l) T n.

Definition line0 (T : Z) : time_line := mk_line (fun _ => 0) T.

Definition represents (s : sample_array) (l : time_line) : Prop :=
  sa_init s = true /\ last_ts s = u32 (line_end l) /\
  forall t, line_end l - SIZE_MIX_BUFFER <= t < line_end l ->
    samples s (t mod SIZE_MIX_BUFFER) = sample_at l t.

(** Times far less than half the range of the time stamps apart. *)
Definition near (a b : Z) : Prop := Z.abs (a - b) < 2147483648 - 4 * SIZE_MIX_BUFFER.

(** ** Time stamps and offsets *)

Lemma u32_sub a b : u32 (u32 a - u32 b) = u32 (a - b).
Proof. unfold u32. rewrite <- Zminus_mod. done. Qed.

Lemma u32_sub_l a b : u32 (u32 a - b) = u32 (a - b).
Proof. unfold u32. rewrite Zminus_mod_idemp_l. done. Qed.

Lemma u32_sub_r a b : u32 (a - u32 b) = u32 (a - b).
Proof. unfold u32. rewrite Zminus_mod_idemp_r. done. Qed.

Lemma u32_add_l a b : u32 (u32 a + b) = u32 (a + b).
Proof. unfold u32. rewrite Zplus_mod_idemp_l. done. Qed.

(** Within half the range [ts_less] orders the times the stamps stand for. *)
Lemma ts_less_time a b : Z.abs (a - b) <= 2147483648 -> a - b <> - 2147483648 -> ts_less (u32 a) (u32 b) = (a <? b).
Proof.
  intros Hd Hn. unfold ts_less. rewrite u32_sub. destruct (Z.ltb_spec a b).
  - rewrite u32_below by (unfold u32_mod; lia). unfold u32_mod. apply Z.ltb_lt. lia.
  - rewrite u32_small by (unfold is_u32, u32_mod; lia). apply Z.ltb_ge. lia.
Qed.

Lemma off_of_time t : off_of (u32 t) = t mod SIZE_MIX_BUFFER.
Proof.
  unfold off_of, SIZE_MIX_BUFFER. change (16384 - 1) with (Z.ones 14). rewrite Z.land_ones by lia.
  change (2 ^ 14) with 16384. unfold u32, u32_mod.
  change 4294967296 with (16384 * 262144). rewrite Z.rem_mul_r, Z.mul_comm, Z.mod_add by lia.
  apply Z.mod_mod. lia.
Qed.

(** The index of a time [d] after [t], as the code wraps it. *)
Lemma ring_index t d : 0 <= d < SIZE_MIX_BUFFER ->
  (t + d) mod SIZE_MIX_BUFFER =
  if t mod SIZE_MIX_BUFFER + d <? SIZE_MIX_BUFFER then t mod SIZE_MIX_BUFFER + d
  else t mod SIZE_MIX_BUFFER + d - SIZE_MIX_BUFFER.
Proof.
  intros Hd. unfold SIZE_MIX_BUFFER in *. rewrite <- (Zplus_mod_idemp_l t d).
  pose proof (Z.mod_pos_bound t 16384 ltac:(lia)). destruct (Z.ltb_spec (t mod 16384 + d) 16384).
  - apply Z.mod_small. lia.
  - rewrite <- (Z.mod_add _ (-1)) by lia. apply Z.mod_small. lia.
Qed.

(** ** The ring operations on times *)

(** [f] from [t] on for [n] times, the old contents elsewhere in the ring. *)
Definition overwrites (s s' : sample_array) (t n : Z) (f : Z -> Z) : Prop :=
  sa_init s' = sa_init s /\ last_ts s' = last_ts s /\
  forall d, 0 <= d < SIZE_MIX_BUFFER ->
    samples s' ((t + d) mod SIZE_MIX_BUFFER) =
    if d <? n then f d else samples s ((t + d) mod SIZE_MIX_BUFFER).

Ltac bools := repeat match goal with
  | |- context [?a <=? ?b] => destruct (Z.leb_spec a b)
  | |- context [?a <? ?b] => destruct (Z.ltb_spec a b)
  end; cbn [andb orb negb].

Lemma nth_zeros i n : nth i (zeros n) 0 = 0.
Proof. apply nth_repeat. Qed.

Lemma length_zeros n : 0 <= n -> Z.of_nat (length (zeros n)) = n.
Proof. intros. unfold zeros. rewrite repeat_length. lia. Qed.

(** A store inside of the ring. *)
Definition stored (a : Z -> Z) (off : Z) (l : list Z) (i : Z) : Z :=
  if (off <=? i) && (i <? off + Z.of_nat (length l)) then nth (Z.to_nat (i - off)) l 0 else a i.

Lemma store_at_ok a off l : 0 <= off -> off + Z.of_nat (length l) <= SIZE_MIX_BUFFER ->
  store_at a off l = Some (stored a off l).
Proof. intros. unfold store_at. rewrite (proj2 (Z.leb_le 0 off)), (proj2 (Z.leb_le _ _)) by done. done. Qed.

Lemma mod_ring t : 0 <= t mod SIZE_MIX_BUFFER < SIZE_MIX_BUFFER.
Proof. apply Z.mod_pos_bound. unfold SIZE_MIX_BUFFER. lia. Qed.

Lemma write_time t buf s : Z.of_nat (length buf) <= SIZE_MIX_BUFFER ->
  exists s', write (u32 t) buf s = Some s' /\
    overwrites s s' t (Z.of_nat (length buf)) (fun d => nth (Z.to_nat d) buf 0).
Proof.
  intros Hn. unfold write. rewrite off_of_time. pose proof (mod_ring t) as Ho.
  remember (t mod SIZE_MIX_BUFFER) as o eqn:Eo. destruct (Z.leb_spec (o + Z.of_nat (length buf)) SIZE_MIX_BUFFER).
  - rewrite store_at_ok by lia. eexists. split; [done|]. split; [done|]. split; [done|]. intros d Hd.
    cbn [set_samples samples]. unfold stored. rewrite ring_index, <- Eo by done.
    bools; try lia; try done; f_equal; lia.
  - assert (Hl := length_take buf (Z.to_nat (SIZE_MIX_BUFFER - o))).
    assert (Hl2 := length_drop buf (Z.to_nat (SIZE_MIX_BUFFER - o))).
    rewrite store_at_ok by lia. cbn [mbind option_bind]. rewrite store_at_ok by lia.
    eexists. split; [done|]. split; [done|]. split; [done|]. intros d Hd.
    cbn [set_samples samples]. unfold stored. rewrite ring_index, <- Eo by done.
    bools; try lia; try done; rewrite ?nth_lookup, ?lookup_drop, ?lookup_take_lt by lia; f_equal; f_equal; lia.
Qed.

Lemma clear_time t n s : 0 < n < 2147483648 ->
  exists s', clear (u32 t) (u32 (t + n)) s = Some s' /\ overwrites s s' t n (fun _ => 0).
Proof.
  intros Hn. unfold clear. rewrite u32_sub, u32_small by (unfold is_u32, u32_mod; lia).
  replace (t + n - t) with n by lia. rewrite Z.geb_leb. destruct (Z.leb_spec SIZE_MIX_BUFFER n).
  - eexists. split; [done|]. split; [done|]. split; [done|]. intros d Hd. cbn. bools; [done|lia].
  - rewrite !off_of_time, (ring_index t n) by lia. pose proof (mod_ring t) as Ho.
    remember (t mod SIZE_MIX_BUFFER) as o eqn:Eo.
    destruct (Z.ltb_spec (o + n) SIZE_MIX_BUFFER);
      [rewrite (proj2 (Z.ltb_lt o (o + n))) by lia | rewrite (proj2 (Z.ltb_ge o (o + n - SIZE_MIX_BUFFER))) by lia];
      rewrite !store_at_ok by (rewrite ?length_zeros; lia); cbn [mbind option_bind];
      rewrite ?store_at_ok by (rewrite ?length_zeros; lia);
      (eexists; split; [done|]; split; [done|]; split; [done|]; intros d Hd; cbn [set_samples samples];
       unfold stored; rewrite !length_zeros by lia; rewrite ring_index, <- Eo by done;
       bools; try lia; rewrite ?nth_zeros; done).
Qed.

Lemma length_span {A} (f : Z -> A) a n : 0 <= n -> Z.of_nat (length (span f a n)) = n.
Proof. intros. unfold span. rewrite length_map, length_seq. lia. Qed.

Lemma span_app {A} (f : Z -> A) a n k : 0 <= n -> 0 <= k -> span f a (n + k) = span f a n ++ span f (a + n) k.
Proof.
  intros. unfold span. rewrite Z2Nat.inj_add, seq_app, map_app by done. f_equal.
  generalize (Z.to_nat k) as m. intros m. replace (0 + Z.to_nat n)%nat with (Z.to_nat n + 0)%nat by lia.
  generalize 0%nat as b. induction m as [|m IH]; intros b; [done|]. cbn [seq map]. f_equal; [f_equal; lia|].
  rewrite <- IH. do 2 f_equal. lia.
Qed.

Lemma span_ext {A} (f g : Z -> A) a b n :
  (forall d, 0 <= d < n -> f (a + d) = g (b + d)) -> span f a n = span g b n.
Proof. intros H. unfold span. apply map_ext_in. intros i Hi. apply in_seq in Hi. apply H. lia. Qed.

Lemma span_zeros a n : span (fun _ => 0) a n = zeros n.
Proof.
  unfold span, zeros. generalize (Z.to_nat n) as k, 0%nat as b. induction k as [|k IH]; intros b; [done|].
  cbn. f_equal. apply IH.
Qed.

Lemma read_time t n s : 0 <= n <= SIZE_MIX_BUFFER ->
  read (u32 t) n s = Some (span (fun x => samples s (x mod SIZE_MIX_BUFFER)) t n).
Proof.
  intros Hn. unfold read. rewrite off_of_time. pose proof (mod_ring t) as Ho.
  remember (t mod SIZE_MIX_BUFFER) as o eqn:Eo. unfold load_at. fold (span (samples s) o n).
  fold (span (samples s) o (SIZE_MIX_BUFFER - o)). fold (span (samples s) 0 (n - (SIZE_MIX_BUFFER - o))).
  destruct (Z.leb_spec (o + n) SIZE_MIX_BUFFER).
  - rewrite !(proj2 (Z.leb_le _ _)) by lia. cbn [andb]. f_equal. apply span_ext. intros d Hd.
    rewrite ring_index, <- Eo by lia. bools; [done|lia].
  - rewrite !(proj2 (Z.leb_le _ _)) by lia. cbn [andb mbind option_bind]. f_equal.
    replace n with ((SIZE_MIX_BUFFER - o) + (n - (SIZE_MIX_BUFFER - o))) at 2 by lia.
    rewrite span_app by lia. f_equal; apply span_ext; intros d Hd; f_equal.
    + rewrite ring_index, <- Eo by lia. bools; lia.
    + replace (t + (SIZE_MIX_BUFFER - o) + d) with (t + (SIZE_MIX_BUFFER - o + d)) by lia.
      rewrite ring_index, <- Eo by lia. bools; lia.
Qed.

(** What is at time [t] after the times from [T] on have been written. *)
Lemma overwrites_at s s' T n f t : overwrites s s' T n f -> 0 <= n ->
  T + n - SIZE_MIX_BUFFER <= t < T + Z.max n SIZE_MIX_BUFFER ->
  samples s' (t mod SIZE_MIX_BUFFER) =
  if (T <=? t) && (t <? T + n) then f ((t - T) mod SIZE_MIX_BUFFER) else samples s (t mod SIZE_MIX_BUFFER).
Proof.
  intros (_ & _ & Hs) H0 Ht. pose proof (mod_ring (t - T)) as Hd.
  assert (E : (T + (t - T) mod SIZE_MIX_BUFFER) mod SIZE_MIX_BUFFER = t mod SIZE_MIX_BUFFER)
    by (rewrite Zplus_mod_idemp_r; f_equal; lia).
  specialize (Hs _ Hd). rewrite E in Hs. rewrite Hs. clear Hs E.
  assert (Hm : n < SIZE_MIX_BUFFER -> (t - T) mod SIZE_MIX_BUFFER = if T <=? t then t - T else t - T + SIZE_MIX_BUFFER).
  { intros. destruct (Z.leb_spec T t); [apply Z.mod_small; lia|].
    rewrite <- (Z.mod_add _ 1) by (unfold SIZE_MIX_BUFFER; lia). apply Z.mod_small. lia. }
  destruct (Z.lt_ge_cases n SIZE_MIX_BUFFER); [rewrite Hm by lia|]; bools; try lia; done.
Qed.

Lemma put_line s l T buf : represents s l -> near T (line_end l) -> Z.of_nat (length buf) <= SIZE_MIX_BUFFER ->
  exists s', put (u32 T) buf s = Some s' /\ represents s' (tl_put T buf l).
Proof.
  intros (Hi & Hl & Hs) Hn Hb. unfold near in Hn. unfold put, tl_put. rewrite Hi, Hl, u32_sub_l.
  assert (Hz : SIZE_MIX_BUFFER = 16384) by done.
  rewrite !ts_less_time by lia. destruct (Z.ltb_spec T (line_end l - SIZE_MIX_BUFFER)) as [Ho|Ho]; [done || by exists s|].
  assert (Hc : exists s1, (if line_end l <? T then clear (u32 (line_end l)) (u32 T) s else Some s) = Some s1 /\
    overwrites s s1 (line_end l) (Z.max 0 (T - line_end l)) (fun _ => 0)).
  { destruct (Z.ltb_spec (line_end l) T).
    - destruct (clear_time (line_end l) (T - line_end l) s) as (s1 & E & Hw); [lia|].
      replace (line_end l + (T - line_end l)) with T in E by lia. rewrite Z.max_r by lia. by exists s1.
    - exists s. split; [done|]. split; [done|]. split; [done|]. intros d Hd. bools; [lia|done]. }
  destruct Hc as (s1 & -> & Hw1). cbn [mbind option_bind].
  destruct (write_time T buf s1 Hb) as (s2 & -> & Hw2). cbn [mbind option_bind].
  destruct Hw1 as (Hi1 & Hl1 & Hw1'), Hw2 as (Hi2 & Hl2 & Hw2').
  rewrite u32_add_l, Hl2, Hl1, Hl, ts_less_time by lia.
  eexists. split; [done|]. split; [destruct (Z.ltb_spec (line_end l) (T + Z.of_nat (length buf))); cbn; congruence|].
  split; [destruct (Z.ltb_spec (line_end l) (T + Z.of_nat (length buf))); cbn [set_last_ts last_ts line_end];
    [f_equal; lia|rewrite Hl2, Hl1, Hl; f_equal; lia]|].
  cbn [line_end sample_at]. intros t Ht.
  assert (E : forall x : bool, samples (if x then set_last_ts (u32 (T + Z.of_nat (length buf))) s2 else s2) = samples s2)
    by (intros []; done). rewrite E.
  rewrite (overwrites_at s1 s2 T _ _ t (conj Hi2 (conj Hl2 Hw2'))) by lia.
  destruct ((T <=? t) && (t <? T + Z.of_nat (length buf))) eqn:E1.
  - do 2 f_equal. apply andb_prop in E1 as [?%Z.leb_le ?%Z.ltb_lt]. apply Z.mod_small. lia.
  - rewrite (overwrites_at s s1 _ _ _ t (conj Hi1 (conj Hl1 Hw1'))) by lia.
    apply andb_false_iff in E1 as [?%Z.leb_gt|?%Z.ltb_ge];
      bools; try lia; try done; apply Hs; lia.
Qed.

Lemma get_line s l T n : represents s l -> near T (line_end l) -> 0 <= n <= SIZE_MIX_BUFFER ->
  get (u32 T) n s = Some (tl_get T n l).
Proof.
  intros (Hi & Hl & Hs) Hn Hb. unfold near in Hn. unfold get. rewrite Hi, Hl, u32_sub_l, u32_add_l. cbn [negb orb].
  assert (Hz : SIZE_MIX_BUFFER = 16384) by done.
  rewrite !ts_less_time by lia.
  assert (Hin : forall a k, line_end l - SIZE_MIX_BUFFER <= a -> a + k <= line_end l ->
    span (fun x => samples s (x mod SIZE_MIX_BUFFER)) a k = span (tl_sample l) a k).
  { intros a k Ha Hk. apply span_ext. intros d Hd. unfold tl_sample. rewrite (Hs (a + d)) by lia. bools; [done|lia..]. }
  assert (Hout : forall a k, a + k <= line_end l - SIZE_MIX_BUFFER \/ line_end l <= a -> zeros k = span (tl_sample l) a k).
  { intros a k Ha. rewrite <- (span_zeros a). apply span_ext. intros d Hd. unfold tl_sample. bools; [lia|done..]. }
  unfold tl_get. destruct (Z.ltb_spec T (line_end l)); cbn [negb orb]; [|by rewrite (Hout T) by lia].
  destruct (Z.ltb_spec (line_end l - SIZE_MIX_BUFFER) (T + n)); cbn [negb]; [|by rewrite (Hout T) by lia].
  destruct (Z.ltb_spec T (line_end l - SIZE_MIX_BUFFER)).
  - assert (E : u32 (u32 (line_end l) - SIZE_MIX_BUFFER - u32 T) = line_end l - SIZE_MIX_BUFFER - T).
    { rewrite u32_sub_r. replace (u32 (line_end l) - SIZE_MIX_BUFFER - T) with (u32 (line_end l) - (SIZE_MIX_BUFFER + T)) by lia.
      rewrite u32_sub_l. rewrite u32_small by (unfold is_u32, u32_mod; lia). lia. }
    rewrite E, u32_add_l, (u32_small (n - _)) by (unfold is_u32, u32_mod; lia).
    rewrite read_time by lia. cbn [mbind option_bind].
    replace n with ((line_end l - SIZE_MIX_BUFFER - T) + (n - (line_end l - SIZE_MIX_BUFFER - T))) at 2 by lia.
    rewrite span_app, Hin by lia. by rewrite (Hout T) by lia.
  - destruct (Z.ltb_spec (line_end l) (T + n)).
    + rewrite u32_sub, (u32_small (line_end l - T)) by (unfold is_u32, u32_mod; lia).
      rewrite (u32_small (n - _)) by (unfold is_u32, u32_mod; lia).
      rewrite read_time by lia. cbn [mbind option_bind]. rewrite Hin by lia.
      rewrite (Hout (T + (line_end l - T)) (n - (line_end l - T))), <- span_app by lia. do 2 f_equal. lia.
    + rewrite read_time, Hin by lia. done.
Qed.

Lemma tl_get_put T buf l : line_end l - SIZE_MIX_BUFFER <= T -> Z.of_nat (length buf) <= SIZE_MIX_BUFFER ->
  tl_get T (Z.of_nat (length buf)) (tl_put T buf l) = buf.
Proof.
  intros Ht Hb. unfold tl_get, tl_put. rewrite (proj2 (Z.ltb_ge _ _)) by lia. unfold span. rewrite Nat2Z.id.
  apply list_eq. intros i. rewrite list_lookup_fmap. destruct (decide (i < length buf)%nat) as [Hi|Hi].
  - rewrite lookup_seq_lt by done. cbn [fmap option_fmap option_map]. unfold tl_sample. cbn [line_end sample_at].
    rewrite !(proj2 (Z.leb_le _ _)), !(proj2 (Z.ltb_lt _ _)) by lia. cbn [andb].
    destruct (lookup_lt_is_Some_2 _ _ Hi) as [x Hx]. rewrite Hx. f_equal.
    replace (Z.to_nat (T + Z.of_nat (0 + i) - T)) with i by lia. by rewrite nth_lookup, Hx.
  - rewrite lookup_seq_ge by lia. by rewrite lookup_ge_None_2 by lia.
Qed.

(** Without any assumption on the times, nothing leaves the ring. *)
Lemma ts_less_gap a b : ts_less a b = true -> 0 < u32 (b - a) < 2147483648.
Proof.
  unfold ts_less. intros H%Z.ltb_lt. pose proof (u32_range (a - b)) as R. unfold is_u32, u32_mod in R.
  replace (b - a) with (0 - (a - b)) by lia. rewrite <- u32_sub_r, u32_below by (unfold u32_mod; lia). unfold u32_mod. lia.
Qed.

Lemma u32_gap_lt n x : 0 <= n < 2147483648 -> 0 < u32 x < 2147483648 -> 0 < u32 (n - x) < 2147483648 -> u32 x < n.
Proof.
  intros Hn Hx Hd. rewrite <- u32_sub_r in Hd. destruct (Z.lt_ge_cases (u32 x) n); [done|].
  destruct (Z.eq_dec (u32 x) n) as [He|He].
  - rewrite He, Z.sub_diag in Hd. change (u32 0) with 0 in Hd. lia.
  - rewrite u32_below in Hd by (unfold u32_mod; lia). unfold u32_mod in Hd. lia.
Qed.

Lemma put_safe ts buf s : is_u32 ts -> Z.of_nat (length buf) <= SIZE_MIX_BUFFER -> is_u32 (last_ts s) ->
  exists s', put ts buf s = Some s' /\ is_u32 (last_ts s').
Proof.
  intros Ht Hb Hl. unfold put.
  set (s0 := if sa_init s then s else mk_sa (fun _ => 0) ts true).
  assert (Hl0 : is_u32 (last_ts s0)) by (unfold s0; by destruct (sa_init s)). clearbody s0. clear Hl s.
  destruct (ts_less ts _); [by exists s0|].
  assert (Hc : exists s1, (if ts_less (last_ts s0) ts then clear (last_ts s0) ts s0 else Some s0) = Some s1 /\ is_u32 (last_ts s1)).
  { destruct (ts_less (last_ts s0) ts) eqn:E; [|by exists s0]. apply ts_less_gap in E.
    destruct (clear_time (last_ts s0) (u32 (ts - last_ts s0)) s0 E) as (s1 & E1 & (_ & Hl1 & _)).
    assert (Et : u32 (last_ts s0 + u32 (ts - last_ts s0)) = ts).
    { unfold u32. rewrite Zplus_mod_idemp_r. replace (last_ts s0 + (ts - last_ts s0)) with ts by lia. by apply u32_small. }
    rewrite Et, u32_small in E1 by done. exists s1. by rewrite Hl1. }
  destruct Hc as (s1 & -> & Hl1). cbn [mbind option_bind].
  destruct (write_time ts buf s1 Hb) as (s2 & E2 & (_ & Hl2 & _)). rewrite u32_small in E2 by done. rewrite E2.
  cbn [mbind option_bind]. eexists. split; [done|]. destruct (ts_less (last_ts s2) _); cbn [set_last_ts last_ts]; [apply u32_range|by rewrite Hl2].
Qed.

Lemma get_safe ts n s : is_u32 ts -> 0 <= n <= SIZE_MIX_BUFFER ->
  exists l, get ts n s = Some l /\ Z.of_nat (length l) = n.
Proof.
  intros Ht Hn. assert (Hz : SIZE_MIX_BUFFER = 16384) by done.
  assert (Hread : forall t k, is_u32 t -> 0 <= k <= SIZE_MIX_BUFFER -> exists l, read t k s = Some l /\ Z.of_nat (length l) = k).
  { intros t k Hu Hk. rewrite <- (u32_small t) by done. rewrite read_time by done. eexists. split; [done|]. apply length_span. lia. }
  unfold get. destruct (negb _ || _ || _) eqn:E; [exists (zeros n); rewrite length_zeros; by auto with lia|].
  apply orb_false_iff in E as [E E3]. apply orb_false_iff in E as [_ E2].
  apply negb_false_iff, ts_less_gap in E2, E3.
  rewrite u32_sub in E3. destruct (ts_less ts (u32 (last_ts s - SIZE_MIX_BUFFER))) eqn:E4.
  - apply ts_less_gap in E4. rewrite u32_sub_l in E4.
    assert (Hk : u32 (last_ts s - SIZE_MIX_BUFFER - ts) < n).
    { apply u32_gap_lt; [lia|done|]. by replace (n - _) with (ts + n - (last_ts s - SIZE_MIX_BUFFER)) by lia. }
    rewrite (u32_small (n - _)) by (unfold is_u32, u32_mod; lia).
    destruct (Hread (u32 (ts + u32 (last_ts s - SIZE_MIX_BUFFER - ts))) (n - u32 (last_ts s - SIZE_MIX_BUFFER - ts)))
      as (l & -> & Hl); [apply u32_range|lia|]. cbn [mbind option_bind]. eexists. split; [done|].
    rewrite length_app, Nat2Z.inj_add, length_zeros by lia. lia.
  - destruct (ts_less (last_ts s) (u32 (ts + n))) eqn:E5; [|by apply Hread].
    apply ts_less_gap in E5. rewrite u32_sub_l in E5.
    assert (Hk : u32 (last_ts s - ts) < n).
    { apply u32_gap_lt; [lia|done|]. by replace (n - _) with (ts + n - last_ts s) by lia. }
    destruct (Hread ts (u32 (last_ts s - ts))) as (l & -> & Hl); [done|lia|]. cbn [mbind option_bind].
    rewrite (u32_small (n - _)) by (unfold is_u32, u32_mod; lia).
    eexists. split; [done|]. rewrite length_app, Nat2Z.inj_add, length_zeros by lia. lia.
Qed.

(** C24: The ring of samples implements a time line: within half the range of the 32-bit time
    stamps, and for blocks of at most the size of the ring, a [put] never leaves the ring and
    records the block at its time, with silence in a gap before it and nothing when it is too
    old; a [get] returns what the time line has, silence outside of the last 2^14 samples; the
    first [put] starts a time line, and what was put can be read back. *)
Theorem sample_array_refines s T buf n :
  Z.of_nat (length buf) <= SIZE_MIX_BUFFER -> 0 <= n <= SIZE_MIX_BUFFER ->
  (sa_init s = false ->
     get (u32 T) n s = Some (zeros n) /\
     exists s', put (u32 T) buf s = Some s' /\ represents s' (tl_put T buf (line0 T))) /\
  (forall l, represents s l -> near T (line_end l) ->
     get (u32 T) n s = Some (tl_get T n l) /\
     exists s', put (u32 T) buf s = Some s' /\ represents s' (tl_put T buf l) /\
       (line_end l - SIZE_MIX_BUFFER <= T ->
        get (u32 T) (Z.of_nat (length buf)) s' = Some buf)).
Proof.
  intros Hb Hn. assert (Hz : SIZE_MIX_BUFFER = 16384) by done. split.
  - intros Hi. split; [unfold get; by rewrite Hi|].
    assert (Hr : represents (mk_sa (fun _ => 0) (u32 T) true) (line0 T)) by done.
    destruct (put_line _ _ T buf Hr) as (s' & E & Hr'); [unfold near; cbn; lia|done|].
    exists s'. split; [|done]. rewrite <- E. unfold put. rewrite Hi. done.
  - intros l Hr Hx. split; [by apply get_line|]. destruct (put_line s l T buf Hr Hx Hb) as (s' & E & Hr').
    exists s'. split; [done|]. split; [done|]. intros Ht. rewrite (get_line s' _ T _ Hr'); [by rewrite tl_get_put| |lia].
    unfold near in *. unfold tl_put. rewrite (proj2 (Z.ltb_ge _ _)) by lia. cbn [line_end]. lia.
Qed.

(** Two blocks around the wrap of the time stamps, with a gap between them. *)
Definition demo_array : sample_array := mk_sa (fun _ => 77) 0 false.

Lemma sample_array_refines_witness :
  exists s', put (u32 4294967294) [1; 2; 3] demo_array = Some s' /\
    exists s2, put (u32 4294967299) [4; 5] s' = Some s2 /\
      get (u32 4294967299) 2 s2 = Some [4; 5] /\
      get (u32 4294967294) 9 s2 = Some [1; 2; 3; 0; 0; 4; 5; 0; 0].
Proof.
  destruct (proj1 (sample_array_refines demo_array 4294967294 [1; 2; 3] 0 ltac:(vm_compute; discriminate)
    ltac:(unfold SIZE_MIX_BUFFER; lia)) eq_refl) as (_ & s' & E & Hr).
  exists s'. split; [exact E|].
  destruct (proj2 (sample_array_refines s' 4294967299 [4; 5] 2 ltac:(vm_compute; discriminate)
    ltac:(unfold SIZE_MIX_BUFFER; lia)) _ Hr ltac:(vm_compute; reflexivity)) as (_ & s2 & E2 & Hr2 & Hg).
  exists s2. split; [exact E2|]. split; [apply Hg; vm_compute; discriminate|].
  rewrite (proj1 (proj2 (sample_array_refines s2 4294967294 [] 9 ltac:(vm_compute; discriminate)
    ltac:(unfold SIZE_MIX_BUFFER; lia)) _ Hr2 ltac:(vm_compute; reflexivity))). reflexivity.
Defined.
