(* ===== verification/JitterBuffer.v ===== *)
(** * The jitter buffer

    Model of core/AmJitterBuffer.h and AmJitterBuffer.cpp: packets of audio samples are kept
    in a doubly linked list in the order of their RTP time stamps, in nodes taken from an
    array of 800, and handed out when their time has come.

    The nodes live in a heap, [m_next] and [m_prev] are pointers into it, and following a
    null pointer is a fault ([None]).  The time keeping ([jb_clock]) is separate from the
    list.  The specification has the same time keeping over a list of packets; the list of
    nodes is shown to implement it. *)

From Stdlib Require Import ZArith Lia.
From stdpp Require Import base list sorting.
From S2P Require Import Prelude SampleArray.

Local Open Scope Z_scope.
Local Open Scope bool_scope.

(** ** Packets and their allocator *)

Definition SYSTEM_SAMPLECLOCK_RATE : Z := 32000.
Definition INITIAL_JITTER : Z := 80 * SYSTEM_SAMPLECLOCK_RATE / 1000.
Definition MAX_JITTER : Z := 2 * SYSTEM_SAMPLECLOCK_RATE.
Definition RESYNC_THRESHOLD : Z := 5.
Definition AUDIO_BUFFER_SIZE : Z := 8192.

(** [MAX_JITTER / 80] *)
Definition N_PACKETS : nat := 800.

Record packet := mk_packet {
  m_data : list Z;            (* the first [m_size] samples *)
  m_ts : Z;
  m_next : option nat;
  m_prev : option nat
}.

Definition m_size (p : packet) : Z := Z.of_nat (length (m_data p)).

Definition heap := nat -> packet.

Definition upd (f : packet -> packet) (i : nat) (h : heap) : heap :=
  fun j => if Nat.eqb j i then f (h i) else h j.

Definition set_next (n : option nat) (p : packet) : packet := mk_packet (m_data p) (m_ts p) n (m_prev p).
Definition set_prev (n : option nat) (p : packet) : packet := mk_packet (m_data p) (m_ts p) (m_next p) n.

(** [Packet::operator <] *)
Definition packet_less (a b : packet) : bool := ts_less (m_ts a) (m_ts b).

(** [Packet::init]: at most the [AUDIO_BUFFER_SIZE * 2] samples of [m_data] are copied. *)
Definition packet_init (data : list Z) (ts : Z) (p : packet) : packet :=
  mk_packet (take (Z.to_nat (AUDIO_BUFFER_SIZE * 2)) data) ts (m_next p) (m_prev p).

Record node_list := mk_nodes {
  nodes : heap;
  m_free_packets : option nat;
  m_head : option nat;
  m_tail : option nat
}.

Definition set_nodes (h : heap) (x : node_list) := mk_nodes h (m_free_packets x) (m_head x) (m_tail x).
Definition set_free (p : option nat) (x : node_list) := mk_nodes (nodes x) p (m_head x) (m_tail x).
Definition set_head (p : option nat) (x : node_list) := mk_nodes (nodes x) (m_free_packets x) p (m_tail x).
Definition set_tail (p : option nat) (x : node_list) := mk_nodes (nodes x) (m_free_packets x) (m_head x) p.

(** [p->... = ...]; a null pointer faults. *)
Definition with_node (f : packet -> packet) (p : option nat) (x : node_list) : option node_list :=
  match p with Some i => Some (set_nodes (upd f i (nodes x)) x) | None => None end.

(** [PacketAllocator::PacketAllocator] *)
Definition new_nodes : node_list :=
  mk_nodes (fun i => mk_packet [] 0 (if Nat.ltb (S i) N_PACKETS then Some (S i) else None) None)
           (Some 0%nat) None None.

(** [PacketAllocator::alloc] *)
Definition alloc (data : list Z) (ts : Z) (x : node_list) : node_list * option nat :=
  match m_free_packets x with
  | None => (x, None)
  | Some p =>
      let h := upd (fun n => set_prev None (set_next None (packet_init data ts n))) p (nodes x) in
      (set_nodes h (set_free (m_next (nodes x p)) x), Some p)
  end.

(** [PacketAllocator::free] *)
Definition free (p : nat) (x : node_list) : node_list :=
  set_free (Some p) (set_nodes (upd (fun n => set_next (m_free_packets x) (set_prev None n)) p (nodes x)) x).

(** ** The list *)

(** [m_allocator.alloc], or the oldest packet is taken from the head. *)
Definition take_node (data : list Z) (ts : Z) (x : node_list) : option (node_list * nat) :=
  match alloc data ts x with
  | (x, Some e) => Some (x, e)
  | (x, None) =>
      e ← m_head x;
      let x := set_head (m_next (nodes x e)) x in
      x ← with_node (set_prev None) (m_head x) x;
      x ← with_node (packet_init data ts) (Some e) x;
      Some (x, e)
  end.

(** [for (i = m_tail; i->m_prev && *elem < *(i->m_prev); i = i->m_prev)] *)
Fixpoint find_place (fuel : nat) (h : heap) (e i : nat) : option nat :=
  match fuel with
  | O => None
  | S fuel =>
      match m_prev (h i) with
      | Some p => if packet_less (h e) (h p) then find_place fuel h e p else Some i
      | None => Some i
      end
  end.

Definition link (e : nat) (x : node_list) : option node_list :=
  match m_tail x with
  | None =>
      with_node (fun n => set_prev None (set_next None n)) (Some e) (set_head (Some e) (set_tail (Some e) x))
  | Some t =>
      if packet_less (nodes x t) (nodes x e) then
        x ← with_node (set_next (Some e)) (Some t) x;
        x ← with_node (set_prev (Some t)) (Some e) x;
        with_node (set_next None) (Some e) (set_tail (Some e) x)
      else
        i ← find_place N_PACKETS (nodes x) e t;
        let p := m_prev (nodes x i) in
        x ← with_node (set_prev p) (Some e) x;
        x ← (match p with
             | Some _ => with_node (set_next (Some e)) p x
             | None => Some (set_head (Some e) x)
             end);
        x ← with_node (set_prev (Some e)) (Some i) x;
        with_node (set_next (Some i)) (Some e) x
  end.

(** The head is taken out of the list and freed. *)
Definition unlink_head (i : nat) (x : node_list) : node_list :=
  let x := set_head (m_next (nodes x i)) x in
  let x := match m_head x with
           | None => set_tail None x
           | Some j => set_nodes (upd (set_prev None) j (nodes x)) x
           end in
  free i x.

(** The loop that throws away the packets that end before [get_ts]. *)
Fixpoint throw_old (fuel : nat) (get_ts : Z) (x : node_list) : option node_list :=
  match m_head x with
  | None => Some x
  | Some i =>
      if ts_less (u32 (m_ts (nodes x i) + m_size (nodes x i))) get_ts then
        match fuel with
        | O => None
        | S fuel => throw_old fuel get_ts (unlink_head i x)
        end
      else Some x
  end.

(** ** Time keeping *)

Record jb_clock := mk_clock {
  m_tsInited : bool;
  m_lastTs : Z;
  m_lastResyncTs : Z;
  m_lastAudioTs : Z;
  m_tsDelta : Z;
  m_tsDeltaInited : bool;
  m_delayCount : Z;
  m_jitter : Z;
  m_forceResync : bool
}.

Definition clock0 : jb_clock := mk_clock false 0 0 0 0 false 0 INITIAL_JITTER false.

(** The first part of [put]: the jitter is adapted; [true] when the packet is refused. *)
Definition put_jitter (ts : Z) (begin_talk : bool) (k : jb_clock) : jb_clock * bool :=
  let force := m_forceResync k || begin_talk in
  let mk j := mk_clock (m_tsInited k) (m_lastTs k) (m_lastResyncTs k) (m_lastAudioTs k) (m_tsDelta k)
                       (m_tsDeltaInited k) (m_delayCount k) j force in
  if m_tsInited k && negb force && ts_less (u32 (m_lastTs k + m_jitter k)) ts then
    let delay := u32 (ts - m_lastTs k) in
    let j := if (delay >? m_jitter k) && (m_jitter k <? MAX_JITTER)
             then Z.min MAX_JITTER (m_jitter k + (delay - m_jitter k) / 2) else m_jitter k in
    (mk j, ts_less (u32 (ts + j)) (m_lastTs k))
  else (mk (m_jitter k), false).

(** The last part of [put]. *)
Definition put_last (ts : Z) (k : jb_clock) : jb_clock :=
  let mk t := mk_clock true t (m_lastResyncTs k) (m_lastAudioTs k) (m_tsDelta k)
                       (m_tsDeltaInited k) (m_delayCount k) (m_jitter k) (m_forceResync k) in
  if negb (m_tsInited k) then mk ts
  else if ts_less (m_lastTs k) ts || m_forceResync k then mk ts
  else mk (m_lastTs k).

(** The first part of [get]: the mapping of audio to RTP time is set up or corrected. *)
Definition get_resync (ts ms : Z) (k : jb_clock) : jb_clock :=
  let mk resync delta count force :=
    mk_clock (m_tsInited k) (m_lastTs k) resync ts delta true count (m_jitter k) force in
  let target := u32 (m_lastTs k - ts + ms) in
  if negb (m_tsDeltaInited k) || m_forceResync k then
    mk (m_lastResyncTs k) target (m_delayCount k) false
  else if negb (m_lastAudioTs k =? ts) && negb (m_lastResyncTs k =? m_lastTs k) then
    if ts_less (u32 (ts + m_tsDelta k)) (m_lastTs k) then
      mk (m_lastTs k) (u32 (m_tsDelta k + target)) 0 (m_forceResync k)
    else if ts_less (m_lastTs k) (u32 (ts + m_tsDelta k - m_jitter k / 2)) then
      if m_delayCount k >? RESYNC_THRESHOLD then
        mk (m_lastTs k) (u32 (m_tsDelta k - u32 (m_tsDelta k - target) / 2)) (m_delayCount k) (m_forceResync k)
      else mk (m_lastTs k) (m_tsDelta k) (m_delayCount k + 1) (m_forceResync k)
    else mk (m_lastTs k) (m_tsDelta k) 0 (m_forceResync k)
  else mk (m_lastResyncTs k) (m_tsDelta k) (m_delayCount k) (m_forceResync k).

Definition get_time (ts : Z) (k : jb_clock) : Z := u32 (ts + m_tsDelta k - m_jitter k).

(** RTP time to audio time. *)
Definition audio_time (rtp_ts : Z) (k : jb_clock) : Z := u32 (rtp_ts - m_tsDelta k + m_jitter k).

(** ** The buffer *)

Record jitter_buffer := mk_jb { jb_nodes : node_list; jb_time : jb_clock }.

Definition new_jitter_buffer : jitter_buffer := mk_jb new_nodes clock0.

Definition put (data : list Z) (ts : Z) (begin_talk : bool) (b : jitter_buffer) : option jitter_buffer :=
  let '(k, late) := put_jitter ts begin_talk (jb_time b) in
  if late then Some (mk_jb (jb_nodes b) k)
  else
    '(x, e) ← take_node data ts (jb_nodes b);
    x ← link e x;
    Some (mk_jb x (put_last ts k)).

(** The packet with its audio time, if one is due. *)
Definition get (ts ms : Z) (b : jitter_buffer) : option (jitter_buffer * option (list Z * Z)) :=
  if negb (m_tsInited (jb_time b)) then Some (b, None)
  else
    let k := get_resync ts ms (jb_time b) in
    let get_ts := get_time ts k in
    x ← throw_old N_PACKETS get_ts (jb_nodes b);
    match m_head x with
    | Some i =>
        if ts_less (m_ts (nodes x i)) (u32 (get_ts + ms)) then
          Some (mk_jb (unlink_head i x) k, Some (m_data (nodes x i), audio_time (m_ts (nodes x i)) k))
        else Some (mk_jb x k, None)
    | None => Some (mk_jb x k, None)
    end.

(** ** The specification: a list of packets *)

Definition pkt : Type := Z * list Z.

Definition pkt_less (a b : pkt) : bool := ts_less (a.1) (b.1).

(** From the end of the list (reversed) towards its beginning: before the last packet, or
    before an earlier one. *)
Fixpoint place (e : pkt) (r : list pkt) : list pkt :=
  match r with
  | [] => [e]
  | i :: r' => match r' with
               | p :: _ => if pkt_less e p then i :: place e r' else i :: e :: r'
               | [] => [i; e]
               end
  end.

Definition insert_pkt (e : pkt) (q : list pkt) : list pkt :=
  match last q with
  | None => [e]
  | Some t => if pkt_less t e then q ++ [e] else reverse (place e (reverse q))
  end.

Definition new_pkt (data : list Z) (ts : Z) : pkt := (ts, take (Z.to_nat (AUDIO_BUFFER_SIZE * 2)) data).

Definition q_put (e : pkt) (q : list pkt) : list pkt :=
  insert_pkt e (if Nat.ltb (length q) N_PACKETS then q else tail q).

(** The packet ends before [get_ts]. *)
Definition too_old (get_ts : Z) (e : pkt) : bool := ts_less (u32 (e.1 + Z.of_nat (length (e.2)))) get_ts.

Fixpoint q_drop (get_ts : Z) (q : list pkt) : list pkt :=
  match q with
  | e :: q' => if too_old get_ts e then q_drop get_ts q' else q
  | [] => []
  end.

Definition spec_put (data : list Z) (ts : Z) (begin_talk : bool) (s : list pkt * jb_clock) : list pkt * jb_clock :=
  let '(k, late) := put_jitter ts begin_talk (s.2) in
  if late then (s.1, k) else (q_put (new_pkt data ts) (s.1), put_last ts k).

Definition spec_get (ts ms : Z) (s : list pkt * jb_clock) : (list pkt * jb_clock) * option (list Z * Z) :=
  if negb (m_tsInited (s.2)) then (s, None)
  else
    let k := get_resync ts ms (s.2) in
    let q := q_drop (get_time ts k) (s.1) in
    match q with
    | e :: q' =>
        if ts_less (e.1) (u32 (get_time ts k + ms)) then ((q', k), Some (e.2, audio_time (e.1) k)) else ((q, k), None)
    | [] => ((q, k), None)
    end.

(** ** Linked nodes *)

Definition first_or (n : option nat) (u : list nat) : option nat := match u with [] => n | j :: _ => Some j end.

Definition last_or (p : option nat) (u : list nat) : option nat := match last u with Some j => Some j | None => p end.

(** The nodes [u] are linked in this order, between [p] and [n]. *)
Fixpoint dseg (h : heap) (p : option nat) (u : list nat) (n : option nat) : Prop :=
  match u with
  | [] => True
  | i :: u' => m_prev (h i) = p /\ m_next (h i) = first_or n u' /\ dseg h (Some i) u' n
  end.

(** The free nodes. *)
Fixpoint fseg (h : heap) (s : option nat) (f : list nat) : Prop :=
  match f with
  | [] => s = None
  | i :: f' => s = Some i /\ fseg h (m_next (h i)) f'
  end.

Definition node_pkt (h : heap) (i : nat) : pkt := (m_ts (h i), m_data (h i)).

(** The list [u], with the other nodes free. *)
Definition linked (x : node_list) (u f : list nat) : Prop :=
  dseg (nodes x) None u None /\ m_head x = first_or None u /\ m_tail x = last_or None u /\
  fseg (nodes x) (m_free_packets x) f /\ NoDup (u ++ f) /\ length (u ++ f) = N_PACKETS.

Definition holds_packets (x : node_list) (q : list pkt) : Prop :=
  exists u f, linked x u f /\ q = map (node_pkt (nodes x)) u.

Lemma upd_same g i h : upd g i h i = g (h i).
Proof. unfold upd. by rewrite Nat.eqb_refl. Qed.

Lemma upd_other g i j h : j <> i -> upd g i h j = h j.
Proof. intros H. unfold upd. by rewrite (proj2 (Nat.eqb_neq j i) H). Qed.

Lemma dseg_upd g i h p u n : i ∉ u -> dseg h p u n -> dseg (upd g i h) p u n.
Proof.
  revert p. induction u as [|j u IH]; intros p Hi H; [done|]. apply not_elem_of_cons in Hi as [Hj Hi].
  cbn [dseg] in *. rewrite upd_other by done. destruct H as (H1 & H2 & H3). eauto.
Qed.

Lemma fseg_upd g i h s f : i ∉ f -> fseg h s f -> fseg (upd g i h) s f.
Proof.
  revert s. induction f as [|j f IH]; intros s Hi H; [done|]. apply not_elem_of_cons in Hi as [Hj Hi].
  cbn [fseg] in *. rewrite upd_other by done. destruct H as (H1 & H2). eauto.
Qed.

(** Links do not change what a packet holds. *)
Lemma node_pkt_upd g i h u : (forall n, m_ts (g n) = m_ts n /\ m_data (g n) = m_data n) ->
  map (node_pkt (upd g i h)) u = map (node_pkt h) u.
Proof.
  intros Hg. apply map_ext. intros j. unfold node_pkt, upd. destruct (Nat.eqb_spec j i) as [->|]; [|done].
  by destruct (Hg (h i)) as [-> ->].
Qed.

Lemma node_pkt_other g i h u : i ∉ u -> map (node_pkt (upd g i h)) u = map (node_pkt h) u.
Proof.
  intros Hi. apply map_ext_in. intros j Hj. unfold node_pkt. rewrite upd_other; [done|].
  intros ->. by apply Hi, list_elem_of_In.
Qed.

Lemma first_or_app n u v : first_or n (u ++ v) = first_or (first_or n v) u.
Proof. by destruct u. Qed.

Lemma last_or_cons p i u : last_or p (i :: u) = last_or (Some i) u.
Proof. unfold last_or. rewrite last_cons. by destruct (last u). Qed.

Lemma last_or_snoc p u i : last_or p (u ++ [i]) = Some i.
Proof. unfold last_or. by rewrite last_snoc. Qed.

Lemma dseg_app h p u v n : dseg h p (u ++ v) n <-> dseg h p u (first_or n v) /\ dseg h (last_or p u) v n.
Proof.
  revert p. induction u as [|i u IH]; intros p; cbn [app dseg].
  - split; [intros ?; done|intros [_ ?]; done].
  - rewrite IH, first_or_app, last_or_cons. tauto.
Qed.

Lemma dseg_cons h p i u n :
  dseg h p (i :: u) n <-> m_prev (h i) = p /\ m_next (h i) = first_or n u /\ dseg h (Some i) u n.
Proof. done. Qed.

Lemma dseg_last_next h p u i n n' : i ∉ u -> dseg h p (u ++ [i]) n -> dseg (upd (set_next n') i h) p (u ++ [i]) n'.
Proof.
  intros Hi H. apply dseg_app in H as [H1 H2]. apply dseg_app. split; [by apply dseg_upd|].
  cbn [dseg] in *. rewrite upd_same. cbn. tauto.
Qed.

Lemma dseg_first_prev h p p' i u n : i ∉ u -> dseg h p (i :: u) n -> dseg (upd (set_prev p') i h) p' (i :: u) n.
Proof.
  intros Hi (H1 & H2 & H3). cbn [dseg]. rewrite upd_same. cbn. split; [done|]. split; [done|]. by apply dseg_upd.
Qed.

Lemma last_or_split u : u <> [] -> exists u' i, u = u' ++ [i] /\ last_or None u = Some i.
Proof.
  intros H. destruct (exists_last H) as (u' & i & ->). exists u', i. by rewrite last_or_snoc.
Qed.

(** The list [u] beside the node [e], which is in neither list. *)
Definition linked1 (x : node_list) (e : nat) (u f : list nat) : Prop :=
  dseg (nodes x) None u None /\ m_head x = first_or None u /\ m_tail x = last_or None u /\
  fseg (nodes x) (m_free_packets x) f /\ NoDup (e :: u ++ f) /\ length (e :: u ++ f) = N_PACKETS.

Ltac nodes_simpl :=
  unfold linked, linked1, set_nodes, set_head, set_tail, set_free in *; cbn [nodes m_head m_tail m_free_packets] in *.

Lemma take_node_linked data ts x u f : linked x u f ->
  exists x' e u' f', take_node data ts x = Some (x', e) /\ linked1 x' e u' f' /\
    node_pkt (nodes x') e = new_pkt data ts /\
    map (node_pkt (nodes x')) u' =
      (if Nat.ltb (length (map (node_pkt (nodes x)) u)) N_PACKETS then map (node_pkt (nodes x)) u
       else tail (map (node_pkt (nodes x)) u)).
Proof.
  intros (Hd & Hh & Ht & Hf & Hn & Hl). rewrite length_map. unfold take_node, alloc. destruct f as [|e f]; cbn [fseg] in Hf.
  - rewrite app_nil_r in Hn, Hl. rewrite Hf, Hl, (proj2 (Nat.ltb_ge _ _)) by lia.
    destruct u as [|a [|b u]]; [done..|]. cbn [first_or] in Hh. rewrite Hh. cbn [mbind option_bind].
    destruct Hd as (_ & Ha & Hd). cbn [first_or] in Ha.
    nodes_simpl. rewrite Ha. cbn [with_node option_bind mbind].
    apply NoDup_cons in Hn as [Hna Hnu]. pose proof Hnu as Hnb. apply NoDup_cons in Hnb as [Hnb _].
    eexists _, a, (b :: u), []. split; [done|]. nodes_simpl.
    split; [|split].
    + split; [apply dseg_upd; [done|]; by apply (dseg_first_prev _ (Some a))|]. split; [done|].
      split; [rewrite Ht; unfold last_or; by rewrite last_cons_cons|]. split; [done|].
      rewrite app_nil_r. split; [by apply NoDup_cons|done].
    + unfold node_pkt. by rewrite upd_same.
    + rewrite node_pkt_other by done. by rewrite node_pkt_upd by done.
  - destruct Hf as [-> Hf]. rewrite length_app in Hl. cbn in Hl.
    rewrite (proj2 (Nat.ltb_lt _ _)) by (unfold N_PACKETS in *; lia).
    assert (Hp : u ++ e :: f ≡ₚ e :: u ++ f) by (by rewrite Permutation_middle). rewrite Hp in Hn.
    pose proof Hn as Hn'. apply NoDup_cons in Hn' as [He _]. apply not_elem_of_app in He as [Heu Hef].
    eexists _, e, u, f. split; [done|]. nodes_simpl. split; [|split].
    + split; [by apply dseg_upd|]. split; [done|]. split; [done|]. split; [by apply fseg_upd|]. split; [done|].
      cbn. rewrite length_app. lia.
    + unfold node_pkt. by rewrite upd_same.
    + by rewrite node_pkt_other by done.
Qed.

Lemma place_2 e i p r : place e (i :: p :: r) = if pkt_less e p then i :: place e (p :: r) else i :: e :: p :: r.
Proof. done. Qed.

Lemma find_place_spec h e u i n fuel : dseg h None (u ++ [i]) n -> (length u < fuel)%nat ->
  exists u1 j u2, find_place fuel h e i = Some j /\ u ++ [i] = u1 ++ j :: u2 /\ m_prev (h j) = last_or None u1 /\
    reverse (place (node_pkt h e) (reverse (map (node_pkt h) (u ++ [i])))) =
      map (node_pkt h) u1 ++ node_pkt h e :: map (node_pkt h) (j :: u2).
Proof.
  revert i n fuel. induction u as [|p u IH] using rev_ind; intros i n fuel Hd Hf; destruct fuel as [|fuel]; try lia.
  - exists [], i, []. destruct Hd as (Hp & _). cbn [find_place]. rewrite Hp. done.
  - apply dseg_app in Hd as [Hd (Hp & _)]. rewrite last_or_snoc in Hp. cbn [find_place]. rewrite Hp.
    rewrite length_app in Hf. cbn in Hf.
    rewrite !map_app. cbn [map]. rewrite !reverse_snoc, place_2.
    change (packet_less (h e) (h p)) with (pkt_less (node_pkt h e) (node_pkt h p)).
    destruct (pkt_less (node_pkt h e) (node_pkt h p)).
    + destruct (IH p _ fuel Hd ltac:(lia)) as (u1 & j & u2 & -> & E & Hj & Hr).
      exists u1, j, (u2 ++ [i]). split; [done|]. split; [rewrite E, <- app_assoc; done|]. split; [done|].
      rewrite map_app in Hr. cbn [map] in Hr. rewrite reverse_snoc in Hr. rewrite reverse_cons, Hr.
      cbn [map]. by rewrite map_app, <- app_assoc.
    + exists (u ++ [p]), i, []. split; [done|]. split; [done|]. rewrite last_or_snoc. split; [done|].
      rewrite !reverse_cons, reverse_involutive, map_app. cbn [map]. by rewrite <- !app_assoc.
Qed.

(** The links set by [link] when [e] goes between [p] and [j]. *)
Definition relink (h : heap) (e j : nat) (p : option nat) : heap :=
  let h := upd (set_prev p) e h in
  let h := match p with Some q => upd (set_next (Some e)) q h | None => h end in
  upd (set_next (Some j)) e (upd (set_prev (Some e)) j h).

Lemma relink_dseg h e j u1 u2 : dseg h None (u1 ++ j :: u2) None -> NoDup (e :: u1 ++ j :: u2) ->
  dseg (relink h e j (last_or None u1)) None (u1 ++ e :: j :: u2) None.
Proof.
  intros Hd Hn. apply NoDup_cons in Hn as [He Hn]. apply not_elem_of_app in He as [He1 He2].
  pose proof He2 as He2'. apply not_elem_of_cons in He2' as [Hej He2'].
  apply NoDup_app in Hn as (Hn1 & Hn12 & Hn2). apply NoDup_cons in Hn2 as [Hj2 _].
  apply dseg_app in Hd as [H1 H2].
  assert (Hu : forall g, (j ∉ u1) /\ dseg (upd g e h) None u1 (Some j) /\ dseg (upd g e h) (last_or None u1) (j :: u2) None).
  { intros g. split; [intros Hx; apply (Hn12 _ Hx); left|]. split; by apply dseg_upd. }
  destruct (Hu (set_prev (last_or None u1))) as (Hj1 & G1 & G2). unfold relink.
  set (h1 := upd (set_prev (last_or None u1)) e h) in *.
  apply dseg_app. cbn [first_or]. rewrite (dseg_cons _ _ e), upd_same.
  destruct (decide (u1 = [])) as [->|Hne].
  - change (last_or None []) with (@None nat) in *. split; [done|]. split; [|split; [done|]].
    + cbn. rewrite upd_other by done. unfold h1. by rewrite upd_same.
    + apply dseg_upd; [done|]. apply (dseg_first_prev _ None); [done|]. exact G2.
  - destruct (last_or_split u1 Hne) as (v & q & -> & Eq). rewrite Eq in *.
    assert (Hqe : q <> e) by (intros ->; apply He1, elem_of_app; right; left).
    assert (Hq2 : q ∉ j :: u2) by (apply Hn12, elem_of_app; right; left).
    assert (Hqj : q <> j) by (intros ->; apply Hq2; left).
    apply NoDup_app in Hn1 as (_ & Hv & _).
    split; [|split; [|split; [done|]]].
    + apply dseg_upd; [done|]. apply dseg_upd; [done|]. apply (dseg_last_next _ _ _ _ (Some j)); [|done].
      intros Hx. apply (Hv _ Hx). left.
    + cbn. rewrite !upd_other by done. unfold h1. by rewrite upd_same.
    + apply dseg_upd; [done|]. apply (dseg_first_prev _ (Some q)); [done|]. by apply dseg_upd.
Qed.

Lemma relink_pkts h e j p u : map (node_pkt (relink h e j p)) u = map (node_pkt h) u.
Proof. unfold relink. rewrite !node_pkt_upd by done. destruct p; by rewrite ?node_pkt_upd by done. Qed.

Lemma relink_fseg h e j p s f : e ∉ f -> j ∉ f -> (forall q, p = Some q -> q ∉ f) -> fseg h s f -> fseg (relink h e j p) s f.
Proof.
  intros He Hj Hq H. unfold relink. apply fseg_upd; [done|]. apply fseg_upd; [done|].
  destruct p as [q|]; [apply fseg_upd; [by apply Hq|]|]; by apply fseg_upd.
Qed.

Lemma last_or_elem u q : last_or None u = Some q -> q ∈ u.
Proof. unfold last_or. destruct (last u) eqn:E; [|done]. intros [= <-]. by apply last_Some_elem_of. Qed.

Lemma link_linked x e u f : linked1 x e u f ->
  exists x' u', link e x = Some x' /\ linked x' u' f /\
    map (node_pkt (nodes x')) u' = insert_pkt (node_pkt (nodes x) e) (map (node_pkt (nodes x)) u).
Proof.
  intros (Hd & Hh & Ht & Hf & Hn & Hl). unfold link, insert_pkt. rewrite Ht.
  pose proof Hn as Hn'. apply NoDup_cons in Hn' as [He Hn']. apply not_elem_of_app in He as [Heu Hef].
  destruct (decide (u = [])) as [->|Hne].
  - cbn [last_or last with_node map]. eexists _, [e]. split; [done|]. nodes_simpl. split; [|by apply node_pkt_upd].
    split; [cbn; by rewrite upd_same|]. split; [done|]. split; [done|]. split; [by apply fseg_upd|]. done.
  - destruct (last_or_split u Hne) as (v & t & -> & Et). rewrite Et.
    assert (El : last (map (node_pkt (nodes x)) (v ++ [t])) = Some (node_pkt (nodes x) t))
      by (rewrite map_app; apply last_snoc).
    rewrite El.
    assert (Hte : t <> e) by (intros ->; apply Heu, elem_of_app; right; left).
    change (packet_less (nodes x t) (nodes x e)) with (pkt_less (node_pkt (nodes x) t) (node_pkt (nodes x) e)).
    destruct (pkt_less (node_pkt (nodes x) t) (node_pkt (nodes x) e)).
    + cbn [with_node mbind option_bind]. eexists _, ((v ++ [t]) ++ [e]). split; [done|]. nodes_simpl. split.
      * split; [|split; [|split; [by rewrite last_or_snoc|split]]].
        -- apply dseg_app. rewrite last_or_snoc. cbn [first_or dseg]. rewrite !upd_same. cbn. split; [|done].
           do 2 (apply dseg_upd; [done|]). apply (dseg_last_next _ _ _ _ None); [|done].
           intros Hx. rewrite <- app_assoc in Hn'. apply NoDup_app in Hn' as (_ & Hx' & _). apply (Hx' _ Hx). left.
        -- rewrite Hh, !first_or_app. by destruct v.
        -- do 2 (apply fseg_upd; [done|]). apply fseg_upd; [|done]. apply NoDup_app in Hn' as (_ & Hx & _).
           apply Hx, elem_of_app. right. left.
        -- rewrite <- (app_assoc (v ++ [t]) [e] f). cbn [app]. rewrite <- Permutation_middle. done.
      * rewrite map_app, !node_pkt_upd by done. done.
    + destruct (find_place_spec (nodes x) e v t None N_PACKETS Hd) as (u1 & j & u2 & -> & E & Hj & Hr).
      { cbn in Hl. rewrite !length_app in Hl. cbn in Hl. lia. }
      cbn [mbind option_bind]. rewrite Hj. rewrite E in *. clear E.
      assert (Hjf : j ∉ f). { apply NoDup_app in Hn' as (_ & Hx & _). apply Hx, elem_of_app. right. left. }
      assert (Hqf : forall q, last_or None u1 = Some q -> q ∉ f).
      { intros q Hq. apply NoDup_app in Hn' as (_ & Hx & _). apply Hx, elem_of_app. left. by apply last_or_elem. }
      exists (mk_nodes (relink (nodes x) e j (last_or None u1)) (m_free_packets x) (first_or None (u1 ++ e :: j :: u2)) (Some t)),
        (u1 ++ e :: j :: u2). split; [|split].
      * unfold relink. destruct (decide (u1 = [])) as [->|Hu]; [cbn; nodes_simpl; by rewrite Ht, ?Et|].
        destruct (last_or_split u1 Hu) as (w & q & -> & ->). cbn [with_node mbind option_bind]. nodes_simpl.
        rewrite Ht, Et, Hh, !first_or_app. by destruct w.
      * split; [apply relink_dseg; [done|]|]. { rewrite app_comm_cons in Hn. by apply NoDup_app in Hn as (? & _). }
        split; [done|]. cbn [m_tail nodes m_free_packets]. split; [rewrite <- Et; unfold last_or; by rewrite !last_app_cons, !last_cons_cons|].
        split; [by apply relink_fseg|]. rewrite <- app_assoc. cbn [app]. rewrite <- !app_assoc in Hn, Hl. cbn [app] in *.
        rewrite <- Permutation_middle. done.
      * cbn [nodes]. rewrite relink_pkts, map_app. cbn [map]. symmetry. exact Hr.
Qed.

Lemma unlink_head_linked x i u f : linked x (i :: u) f ->
  linked (unlink_head i x) u (i :: f) /\ map (node_pkt (nodes (unlink_head i x))) u = map (node_pkt (nodes x)) u.
Proof.
  intros (Hd & Hh & Ht & Hf & Hn & Hl). apply dseg_cons in Hd as (_ & Hx & Hd).
  pose proof Hn as Hn'. cbn [app] in Hn'. apply NoDup_cons in Hn' as [Hi Hn']. apply not_elem_of_app in Hi as [Hiu Hif].
  assert (Hp : i :: u ++ f ≡ₚ u ++ i :: f) by (by rewrite Permutation_middle).
  cbn [app] in Hn, Hl. unfold unlink_head, free. destruct u as [|j u].
  - nodes_simpl. rewrite Hx. cbn [first_or m_head set_tail]. nodes_simpl. split; [|done].
    split; [done|]. split; [done|]. split; [done|]. split; [|done]. cbn [fseg]. rewrite upd_same.
    split; [done|]. cbn. by apply fseg_upd.
  - assert (Hjf : j ∉ f) by (apply NoDup_app in Hn' as (_ & Hy & _); apply Hy; left).
    assert (Hju : j ∉ u) by (apply NoDup_app in Hn' as (Hy & _); by apply NoDup_cons in Hy as [? _]).
    nodes_simpl. rewrite Hx. cbn [first_or]. nodes_simpl. split; [|by rewrite !node_pkt_upd by done].
    split; [apply dseg_upd; [done|]; by apply (dseg_first_prev _ (Some i))|]. split; [done|].
    split; [rewrite Ht; by rewrite last_or_cons, !last_or_cons|].
    split; [cbn [fseg]; rewrite upd_same; split; [done|]; cbn; apply fseg_upd; [done|]; by apply fseg_upd|].
    by rewrite <- Hp.
Qed.

Lemma throw_old_linked fuel get_ts x u f : linked x u f -> (length u <= fuel)%nat ->
  exists x' u' f', throw_old fuel get_ts x = Some x' /\ linked x' u' f' /\
    map (node_pkt (nodes x')) u' = q_drop get_ts (map (node_pkt (nodes x)) u).
Proof.
  revert x u f. induction fuel as [|fuel IH]; intros x u f Hx Hl; pose proof Hx as (_ & Hh & _);
    (destruct u as [|i u]; cbn [first_or] in Hh; [cbn [throw_old]; rewrite Hh; by exists x, [], f|]);
    [cbn in Hl; lia|]. cbn [throw_old]. rewrite Hh. cbn [map q_drop].
  change (ts_less (u32 (m_ts (nodes x i) + m_size (nodes x i))) get_ts) with (too_old get_ts (node_pkt (nodes x) i)).
  destruct (too_old get_ts (node_pkt (nodes x) i)); [|by exists x, (i :: u), f].
  destruct (unlink_head_linked x i u f Hx) as [Hy Hm]. cbn in Hl.
  destruct (IH _ _ _ Hy) as (x' & u' & f' & E & Hx' & Hq); [lia|]. exists x', u', f'. by rewrite E, Hq, Hm.
Qed.

(** ** The list implements the specification *)

Definition jb_rep (b : jitter_buffer) (s : list pkt * jb_clock) : Prop :=
  holds_packets (jb_nodes b) (s.1) /\ jb_time b = s.2.

Lemma fseg_new k n : (k + n = N_PACKETS)%nat -> (0 < n)%nat -> fseg (nodes new_nodes) (Some k) (seq k n).
Proof.
  revert k. induction n as [|n IH]; intros k Hk Hn; [lia|]. cbn [seq fseg]. split; [done|].
  change (m_next (nodes new_nodes k)) with (if Nat.ltb (S k) N_PACKETS then Some (S k) else None).
  destruct (Nat.ltb_spec (S k) N_PACKETS); [apply IH; lia|]. replace n with 0%nat by lia. done.
Qed.

Lemma new_jb_rep : jb_rep new_jitter_buffer ([], clock0).
Proof.
  split; [|done]. exists [], (seq 0 N_PACKETS). split; [|done]. split; [done|]. split; [done|]. split; [done|].
  split; [by apply fseg_new; unfold N_PACKETS; lia|]. split; [apply NoDup_seq|]. apply length_seq.
Qed.

Lemma linked_length x u f : linked x u f -> (length u <= N_PACKETS)%nat.
Proof. intros (_ & _ & _ & _ & _ & Hl). rewrite length_app in Hl. lia. Qed.

Lemma jb_put_rep b s data ts bt : jb_rep b s ->
  exists b', put data ts bt b = Some b' /\ jb_rep b' (spec_put data ts bt s).
Proof.
  intros [(u & f & Hx & Hq) Hk]. unfold put, spec_put. rewrite Hk. destruct (put_jitter ts bt (s.2)) as [k [|]].
  - eexists. split; [done|]. split; [by exists u, f|done].
  - destruct (take_node_linked data ts _ u f Hx) as (x1 & e & u1 & f1 & -> & H1 & He & Hm). cbn [mbind option_bind].
    destruct (link_linked _ _ _ _ H1) as (x2 & u2 & -> & H2 & Hm2). cbn [mbind option_bind].
    eexists. split; [done|]. split; [|done]. exists u2, f1. split; [done|].
    cbn [fst jb_nodes]. rewrite Hm2, He, Hm, <- Hq. done.
Qed.

Lemma jb_get_rep b s ts ms : jb_rep b s ->
  exists b', get ts ms b = Some (b', (spec_get ts ms s).2) /\ jb_rep b' (spec_get ts ms s).1.
Proof.
  intros [(u & f & Hx & Hq) Hk]. unfold get, spec_get. rewrite Hk.
  destruct (m_tsInited (s.2)); cbn [negb]; [|exists b; split; [done|]; split; [by exists u, f|done]].
  destruct (throw_old_linked N_PACKETS (get_time ts (get_resync ts ms (s.2))) _ u f Hx (linked_length _ _ _ Hx))
    as (x1 & u1 & f1 & -> & H1 & Hm). cbn [mbind option_bind]. rewrite Hq, <- Hm.
  pose proof H1 as (_ & Hh & _). rewrite Hh. destruct u1 as [|i u1]; cbn [first_or map].
  - eexists. split; [done|]. split; [by exists [], f1|done].
  - change ((node_pkt (nodes x1) i).1) with (m_ts (nodes x1 i)).
    destruct (ts_less (m_ts (nodes x1 i)) _).
    + destruct (unlink_head_linked x1 i u1 f1 H1) as [H2 Hm2]. eexists. split; [done|]. split; [|done].
      exists u1, (i :: f1). split; [done|]. cbn [fst jb_nodes]. by rewrite Hm2.
    + eexists. split; [done|]. split; [by exists (i :: u1), f1|done].
Qed.

(** ** Runs *)

Inductive jb_op := Put (data : list Z) (ts : Z) (begin_talk : bool) | Get (ts ms : Z).

Fixpoint run_jb (ops : list jb_op) (b : jitter_buffer) : option (jitter_buffer * list (option (list Z * Z))) :=
  match ops with
  | [] => Some (b, [])
  | Put data ts bt :: ops => b ← put data ts bt b; run_jb ops b
  | Get ts ms :: ops =>
      '(b, o) ← get ts ms b; '(b, os) ← run_jb ops b; Some (b, o :: os)
  end.

Fixpoint run_spec (ops : list jb_op) (s : list pkt * jb_clock) : (list pkt * jb_clock) * list (option (list Z * Z)) :=
  match ops with
  | [] => (s, [])
  | Put data ts bt :: ops => run_spec ops (spec_put data ts bt s)
  | Get ts ms :: ops =>
      let '(s, o) := spec_get ts ms s in let '(s, os) := run_spec ops s in (s, o :: os)
  end.

Lemma run_jb_rep ops b s : jb_rep b s ->
  exists b', run_jb ops b = Some (b', (run_spec ops s).2) /\ jb_rep b' (run_spec ops s).1.
Proof.
  revert b s. induction ops as [|[data ts bt|ts ms] ops IH]; intros b s H; cbn [run_jb run_spec].
  - by exists b.
  - destruct (jb_put_rep b s data ts bt H) as (b' & -> & H'). cbn [mbind option_bind]. by apply IH.
  - destruct (jb_get_rep b s ts ms H) as (b' & -> & H'). cbn [mbind option_bind].
    destruct (spec_get ts ms s) as [s' o]. cbn [fst snd] in *. destruct (IH _ _ H') as (b2 & -> & H2).
    cbn [mbind option_bind]. destruct (run_spec ops s') as [s2 os]. by exists b2.
Qed.

(** C25: The doubly linked list of packets with its allocator implements a list of at most 800
    packets: whatever is put and got, no null pointer is followed, no packet is lost or shared
    (the list and the free nodes together are always the 800 nodes), and the same packets are
    handed out at the same times. *)
Theorem jitter_buffer_refines ops :
  exists b, run_jb ops new_jitter_buffer = Some (b, (run_spec ops ([], clock0)).2) /\
    jb_rep b (run_spec ops ([], clock0)).1.
Proof. exact (run_jb_rep ops _ _ new_jb_rep). Qed.

(** ** Order *)

(** The time a stamp stands for, near [base]. *)
Definition time_of (base ts : Z) : Z :=
  let d := u32 (ts - base) in base + (if d <? 2147483648 then d else d - 4294967296).

Definition when (base : Z) (e : pkt) : Z := time_of base (e.1).

Definition in_window (base : Z) (e : pkt) : Prop := Z.abs (when base e - base) < 1073741824.

Definition ordered (base : Z) (q : list pkt) : Prop :=
  Forall (in_window base) q /\ StronglySorted (fun a b => when base a <= when base b) q.

Lemma ts_less_when base a b : in_window base a -> in_window base b -> pkt_less a b = (when base a <? when base b).
Proof.
  unfold in_window, when, time_of, pkt_less, ts_less. intros Ha Hb.
  pose proof (u32_range (a.1 - base)) as Ra. pose proof (u32_range (b.1 - base)) as Rb.
  replace (u32 (a.1 - b.1)) with (u32 (u32 (a.1 - base) - u32 (b.1 - base)))
    by (rewrite u32_sub; f_equal; lia).
  unfold is_u32, u32_mod in *. revert Ra Rb Ha Hb. generalize (u32 (a.1 - base)) as x, (u32 (b.1 - base)) as y. intros x y Rx Ry.
  destruct (Z.le_gt_cases 0 (x - y)).
  - rewrite u32_small by (unfold is_u32, u32_mod; lia). bools; lia.
  - rewrite u32_below by (unfold u32_mod; lia). unfold u32_mod. bools; lia.
Qed.

Lemma pkt_less_asym a b : pkt_less a b = true -> pkt_less b a = false.
Proof.
  unfold pkt_less, ts_less. intros H%Z.ltb_lt. apply Z.ltb_ge.
  pose proof (u32_range (a.1 - b.1)) as R. unfold is_u32, u32_mod in R.
  replace (b.1 - a.1) with (0 - (a.1 - b.1)) by lia. rewrite <- u32_sub_r, u32_below by (unfold u32_mod; lia).
  unfold u32_mod. lia.
Qed.

(** Where [place] puts the packet in the reversed list. *)
Lemma place_split e i r : pkt_less i e = false ->
  exists r1 r2, i :: r = r1 ++ r2 /\ place e (i :: r) = r1 ++ e :: r2 /\ r1 <> [] /\
    match last r1 with Some x => pkt_less x e = false | None => True end /\
    match r2 with x :: _ => pkt_less e x = false | [] => True end.
Proof.
  revert i. induction r as [|p r IH]; intros i Hi.
  - exists [i], []. done.
  - rewrite place_2. destruct (pkt_less e p) eqn:E.
    + destruct (IH p (pkt_less_asym _ _ E)) as (r1 & r2 & E1 & -> & Hn & Hl & Hr).
      exists (i :: r1), r2. split; [by rewrite E1|]. split; [done|]. split; [done|].
      rewrite last_cons. destruct (last r1) eqn:El; [done|]. by apply last_None in El.
    + exists [i], (p :: r). done.
Qed.

Lemma insert_split e q : exists q1 q2, q = q1 ++ q2 /\ insert_pkt e q = q1 ++ e :: q2 /\
  match last q1 with Some x => pkt_less e x = false | None => True end /\
  match q2 with x :: _ => pkt_less x e = false | [] => True end.
Proof.
  unfold insert_pkt. destruct (last q) as [t|] eqn:El.
  - destruct (pkt_less t e) eqn:E.
    + exists q, []. rewrite app_nil_r, El. eauto using pkt_less_asym.
    + apply last_Some in El as [q' ->]. rewrite reverse_snoc.
      destruct (place_split e t (reverse q') E) as (r1 & r2 & E1 & -> & Hn & Hl & Hr).
      exists (reverse r2), (reverse r1). split; [|split; [|split]].
      * apply (f_equal reverse) in E1. rewrite reverse_cons, reverse_involutive, reverse_app in E1. done.
      * by rewrite reverse_app, reverse_cons, <- app_assoc.
      * destruct r2 as [|y r2]; [done|]. by rewrite reverse_cons, last_snoc.
      * destruct (last r1) as [y|] eqn:Ey; [|by apply last_None in Ey].
        apply last_Some in Ey as [r ->]. by rewrite reverse_snoc.
  - apply last_None in El as ->. by exists [], [].
Qed.

Lemma sorted_insert {A} (R : A -> A -> Prop) `{!Transitive R} l1 l2 e : StronglySorted R (l1 ++ l2) ->
  match last l1 with Some x => R x e | None => True end ->
  match l2 with x :: _ => R e x | [] => True end -> StronglySorted R (l1 ++ e :: l2).
Proof.
  intros Hs H1 H2. induction l1 as [|a l1 IH]; cbn [app] in *.
  - constructor; [done|]. destruct l2 as [|x l2]; [done|]. inversion_clear Hs as [|? ? Hs' Hx].
    constructor; [done|]. eapply Forall_impl; [exact Hx|]. intros y Hy. by etrans.
  - inversion_clear Hs as [|? ? Hs' Ha]. rewrite last_cons in H1. constructor.
    + apply IH; [done|]. by destruct (last l1).
    + apply Forall_app in Ha as [Ha1 Ha2]. apply Forall_app. split; [done|]. constructor; [|done].
      destruct (last l1) as [x|] eqn:E; [|done]. etrans; [|exact H1].
      rewrite Forall_forall in Ha1. apply Ha1. by apply last_Some_elem_of.
Qed.

Lemma ordered_insert base e q : ordered base q -> in_window base e -> ordered base (insert_pkt e q).
Proof.
  intros [Hw Hs] He. destruct (insert_split e q) as (q1 & q2 & -> & -> & H1 & H2).
  apply Forall_app in Hw as [W1 W2]. split; [apply Forall_app; split; [done|by constructor]|].
  apply sorted_insert; [intros a b d; lia|done| |].
  - destruct (last q1) as [x|] eqn:E; [|done]. rewrite Forall_forall in W1.
    rewrite (ts_less_when base) in H1; [by apply Z.ltb_ge in H1|done|]. by apply W1, last_Some_elem_of.
  - destruct q2 as [|x q2]; [done|]. inversion_clear W2. rewrite (ts_less_when base) in H2 by done. by apply Z.ltb_ge in H2.
Qed.

Lemma ordered_suffix base q1 q2 : ordered base (q1 ++ q2) -> ordered base q2.
Proof.
  intros [Hw Hs]. split; [by apply Forall_app in Hw as [_ ?]|]. clear Hw. induction q1 as [|a q1 IH]; [done|].
  apply IH. by inversion_clear Hs.
Qed.

Lemma q_drop_split g q : exists old, q = old ++ q_drop g q /\ Forall (fun e => too_old g e = true) old.
Proof.
  induction q as [|e q (old & E & Ho)]; [by exists []|]. cbn. destruct (too_old g e) eqn:Ee; [|by exists []].
  exists (e :: old). split; [cbn; by rewrite <- E|]. by constructor.
Qed.

Lemma q_drop_head g q : match q_drop g q with e :: _ => too_old g e = false | [] => True end.
Proof. induction q as [|e q IH]; [done|]. cbn. by destruct (too_old g e) eqn:?. Qed.

Lemma ordered_put base e q : ordered base q -> in_window base e -> ordered base (q_put e q).
Proof.
  intros Hq He. unfold q_put. apply ordered_insert; [|done]. destruct (Nat.ltb _ _); [done|].
  destruct q as [|a q]; [done|]. by apply (ordered_suffix base [a]).
Qed.

(** The operations whose packets have stamps near [base]. *)
Definition op_near (base : Z) (o : jb_op) : Prop :=
  match o with Put data ts _ => in_window base (new_pkt data ts) | Get _ _ => True end.

Lemma spec_get_suffix ts ms s : exists old, s.1 = old ++ (spec_get ts ms s).1.1.
Proof.
  unfold spec_get. destruct (negb _); [by exists []|].
  destruct (q_drop_split (get_time ts (get_resync ts ms s.2)) (s.1)) as (old & E & _).
  destruct (q_drop _ (s.1)) as [|e q]; [by exists old|]. destruct (ts_less _ _); cbn [fst]; [|by exists old].
  exists (old ++ [e]). by rewrite <- app_assoc.
Qed.

Lemma run_spec_ordered base ops s : Forall (op_near base) ops -> ordered base (s.1) -> ordered base (run_spec ops s).1.1.
Proof.
  intros Ho. revert s. induction Ho as [|[data ts bt|ts ms] ops Hop _ IH]; intros s Hs; cbn [run_spec]; [done| |].
  - apply IH. unfold spec_put. destruct (put_jitter ts bt (s.2)) as [k [|]]; [done|]. by apply ordered_put.
  - destruct (spec_get_suffix ts ms s) as [old E]. destruct (spec_get ts ms s) as [s' o]. cbn [fst] in E.
    specialize (IH s'). destruct (run_spec ops s') as [s2 os]. apply IH. apply (ordered_suffix base old). by rewrite <- E.
Qed.

(** As long as the RTP time stamps stay within a window of 2^31, whatever has been put and
    got before, the buffer holds its packets in the order of their times, and a [get] throws
    away only packets that end before the play-out time, hands out the earliest of the others
    with its samples and its audio time, and keeps the rest. *)
Theorem jitter_buffer_in_order base ops ts ms : Forall (op_near base) ops ->
  exists b q k, run_jb ops new_jitter_buffer = Some (b, (run_spec ops ([], clock0)).2) /\
    jb_rep b (q, k) /\ ordered base q /\
    forall b' data at_ts, get ts ms b = Some (b', Some (data, at_ts)) ->
      exists old e q' k', q = old ++ e :: q' /\ k' = get_resync ts ms k /\ jb_rep b' (q', k') /\
        Forall (fun x => too_old (get_time ts k') x = true) old /\ too_old (get_time ts k') e = false /\
        data = e.2 /\ at_ts = audio_time (e.1) k' /\ Forall (fun x => when base e <= when base x) q'.
Proof.
  intros Ho. destruct (run_jb_rep ops _ _ new_jb_rep) as (b & Hr & Hb).
  pose proof (run_spec_ordered base ops ([], clock0) Ho) as Hq.
  destruct ((run_spec ops ([], clock0)).1) as [q k]. exists b, q, k. split; [done|]. split; [done|].
  assert (Hord : ordered base q) by (apply Hq; split; constructor). split; [done|].
  intros b' data at_ts Hg. destruct (jb_get_rep b (q, k) ts ms Hb) as (b2 & E & Hb2). rewrite Hg in E.
  injection E as <- E. revert Hb2 E. unfold spec_get. cbn [fst snd]. destruct (negb _); [done|].
  destruct (q_drop_split (get_time ts (get_resync ts ms k)) q) as (old & Eq & Hold).
  assert (Hd := q_drop_head (get_time ts (get_resync ts ms k)) q).
  destruct (q_drop _ q) as [|e q']; [done|]. destruct (ts_less _ _); [|done]. cbn [fst snd]. intros Hb2 [= -> ->].
  exists old, e, q', (get_resync ts ms k). repeat (split; [done|]).
  rewrite Eq in Hord. apply ordered_suffix in Hord as [_ Hs]. by inversion_clear Hs.
Qed.

(** Three packets that arrive out of order. *)
Definition demo_ops : list jb_op :=
  [Put [1; 2] 4294967200 false; Put [5; 6] 100 false; Put [3; 4] 0 false; Get 7 160].

Lemma jitter_buffer_in_order_witness :
  exists b q k, run_jb demo_ops new_jitter_buffer = Some (b, [None]) /\ jb_rep b (q, k) /\ ordered 0 q /\
    q = [(4294967200, [1; 2]); (0, [3; 4]); (100, [5; 6])].
Proof.
  destruct (jitter_buffer_in_order 0 demo_ops 8 160) as (b & q & k & E & Hb & Hq & _);
    [repeat constructor; vm_compute; reflexivity|].
  exists b, q, k. split; [rewrite E; reflexivity|]. split; [done|]. split; [done|].
  destruct (run_jb_rep demo_ops _ _ new_jb_rep) as (b2 & E2 & (u2 & f2 & H2 & Hu2) & _).
  rewrite E in E2. injection E2 as <-. destruct Hb as [(u & f & H & Hu) _]. cbn [fst] in Hu.
  assert (u = u2) as ->; [|rewrite Hu, <- Hu2; reflexivity].
  destruct H as (Hd & Hh & _), H2 as (Hd2 & Hh2 & _). rewrite Hh in Hh2. clear -Hd Hd2 Hh2.
  revert Hd Hd2 Hh2. generalize (@None nat) at 1 3. revert u2.
  induction u as [|i u IH]; intros [|j v] p; cbn; try done. intros (_ & Hn & Hu) (_ & Hn' & Hv) [= ->].
  f_equal. by apply (IH v (Some j)); [..|rewrite <- Hn, Hn'].
Defined.

(** When a packet comes earlier than expected, [get] means to move the play-out point to the
    end of the data, as it does when the mapping is set up: RTP time [m_lastTs + ms].  It adds
    the new difference to the old one instead of replacing it, so that the point is off by the
    old difference of the two clocks; in the run the packets that just arrived are thrown away. *)
Theorem forward_resync_overshoots :
  (forall ts ms k, m_tsDeltaInited k = true -> m_forceResync k = false -> m_lastAudioTs k <> ts ->
     m_lastResyncTs k <> m_lastTs k -> ts_less (u32 (ts + m_tsDelta k)) (m_lastTs k) = true ->
     u32 (ts + m_tsDelta (get_resync ts ms k)) = u32 (m_lastTs k + ms + m_tsDelta k)) /\
  (let ops := [Put [1] 1000000 false; Get 0 160; Put [2] 1008000 false; Put [3] 1008160 false] in
   (run_spec ops ([], clock0)).1.1 = [(1000000, [1]); (1008000, [2]); (1008160, [3])] /\
   (run_spec (ops ++ [Get 160 160]) ([], clock0)).1.1 = []).
Proof.
  split; [|by vm_compute].
  intros ts ms k Hi Hf Ha Hr Hl. unfold get_resync. rewrite Hi, Hf, Hl.
  rewrite (proj2 (Z.eqb_neq _ _) Ha), (proj2 (Z.eqb_neq _ _) Hr). cbn [negb orb andb m_tsDelta].
  unfold u32. rewrite Zplus_mod_idemp_r, Zplus_assoc, Zplus_mod_idemp_r. f_equal. lia.
Qed.
