(* ===== verification/PlayoutBuffer.v ===== *)
(** * Playout buffers

    Model of core/AmPlayoutBuffer.h and AmPlayoutBuffer.cpp without the adaptive buffer (its
    time scaling computes with floating-point numbers): the simple playout buffer
    ([AmPlayoutBuffer]), which plays the received samples one after another, and the one over
    the jitter buffer ([AmJbPlayout]), which plays them at their time stamps.

    Lost packets are concealed through the interface [AmPLCBuffer]; its default
    implementation in core/AmRtpAudio.cpp works in frames of 10 ms over a generator of speech
    (LowcFE.cpp, floating point), which is a parameter.  Accesses outside of a buffer are
    faults ([None]). *)

From Stdlib Require Import ZArith Lia.
From stdpp Require Import base list sorting.
From S2P Require Import Prelude SampleArray JitterBuffer.

Local Open Scope Z_scope.
Local Open Scope bool_scope.

(** ** Concealment of lost packets *)

(** [AmPLCBuffer] *)
Class PLC (P : Type) := {
  add_to_history : list Z -> P -> P;
  conceal_loss : Z -> P -> P * list Z
}.

(** What the buffers rely on: not more samples than were lost. *)
Class PLCOk (P : Type) `{!PLC P} := {
  conceal_length : forall n p, 0 <= n -> Z.of_nat (length (conceal_loss n p).2) <= n
}.

(** [LowcFE]: one frame of speech, and a good frame for the history. *)
Class Fec (F : Type) := {
  dofe : F -> F * list Z;
  addtohistory : list Z -> F -> F
}.

Section DefaultPLC.
Context {F : Type} `{!Fec F} (sample_rate : Z).

Definition FRAMESZ : Z := 10 * sample_rate / 1000.

(** The loop of [AmRtpAudio::default_plc]. *)
Fixpoint plc_frames (n : nat) (f : F) : F * list Z :=
  match n with
  | O => (f, [])
  | S n => let '(f, s) := dofe f in let '(f, l) := plc_frames n f in (f, take (Z.to_nat FRAMESZ) s ++ l)
  end.

Definition default_plc (n : Z) (f : F) : F * list Z := plc_frames (Z.to_nat (n / FRAMESZ)) f.

(** The loop of [AmRtpAudio::add_to_history]. *)
Fixpoint history_frames (n : nat) (l : list Z) (f : F) : F :=
  match n with
  | O => f
  | S n => history_frames n (drop (Z.to_nat FRAMESZ) l) (addtohistory (take (Z.to_nat FRAMESZ) l) f)
  end.

Definition default_history (l : list Z) (f : F) : F :=
  history_frames (Z.to_nat (Z.of_nat (length l) / FRAMESZ)) l f.

Definition default_PLC : PLC F := {| add_to_history := default_history; conceal_loss := default_plc |}.

Lemma plc_frames_length n f : 0 <= FRAMESZ -> Z.of_nat (length (plc_frames n f).2) <= Z.of_nat n * FRAMESZ.
Proof.
  intros H0. revert f. induction n as [|n IH]; intros f; [done|]. cbn [plc_frames]. destruct (dofe f) as [f1 s].
  specialize (IH f1). destruct (plc_frames n f1) as [f2 l]. cbn [snd] in *. rewrite length_app, length_take. lia.
Qed.

Lemma default_PLC_ok : 0 < FRAMESZ -> @PLCOk F default_PLC.
Proof.
  intros H0. constructor. intros n p Hn. cbn [conceal_loss default_PLC]. unfold default_plc.
  pose proof (plc_frames_length (Z.to_nat (n / FRAMESZ)) p). pose proof (Z.mul_div_le n FRAMESZ H0).
  pose proof (Z.div_pos n FRAMESZ Hn H0). lia.
Qed.

End DefaultPLC.

Section Playout.
Context {P : Type} `{!PLC P} (sample_rate : Z).

(** ** The simple buffer *)

Record playout := mk_playout {
  buffer : sample_array;
  r_ts : Z;
  w_ts : Z;
  po_last_ts : Z;
  last_ts_i : bool;
  recv_offset : Z;
  recv_offset_i : bool;
  plcbuffer : P
}.

Definition set_buffer (b : sample_array) (s : playout) :=
  mk_playout b (r_ts s) (w_ts s) (po_last_ts s) (last_ts_i s) (recv_offset s) (recv_offset_i s) (plcbuffer s).
Definition set_r_ts (t : Z) (s : playout) :=
  mk_playout (buffer s) t (w_ts s) (po_last_ts s) (last_ts_i s) (recv_offset s) (recv_offset_i s) (plcbuffer s).
Definition set_w_ts (t : Z) (s : playout) :=
  mk_playout (buffer s) (r_ts s) t (po_last_ts s) (last_ts_i s) (recv_offset s) (recv_offset_i s) (plcbuffer s).
Definition set_last (t : Z) (i : bool) (s : playout) :=
  mk_playout (buffer s) (r_ts s) (w_ts s) t i (recv_offset s) (recv_offset_i s) (plcbuffer s).
Definition set_recv (o : Z) (s : playout) :=
  mk_playout (buffer s) (r_ts s) (w_ts s) (po_last_ts s) (last_ts_i s) o true (plcbuffer s).
Definition set_plc (p : P) (s : playout) :=
  mk_playout (buffer s) (r_ts s) (w_ts s) (po_last_ts s) (last_ts_i s) (recv_offset s) (recv_offset_i s) p.

Definition MAX_DELAY : Z := sample_rate * 1.
Definition PLC_MAX_SAMPLES : Z := 4 * 20 * sample_rate / 1000.

(** [AmPlayoutBuffer::AmPlayoutBuffer] *)
Definition new_playout (p : P) : playout := mk_playout (mk_sa (fun _ => 0) 0 false) 0 0 0 false 0 false p.

Definition clearLastTs (s : playout) : playout := set_last (po_last_ts s) false s.

Definition buffer_put (ts : Z) (buf : list Z) (s : playout) : option playout :=
  b ← SampleArray.put ts buf (buffer s);
  let e := u32 (ts + Z.of_nat (length buf)) in
  let s := set_buffer b s in
  Some (if ts_less (w_ts s) e then set_w_ts e s else s).

Definition buffer_get (ts len : Z) (s : playout) : option (playout * list Z) :=
  l ← SampleArray.get ts len (buffer s);
  let e := u32 (ts + len) in
  Some (if ts_less (r_ts s) e then set_r_ts e s else s, l).

(** [m_plcbuffer->conceal_loss(n,tmp)] into a buffer of [cap] samples. *)
Definition conceal_into (cap n : Z) (s : playout) : option (playout * list Z) :=
  let '(p, l) := conceal_loss n (plcbuffer s) in
  if Z.of_nat (length l) <=? cap then Some (set_plc p s, l) else None.

(** The first part of [AmPlayoutBuffer::write]: the time of the packet in the buffer. *)
Definition map_ts (ref_ts rtp_ts : Z) (s : playout) : playout * Z :=
  let start := (set_w_ts ref_ts (set_r_ts ref_ts (set_recv (u32 (rtp_ts - ref_ts)) s)), ref_ts) in
  if negb (recv_offset_i s) then start
  else
    let mapped_ts := u32 (rtp_ts - recv_offset s) in
    if ts_less mapped_ts (u32 (ref_ts - MAX_DELAY / 2)) || negb (ts_less mapped_ts (u32 (ref_ts + MAX_DELAY)))
    then start else (s, mapped_ts).

(** The gap before the packet is concealed. *)
Definition conceal_gap (mapped_ts : Z) (begin_talk : bool) (s : playout) : option playout :=
  if ts_less (po_last_ts s) mapped_ts && negb begin_talk && (u32 (mapped_ts - po_last_ts s) <=? PLC_MAX_SAMPLES)
  then
    '(s, l) ← conceal_into AUDIO_BUFFER_SIZE (u32 (mapped_ts - po_last_ts s)) s;
    (if Nat.eqb (length l) 0 then Some s else buffer_put (w_ts s) l s)
  else Some s.

Definition write (ref_ts rtp_ts : Z) (buf : list Z) (begin_talk : bool) (s : playout) : option playout :=
  let '(s, mapped_ts) := map_ts ref_ts rtp_ts s in
  let s := if last_ts_i s then s else set_last mapped_ts true s in
  s ← conceal_gap mapped_ts begin_talk s;
  let s := set_plc (add_to_history buf (plcbuffer s)) s in
  s ← buffer_put (w_ts s) buf s;
  Some (if ts_less (po_last_ts s) mapped_ts || (po_last_ts s =? mapped_ts)
        then set_last (u32 (mapped_ts + Z.of_nat (length buf))) (last_ts_i s) s else s).

(** Samples in [AUDIO_BUFFER_SIZE] bytes. *)
Definition READ_MAX : Z := AUDIO_BUFFER_SIZE / 2.

Definition read (ts len : Z) (s : playout) : option (playout * list Z) :=
  if ts_less (r_ts s) (w_ts s) then
    let rlen := if ts_less (u32 (r_ts s + READ_MAX)) (w_ts s) then READ_MAX else u32 (w_ts s - r_ts s) in
    buffer_get (r_ts s) (Z.min rlen len) s
  else Some (s, []).

(** ** The buffer over the jitter buffer *)

Record jb_playout := mk_jbp { jp_base : playout; m_jb : jitter_buffer; m_last_rtp_endts : Z }.

Definition new_jb_playout (p : P) : jb_playout := mk_jbp (new_playout p) new_jitter_buffer 0.

(** The local buffer of [prepare_buffer], in samples. *)
Definition PREPARE_BUF : Z := AUDIO_BUFFER_SIZE * 10.

(** A gap of [n] samples from [from] on is concealed. *)
Definition jb_conceal (from n : Z) (s : playout) : option playout :=
  '(s, l) ← conceal_into PREPARE_BUF n s;
  if Nat.eqb (length l) 0 then Some s else buffer_put from l s.

(** The body of the loop of [prepare_buffer], for a packet [buf] at [ts]. *)
Definition play_packet (buf : list Z) (ts : Z) (x : jb_playout) : option jb_playout :=
  s ← buffer_put ts buf (jp_base x);
  let s := set_plc (add_to_history buf (plcbuffer s)) s in
  s ← (if last_ts_i s && ts_less (m_last_rtp_endts x) ts
       then jb_conceal (m_last_rtp_endts x) (u32 (ts - m_last_rtp_endts x)) s else Some s);
  Some (mk_jbp (set_last (po_last_ts s) true s) (m_jb x) (u32 (ts + Z.of_nat (length buf)))).

Fixpoint prepare_loop (fuel : nat) (audio_ts ms : Z) (x : jb_playout) : option jb_playout :=
  '(b, o) ← JitterBuffer.get audio_ts ms (m_jb x);
  let x := mk_jbp (jp_base x) b (m_last_rtp_endts x) in
  match o with
  | None => Some x
  | Some (buf, ts) =>
      match fuel with
      | O => None
      | S fuel => x ← play_packet buf ts x; prepare_loop fuel audio_ts ms x
      end
  end.

Definition prepare_buffer (audio_ts ms : Z) (x : jb_playout) : option jb_playout :=
  x ← prepare_loop N_PACKETS audio_ts ms x;
  let e := u32 (audio_ts + ms) in
  if negb (last_ts_i (jp_base x)) then Some x
  else if ts_less (m_last_rtp_endts x) e then
    s ← jb_conceal (m_last_rtp_endts x) (u32 (audio_ts + ms - m_last_rtp_endts x)) (jp_base x);
    Some (mk_jbp s (m_jb x) e)
  else Some x.

Definition jb_read (ts len : Z) (x : jb_playout) : option (jb_playout * list Z) :=
  x ← prepare_buffer ts len x;
  '(s, l) ← buffer_get ts len (jp_base x);
  Some (mk_jbp s (m_jb x) (m_last_rtp_endts x), l).

Definition jb_write (ref_ts rtp_ts : Z) (buf : list Z) (begin_talk : bool) (x : jb_playout) : option jb_playout :=
  b ← JitterBuffer.put buf rtp_ts begin_talk (m_jb x);
  Some (mk_jbp (jp_base x) b (m_last_rtp_endts x)).

End Playout.

Arguments playout : clear implicits.
Arguments jb_playout : clear implicits.

(** ** Reading from the jitter buffer is safe *)

(** The difference of two time stamps as a signed number. *)
Definition sd (a b : Z) : Z := time_of 0 (u32 (a - b)).

Lemma u32_eq x : exists k, u32 x = x + 4294967296 * k /\ 0 <= u32 x < 4294967296.
Proof.
  exists (- (x / 4294967296)). pose proof (u32_range x) as R. unfold is_u32, u32_mod in R. split; [|done].
  unfold u32, u32_mod. pose proof (Z.div_mod x 4294967296). lia.
Qed.

Lemma sd_eq a b : exists k, sd a b = a - b + 4294967296 * k /\ -2147483648 <= sd a b < 2147483648.
Proof.
  unfold sd, time_of. rewrite Z.sub_0_r. rewrite u32_small by apply u32_range. destruct (u32_eq (a - b)) as (k & -> & Hr).
  destruct (Z.ltb_spec (a - b + 4294967296 * k) 2147483648); [exists k|exists (k - 1)]; lia.
Qed.

(** Turn a comparison of stamps into an inequality. *)
Lemma ts_less_sd a b : ts_less a b = true <-> -2147483648 < sd a b < 0.
Proof.
  unfold ts_less. rewrite Z.ltb_lt. destruct (u32_eq (a - b)) as (k & E & Hr), (sd_eq a b) as (j & E2 & Hr2). lia.
Qed.

Section JbSafe.
Context {P : Type} `{!PLC P} `{!PLCOk P}.

Definition sound_base (s : playout P) : Prop := is_u32 (last_ts (buffer s)).

Lemma buffer_put_safe ts buf (s : playout P) : is_u32 ts -> Z.of_nat (length buf) <= SIZE_MIX_BUFFER -> sound_base s ->
  exists s', buffer_put ts buf s = Some s' /\ sound_base s' /\ last_ts_i s' = last_ts_i s.
Proof.
  intros Ht Hb Hs. unfold buffer_put. destruct (put_safe ts buf (buffer s) Ht Hb Hs) as (b & -> & Hb').
  cbn [mbind option_bind]. eexists. split; [done|]. by destruct (ts_less _ _).
Qed.

Lemma jb_conceal_safe from n (s : playout P) : is_u32 from -> 0 <= n <= SIZE_MIX_BUFFER -> sound_base s ->
  exists s', jb_conceal from n s = Some s' /\ sound_base s' /\ last_ts_i s' = last_ts_i s.
Proof.
  intros Hf Hn Hs. unfold jb_conceal, conceal_into. pose proof (conceal_length n (plcbuffer s) ltac:(lia)) as Hl.
  destruct (conceal_loss n (plcbuffer s)) as [p l]. cbn [snd] in Hl.
  assert (SIZE_MIX_BUFFER = 16384 /\ PREPARE_BUF = 81920) as [Hz Hz2] by done.
  rewrite (proj2 (Z.leb_le _ _)) by lia. cbn [mbind option_bind].
  destruct (Nat.eqb (length l) 0); [by eexists|].
  destruct (buffer_put_safe from l (set_plc p s) Hf ltac:(lia) Hs) as (s' & -> & ? & ?). by exists s'.
Qed.

(** The end of what was played lies at most 2^14 samples before [e]. *)
Definition in_reach (e : Z) (x : jb_playout P) : Prop :=
  is_u32 (m_last_rtp_endts x) /\
  (last_ts_i (jp_base x) = true -> - SIZE_MIX_BUFFER <= sd (m_last_rtp_endts x) e <= 1073741824).

Lemma play_packet_safe buf ts e ms (x : jb_playout P) :
  Z.of_nat (length buf) <= SIZE_MIX_BUFFER -> is_u32 ts -> 0 <= ms <= SIZE_MIX_BUFFER ->
  - (ms + Z.of_nat (length buf)) <= sd ts e < 0 -> in_reach e x -> sound_base (jp_base x) ->
  exists x', play_packet buf ts x = Some x' /\ in_reach e x' /\ sound_base (jp_base x') /\ m_jb x' = m_jb x.
Proof.
  intros Hb Ht Hm Hd (Hu & Hr) Hs. assert (Hz : SIZE_MIX_BUFFER = 16384) by done. unfold play_packet.
  destruct (buffer_put_safe ts buf (jp_base x) Ht Hb Hs) as (s1 & -> & Hs1 & Hi1). cbn [mbind option_bind].
  assert (Hc : exists s2, (if last_ts_i (set_plc (add_to_history buf (plcbuffer s1)) s1) && ts_less (m_last_rtp_endts x) ts
       then jb_conceal (m_last_rtp_endts x) (u32 (ts - m_last_rtp_endts x)) (set_plc (add_to_history buf (plcbuffer s1)) s1)
       else Some (set_plc (add_to_history buf (plcbuffer s1)) s1)) = Some s2 /\ sound_base s2).
  { cbn [set_plc last_ts_i]. rewrite Hi1. destruct (last_ts_i (jp_base x)); cbn [andb]; [|by eexists].
    destruct (ts_less (m_last_rtp_endts x) ts) eqn:E; [|by eexists].
    destruct (jb_conceal_safe (m_last_rtp_endts x) (u32 (ts - m_last_rtp_endts x))
                (set_plc (add_to_history buf (plcbuffer s1)) s1)) as (s2 & -> & ? & _); [done| |done|by exists s2].
    specialize (Hr eq_refl). apply ts_less_gap in E.
    destruct (u32_eq (ts - m_last_rtp_endts x)) as (k & E1 & ?), (sd_eq ts e) as (k2 & E2 & ?),
      (sd_eq (m_last_rtp_endts x) e) as (k3 & E3 & ?). lia. }
  destruct Hc as (s2 & -> & Hs2). cbn [mbind option_bind]. eexists. split; [done|]. split; [|done].
  split; [apply u32_range|]. intros _. cbn [m_last_rtp_endts].
  destruct (u32_eq (ts + Z.of_nat (length buf))) as (k & E1 & ?), (sd_eq ts e) as (k2 & E2 & ?),
    (sd_eq (u32 (ts + Z.of_nat (length buf))) e) as (k3 & E3 & ?). lia.
Qed.

Definition short_packets (q : list pkt) : Prop := Forall (fun e => Z.of_nat (length (e.2)) <= SIZE_MIX_BUFFER) q.

(** What [get] hands out lies between the end of the last period and the end of this one. *)
Lemma spec_get_due ts ms s buf at_ts : short_packets (s.1) -> 0 <= ms <= SIZE_MIX_BUFFER ->
  (spec_get ts ms s).2 = Some (buf, at_ts) ->
  Z.of_nat (length buf) <= SIZE_MIX_BUFFER /\ is_u32 at_ts /\
  - (ms + Z.of_nat (length buf)) <= sd at_ts (u32 (ts + ms)) < 0 /\
  short_packets (spec_get ts ms s).1.1 /\ (length (spec_get ts ms s).1.1 < length (s.1))%nat.
Proof.
  intros Hq Hm. unfold spec_get. destruct (negb _); [done|]. set (k := get_resync ts ms (s.2)).
  destruct (q_drop_split (get_time ts k) (s.1)) as (old & Eq & _). assert (Hd := q_drop_head (get_time ts k) (s.1)).
  unfold short_packets in Hq |- *. destruct (q_drop (get_time ts k) (s.1)) as [|e q']; [done|]. rewrite Eq in Hq |- *.
  apply Forall_app in Hq as [_ Hq]. inversion_clear Hq as [|? ? He Hq'].
  destruct (ts_less (e.1) (u32 (get_time ts k + ms))) eqn:E; [|done]. cbn [fst snd]. intros [= <- <-].
  split; [done|]. split; [apply u32_range|]. split; [|split; [done|rewrite length_app; cbn; lia]].
  apply ts_less_sd in E. unfold too_old in Hd. assert (Hn : ~ (-2147483648 < sd (u32 (e.1 + Z.of_nat (length e.2))) (get_time ts k) < 0))
    by (rewrite <- ts_less_sd, Hd; done).
  assert (Hz : SIZE_MIX_BUFFER = 16384) by done. unfold audio_time, get_time in *.
  destruct (sd_eq (u32 (e.1 - m_tsDelta k + m_jitter k)) (u32 (ts + ms))) as (k1 & E1 & R1).
  destruct (u32_eq (e.1 - m_tsDelta k + m_jitter k)) as (k2 & E2 & _), (u32_eq (ts + ms)) as (k3 & E3 & _).
  destruct (sd_eq (e.1) (u32 (u32 (ts + m_tsDelta k - m_jitter k) + ms))) as (k4 & E4 & R4).
  destruct (u32_eq (u32 (ts + m_tsDelta k - m_jitter k) + ms)) as (k5 & E5 & _), (u32_eq (ts + m_tsDelta k - m_jitter k)) as (k6 & E6 & _).
  destruct (sd_eq (u32 (e.1 + Z.of_nat (length e.2))) (u32 (ts + m_tsDelta k - m_jitter k))) as (k7 & E7 & R7).
  destruct (u32_eq (e.1 + Z.of_nat (length e.2))) as (k8 & E8 & _). lia.
Qed.

Definition jbp_ok (x : jb_playout P) : Prop :=
  sound_base (jp_base x) /\ is_u32 (m_last_rtp_endts x) /\
  exists q k, jb_rep (m_jb x) (q, k) /\ short_packets q.

Lemma prepare_loop_safe fuel ts ms q k (x : jb_playout P) : (length q <= fuel)%nat -> 0 <= ms <= SIZE_MIX_BUFFER ->
  jb_rep (m_jb x) (q, k) -> short_packets q -> in_reach (u32 (ts + ms)) x -> sound_base (jp_base x) ->
  exists x', prepare_loop fuel ts ms x = Some x' /\ jbp_ok x' /\ in_reach (u32 (ts + ms)) x'.
Proof.
  revert q k x. induction fuel as [|fuel IH]; intros q k x Hf Hm Hb Hq Hr Hs; cbn [prepare_loop];
    destruct (jb_get_rep _ _ ts ms Hb) as (b' & -> & Hb'); cbn [mbind option_bind];
    pose proof (spec_get_due ts ms (q, k)) as Hdue; destruct (spec_get_suffix ts ms (q, k)) as [old Eq];
    destruct (spec_get ts ms (q, k)) as [[q' k'] [[buf at_ts]|]]; cbn [fst snd] in *;
    try (destruct (Hdue buf at_ts Hq Hm eq_refl) as (Hl & Hu & Hd & Hq' & Hlt)).
  all: try lia.
  all: try (eexists; split; [done|]; split; [|done]; split; [done|]; split; [apply Hr|]; exists q', k'; split; [done|];
            unfold short_packets in *; rewrite Eq in Hq; by apply Forall_app in Hq as [_ ?]).
  destruct (play_packet_safe buf at_ts (u32 (ts + ms)) ms (mk_jbp (jp_base x) b' (m_last_rtp_endts x)) Hl Hu Hm Hd Hr Hs)
    as (x1 & -> & Hr1 & Hs1 & Hj1). cbn [mbind option_bind].
  apply (IH q' k'); try done; [lia|]. by rewrite Hj1.
Qed.

End JbSafe.

(** C26: Playing from the jitter buffer never leaves a buffer as long as reads follow each other
    closely enough: a new buffer is sound, writing keeps it sound and cannot fail, and a read of
    at most 2^14 samples whose end is at most 2^14 samples behind what was played last returns
    exactly the samples asked for, leaves the buffer sound and everything up to its end played;
    the loop over the packets that are due ends. *)
Theorem jb_playout_safe {P : Type} `{!PLC P} `{!PLCOk P} :
  (forall p : P, jbp_ok (new_jb_playout p)) /\
  (forall (x : jb_playout P) ref ts buf bt, jbp_ok x ->
     exists x', jb_write ref ts buf bt x = Some x' /\ jbp_ok x' /\
       m_last_rtp_endts x' = m_last_rtp_endts x /\ jp_base x' = jp_base x) /\
  (forall (x : jb_playout P) ts n, jbp_ok x -> is_u32 ts -> 0 <= n <= SIZE_MIX_BUFFER ->
     in_reach (u32 (ts + n)) x ->
     exists x' l, jb_read ts n x = Some (x', l) /\ Z.of_nat (length l) = n /\ jbp_ok x' /\
       (last_ts_i (jp_base x') = true -> 0 <= sd (m_last_rtp_endts x') (u32 (ts + n)) <= 1073741824)).
Proof.
  assert (Hz : SIZE_MIX_BUFFER = 16384) by done. split; [|split].
  - intros p. split; [done|]. split; [done|]. exists [], clock0. split; [apply new_jb_rep|constructor].
  - intros x ref ts buf bt (Hs & Hu & q & k & Hb & Hq). unfold jb_write.
    destruct (jb_put_rep _ _ buf ts bt Hb) as (b & -> & Hb'). cbn [mbind option_bind]. eexists. split; [done|].
    split; [|done]. split; [done|]. split; [done|]. destruct (spec_put buf ts bt (q, k)) as [q' k'] eqn:E.
    exists q', k'. split; [done|]. revert E. unfold spec_put. destruct (put_jitter ts bt _) as [k1 [|]]; intros [= <- <-]; [done|].
    unfold q_put. cbn [fst]. set (q0 := if Nat.ltb (length q) N_PACKETS then q else tail q).
    assert (Hq0 : short_packets q0).
    { unfold q0. destruct (Nat.ltb _ _); [done|]. destruct q; [done|]. by inversion Hq. }
    destruct (insert_split (new_pkt buf ts) q0) as (q1 & q2 & E & -> & _). unfold short_packets in *. rewrite E in Hq0.
    apply Forall_app in Hq0 as [H1 H2]. apply Forall_app. split; [done|]. constructor; [|done].
    unfold new_pkt. cbn [snd]. rewrite length_take. unfold AUDIO_BUFFER_SIZE. lia.
  - intros x ts n (Hs & Hu & q & k & Hb & Hq) Ht Hn Hr. unfold jb_read, prepare_buffer.
    destruct (prepare_loop_safe N_PACKETS ts n q k x) as (x1 & -> & (Hs1 & Hu1 & Hb1) & Hr1); try done.
    { destruct Hb as [(u & f & Hl & Eu) _]. cbn [fst] in Eu. rewrite Eu, length_map. by eapply linked_length. }
    cbn [mbind option_bind].
    assert (Hc : exists x2, (if negb (last_ts_i (jp_base x1)) then Some x1
      else if ts_less (m_last_rtp_endts x1) (u32 (ts + n)) then
        s ← jb_conceal (m_last_rtp_endts x1) (u32 (ts + n - m_last_rtp_endts x1)) (jp_base x1);
        Some (mk_jbp s (m_jb x1) (u32 (ts + n))) else Some x1) = Some x2 /\ jbp_ok x2 /\
      (last_ts_i (jp_base x2) = true -> 0 <= sd (m_last_rtp_endts x2) (u32 (ts + n)) <= 1073741824)).
    { destruct (last_ts_i (jp_base x1)) eqn:Ei; cbn [negb]; [|exists x1; rewrite Ei; done].
      destruct Hr1 as (_ & Hr1). specialize (Hr1 Ei). destruct (ts_less (m_last_rtp_endts x1) (u32 (ts + n))) eqn:E.
      - destruct (jb_conceal_safe (m_last_rtp_endts x1) (u32 (ts + n - m_last_rtp_endts x1)) (jp_base x1)) as (s & -> & Hs2 & Hi2).
        + done.
        + apply ts_less_sd in E. destruct (u32_eq (ts + n - m_last_rtp_endts x1)) as (k1 & E1 & ?),
            (sd_eq (m_last_rtp_endts x1) (u32 (ts + n))) as (k2 & E2 & ?), (u32_eq (ts + n)) as (k3 & E3 & _). lia.
        + done.
        + cbn [mbind option_bind]. eexists. split; [done|]. split; [split; [done|]; split; [apply u32_range|done]|].
          intros _. cbn [m_last_rtp_endts]. destruct (sd_eq (u32 (ts + n)) (u32 (ts + n))) as (k1 & E1 & ?). lia.
      - exists x1. split; [done|]. split; [done|]. intros _. apply not_true_iff_false in E. rewrite ts_less_sd in E. lia. }
    destruct Hc as (x2 & -> & (Hs2 & Hu2 & Hb2) & Hr2). cbn [mbind option_bind]. unfold buffer_get.
    destruct (get_safe ts n (buffer (jp_base x2)) Ht Hn) as (l & -> & Hl). cbn [mbind option_bind].
    eexists _, l. split; [done|]. split; [done|]. split; [split; [|split; [done|done]]|].
    + cbn [jp_base]. by destruct (ts_less _ _).
    + cbn [jp_base m_last_rtp_endts]. intros Hi. apply Hr2. by destruct (ts_less _ _) in Hi.
Qed.

(** A concealment that plays silence for everything that was lost. *)
Definition silence_PLC : PLC unit := {| add_to_history _ p := p; conceal_loss n p := (p, zeros n) |}.

Lemma silence_PLC_ok : @PLCOk unit silence_PLC.
Proof. constructor. intros n p Hn. cbn [conceal_loss silence_PLC snd]. rewrite length_zeros by done. lia. Qed.

Lemma jb_playout_safe_witness :
  exists x1 x2 l, @jb_write unit 0 1000 [1; 2; 3] false (new_jb_playout tt) = Some x1 /\
    @jb_read unit silence_PLC 5000 160 x1 = Some (x2, l) /\ Z.of_nat (length l) = 160.
Proof.
  destruct (@jb_playout_safe unit silence_PLC silence_PLC_ok) as (H0 & Hw & Hr).
  destruct (Hw _ 0 1000 [1; 2; 3] false (H0 tt)) as (x1 & E1 & Hx1 & El & Eb).
  destruct (Hr x1 5000 160 Hx1) as (x2 & l & E2 & Hl & _);
    [by vm_compute|by vm_compute|split; [by rewrite El|by rewrite Eb]|].
  exists x1, x2, l. done.
Defined.

(** When nothing was read for more than 2^15 samples (a call on hold) and no packet is due, the
    whole pause is concealed at once and copied over the end of the ring of samples. *)
Theorem hold_overflows {P : Type} `{!PLC P} (x : jb_playout P) ts n k :
  (forall m p, 0 <= m -> Z.of_nat (length (conceal_loss m p).2) = m) ->
  jb_rep (m_jb x) ([], k) -> last_ts_i (jp_base x) = true -> sa_init (buffer (jp_base x)) = true ->
  is_u32 (m_last_rtp_endts x) -> last_ts (buffer (jp_base x)) = m_last_rtp_endts x ->
  2 * SIZE_MIX_BUFFER < u32 (ts + n - m_last_rtp_endts x) < 2147483648 -> jb_read ts n x = None.
Proof.
  intros Hc Hb Hi Hini Hu Hl Hg. assert (Hz : SIZE_MIX_BUFFER = 16384) by done.
  assert (Hloop : exists b', prepare_loop N_PACKETS ts n x = Some (mk_jbp (jp_base x) b' (m_last_rtp_endts x))).
  { unfold N_PACKETS. cbn [prepare_loop]. destruct (jb_get_rep _ _ ts n Hb) as (b' & -> & _). cbn [mbind option_bind].
    exists b'. unfold spec_get. by destruct (negb _). }
  destruct Hloop as [b' E]. unfold jb_read, prepare_buffer. rewrite E. cbn [mbind option_bind jp_base m_last_rtp_endts].
  rewrite Hi. cbn [negb].
  assert (Hless : ts_less (m_last_rtp_endts x) (u32 (ts + n)) = true).
  { apply ts_less_sd. destruct (u32_eq (ts + n - m_last_rtp_endts x)) as (k1 & E1 & ?),
      (sd_eq (m_last_rtp_endts x) (u32 (ts + n))) as (k2 & E2 & ?), (u32_eq (ts + n)) as (k3 & E3 & _). lia. }
  rewrite Hless. unfold jb_conceal, conceal_into.
  specialize (Hc (u32 (ts + n - m_last_rtp_endts x)) (plcbuffer (jp_base x)) ltac:(lia)).
  destruct (conceal_loss _ _) as [p l]. cbn [snd] in Hc. destruct (Z.leb _ PREPARE_BUF); [|done]. cbn [mbind option_bind].
  destruct (Nat.eqb_spec (length l) 0); [lia|]. unfold buffer_put. cbn [buffer set_plc]. unfold SampleArray.put. rewrite Hini, Hl.
  assert (N1 : ts_less (m_last_rtp_endts x) (u32 (m_last_rtp_endts x - SIZE_MIX_BUFFER)) = false).
  { apply not_true_iff_false. rewrite ts_less_sd. destruct (sd_eq (m_last_rtp_endts x) (u32 (m_last_rtp_endts x - SIZE_MIX_BUFFER))) as (k1 & E1 & ?),
      (u32_eq (m_last_rtp_endts x - SIZE_MIX_BUFFER)) as (k2 & E2 & _). lia. }
  assert (N2 : ts_less (m_last_rtp_endts x) (m_last_rtp_endts x) = false).
  { apply not_true_iff_false. rewrite ts_less_sd. destruct (sd_eq (m_last_rtp_endts x) (m_last_rtp_endts x)) as (k1 & E1 & ?). lia. }
  rewrite N1, N2. cbn [mbind option_bind]. unfold SampleArray.write.
  rewrite <- (u32_small (m_last_rtp_endts x)) by done. rewrite off_of_time.
  pose proof (mod_ring (m_last_rtp_endts x)) as Ho. remember (m_last_rtp_endts x mod SIZE_MIX_BUFFER) as o eqn:Eo.
  destruct (Z.leb_spec (o + Z.of_nat (length l)) SIZE_MIX_BUFFER); [lia|].
  assert (Hl1 := length_take l (Z.to_nat (SIZE_MIX_BUFFER - o))). assert (Hl2 := length_drop l (Z.to_nat (SIZE_MIX_BUFFER - o))).
  rewrite store_at_ok by lia. cbn [mbind option_bind]. unfold store_at at 1.
  destruct (Z.leb_spec (0 + Z.of_nat (length (drop (Z.to_nat (SIZE_MIX_BUFFER - o)) l))) SIZE_MIX_BUFFER); [lia|].
  by rewrite andb_false_r.
Qed.

(** ** The simple buffer is a queue *)

(** Only the last 2^14 samples are kept, the ones before become silence. *)
Definition keep (l : list Z) : list Z :=
  let k := (length l - Z.to_nat SIZE_MIX_BUFFER)%nat in replicate k 0 ++ drop k l.

Lemma keep_lookup l i :
  keep l !! i = if decide (i < length l - Z.to_nat SIZE_MIX_BUFFER)%nat then Some 0 else l !! i.
Proof.
  unfold keep. set (k := (length l - Z.to_nat SIZE_MIX_BUFFER)%nat). destruct (decide (i < k)%nat).
  - rewrite lookup_app_l by (rewrite length_replicate; done). by apply lookup_replicate_2.
  - rewrite lookup_app_r by (rewrite length_replicate; lia). rewrite length_replicate, lookup_drop. f_equal. lia.
Qed.

Lemma length_keep l : length (keep l) = length l.
Proof. unfold keep. rewrite length_app, length_replicate, length_drop. lia. Qed.

Lemma keep_keep a b : keep (keep a ++ b) = keep (a ++ b).
Proof.
  apply list_eq. intros i. rewrite !keep_lookup, !length_app, length_keep. destruct (decide _) as [|Hi]; [done|].
  destruct (decide (i < length a)%nat).
  - rewrite !lookup_app_l by (rewrite ?length_keep; done). rewrite keep_lookup, decide_False; [done|lia].
  - rewrite !lookup_app_r by (rewrite ?length_keep; lia). by rewrite length_keep.
Qed.

Lemma keep_short l : Z.of_nat (length l) <= SIZE_MIX_BUFFER -> keep l = l.
Proof. intros. unfold keep. by replace (length l - _)%nat with 0%nat by lia. Qed.

Lemma lookup_span {A} (f : Z -> A) a n i : (Z.of_nat i < n) -> span f a n !! i = Some (f (a + Z.of_nat i)).
Proof. intros. unfold span. rewrite list_lookup_fmap, lookup_seq_lt by lia. done. Qed.

Lemma keep_span f a n : 0 <= n -> keep (span f a n) = span (fun t => if t <? a + n - SIZE_MIX_BUFFER then 0 else f t) a n.
Proof.
  intros Hn. assert (Hz : SIZE_MIX_BUFFER = 16384) by done. pose proof (length_span f a n Hn) as Hl.
  apply list_eq. intros i. rewrite keep_lookup. destruct (Z.lt_ge_cases (Z.of_nat i) n).
  - rewrite !lookup_span by done. destruct (decide _); bools; try lia; done.
  - rewrite decide_False by lia. rewrite !lookup_ge_None_2; [done|..]; unfold span; rewrite length_map, length_seq; lia.
Qed.

(** The ring holds the time line [l], or has not been used yet. *)
Definition ring_rep (b : sample_array) (l : time_line) : Prop :=
  represents b l \/ sa_init b = false /\ sample_at l = fun _ => 0.

Lemma ring_put b l T buf : ring_rep b l -> line_end l <= T -> T - line_end l < 1073741824 ->
  Z.of_nat (length buf) <= SIZE_MIX_BUFFER ->
  exists b', SampleArray.put (u32 T) buf b = Some b' /\ represents b' (tl_put T buf l).
Proof.
  intros Hr He Hn Hb. assert (Hz : SIZE_MIX_BUFFER = 16384) by done. destruct Hr as [Hr|[Hi Hs]].
  - apply put_line; [done|unfold near; lia|done].
  - destruct (put_line (mk_sa (fun _ => 0) (u32 T) true) (line0 T) T buf) as (b' & E & Hr'); [done|unfold near; cbn; lia|done|].
    exists b'. split; [rewrite <- E; unfold SampleArray.put; by rewrite Hi|].
    revert Hr'. unfold tl_put. cbn [line_end line0 sample_at]. rewrite !(proj2 (Z.ltb_ge _ _)) by lia. rewrite Hs.
    replace (Z.max (line_end l) (T + Z.of_nat (length buf))) with (Z.max T (T + Z.of_nat (length buf))) by lia.
    intros (H1 & H2 & H3). split; [done|]. split; [done|]. cbn [line_end sample_at] in *. intros t Ht. rewrite (H3 t Ht).
    destruct (_ && _); [done|]. by destruct (_ && _), (_ && _).
Qed.

Lemma ring_get b l T n : ring_rep b l -> near T (line_end l) -> 0 <= n <= SIZE_MIX_BUFFER ->
  SampleArray.get (u32 T) n b = Some (tl_get T n l).
Proof.
  intros [Hr|[Hi Hs]] Hn Hb; [by apply get_line|]. unfold SampleArray.get. rewrite Hi. cbn [negb orb].
  unfold tl_get. rewrite <- (span_zeros T). f_equal. apply span_ext. intros d _. unfold tl_sample. rewrite Hs. by destruct (_ && _).
Qed.

(** What becomes of the unread samples from [R] to [W] when [buf] is put at their end. *)
Lemma put_queue l R W buf : line_end l <= W -> R <= W ->
  span (tl_sample (tl_put W buf l)) R (W + Z.of_nat (length buf) - R) = keep (span (tl_sample l) R (W - R) ++ buf).
Proof.
  intros He Hr. set (n := Z.of_nat (length buf)).
  assert (E : span (tl_sample l) R (W - R) ++ buf =
    span (fun t => if t <? W then tl_sample l t else nth (Z.to_nat (t - W)) buf 0) R (W + n - R)).
  { replace (W + n - R) with ((W - R) + n) by lia. rewrite span_app by lia. f_equal.
    - apply span_ext. intros d Hd. bools; [done|lia].
    - symmetry. replace (R + (W - R)) with W by lia. apply list_eq. intros i. destruct (Z.lt_ge_cases (Z.of_nat i) n) as [Hi|Hi].
      + rewrite lookup_span by done. bools; [lia|]. destruct (lookup_lt_is_Some_2 buf i ltac:(lia)) as [x Hx].
        rewrite Hx. f_equal. replace (Z.to_nat _) with i by lia. by rewrite nth_lookup, Hx.
      + rewrite !lookup_ge_None_2; [done|lia|]. unfold span. rewrite length_map, length_seq. lia. }
  rewrite E, keep_span by lia. apply span_ext. intros d Hd. unfold tl_put. assert (Hz : SIZE_MIX_BUFFER = 16384) by done.
  rewrite (proj2 (Z.ltb_ge _ _)) by lia. unfold tl_sample. cbn [line_end sample_at].
  replace (R + (W + n - R)) with (W + n) by lia. bools; try lia; try done.
Qed.

Lemma span_keep l R W : line_end l = W \/ R = W -> R <= W ->
  keep (span (tl_sample l) R (W - R)) = span (tl_sample l) R (W - R).
Proof.
  intros He HR. rewrite keep_span by lia. apply span_ext. intros d Hd. unfold tl_sample.
  replace (R + (W - R)) with W by lia. bools; try lia; done.
Qed.

Section Queue.
Context {P : Type} `{!PLC P} `{!PLCOk P} (sample_rate : Z).

(** The unread samples [q]: those between the read and the write position; [E] is the end of
    the data in the ring. *)
Definition queued_at (E : Z) (s : playout P) (q : list Z) (W : Z) : Prop :=
  exists l R, line_end l = E /\ ring_rep (buffer s) l /\ r_ts s = u32 R /\ w_ts s = u32 W /\ R <= W /\ line_end l <= W /\
    (line_end l = W \/ R = W) /\ W - line_end l < 536870912 /\ W - R < 536870912 /\ q = span (tl_sample l) R (W - R).

Definition queued (s : playout P) (q : list Z) (W : Z) : Prop := queued_at W s q W.

Lemma queued_plc E s q W p : queued_at E s q W -> queued_at E (set_plc p s) (keep (q ++ [])) (W + Z.of_nat (length (@nil Z))).
Proof.
  intros (l & R & El & Hb & Hr & Hw & HR & HE & HEW & HW & Hq & Eq). rewrite app_nil_r, Z.add_0_r. exists l, R.
  repeat (split; [done|]). by rewrite Eq, span_keep.
Qed.

Lemma queue_put E s q W buf : queued_at E s q W -> Z.of_nat (length q) + Z.of_nat (length buf) < 536870912 ->
  Z.of_nat (length buf) <= SIZE_MIX_BUFFER ->
  exists s', buffer_put (w_ts s) buf s = Some s' /\ queued s' (keep (q ++ buf)) (W + Z.of_nat (length buf)) /\
    po_last_ts s' = po_last_ts s /\ last_ts_i s' = last_ts_i s.
Proof.
  intros (l & R & El & Hb & Hr & Hw & HR & HE & HEW & HW & Hq & Eq) Hlen Hn. assert (Hz : SIZE_MIX_BUFFER = 16384) by done.
  assert (Hlq : Z.of_nat (length q) = W - R) by (rewrite Eq; apply length_span; lia).
  unfold buffer_put. rewrite Hw. destruct (ring_put (buffer s) l W buf Hb HE ltac:(lia) Hn) as (b & -> & Hb').
  cbn [mbind option_bind set_buffer w_ts]. rewrite Hw, u32_add_l, ts_less_time by lia.
  eexists. split; [done|]. split; [|by destruct (Z.ltb _ _)]. exists (tl_put W buf l), R.
  assert (He : line_end (tl_put W buf l) = W + Z.of_nat (length buf)).
  { unfold tl_put. rewrite (proj2 (Z.ltb_ge _ _)) by lia. cbn [line_end]. lia. }
  split; [done|]. rewrite He. split; [left; by destruct (Z.ltb _ _)|]. split; [by destruct (Z.ltb _ _)|].
  split. { destruct (Z.ltb_spec W (W + Z.of_nat (length buf))); cbn; [done|]. rewrite Hw. f_equal. lia. }
  repeat (split; [lia|]). by rewrite put_queue, Eq.
Qed.

Lemma queue_read E s q W ts n : queued_at E s q W -> 0 <= n ->
  exists s', read ts n s = Some (s', take (Z.to_nat (Z.min READ_MAX n)) q) /\
    queued_at E s' (drop (Z.to_nat (Z.min READ_MAX n)) q) W.
Proof.
  intros (l & R & El & Hb & Hr & Hw & HR & HE & HEW & HW & Hq & Eq) Hn. assert (Hz : SIZE_MIX_BUFFER = 16384 /\ READ_MAX = 4096) by done.
  destruct Hz as [Hz Hz2]. unfold read. rewrite Hr, Hw, u32_add_l, !ts_less_time by lia.
  assert (Hlq : Z.of_nat (length q) = W - R) by (rewrite Eq; apply length_span; lia).
  destruct (Z.ltb_spec R W); cycle 1.
  { exists s. destruct q; [|cbn in Hlq; lia]. rewrite take_nil, drop_nil. split; [done|]. exists l, R. tauto. }
  assert (Em : Z.min (if R + READ_MAX <? W then READ_MAX else u32 (u32 W - u32 R)) n = Z.min (Z.min READ_MAX n) (W - R)).
  { rewrite u32_sub, u32_small by (unfold is_u32, u32_mod; lia). destruct (Z.ltb_spec (R + READ_MAX) W); lia. }
  rewrite Em. set (k := Z.min (Z.min READ_MAX n) (W - R)). unfold buffer_get.
  rewrite (ring_get (buffer s) l R k Hb) by (unfold near; lia). cbn [mbind option_bind].
  rewrite Hr, u32_add_l, ts_less_time by lia.
  assert (Es : q = span (tl_sample l) R k ++ span (tl_sample l) (R + k) (W - (R + k))).
  { rewrite Eq. replace (W - R) with (k + (W - (R + k))) by lia. apply span_app; lia. }
  assert (Hk : Z.of_nat (length (span (tl_sample l) R k)) = k) by (apply length_span; lia).
  assert (Et : take (Z.to_nat (Z.min READ_MAX n)) q = span (tl_sample l) R k).
  { destruct (Z.le_gt_cases (Z.min READ_MAX n) (W - R)).
    - rewrite Es. rewrite take_app_length'; [done|]. lia.
    - rewrite take_ge by lia. rewrite Eq. f_equal. lia. }
  assert (Ed : drop (Z.to_nat (Z.min READ_MAX n)) q = span (tl_sample l) (R + k) (W - (R + k))).
  { destruct (Z.le_gt_cases (Z.min READ_MAX n) (W - R)).
    - rewrite Es. rewrite drop_app_length'; [done|]. lia.
    - rewrite drop_ge by lia. replace (W - (R + k)) with 0 by lia. done. }
  clear Em. rewrite Et, Ed. unfold tl_get. eexists. split; [done|]. exists l, (R + k). split; [done|].
  split; [destruct (Z.ltb _ _); exact Hb|]. split. { destruct (Z.ltb_spec R (R + k)); cbn; [done|]. rewrite Hr. f_equal. lia. }
  split; [destruct (Z.ltb _ _); exact Hw|]. repeat (split; [lia|]). done.
Qed.

(** Whether [write] starts over at the reference time. *)
Definition resyncs (ref_ts rtp_ts : Z) (s : playout P) : bool :=
  negb (recv_offset_i s) ||
  ts_less (u32 (rtp_ts - recv_offset s)) (u32 (ref_ts - MAX_DELAY sample_rate / 2)) ||
  negb (ts_less (u32 (rtp_ts - recv_offset s)) (u32 (ref_ts + MAX_DELAY sample_rate))).

Lemma conceal_gap_queue E s mapped bt q W : 0 <= sample_rate <= 96000 -> queued_at E s q W -> Z.of_nat (length q) < 268435456 ->
  exists s' c E', conceal_gap sample_rate mapped bt s = Some s' /\ queued_at E' s' (keep (q ++ c)) (W + Z.of_nat (length c)) /\
    Z.of_nat (length c) <= PLC_MAX_SAMPLES sample_rate /\ po_last_ts s' = po_last_ts s /\ last_ts_i s' = last_ts_i s /\
    (bt = true -> c = []).
Proof.
  intros Hrate Hq Hl. assert (Hz : SIZE_MIX_BUFFER = 16384 /\ AUDIO_BUFFER_SIZE = 8192) by done. destruct Hz as [Hz Hz2].
  assert (Hp : 0 <= PLC_MAX_SAMPLES sample_rate <= 7680).
  { unfold PLC_MAX_SAMPLES. split; [apply Z.div_pos; lia|]. apply Z.div_le_upper_bound; lia. }
  assert (Hno : exists s' c E', Some s = Some s' /\ queued_at E' s' (keep (q ++ c)) (W + Z.of_nat (length c)) /\
    Z.of_nat (length c) <= PLC_MAX_SAMPLES sample_rate /\ po_last_ts s' = po_last_ts s /\ last_ts_i s' = last_ts_i s /\ (bt = true -> c = [])).
  { exists s, [], E. split; [done|]. split; [|split; [cbn; lia|done]].
    apply (queued_plc _ _ _ _ (plcbuffer s)) in Hq. by destruct s. }
  unfold conceal_gap. destruct (ts_less (po_last_ts s) mapped && negb bt && (u32 (mapped - po_last_ts s) <=? PLC_MAX_SAMPLES sample_rate)) eqn:Eg; [|done].
  apply andb_prop in Eg as [[_ Hbt]%andb_prop Hg%Z.leb_le].
  pose proof (u32_range (mapped - po_last_ts s)) as Hu. unfold is_u32 in Hu.
  unfold conceal_into. pose proof (conceal_length (u32 (mapped - po_last_ts s)) (plcbuffer s) ltac:(lia)) as Hc.
  destruct (conceal_loss _ _) as [p c]. cbn [snd] in Hc. rewrite (proj2 (Z.leb_le _ _)) by lia. cbn [mbind option_bind].
  destruct (Nat.eqb_spec (length c) 0) as [E0|E0].
  - destruct c; [|done]. exists (set_plc p s), [], E. split; [done|]. split; [by apply queued_plc|]. split; [cbn; lia|done].
  - destruct (queue_put E (set_plc p s) q W c Hq) as (s' & E' & Hq' & E1 & E2); [lia|lia|].
    cbn [w_ts set_plc] in E' |- *. rewrite E'. exists s', c, (W + Z.of_nat (length c)). repeat (split; [done|]). split; [lia|]. split; [done|]. split; [done|].
    intros ->. done.
Qed.

End Queue.

(** The simple playout buffer is a queue of samples: a packet is appended, after what
    conceals the gap before it (at most 80 ms, nothing at the start of a talk spurt), when the
    stream is out of step with the clock the queue starts anew with the packet, of a queue that
    is longer than 2^14 samples the oldest turn into silence, and a read takes from the front as
    much as there is, at most what was asked for and 4096 samples. *)
Theorem playout_is_queue {P : Type} `{!PLC P} `{!PLCOk P} sample_rate (s : playout P) q W :
  0 <= sample_rate <= 96000 -> queued s q W -> Z.of_nat (length q) < 134217728 ->
  (forall ts n, 0 <= n ->
     exists s', read ts n s = Some (s', take (Z.to_nat (Z.min READ_MAX n)) q) /\
       queued s' (drop (Z.to_nat (Z.min READ_MAX n)) q) W) /\
  (forall Ref rtp_ts buf bt, Z.of_nat (length buf) <= SIZE_MIX_BUFFER ->
     (resyncs sample_rate (u32 Ref) rtp_ts s = true -> W <= Ref < W + 134217728 \/ sa_init (buffer s) = false) ->
     exists s' c W', write sample_rate (u32 Ref) rtp_ts buf bt s = Some s' /\
       queued s' (keep ((if resyncs sample_rate (u32 Ref) rtp_ts s then [] else q) ++ c ++ buf)) W' /\
       Z.of_nat (length c) <= PLC_MAX_SAMPLES sample_rate /\ (bt = true -> c = [])).
Proof.
  intros Hrate Hq Hl. split; [intros ts n Hn; by apply queue_read|].
  intros Ref rtp_ts buf bt Hb Href. assert (Hz : SIZE_MIX_BUFFER = 16384) by done.
  assert (Hp : PLC_MAX_SAMPLES sample_rate <= 7680) by (unfold PLC_MAX_SAMPLES; apply Z.div_le_upper_bound; lia).
  assert (Hm : exists s1 m W1 E1, map_ts sample_rate (u32 Ref) rtp_ts s = (s1, m) /\
    queued_at E1 s1 (if resyncs sample_rate (u32 Ref) rtp_ts s then [] else q) W1).
  { assert (Hr : resyncs sample_rate (u32 Ref) rtp_ts s = true ->
      exists E1, queued_at E1 (set_w_ts (u32 Ref) (set_r_ts (u32 Ref) (set_recv (u32 (rtp_ts - u32 Ref)) s))) [] Ref).
    { intros Hr. destruct (Href Hr) as [Hw|Hi].
      - destruct Hq as (l & R & El & Hb' & _ & _ & HR & HE & _ & HW & _ & _). exists W, l, Ref. rewrite Z.sub_diag.
        split; [done|]. split; [exact Hb'|]. split; [done|]. split; [done|]. repeat (split; [lia|]). done.
      - exists Ref, (line0 Ref), Ref. split; [done|]. split; [by right|]. split; [done|]. split; [done|].
        cbn [line_end line0]. rewrite !Z.sub_diag. repeat (split; [lia|]). done. }
    unfold map_ts. destruct (resyncs sample_rate (u32 Ref) rtp_ts s) eqn:E; revert E; unfold resyncs.
    - destruct (recv_offset_i s); cbn [negb orb]; [intros ->|intros _]; (destruct (Hr eq_refl) as [E1 H1]; eexists _, _, Ref, E1; split; [done|exact H1]).
    - destruct (recv_offset_i s); cbn [negb orb]; [intros ->|done]. eexists _, _, W, W. split; [done|exact Hq]. }
  destruct Hm as (s1 & m & W1 & E1 & Em & Hq1). unfold write. rewrite Em.
  set (q1 := if resyncs sample_rate (u32 Ref) rtp_ts s then [] else q) in *.
  assert (Hl1 : Z.of_nat (length q1) < 134217728) by (unfold q1; destruct (resyncs _ _ _ _); [cbn; lia|done]).
  set (s2 := if last_ts_i s1 then s1 else set_last m true s1).
  assert (Hq2 : queued_at E1 s2 q1 W1) by (unfold s2; destruct (last_ts_i s1); exact Hq1).
  destruct (conceal_gap_queue sample_rate E1 s2 m bt q1 W1 Hrate Hq2 ltac:(lia)) as (s3 & c & E3 & -> & Hq3 & Hc & _ & _ & Hbt).
  cbn [mbind option_bind].
  destruct (queue_put E3 (set_plc (add_to_history buf (plcbuffer s3)) s3) _ _ buf Hq3) as (s4 & -> & Hq4 & _ & _).
  { rewrite length_keep, length_app. lia. }
  { done. }
  cbn [mbind option_bind]. eexists _, c, _. split; [done|]. rewrite keep_keep, <- app_assoc in Hq4.
  split; [|done]. destruct (ts_less _ _ || _); exact Hq4.
Qed.

Lemma new_playout_queued {P : Type} `{!PLC P} (p : P) : queued (new_playout p) [] 0.
Proof. exists (line0 0), 0. split; [done|]. split; [by right|]. cbn. repeat (split; [done || lia|]). done. Qed.

Lemma playout_is_queue_witness :
  exists s1 c W1, @write unit silence_PLC 8000 (u32 5000) 70000 [1; 2; 3] false (new_playout tt) = Some s1 /\
    queued s1 (keep (c ++ [1; 2; 3])) W1.
Proof.
  destruct (proj2 (@playout_is_queue unit silence_PLC silence_PLC_ok 8000 (new_playout tt) [] 0 ltac:(lia)
    (@new_playout_queued unit silence_PLC tt) ltac:(cbn; lia)) 5000 70000 [1; 2; 3] false)
    as (s1 & c & W1 & E & Hq & _); [by vm_compute|by right|].
  exists s1, c, W1. split; [exact E|exact Hq].
Defined.
