(* ===== verification/RtpPacket.v ===== *)
(** * RTP packets

    Model of core/AmRtpPacket.h and AmRtpPacket.cpp (parsing and composing; the socket calls
    are left out) over the header of core/rtp/rtp.h.

    A packet is a list of bytes; the bit fields of [rtp_hdr_t] are the bits of the first two
    bytes, as RFC 3550 has them.  A failed assertion or a read behind the bytes received is a
    fault ([None]). *)

From Stdlib Require Import ZArith Lia.
From stdpp Require Import base list.
From S2P Require Import Prelude.

Local Open Scope Z_scope.
Local Open Scope bool_scope.

(** ** Bytes *)

(** [ntohs], [ntohl] of the bytes at an offset. *)
Definition be16 (a b : Z) : Z := a * 256 + b.
Definition be32 (a b c d : Z) : Z := be16 a b * 65536 + be16 c d.

Definition to_be16 (x : Z) : list Z := [x / 256 mod 256; x mod 256].
Definition to_be32 (x : Z) : list Z := to_be16 (x / 65536) ++ to_be16 (x mod 65536).

(** A byte of the buffer; reading behind [b_size] is a fault. *)
Definition rd (b : list Z) (i : Z) : option Z := if 0 <=? i then b !! Z.to_nat i else None.

Definition rd16 (b : list Z) (i : Z) : option Z := x ← rd b i; y ← rd b (i + 1); Some (be16 x y).
Definition rd32 (b : list Z) (i : Z) : option Z :=
  x ← rd16 b i; y ← rd16 b (i + 2); Some (x * 65536 + y).

(** ** The header *)

Definition RTP_VERSION : Z := 2.
Definition RTP_HDR_LEN : Z := 12.
Definition RTP_BUFFER : Z := 4096.

Definition h_version (b0 : Z) : Z := b0 / 64.
Definition h_p (b0 : Z) : Z := b0 / 32 mod 2.
Definition h_x (b0 : Z) : Z := b0 / 16 mod 2.
Definition h_cc (b0 : Z) : Z := b0 mod 16.
Definition h_m (b1 : Z) : Z := b1 / 128.
Definition h_pt (b1 : Z) : Z := b1 mod 128.

Record rtp_packet := mk_rtp {
  rtp_buffer : list Z;       (* the [b_size] bytes used *)
  data_offset : Z;
  d_size : Z;
  payload : Z;
  marker : bool;
  sequence : Z;
  timestamp : Z;
  ssrc : Z;
  version : Z
}.

Definition b_size (p : rtp_packet) : Z := Z.of_nat (length (rtp_buffer p)).

Definition new_rtp_packet : rtp_packet := mk_rtp [] 0 0 0 false 0 0 0 0.

(** ** Parsing *)

(** [data_offset] behind the CSRC list and the extension; [None] for an error. *)
Definition skip_extension (b : list Z) (x off : Z) : option (option Z) :=
  let size := Z.of_nat (length b) in
  if negb (x =? 0) && (off + 4 <=? size) then
    ext_words ← rd16 b (off + 2);
    let ext_size := 4 + ext_words * 4 in
    if ext_size >? size - off then Some None else Some (Some (off + ext_size))
  else Some (Some off).

(** [AmRtpPacket::parse]: the packet as it is left, and the value returned. *)
Definition rtp_parse (p : rtp_packet) : option (rtp_packet * Z) :=
  let b := rtp_buffer p in
  let size := b_size p in
  let with_off o := mk_rtp b o (d_size p) (payload p) (marker p) (sequence p) (timestamp p) (ssrc p) (version p) in
  if size =? 0 then None
  else if size <? RTP_HDR_LEN then Some (p, -1)
  else
    b0 ← rd b 0;
    b1 ← rd b 1;
    if negb (h_version b0 =? RTP_VERSION) && negb (h_version b0 =? 0) then Some (p, -1)
    else
      let off := RTP_HDR_LEN + h_cc b0 * 4 in
      if off >? size then Some (with_off off, -1)
      else
        o ← skip_extension b (h_x b0) off;
        match o with
        | None => Some (with_off off, -1)
        | Some off =>
            seq ← rd16 b 2;
            ts ← rd32 b 4;
            src ← rd32 b 8;
            let q d := mk_rtp b off d (h_pt b1) (negb (h_m b1 =? 0)) seq ts src (h_version b0) in
            if off >? size then Some (q (d_size p), -1)
            else
              let d := size - off in
              if negb (h_p b0 =? 0) then
                if d =? 0 then Some (q d, -1)
                else
                  pad ← rd b (size - 1);
                  if pad >=? d then Some (q d, -1) else Some (q (d - pad), 0)
              else Some (q d, 0)
        end.

(** [getData] with [getDataSize]. *)
Definition rtp_data (p : rtp_packet) : list Z := take (Z.to_nat (d_size p)) (drop (Z.to_nat (data_offset p)) (rtp_buffer p)).

(** ** Composing *)

(** [AmRtpPacket::compile] *)
Definition rtp_compile (data : list Z) (p : rtp_packet) : option (rtp_packet * Z) :=
  let size := Z.of_nat (length data) in
  if (size =? 0) || (size + RTP_HDR_LEN >? RTP_BUFFER) then None
  else
    let hdr := [RTP_VERSION * 64; (if marker p then 128 else 0) + payload p mod 128]
               ++ to_be16 (sequence p) ++ to_be32 (timestamp p) ++ to_be32 (ssrc p) in
    Some (mk_rtp (hdr ++ data) RTP_HDR_LEN size (payload p) (marker p) (sequence p) (timestamp p) (ssrc p) (version p), 0).

Definition rtp_compile_raw (data : list Z) (p : rtp_packet) : rtp_packet * Z :=
  let size := Z.of_nat (length data) in
  if (size =? 0) || (size >? RTP_BUFFER) then (p, -1)
  else (mk_rtp data (data_offset p) (d_size p) (payload p) (marker p) (sequence p) (timestamp p) (ssrc p) (version p), size).

(** [recv(pkt,len)]: a packet that was already received. *)
Definition rtp_recv (pkt : list Z) (p : rtp_packet) : rtp_packet * Z :=
  let b := take (Z.to_nat RTP_BUFFER) pkt in
  (mk_rtp b (data_offset p) (d_size p) (payload p) (marker p) (sequence p) (timestamp p) (ssrc p) (version p),
   Z.of_nat (length b)).

(** ** Reading and writing bytes *)

Definition is_byte (x : Z) : Prop := 0 <= x < 256.

Lemma to_be16_be16 x : 0 <= x < 65536 -> exists a b, to_be16 x = [a; b] /\ be16 a b = x /\ is_byte a /\ is_byte b.
Proof.
  intros Hx. exists (x / 256 mod 256), (x mod 256). split; [done|]. unfold be16, is_byte.
  pose proof (Z.div_mod x 256). pose proof (Z.mod_pos_bound x 256). assert (x / 256 < 256) by (apply Z.div_lt_upper_bound; lia).
  pose proof (Z.div_pos x 256). rewrite (Z.mod_small (x / 256) 256) by lia. lia.
Qed.

Lemma rd_some b i : 0 <= i < Z.of_nat (length b) -> exists x, rd b i = Some x /\ x ∈ b.
Proof.
  intros Hi. unfold rd. rewrite (proj2 (Z.leb_le _ _)) by lia.
  destruct (lookup_lt_is_Some_2 b (Z.to_nat i)) as [x Hx]; [lia|]. exists x. split; [done|]. by eapply list_elem_of_lookup_2.
Qed.

Lemma rd16_some b i : Forall is_byte b -> 0 <= i -> i + 2 <= Z.of_nat (length b) ->
  exists x, rd16 b i = Some x /\ 0 <= x < 65536.
Proof.
  intros Hb H0 Hi. unfold rd16. destruct (rd_some b i) as (x & -> & Hx); [lia|]. destruct (rd_some b (i + 1)) as (y & -> & Hy); [lia|].
  cbn [mbind option_bind]. eexists. split; [done|]. rewrite Forall_forall in Hb. apply Hb in Hx, Hy. unfold is_byte, be16 in *. lia.
Qed.

Lemma rd32_some b i : Forall is_byte b -> 0 <= i -> i + 4 <= Z.of_nat (length b) ->
  exists x, rd32 b i = Some x /\ is_u32 x.
Proof.
  intros Hb H0 Hi. unfold rd32. destruct (rd16_some b i) as (x & -> & Hx); [done|lia|lia|].
  destruct (rd16_some b (i + 2)) as (y & -> & Hy); [done|lia|lia|]. cbn [mbind option_bind]. eexists. split; [done|].
  unfold is_u32, u32_mod. lia.
Qed.

(** Parsing a received packet never reads behind it, whatever its bytes are: it succeeds or
    fails with -1, and when it succeeds the payload lies inside the packet, behind the header,
    the CSRC list and the extension and before the padding, and the fields are in their ranges. *)
Theorem rtp_parse_safe p : rtp_buffer p <> [] -> Forall is_byte (rtp_buffer p) ->
  exists q r, rtp_parse p = Some (q, r) /\ (r = 0 \/ r = -1) /\ rtp_buffer q = rtp_buffer p /\
    (r = 0 -> RTP_HDR_LEN <= data_offset q /\ 0 <= d_size q /\ data_offset q + d_size q <= b_size p /\
       Z.of_nat (length (rtp_data q)) = d_size q /\
       0 <= payload q < 128 /\ 0 <= sequence q < 65536 /\ is_u32 (timestamp q) /\ is_u32 (ssrc q) /\
       (version q = 0 \/ version q = RTP_VERSION)).
Proof.
  intros Hne Hb. unfold rtp_parse, b_size. set (b := rtp_buffer p) in *.
  assert (Hz : RTP_HDR_LEN = 12) by done. assert (H1 : Z.of_nat (length b) <> 0) by (destruct b; [done|cbn; lia]).
  rewrite (proj2 (Z.eqb_neq _ _) H1). destruct (Z.ltb_spec (Z.of_nat (length b)) RTP_HDR_LEN);
    [exists p, (-1); repeat (split; [by auto|]); done|].
  destruct (rd_some b 0) as (b0 & -> & Hb0); [lia|]. destruct (rd_some b 1) as (b1 & -> & Hb1); [lia|]. cbn [mbind option_bind].
  destruct (negb (h_version b0 =? RTP_VERSION) && negb (h_version b0 =? 0)) eqn:Ev; [exists p, (-1); repeat (split; [by auto|]); done|].
  rewrite Forall_forall in Hb. pose proof (Hb _ Hb0) as B0. pose proof (Hb _ Hb1) as B1. unfold is_byte in B0, B1. rewrite <- Forall_forall in Hb.
  assert (Hcc : 0 <= h_cc b0 < 16) by (apply Z.mod_pos_bound; lia).
  rewrite Z.gtb_ltb. destruct (Z.ltb_spec (Z.of_nat (length b)) (RTP_HDR_LEN + h_cc b0 * 4)); [eexists _, (-1); repeat (split; [by auto|]); done|].
  assert (Hs : exists o, skip_extension b (h_x b0) (RTP_HDR_LEN + h_cc b0 * 4) = Some o /\
    match o with Some off => RTP_HDR_LEN <= off <= Z.of_nat (length b) | None => True end).
  { unfold skip_extension. destruct (negb (h_x b0 =? 0) && _) eqn:Ex; [|exists (Some (RTP_HDR_LEN + h_cc b0 * 4)); split; [done|]; lia].
    apply andb_prop in Ex as [_ Ex%Z.leb_le]. destruct (rd16_some b (RTP_HDR_LEN + h_cc b0 * 4 + 2)) as (w & -> & Hw); [done|lia|lia|].
    cbn [mbind option_bind]. rewrite Z.gtb_ltb. destruct (Z.ltb_spec (Z.of_nat (length b) - (RTP_HDR_LEN + h_cc b0 * 4)) (4 + w * 4));
      [exists None; done|exists (Some (RTP_HDR_LEN + h_cc b0 * 4 + (4 + w * 4))); split; [done|]; lia]. }
  destruct Hs as ([off|] & -> & Ho); cbn [mbind option_bind]; [|eexists _, (-1); repeat (split; [by auto|]); done].
  destruct (rd16_some b 2) as (sq & -> & Hsq); [done|lia|lia|]. destruct (rd32_some b 4) as (ts & -> & Hts); [done|lia|lia|].
  destruct (rd32_some b 8) as (sr & -> & Hsr); [done|lia|lia|]. cbn [mbind option_bind]. rewrite Z.gtb_ltb.
  destruct (Z.ltb_spec (Z.of_nat (length b)) off); [lia|].
  assert (Hgood : forall d, 0 <= d <= Z.of_nat (length b) - off ->
    RTP_HDR_LEN <= off /\ 0 <= d /\ off + d <= Z.of_nat (length b) /\
    Z.of_nat (length (take (Z.to_nat d) (drop (Z.to_nat off) b))) = d /\ 0 <= h_pt b1 < 128 /\ 0 <= sq < 65536 /\ is_u32 ts /\ is_u32 sr /\
    (h_version b0 = 0 \/ h_version b0 = RTP_VERSION)).
  { intros d Hd. split; [lia|]. split; [lia|]. split; [lia|]. split; [rewrite length_take, length_drop; lia|].
    split; [apply Z.mod_pos_bound; lia|]. split; [done|]. split; [done|]. split; [done|].
    destruct (Z.eqb_spec (h_version b0) RTP_VERSION); [by right|]. destruct (Z.eqb_spec (h_version b0) 0); [by left|done]. }
  destruct (negb (h_p b0 =? 0)).
  - destruct (Z.eqb_spec (Z.of_nat (length b) - off) 0); [eexists _, (-1); repeat (split; [by auto|]); done|].
    destruct (rd_some b (Z.of_nat (length b) - 1)) as (pad & -> & Hp); [lia|]. cbn [mbind option_bind].
    rewrite Forall_forall in Hb. apply Hb in Hp. unfold is_byte in Hp.
    rewrite Z.geb_leb. destruct (Z.leb_spec (Z.of_nat (length b) - off) pad); [eexists _, (-1); repeat (split; [by auto|]); done|].
    eexists _, 0. split; [done|]. split; [by left|]. split; [done|]. intros _. apply (Hgood (Z.of_nat (length b) - off - pad)). lia.
  - eexists _, 0. split; [done|]. split; [by left|]. split; [done|]. intros _. apply (Hgood (Z.of_nat (length b) - off)). lia.
Qed.

Lemma rtp_parse_safe_witness :
  exists q r, rtp_parse (mk_rtp [177; 5; 0; 1; 0; 0; 0; 2; 0; 0; 0; 3; 0; 0; 0; 9; 7; 7; 7; 7; 7; 2] 0 0 0 false 0 0 0 0) = Some (q, r) /\
    (r = 0 \/ r = -1).
Proof.
  destruct (rtp_parse_safe (mk_rtp [177; 5; 0; 1; 0; 0; 0; 2; 0; 0; 0; 3; 0; 0; 0; 9; 7; 7; 7; 7; 7; 2] 0 0 0 false 0 0 0 0))
    as (q & r & E & Hr & _); [done|repeat constructor; lia|]. by exists q, r.
Defined.

(** What is composed is parsed: a packet with a payload of 1 to 4084 bytes is composed into
    header and payload, and parsing the bytes gives back payload type, marker, sequence number,
    time stamp, source and payload. *)
Theorem rtp_roundtrip p data : 1 <= Z.of_nat (length data) <= 4084 -> 0 <= payload p < 128 ->
  0 <= sequence p < 65536 -> is_u32 (timestamp p) -> is_u32 (ssrc p) ->
  exists q r, rtp_compile data p = Some (q, 0) /\ b_size q = Z.of_nat (length data) + RTP_HDR_LEN /\
    rtp_parse (rtp_recv (rtp_buffer q) new_rtp_packet).1 = Some (r, 0) /\
    payload r = payload p /\ marker r = marker p /\ sequence r = sequence p /\ timestamp r = timestamp p /\
    ssrc r = ssrc p /\ version r = RTP_VERSION /\ rtp_data r = data.
Proof.
  intros Hd Hp Hs Ht Hc. unfold is_u32, u32_mod in *. unfold rtp_compile.
  rewrite (proj2 (Z.eqb_neq _ _)), Z.gtb_ltb, (proj2 (Z.ltb_ge _ _)) by (unfold RTP_BUFFER, RTP_HDR_LEN; lia). cbn [orb].
  unfold to_be32. pose proof (Z.div_pos (timestamp p) 65536). pose proof (Z.div_pos (ssrc p) 65536).
  assert (timestamp p / 65536 < 65536) by (apply Z.div_lt_upper_bound; lia).
  assert (ssrc p / 65536 < 65536) by (apply Z.div_lt_upper_bound; lia).
  pose proof (Z.mod_pos_bound (timestamp p) 65536). pose proof (Z.mod_pos_bound (ssrc p) 65536).
  destruct (to_be16_be16 (sequence p)) as (s1 & s2 & -> & Es & _); [lia|].
  destruct (to_be16_be16 (timestamp p / 65536)) as (t1 & t2 & -> & Et & _); [lia|].
  destruct (to_be16_be16 (timestamp p mod 65536)) as (t3 & t4 & -> & Et2 & _); [lia|].
  destruct (to_be16_be16 (ssrc p / 65536)) as (c1 & c2 & -> & Ec & _); [lia|].
  destruct (to_be16_be16 (ssrc p mod 65536)) as (c3 & c4 & -> & Ec2 & _); [lia|].
  set (b1 := (if marker p then 128 else 0) + payload p mod 128).
  assert (Hpt : h_pt b1 = payload p).
  { unfold h_pt, b1. rewrite (Z.mod_small (payload p)) by lia. destruct (marker p); [|by apply Z.mod_small].
    rewrite <- (Z.mod_add _ (-1)) by lia. rewrite <- (Z.mod_small (payload p) 128) at 2 by lia. f_equal. lia. }
  assert (Hm : negb (h_m b1 =? 0) = marker p).
  { unfold h_m, b1. rewrite (Z.mod_small (payload p)) by lia. destruct (marker p).
    - replace (128 + payload p) with (payload p + 1 * 128) by lia. rewrite Z.div_add, Z.div_small by lia. done.
    - rewrite Z.div_small by lia. done. }
  clearbody b1. eexists _, _. split; [done|]. split; [unfold b_size, RTP_HDR_LEN; cbn [rtp_buffer app]; rewrite !length_cons; lia|].
  unfold rtp_recv. cbn [rtp_buffer fst app]. rewrite take_ge by (rewrite !length_cons; unfold RTP_BUFFER; lia).
  unfold rtp_parse, b_size. cbn [rtp_buffer].
  set (b := RTP_VERSION * 64 :: b1 :: s1 :: s2 :: t1 :: t2 :: t3 :: t4 :: c1 :: c2 :: c3 :: c4 :: data).
  assert (Hlen : Z.of_nat (length b) = 12 + Z.of_nat (length data)) by (unfold b; cbn; lia).
  rewrite Hlen, (proj2 (Z.eqb_neq _ _)), (proj2 (Z.ltb_ge _ _)) by (unfold RTP_HDR_LEN; lia).
  change (rd b 0) with (Some 128). change (rd b 1) with (Some b1). cbn [mbind option_bind].
  change (h_version 128) with 2. change (h_cc 128) with 0. change (h_x 128) with 0. change (h_p 128) with 0. cbn [negb andb Z.eqb].
  rewrite Z.gtb_ltb, (proj2 (Z.ltb_ge _ _)) by (unfold RTP_HDR_LEN; lia).
  unfold skip_extension. cbn [negb andb Z.eqb mbind option_bind].
  change (rd16 b 2) with (Some (be16 s1 s2)). change (rd32 b 4) with (Some (be16 t1 t2 * 65536 + be16 t3 t4)).
  change (rd32 b 8) with (Some (be16 c1 c2 * 65536 + be16 c3 c4)). cbn [mbind option_bind].
  rewrite Z.gtb_ltb, (proj2 (Z.ltb_ge _ _)) by (unfold RTP_HDR_LEN; lia).
  rewrite Hpt, Hm, Es, Et, Et2, Ec, Ec2. split; [done|]. cbn [payload marker sequence timestamp ssrc version].
  pose proof (Z.div_mod (timestamp p) 65536). pose proof (Z.div_mod (ssrc p) 65536).
  split; [done|]. split; [done|]. split; [done|]. split; [lia|]. split; [lia|]. split; [done|].
  unfold rtp_data. cbn [d_size data_offset rtp_buffer]. change (drop (Z.to_nat (RTP_HDR_LEN + 0 * 4)) b) with data.
  apply take_ge. unfold RTP_HDR_LEN. lia.
Qed.

Lemma rtp_roundtrip_witness :
  exists q r, rtp_compile [1; 2; 3] (mk_rtp [] 0 0 8 true 65535 160 4294967295 0) = Some (q, 0) /\
    rtp_parse (rtp_recv (rtp_buffer q) new_rtp_packet).1 = Some (r, 0) /\ rtp_data r = [1; 2; 3].
Proof.
  destruct (rtp_roundtrip (mk_rtp [] 0 0 8 true 65535 160 4294967295 0) [1; 2; 3]) as (q & r & E & _ & Er & H);
    [cbn; lia|cbn; lia|cbn; lia|by vm_compute|by vm_compute|]. exists q, r. split; [done|]. split; [done|]. apply H.
Defined.
