(* ===== verification/Crc4.v ===== *)
(** * The CRC-4 of time stamps

    Model of core/crc4.h and crc4.cpp: a table-driven CRC of width 4 with the polynomial
    x^4 + x + 1, used to check the time stamps of compressed RTP headers.  The table is shown to
    compute the bitwise division. *)

From Stdlib Require Import ZArith Lia.
From stdpp Require Import base list.
From S2P Require Import Prelude RtpPacket.

Local Open Scope Z_scope.
Local Open Scope bool_scope.

Definition crc_table : list Z :=
  [0;3;6;5;12;15;10;9;11;8;13;14;7;4;1;2;5;6;3;0;9;10;15;12;14;13;8;11;2;1;4;7;
   10;9;12;15;6;5;0;3;1;2;7;4;13;14;11;8;15;12;9;10;3;0;5;6;4;7;2;1;8;11;14;13;
   7;4;1;2;11;8;13;14;12;15;10;9;0;3;6;5;2;1;4;7;14;13;8;11;9;10;15;12;5;6;3;0;
   13;14;11;8;1;2;7;4;6;5;0;3;10;9;12;15;8;11;14;13;4;7;2;1;3;0;5;6;15;12;9;10;
   14;13;8;11;2;1;4;7;5;6;3;0;9;10;15;12;11;8;13;14;7;4;1;2;0;3;6;5;12;15;10;9;
   4;7;2;1;8;11;14;13;15;12;9;10;3;0;5;6;1;2;7;4;13;14;11;8;10;9;12;15;6;5;0;3;
   9;10;15;12;5;6;3;0;2;1;4;7;14;13;8;11;12;15;10;9;0;3;6;5;7;4;1;2;11;8;13;14;
   3;0;5;6;15;12;9;10;8;11;14;13;4;7;2;1;6;5;0;3;10;9;12;15;13;14;11;8;1;2;7;4].

Definition crc_step (crc d : Z) : Z :=
  let tbl_idx := Z.lxor (Z.shiftl crc 4) d in Z.land (nth (Z.to_nat tbl_idx) crc_table 0) 15.

(** [crc_update]; [crc_init] is 0 and [crc_finalize] the identity. *)
Definition crc_update (crc : Z) (data : list Z) : Z := Z.land (fold_left crc_step data crc) 15.

(** The bytes of a 32-bit number in memory. *)
Definition u32_mem (x : Z) : list Z := [x mod 256; x / 256 mod 256; x / 65536 mod 256; x / 16777216 mod 256].

Definition calc_crc4 (ts : Z) : Z := crc_update 0 (u32_mem ts).

(** ** The reference: division by the polynomial, bit by bit *)

Definition crc_bit (crc : Z) (b : bool) : Z :=
  let top := xorb (Z.testbit crc 3) b in
  let crc := Z.land (Z.shiftl crc 1) 15 in if top then Z.lxor crc 3 else crc.

(** The bits of a byte, the highest first. *)
Definition byte_bits (d : Z) : list bool := map (fun i => Z.testbit d i) [7; 6; 5; 4; 3; 2; 1; 0].

Definition crc_divide (crc : Z) (data : list Z) : Z := fold_left crc_bit (concat (map byte_bits data)) crc.

Lemma crc_step_bits : forallb (fun c => forallb (fun d =>
    (crc_step c d =? fold_left crc_bit (byte_bits d) c) && (0 <=? crc_step c d) && (crc_step c d <? 16))
  (map Z.of_nat (seq 0 256))) (map Z.of_nat (seq 0 16)) = true.
Proof. vm_compute. reflexivity. Qed.

Lemma crc_step_correct c d : 0 <= c < 16 -> is_byte d ->
  crc_step c d = fold_left crc_bit (byte_bits d) c /\ 0 <= crc_step c d < 16.
Proof.
  intros Hc Hd. pose proof crc_step_bits as H. rewrite forallb_forall in H.
  assert (Hin : forall n x, 0 <= x < Z.of_nat n -> In x (map Z.of_nat (seq 0 n))).
  { intros n x Hx. apply in_map_iff. exists (Z.to_nat x). split; [lia|]. apply in_seq. lia. }
  specialize (H c (Hin 16%nat c Hc)). rewrite forallb_forall in H. specialize (H d (Hin 256%nat d Hd)).
  apply andb_prop in H as [[?%Z.eqb_eq ?%Z.leb_le]%andb_prop ?%Z.ltb_lt]. done.
Qed.

(** The table-driven CRC is the remainder of the division by x^4 + x + 1, and fits 4 bits. *)
Theorem crc_is_division data : Forall is_byte data ->
  crc_update 0 data = crc_divide 0 data /\ 0 <= crc_update 0 data < 16.
Proof.
  intros Hd. assert (H : forall c, 0 <= c < 16 ->
    fold_left crc_step data c = crc_divide c data /\ 0 <= fold_left crc_step data c < 16).
  { unfold crc_divide. induction Hd as [|d data Hx _ IH]; intros c Hc; cbn [fold_left concat map]; [done|].
    destruct (crc_step_correct c d Hc Hx) as [E Hr]. rewrite fold_left_app, <- E. by apply IH. }
  unfold crc_update. destruct (H 0 ltac:(lia)) as [E Hr]. change 15 with (Z.ones 4).
  rewrite Z.land_ones by lia. change (2 ^ 4) with 16. rewrite Z.mod_small by lia. done.
Qed.

Lemma crc_is_division_witness : crc_update 0 [49; 50; 51; 52] = crc_divide 0 [49; 50; 51; 52].
Proof. apply crc_is_division. repeat constructor; lia. Defined.

Lemma calc_crc4_range ts : is_u32 ts -> 0 <= calc_crc4 ts < 16.
Proof.
  intros Ht. unfold calc_crc4, crc_update. change 15 with (Z.ones 4). rewrite Z.land_ones by lia. apply Z.mod_pos_bound. lia.
Qed.
