(* ===== verification/RtpMux.v ===== *)
(** * Multiplexed RTP

    Model of core/AmRtpMuxStream.h and AmRtpMuxStream.cpp: packets of several RTP streams are
    collected in one queue and sent together in a UDP datagram; the receiver takes them apart.
    A frame carries the whole packet behind a setup header, or only the payload behind a
    compressed header from which the receiver rebuilds the RTP header of the previous packet of
    the stream.

    The queue's buffer is a list of [MAX_MUX_QUEUE_SIZE] bytes with the position of [end_ptr];
    an access outside a buffer, or behind the bytes received, is a fault ([None]).  The wheel
    timer, the configuration and the outcome of the socket calls are an environment; the bytes
    of a [MuxStreamState] that its constructor leaves undefined are a parameter. *)

From Stdlib Require Import ZArith Lia.
From stdpp Require Import base list gmap.
From S2P Require Import Prelude Wheeltimer AmUtils SampleArray RtpPacket Crc4.

Local Open Scope Z_scope.
Local Open Scope bool_scope.

Definition RTP_MUX_MAX_FRAME_SIZE : Z := 256.
Definition MAX_RTP_HDR_LEN : Z := 64.
Definition MAX_MUX_QUEUE_SIZE : Z := 4096.
Definition MAX_RTP_PACKET_LEN : Z := 512.
Definition MUX_PERIODIC_SETUP_FRAME_MS : Z := 500.
Definition MUX_SETUP_FRAME_REPEAT : Z := 3.
Definition RESYNC_MAX_DELAY : Z := 10 * 8000.
Definition DEFAULT_TS_INCREMENT : Z := 160.
Definition TS_MULTIPLIER_LOW : Z := 40.
Definition TS_MULTIPLIER_HIGH : Z := 160.

(** [sizeof] of the two frame headers; their last byte is not used. *)
Definition SETUP_HDR : Z := 6.
Definition COMPRESSED_HDR : Z := 4.

Definition u16 (x : Z) : Z := x mod 65536.

Local Notation "'len_of' b" := (Z.of_nat (length b)) (at level 10, b at level 9).

(** [memcpy] of bytes to an offset. *)
Definition overwrite (off : Z) (l b : list Z) : list Z :=
  take (Z.to_nat off) b ++ l ++ drop (Z.to_nat off + length l) b.

(** ** Stream states *)

Record mux_state := mk_ms {
  ms_dstport : Z;
  ms_ts_increment : Z;
  ms_rtp_hdr : list Z;
  ms_rtp_hdr_len : Z;
  ms_setup_frame_ctr : Z;
  ms_last_mux_packet_id : Z;
  ms_last_setup_frame_ts : Z
}.

(** [rtp_hdr] is left undefined by the constructor. *)
Definition new_mux_state (undefined : list Z) : mux_state := mk_ms 0 DEFAULT_TS_INCREMENT undefined 0 0 0 0.

(** ** RTP headers *)

(** The pointer to the extension is computed on [rtp_hdr_t*], in steps of 12 bytes. *)
Definition get_rtp_hdr_len (hdr : list Z) : option Z :=
  b0 ← rd hdr 0;
  let hdr_len := RTP_HDR_LEN + h_cc b0 * 4 in
  if h_x b0 =? 0 then Some hdr_len
  else len ← rd16 hdr (RTP_HDR_LEN * hdr_len + 2); Some (u16 (hdr_len + len * 4)).

(** [memcpy(state.rtp_hdr, hdr, len)] *)
Definition save_hdr (hdr : list Z) (len : Z) (arr : list Z) : option (list Z) :=
  if (len <=? MAX_RTP_HDR_LEN) && (len <=? len_of hdr) then Some (overwrite 0 (take (Z.to_nat len) hdr) arr)
  else None.

Definition rtp_hdr_changed (hdr1 hdr2 : list Z) : option bool :=
  a0 ← rd hdr1 0; b0 ← rd hdr2 0; a1 ← rd hdr1 1; b1 ← rd hdr2 1;
  ssrc1 ← rd32 hdr1 8; ssrc2 ← rd32 hdr2 8; ts1 ← rd32 hdr1 4; ts2 ← rd32 hdr2 4;
  Some (if negb (h_pt a1 =? h_pt b1) || negb (ssrc1 =? ssrc2) || negb (h_cc a0 =? h_cc b0) || negb (h_x a0 =? h_x b0)
        then true
        else ts_less ts1 (u32 (ts2 - RESYNC_MAX_DELAY / 2)) || negb (ts_less ts1 (u32 (ts2 + RESYNC_MAX_DELAY)))).

(** ** Compression *)

(** The byte of the compressed header with [m], [sn_lsb] and [ts_crc4]. *)
Definition c_m (c : Z) : Z := c / 128.
Definition c_sn_lsb (c : Z) : Z := c / 16 mod 8.
Definition c_ts_crc4 (c : Z) : Z := c mod 16.
Definition c_byte (m sn_lsb ts_crc4 : Z) : Z := 128 * m + 16 * sn_lsb + ts_crc4.

Definition test_sns : list Z := [0; 8; 1; 65528; 16; 32; 40; 48; 65520].

(** The loop over the possible sequence numbers: the first whose time stamp has the CRC. *)
Fixpoint find_sn (tests : list Z) (crc ts_increment old_seq seq ts : Z) : option (Z * Z) :=
  match tests with
  | [] => None
  | sn_diff_test :: tests =>
      let sn_test := u16 (seq + sn_diff_test) in
      let sn_diff := u16 (sn_test - old_seq) in
      let ts_test := u32 (ts + sn_diff * ts_increment) in
      if calc_crc4 ts_test =? crc then Some (sn_test, ts_test) else find_sn tests crc ts_increment old_seq seq ts
  end.

(** A 32-bit number from its bytes in memory. *)
Definition mem_u32 (l : list Z) : Z := foldr (fun b n => b + 256 * n) 0 l.

(** [rtp_hdr->ts += htonl(d)] *)
Definition add_raw_ts (d : Z) (hdr : list Z) : list Z :=
  overwrite 4 (u32_mem (u32 (mem_u32 (take 4 (drop 4 hdr)) + mem_u32 (to_be32 d)))) hdr.

Definition decompress (c ts_increment : Z) (old_rtp_hdr : list Z) : option (list Z) :=
  hdr_len ← get_rtp_hdr_len old_rtp_hdr;
  if negb ((hdr_len <=? MAX_RTP_HDR_LEN) && (hdr_len <=? len_of old_rtp_hdr)) then None else
  let hdr := take (Z.to_nat hdr_len) old_rtp_hdr in
  b1 ← rd hdr 1;
  old_seq ← rd16 hdr 2;
  ts ← rd32 hdr 4;
  let hdr := overwrite 1 [128 * c_m c + b1 mod 128] hdr in
  let seq := u16 (Z.land old_seq 65528 + c_sn_lsb c) in
  let seq := if seq <? old_seq then u16 (seq + 8) else seq in
  match find_sn test_sns (c_ts_crc4 c) ts_increment old_seq seq ts with
  | Some (sn_test, ts_test) => Some (overwrite 2 (to_be16 sn_test) (overwrite 4 (to_be32 ts_test) hdr))
  | None => Some (add_raw_ts (u32 (u16 (seq - old_seq) * ts_increment)) hdr)
  end.

Definition calculate_ts_increment (u ts_inc : Z) : Z :=
  if negb (u =? 0) then ts_inc * TS_MULTIPLIER_HIGH else ts_inc * TS_MULTIPLIER_LOW.

(** ** The sending queue *)

Record mux_env := mk_me {
  me_wheel : wheeltimer;
  me_max_age : Z;            (* RtpMuxMaxFrameAgeMs *)
  me_mtu : Z;                (* RtpMuxMTUThreshold *)
  me_init : Z * Z;           (* result of opening the socket, and the socket *)
  me_sendto : Z              (* result of sendto *)
}.

Record mux_queue := mk_mq {
  mq_remote : list Z * Z;
  mq_l_sd : Z;
  mq_stream_ids : gmap Z Z;
  mq_streamstates : gmap Z mux_state;
  mq_buf : list Z;
  mq_end : Z;
  mq_oldest_frame : Z;
  mq_oldest_frame_i : bool;
  mq_packet_id : Z
}.

Definition new_mux_queue (undefined : list Z) : mux_queue := mk_mq ([], 0) 0 ∅ ∅ undefined 0 0 false 0.

Definition set_remote (a : list Z * Z) (sd : Z) (q : mux_queue) : mux_queue :=
  mk_mq a sd (mq_stream_ids q) (mq_streamstates q) (mq_buf q) (mq_end q) (mq_oldest_frame q) (mq_oldest_frame_i q) (mq_packet_id q).
Definition set_streams (ids : gmap Z Z) (sts : gmap Z mux_state) (q : mux_queue) : mux_queue :=
  mk_mq (mq_remote q) (mq_l_sd q) ids sts (mq_buf q) (mq_end q) (mq_oldest_frame q) (mq_oldest_frame_i q) (mq_packet_id q).
Definition set_oldest (t : Z) (i : bool) (q : mux_queue) : mux_queue :=
  mk_mq (mq_remote q) (mq_l_sd q) (mq_stream_ids q) (mq_streamstates q) (mq_buf q) (mq_end q) t i (mq_packet_id q).

(** [MuxStreamQueue::init]: the address is stored before anything can fail. *)
Definition mux_init (e : mux_env) (remote : list Z * Z) (q : mux_queue) : mux_queue * Z :=
  (set_remote remote (me_init e).2 q, (me_init e).1).

(** The first stream id that is not in use. *)
Fixpoint free_sid (n : nat) (sid : Z) (sts : gmap Z mux_state) : option Z :=
  match n with
  | O => None
  | S n => match sts !! sid with None => Some sid | Some _ => free_sid n (sid + 1) sts end
  end.

(** [None]: no stream id is left. *)
Definition stream_for (port : Z) (q : mux_queue) : option (Z * mux_queue) :=
  match mq_stream_ids q !! port with
  | Some sid => Some (sid, q)
  | None =>
      match free_sid 256 0 (mq_streamstates q) with
      | None => None
      | Some sid => Some (sid, set_streams (<[port := sid]> (mq_stream_ids q)) (mq_streamstates q) q)
      end
  end.

Definition ms_setup (ctr inc : Z) (s : mux_state) : mux_state :=
  mk_ms (ms_dstport s) inc (ms_rtp_hdr s) (ms_rtp_hdr_len s) ctr (ms_last_mux_packet_id s) (ms_last_setup_frame_ts s).

(** Whether a setup frame is due before compression is tried. *)
Definition setup_due (e : mux_env) (packet_id : Z) (b : list Z) (s : mux_state) : option (bool * mux_state) :=
  changed ← rtp_hdr_changed (ms_rtp_hdr s) b;
  let '(setup, s) := if changed : bool then (true, ms_setup MUX_SETUP_FRAME_REPEAT DEFAULT_TS_INCREMENT s) else (false, s) in
  let other := negb (ms_last_mux_packet_id s =? packet_id) in
  let '(setup, s) :=
    if negb setup && negb (ms_setup_frame_ctr s =? 0) && other
    then (true, ms_setup (ms_setup_frame_ctr s - 1) (ms_ts_increment s) s) else (setup, s) in
  let setup := setup || other && interval_elapsed (me_wheel e) (ms_last_setup_frame_ts s) MUX_PERIODIC_SETUP_FRAME_MS in
  rtp_hdr_len ← get_rtp_hdr_len b;
  let setup := setup || negb (rtp_hdr_len =? ms_rtp_hdr_len s) in
  ts ← rd32 b 4; old_ts ← rd32 (ms_rtp_hdr s) 4;
  Some (if negb setup && negb (ts =? u32 (old_ts + ms_ts_increment s))
        then (true, ms_setup (ms_setup_frame_ctr s) (u16 (ts - old_ts)) s) else (setup, s)).

(** The compressed frame, without the unused byte of its header: header and payload.  [None]
    in the result: the header cannot be restored from it, and a setup header is written over
    the compressed one. *)
Definition compressed_frame (sid : Z) (b : list Z) (s : mux_state) : option (option (list Z * list Z)) :=
  rtp_hdr_len ← get_rtp_hdr_len b;
  b1 ← rd b 1; seq ← rd16 b 2; ts ← rd32 b 4;
  let data_len := u16 (len_of b - rtp_hdr_len) in
  let c := c_byte (h_m b1) (Z.land seq 7) (calc_crc4 ts) in
  restored ← decompress c (ms_ts_increment s) (ms_rtp_hdr s);
  if bool_decide (take (Z.to_nat rtp_hdr_len) restored = take (Z.to_nat rtp_hdr_len) b) then
    if rtp_hdr_len <=? len_of b
    then Some (Some ([128 + sid mod 128; data_len mod 256; c], drop (Z.to_nat rtp_hdr_len) b))
    else None
  else Some None.

(** The increment as the setup header has it: [u] and [ts_inc]. *)
Definition encode_ts_increment (inc : Z) : Z * Z :=
  if inc mod TS_MULTIPLIER_HIGH =? 0 then (1, inc / TS_MULTIPLIER_HIGH mod 128) else (0, inc / TS_MULTIPLIER_LOW mod 128).

Definition setup_frame (sid port : Z) (b : list Z) (s : mux_state) : list Z * list Z :=
  let '(u, ts_inc) := encode_ts_increment (ms_ts_increment s) in
  ([sid mod 128; len_of b mod 256] ++ to_be16 port ++ [128 * u + ts_inc], b).

(** A frame at [end_ptr]: the byte between header and payload is left as it is. *)
Definition push_frame (hdr payload : list Z) (q : mux_queue) : option mux_queue :=
  let next := mq_end q + len_of hdr + 1 + len_of payload in
  if next <=? MAX_MUX_QUEUE_SIZE then
    let buf := overwrite (mq_end q) hdr (mq_buf q) in
    Some (mk_mq (mq_remote q) (mq_l_sd q) (mq_stream_ids q) (mq_streamstates q)
            (overwrite (mq_end q + len_of hdr + 1) payload buf) next
            (mq_oldest_frame q) (mq_oldest_frame_i q) (mq_packet_id q))
  else None.

(** The result of a call: its value, and the datagram handed to [sendto]. *)
Definition sendQueue (force : bool) (e : mux_env) (q : mux_queue) : mux_queue * Z * option (list Z) :=
  let '(q, force_send) :=
    if negb (mq_oldest_frame_i q) then (set_oldest (wall_clock (me_wheel e)) true q, force)
    else (q, force || interval_elapsed (me_wheel e) (mq_oldest_frame q) (me_max_age e)) in
  let len := mq_end q in
  let force_send := force_send || (me_mtu e <=? len) in
  if negb force_send then (q, 0, None)
  else (mk_mq (mq_remote q) (mq_l_sd q) (mq_stream_ids q) (mq_streamstates q) (mq_buf q) 0 (mq_oldest_frame q) false
          (u32 (mq_packet_id q + 1)),
        me_sendto e, Some (take (Z.to_nat len) (mq_buf q))).

(** What is stored of the packet that was sent. *)
Definition ms_sent (hdr_len : Z) (arr : list Z) (packet_id setup_ts : Z) (s : mux_state) : mux_state :=
  mk_ms (ms_dstport s) (ms_ts_increment s) arr hdr_len (ms_setup_frame_ctr s) packet_id setup_ts.

Section Queue.
Context (undefined : list Z).

(** [MuxStreamQueue::send] from the stream id on. *)
Definition send_on (e : mux_env) (b : list Z) (port sid : Z) (q : mux_queue) : option (mux_queue * Z * option (list Z)) :=
  let s := default (new_mux_state undefined) (mq_streamstates q !! sid) in
  '(setup, s) ← setup_due e (mq_packet_id q) b s;
  compressed ← (if setup : bool then Some None else compressed_frame sid b s);
  let '(frame, setup_ts) :=
    match compressed with
    | Some f => (f, ms_last_setup_frame_ts s)
    | None => (setup_frame sid port b s, wall_clock (me_wheel e))
    end in
  q ← push_frame frame.1 frame.2 q;
  hdr_len ← get_rtp_hdr_len b;
  arr ← save_hdr b hdr_len (ms_rtp_hdr s);
  let s := ms_sent hdr_len arr (mq_packet_id q) setup_ts s in
  Some (sendQueue false e (set_streams (mq_stream_ids q) (<[sid := s]> (mq_streamstates q)) q)).

(** [MuxStreamQueue::send] *)
Definition mux_send (e : mux_env) (b : list Z) (remote : list Z * Z) (port : Z) (q : mux_queue) :
    option (mux_queue * Z * option (list Z)) :=
  if RTP_MUX_MAX_FRAME_SIZE <? len_of b then Some (q, -1, None) else
  let '(q, failed) := if bool_decide (mq_remote q = remote) then (q, 0) else mux_init e remote q in
  if negb (failed =? 0) then Some (q, -1, None) else
  match stream_for port q with
  | None => Some (q, -1, None)
  | Some (sid, q) => send_on e b port sid q
  end.

(** [MuxStreamQueue::close] for a port *)
Definition mux_close (e : mux_env) (remote : list Z * Z) (port : Z) (q : mux_queue) : mux_queue * option (list Z) :=
  if negb (bool_decide (mq_remote q = remote)) || (port =? 0) then (q, None) else
  match mq_stream_ids q !! port with
  | None => (q, None)
  | Some sid =>
      let '(q, _, dgram) := sendQueue true e q in
      (set_streams (delete port (mq_stream_ids q)) (delete sid (mq_streamstates q)) q, dgram)
  end.

(** [_AmRtpMuxSender]: a queue per destination; [undefined_buf] is what a new queue holds. *)
Definition queue_key (remote_ip : list Z) (remote_port : Z) : list Z := remote_ip ++ 58 :: int2str remote_port.

Definition sender_send (undefined_buf : list Z) (e : mux_env) (b remote_ip : list Z) (remote_port port : Z)
    (qs : gmap (list Z) mux_queue) : option (gmap (list Z) mux_queue * Z * option (list Z)) :=
  if bool_decide (remote_ip = []) || (remote_port =? 0) then Some (qs, -1, None) else
  let key := queue_key remote_ip remote_port in
  '(q, res, dgram) ← mux_send e b (remote_ip, remote_port) port (default (new_mux_queue undefined_buf) (qs !! key));
  Some (<[key := q]> qs, res, dgram).

Definition sender_close (undefined_buf : list Z) (e : mux_env) (remote_ip : list Z) (remote_port port : Z)
    (qs : gmap (list Z) mux_queue) : gmap (list Z) mux_queue * option (list Z) :=
  let key := queue_key remote_ip remote_port in
  let '(q, dgram) := mux_close e (remote_ip, remote_port) port (default (new_mux_queue undefined_buf) (qs !! key)) in
  (<[key := q]> qs, dgram).
End Queue.

(** ** The receiver *)

Definition recv_states := Z -> mux_state.

Definition set_state (sid : Z) (s : mux_state) (r : recv_states) : recv_states := fun i => if i =? sid then s else r i.

(** A frame at [frame_ptr], with the rest of the datagram: what is delivered to which port. *)
Definition recv_frame (p : list Z) (r : recv_states) : option (recv_states * (Z * list Z) * list Z) :=
  b0 ← rd p 0; len ← rd p 1;
  let sid := b0 mod 128 in
  let s := r sid in
  if b0 / 128 =? 0 then
    dstport ← rd16 p 2; b4 ← rd p 4;
    let hdr := drop (Z.to_nat SETUP_HDR) p in
    hdr_len ← get_rtp_hdr_len hdr;
    arr ← save_hdr hdr hdr_len (ms_rtp_hdr s);
    let s := mk_ms dstport (u16 (calculate_ts_increment (b4 / 128) (b4 mod 128))) arr hdr_len
               (ms_setup_frame_ctr s) (ms_last_mux_packet_id s) (ms_last_setup_frame_ts s) in
    if len <=? len_of hdr
    then Some (set_state sid s r, (dstport, take (Z.to_nat len) hdr), drop (Z.to_nat (len + SETUP_HDR)) p)
    else None
  else
    c ← rd p 2;
    rtp_pkt ← decompress c (ms_ts_increment s) (ms_rtp_hdr s);
    hdr_len ← get_rtp_hdr_len rtp_pkt;
    arr ← save_hdr rtp_pkt hdr_len (ms_rtp_hdr s);
    let s := mk_ms (ms_dstport s) (ms_ts_increment s) arr hdr_len
               (ms_setup_frame_ctr s) (ms_last_mux_packet_id s) (ms_last_setup_frame_ts s) in
    let data := drop (Z.to_nat COMPRESSED_HDR) p in
    if (len <=? len_of data) && (hdr_len + len <=? MAX_RTP_PACKET_LEN)
    then Some (set_state sid s r, (ms_dstport s, take (Z.to_nat hdr_len) rtp_pkt ++ take (Z.to_nat len) data),
               drop (Z.to_nat (len + COMPRESSED_HDR)) p)
    else None.

(** The loop over the frames of a datagram; every frame has at least four bytes. *)
Fixpoint recv_loop (fuel : nat) (p : list Z) (r : recv_states) : option (recv_states * list (Z * list Z)) :=
  match p with
  | [] => Some (r, [])
  | _ :: _ =>
      match fuel with
      | O => None
      | S fuel =>
          '(r, d, p) ← recv_frame p r;
          '(r, ds) ← recv_loop fuel p r;
          Some (r, d :: ds)
      end
  end.

(** [AmRtpMuxStream::recvPacket] of a datagram; the socket call cuts it to the packet buffer. *)
Definition recvPacket (dgram : list Z) (r : recv_states) : option (recv_states * list (Z * list Z)) :=
  let p := take (Z.to_nat RTP_BUFFER) dgram in recv_loop (length p) p r.

(** ** Bytes and headers *)

Lemma overwrite_app a l b c : length l = length b -> overwrite (len_of a) l (a ++ b ++ c) = a ++ l ++ c.
Proof.
  intros Hl. unfold overwrite. rewrite Nat2Z.id, take_app_length. f_equal. f_equal. rewrite Hl.
  rewrite (app_assoc a b c), <- length_app. apply drop_app_length.
Qed.

Lemma overwrite_split off l b : 0 <= off -> off + len_of l <= len_of b ->
  exists a m c, b = a ++ m ++ c /\ len_of a = off /\ length m = length l /\ overwrite off l b = a ++ l ++ c.
Proof.
  intros H0 Hl. exists (take (Z.to_nat off) b), (take (length l) (drop (Z.to_nat off) b)), (drop (length l) (drop (Z.to_nat off) b)).
  rewrite !take_drop. split; [done|]. rewrite length_take, Nat.min_l by lia. split; [lia|].
  rewrite length_take, length_drop, Nat.min_l by lia. split; [done|]. unfold overwrite. by rewrite drop_drop.
Qed.

Lemma length_overwrite off l b : 0 <= off -> off + len_of l <= len_of b -> length (overwrite off l b) = length b.
Proof.
  intros H0 Hl. destruct (overwrite_split off l b H0 Hl) as (a & m & c & -> & Ha & Hm & ->). rewrite !length_app. lia.
Qed.

Lemma rd_front0 a l : rd (a :: l) 0 = Some a.
Proof. done. Qed.
Lemma rd_front1 a b l : rd (a :: b :: l) 1 = Some b.
Proof. done. Qed.
Lemma rd_front2 a b c l : rd (a :: b :: c :: l) 2 = Some c.
Proof. done. Qed.
Lemma rd16_front2 a b c d l : rd16 (a :: b :: c :: d :: l) 2 = Some (be16 c d).
Proof. done. Qed.
Lemma rd_front4 a b c d e l : rd (a :: b :: c :: d :: e :: l) 4 = Some e.
Proof. done. Qed.

Lemma rd_app h t i : i < len_of h -> rd (h ++ t) i = rd h i.
Proof.
  intros Hi. unfold rd. destruct (0 <=? i) eqn:E; [|done]. apply Z.leb_le in E. apply lookup_app_l. lia.
Qed.

Lemma rd16_app h t i : i + 1 < len_of h -> rd16 (h ++ t) i = rd16 h i.
Proof. intros Hi. unfold rd16. by rewrite !rd_app by lia. Qed.

Lemma rd32_app h t i : i + 3 < len_of h -> rd32 (h ++ t) i = rd32 h i.
Proof. intros Hi. unfold rd32. by rewrite !rd16_app by lia. Qed.

Lemma rd16_is_some b i : 0 <= i -> i + 2 <= len_of b -> exists x, rd16 b i = Some x.
Proof.
  intros H0 Hi. unfold rd16. destruct (rd_some b i) as (x & -> & _); [lia|].
  destruct (rd_some b (i + 1)) as (y & -> & _); [lia|]. by eexists.
Qed.

Lemma rd32_is_some b i : 0 <= i -> i + 4 <= len_of b -> exists x, rd32 b i = Some x.
Proof.
  intros H0 Hi. unfold rd32. destruct (rd16_is_some b i) as (x & ->); [lia..|].
  destruct (rd16_is_some b (i + 2)) as (y & ->); [lia..|]. by eexists.
Qed.

(** A header without extension that fits into the stored header. *)
Definition plain_hdr (h : list Z) : Prop :=
  exists b0, rd h 0 = Some b0 /\ h_x b0 = 0 /\ len_of h = RTP_HDR_LEN + h_cc b0 * 4 /\ 12 <= len_of h <= MAX_RTP_HDR_LEN.

Lemma plain_hdr_len h t : plain_hdr h -> get_rtp_hdr_len (h ++ t) = Some (len_of h).
Proof.
  intros (b0 & Hb & Hx & Hl & Hn). unfold get_rtp_hdr_len. rewrite rd_app by lia. rewrite Hb. cbn [mbind option_bind].
  rewrite Hx. cbn. by rewrite <- Hl.
Qed.

Lemma plain_hdr_len_self h : plain_hdr h -> get_rtp_hdr_len h = Some (len_of h).
Proof. intros Hh. rewrite <- (app_nil_r h) at 1. by apply plain_hdr_len. Qed.

Lemma save_plain h t arr : plain_hdr h -> len_of arr = MAX_RTP_HDR_LEN ->
  save_hdr (h ++ t) (len_of h) arr = Some (h ++ drop (length h) arr) /\ len_of (h ++ drop (length h) arr) = MAX_RTP_HDR_LEN.
Proof.
  intros (b0 & Hb & Hx & Hl & Hn) Ha. unfold save_hdr.
  rewrite (proj2 (Z.leb_le _ _)), (proj2 (Z.leb_le _ _)) by (rewrite ?length_app; lia). cbn [andb].
  rewrite Nat2Z.id, take_app_length. split; [done|].
  rewrite length_app, length_drop. lia.
Qed.

(** Restoring looks at the stored header only. *)
Lemma decompress_app c inc h t : plain_hdr h -> decompress c inc (h ++ t) = decompress c inc h.
Proof.
  intros Hh. pose proof Hh as (b0 & _ & _ & _ & Hn). unfold decompress.
  rewrite plain_hdr_len, plain_hdr_len_self by done. cbn [mbind option_bind].
  rewrite !(proj2 (Z.leb_le _ MAX_RTP_HDR_LEN)) by lia. rewrite !(proj2 (Z.leb_le _ (len_of _))) by (rewrite ?length_app; lia).
  cbn [andb negb]. by rewrite Nat2Z.id, take_app_length, firstn_all.
Qed.

Lemma decompress_some c inc h : plain_hdr h -> exists x, decompress c inc h = Some x /\ length x = length h.
Proof.
  intros Hh. pose proof Hh as (b0 & _ & _ & _ & Hn). unfold decompress.
  rewrite plain_hdr_len_self by done. cbn [mbind option_bind].
  rewrite (proj2 (Z.leb_le _ MAX_RTP_HDR_LEN)), (proj2 (Z.leb_le _ (len_of _))) by lia. cbn [andb negb].
  rewrite Nat2Z.id, firstn_all. destruct (rd_some h 1) as (b1 & -> & _); [lia|].
  destruct (rd16_is_some h 2) as (seq & ->); [lia..|]. destruct (rd32_is_some h 4) as (ts & ->); [lia..|].
  cbn [mbind option_bind]. set (h1 := overwrite 1 _ h). assert (Hl : length h1 = length h) by (apply length_overwrite; cbn; lia).
  destruct (find_sn _ _ _ _ _ _) as [[sn ts']|]; eexists; (split; [done|]).
  - rewrite !length_overwrite; cbn; rewrite ?length_overwrite; cbn; lia.
  - unfold add_raw_ts. rewrite length_overwrite; [done|lia|]. cbn. lia.
Qed.

(** ** Frames *)

(** A packet that fits into a frame. *)
Definition packet_ok (h data : list Z) : Prop :=
  plain_hdr h /\ Forall is_byte (h ++ data) /\ len_of (h ++ data) <= 255.

Definition is_port (p : Z) : Prop := 0 <= p < 65536.

(** The increments a setup header can express. *)
Definition expressible (inc : Z) : Prop :=
  0 <= inc /\ (inc mod 160 = 0 /\ inc / 160 < 128 \/ inc mod 160 <> 0 /\ inc mod 40 = 0 /\ inc / 40 < 128).

Lemma encode_expressible inc : expressible inc ->
  let '(u, ts_inc) := encode_ts_increment inc in
  (u = 0 \/ u = 1) /\ 0 <= ts_inc < 128 /\ u16 (calculate_ts_increment u ts_inc) = inc.
Proof.
  intros [H0 H]. unfold encode_ts_increment, TS_MULTIPLIER_HIGH, TS_MULTIPLIER_LOW, u16, calculate_ts_increment.
  destruct H as [[Hm Hd]|(Hm & Hm2 & Hd)].
  - rewrite Hm. cbn [Z.eqb]. pose proof (Z.div_mod inc 160 ltac:(lia)). pose proof (Z.div_pos inc 160 H0 ltac:(lia)).
    rewrite (Z.mod_small (inc / 160)) by lia. repeat split; try lia. cbn. unfold TS_MULTIPLIER_HIGH. rewrite Z.mod_small; lia.
  - destruct (Z.eqb_spec (inc mod 160) 0); [done|].
    pose proof (Z.div_mod inc 40 ltac:(lia)). pose proof (Z.div_pos inc 40 H0 ltac:(lia)).
    rewrite (Z.mod_small (inc / 40)) by lia. repeat split; try lia. cbn. unfold TS_MULTIPLIER_LOW. rewrite Z.mod_small; lia.
Qed.

(** The state of the receiver after a frame of a stream. *)
Definition ms_received (port inc : Z) (h : list Z) (s : mux_state) : mux_state :=
  mk_ms port inc (h ++ drop (length h) (ms_rtp_hdr s)) (len_of h) (ms_setup_frame_ctr s) (ms_last_mux_packet_id s) (ms_last_setup_frame_ts s).

Lemma recv_setup sid port pad h data s rest r : packet_ok h data -> is_port port -> 0 <= sid < 128 ->
  expressible (ms_ts_increment s) -> len_of (ms_rtp_hdr (r sid)) = MAX_RTP_HDR_LEN ->
  let f := setup_frame sid port (h ++ data) s in
  recv_frame (f.1 ++ pad :: f.2 ++ rest) r =
    Some (set_state sid (ms_received port (ms_ts_increment s) h (r sid)) r, (port, h ++ data), rest).
Proof.
  intros (Hh & Hb & Hl) Hp Hs He Ha. cbn zeta. unfold setup_frame. pose proof (encode_expressible _ He) as Hi.
  destruct (encode_ts_increment _) as [u ts_inc]. destruct Hi as (Hu & Ht & Hi).
  destruct (to_be16_be16 port Hp) as (x & y & -> & Hxy & _).
  destruct (save_plain h (data ++ rest) (ms_rtp_hdr (r sid)) Hh Ha) as (Hsave & Hlt).
  cbn [fst snd app]. rewrite <- app_assoc. unfold recv_frame.
  rewrite !(Z.mod_small sid 128), (Z.mod_small (len_of (h ++ data)) 256) by lia.
  rewrite rd_front0, rd_front1, rd16_front2, rd_front4. cbn [mbind option_bind].
  rewrite (Z.div_small sid), (Z.mod_small sid) by lia. cbn [Z.eqb].
  change (drop (Z.to_nat SETUP_HDR) _) with (h ++ data ++ rest).
  rewrite plain_hdr_len by done. cbn [mbind option_bind]. rewrite Hsave. cbn [mbind option_bind].
  rewrite (proj2 (Z.leb_le _ _)) by (rewrite !length_app; lia). rewrite Hxy.
  assert (Hq : (128 * u + ts_inc) / 128 = u /\ (128 * u + ts_inc) mod 128 = ts_inc).
  { split; [symmetry; apply (Z.div_unique _ _ _ ts_inc)|symmetry; apply (Z.mod_unique _ _ u)]; lia. }
  destruct Hq as [-> ->]. rewrite Hi. unfold ms_received. repeat f_equal.
  - rewrite Nat2Z.id, app_assoc. apply take_app_length.
  - unfold SETUP_HDR. replace (Z.to_nat _) with (6 + length (h ++ data))%nat by lia.
    cbn [drop Nat.add]. rewrite app_assoc. apply drop_app_length.
Qed.

(** A compressed frame is rebuilt by whoever holds the same header and increment. *)
Lemma recv_compressed sid h data s f pad rest r old t t' : packet_ok h data -> 0 <= sid < 128 ->
  plain_hdr old -> length old = length h -> ms_rtp_hdr s = old ++ t ->
  ms_rtp_hdr (r sid) = old ++ t' -> len_of (old ++ t') = MAX_RTP_HDR_LEN -> ms_ts_increment (r sid) = ms_ts_increment s ->
  compressed_frame sid (h ++ data) s = Some (Some f) ->
  recv_frame (f.1 ++ pad :: f.2 ++ rest) r =
    Some (set_state sid (ms_received (ms_dstport (r sid)) (ms_ts_increment s) h (r sid)) r,
            (ms_dstport (r sid), h ++ data), rest).
Proof.
  intros (Hh & Hb & Hl) Hs Ho Hlo Est Er Hlr Ei. unfold compressed_frame. rewrite plain_hdr_len by done.
  pose proof Hh as (b0 & _ & _ & _ & Hn). rewrite length_app in Hl.
  cbn [mbind option_bind]. destruct (rd_some (h ++ data) 1) as (b1 & -> & _); [rewrite length_app; lia|].
  destruct (rd16_is_some (h ++ data) 2) as (seq & ->); [rewrite ?length_app; lia..|].
  destruct (rd32_is_some (h ++ data) 4) as (ts & ->); [rewrite ?length_app; lia..|]. cbn [mbind option_bind].
  set (c := c_byte _ _ _). rewrite Est, decompress_app by done.
  destruct (decompress_some c (ms_ts_increment s) old Ho) as (x & Hx & Hlx). rewrite Hx. cbn [mbind option_bind].
  rewrite Nat2Z.id, take_app_length. case_bool_decide as Ex; [|done].
  rewrite (proj2 (Z.leb_le _ _)) by (rewrite length_app; lia). rewrite drop_app_length. intros [= <-]. cbn [fst snd app].
  assert (x = h) as -> by (rewrite <- Ex, firstn_all2; [done|lia]).
  destruct (save_plain h [] (ms_rtp_hdr (r sid)) Hh) as (Hsave & Hlt); [by rewrite Er|]. rewrite app_nil_r in Hsave.
  unfold recv_frame. rewrite rd_front0, rd_front1. cbn [mbind option_bind].
  assert (H128 : (128 + sid mod 128) mod 128 = sid /\ (128 + sid mod 128) / 128 = 1).
  { rewrite (Z.mod_small sid) by lia. split; [symmetry; apply (Z.mod_unique _ _ 1)|symmetry; apply (Z.div_unique _ _ _ sid)]; lia. }
  destruct H128 as [-> ->]. cbn [Z.eqb]. rewrite rd_front2. cbn [mbind option_bind]. rewrite Ei, Er, decompress_app by done. rewrite Hx.
  cbn [mbind option_bind]. rewrite plain_hdr_len_self by done. cbn [mbind option_bind]. rewrite <- Er, Hsave. cbn [mbind option_bind].
  change (drop (Z.to_nat COMPRESSED_HDR) _) with (data ++ rest). unfold u16. rewrite length_app, Nat2Z.inj_add.
  replace (len_of h + len_of data - len_of h) with (len_of data) by lia. rewrite !(Z.mod_small (len_of data)) by (rewrite ?Z.mod_small; lia).
  rewrite (proj2 (Z.leb_le (len_of data) _)), (proj2 (Z.leb_le _ MAX_RTP_PACKET_LEN)) by (rewrite ?length_app; unfold MAX_RTP_PACKET_LEN; lia).
  cbn [andb ms_dstport]. rewrite !Nat2Z.id, firstn_all, take_app_length. unfold COMPRESSED_HDR.
  replace (Z.to_nat (len_of data + 4)) with (4 + length data)%nat by lia. cbn [drop Nat.add].
  by rewrite drop_app_length.
Qed.

(** ** One packet *)

Lemma setup_due_spec e id h data s : packet_ok h data -> len_of (ms_rtp_hdr s) = MAX_RTP_HDR_LEN ->
  exists setup s' ts old, setup_due e id (h ++ data) s = Some (setup, s') /\
    rd32 h 4 = Some ts /\ rd32 (ms_rtp_hdr s) 4 = Some old /\
    ms_rtp_hdr s' = ms_rtp_hdr s /\
    (ms_ts_increment s' = ms_ts_increment s \/ ms_ts_increment s' = DEFAULT_TS_INCREMENT \/
     ms_rtp_hdr_len s = len_of h /\ ms_ts_increment s' = u16 (ts - old)) /\
    (setup = false -> ms_ts_increment s' = ms_ts_increment s /\ ms_rtp_hdr_len s = len_of h).
Proof.
  intros (Hh & Hb & Hl) Hs. unfold MAX_RTP_HDR_LEN in Hs. pose proof Hh as (b0 & _ & _ & _ & Hn). unfold setup_due, rtp_hdr_changed.
  destruct (rd_some (ms_rtp_hdr s) 0) as (a0 & -> & _); [lia|]. destruct (rd_some h 0) as (c0 & E0 & _); [lia|].
  destruct (rd_some (ms_rtp_hdr s) 1) as (a1 & -> & _); [lia|]. destruct (rd_some h 1) as (c1 & E1 & _); [lia|].
  destruct (rd32_is_some (ms_rtp_hdr s) 8) as (s1 & ->); [lia..|]. destruct (rd32_is_some h 8) as (s2 & E2); [lia..|].
  destruct (rd32_is_some (ms_rtp_hdr s) 4) as (old & Eold); [lia..|]. destruct (rd32_is_some h 4) as (ts & Ets); [lia..|].
  rewrite !rd_app, !rd32_app by lia. rewrite E0, E1, E2, Eold, Ets. cbn [mbind option_bind].
  rewrite plain_hdr_len by done. cbn [mbind option_bind].
  set (ch := if _ || _ || _ || _ then true else _). clearbody ch.
  destruct ch; cbn [andb negb orb ms_setup ms_last_mux_packet_id ms_setup_frame_ctr ms_rtp_hdr ms_rtp_hdr_len ms_ts_increment].
  { rewrite Eold. eexists _, _, ts, old. split; [done|]. cbn. split_and!; auto; done. }
  destruct (negb (ms_setup_frame_ctr s =? 0) && negb (ms_last_mux_packet_id s =? id));
    cbn [andb negb orb ms_setup ms_last_mux_packet_id ms_setup_frame_ctr ms_rtp_hdr ms_rtp_hdr_len ms_ts_increment].
  { rewrite Eold. eexists _, _, ts, old. split; [done|]. cbn. split_and!; auto; done. }
  rewrite Eold. cbn [mbind option_bind]. destruct (_ && interval_elapsed _ _ _); cbn [orb negb andb].
  { eexists _, _, ts, old. split; [done|]. cbn. split_and!; auto; done. }
  destruct (Z.eqb_spec (len_of h) (ms_rtp_hdr_len s)) as [E|E]; cbn [orb negb andb].
  - destruct (ts =? _); cbn [negb]; eexists _, _, ts, old; (split; [done|]); cbn; split_and!; auto; done.
  - eexists _, _, ts, old. split; [done|]. cbn. split_and!; auto; done.
Qed.

Lemma push_frame_spec hdr data q : 0 <= mq_end q -> mq_end q + len_of hdr + 1 + len_of data <= MAX_MUX_QUEUE_SIZE ->
  len_of (mq_buf q) = MAX_MUX_QUEUE_SIZE ->
  exists pad buf, len_of buf = MAX_MUX_QUEUE_SIZE /\
    let next := mq_end q + len_of hdr + 1 + len_of data in
    push_frame hdr data q =
      Some (mk_mq (mq_remote q) (mq_l_sd q) (mq_stream_ids q) (mq_streamstates q) buf next
              (mq_oldest_frame q) (mq_oldest_frame_i q) (mq_packet_id q)) /\
    take (Z.to_nat next) buf = take (Z.to_nat (mq_end q)) (mq_buf q) ++ hdr ++ pad :: data.
Proof.
  intros H0 Hn Hb. unfold push_frame. rewrite (proj2 (Z.leb_le _ _)) by done. cbn zeta.
  destruct (overwrite_split (mq_end q) hdr (mq_buf q)) as (a & m & c & Eb & Ha & Hm & ->); [lia..|].
  rewrite Eb, !length_app in Hb. destruct c as [|pad c]; [cbn in Hb; lia|]. cbn [length] in Hb.
  replace (a ++ hdr ++ pad :: c) with ((a ++ hdr ++ [pad]) ++ c) by by rewrite <- !app_assoc.
  destruct (overwrite_split (mq_end q + len_of hdr + 1) data ((a ++ hdr ++ [pad]) ++ c)) as (a2 & m2 & c2 & Eb2 & Ha2 & Hm2 & ->);
    [lia|rewrite !length_app; cbn; lia|].
  apply app_inj_1 in Eb2 as [<- Eb2]; [|rewrite !length_app in *; cbn in *; lia]. subst c.
  exists pad. eexists. split; [|split; [done|]].
  - rewrite !length_app in *. cbn in *. lia.
  - rewrite Eb. rewrite <- Ha at 2. rewrite Nat2Z.id, take_app_length.
    replace ((a ++ hdr ++ [pad]) ++ data ++ c2) with ((a ++ hdr ++ pad :: data) ++ c2) by by rewrite <- !app_assoc.
    apply take_app_length'. rewrite !length_app. cbn [length]. lia.
Qed.

(** Sender and receiver agree on a stream whose last packet had the time stamp [last]. *)
Definition stream_ok (port last : Z) (s rs : mux_state) : Prop :=
  exists h t t', plain_hdr h /\ rd32 h 4 = Some last /\
    ms_rtp_hdr s = h ++ t /\ len_of (h ++ t) = MAX_RTP_HDR_LEN /\ ms_rtp_hdr_len s = len_of h /\
    ms_rtp_hdr rs = h ++ t' /\ len_of (h ++ t') = MAX_RTP_HDR_LEN /\
    ms_dstport rs = port /\ ms_ts_increment rs = ms_ts_increment s /\ expressible (ms_ts_increment s).

Definition set_queue (sts : gmap Z mux_state) (buf : list Z) (end_ : Z) (q : mux_queue) : mux_queue :=
  mk_mq (mq_remote q) (mq_l_sd q) (mq_stream_ids q) sts buf end_ (mq_oldest_frame q) (mq_oldest_frame_i q) (mq_packet_id q).

Lemma default_expressible : expressible DEFAULT_TS_INCREMENT.
Proof. split; [done|]. left. done. Qed.

Section Step.
Context (undefined : list Z) (Hundef : len_of undefined = MAX_RTP_HDR_LEN).
Context (e : mux_env) (h data : list Z) (port sid ts : Z).
Context (Hok : packet_ok h data) (Hts : rd32 h 4 = Some ts) (Hport : is_port port) (Hsid : 0 <= sid < 128).

(** The frame that is chosen: it is taken apart again, and both sides agree afterwards. *)
Lemma frame_choice q r s0 : default (new_mux_state undefined) (mq_streamstates q !! sid) = s0 ->
  len_of (ms_rtp_hdr (r sid)) = MAX_RTP_HDR_LEN ->
  (mq_streamstates q !! sid = None \/ exists old, stream_ok port old s0 (r sid) /\ expressible (u16 (ts - old))) ->
  exists setup s compressed, setup_due e (mq_packet_id q) (h ++ data) s0 = Some (setup, s) /\
    len_of (ms_rtp_hdr s) = MAX_RTP_HDR_LEN /\ expressible (ms_ts_increment s) /\
    (if setup : bool then Some None else compressed_frame sid (h ++ data) s) = Some compressed /\
    let f := default (setup_frame sid port (h ++ data) s) compressed in
    len_of f.1 + 1 + len_of f.2 <= 262 /\
    forall pad rest, recv_frame (f.1 ++ pad :: f.2 ++ rest) r =
      Some (set_state sid (ms_received port (ms_ts_increment s) h (r sid)) r, (port, h ++ data), rest).
Proof.
  intros Es0 Hr Hst. assert (H64 : len_of (ms_rtp_hdr s0) = MAX_RTP_HDR_LEN).
  { destruct Hst as [E|(old & (h' & t & t' & _ & _ & -> & ? & _) & _)]; [|done]. rewrite E in Es0. by subst s0. }
  destruct (setup_due_spec e (mq_packet_id q) h data s0 Hok H64) as (setup & s & ts' & old' & E & Ets & Eold & Ehdr & Hinc & Hset).
  rewrite Hts in Ets. injection Ets as <-.
  assert (He : expressible (ms_ts_increment s)).
  { destruct Hst as [En|(old & (h' & t & t' & Hp & Eo & E0 & Hl & _ & _ & _ & _ & _ & He) & Hx)].
    - rewrite En in Es0. subst s0. cbn in Hinc. pose proof Hok as ((b0 & _ & _ & _ & Hn) & _).
      destruct Hinc as [->|[->|[? _]]]; [apply default_expressible..|lia].
    - destruct Hinc as [->|[->|[_ ->]]]; [done|apply default_expressible|].
      pose proof Hp as (b0 & _ & _ & _ & Hn). rewrite E0, rd32_app in Eold by lia. by simplify_eq. }
  pose proof Hok as (Hh & Hb & Hl). pose proof Hh as (b0 & _ & _ & _ & Hn).
  assert (Hsetup : let f := setup_frame sid port (h ++ data) s in len_of f.1 + 1 + len_of f.2 <= 262 /\
    forall pad rest, recv_frame (f.1 ++ pad :: f.2 ++ rest) r =
      Some (set_state sid (ms_received port (ms_ts_increment s) h (r sid)) r, (port, h ++ data), rest)).
  { split; [|intros; by apply recv_setup]. unfold setup_frame. destruct (encode_ts_increment _). unfold to_be16. cbn [fst snd app length]. lia. }
  exists setup, s. destruct setup.
  { exists None. rewrite E, Ehdr. by split_and!. }
  destruct (Hset eq_refl) as [Einc Elen]. destruct Hst as [En|(old & (h' & t & t' & Hp & _ & E0 & _ & El & Er & Hlr & Ep & Ei & _) & _)].
  { rewrite En in Es0. subst s0. cbn in Elen. lia. }
  assert (Hlo : length h' = length h) by lia.
  destruct (compressed_frame sid (h ++ data) s) as [[f|]|] eqn:Ec.
  - exists (Some f). rewrite E, Ehdr. split_and!; [done..|]. cbn zeta. cbn [default]. split.
    + unfold compressed_frame in Ec. rewrite plain_hdr_len in Ec by done. cbn [mbind option_bind] in Ec. rewrite !bind_Some in Ec.
      destruct Ec as (? & _ & Ec). rewrite !bind_Some in Ec. destruct Ec as (? & _ & Ec). rewrite !bind_Some in Ec.
      destruct Ec as (? & _ & Ec). rewrite !bind_Some in Ec. destruct Ec as (? & _ & Ec).
      case_bool_decide; [|done]. destruct (_ <=? _); [|done]. injection Ec as <-. cbn -[Z.of_nat drop].
      rewrite length_drop. lia.
    + intros pad rest. rewrite <- Ep.
      eapply recv_compressed; [done|done|exact Hp|exact Hlo|by rewrite Ehdr|exact Er|exact Hlr|congruence|exact Ec].
  - exists None. rewrite E, Ehdr. by split_and!.
  - exfalso. unfold compressed_frame in Ec. rewrite plain_hdr_len in Ec by done. cbn [mbind option_bind] in Ec.
    destruct (rd_some h 1) as (x1 & E1 & _); [lia|]. destruct (rd16_is_some h 2) as (x2 & E2); [lia..|].
    rewrite rd_app, rd16_app, rd32_app, E1, E2, Hts in Ec by lia. cbn [mbind option_bind] in Ec.
    rewrite Ehdr, E0, decompress_app in Ec by done.
    destruct (decompress_some (c_byte (h_m x1) (Z.land x2 7) (calc_crc4 ts)) (ms_ts_increment s) h' Hp) as (y & Ey & _). rewrite Ey in Ec. cbn [mbind option_bind] in Ec.
    case_bool_decide; [|done]. rewrite (proj2 (Z.leb_le _ _)) in Ec by (rewrite length_app; lia). done.
Qed.

Lemma send_on_spec q r : len_of (ms_rtp_hdr (r sid)) = MAX_RTP_HDR_LEN ->
  0 <= mq_end q -> mq_end q + 262 <= MAX_MUX_QUEUE_SIZE -> len_of (mq_buf q) = MAX_MUX_QUEUE_SIZE ->
  (mq_streamstates q !! sid = None \/
   exists s old, mq_streamstates q !! sid = Some s /\ stream_ok port old s (r sid) /\ expressible (u16 (ts - old))) ->
  exists frame buf s rs,
    send_on undefined e (h ++ data) port sid q =
      Some (sendQueue false e (set_queue (<[sid := s]> (mq_streamstates q)) buf (mq_end q + len_of frame) q)) /\
    len_of frame <= 262 /\ len_of buf = MAX_MUX_QUEUE_SIZE /\
    take (Z.to_nat (mq_end q + len_of frame)) buf = take (Z.to_nat (mq_end q)) (mq_buf q) ++ frame /\
    (forall rest, recv_frame (frame ++ rest) r = Some (set_state sid rs r, (port, h ++ data), rest)) /\
    stream_ok port ts s rs.
Proof.
  intros Hr H0 Hcap Hbuf Hst. set (s0 := default (new_mux_state undefined) (mq_streamstates q !! sid)).
  destruct (frame_choice q r s0 eq_refl Hr) as (setup & s & compressed & E & Hl & He & Ec & Hlen & Hrecv).
  { destruct Hst as [?|(s1 & old & E1 & ? & ?)]; [by left|]. right. exists old. unfold s0. by rewrite E1. }
  set (f := default _ compressed) in *. cbn zeta in Hlen, Hrecv.
  destruct (push_frame_spec f.1 f.2 q) as (pad & buf & Hbl & Epush & Etake); [lia..|].
  cbn zeta in Epush, Etake. pose proof Hok as (Hh & _). destruct (save_plain h data (ms_rtp_hdr s) Hh Hl) as (Esave & Ht).
  destruct (save_plain h data (ms_rtp_hdr (r sid)) Hh Hr) as (_ & Ht').
  assert (Hlf : len_of (f.1 ++ pad :: f.2) = len_of f.1 + 1 + len_of f.2) by (rewrite length_app; cbn; lia).
  exists (f.1 ++ pad :: f.2), buf.
  unfold send_on. fold s0. rewrite E. cbn [mbind option_bind]. rewrite Ec. cbn [mbind option_bind].
  set (setup_ts := match compressed with Some _ => _ | None => _ end).
  exists (ms_sent (len_of h) (h ++ drop (length h) (ms_rtp_hdr s)) (mq_packet_id q)
            (match compressed with Some _ => ms_last_setup_frame_ts s | None => wall_clock (me_wheel e) end) s).
  exists (ms_received port (ms_ts_increment s) h (r sid)).
  split_and!.
  - unfold setup_ts, f in *. destruct compressed as [cf|]; cbn [default from_option id] in *; unfold id in *; rewrite Epush; cbn [mbind option_bind];
      rewrite plain_hdr_len by done; cbn [mbind option_bind]; rewrite Esave; cbn [mbind option_bind];
      unfold set_queue, set_streams; rewrite Hlf, !Z.add_assoc; done.
  - lia.
  - done.
  - rewrite Hlf. rewrite <- Etake. f_equal. lia.
  - intros rest. rewrite <- app_assoc. cbn [app]. apply Hrecv.
  - exists h, (drop (length h) (ms_rtp_hdr s)), (drop (length h) (ms_rtp_hdr (r sid))). by split_and!.
Qed.
End Step.

(** ** Datagrams *)

Fixpoint recv_all (dgrams : list (list Z)) (r : recv_states) : option (recv_states * list (Z * list Z)) :=
  match dgrams with
  | [] => Some (r, [])
  | dg :: dgrams => '(r, ds) ← recvPacket dg r; '(r, ds') ← recv_all dgrams r; Some (r, ds ++ ds')
  end.

Lemma recv_all_snoc dgrams dg r0 r1 ds1 r2 ds2 : recv_all dgrams r0 = Some (r1, ds1) -> recvPacket dg r1 = Some (r2, ds2) ->
  recv_all (dgrams ++ [dg]) r0 = Some (r2, ds1 ++ ds2).
Proof.
  intros H1 H2. revert r0 ds1 H1. induction dgrams as [|dg' dgrams IH]; intros r0 ds1 H1; cbn [recv_all app] in *.
  - injection H1 as <- <-. rewrite H2. cbn. by rewrite app_nil_r.
  - destruct (recvPacket dg' r0) as [[r ds]|]; [|done]. cbn [mbind option_bind] in *.
    destruct (recv_all dgrams r) as [[r' ds']|] eqn:E; [|done]. cbn [mbind option_bind] in H1. injection H1 as -> <-.
    rewrite (IH _ _ E). cbn. by rewrite app_assoc.
Qed.

(** The frames of a datagram, each with what it delivers. *)
Fixpoint delivers (fs : list (list Z)) (r : recv_states) (ds : list (Z * list Z)) (r' : recv_states) : Prop :=
  match fs, ds with
  | [], [] => r = r'
  | f :: fs, d :: ds => f <> [] /\ exists r1, (forall rest, recv_frame (f ++ rest) r = Some (r1, d, rest)) /\ delivers fs r1 ds r'
  | _, _ => False
  end.

Lemma delivers_snoc fs r ds r' f d r'' : delivers fs r ds r' -> f <> [] ->
  (forall rest, recv_frame (f ++ rest) r' = Some (r'', d, rest)) -> delivers (fs ++ [f]) r (ds ++ [d]) r''.
Proof.
  intros H Hf Hr. revert r ds H. induction fs as [|f0 fs IH]; intros r [|d0 ds] H; cbn [delivers app] in *; try done.
  - subst r'. split; [done|]. by exists r''.
  - destruct H as (H0 & r1 & H1 & H). split; [done|]. exists r1. split; [done|]. by apply IH.
Qed.

Lemma delivers_loop fs r ds r' fuel : delivers fs r ds r' -> (length fs <= fuel)%nat -> recv_loop fuel (concat fs) r = Some (r', ds).
Proof.
  revert r ds fuel. induction fs as [|f fs IH]; intros r [|d ds] fuel H Hf; cbn [delivers] in H; try done.
  - subst r'. by destruct fuel.
  - destruct H as (H0 & r1 & H1 & H). destruct fuel as [|fuel]; [cbn in Hf; lia|]. cbn [concat].
    destruct f as [|x f]; [done|]. cbn [app recv_loop]. change (x :: f ++ concat fs) with ((x :: f) ++ concat fs).
    rewrite H1. cbn [mbind option_bind]. rewrite (IH r1 ds fuel H) by (cbn in Hf; lia). done.
Qed.

Lemma delivers_length fs r ds r' : delivers fs r ds r' -> (length fs <= length (concat fs))%nat.
Proof.
  revert r ds. induction fs as [|f fs IH]; intros r [|d ds] H; cbn [delivers] in H; try done.
  destruct H as (H0 & r1 & _ & H). apply IH in H. cbn [concat]. rewrite length_app. destruct f; [done|]. cbn in *. lia.
Qed.

Lemma delivers_recv fs r ds r' : delivers fs r ds r' -> len_of (concat fs) <= RTP_BUFFER -> recvPacket (concat fs) r = Some (r', ds).
Proof.
  intros H Hl. unfold recvPacket. rewrite firstn_all2 by (unfold RTP_BUFFER in *; lia).
  apply delivers_loop; [done|]. by eapply delivers_length.
Qed.

(** ** Stream ids *)

Lemma free_sid_spec n sid sts k : sid <= k < sid + Z.of_nat n -> sts !! k = None ->
  exists s, free_sid n sid sts = Some s /\ sid <= s <= k /\ sts !! s = None.
Proof.
  revert sid. induction n as [|n IH]; intros sid Hk Hn; [lia|]. cbn [free_sid]. destruct (sts !! sid) eqn:E.
  - destruct (decide (k = sid)) as [->|]; [congruence|]. destruct (IH (sid + 1)) as (s & ? & ? & ?); [lia|done|].
    exists s. split_and!; [done|lia|lia|done].
  - exists sid. split_and!; [done|lia|lia|done].
Qed.

(** Fewer than 128 streams leave one of the first 128 ids. *)
Lemma free_below_128 (sts : gmap Z mux_state) : (size sts < 128)%nat -> exists k, 0 <= k < 128 /\ sts !! k = None.
Proof.
  intros Hs. destruct (decide (Forall (fun k => is_Some (sts !! k)) (seqZ 0 128))) as [H|H].
  - exfalso. assert (Hsub : list_to_set (C := gset Z) (seqZ 0 128) ⊆ dom sts).
    { intros k Hk%elem_of_list_to_set. apply elem_of_dom. rewrite Forall_forall in H. by apply H. }
    apply subseteq_size in Hsub. rewrite size_list_to_set, length_seqZ, size_dom in Hsub by apply NoDup_seqZ. lia.
  - apply not_Forall_Exists in H; [|apply _]. apply Exists_exists in H as (k & Hk & Hn). apply elem_of_seqZ in Hk.
    exists k. split; [lia|]. by apply eq_None_not_Some.
Qed.

(** ** Runs *)

Inductive mux_op := MSend (e : mux_env) (b : list Z) (port : Z) | MClose (e : mux_env) (port : Z).

(** Calls on a queue, with the datagrams handed to the socket. *)
Fixpoint run_mux (undefined : list Z) (remote : list Z * Z) (ops : list mux_op) (q : mux_queue) :
    option (mux_queue * list (list Z)) :=
  match ops with
  | [] => Some (q, [])
  | MSend e b port :: ops =>
      '(q, _, dg) ← mux_send undefined e b remote port q;
      '(q, dgs) ← run_mux undefined remote ops q;
      Some (q, option_list dg ++ dgs)
  | MClose e port :: ops =>
      let '(q, dg) := mux_close e remote port q in
      '(q, dgs) ← run_mux undefined remote ops q;
      Some (q, option_list dg ++ dgs)
  end.

(** The packets of a run, with their ports. *)
Definition sent_packets (ops : list mux_op) : list (Z * list Z) :=
  omap (fun o => match o with MSend _ b port => Some (port, b) | MClose _ _ => None end) ops.

(** What is in the queue. *)
Definition pending (q : mux_queue) : list Z := take (Z.to_nat (mq_end q)) (mq_buf q).

(** The socket can be opened, and the threshold leaves room for a frame. *)
Definition env_ok (e : mux_env) : Prop := (me_init e).1 = 0 /\ 0 <= me_mtu e <= MAX_MUX_QUEUE_SIZE - 262.

(** Packets that fit, on the given ports, whose time stamps advance by what a setup header can
    express; [last] has the time stamps of the last packets. *)
Fixpoint ops_ok (ports : gset Z) (last : gmap Z Z) (ops : list mux_op) : Prop :=
  match ops with
  | [] => True
  | MSend e b port :: ops =>
      env_ok e /\ is_port port /\ port ∈ ports /\
      exists h data ts, b = h ++ data /\ packet_ok h data /\ rd32 h 4 = Some ts /\
        (forall old, last !! port = Some old -> expressible (u16 (ts - old))) /\
        ops_ok ports (<[port := ts]> last) ops
  | MClose e port :: ops => env_ok e /\ port <> 0 /\ ops_ok ports (delete port last) ops
  end.

Section Run.
Context (undefined : list Z) (remote : list Z * Z) (ports : gset Z) (r0 : recv_states).
Context (Hundef : len_of undefined = MAX_RTP_HDR_LEN) (Hports : (size ports <= 128)%nat).

(** Sender and receiver agree on every stream. *)
Record agree (q : mux_queue) (r : recv_states) (last : gmap Z Z) : Prop := mk_agree {
  ag_remote : mq_remote q = remote \/ mq_stream_ids q = ∅;
  ag_hdrs : forall i, len_of (ms_rtp_hdr (r i)) = MAX_RTP_HDR_LEN;
  ag_ports : dom (mq_stream_ids q) ⊆ ports;
  ag_size : size (mq_streamstates q) = size (mq_stream_ids q);
  ag_inj : forall p1 p2 sid, mq_stream_ids q !! p1 = Some sid -> mq_stream_ids q !! p2 = Some sid -> p1 = p2;
  ag_stream : forall p sid, mq_stream_ids q !! p = Some sid -> 0 <= sid < 128 /\
    exists s t, mq_streamstates q !! sid = Some s /\ last !! p = Some t /\ stream_ok p t s (r sid)
}.

(** What was handed to the socket, and then what is in the queue, delivers [ds]. *)
Record carries (q : mux_queue) (dgs : list (list Z)) (ds : list (Z * list Z)) (r : recv_states) : Prop := mk_carries {
  ca_buf : len_of (mq_buf q) = MAX_MUX_QUEUE_SIZE;
  ca_end : 0 <= mq_end q <= MAX_MUX_QUEUE_SIZE - 262;
  ca_frames : exists r1 ds1 fs ds2, recv_all dgs r0 = Some (r1, ds1) /\ pending q = concat fs /\ delivers fs r1 ds2 r /\ ds = ds1 ++ ds2
}.

(** [carries] before the queue is sent. *)
Lemma sendQueue_carries force e q dgs ds r r1 ds1 fs ds2 : env_ok e -> len_of (mq_buf q) = MAX_MUX_QUEUE_SIZE ->
  0 <= mq_end q <= MAX_MUX_QUEUE_SIZE ->
  recv_all dgs r0 = Some (r1, ds1) -> pending q = concat fs -> delivers fs r1 ds2 r -> ds = ds1 ++ ds2 ->
  exists q' res dg, sendQueue force e q = (q', res, dg) /\ carries q' (dgs ++ option_list dg) ds r /\
    mq_stream_ids q' = mq_stream_ids q /\ mq_streamstates q' = mq_streamstates q /\ mq_remote q' = mq_remote q.
Proof.
  intros [_ Hm] Hb He Hr Hp Hd ->. unfold sendQueue.
  set (qf := if negb (mq_oldest_frame_i q) then _ else _). 
  assert (Hq : mq_buf qf.1 = mq_buf q /\ mq_end qf.1 = mq_end q /\ mq_stream_ids qf.1 = mq_stream_ids q /\
    mq_streamstates qf.1 = mq_streamstates q /\ mq_remote qf.1 = mq_remote q) by (unfold qf; by destruct (mq_oldest_frame_i q)).
  clearbody qf. destruct qf as [q1 f]. cbn [fst] in Hq. destruct Hq as (Eb & Ee & Ei & Es & Er).
  destruct (f || (me_mtu e <=? mq_end q1)) eqn:Ef; cbn [negb].
  - eexists _, _, _. split; [done|]. cbn [mq_stream_ids mq_streamstates mq_remote option_list]. split_and!; try done.
    rewrite Eb, Ee. change (take (Z.to_nat (mq_end q)) (mq_buf q)) with (pending q).
    constructor; cbn [mq_buf mq_end]; [done|unfold MAX_MUX_QUEUE_SIZE; lia|].
    exists r, (ds1 ++ ds2), [], []. split; [|by rewrite app_nil_r].
    eapply recv_all_snoc; [exact Hr|]. rewrite Hp. apply delivers_recv; [done|].
    rewrite <- Hp. unfold pending. rewrite length_take. unfold RTP_BUFFER, MAX_MUX_QUEUE_SIZE in *. lia.
  - eexists _, _, _. split; [done|]. cbn [option_list]. rewrite app_nil_r. split_and!; try done.
    apply orb_false_iff in Ef as [_ Ef%Z.leb_gt]. constructor; [by rewrite Eb|lia|].
    exists r1, ds1, fs, ds2. unfold pending in *. by rewrite Eb, Ee.
Qed.

Lemma stream_for_ok port q r last : agree q r last -> mq_remote q = remote -> port ∈ ports ->
  exists sid ids, stream_for port q = Some (sid, set_streams ids (mq_streamstates q) q) /\ 0 <= sid < 128 /\
    ids = <[port := sid]> (mq_stream_ids q) /\
    (mq_stream_ids q !! port = None /\ mq_streamstates q !! sid = None \/
     mq_stream_ids q !! port = Some sid).
Proof.
  intros Ha Hrem Hp. unfold stream_for. destruct (mq_stream_ids q !! port) as [sid|] eqn:E.
  - exists sid. eexists. split; [|split; [by apply (ag_stream _ _ _ Ha port)|split; [done|by right]]].
    rewrite insert_id by done. by destruct q.
  - assert (Hs : (size (mq_streamstates q) < 128)%nat).
    { rewrite (ag_size _ _ _ Ha), <- size_dom. apply Nat.lt_le_trans with (size ports); [|done].
      apply subset_size. apply strict_spec_alt. split; [apply (ag_ports _ _ _ Ha)|]. intros Heq. rewrite <- Heq in Hp.
      apply elem_of_dom in Hp as [? ?]. congruence. }
    destruct (free_below_128 _ Hs) as (k & Hk & Hn). destruct (free_sid_spec 256 0 (mq_streamstates q) k) as (sid & Ef & ? & ?); [lia|done|].
    rewrite Ef. exists sid. eexists. split; [done|]. split; [lia|]. split; [done|]. by left.
Qed.

Lemma stream_ok_hdr port t s rs : stream_ok port t s rs -> len_of (ms_rtp_hdr rs) = MAX_RTP_HDR_LEN.
Proof. by intros (h & t1 & t2 & _ & _ & _ & _ & _ & -> & ? & _). Qed.

(** After a packet of stream [sid] for [port]. *)
Lemma agree_sent q q' r last port sid s rs ts : agree q r last -> mq_remote q' = remote -> port ∈ ports -> 0 <= sid < 128 ->
  mq_stream_ids q' = <[port := sid]> (mq_stream_ids q) -> mq_streamstates q' = <[sid := s]> (mq_streamstates q) ->
  (mq_stream_ids q !! port = None /\ mq_streamstates q !! sid = None \/ mq_stream_ids q !! port = Some sid) ->
  stream_ok port ts s rs -> agree q' (set_state sid rs r) (<[port := ts]> last).
Proof.
  intros [Hrem Hh Hp Hs Hi Hst] Er Hport Hsid Ei Es Hcase Hok.
  assert (Hother : forall p sid', p <> port -> mq_stream_ids q !! p = Some sid' -> sid' <> sid).
  { intros p sid' Hne Hp' ->. destruct Hcase as [[_ Hn]|Hc]; [|by apply Hne, (Hi _ _ sid)].
    destruct (Hst _ _ Hp') as (_ & s' & t & ? & _). congruence. }
  constructor; rewrite ?Ei, ?Es.
  - by left.
  - intros i. unfold set_state. destruct (i =? sid); [by eapply stream_ok_hdr|done].
  - rewrite dom_insert_L. apply union_subseteq. split; [by apply singleton_subseteq_l|done].
  - destruct Hcase as [[Hn1 Hn2]|Hc].
    + by rewrite !map_size_insert_None, Hs by done.
    + destruct (Hst _ _ Hc) as (_ & s' & t & E' & _). rewrite !map_size_insert_Some by eauto. done.
  - intros p1 p2 sid'. destruct (decide (p1 = port)) as [->|H1], (decide (p2 = port)) as [->|H2];
      rewrite ?lookup_insert_eq, ?lookup_insert_ne by done; try done.
    + intros [= <-] E2. by destruct (Hother _ _ H2 E2).
    + intros E1 [= <-]. by destruct (Hother _ _ H1 E1).
    + by apply Hi.
  - intros p sid'. unfold set_state. destruct (decide (p = port)) as [->|H1];
      rewrite ?lookup_insert_eq, ?lookup_insert_ne by done.
    + intros [= <-]. split; [done|]. exists s, ts. rewrite lookup_insert_eq, Z.eqb_refl. done.
    + intros E1. pose proof (Hother _ _ H1 E1). destruct (Hst _ _ E1) as (? & s' & t & ? & ? & ?). split; [done|].
      exists s', t. rewrite !lookup_insert_ne by done. by rewrite (proj2 (Z.eqb_neq sid' sid)) by done.
Qed.

Lemma send_keeps e h data ts port q r last dgs ds : agree q r last -> carries q dgs ds r -> env_ok e -> is_port port -> port ∈ ports ->
  packet_ok h data -> rd32 h 4 = Some ts -> (forall old, last !! port = Some old -> expressible (u16 (ts - old))) ->
  exists q' res dg r', mux_send undefined e (h ++ data) remote port q = Some (q', res, dg) /\
    agree q' r' (<[port := ts]> last) /\ carries q' (dgs ++ option_list dg) (ds ++ [(port, h ++ data)]) r'.
Proof.
  intros Ha [Hb He (r1 & ds1 & fs & ds2 & Hr & Hp & Hd & ->)] Henv Hport Hin Hok Hts Hexp. unfold mux_send.
  pose proof Hok as (_ & _ & Hlen). rewrite (proj2 (Z.ltb_ge _ _)) by (unfold RTP_MUX_MAX_FRAME_SIZE; lia).
  set (qi := if bool_decide _ then _ else _).
  assert (Hqi : qi.2 = 0 /\ exists sd, qi.1 = set_remote remote sd q).
  { unfold qi, mux_init. case_bool_decide as E; cbn [fst snd].
    - split; [done|]. exists (mq_l_sd q). destruct q. cbn in E. by subst.
    - split; [by apply Henv|]. by eexists. }
  clearbody qi. destruct qi as [q1 failed]. cbn [fst snd] in Hqi. destruct Hqi as (-> & sd & ->). cbn [Z.eqb negb].
  set (q1 := set_remote remote sd q). assert (Ha1 : agree q1 r last) by (destruct Ha; constructor; try done; by left).
  destruct (stream_for_ok port q1 r last Ha1 eq_refl Hin) as (sid & ids & -> & Hsid & Eids & Hcase).
  set (q2 := set_streams ids (mq_streamstates q1) q1).
  destruct (send_on_spec undefined Hundef e h data port sid ts Hok Hts Hport Hsid q2 r) as (frame & buf & s & rs & -> & Hfl & Hbl & Htake & Hrecv & Hsok).
  - apply Ha.
  - cbn. lia.
  - cbn. lia.
  - done.
  - destruct Hcase as [[_ Hn]|Hc]; [by left|]. right. destruct (ag_stream _ _ _ Ha1 _ _ Hc) as (_ & s & t & ? & ? & ?).
    exists s, t. split_and!; [done..|by apply Hexp].
  - set (q3 := set_queue _ _ _ _) in *.
    destruct (sendQueue_carries false e q3 dgs ((ds1 ++ ds2) ++ [(port, h ++ data)]) (set_state sid rs r) r1 ds1 (fs ++ [frame]) (ds2 ++ [(port, h ++ data)]))
      as (q' & res & dg & -> & Hca & E1 & E2 & E3); try done.
    + cbn. lia.
    + unfold pending. cbn [q3 set_queue mq_end mq_buf]. rewrite Htake, concat_app. f_equal; [exact Hp|]. cbn. by rewrite app_nil_r.
    + apply delivers_snoc with r; [done| |done]. intros ->. specialize (Hrecv []). done.
    + by rewrite app_assoc.
    + exists q', res, dg, (set_state sid rs r). split_and!; [done| |done].
      apply (agree_sent q1 q' r last port sid s rs ts); try done. by rewrite E1, <- Eids.
Qed.

Lemma close_keeps e port q r last dgs ds : agree q r last -> carries q dgs ds r -> env_ok e -> port <> 0 ->
  exists q' dg, mux_close e remote port q = (q', dg) /\
    agree q' r (delete port last) /\ carries q' (dgs ++ option_list dg) ds r.
Proof.
  intros Ha Hca Henv Hport. unfold mux_close. rewrite (proj2 (Z.eqb_neq port 0)), orb_false_r by done.
  assert (Hnop : mq_stream_ids q !! port = None -> agree q r (delete port last)).
  { intros Hn. destruct Ha as [Hrem Hh Hp Hs Hi Hst]. constructor; try done. intros p sid Hps.
    destruct (Hst p sid Hps) as (? & s & t & ? & ? & ?). split; [done|]. exists s, t.
    rewrite lookup_delete_ne by congruence. done. }
  case_bool_decide as Erem; cbn [negb].
  2:{ exists q, None. cbn [option_list]. rewrite app_nil_r. split_and!; [done| |done]. apply Hnop.
      destruct (ag_remote _ _ _ Ha) as [?|E]; [done|]. by rewrite E. }
  destruct (mq_stream_ids q !! port) as [sid|] eqn:Es.
  2:{ exists q, None. cbn [option_list]. rewrite app_nil_r. split_and!; [done|by apply Hnop|done]. }
  destruct Hca as [Hb He (r1 & ds1 & fs & ds2 & Hr & Hp & Hd & Eds)].
  destruct (sendQueue_carries true e q dgs ds r r1 ds1 fs ds2) as (q' & res & dg & -> & Hca & E1 & E2 & E3); try done.
  { unfold MAX_MUX_QUEUE_SIZE in *. lia. }
  eexists _, dg. split; [done|]. split.
  - destruct Ha as [Hrem Hh Hps Hs Hi Hst]. destruct (Hst _ _ Es) as (_ & s0 & t0 & E0 & _).
    constructor; cbn [set_streams mq_remote mq_stream_ids mq_streamstates]; rewrite ?E1, ?E2, ?E3.
    + by left.
    + done.
    + rewrite dom_delete_L. by apply subseteq_difference_l.
    + rewrite !map_size_delete, Es, E0. lia.
    + intros p1 p2 sid' [_ H1]%lookup_delete_Some [_ H2]%lookup_delete_Some. by apply (Hi p1 p2 sid').
    + intros p sid' [Hne H1]%lookup_delete_Some. destruct (Hst _ _ H1) as (? & s & t & ? & ? & ?). split; [done|].
      exists s, t. rewrite !lookup_delete_ne; [done|done|]. intros <-. by apply Hne, (Hi _ _ sid).
  - destruct Hca as [? ? ?]. by constructor.
Qed.

Lemma run_keeps ops : forall q r last dgs ds, agree q r last -> carries q dgs ds r -> ops_ok ports last ops ->
  exists q' dgs' r' last', run_mux undefined remote ops q = Some (q', dgs') /\
    agree q' r' last' /\ carries q' (dgs ++ dgs') (ds ++ sent_packets ops) r'.
Proof.
  induction ops as [|[e b port|e port] ops IH]; intros q r last dgs ds Ha Hca Hok; cbn [run_mux ops_ok] in *.
  - exists q, [], r, last. cbn. by rewrite !app_nil_r.
  - destruct Hok as (He & Hport & Hin & h & data & ts & -> & Hp & Hts & Hexp & Hok).
    destruct (send_keeps e h data ts port q r last dgs ds) as (q1 & res & dg & r1 & -> & Ha1 & Hca1); try done.
    destruct (IH _ _ _ _ _ Ha1 Hca1 Hok) as (q' & dgs' & r' & last' & E & Ha' & Hca'). cbn [mbind option_bind]. rewrite E.
    cbn [mbind option_bind]. exists q', (option_list dg ++ dgs'), r', last'. split_and!; [done..|].
    rewrite <- !app_assoc in Hca'. exact Hca'.
  - destruct Hok as (He & Hport & Hok).
    destruct (close_keeps e port q r last dgs ds) as (q1 & dg & -> & Ha1 & Hca1); try done.
    destruct (IH _ _ _ _ _ Ha1 Hca1 Hok) as (q' & dgs' & r' & last' & E & Ha' & Hca'). rewrite E.
    cbn [mbind option_bind]. exists q', (option_list dg ++ dgs'), r', last'. split_and!; [done..|].
    rewrite <- app_assoc in Hca'. exact Hca'.
Qed.
End Run.

(** C27: Packets without header extension and with at most 13 contributing sources, of at most
    255 bytes, that are sent on at most 128 ports through a multiplexing queue whose threshold
    leaves room for one more frame and whose socket can be opened, with time stamps that advance
    on each port by what a setup frame can express (a multiple of 160 or 40 below 128 times
    that), are taken apart by the receiver unchanged, in order and for the right ports: from the
    datagrams sent and what is still in the queue, whatever the queue, the streams and the
    receiver held in their undefined bytes, with streams closed in between.  No call faults.
    Without these conditions it does not hold ([frame_256_misread], [increment_100_corrupts],
    [csrc_14_overflows]). *)
Theorem mux_roundtrip undefined undefined_buf remote ports ops r0 :
  len_of undefined = MAX_RTP_HDR_LEN -> len_of undefined_buf = MAX_MUX_QUEUE_SIZE ->
  (forall i, len_of (ms_rtp_hdr (r0 i)) = MAX_RTP_HDR_LEN) ->
  (size ports <= 128)%nat -> ops_ok ports ∅ ops ->
  exists q dgrams r, run_mux undefined remote ops (new_mux_queue undefined_buf) = Some (q, dgrams) /\
    recv_all (dgrams ++ [pending q]) r0 = Some (r, sent_packets ops).
Proof.
  intros Hu Hb Hr Hp Hok.
  destruct (run_keeps undefined remote ports r0 Hu Hp ops (new_mux_queue undefined_buf) r0 ∅ [] []) as (q & dgs & r & last & E & _ & Hca).
  - constructor; cbn; try done. by right.
  - constructor; cbn; [done|unfold MAX_MUX_QUEUE_SIZE; lia|]. exists r0, [], [], []. by cbn.
  - done.
  - destruct Hca as [Hbuf He (r1 & ds1 & fs & ds2 & H1 & H2 & H3 & H4)]. cbn [app] in *.
    exists q, dgs, r. split; [done|]. rewrite H4. eapply recv_all_snoc; [exact H1|]. rewrite H2. apply delivers_recv; [done|].
    rewrite <- H2. unfold pending. rewrite length_take. unfold RTP_BUFFER, MAX_MUX_QUEUE_SIZE in *. lia.
Qed.

(** Two streams, of which the first has a packet that goes out compressed. *)
Definition demo_env (mtu : Z) : mux_env := mk_me wheeltimer_init 100 mtu (0, 5) 1.

Definition demo_packet (seq ts : Z) (data : list Z) : list Z :=
  [128; 8] ++ to_be16 seq ++ to_be32 ts ++ to_be32 77 ++ data.

Definition demo_mux : list mux_op :=
  [MSend (demo_env 1400) (demo_packet 7 1000 [1; 2; 3]) 5004;
   MSend (demo_env 1400) (demo_packet 7 1000 [4; 5]) 5006;
   MSend (demo_env 1400) (demo_packet 8 1160 [6; 7; 8]) 5004;
   MSend (demo_env 20) (demo_packet 9 1320 [9]) 5004;
   MClose (demo_env 1400) 5006;
   MSend (demo_env 1400) (demo_packet 1 500 [10]) 5008].

Lemma demo_packet_ok seq ts data : 0 <= seq < 65536 -> is_u32 ts -> Forall is_byte data -> len_of data <= 200 ->
  exists h, demo_packet seq ts data = h ++ data /\ packet_ok h data /\ rd32 h 4 = Some ts.
Proof.
  intros Hs Ht Hd Hl. unfold is_u32, u32_mod in Ht. exists ([128; 8] ++ to_be16 seq ++ to_be32 ts ++ to_be32 77). split; [done|].
  pose proof (Z.div_mod ts 65536). pose proof (Z.mod_pos_bound ts 65536).
  assert (0 <= ts / 65536 < 65536) by (split; [apply Z.div_pos|apply Z.div_lt_upper_bound]; lia).
  unfold to_be32. destruct (to_be16_be16 seq) as (x & y & -> & _ & ? & ?); [lia|].
  destruct (to_be16_be16 (ts / 65536)) as (x1 & y1 & -> & E1 & ? & ?); [lia|].
  destruct (to_be16_be16 (ts mod 65536)) as (x2 & y2 & -> & E2 & ? & ?); [lia|]. split_and!.
  - split; [exists 128; split_and!; done|]. split; [|rewrite length_app; unfold to_be16; cbn [length app]; lia].
    apply Forall_app. split; [|done]. repeat (apply Forall_cons; split; [first [done|unfold is_byte; cbn; lia]|]). apply Forall_nil. done.
  - change (rd32 _ 4) with (Some (be16 x1 y1 * 65536 + be16 x2 y2)). rewrite E1, E2. f_equal. lia.
Qed.

Lemma demo_send ports last mtu seq ts data port ops : 0 <= mtu <= 1400 -> is_port port -> port ∈ ports ->
  0 <= seq < 65536 -> is_u32 ts -> Forall is_byte data -> len_of data <= 200 ->
  match last !! port with Some old => ts - old = 160 | None => True end ->
  ops_ok ports (<[port := ts]> last) ops -> ops_ok ports last (MSend (demo_env mtu) (demo_packet seq ts data) port :: ops).
Proof.
  intros Hm Hport Hin Hs Ht Hd Hl Hold Hops. destruct (demo_packet_ok seq ts data Hs Ht Hd Hl) as (h & E & Hp & Hts).
  cbn [ops_ok]. split; [unfold env_ok, MAX_MUX_QUEUE_SIZE; cbn; lia|]. split_and!; [done..|]. exists h, data, ts.
  split_and!; [done..| |done]. intros old Eo. rewrite Eo in Hold. rewrite Hold. apply default_expressible.
Qed.

Lemma demo_close ports last port ops : port <> 0 -> ops_ok ports (delete port last) ops ->
  ops_ok ports last (MClose (demo_env 1400) port :: ops).
Proof. intros Hp Ho. split; [unfold env_ok, MAX_MUX_QUEUE_SIZE; cbn; lia|done]. Qed.

Lemma demo_mux_ok : ops_ok {[5004; 5006; 5008]} ∅ demo_mux.
Proof.
  unfold demo_mux.
  repeat first
    [ apply demo_send; [lia|unfold is_port; lia|set_solver|lia|unfold is_u32, u32_mod; lia
        |repeat constructor; unfold is_byte; lia|cbn; lia|by vm_compute|]
    | apply demo_close; [lia|]
    | exact I ].
Qed.

Lemma mux_roundtrip_witness :
  exists q dgrams r, run_mux (replicate 64 0) ([49], 7000) demo_mux (new_mux_queue (replicate (Z.to_nat 4096) 0)) = Some (q, dgrams) /\
    recv_all (dgrams ++ [pending q]) (fun _ => new_mux_state (replicate 64 7)) = Some (r, sent_packets demo_mux).
Proof.
  apply (mux_roundtrip (replicate 64 0) (replicate (Z.to_nat 4096) 0) ([49], 7000) {[5004; 5006; 5008]} demo_mux).
  - by vm_compute.
  - by vm_compute.
  - intros i. by vm_compute.
  - apply Nat.leb_le. by vm_compute.
  - apply demo_mux_ok.
Defined.

(** ** Regular streams are compressed *)

Lemma land_65528 x : 0 <= x < 65536 -> Z.land x 65528 = x - x mod 8.
Proof.
  intros Hx. change 65528 with (Z.land (Z.ones 16) (Z.lnot (Z.ones 3))).
  rewrite Z.land_assoc, Z.land_ones, Z.mod_small, <- Z.ldiff_land, Z.ldiff_ones_r, Z.shiftl_mul_pow2, Z.shiftr_div_pow2 by lia.
  change (2 ^ 3) with 8. pose proof (Z.div_mod x 8 ltac:(lia)). lia.
Qed.

Lemma land_7 x : Z.land x 7 = x mod 8.
Proof. change 7 with (Z.ones 3). by rewrite Z.land_ones by lia. Qed.

(** The three low bits of the next sequence number are enough. *)
Lemma next_seq seq : 0 <= seq < 65536 ->
  let s := u16 (Z.land seq 65528 + Z.land (u16 (seq + 1)) 7) in
  (if s <? seq then u16 (s + 8) else s) = u16 (seq + 1).
Proof.
  intros Hs. cbn zeta. rewrite land_65528, land_7 by done. unfold u16.
  pose proof (Z.mod_pos_bound seq 8 ltac:(lia)). pose proof (Z.div_mod seq 8 ltac:(lia)).
  destruct (Z.eq_dec (seq mod 8) 7) as [E|E].
  - assert (Hm : (seq + 1) mod 65536 mod 8 = 0).
    { rewrite Z.mod_mod_divide by (by exists 8192). symmetry. apply Z.mod_unique_pos with (seq / 8 + 1); lia. }
    rewrite Hm, E, Z.add_0_r, (Z.mod_small (seq - 7)) by lia. rewrite (proj2 (Z.ltb_lt _ _)) by lia. f_equal. lia.
  - assert (Hlt : seq + 1 < 65536) by lia. rewrite !(Z.mod_small (seq + 1) 65536) by lia.
    assert (Hm : (seq + 1) mod 8 = seq mod 8 + 1) by (symmetry; apply Z.mod_unique_pos with (seq / 8); lia).
    rewrite Hm, Z.mod_small by lia. rewrite (proj2 (Z.ltb_ge _ _)) by lia. lia.
Qed.

Lemma c_byte_parts m sn crc : 0 <= m < 2 -> 0 <= sn < 8 -> 0 <= crc < 16 ->
  c_m (c_byte m sn crc) = m /\ c_sn_lsb (c_byte m sn crc) = sn /\ c_ts_crc4 (c_byte m sn crc) = crc.
Proof.
  intros Hm Hs Hc. unfold c_m, c_sn_lsb, c_ts_crc4, c_byte. split_and!.
  - symmetry. apply Z.div_unique with (16 * sn + crc); lia.
  - replace ((128 * m + 16 * sn + crc) / 16) with (8 * m + sn) by (apply Z.div_unique with crc; lia).
    symmetry. apply Z.mod_unique with m; lia.
  - symmetry. apply Z.mod_unique with (8 * m + sn); lia.
Qed.

(** A header from its fields. *)
Definition mk_hdr (b0 b1 seq ts : Z) (rest : list Z) : list Z := [b0; b1] ++ to_be16 seq ++ to_be32 ts ++ rest.

Lemma mk_hdr_fields b0 b1 seq ts rest : 0 <= seq < 65536 -> is_u32 ts ->
  rd (mk_hdr b0 b1 seq ts rest) 0 = Some b0 /\ rd (mk_hdr b0 b1 seq ts rest) 1 = Some b1 /\
  rd16 (mk_hdr b0 b1 seq ts rest) 2 = Some seq /\ rd32 (mk_hdr b0 b1 seq ts rest) 4 = Some ts.
Proof.
  intros Hs Ht. unfold is_u32, u32_mod in Ht. unfold mk_hdr, to_be32.
  pose proof (Z.div_mod ts 65536 ltac:(lia)). pose proof (Z.mod_pos_bound ts 65536 ltac:(lia)).
  assert (0 <= ts / 65536 < 65536) by (split; [apply Z.div_pos|apply Z.div_lt_upper_bound]; lia).
  destruct (to_be16_be16 seq) as (x & y & -> & E0 & _); [lia|].
  destruct (to_be16_be16 (ts / 65536)) as (x1 & y1 & -> & E1 & _); [lia|].
  destruct (to_be16_be16 (ts mod 65536)) as (x2 & y2 & -> & E2 & _); [lia|]. cbn [app].
  split_and!; [done|done| |].
  - rewrite rd16_front2. by rewrite E0.
  - change (rd32 _ 4) with (Some (be16 x1 y1 * 65536 + be16 x2 y2)). rewrite E1, E2. f_equal. lia.
Qed.

Lemma overwrite_mk_hdr b0 b1 seq ts rest b1' seq' ts' :
  overwrite 2 (to_be16 seq') (overwrite 4 (to_be32 ts') (overwrite 1 [b1'] (mk_hdr b0 b1 seq ts rest))) = mk_hdr b0 b1' seq' ts' rest.
Proof. done. Qed.

(** The next packet of a regular stream (same header, the next sequence number, the time stamp
    one increment on, whatever its marker) is sent behind the compressed header of four bytes,
    with nothing but its payload. *)
Theorem regular_packet_compressed sid b0 b1 b1' seq ts rest data s t :
  plain_hdr (mk_hdr b0 b1 seq ts rest) -> ms_rtp_hdr s = mk_hdr b0 b1 seq ts rest ++ t ->
  0 <= b1 < 256 -> 0 <= b1' < 256 -> h_pt b1' = h_pt b1 -> 0 <= seq < 65536 -> is_u32 ts -> 0 <= ms_ts_increment s < 65536 ->
  len_of data <= 243 ->
  let h := mk_hdr b0 b1' (u16 (seq + 1)) (u32 (ts + ms_ts_increment s)) rest in
  exists hdr, compressed_frame sid (h ++ data) s = Some (Some (hdr, data)) /\ len_of hdr + 1 = COMPRESSED_HDR.
Proof.
  intros Hp Hs Hb1 Hb1' Hpt Hseq Hts Hinc Hl. cbn zeta. set (seq' := u16 (seq + 1)). set (ts' := u32 (ts + _)).
  assert (Hseq' : 0 <= seq' < 65536) by (apply Z.mod_pos_bound; lia). pose proof (u32_range (ts + ms_ts_increment s)) as Hts'. fold ts' in Hts'.
  set (h := mk_hdr b0 b1' seq' ts' rest). destruct (mk_hdr_fields b0 b1 seq ts rest Hseq Hts) as (R0 & R1 & R2 & R4).
  destruct (mk_hdr_fields b0 b1' seq' ts' rest Hseq' Hts') as (N0 & N1 & N2 & N4). fold h in N0, N1, N2, N4.
  assert (Hlen : length h = length (mk_hdr b0 b1 seq ts rest)) by done.
  assert (Hph : plain_hdr h).
  { destruct Hp as (c0 & E & Hx & Hn & Hm). rewrite R0 in E. injection E as <-. exists b0. rewrite N0, Hlen. done. }
  pose proof Hph as (_ & _ & _ & _ & Hn). unfold compressed_frame. rewrite plain_hdr_len by done. cbn [mbind option_bind].
  rewrite rd_app, rd16_app, rd32_app, N1, N2, N4 by lia. cbn [mbind option_bind]. rewrite Hs, decompress_app by done.
  assert (Hm : 0 <= h_m b1' < 2) by (unfold h_m; split; [apply Z.div_pos|apply Z.div_lt_upper_bound]; lia).
  pose proof (calc_crc4_range ts' Hts') as Hcrc. assert (Hsn : 0 <= Z.land seq' 7 < 8) by (rewrite land_7; apply Z.mod_pos_bound; lia).
  destruct (c_byte_parts _ _ _ Hm Hsn Hcrc) as (Cm & Cs & Cc). set (c := c_byte _ _ _) in *.
  assert (Hd : decompress c (ms_ts_increment s) (mk_hdr b0 b1 seq ts rest) = Some h).
  { unfold decompress. rewrite plain_hdr_len_self by done. cbn [mbind option_bind].
    rewrite (proj2 (Z.leb_le _ MAX_RTP_HDR_LEN)), (proj2 (Z.leb_le _ (len_of _))) by (rewrite <- ?Hlen; lia). cbn [andb negb].
    rewrite Nat2Z.id, firstn_all, R1, R2, R4. cbn [mbind option_bind]. rewrite Cm, Cs, Cc.
    pose proof (next_seq seq Hseq) as Hnext. cbn zeta in Hnext. fold seq' in Hnext. rewrite Hnext. unfold test_sns. cbn [find_sn].
    rewrite Z.add_0_r. replace (u16 seq') with seq' by (symmetry; apply Z.mod_small; lia).
    replace (u16 (seq' - seq)) with 1.
    2:{ unfold seq', u16. rewrite Zminus_mod_idemp_l. replace (seq + 1 - seq) with 1 by lia. done. }
    rewrite Z.mul_1_l. fold ts'. rewrite Z.eqb_refl. rewrite overwrite_mk_hdr. unfold h. do 2 f_equal.
    unfold h_pt in Hpt. rewrite <- Hpt. unfold h_m. pose proof (Z.div_mod b1' 128 ltac:(lia)). lia. }
  rewrite Hd. cbn [mbind option_bind]. rewrite Nat2Z.id, take_app_length, firstn_all, bool_decide_eq_true_2 by done.
  rewrite (proj2 (Z.leb_le _ _)) by (rewrite length_app; lia). rewrite drop_app_length. eexists. split; [done|]. done.
Qed.

(** ** Limits of the format *)

Definition demo_run (ops : list mux_op) : option (list (Z * list Z)) :=
  '(q, dgrams) ← run_mux (replicate 64 0) ([49], 7000) ops (new_mux_queue (replicate (Z.to_nat 4096) 0));
  '(_, ds) ← recv_all (dgrams ++ [pending q]) (fun _ => new_mux_state (replicate 64 7)); Some ds.

(** A packet of 256 bytes, which the sender accepts, is announced with the length 0: its own
    bytes are taken for frames, and the receiver reads behind the datagram. *)
Theorem frame_256_misread : exists q,
  run_mux (replicate 64 0) ([49], 7000) [MSend (demo_env 1400) (demo_packet 7 1000 (replicate 244 0)) 5004]
    (new_mux_queue (replicate (Z.to_nat 4096) 0)) = Some (q, []) /\
  recvPacket (pending q) (fun _ => new_mux_state (replicate 64 7)) = None.
Proof. eexists. split; [by vm_compute|]. by vm_compute. Qed.

(** Time stamps that advance by 100: the receiver is told another increment and delivers the
    third packet with a wrong sequence number and time stamp. *)
Theorem increment_100_corrupts :
  let pkt i := demo_packet (7 + i) (1000 + 100 * i) [1] in
  demo_run (map (fun i => MSend (demo_env 1400) (pkt i) 5004) [0; 1; 2]) =
    Some [(5004, pkt 0); (5004, pkt 1); (5004, demo_packet 1 5243420 [1])].
Proof. by vm_compute. Qed.

(** With 14 contributing sources the header is longer than the place it is stored in. *)
Theorem csrc_14_overflows seq data e port sid q : 0 <= seq < 65536 ->
  length data = 60%nat -> send_on (replicate 64 0) e (mk_hdr 142 8 seq 1000 data) port sid q = None.
Proof.
  intros Hs Hd. destruct (mk_hdr_fields 142 8 seq 1000 data Hs) as (R0 & _); [done|].
  assert (Hl : get_rtp_hdr_len (mk_hdr 142 8 seq 1000 data) = Some 68) by (unfold get_rtp_hdr_len; by rewrite R0).
  unfold send_on. destruct (setup_due _ _ _ _) as [[setup s]|]; [|done]. cbn [mbind option_bind].
  destruct (if setup then _ else _) as [c|]; [|done]. cbn [mbind option_bind].
  set (f := match c with Some _ => _ | None => _ end). destruct f as [f ts]. destruct (push_frame _ _ _); [|done]. cbn [mbind option_bind].
  by rewrite Hl.
Qed.
