(* ===== verification/Sdp.v ===== *)
(** * Session descriptions

    Model of core/AmSdp.h and AmSdp.cpp: the parser of session descriptions, the printer, the
    comparison operators and the computation of an answer.

    A pointer into the text is the list of the characters from it up to the terminator
    ([None] is the place behind the terminator); differences and comparisons of pointers are
    those of the lengths.  Reading behind the terminator is the fault [OutOfBounds], a string
    of negative length (which the source converts to a huge unsigned number) the exception
    [LengthError]. *)

From Stdlib Require Import ZArith Lia Ascii String.
From stdpp Require Import base list.
From S2P Require Import Prelude ParseCommon AmUtils.

Local Open Scope Z_scope.
Local Open Scope bool_scope.

(** ** Data *)

Inductive NetworkType := NT_OTHER | NT_IN.
Inductive AddressType := AT_NONE | AT_V4 | AT_V6.
Inductive MediaType := MT_NONE | MT_AUDIO | MT_VIDEO | MT_APPLICATION | MT_TEXT | MT_MESSAGE | MT_IMAGE.
Inductive TransProt := TP_NONE | TP_RTPAVP | TP_RTPAVPF | TP_UDP | TP_RTPSAVP | TP_UDPTL | TP_RTPSAVPF | TP_UDPTLSRTPSAVP | TP_UDPTLSRTPSAVPF.
Inductive Direction := DirBoth | DirActive | DirPassive | DirUndefined.

#[global] Instance NetworkType_eq_dec : EqDecision NetworkType.
Proof. solve_decision. Defined.
#[global] Instance AddressType_eq_dec : EqDecision AddressType.
Proof. solve_decision. Defined.
#[global] Instance MediaType_eq_dec : EqDecision MediaType.
Proof. solve_decision. Defined.
#[global] Instance TransProt_eq_dec : EqDecision TransProt.
Proof. solve_decision. Defined.
#[global] Instance Direction_eq_dec : EqDecision Direction.
Proof. solve_decision. Defined.

(** The socket addresses [ipv4] and [ipv6], which nothing here sets, are left out. *)
Record SdpConnection := mk_conn { network : NetworkType; addrType : AddressType; address : list Z }.

Record SdpOrigin := mk_origin { o_user : list Z; sessId : Z; sessV : Z; o_conn : SdpConnection }.

Record SdpPayload := mk_payload {
  pl_type : MediaType;
  payload_type : Z;
  encoding_name : list Z;
  clock_rate : Z;
  pl_format : list Z;
  sdp_format_parameters : list Z;
  encoding_param : Z
}.

Record SdpAttribute := mk_attr { attribute : list Z; a_value : list Z }.

Record SdpMedia := mk_media {
  m_type : MediaType;
  m_port : Z;
  nports : Z;
  transport : TransProt;
  m_conn : SdpConnection;
  m_dir : Direction;
  m_fmt : list Z;
  m_send : bool;
  m_recv : bool;
  payloads : list SdpPayload;
  m_attributes : list SdpAttribute
}.

Record AmSdp := mk_sdp {
  s_version : Z;
  origin : SdpOrigin;
  sessionName : list Z;
  s_uri : list Z;
  s_conn : SdpConnection;
  s_attributes : list SdpAttribute;
  media : list SdpMedia;
  l_origin : SdpOrigin
}.

Definition conn0 : SdpConnection := mk_conn NT_OTHER AT_NONE [].
Definition origin0 : SdpOrigin := mk_origin [] 0 0 conn0.
Definition payload0 : SdpPayload := mk_payload MT_NONE (-1) [] (-1) [] [] (-1).
Definition media0 : SdpMedia := mk_media MT_NONE 0 0 TP_NONE conn0 DirUndefined [] true true [] [].

(** [AmSdp::clear] *)
Definition sdp0 : AmSdp := mk_sdp 0 origin0 [] [] conn0 [] [] origin0.

Definition set_version v (d : AmSdp) := mk_sdp v (origin d) (sessionName d) (s_uri d) (s_conn d) (s_attributes d) (media d) (l_origin d).
Definition set_origin o (d : AmSdp) := mk_sdp (s_version d) o (sessionName d) (s_uri d) (s_conn d) (s_attributes d) (media d) (l_origin d).
Definition set_name n (d : AmSdp) := mk_sdp (s_version d) (origin d) n (s_uri d) (s_conn d) (s_attributes d) (media d) (l_origin d).
Definition set_uri u (d : AmSdp) := mk_sdp (s_version d) (origin d) (sessionName d) u (s_conn d) (s_attributes d) (media d) (l_origin d).
Definition set_conn c (d : AmSdp) := mk_sdp (s_version d) (origin d) (sessionName d) (s_uri d) c (s_attributes d) (media d) (l_origin d).
Definition set_attrs a (d : AmSdp) := mk_sdp (s_version d) (origin d) (sessionName d) (s_uri d) (s_conn d) a (media d) (l_origin d).
Definition set_media m (d : AmSdp) := mk_sdp (s_version d) (origin d) (sessionName d) (s_uri d) (s_conn d) (s_attributes d) m (l_origin d).

Definition m_set_conn c (m : SdpMedia) :=
  mk_media (m_type m) (m_port m) (nports m) (transport m) c (m_dir m) (m_fmt m) (m_send m) (m_recv m) (payloads m) (m_attributes m).
Definition m_set_dir x (m : SdpMedia) :=
  mk_media (m_type m) (m_port m) (nports m) (transport m) (m_conn m) x (m_fmt m) (m_send m) (m_recv m) (payloads m) (m_attributes m).
Definition m_set_sendrecv s r (m : SdpMedia) :=
  mk_media (m_type m) (m_port m) (nports m) (transport m) (m_conn m) (m_dir m) (m_fmt m) s r (payloads m) (m_attributes m).
Definition m_set_payloads p (m : SdpMedia) :=
  mk_media (m_type m) (m_port m) (nports m) (transport m) (m_conn m) (m_dir m) (m_fmt m) (m_send m) (m_recv m) p (m_attributes m).
Definition m_set_attrs a (m : SdpMedia) :=
  mk_media (m_type m) (m_port m) (nports m) (transport m) (m_conn m) (m_dir m) (m_fmt m) (m_send m) (m_recv m) (payloads m) a.

(** ** Names *)

Definition net_t_2_str (n : NetworkType) : list Z := match n with NT_IN => lit "IN" | NT_OTHER => lit "<unknown network type>" end.

Definition addr_t_2_str (a : AddressType) : list Z :=
  match a with AT_V4 => lit "IP4" | AT_V6 => lit "IP6" | AT_NONE => lit "<unknown address type>" end.

Definition media_t_2_str (m : MediaType) : list Z :=
  match m with
  | MT_AUDIO => lit "audio" | MT_VIDEO => lit "video" | MT_APPLICATION => lit "application" | MT_TEXT => lit "text"
  | MT_MESSAGE => lit "message" | MT_IMAGE => lit "image" | MT_NONE => lit "<unknown media type>"
  end.

Definition transport_p_2_str (t : TransProt) : list Z :=
  match t with
  | TP_RTPAVP => lit "RTP/AVP" | TP_RTPAVPF => lit "RTP/AVPF" | TP_UDP => lit "udp" | TP_RTPSAVP => lit "RTP/SAVP"
  | TP_RTPSAVPF => lit "RTP/SAVPF" | TP_UDPTLSRTPSAVP => lit "UDP/TLS/RTP/SAVP" | TP_UDPTLSRTPSAVPF => lit "UDP/TLS/RTP/SAVPF"
  | TP_UDPTL => lit "udptl" | TP_NONE => lit "<unknown media type>"
  end.

Definition is_text (a : list Z) (b : string) : bool := bool_decide (a = lit b).

(** [media_type] *)
Definition media_type (m : list Z) : MediaType :=
  if is_text m "audio" then MT_AUDIO else if is_text m "video" then MT_VIDEO
  else if is_text m "application" then MT_APPLICATION else if is_text m "text" then MT_TEXT
  else if is_text m "message" then MT_MESSAGE else if is_text m "image" then MT_IMAGE else MT_NONE.

Definition toupper (c : Z) : Z := if (97 <=? c) && (c <=? 122) then c - 32 else c.

(** [transport_type] *)
Definition transport_type (t : list Z) : TransProt :=
  let uc := map toupper t in
  if is_text uc "RTP/AVP" then TP_RTPAVP else if is_text uc "RTP/AVPF" then TP_RTPAVPF
  else if is_text uc "UDP" then TP_UDP else if is_text uc "RTP/SAVP" then TP_RTPSAVP
  else if is_text uc "RTP/SAVPF" then TP_RTPSAVPF else if is_text uc "UDP/TLS/RTP/SAVP" then TP_UDPTLSRTPSAVP
  else if is_text uc "UDP/TLS/RTP/SAVPF" then TP_UDPTLSRTPSAVPF else if is_text uc "UDPTL" then TP_UDPTL else TP_NONE.

(** The transports that carry RTP payload types. *)
Definition is_rtp (t : TransProt) : bool :=
  match t with TP_RTPAVP | TP_RTPAVPF | TP_RTPSAVP | TP_RTPSAVPF | TP_UDPTLSRTPSAVP | TP_UDPTLSRTPSAVPF => true | _ => false end.

(** ** Faults *)

Inductive sdp_fault := OutOfBounds | LengthError | NoFuel.

Inductive res (A : Type) := Ok (a : A) | Bad (f : sdp_fault).
Arguments Ok {A} _.
Arguments Bad {A} _.

#[global] Instance res_ret : MRet res := fun A => Ok.
#[global] Instance res_bind : MBind res := fun A B k m => match m with Ok a => k a | Bad f => Bad f end.

(** ** Pointers *)

Definition ptr := option (list Z).

Definition plen (p : ptr) : Z := match p with Some l => Z.of_nat (length l) | None => -1 end.

(** [b - a] *)
Definition pdiff (a b : ptr) : Z := plen a - plen b.

Definition deref (p : ptr) : res (list Z) := match p with Some l => Ok l | None => Bad OutOfBounds end.

(** [string(p, n)]; the terminator may be read. *)
Definition string_at (p : ptr) (n : Z) : res (list Z) :=
  if n <? 0 then Bad LengthError
  else if n =? 0 then Ok []
  else l ← deref p; if n <=? Z.of_nat (length l) + 1 then Ok (take (Z.to_nat n) (l ++ [0])) else Bad OutOfBounds.

(** ** Helper functions of the parser *)

(** [contains]: looks at the characters before [next_line - 1]; when [next_line] is not behind
    [s] the comparison never holds and the search goes on to the terminator. *)
Definition contains (s next_line : ptr) (c : Z) : res bool :=
  l ← deref s;
  let n := pdiff s next_line - 1 in
  Ok (existsb (Z.eqb c) (if n <? 0 then l else take (Z.to_nat n) l)).

Definition is_wsp (c : Z) : bool := (c =? 32) || (c =? CR) || (c =? LF) || (c =? 9).

(** Behind the first [c]; behind the terminator when there is none. *)
Fixpoint after (c : Z) (l : list Z) : ptr :=
  match l with [] => None | x :: l => if x =? c then Some l else after c l end.

(** [parse_until(s, c)] *)
Definition parse_until (s : ptr) (c : Z) : res ptr := l ← deref s; Ok (after c l).

Fixpoint after_within (n : nat) (c : Z) (l : list Z) : ptr :=
  match n with
  | O => Some l
  | S n => match l with [] => None | x :: l => if x =? c then Some l else after_within n c l end
  end.

(** [parse_until(s, end, c)] *)
Definition parse_until_end (s end_ : ptr) (c : Z) : res ptr :=
  l ← deref s; Ok (after_within (Z.to_nat (pdiff s end_)) c l).

(** [is_eql_next] on a line whose first character has been looked at: the second is not
    checked. *)
Definition is_eql_next (l : list Z) : ptr := match l with _ :: _ :: l => Some l | _ => None end.

Fixpoint get_next_line (l : list Z) : list Z :=
  match l with
  | [] => []
  | c :: l =>
      if c =? CR then match l with c2 :: l2 => if c2 =? LF then l2 else get_next_line l | [] => [] end
      else if c =? LF then l
      else get_next_line l
  end.

(** [skip_till_next_line]: the next line and [line_len]. *)
Fixpoint skip_till_next_line (l : list Z) : list Z * Z :=
  match l with
  | [] => ([], 0)
  | c :: l =>
      if c =? CR then match l with c2 :: l2 => if c2 =? LF then (l2, 0) else skip_till_next_line l | [] => ([], 0) end
      else if c =? LF then (l, 0)
      else let '(next, n) := skip_till_next_line l in (next, n + 1)
  end.

(** Up to and without the separator that was found: [string(s, int(next-s)-1)]. *)
Definition word (s next : ptr) : res (list Z) := string_at s (pdiff s next - 1).

(** The same behind the test [next > s]. *)
Definition word_if (s next : ptr) : res (list Z) := if 0 <? pdiff s next then word s next else Ok [].

(** [str2i(text, x)]: a text that is no number leaves [x] as it is. *)
Definition read_i (text : list Z) (x : Z) : Z := default x (str2i text).

(** [str2ulonglong] *)
Fixpoint ull_loop (l : list Z) (ret i : Z) : option Z :=
  match l with
  | [] => Some ret
  | c :: l =>
      if c =? 0 then Some ret
      else if IS_DIGIT c then
        let digit := c - 48 in
        if ret >? (18446744073709551615 - digit) / 10 then None
        else if i + 1 >? 20 then None
        else ull_loop l (ret * 10 + digit) (i + 1)
      else if (c =? CR) || (c =? LF) || (c =? 32) then Some ret
      else None
  end.

Definition str2ulonglong (l : list Z) : option Z := ull_loop (skip_sp l) 0 0.

(** The conversion to [int]. *)
Definition to_int (x : Z) : Z := if x <? 2147483648 then x else x - 4294967296.

(** ** Lines of the session *)

(** [parse_sdp_connection]: the connection of the line, unless it is too short, and the next line. *)
Definition parse_connection (s : ptr) : res (option SdpConnection * list Z) :=
  l ← deref s;
  let '(next_line, line_len) := skip_till_next_line l in
  if line_len <=? 7 then Ok (None, next_line) else
  let connection_line := Some (drop 3 l) in
  addr_type ← string_at connection_line 3;
  let uc := map toupper addr_type in
  let connection_line := Some (drop 7 l) in
  let parse_address (t : AddressType) : res (option SdpConnection * list Z) :=
    slash ← contains connection_line (Some next_line) 47;
    a ← (if slash : bool
         then next ← parse_until s 47; string_at connection_line (pdiff connection_line next - 2)
         else string_at connection_line (line_len - 7));
    Ok (Some (mk_conn NT_IN t a), next_line) in
  if is_text uc "IP4" then parse_address AT_V4
  else if is_text uc "IP6" then parse_address AT_V6
  else Ok (Some (mk_conn NT_IN AT_NONE []), next_line).

(** [parse_sdp_origin]: the fields are split at spaces; a line that ends early goes on with the
    address. *)
Definition origin_address (line_end origin_line : ptr) (o : SdpOrigin) : res SdpOrigin :=
  next ← parse_until origin_line 32;
  a ← (if pdiff origin_line next =? 0 then Ok []
       else if plen next <? plen line_end
       then l ← deref origin_line; string_at origin_line (skip_till_next_line l).2
       else word origin_line next);
  Ok (mk_origin (o_user o) (sessId o) (sessV o) (mk_conn (network (o_conn o)) (addrType (o_conn o)) a)).

(** One field: when the line ends before its space, [origin_address] is next. *)
Definition origin_field (line_end origin_line : ptr) (o : SdpOrigin) (k : ptr -> list Z -> res SdpOrigin) : res SdpOrigin :=
  next ← parse_until origin_line 32;
  if plen next <? plen line_end then origin_address line_end origin_line o
  else w ← word origin_line next; k next w.

Definition origin_type (w : list Z) : AddressType := if is_text w "IP4" then AT_V4 else if is_text w "IP6" then AT_V6 else AT_NONE.

Definition parse_origin (s : ptr) : res SdpOrigin :=
  l ← deref s;
  let line_end := Some (skip_till_next_line l).1 in
  let o := origin0 in
  origin_field line_end s o (fun p user =>
    let o := mk_origin user 0 0 conn0 in
    origin_field line_end p o (fun p id =>
      let o := mk_origin user (read_i id 0) 0 conn0 in
      origin_field line_end p o (fun p version =>
        let o := mk_origin user (sessId o) (default 0 (str2ulonglong version)) conn0 in
        origin_field line_end p o (fun p net_type =>
          let o := mk_origin user (sessId o) (sessV o) (mk_conn NT_IN AT_NONE []) in
          origin_field line_end p o (fun p addr_type =>
            let o := mk_origin user (sessId o) (sessV o) (mk_conn NT_IN (origin_type addr_type) []) in
            origin_address line_end p o))))).

(** [attr_end] is walked back over the line end: its distance from [s], -1 when the line is
    empty. *)
Fixpoint trim_attr (k : nat) (l : list Z) : Z :=
  match k with
  | O => -1
  | S k' => match l !! k' with
            | Some c => if (c =? LF) || (c =? CR) then trim_attr k' l else Z.of_nat k'
            | None => Z.of_nat k'
            end
  end.

(** [parse_session_attr]; [prev] is the character before [s]. *)
Definition parse_session_attr (prev : Z) (s : ptr) : res (option SdpAttribute * list Z) :=
  l ← deref s;
  let next := (skip_till_next_line l).1 in
  if bool_decide (l = []) then Ok (None, []) else
  let k := trim_attr (length l - length next) l in
  let at_end := if k <? 0 then prev else default 0 (l !! Z.to_nat k) in
  if at_end =? 58 then Ok (None, next) else
  let col := after_within (Z.to_nat k) 58 l in
  if pdiff s col =? k then
    name ← string_at s (k + 1); Ok (Some (mk_attr name []), next)
  else
    name ← string_at s (pdiff s col - 1); value ← string_at col (k - pdiff s col + 1);
    Ok (Some (mk_attr name value), next).

(** ** Media lines *)

(** The payload types of an [m=] line. [pt] is the variable [payload_type], which is not
    initialised. *)
Fixpoint fmt_loop (fuel : nat) (t : MediaType) (line_end media_line : ptr) (pt : Z) (pls : list SdpPayload) : res (list SdpPayload) :=
  match fuel with
  | O => Bad NoFuel
  | S fuel =>
      let add (value : list Z) :=
        if bool_decide (value = []) then (pt, pls)
        else let pt := read_i value pt in (pt, pls ++ [mk_payload t (to_int pt) [] (-1) [] [] (-1)]) in
      more ← contains media_line line_end 32;
      if more : bool then
        next ← parse_until media_line 32;
        value ← word_if media_line next;
        let '(pt, pls) := add value in fmt_loop fuel t line_end next pt pls
      else
        last_value ← (if 0 <? pdiff media_line line_end
                      then string_at media_line (pdiff media_line line_end - (if plen line_end =? 0 then 0 else 1))
                      else Ok []);
        Ok (add last_value).2
  end.

(** [line_end] is walked back over the line end, not further than [media_line]. *)
Fixpoint trim_fmt (k : nat) (l : list Z) : nat :=
  match k with
  | O => O
  | S k' => match l !! k with
            | Some c => if (c =? CR) || (c =? LF) then trim_fmt k' l else k
            | None => k
            end
  end.

(** The format of a transport without RTP; one character is not taken. *)
Definition other_fmt (line_end media_line : ptr) : res (list Z) :=
  let k := pdiff media_line line_end - 1 in
  if k <=? 0 then Ok []
  else
    l ← deref media_line;
    let k := trim_fmt (Z.to_nat k) l in
    if Nat.eqb k 0 then Ok [] else string_at media_line (Z.of_nat k + 1).

(** The port, and the number of ports behind a slash. *)
Definition media_port (media_line : ptr) : res (Z * Z * ptr) :=
  next ← parse_until media_line 32;
  multi ← contains media_line next 47;
  if multi : bool then
    next ← parse_until media_line 47;
    port ← word_if media_line next;
    next2 ← parse_until next 32;
    n ← word_if next next2;
    Ok (read_i port 0, read_i n 0, next)
  else
    port ← word_if media_line next;
    Ok (read_i port 0, 0, next).

Section Parser.
(** What an uninitialised variable holds. *)
Context (undefined : Z).

(** [parse_sdp_media]; the variable [media_line] stays before the number of ports when there is
    one. *)
Definition parse_media (s : ptr) : res SdpMedia :=
  l ← deref s;
  let line_end := Some (get_next_line l) in
  next ← parse_until s 32;
  name ← word_if s next;
  '(port, n, media_line) ← media_port next;
  next ← parse_until media_line 32;
  proto ← word_if media_line next;
  let t := media_type name in
  let tp := transport_type proto in
  if is_rtp tp then
    pls ← fmt_loop (S (length l)) t line_end next undefined [];
    Ok (mk_media t port n tp conn0 DirBoth [] true true pls [])
  else
    fmt ← other_fmt line_end next;
    Ok (mk_media t port n tp conn0 DirBoth fmt true true [] []).

(** ** Media attributes *)

Fixpoint enc_param_loop (fuel : nat) (line_end attr_line : ptr) (x : Z) : res Z :=
  match fuel with
  | O => Bad NoFuel
  | S fuel =>
      next ← parse_until attr_line 32;
      if plen line_end <? plen next
      then value ← word attr_line next; enc_param_loop fuel line_end next (read_i value x)
      else value ← string_at attr_line (pdiff attr_line line_end - 1); Ok (read_i value x)
  end.

(** [rtpmap]: payload type, encoding name, clock rate, encoding parameter. *)
Definition parse_rtpmap (s line_end attr_line : ptr) : res (Z * list Z * Z * Z) :=
  next ← parse_until attr_line 32;
  type ← word attr_line next;
  let pt := read_i type 0 in
  slash ← contains s line_end 47;
  let params attr_line name rate :=
    n ← enc_param_loop (S (Z.to_nat (plen s))) line_end attr_line 0; Ok (pt, name, rate, n) in
  if slash : bool then
    next2 ← parse_until next 47;
    name ← word next next2;
    slash2 ← contains next2 line_end 47;
    if slash2 : bool then
      next3 ← parse_until next2 47;
      rate ← word next2 next3;
      params next3 name (read_i rate 0)
    else
      rate ← string_at next2 (pdiff next2 line_end - (if plen line_end =? 0 then 0 else 1));
      Ok (pt, name, read_i rate 0, 0)
  else params next [] 0.

(** [param_end] is walked back over white space: the number of characters up to it. *)
Fixpoint trim_wsp (k : nat) (l : list Z) : Z :=
  match k with
  | O => 0
  | S k' => match l !! k' with
            | Some c => if is_wsp c then trim_wsp k' l else Z.of_nat k
            | None => Z.of_nat k
            end
  end.

(** [fmtp]: payload type and parameters.  The walk back ends at the colon at the latest, which
    is before [attr_line]. *)
Definition parse_fmtp (line_end attr_line : ptr) : res (Z * list Z) :=
  next ← parse_until_end attr_line line_end 32;
  fmt ← word attr_line next;
  l ← deref attr_line;
  let pt := read_i fmt 0 in
  let k := trim_wsp (Z.to_nat (pdiff attr_line line_end)) l - pdiff attr_line next in
  params ← (if k <=? 1 then Ok [] else string_at next k);
  Ok (pt, params).

(** The first payload of a type. *)
Fixpoint update_payload (pt : Z) (f : SdpPayload -> SdpPayload) (pls : list SdpPayload) : list SdpPayload :=
  match pls with
  | [] => []
  | p :: pls => if payload_type p =? pt then f p :: pls else p :: update_payload pt f pls
  end.

Definition set_fmtp (params : list Z) (p : SdpPayload) : SdpPayload :=
  mk_payload (pl_type p) (payload_type p) (encoding_name p) (clock_rate p) (pl_format p) params (encoding_param p).

(** The attributes that change the media description, and the others, which are kept. *)
Definition media_attr (attr : list Z) (s line_end : ptr) (attr_line : option ptr) (m : SdpMedia) : res SdpMedia :=
  let value := match attr_line with
               | Some p => l ← deref p; string_at p (skip_till_next_line l).2
               | None => Ok []
               end in
  if is_text attr "rtpmap" then
    '(pt, name, rate, n) ← match attr_line with Some p => parse_rtpmap s line_end p | None => Ok (0, [], 0, 0) end;
    Ok (m_set_payloads (update_payload (to_int pt)
          (fun _ => mk_payload MT_NONE (to_int pt) name (to_int rate) [] [] (to_int n)) (payloads m)) m)
  else if is_text attr "fmtp" then
    '(pt, params) ← match attr_line with Some p => parse_fmtp line_end p | None => Ok (0, []) end;
    Ok (m_set_payloads (update_payload (to_int pt) (set_fmtp params) (payloads m)) m)
  else if is_text attr "direction" then
    match attr_line with
    | Some _ =>
        v ← value;
        Ok (if is_text v "active" then m_set_dir DirActive m
            else if is_text v "passive" then m_set_dir DirPassive m
            else if is_text attr "both" then m_set_dir DirBoth m else m)
    | None => Ok m
    end
  else if is_text attr "sendrecv" then Ok (m_set_sendrecv true true m)
  else if is_text attr "sendonly" then Ok (m_set_sendrecv true false m)
  else if is_text attr "recvonly" then Ok (m_set_sendrecv false true m)
  else if is_text attr "inactive" then Ok (m_set_sendrecv false false m)
  else v ← value; Ok (m_set_attrs (m_attributes m ++ [mk_attr attr v]) m).

(** [media.back()] *)
Definition change_last (f : SdpMedia -> res SdpMedia) (d : AmSdp) : res AmSdp :=
  match last (media d) with
  | None => Bad OutOfBounds
  | Some m => m ← f m; Ok (set_media (removelast (media d) ++ [m]) d)
  end.

(** [parse_sdp_attr] *)
Definition parse_sdp_attr (d : AmSdp) (s : ptr) : res (AmSdp * ptr) :=
  if bool_decide (media d = []) then Ok (d, s) else
  l ← deref s;
  let '(line_end, line_len) := skip_till_next_line l in
  let line_end := Some line_end in
  colon ← contains s line_end 58;
  '(attr, attr_line) ← (if colon : bool then next ← parse_until s 58; a ← word s next; Ok (a, Some next)
                        else a ← string_at s line_len; Ok (a, None));
  d ← change_last (media_attr attr s line_end attr_line) d;
  Ok (d, line_end).

(** ** The parser *)

Inductive parse_st := SDP_DESCR | SDP_MEDIA.

(** A line that is skipped, and its text. *)
Definition skip_line (s : ptr) : res (list Z * list Z) :=
  l ← deref s;
  let '(next, line_len) := skip_till_next_line l in
  text ← string_at s line_len;
  Ok (text, next).

(** One round of the loop of [parse_sdp_line_ex] at a character [c]. *)
Definition sdp_step (st : parse_st) (c : Z) (l : list Z) (d : AmSdp) : res (parse_st * ptr * AmSdp) :=
  let s := is_eql_next (c :: l) in
  let skip := '(_, next) ← skip_line s; Ok (st, Some next, d) in
  match st with
  | SDP_DESCR =>
      if c =? 118 (* v *) then
        '(t, next) ← skip_line s;
        Ok (SDP_DESCR, Some next, set_version (if bool_decide (t = []) then 0 else read_i t (s_version d)) d)
      else if c =? 111 (* o *) then
        o ← parse_origin s; l ← deref s; Ok (SDP_DESCR, Some (get_next_line l), set_origin o d)
      else if c =? 115 (* s *) then '(t, next) ← skip_line s; Ok (SDP_DESCR, Some next, set_name t d)
      else if c =? 117 (* u *) then '(t, next) ← skip_line s; Ok (SDP_DESCR, Some next, set_uri t d)
      else if existsb (Z.eqb c) (lit "iepbtk") then skip
      else if c =? 97 (* a *) then
        '(a, next) ← parse_session_attr (hd 0 l) s;
        Ok (SDP_DESCR, Some next, set_attrs (s_attributes d ++ option_list a) d)
      else if c =? 99 (* c *) then
        '(x, next) ← parse_connection s; Ok (SDP_DESCR, Some next, match x with Some x => set_conn x d | None => d end)
      else if c =? 109 (* m *) then Ok (SDP_MEDIA, Some (c :: l), d)
      else '(t, next) ← skip_line (Some (c :: l)); Ok (SDP_DESCR, Some next, set_uri t d)
  | SDP_MEDIA =>
      if c =? 109 (* m *) then
        m ← parse_media s; '(_, next) ← skip_line s; Ok (SDP_MEDIA, Some next, set_media (media d ++ [m]) d)
      else if existsb (Z.eqb c) (lit "ibk") then skip
      else if c =? 99 (* c *) then
        '(x, next) ← parse_connection s;
        d ← match x with Some x => change_last (fun m => Ok (m_set_conn x m)) d | None => Ok d end;
        Ok (SDP_MEDIA, Some next, d)
      else if c =? 97 (* a *) then '(d, next) ← parse_sdp_attr d s; Ok (SDP_MEDIA, next, d)
      else '(_, next) ← skip_line (Some (c :: l)); Ok (SDP_MEDIA, Some next, d)
  end.

Fixpoint sdp_loop (fuel : nat) (st : parse_st) (s : ptr) (d : AmSdp) : res AmSdp :=
  l ← deref s;
  match l with
  | [] => Ok d
  | c :: l =>
      match fuel with
      | O => Bad NoFuel
      | S fuel => '(st, s, d) ← sdp_step st c l d; sdp_loop fuel st s d
      end
  end.

(** Every round but one goes on in the text. *)
Definition sdp_fuel (text : list Z) : nat := 2 * length text + 2.

(** [AmSdp::parse]: the description and whether it is refused. *)
Definition sdp_parse (text : list Z) : res (AmSdp * bool) :=
  d ← sdp_loop (sdp_fuel text) SDP_DESCR (Some text) sdp0;
  let no_conn := bool_decide (address (s_conn d) = []) && existsb (fun m => bool_decide (address (m_conn m) = [])) (media d) in
  let zero_rate := existsb (fun m => existsb (fun p => clock_rate p =? 0) (payloads m)) (media d) in
  Ok (d, no_conn || zero_rate).
End Parser.

(** ** The printer *)

Definition CRLF_ : list Z := [CR; LF].

(** [ulonglong2str], below 2^63 *)
Definition ulonglong2str (n : Z) : list Z := int2str_loop 62 n [].

Definition has_dot (a : list Z) : bool := existsb (Z.eqb 46) a.

Definition ip_of (a : list Z) : list Z := if has_dot a then lit "IP4 " else lit "IP6 ".

(** The address of the [o=] line. *)
Definition origin_text (d : AmSdp) : list Z :=
  let a := address (o_conn (origin d)) in
  let c := address (s_conn d) in
  let m := match media d with m :: _ => address (m_conn m) | [] => [] end in
  if negb (bool_decide (a = [])) then ip_of a ++ a
  else if negb (bool_decide (c = [])) then ip_of c ++ c
  else if negb (bool_decide (m = [])) then ip_of m ++ m
  else lit "IP4 0.0.0.0".

Definition print_attr (a : SdpAttribute) : list Z :=
  if bool_decide (a_value a = []) then lit "a=" ++ attribute a ++ CRLF_
  else lit "a=" ++ attribute a ++ lit ":" ++ a_value a ++ CRLF_.

(** The [rtpmap] and [fmtp] lines of a payload. *)
Definition print_payload (p : SdpPayload) : list Z :=
  let pt := int2str_signed (payload_type p) in
  (if bool_decide (encoding_name p = []) then []
   else lit "a=rtpmap:" ++ pt ++ lit " " ++ encoding_name p ++ lit "/" ++ int2str_signed (clock_rate p) ++
        (if 0 <? encoding_param p then lit "/" ++ int2str_signed (encoding_param p) else []) ++ CRLF_) ++
  (if bool_decide (sdp_format_parameters p = []) then []
   else lit "a=fmtp:" ++ pt ++ lit " " ++ sdp_format_parameters p ++ CRLF_).

Definition print_media (m : SdpMedia) : list Z :=
  lit "m=" ++ media_t_2_str (m_type m) ++ lit " " ++ int2str (m_port m) ++ lit " " ++ transport_p_2_str (transport m) ++
  (if is_rtp (transport m) then concat (map (fun p => lit " " ++ int2str_signed (payload_type p)) (payloads m))
   else lit " " ++ m_fmt m) ++
  (if bool_decide (address (m_conn m) = []) then []
   else CRLF_ ++ lit "c=IN " ++ addr_t_2_str (addrType (m_conn m)) ++ lit " " ++ address (m_conn m)) ++
  CRLF_ ++ (if is_rtp (transport m) then concat (map print_payload (payloads m)) else []) ++
  (if m_send m then if m_recv m then lit "a=sendrecv" else lit "a=sendonly"
   else if m_recv m then lit "a=recvonly" else lit "a=inactive") ++ CRLF_ ++
  concat (map print_attr (m_attributes m)) ++
  match m_dir m with
  | DirActive => lit "a=direction:active" ++ CRLF_
  | DirPassive => lit "a=direction:passive" ++ CRLF_
  | DirBoth => lit "a=direction:both" ++ CRLF_
  | DirUndefined => []
  end.

(** [AmSdp::print] *)
Definition sdp_print (d : AmSdp) : list Z :=
  lit "v=" ++ int2str (s_version d) ++ CRLF_ ++
  lit "o=" ++ o_user (origin d) ++ lit " " ++ int2str (sessId (origin d)) ++ lit " " ++ ulonglong2str (sessV (origin d)) ++
    lit " IN " ++ origin_text d ++ CRLF_ ++
  lit "s=" ++ sessionName d ++ CRLF_ ++
  (if bool_decide (address (s_conn d) = []) then [] else lit "c=IN " ++ ip_of (address (s_conn d)) ++ address (s_conn d) ++ CRLF_) ++
  lit "t=0 0" ++ CRLF_ ++
  concat (map print_attr (s_attributes d)) ++
  concat (map print_media (media d)).

(** ** Comparison *)

Definition conn_eqb (a b : SdpConnection) : bool :=
  bool_decide (network a = network b) && bool_decide (addrType a = addrType b) && bool_decide (address a = address b).

Definition origin_eqb (a b : SdpOrigin) : bool :=
  bool_decide (o_user a = o_user b) && (sessId a =? sessId b) && (sessV a =? sessV b) && conn_eqb (o_conn a) (o_conn b).

Definition payload_eqb (a b : SdpPayload) : bool :=
  (payload_type a =? payload_type b) && bool_decide (encoding_name a = encoding_name b) &&
  (clock_rate a =? clock_rate b) && (encoding_param a =? encoding_param b).

(** An attribute without value equals any with its name. *)
Definition attr_eqb (a b : SdpAttribute) : bool :=
  bool_decide (attribute a = attribute b) && (bool_decide (a_value a = []) || bool_decide (a_value a = a_value b)).

(** [std::mismatch(a.begin(), a.end(), b.begin())], and whether both ends are reached: a shorter
    [b] is read behind its end. *)
Fixpoint mismatch_end {A} (eqb : A -> A -> res bool) (a b : list A) : res bool :=
  match a, b with
  | [], [] => Ok true
  | [], _ :: _ => Ok false
  | _ :: _, [] => Bad OutOfBounds
  | x :: a, y :: b => e ← eqb x y; if e : bool then mismatch_end eqb a b else Ok false
  end.

Definition pure_eqb {A} (f : A -> A -> bool) (a b : A) : res bool := Ok (f a b).

Definition media_eqb (a b : SdpMedia) : res bool :=
  pl ← (if bool_decide (length (payloads a) = 0%nat) then Ok (bool_decide (length (payloads b) = 0%nat))
        else if bool_decide (length (payloads b) = 0%nat) then Ok false
        else mismatch_end (pure_eqb payload_eqb) (payloads a) (payloads b));
  if negb pl then Ok false else
  at_ ← (if bool_decide (length (m_attributes a) = 0%nat) then Ok (bool_decide (length (m_attributes b) = 0%nat))
         else mismatch_end (pure_eqb attr_eqb) (m_attributes a) (m_attributes b));
  if negb at_ then Ok false else
  Ok (bool_decide (m_type a = m_type b) && (m_port a =? m_port b) && (nports a =? nports b) &&
      bool_decide (transport a = transport b) && conn_eqb (m_conn a) (m_conn b) && bool_decide (m_dir a = m_dir b) &&
      Bool.eqb (m_send a) (m_send b) && Bool.eqb (m_recv a) (m_recv b)).

Definition sdp_eqb (a b : AmSdp) : res bool :=
  at_ ← (if bool_decide (length (s_attributes a) = 0%nat) then Ok (bool_decide (length (s_attributes b) = 0%nat))
         else if bool_decide (length (s_attributes b) = 0%nat) then Ok false
         else mismatch_end (pure_eqb attr_eqb) (s_attributes a) (s_attributes b));
  if negb at_ then Ok false else
  ms ← (if bool_decide (length (media a) = 0%nat) then Ok (bool_decide (length (media b) = 0%nat))
        else if bool_decide (length (media b) = 0%nat) then Ok false
        else mismatch_end media_eqb (media a) (media b));
  if negb ms then Ok false else
  Ok ((s_version a =? s_version b) && origin_eqb (origin a) (origin b) && bool_decide (sessionName a = sessionName b) &&
      bool_decide (s_uri a = s_uri b) && conn_eqb (s_conn a) (s_conn b)).

(** ** Answers *)

Definition DYNAMIC_PAYLOAD_TYPE_START : Z := 96.

Section Answer.
(** [AmPayloadProvider]: a static payload (number, name and advertised rate), and the internal
    number of a dynamic one, or -1. *)
Context (payload : Z -> option (Z * list Z * Z)) (getDynPayload : list Z -> Z -> Z -> Z).

Definition answer_payload (p : SdpPayload) : list SdpPayload :=
  match (if payload_type p <? DYNAMIC_PAYLOAD_TYPE_START then payload (payload_type p) else None) with
  | Some (id, name, rate) => [mk_payload MT_NONE id name rate [] [] 0]
  | None => if getDynPayload (encoding_name p) (clock_rate p) (encoding_param p) =? -1 then [] else [p]
  end.

(** [SdpMedia::calcAnswer]: the answer is filled in. *)
Definition calcAnswer (offer answer : SdpMedia) : SdpMedia :=
  let answer := m_set_sendrecv (m_send answer && m_recv offer) (m_recv answer && m_send offer) answer in
  let answer := m_set_dir (match m_dir offer with DirActive => DirPassive | DirPassive => DirActive | x => x end) answer in
  m_set_payloads (payloads answer ++ concat (map answer_payload (payloads offer))) answer.
End Answer.

(** [AmSdp::findPayload] *)
Definition findPayload (name : list Z) (d : AmSdp) : option SdpPayload :=
  head (filter (fun p => encoding_name p = name) (concat (map payloads (media d)))).

Definition telephoneEventPayload (d : AmSdp) : option SdpPayload := findPayload (lit "telephone-event") d.

(** ** The rtcp attribute *)

Record RtcpAddress := mk_rtcp { r_port : Z; nettype : list Z; addrtype : list Z; r_address : list Z }.

Inductive rtcp_st := RS_PORT | RS_NET_TYPE | RS_ADDR_TYPE | RS_ADDR.

(** [RtcpAddress::parse]; [None] when it returns false. *)
Fixpoint rtcp_loop (l : list Z) (st : rtcp_st) (r : RtcpAddress) : option RtcpAddress :=
  match l with
  | [] => match st with
          | RS_PORT => Some r
          | RS_ADDR => if bool_decide (r_address r = []) then None else Some r
          | _ => None
          end
  | c :: l =>
      match st with
      | RS_PORT =>
          if IS_DIGIT c then
            let port := r_port r * 10 + (c - 48) in
            if port >? 65535 then None else rtcp_loop l RS_PORT (mk_rtcp port (nettype r) (addrtype r) (r_address r))
          else if c =? 32 then rtcp_loop l RS_NET_TYPE r
          else None
      | RS_NET_TYPE =>
          if c =? 32 then rtcp_loop l RS_ADDR_TYPE r
          else rtcp_loop l RS_NET_TYPE (mk_rtcp (r_port r) (nettype r ++ [c]) (addrtype r) (r_address r))
      | RS_ADDR_TYPE =>
          if c =? 32 then rtcp_loop l RS_ADDR r
          else rtcp_loop l RS_ADDR_TYPE (mk_rtcp (r_port r) (nettype r) (addrtype r ++ [c]) (r_address r))
      | RS_ADDR => rtcp_loop l RS_ADDR (mk_rtcp (r_port r) (nettype r) (addrtype r) (r_address r ++ [c]))
      end
  end.

Definition rtcp_parse (src : list Z) : option RtcpAddress :=
  if bool_decide (src = []) then None else rtcp_loop src RS_PORT (mk_rtcp 0 [] [] []).

Definition rtcp_print (r : RtcpAddress) : list Z :=
  int2str_signed (r_port r) ++
  (if bool_decide (r_address r = []) then [] else lit " IN " ++ addrtype r ++ lit " " ++ r_address r).
