(* ===== verification/SdpRoundtrip.v ===== *)
(** * Round trip of session descriptions

    What [AmSdp::print] writes for a well-formed description, [AmSdp::parse] reads back, up to
    what is not printed.  The lines are handled one by one: a line followed by any text is
    read and the rest of the text is next ([reads]). *)

From Stdlib Require Import ZArith Lia Ascii String.
From stdpp Require Import base list.
From S2P Require Import Prelude ParseCommon AmUtils Sdp.

Local Open Scope Z_scope.
Local Open Scope bool_scope.

Local Notation "'len_of' b" := (Z.of_nat (length b)) (at level 10, b at level 9).

(** ** Characters *)

(** No line end and no terminator. *)
Definition clean_char (c : Z) : bool := negb (c =? 0) && negb (c =? CR) && negb (c =? LF).
Definition clean (l : list Z) : bool := forallb clean_char l.
Definition free_of (c : Z) (l : list Z) : bool := negb (existsb (Z.eqb c) l).

Lemma clean_app a b : clean (a ++ b) = clean a && clean b.
Proof. apply forallb_app. Qed.

Lemma free_of_app c a b : free_of c (a ++ b) = free_of c a && free_of c b.
Proof. unfold free_of. by rewrite existsb_app, negb_orb. Qed.

Lemma existsb_free c l : free_of c l = true -> existsb (Z.eqb c) l = false.
Proof. unfold free_of. by destruct (existsb _ _). Qed.

Lemma clean_free_cr l : clean l = true -> free_of CR l = true.
Proof.
  unfold free_of, clean. induction l as [|c l IH]; cbn [forallb existsb]; [done|]. intros [Hc Hl]%andb_true_iff. apply IH in Hl.
  unfold clean_char in Hc. rewrite !andb_true_iff, !negb_true_iff in Hc. destruct Hc as [[_ Hc] _].
  by rewrite Z.eqb_sym, Hc.
Qed.

(** ** Pointers *)

Lemma skip_clean l r : clean l = true -> skip_till_next_line (l ++ CRLF_ ++ r) = (r, len_of l).
Proof.
  induction l as [|c l IH]; intros H; [done|]. cbn [app skip_till_next_line].
  unfold clean in *. cbn [forallb] in H. apply andb_true_iff in H as [Hc Hl]. unfold clean_char in Hc. rewrite !andb_true_iff, !negb_true_iff in Hc.
  destruct Hc as [[_ ->] ->]. rewrite (IH Hl). f_equal. cbn [length]. lia.
Qed.

Lemma next_clean l r : clean l = true -> get_next_line (l ++ CRLF_ ++ r) = r.
Proof.
  induction l as [|c l IH]; intros H; [done|]. cbn [app get_next_line].
  unfold clean in *. cbn [forallb] in H. apply andb_true_iff in H as [Hc Hl]. unfold clean_char in Hc. rewrite !andb_true_iff, !negb_true_iff in Hc.
  destruct Hc as [[_ ->] ->]. apply (IH Hl).
Qed.

Lemma after_skip c l r : free_of c l = true -> after c (l ++ r) = after c r.
Proof.
  induction l as [|x l IH]; intros H; [done|]. unfold free_of in H. cbn [existsb] in H. rewrite negb_orb, andb_true_iff, negb_true_iff in H.
  destruct H as [Hx Hl]. cbn [app after]. rewrite Z.eqb_sym, Hx. by apply IH.
Qed.

Lemma after_found c l r : free_of c l = true -> after c (l ++ c :: r) = Some r.
Proof. intros H. rewrite after_skip by done. cbn. by rewrite Z.eqb_refl. Qed.

Lemma plen_after c r : -1 <= plen (after c r) < plen (Some r) + 0 \/ plen (after c r) = -1.
Proof.
  induction r as [|x r IH]; cbn [after]; [by right|]. destruct (x =? c); cbn [plen length] in *; lia.
Qed.

(** Behind a separator that is not in the line lies behind the line. *)
Lemma sdp_after_line c l r : free_of c l = true -> c <> CR -> c <> LF -> plen (after c (l ++ CRLF_ ++ r)) < plen (Some r).
Proof.
  intros H H1 H2. rewrite after_skip by done. unfold CRLF_. cbn [app after].
  rewrite (proj2 (Z.eqb_neq CR c)), (proj2 (Z.eqb_neq LF c)) by done. pose proof (plen_after c r). cbn [plen] in *. lia.
Qed.

Lemma string_at_app l r : string_at (Some (l ++ r)) (len_of l) = Ok l.
Proof.
  unfold string_at. rewrite (proj2 (Z.ltb_ge _ _)) by lia. destruct l as [|c l]; [done|].
  rewrite (proj2 (Z.eqb_neq _ _)) by (cbn [length]; lia). cbn [deref mbind res_bind].
  rewrite (proj2 (Z.leb_le _ _)) by (rewrite length_app; lia). by rewrite Nat2Z.id, <- app_assoc, take_app_length.
Qed.

Lemma pdiff_app a b : pdiff (Some (a ++ b)) (Some b) = len_of a.
Proof. unfold pdiff. cbn [plen]. rewrite length_app. lia. Qed.

Lemma pdiff_sep a c b : pdiff (Some (a ++ c :: b)) (Some b) = len_of a + 1.
Proof. unfold pdiff. cbn [plen]. rewrite length_app. cbn [length]. lia. Qed.

Lemma word_app a c b : word (Some (a ++ c :: b)) (Some b) = Ok a.
Proof. unfold word. rewrite pdiff_sep, Z.add_simpl_r. apply string_at_app. Qed.

Lemma word_if_app a c b : word_if (Some (a ++ c :: b)) (Some b) = Ok a.
Proof. unfold word_if. rewrite pdiff_sep. rewrite (proj2 (Z.ltb_lt _ _)) by lia. apply word_app. Qed.

Lemma parse_until_found a c r : free_of c a = true -> parse_until (Some (a ++ c :: r)) c = Ok (Some r).
Proof. intros H. unfold parse_until. cbn. by rewrite after_found. Qed.

(** The search in the rest of a line. *)
Lemma contains_line l r c : c <> CR -> contains (Some (l ++ CRLF_ ++ r)) (Some r) c = Ok (existsb (Z.eqb c) l).
Proof.
  intros Hc. unfold contains. cbn [deref mbind res_bind]. rewrite app_assoc, pdiff_app, length_app. cbn [length CRLF_].
  rewrite (proj2 (Z.ltb_ge _ _)) by lia. replace (Z.to_nat _) with (length l + 1)%nat by lia.
  rewrite <- app_assoc, take_app_add. unfold CRLF_. cbn [app take].
  rewrite existsb_app. cbn [existsb]. rewrite (proj2 (Z.eqb_neq c CR)) by done. by rewrite !orb_false_r.
Qed.

(** The search up to a separator. *)
Lemma contains_word a c b x : contains (Some (a ++ c :: b)) (Some b) x = Ok (existsb (Z.eqb x) a).
Proof.
  unfold contains. cbn [deref mbind res_bind]. rewrite pdiff_sep. rewrite (proj2 (Z.ltb_ge _ _)) by lia.
  replace (Z.to_nat _) with (length a) by lia. by rewrite take_app_length.
Qed.

(** ** Numbers *)

Lemma int2str_loop_acc f n acc l : int2str_loop f n acc ++ l = int2str_loop f n (acc ++ l).
Proof.
  revert n acc. induction f as [|f IH]; intros n acc; [done|]. cbn [int2str_loop]. destruct (n / 10 =? 0); [done|]. apply IH.
Qed.

Lemma read_int n l x : 0 <= n <= UINT_MAX -> l = [] \/ hd 0 l = CR -> read_i (int2str n ++ l) x = n.
Proof.
  intros Hn Hl. unfold read_i, str2i, int2str. rewrite int2str_loop_acc, skip_sp_digits by lia.
  destruct (int2str_loop_read UINT_MAX 32 61 n) as (k & _ & _ & ->); [done|done| |].
  { assert (UINT_MAX < 10 ^ Z.of_nat 62) by done. lia. }
  destruct Hl as [->|Hl]; [done|]. destruct l as [|c l]; [done|]. cbn in Hl. by subst c.
Qed.

Lemma read_int_nil n x : 0 <= n <= UINT_MAX -> read_i (int2str n) x = n.
Proof. intros Hn. rewrite <- (app_nil_r (int2str n)). apply read_int; [done|by left]. Qed.

Lemma digits_clean l : forallb IS_DIGIT l = true -> clean l = true /\ forall c, ~ (48 <= c <= 57) -> free_of c l = true.
Proof.
  unfold free_of, clean. induction l as [|x l IH]; cbn [forallb existsb]; [done|]. intros [Hx%is_digit_range Hl]%andb_true_iff. destruct (IH Hl) as [H1 H2].
  split.
  - rewrite H1, andb_true_r. unfold clean_char, CR, LF. rewrite !andb_true_iff, !negb_true_iff, !Z.eqb_neq. lia.
  - intros c Hc. rewrite negb_orb, H2, andb_true_r, negb_true_iff, Z.eqb_neq by done. lia.
Qed.

Lemma int2str_clean n : 0 <= n <= UINT_MAX ->
  clean (int2str n) = true /\ int2str n <> [] /\ forall c, ~ (48 <= c <= 57) -> free_of c (int2str n) = true.
Proof. intros Hn. destruct (int2str_digits n Hn) as (Hne & Hd & _). destruct (digits_clean _ Hd). done. Qed.

(** [str2ulonglong] of what [ulonglong2str] printed. *)
Lemma ull_step d acc ret i : 0 <= d < 10 -> ret * 10 + d < 2 ^ 63 -> i + 1 <= 20 ->
  ull_loop ((48 + d) :: acc) ret i = ull_loop acc (ret * 10 + d) (i + 1).
Proof.
  intros Hd Hr Hi. cbn [ull_loop]. destruct (Z.eqb_spec (48 + d) 0); [lia|].
  assert (IS_DIGIT (48 + d) = true) as -> by (apply is_digit_range; lia).
  replace (48 + d - 48) with d by lia. change (2 ^ 63) with 9223372036854775808 in Hr.
  assert (ret <= (18446744073709551615 - d) / 10) by (apply Z.div_le_lower_bound; lia).
  destruct (Z.gtb_spec ret ((18446744073709551615 - d) / 10)); [lia|]. destruct (Z.gtb_spec (i + 1) 20); [lia|done].
Qed.

Lemma ull_read f n : 0 <= n < 2 ^ 63 -> n < 10 ^ Z.of_nat (S f) ->
  exists k, 1 <= k /\ 10 ^ (k - 1) <= Z.max 1 n /\
    forall acc, ull_loop (int2str_loop (S f) n acc) 0 0 = ull_loop acc n k.
Proof.
  revert n. induction f as [|f IH]; intros n Hn Hf.
  { exists 1. split; [lia|]. split; [lia|]. intros acc. cbn [int2str_loop].
    change (10 ^ Z.of_nat 1) with 10 in Hf. rewrite Z.div_small, Z.mod_small by lia. cbn [Z.eqb].
    rewrite ull_step by lia. f_equal; lia. }
  remember (S f) as f' eqn:Ef. cbn [int2str_loop]. pose proof (Z.mod_pos_bound n 10 ltac:(lia)) as Hd.
  pose proof (Z.div_mod n 10 ltac:(lia)) as Hdm.
  destruct (Z.eqb_spec (n / 10) 0) as [H0|H0].
  - exists 1. split; [lia|]. split; [lia|]. intros acc. rewrite ull_step by lia. f_equal. lia.
  - assert (0 <= n / 10) by (apply Z.div_pos; lia).
    destruct (IH (n / 10)) as (k & Hk1 & Hk & IH').
    { split; [lia|]. apply Z.le_lt_trans with n; [apply Z.div_le_upper_bound; lia|lia]. }
    { apply Z.div_lt_upper_bound; [lia|]. rewrite <- Z.pow_succ_r by lia.
      by replace (Z.succ (Z.of_nat f')) with (Z.of_nat (S f')) by lia. }
    assert (Hp : 10 ^ k <= n) by (replace k with (Z.succ (k - 1)) by lia; rewrite Z.pow_succ_r by lia; lia).
    assert (k < 20) by (apply (Z.pow_lt_mono_r_iff 10); [lia|lia|]; change (2 ^ 63) with 9223372036854775808 in Hn; lia).
    exists (k + 1). split; [lia|]. split; [by replace (k + 1 - 1) with k by lia; lia|].
    intros acc. rewrite IH', ull_step by lia. f_equal. lia.
Qed.

Lemma read_ull n : 0 <= n < 2 ^ 63 -> str2ulonglong (ulonglong2str n) = Some n.
Proof.
  intros Hn. unfold str2ulonglong, ulonglong2str. rewrite skip_sp_digits by lia.
  destruct (ull_read 61 n Hn) as (k & _ & _ & ->); [|done]. assert (2 ^ 63 < 10 ^ Z.of_nat 62) by done. lia.
Qed.

Lemma ull_digits n : 0 <= n < 2 ^ 63 ->
  clean (ulonglong2str n) = true /\ forall c, ~ (48 <= c <= 57) -> free_of c (ulonglong2str n) = true.
Proof.
  intros Hn. unfold ulonglong2str. destruct (int2str_loop_digits 61 n []) as (ds & -> & _ & Hd & _).
  { assert (2 ^ 63 < 10 ^ Z.of_nat 62) by done. lia. }
  rewrite app_nil_r. by apply digits_clean.
Qed.

(** ** Reading lines *)

Ltac lens := try unfold CRLF_; repeat (rewrite length_app || cbn [length app]); lia.

Section Reads.
Context (undefined : Z).

Definition reads (st : parse_st) (t : list Z) (st' : parse_st) (d d' : AmSdp) : Prop :=
  exists n, (n <= length t)%nat /\
    forall fuel r, sdp_loop undefined (n + fuel) st (Some (t ++ r)) d = sdp_loop undefined fuel st' (Some r) d'.

Lemma reads_nil st d : reads st [] st d d.
Proof. exists 0%nat. split; [cbn; lia|]. done. Qed.

Lemma reads_app st1 st2 st3 t1 t2 d1 d2 d3 : reads st1 t1 st2 d1 d2 -> reads st2 t2 st3 d2 d3 -> reads st1 (t1 ++ t2) st3 d1 d3.
Proof.
  intros (n1 & H1 & E1) (n2 & H2 & E2). exists (n1 + n2)%nat. rewrite length_app. split; [lia|]. intros fuel r.
  by rewrite <- Nat.add_assoc, <- app_assoc, E1, E2.
Qed.

(** One round. *)
Lemma reads_line st c l st' d d' : (forall r, sdp_step undefined st c (l ++ CRLF_ ++ r) d = Ok (st', Some r, d')) ->
  reads st (c :: l ++ CRLF_) st' d d'.
Proof.
  intros H. exists 1%nat. split; [cbn [length]; lia|]. intros fuel r. cbn [Nat.add app].
  rewrite <- app_assoc. cbn [sdp_loop deref mbind res_bind]. by rewrite H.
Qed.

(** The elements of a list, one after the other. *)
Lemma reads_list {A} (print : A -> list Z) (apply : A -> AmSdp -> AmSdp) st xs d :
  (forall x, x ∈ xs -> forall d, reads st (print x) st d (apply x d)) ->
  reads st (concat (map print xs)) st d (fold_left (fun d x => apply x d) xs d).
Proof.
  revert d. induction xs as [|x xs IH]; intros d H; cbn [map concat fold_left]; [apply reads_nil|].
  eapply reads_app; [apply H; left|]. apply IH. intros y Hy. apply H. by right.
Qed.

Lemma skip_line_clean t r : clean t = true -> skip_line (Some (t ++ CRLF_ ++ r)) = Ok (t, r).
Proof. intros H. unfold skip_line. cbn [deref mbind res_bind]. rewrite skip_clean by done. by rewrite string_at_app. Qed.

Lemma read_version n d : 0 <= n <= UINT_MAX -> reads SDP_DESCR (lit "v=" ++ int2str n ++ CRLF_) SDP_DESCR d (set_version n d).
Proof.
  intros Hn. destruct (int2str_clean n Hn) as (Hc & Hne & _). apply (reads_line SDP_DESCR 118 (61 :: int2str n)). intros r.
  cbn [app sdp_step is_eql_next Z.eqb Pos.eqb]. rewrite skip_line_clean by done. cbn [mbind res_bind].
  rewrite bool_decide_eq_false_2 by done. by rewrite read_int_nil.
Qed.

Lemma read_name t d : clean t = true -> reads SDP_DESCR (lit "s=" ++ t ++ CRLF_) SDP_DESCR d (set_name t d).
Proof.
  intros Hc. apply (reads_line SDP_DESCR 115 (61 :: t)). intros r.
  cbn [app sdp_step is_eql_next Z.eqb Pos.eqb]. by rewrite skip_line_clean.
Qed.

Lemma read_times d : reads SDP_DESCR (lit "t=0 0" ++ CRLF_) SDP_DESCR d d.
Proof.
  apply (reads_line SDP_DESCR 116 (lit "=0 0")). intros r.
  change (sdp_step _ _ _ _ _) with ('(_, next) ← skip_line (Some (lit "0 0" ++ CRLF_ ++ r)); Ok (SDP_DESCR, Some next, d)).
  by rewrite skip_line_clean.
Qed.

(** *** The origin *)

Lemma origin_field_found w t r o k : free_of 32 w = true -> (length r <= length t)%nat ->
  origin_field (Some r) (Some (w ++ 32 :: t)) o k = k (Some t) w.
Proof.
  intros Hw Hl. unfold origin_field. rewrite parse_until_found by done. cbn [mbind res_bind].
  rewrite (proj2 (Z.ltb_ge _ _)) by (cbn [plen]; lia). by rewrite word_app.
Qed.

Lemma origin_address_line a r o : clean a = true -> free_of 32 a = true ->
  origin_address (Some r) (Some (a ++ CRLF_ ++ r)) o =
    Ok (mk_origin (o_user o) (sessId o) (sessV o) (mk_conn (network (o_conn o)) (addrType (o_conn o)) a)).
Proof.
  intros Hc Ha. unfold origin_address, parse_until. cbn [deref mbind res_bind].
  pose proof (sdp_after_line 32 a r Ha ltac:(done) ltac:(done)) as Hafter. rewrite (proj2 (Z.eqb_neq _ _)).
  - rewrite (proj2 (Z.ltb_lt _ _)) by done. rewrite skip_clean by done. cbn [snd]. by rewrite string_at_app.
  - unfold pdiff. cbn [plen]. rewrite !length_app. cbn [plen] in Hafter. lia.
Qed.

Lemma origin_type_text t : t = AT_V4 \/ t = AT_V6 -> origin_type (addr_t_2_str t) = t.
Proof. by intros [->| ->]. Qed.

Lemma addr_text_free t c : t = AT_V4 \/ t = AT_V6 -> ~ (48 <= c <= 57) -> c <> 73 -> c <> 80 -> free_of c (addr_t_2_str t) = true.
Proof.
  intros Ht H1 H2 H3. unfold free_of. destruct Ht as [->| ->]; cbn [addr_t_2_str lit list_ascii_of_string map existsb];
    rewrite !negb_orb, !andb_true_iff, !negb_true_iff, !Z.eqb_neq; cbn; lia.
Qed.

Lemma read_origin user id ver t a d : clean user = true -> free_of 32 user = true -> 0 <= id <= UINT_MAX -> 0 <= ver < 2 ^ 63 ->
  t = AT_V4 \/ t = AT_V6 -> clean a = true -> free_of 32 a = true ->
  reads SDP_DESCR (lit "o=" ++ user ++ lit " " ++ int2str id ++ lit " " ++ ulonglong2str ver ++ lit " IN " ++ (addr_t_2_str t ++ lit " " ++ a) ++ CRLF_)
    SDP_DESCR d (set_origin (mk_origin user id ver (mk_conn NT_IN t a)) d).
Proof.
  intros Hu Hu2 Hid Hver Ht Ha Ha2. destruct (int2str_clean id Hid) as (Hidc & _ & Hids). destruct (ull_digits ver Hver) as (Hvc & Hvs).
  set (line := user ++ 32 :: int2str id ++ 32 :: ulonglong2str ver ++ 32 :: lit "IN" ++ 32 :: addr_t_2_str t ++ 32 :: a).
  assert (Hline : clean line = true).
  { unfold line. assert (clean (addr_t_2_str t) = true) by (by destruct Ht as [->| ->]).
    rewrite clean_app. cbn [clean forallb]. fold clean. rewrite !clean_app. unfold clean in *. cbn [forallb]. rewrite !forallb_app. cbn [forallb].
    rewrite !forallb_app. cbn [forallb]. rewrite ?forallb_app. cbn [forallb]. rewrite !andb_true_iff. repeat split; done. }
  replace (lit "o=" ++ _) with (111 :: (61 :: line) ++ CRLF_) by (unfold line; cbn [lit list_ascii_of_string map app]; rewrite <- !app_assoc; cbn [app]; rewrite <- !app_assoc; cbn [app]; rewrite <- ?app_assoc; cbn [app]; rewrite <- ?app_assoc; done).
  apply reads_line. intros r. cbn [app sdp_step is_eql_next Z.eqb Pos.eqb]. unfold parse_origin. cbn [deref mbind res_bind].
  rewrite skip_clean, next_clean by done. cbn [fst]. unfold line.
  do 5 (rewrite <- app_assoc; cbn [app]; rewrite origin_field_found; [|first [done|apply Hids; lia|apply Hvs; lia|apply addr_text_free; [done|lia..]]|lens]).
  cbn [o_user sessId sessV o_conn network addrType]. rewrite origin_address_line by done. cbn [mbind res_bind o_user sessId sessV o_conn network addrType].
  by rewrite read_int_nil, read_ull, origin_type_text.
Qed.

(** *** Connections *)

Lemma step_c l d : sdp_step undefined SDP_DESCR 99 (61 :: l) d =
  ('(x, next) ← parse_connection (Some l); Ok (SDP_DESCR, Some next, match x with Some x => set_conn x d | None => d end)).
Proof. done. Qed.

Lemma parse_connection_line t a r : t = AT_V4 \/ t = AT_V6 -> a <> [] -> clean a = true -> free_of 47 a = true ->
  parse_connection (Some (lit "IN " ++ addr_t_2_str t ++ lit " " ++ a ++ CRLF_ ++ r)) = Ok (Some (mk_conn NT_IN t a), r).
Proof.
  intros Ht Hne Ha Hs. set (pre := lit "IN " ++ addr_t_2_str t ++ lit " ").
  replace (lit "IN " ++ _) with ((pre ++ a) ++ CRLF_ ++ r) by (unfold pre; by rewrite <- !app_assoc).
  assert (Hpre : clean pre = true /\ length pre = 7%nat) by (unfold pre; by destruct Ht as [->| ->]). destruct Hpre as [Hp Hl].
  unfold parse_connection. cbn [deref mbind res_bind]. rewrite skip_clean by (rewrite clean_app, Hp; done).
  assert (1 <= len_of a) by (destruct a; [done|cbn [length]; lia]).
  rewrite (proj2 (Z.leb_gt _ _)) by (rewrite length_app; lia).
  assert (E3 : string_at (Some (drop 3 ((pre ++ a) ++ CRLF_ ++ r))) 3 = Ok (addr_t_2_str t)).
  { rewrite <- app_assoc. unfold pre. destruct Ht as [->| ->].
    - exact (string_at_app (addr_t_2_str AT_V4) (lit " " ++ a ++ CRLF_ ++ r)).
    - exact (string_at_app (addr_t_2_str AT_V6) (lit " " ++ a ++ CRLF_ ++ r)). }
  rewrite E3. cbn [mbind res_bind].
  assert (E7 : drop 7 ((pre ++ a) ++ CRLF_ ++ r) = a ++ CRLF_ ++ r) by (rewrite <- app_assoc, <- Hl; apply drop_app_length).
  rewrite E7, contains_line, (existsb_free 47) by done. cbn [mbind res_bind].
  replace (len_of (pre ++ a) - 7) with (len_of a) by (rewrite length_app; lia). rewrite string_at_app.
  by destruct Ht as [->| ->].
Qed.

Lemma read_connection t a d : t = AT_V4 \/ t = AT_V6 -> a <> [] -> clean a = true -> free_of 47 a = true ->
  reads SDP_DESCR (lit "c=IN " ++ (addr_t_2_str t ++ lit " " ++ a) ++ CRLF_) SDP_DESCR d (set_conn (mk_conn NT_IN t a) d).
Proof.
  intros Ht Hne Ha Hs.
  replace (lit "c=IN " ++ _) with (99 :: (61 :: lit "IN " ++ addr_t_2_str t ++ lit " " ++ a) ++ CRLF_)
    by (cbn [app]; rewrite <- !app_assoc; done).
  apply reads_line. intros r. cbn [app]. rewrite step_c, <- !app_assoc, parse_connection_line by done. done.
Qed.

(** *** Session attributes *)

Lemma after_within_found n c a r : free_of c a = true -> (length a < n)%nat -> after_within n c (a ++ c :: r) = Some r.
Proof.
  revert n. induction a as [|x a IH]; intros [|n] Ha Hn; cbn [length] in Hn; try lia.
  - cbn. by rewrite Z.eqb_refl.
  - unfold free_of in Ha. cbn [existsb] in Ha. rewrite negb_orb, andb_true_iff, negb_true_iff in Ha. destruct Ha as [Hx Ha].
    cbn [app after_within]. rewrite Z.eqb_sym, Hx. apply IH; [done|lia].
Qed.

Lemma after_within_none n c a r : free_of c a = true -> (n <= length a)%nat -> after_within n c (a ++ r) = Some (drop n (a ++ r)).
Proof.
  revert n. induction a as [|x a IH]; intros [|n] Ha Hn; cbn [length] in Hn; try done; try lia.
  unfold free_of in Ha. cbn [existsb] in Ha. rewrite negb_orb, andb_true_iff, negb_true_iff in Ha. destruct Ha as [Hx Ha].
  cbn [app after_within drop]. rewrite Z.eqb_sym, Hx. apply IH; [done|lia].
Qed.

Lemma clean_last l c : clean (l ++ [c]) = true -> clean_char c = true.
Proof. rewrite clean_app. unfold clean. cbn [forallb]. rewrite !andb_true_iff. tauto. Qed.

Lemma clean_char_eol c : clean_char c = true -> (c =? LF) || (c =? CR) = false.
Proof. unfold clean_char. rewrite !andb_true_iff, !negb_true_iff. by intros [[_ ->] ->]. Qed.

(** Line and line end, seen from the end. *)
Lemma line_chars l c r : ((l ++ [c]) ++ CRLF_ ++ r) !! (length l + 2)%nat = Some LF /\
  ((l ++ [c]) ++ CRLF_ ++ r) !! (length l + 1)%nat = Some CR /\ ((l ++ [c]) ++ CRLF_ ++ r) !! length l = Some c.
Proof.
  split_and!.
  - rewrite lookup_app_r, length_app by (rewrite length_app; cbn; lia). cbn [length]. by replace (_ + 2 - _)%nat with 1%nat by lia.
  - rewrite lookup_app_r, length_app by (rewrite length_app; cbn; lia). cbn [length]. by replace (_ + 1 - _)%nat with 0%nat by lia.
  - rewrite <- app_assoc, lookup_app_r by lia. by rewrite Nat.sub_diag.
Qed.

Lemma trim_attr_line l c r : clean (l ++ [c]) = true ->
  trim_attr (length l + 3) ((l ++ [c]) ++ CRLF_ ++ r) = len_of l.
Proof.
  intros Hc. destruct (line_chars l c r) as (E2 & E1 & E0).
  replace (length l + 3)%nat with (S (S (S (length l)))) by lia. cbn [trim_attr].
  replace (S (S (length l))) with (length l + 2)%nat by lia. rewrite E2. cbn [Z.eqb orb].
  replace (S (length l)) with (length l + 1)%nat by lia. rewrite E1. cbn [Z.eqb orb]. rewrite E0.
  change (LF =? LF) with true. change (CR =? LF) with false. change (CR =? CR) with true. cbn [orb].
  by rewrite clean_char_eol by (by eapply clean_last).
Qed.

Lemma parse_property_attr prev name r : name <> [] -> clean name = true -> free_of 58 name = true ->
  parse_session_attr prev (Some (name ++ CRLF_ ++ r)) = Ok (Some (mk_attr name []), r).
Proof.
  intros Hne Hc Hf. destruct (exists_last Hne) as (l & c & ->). unfold parse_session_attr. cbn [deref mbind res_bind].
  rewrite skip_clean by done. cbn [fst]. rewrite bool_decide_eq_false_2 by (by destruct l).
  replace (length _ - length r)%nat with (length l + 3)%nat by lens. rewrite trim_attr_line by done.
  rewrite (proj2 (Z.ltb_ge _ _)) by lia. rewrite Nat2Z.id. destruct (line_chars l c r) as (_ & _ & ->). cbn [default from_option id].
  pose proof Hf as Hf2. rewrite free_of_app, andb_true_iff in Hf. destruct Hf as [Hfl Hfc].
  unfold free_of in Hfc. cbn [existsb] in Hfc. rewrite orb_false_r, negb_true_iff, Z.eqb_sym in Hfc. unfold id. rewrite Hfc.
  rewrite (after_within_none _ 58 (l ++ [c])) by (done || (rewrite length_app; lia)).
  rewrite <- app_assoc at 2. rewrite drop_app_length. replace (pdiff _ _) with (len_of l) by (unfold pdiff; cbn [plen]; lens).
  rewrite Z.eqb_refl. replace (len_of l + 1) with (len_of (l ++ [c])) by lens. by rewrite string_at_app.
Qed.

Lemma parse_value_attr prev name value r : clean name = true -> free_of 58 name = true -> clean value = true ->
  (2 <= length value)%nat -> last value <> Some 58 ->
  parse_session_attr prev (Some (name ++ 58 :: value ++ CRLF_ ++ r)) = Ok (Some (mk_attr name value), r).
Proof.
  intros Hc Hf Hv Hl Hlast. assert (Hne : value <> []) by (by intros ->; cbn in Hl; lia).
  destruct (exists_last Hne) as (v & c & ->). set (l := name ++ 58 :: v).
  replace (name ++ 58 :: (v ++ [c]) ++ CRLF_ ++ r) with ((l ++ [c]) ++ CRLF_ ++ r) by (unfold l; rewrite <- !app_assoc; done).
  assert (Hcl : clean (l ++ [c]) = true).
  { unfold l. rewrite <- app_assoc. cbn [app]. rewrite clean_app, Hc. unfold clean in *. cbn [forallb]. by rewrite Hv. }
  unfold parse_session_attr. cbn [deref mbind res_bind]. rewrite skip_clean by done. cbn [fst].
  rewrite bool_decide_eq_false_2 by (by destruct l).
  replace (length _ - length r)%nat with (length l + 3)%nat by lens. rewrite trim_attr_line by done.
  rewrite (proj2 (Z.ltb_ge _ _)) by lia. rewrite Nat2Z.id. destruct (line_chars l c r) as (_ & _ & ->). cbn [default from_option id].
  rewrite last_snoc in Hlast. unfold id. rewrite (proj2 (Z.eqb_neq c 58)) by congruence.
  assert (Hlen : (length name < length l)%nat) by (unfold l; lens). rewrite length_app in Hl. cbn [length] in Hl.
  replace ((l ++ [c]) ++ CRLF_ ++ r) with (name ++ 58 :: ((v ++ [c]) ++ CRLF_ ++ r)) by (unfold l; rewrite <- !app_assoc; done).
  rewrite after_within_found by done. rewrite pdiff_sep, (proj2 (Z.eqb_neq _ _)) by (unfold l; lens).
  rewrite Z.add_simpl_r, string_at_app. cbn [mbind res_bind].
  replace (len_of l - _ + 1) with (len_of (v ++ [c])) by (unfold l; lens). by rewrite string_at_app.
Qed.

Definition good_session_attr (a : SdpAttribute) : bool :=
  negb (bool_decide (attribute a = [])) && clean (attribute a) && free_of 58 (attribute a) && clean (a_value a) &&
  (bool_decide (a_value a = []) || Nat.leb 2 (length (a_value a)) && negb (bool_decide (last (a_value a) = Some 58))).

Lemma step_a l d : sdp_step undefined SDP_DESCR 97 (61 :: l) d =
  ('(a, next) ← parse_session_attr 61 (Some l); Ok (SDP_DESCR, Some next, set_attrs (s_attributes d ++ option_list a) d)).
Proof. done. Qed.

Lemma read_session_attr a d : good_session_attr a = true ->
  reads SDP_DESCR (print_attr a) SDP_DESCR d (set_attrs (s_attributes d ++ [a]) d).
Proof.
  unfold good_session_attr. rewrite !andb_true_iff, negb_true_iff, bool_decide_eq_false. intros [[[[Hne Hc] Hf] Hv] Hval].
  destruct a as [name value]. cbn [attribute a_value] in *. unfold print_attr. cbn [attribute a_value]. case_bool_decide as E.
  - subst value. apply (reads_line SDP_DESCR 97 (61 :: name)). intros r. cbn [app]. rewrite step_a, parse_property_attr by done. done.
  - apply orb_true_iff in Hval as [Hval|[Hl%Nat.leb_le Hval]%andb_true_iff]; [done|].
    apply negb_true_iff, bool_decide_eq_false in Hval.
    replace (lit "a=" ++ _) with (97 :: (61 :: name ++ 58 :: value) ++ CRLF_) by (cbn [app]; rewrite <- !app_assoc; done).
    apply reads_line. intros r. cbn [app]. rewrite <- app_assoc. cbn [app]. rewrite step_a, parse_value_attr by done. done.
Qed.

(** *** The media line *)

(** Numbers separated by spaces. *)
Fixpoint join_pts (p : Z) (ps : list Z) : list Z :=
  match ps with [] => int2str p | q :: ps => int2str p ++ 32 :: join_pts q ps end.

Definition is_pt (p : Z) : Prop := 0 <= p <= INT_MAX.

Definition plain_payload (t : MediaType) (p : Z) : SdpPayload := mk_payload t p [] (-1) [] [] (-1).

Lemma pt_uint p : is_pt p -> 0 <= p <= UINT_MAX.
Proof. unfold is_pt, INT_MAX, UINT_MAX. lia. Qed.

Lemma to_int_pt p : is_pt p -> to_int p = p.
Proof. unfold is_pt, INT_MAX, to_int. intros H. rewrite (proj2 (Z.ltb_lt _ _)) by lia. done. Qed.

Lemma int2str_signed_pt p : is_pt p -> int2str_signed p = int2str p.
Proof. unfold is_pt. intros H. unfold int2str_signed. rewrite (proj2 (Z.ltb_ge _ _)), Z.abs_eq by lia. done. Qed.

Lemma join_pts_clean p ps : Forall is_pt (p :: ps) -> clean (join_pts p ps) = true.
Proof.
  revert p. induction ps as [|q ps IH]; intros p H; inversion_clear H as [|? ? Hp Hps]; cbn [join_pts].
  - by apply int2str_clean, pt_uint.
  - rewrite clean_app. destruct (int2str_clean p (pt_uint _ Hp)) as (-> & _). unfold clean in *. cbn [forallb]. by rewrite IH.
Qed.

Lemma string_end a b r : string_at (Some (a ++ b ++ r)) (len_of (a ++ b)) = Ok (a ++ b).
Proof. rewrite app_assoc. apply string_at_app. Qed.

(** The last word of a line, up to its line end: with it when nothing follows. *)
Lemma last_word a r : exists l, hd 0 l = CR /\
  string_at (Some (a ++ CRLF_ ++ r)) (pdiff (Some (a ++ CRLF_ ++ r)) (Some r) - (if plen (Some r) =? 0 then 0 else 1)) = Ok (a ++ l).
Proof.
  rewrite (app_assoc a), pdiff_app. destruct (plen (Some r) =? 0).
  - exists CRLF_. split; [done|]. rewrite Z.sub_0_r. apply string_at_app.
  - exists [CR]. split; [done|]. replace (len_of (a ++ CRLF_) - 1) with (len_of (a ++ [CR])) by lens.
    replace ((a ++ CRLF_) ++ r) with ((a ++ [CR]) ++ LF :: r) by (rewrite <- !app_assoc; done). apply string_at_app.
Qed.

Lemma fmt_loop_line t r p ps : forall fuel pt pls, Forall is_pt (p :: ps) -> (length ps < fuel)%nat ->
  fmt_loop fuel t (Some r) (Some (join_pts p ps ++ CRLF_ ++ r)) pt pls = Ok (pls ++ map (plain_payload t) (p :: ps)).
Proof.
  revert p. induction ps as [|q ps IH]; intros p [|fuel] pt pls Hp Hf; cbn [length] in Hf; try lia;
    inversion_clear Hp as [|? ? Hp1 Hps]; destruct (int2str_clean p (pt_uint _ Hp1)) as (Hc & Hne & Hfree); cbn [join_pts fmt_loop].
  - rewrite contains_line by done. rewrite (existsb_free 32) by (apply Hfree; lia). cbn [mbind res_bind].
    rewrite (proj2 (Z.ltb_lt _ _)) by (rewrite app_assoc, pdiff_app; lens).
    destruct (last_word (int2str p) r) as (l & Hl & ->). cbn [mbind res_bind].
    rewrite bool_decide_eq_false_2 by (by destruct (int2str p)). cbn [snd map].
    rewrite read_int by first [by apply pt_uint|by right]. by rewrite to_int_pt.
  - rewrite contains_line by done. rewrite existsb_app. cbn [existsb]. rewrite Z.eqb_refl, orb_true_r. cbn [mbind res_bind].
    rewrite <- app_assoc. cbn [app]. rewrite parse_until_found by (apply Hfree; lia). cbn [mbind res_bind]. rewrite word_if_app.
    cbn [mbind res_bind]. rewrite bool_decide_eq_false_2 by done. rewrite read_int_nil by (by apply pt_uint).
    rewrite to_int_pt by done. rewrite IH by (done || lia). rewrite <- app_assoc. done.
Qed.

Lemma media_port_line n r : 0 <= n <= UINT_MAX -> media_port (Some (int2str n ++ 32 :: r)) = Ok (n, 0, Some r).
Proof.
  intros Hn. destruct (int2str_clean n Hn) as (_ & _ & Hf). unfold media_port. rewrite parse_until_found by (apply Hf; lia).
  cbn [mbind res_bind]. rewrite contains_word, (existsb_free 47) by (apply Hf; lia). cbn [mbind res_bind].
  rewrite word_if_app. cbn [mbind res_bind]. by rewrite read_int_nil.
Qed.

Lemma trim_fmt_line f c r : clean (f ++ [c]) = true -> f <> [] ->
  trim_fmt (length f + 2) ((f ++ [c]) ++ CRLF_ ++ r) = length f.
Proof.
  intros Hc Hne. destruct (line_chars f c r) as (E2 & E1 & E0).
  replace (length f + 2)%nat with (S (S (length f))) in * by lia. cbn [trim_fmt]. rewrite E2.
  replace (length f + 1)%nat with (S (length f)) in * by lia. rewrite E1.
  change (LF =? CR) with false. change (LF =? LF) with true. change (CR =? CR) with true. cbn [orb].
  destruct (length f) as [|n] eqn:El; [by destruct f|]. cbn [trim_fmt]. rewrite E0.
  rewrite orb_comm, clean_char_eol by (by eapply clean_last). done.
Qed.

Lemma other_fmt_line fmt r : clean fmt = true -> (2 <= length fmt)%nat -> other_fmt (Some r) (Some (fmt ++ CRLF_ ++ r)) = Ok fmt.
Proof.
  intros Hc Hl. assert (Hne : fmt <> []) by (by intros ->; cbn in Hl; lia). destruct (exists_last Hne) as (f & c & ->).
  rewrite length_app in Hl. cbn [length] in Hl. unfold other_fmt.
  replace (pdiff _ _ - 1) with (len_of f + 2) by (rewrite app_assoc, pdiff_app; lens).
  rewrite (proj2 (Z.leb_gt _ _)) by lia. cbn [deref mbind res_bind]. replace (Z.to_nat _) with (length f + 2)%nat by lia.
  rewrite trim_fmt_line by (try done; by intros ->; cbn in Hl; lia).
  rewrite (proj2 (Nat.eqb_neq _ _)) by lia. replace (len_of f + 1) with (len_of (f ++ [c])) by lens. apply string_at_app.
Qed.

Lemma media_type_text t : t <> MT_NONE -> media_type (media_t_2_str t) = t /\ free_of 32 (media_t_2_str t) = true /\ clean (media_t_2_str t) = true.
Proof. by destruct t. Qed.

Lemma transport_text t : t <> TP_NONE ->
  transport_type (transport_p_2_str t) = t /\ free_of 32 (transport_p_2_str t) = true /\ clean (transport_p_2_str t) = true.
Proof. by destruct t. Qed.

(** The formats of a media line as they are printed. *)
Definition fmt_text (m : SdpMedia) : list Z :=
  if is_rtp (transport m) then concat (map (fun p => lit " " ++ int2str_signed (payload_type p)) (payloads m)) else lit " " ++ m_fmt m.

Definition good_fmt (m : SdpMedia) : Prop :=
  if is_rtp (transport m) then payloads m <> [] /\ Forall is_pt (map payload_type (payloads m))
  else clean (m_fmt m) = true /\ (2 <= length (m_fmt m))%nat.

Definition line_media (m : SdpMedia) : SdpMedia :=
  if is_rtp (transport m)
  then mk_media (m_type m) (m_port m) 0 (transport m) conn0 DirBoth [] true true (map (plain_payload (m_type m)) (map payload_type (payloads m))) []
  else mk_media (m_type m) (m_port m) 0 (transport m) conn0 DirBoth (m_fmt m) true true [] [].

Lemma fmt_text_join p pls : Forall is_pt (map payload_type (p :: pls)) ->
  concat (map (fun p => lit " " ++ int2str_signed (payload_type p)) (p :: pls)) = 32 :: join_pts (payload_type p) (map payload_type pls).
Proof.
  revert p. induction pls as [|q pls IH]; intros p H; cbn [map] in *; inversion_clear H as [|? ? Hp Hps].
  - cbn [concat join_pts]. rewrite int2str_signed_pt, app_nil_r by done. done.
  - cbn [concat join_pts]. rewrite int2str_signed_pt by done. cbn [map concat] in IH. rewrite IH by done. by rewrite <- app_assoc.
Qed.

Lemma parse_media_line m r : m_type m <> MT_NONE -> transport m <> TP_NONE -> 0 <= m_port m <= UINT_MAX -> good_fmt m ->
  let line := media_t_2_str (m_type m) ++ 32 :: int2str (m_port m) ++ 32 :: transport_p_2_str (transport m) ++ fmt_text m in
  clean line = true /\ parse_media undefined (Some (line ++ CRLF_ ++ r)) = Ok (line_media m).
Proof.
  intros Ht Htp Hp Hfmt. cbn zeta. set (line := media_t_2_str _ ++ _).
  destruct (media_type_text _ Ht) as (Et & Hts & Htc). destruct (transport_text _ Htp) as (Etp & Htps & Htpc).
  destruct (int2str_clean _ Hp) as (Hpc & _ & Hpf).
  assert (Hft : exists f, fmt_text m = 32 :: f /\ clean f = true /\ if is_rtp (transport m)
    then fmt_loop (S (length (line ++ CRLF_ ++ r))) (m_type m) (Some r) (Some (f ++ CRLF_ ++ r)) undefined [] = Ok (map (plain_payload (m_type m)) (map payload_type (payloads m)))
    else other_fmt (Some r) (Some (f ++ CRLF_ ++ r)) = Ok (m_fmt m)).
  { unfold fmt_text, good_fmt in *. destruct (is_rtp _) eqn:Er.
    - destruct Hfmt as [Hne Hpt]. destruct (payloads m) as [|p pls] eqn:Epl; [done|]. rewrite fmt_text_join by done.
      exists (join_pts (payload_type p) (map payload_type pls)). split; [done|]. split; [by apply join_pts_clean|].
      assert (Hlj : forall q qs, (length qs <= length (join_pts q qs))%nat).
      { intros q qs. revert q. induction qs as [|q2 qs IH]; intros q; cbn [join_pts length]; [lia|]. rewrite length_app. cbn [length]. specialize (IH q2). lia. }
      rewrite fmt_loop_line; [done|done|]. specialize (Hlj (payload_type p) (map payload_type pls)). unfold line. rewrite ?Epl, fmt_text_join by done. lens.
    - destruct Hfmt as [Hc Hl]. exists (m_fmt m). split; [done|]. split; [done|]. by apply other_fmt_line. }
  destruct Hft as (f & Ef & Hfc & Hf). assert (Hclean : clean line = true).
  { unfold line. rewrite Ef. rewrite clean_app, Htc. unfold clean in *. cbn [forallb]. rewrite forallb_app, Hpc. cbn [forallb]. rewrite forallb_app, Htpc. cbn [forallb]. by rewrite Hfc. }
  split; [done|]. unfold parse_media. cbn [deref mbind res_bind]. rewrite next_clean by done.
  revert Hf. unfold line. rewrite Ef. rewrite <- !app_assoc. cbn [app]. rewrite <- !app_assoc. cbn [app]. rewrite <- !app_assoc. cbn [app]. intros Hf.
  rewrite parse_until_found by done. cbn [mbind res_bind]. rewrite word_if_app. cbn [mbind res_bind].
  rewrite media_port_line by done. cbn [mbind res_bind]. rewrite parse_until_found by done. cbn [mbind res_bind]. rewrite word_if_app. cbn [mbind res_bind].
  rewrite Et, Etp. unfold line_media. destruct (is_rtp _); rewrite Hf; done.
Qed.

Lemma step_m l d : sdp_step undefined SDP_MEDIA 109 (61 :: l) d =
  (m ← parse_media undefined (Some l); '(_, next) ← skip_line (Some l); Ok (SDP_MEDIA, Some next, set_media (media d ++ [m]) d)).
Proof. done. Qed.

Definition media_line (m : SdpMedia) : list Z :=
  lit "m=" ++ media_t_2_str (m_type m) ++ lit " " ++ int2str (m_port m) ++ lit " " ++ transport_p_2_str (transport m) ++ fmt_text m ++ CRLF_.

Lemma read_media_line st m d : m_type m <> MT_NONE -> transport m <> TP_NONE -> 0 <= m_port m <= UINT_MAX -> good_fmt m ->
  reads st (media_line m) SDP_MEDIA d (set_media (media d ++ [line_media m]) d).
Proof.
  intros Ht Htp Hp Hf. set (line := media_t_2_str (m_type m) ++ 32 :: int2str (m_port m) ++ 32 :: transport_p_2_str (transport m) ++ fmt_text m).
  replace (media_line m) with (109 :: (61 :: line) ++ CRLF_)
    by (unfold media_line, line; cbn [app]; rewrite <- !app_assoc; cbn [app]; rewrite <- !app_assoc; cbn [app]; rewrite <- !app_assoc; done).
  assert (Hread : forall r, sdp_step undefined SDP_MEDIA 109 ((61 :: line) ++ CRLF_ ++ r) d = Ok (SDP_MEDIA, Some r, set_media (media d ++ [line_media m]) d)).
  { intros r. cbn [app]. rewrite step_m. destruct (parse_media_line m r Ht Htp Hp Hf) as [Hc E]. fold line in Hc, E. rewrite E. cbn [mbind res_bind].
    by rewrite skip_line_clean. }
  destruct st; [|by apply reads_line].
  exists 2%nat. split; [cbn [length app]; rewrite length_app; cbn [length]; lia|]. intros fuel r. cbn [Nat.add app sdp_loop deref mbind res_bind].
  change (sdp_step undefined SDP_DESCR 109 ?l d) with (Ok (SDP_MEDIA, Some (109 :: l), d) : res (parse_st * ptr * AmSdp)).
  cbn [mbind res_bind sdp_loop deref]. specialize (Hread r). cbn [app] in Hread. rewrite <- app_assoc, Hread. done.
Qed.

(** *** Lines of a media description *)

(** A text that changes the last media description. *)
Definition reads_m (t : list Z) (m m' : SdpMedia) : Prop :=
  forall d ms, reads SDP_MEDIA t SDP_MEDIA (set_media (ms ++ [m]) d) (set_media (ms ++ [m']) d).

Lemma reads_m_nil m : reads_m [] m m.
Proof. intros d ms. apply reads_nil. Qed.

Lemma reads_m_app t1 t2 m1 m2 m3 : reads_m t1 m1 m2 -> reads_m t2 m2 m3 -> reads_m (t1 ++ t2) m1 m3.
Proof. intros H1 H2 d ms. eapply reads_app; [apply H1|apply H2]. Qed.

Lemma change_last_set f ms m d : change_last f (set_media (ms ++ [m]) d) = (m' ← f m; Ok (set_media (ms ++ [m']) d)).
Proof. unfold change_last. cbn [media set_media]. by rewrite last_snoc, removelast_last. Qed.

Lemma step_mc l d : sdp_step undefined SDP_MEDIA 99 (61 :: l) d =
  ('(x, next) ← parse_connection (Some l);
   d ← match x with Some x => change_last (fun m => Ok (m_set_conn x m)) d | None => Ok d end;
   Ok (SDP_MEDIA, Some next, d)).
Proof. done. Qed.

Lemma step_ma l d : sdp_step undefined SDP_MEDIA 97 (61 :: l) d =
  ('(d, next) ← parse_sdp_attr d (Some l); Ok (SDP_MEDIA, next, d)).
Proof. done. Qed.

Lemma read_media_conn t a m : t = AT_V4 \/ t = AT_V6 -> a <> [] -> clean a = true -> free_of 47 a = true ->
  reads_m (lit "c=IN " ++ addr_t_2_str t ++ lit " " ++ a ++ CRLF_) m (m_set_conn (mk_conn NT_IN t a) m).
Proof.
  intros Ht Hne Ha Hs d ms.
  replace (lit "c=IN " ++ _) with (99 :: (61 :: lit "IN " ++ addr_t_2_str t ++ lit " " ++ a) ++ CRLF_)
    by (cbn [app]; rewrite <- !app_assoc; done).
  apply reads_line. intros r. cbn [app]. rewrite step_mc, <- !app_assoc, parse_connection_line by done. cbn [mbind res_bind].
  by rewrite change_last_set.
Qed.

(** An attribute without and with a value. *)
Lemma reads_attr name m m' : clean name = true -> free_of 58 name = true ->
  (forall r, media_attr name (Some (name ++ CRLF_ ++ r)) (Some r) None m = Ok m') ->
  reads_m (lit "a=" ++ name ++ CRLF_) m m'.
Proof.
  intros Hc Hf H d ms. apply (reads_line SDP_MEDIA 97 (61 :: name)). intros r. cbn [app]. rewrite step_ma. unfold parse_sdp_attr.
  rewrite bool_decide_eq_false_2 by (by destruct ms). cbn [deref mbind res_bind]. rewrite skip_clean by done.
  rewrite contains_line, (existsb_free 58) by done. cbn [mbind res_bind]. rewrite string_at_app. cbn [mbind res_bind].
  by rewrite change_last_set, H.
Qed.

Lemma reads_attr_value name value m m' : clean name = true -> free_of 58 name = true -> clean value = true ->
  (forall r, media_attr name (Some (name ++ 58 :: value ++ CRLF_ ++ r)) (Some r) (Some (Some (value ++ CRLF_ ++ r))) m = Ok m') ->
  reads_m (lit "a=" ++ name ++ lit ":" ++ value ++ CRLF_) m m'.
Proof.
  intros Hc Hf Hv H d ms. replace (lit "a=" ++ _) with (97 :: (61 :: name ++ 58 :: value) ++ CRLF_) by (cbn [app]; rewrite <- !app_assoc; done).
  apply reads_line. intros r. cbn [app]. rewrite step_ma. unfold parse_sdp_attr.
  rewrite bool_decide_eq_false_2 by (by destruct ms). cbn [deref mbind res_bind].
  assert (Hcl : clean (name ++ 58 :: value) = true) by (rewrite clean_app, Hc; unfold clean in *; cbn [forallb]; by rewrite Hv).
  rewrite skip_clean by done. rewrite contains_line, existsb_app by done. cbn [existsb]. rewrite Z.eqb_refl, orb_true_r. cbn [mbind res_bind].
  rewrite <- app_assoc. cbn [app]. rewrite parse_until_found by done. cbn [mbind res_bind]. rewrite word_app. cbn [mbind res_bind].
  by rewrite change_last_set, H.
Qed.

Definition special_attrs : list (list Z) :=
  [lit "rtpmap"; lit "fmtp"; lit "direction"; lit "sendrecv"; lit "sendonly"; lit "recvonly"; lit "inactive"].

Definition good_media_attr (a : SdpAttribute) : bool :=
  clean (attribute a) && free_of 58 (attribute a) && clean (a_value a) && negb (bool_decide (attribute a ∈ special_attrs)).

Lemma read_media_attr a m : good_media_attr a = true -> reads_m (print_attr a) m (m_set_attrs (m_attributes m ++ [a]) m).
Proof.
  unfold good_media_attr. rewrite !andb_true_iff, negb_true_iff, bool_decide_eq_false. intros [[[Hc Hf] Hv] Hs].
  destruct a as [name value]. cbn [attribute a_value] in *.
  assert (Hother : forall s, s ∈ special_attrs -> bool_decide (name = s) = false) by (intros s Hin; apply bool_decide_eq_false; congruence).
  unfold print_attr. cbn [attribute a_value].
  assert (Hm : forall s le al v, (match al with Some p => l ← deref p; string_at p (skip_till_next_line l).2 | None => Ok [] end) = Ok v ->
    media_attr name s le al m = Ok (m_set_attrs (m_attributes m ++ [mk_attr name v]) m)).
  { intros s le al v E. unfold media_attr, is_text. rewrite !Hother by (repeat first [by left|right]). rewrite E. done. }
  case_bool_decide as E.
  - subst value. apply reads_attr; [done|done|]. intros r. by apply Hm.
  - apply reads_attr_value; [done..|]. intros r. apply Hm. cbn [deref mbind res_bind]. rewrite skip_clean by done. apply string_at_app.
Qed.

Definition sendrecv_line (s r : bool) : list Z :=
  (if s then if r then lit "a=sendrecv" else lit "a=sendonly" else if r then lit "a=recvonly" else lit "a=inactive") ++ CRLF_.

Lemma read_sendrecv s r m : reads_m (sendrecv_line s r) m (m_set_sendrecv s r m).
Proof.
  unfold sendrecv_line. destruct s, r.
  - by apply (reads_attr (lit "sendrecv")).
  - by apply (reads_attr (lit "sendonly")).
  - by apply (reads_attr (lit "recvonly")).
  - by apply (reads_attr (lit "inactive")).
Qed.

Definition direction_line (x : Direction) : list Z :=
  match x with
  | DirActive => lit "a=direction:active" ++ CRLF_
  | DirPassive => lit "a=direction:passive" ++ CRLF_
  | DirBoth => lit "a=direction:both" ++ CRLF_
  | DirUndefined => []
  end.

(** The directions that are read back; an undefined one becomes the default. *)
Definition norm_dir (x : Direction) : Direction := match x with DirUndefined => DirBoth | x => x end.

Lemma direction_value v m r : clean v = true ->
  media_attr (lit "direction") (Some (lit "direction" ++ 58 :: v ++ CRLF_ ++ r)) (Some r) (Some (Some (v ++ CRLF_ ++ r))) m =
  Ok (if is_text v "active" then m_set_dir DirActive m else if is_text v "passive" then m_set_dir DirPassive m else m).
Proof.
  intros Hv. unfold media_attr. change (is_text (lit "direction") "rtpmap") with false. change (is_text (lit "direction") "fmtp") with false.
  change (is_text (lit "direction") "direction") with true. cbn [deref mbind res_bind]. rewrite skip_clean by done. cbn [snd].
  by rewrite string_at_app.
Qed.

Lemma read_direction x m : m_dir m = DirBoth -> reads_m (direction_line x) m (m_set_dir (norm_dir x) m).
Proof.
  intros Hd. destruct x; cbn [direction_line norm_dir].
  - replace (m_set_dir DirBoth m) with m by (destruct m; cbn in Hd; by subst).
    apply (reads_attr_value (lit "direction") (lit "both")); try done. intros r. by rewrite direction_value.
  - apply (reads_attr_value (lit "direction") (lit "active")); try done. intros r. by rewrite direction_value.
  - apply (reads_attr_value (lit "direction") (lit "passive")); try done. intros r. by rewrite direction_value.
  - replace (m_set_dir DirBoth m) with m by (destruct m; cbn in Hd; by subst). apply reads_m_nil.
Qed.

(** *** Payloads *)

Lemma enc_param_line n r fuel x : 0 <= n <= UINT_MAX -> enc_param_loop (S fuel) (Some r) (Some (int2str n ++ CRLF_ ++ r)) x = Ok n.
Proof.
  intros Hn. destruct (int2str_clean n Hn) as (_ & _ & Hf). cbn [enc_param_loop]. unfold parse_until. cbn [deref mbind res_bind].
  pose proof (sdp_after_line 32 (int2str n) r ltac:(apply Hf; lia) ltac:(done) ltac:(done)) as Ha.
  rewrite (proj2 (Z.ltb_ge _ _)) by lia. rewrite (app_assoc (int2str n)), pdiff_app.
  replace (len_of (int2str n ++ CRLF_) - 1) with (len_of (int2str n ++ [CR])) by lens.
  replace ((int2str n ++ CRLF_) ++ r) with ((int2str n ++ [CR]) ++ LF :: r) by (rewrite <- !app_assoc; done).
  rewrite string_at_app. cbn [mbind res_bind]. by rewrite read_int by (done || by right).
Qed.

(** The value of an [rtpmap] line. *)
Definition rtpmap_value (pt : Z) (name : list Z) (rate n : Z) : list Z :=
  int2str pt ++ 32 :: name ++ 47 :: int2str rate ++ (if 0 <? n then 47 :: int2str n else []).

Lemma parse_rtpmap_line pt name rate n r : 0 <= pt <= UINT_MAX -> 0 <= rate <= UINT_MAX -> n <= UINT_MAX ->
  free_of 32 name = true -> free_of 47 name = true ->
  parse_rtpmap (Some (lit "rtpmap" ++ 58 :: rtpmap_value pt name rate n ++ CRLF_ ++ r)) (Some r) (Some (rtpmap_value pt name rate n ++ CRLF_ ++ r)) =
    Ok (pt, name, rate, Z.max 0 n).
Proof.
  intros Hpt Hrate Hn Hname Hname2. unfold parse_rtpmap. set (s := Some (lit "rtpmap" ++ _)).
  destruct (int2str_clean pt Hpt) as (_ & _ & Hpf). destruct (int2str_clean rate Hrate) as (_ & _ & Hrf).
  assert (Hslash : contains s (Some r) 47 = Ok true).
  { unfold s. replace (lit "rtpmap" ++ 58 :: _) with ((lit "rtpmap" ++ 58 :: rtpmap_value pt name rate n) ++ CRLF_ ++ r) by (rewrite <- app_assoc; done).
    rewrite contains_line by done. unfold rtpmap_value. rewrite existsb_app. cbn [existsb]. rewrite existsb_app. cbn [existsb]. rewrite existsb_app.
    cbn [existsb]. rewrite Z.eqb_refl. cbn [orb]. by rewrite !orb_true_r. }
  clearbody s. unfold rtpmap_value. rewrite <- !app_assoc. cbn [app]. rewrite parse_until_found by (apply Hpf; lia). cbn [mbind res_bind].
  rewrite word_app. cbn [mbind res_bind]. rewrite Hslash. cbn [mbind res_bind]. rewrite <- !app_assoc. cbn [app].
  rewrite parse_until_found by done. cbn [mbind res_bind]. rewrite word_app. cbn [mbind res_bind]. rewrite read_int_nil by done.
  rewrite <- !app_assoc. destruct (Z.ltb_spec 0 n).
  - cbn [app]. replace (int2str rate ++ 47 :: int2str n ++ CRLF_ ++ r) with ((int2str rate ++ 47 :: int2str n) ++ CRLF_ ++ r) at 1 by (rewrite <- app_assoc; done).
    rewrite contains_line, existsb_app by done. cbn [existsb]. rewrite Z.eqb_refl, orb_true_r. cbn [mbind res_bind].
    rewrite parse_until_found by (apply Hrf; lia). cbn [mbind res_bind]. rewrite word_app. cbn [mbind res_bind].
    rewrite enc_param_line by lia. cbn [mbind res_bind]. rewrite read_int_nil by done. by rewrite Z.max_r by lia.
  - rewrite app_nil_l, contains_line, (existsb_free 47) by (done || (apply Hrf; lia)). cbn [mbind res_bind].
    destruct (last_word (int2str rate) r) as (l & Hl & ->). cbn [mbind res_bind]. rewrite read_int by (done || by right).
    by rewrite Z.max_l by lia.
Qed.

Lemma trim_wsp_line l c r : is_wsp c = false -> trim_wsp (length l + 3) ((l ++ [c]) ++ CRLF_ ++ r) = len_of l + 1.
Proof.
  intros Hc. destruct (line_chars l c r) as (E2 & E1 & E0).
  replace (length l + 3)%nat with (S (S (S (length l)))) by lia. cbn [trim_wsp].
  replace (S (S (length l))) with (length l + 2)%nat by lia. rewrite E2. change (is_wsp LF) with true. cbn match.
  replace (S (length l)) with (length l + 1)%nat by lia. rewrite E1. change (is_wsp CR) with true. cbn match. rewrite E0, Hc. lia.
Qed.

Definition good_params (p : list Z) : bool :=
  clean p && (bool_decide (p = []) || Nat.leb 2 (length p) && negb (default true (is_wsp <$> last p))).

Lemma parse_fmtp_line pt params r : 0 <= pt <= UINT_MAX -> good_params params = true -> params <> [] ->
  parse_fmtp (Some r) (Some (int2str pt ++ 32 :: params ++ CRLF_ ++ r)) = Ok (pt, params).
Proof.
  intros Hpt Hg Hne. unfold good_params in Hg. rewrite bool_decide_eq_false_2 in Hg by done. cbn [orb] in Hg.
  rewrite !andb_true_iff, Nat.leb_le, negb_true_iff in Hg. destruct Hg as (Hc & Hl & Hw). destruct (exists_last Hne) as (p & c & ->).
  rewrite last_snoc in Hw. cbn in Hw. rewrite length_app in Hl. cbn [length] in Hl.
  destruct (int2str_clean pt Hpt) as (_ & _ & Hpf). unfold parse_fmtp, parse_until_end. cbn [deref mbind res_bind].
  rewrite after_within_found by (try (apply Hpf; lia); unfold pdiff; cbn [plen]; lens). cbn [mbind res_bind]. rewrite word_app. cbn [mbind res_bind].
  rewrite read_int_nil by done. rewrite pdiff_sep.
  replace (int2str pt ++ 32 :: (p ++ [c]) ++ CRLF_ ++ r) with (((int2str pt ++ 32 :: p) ++ [c]) ++ CRLF_ ++ r) by (rewrite <- !app_assoc; done).
  replace (Z.to_nat (pdiff _ (Some r))) with (length (int2str pt ++ 32%Z :: p) + 3)%nat by (rewrite app_assoc, pdiff_app; lens).
  rewrite trim_wsp_line by done. replace (_ + 1 - _) with (len_of (p ++ [c])) by lens.
  rewrite (proj2 (Z.leb_gt _ _)) by lens. by rewrite string_at_app.
Qed.

Definition good_payload (p : SdpPayload) : Prop :=
  is_pt (payload_type p) /\ clean (encoding_name p) = true /\ free_of 32 (encoding_name p) = true /\ free_of 47 (encoding_name p) = true /\
  (encoding_name p <> [] -> 1 <= clock_rate p <= INT_MAX /\ encoding_param p <= INT_MAX) /\ good_params (sdp_format_parameters p) = true.

(** What is read back of a payload: without an [rtpmap] line only its number and parameters. *)
Definition norm_payload (t : MediaType) (p : SdpPayload) : SdpPayload :=
  if bool_decide (encoding_name p = []) then mk_payload t (payload_type p) [] (-1) [] (sdp_format_parameters p) (-1)
  else mk_payload MT_NONE (payload_type p) (encoding_name p) (clock_rate p) [] (sdp_format_parameters p) (Z.max 0 (encoding_param p)).

Lemma update_payload_mid pt f l1 p l2 : payload_type p = pt -> Forall (fun q => payload_type q <> pt) l1 ->
  update_payload pt f (l1 ++ p :: l2) = l1 ++ f p :: l2.
Proof.
  intros Hp Hl. induction Hl as [|q l1 Hq Hl IH]; cbn [app update_payload].
  - by rewrite Hp, Z.eqb_refl.
  - by rewrite (proj2 (Z.eqb_neq _ _)), IH.
Qed.

Lemma rtpmap_clean pt name rate n : 0 <= pt <= UINT_MAX -> 0 <= rate <= UINT_MAX -> n <= UINT_MAX -> clean name = true ->
  clean (rtpmap_value pt name rate n) = true.
Proof.
  intros Hpt Hrate Hn Hc. destruct (int2str_clean pt Hpt) as (Hpc & _). destruct (int2str_clean rate Hrate) as (Hrc & _).
  unfold rtpmap_value. rewrite clean_app, Hpc. unfold clean in *. cbn [forallb]. rewrite forallb_app, Hc. cbn [forallb]. rewrite forallb_app, Hrc.
  destruct (Z.ltb_spec 0 n); [|done]. destruct (int2str_clean n) as (Hnc & _); [lia|]. cbn [forallb]. unfold clean in Hnc. by rewrite Hnc.
Qed.

Lemma read_rtpmap t p l1 l2 q m : good_payload p -> encoding_name p <> [] -> payload_type q = payload_type p ->
  Forall (fun q => payload_type q <> payload_type p) l1 ->
  reads_m (lit "a=rtpmap:" ++ int2str_signed (payload_type p) ++ lit " " ++ encoding_name p ++ lit "/" ++ int2str_signed (clock_rate p) ++
      (if 0 <? encoding_param p then lit "/" ++ int2str_signed (encoding_param p) else []) ++ CRLF_)
    (m_set_payloads (l1 ++ q :: l2) m)
    (m_set_payloads (l1 ++ set_fmtp [] (norm_payload t p) :: l2) m).
Proof.
  intros (Hpt & Hc & Hf1 & Hf2 & Hrate & _) Hne Hq Hl. destruct (Hrate Hne) as [Hr Hn]. pose proof (pt_uint _ Hpt) as Hpu.
  assert (Hru : 0 <= clock_rate p <= UINT_MAX) by (unfold INT_MAX, UINT_MAX in *; lia). assert (Hnu : encoding_param p <= UINT_MAX) by (unfold INT_MAX, UINT_MAX in *; lia).
  pose proof (reads_attr_value (lit "rtpmap") (rtpmap_value (payload_type p) (encoding_name p) (clock_rate p) (encoding_param p))
    (m_set_payloads (l1 ++ q :: l2) m) (m_set_payloads (l1 ++ set_fmtp [] (norm_payload t p) :: l2) m)) as H.
  replace (lit "a=rtpmap:" ++ _) with (lit "a=" ++ lit "rtpmap" ++ lit ":" ++ rtpmap_value (payload_type p) (encoding_name p) (clock_rate p) (encoding_param p) ++ CRLF_).
  - apply H; try done; [by apply rtpmap_clean|]. intros r. unfold media_attr. change (is_text (lit "rtpmap") "rtpmap") with true. cbn match.
    rewrite parse_rtpmap_line by done. cbn [mbind res_bind]. rewrite to_int_pt by done. cbn [payloads m_set_payloads].
    rewrite update_payload_mid by done. unfold norm_payload. rewrite bool_decide_eq_false_2 by done. unfold set_fmtp. cbn.
    rewrite to_int_pt by (unfold is_pt; lia). rewrite to_int_pt by (unfold is_pt, INT_MAX in *; lia). done.
  - unfold rtpmap_value. rewrite (int2str_signed_pt (payload_type p)), (int2str_signed_pt (clock_rate p)) by (done || (unfold is_pt; lia)).
    destruct (Z.ltb_spec 0 (encoding_param p)).
    + rewrite (int2str_signed_pt (encoding_param p)) by (unfold is_pt; lia). rewrite <- !app_assoc. cbn [app]. rewrite <- !app_assoc. cbn [app].
      rewrite <- !app_assoc. done.
    + rewrite <- !app_assoc. cbn [app]. rewrite <- !app_assoc. cbn [app]. rewrite <- !app_assoc. done.
Qed.

Lemma read_fmtp p l1 l2 q m : good_payload p -> sdp_format_parameters p <> [] -> payload_type q = payload_type p ->
  Forall (fun q => payload_type q <> payload_type p) l1 ->
  reads_m (lit "a=fmtp:" ++ int2str_signed (payload_type p) ++ lit " " ++ sdp_format_parameters p ++ CRLF_)
    (m_set_payloads (l1 ++ q :: l2) m) (m_set_payloads (l1 ++ set_fmtp (sdp_format_parameters p) q :: l2) m).
Proof.
  intros (Hpt & _ & _ & _ & _ & Hg) Hne Hq Hl. pose proof (pt_uint _ Hpt) as Hpu. rewrite int2str_signed_pt by done.
  destruct (int2str_clean _ Hpu) as (Hpc & _). assert (Hc : clean (sdp_format_parameters p) = true) by (unfold good_params in Hg; by apply andb_true_iff in Hg as [? _]).
  replace (lit "a=fmtp:" ++ _) with (lit "a=" ++ lit "fmtp" ++ lit ":" ++ (int2str (payload_type p) ++ 32 :: sdp_format_parameters p) ++ CRLF_)
    by (rewrite <- !app_assoc; done).
  apply reads_attr_value; [done|done|rewrite clean_app, Hpc; unfold clean in *; cbn [forallb]; by rewrite Hc|].
  intros r. unfold media_attr. change (is_text (lit "fmtp") "rtpmap") with false. change (is_text (lit "fmtp") "fmtp") with true. cbn match.
  rewrite <- app_assoc. cbn [app]. rewrite parse_fmtp_line by done. cbn [mbind res_bind]. rewrite to_int_pt by done. cbn [payloads m_set_payloads].
  by rewrite update_payload_mid.
Qed.

Lemma read_payload t p l1 l2 m : good_payload p -> Forall (fun q => payload_type q <> payload_type p) l1 ->
  reads_m (print_payload p) (m_set_payloads (l1 ++ plain_payload t (payload_type p) :: l2) m) (m_set_payloads (l1 ++ norm_payload t p :: l2) m).
Proof.
  intros Hp Hl. unfold print_payload. set (q := if bool_decide (encoding_name p = []) then plain_payload t (payload_type p) else set_fmtp [] (norm_payload t p)).
  assert (Hq : payload_type q = payload_type p) by (unfold q, norm_payload; by case_bool_decide).
  apply reads_m_app with (m_set_payloads (l1 ++ q :: l2) m).
  - unfold q. case_bool_decide as E; [apply reads_m_nil|]. by apply read_rtpmap.
  - replace (norm_payload t p) with (set_fmtp (sdp_format_parameters p) q) by (unfold q, norm_payload; by case_bool_decide).
    case_bool_decide as E.
    + rewrite E. replace (set_fmtp [] q) with q by (unfold q, norm_payload; by case_bool_decide). apply reads_m_nil.
    + by apply read_fmtp.
Qed.

Lemma read_payloads t pls m : forall l1, Forall good_payload pls -> NoDup (map payload_type l1 ++ map payload_type pls) ->
  reads_m (concat (map print_payload pls)) (m_set_payloads (l1 ++ map (plain_payload t) (map payload_type pls)) m)
    (m_set_payloads (l1 ++ map (norm_payload t) pls) m).
Proof.
  induction pls as [|p pls IH]; intros l1 Hg Hd; cbn [map concat]; [apply reads_m_nil|].
  inversion_clear Hg as [|? ? Hp Hps]. eapply reads_m_app.
  - apply read_payload; [done|]. apply Forall_forall. intros x Hx Heq. cbn [map] in Hd. apply NoDup_app in Hd as (_ & Hd & _).
    apply (Hd (payload_type x)); [by apply list_elem_of_fmap_2|]. rewrite Heq. left.
  - replace (l1 ++ norm_payload t p :: map (plain_payload t) (map payload_type pls)) with ((l1 ++ [norm_payload t p]) ++ map (plain_payload t) (map payload_type pls)) by (by rewrite <- app_assoc).
    replace (l1 ++ norm_payload t p :: map (norm_payload t) pls) with ((l1 ++ [norm_payload t p]) ++ map (norm_payload t) pls) by (by rewrite <- app_assoc).
    apply IH; [done|]. rewrite map_app. cbn [map]. replace (payload_type (norm_payload t p)) with (payload_type p) by (unfold norm_payload; by case_bool_decide).
    by rewrite <- app_assoc.
Qed.

(** *** A media description *)

Definition good_addr (a : list Z) : Prop := clean a = true /\ free_of 47 a = true /\ free_of 32 a = true.

Definition good_media (m : SdpMedia) : Prop :=
  m_type m <> MT_NONE /\ transport m <> TP_NONE /\ 0 <= m_port m <= UINT_MAX /\
  (if is_rtp (transport m)
   then payloads m <> [] /\ Forall good_payload (payloads m) /\ NoDup (map payload_type (payloads m))
   else clean (m_fmt m) = true /\ (2 <= length (m_fmt m))%nat) /\
  good_addr (address (m_conn m)) /\ (address (m_conn m) <> [] -> addrType (m_conn m) = AT_V4 \/ addrType (m_conn m) = AT_V6) /\
  Forall (fun a => good_media_attr a = true) (m_attributes m).

Definition norm_conn (t : AddressType) (a : list Z) : SdpConnection := if bool_decide (a = []) then conn0 else mk_conn NT_IN t a.

Lemma norm_conn_address t a : address (norm_conn t a) = a.
Proof. unfold norm_conn. by case_bool_decide. Qed.

(** What is read back of a media description. *)
Definition norm_media (m : SdpMedia) : SdpMedia :=
  mk_media (m_type m) (m_port m) 0 (transport m) (norm_conn (addrType (m_conn m)) (address (m_conn m))) (norm_dir (m_dir m))
    (if is_rtp (transport m) then [] else m_fmt m) (m_send m) (m_recv m)
    (if is_rtp (transport m) then map (norm_payload (m_type m)) (payloads m) else []) (m_attributes m).

Definition media_conn_line (m : SdpMedia) : list Z :=
  if bool_decide (address (m_conn m) = []) then [] else lit "c=IN " ++ addr_t_2_str (addrType (m_conn m)) ++ lit " " ++ address (m_conn m) ++ CRLF_.

Definition options (m : SdpMedia) : list Z := if is_rtp (transport m) then concat (map print_payload (payloads m)) else [].

Lemma print_media_lines m : print_media m =
  media_line m ++ (media_conn_line m ++ options m ++ sendrecv_line (m_send m) (m_recv m) ++ concat (map print_attr (m_attributes m)) ++ direction_line (m_dir m)).
Proof.
  unfold print_media, media_line, fmt_text, media_conn_line, options, sendrecv_line. fold (direction_line (m_dir m)).
  rewrite <- !app_assoc. do 6 f_equal. rewrite <- ?app_assoc. f_equal. case_bool_decide; rewrite <- ?app_assoc; done.
Qed.

Lemma read_media_attrs attrs m : Forall (fun a => good_media_attr a = true) attrs ->
  reads_m (concat (map print_attr attrs)) m (m_set_attrs (m_attributes m ++ attrs) m).
Proof.
  revert m. induction attrs as [|a attrs IH]; intros m H; cbn [map concat].
  - rewrite app_nil_r. replace (m_set_attrs _ m) with m by (by destruct m). apply reads_m_nil.
  - inversion_clear H as [|? ? Ha Has]. eapply reads_m_app; [by apply read_media_attr|].
    replace (m_set_attrs (m_attributes m ++ a :: attrs) m) with
      (m_set_attrs (m_attributes (m_set_attrs (m_attributes m ++ [a]) m) ++ attrs) (m_set_attrs (m_attributes m ++ [a]) m))
      by (cbn [m_attributes m_set_attrs]; by rewrite <- app_assoc).
    by apply IH.
Qed.

Lemma read_options m0 m : m0 = line_media m \/ m0 = m_set_conn (mk_conn NT_IN (addrType (m_conn m)) (address (m_conn m))) (line_media m) ->
  (if is_rtp (transport m) then payloads m <> [] /\ Forall good_payload (payloads m) /\ NoDup (map payload_type (payloads m))
   else clean (m_fmt m) = true /\ (2 <= length (m_fmt m))%nat) ->
  reads_m (options m) m0 (m_set_payloads (if is_rtp (transport m) then map (norm_payload (m_type m)) (payloads m) else []) m0).
Proof.
  intros Hm0 Hg. unfold options, line_media in *. destruct (is_rtp (transport m)).
  - destruct Hg as (_ & Hp & Hd). pose proof (read_payloads (m_type m) (payloads m) m0 [] Hp Hd) as H. cbn [app] in H.
    replace (m_set_payloads (map (plain_payload (m_type m)) (map payload_type (payloads m))) m0) with m0 in H; [done|]. by destruct Hm0; subst.
  - replace (m_set_payloads [] m0) with m0 by (by destruct Hm0; subst). apply reads_m_nil.
Qed.

Lemma read_media st m d : good_media m -> reads st (print_media m) SDP_MEDIA d (set_media (media d ++ [norm_media m]) d).
Proof.
  intros (Ht & Htp & Hp & Hf & (Ha1 & Ha2 & _) & Hat & Hattrs). rewrite print_media_lines.
  assert (Hgf : good_fmt m).
  { unfold good_fmt. destruct (is_rtp _); [|done]. destruct Hf as (? & Hg & _). split; [done|]. apply Forall_map.
    eapply Forall_impl; [exact Hg|]. by intros p [? _]. }
  eapply reads_app; [by apply read_media_line|].
  set (m1 := if bool_decide (address (m_conn m) = []) then line_media m else m_set_conn (mk_conn NT_IN (addrType (m_conn m)) (address (m_conn m))) (line_media m)).
  set (m2 := m_set_payloads (if is_rtp (transport m) then map (norm_payload (m_type m)) (payloads m) else []) m1).
  assert (Hm1 : m1 = line_media m \/ m1 = m_set_conn (mk_conn NT_IN (addrType (m_conn m)) (address (m_conn m))) (line_media m)) by (unfold m1; case_bool_decide; tauto).
  assert (H : reads_m (media_conn_line m ++ options m ++ sendrecv_line (m_send m) (m_recv m) ++ concat (map print_attr (m_attributes m)) ++ direction_line (m_dir m)) (line_media m) (norm_media m)).
  { apply reads_m_app with m1.
    { unfold media_conn_line, m1. case_bool_decide as E; [apply reads_m_nil|]. apply read_media_conn; [by apply Hat|done..]. }
    apply reads_m_app with m2; [by apply read_options|]. eapply reads_m_app; [apply read_sendrecv|]. eapply reads_m_app; [by apply read_media_attrs|].
    replace (norm_media m) with (m_set_dir (norm_dir (m_dir m)) (m_set_attrs (m_attributes (m_set_sendrecv (m_send m) (m_recv m) m2) ++ m_attributes m) (m_set_sendrecv (m_send m) (m_recv m) m2))).
    - apply read_direction. unfold m2, m1, line_media. case_bool_decide; by destruct (is_rtp _).
    - unfold norm_media, norm_conn, m2, m1, line_media. case_bool_decide; by destruct (is_rtp _). }
  specialize (H d (media d)). exact H.
Qed.

Lemma read_medias ms st d : Forall good_media ms -> exists st', reads st (concat (map print_media ms)) st' d (set_media (media d ++ map norm_media ms) d).
Proof.
  revert st d. induction ms as [|m ms IH]; intros st d H; cbn [map concat].
  - exists st. rewrite app_nil_r. replace (set_media _ d) with d by (by destruct d). apply reads_nil.
  - inversion_clear H as [|? ? Hm Hms]. destruct (IH SDP_MEDIA (set_media (media d ++ [norm_media m]) d) Hms) as (st' & Hr). exists st'.
    eapply reads_app; [by apply read_media|]. cbn [media set_media] in Hr. rewrite <- app_assoc in Hr. exact Hr.
Qed.

Lemma read_session_attrs attrs d : Forall (fun a => good_session_attr a = true) attrs ->
  reads SDP_DESCR (concat (map print_attr attrs)) SDP_DESCR d (set_attrs (s_attributes d ++ attrs) d).
Proof.
  revert d. induction attrs as [|a attrs IH]; intros d H; cbn [map concat].
  - rewrite app_nil_r. replace (set_attrs _ d) with d by (by destruct d). apply reads_nil.
  - inversion_clear H as [|? ? Ha Has]. eapply reads_app; [by apply read_session_attr|].
    specialize (IH (set_attrs (s_attributes d ++ [a]) d) Has). cbn [s_attributes set_attrs] in IH. rewrite <- app_assoc in IH. exact IH.
Qed.
End Reads.

(** ** The whole description *)

Definition ip_type (a : list Z) : AddressType := if has_dot a then AT_V4 else AT_V6.

(** The address that is printed in the [o=] line. *)
Definition origin_addr (d : AmSdp) : list Z :=
  let a := address (o_conn (origin d)) in
  let c := address (s_conn d) in
  let m := match media d with m :: _ => address (m_conn m) | [] => [] end in
  if negb (bool_decide (a = [])) then a else if negb (bool_decide (c = [])) then c
  else if negb (bool_decide (m = [])) then m else lit "0.0.0.0".

Record good_sdp (d : AmSdp) : Prop := mk_good_sdp {
  gs_version : 0 <= s_version d <= UINT_MAX;
  gs_user : clean (o_user (origin d)) = true /\ free_of 32 (o_user (origin d)) = true;
  gs_id : 0 <= sessId (origin d) <= UINT_MAX;
  gs_sessV : 0 <= sessV (origin d) < 2 ^ 63;
  gs_origin : clean (address (o_conn (origin d))) = true /\ free_of 32 (address (o_conn (origin d))) = true;
  gs_name : clean (sessionName d) = true;
  gs_conn : good_addr (address (s_conn d));
  gs_attrs : Forall (fun a => good_session_attr a = true) (s_attributes d);
  gs_media : Forall good_media (media d);
  gs_present : address (s_conn d) <> [] \/ Forall (fun m => address (m_conn m) <> []) (media d)
}.

(** What is read back: addresses are IPv4 addresses when they have a dot, and the URI and the
    local origin are not printed. *)
Definition norm_sdp (d : AmSdp) : AmSdp :=
  mk_sdp (s_version d)
    (mk_origin (o_user (origin d)) (sessId (origin d)) (sessV (origin d)) (mk_conn NT_IN (ip_type (origin_addr d)) (origin_addr d)))
    (sessionName d) [] (norm_conn (ip_type (address (s_conn d))) (address (s_conn d))) (s_attributes d) (map norm_media (media d)) origin0.

Lemma ip_of_type a : ip_of a = addr_t_2_str (ip_type a) ++ lit " ".
Proof. unfold ip_of, ip_type. by destruct (has_dot a). Qed.

Lemma ip_type_known a : ip_type a = AT_V4 \/ ip_type a = AT_V6.
Proof. unfold ip_type. destruct (has_dot a); auto. Qed.

Lemma origin_text_addr d : origin_text d = addr_t_2_str (ip_type (origin_addr d)) ++ lit " " ++ origin_addr d.
Proof. unfold origin_text, origin_addr. repeat (case_bool_decide; cbn [negb]); by rewrite ?ip_of_type, <- ?app_assoc. Qed.

Lemma origin_addr_good d : good_sdp d -> clean (origin_addr d) = true /\ free_of 32 (origin_addr d) = true.
Proof.
  intros [_ _ _ _ Ho _ Hc _ Hm _]. unfold origin_addr. case_bool_decide; cbn [negb]; [|done]. case_bool_decide; cbn [negb]; [|by destruct Hc as (? & _ & ?)].
  case_bool_decide; cbn [negb]; [done|]. destruct (media d) as [|m ms]; [done|]. inversion_clear Hm as [|? ? (_ & _ & _ & _ & (? & _ & ?) & _) _]. done.
Qed.

(** The loop over a printed description. *)
Lemma read_sdp undefined d : good_sdp d -> exists st', reads undefined SDP_DESCR (sdp_print d) st' sdp0 (norm_sdp d).
Proof.
  intros Hg. destruct (origin_addr_good d Hg) as [Ho1 Ho2]. destruct Hg as [Hv [Hu1 Hu2] Hid HsV _ Hname (Hc1 & Hc2 & _) Hattrs Hmedia _].
  set (d1 := set_name (sessionName d) (set_origin (mk_origin (o_user (origin d)) (sessId (origin d)) (sessV (origin d)) (mk_conn NT_IN (ip_type (origin_addr d)) (origin_addr d))) (set_version (s_version d) sdp0))).
  set (d2 := if bool_decide (address (s_conn d) = []) then d1 else set_conn (mk_conn NT_IN (ip_type (address (s_conn d))) (address (s_conn d))) d1).
  destruct (read_medias undefined (media d) SDP_DESCR (set_attrs (s_attributes d2 ++ s_attributes d) d2) Hmedia) as (st' & Hms). exists st'.
  replace (norm_sdp d) with (set_media (media (set_attrs (s_attributes d2 ++ s_attributes d) d2) ++ map norm_media (media d)) (set_attrs (s_attributes d2 ++ s_attributes d) d2)).
  2:{ unfold norm_sdp, norm_conn, d2, d1. by case_bool_decide. }
  unfold sdp_print. rewrite origin_text_addr.
  replace (lit "v=" ++ _) with ((lit "v=" ++ int2str (s_version d) ++ CRLF_) ++
    (lit "o=" ++ o_user (origin d) ++ lit " " ++ int2str (sessId (origin d)) ++ lit " " ++ ulonglong2str (sessV (origin d)) ++ lit " IN " ++ (addr_t_2_str (ip_type (origin_addr d)) ++ lit " " ++ origin_addr d) ++ CRLF_) ++
    (lit "s=" ++ sessionName d ++ CRLF_) ++
    (if bool_decide (address (s_conn d) = []) then [] else lit "c=IN " ++ (addr_t_2_str (ip_type (address (s_conn d))) ++ lit " " ++ address (s_conn d)) ++ CRLF_) ++
    (lit "t=0 0" ++ CRLF_) ++ concat (map print_attr (s_attributes d)) ++ concat (map print_media (media d)))
    by (case_bool_decide; rewrite ?ip_of_type, <- !app_assoc; done).
  eapply reads_app; [by apply read_version|]. eapply reads_app; [apply read_origin; try done; apply ip_type_known|]. eapply reads_app; [by apply read_name|].
  apply reads_app with SDP_DESCR d2.
  { unfold d2. case_bool_decide; [apply reads_nil|]. apply read_connection; [apply ip_type_known|done..]. }
  eapply reads_app; [apply read_times|]. eapply reads_app; [by apply read_session_attrs|]. exact Hms.
Qed.

(** C28: A well-formed description survives being printed and parsed: the parser accepts what the
    printer wrote and reads back the version, the origin, the name, the connections, all
    attributes and every media description with its type, port, transport, direction and its
    payloads with names, rates and parameters. *)
Theorem sdp_roundtrip undefined d : good_sdp d -> sdp_parse undefined (sdp_print d) = Ok (norm_sdp d, false).
Proof.
  intros Hg. destruct (read_sdp undefined d Hg) as (st' & n & Hn & Hr). unfold sdp_parse.
  replace (sdp_fuel (sdp_print d)) with (n + (sdp_fuel (sdp_print d) - n))%nat by (unfold sdp_fuel; lia).
  specialize (Hr (sdp_fuel (sdp_print d) - n)%nat []). rewrite app_nil_r in Hr. rewrite Hr.
  assert (Hend : forall fuel st e, sdp_loop undefined fuel st (Some []) e = Ok e) by (by intros []).
  rewrite Hend. cbn [mbind res_bind]. do 2 f_equal. destruct Hg as [_ _ _ _ _ _ _ _ Hm Hp]. cbn [norm_sdp media s_conn].
  apply orb_false_iff. split.
  - apply andb_false_iff. destruct Hp as [Hp|Hp].
    + left. apply bool_decide_eq_false. by rewrite norm_conn_address.
    + right. clear Hm. induction Hp as [|m ms Hm Hp IH]; cbn [map existsb]; [done|]. rewrite IH, orb_false_r. cbn [norm_media m_conn].
      apply bool_decide_eq_false. by rewrite norm_conn_address.
  - clear Hp. induction Hm as [|m ms Hgm Hm IH]; cbn [map existsb]; [done|]. rewrite IH, orb_false_r. cbn [norm_media payloads].
    destruct Hgm as (_ & _ & _ & Hf & _). destruct (is_rtp _); [|done]. destruct Hf as (_ & Hpl & _).
    induction Hpl as [|p pls Hgp Hpl IHp]; cbn [map existsb]; [done|]. rewrite IHp, orb_false_r. unfold norm_payload.
    destruct Hgp as (_ & _ & _ & _ & Hrate & _). case_bool_decide; cbn [clock_rate]; [done|]. apply Z.eqb_neq. destruct (Hrate ltac:(done)). lia.
Qed.

(** An offer with audio and a fax. *)
Definition demo_sdp : AmSdp :=
  mk_sdp 0 (mk_origin (lit "sems") 1234 5678 conn0) (lit "a call") [] (mk_conn NT_IN AT_V4 (lit "192.0.2.1"))
    [mk_attr (lit "tool") (lit "sems 1.7")]
    [mk_media MT_AUDIO 5004 0 TP_RTPAVP conn0 DirUndefined [] true false
       [mk_payload MT_AUDIO 0 [] (-1) [] [] (-1); mk_payload MT_NONE 96 (lit "opus") 48000 [] (lit "useinbandfec=1") 2;
        mk_payload MT_NONE 101 (lit "telephone-event") 8000 [] (lit "0-15") 0]
       [mk_attr (lit "ptime") (lit "20"); mk_attr (lit "rtcp-mux") []];
     mk_media MT_IMAGE 5006 0 TP_UDPTL (mk_conn NT_IN AT_V6 (lit "2001:db8::1")) DirActive (lit "t38") true true [] []]
    origin0.

Lemma demo_sdp_good : good_sdp demo_sdp.
Proof.
  constructor; try (split_and!; done); try done.
  - by repeat constructor.
  - constructor; [|constructor; [|constructor]].
    + repeat (split; [first [done|unfold UINT_MAX; cbn; lia]|]). split; [|split; [by vm_compute|split; [done|by repeat constructor]]].
      split; [done|]. split; [|by repeat (constructor; [by rewrite ?list_elem_of_In; cbn; lia|]); constructor].
      repeat constructor; unfold is_pt, INT_MAX; cbn; try lia; try done.
    + repeat (split; [first [done|unfold UINT_MAX; cbn; lia]|]). split; [split; [done|cbn; lia]|]. split; [by vm_compute|]. split; [intros _; by right|done].
  - left. done.
Qed.

Lemma sdp_roundtrip_witness : sdp_parse 0 (sdp_print demo_sdp) = Ok (norm_sdp demo_sdp, false).
Proof. apply (sdp_roundtrip 0 demo_sdp). apply demo_sdp_good. Defined.
