(* ===== verification/SdpProps.v ===== *)
(** * Properties of the session description code

    The parser ends on every text; the comparison of a description with itself; what an answer
    holds; and inputs on which the parser does not do what it means to. *)

From Stdlib Require Import ZArith Lia Ascii String.
From stdpp Require Import base list.
From S2P Require Import Prelude ParseCommon AmUtils Sdp.

Local Open Scope Z_scope.
Local Open Scope bool_scope.

Local Notation "'len_of' b" := (Z.of_nat (length b)) (at level 10, b at level 9).

(** ** The parser ends *)

Definition ends {A} (m : res A) : Prop := m <> Bad NoFuel.

Lemma bind_Ok {A B} (m : res A) (k : A -> res B) b : m ≫= k = Ok b <-> exists a, m = Ok a /\ k a = Ok b.
Proof.
  split.
  - destruct m as [a|]; cbn; [|done]. intros H. by exists a.
  - by intros (a & -> & H).
Qed.

Lemma ends_Ok {A} (a : A) : ends (Ok a).
Proof. done. Qed.

Lemma ends_bind {A B} (m : res A) (k : A -> res B) : ends m -> (forall a, m = Ok a -> ends (k a)) -> ends (m ≫= k).
Proof. unfold ends. destruct m; cbn; naive_solver. Qed.

Create HintDb sdp_ends.
#[export] Hint Resolve ends_Ok : sdp_ends.

Lemma ends_deref p : ends (deref p).
Proof. by destruct p. Qed.
#[export] Hint Resolve ends_deref : sdp_ends.

(** Breaks a sequence of calls. *)
Ltac ends_tac :=
  repeat first
    [ progress auto with sdp_ends
    | apply ends_bind; [|intros ? ?]
    | match goal with |- ends (match ?x with _ => _ end) => let E := fresh "E" in destruct x eqn:E end
    | done ].

Lemma ends_string_at p n : ends (string_at p n).
Proof. unfold string_at. ends_tac. Qed.
#[export] Hint Resolve ends_string_at : sdp_ends.

Lemma ends_contains s e c : ends (contains s e c).
Proof. unfold contains. ends_tac. Qed.
#[export] Hint Resolve ends_contains : sdp_ends.

Lemma ends_parse_until s c : ends (parse_until s c).
Proof. unfold parse_until. ends_tac. Qed.
#[export] Hint Resolve ends_parse_until : sdp_ends.

Lemma ends_parse_until_end s e c : ends (parse_until_end s e c).
Proof. unfold parse_until_end. ends_tac. Qed.
#[export] Hint Resolve ends_parse_until_end : sdp_ends.

Lemma ends_word s n : ends (word s n).
Proof. unfold word. ends_tac. Qed.
#[export] Hint Resolve ends_word : sdp_ends.

Lemma ends_word_if s n : ends (word_if s n).
Proof. unfold word_if. ends_tac. Qed.
#[export] Hint Resolve ends_word_if : sdp_ends.

Lemma ends_parse_connection s : ends (parse_connection s).
Proof. unfold parse_connection. ends_tac. Qed.
#[export] Hint Resolve ends_parse_connection : sdp_ends.

Lemma ends_origin_address e p o : ends (origin_address e p o).
Proof. unfold origin_address. ends_tac. Qed.
#[export] Hint Resolve ends_origin_address : sdp_ends.

Lemma ends_parse_origin s : ends (parse_origin s).
Proof. unfold parse_origin. ends_tac. Qed.
#[export] Hint Resolve ends_parse_origin : sdp_ends.

Lemma ends_parse_session_attr c s : ends (parse_session_attr c s).
Proof. unfold parse_session_attr. ends_tac. Qed.
#[export] Hint Resolve ends_parse_session_attr : sdp_ends.

Lemma ends_other_fmt e p : ends (other_fmt e p).
Proof. unfold other_fmt. ends_tac. Qed.
#[export] Hint Resolve ends_other_fmt : sdp_ends.

Lemma ends_media_port p : ends (media_port p).
Proof. unfold media_port. ends_tac. Qed.
#[export] Hint Resolve ends_media_port : sdp_ends.

Lemma ends_skip_line s : ends (skip_line s).
Proof. unfold skip_line. ends_tac. Qed.
#[export] Hint Resolve ends_skip_line : sdp_ends.

Lemma ends_parse_fmtp e p : ends (parse_fmtp e p).
Proof. unfold parse_fmtp. ends_tac. Qed.
#[export] Hint Resolve ends_parse_fmtp : sdp_ends.

(** *** Progress *)

Lemma after_len c l : plen (after c l) < len_of l.
Proof. induction l as [|x l IH]; cbn [after length plen]; [lia|]. destruct (x =? c); cbn [plen]; lia. Qed.

Lemma parse_until_len s c p : parse_until s c = Ok p -> plen p < plen s.
Proof.
  unfold parse_until. rewrite bind_Ok. intros (l & E & [= <-]). destruct s; [|done]. injection E as ->. cbn [plen]. apply after_len.
Qed.

Lemma skip_len l : (length (skip_till_next_line l).1 <= length l)%nat.
Proof.
  induction l as [|c l IH]; cbn [skip_till_next_line]; [done|]. destruct (c =? CR).
  - destruct l as [|c2 l2]; [cbn; lia|]. destruct (c2 =? LF); cbn [fst length] in *; lia.
  - destruct (c =? LF); [cbn; lia|]. destruct (skip_till_next_line l). cbn [fst length] in *. lia.
Qed.

Lemma skip_len_lt c l : (length (skip_till_next_line (c :: l)).1 < length (c :: l))%nat.
Proof.
  cbn [skip_till_next_line]. pose proof (skip_len l) as H. destruct (c =? CR).
  - destruct l as [|c2 l2]; [cbn; lia|]. destruct (c2 =? LF); cbn [fst length] in *; lia.
  - destruct (c =? LF); [cbn; lia|]. destruct (skip_till_next_line l). cbn [fst length] in *. lia.
Qed.

Lemma next_len l : (length (get_next_line l) <= length l)%nat.
Proof.
  induction l as [|c l IH]; cbn [get_next_line]; [done|]. destruct (c =? CR).
  - destruct l as [|c2 l2]; [cbn; lia|]. destruct (c2 =? LF); cbn [length] in *; lia.
  - destruct (c =? LF); cbn [length] in *; lia.
Qed.

Lemma fmt_loop_ends fuel t e : forall p pt pls, plen p + 2 <= Z.of_nat fuel -> ends (fmt_loop fuel t e p pt pls).
Proof.
  induction fuel as [|fuel IH]; intros p pt pls Hf.
  { destruct p; cbn [plen] in Hf; lia. }
  cbn [fmt_loop]. apply ends_bind; [apply ends_contains|]. intros more _. destruct more.
  - apply ends_bind; [apply ends_parse_until|]. intros next Hn. apply parse_until_len in Hn. apply ends_bind; [apply ends_word_if|]. intros value _.
    destruct (if bool_decide _ then _ else _). apply IH. lia.
  - ends_tac.
Qed.

Lemma enc_param_ends fuel e : forall p x, plen p + 2 <= Z.of_nat fuel -> ends (enc_param_loop fuel e p x).
Proof.
  induction fuel as [|fuel IH]; intros p x Hf.
  { destruct p; cbn [plen] in Hf; lia. }
  cbn [enc_param_loop]. apply ends_bind; [apply ends_parse_until|]. intros next Hn. apply parse_until_len in Hn. destruct (_ <? _); [|ends_tac].
  apply ends_bind; [apply ends_word|]. intros value _. apply IH. lia.
Qed.

Lemma ends_parse_media undefined s : ends (parse_media undefined s).
Proof.
  unfold parse_media. apply ends_bind; [apply ends_deref|]. intros l El. apply ends_bind; [apply ends_parse_until|]. intros p1 H1%parse_until_len.
  apply ends_bind; [apply ends_word_if|]. intros name _. apply ends_bind; [apply ends_media_port|]. intros [[port n] p2] H2.
  apply ends_bind; [apply ends_parse_until|]. intros p3 H3%parse_until_len. apply ends_bind; [apply ends_word_if|]. intros proto _.
  assert (Hs : plen s = len_of l) by (destruct s; [by injection El as ->|done]).
  assert (H12 : plen p2 < plen p1).
  { unfold media_port in H2. apply bind_Ok in H2 as (q & Hq%parse_until_len & H2). apply bind_Ok in H2 as (b & _ & H2). destruct b.
    - apply bind_Ok in H2 as (q2 & Hq2%parse_until_len & H2). apply bind_Ok in H2 as (? & _ & H2). apply bind_Ok in H2 as (? & _ & H2).
      apply bind_Ok in H2 as (? & _ & [= <- <- <-]). done.
    - apply bind_Ok in H2 as (? & _ & [= <- <- <-]). done. }
  destruct (is_rtp _); [|ends_tac]. apply ends_bind; [|ends_tac]. apply fmt_loop_ends. lia.
Qed.
#[export] Hint Resolve ends_parse_media : sdp_ends.

Lemma ends_parse_rtpmap s e p : plen p <= plen s -> ends (parse_rtpmap s e p).
Proof.
  intros Hp. unfold parse_rtpmap. apply ends_bind; [apply ends_parse_until|]. intros p1 H1%parse_until_len. apply ends_bind; [apply ends_word|]. intros type _.
  apply ends_bind; [apply ends_contains|]. intros b _.
  assert (Hparam : forall q x, plen q <= plen p1 -> ends (enc_param_loop (S (Z.to_nat (plen s))) e q x)).
  { intros q x Hq. apply enc_param_ends. destruct q, s; cbn [plen] in *; lia. }
  destruct b.
  - apply ends_bind; [apply ends_parse_until|]. intros p2 H2%parse_until_len. apply ends_bind; [apply ends_word|]. intros name _.
    apply ends_bind; [apply ends_contains|]. intros b _. destruct b; [|ends_tac].
    apply ends_bind; [apply ends_parse_until|]. intros p3 H3%parse_until_len. apply ends_bind; [apply ends_word|]. intros rate _.
    apply ends_bind; [apply Hparam; lia|ends_tac].
  - apply ends_bind; [apply Hparam; lia|ends_tac].
Qed.

Lemma ends_media_attr attr s e al m : (forall p, al = Some p -> plen p <= plen s) -> ends (media_attr attr s e al m).
Proof.
  intros H. unfold media_attr. destruct al as [p|]; [pose proof (ends_parse_rtpmap s e p (H p eq_refl)) as Hr|]; ends_tac.
Qed.

Lemma ends_change_last f d : (forall m, ends (f m)) -> ends (change_last f d).
Proof. intros H. unfold change_last. ends_tac. Qed.

Lemma ends_parse_sdp_attr d s : ends (parse_sdp_attr d s).
Proof.
  unfold parse_sdp_attr. destruct (bool_decide _); [apply ends_Ok|]. apply ends_bind; [apply ends_deref|]. intros l _.
  destruct (skip_till_next_line l) as [le n]. apply ends_bind; [apply ends_contains|]. intros b _. apply ends_bind; [destruct b; ends_tac|].
  intros [attr al] Hal. apply ends_bind; [|ends_tac]. apply ends_change_last. intros m. apply ends_media_attr. intros p ->. destruct b.
  - apply bind_Ok in Hal as (q & Hq%parse_until_len & Hal). apply bind_Ok in Hal as (? & _ & [= _ <-]). lia.
  - by apply bind_Ok in Hal as (? & _ & [= _ ?]).
Qed.
#[export] Hint Resolve ends_parse_sdp_attr : sdp_ends.

Lemma ends_sdp_step undefined st c l d : ends (sdp_step undefined st c l d).
Proof.
  unfold sdp_step. destruct st; ends_tac. apply ends_change_last. ends_tac.
Qed.

(** The lines read are behind the first two characters of theirs. *)
Lemma sdp_skip_line_len s t next : skip_line s = Ok (t, next) -> len_of next <= plen s.
Proof.
  unfold skip_line. rewrite bind_Ok. intros (l & El & H). destruct s as [s|]; [|done]. injection El as ->.
  pose proof (skip_len l). destruct (skip_till_next_line l) as [nx n]. apply bind_Ok in H as (? & _ & [= _ <-]). cbn [fst plen] in *. lia.
Qed.

Lemma sdp_skip_line_len_lt c l t next : skip_line (Some (c :: l)) = Ok (t, next) -> len_of next < len_of (c :: l).
Proof.
  unfold skip_line. cbn [deref mbind res_bind]. pose proof (skip_len_lt c l). destruct (skip_till_next_line (c :: l)) as [nx n].
  intros H2. apply bind_Ok in H2 as (? & _ & [= _ <-]). cbn [fst] in *. lia.
Qed.

Lemma parse_connection_len s x next : parse_connection s = Ok (x, next) -> len_of next <= plen s.
Proof.
  unfold parse_connection. rewrite bind_Ok. intros (l & El & H). destruct s as [s|]; [|done]. injection El as ->.
  pose proof (skip_len l) as Hl. destruct (skip_till_next_line l) as [nx n]. cbn [fst plen] in *.
  assert (next = nx) as ->; [|lia]. destruct (n <=? 7); [by injection H|]. apply bind_Ok in H as (uc & _ & H).
  repeat match type of H with
         | (if ?b then _ else _) = _ => destruct b
         | _ ≫= _ = Ok _ => apply bind_Ok in H as (? & _ & H)
         | Ok _ = Ok _ => by injection H
         end.
Qed.

Lemma parse_session_attr_len c s x next : parse_session_attr c s = Ok (x, next) -> len_of next <= plen s.
Proof.
  unfold parse_session_attr. rewrite bind_Ok. intros (l & El & H). destruct s as [s|]; [|done]. injection El as ->.
  pose proof (skip_len l) as Hl. cbn [plen]. assert (next = [] \/ next = (skip_till_next_line l).1) as [->| ->]; [|cbn; lia|lia].
  repeat match type of H with
         | (if ?b then _ else _) = _ => destruct b
         | _ ≫= _ = Ok _ => apply bind_Ok in H as (? & _ & H)
         | Ok _ = Ok _ => injection H; auto
         end.
Qed.

Lemma parse_sdp_attr_len d s d' p : parse_sdp_attr d s = Ok (d', p) -> plen p <= plen s.
Proof.
  unfold parse_sdp_attr. destruct (bool_decide _); [by intros [= _ <-]|]. rewrite bind_Ok. intros (l & El & H). destruct s as [s|]; [|done].
  injection El as ->. pose proof (skip_len l) as Hl. destruct (skip_till_next_line l) as [nx n]. apply bind_Ok in H as (? & _ & H).
  apply bind_Ok in H as ([? ?] & _ & H). apply bind_Ok in H as (? & _ & [= _ <-]). cbn [plen fst] in *. lia.
Qed.

Lemma is_eql_len c l : plen (is_eql_next (c :: l)) < len_of (c :: l).
Proof. destruct l as [|x l]; cbn [is_eql_next plen length]; lia. Qed.

(** Every round goes on in the text, or enters the media part. *)
Lemma step_progress undefined st c l d st' p d' : sdp_step undefined st c l d = Ok (st', p, d') ->
  plen p < len_of (c :: l) \/ st = SDP_DESCR /\ st' = SDP_MEDIA /\ p = Some (c :: l).
Proof.
  pose proof (is_eql_len c l) as Heq. intros H. unfold sdp_step in H.
  assert (Hget : forall l' s, deref s = Ok l' -> plen (Some (get_next_line l')) <= plen s).
  { intros l' [s|] E; [|done]. injection E as ->. pose proof (next_len l'). cbn [plen]. lia. }
  destruct st;
  repeat match type of H with
         | (if ?b then _ else _) = _ => destruct b
         | _ ≫= _ = Ok _ => let x := fresh "x" in let E := fresh "E" in apply bind_Ok in H as (x & E & H);
             try match type of x with (_ * _)%type => destruct x end
         | Ok _ = Ok _ => injection H as <- <- <-
         end; try (right; by split_and!); left; cbn [plen];
  repeat match goal with
         | E : skip_line (Some (_ :: _)) = Ok _ |- _ => apply sdp_skip_line_len_lt in E
         | E : skip_line _ = Ok _ |- _ => apply sdp_skip_line_len in E
         | E : parse_connection _ = Ok _ |- _ => apply parse_connection_len in E
         | E : parse_session_attr _ _ = Ok _ |- _ => apply parse_session_attr_len in E
         | E : parse_sdp_attr _ _ = Ok _ |- _ => apply parse_sdp_attr_len in E
         | E : deref _ = Ok _ |- _ => apply Hget in E; cbn [plen] in E
         end; lia.
Qed.

Lemma sdp_loop_ends undefined fuel : forall st p d,
  2 * plen p + (match st with SDP_DESCR => 1 | SDP_MEDIA => 0 end) <= Z.of_nat fuel -> ends (sdp_loop undefined fuel st p d).
Proof.
  induction fuel as [|fuel IH]; intros st p d Hf; destruct p as [[|c l]|]; try done.
  - cbn [plen length] in Hf. destruct st; lia.
  - cbn [sdp_loop deref mbind res_bind]. apply ends_bind; [apply ends_sdp_step|]. intros [[st' p'] d'] Hs. apply IH.
    apply step_progress in Hs as [Hs|(-> & -> & ->)]; cbn [plen] in *; try destruct st; try destruct st'; lia.
Qed.

(** The parser ends on every text: its loops always go on in the text, so that the bound on the
    rounds is never reached. *)
Theorem sdp_parse_ends undefined text : sdp_parse undefined text <> Bad NoFuel.
Proof.
  change (ends (sdp_parse undefined text)). unfold sdp_parse. apply ends_bind; [|intros; apply ends_Ok].
  apply sdp_loop_ends. unfold sdp_fuel. cbn [plen]. lia.
Qed.

(** ** Comparison *)

Lemma mismatch_refl {A} (eqb : A -> A -> res bool) l : (forall x, x ∈ l -> eqb x x = Ok true) -> mismatch_end eqb l l = Ok true.
Proof.
  induction l as [|x l IH]; intros H; cbn [mismatch_end]; [done|]. rewrite H by left. cbn [mbind res_bind]. apply IH. intros y Hy. apply H. by right.
Qed.

Lemma conn_eqb_refl c : conn_eqb c c = true.
Proof. unfold conn_eqb. by rewrite !bool_decide_eq_true_2. Qed.

Lemma attr_eqb_refl a : pure_eqb attr_eqb a a = Ok true.
Proof. unfold pure_eqb, attr_eqb. by rewrite (bool_decide_eq_true_2 (attribute a = _)), (bool_decide_eq_true_2 (a_value a = a_value a)), orb_true_r. Qed.

Lemma payload_eqb_refl p : pure_eqb payload_eqb p p = Ok true.
Proof. unfold pure_eqb, payload_eqb. by rewrite !Z.eqb_refl, bool_decide_eq_true_2. Qed.

(** A list compared with itself, with and without the test of the second for emptiness. *)
Lemma vector_refl {A} (eqb : A -> A -> res bool) l : (forall x, eqb x x = Ok true) ->
  (if bool_decide (length l = 0%nat) then Ok (bool_decide (length l = 0%nat))
   else if bool_decide (length l = 0%nat) then Ok false else mismatch_end eqb l l) = Ok true /\
  (if bool_decide (length l = 0%nat) then Ok (bool_decide (length l = 0%nat)) else mismatch_end eqb l l) = Ok true.
Proof. intros H. case_bool_decide; [done|]. by rewrite mismatch_refl. Qed.

Lemma media_eqb_refl m : media_eqb m m = Ok true.
Proof.
  unfold media_eqb. destruct (vector_refl _ (payloads m) payload_eqb_refl) as [-> _]. cbn [mbind res_bind negb].
  destruct (vector_refl _ (m_attributes m) attr_eqb_refl) as [_ ->]. cbn [mbind res_bind negb].
  by rewrite conn_eqb_refl, !Z.eqb_refl, !eqb_reflx, !bool_decide_eq_true_2.
Qed.

(** A description equals itself. *)
Theorem sdp_eqb_refl d : sdp_eqb d d = Ok true.
Proof.
  unfold sdp_eqb, origin_eqb. destruct (vector_refl _ (s_attributes d) attr_eqb_refl) as [-> _]. cbn [mbind res_bind negb].
  destruct (vector_refl _ (media d) media_eqb_refl) as [-> _]. cbn [mbind res_bind negb].
  by rewrite !conn_eqb_refl, !Z.eqb_refl, !bool_decide_eq_true_2.
Qed.

(** A media description with attributes is compared with one that has none by reading the
    empty vector. *)
Theorem media_eqb_reads_behind m a : payloads m = [] -> media_eqb (m_set_attrs [a] m) (m_set_attrs [] m) = Bad OutOfBounds.
Proof. intros H. unfold media_eqb. cbn [payloads m_set_attrs m_attributes]. by rewrite H. Qed.

(** ** Answers *)

Lemma answer_payload_cases (payload : Z -> option (Z * list Z * Z)) (getDyn : list Z -> Z -> Z -> Z) p :
  let q := answer_payload payload getDyn p in
  q = [] \/ q = [p] /\ getDyn (encoding_name p) (clock_rate p) (encoding_param p) <> -1 \/
  exists id name rate, payload (payload_type p) = Some (id, name, rate) /\ q = [mk_payload MT_NONE id name rate [] [] 0].
Proof.
  cbn zeta. unfold answer_payload. destruct (payload_type p <? DYNAMIC_PAYLOAD_TYPE_START).
  - destruct (payload (payload_type p)) as [[[id name] rate]|]; [right; right; by exists id, name, rate|].
    destruct (Z.eqb_spec (getDyn (encoding_name p) (clock_rate p) (encoding_param p)) (-1)); auto.
  - destruct (Z.eqb_spec (getDyn (encoding_name p) (clock_rate p) (encoding_param p)) (-1)); auto.
Qed.

(** The answer to a media description, started from an empty one: the payloads are those offered
    ones that are supported, in the order of the offer; it sends only what the offerer receives
    and receives only what it sends; and the direction is mirrored. *)
Theorem answer_follows_offer (payload : Z -> option (Z * list Z * Z)) (getDyn : list Z -> Z -> Z -> Z) offer answer : payloads answer = [] ->
  let a := calcAnswer payload getDyn offer answer in
  (exists pick, Forall2 (fun p q => q = [] \/ q = [p] /\ getDyn (encoding_name p) (clock_rate p) (encoding_param p) <> -1 \/
      exists id name rate, payload (payload_type p) = Some (id, name, rate) /\ q = [mk_payload MT_NONE id name rate [] [] 0]) (payloads offer) pick /\
    payloads a = concat pick) /\
  (m_send a = true -> m_recv offer = true) /\ (m_recv a = true -> m_send offer = true) /\
  (m_dir a = DirActive <-> m_dir offer = DirPassive) /\ (m_dir a = DirPassive <-> m_dir offer = DirActive).
Proof.
  intros Ha. cbn zeta. split_and!.
  - exists (map (answer_payload payload getDyn) (payloads offer)). split; [|cbn; by rewrite Ha]. apply Forall2_fmap_r, Forall_Forall2_diag, Forall_forall.
    intros p _. apply answer_payload_cases.
  - cbn. intros [_ ?]%andb_true_iff. done.
  - cbn. intros [_ ?]%andb_true_iff. done.
  - cbn. by destruct (m_dir offer).
  - cbn. by destruct (m_dir offer).
Qed.

Lemma answer_follows_offer_witness :
  payloads (calcAnswer (fun pt => if pt =? 0 then Some (0, lit "PCMU", 8000) else None) (fun _ _ _ => -1)
     (mk_media MT_AUDIO 5004 0 TP_RTPAVP conn0 DirActive [] true true [mk_payload MT_AUDIO 0 [] (-1) [] [] (-1); mk_payload MT_AUDIO 9 [] (-1) [] [] (-1)] []) media0)
  = [mk_payload MT_NONE 0 (lit "PCMU") 8000 [] [] 0] /\
  (m_send (calcAnswer (fun _ => None) (fun _ _ _ => -1) media0 media0) = true -> m_recv media0 = true).
Proof.
  split; [done|]. destruct (answer_follows_offer (fun _ => None) (fun _ _ _ => -1) media0 media0 eq_refl) as (_ & H & _). exact H.
Defined.

(** ** Inputs that are not read as they are meant *)

(** A session attribute without name ([a=] and the line end) ends the parser with the exception
    of a string of negative length. *)
Theorem empty_attribute_throws undefined : sdp_parse undefined (lit "a=" ++ CRLF_) = Bad LengthError.
Proof. by vm_compute. Qed.

(** A media line that ends the text before its transport, and a line of a single letter, make the
    parser read behind the text. *)
Theorem short_lines_read_behind undefined :
  sdp_parse undefined (lit "m=audio 5004") = Bad OutOfBounds /\ sdp_parse undefined (lit "v") = Bad OutOfBounds.
Proof. by split; vm_compute. Qed.

(** An [rtpmap] line whose only slash is in the payload type is searched for another one up to
    the end of the text, and read behind it. *)
Theorem rtpmap_slash_reads_behind undefined :
  sdp_parse undefined (lit "m=audio 5004 RTP/AVP 0" ++ CRLF_ ++ lit "a=rtpmap:0/1 PCMU" ++ CRLF_) = Bad OutOfBounds.
Proof. by vm_compute. Qed.

(** The address of a connection line with a time to live or a number of addresses loses its last
    character. *)
Theorem multicast_address_cut undefined : exists d,
  sdp_parse undefined (lit "c=IN IP4 224.2.1.1/127" ++ CRLF_) = Ok (d, false) /\ address (s_conn d) = lit "224.2.1.".
Proof. eexists. by split; [vm_compute|]. Qed.

(** With a number of ports, that number is taken for the transport, and the transport and the
    payload types for the format. *)
Theorem port_count_shifts_line undefined : exists d m,
  sdp_parse undefined (lit "c=IN IP4 1.1.1.1" ++ CRLF_ ++ lit "m=audio 5004/2 RTP/AVP 0" ++ CRLF_) = Ok (d, false) /\ media d = [m] /\
  m_port m = 5004 /\ nports m = 2 /\ transport m = TP_NONE /\ payloads m = [] /\ m_fmt m = lit "RTP/AVP 0".
Proof. eexists _, _. split; [by vm_compute|]. by split_and!. Qed.

(** Values of one character are lost: of a session attribute (it becomes part of the name), of
    format parameters and of the format of another transport than RTP. *)
Theorem one_character_values undefined : exists d m1 m2,
  sdp_parse undefined (lit "c=IN IP4 1.1.1.1" ++ CRLF_ ++ lit "a=group:x" ++ CRLF_ ++ lit "m=audio 1 RTP/AVP 96" ++ CRLF_ ++
    lit "a=rtpmap:96 x/8000" ++ CRLF_ ++ lit "a=fmtp:96 1" ++ CRLF_ ++ lit "m=image 2 UDP t" ++ CRLF_) = Ok (d, false) /\
  s_attributes d = [mk_attr (lit "group:x") []] /\ media d = [m1; m2] /\
  map sdp_format_parameters (payloads m1) = [[]] /\ m_fmt m2 = [].
Proof. eexists _, _, _. split; [by vm_compute|]. by split_and!. Qed.

(** A line of an unknown type is taken for the URI. *)
Theorem unknown_line_is_uri undefined : exists d,
  sdp_parse undefined (lit "u=http://a" ++ CRLF_ ++ lit "z=0 0" ++ CRLF_) = Ok (d, false) /\ s_uri d = lit "z=0 0".
Proof. eexists. by split; [vm_compute|]. Qed.

(** A payload type that is no number leaves an uninitialised variable in the description. *)
Theorem bad_payload_type_undefined : let text := lit "c=IN IP4 1.1.1.1" ++ CRLF_ ++ lit "m=audio 1 RTP/AVP x" ++ CRLF_ in
  forall undefined, undefined = 77 \/ undefined = 4711 -> exists d m p,
    sdp_parse undefined text = Ok (d, false) /\ media d = [m] /\ payloads m = [p] /\ payload_type p = undefined.
Proof. cbn zeta. intros u [->| ->]; eexists _, _, _; (split; [by vm_compute|]); by split_and!. Qed.

(** ** The rtcp attribute *)

Lemma rtcp_digits ds rest p n a x : forallb IS_DIGIT ds = true -> 0 <= p -> dec_val p ds <= 65535 ->
  rtcp_loop (ds ++ rest) RS_PORT (mk_rtcp p n a x) = rtcp_loop rest RS_PORT (mk_rtcp (dec_val p ds) n a x).
Proof.
  revert p. induction ds as [|c ds IH]; intros p Hd Hp Hv; [done|]. cbn [forallb] in Hd. apply andb_true_iff in Hd as [Hc Hd].
  pose proof Hc as Hr%is_digit_range. change (dec_val p (c :: ds)) with (dec_val (p * 10 + (c - 48)) ds) in *.
  pose proof (dec_val_ge (p * 10 + (c - 48)) ds Hd ltac:(lia)). cbn [app rtcp_loop]. rewrite Hc. cbn [r_port nettype addrtype r_address].
  destruct (Z.gtb_spec (p * 10 + (c - 48)) 65535); [lia|]. apply IH; [done|lia|done].
Qed.

Definition no_space (l : list Z) : bool := forallb (fun c => negb (c =? 32)) l.

Lemma rtcp_net w rest p n a x : no_space w = true ->
  rtcp_loop (w ++ 32 :: rest) RS_NET_TYPE (mk_rtcp p n a x) = rtcp_loop rest RS_ADDR_TYPE (mk_rtcp p (n ++ w) a x).
Proof.
  revert n. induction w as [|c w IH]; intros n Hw; [by rewrite app_nil_r|]. unfold no_space in *. cbn [forallb] in Hw.
  apply andb_true_iff in Hw as [Hc%negb_true_iff Hw]. cbn [app rtcp_loop]. rewrite Hc. cbn [r_port nettype addrtype r_address]. rewrite IH by done. by rewrite <- app_assoc.
Qed.

Lemma rtcp_type w rest p n a x : no_space w = true ->
  rtcp_loop (w ++ 32 :: rest) RS_ADDR_TYPE (mk_rtcp p n a x) = rtcp_loop rest RS_ADDR (mk_rtcp p n (a ++ w) x).
Proof.
  revert a. induction w as [|c w IH]; intros a Hw; [by rewrite app_nil_r|]. unfold no_space in *. cbn [forallb] in Hw.
  apply andb_true_iff in Hw as [Hc%negb_true_iff Hw]. cbn [app rtcp_loop]. rewrite Hc. cbn [r_port nettype addrtype r_address]. rewrite IH by done. by rewrite <- app_assoc.
Qed.

Lemma rtcp_addr w p n a x : w <> [] -> rtcp_loop w RS_ADDR (mk_rtcp p n a x) = Some (mk_rtcp p n a (x ++ w)).
Proof.
  intros Hw. assert (H : forall w x, x ++ w <> [] -> rtcp_loop w RS_ADDR (mk_rtcp p n a x) = Some (mk_rtcp p n a (x ++ w))).
  { clear. induction w as [|c w IH]; intros x Hx; cbn [rtcp_loop r_port nettype addrtype r_address].
    - rewrite app_nil_r in *. by rewrite bool_decide_eq_false_2.
    - rewrite IH; [by rewrite <- app_assoc|]. by destruct x. }
  apply H. by destruct x.
Qed.

(** An rtcp attribute that was printed is read back, with the network type IN when it has an
    address. *)
Theorem rtcp_roundtrip r : 0 <= r_port r <= 65535 -> no_space (addrtype r) = true ->
  rtcp_parse (rtcp_print r) =
    Some (if bool_decide (r_address r = []) then mk_rtcp (r_port r) [] [] [] else mk_rtcp (r_port r) (lit "IN") (addrtype r) (r_address r)).
Proof.
  intros Hp Ht. unfold rtcp_parse, rtcp_print. unfold int2str_signed. rewrite (proj2 (Z.ltb_ge _ _)), Z.abs_eq by lia. fold (int2str (r_port r)).
  destruct (int2str_digits (r_port r)) as (Hne & Hd & Hv); [unfold UINT_MAX; lia|].
  rewrite (bool_decide_eq_false_2 (int2str (r_port r) ++ _ = [])) by (by destruct (int2str (r_port r))).
  rewrite rtcp_digits by (rewrite ?Hv; done || lia). rewrite Hv. case_bool_decide as E; [done|].
  change (lit " IN " ++ ?l) with (32 :: lit "IN" ++ 32 :: l). cbn [rtcp_loop]. change (IS_DIGIT 32) with false. cbn match. rewrite rtcp_net by done.
  change (lit " " ++ ?l) with (32 :: l). rewrite rtcp_type by done. by rewrite rtcp_addr.
Qed.

Lemma rtcp_roundtrip_witness : rtcp_parse (rtcp_print (mk_rtcp 5005 [] (lit "IP4") (lit "1.2.3.4"))) = Some (mk_rtcp 5005 (lit "IN") (lit "IP4") (lit "1.2.3.4")).
Proof. apply (rtcp_roundtrip (mk_rtcp 5005 [] (lit "IP4") (lit "1.2.3.4"))); [cbn; lia|done]. Defined.
