(* ===== verification/MimeParser.v ===== *)
(** * The parser and the printer of message bodies

    Model of [core/AmMimeBody.cpp] on the bytes: content types with their parameters, the
    search for the boundary of a multipart body, parts and nested parts, the printer and the
    operations that copy, convert and delete.  [MimeView] relates it to the bodies of
    [MimeBody], on which the dialogs work. *)

From Stdlib Require Import ZArith Lia String.
From stdpp Require Import base list.
From S2P Require Import Prelude ParseCommon SipHeader ParseParams.

Local Open Scope Z_scope.
Local Open Scope bool_scope.

#[local] Set Warnings "-register-all".

(** ** Content types *)

Definition MULTIPART : list Z := lit "multipart".
Definition MULTIPART_MIXED : list Z := lit "multipart/mixed".
Definition BOUNDARY_str : list Z := lit "boundary".

(** [AmContentType::Param::Type] *)
Inductive param_type := UNPARSED | BOUNDARY | OTHER.

#[global] Instance param_type_eq_dec : EqDecision param_type.
Proof. solve_decision. Defined.

(** [AmContentType::Param] *)
Record Param := mk_param { p_type : param_type; p_name : list Z; p_value : list Z }.

#[global] Instance Param_eq_dec : EqDecision Param.
Proof. solve_decision. Defined.

(** [AmContentType]; the pointer [mp_boundary] always is the last parameter of type
    [BOUNDARY] ([mp_boundary] below). *)
Record AmContentType := mk_ct { t_type : list Z; t_subtype : list Z; t_params : list Param }.

Definition ct0 : AmContentType := mk_ct [] [] [].

Definition set_type (x : list Z) (t : AmContentType) : AmContentType := mk_ct x (t_subtype t) (t_params t).
Definition set_subtype (x : list Z) (t : AmContentType) : AmContentType := mk_ct (t_type t) x (t_params t).

Definition is_boundary (p : Param) : bool := bool_decide (p_type p = BOUNDARY).

Definition mp_boundary (t : AmContentType) : option (list Z) :=
  match last (List.filter is_boundary (t_params t)) with Some p => Some (p_value p) | None => None end.

(** [Param::parseType]: the parameter with its type, or the error. *)
Definition parseType (p : Param) : option Param :=
  if Nat.eqb (length (p_name p)) (length BOUNDARY_str) && (lower_cmp (p_name p) BOUNDARY_str =? 0) then
    if bool_decide (p_value p = []) then None
    else
      let v := p_value p in
      if Nat.leb 2 (length v) && bool_decide (head v = Some DQUOTE) && bool_decide (last v = Some DQUOTE) then
        let v := take (length v - 2) (tail v) in
        if bool_decide (v = []) then None else Some (mk_param BOUNDARY (p_name p) v)
      else Some (mk_param BOUNDARY (p_name p) v)
  else Some (mk_param OTHER (p_name p) (p_value p)).

(** The loop of [parseParams] over what [parse_gen_params_sc] returned: the parameters before
    the first bad one are kept. *)
Fixpoint add_params (l : list (list Z * list Z)) (t : AmContentType) : AmContentType * Z :=
  match l with
  | [] => (t, 0)
  | (n, v) :: l =>
      match parseType (mk_param UNPARSED n v) with
      | None => (t, -1)
      | Some p => add_params l (mk_ct (t_type t) (t_subtype t) (t_params t ++ [p]))
      end
  end.

Definition parseParams (m : mem) (c e : Z) (t : AmContentType) : option (AmContentType * Z) :=
  '(_, avps, r) ← parse_gen_params_sc m c e 0 [];
  Some (if r <? 0 then (t, -1) else add_params (map (avp_text m) avps) t).

Definition CT_TYPE : Z := 0.
Definition CT_SLASH_SWS : Z := 1.
Definition CT_SUBTYPE_SWS : Z := 2.
Definition CT_SUBTYPE : Z := 3.

(** The local variables of [AmContentType::parse] and the object. *)
Record ct_state := mk_cts { cs_c : Z; cs_beg : Z; cs_st : Z; cs_saved : Z; cs_ct : AmContentType }.

Definition cs_set_c (x : Z) (p : ct_state) : ct_state := mk_cts x (cs_beg p) (cs_st p) (cs_saved p) (cs_ct p).
Definition cs_set_st (x : Z) (p : ct_state) : ct_state := mk_cts (cs_c p) (cs_beg p) x (cs_saved p) (cs_ct p).
Definition cs_set_ct (f : AmContentType -> AmContentType) (p : ct_state) : ct_state :=
  mk_cts (cs_c p) (cs_beg p) (cs_st p) (cs_saved p) (f (cs_ct p)).

(** [case_CR_LF] *)
Definition cs_save_eol (x : Z) (p : ct_state) : ct_state := mk_cts (cs_c p) (cs_beg p) x (cs_st p) (cs_ct p).

(** [string(beg,(c-d)-beg)] *)
Definition cs_text (m : mem) (d : Z) (p : ct_state) : list Z := chars m (mk_cstr (cs_beg p) (cs_c p - d - cs_beg p)).

(** The value returned by the loop where the source returns [parseParams(c,end)]. *)
Definition TO_PARAMS : Z := 1.

Definition ct_char (m : mem) (p : ct_state) : outcome ct_state :=
  let ch := m (cs_c p) in
  let st := cs_st p in
  if st =? CT_TYPE then
    if ch =? CR then Go (cs_save_eol ST_CR p)
    else if ch =? LF then Go (cs_save_eol ST_LF p)
    else if (ch =? SP) || (ch =? HTAB) then Go (cs_set_st CT_SLASH_SWS (cs_set_ct (set_type (cs_text m 0 p)) p))
    else if ch =? SLASH then Go (cs_set_st CT_SUBTYPE_SWS (cs_set_ct (set_type (cs_text m 0 p)) p))
    else Go p
  else if st =? CT_SLASH_SWS then
    if ch =? CR then Go (cs_save_eol ST_CR p)
    else if ch =? LF then Go (cs_save_eol ST_LF p)
    else if (ch =? SP) || (ch =? HTAB) then Go p
    else if ch =? SLASH then Go (cs_set_st CT_SUBTYPE_SWS p)
    else Ret p (-1)
  else if st =? CT_SUBTYPE_SWS then
    if ch =? CR then Go (cs_save_eol ST_CR p)
    else if ch =? LF then Go (cs_save_eol ST_LF p)
    else if (ch =? SP) || (ch =? HTAB) then Go p
    else Go (mk_cts (cs_c p) (cs_c p) CT_SUBTYPE (cs_saved p) (cs_ct p))
  else if st =? CT_SUBTYPE then
    if ch =? CR then Go (cs_save_eol ST_CR p)
    else if ch =? LF then Go (cs_save_eol ST_LF p)
    else if (ch =? SP) || (ch =? HTAB) || (ch =? SEMICOLON)
    then Ret (cs_set_ct (set_subtype (cs_text m 0 p)) p) TO_PARAMS
    else Go p
  else if st =? ST_CR then
    if ch =? LF then Go (cs_set_st ST_CRLF p) else Ret p MALFORMED_SIP_MSG
  else if (st =? ST_LF) || (st =? ST_CRLF) then
    if cs_saved p =? CT_TYPE then
      if negb (IS_WSP ch) then Ret p (-1)
      else let p := cs_set_ct (set_type (cs_text m (eol_len st) p)) p in
           Go (mk_cts (cs_c p) (cs_beg p) CT_SLASH_SWS CT_SLASH_SWS (cs_ct p))
    else if (cs_saved p =? CT_SLASH_SWS) || (cs_saved p =? CT_SUBTYPE_SWS) then
      if negb (IS_WSP ch) then Ret p (-1) else Go (cs_set_st (cs_saved p) p)
    else
      let p := cs_set_ct (set_subtype (cs_text m (eol_len st) p)) p in
      if negb (IS_WSP ch) then Ret p 0 else Ret p TO_PARAMS
  else Go p.

(** The [switch] after the loop. *)
Definition ct_end (m : mem) (p : ct_state) : AmContentType * Z :=
  let st := cs_st p in
  if (st =? CT_TYPE) || (st =? CT_SLASH_SWS) || (st =? CT_SUBTYPE_SWS) then (cs_ct p, -1)
  else if st =? CT_SUBTYPE then (set_subtype (cs_text m 0 p) (cs_ct p), 0)
  else (cs_ct p, 0).

(** [AmContentType::parse] on the characters of a string; [None] is out of fuel. *)
Definition ct_parse (txt : list Z) (t : AmContentType) : option (AmContentType * Z) :=
  let m := mem_at 0 txt in
  let e := Z.of_nat (length txt) in
  match run_loop cs_c cs_set_c ct_char (S (length txt)) m e (mk_cts 0 0 CT_TYPE 0 t) with
  | None => None
  | Some (p, Some r) => if r =? TO_PARAMS then parseParams m (cs_c p) e (cs_ct p) else Some (cs_ct p, r)
  | Some (p, None) => Some (ct_end m p)
  end.

Definition isType (t : list Z) (c : AmContentType) : bool := lower_cmp_n t (t_type c) =? 0.
Definition isSubType (t : list Z) (c : AmContentType) : bool := lower_cmp_n t (t_subtype c) =? 0.

Definition no_type (c : AmContentType) : bool := bool_decide (t_type c = []) && bool_decide (t_subtype c = []).

(** [AmContentType::hasContentType] *)
Definition ct_has (content_type : list Z) (c : AmContentType) : bool :=
  let e := bool_decide (content_type = []) in
  if e && no_type c then true
  else if negb (Bool.eqb e (no_type c)) then false
  else lower_cmp_n (t_type c ++ lit "/" ++ t_subtype c) content_type =? 0.

Definition getStr (c : AmContentType) : list Z :=
  if no_type c then [] else t_type c ++ lit "/" ++ t_subtype c.

Definition param_hdr (p : Param) : list Z := lit ";" ++ p_name p ++ lit "=" ++ p_value p.

Definition getHdr (c : AmContentType) : list Z :=
  if bool_decide (getStr c = []) then [] else getStr c ++ concat (map param_hdr (t_params c)).

(** [int2hex] with upper case digits. *)
Definition hex_digit (d : Z) : Z := if d <? 10 then 48 + d else 55 + d.

Definition int2hex (v : Z) : list Z :=
  map (fun i => hex_digit (v / 16 ^ Z.of_nat (7 - i) mod 16)) (seq 0 8).

(** [resetBoundary] with the random number [rnd]. *)
Definition resetBoundary (rnd : Z) (t : AmContentType) : AmContentType :=
  mk_ct (t_type t) (t_subtype t)
    (List.filter (fun p => negb (is_boundary p)) (t_params t) ++ [mk_param BOUNDARY BOUNDARY_str (int2hex rnd)]).

(** ** Bodies *)

(** [AmMimeBody]; a null [payload] is [None]. *)
Inductive AmMimeBody :=
  mk_body (b_ct : AmContentType) (b_hdrs : list Z) (content_len : Z) (b_payload : option (list Z)) (b_parts : list AmMimeBody).

Definition b_ct (b : AmMimeBody) := let 'mk_body x _ _ _ _ := b in x.
Definition b_hdrs (b : AmMimeBody) := let 'mk_body _ x _ _ _ := b in x.
Definition content_len (b : AmMimeBody) := let 'mk_body _ _ x _ _ := b in x.
Definition b_payload (b : AmMimeBody) := let 'mk_body _ _ _ x _ := b in x.
Definition b_parts (b : AmMimeBody) := let 'mk_body _ _ _ _ x := b in x.

Definition body0 : AmMimeBody := mk_body ct0 [] 0 None [].

Definition b_set_ct (t : AmContentType) (b : AmMimeBody) : AmMimeBody :=
  mk_body t (b_hdrs b) (content_len b) (b_payload b) (b_parts b).
Definition b_set_hdrs (h : list Z) (b : AmMimeBody) : AmMimeBody :=
  mk_body (b_ct b) h (content_len b) (b_payload b) (b_parts b).
Definition b_set_parts (l : list AmMimeBody) (b : AmMimeBody) : AmMimeBody :=
  mk_body (b_ct b) (b_hdrs b) (content_len b) (b_payload b) l.

(** [setPayload] *)
Definition b_set_payload (x : list Z) (b : AmMimeBody) : AmMimeBody :=
  mk_body (b_ct b) (b_hdrs b) (Z.of_nat (length x)) (Some x) (b_parts b).

(** [AmMimeBody::empty] *)
Definition b_empty (b : AmMimeBody) : bool :=
  (bool_decide (b_payload b = None) || (content_len b =? 0)) &&
  match b_parts b with [] => true | _ => false end.

(** ** Boundaries *)

Definition B_START : Z := 0.
Definition B_CR : Z := 1.
Definition B_LF : Z := 2.
Definition B_HYPHEN : Z := 3.
Definition B_BOUNDARY : Z := 4.
Definition B_HYPHEN2 : Z := 5.
Definition B_HYPHEN3 : Z := 6.
Definition B_CR2 : Z := 7.
Definition B_LF2 : Z := 8.
Definition B_MATCHED : Z := 9.

(** The local variables of [findNextBoundary]: [c], [*beg], the characters of the boundary
    that are still to come ([b] up to [b_end]), [st], [is_final]. *)
Record fb_state := mk_fb { fb_c : Z; fb_beg : Z; fb_b : list Z; fb_st : Z; fb_final : bool }.

Definition fb_go (st : Z) (s : fb_state) : fb_state := mk_fb (fb_c s) (fb_beg s) (fb_b s) st (fb_final s).

Section Boundary.
Variable bd : list Z.   (* the text of the boundary, [b_ini] *)

(** [*beg = c; st = B_CR] *)
Definition fb_cr (s : fb_state) : fb_state := mk_fb (fb_c s) (fb_c s) (fb_b s) B_CR (fb_final s).

(** [case_BOUNDARY2] *)
Definition fb_expect (ch x st : Z) (s : fb_state) : fb_state :=
  if ch =? x then fb_go st s else mk_fb (fb_c s) (fb_beg s) bd B_START false.

Definition fb_char (ch : Z) (s : fb_state) : fb_state :=
  let st := fb_st s in
  if st =? B_START then if ch =? CR then fb_cr s else s
  else if st =? B_CR then if ch =? LF then fb_go B_LF s else fb_go B_START s
  else if st =? B_LF then
    if ch =? HYPHEN then fb_go B_HYPHEN s else if ch =? CR then fb_cr s else fb_go B_START s
  else if st =? B_HYPHEN then if ch =? HYPHEN then fb_go B_BOUNDARY s else fb_go B_START s
  else if st =? B_BOUNDARY then
    match fb_b s with
    | x :: b =>
        if ch =? x
        then mk_fb (fb_c s) (fb_beg s) b (if bool_decide (b = []) then B_HYPHEN2 else st) (fb_final s)
        else mk_fb (fb_c s) (fb_beg s) bd B_START (fb_final s)
    | [] => s   (* the boundary is not empty: [parseType] *)
    end
  else if st =? B_HYPHEN2 then
    if ch =? HYPHEN then mk_fb (fb_c s) (fb_beg s) (fb_b s) B_HYPHEN3 true
    else if ch =? CR then fb_go B_LF2 s
    else mk_fb (fb_c s) (fb_beg s) bd B_START (fb_final s)
  else if st =? B_HYPHEN3 then fb_expect ch HYPHEN B_CR2 s
  else if st =? B_CR2 then fb_expect ch CR B_LF2 s
  else if st =? B_LF2 then fb_expect ch LF B_MATCHED s
  else s.

Definition fb_next (s : fb_state) : fb_state := mk_fb (fb_c s + 1) (fb_beg s) (fb_b s) (fb_st s) (fb_final s).

Definition fb_more (e : Z) (s : fb_state) : bool :=
  negb (fb_st s =? B_MATCHED) && (fb_c s <? e - Z.of_nat (length (fb_b s))).

Fixpoint fb_loop (fuel : nat) (m : mem) (e : Z) (s : fb_state) : option fb_state :=
  match fuel with
  | O => None
  | S fuel => if fb_more e s then fb_loop fuel m e (fb_next (fb_char (m (fb_c s)) s)) else Some s
  end.

Definition fb_start (m : mem) (beg : Z) : fb_state :=
  mk_fb beg beg bd (if m beg =? HYPHEN then B_LF else B_START) false.

(** [*beg], [*end] and the value returned. *)
Definition fb_result (e : Z) (s : fb_state) : Z * Z * Z :=
  if (fb_st s =? B_MATCHED) || (fb_st s =? B_HYPHEN3) || (fb_st s =? B_CR2) || (fb_st s =? B_LF2)
  then (fb_beg s, fb_c s, if fb_final s then 1 else 0)
  else (fb_beg s, e, -1).

End Boundary.

(** [findNextBoundary(&beg,&end)]; [None] is out of fuel. *)
Definition findNextBoundary (m : mem) (t : AmContentType) (beg e : Z) : option (Z * Z * Z) :=
  match mp_boundary t with
  | None => Some (beg, e, -1)
  | Some bd => s ← fb_loop bd (S (Z.to_nat (e - beg))) m e (fb_start bd m beg); Some (fb_result e s)
  end.

(** ** Parsing bodies *)

(** The loop of [parseSinglePart] over the headers: the content type and the text of the
    other headers. *)
Fixpoint sub_headers (m : mem) (hs : list sip_header) (sub_ct sub_hdrs : list Z) : list Z * list Z :=
  match hs with
  | [] => (sub_ct, sub_hdrs)
  | h :: hs =>
      if bool_decide (type h = H_CONTENT_TYPE) then sub_headers m hs (chars m (value h)) sub_hdrs
      else sub_headers m hs sub_ct (sub_hdrs ++ chars m (name h) ++ lit ": " ++ chars m (value h) ++ CRLF)
  end.

(** A part whose content type is missing or whose parsing failed. *)
Definition raw_part (x : list Z) (b : AmMimeBody) : AmMimeBody :=
  b_set_payload x (b_set_ct (set_subtype [] (set_type [] (b_ct b))) b).

Section Parts.
(** [parse] for the parts. *)
Variable sub_parse : list Z -> Z -> Z -> AmMimeBody -> option (AmMimeBody * Z).

(** [parseSinglePart]; the caller only logs an error, which leaves the body as it is. *)
Definition parseSinglePart (m : mem) (buf len_ : Z) (b : AmMimeBody) : option AmMimeBody :=
  let e := buf + len_ in
  '(hs, c, r) ← parse_headers m buf e;
  if r <? 0 then Some b
  else
    let '(sub_ct, sub_hdrs) := sub_headers m hs [] [] in
    let rest := bytes m c (Z.to_nat (e - c)) in
    sub_part ←
      (if bool_decide (sub_ct = []) then Some (raw_part rest body0)
       else '(p, r) ← sub_parse sub_ct c (e - c) body0; Some (if r =? 0 then p else raw_part rest p));
    Some (b_set_parts (b_parts b ++ [b_set_hdrs sub_hdrs sub_part]) b).

(** The [do] loop of [parseMultipart]. *)
Fixpoint parts_loop (fuel : nat) (m : mem) (part_beg buf_end : Z) (b : AmMimeBody) : option (AmMimeBody * Z) :=
  match fuel with
  | O => None
  | S fuel =>
      '(part_end, next_part, err) ← findNextBoundary m (b_ct b) part_beg buf_end;
      if err <? 0 then Some (b, -1)
      else
        b ← parseSinglePart m part_beg (part_end - part_beg) b;
        if err =? 0 then parts_loop fuel m next_part buf_end b else Some (b, 0)
  end.

Definition parseMultipart (m : mem) (buf len_ : Z) (b : AmMimeBody) : option (AmMimeBody * Z) :=
  match mp_boundary (b_ct b) with
  | None => Some (b, -1)
  | Some _ =>
      '(_, next_part, err) ← findNextBoundary m (b_ct b) buf (buf + len_);
      if err <? 0 then Some (b, -1) else parts_loop (S (Z.to_nat len_)) m next_part (buf + len_) b
  end.

End Parts.

(** [AmMimeBody::parse] of [len_] bytes at [buf]; the fuel bounds the nesting. *)
Fixpoint body_parse (fuel : nat) (m : mem) (content_type : list Z) (buf len_ : Z) (b : AmMimeBody) : option (AmMimeBody * Z) :=
  match fuel with
  | O => None
  | S fuel =>
      '(t, r) ← ct_parse content_type (b_ct b);
      let b := b_set_ct t b in
      if r <? 0 then Some (b, -1)
      else if isType MULTIPART t then parseMultipart (body_parse fuel m) m buf len_ b
      else Some (b_set_payload (bytes m buf (Z.to_nat len_)) b, 0)
  end.

Definition mime_parse (m : mem) (content_type : list Z) (buf len_ : Z) (b : AmMimeBody) : option (AmMimeBody * Z) :=
  body_parse (S (Z.to_nat len_)) m content_type buf len_ b.

(** ** Printing *)

Definition boundary_text (t : AmContentType) : list Z := match mp_boundary t with Some v => v | None => [] end.

(** A part with its delimiter, [x] being its printed body. *)
Definition part_text (bd : list Z) (p : AmMimeBody) (x : list Z) : list Z :=
  lit "--" ++ bd ++ CRLF ++ lit "Content-Type: " ++ getHdr (b_ct p) ++ CRLF ++ b_hdrs p ++ CRLF ++ x ++ CRLF.

Section PrintParts.
Variables (pr : AmMimeBody -> option (list Z)) (bd : list Z).

Fixpoint print_parts (ps : list AmMimeBody) : option (list Z) :=
  match ps with
  | [] => Some []
  | p :: ps => x ← pr p; y ← print_parts ps; Some (part_text bd p x ++ y)
  end.
End PrintParts.

(** [print]; [None]: a null payload is read. *)
Fixpoint mime_print (b : AmMimeBody) : option (list Z) :=
  let 'mk_body t _ n pl ps := b in
  if b_empty b then Some []
  else if negb (n =? 0) then p ← pl; Some (take (Z.to_nat n) p)
  else
    let bd := boundary_text t in
    x ← print_parts mime_print bd ps;
    Some (x ++ match ps with [] => [] | _ => lit "--" ++ bd ++ lit "--" ++ CRLF end).

(** ** Changing bodies *)

(** The copy constructor: a payload of length 0 is not copied. *)
Fixpoint b_copy (b : AmMimeBody) : AmMimeBody :=
  let 'mk_body t h n pl ps := b in
  match pl with
  | Some p => if n =? 0 then mk_body t h 0 None (map b_copy ps)
              else mk_body t h n (Some (take (Z.to_nat n) p)) (map b_copy ps)
  | None => mk_body t h 0 None (map b_copy ps)
  end.

(** [operator=] from another body. *)
Definition b_assign (r b : AmMimeBody) : AmMimeBody :=
  let c := b_copy r in
  mk_body (b_ct r) (b_hdrs r) (match b_payload c with Some _ => content_len c | None => content_len b end)
          (b_payload c) (b_parts c).

(** [addPart] of a finished part. *)
Definition b_pushPart (p b : AmMimeBody) : AmMimeBody := b_set_parts (b_parts b ++ [b_copy p]) b.

Definition b_clear (b : AmMimeBody) : AmMimeBody := mk_body ct0 (b_hdrs b) 0 None [].

(** [convertToMultipart] with the random number of the boundary. *)
Definition b_convertToMultipart (rnd : Z) (b : AmMimeBody) : AmMimeBody :=
  let n_ct := resetBoundary rnd (mk_ct MULTIPART (lit "mixed") []) in
  mk_body n_ct (b_hdrs b) 0 (b_payload b) (b_parts b ++ [b_copy b]).

(** [convertToSinglepart]; [None]: a null payload is copied. *)
Definition convertToSinglepart (b : AmMimeBody) : option AmMimeBody :=
  match b_parts b with
  | [p] =>
      x ← match b_payload p with Some x => Some (take (Z.to_nat (content_len p)) x)
          | None => if content_len p =? 0 then Some [] else None end;
      Some (mk_body (b_ct p) (b_hdrs b) (content_len p) (Some x) [])
  | _ => Some b
  end.

(** [hasContentType(..) != NULL] *)
Fixpoint b_contains (content_type : list Z) (b : AmMimeBody) : bool :=
  let 'mk_body t _ _ _ ps := b in
  ct_has content_type t || (isType MULTIPART t && existsb (b_contains content_type) ps).

(** The first part that [hasContentType] accepts. *)
Fixpoint b_find (content_type : list Z) (i : nat) (ps : list AmMimeBody) : option nat :=
  match ps with
  | [] => None
  | p :: ps => if b_contains content_type p then Some i else b_find content_type (S i) ps
  end.

(** [hasContentType]: the body itself ([Some None]) or one of its parts ([Some (Some i)]). *)
Definition b_hasContentType (content_type : list Z) (b : AmMimeBody) : option (option nat) :=
  if ct_has content_type (b_ct b) then Some None
  else if isType MULTIPART (b_ct b)
  then match b_find content_type 0 (b_parts b) with Some i => Some (Some i) | None => None end
  else None.

(** [addPart]: the body and the part to fill, as above; [None] in place of it is NULL, and
    [None] as a whole out of fuel. *)
Definition b_addPart (rnd : Z) (content_type : list Z) (b : AmMimeBody) : option (AmMimeBody * option (option nat)) :=
  if no_type (b_ct b) then
    '(t, r) ← ct_parse content_type (b_ct b);
    Some (b_set_ct t b, if r =? 0 then Some None else None)
  else if negb (isType MULTIPART (b_ct b)) then
    let b := b_convertToMultipart rnd b in
    '(t, r) ← ct_parse content_type ct0;
    Some (if r =? 0
          then (b_set_parts (b_parts b ++ [b_set_ct t body0]) b, Some (Some (length (b_parts b))))
          else (b, None))
  else Some (b, None).

(** [deletePart]; [None]: a null payload is copied. *)
Definition deletePart (content_type : list Z) (b : AmMimeBody) : option (AmMimeBody * Z) :=
  if negb (isType MULTIPART (b_ct b)) then Some (b, -1)
  else match b_find content_type 0 (b_parts b) with
       | None => Some (b, -1)
       | Some i =>
           let b := b_set_parts (take i (b_parts b) ++ drop (S i) (b_parts b)) b in
           if Nat.eqb (length (b_parts b)) 1 then b ← convertToSinglepart b; Some (b, 0) else Some (b, 0)
       end.
