(* ===== verification/MimeRoundtrip.v ===== *)
(** * Message bodies: what is printed is parsed

    The parser of [MimeParser] ends on every body; content types, and bodies with parts and
    nested parts, survive being printed and parsed.  The theorems at the end state what the
    code does where it does not do what it means to. *)

From Stdlib Require Import ZArith Lia String.
From stdpp Require Import base list.
From S2P Require Import Prelude ParseCommon SipHeader ParseParams MimeParser.

Local Open Scope Z_scope.
Local Open Scope bool_scope.

#[local] Set Warnings "-register-all".

(** ** Content types *)

Definition type_char (c : Z) : bool := text_char c && negb ((c =? SP) || (c =? HTAB) || (c =? SLASH)).
Definition subtype_char (c : Z) : bool := text_char c && negb ((c =? SP) || (c =? HTAB) || (c =? SEMICOLON)).

(** A parameter that is written without quotes, with the type that [parseType] gives it. *)
Definition good_ct_param (p : Param) : bool :=
  good_param 0 (p_name p, Token (p_value p)) &&
  bool_decide (parseType (mk_param UNPARSED (p_name p) (p_value p)) = Some p).

Definition good_ct (t : AmContentType) : bool :=
  negb (Nat.eqb (length (t_type t)) 0) && forallb type_char (t_type t) &&
  negb (Nat.eqb (length (t_subtype t)) 0) && forallb subtype_char (t_subtype t) &&
  forallb good_ct_param (t_params t).

Definition ct_param (p : Param) : list Z * pvalue := (p_name p, Token (p_value p)).

Lemma getHdr_good t : good_ct t = true ->
  getHdr t = t_type t ++ SLASH :: t_subtype t ++ params_wr (map ct_param (t_params t)).
Proof.
  unfold good_ct. intros H. zbool. unfold getHdr, getStr, no_type.
  destruct (t_type t) as [|x l]; [done|]. rewrite (bool_decide_false (x :: l = [])) by done. cbn [andb].
  rewrite bool_decide_false by done. change (lit "/") with [SLASH]. cbn [app]. f_equal.
  rewrite <- app_assoc. f_equal. cbn [app]. do 2 f_equal. unfold params_wr. by rewrite flat_map_concat_map, map_map.
Qed.

Lemma type_char_spec c : type_char c = true -> c <> 0 /\ c <> CR /\ c <> LF /\ c <> SP /\ c <> HTAB /\ c <> SLASH.
Proof. unfold type_char, text_char. intros H. zbool. repeat split; assumption. Qed.

Lemma subtype_char_spec c : subtype_char c = true -> c <> 0 /\ c <> CR /\ c <> LF /\ c <> SP /\ c <> HTAB /\ c <> SEMICOLON.
Proof. unfold subtype_char, text_char. intros H. zbool. repeat split; assumption. Qed.

Lemma ct_type_step m p : cs_st p = CT_TYPE -> type_char (m (cs_c p)) = true -> ct_char m p = Go p.
Proof.
  intros Hs (_ & H1%Z.eqb_neq & H2%Z.eqb_neq & H3%Z.eqb_neq & H4%Z.eqb_neq & H5%Z.eqb_neq)%type_char_spec.
  unfold ct_char. rewrite Hs. cbn [CT_TYPE Z.eqb]. by rewrite H1, H2, H3, H4, H5.
Qed.

Lemma ct_subtype_step m p : cs_st p = CT_SUBTYPE -> subtype_char (m (cs_c p)) = true -> ct_char m p = Go p.
Proof.
  intros Hs (_ & H1%Z.eqb_neq & H2%Z.eqb_neq & H3%Z.eqb_neq & H4%Z.eqb_neq & H5%Z.eqb_neq)%subtype_char_spec.
  unfold ct_char. rewrite Hs. cbn [CT_SUBTYPE CT_SUBTYPE_SWS CT_SLASH_SWS CT_TYPE Z.eqb Pos.eqb].
  by rewrite H1, H2, H3, H4, H5.
Qed.

Lemma ct_subtype_first m p : cs_st p = CT_SUBTYPE_SWS -> subtype_char (m (cs_c p)) = true ->
  ct_char m p = Go (mk_cts (cs_c p) (cs_c p) CT_SUBTYPE (cs_saved p) (cs_ct p)).
Proof.
  intros Hs (_ & H1%Z.eqb_neq & H2%Z.eqb_neq & H3%Z.eqb_neq & H4%Z.eqb_neq & H5%Z.eqb_neq)%subtype_char_spec.
  unfold ct_char. rewrite Hs. cbn [CT_SUBTYPE CT_SUBTYPE_SWS CT_SLASH_SWS CT_TYPE Z.eqb Pos.eqb].
  by rewrite H1, H2, H3, H4.
Qed.

Local Notation "'ct_to' m e x y" := (loop_to cs_c cs_set_c ct_char m e x y) (at level 10, m, e, x, y at level 9).

Ltac cs_cbn := unfold advance, cs_set_c, cs_set_st, cs_set_ct; cbn [cs_c cs_beg cs_st cs_saved cs_ct].

(** The loop up to the end of the subtype. *)
Lemma ct_to_subtype m e (ty st rest : list Z) y :
  forallb type_char ty = true -> st <> [] -> forallb subtype_char st = true ->
  holds m 0 (ty ++ SLASH :: st ++ rest) ->
  Z.of_nat (length (ty ++ SLASH :: st)) <= e ->
  let c := Z.of_nat (length (ty ++ SLASH :: st)) in
  ct_to m e (mk_cts c (c - Z.of_nat (length st)) CT_SUBTYPE 0 (mk_ct ty [] [])) y ->
  ct_to m e (mk_cts 0 0 CT_TYPE 0 ct0) y.
Proof.
  intros Hty Hne Hst Hh He c Hy. subst c. rewrite forallb_forall in Hty, Hst.
  apply holds_app in Hh as [Hht Hh]. apply holds_cons in Hh as [Hsl Hh]. apply holds_app in Hh as [Hhs _].
  rewrite length_app in *. cbn [length] in *. destruct st as [|x st]; [done|]. clear Hne.
  apply holds_cons in Hhs as [Hx Hhs]. cbn [length] in *.
  eapply (loop_run _ _ _ (fun p => cs_st p = CT_TYPE) _ _ _ ty); try done; [by intros []|cbn; lia| |].
  { intros a z Hin%list_elem_of_In%Hty Hz <-. by apply ct_type_step. }
  cs_cbn. rewrite Z.add_0_l in *.
  eapply loop_step; [cbn; lia|unfold ct_char; cbn [cs_c cs_st]; by rewrite Hsl|].
  cs_cbn.
  eapply loop_step; [cbn; lia|apply ct_subtype_first; [done|]; cbn [cs_c]; rewrite Hx; apply Hst; by left|].
  cs_cbn.
  eapply (loop_run _ _ _ (fun p => cs_st p = CT_SUBTYPE) _ _ _ st); try done; [by intros []|cbn; lia| |].
  { intros a z Hin Hz <-. apply ct_subtype_step; [done|]. apply Hst. right. by apply list_elem_of_In. }
  cs_cbn.
  unfold cs_text, set_type. cbn [cs_beg cs_c t_subtype t_params ct0].
  rewrite !Z.sub_0_r, (chars_holds _ _ _ Hht).
  replace (Z.of_nat (length ty) + 1 + 1 + Z.of_nat (length st)) with (Z.of_nat (length ty + S (S (length st)))) by lia.
  replace (Z.of_nat (length ty) + 1) with (Z.of_nat (length ty + S (S (length st))) - Z.of_nat (S (length st))) by lia.
  exact Hy.
Qed.

Lemma ct_char_cursor m p q : ct_char m p = Go q -> cs_c q = cs_c p.
Proof. unfold ct_char. intros H. repeat case_match; simplify_eq; done. Qed.

Lemma ct_loop_run m e t y o :
  0 <= e -> ct_to m e (mk_cts 0 0 CT_TYPE 0 t) (y, o) ->
  run_loop cs_c cs_set_c ct_char (S (Z.to_nat e)) m e (mk_cts 0 0 CT_TYPE 0 t) = Some (y, o).
Proof.
  intros He Hy.
  destruct (run_loop_total cs_c cs_set_c ct_char (S (Z.to_nat e)) m e (mk_cts 0 0 CT_TYPE 0 t)) as (y' & o' & Hr).
  - intros p q Hp Hq%ct_char_cursor. lia.
  - done.
  - cbn. lia.
  - cbn. lia.
  - rewrite Hr. f_equal. by eapply loop_to_run.
Qed.

Lemma add_params_good ps t :
  forallb good_ct_param ps = true ->
  add_params (map (fun p => (p_name p, p_value p)) ps) t = (mk_ct (t_type t) (t_subtype t) (t_params t ++ ps), 0).
Proof.
  revert t; induction ps as [|p ps IH]; intros t H; cbn [map add_params].
  - rewrite app_nil_r. by destruct t.
  - cbn [forallb] in H. unfold good_ct_param in H at 1. zbool.
    match goal with H : bool_decide _ = true |- _ => apply bool_decide_eq_true in H; rewrite H end.
    rewrite IH by done. cbn [t_type t_subtype t_params]. by rewrite <- app_assoc.
Qed.

(** The Content-Type that is printed is read back: type, subtype and parameters. *)
Lemma content_type_roundtrip t : good_ct t = true -> ct_parse (getHdr t) ct0 = Some (t, 0).
Proof.
  intros Hg. rewrite (getHdr_good t Hg). unfold good_ct in Hg. zbool.
  destruct t as [ty st ps]. cbn [t_type t_subtype t_params] in *.
  assert (Hst : st <> []) by (by intros ->).
  set (rest := params_wr (map ct_param ps)). set (txt := ty ++ SLASH :: st ++ rest).
  assert (Hh : holds (mem_at 0 txt) 0 txt) by apply holds_mem_at.
  assert (Hl : length txt = (length (ty ++ SLASH :: st) + length rest)%nat).
  { unfold txt. rewrite !length_app. cbn [length]. rewrite length_app. lia. }
  unfold ct_parse. set (m := mem_at 0 txt) in *. set (e := Z.of_nat (length txt)).
  set (c := Z.of_nat (length (ty ++ SLASH :: st))).
  assert (Htxt : txt = (ty ++ SLASH :: st) ++ rest) by (unfold txt; by rewrite <- app_assoc).
  assert (Hrest : holds m c rest).
  { unfold c. pose proof Hh as Hh2. rewrite Htxt in Hh2. by apply holds_app in Hh2 as [_ Hh2]. }
  assert (Hsub : chars m (mk_cstr (c - Z.of_nat (length st)) (c - 0 - (c - Z.of_nat (length st)))) = st).
  { replace (c - 0 - _) with (Z.of_nat (length st)) by lia. apply chars_holds.
    pose proof Hh as Hh2. unfold txt in Hh2. apply holds_app in Hh2 as [_ Hh2]. apply holds_cons in Hh2 as [_ Hh2].
    apply holds_app in Hh2 as [Hh2 _]. replace (c - _) with (0 + Z.of_nat (length ty) + 1); [done|].
    unfold c. rewrite length_app. cbn [length]. lia. }
  replace (S (length txt)) with (S (Z.to_nat e)) by lia.
  destruct ps as [|p ps].
  - assert (c = e) as <- by (unfold c, e; rewrite Hl; cbn; lia).
    rewrite (ct_loop_run m c ct0 (mk_cts c (c - Z.of_nat (length st)) CT_SUBTYPE 0 (mk_ct ty [] [])) None).
    + unfold ct_end, cs_text. cbn [cs_st cs_ct cs_beg cs_c CT_TYPE CT_SLASH_SWS CT_SUBTYPE_SWS CT_SUBTYPE Z.eqb Pos.eqb orb].
      unfold set_subtype. cbn [t_type t_params]. by rewrite Hsub.
    + lia.
    + eapply ct_to_subtype; [done..|unfold c; lia|]. by apply loop_end.
  - assert (Hsemi : m c = SEMICOLON) by (unfold rest in Hrest; by apply holds_cons in Hrest as [Hrest _]).
    assert (Hlt : c < e) by (unfold c, e; rewrite Hl; cbn; lia).
    rewrite (ct_loop_run m e ct0 (mk_cts c (c - Z.of_nat (length st)) CT_SUBTYPE 0 (mk_ct ty st [])) (Some TO_PARAMS)).
    + cbn [TO_PARAMS Z.eqb Pos.eqb cs_c cs_ct]. unfold parseParams.
      destruct (params_read m c e 0 (map ct_param (p :: ps)) []) as (avps & Hr & Ha).
      * apply forallb_forall. intros q (p' & <- & Hq)%in_map_iff.
        match goal with H : forallb good_ct_param _ = true |- _ => rewrite forallb_forall in H; apply H in Hq end.
        unfold good_ct_param in Hq. by apply andb_true_iff in Hq as [Hq _].
      * exact Hrest.
      * left. unfold e, c. rewrite Hl. unfold rest. lia.
      * rewrite Hr. cbn [mbind option_bind Z.ltb Z.compare app]. rewrite Ha, map_map.
        change (fun x => param_text (ct_param x)) with (fun x => (p_name x, p_value x)).
        by rewrite add_params_good.
    + lia.
    + eapply ct_to_subtype; [done..|unfold c; lia|].
      apply loop_ret; [cbn [cs_c]; fold c; lia|].
      fold c. unfold ct_char. cbn [cs_st cs_c CT_TYPE CT_SLASH_SWS CT_SUBTYPE_SWS CT_SUBTYPE Z.eqb Pos.eqb].
      rewrite Hsemi. cbn [CR LF SP HTAB SEMICOLON Z.eqb Pos.eqb orb]. unfold cs_set_ct, cs_text, set_subtype.
      cbn [cs_st cs_ct cs_beg cs_c cs_saved t_type t_params]. by rewrite Hsub.
Qed.

(** ** The search for a boundary *)

Definition is_cr (c : Z) : bool := c =? CR.
Definition no_cr (l : list Z) : bool := forallb (fun c => negb (is_cr c)) l.

(** A text as its first line and the lines that follow a CRLF; [None] when a CR stands alone. *)
Fixpoint crlf_lines (l : list Z) : option (list Z * list (list Z)) :=
  match l with
  | [] => Some ([], [])
  | x :: l1 =>
      if is_cr x then
        match l1 with
        | y :: l2 => if y =? LF then '(a, ls) ← crlf_lines l2; Some ([], a :: ls) else None
        | [] => None
        end
      else '(a, ls) ← crlf_lines l1; Some (x :: a, ls)
  end.

Definition delimiter (bd : list Z) : list Z := HYPHEN :: HYPHEN :: bd.

(** A line that is neither a beginning of the delimiter nor begins with it. *)
Definition clean_line (bd l : list Z) : bool :=
  bool_decide (l = []) ||
  negb (bool_decide (l `prefix_of` delimiter bd)) && negb (bool_decide (delimiter bd `prefix_of` l)).

Definition quiet (bd l : list Z) : bool :=
  match crlf_lines l with Some (_, ls) => forallb (clean_line bd) ls | None => false end.

Definition more_lines (ls : list (list Z)) : list Z := concat (map (fun l => CRLF ++ l) ls).

Lemma crlf_lines_spec l a ls :
  crlf_lines l = Some (a, ls) -> l = a ++ more_lines ls /\ no_cr a = true /\ forallb no_cr ls = true.
Proof.
  remember (length l) as n eqn:Hn. revert l a ls Hn.
  induction n as [n IH] using lt_wf_ind. intros l a ls Hn H. destruct l as [|x l1]; cbn [crlf_lines] in H.
  - injection H as <- <-. done.
  - destruct (is_cr x) eqn:Hx.
    + destruct l1 as [|y l2]; [done|]. destruct (Z.eqb_spec y LF) as [->|]; [|done].
      destruct (crlf_lines l2) as [[a' ls']|] eqn:E; [|done]. injection H as <- <-.
      apply (IH (length l2)) in E as (-> & H1 & H2); [|cbn in Hn; lia|done].
      apply Z.eqb_eq in Hx as ->. cbn [forallb]. by rewrite H1.
    + destruct (crlf_lines l1) as [[a' ls']|] eqn:E; [|done]. injection H as <- <-.
      apply (IH (length l1)) in E as (-> & H1 & H2); [|cbn in Hn; lia|done].
      cbn [no_cr forallb]. rewrite Hx. cbn [negb andb]. done.
Qed.

Section Scan.
Variables (bd : list Z) (m : mem) (e : Z).

Definition fb_to (s s' : fb_state) : Prop := exists f, fb_loop bd f m e s = Some s'.

Lemma fb_step s y :
  fb_st s <> B_MATCHED -> fb_c s + Z.of_nat (length (fb_b s)) < e ->
  fb_to (fb_next (fb_char bd (m (fb_c s)) s)) y -> fb_to s y.
Proof.
  intros H1%Z.eqb_neq H2 [f Hf]. exists (S f). cbn [fb_loop]. unfold fb_more.
  rewrite H1. destruct (Z.ltb_spec (fb_c s) (e - Z.of_nat (length (fb_b s)))); [exact Hf|lia].
Qed.

Local Notation "'room' c" := (c + Z.of_nat (length bd) < e) (at level 10, c at level 9).

Lemma fb_start_run l c beg y :
  holds m c l -> no_cr l = true -> room (c + Z.of_nat (length l) - 1) ->
  fb_to (mk_fb (c + Z.of_nat (length l)) beg bd B_START false) y -> fb_to (mk_fb c beg bd B_START false) y.
Proof.
  revert c; induction l as [|x l IH]; intros c Hh Hn Hr Hy; cbn [length] in *.
  { by rewrite Z.add_0_r in Hy. }
  apply holds_cons in Hh as [Hx Hh]. cbn in Hn. apply andb_true_iff in Hn as [Hcr Hn].
  apply negb_true_iff in Hcr. apply fb_step; [done|cbn [fb_c fb_b]; lia|].
  unfold fb_char. cbn [fb_st fb_c B_START Z.eqb]. rewrite Hx. unfold is_cr in Hcr. rewrite Hcr.
  unfold fb_next. cbn. apply IH; [done..|lia|].
  by replace (c + 1 + Z.of_nat (length l)) with (c + Z.of_nat (S (length l))) by lia.
Qed.

(** A line that starts like a delimiter and departs from it. *)
Lemma fb_mismatch l r c beg y :
  holds m c l -> no_cr l = true -> room (c + Z.of_nat (length l) - 1) -> (length r <= length bd)%nat ->
  r <> [] -> ~ l `prefix_of` r -> ~ r `prefix_of` l ->
  fb_to (mk_fb (c + Z.of_nat (length l)) beg bd B_START false) y -> fb_to (mk_fb c beg r B_BOUNDARY false) y.
Proof.
  revert r c; induction l as [|x l IH]; intros r c Hh Hn Hr Hl Hne H1 H2 Hy.
  { by destruct H1; apply prefix_nil. }
  cbn [length] in *. apply holds_cons in Hh as [Hx Hh]. cbn in Hn. apply andb_true_iff in Hn as [Hcr Hn].
  destruct r as [|z r]; [done|]. cbn [length] in *.
  apply fb_step; [done|cbn [fb_c fb_b length]; lia|].
  unfold fb_char. cbn [fb_st fb_c fb_b fb_beg fb_final B_START B_CR B_LF B_HYPHEN B_BOUNDARY Z.eqb Pos.eqb]. rewrite Hx.
  assert (Hlen : c + 1 + Z.of_nat (length l) = c + Z.of_nat (S (length l))) by lia.
  destruct (Z.eqb_spec x z) as [<-|Hxz].
  - rewrite bool_decide_false; [|intros ->; destruct H2; by apply prefix_cons, prefix_nil].
    unfold fb_next. cbn. apply IH; [done..|lia|lia| | | |by rewrite Hlen].
    + intros ->. destruct H2. by apply prefix_cons, prefix_nil.
    + intros ?. by destruct H1; apply prefix_cons.
    + intros ?. by destruct H2; apply prefix_cons.
  - unfold fb_next. cbn. apply (fb_start_run l); [done..|lia|by rewrite Hlen].
Qed.

Lemma fb_line l c beg y :
  bd <> [] -> holds m c l -> no_cr l = true -> room (c + Z.of_nat (length l) - 1) ->
  l <> [] -> clean_line bd l = true ->
  fb_to (mk_fb (c + Z.of_nat (length l)) beg bd B_START false) y -> fb_to (mk_fb c beg bd B_LF false) y.
Proof.
  intros Hbd Hh Hn Hr Hne Hc Hy. unfold clean_line in Hc. rewrite (bool_decide_false (l = [])) in Hc by done. cbn [orb] in Hc.
  zbool. repeat match goal with H : bool_decide _ = false |- _ => apply bool_decide_eq_false in H end.
  unfold delimiter in *. destruct l as [|x l]; [done|]. cbn [length] in *. apply holds_cons in Hh as [Hx Hh].
  cbn in Hn. apply andb_true_iff in Hn as [Hcr%negb_true_iff Hn]. unfold is_cr in Hcr.
  assert (Hlen : c + 1 + Z.of_nat (length l) = c + Z.of_nat (S (length l))) by lia.
  apply fb_step; [done|cbn [fb_c fb_b]; lia|].
  unfold fb_char. cbn [fb_st fb_c fb_b fb_beg fb_final B_START B_CR B_LF B_HYPHEN B_BOUNDARY Z.eqb Pos.eqb]. rewrite Hx, Hcr.
  destruct (Z.eqb_spec x HYPHEN) as [->|Hxh]; unfold fb_next; cbn [fb_go fb_c fb_beg fb_b fb_st fb_final].
  2:{ apply (fb_start_run l); [done..|lia|by rewrite Hlen]. }
  destruct l as [|z l].
  { exfalso. match goal with H : ~ [HYPHEN] `prefix_of` _ |- _ => destruct H end. by apply prefix_cons, prefix_nil. }
  apply holds_cons in Hh as [Hz Hh]. cbn in Hn. apply andb_true_iff in Hn as [Hcr2%negb_true_iff Hn]. cbn [length] in *.
  apply fb_step; [done|cbn [fb_c fb_b]; lia|].
  unfold fb_char. cbn [fb_st fb_c fb_b fb_beg fb_final B_START B_CR B_LF B_HYPHEN B_BOUNDARY Z.eqb Pos.eqb]. rewrite Hz.
  assert (Hlen2 : c + 1 + 1 + Z.of_nat (length l) = c + Z.of_nat (S (S (length l)))) by lia.
  destruct (Z.eqb_spec z HYPHEN) as [->|Hzh]; unfold fb_next; cbn [fb_go fb_c fb_beg fb_b fb_st fb_final].
  - apply (fb_mismatch l bd); [done..|lia|lia|done| | |by rewrite Hlen2].
    + intros ?. match goal with H : ~ HYPHEN :: HYPHEN :: l `prefix_of` _ |- _ => destruct H end. by do 2 apply prefix_cons.
    + intros ?. match goal with H : ~ HYPHEN :: HYPHEN :: bd `prefix_of` _ |- _ => destruct H end. by do 2 apply prefix_cons.
  - apply (fb_start_run l); [done..|lia|by rewrite Hlen2].
Qed.

(** A line end, from the beginning or the middle of a line. *)
Lemma fb_crlf c beg st y :
  st = B_START \/ st = B_LF -> holds m c CRLF -> room (c + 1) ->
  fb_to (mk_fb (c + 2) c bd B_LF false) y -> fb_to (mk_fb c beg bd st false) y.
Proof.
  intros Hst Hh Hr Hy. apply holds_cons in Hh as [Hcr Hh]. apply holds_cons in Hh as [Hlf _].
  apply fb_step; [cbn [fb_st]; by destruct Hst as [-> | ->]|cbn [fb_c fb_b]; lia|].
  assert (E : fb_next (fb_char bd (m c) (mk_fb c beg bd st false)) = mk_fb (c + 1) c bd B_CR false)
    by (rewrite Hcr; by destruct Hst as [-> | ->]).
  cbn [fb_c]. rewrite E. apply fb_step; [done|cbn [fb_c fb_b]; lia|]. cbn [fb_c]. rewrite Hlf.
  unfold fb_next, fb_char, fb_go. cbn. by replace (c + 1 + 1) with (c + 2) by lia.
Qed.

(** The lines of a quiet text are passed over. *)
Lemma fb_lines ls c beg st y :
  bd <> [] -> st = B_START \/ st = B_LF -> holds m c (more_lines ls) ->
  forallb no_cr ls = true -> forallb (clean_line bd) ls = true -> room (c + Z.of_nat (length (more_lines ls)) - 1) ->
  (forall beg' st', st' = B_START \/ st' = B_LF ->
     fb_to (mk_fb (c + Z.of_nat (length (more_lines ls))) beg' bd st' false) y) ->
  fb_to (mk_fb c beg bd st false) y.
Proof.
  intros Hbd. revert c beg st; induction ls as [|l ls IH]; intros c beg st Hst Hh Hn Hc Hr Hy.
  { specialize (Hy beg st Hst). cbn in Hy. by rewrite Z.add_0_r in Hy. }
  unfold more_lines in Hh, Hr, Hy. cbn [map concat] in Hh, Hr, Hy. fold (more_lines ls) in Hh, Hr, Hy.
  rewrite !length_app in Hr, Hy. rewrite <- app_assoc in Hh. apply holds_app in Hh as [Hcr Hh].
  apply holds_app in Hh as [Hl Hls]. change (Z.of_nat (length CRLF)) with 2 in *. change (length CRLF) with 2%nat in *.
  cbn [forallb] in Hn, Hc. apply andb_true_iff in Hn as [Hn Hns], Hc as [Hc Hcs].
  apply fb_crlf; [done..|lia|].
  assert (Hgo : forall beg st, st = B_START \/ st = B_LF -> fb_to (mk_fb (c + 2 + Z.of_nat (length l)) beg bd st false) y).
  { intros beg' st' Hst'. apply IH; [done..|lia|]. intros b2 s2 Hs2. specialize (Hy b2 s2 Hs2).
    by replace (c + 2 + Z.of_nat (length l) + Z.of_nat (length (more_lines ls)))
      with (c + Z.of_nat (2 + length l + length (more_lines ls))) by lia. }
  destruct (decide (l = [])) as [->|Hne].
  - specialize (Hgo c B_LF (or_intror eq_refl)). cbn [length] in Hgo. by rewrite Z.add_0_r in Hgo.
  - apply (fb_line l); [done..|lia|done|done|]. apply Hgo. by left.
Qed.

(** The delimiter itself. *)
Lemma fb_match r c beg y :
  r <> [] -> holds m c r -> c + Z.of_nat (length r) < e ->
  fb_to (mk_fb (c + Z.of_nat (length r)) beg [] B_HYPHEN2 false) y -> fb_to (mk_fb c beg r B_BOUNDARY false) y.
Proof.
  revert c; induction r as [|x r IH]; intros c Hne Hh Hr Hy; [done|]. cbn [length] in *.
  apply holds_cons in Hh as [Hx Hh]. apply fb_step; [done|cbn [fb_c fb_b length]; lia|].
  unfold fb_char. cbn [fb_st fb_c fb_b fb_beg fb_final B_START B_CR B_LF B_HYPHEN B_BOUNDARY Z.eqb Pos.eqb].
  rewrite Hx, Z.eqb_refl. unfold fb_next. cbn [fb_c fb_beg fb_b fb_st fb_final].
  destruct (decide (r = [])) as [->|Hr0].
  - rewrite bool_decide_true by done. cbn [length] in Hy. by replace (c + 1) with (c + Z.of_nat 1) by lia.
  - rewrite bool_decide_false by done. apply IH; [done..|lia|].
    by replace (c + 1 + Z.of_nat (length r)) with (c + Z.of_nat (S (length r))) by lia.
Qed.

(** What stands behind a delimiter: the line end, or the two hyphens of the last one. *)
Definition delimiter_end (final : bool) : list Z := (if final then [HYPHEN; HYPHEN] else []) ++ CRLF.

Lemma fb_delimiter (final : bool) c beg :
  bd <> [] -> holds m c (delimiter bd ++ delimiter_end final) ->
  c + Z.of_nat (length (delimiter bd ++ delimiter_end final)) <= e ->
  fb_to (mk_fb c beg bd B_LF false) (mk_fb (c + Z.of_nat (length (delimiter bd ++ delimiter_end final))) beg [] B_MATCHED final).
Proof.
  intros Hbd Hh He. rewrite length_app in *. apply holds_app in Hh as [Hd Hend]. unfold delimiter in Hd.
  apply holds_cons in Hd as [H1 Hd]. apply holds_cons in Hd as [H2 Hd].
  change (length (delimiter bd)) with (S (S (length bd))) in *.
  set (k := Z.of_nat (length bd)) in *.
  assert (Hl : 2 <= Z.of_nat (length (delimiter_end final))) by (destruct final; cbn; lia).
  apply fb_step; [done|cbn [fb_c fb_b]; lia|]. cbn [fb_c]. rewrite H1.
  unfold fb_next, fb_char, fb_go. cbn.
  apply fb_step; [done|cbn [fb_c fb_b]; lia|]. cbn [fb_c]. rewrite H2.
  unfold fb_next, fb_char, fb_go. cbn.
  apply fb_match; [done..|lia|].
  replace (c + Z.of_nat (S (S (length bd)))) with (c + 1 + 1 + Z.of_nat (length bd)) in Hend by lia.
  remember (c + 1 + 1 + Z.of_nat (length bd)) as c1 eqn:Hc1.
  destruct final; cbn in Hend, He; repeat (apply holds_cons in Hend as [?Hch Hend]);
    repeat (apply fb_step; [done|cbn [fb_c fb_b length]; lia|]; cbn [fb_c];
            match goal with H : m ?x = _ |- fb_to (fb_next (fb_char _ (m ?x) _)) _ => rewrite H end;
            unfold fb_next, fb_char, fb_go, fb_expect; cbn -[Z.add]).
  all: match goal with |- fb_to ?x ?y => assert (x = y) as <- by (f_equal; lia) end.
  all: by exists 1%nat.
Qed.

Lemma fb_delimiter_found (final : bool) c beg :
  fb_result e (mk_fb c beg [] B_MATCHED final) = (beg, c, if final then 1 else 0).
Proof. done. Qed.

End Scan.

Lemma fb_char_c bd ch s : fb_c (fb_char bd ch s) = fb_c s.
Proof. unfold fb_char, fb_go, fb_cr, fb_expect, fb_go. repeat case_match; done. Qed.

Lemma fb_char_beg bd ch s : fb_beg (fb_char bd ch s) = fb_beg s \/ fb_beg (fb_char bd ch s) = fb_c s.
Proof. unfold fb_char, fb_go, fb_cr, fb_expect, fb_go. repeat case_match; auto. Qed.

Lemma fb_loop_bounds bd f m e a s :
  (Z.to_nat (e - fb_c s) < f)%nat -> a <= fb_beg s <= fb_c s -> fb_c s <= e ->
  exists s', fb_loop bd f m e s = Some s' /\ a <= fb_beg s' <= fb_c s' /\ fb_c s' <= e /\ (s' = s \/ fb_c s < fb_c s').
Proof.
  revert s; induction f as [|f IH]; intros s Hf Ha He; [lia|]. cbn [fb_loop].
  destruct (fb_more e s) eqn:Hm; [|by eauto 10]. unfold fb_more in Hm. zbool.
  pose proof (fb_char_c bd (m (fb_c s)) s) as Hc. pose proof (fb_char_beg bd (m (fb_c s)) s) as Hb.
  destruct (IH (fb_next (fb_char bd (m (fb_c s)) s))) as (s' & Hs & Ha' & He' & Hor);
    [unfold fb_next; cbn [fb_c fb_beg]; lia..|].
  exists s'. do 3 (split; [done|]). right. destruct Hor as [-> |Hor]; unfold fb_next in *; cbn [fb_c] in *; lia.
Qed.

Lemma fb_loop_mono bd f k m e s y : fb_loop bd f m e s = Some y -> fb_loop bd (f + k) m e s = Some y.
Proof.
  revert s; induction f as [|f IH]; intros s; cbn [fb_loop Nat.add]; [done|]. destruct (fb_more e s); auto.
Qed.

(** The search ends; what it finds lies in the text, and it moves on. *)
Lemma findNextBoundary_spec m t a e :
  a <= e -> exists b e' r, findNextBoundary m t a e = Some (b, e', r) /\ a <= b <= e /\
    (0 <= r -> b <= e' /\ a < e' <= e).
Proof.
  intros Ha. unfold findNextBoundary. destruct (mp_boundary t) as [bd|]; [|eexists _, _, _; split; [done|lia]].
  destruct (fb_loop_bounds bd (S (Z.to_nat (e - a))) m e a (fb_start bd m a)) as (s & -> & Hb & He & Hor);
    [cbn; lia..|]. cbn [mbind option_bind]. unfold fb_result.
  destruct (_ || _) eqn:Hst; eexists _, _, _; (split; [done|]); [|lia].
  split; [lia|]. intros _. destruct Hor as [-> |Hor]; [|cbn in Hor; lia].
  cbn in Hst. by destruct (m a =? HYPHEN).
Qed.

Lemma findNextBoundary_run m t bd a e s :
  mp_boundary t = Some bd -> a <= e -> fb_to bd m e (fb_start bd m a) s ->
  findNextBoundary m t a e = Some (fb_result e s).
Proof.
  intros Hbd Ha [f Hf]. unfold findNextBoundary. rewrite Hbd.
  destruct (fb_loop_bounds bd (S (Z.to_nat (e - a))) m e a (fb_start bd m a)) as (s' & Hs & _); [cbn; lia..|].
  rewrite Hs. cbn [mbind option_bind]. apply (fb_loop_mono _ _ f) in Hs. apply (fb_loop_mono _ _ (S (Z.to_nat (e - a)))) in Hf.
  rewrite Nat.add_comm in Hf. congruence.
Qed.

(** The first delimiter of a body. *)
Lemma first_boundary m t bd a e :
  mp_boundary t = Some bd -> bd <> [] -> holds m a (delimiter bd ++ CRLF) ->
  a + Z.of_nat (length (delimiter bd ++ CRLF)) <= e ->
  findNextBoundary m t a e = Some (a, a + Z.of_nat (length (delimiter bd ++ CRLF)), 0).
Proof.
  intros Ht Hbd Hh He. erewrite findNextBoundary_run; [|done|lia|]; cycle 1.
  - unfold fb_start. pose proof Hh as Hh'. apply holds_cons in Hh' as [-> _]. cbn [Z.eqb Pos.eqb HYPHEN].
    by apply (fb_delimiter bd m e false a a).
  - by rewrite fb_delimiter_found.
Qed.

(** The delimiter behind a quiet part. *)
Lemma next_boundary m t bd a e T (final : bool) :
  mp_boundary t = Some bd -> bd <> [] -> quiet bd T = true -> m a <> HYPHEN ->
  holds m a (T ++ CRLF ++ delimiter bd ++ delimiter_end final) ->
  let b := a + Z.of_nat (length T) in
  let c := b + 2 + Z.of_nat (length (delimiter bd ++ delimiter_end final)) in
  c <= e -> findNextBoundary m t a e = Some (b, c, if final then 1 else 0).
Proof.
  intros Ht Hbd Hq Hm Hh b c He.
  assert (Hd : Z.of_nat (length (delimiter bd ++ delimiter_end final)) >= Z.of_nat (length bd) + 4).
  { rewrite length_app. destruct final; cbn; lia. }
  assert (Eb : b = a + Z.of_nat (length T)) by done.
  assert (Ec : c = b + 2 + Z.of_nat (length (delimiter bd ++ delimiter_end final))) by done. clearbody b c.
  erewrite findNextBoundary_run; [|done|lia|]; cycle 1.
  - unfold fb_start. apply Z.eqb_neq in Hm as ->. unfold quiet in Hq.
    destruct (crlf_lines T) as [[l0 ls]|] eqn:E; [|done]. apply crlf_lines_spec in E as (-> & Hn & Hns).
    rewrite length_app in *. rewrite <- app_assoc in Hh. apply holds_app in Hh as [Hl0 Hh]. apply holds_app in Hh as [Hls Hh].
    apply holds_app in Hh as [Hcr Hh].
    apply (fb_start_run bd m e l0); [done..|lia|]. apply (fb_lines bd m e ls); [done|by left|done..|lia|].
    intros beg' st' Hst'. replace (a + Z.of_nat (length l0) + Z.of_nat (length (more_lines ls))) with b in * by lia.
    apply fb_crlf; [done..|lia|]. apply (fb_delimiter bd m e final (b + 2) b); [done| |].
    + by change (Z.of_nat (length CRLF)) with 2 in Hh.
    + rewrite length_app; lia.
  - rewrite fb_delimiter_found. by rewrite Ec.
Qed.

(** ** The parser ends *)

Lemma ph_loop_bounds f m e a p q r :
  ph_loop f m e p = Some (q, r) -> a <= ph_c p <= e -> (at_eol (ph_st p) = true -> a < ph_c p) -> a <= ph_c q <= e.
Proof.
  revert p; induction f as [|f IH]; intros p Hl Hp Ha; [done|]. cbn [ph_loop] in Hl.
  destruct ((ph_c p <? e) && negb (m (ph_c p) =? 0)) eqn:Ec.
  - apply andb_true_iff in Ec as [Ec _]. zbool. destruct (parse_headers_char m p) as [p'|p' r'] eqn:E.
    + apply IH in Hl; [done|..]; apply parse_headers_char_cursor in E as [E|(He & E & Hs)]; unfold ph_next; cbn [ph_c ph_st].
      * lia.
      * specialize (Ha He). lia.
      * lia.
      * rewrite Hs. done.
    + injection Hl as <- <-. replace p' with p; [lia|].
      clear -E. unfold parse_headers_char in E. repeat case_match; by simplify_eq.
  - destruct (parse_headers_end m p) as [q' r'] eqn:E. injection Hl as <- <-.
    assert (ph_c q' = ph_c p) as ->; [|lia]. unfold parse_headers_end in E. repeat case_match; by simplify_eq.
Qed.

Lemma parse_headers_bounds m a e : a <= e -> exists hs c r, parse_headers m a e = Some (hs, c, r) /\ a <= c <= e.
Proof.
  intros Ha. unfold parse_headers. destruct (Z.eqb_spec a e) as [->|Hne]; [eexists _, _, _; split; [done|lia]|].
  destruct (ph_loop_total (ph_fuel a e) m e (mk_ph a a H_NAME 0 sip_header0 [])) as (q & r & H).
  { unfold ph_measure, ph_fuel. cbn. lia. }
  rewrite H. eexists _, _, _. split; [done|]. eapply ph_loop_bounds; [exact H|cbn; lia|done].
Qed.

Lemma ct_char_ret_cursor m p q r : ct_char m p = Ret q r -> cs_c q = cs_c p.
Proof. unfold ct_char. intros H. repeat case_match; simplify_eq; done. Qed.

Lemma ct_parse_total txt t : exists t' r, ct_parse txt t = Some (t', r).
Proof.
  unfold ct_parse. set (e := Z.of_nat (length txt)).
  destruct (run_loop_ends cs_c cs_set_c ct_char (fun p => 0 <= cs_c p <= e) (fun p => Z.to_nat (e - cs_c p))
    (S (length txt)) (mem_at 0 txt) e (mk_cts 0 0 CT_TYPE 0 t)) as (y & o & -> & Ho).
  - intros p q Hp Hne Hq%ct_char_cursor. unfold advance, cs_set_c. cbn [cs_c]. lia.
  - cbn. lia.
  - cbn. lia.
  - destruct o as [r|]; [|destruct (ct_end _ _); by eauto]. destruct (r =? TO_PARAMS); [|by eauto].
    destruct Ho as (z & Hz & _ & Hr%ct_char_ret_cursor). unfold parseParams, parse_gen_params_sc.
    destruct (gen_params_total (mem_at 0 txt) (cs_c y) e 0 true []) as (c' & ps & r' & -> & _); [lia|].
    cbn [mbind option_bind]. destruct (r' <? 0); [by eauto|]. destruct (add_params _ _); eauto.
Qed.

Section PartsEnd.
Variables (sub : list Z -> Z -> Z -> AmMimeBody -> option (AmMimeBody * Z)) (m : mem) (n : Z).
Hypothesis sub_ends : forall ct c k b, 0 <= k < n -> exists b' r, sub ct c k b = Some (b', r).

Lemma parseSinglePart_ends buf k b : 0 <= k < n -> exists b', parseSinglePart sub m buf k b = Some b'.
Proof.
  intros Hk. unfold parseSinglePart.
  destruct (parse_headers_bounds m buf (buf + k)) as (hs & c & r & -> & Hc); [lia|]. cbn [mbind option_bind].
  destruct (r <? 0); [by eauto|]. destruct (sub_headers m hs [] []) as [sub_ct sub_hdrs].
  destruct (bool_decide (sub_ct = [])); [by eauto|].
  destruct (sub_ends sub_ct c (buf + k - c) body0) as (p & r' & ->); [lia|]. cbn [mbind option_bind]. eauto.
Qed.

Lemma parts_loop_ends f a e b :
  a <= e -> e - a < n -> (Z.to_nat (e - a) < f)%nat -> exists b' r, parts_loop sub f m a e b = Some (b', r).
Proof.
  revert a b; induction f as [|f IH]; intros a b Ha Hn Hf; [lia|]. cbn [parts_loop].
  destruct (findNextBoundary_spec m (b_ct b) a e Ha) as (p & e' & r & -> & Hp & Hr). cbn [mbind option_bind].
  destruct (Z.ltb_spec r 0); [by eauto|]. destruct (Hr ltac:(lia)) as [Hpe He].
  destruct (parseSinglePart_ends a (p - a) b) as (b' & ->); [lia|]. cbn [mbind option_bind].
  destruct (r =? 0); [|by eauto]. apply IH; lia.
Qed.

Lemma parseMultipart_ends buf b : 0 <= n -> exists b' r, parseMultipart sub m buf n b = Some (b', r).
Proof.
  intros Hn. unfold parseMultipart. destruct (mp_boundary (b_ct b)); [|by eauto].
  destruct (findNextBoundary_spec m (b_ct b) buf (buf + n) ltac:(lia)) as (p & e' & r & -> & Hp & Hr).
  cbn [mbind option_bind]. destruct (Z.ltb_spec r 0); [by eauto|]. destruct (Hr ltac:(lia)) as [Hpe He].
  apply parts_loop_ends; lia.
Qed.
End PartsEnd.

Lemma body_parse_ends f m ct buf n b :
  0 <= n -> (Z.to_nat n < f)%nat -> exists b' r, body_parse f m ct buf n b = Some (b', r).
Proof.
  revert ct buf n b; induction f as [|f IH]; intros ct buf n b Hn Hf; [lia|]. cbn [body_parse].
  destruct (ct_parse_total ct (b_ct b)) as (t & r & ->). cbn [mbind option_bind].
  destruct (r <? 0); [by eauto|]. destruct (isType MULTIPART t); [|by eauto].
  apply parseMultipart_ends; [|done]. intros. apply IH; lia.
Qed.

(** The parser of bodies ends on every text, whatever the nesting of its parts and however
    its boundaries are cut. *)
Theorem mime_parse_ends m ct buf (k : nat) b : exists b' r, mime_parse m ct buf (Z.of_nat k) b = Some (b', r).
Proof. apply body_parse_ends; lia. Qed.

(** ** What is printed is parsed *)

(** The text of a part between the delimiters: its headers and [x], its printed body. *)
Definition CT_NAME : list Z := lit "Content-Type".

Definition part_inner (p : AmMimeBody) (x : list Z) : list Z :=
  lit "Content-Type: " ++ getHdr (b_ct p) ++ CRLF ++ b_hdrs p ++ CRLF ++ x.

(** The headers of a part are header lines without a Content-Type, and its text holds no
    delimiter. *)
Definition part_ok (bd : list Z) (p : AmMimeBody) : Prop :=
  exists hs x, mime_print p = Some x /\ b_hdrs p = hdr_lines hs /\ forallb good_hdr hs = true /\
    forallb (fun h => negb (bool_decide (parse_header_type h.1 = H_CONTENT_TYPE))) hs = true /\
    quiet bd (part_inner p x) = true.

(** Bodies: a payload, or parts behind a boundary. *)
Inductive wf_body : AmMimeBody -> Prop :=
| wf_single t h x :
    good_ct t = true -> isType MULTIPART t = false -> wf_body (mk_body t h (Z.of_nat (length x)) (Some x) [])
| wf_multi t h bd ps :
    good_ct t = true -> isType MULTIPART t = true -> mp_boundary t = Some bd -> bd <> [] -> ps <> [] ->
    Forall (fun p => wf_body p /\ part_ok bd p) ps -> wf_body (mk_body t h 0 None ps).

Lemma mime_print_multi t h bd ps y :
  mp_boundary t = Some bd -> ps <> [] -> print_parts mime_print bd ps = Some y ->
  mime_print (mk_body t h 0 None ps) = Some (y ++ delimiter bd ++ delimiter_end true).
Proof.
  intros Ht Hne Hy. cbn [mime_print]. unfold b_empty, boundary_text. cbn [b_payload content_len b_parts]. rewrite Ht.
  destruct ps as [|p ps]; [done|]. rewrite andb_false_r. cbn [negb Z.eqb]. by rewrite Hy.
Qed.

Lemma forallb_impl (f g : Z -> bool) l : (forall c, f c = true -> g c = true) -> forallb f l = true -> forallb g l = true.
Proof. rewrite !forallb_forall. auto. Qed.

Lemma params_text ps : forallb (good_param 0) (map ct_param ps) = true -> forallb text_char (params_wr (map ct_param ps)) = true.
Proof.
  assert (Hc : forall c, param_char 0 c = true -> text_char c = true).
  { intros c. unfold param_char, inb, text_char. cbn [existsb]. rewrite !negb_true_iff, !orb_false_iff. tauto. }
  induction ps as [|p ps IH]; [done|]. cbn [map forallb]. intros [Hp Hps]%andb_true_iff.
  cbn [params_wr flat_map]. fold (params_wr (map ct_param ps)). rewrite forallb_app, IH by done. rewrite andb_true_r.
  unfold good_param, ct_param in Hp. cbn [fst snd] in Hp. zbool. unfold param_wr, ct_param. cbn [fst snd forallb].
  rewrite forallb_app. cbn [forallb]. by rewrite !(forallb_impl (param_char 0) text_char) by done.
Qed.

Lemma getHdr_value t : good_ct t = true -> good_value (getHdr t) = true /\ getHdr t <> [].
Proof.
  intros Hg. rewrite (getHdr_good t Hg). unfold good_ct in Hg. zbool.
  assert (Hps : forallb text_char (params_wr (map ct_param (t_params t))) = true).
  { apply params_text. apply forallb_forall. intros q (p & <- & Hin)%in_map_iff.
    match goal with H : forallb good_ct_param _ = true |- _ => rewrite forallb_forall in H; apply H in Hin end.
    unfold good_ct_param in Hin. by apply andb_true_iff in Hin as [Hin _]. }
  destruct (t_type t) as [|x l]; [done|]. split; [|done].
  match goal with H : forallb type_char _ = true |- _ => rename H into Hty end.
  cbn [app good_value]. apply andb_true_iff. split.
  - cbn [forallb] in Hty. apply andb_true_iff in Hty as [(_ & _ & _ & H4 & H5 & _)%type_char_spec _]. unfold IS_WSP.
    rewrite negb_true_iff, orb_false_iff, !Z.eqb_neq. by split; apply not_eq_sym.
  - change (x :: l ++ ?r) with ((x :: l) ++ r). rewrite forallb_app.
    rewrite (forallb_impl type_char text_char) by (done || (intros c; by intros [? _]%andb_true_iff)).
    cbn [forallb andb]. rewrite forallb_app, Hps, andb_true_r.
    by rewrite (forallb_impl subtype_char text_char) by (done || (intros c; by intros [? _]%andb_true_iff)).
Qed.

Lemma sub_headers_other m hs l ct h :
  map (hdr_view m) hs = map (fun h => (parse_header_type h.1, h.1, h.2)) l ->
  forallb (fun h => negb (bool_decide (parse_header_type h.1 = H_CONTENT_TYPE))) l = true ->
  sub_headers m hs ct h = (ct, h ++ hdr_lines l).
Proof.
  revert hs h; induction l as [|[n v] l IH]; intros [|x hs] h Hv Hl; try done.
  { unfold hdr_lines. cbn. by rewrite app_nil_r. }
  cbn [map forallb fst snd] in *. injection Hv as Ht Hn Hx Hv. apply andb_true_iff in Hl as [Hc Hl].
  apply negb_true_iff in Hc. cbn [sub_headers]. rewrite Ht, Hc. erewrite IH; [|done..]. f_equal.
  rewrite <- app_assoc. f_equal. unfold hdr_lines, hdr_line. cbn [map concat fst snd]. rewrite Hn, Hx. by rewrite <- !app_assoc.
Qed.

(** A part: what stands between two delimiters is parsed into the part. *)
Lemma single_part sub m a p x hs b :
  good_ct (b_ct p) = true -> b_hdrs p = hdr_lines hs -> forallb good_hdr hs = true ->
  forallb (fun h => negb (bool_decide (parse_header_type h.1 = H_CONTENT_TYPE))) hs = true ->
  holds m a (part_inner p x) ->
  (forall c, holds m c x -> sub (getHdr (b_ct p)) c (Z.of_nat (length x)) body0 = Some (b_set_hdrs [] p, 0)) ->
  parseSinglePart sub m a (Z.of_nat (length (part_inner p x))) b = Some (b_set_parts (b_parts b ++ [p]) b).
Proof.
  intros Hct Hhs Hg Hn Hh Hsub. destruct (getHdr_value _ Hct) as [Hv Hne].
  set (l := (CT_NAME, getHdr (b_ct p)) :: hs).
  assert (Hinner : part_inner p x = (hdr_lines l ++ CRLF) ++ x).
  { unfold part_inner, l, hdr_lines. cbn [map concat]. rewrite Hhs. unfold hdr_line, hdr_lines. cbn [fst snd].
    rewrite <- !app_assoc. reflexivity. }
  rewrite Hinner in *. apply holds_app in Hh as [Hl Hx]. rewrite length_app.
  assert (Hgl : forallb good_hdr l = true).
  { unfold l. cbn [forallb]. rewrite Hg. unfold good_hdr. cbn [fst snd]. by rewrite Hv. }
  assert (H2 : (2 <= length (hdr_lines l ++ CRLF))%nat) by (rewrite length_app; cbn; lia).
  destruct (ph_lines m (a + Z.of_nat (length (hdr_lines l ++ CRLF) + length x)) l a [] 0 Hgl Hl) as (q & Hq & Hhq & Hcq); [lia|].
  unfold parseSinglePart. erewrite ph_to_parse; [|lia|exact Hq]. cbn [mbind option_bind Z.ltb Z.compare].
  rewrite Hhq, Hcq. cbn [app hdrs_of l]. cbn [sub_headers].
  assert (Hview : map (hdr_view m) (hdrs_of a l) = map (fun h => (parse_header_type h.1, h.1, h.2)) l).
  { apply hdrs_of_view. by apply holds_app in Hl as [Hl _]. }
  pose proof (f_equal (fun v => match v with h :: _ => h.2 | [] => [] end) Hview) as Hvx.
  apply (f_equal tail) in Hview. unfold l in Hview, Hvx. cbn [hdrs_of map tail] in Hview, Hvx.
  change (type (hdr_of a (CT_NAME, getHdr (b_ct p)))) with H_CONTENT_TYPE. rewrite bool_decide_true by done.
  erewrite sub_headers_other; [|exact Hview|exact Hn]. unfold hdr_view in Hvx. cbn [fst snd] in Hvx. rewrite Hvx.
  rewrite bool_decide_false by done. fold l.
  replace (a + Z.of_nat (length (hdr_lines l ++ CRLF) + length x) - (a + Z.of_nat (length (hdr_lines l ++ CRLF))))
    with (Z.of_nat (length x)) by lia.
  rewrite Hsub by done. cbn [mbind option_bind Z.eqb app]. rewrite <- Hhs. by destruct p.
Qed.

Lemma part_text_inner bd p x : part_text bd p x = delimiter bd ++ CRLF ++ part_inner p x ++ CRLF.
Proof. unfold part_text, part_inner, delimiter. change (lit "--") with [HYPHEN; HYPHEN]. cbn [app]. by rewrite <- !app_assoc. Qed.

(** The parts behind the first delimiter. *)
Lemma parts_run sub bd ps : forall p x y k m a b,
  mp_boundary (b_ct b) = Some bd -> bd <> [] ->
  Forall (fun p => good_ct (b_ct p) = true /\ part_ok bd p /\ forall x c, mime_print p = Some x -> holds m c x ->
     sub (getHdr (b_ct p)) c (Z.of_nat (length x)) body0 = Some (b_set_hdrs [] p, 0)) (p :: ps) ->
  mime_print p = Some x -> print_parts mime_print bd ps = Some y ->
  let rest := part_inner p x ++ CRLF ++ y ++ delimiter bd ++ delimiter_end true in
  holds m a rest -> (length ps < k)%nat ->
  parts_loop sub k m a (a + Z.of_nat (length rest)) b = Some (b_set_parts (b_parts b ++ p :: ps) b, 0).
Proof.
  induction ps as [|p2 ps IH]; intros p x y k m a b Hb Hbd Hall Hx Hy rest Hh Hk; (destruct k as [|k]; [lia|]);
    apply Forall_cons in Hall as [(Hct & (hs & x' & Hx' & Hhs & Hg & Hn & Hq) & Hsub) Hall];
    rewrite Hx in Hx'; injection Hx' as <-; unfold rest in *; clear rest;
    (assert (Hm : m a <> HYPHEN) by (by apply holds_cons in Hh as [-> _]));
    cbn [print_parts] in Hy; cbn [parts_loop].
  - injection Hy as <-. cbn [app] in *. rewrite (next_boundary m _ bd a _ (part_inner p x) true) by
      (try done; rewrite !length_app; cbn [length CRLF]; lia).
    apply holds_app in Hh as [Hh _]. cbn [mbind option_bind Z.ltb Z.compare].
    replace (a + Z.of_nat (length (part_inner p x)) - a) with (Z.of_nat (length (part_inner p x))) by lia.
    erewrite single_part by eauto. done.
  - destruct (mime_print p2) as [x2|] eqn:Hx2; [|done]. destruct (print_parts mime_print bd ps) as [y2|] eqn:Hy2; [|done].
    cbn [mbind option_bind] in Hy. apply (inj Some) in Hy. subst y. rewrite part_text_inner in Hh |- *.
    set (rest2 := part_inner p2 x2 ++ CRLF ++ y2 ++ delimiter bd ++ delimiter_end true).
    assert (E : part_inner p x ++ CRLF ++ ((delimiter bd ++ CRLF ++ part_inner p2 x2 ++ CRLF) ++ y2) ++ delimiter bd ++ delimiter_end true
                = (part_inner p x ++ CRLF ++ delimiter bd ++ delimiter_end false) ++ rest2).
    { unfold rest2. rewrite <- !app_assoc. by cbn [app delimiter_end]. }
    rewrite E in *. apply holds_app in Hh as [Hh1 Hh2]. rewrite length_app.
    set (n1 := length (part_inner p x ++ CRLF ++ delimiter bd ++ delimiter_end false)) in *.
    assert (En1 : Z.of_nat n1 = Z.of_nat (length (part_inner p x)) + 2 + Z.of_nat (length (delimiter bd ++ delimiter_end false))).
    { unfold n1. rewrite !length_app. cbn [length CRLF]. lia. }
    rewrite (next_boundary m _ bd a _ (part_inner p x) false) by (try done; lia).
    cbn [mbind option_bind Z.ltb Z.compare]. apply holds_app in Hh1 as [Hh1 _].
    replace (a + Z.of_nat (length (part_inner p x)) - a) with (Z.of_nat (length (part_inner p x))) by lia.
    erewrite single_part by eauto. cbn [mbind option_bind Z.eqb].
    replace (a + Z.of_nat (length (part_inner p x)) + 2 + Z.of_nat (length (delimiter bd ++ delimiter_end false))) with (a + Z.of_nat n1) by lia.
    replace (a + Z.of_nat (n1 + length rest2)) with (a + Z.of_nat n1 + Z.of_nat (length rest2)) by lia.
    unfold rest2. erewrite IH; try done; [|cbn in Hk; lia]. cbn [b_parts b_set_parts]. by rewrite <- app_assoc.
Qed.

Lemma print_parts_some bd ps : Forall (part_ok bd) ps -> exists y, print_parts mime_print bd ps = Some y.
Proof.
  induction 1 as [|p ps (hs & x & Hx & _) _ (y & Hy)]; [by exists []|]. cbn [print_parts]. rewrite Hx, Hy. by eexists.
Qed.

Lemma print_parts_length bd ps y :
  print_parts mime_print bd ps = Some y ->
  (length ps <= length y)%nat /\ (forall p x, p ∈ ps -> mime_print p = Some x -> (length x <= length y)%nat).
Proof.
  revert y; induction ps as [|p ps IH]; intros y Hy; cbn [print_parts] in Hy.
  - apply (inj Some) in Hy. subst y. split; [done|]. by intros ? ? ?%not_elem_of_nil.
  - destruct (mime_print p) as [x|] eqn:Hx; [|done]. destruct (print_parts mime_print bd ps) as [y'|]; [|done].
    cbn [mbind option_bind] in Hy. apply (inj Some) in Hy. subst y. destruct (IH y' eq_refl) as [IH1 IH2].
    assert (Hl : (length x + 4 <= length (part_text bd p x))%nat).
    { unfold part_text. rewrite !length_app. cbn. lia. }
    rewrite length_app. cbn [length]. split; [lia|]. intros q z [->|Hq]%elem_of_cons Hz; [|specialize (IH2 q z Hq Hz); lia].
    rewrite Hx in Hz. injection Hz as <-. lia.
Qed.

Lemma wf_body_ct b : wf_body b -> good_ct (b_ct b) = true.
Proof. by intros []. Qed.

(** The first part's delimiter and the rest. *)
Lemma print_parts_cons bd p ps y :
  print_parts mime_print bd (p :: ps) = Some y ->
  exists x y', mime_print p = Some x /\ print_parts mime_print bd ps = Some y' /\
    y ++ delimiter bd ++ delimiter_end true =
    (delimiter bd ++ CRLF) ++ part_inner p x ++ CRLF ++ y' ++ delimiter bd ++ delimiter_end true.
Proof.
  cbn [print_parts]. intros Hy. destruct (mime_print p) as [x|]; [|done]. destruct (print_parts mime_print bd ps) as [y'|]; [|done].
  cbn [mbind option_bind] in Hy. apply (inj Some) in Hy. subst y. exists x, y'. split; [done|]. split; [done|].
  rewrite part_text_inner. by rewrite <- !app_assoc.
Qed.

Lemma body_roundtrip f : forall b x m a,
  wf_body b -> mime_print b = Some x -> (length x < f)%nat -> holds m a x ->
  body_parse f m (getHdr (b_ct b)) a (Z.of_nat (length x)) body0 = Some (b_set_hdrs [] b, 0).
Proof.
  induction f as [|f IH]; intros b x m a Hwf Hx Hf Hh; [lia|]. cbn [body_parse].
  change (b_ct body0) with ct0. rewrite (content_type_roundtrip _ (wf_body_ct b Hwf)). cbn [mbind option_bind Z.ltb Z.compare].
  destruct Hwf as [t h x0 Hct Hmp|t h bd ps Hct Hmp Hbd Hne Hps Hall]; cbn [b_ct] in *; rewrite Hmp.
  - assert (x = x0) as ->.
    { cbn [mime_print] in Hx. unfold b_empty in Hx. cbn [b_payload content_len b_parts] in Hx. destruct x0 as [|c x0]; [by simplify_eq/=|].
      cbn -[Z.of_nat take] in Hx. rewrite Nat2Z.id, take_ge in Hx by done. by simplify_eq/=. }
    rewrite Nat2Z.id. unfold holds in Hh. rewrite Hh. done.
  - destruct (print_parts_some bd ps) as (y & Hy); [by eapply Forall_impl; [exact Hall|intros ? []]|].
    rewrite (mime_print_multi t h bd ps y Hbd Hps Hy) in Hx. apply (inj Some) in Hx. subst x.
    destruct (print_parts_length bd ps y Hy) as [Hlen Hlens].
    destruct ps as [|p ps]; [done|]. destruct (print_parts_cons bd p ps y Hy) as (x & y' & Hx & Hy' & E).
    assert (Hsize : (length y + 4 <= length (y ++ delimiter bd ++ delimiter_end true))%nat).
    { rewrite !length_app. cbn. lia. }
    rewrite E in *. apply holds_app in Hh as [Hd Hh]. rewrite length_app in Hf, Hsize |- *.
    set (rest := part_inner p x ++ _) in *. unfold parseMultipart. cbn [b_ct b_set_ct]. rewrite Hbd.
    rewrite (first_boundary m t bd a _ Hbd Hne Hd) by lia. cbn [mbind option_bind Z.ltb Z.compare].
    replace (a + Z.of_nat (length (delimiter bd ++ CRLF) + length rest))
      with (a + Z.of_nat (length (delimiter bd ++ CRLF)) + Z.of_nat (length rest)) by lia.
    rewrite (parts_run (body_parse f m) bd ps p x y' _ m _ (b_set_ct t body0)); [done|done|done| |done|done|exact Hh|].
    + apply Forall_forall. intros q Hq. rewrite Forall_forall in Hall. destruct (Hall q Hq) as [Hwq Hok].
      split; [by apply wf_body_ct|]. split; [done|]. intros z c Hz Hc. apply IH; [done..| |done]. specialize (Hlens q z Hq Hz). lia.
    + cbn [length] in Hlen. lia.
Qed.

(** C29: A well-formed body ([wf_body]) is printed, and what is printed is parsed into the same
    body: content types with their parameters, headers of the parts and payloads, empty ones
    included.  Well formed means: parameters that are written without quotes, header lines
    without another Content-Type, and for a multipart at every level a boundary and parts whose
    text has carriage returns only in line ends and no line that the delimiter begins or that
    is a beginning of it; the payload of a body that is no multipart, on its own, may be any
    bytes.  Without the conditions it does not hold ([cr_hides_boundary],
    [quoted_boundary_lost]).  (The headers of the body itself belong to the message.) *)
Theorem mime_roundtrip b :
  wf_body b -> exists x, mime_print b = Some x /\
    forall m a, holds m a x ->
      mime_parse m (getHdr (b_ct b)) a (Z.of_nat (length x)) body0 = Some (b_set_hdrs [] b, 0).
Proof.
  intros Hwf. assert (exists x, mime_print b = Some x) as (x & Hx).
  { destruct Hwf as [t h x0 Hct Hmp|t h bd ps Hct Hmp Hbd Hne Hps Hall].
    - cbn [mime_print]. destruct (b_empty _); [by eexists|]. destruct (negb _); by eexists.
    - destruct (print_parts_some bd ps) as (y & Hy); [by eapply Forall_impl; [exact Hall|intros ? []]|].
      eexists. by apply (mime_print_multi t h bd ps y). }
  exists x. split; [done|]. intros m a Hh. unfold mime_parse. rewrite Nat2Z.id. apply body_roundtrip; [done..|lia|done].
Qed.

Definition demo_ct : AmContentType := mk_ct (lit "text") (lit "plain") [mk_param OTHER (lit "charset") (lit "utf-8")].
Definition demo_multi_ct (bd : list Z) : AmContentType := mk_ct MULTIPART (lit "mixed") [mk_param BOUNDARY BOUNDARY_str bd].
Definition demo_leaf (h x : list Z) : AmMimeBody := mk_body demo_ct h (Z.of_nat (length x)) (Some x) [].

Definition demo_nested : AmMimeBody :=
  mk_body (demo_multi_ct (lit "inner")) (lit "X-Id: 7" ++ CRLF) 0 None [demo_leaf [] (lit "--x" ++ CRLF ++ [10; 0; 200]); demo_leaf [] []].

Definition demo_body : AmMimeBody :=
  mk_body (demo_multi_ct (lit "outer")) [] 0 None [demo_leaf [] (lit "v=0" ++ CRLF); demo_nested].

Lemma demo_part_ok : part_ok (lit "outer") demo_nested /\ wf_body demo_nested.
Proof.
  split; [by exists [(lit "X-Id", lit "7")]; eexists; repeat split|].
  apply (wf_multi _ _ (lit "inner")); try done. constructor; [split|constructor; [split|constructor]].
  - by apply (wf_single demo_ct [] (lit "--x" ++ CRLF ++ [10; 0; 200])).
  - exists []; eexists; by repeat split.
  - by apply (wf_single demo_ct [] []).
  - exists []; eexists; by repeat split.
Qed.

Lemma mime_roundtrip_witness : exists x, mime_print demo_body = Some x /\
  mime_parse (mem_at 5 x) (getHdr (b_ct demo_body)) 5 (Z.of_nat (length x)) body0 = Some (demo_body, 0).
Proof.
  destruct (mime_roundtrip demo_body) as (x & Hx & H).
  - apply (wf_multi _ _ (lit "outer")); try done. constructor.
    + split; [by apply (wf_single demo_ct [] (lit "v=0" ++ CRLF))|]. exists []; eexists; by repeat split.
    + constructor; [|constructor]. split; apply demo_part_ok.
  - exists x. split; [exact Hx|]. apply (H (mem_at 5 x) 5). apply holds_mem_at.
Defined.

(** ** Where the code does not do what it means to *)

Definition reparse (b : AmMimeBody) : option (AmMimeBody * Z) :=
  x ← mime_print b; mime_parse (mem_at 0 x) (getHdr (b_ct b)) 0 (Z.of_nat (length x)) body0.

(** The character on which a match fails is not looked at again: behind a payload that ends in
    CR the boundary is not found, and the next part is taken for a piece of the payload.  A
    last line of one hyphen does the same. *)
Theorem cr_hides_boundary :
  let b x := mk_body (demo_multi_ct (lit "b")) [] 0 None [demo_leaf [] x; demo_leaf [] (lit "two")] in
  (forall p, reparse (b [97; CR]) = Some (p, 0) -> length (b_parts p) = 1%nat) /\
  (forall p, reparse (b (lit "a" ++ CRLF ++ lit "-")) = Some (p, 0) -> length (b_parts p) = 1%nat) /\
  (exists p, reparse (b (lit "a" ++ CRLF)) = Some (p, 0) /\ length (b_parts p) = 2%nat).
Proof.
  split; [|split].
  - intros p. vm_compute. by intros [= <-].
  - intros p. vm_compute. by intros [= <-].
  - eexists. split; [vm_compute; reflexivity|done].
Qed.

(** A boundary that was quoted because it has a semicolon is printed without its quotes: what
    is printed is not parsed. *)
Theorem quoted_boundary_lost :
  let ct := lit "multipart/mixed;boundary=" ++ [DQUOTE] ++ lit "a;b" ++ [DQUOTE] in
  exists t p, ct_parse ct ct0 = Some (t, 0) /\ mp_boundary t = Some (lit "a;b") /\
    reparse (mk_body t [] 0 None [demo_leaf [] (lit "one")]) = Some (p, -1).
Proof. eexists _, _. split; [vm_compute; reflexivity|]. split; [reflexivity|vm_compute; reflexivity]. Qed.

(** Assigning a body without payload leaves the old length: printing the body then reads a
    null payload. *)
Theorem assign_then_print_null r b :
  b_payload r = None -> b_parts r <> [] -> content_len b <> 0 -> mime_print (b_assign r b) = None.
Proof.
  destruct r as [t h n pl ps]. cbn [b_payload b_parts]. intros -> Hps Hn. unfold b_assign. cbn [b_copy b_payload b_parts b_ct b_hdrs].
  cbn [mime_print]. unfold b_empty. cbn [b_payload content_len b_parts]. destruct ps as [|p ps]; [done|]. cbn [map].
  rewrite andb_false_r. apply Z.eqb_neq in Hn as ->. done.
Qed.

Lemma assign_then_print_null_witness : mime_print (b_assign demo_body (demo_leaf [] (lit "x"))) = None.
Proof. apply (assign_then_print_null demo_body (demo_leaf [] (lit "x"))); done. Defined.

(** Deleting a part of a body of two parts, when the other one has parts itself, loses these:
    what remains is a multipart body without any part, which prints as nothing. *)
Theorem delete_loses_nested ct t h p t2 h2 ps :
  isType MULTIPART t = true -> b_contains ct p = true ->
  deletePart ct (mk_body t h 0 None [p; mk_body t2 h2 0 None ps]) = Some (mk_body t2 h 0 (Some []) [], 0) /\
  mime_print (mk_body t2 h 0 (Some []) []) = Some [].
Proof. intros Ht Hp. unfold deletePart. cbn [b_ct b_parts b_find]. by rewrite Ht, Hp. Qed.

Lemma delete_loses_nested_witness :
  deletePart (lit "text/plain") demo_body = Some (mk_body (b_ct demo_nested) [] 0 (Some []) [], 0).
Proof.
  refine (proj1 (delete_loses_nested (lit "text/plain") _ [] (demo_leaf [] (lit "v=0" ++ CRLF)) _ _ (b_parts demo_nested) _ _));
    reflexivity.
Defined.
