(* ===== verification/MimeView.v ===== *)
(** * Message bodies as the dialogs see them

    The dialogs work on the bodies of [MimeBody], which keep of an [AmMimeBody] the content
    type, the payload and the parts.  Here the operations of [MimeParser] are shown to
    implement those of [MimeBody] through this view. *)

From Stdlib Require Import ZArith Lia Ascii String.
From stdpp Require Import base list.
From S2P Require Import Prelude SipMsg MimeBody ParseCommon SipHeader ParseParams MimeParser.

Local Open Scope Z_scope.
Local Open Scope bool_scope.

#[local] Set Warnings "-register-all".

(** ** The view *)

Definition to_ascii (c : Z) : ascii := ascii_of_N (Z.to_N c).
Definition text (l : list Z) : cstring := map to_ascii l.

Definition is_byteb (c : Z) : bool := (0 <=? c) && (c <? 256).

(** The payload as its length tells. *)
Definition payload_view (n : Z) (p : option (list Z)) : cstring :=
  match p with Some x => text (take (Z.to_nat n) x) | None => [] end.

Fixpoint view (b : AmMimeBody) : mime :=
  let 'mk_body t _ n p ps := b in mk_mime (text (t_type t)) (text (t_subtype t)) (payload_view n p) (map view ps).

(** The types of the body and its parts are texts of bytes. *)
Fixpoint byte_types (b : AmMimeBody) : bool :=
  let 'mk_body t _ _ _ ps := b in
  forallb is_byteb (t_type t) && forallb is_byteb (t_subtype t) && forallb byte_types ps.

Definition ref_view (r : option nat) : part_ref := match r with None => Self | Some i => Part i end.

(** ** Characters and names *)

Lemma to_ascii_lower :
  forallb (fun i => (SipMsg.LOWER_B (to_ascii (Z.of_nat i)) =? to_ascii (LOWER_B (Z.of_nat i)))%char &&
                    (Z.of_N (N_of_ascii (to_ascii (Z.of_nat i))) =? Z.of_nat i) && (LOWER_B (Z.of_nat i) <? 256)) (seq 0 256) = true.
Proof. vm_compute. reflexivity. Qed.

Lemma to_ascii_facts c : is_byteb c = true ->
  SipMsg.LOWER_B (to_ascii c) = to_ascii (LOWER_B c) /\ Z.of_N (N_of_ascii (to_ascii c)) = c /\ is_byteb (LOWER_B c) = true.
Proof.
  unfold is_byteb. intros H. zbool. pose proof to_ascii_lower as Hall. rewrite forallb_forall in Hall.
  specialize (Hall (Z.to_nat c)). rewrite in_seq, Z2Nat.id in Hall by lia.
  specialize (Hall ltac:(lia)). rewrite !andb_true_iff in Hall. destruct Hall as [[H1 H2] H3]. zbool.
  split; [by apply Ascii.eqb_eq|]. split; [done|]. apply andb_true_iff. split; [|by apply Z.ltb_lt].
  apply Z.leb_le. unfold LOWER_B. apply Z.lor_nonneg. lia.
Qed.

Lemma to_ascii_eqb a b : is_byteb a = true -> is_byteb b = true ->
  (SipMsg.LOWER_B (to_ascii a) =? SipMsg.LOWER_B (to_ascii b))%char = (LOWER_B a =? LOWER_B b).
Proof.
  intros (Ha & _ & Ha')%to_ascii_facts (Hb & _ & Hb')%to_ascii_facts. rewrite Ha, Hb.
  destruct (Z.eqb_spec (LOWER_B a) (LOWER_B b)) as [->|Hne]; [by rewrite Ascii.eqb_refl|].
  apply Ascii.eqb_neq. intros E. apply (f_equal (fun x => Z.of_N (N_of_ascii x))) in E.
  apply to_ascii_facts in Ha' as (_ & Ha' & _), Hb' as (_ & Hb' & _). rewrite Ha', Hb' in E. done.
Qed.

Lemma lower_eqb_text l r : forallb is_byteb l = true -> forallb is_byteb r = true ->
  lower_eqb (text l) (text r) = (lower_cmp_n l r =? 0).
Proof.
  rewrite lower_cmp_n_all. revert r; induction l as [|a l IH]; intros [|b r] Hl Hr; try done.
  cbn [forallb] in Hl, Hr. apply andb_true_iff in Hl as [Ha Hl], Hr as [Hb Hr].
  cbn [text map lower_eqb length Nat.eqb lower_all]. fold (text l) (text r).
  rewrite to_ascii_eqb, IH by done. by destruct (LOWER_B a =? LOWER_B b), (Nat.eqb (length l) (length r)).
Qed.

Lemma text_nil l : (text l = []) <-> l = [].
Proof. by destruct l. Qed.

Lemma no_type_view t : (match text (t_type t), text (t_subtype t) with [], [] => true | _, _ => false end) = no_type t.
Proof. unfold no_type. by destruct (t_type t), (t_subtype t). Qed.

(** ** The operations *)

Lemma isContentType_view ct b : forallb is_byteb ct = true -> byte_types b = true ->
  isContentType (text ct) (view b) = ct_has ct (b_ct b).
Proof.
  destruct b as [t h n p ps]. intros Hct Hb. cbn [byte_types] in Hb. zbool.
  unfold isContentType, ct_has. cbn [view ct_type ct_subtype b_ct]. rewrite no_type_view.
  change (cs "/") with (text (lit "/")). unfold text. rewrite <- !map_app. fold (text (t_type t ++ lit "/" ++ t_subtype t)) (text ct).
  destruct ct as [|c ct].
  - by destruct (no_type t).
  - rewrite bool_decide_false by done. cbn [andb Bool.eqb text map]. destruct (no_type t); [done|]. cbn [negb].
    change (to_ascii c :: map to_ascii ct) with (text (c :: ct)). apply lower_eqb_text; [|done].
    rewrite !forallb_app. by rewrite H, H1.
Qed.

Lemma isMultipart_view b : byte_types b = true -> isMultipart (view b) = isType MULTIPART (b_ct b).
Proof.
  destruct b as [t h n p ps]. intros Hb. cbn [byte_types] in Hb. zbool. unfold isMultipart, isType. cbn [view ct_type b_ct].
  change (cs "multipart") with (text MULTIPART). by apply lower_eqb_text.
Qed.

Lemma contains_unfold ct m :
  contains ct m = isContentType ct m || (isMultipart m && existsb (contains ct) (parts m)).
Proof. by destruct m. Qed.

(** Induction on bodies through their parts. *)
Fixpoint body_size (b : AmMimeBody) : nat := let 'mk_body _ _ _ _ ps := b in S (sum_list (map body_size ps)).

Lemma body_size_part p ps : p ∈ ps -> (body_size p <= sum_list (map body_size ps))%nat.
Proof. induction 1 as [|? ? ? ? IH]; cbn; lia. Qed.

Lemma contains_view ct b : forallb is_byteb ct = true -> byte_types b = true ->
  contains (text ct) (view b) = b_contains ct b.
Proof.
  intros Hct. remember (body_size b) as k eqn:Hk. revert b Hk. induction k as [k IH] using lt_wf_ind. intros b Hk Hb.
  rewrite contains_unfold, isContentType_view, isMultipart_view by done.
  destruct b as [t h n p ps]. cbn [b_contains b_ct view parts]. f_equal. f_equal.
  cbn [byte_types] in Hb. apply andb_true_iff in Hb as [_ Hb]. cbn [body_size] in Hk.
  assert (Hps : forall q, q ∈ ps -> contains (text ct) (view q) = b_contains ct q).
  { intros q Hq. eapply IH; [|done|]; [pose proof (body_size_part q ps Hq); lia|].
    rewrite forallb_forall in Hb. by apply Hb, list_elem_of_In. }
  clear -Hps. induction ps as [|q ps IHp]; [done|]. cbn [map existsb]. rewrite Hps by left.
  f_equal. apply IHp. intros; apply Hps; by right.
Qed.

Lemma find_part_view ct ps i : forallb is_byteb ct = true -> forallb byte_types ps = true ->
  find_part (text ct) i (map view ps) = match b_find ct i ps with Some j => Some (Part j) | None => None end.
Proof.
  intros Hct. revert i; induction ps as [|p ps IH]; intros i Hb; [done|]. cbn [forallb] in Hb.
  apply andb_true_iff in Hb as [Hp Hb]. cbn [map find_part b_find]. rewrite contains_view by done.
  destruct (b_contains ct p); [done|]. by apply IH.
Qed.

Lemma payload_view_copy b : view (b_copy b) = view b.
Proof.
  remember (body_size b) as k eqn:Hk. revert b Hk. induction k as [k IH] using lt_wf_ind. intros [t h n p ps] Hk.
  assert (Hps : map view (map b_copy ps) = map view ps).
  { rewrite map_map. apply map_ext_in. intros q Hq%list_elem_of_In. cbn [body_size] in Hk.
    eapply IH; [|done]. pose proof (body_size_part q ps Hq). lia. }
  cbn [b_copy]. destruct p as [x|]; [destruct (Z.eqb_spec n 0) as [->|]|]; cbn [view payload_view]; rewrite Hps; try done.
  by rewrite take_take, Nat.min_id.
Qed.

(** Through the view the operations on bodies are those on which the model of the dialogs
    is built: finding a part by its type, adding a part (the parser of the content type giving
    its type and subtype) and filling it. *)
Theorem mime_view_refines ct b :
  forallb is_byteb ct = true -> byte_types b = true ->
  hasContentType (text ct) (view b) = option_map ref_view (b_hasContentType ct b) /\
  (forall rnd b' r t, b_addPart rnd ct b = Some (b', r) ->
     ct_parse ct (if no_type (b_ct b) then b_ct b else ct0) = Some (t, 0) ->
     addPart (text (t_type t)) (text (t_subtype t)) (view b) = (view b', option_map ref_view r)) /\
  (forall x, payload (view (b_set_payload x b)) = text x /\ parts (view (b_set_payload x b)) = parts (view b)).
Proof.
  intros Hct Hb. split; [|split].
  - unfold hasContentType, b_hasContentType. rewrite isContentType_view, isMultipart_view by done.
    destruct (ct_has ct (b_ct b)); [done|]. destruct (isType MULTIPART (b_ct b)); [|done].
    destruct b as [t h n p ps]. cbn [view parts b_parts]. cbn [byte_types] in Hb. apply andb_true_iff in Hb as [_ Hb].
    rewrite find_part_view by done. by destruct (b_find ct 0 ps).
  - intros rnd b' r t Ha Ht. unfold b_addPart in Ha. unfold addPart.
    assert (Hmp := isMultipart_view b Hb).
    assert (Hno : (match ct_type (view b), ct_subtype (view b) with [], [] => true | _, _ => false end) = no_type (b_ct b)).
    { destruct b as [t0 h n p ps]. apply no_type_view. }
    destruct (no_type (b_ct b)) eqn:En.
    + rewrite Ht in Ha. cbn in Ha. simplify_eq/=.
      destruct (ct_type (view b)); [|done]. destruct (ct_subtype (view b)); [|done]. by destruct b.
    + rewrite Hmp. destruct (isType MULTIPART (b_ct b)) eqn:Em.
      * cbn in Ha. simplify_eq/=. destruct (ct_type (view b')), (ct_subtype (view b')); done.
      * cbn [negb] in Ha. rewrite Ht in Ha. cbn [mbind option_bind Z.eqb] in Ha.
        assert (Hv : view (b_convertToMultipart rnd b) = convertToMultipart (view b)).
        { pose proof (payload_view_copy b) as Hc. destruct b as [t0 h n p ps]. unfold b_convertToMultipart. cbn [view b_payload b_parts convertToMultipart].
          f_equal; [by destruct p|]. rewrite map_app. cbn [map]. by rewrite Hc. }
        simplify_eq/=. rewrite <- Hv.
        destruct (ct_type (view b)); [destruct (ct_subtype (view b)); [done|]|];
          (unfold b_set_parts, b_convertToMultipart; cbn [view ct_type ct_subtype payload parts b_ct b_hdrs content_len b_payload b_parts option_map ref_view];
           rewrite length_map, !map_app; done).
  - intros x. destruct b as [t h n p ps]. unfold b_set_payload. cbn. rewrite Nat2Z.id, take_ge by done. done.
Qed.

Lemma mime_view_refines_witness :
  let b := mk_body (mk_ct (lit "text") (lit "plain") []) [] 1 (Some [120]) [] in
  exists b' r, b_addPart 7 (lit "application/sdp") b = Some (b', r) /\
    addPart (cs "application") (cs "sdp") (view b) = (view b', option_map ref_view r).
Proof.
  eexists _, _. split; [vm_compute; reflexivity|].
  refine (proj1 (proj2 (mime_view_refines (lit "application/sdp") (mk_body (mk_ct (lit "text") (lit "plain") []) [] 1 (Some [120]) []) _ _)) 7 _ _
    (mk_ct (lit "application") (lit "sdp") []) _ _); vm_compute; reflexivity.
Defined.
