(* ===== verification/B2BSession.v ===== *)
(** * Back-to-back user agents

    Model of [core/AmB2BSession.cpp]: a session that relays the requests and the replies of
    its dialog to the session of the other leg, by events.  The state is the record [b2b];
    [X] is what a derived class adds, [Y] are its events, and its overridden methods are the
    records [hooks] (those that are called while a message is sent) and [virtuals].
    The dialog is an interface ([LegDialog]); [DialogLeg] has the dialog of [SipDialog] for
    it.  What the dialog calls back while it sends is handled when its call has returned.
    [AmB2BCalleeSession] is [connect_callee], [AmB2BCallerSession] is at the end. *)

From Stdlib Require Import ZArith Lia Ascii String.
From stdpp Require Import base list.
From S2P Require Import Prelude SipMsg MimeBody ParseCommon AmUtils SipHeader.

Local Open Scope Z_scope.
Local Open Scope bool_scope.

(** ** Messages *)

Inductive b2b_meth :=
| B_INVITE | B_ACK | B_BYE | B_CANCEL | B_PRACK | B_UPDATE | B_SUBSCRIBE | B_NOTIFY | B_REFER | B_METHOD (m : list Z).

#[global] Instance b2b_meth_eq_dec : EqDecision b2b_meth.
Proof. solve_decision. Defined.

Definition is_meth (m : b2b_meth) (l : list b2b_meth) : bool := bool_decide (m ∈ l).

Definition meth_text (m : b2b_meth) : list Z :=
  match m with
  | B_INVITE => lit "INVITE" | B_ACK => lit "ACK" | B_BYE => lit "BYE" | B_CANCEL => lit "CANCEL"
  | B_PRACK => lit "PRACK" | B_UPDATE => lit "UPDATE" | B_SUBSCRIBE => lit "SUBSCRIBE" | B_NOTIFY => lit "NOTIFY"
  | B_REFER => lit "REFER" | B_METHOD t => t
  end.

(** [AmSipRequest] with the fields that are read here; [q_rseq] and the [q_rack] fields are
    those of a RAck header. *)
Record b2b_req := mk_breq {
  q_method : b2b_meth; q_cseq : Z; q_max_forwards : Z; q_body : mime; q_hdrs : list Z;
  q_rseq : Z; q_rack_cseq : Z; q_rack_method : list Z
}.

(** [AmSipReply]; [r_rseq] is 0 without an RSeq header. *)
Record b2b_rpl := mk_brpl {
  r_code : Z; r_reason : list Z; r_cseq : Z; r_method : b2b_meth; r_from_tag : list Z; r_to_tag : list Z;
  r_contact : list Z; r_body : mime; r_hdrs : list Z; r_rseq : Z
}.

Definition set_r_cseq (c : Z) (r : b2b_rpl) : b2b_rpl :=
  mk_brpl (r_code r) (r_reason r) c (r_method r) (r_from_tag r) (r_to_tag r) (r_contact r) (r_body r) (r_hdrs r) (r_rseq r).

Definition add_r_hdrs (h : list Z) (r : b2b_rpl) : b2b_rpl :=
  mk_brpl (r_code r) (r_reason r) (r_cseq r) (r_method r) (r_from_tag r) (r_to_tag r) (r_contact r) (r_body r) (r_hdrs r ++ h) (r_rseq r).

Definition set_q_hdrs (h : list Z) (q : b2b_req) : b2b_req :=
  mk_breq (q_method q) (q_cseq q) (q_max_forwards q) (q_body q) h (q_rseq q) (q_rack_cseq q) (q_rack_method q).

(** The events between the legs: [B2BSipRequestEvent], [B2BSipReplyEvent],
    [B2BEvent(B2BTerminateLeg)] and those of a derived class. *)
Inductive b2b_event {Y : Type} :=
| EvRequest (req : b2b_req) (forward : bool)
| EvReply (reply : b2b_rpl) (forward : bool) (trans_method : b2b_meth) (sender_ltag : list Z)
| EvTerminate
| EvApp (e : Y).
Arguments b2b_event Y : clear implicits.

(** A call that may throw returns the state and its result, or [None] for the exception. *)
Notation "'let?' ( s , x ) := e 'in' k" := (match e with (s, Some x) => k | (s, None) => (s, None) end)
  (at level 10, s name, x name, e at level 200, k at level 200).

(** ** [std::map<int,A>]: the entries by ascending key *)

Section IntMap.
Context {A : Type}.

Fixpoint im_find (k : Z) (m : list (Z * A)) : option A :=
  match m with [] => None | (j, a) :: m => if j =? k then Some a else im_find k m end.

(** [m[k] = a] *)
Fixpoint im_set (k : Z) (a : A) (m : list (Z * A)) : list (Z * A) :=
  match m with
  | [] => [(k, a)]
  | (j, b) :: m' => if k <? j then (k, a) :: m else if k =? j then (k, a) :: m' else (j, b) :: im_set k a m'
  end.

(** [m.insert(make_pair(k,a))]: an entry that is there stays. *)
Definition im_insert (k : Z) (a : A) (m : list (Z * A)) : list (Z * A) :=
  match im_find k m with Some _ => m | None => im_set k a m end.

Definition im_erase (k : Z) (m : list (Z * A)) : list (Z * A) := List.filter (fun x => negb (fst x =? k)) m.

End IntMap.

(** The loops that look for the request with a CSeq of the other leg. *)
Definition find_by_cseq (c : Z) (m : list (Z * b2b_req)) : option (Z * b2b_req) :=
  List.find (fun x => q_cseq (snd x) =? c) m.

(** ** The interface of the dialog *)

(** What a leg asks of its dialog.  Sending returns 0 or a negative error; the CSeq that the
    next request will have is [dg_cseq].  [dg_bye] also returns the CSeq of the INVITE that it
    answered, [dg_completions] counts the calls of the session's [onSdpCompleted]. *)
Class LegDialog (D : Type) := {
  dg_cseq : D -> Z;
  dg_connected : D -> bool;                 (* getStatus() == Connected *)
  dg_early : D -> bool;                     (* getStatus() < Connected *)
  dg_uac_inv : D -> bool;                   (* getUACInvTransPending() *)
  dg_uas_inv : D -> option (Z * mime);      (* getUASPendingInv(): CSeq and body *)
  dg_remote_tag : D -> list Z;
  dg_oa_idle : D -> bool;                   (* getOAState() is OA_None or OA_Completed *)
  dg_oa_reopen : D -> D;                    (* setOAState(OA_OfferRecved) if OA_Completed *)
  dg_completions : D -> nat;
  dg_send : b2b_meth -> mime -> list Z -> Z -> D -> D * Z;          (* sendRequest *)
  dg_reply : b2b_req -> Z -> list Z -> mime -> list Z -> bool -> D -> D * Z;
  dg_ack : Z -> mime -> list Z -> D -> D * Z;                       (* send_200_ack *)
  dg_reinvite : mime -> D -> D * Z;
  dg_bye : list Z -> D -> D * option Z
}.

(** What the dialog promises: a request that was sent took the next CSeq, one that was not
    sent took none; replies and ACKs take none. *)
Class LegDialogOk (D : Type) `{LegDialog D} : Prop := {
  dg_send_cseq : forall m b h f d, m <> B_ACK ->
    dg_cseq (dg_send m b h f d).1 = (if (dg_send m b h f d).2 <? 0 then dg_cseq d else u32 (dg_cseq d + 1));
  dg_reply_cseq : forall q c r b h t d, dg_cseq (dg_reply q c r b h t d).1 = dg_cseq d;
  dg_ack_cseq : forall c b h d, dg_cseq (dg_ack c b h d).1 = dg_cseq d
}.

(** ** Sessions *)

(** [RTPRelayMode] *)
Inductive relay_mode := RTP_Direct | RTP_Relay | RTP_Transcoding.

#[global] Instance relay_mode_eq_dec : EqDecision relay_mode.
Proof. solve_decision. Defined.

(** An [AmB2BMedia] object: the session that made it and a number. *)
Definition media_id : Type := list Z * nat.

Record b2b {D X Y : Type} := mk_b2b {
  other_id : list Z;
  sip_relay_only : bool;
  a_leg : bool;
  relayed_req : list (Z * b2b_req);
  recvd_req : list (Z * b2b_req);
  est_invite_cseq : Z;
  est_invite_other_cseq : Z;
  est_invite_max_forwards : Z;
  refer_id_map : list (Z * Z);
  established_body : mime;
  body_hash : Z;
  sess_stopped : bool;
  rtp_relay_mode : relay_mode;
  media_session : option media_id;   (* the AmB2BMedia it uses *)
  media_refs : media_id -> Z;        (* its share in the reference counts of the AmB2BMedia objects *)
  new_medias : nat;                  (* the objects it has made *)
  local_tag : list Z;
  bdlg : D;
  out : list (list Z * b2b_event Y);   (* the events posted, with their receivers *)
  ext : X                            (* the fields of a derived class *)
}.
Arguments b2b D X Y : clear implicits.

Section Session.
Context {D X Y : Type} {LD : LegDialog D}.
Local Notation "'st'" := (b2b D X Y).

(** Field updates. *)
Definition set_other (v : list Z) (s : st) : st :=
  mk_b2b _ _ _ v (sip_relay_only s) (a_leg s) (relayed_req s) (recvd_req s) (est_invite_cseq s) (est_invite_other_cseq s)
    (est_invite_max_forwards s) (refer_id_map s) (established_body s) (body_hash s) (sess_stopped s) (rtp_relay_mode s) (media_session s) (media_refs s) (new_medias s) (local_tag s) (bdlg s) (out s) (ext s).
Definition set_relayed (v : list (Z * b2b_req)) (s : st) : st :=
  mk_b2b _ _ _ (other_id s) (sip_relay_only s) (a_leg s) v (recvd_req s) (est_invite_cseq s) (est_invite_other_cseq s)
    (est_invite_max_forwards s) (refer_id_map s) (established_body s) (body_hash s) (sess_stopped s) (rtp_relay_mode s) (media_session s) (media_refs s) (new_medias s) (local_tag s) (bdlg s) (out s) (ext s).
Definition set_recvd (v : list (Z * b2b_req)) (s : st) : st :=
  mk_b2b _ _ _ (other_id s) (sip_relay_only s) (a_leg s) (relayed_req s) v (est_invite_cseq s) (est_invite_other_cseq s)
    (est_invite_max_forwards s) (refer_id_map s) (established_body s) (body_hash s) (sess_stopped s) (rtp_relay_mode s) (media_session s) (media_refs s) (new_medias s) (local_tag s) (bdlg s) (out s) (ext s).
Definition set_est (c o : Z) (s : st) : st :=
  mk_b2b _ _ _ (other_id s) (sip_relay_only s) (a_leg s) (relayed_req s) (recvd_req s) c o
    (est_invite_max_forwards s) (refer_id_map s) (established_body s) (body_hash s) (sess_stopped s) (rtp_relay_mode s) (media_session s) (media_refs s) (new_medias s) (local_tag s) (bdlg s) (out s) (ext s).
Definition set_refer_map (v : list (Z * Z)) (s : st) : st :=
  mk_b2b _ _ _ (other_id s) (sip_relay_only s) (a_leg s) (relayed_req s) (recvd_req s) (est_invite_cseq s) (est_invite_other_cseq s)
    (est_invite_max_forwards s) v (established_body s) (body_hash s) (sess_stopped s) (rtp_relay_mode s) (media_session s) (media_refs s) (new_medias s) (local_tag s) (bdlg s) (out s) (ext s).
Definition set_established (b : mime) (h : Z) (s : st) : st :=
  mk_b2b _ _ _ (other_id s) (sip_relay_only s) (a_leg s) (relayed_req s) (recvd_req s) (est_invite_cseq s) (est_invite_other_cseq s)
    (est_invite_max_forwards s) (refer_id_map s) b h (sess_stopped s) (rtp_relay_mode s) (media_session s) (media_refs s) (new_medias s) (local_tag s) (bdlg s) (out s) (ext s).
Definition setStopped (s : st) : st :=
  mk_b2b _ _ _ (other_id s) (sip_relay_only s) (a_leg s) (relayed_req s) (recvd_req s) (est_invite_cseq s) (est_invite_other_cseq s)
    (est_invite_max_forwards s) (refer_id_map s) (established_body s) (body_hash s) true (rtp_relay_mode s) (media_session s) (media_refs s) (new_medias s) (local_tag s) (bdlg s) (out s) (ext s).
Definition set_media (v : option media_id) (s : st) : st :=
  mk_b2b _ _ _ (other_id s) (sip_relay_only s) (a_leg s) (relayed_req s) (recvd_req s) (est_invite_cseq s) (est_invite_other_cseq s)
    (est_invite_max_forwards s) (refer_id_map s) (established_body s) (body_hash s) (sess_stopped s) (rtp_relay_mode s) v (media_refs s) (new_medias s) (local_tag s) (bdlg s) (out s) (ext s).
Definition set_refs (v : media_id -> Z) (s : st) : st :=
  mk_b2b _ _ _ (other_id s) (sip_relay_only s) (a_leg s) (relayed_req s) (recvd_req s) (est_invite_cseq s) (est_invite_other_cseq s)
    (est_invite_max_forwards s) (refer_id_map s) (established_body s) (body_hash s) (sess_stopped s) (rtp_relay_mode s) (media_session s) v (new_medias s) (local_tag s) (bdlg s) (out s) (ext s).
Definition set_new_medias (v : nat) (s : st) : st :=
  mk_b2b _ _ _ (other_id s) (sip_relay_only s) (a_leg s) (relayed_req s) (recvd_req s) (est_invite_cseq s) (est_invite_other_cseq s)
    (est_invite_max_forwards s) (refer_id_map s) (established_body s) (body_hash s) (sess_stopped s) (rtp_relay_mode s) (media_session s) (media_refs s) v (local_tag s) (bdlg s) (out s) (ext s).
Definition set_relay_only (v : bool) (s : st) : st :=
  mk_b2b _ _ _ (other_id s) v (a_leg s) (relayed_req s) (recvd_req s) (est_invite_cseq s) (est_invite_other_cseq s)
    (est_invite_max_forwards s) (refer_id_map s) (established_body s) (body_hash s) (sess_stopped s) (rtp_relay_mode s) (media_session s) (media_refs s) (new_medias s) (local_tag s) (bdlg s) (out s) (ext s).
Definition set_a_leg (v : bool) (s : st) : st :=
  mk_b2b _ _ _ (other_id s) (sip_relay_only s) v (relayed_req s) (recvd_req s) (est_invite_cseq s) (est_invite_other_cseq s)
    (est_invite_max_forwards s) (refer_id_map s) (established_body s) (body_hash s) (sess_stopped s) (rtp_relay_mode s) (media_session s) (media_refs s) (new_medias s) (local_tag s) (bdlg s) (out s) (ext s).
Definition set_max_forwards (v : Z) (s : st) : st :=
  mk_b2b _ _ _ (other_id s) (sip_relay_only s) (a_leg s) (relayed_req s) (recvd_req s) (est_invite_cseq s) (est_invite_other_cseq s)
    v (refer_id_map s) (established_body s) (body_hash s) (sess_stopped s) (rtp_relay_mode s) (media_session s) (media_refs s) (new_medias s) (local_tag s) (bdlg s) (out s) (ext s).
Definition setRtpRelayMode (v : relay_mode) (s : st) : st :=
  mk_b2b _ _ _ (other_id s) (sip_relay_only s) (a_leg s) (relayed_req s) (recvd_req s) (est_invite_cseq s) (est_invite_other_cseq s)
    (est_invite_max_forwards s) (refer_id_map s) (established_body s) (body_hash s) (sess_stopped s) v (media_session s) (media_refs s) (new_medias s) (local_tag s) (bdlg s) (out s) (ext s).
Definition set_ext (v : X) (s : st) : st :=
  mk_b2b _ _ _ (other_id s) (sip_relay_only s) (a_leg s) (relayed_req s) (recvd_req s) (est_invite_cseq s) (est_invite_other_cseq s)
    (est_invite_max_forwards s) (refer_id_map s) (established_body s) (body_hash s) (sess_stopped s) (rtp_relay_mode s) (media_session s) (media_refs s) (new_medias s) (local_tag s) (bdlg s) (out s) v.
Definition set_bdlg (v : D) (s : st) : st :=
  mk_b2b _ _ _ (other_id s) (sip_relay_only s) (a_leg s) (relayed_req s) (recvd_req s) (est_invite_cseq s) (est_invite_other_cseq s)
    (est_invite_max_forwards s) (refer_id_map s) (established_body s) (body_hash s) (sess_stopped s) (rtp_relay_mode s) (media_session s) (media_refs s) (new_medias s) (local_tag s) v (out s) (ext s).
Definition post (to : list Z) (e : b2b_event Y) (s : st) : st :=
  mk_b2b _ _ _ (other_id s) (sip_relay_only s) (a_leg s) (relayed_req s) (recvd_req s) (est_invite_cseq s) (est_invite_other_cseq s)
    (est_invite_max_forwards s) (refer_id_map s) (established_body s) (body_hash s) (sess_stopped s) (rtp_relay_mode s) (media_session s) (media_refs s) (new_medias s) (local_tag s) (bdlg s) (out s ++ [(to, e)]) (ext s).

(** The surroundings of a session: which sessions exist, how the SDP of a body is changed
    before it is sent ([LocalBody] has the function of a plain session, [CallLeg] that of its legs;
    [None]: an exception), the hash of a description, the subscriptions
    ([AmSipSubscription]), the ids in the Event header of a relayed NOTIFY, and the deletion
    of an event of a derived class that could not be posted. *)
Record b2b_env := mk_benv {
  alive : list Z -> bool;
  update_local_body : st -> mime -> option mime;
  hash_text : cstring -> Z;
  subs_request : b2b_req -> bool;
  subs_reply : b2b_rpl -> bool;
  subs_exists : Z -> bool;
  notify_hdrs : list (Z * Z) -> list Z -> list Z;
  delete_event : Y -> st -> st
}.

(** The overridden methods that are called while a message is sent. *)
Record hooks := mk_hooks {
  h_relayEvent : b2b_event Y -> st -> st * Z;
  h_updateLocalBody : mime -> st -> st * option mime;
  h_onSdpCompleted : st -> st;
  h_onTransFinished : st -> st
}.

(** The other methods a derived class overrides, and those of [AmSession] that call into
    it. *)
Record virtuals := mk_virtuals {
  v_session_request : b2b_req -> st -> st;   (* AmSession::onSipRequest *)
  v_session_reply : b2b_rpl -> st -> st;     (* AmSession::onSipReply *)
  v_onBye : b2b_req -> st -> st;
  v_onOtherBye : b2b_req -> st -> st * bool;
  v_terminateLeg : st -> st;
  v_terminateOtherLeg : st -> st
}.

Context (E : b2b_env) (H : hooks) (V : virtuals).

(** [AmSessionContainer::postEvent]: the event is posted, or deleted when the receiver does
    not exist. *)
Definition postEvent (to : list Z) (e : b2b_event Y) (s : st) : st * bool :=
  if alive E to then (post to e s, true)
  else (match e with EvApp y => delete_event E y s | _ => s end, false).

(** [AmB2BSession::relayEvent] *)
Definition b_relayEvent (e : b2b_event Y) (s : st) : st * Z :=
  if bool_decide (other_id s = []) then (match e with EvApp y => delete_event E y s | _ => s end, 0)
  else let '(s, posted) := postEvent (other_id s) e s in (s, if posted then 0 else -1).

(** The methods of the base class. *)
Definition base_hooks : hooks :=
  mk_hooks b_relayEvent (fun b s => (s, update_local_body E s b)) (fun s => s) (fun s => s).

Local Notation "'relayEvent'" := (h_relayEvent H).

(** The dialog after a call, with the exchanges that the call completed. *)
Definition upd_dlg (d : D) (s : st) : st :=
  Nat.iter (dg_completions d - dg_completions (bdlg s)) (h_onSdpCompleted H) (set_bdlg d s).

Definition errCode (err_code : Z) : Z := if (err_code <? -399) && (-700 <? err_code) then - err_code else 500.

Definition errReason (code : Z) : list Z :=
  if code =? 400 then lit "Bad Request" else if code =? 478 then lit "Unresolvable destination"
  else if code =? 488 then lit "Not Acceptable Here" else lit "Server Internal Error".

(** [relayError] with a SIP code and a reason. *)
Definition relayError (m : b2b_meth) (c : Z) (forward : bool) (code : Z) (reason : list Z) (s : st) : st :=
  if bool_decide (m = B_ACK) then s
  else fst (relayEvent (EvReply (mk_brpl code reason c m (local_tag s) [] [] mime_empty_body [] 0) forward m (local_tag s)) s).

(** [relayError] with an error code. *)
Definition relayErr (m : b2b_meth) (c : Z) (forward : bool) (err : Z) (s : st) : st :=
  relayError m c forward (errCode err) (errReason (errCode err)) s.

(** [skip_line] *)
Fixpoint skip_line (l : cstring) : cstring :=
  match l with [] => [] | c :: l => if (c =? "010")%char then l else skip_line l end.

Definition sdp_hash (m : mime) (r : part_ref) : Z := hash_text E (skip_line (skip_line (getPayload r m))).

Definition saveSessionDescription (body : mime) (s : st) : st :=
  match hasContentType SIP_APPLICATION_SDP body with
  | None => s
  | Some r => set_established (part_at r body) (sdp_hash body r) s
  end.

Definition updateSessionDescription (body : mime) (s : st) : st * bool :=
  match hasContentType SIP_APPLICATION_SDP body with
  | None => (s, false)
  | Some r => if body_hash s =? sdp_hash body r then (s, false)
              else (set_established body (sdp_hash body r) s, true)
  end.

(** [sendEstablishedReInvite]; an exception is caught. *)
Definition sendEstablishedReInvite (s : st) : st * Z :=
  if body_empty (established_body s) then (s, -1)
  else match h_updateLocalBody H (established_body s) s with
       | (s, None) => (s, -1)
       | (s, Some b) => let '(d, r) := dg_reinvite b (bdlg s) in (upd_dlg d s, r)
       end.

(** The messages whose SDP is changed. *)
Definition local_body (m : b2b_meth) (b : mime) (s : st) : st * option mime :=
  if is_meth m [B_INVITE; B_UPDATE; B_ACK; B_PRACK] then h_updateLocalBody H b s else (s, Some b).

Definition save_body (m : b2b_meth) (b : mime) (s : st) : st :=
  if is_meth m [B_INVITE; B_UPDATE] && negb (body_empty b) then saveSessionDescription b s else s.

(** The RAck of a relayed PRACK, with the CSeq of this side. *)
Definition prack_hdrs (req : b2b_req) (s : st) : list Z :=
  if bool_decide (q_method req = B_PRACK) && negb (q_rseq req =? 0) then
    match find_by_cseq (q_rack_cseq req) (relayed_req s) with
    | Some (k, _) => q_hdrs req ++ lit "RAck: " ++ int2str (q_rseq req) ++ lit " " ++ int2str k ++ lit " " ++ q_rack_method req ++ CRLF
    | None => q_hdrs req
    end
  else q_hdrs req.

(** [dlg->send_200_ack] with its call back. *)
Definition dlg_ack (c : Z) (body : mime) (hdrs : list Z) (s : st) : st * Z :=
  let '(d, err) := dg_ack c body hdrs (bdlg s) in
  let s := upd_dlg d s in
  (if err <? 0 then s else h_onTransFinished H s, err).

(** [relaySip] of a request. *)
Definition relaySip_request (req : b2b_req) (s : st) : st * option Z :=
  let? (s, body) := local_body (q_method req) (q_body req) s in
  if negb (bool_decide (q_method req = B_ACK)) then
    let s := set_relayed (im_set (dg_cseq (bdlg s)) req (relayed_req s)) s in
    let '(d, err) := dg_send (q_method req) body (prack_hdrs req s) (q_max_forwards req - 1) (bdlg s) in
    let s := upd_dlg d s in
    if err <? 0 then (s, Some err) else (save_body (q_method req) (q_body req) s, Some 0)
  else
    match find_by_cseq (q_cseq req) (relayed_req s) with
    | None => (s, Some (-1))
    | Some (k, r) =>
        let '(s, err) := dlg_ack k body (q_hdrs req) s in
        if err <? 0 then (s, Some err)
        else
          let s := if negb (body_empty (q_body req)) && bool_decide (q_method r = B_INVITE)
                   then saveSessionDescription (q_body req) s else s in
          (set_relayed (im_erase k (relayed_req s)) s, Some 0)
    end.

(** [onReplySent], which the dialog calls when it has sent a reply. *)
Definition onReplySent (req : b2b_req) (code : Z) (s : st) : st :=
  if (200 <=? code) && negb (bool_decide (q_method req = B_CANCEL))
  then set_recvd (im_erase (q_cseq req) (recvd_req s)) s else s.

(** [dlg->reply] with its call backs. *)
Definition dlg_reply (req : b2b_req) (code : Z) (reason : list Z) (body : mime) (hdrs : list Z) (notag : bool) (s : st) : st * Z :=
  let '(d, err) := dg_reply req code reason body hdrs notag (bdlg s) in
  let s := upd_dlg d s in
  (if err =? 0 then
     let s := onReplySent req code s in
     if (200 <=? code) && negb (bool_decide (q_method req = B_CANCEL)) then h_onTransFinished H s else s
   else s, err).

(** [dlg->bye] with its call backs: it may answer the pending INVITE. *)
Definition dlg_bye (hdrs : list Z) (s : st) : st :=
  let '(d, answered) := dg_bye hdrs (bdlg s) in
  let s := upd_dlg d s in
  match answered with
  | Some c => h_onTransFinished H (set_recvd (im_erase c (recvd_req s)) s)
  | None => s
  end.

(** [relaySip] of a reply to the request [orig]. *)
Definition relaySip_reply (orig : b2b_req) (r : b2b_rpl) (s : st) : st * option Z :=
  let hdrs := if r_rseq r =? 0 then r_hdrs r else r_hdrs r ++ lit "RSeq: " ++ int2str (r_rseq r) ++ CRLF in
  let? (s, body) := local_body (q_method orig) (r_body r) s in
  let '(s, err) := dlg_reply orig (r_code r) (r_reason r) body hdrs (bool_decide (r_to_tag r = [])) s in
  if err <? 0 then (s, Some err) else (save_body (q_method orig) (r_body r) s, Some 0).

(** [addReference] and [releaseReference] of the [AmB2BMedia] [m]. *)
Definition media_ref (d : Z) (m : option media_id) (s : st) : st :=
  match m with
  | Some i => set_refs (fun j => if bool_decide (j = i) then media_refs s j + d else media_refs s j) s
  | None => s
  end.

(** [setMediaSession] *)
Definition setMediaSession (m : option media_id) (s : st) : st := media_ref 1 m (set_media m s).

(** [clearRtpReceiverRelay] *)
Definition clearRtpReceiverRelay (s : st) : st :=
  match rtp_relay_mode s with
  | RTP_Direct => s
  | _ => set_media None (media_ref (-1) (media_session s) s)
  end.

(** [AmB2BSession::onOtherBye], [terminateLeg], [terminateOtherLeg]. *)
Definition b_onOtherBye (req : b2b_req) (s : st) : st * bool := (clearRtpReceiverRelay (setStopped s), false).

Definition b_terminateLeg (s : st) : st :=
  dlg_bye [] (clearRtpReceiverRelay (setStopped s)).

Definition b_terminateOtherLeg (s : st) : st :=
  if bool_decide (other_id s = []) then s else fst (relayEvent EvTerminate s).

(** The request in [onB2BEvent]. *)
Definition b2b_request (req : b2b_req) (forward : bool) (s : st) : st * option unit :=
  if forward && (q_max_forwards req =? 0)
  then (relayError (q_method req) (q_cseq req) true 483 (lit "Too Many Hops") s, Some tt)
  else if forward && bool_decide (q_method req = B_INVITE) && dg_uac_inv (bdlg s)
  then (relayError (q_method req) (q_cseq req) true 491 (lit "Request Pending") s, Some tt)
  else if forward && bool_decide (q_method req = B_BYE) && negb (dg_connected (bdlg s))
  then (relayError (q_method req) (q_cseq req) true 200 (lit "OK") s, Some tt)
  else
    let '(s, processed) := if bool_decide (q_method req = B_BYE) then v_onOtherBye V req s else (s, false) in
    if forward && negb processed then
      let? (s, res) := relaySip_request req s in
      (if res <? 0 then relayErr (q_method req) (q_cseq req) true res s else s, Some tt)
    else (s, Some tt).

(** The reply with its Contact where the dialog would not send it. *)
Definition with_contact (r : b2b_rpl) : b2b_rpl :=
  if (300 <=? r_code r) && (r_code r <=? 305) && negb (bool_decide (r_contact r = []))
  then add_r_hdrs (lit "Contact: " ++ r_contact r ++ CRLF) r else r.

(** The reply in [onB2BEvent]. *)
Definition b2b_reply (r : b2b_rpl) (forward : bool) (s : st) : st * option unit :=
  if forward then
    match im_find (r_cseq r) (recvd_req s) with
    | None => (s, Some tt)
    | Some req =>
        let? (s, res) := relaySip_reply req (with_contact r) s in
        (if res <? 0 then v_terminateLeg V (v_terminateOtherLeg V s) else s, Some tt)
    end
  else if (200 <=? r_code r) && (r_code r <? 300) && negb (body_empty (r_body r)) && is_meth (r_method r) [B_INVITE; B_UPDATE] then
    let '(s, changed) := updateSessionDescription (r_body r) s in
    (if changed && negb (r_cseq r =? est_invite_cseq s) && negb (dg_uac_inv (bdlg s))
     then fst (sendEstablishedReInvite s) else s, Some tt)
  else (s, Some tt).

Definition onB2BEvent (e : b2b_event Y) (s : st) : st * option unit :=
  match e with
  | EvRequest req forward => b2b_request req forward s
  | EvReply r forward _ _ => b2b_reply r forward s
  | EvTerminate => (v_terminateLeg V s, Some tt)
  | EvApp _ => (s, Some tt)
  end.

(** [onSipRequest] *)
Definition onSipRequest (req : b2b_req) (s : st) : st :=
  let fwd := sip_relay_only s && negb (bool_decide (q_method req = B_CANCEL)) in
  if is_meth (q_method req) [B_SUBSCRIBE; B_NOTIFY; B_REFER] && negb (subs_request E req) then s
  else
    let s := if negb fwd then v_session_request V req s
             else if bool_decide (q_method req = B_BYE) then v_onBye V req s else s in
    if fwd then
      let r := if bool_decide (q_method req = B_NOTIFY)
               then set_q_hdrs (notify_hdrs E (refer_id_map s) (q_hdrs req)) req else req in
      let '(s, res) := relayEvent (EvRequest r fwd) s in
      if res =? 0
      then if bool_decide (q_method req = B_ACK) then s else set_recvd (im_insert (q_cseq req) req (recvd_req s)) s
      else fst (dlg_reply req (errCode res) (errReason (errCode res)) mime_empty_body [] false s)
    else fst (relayEvent (EvRequest req fwd) s).

(** The CSeq that a reply which is not forwarded gets on the other side; [t] is the relayed
    request that it answers. *)
Definition other_cseq (r : b2b_rpl) (t : option b2b_req) (s : st) : Z :=
  if est_invite_cseq s =? r_cseq r then est_invite_other_cseq s
  else match t with Some q => q_cseq q | None => 0 end.

(** A final reply to a relayed request ends its entry, but a 2xx to an INVITE waits for the
    ACK. *)
Definition reply_done (r : b2b_rpl) (q : b2b_req) (s : st) : st :=
  if 200 <=? r_code r then
    if (r_code r <? 300) && bool_decide (q_method q = B_INVITE) then s
    else
      let s := if (r_code r <? 300) && bool_decide (r_method r = B_REFER) && subs_exists E (r_cseq r)
               then set_refer_map (im_set (r_cseq r) (q_cseq q) (refer_id_map s)) s else s in
      set_relayed (im_erase (r_cseq r) (relayed_req s)) s
  else s.

(** [onSipReply] *)
Definition onSipReply (r : b2b_rpl) (s : st) : st :=
  let t := im_find (r_cseq r) (relayed_req s) in
  let fwd := match t with Some _ => negb (r_code r =? 100) | None => false end in
  if negb (bool_decide (dg_remote_tag (bdlg s) = [])) && negb (bool_decide (dg_remote_tag (bdlg s) = r_to_tag r)) then s
  else if is_meth (r_method r) [B_SUBSCRIBE; B_NOTIFY; B_REFER] && negb (subs_reply E r) then s
  else
    let local :=
      let s := v_session_reply V r s in
      fst (relayEvent (EvReply (set_r_cseq (other_cseq r t s) r) false (r_method r) (local_tag s)) s) in
    match t with
    | Some q =>
        if fwd
        then reply_done r q (fst (relayEvent (EvReply (set_r_cseq (q_cseq q) r) true (q_method q) (local_tag s)) s))
        else local
    | None => local
    end.

(** [onInvite2xx]: only an INVITE that was not relayed is acknowledged here. *)
Definition onInvite2xx (r : b2b_rpl) (s : st) : st :=
  match im_find (r_cseq r) (relayed_req s) with
  | None => fst (dlg_ack (r_cseq r) mime_empty_body [] s)
  | Some _ => s
  end.

(** [updateUACTransCSeq]: a request was sent again with another CSeq. *)
Definition updateUACTransCSeq (old new : Z) (s : st) : st :=
  if old =? new then s
  else
    let s := match im_find old (relayed_req s) with
             | Some q => set_relayed (im_erase old (im_set new q (relayed_req s))) s
             | None => s
             end in
    if est_invite_cseq s =? old then set_est new (est_invite_other_cseq s) s else s.

(** [finalize]: what was relayed and is not answered is answered with 481. *)
Definition finalize (s : st) : st :=
  if bool_decide (other_id s = []) then s
  else
    let s := fold_left (fun s x => relayError (q_method (snd x)) (q_cseq (snd x)) true 481 (lit "Call/Transaction Does Not Exist") s)
               (relayed_req s) s in
    set_relayed [] s.

(** [B2BConnectEvent] at the callee: [AmB2BCalleeSession::onB2BEvent]. *)
Record b2b_connect := mk_connect { co_body : mime; co_hdrs : list Z; co_relayed : bool; co_cseq : Z }.

Definition fake_invite (c : Z) : b2b_req := mk_breq B_INVITE c 0 mime_empty_body [] 0 0 [].

(** -1 is the default for [max_forwards]; the exception is passed on. *)
Definition connect_callee (co : b2b_connect) (s : st) : st * option unit :=
  let c := dg_cseq (bdlg s) in
  let s := if co_relayed co then set_relayed (im_set c (fake_invite (co_cseq co)) (relayed_req s)) s else s in
  match h_updateLocalBody H (co_body co) s with
  | (s, None) => (relayError B_INVITE (co_cseq co) (co_relayed co) 500 (lit "Server Internal Error") s, None)
  | (s, Some body) =>
      let '(d, res) := dg_send B_INVITE body (co_hdrs co) (-1) (bdlg s) in
      let s := upd_dlg d s in
      (if res <? 0 then
         let s := relayErr B_INVITE (co_cseq co) (co_relayed co) res s in
         setStopped (if co_relayed co then set_relayed (im_erase (dg_cseq (bdlg s)) (relayed_req s)) s else s)
       else set_est (u32 (dg_cseq (bdlg s) - 1)) (co_cseq co) (saveSessionDescription (co_body co) s), Some tt)
  end.

(** The methods of the base class. *)
Definition base_virtuals (sr : b2b_req -> st -> st) (sp : b2b_rpl -> st -> st) : virtuals :=
  mk_virtuals sr sp (fun _ s => setStopped s) b_onOtherBye b_terminateLeg b_terminateOtherLeg.

(** ** The end of a session

    What a session does when the peer is gone; the handlers of [AmSession] follow those of
    [AmB2BSession]. *)

Definition sess_end (s : st) : st := setStopped (dlg_bye [] s).

Definition b_onRtpTimeout (s : st) : st := sess_end (v_terminateOtherLeg V s).

Definition b_onSessionTimeout (s : st) : st := sess_end (v_terminateOtherLeg V s).

Definition b_onRemoteDisappeared (s : st) : st :=
  if dg_connected (bdlg s) then sess_end (v_terminateOtherLeg V s) else s.

Definition b_onNoAck (s : st) : st :=
  let s := v_terminateOtherLeg V s in
  setStopped (if dg_connected (bdlg s) then dlg_bye [] s else s).

(** [AmSession::onNoPrack] *)
Definition sess_onNoPrack (req : b2b_req) (s : st) : st :=
  let s := fst (dlg_reply req 504 (lit "Server Time-out") mime_empty_body [] false s) in
  if dg_early (bdlg s) then setStopped s else s.

End Session.
