(* ===== verification/DialogLeg.v ===== *)
(** * The dialog of a leg

    The dialog of [SipDialog] provides what a leg of a back-to-back call asks of its dialog:
    the instance of the interface [LegDialog] and of its laws.  Of a message the model of the
    dialog knows method, CSeq and body; header texts are passed through by it unseen.  A reply
    that 100rel refuses by an exception counts as one that could not be sent. *)

From Stdlib Require Import ZArith Lia Ascii String.
From stdpp Require Import base list.
From S2P Require Import Prelude SipMsg MimeBody DialogMsg Rel100 OfferAnswer OfferAnswerSpec SipDialog SipDialogSpec SipDialogInv ParseCommon B2BSession.

Local Open Scope Z_scope.
Local Open Scope bool_scope.

Definition to_sip (m : b2b_meth) : sip_meth :=
  match m with
  | B_INVITE => M_INVITE | B_ACK => M_ACK | B_BYE => M_BYE | B_CANCEL => M_CANCEL | B_PRACK => M_PRACK
  | B_UPDATE => M_UPDATE | B_NOTIFY => M_NOTIFY | B_SUBSCRIBE | B_REFER => M_OTHER
  | B_METHOD t => if bool_decide (t = lit "INFO") then M_INFO else M_OTHER
  end.

Section DialogLeg.
Context {sdp : Type} (E : @oa_env sdp).
Implicit Types o : @oa sdp.

(** The dialog after a call, and the value returned. *)
Definition sent_result o (r : option (oa * bool)) : @oa sdp * Z :=
  match r with Some (o, true) => (o, 0) | Some (o, false) => (o, -1) | None => (o, -1) end.

Definition is_completed (e : @oa_event sdp) : bool := match e with OCompleted _ _ => true | _ => false end.

(** The INVITE that [bye] answers with 487, when the reply is sent. *)
Definition bye_answers o : option Z :=
  let quit :=
    r ← tm_invite (uas_trans (dlg o));
    match snd (reply E r 487 mime_empty_body no_hdrs o) with TxOk => Some (rq_cseq r) | _ => None end in
  match d_status (dlg o) with
  | Trying | Proceeding | Early => if tm_has_invite (uac_trans (dlg o)) then None else quit
  | Cancelling => quit
  | _ => None
  end.

#[export] Instance leg_dialog : LegDialog (@oa sdp) := {
  dg_cseq o := d_cseq (dlg o);
  dg_connected o := bool_decide (d_status (dlg o) = Connected);
  dg_early o := match d_status (dlg o) with Disconnected | Trying | Proceeding | Cancelling | Early => true | _ => false end;
  dg_uac_inv o := tm_has_invite (uac_trans (dlg o));
  dg_uas_inv o := (fun r => (rq_cseq r, rq_body r)) <$> tm_invite (uas_trans (dlg o));
  dg_oa_idle o := bool_decide (state o = OA_None) || bool_decide (state o = OA_Completed);
  dg_oa_reopen o := if bool_decide (state o = OA_Completed) then set_st OA_OfferRecved o else o;
  dg_completions o := length (List.filter is_completed (oa_events o));
  dg_remote_tag o := map (fun c => Z.of_N (N_of_ascii c)) (remote_tag (dlg o));
  dg_send m b _ _ o := sent_result o (sendRequest E (to_sip m) b o);
  dg_reply q code _ b _ _ o :=
    let '(o, r) := reply E (mk_req (to_sip (q_method q)) (q_cseq q) b) code b no_hdrs o in
    (o, match r with TxOk => 0 | _ => -1 end);
  dg_ack c b _ o := sent_result o (send_200_ack E c b o);
  dg_reinvite b o := sent_result o (reinvite E b o);
  dg_bye _ o := (bye E o, bye_answers o)
}.

Lemma keeps_cseq o o' : keeps o o' -> d_cseq (dlg o') = d_cseq (dlg o).
Proof. intros H. by apply sent_on_cseq, keeps_sent_on. Qed.

Lemma transmit_cseq req o o' ok :
  transmit E req o = Some (o', ok) ->
  d_cseq (dlg o') = (if ok && negb (meth_eqb (rq_method req) M_ACK) then u32 (d_cseq (dlg o) + 1) else d_cseq (dlg o)).
Proof.
  unfold transmit, onTxRequest. destruct (rel_out_kept req (rel100 (dlg o))) as [Hm _].
  destruct (onRequestOut E _ o) as [[[o1 req1] ok1]|] eqn:Ho; [|done].
  apply keeps_request_out in Ho as (Hk & Hm1 & _). apply keeps_cseq in Hk.
  destruct ok1; [|intros [= <- <-]; done].
  set (o2 := if meth_eqb _ _ && _ then _ else _).
  assert (H2 : d_cseq (dlg o2) = d_cseq (dlg o)) by (subst o2; repeat case_match; exact Hk).
  clearbody o2. unfold net_send. destruct (tx_ok E _); intros [= <- <-]; [|exact H2].
  unfold onRequestTxed. rewrite (keeps_cseq _ _ (keeps_request_sent E _ _)), Hm1, Hm.
  destruct (meth_eqb (rq_method req) M_ACK); cbn; by rewrite H2.
Qed.

Lemma reply_cseq req code b h o : d_cseq (dlg (fst (reply E req code b h o))) = d_cseq (dlg o).
Proof.
  unfold reply. destruct h as [[sup requ] rs]. destruct (tm_find _ _); [|done].
  set (rpl := build_rpl _ _ _ _ _ _ _ _). pose proof (onTxReply_keeps E rpl o) as (H1 & _ & _).
  destruct (onTxReply E rpl o) as [[o1 rpl1] res]. cbn in H1. apply keeps_cseq in H1.
  destruct res; [|exact H1|exact H1]. pose proof (net_send_on E (DTxReply rpl1) o1 eq_refl) as H2.
  apply sent_on_cseq in H2. destruct (net_send E _ o1) as [o2 sent]. cbn in H2.
  destruct sent; cbn [fst]; [|congruence]. unfold onReplyTxed.
  set (o3 := if ends_usage _ then _ else _). set (o4 := if (200 <=? _) && negb _ then _ else _).
  assert (H4 : d_cseq (dlg o4) = d_cseq (dlg o2)).
  { subst o4 o3. unfold tell. by repeat case_match. }
  clearbody o4. pose proof (keeps_cseq _ _ (keeps_reply_sent E rpl1 o4)) as H5.
  case_match; cbn; congruence.
Qed.

Lemma to_sip_ack m : to_sip m = M_ACK -> m = B_ACK.
Proof. destruct m; try done. cbn. by case_bool_decide. Qed.

#[export] Instance leg_dialog_ok : LegDialogOk (@oa sdp).
Proof.
  split.
  - intros m b h f o Hm. unfold dg_send, dg_cseq. cbn [leg_dialog]. unfold sendRequest.
    destruct (transmit E _ o) as [[o' ok]|] eqn:Ht; [|done]. apply transmit_cseq in Ht. cbn [rq_method] in Ht.
    assert (meth_eqb (to_sip m) M_ACK = false) as Hack by (apply bool_decide_false; by intros ?%to_sip_ack).
    rewrite Hack in Ht. by destruct ok.
  - intros q c r b h t o. unfold dg_reply, dg_cseq. cbn [leg_dialog].
    pose proof (reply_cseq (mk_req (to_sip (q_method q)) (q_cseq q) b) c b no_hdrs o) as H. by destruct (reply E _ c b no_hdrs o).
  - intros c b h o. unfold dg_ack, dg_cseq. cbn [leg_dialog]. unfold send_200_ack.
    destruct (tm_find c _); [|done]. destruct (transmit E _ o) as [[o' ok]|] eqn:Ht; [|done].
    apply transmit_cseq in Ht. cbn [rq_method meth_eqb] in Ht. rewrite andb_false_r in Ht. by destruct ok.
Qed.

End DialogLeg.
