(* ===== verification/B2BProps.v ===== *)
(** * Relaying between two legs

    A request that one leg receives in relay mode leaves the other leg, and the replies to it
    find their way back to it; what happens to the entries in between; where the code does
    not do what it means to.  [DialogLeg] provides the dialogs. *)

From Stdlib Require Import ZArith Lia Ascii String.
From stdpp Require Import base list.
From S2P Require Import Prelude SipMsg MimeBody DialogMsg Rel100 OfferAnswer OfferAnswerSpec SipDialog SipDialogSpec SipDialogInv ParseCommon AmUtils SipHeader B2BSession DialogLeg.

Local Open Scope Z_scope.
Local Open Scope bool_scope.

(** ** Maps *)

Section IntMapLemmas.
Context {A : Type}.
Implicit Types (m : list (Z * A)).

Lemma im_find_set k a m : im_find k (im_set k a m) = Some a.
Proof.
  induction m as [|[j b] m IH]; cbn [im_set im_find]; [by rewrite Z.eqb_refl|].
  destruct (Z.ltb_spec k j); cbn [im_find]; [by rewrite Z.eqb_refl|].
  destruct (Z.eqb_spec k j) as [->|Hne]; cbn [im_find]; [by rewrite Z.eqb_refl|].
  destruct (Z.eqb_spec j k); [lia|done].
Qed.

Lemma im_find_set_other k j a m : j <> k -> im_find j (im_set k a m) = im_find j m.
Proof.
  intros Hne. assert (Hk : (k =? j) = false) by (apply Z.eqb_neq; lia).
  induction m as [|[i b] m IH]; cbn [im_set im_find]; [by rewrite Hk|].
  destruct (Z.ltb_spec k i); cbn [im_find]; [by rewrite Hk|].
  destruct (Z.eqb_spec k i) as [->|]; cbn [im_find]; [by rewrite Hk|]. by rewrite IH.
Qed.

Lemma im_find_erase k m : im_find k (im_erase k m) = None.
Proof.
  induction m as [|[j a] m IH]; [done|]. unfold im_erase. cbn [List.filter fst].
  destruct (Z.eqb_spec j k); cbn [negb]; [exact IH|]. cbn [im_find]. by destruct (Z.eqb_spec j k).
Qed.

Lemma im_find_erase_other k j m : j <> k -> im_find j (im_erase k m) = im_find j m.
Proof.
  intros Hne. induction m as [|[i a] m IH]; [done|]. unfold im_erase. cbn [List.filter fst].
  destruct (Z.eqb_spec i k) as [->|]; cbn [negb im_find].
  - destruct (Z.eqb_spec k j); [lia|]. exact IH.
  - destruct (i =? j); [done|]. exact IH.
Qed.

Lemma im_find_insert k a m : im_find k m = None -> im_find k (im_insert k a m) = Some a.
Proof. intros H. unfold im_insert. rewrite H. apply im_find_set. Qed.

Lemma im_find_in k a m : List.NoDup (map fst m) -> In (k, a) m -> im_find k m = Some a.
Proof.
  induction m as [|[j b] m IH]; [done|]. cbn [map fst im_find]. intros [Hn Hnd]%List.NoDup_cons_iff [Hin|Hin].
  - injection Hin as -> ->. by rewrite Z.eqb_refl.
  - destruct (Z.eqb_spec j k) as [->|]; [|by apply IH]. destruct Hn. apply in_map_iff. by exists (k, a).
Qed.

End IntMapLemmas.

(** ** The base class *)

Lemma upd_base {D X Y} {LD : LegDialog D} (E : @b2b_env D X Y) (d : D) (s : b2b D X Y) : upd_dlg (base_hooks E) d s = set_bdlg d s.
Proof. unfold upd_dlg. induction (_ - _)%nat as [|n IH]; [done|exact IH]. Qed.

Lemma dlg_ack_base {D X Y} {LD : LegDialog D} (E : @b2b_env D X Y) c b h (s : b2b D X Y) :
  dlg_ack (base_hooks E) c b h s = (set_bdlg (dg_ack c b h (bdlg s)).1 s, (dg_ack c b h (bdlg s)).2).
Proof. unfold dlg_ack. destruct (dg_ack _ _ _ _) as [d err]. rewrite upd_base. by destruct (err <? 0). Qed.

Lemma dlg_reply_base {D X Y} {LD : LegDialog D} (E : @b2b_env D X Y) q c r b h t (s : b2b D X Y) :
  let ans := dg_reply q c r b h t (bdlg s) in
  dlg_reply (base_hooks E) q c r b h t s = (if ans.2 =? 0 then onReplySent q c (set_bdlg ans.1 s) else set_bdlg ans.1 s, ans.2).
Proof. unfold dlg_reply. destruct (dg_reply _ _ _ _ _ _ _) as [d err]. rewrite upd_base. cbn [fst snd]. by repeat case_match. Qed.

Lemma local_body_base {D X Y} (E : @b2b_env D X Y) m b (s : b2b D X Y) :
  local_body (base_hooks E) m b s = (s, snd (local_body (base_hooks E) m b s)).
Proof. unfold local_body. cbn. by case_match. Qed.

(** ** A request there, its replies back *)

Section Relay.
Context {DA XA YA DB XB YB : Type} {LA : LegDialog DA} {LB : LegDialog DB}.
Context (EA : @b2b_env DA XA YA) (EB : @b2b_env DB XB YB).
Context (reqA : b2b_req -> b2b DA XA YA -> b2b DA XA YA) (rplA : b2b_rpl -> b2b DA XA YA -> b2b DA XA YA).
Context (reqB : b2b_req -> b2b DB XB YB -> b2b DB XB YB) (rplB : b2b_rpl -> b2b DB XB YB -> b2b DB XB YB).

Local Notation "'HA'" := (base_hooks EA).
Local Notation "'HB'" := (base_hooks EB).
Local Notation "'VA'" := (base_virtuals HA reqA rplA).
Local Notation "'VB'" := (base_virtuals HB reqB rplB).

Definition to_relay (req : b2b_req) (s : b2b DA XA YA) : b2b_req :=
  if bool_decide (q_method req = B_NOTIFY) then set_q_hdrs (notify_hdrs EA (refer_id_map s) (q_hdrs req)) req else req.

Lemma to_relay_same req s : q_method (to_relay req s) = q_method req /\ q_cseq (to_relay req s) = q_cseq req /\
  q_body (to_relay req s) = q_body req /\ q_max_forwards (to_relay req s) = q_max_forwards req.
Proof. unfold to_relay. by destruct (bool_decide _). Qed.

(** Subscriptions do not keep the message. *)
Definition subs_pass {D X Y} (E : @b2b_env D X Y) (req : b2b_req) : Prop :=
  is_meth (q_method req) [B_SUBSCRIBE; B_NOTIFY; B_REFER] = true -> subs_request E req = true.

Definition subs_pass_reply {D X Y} (E : @b2b_env D X Y) (r : b2b_rpl) : Prop :=
  is_meth (r_method r) [B_SUBSCRIBE; B_NOTIFY; B_REFER] = true -> subs_reply E r = true.

(** The first leg hands the request over and remembers it. *)
Lemma request_handed_over A req :
  sip_relay_only A = true -> other_id A <> [] -> alive EA (other_id A) = true ->
  q_method req <> B_ACK -> q_method req <> B_CANCEL -> subs_pass EA req -> im_find (q_cseq req) (recvd_req A) = None ->
  let A1 := onSipRequest EA HA VA req A in
  out A1 = out A ++ [(other_id A, EvRequest (to_relay req A) true)] /\ im_find (q_cseq req) (recvd_req A1) = Some req.
Proof.
  intros Hr Ho Ha Hack Hcan Hs Hn. unfold onSipRequest. rewrite Hr. rewrite (bool_decide_false (q_method req = B_CANCEL)) by done.
  cbn [negb andb].
  assert (is_meth (q_method req) [B_SUBSCRIBE; B_NOTIFY; B_REFER] && negb (subs_request EA req) = false) as ->.
  { destruct (is_meth _ _) eqn:E; [|done]. by rewrite Hs. }
  set (s := if bool_decide (q_method req = B_BYE) then _ else A).
  assert (Es : other_id s = other_id A /\ out s = out A /\ recvd_req s = recvd_req A /\ refer_id_map s = refer_id_map A)
    by (unfold s; by destruct (bool_decide _)).
  destruct Es as (E1 & E2 & E3 & E4). cbn [base_hooks h_relayEvent]. unfold b_relayEvent, postEvent. rewrite E1, E4, (bool_decide_false (other_id A = [])) by done. rewrite Ha.
  cbn [Z.eqb]. rewrite (bool_decide_false (q_method req = B_ACK)) by done. fold (to_relay req A).
  cbn [set_recvd post out recvd_req]. rewrite E2, E3. split; [done|]. by apply im_find_insert.
Qed.

(** The second leg sends it, with one hop less, and notes under which CSeq. *)
Lemma request_sent_on B req body :
  q_method req <> B_ACK -> 0 < q_max_forwards req ->
  (q_method req = B_INVITE -> dg_uac_inv (bdlg B) = false) -> (q_method req = B_BYE -> dg_connected (bdlg B) = true) ->
  local_body HB (q_method req) (q_body req) B = (B, Some body) ->
  let k := dg_cseq (bdlg B) in
  let hdrs := prack_hdrs req (set_relayed (im_set k req (relayed_req B)) B) in
  let sent := dg_send (q_method req) body hdrs (q_max_forwards req - 1) (bdlg B) in
  0 <= sent.2 ->
  exists B1, onB2BEvent EB HB VB (EvRequest req true) B = (B1, Some tt) /\ bdlg B1 = sent.1 /\
    relayed_req B1 = im_set k req (relayed_req B) /\ out B1 = out B.
Proof.
  intros Hack Hmf Hinv Hbye Hbody k hdrs sent Hok. cbn [onB2BEvent]. unfold b2b_request. cbn [andb].
  destruct (Z.eqb_spec (q_max_forwards req) 0); [lia|].
  assert (bool_decide (q_method req = B_INVITE) && dg_uac_inv (bdlg B) = false) as ->
    by (case_bool_decide; [by rewrite Hinv|done]).
  assert (bool_decide (q_method req = B_BYE) && negb (dg_connected (bdlg B)) = false) as ->
    by (case_bool_decide; [by rewrite Hbye|done]).
  set (p := if bool_decide (q_method req = B_BYE) then _ else _).
  assert (Ep : exists s, p = (s, false) /\ bdlg s = bdlg B /\ relayed_req s = relayed_req B /\ out s = out B /\
    local_body HB (q_method req) (q_body req) s = (s, Some body)).
  { unfold p. case_bool_decide as Hb; [|by exists B]. eexists. split; [reflexivity|].
    split_and!; try (unfold clearRtpReceiverRelay, media_ref; by repeat case_match).
    unfold local_body in *. rewrite Hb in *. cbn in Hbody |- *. by injection Hbody as ->. }
  destruct Ep as (s & -> & Ed & Er & Eo & El). cbn [negb andb]. unfold relaySip_request. rewrite El. cbn [mbind option_bind].
  rewrite (bool_decide_false (q_method req = B_ACK)) by done. cbn [negb]. rewrite Ed, Er.
  change (bdlg (set_relayed ?x s)) with (bdlg s). rewrite Ed.
  assert (prack_hdrs req (set_relayed (im_set (dg_cseq (bdlg B)) req (relayed_req B)) s) = hdrs) as -> by done.
  fold sent. destruct sent as [d err]. cbn [snd] in Hok. rewrite upd_base. destruct (Z.ltb_spec err 0); [lia|]. cbn [mbind option_bind].
  eexists. split; [reflexivity|]. unfold save_body, saveSessionDescription. by repeat case_match.
Qed.

(** A reply to it goes back under the CSeq it came with, and a final one ends the entry. *)
Lemma reply_handed_back B r q :
  im_find (r_cseq r) (relayed_req B) = Some q -> other_id B <> [] -> alive EB (other_id B) = true ->
  r_code r <> 100 -> (dg_remote_tag (bdlg B) = [] \/ dg_remote_tag (bdlg B) = r_to_tag r) -> subs_pass_reply EB r ->
  let B1 := onSipReply EB HB VB r B in
  out B1 = out B ++ [(other_id B, EvReply (set_r_cseq (q_cseq q) r) true (q_method q) (local_tag B))] /\
  (200 <= r_code r -> (300 <= r_code r \/ q_method q <> B_INVITE) -> im_find (r_cseq r) (relayed_req B1) = None).
Proof.
  intros Hf Ho Ha Hc Ht Hs. unfold onSipReply. rewrite Hf.
  assert (negb (bool_decide (dg_remote_tag (bdlg B) = [])) && negb (bool_decide (dg_remote_tag (bdlg B) = r_to_tag r)) = false) as ->.
  { repeat case_bool_decide; try done. by destruct Ht. }
  assert (is_meth (r_method r) [B_SUBSCRIBE; B_NOTIFY; B_REFER] && negb (subs_reply EB r) = false) as ->.
  { destruct (is_meth _ _) eqn:E; [|done]. by rewrite Hs. }
  apply Z.eqb_neq in Hc as ->. cbn [negb base_hooks h_relayEvent]. unfold b_relayEvent, postEvent. rewrite (bool_decide_false (other_id B = [])) by done. rewrite Ha. cbn [fst].
  unfold reply_done. destruct (Z.leb_spec 200 (r_code r)).
  2:{ split; [done|]. lia. }
  destruct ((r_code r <? 300) && bool_decide (q_method q = B_INVITE)) eqn:Hi.
  - split; [done|]. intros _ Hor. zbool. case_bool_decide; [|done]. by destruct Hor; [lia|].
  - split; [by destruct (_ && subs_exists _ _)|]. intros _ _. cbn [set_relayed relayed_req].
    replace (relayed_req _) with (relayed_req B) by (by destruct (_ && subs_exists _ _)). apply im_find_erase.
Qed.

(** The first leg answers the request it remembers, and forgets it with the final reply. *)
Lemma reply_answered A r req body tm tag :
  im_find (r_cseq r) (recvd_req A) = Some req -> q_cseq req = r_cseq r -> q_method req <> B_CANCEL ->
  local_body HA (q_method req) (r_body r) A = (A, Some body) ->
  let r' := with_contact r in
  let hdrs := if r_rseq r' =? 0 then r_hdrs r' else r_hdrs r' ++ lit "RSeq: " ++ int2str (r_rseq r') ++ CRLF in
  let ans := dg_reply req (r_code r) (r_reason r) body hdrs (bool_decide (r_to_tag r = [])) (bdlg A) in
  ans.2 = 0 ->
  exists A1, onB2BEvent EA HA VA (EvReply r true tm tag) A = (A1, Some tt) /\ bdlg A1 = ans.1 /\
    (200 <= r_code r -> im_find (r_cseq r) (recvd_req A1) = None).
Proof.
  intros Hf Hc Hm Hb r' hdrs ans Hans.
  assert (Er : r_code r' = r_code r /\ r_reason r' = r_reason r /\ r_body r' = r_body r /\ r_to_tag r' = r_to_tag r)
    by (unfold r', with_contact; by destruct (_ && _)).
  destruct Er as (E1 & E2 & E3 & E4).
  cbn [onB2BEvent]. unfold b2b_reply. rewrite Hf. unfold relaySip_reply. fold r'. fold hdrs. rewrite E1, E2, E3, E4, Hb.
  cbn [mbind option_bind]. rewrite dlg_reply_base. fold ans. rewrite Hans. cbn [Z.eqb Z.ltb Z.compare].
  cbn [mbind option_bind]. change (0 <? 0) with false. eexists. split; [reflexivity|].
  unfold save_body, saveSessionDescription, onReplySent. split; [repeat case_match; done|]. intros Hcode.
  assert ((200 <=? r_code r) && negb (bool_decide (q_method req = B_CANCEL)) = true) as ->.
  { rewrite (bool_decide_false (q_method req = B_CANCEL)) by done. by apply andb_true_iff; split; [apply Z.leb_le|]. }
  rewrite Hc. repeat case_match; cbn [set_established set_recvd set_bdlg recvd_req]; apply im_find_erase.
Qed.

(** A reply for which no request is remembered is dropped. *)
Lemma reply_dropped A r tm tag : im_find (r_cseq r) (recvd_req A) = None -> onB2BEvent EA HA VA (EvReply r true tm tag) A = (A, Some tt).
Proof. intros Hf. cbn [onB2BEvent]. unfold b2b_reply. by rewrite Hf. Qed.

(** C30: relaying end to end, for a request other than ACK and CANCEL that is not refused before
    it is relayed and that the second leg can send.  It is handed by the first leg, in relay
    mode, to the second leg, which sends it with the same method, one hop less and the CSeq of
    its own dialog; whenever a reply to that CSeq other than 100, with the tag of the dialog if
    it has one, comes while the entry stands, it is handed back with the CSeq of the first leg;
    and whenever a reply with that CSeq arrives there while the request waits, exactly that
    request is answered with its code and reason.  A final reply removes the entry of the second
    leg, except that of a 2xx to an INVITE, which the leg keeps for the ACK, and after one that
    was sent no later reply to the request is sent by the first leg. *)
Theorem relay_end_to_end A B req body :
  other_id A = local_tag B -> other_id B = local_tag A -> local_tag A <> [] -> local_tag B <> [] ->
  alive EA (local_tag B) = true -> sip_relay_only A = true ->
  q_method req <> B_ACK -> q_method req <> B_CANCEL -> 0 < q_max_forwards req -> subs_pass EA req ->
  im_find (q_cseq req) (recvd_req A) = None ->
  (q_method req = B_INVITE -> dg_uac_inv (bdlg B) = false) -> (q_method req = B_BYE -> dg_connected (bdlg B) = true) ->
  let req' := to_relay req A in
  let k := dg_cseq (bdlg B) in
  local_body HB (q_method req) (q_body req) B = (B, Some body) ->
  let sent := dg_send (q_method req) body (prack_hdrs req' (set_relayed (im_set k req' (relayed_req B)) B))
                (q_max_forwards req - 1) (bdlg B) in
  0 <= sent.2 ->
  (let A1 := onSipRequest EA HA VA req A in
   out A1 = out A ++ [(local_tag B, EvRequest req' true)] /\ im_find (q_cseq req) (recvd_req A1) = Some req) /\
  (exists B1, onB2BEvent EB HB VB (EvRequest req' true) B = (B1, Some tt) /\ bdlg B1 = sent.1 /\
     relayed_req B1 = im_set k req' (relayed_req B) /\ out B1 = out B) /\
  (forall B2 r, im_find k (relayed_req B2) = Some req' -> other_id B2 = local_tag A -> alive EB (local_tag A) = true ->
     r_cseq r = k -> r_code r <> 100 -> (dg_remote_tag (bdlg B2) = [] \/ dg_remote_tag (bdlg B2) = r_to_tag r) ->
     subs_pass_reply EB r ->
     let B3 := onSipReply EB HB VB r B2 in
     out B3 = out B2 ++ [(local_tag A, EvReply (set_r_cseq (q_cseq req) r) true (q_method req) (local_tag B2))] /\
     (200 <= r_code r -> (300 <= r_code r \/ q_method req <> B_INVITE) -> im_find k (relayed_req B3) = None)) /\
  (forall A2 r b tm tag, im_find (q_cseq req) (recvd_req A2) = Some req -> r_cseq r = q_cseq req ->
     local_body HA (q_method req) (r_body r) A2 = (A2, Some b) ->
     let r' := with_contact r in
     let hdrs := if r_rseq r' =? 0 then r_hdrs r' else r_hdrs r' ++ lit "RSeq: " ++ int2str (r_rseq r') ++ CRLF in
     let ans := dg_reply req (r_code r) (r_reason r) b hdrs (bool_decide (r_to_tag r = [])) (bdlg A2) in
     ans.2 = 0 ->
     exists A3, onB2BEvent EA HA VA (EvReply r true tm tag) A2 = (A3, Some tt) /\ bdlg A3 = ans.1 /\
       (200 <= r_code r -> forall r2 tm2 tag2, r_cseq r2 = q_cseq req -> onB2BEvent EA HA VA (EvReply r2 true tm2 tag2) A3 = (A3, Some tt))).
Proof.
  intros HoA HoB HtA HtB Hal Hro Hack Hcan Hmf Hs Hn Hinv Hbye req' k Hbody sent Hok.
  destruct (to_relay_same req A) as (Em & Ec & Eb & Ef). fold req' in Em, Ec, Eb, Ef.
  split; [|split; [|split]].
  - rewrite <- HoA in *. by apply request_handed_over.
  - unfold sent in *. rewrite <- Em, <- Eb, <- Ef in *. by apply (request_sent_on B req' body).
  - intros B2 r Hf Ho Ha Hk Hc Ht Hsr. rewrite <- Hk in *. rewrite <- Em, <- Ec. rewrite <- Ho in Ha |- *.
    apply (reply_handed_back B2 r req'); try done. by rewrite Ho.
  - intros A2 r b tm tag Hf Hc Hb r' hdrs ans Hans. rewrite <- Hc in Hf.
    destruct (reply_answered A2 r req b tm tag Hf (eq_sym Hc) Hcan Hb Hans) as (A3 & H1 & H2 & H3).
    exists A3. split; [done|]. split; [done|]. intros Hcode r2 tm2 tag2 Hr2. apply reply_dropped. rewrite Hr2, <- Hc. by apply H3.
Qed.

End Relay.

(** ** How long an entry stands *)

Section Kept.
Context {D X Y : Type} {LD : LegDialog D} {LDok : LegDialogOk D}.
Context (E : @b2b_env D X Y) (sr : b2b_req -> b2b D X Y -> b2b D X Y) (sp : b2b_rpl -> b2b D X Y -> b2b D X Y).
Implicit Types s : b2b D X Y.

Local Notation "'HB'" := (base_hooks E).
Local Notation "'VB'" := (base_virtuals HB sr sp).

Lemma relayEvent_relayed e s : (forall y, e <> EvApp y) -> relayed_req (fst (b_relayEvent E e s)) = relayed_req s.
Proof. intros He. unfold b_relayEvent, postEvent. case_bool_decide; [|destruct (alive E _)]; destruct e as [| | |y]; try done; by destruct (He y). Qed.

Lemma relayError_relayed m c f code r s : relayed_req (relayError HB m c f code r s) = relayed_req s.
Proof. unfold relayError. case_match; [done|]. by apply relayEvent_relayed. Qed.

Lemma dlg_reply_relayed q c r b h t s : relayed_req (fst (dlg_reply HB q c r b h t s)) = relayed_req s.
Proof. rewrite dlg_reply_base. unfold onReplySent. cbn. by repeat case_match. Qed.

Lemma dlg_bye_relayed h s : relayed_req (dlg_bye HB h s) = relayed_req s.
Proof. unfold dlg_bye. destruct (dg_bye _ _). rewrite upd_base. by case_match. Qed.

Lemma save_body_relayed m b s : relayed_req (save_body E m b s) = relayed_req s.
Proof. unfold save_body, saveSessionDescription. by repeat case_match. Qed.

(** What a leg can be given to do. *)
Inductive b2b_op := OpRequest (req : b2b_req) | OpReply (r : b2b_rpl) | OpEvent (e : b2b_event Y).

Definition b2b_run (op : b2b_op) s : b2b D X Y :=
  match op with
  | OpRequest req => onSipRequest E HB VB req s
  | OpReply r => onSipReply E HB VB r s
  | OpEvent e => fst (onB2BEvent E HB VB e s)
  end.

(** The operations that end the entry of the request [q] sent with CSeq [k]. *)
Definition ends_entry (k : Z) (q : b2b_req) (op : b2b_op) : Prop :=
  match op with
  | OpRequest _ => False
  | OpReply r => r_cseq r = k /\ 200 <= r_code r /\ (300 <= r_code r \/ q_method q <> B_INVITE)
  | OpEvent (EvRequest req _) => q_method req = B_ACK /\ q_cseq req = q_cseq q
  | OpEvent _ => False
  end.

Lemma request_keeps_entry req forward s k q :
  List.NoDup (map fst (relayed_req s)) ->
  im_find k (relayed_req s) = Some q -> k <> dg_cseq (bdlg s) -> ~ ends_entry k q (OpEvent (EvRequest req forward)) ->
  im_find k (relayed_req (fst (b2b_request E HB VB req forward s))) = Some q.
Proof.
  intros Hnd Hf Hk Hend. unfold b2b_request.
  destruct (forward && (q_max_forwards req =? 0)); [cbn [fst]; by rewrite relayError_relayed|].
  destruct (forward && _ && dg_uac_inv (bdlg s)); [cbn [fst]; by rewrite relayError_relayed|].
  destruct (forward && _ && negb (dg_connected (bdlg s))); [cbn [fst]; by rewrite relayError_relayed|].
  set (p := if bool_decide (q_method req = B_BYE) then _ else _).
  assert (Ep : exists s1, p = (s1, false) /\ bdlg s1 = bdlg s /\ relayed_req s1 = relayed_req s).
  { unfold p. case_bool_decide; [|by exists s]. eexists. split; [reflexivity|]. unfold clearRtpReceiverRelay, media_ref. by repeat case_match. }
  destruct Ep as (s1 & -> & Ed & Er). cbn [negb]. rewrite andb_true_r. destruct forward; [|cbn [fst]; by rewrite Er].
  unfold relaySip_request. rewrite local_body_base. destruct (snd _) as [body|]; [|cbn [fst]; by rewrite Er].
  case_bool_decide as Hack; cbn [negb].
  - destruct (find_by_cseq (q_cseq req) (relayed_req s1)) as [[j r]|] eqn:Hj.
    + assert (Hjk : k <> j).
      { intros ->. apply List.find_some in Hj as [Hin Hc]. apply Z.eqb_eq in Hc. rewrite Er in Hin.
        rewrite (im_find_in _ _ _ Hnd Hin) in Hf. injection Hf as ->. by destruct Hend. }
      rewrite dlg_ack_base. destruct (dg_ack j body (q_hdrs req) (bdlg s1)) as [d err]. cbn [fst snd]. destruct (err <? 0) eqn:Herr; rewrite ?Herr.
      * cbn [fst]. unfold relayErr. by rewrite relayError_relayed; cbn; rewrite Er.
      * change (0 <? 0) with false. cbn [fst set_relayed relayed_req]. rewrite im_find_erase_other by done.
        unfold saveSessionDescription. repeat case_match; cbn; by rewrite Er.
    + change (-1 <? 0) with true. cbn [fst]. unfold relayErr. by rewrite relayError_relayed, Er.
  - cbn [set_relayed bdlg]. rewrite Ed. destruct (dg_send _ _ _ _ _) as [d err]. rewrite upd_base. destruct (err <? 0) eqn:Herr; rewrite ?Herr.
    + cbn [fst]. unfold relayErr. rewrite relayError_relayed. cbn. by rewrite im_find_set_other, Er.
    + change (0 <? 0) with false. cbn [fst]. rewrite save_body_relayed. cbn. by rewrite im_find_set_other, Er.
Qed.

Hypothesis sr_keeps : forall req s, relayed_req (sr req s) = relayed_req s.
Hypothesis sp_keeps : forall r s, relayed_req (sp r s) = relayed_req s.

Lemma sip_request_relayed req s : relayed_req (onSipRequest E HB VB req s) = relayed_req s.
Proof.
  unfold onSipRequest. cbn [base_virtuals v_session_request v_onBye].
  case_match; [done|]. destruct (sip_relay_only s && _); cbn [negb]; [|cbn [h_relayEvent base_hooks]; by rewrite relayEvent_relayed, sr_keeps].
  set (s1 := if bool_decide (q_method req = B_BYE) then _ else _).
  assert (E1 : relayed_req s1 = relayed_req s) by (unfold s1; by case_match).
  set (ev := EvRequest _ true). assert (Hr : relayed_req (fst (b_relayEvent E ev s1)) = relayed_req s1) by (by apply relayEvent_relayed).
  cbn [h_relayEvent base_hooks]. destruct (b_relayEvent E ev s1) as [s2 res]. cbn [fst] in Hr.
  destruct (res =? 0); [case_match; cbn; congruence|]. rewrite dlg_reply_relayed. congruence.
Qed.

Lemma reply_keeps_entry r s k q :
  im_find k (relayed_req s) = Some q -> ~ ends_entry k q (OpReply r) ->
  im_find k (relayed_req (onSipReply E HB VB r s)) = Some q.
Proof.
  intros Hf Hend. unfold onSipReply. case_match; [done|]. case_match; [done|]. cbn zeta. cbn [base_virtuals v_session_reply].
  cbn [h_relayEvent base_hooks]. set (local := fst (b_relayEvent _ _ (sp r s))).
  assert (Hloc : im_find k (relayed_req local) = Some q) by (unfold local; by rewrite relayEvent_relayed, sp_keeps).
  destruct (im_find (r_cseq r) (relayed_req s)) as [q'|] eqn:Hq; [|exact Hloc].
  destruct (negb (r_code r =? 100)); [|exact Hloc].
  set (ev := EvReply _ true _ _). assert (Hr : relayed_req (fst (b_relayEvent E ev s)) = relayed_req s) by (by apply relayEvent_relayed).
  destruct (b_relayEvent E ev s) as [s2 res]. cbn [fst] in *. unfold reply_done.
  destruct (Z.leb_spec 200 (r_code r)); [|by rewrite Hr].
  destruct ((r_code r <? 300) && bool_decide (q_method q' = B_INVITE)) eqn:Hi; [by rewrite Hr|].
  set (s3 := if _ && _ : bool then _ else s2). assert (E3 : relayed_req s3 = relayed_req s2) by (unfold s3; by case_match).
  cbn [set_relayed relayed_req]. rewrite E3, Hr. rewrite im_find_erase_other; [done|]. intros ->.
  rewrite Hf in Hq. injection Hq as <-. destruct Hend. split; [done|]. split; [done|].
  destruct (Z.ltb_spec (r_code r) 300); [|by left]. right. by case_bool_decide.
Qed.

Lemma terminated_relayed s : relayed_req (b_terminateLeg HB (b_terminateOtherLeg HB s)) = relayed_req s.
Proof.
  unfold b_terminateLeg, b_terminateOtherLeg, clearRtpReceiverRelay, media_ref. rewrite dlg_bye_relayed.
  repeat case_match; cbn; try rewrite relayEvent_relayed; done.
Qed.

Lemma event_reply_relayed r f s : relayed_req (fst (b2b_reply E HB VB r f s)) = relayed_req s.
Proof.
  unfold b2b_reply. cbn [base_virtuals v_terminateLeg v_terminateOtherLeg]. destruct f.
  - destruct (im_find (r_cseq r) (recvd_req s)) as [req|]; [|done]. unfold relaySip_reply.
    rewrite local_body_base. destruct (snd _) as [b|]; [|done].
    set (p := dlg_reply _ _ _ _ _ _ _ s).
    assert (Hr : relayed_req (fst p) = relayed_req s) by apply dlg_reply_relayed.
    destruct p as [s2 err]. cbn [fst] in Hr. destruct (err <? 0) eqn:Herr; rewrite ?Herr.
    + cbn [fst]. by rewrite terminated_relayed.
    + change (0 <? 0) with false. cbn [fst]. by rewrite save_body_relayed, Hr.
  - destruct (_ && _ && _ && _); [|done]. unfold updateSessionDescription.
    destruct (hasContentType _ _) as [pr|]; [|done]. destruct (_ =? _); [done|].
    unfold sendEstablishedReInvite. cbn [fst]. case_match; [|done]. case_match; [done|]. cbn.
    case_match; [|done]. destruct (dg_reinvite _ _). by rewrite upd_base.
Qed.

(** C31: the entry under which the answers to a relayed request come back stands until the
    request has got its final reply (for a 2xx to an INVITE: its ACK): no other request, reply
    or event of the call touches it. *)
Theorem relayed_entry_kept op s k q :
  List.NoDup (map fst (relayed_req s)) -> im_find k (relayed_req s) = Some q -> k <> dg_cseq (bdlg s) ->
  ~ ends_entry k q op -> im_find k (relayed_req (b2b_run op s)) = Some q.
Proof.
  intros Hnd Hf Hk Hend. destruct op as [req|r|[req f|r f tm tag| |y]]; cbn [b2b_run onB2BEvent].
  - by rewrite sip_request_relayed.
  - by apply reply_keeps_entry.
  - by apply request_keeps_entry.
  - by rewrite event_reply_relayed.
  - cbn [fst base_virtuals v_terminateLeg]. unfold b_terminateLeg, clearRtpReceiverRelay, media_ref. rewrite dlg_bye_relayed. by repeat case_match.
  - done.
Qed.

End Kept.

(** ** Where the code does not do what it means to *)

Section Bugs.
Context {D X Y : Type} {LD : LegDialog D} {LDok : LegDialogOk D}.
Context (E : @b2b_env D X Y) (sr : b2b_req -> b2b D X Y -> b2b D X Y) (sp : b2b_rpl -> b2b D X Y -> b2b D X Y).

(** A request that could not be sent on leaves its entry behind, under the CSeq that the next
    request will take.  When the leg then sends an INVITE of its own (a session refresh, a
    hold), the 2xx to it is not acknowledged but taken for an answer to the failed request. *)
Theorem failed_relay_misroutes (B B1 : b2b D X Y) req err :
  q_method req <> B_ACK -> relaySip_request E (base_hooks E) req B = (B1, Some err) -> err < 0 ->
  let k := dg_cseq (bdlg B1) in
  im_find k (relayed_req B1) = Some req /\
  (forall (B2 : b2b D X Y) r, relayed_req B2 = relayed_req B1 -> r_cseq r = k -> onInvite2xx (base_hooks E) r B2 = B2) /\
  (forall (B2 : b2b D X Y) r, relayed_req B2 = relayed_req B1 -> r_cseq r = k -> r_code r <> 100 -> r_method r = B_INVITE ->
     dg_remote_tag (bdlg B2) = r_to_tag r -> other_id B2 <> [] -> alive E (other_id B2) = true ->
     out (onSipReply E (base_hooks E) (base_virtuals (base_hooks E) sr sp) r B2) =
     out B2 ++ [(other_id B2, EvReply (set_r_cseq (q_cseq req) r) true (q_method req) (local_tag B2))]).
Proof.
  intros Hack H Herr k. unfold relaySip_request in H. rewrite local_body_base in H. destruct (snd _) as [body|]; [|done].
  rewrite (bool_decide_false (q_method req = B_ACK)) in H by done. cbn [negb set_relayed bdlg] in H.
  set (h := prack_hdrs req _) in H. pose proof (dg_send_cseq (q_method req) body h (q_max_forwards req - 1) (bdlg B) Hack) as Hc.
  destruct (dg_send _ _ _ _ _) as [d e]. cbn [fst snd] in Hc. rewrite upd_base in H. destruct (e <? 0) eqn:He; [|simplify_eq; lia]. simplify_eq.
  assert (Hk : im_find k (relayed_req (set_bdlg d (set_relayed (im_set (dg_cseq (bdlg B)) req (relayed_req B)) B))) = Some req).
  { unfold k. cbn. rewrite Hc. apply im_find_set. }
  split; [done|]. split; intros B2 r Hr Hcq.
  - unfold onInvite2xx. by rewrite Hr, Hcq, Hk.
  - intros Hcode Hm Ht Ho Ha. refine (proj1 (reply_handed_back E sr sp B2 r req _ Ho Ha Hcode (or_intror Ht) _)).
    + by rewrite Hr, Hcq.
    + intros Hs. unfold is_meth in Hs. by rewrite Hm in Hs.
Qed.

(** Without another leg a request in relay mode is stored as if it had been handed over: no
    event is posted and the dialog does not answer it. *)
Theorem no_peer_no_answer (A : b2b D X Y) req :
  sip_relay_only A = true -> other_id A = [] -> is_meth (q_method req) [B_ACK; B_BYE; B_CANCEL; B_SUBSCRIBE; B_NOTIFY; B_REFER] = false ->
  onSipRequest E (base_hooks E) (base_virtuals (base_hooks E) sr sp) req A = set_recvd (im_insert (q_cseq req) req (recvd_req A)) A.
Proof.
  intros Hr Ho Hm. unfold is_meth in *. apply bool_decide_eq_false in Hm. rewrite !elem_of_cons in Hm.
  unfold onSipRequest, is_meth. rewrite Hr. rewrite !bool_decide_false by (rewrite ?elem_of_cons; tauto).
  cbn [negb andb]. cbn [base_hooks h_relayEvent]. unfold b_relayEvent. by rewrite bool_decide_true.
Qed.

End Bugs.

(** ** Witnesses *)

#[local] Instance demo_dialog : LegDialog (@oa cstring) := leg_dialog rel_env.
#[local] Instance demo_dialog_ok : LegDialogOk (@oa cstring) := leg_dialog_ok rel_env.

Definition demo_env : @b2b_env (@oa cstring) unit unit :=
  mk_benv (fun _ => true) (fun _ b => Some b) (fun _ => 0) (fun _ => true) (fun _ => true) (fun _ => false) (fun _ h => h) (fun _ s => s).

Definition demo_session (me other : list Z) (relayed : list (Z * b2b_req)) : b2b (@oa cstring) unit unit :=
  mk_b2b _ _ _ other true true relayed [] 0 0 0 [] mime_empty_body 0 false RTP_Direct None (fun _ => 0) 0 me (oa_init rel_env true) [] tt.

Definition demo_info : b2b_req := mk_breq (B_METHOD (lit "INFO")) 7 70 mime_empty_body [] 0 0 [].

Definition demo_keep : b2b_req -> b2b (@oa cstring) unit unit -> b2b (@oa cstring) unit unit := fun _ s => s.
Definition demo_keep_reply : b2b_rpl -> b2b (@oa cstring) unit unit -> b2b (@oa cstring) unit unit := fun _ s => s.

Lemma relay_end_to_end_witness :
  let A := demo_session (lit "a") (lit "b") [] in
  let B := demo_session (lit "b") (lit "a") [] in
  exists B1, onB2BEvent demo_env (base_hooks demo_env) (base_virtuals (base_hooks demo_env) demo_keep demo_keep_reply) (EvRequest demo_info true) B = (B1, Some tt) /\
    relayed_req B1 = [(10, demo_info)].
Proof.
  destruct (relay_end_to_end demo_env demo_env demo_keep demo_keep_reply demo_keep demo_keep_reply
    (demo_session (lit "a") (lit "b") []) (demo_session (lit "b") (lit "a") []) demo_info mime_empty_body) as (_ & H & _); try done.
  destruct H as (B1 & H1 & _ & H3 & _). exists B1. split; [exact H1|]. rewrite H3. vm_compute. reflexivity.
Defined.

Lemma relayed_entry_kept_witness :
  let s := demo_session (lit "b") (lit "a") [(3, demo_info)] in
  im_find 3 (relayed_req (b2b_run demo_env demo_keep demo_keep_reply (OpEvent (EvRequest (fake_invite 8) true)) s)) = Some demo_info.
Proof.
  refine (relayed_entry_kept demo_env demo_keep demo_keep_reply _ _ (OpEvent (EvRequest (fake_invite 8) true)) (demo_session (lit "b") (lit "a") [(3, demo_info)]) 3 demo_info _ _ _ _).
  - done.
  - done.
  - apply List.NoDup_cons_iff. split; [intros []|constructor].
  - done.
  - vm_compute. discriminate.
  - intros [H _]. discriminate H.
Defined.
