(* ===== verification/LocalBody.v ===== *)
(** * The description of a relayed message

    Model of [AmB2BSession::updateLocalBody] and [updateLocalSdp] (core/AmB2BSession.cpp): before
    a leg sends a message on, the SDP in its body is parsed, the addresses are replaced by those
    of the relay unless the media go directly, and it is printed again.  The parser and the
    printer are those of [Sdp]; what [AmB2BMedia::replaceConnectionAddress] makes of a
    description is a parameter, as is the content of the uninitialised variable of the parser. *)

From Stdlib Require Import ZArith Lia Ascii String.
From stdpp Require Import base list.
From S2P Require Import Prelude SipMsg MimeBody ParseCommon Sdp.

Local Open Scope Z_scope.

Definition codes (t : cstring) : list Z := map (fun a => Z.of_N (N_of_ascii a)) t.
Definition text_of (l : list Z) : cstring := map (fun c => ascii_of_N (Z.to_N c)) l.

(** [sdp->clear()] through the pointer that [hasContentType] has returned. *)
Definition clear_part (r : part_ref) (m : mime) : mime :=
  match r with
  | Self => mime_empty_body
  | Part i => match m with mk_mime t st p ps => mk_mime t st p (match ps !! i with Some _ => <[i := mime_empty_body]> ps | None => ps end) end
  end.

Section LocalBody.
Context (undefined : Z) (replaceConnectionAddress : AmSdp -> AmSdp).

(** [direct]: the RTP relay is off; [has_media]: there is a media session. *)
Definition updateLocalSdp (direct has_media : bool) (d : AmSdp) : AmSdp :=
  if direct then d else if has_media then replaceConnectionAddress d else d.

(** A fault of the parser is one of this function. *)
Definition updateLocalBody (direct has_media : bool) (body : mime) : res mime :=
  match hasContentType SIP_APPLICATION_SDP body with
  | None => Ok body
  | Some r =>
      match getPayload r body with
      | [] => Ok (clear_part r body)
      | txt =>
          p ← sdp_parse undefined (codes txt);
          let '(d, refused) := p in
          if refused : bool then Ok body
          else Ok (setPayload r (text_of (sdp_print (updateLocalSdp direct has_media d))) body)
      end
  end.

End LocalBody.
