(* ===== verification/CallerSession.v ===== *)
(** * The caller of a back-to-back call

    Model of [AmB2BCallerSession] and of the rest of [AmB2BCalleeSession]
    (core/AmB2BSession.cpp): the leg that has received the first INVITE makes the other leg
    when it has something to relay, connects it, and follows the state of that call.  A
    session that is started is added to [callees]; party, URI and DTMF settings of the new
    leg are left out. *)

From Stdlib Require Import ZArith Lia Ascii String.
From stdpp Require Import base list.
From S2P Require Import Prelude SipMsg MimeBody DialogMsg Rel100 OfferAnswer OfferAnswerSpec SipDialog Exchanges SipDialogInv ParseCommon AmUtils SipHeader B2BSession DialogLeg B2BProps LocalBody.

Local Open Scope Z_scope.
Local Open Scope bool_scope.

(** [CalleeStatus] *)
Inductive CalleeStatus := CalleeNone | CalleeNoReply | CalleeRinging | CalleeConnected.

#[global] Instance CalleeStatus_eq_dec : EqDecision CalleeStatus.
Proof. solve_decision. Defined.

Record caller {D : Type} := mk_caller {
  callee_status : CalleeStatus;
  invite_req : b2b_req;
  sip_relay_early_media_sdp : bool;
  callees : list (b2b D unit b2b_connect)
}.
Arguments caller D : clear implicits.

Section Caller.
Context {D : Type} {LD : LegDialog D}.
Local Notation "'st'" := (b2b D (caller D) b2b_connect).

Definition c_set_status v (c : caller D) := mk_caller D v (invite_req c) (sip_relay_early_media_sdp c) (callees c).
Definition c_set_invite v (c : caller D) := mk_caller D (callee_status c) v (sip_relay_early_media_sdp c) (callees c).
Definition c_set_callees v (c : caller D) := mk_caller D (callee_status c) (invite_req c) (sip_relay_early_media_sdp c) v.

Definition on_caller (f : caller D -> caller D) (s : st) : st := set_ext (f (ext s)) s.

(** The surroundings: those of a session, the tags that [getNewId] gives to new sessions, and
    the dialog that a new session has. *)
Context (E : @b2b_env D (caller D) b2b_connect) (new_id : nat -> list Z) (new_dlg : D).

(** [AmB2BCalleeSession(caller)] *)
Definition newCalleeSession (id : list Z) (s : st) : b2b D unit b2b_connect :=
  mk_b2b _ _ _ (local_tag s) true false [] [] 0 0 0 [] mime_empty_body 0 false (rtp_relay_mode s) None (fun _ => 0) 0 id new_dlg [] tt.

(** [initializeRTPRelay] *)
Definition initializeRTPRelay (callee : b2b D unit b2b_connect) (s : st) : st * b2b D unit b2b_connect :=
  let callee := setRtpRelayMode (rtp_relay_mode s) callee in
  match rtp_relay_mode s with
  | RTP_Direct => (s, callee)
  | _ =>
      let m := (local_tag s, new_medias s) in
      let s := setMediaSession (Some m) (set_new_medias (S (new_medias s)) s) in
      (s, setMediaSession (media_session s) callee)
  end.

(** [createCalleeSession] *)
Definition createCalleeSession (s : st) : st :=
  let id := new_id (length (callees (ext s))) in
  let s := set_other id s in
  let '(s, callee) := initializeRTPRelay (newCalleeSession id s) s in
  on_caller (fun c => c_set_callees (callees c ++ [callee]) c) s.

(** [AmB2BCallerSession::relayEvent] *)
Definition makes_callee (e : b2b_event b2b_connect) : bool :=
  match e with EvRequest _ forward => forward | EvReply _ forward _ _ => forward | EvTerminate => false | EvApp _ => true end.

Definition caller_relayEvent (e : b2b_event b2b_connect) (s : st) : st * Z :=
  let s := if bool_decide (other_id s = []) && negb (sess_stopped s) && makes_callee e then createCalleeSession s else s in
  b_relayEvent E e s.

Definition CH : hooks := mk_hooks caller_relayEvent (fun b s => (s, update_local_body E s b)) (fun s => s) (fun s => s).

(** [terminateOtherLeg] *)
Definition caller_terminateOtherLeg (s : st) : st := on_caller (c_set_status CalleeNone) (b_terminateOtherLeg CH s).

(** [onInvite]; [AmSession::onInvite] accepts it. *)
Definition caller_onInvite (req : b2b_req) (s : st) : st :=
  let s := set_est (q_cseq req) (est_invite_other_cseq s) (on_caller (c_set_invite req) s) in
  fst (dlg_reply CH req 200 (lit "OK") mime_empty_body [] false s).

(** [onCancel], [onBye] *)
Definition caller_onCancel (s : st) : st := b_terminateLeg CH (caller_terminateOtherLeg s).

Definition caller_onBye (req : b2b_req) (s : st) : st := setStopped (clearRtpReceiverRelay s).

Context (sr : b2b_req -> st -> st) (sp : b2b_rpl -> st -> st).

(** The methods of the class; those of [AmSession] are parameters. *)
Definition CV : virtuals := mk_virtuals sr sp caller_onBye b_onOtherBye (b_terminateLeg CH) caller_terminateOtherLeg.

Definition set_q_cseq (c : Z) (q : b2b_req) : b2b_req :=
  mk_breq (q_method q) c (q_max_forwards q) (q_body q) (q_hdrs q) (q_rseq q) (q_rack_cseq q) (q_rack_method q).

(** [onInvite2xx] *)
Definition caller_onInvite2xx (r : b2b_rpl) (s : st) : st :=
  let s := on_caller (fun c => c_set_invite (set_q_cseq (r_cseq r) (invite_req c)) c) s in
  onInvite2xx CH r (set_est (r_cseq r) (est_invite_other_cseq s) s).

(** [onSystemEvent] at the shutdown of the server, [onRemoteDisappeared]. *)
Definition caller_onShutdown (s : st) : st := setStopped (caller_terminateOtherLeg s).

Definition caller_onRemoteDisappeared (s : st) : st := b_onRemoteDisappeared CH CV (clearRtpReceiverRelay s).

(** [connectCallee] *)
Definition connectCallee (relayed_invite : bool) (s : st) : st :=
  let s := if bool_decide (callee_status (ext s) = CalleeNone) then s else caller_terminateOtherLeg s in
  let s := set_other [] s in
  let req := invite_req (ext s) in
  let s := if relayed_invite then set_relay_only true (set_recvd (im_insert (q_cseq req) req (recvd_req s)) s) else s in
  let s := fst (caller_relayEvent (EvApp (mk_connect (q_body req) (q_hdrs req) relayed_invite (q_cseq req))) s) in
  on_caller (c_set_status CalleeNoReply) s.

(** [reinviteCaller]: [true] when it failed. *)
Definition reinviteCaller (body : mime) (s : st) : st * bool :=
  let '(d, res) := dg_send B_INVITE body [] (-1) (bdlg s) in (upd_dlg CH d s, negb (res =? 0)).

(** [AmB2BSession::onOtherReply] *)
Definition onOtherReply (r : b2b_rpl) (s : st) : st := if 300 <=? r_code r then setStopped s else s.

(** A provisional reply to the INVITE: [true] when the call was given up. *)
Definition callee_1xx (r : b2b_rpl) (s : st) : st * bool :=
  if negb (sip_relay_only s) && (180 <=? r_code r) && (r_code r <=? 183) && negb (body_empty (r_body r)) then
    let s := fst (updateSessionDescription E (r_body r) s) in
    if sip_relay_early_media_sdp (ext s) then
      let '(s, failed) := reinviteCaller (r_body r) s in
      if failed then (b_terminateLeg CH (caller_terminateOtherLeg s), true)
      else (on_caller (c_set_status CalleeRinging) s, false)
    else (on_caller (c_set_status CalleeRinging) s, false)
  else (on_caller (c_set_status CalleeRinging) s, false).

Definition callee_2xx (r : b2b_rpl) (s : st) : st :=
  let s := on_caller (c_set_status CalleeConnected) s in
  if sip_relay_only s then s
  else
    let s := set_relay_only true s in
    let body := if body_empty (r_body r) && negb (body_empty (established_body s)) then established_body s else r_body r in
    let '(s, failed) := reinviteCaller body s in
    if failed then b_terminateLeg CH (caller_terminateOtherLeg s) else s.

(** The reply to the INVITE of the other leg. *)
Definition callee_reply (r : b2b_rpl) (s : st) : st :=
  if r_code r <? 200 then let '(s, given_up) := callee_1xx r s in if given_up then s else onOtherReply r s
  else onOtherReply r (if r_code r <? 300 then callee_2xx r s else caller_terminateOtherLeg s).

(** [AmB2BCallerSession::onB2BEvent] *)
Definition caller_onB2BEvent (e : b2b_event b2b_connect) (s : st) : st * option unit :=
  match e with
  | EvReply r forward m sender =>
      if negb (bool_decide (other_id s = [])) && negb (bool_decide (other_id s = r_from_tag r)) then (s, Some tt)
      else
        let s := match callee_status (ext s) with
                 | CalleeNoReply | CalleeRinging => if r_cseq r =? q_cseq (invite_req (ext s)) then callee_reply r s else s
                 | _ => s
                 end in
        onB2BEvent E CH CV e s
  | _ => onB2BEvent E CH CV e s
  end.

End Caller.

(** ** A call is set up *)

Section SetUp.
Context {D : Type} {LD : LegDialog D}.
Context (EA : @b2b_env D (caller D) b2b_connect) (EB : @b2b_env D unit b2b_connect) (new_id : nat -> list Z) (new_dlg : D).
Context (sr : b2b_req -> b2b D (caller D) b2b_connect -> b2b D (caller D) b2b_connect) (sp : b2b_rpl -> b2b D (caller D) b2b_connect -> b2b D (caller D) b2b_connect).
Context (srB : b2b_req -> b2b D unit b2b_connect -> b2b D unit b2b_connect) (spB : b2b_rpl -> b2b D unit b2b_connect -> b2b D unit b2b_connect).
Implicit Types A : b2b D (caller D) b2b_connect.
Implicit Types B : b2b D unit b2b_connect.

Local Notation "'HA'" := (CH EA new_id new_dlg).
Local Notation "'HB'" := (base_hooks EB).

Lemma upd_caller d A : upd_dlg HA d A = set_bdlg d A.
Proof. unfold upd_dlg. induction (_ - _)%nat as [|n IH]; [done|exact IH]. Qed.

Lemma dlg_reply_caller q c r b h t A :
  let ans := dg_reply q c r b h t (bdlg A) in
  dlg_reply HA q c r b h t A = (if ans.2 =? 0 then onReplySent q c (set_bdlg ans.1 A) else set_bdlg ans.1 A, ans.2).
Proof. unfold dlg_reply. destruct (dg_reply _ _ _ _ _ _ _) as [d err]. rewrite upd_caller. cbn [fst snd]. by repeat case_match. Qed.

(** The other leg that [connectCallee] makes, and the event that it is sent. *)
Lemma connect_spec A req :
  let id := new_id (length (callees (ext A))) in
  callee_status (ext A) = CalleeNone -> sess_stopped A = false -> invite_req (ext A) = req ->
  im_find (q_cseq req) (recvd_req A) = None -> id <> [] -> alive EA id = true ->
  let A1 := connectCallee EA new_id new_dlg true A in
  out A1 = out A ++ [(id, EvApp (mk_connect (q_body req) (q_hdrs req) true (q_cseq req)))] /\ other_id A1 = id /\
  callee_status (ext A1) = CalleeNoReply /\ invite_req (ext A1) = req /\ sip_relay_only A1 = true /\ bdlg A1 = bdlg A /\ sess_stopped A1 = false /\
  im_find (q_cseq req) (recvd_req A1) = Some req /\
  exists B, callees (ext A1) = callees (ext A) ++ [B] /\ local_tag B = id /\ other_id B = local_tag A /\ relayed_req B = [] /\ out B = [] /\ bdlg B = new_dlg /\
    (rtp_relay_mode A <> RTP_Direct -> media_session B = media_session A1 /\ media_session A1 <> None).
Proof.
  intros id Hst Hstop Hreq Hfree Hid Hal. unfold connectCallee. rewrite bool_decide_true by done. cbv zeta.
  cbn [set_other ext]. rewrite Hreq.
  set (s0 := set_relay_only true _). assert (Hs0 : other_id s0 = [] /\ sess_stopped s0 = false /\ ext s0 = ext A /\ out s0 = out A /\ bdlg s0 = bdlg A /\
    recvd_req s0 = im_insert (q_cseq req) req (recvd_req A) /\ sip_relay_only s0 = true /\ local_tag s0 = local_tag A /\ rtp_relay_mode s0 = rtp_relay_mode A) by done.
  clearbody s0. destruct Hs0 as (H1 & H2 & H3 & H4 & H5 & H6 & H7 & H8 & H9).
  unfold caller_relayEvent. rewrite H1, H2, bool_decide_true by done. cbn [negb andb makes_callee].
  set (s1 := createCalleeSession new_id new_dlg s0).
  assert (Hs1 : other_id s1 = id /\ out s1 = out A /\ bdlg s1 = bdlg A /\ recvd_req s1 = recvd_req s0 /\ sip_relay_only s1 = true /\ sess_stopped s1 = false /\
    callee_status (ext s1) = CalleeNone /\ invite_req (ext s1) = req /\
    exists B, callees (ext s1) = callees (ext A) ++ [B] /\ local_tag B = id /\ other_id B = local_tag A /\ relayed_req B = [] /\ out B = [] /\ bdlg B = new_dlg /\
      (rtp_relay_mode A <> RTP_Direct -> media_session B = media_session s1 /\ media_session s1 <> None)).
  { unfold s1, createCalleeSession, initializeRTPRelay. rewrite H3. fold id. cbn [rtp_relay_mode set_other]. rewrite H9.
    destruct (rtp_relay_mode A); cbn; rewrite ?H3, ?H4, ?H5, ?H8; split_and!; try done; eexists; split_and!; try done. }
  clearbody s1. destruct Hs1 as (K1 & K2 & K3 & K4 & K5 & K5' & K6 & K7 & B & K8).
  unfold b_relayEvent, postEvent. rewrite K1, (bool_decide_false (id = [])), Hal by done.
  cbn [fst post on_caller set_ext out other_id ext c_set_status callee_status invite_req sip_relay_only bdlg recvd_req callees media_session].
  rewrite K2, K4, H6. split_and!; try done; [by apply im_find_insert|]. exists B. exact K8.
Qed.

(** The other leg sends the INVITE and knows where its replies belong. *)
Lemma callee_sends co B body :
  co_relayed co = true -> update_local_body EB (set_relayed (im_set (dg_cseq (bdlg B)) (fake_invite (co_cseq co)) (relayed_req B)) B) (co_body co) = Some body ->
  let sent := dg_send B_INVITE body (co_hdrs co) (-1) (bdlg B) in
  0 <= sent.2 ->
  exists B1, connect_callee EB HB co B = (B1, Some tt) /\ bdlg B1 = sent.1 /\ other_id B1 = other_id B /\ local_tag B1 = local_tag B /\ out B1 = out B /\
    relayed_req B1 = im_set (dg_cseq (bdlg B)) (fake_invite (co_cseq co)) (relayed_req B).
Proof.
  intros Hr Hb sent Hok. unfold connect_callee. rewrite Hr. cbn [h_updateLocalBody base_hooks]. rewrite Hb.
  change (bdlg (set_relayed ?x B)) with (bdlg B). fold sent. destruct sent as [d res]. cbn [snd fst] in *. rewrite upd_base.
  rewrite (proj2 (Z.ltb_ge res 0)) by lia. eexists. split; [reflexivity|]. unfold saveSessionDescription. by case_match.
Qed.

(** What the status of the callee becomes with a reply to its INVITE. *)
Definition status_after (code : Z) : CalleeStatus :=
  if code <? 200 then CalleeRinging else if code <? 300 then CalleeConnected else CalleeNone.

(** The caller answers its INVITE with the reply. *)
Lemma caller_answers A r req body tm sender :
  callee_status (ext A) = CalleeNoReply \/ callee_status (ext A) = CalleeRinging -> invite_req (ext A) = req -> q_method req = B_INVITE ->
  sip_relay_only A = true -> other_id A = r_from_tag r -> im_find (q_cseq req) (recvd_req A) = Some req -> r_cseq r = q_cseq req ->
  update_local_body EA (callee_reply EA new_id new_dlg r A) (r_body r) = Some body ->
  let r' := with_contact r in
  let hdrs := if r_rseq r' =? 0 then r_hdrs r' else r_hdrs r' ++ lit "RSeq: " ++ int2str (r_rseq r') ++ CRLF in
  let ans := dg_reply req (r_code r) (r_reason r) body hdrs (bool_decide (r_to_tag r = [])) (bdlg A) in
  ans.2 = 0 ->
  exists A1, caller_onB2BEvent EA new_id new_dlg sr sp (EvReply r true tm sender) A = (A1, Some tt) /\ bdlg A1 = ans.1 /\
    callee_status (ext A1) = status_after (r_code r) /\ sess_stopped A1 = (sess_stopped A || (300 <=? r_code r)) /\
    (200 <= r_code r -> im_find (q_cseq req) (recvd_req A1) = None).
Proof.
  intros Hst Hreq Hm Hrel Hoth Hf Hc Hb r' hdrs ans Hans. cbn [caller_onB2BEvent].
  rewrite (bool_decide_true (other_id A = r_from_tag r)) by done. rewrite andb_false_r.
  set (A0 := match callee_status (ext A) with CalleeNoReply | CalleeRinging => _ | _ => A end).
  assert (H0 : bdlg A0 = bdlg A /\ recvd_req A0 = recvd_req A /\ callee_status (ext A0) = status_after (r_code r) /\
    sess_stopped A0 = sess_stopped A || (300 <=? r_code r)).
  { assert (E0 : A0 = callee_reply EA new_id new_dlg r A) by (unfold A0; rewrite Hreq, Hc, Z.eqb_refl; by destruct Hst as [-> | ->]).
    rewrite E0. unfold callee_reply, callee_1xx, callee_2xx, onOtherReply, status_after. rewrite Hrel. cbn [negb andb].
    destruct (Z.ltb_spec (r_code r) 200); [rewrite (proj2 (Z.leb_gt 300 _)) by lia; by rewrite orb_false_r|].
    destruct (Z.ltb_spec (r_code r) 300); [rewrite (proj2 (Z.leb_gt 300 _)) by lia; cbn; rewrite Hrel; by rewrite orb_false_r|].
    rewrite (proj2 (Z.leb_le 300 _)) by lia. rewrite orb_true_r. unfold caller_terminateOtherLeg, b_terminateOtherLeg. case_bool_decide as Ho; [done|].
    cbn [h_relayEvent CH]. unfold caller_relayEvent. rewrite (bool_decide_false (other_id A = [])) by done. cbn [andb].
    unfold b_relayEvent, postEvent. rewrite (bool_decide_false (other_id A = [])) by done. by destruct (alive EA (other_id A)). }
  assert (E0 : A0 = callee_reply EA new_id new_dlg r A) by (unfold A0; rewrite Hreq, Hc, Z.eqb_refl; by destruct Hst as [-> | ->]).
  rewrite <- E0 in Hb. clear E0. clearbody A0. destruct H0 as (E1 & E2 & E3 & E4).
  assert (Er : r_code r' = r_code r /\ r_reason r' = r_reason r /\ r_body r' = r_body r /\ r_to_tag r' = r_to_tag r)
    by (unfold r', with_contact; by destruct (_ && _)). destruct Er as (F1 & F2 & F3 & F4).
  cbn [onB2BEvent]. unfold b2b_reply. rewrite E2, Hc, Hf. unfold relaySip_reply. fold r'. fold hdrs. rewrite F1, F2, F3, F4.
  unfold local_body. rewrite Hm. cbn [is_meth]. change (is_meth B_INVITE [B_INVITE; B_UPDATE; B_ACK; B_PRACK]) with true. cbn [h_updateLocalBody CH]. rewrite Hb.
  rewrite dlg_reply_caller, E1. fold ans. rewrite Hans. cbn [Z.eqb fst snd]. change (0 <? 0) with false. cbn iota.
  eexists. split; [reflexivity|]. clear -E1 E2 E3 E4 Hm. set (s1 := onReplySent req (r_code r) (set_bdlg ans.1 A0)).
  assert (H1 : bdlg s1 = ans.1 /\ ext s1 = ext A0 /\ sess_stopped s1 = sess_stopped A0 /\ (200 <= r_code r -> im_find (q_cseq req) (recvd_req s1) = None)).
  { unfold s1, onReplySent. rewrite Hm, (bool_decide_false (B_INVITE = B_CANCEL)) by done. destruct (Z.leb_spec 200 (r_code r)); cbn [andb negb]; split_and!; try done; try lia.
    intros _. apply im_find_erase. }
  clearbody s1. destruct H1 as (G1 & G2 & G3 & G4).
  assert (Hs : forall m b, bdlg (save_body EA m b s1) = bdlg s1 /\ ext (save_body EA m b s1) = ext s1 /\ sess_stopped (save_body EA m b s1) = sess_stopped s1 /\
    recvd_req (save_body EA m b s1) = recvd_req s1) by (intros m b; unfold save_body, saveSessionDescription; by repeat case_match).
  destruct (Hs B_INVITE (r_body r)) as (K1 & K2 & K3 & K4). change (0 <? 0) with false. cbn iota. rewrite K1, K2, K3, K4, G1, G2, G3, E3, E4. split_and!; done.
Qed.

(** C35: a call is set up through both legs.  A caller that has received an INVITE and
    connects its callee in relay mode starts a new leg, sends it the INVITE and waits; the leg
    sends the INVITE on, when its body can be rewritten and it can be sent, and has an entry
    for it.  Every reply to it other than 100 that comes while the entry stands, with the tag
    of the dialog if it has one, is handed to the caller; and every reply of that leg that
    arrives there while the caller waits answers exactly the INVITE it has received, when its
    body can be rewritten and the reply can be sent.  The status of the callee then follows
    the reply (Ringing, Connected, or none when the call has failed, and then the caller is
    stopped), and a final reply ends the entry of the INVITE. *)
Theorem call_set_up A req :
  let id := new_id (length (callees (ext A))) in
  let k := dg_cseq new_dlg in
  callee_status (ext A) = CalleeNone -> sess_stopped A = false -> invite_req (ext A) = req -> q_method req = B_INVITE ->
  im_find (q_cseq req) (recvd_req A) = None -> id <> [] -> alive EA id = true -> local_tag A <> [] -> alive EB (local_tag A) = true ->
  let A1 := connectCallee EA new_id new_dlg true A in
  (callee_status (ext A1) = CalleeNoReply /\ invite_req (ext A1) = req /\ sip_relay_only A1 = true /\ other_id A1 = id /\
   bdlg A1 = bdlg A /\ sess_stopped A1 = false /\ im_find (q_cseq req) (recvd_req A1) = Some req) /\
  (exists B co, callees (ext A1) = callees (ext A) ++ [B] /\ out A1 = out A ++ [(id, EvApp co)] /\ local_tag B = id /\
     forall body, update_local_body EB (set_relayed (im_set k (fake_invite (q_cseq req)) []) B) (q_body req) = Some body ->
       let sent := dg_send B_INVITE body (q_hdrs req) (-1) new_dlg in
       0 <= sent.2 ->
       exists B1, connect_callee EB HB co B = (B1, Some tt) /\ bdlg B1 = sent.1 /\ out B1 = [] /\ other_id B1 = local_tag A /\
         local_tag B1 = id /\ im_find k (relayed_req B1) = Some (fake_invite (q_cseq req))) /\
  (forall B2 r, im_find k (relayed_req B2) = Some (fake_invite (q_cseq req)) -> other_id B2 = local_tag A ->
     r_cseq r = k -> r_method r = B_INVITE -> r_code r <> 100 -> (dg_remote_tag (bdlg B2) = [] \/ dg_remote_tag (bdlg B2) = r_to_tag r) ->
     out (onSipReply EB HB (base_virtuals HB srB spB) r B2) =
       out B2 ++ [(local_tag A, EvReply (set_r_cseq (q_cseq req) r) true B_INVITE (local_tag B2))]) /\
  (forall A2 r body tm sender,
     callee_status (ext A2) = CalleeNoReply \/ callee_status (ext A2) = CalleeRinging -> invite_req (ext A2) = req ->
     sip_relay_only A2 = true -> other_id A2 = r_from_tag r -> im_find (q_cseq req) (recvd_req A2) = Some req -> r_cseq r = q_cseq req ->
     update_local_body EA (callee_reply EA new_id new_dlg r A2) (r_body r) = Some body ->
     let r' := with_contact r in
     let hdrs := if r_rseq r' =? 0 then r_hdrs r' else r_hdrs r' ++ lit "RSeq: " ++ int2str (r_rseq r') ++ CRLF in
     let ans := dg_reply req (r_code r) (r_reason r) body hdrs (bool_decide (r_to_tag r = [])) (bdlg A2) in
     ans.2 = 0 ->
     exists A3, caller_onB2BEvent EA new_id new_dlg sr sp (EvReply r true tm sender) A2 = (A3, Some tt) /\ bdlg A3 = ans.1 /\
       callee_status (ext A3) = status_after (r_code r) /\ sess_stopped A3 = (sess_stopped A2 || (300 <=? r_code r)) /\
       (200 <= r_code r -> im_find (q_cseq req) (recvd_req A3) = None)).
Proof.
  intros id k Hst Hstop Hreq Hm Hfree Hid Hal Htag HalB A1.
  destruct (connect_spec A req Hst Hstop Hreq Hfree Hid Hal) as (O1 & O2 & O3 & O4 & O5 & O6 & O6' & O7 & B & C1 & C2 & C3 & C4 & C5 & C6 & _).
  fold A1 in O1, O2, O3, O4, O5, O6, O6', O7, C1. fold id in O1, O2, C2.
  set (co := mk_connect (q_body req) (q_hdrs req) true (q_cseq req)) in *. split; [by split_and!|]. split; [|split].
  - exists B, co. do 3 (split; [done|]). intros body Hb sent Hsent.
    destruct (callee_sends co B body eq_refl) as (B1 & D1 & D2 & D3 & D4 & D5 & D6); [by rewrite C6, C4|by rewrite C6|].
    exists B1. rewrite D2, D3, D4, D5, D6, C3, C5, C6. split_and!; try done. apply im_find_set.
  - intros B2 r Hf Ho Hc Hrm H100 Htags. rewrite <- Hc in Hf.
    destruct (reply_handed_back EB srB spB B2 r (fake_invite (q_cseq req))) as [F1 _]; try done; [by rewrite Ho|by rewrite Ho|unfold subs_pass_reply; by rewrite Hrm|].
    rewrite Ho in F1. exact F1.
  - intros A2 r body tm sender. intros. by apply caller_answers.
Qed.

End SetUp.

(** ** Witness *)

#[local] Instance caller_dialog : LegDialog (@oa cstring) := leg_dialog rel_env.

(** The bodies are changed as [AmB2BSession] does it, with the address of the relay. *)
Definition relay_sdp (d : Sdp.AmSdp) : Sdp.AmSdp :=
  Sdp.mk_sdp (Sdp.s_version d) (Sdp.origin d) (Sdp.sessionName d) (Sdp.s_uri d) (Sdp.mk_conn Sdp.NT_IN Sdp.AT_V4 (lit "10.0.0.9"))
    (Sdp.s_attributes d) (Sdp.media d) (Sdp.l_origin d).

Definition session_body {X Y : Type} (s : b2b (@oa cstring) X Y) (b : mime) : option mime :=
  match updateLocalBody 0 relay_sdp (bool_decide (rtp_relay_mode s = RTP_Direct)) (bool_decide (media_session s <> None)) b with
  | Sdp.Ok b => Some b
  | Sdp.Bad _ => None
  end.

Definition demo_caller_env {X Y : Type} : @b2b_env (@oa cstring) X Y :=
  mk_benv (fun _ => true) session_body (fun _ => 0) (fun _ => true) (fun _ => true) (fun _ => false) (fun _ h => h) (fun _ s => s).

Definition demo_sdp : mime :=
  sdp_text (text_of (lit "v=0" ++ CRLF ++ lit "o=- 1 1 IN IP4 10.0.0.1" ++ CRLF ++ lit "s=c" ++ CRLF ++ lit "c=IN IP4 10.0.0.1" ++ CRLF ++
    lit "t=0 0" ++ CRLF ++ lit "m=audio 4000 RTP/AVP 0" ++ CRLF)).

Definition demo_call_invite : b2b_req := mk_breq B_INVITE 1 70 demo_sdp [] 0 0 [].

Definition demo_call_ok : b2b_rpl := mk_brpl 200 (lit "OK") 10 B_INVITE (lit "b") (lit "tb") [] demo_sdp [] 0.

(** A caller that has received an INVITE. *)
Definition demo_caller_leg : b2b (@oa cstring) (caller (@oa cstring)) b2b_connect :=
  mk_b2b _ _ _ [] true true [] [] 1 0 0 [] mime_empty_body 0 false RTP_Relay None (fun _ => 0) 0 (lit "a") (invited rel_env true) []
    (mk_caller _ CalleeNone demo_call_invite false []).

Definition demo_connected := connectCallee demo_caller_env (fun _ => lit "b") (oa_init rel_env true) true demo_caller_leg.
Definition demo_call_body : mime :=
  default mime_empty_body (session_body (callee_reply demo_caller_env (fun _ => lit "b") (oa_init rel_env true) (set_r_cseq 1 demo_call_ok) demo_connected) demo_sdp).

Lemma call_set_up_witness :
  out demo_connected = [(lit "b", EvApp (mk_connect demo_sdp [] true 1))] /\
  demo_call_body <> demo_sdp /\
  exists A3, caller_onB2BEvent demo_caller_env (fun _ => lit "b") (oa_init rel_env true) (fun _ s => s) (fun _ s => s)
    (EvReply (set_r_cseq 1 demo_call_ok) true B_INVITE (lit "b")) demo_connected = (A3, Some tt) /\ callee_status (ext A3) = CalleeConnected.
Proof.
  split; [vm_compute; done|]. split; [vm_compute; done|].
  destruct (call_set_up demo_caller_env demo_caller_env (fun _ => lit "b") (oa_init rel_env true) (fun _ s => s) (fun _ s => s) (fun _ s => s) (fun _ s => s)
    demo_caller_leg demo_call_invite) as ((K1 & K2 & K3 & K4 & _ & _ & K5) & _ & _ & H); try done; try (vm_compute; done).
  destruct (H demo_connected (set_r_cseq 1 demo_call_ok) demo_call_body B_INVITE (lit "b") (or_introl K1) K2 K3) as (A3 & H1 & _ & H2 & _);
    [done|done|done|vm_compute; done|vm_compute; done|]. exists A3. split; [exact H1|exact H2].
Defined.
