(* ===== verification/CallLegHelpers.v ===== *)
(** * Helpers of the call legs of the SBC

    Model of the file-local functions of [apps/sbc/CallLeg.cpp]: the Reason headers of a
    CANCEL that are passed on to the other legs, and the recognition of a hold request in a
    session description. *)

From Stdlib Require Import ZArith Lia String.
From stdpp Require Import base list.
From S2P Require Import Prelude ParseCommon SipHeader Sdp.

Local Open Scope Z_scope.
Local Open Scope bool_scope.

(** ** The Reason headers of a CANCEL *)

(** [string::find(c,pos)] relative to [pos]; [None] is [npos]. *)
Fixpoint find_char (c : Z) (l : list Z) : option nat :=
  match l with
  | [] => None
  | x :: l => if x =? c then Some 0%nat else match find_char c l with Some i => Some (S i) | None => None end
  end.

Definition tolower (c : Z) : Z := if (65 <=? c) && (c <=? 90) then c + 32 else c.

(** [strncasecmp(l,"Reason",6) == 0] *)
Definition starts_reason (l : list Z) : bool := bool_decide (map tolower (take 6 l) = lit "reason").

(** The line at the position, without its line end. *)
Definition line_content (line : list Z) : list Z :=
  match last line with Some c => if c =? CR then take (length line - 1) line else line | None => line end.

Definition reason_line (t content : list Z) : list Z :=
  match find_char HCOLON t with
  | Some colon => if Nat.ltb colon (length content) && Nat.eqb colon 6 && starts_reason t then content ++ CRLF else []
  | None => []
  end.

(** The loop of [filterReasonHdr]: [t] is the text from [pos] on. *)
Fixpoint filter_reason_loop (fuel : nat) (t : list Z) : option (list Z) :=
  match fuel with
  | O => None
  | S fuel =>
      match t with
      | [] => Some []
      | _ =>
          match find_char LF t with
          | Some eol =>
              r ← filter_reason_loop fuel (drop (S eol) t);
              Some (reason_line t (line_content (take eol t)) ++ r)
          | None => Some (reason_line t (line_content t))
          end
      end
  end.

Definition filterReasonHdr (hdrs : list Z) : option (list Z) := filter_reason_loop (S (length hdrs)) hdrs.

(** ** Hold requests *)

Inductive HoldMethod := SendonlyStream | InactiveStream | ZeroedConnection.
Inductive MediaActivity := Inactive | Sendonly | Recvonly | Sendrecv.

Definition connectionActive (c : SdpConnection) (default_value : bool) : bool :=
  if bool_decide (address c = []) then default_value
  else negb (bool_decide (address c = lit "0.0.0.0")).

(** [getMediaActivity] of attributes. *)
Fixpoint attr_activity (attrs : list SdpAttribute) (default_value : MediaActivity) : MediaActivity :=
  match attrs with
  | [] => default_value
  | a :: attrs =>
      if bool_decide (attribute a = lit "sendonly") then Sendonly
      else if bool_decide (attribute a = lit "inactive") then Inactive
      else if bool_decide (attribute a = lit "recvonly") then Recvonly
      else if bool_decide (attribute a = lit "sendrecv") then Sendrecv
      else attr_activity attrs default_value
  end.

(** [getMediaActivity] of a stream; the default is not used. *)
Definition media_activity (m : SdpMedia) (default_value : MediaActivity) : MediaActivity :=
  if m_send m then if m_recv m then Sendrecv else Sendonly
  else if m_recv m then Recvonly else Inactive.

(** The loop of [isHoldRequest]: [None] when a stream is active, or [method] as it was set. *)
Fixpoint hold_loop (conn_active : bool) (act : MediaActivity) (ms : list SdpMedia) (method : option HoldMethod) : option (option HoldMethod) :=
  match ms with
  | [] => Some method
  | m :: ms =>
      if m_port m =? 0 then hold_loop conn_active act ms method
      else if negb (connectionActive (m_conn m) conn_active) then hold_loop conn_active act ms (Some ZeroedConnection)
      else match media_activity m act with
           | Sendonly => hold_loop conn_active act ms (Some SendonlyStream)
           | Inactive => hold_loop conn_active act ms (Some InactiveStream)
           | Recvonly | Sendrecv => None
           end
  end.

(** [isHoldRequest]: the method when it is one; [Some None] leaves [method] unset. *)
Definition isHoldRequest (d : AmSdp) : option (option HoldMethod) :=
  let conn_active := connectionActive (s_conn d) false in
  let act := attr_activity (s_attributes d) Sendrecv in
  method ← hold_loop conn_active act (media d) None;
  Some (match media d with
        | [] => if negb conn_active then Some ZeroedConnection
                else match act with Sendonly => Some SendonlyStream | _ => Some InactiveStream end
        | _ => method
        end).

(** ** What is passed on *)

Definition is_reason (h : list Z * list Z) : bool := bool_decide (map tolower h.1 = lit "reason").

Lemma find_char_app c l r : ~ In c l -> find_char c (l ++ c :: r) = Some (length l).
Proof.
  induction l as [|x l IH]; intros Hn; cbn [app find_char length]; [by rewrite Z.eqb_refl|].
  cbn in Hn. destruct (Z.eqb_spec x c); [naive_solver|]. rewrite IH; [done|]. naive_solver.
Qed.

Lemma line_content_crlf l : line_content (l ++ [CR]) = l.
Proof.
  unfold line_content. rewrite last_snoc. cbn [Z.eqb CR Pos.eqb]. rewrite length_app. cbn [length].
  replace (length l + 1 - 1)%nat with (length l) by lia. by rewrite take_app_length.
Qed.

Lemma reason_line_hdr n v rest :
  good_name n = true ->
  reason_line ((n ++ [HCOLON; SP] ++ v) ++ rest) (n ++ [HCOLON; SP] ++ v) = if is_reason (n, v) then hdr_line (n, v) else [].
Proof.
  intros Hn. unfold good_name in Hn. apply andb_true_iff in Hn as [_ Hn]. rewrite forallb_forall in Hn.
  assert (Hc : ~ In HCOLON n) by (intros (? & ? & ? & ? & _)%Hn%name_char_spec; done).
  unfold reason_line. rewrite <- app_assoc. cbn [app]. rewrite find_char_app by done.
  assert (Nat.ltb (length n) (length (n ++ HCOLON :: SP :: v)) = true) as ->.
  { apply Nat.ltb_lt. rewrite length_app. cbn. lia. }
  cbn [andb]. unfold is_reason, hdr_line. cbn [fst snd]. destruct (Nat.eqb_spec (length n) 6) as [E|E]; cbn [andb].
  - unfold starts_reason. rewrite <- E, take_app_length. case_bool_decide; [|done]. by rewrite <- app_assoc.
  - case_bool_decide as H; [|done]. apply (f_equal length) in H. rewrite length_map in H. done.
Qed.

Lemma filter_reason_lines l f :
  forallb good_hdr l = true -> (length (hdr_lines l) < f)%nat ->
  filter_reason_loop f (hdr_lines l) = Some (hdr_lines (List.filter is_reason l)).
Proof.
  revert f; induction l as [|[n v] l IH]; intros f Hg Hf; (destruct f as [|f]; [lia|]); [done|].
  cbn [forallb] in Hg. apply andb_true_iff in Hg as [Hg Hgl]. unfold good_hdr in Hg. cbn [fst snd] in Hg. apply andb_true_iff in Hg as [Hn Hv].
  assert (Etext : hdr_lines ((n, v) :: l) = ((n ++ [HCOLON; SP] ++ v) ++ [CR]) ++ LF :: hdr_lines l).
  { unfold hdr_lines, hdr_line. cbn [map concat fst snd]. rewrite <- !app_assoc. done. }
  assert (Hlf : ~ In LF ((n ++ [HCOLON; SP] ++ v) ++ [CR])).
  { unfold good_name in Hn. apply andb_true_iff in Hn as [_ Hn]. rewrite forallb_forall in Hn.
    assert (Hv' : forallb text_char v = true) by (unfold good_value in Hv; destruct v; [done|]; by apply andb_true_iff in Hv as [_ Hv]).
    rewrite forallb_forall in Hv'. rewrite !in_app_iff. intros [[Hin|[[Hin|[Hin|[]]]|Hin]]|[Hin|[]]]; try done.
    - apply Hn, name_char_spec in Hin. tauto.
    - apply Hv', text_char_spec in Hin. tauto. }
  rewrite Etext, length_app in Hf. cbn [length] in Hf.
  cbn [filter_reason_loop]. rewrite Etext.
  destruct ((((n ++ [HCOLON; SP] ++ v) ++ [CR]) ++ LF :: hdr_lines l)) as [|x0 t0] eqn:Ene; [by apply app_nil in Ene as [_ ?]|]. rewrite <- Ene.
  rewrite find_char_app by done.
  rewrite take_app_length. rewrite line_content_crlf.
  replace (S (length ((n ++ [HCOLON; SP] ++ v) ++ [CR]))) with (length (((n ++ [HCOLON; SP] ++ v) ++ [CR]) ++ [LF])) by (rewrite (length_app _ [LF]); cbn; lia).
  rewrite (cons_middle LF _ (hdr_lines l)), app_assoc, drop_app_length.
  rewrite IH by (done || lia). cbn [mbind option_bind]. f_equal.
  rewrite <- !(app_assoc (n ++ [HCOLON; SP] ++ v)). rewrite reason_line_hdr by done. cbn [List.filter]. by destruct (is_reason (n, v)).
Qed.

(** Of the headers of a CANCEL exactly the Reason headers are passed on, unchanged and in
    their order, whatever the case of their name. *)
Theorem reason_hdrs_passed l :
  forallb good_hdr l = true -> filterReasonHdr (hdr_lines l) = Some (hdr_lines (List.filter is_reason l)).
Proof. intros Hg. apply filter_reason_lines; [done|lia]. Qed.

Lemma reason_hdrs_passed_witness :
  filterReasonHdr (hdr_lines [(lit "Via", lit "x"); (lit "rEASON", lit "SIP;cause=200"); (lit "Reasons", lit "y")])
  = Some (lit "rEASON: SIP;cause=200" ++ CRLF).
Proof. rewrite (reason_hdrs_passed [(lit "Via", lit "x"); (lit "rEASON", lit "SIP;cause=200"); (lit "Reasons", lit "y")]); reflexivity. Defined.

(** ** What is a hold request *)

(** A stream that the sender of the description still listens to. *)
Definition stream_active (d : AmSdp) (m : SdpMedia) : bool :=
  negb (m_port m =? 0) && connectionActive (m_conn m) (connectionActive (s_conn d) false) && m_recv m.

(** A description is taken for a hold request exactly when it has no active stream: every
    stream has port 0, a zero or missing address, or is sent only or inactive. *)
Theorem hold_without_active_stream d :
  (exists h, isHoldRequest d = Some h) <-> forallb (fun m => negb (stream_active d m)) (media d) = true.
Proof.
  unfold isHoldRequest, stream_active. set (ca := connectionActive (s_conn d) false). set (act := attr_activity _ _).
  assert (H : forall h, (exists r, hold_loop ca act (media d) h = Some r) <->
    forallb (fun m => negb (negb (m_port m =? 0) && connectionActive (m_conn m) ca && m_recv m)) (media d) = true).
  { induction (media d) as [|m ms IH]; intros h; cbn [hold_loop forallb]; [naive_solver|].
    destruct (m_port m =? 0); cbn [negb andb]; [apply IH|]. destruct (connectionActive (m_conn m) ca); cbn [negb andb]; [|apply IH].
    unfold media_activity. destruct (m_send m), (m_recv m); cbn [negb andb]; try apply IH; split; [intros [? ?]; done|done|intros [? ?]; done|done]. }
  rewrite <- (H None). destruct (hold_loop ca act (media d) None); cbn [mbind option_bind]; split; intros [? ?]; by eauto.
Qed.

(** With at least one stream the direction given for the whole session does not count,
    although the streams inherit it (RFC 4566 section 6). *)
Theorem session_direction_ignored d attrs :
  media d <> [] ->
  isHoldRequest (mk_sdp (s_version d) (origin d) (sessionName d) (s_uri d) (s_conn d) attrs (media d) (l_origin d)) = isHoldRequest d.
Proof.
  intros Hne. unfold isHoldRequest. cbn [s_conn s_attributes media]. set (a1 := attr_activity attrs _). set (a2 := attr_activity _ _).
  assert (H : forall ms h, hold_loop (connectionActive (s_conn d) false) a1 ms h = hold_loop (connectionActive (s_conn d) false) a2 ms h).
  { induction ms as [|m ms IH]; intros h; [done|]. cbn [hold_loop]. by rewrite !IH. }
  rewrite H. by destruct (media d).
Qed.
