(* ===== verification/CallLeg.v ===== *)
(** * The call legs of the SBC

    Model of [apps/sbc/CallLeg.cpp], [CallLegEvents.h] and [SessionUpdate.cpp]: a leg of a
    call that may have several other legs (forking), may be put on hold, disconnected,
    reconnected and replaced, and that queues the changes of its session.  The state is that
    of [B2BSession] with the record [leg] for the fields of the class.

    What an [AmB2BMedia] object does is not modelled, only who holds references to it.  The
    call backs to a derived class are without effect here but for [onBLegRefused], which may
    add legs; the registry of calls and the log are left out. *)

From Stdlib Require Import ZArith Lia Ascii String.
From stdpp Require Import base list.
From S2P Require Import Prelude SipMsg MimeBody ParseCommon SipHeader B2BSession Sdp CallLegHelpers.

Local Open Scope Z_scope.
Local Open Scope bool_scope.

(** ** The fields of a leg *)

Inductive CallStatus := Disconnected | NoReply | Ringing | Connected | Disconnecting.

#[global] Instance CallStatus_eq_dec : EqDecision CallStatus.
Proof. solve_decision. Defined.

(** [OtherLegInfo] *)
Record other_leg := mk_ol { ol_id : list Z; ol_media : option media_id }.

Inductive hold_state := HoldRequested | ResumeRequested | PreserveHoldStatus.

#[global] Instance hold_state_eq_dec : EqDecision hold_state.
Proof. solve_decision. Defined.

(** [SessionUpdate] and its classes; a CSeq of -1 is none. *)
Inductive update_op :=
| PutOnHold
| ResumeHeld
| Reinvite (hdrs : list Z) (body : mime) (establishing relayed_invite : bool) (r_cseq : Z).

Record SessionUpdate := mk_su { su_op : update_op; request_cseq : Z }.

Definition hasCSeq (u : SessionUpdate) : bool := 0 <=? request_cseq u.

Record leg := mk_leg {
  call_status : CallStatus;
  other_legs : list other_leg;
  on_hold : bool;
  non_hold_sdp : AmSdp;
  hold : hold_state;
  pending_updates : list SessionUpdate;
  timer_started : bool;              (* pending_updates_timer.started() *)
  cancel_hdrs : list Z
}.

Definition l_set_status v l := mk_leg v (other_legs l) (on_hold l) (non_hold_sdp l) (hold l) (pending_updates l) (timer_started l) (cancel_hdrs l).
Definition l_set_legs v l := mk_leg (call_status l) v (on_hold l) (non_hold_sdp l) (hold l) (pending_updates l) (timer_started l) (cancel_hdrs l).
Definition l_set_on_hold v l := mk_leg (call_status l) (other_legs l) v (non_hold_sdp l) (hold l) (pending_updates l) (timer_started l) (cancel_hdrs l).
Definition l_set_sdp v l := mk_leg (call_status l) (other_legs l) (on_hold l) v (hold l) (pending_updates l) (timer_started l) (cancel_hdrs l).
Definition l_set_hold v l := mk_leg (call_status l) (other_legs l) (on_hold l) (non_hold_sdp l) v (pending_updates l) (timer_started l) (cancel_hdrs l).
Definition l_set_updates v l := mk_leg (call_status l) (other_legs l) (on_hold l) (non_hold_sdp l) (hold l) v (timer_started l) (cancel_hdrs l).
Definition l_set_timer v l := mk_leg (call_status l) (other_legs l) (on_hold l) (non_hold_sdp l) (hold l) (pending_updates l) v (cancel_hdrs l).
Definition l_set_cancel v l := mk_leg (call_status l) (other_legs l) (on_hold l) (non_hold_sdp l) (hold l) (pending_updates l) (timer_started l) v.

(** ** Events *)

(** [ReconnectLegEvent]; its sender is [rc_tag]. *)
Record reconnect := mk_rc {
  rc_body : mime; rc_hdrs : list Z; rc_cseq : Z; rc_relayed_invite : bool;
  rc_media : option media_id; rc_mode : relay_mode; rc_tag : list Z; rc_role_a : bool
}.

Inductive leg_event :=
| ConnectLeg (body : mime) (hdrs : list Z) (r_cseq r_max_forwards : Z) (relayed_invite : bool)
| ReconnectLeg (rc : reconnect)
| ReplaceLeg (sender : list Z) (ev : reconnect)
| ReplaceInProgress (dst_session : list Z)
| DisconnectLeg (put_remote_on_hold preserve_media_session : bool)
| ChangeRtpMode (new_mode : relay_mode) (media : option media_id)
| ResumeHeldLeg
| ApplyPendingUpdates
| CallLegTerminate (hdrs : list Z).

Definition setMedia (m : option media_id) (mode : relay_mode) (rc : reconnect) : reconnect :=
  mk_rc (rc_body rc) (rc_hdrs rc) (rc_cseq rc) (rc_relayed_invite rc) m mode (rc_tag rc) (rc_role_a rc).

(** An [unsigned] value read as [int]. *)
Definition as_int (z : Z) : Z := if z <? 2147483648 then z else z - 4294967296.

Section CallLeg.
Context {D : Type} {LD : LegDialog D}.
Local Notation "'st'" := (b2b D leg leg_event).

Local Notation "'status' s" := (call_status (ext s)) (at level 10, s at level 9).
Local Notation "'legs' s" := (other_legs (ext s)) (at level 10, s at level 9).
Local Notation "'updates' s" := (pending_updates (ext s)) (at level 10, s at level 9).

Definition on_leg (f : leg -> leg) (s : st) : st := set_ext (f (ext s)) s.

(** The surroundings: those of [b2b_env]; the SDP parser and printer; the change of the
    addresses by the media session ([None]: an exception); the methods of a derived class
    that compose and change the descriptions of hold requests; [onBLegRefused]. *)
Record leg_env := mk_lenv {
  le_alive : list Z -> bool;
  le_hash : cstring -> Z;
  le_subs_request : b2b_req -> bool;
  le_subs_reply : b2b_rpl -> bool;
  le_subs_exists : Z -> bool;
  le_notify_hdrs : list (Z * Z) -> list Z -> list Z;
  le_parse : cstring -> option AmSdp;
  le_print : AmSdp -> cstring;
  le_addresses : st -> AmSdp -> option AmSdp;
  createHoldRequest : st -> AmSdp;
  alterHoldRequest : AmSdp -> AmSdp;
  alterResumeRequest : AmSdp -> AmSdp;
  onBLegRefused : b2b_rpl -> st -> st
}.

Context (P : leg_env).

(** ** Deleting events *)

(** A base class event posted to a session that may be gone. *)
Definition post_terminate (to : list Z) (s : st) : st := if le_alive P to then post to EvTerminate s else s.

(** [~ReconnectLegEvent] and [~ReliableB2BEvent] of an event that was not processed. *)
Definition delete_reconnect (rc : reconnect) (s : st) : st :=
  post_terminate (rc_tag rc) (media_ref (-1) (rc_media rc) s).

(** An event that could not be posted. *)
Definition delete_leg_event (y : leg_event) (s : st) : st :=
  match y with
  | ReconnectLeg rc => delete_reconnect rc s
  | ReplaceLeg sender rc => post_terminate sender (delete_reconnect rc s)
  | ChangeRtpMode _ m => media_ref (-1) m s
  | _ => s
  end.

Definition LE : b2b_env :=
  mk_benv (le_alive P) (fun _ b => Some b) (le_hash P) (le_subs_request P) (le_subs_reply P) (le_subs_exists P) (le_notify_hdrs P)
    delete_leg_event.

(** ** Status *)

(** [updateCallStatus]; [onCallStatusChange] is a call back without effect. *)
Definition updateCallStatus (c : CallStatus) (s : st) : st := on_leg (l_set_status c) s.

(** ** Hold *)

Definition holdAccepted (s : st) : st :=
  let s := if bool_decide (status s = Disconnecting) then updateCallStatus Disconnected s else s in
  on_leg (l_set_on_hold true) s.

Definition holdRejected (s : st) : st :=
  if bool_decide (status s = Disconnecting) then updateCallStatus Disconnected s else s.

Definition resumeAccepted (s : st) : st := on_leg (l_set_on_hold false) s.

(** [CallLeg::onSdpCompleted] *)
Definition leg_onSdpCompleted (s : st) : st :=
  let s := match hold (ext s) with
           | HoldRequested => holdAccepted s
           | ResumeRequested => resumeAccepted s
           | PreserveHoldStatus => s
           end in
  on_leg (l_set_hold PreserveHoldStatus) s.

Definition offerRejected (s : st) : st :=
  let s := match hold (ext s) with HoldRequested => holdRejected s | _ => s end in
  on_leg (l_set_hold PreserveHoldStatus) s.

(** [adjustOffer] *)
Definition adjustOffer (d : AmSdp) (s : st) : st * AmSdp :=
  match hold (ext s) with
  | PreserveHoldStatus =>
      match isHoldRequest d with
      | Some _ => (on_leg (l_set_hold HoldRequested) s, alterHoldRequest P d)
      | None => if on_hold (ext s) then (on_leg (l_set_hold ResumeRequested) s, alterResumeRequest P d) else (s, d)
      end
  | _ => (s, d)
  end.

(** [AmB2BSession::updateLocalSdp] *)
Definition base_updateLocalSdp (d : AmSdp) (s : st) : option AmSdp :=
  match rtp_relay_mode s, media_session s with
  | RTP_Direct, _ | _, None => Some d
  | _, Some _ => le_addresses P s d
  end.

(** [CallLeg::updateLocalSdp] *)
Definition updateLocalSdp (d : AmSdp) (s : st) : st * option AmSdp :=
  let '(s, d) := if dg_oa_idle (bdlg s) then adjustOffer d s else (s, d) in
  let s := if bool_decide (hold (ext s) = PreserveHoldStatus) && negb (on_hold (ext s)) then on_leg (l_set_sdp d) s else s in
  (s, base_updateLocalSdp d s).

Definition clear_part (r : part_ref) (m : mime) : mime :=
  match r with
  | Self => mime_empty_body
  | Part i => match m with mk_mime t u p ps => mk_mime t u p (<[i := mime_empty_body]> ps) end
  end.

(** [AmB2BSession::updateLocalBody] *)
Definition updateLocalBody (b : mime) (s : st) : st * option mime :=
  match hasContentType SIP_APPLICATION_SDP b with
  | None => (s, Some b)
  | Some r =>
      if bool_decide (getPayload r b = []) then (s, Some (clear_part r b))
      else match le_parse P (getPayload r b) with
           | None => (s, Some b)
           | Some d =>
               let? (s, d) := updateLocalSdp d s in (s, Some (setPayload r (le_print P d) b))
           end
  end.

(** ** The queue of session updates *)

Definition canUpdateSession (s : st) : bool :=
  negb (dg_uac_inv (bdlg s) || match dg_uas_inv (bdlg s) with Some _ => true | None => false end).

(** [CallLeg::onTransFinished] *)
Definition leg_onTransFinished (s : st) : st :=
  match updates s with
  | [] => s
  | _ => if negb (canUpdateSession s) || timer_started (ext s) then s
         else fst (postEvent LE (local_tag s) (EvApp ApplyPendingUpdates) s)
  end.

Definition LH : hooks := mk_hooks (b_relayEvent LE) updateLocalBody leg_onSdpCompleted leg_onTransFinished.

(** ** Other legs *)

(** [releaseMediaSession] *)
Definition release (o : other_leg) (s : st) : st := media_ref (-1) (ol_media o) s.

(** The first entry with an id, and the others. *)
Fixpoint take_leg (id : list Z) (l : list other_leg) : option (other_leg * list other_leg) :=
  match l with
  | [] => None
  | o :: l => if bool_decide (ol_id o = id) then Some (o, l)
              else match take_leg id l with Some (x, l) => Some (x, o :: l) | None => None end
  end.

Definition drop_leg (id : list Z) (s : st) : st :=
  match take_leg id (legs s) with
  | Some (o, l) => on_leg (l_set_legs l) (release o s)
  | None => s
  end.

(** The event that ends another leg. *)
Definition terminate_event (s : st) : b2b_event leg_event :=
  match cancel_hdrs (ext s) with [] => EvTerminate | h => EvApp (CallLegTerminate h) end.

(** [terminateNotConnectedLegs]: the last entry of the connected leg stays. *)
Fixpoint terminate_legs (l : list other_leg) (kept : option other_leg) (s : st) : option other_leg * st :=
  match l with
  | [] => (kept, s)
  | o :: l =>
      if bool_decide (ol_id o = other_id s) then terminate_legs l (Some o) s
      else
        let s := release o s in
        terminate_legs l kept (fst (postEvent LE (ol_id o) (terminate_event s) s))
  end.

Definition terminateNotConnectedLegs (s : st) : st :=
  let '(kept, s) := terminate_legs (legs s) None s in
  on_leg (l_set_legs (match kept with Some o => [o] | None => [] end)) s.

(** [removeOtherLeg] of a string of its own. *)
Definition removeOtherLeg (id : list Z) (s : st) : st :=
  let s := if bool_decide (other_id s = id) then set_other [] s else s in
  drop_leg id s.

(** [CallLeg::clear_other]: the argument of [removeOtherLeg] is a reference to [other_id],
    which is empty when the entry is looked for. *)
Definition clear_other (s : st) : st := drop_leg [] (set_other [] s).

(** [CallLeg::terminateLeg] *)
Definition terminateLeg (s : st) : st :=
  match cancel_hdrs (ext s) with
  | [] => b_terminateLeg LH s
  | h => dlg_bye LH h (clearRtpReceiverRelay (setStopped s))
  end.

(** [CallLeg::terminateOtherLeg] *)
Definition terminateOtherLeg (s : st) : st :=
  let s := if bool_decide (status s = Connected) then s else terminateNotConnectedLegs s in
  let s := match cancel_hdrs (ext s), other_id s with
           | _ :: _, _ :: _ => fst (b_relayEvent LE (EvApp (CallLegTerminate (cancel_hdrs (ext s)))) s)
           | _, _ => b_terminateOtherLeg LH s
           end in
  let s := drop_leg (other_id s) s in
  if bool_decide (status s = Disconnected) then s else updateCallStatus Disconnected s.

Definition stopCall (s : st) : st :=
  let s := if bool_decide (status s = Disconnected) then s else updateCallStatus Disconnected s in
  terminateLeg (terminateOtherLeg (terminateNotConnectedLegs s)).

(** ** Replies of the other legs *)

(** [relaySipReply]: a reply to a request that is not known is ignored. *)
Definition relaySipReply (r : b2b_rpl) (s : st) : st * option Z :=
  match im_find (r_cseq r) (recvd_req s) with
  | None => (s, Some 0)
  | Some req => relaySip_reply LE LH req (with_contact r) s
  end.

Definition setOther (id : list Z) (forward : bool) (s : st) : st * bool :=
  if bool_decide (other_id s = id) then (s, true)
  else
    match List.find (fun o => bool_decide (ol_id o = id)) (legs s) with
    | Some o =>
        let s := clearRtpReceiverRelay (set_other id s) in
        let s := setMediaSession (ol_media o) s in
        let s := if forward then set_bdlg (dg_oa_reopen (bdlg s)) s else s in
        let s := match ol_media o with Some _ => s | None => setRtpRelayMode RTP_Direct s end in
        (set_relay_only true s, true)
    | None => (s, false)
    end.

(** The reply is relayed, or the call is stopped. *)
Definition relay_or_stop (r : b2b_rpl) (s : st) : st * option unit :=
  let? (s, res) := relaySipReply r s in (if res =? 0 then s else stopCall s, Some tt).

Definition b2bInitial1xx (r : b2b_rpl) (forward : bool) (s : st) : st * option unit :=
  if bool_decide (r_to_tag r = []) || (r_code r =? 100) then (s, Some tt)
  else if bool_decide (status s = NoReply) then
    let '(s, set) := setOther (r_from_tag r) forward s in
    if set then
      let s := updateCallStatus Ringing s in
      if forward then relay_or_stop r s else (s, Some tt)
    else (s, Some tt)
  else if bool_decide (other_id s = r_from_tag r) && forward then relay_or_stop r s
  else (s, Some tt).

(** The entry of the connected leg is not needed any more. *)
Definition forget_legs (s : st) : st :=
  let s := match legs s with o :: _ => release o s | [] => s end in
  on_leg (l_set_legs []) s.

Definition b2bInitial2xx (r : b2b_rpl) (forward : bool) (s : st) : st * option unit :=
  let '(s, set) := setOther (r_from_tag r) forward s in
  if negb set then (s, Some tt)
  else
    let s := forget_legs (terminateNotConnectedLegs s) in
    if negb forward then
      let s := fst (sendEstablishedReInvite LH (saveSessionDescription LE (r_body r) s)) in
      (updateCallStatus Connected s, Some tt)
    else
      let? (s, res) := relaySipReply r s in
      (if res =? 0 then updateCallStatus Connected s else stopCall s, Some tt).

Definition b2bInitialErr (r : b2b_rpl) (forward : bool) (s : st) : st * option unit :=
  if bool_decide (status s = Ringing) && negb (bool_decide (other_id s = r_from_tag r)) then
    (onBLegRefused P r (removeOtherLeg (r_from_tag r) s), Some tt)
  else
    let s := removeOtherLeg (r_from_tag r) (clearRtpReceiverRelay s) in
    let s := onBLegRefused P r (updateCallStatus NoReply s) in
    let s := set_relay_only false s in
    match legs s with
    | _ :: _ => (s, Some tt)
    | [] =>
        let? (s, x) := (if forward then relaySipReply r s else (s, Some 0)) in
        (stopCall (updateCallStatus Disconnected s), Some tt)
    end.

Definition onInitialReply (r : b2b_rpl) (forward : bool) (s : st) : st * option unit :=
  if r_code r <? 200 then b2bInitial1xx r forward s
  else if r_code r <? 300 then b2bInitial2xx r forward s
  else b2bInitialErr r forward s.

(** ** Changing the session *)

(** [sdp2body] *)
Definition sdp2body (d : AmSdp) (b : mime) : mime :=
  match hasContentType SIP_APPLICATION_SDP b with
  | Some r => setPayload r (le_print P d) b
  | None => mk_mime (cs "application") (cs "sdp") (le_print P d) (parts b)
  end.

(** A re-INVITE that was sent has the CSeq before the next one. *)
Definition last_cseq (s : st) : Z := as_int (u32 (dg_cseq (bdlg s) - 1)).

(** The end of [putOnHoldImpl] and [resumeHeldImpl]. *)
Definition send_hold (body : mime) (s : st) : st * Z :=
  let '(d, res) := dg_reinvite body (bdlg s) in
  let s := upd_dlg LH d s in
  if res =? 0 then (s, last_cseq s) else (offerRejected s, -1).

Definition putOnHoldImpl (s : st) : st * option Z :=
  if on_hold (ext s) then (s, Some (-1))
  else
    let s := on_leg (l_set_hold HoldRequested) s in
    let? (s, d) := updateLocalSdp (createHoldRequest P s) s in
    let '(s, c) := send_hold (sdp2body d mime_empty_body) s in (s, Some c).

(** [createResumeRequest]; [None] is its exception. *)
Definition createResumeRequest (s : st) : option AmSdp :=
  match media (non_hold_sdp (ext s)) with [] => None | _ => Some (non_hold_sdp (ext s)) end.

(** Every exception is caught. *)
Definition resumeHeldImpl (s : st) : st * Z :=
  if negb (on_hold (ext s)) then (s, -1)
  else
    let s := on_leg (l_set_hold ResumeRequested) s in
    match createResumeRequest s with
    | None => (offerRejected s, -1)
    | Some d =>
        match updateLocalSdp d s with
        | (s, None) => (offerRejected s, -1)
        | (s, Some d) => send_hold (sdp2body d (established_body s)) s
        end
    end.

(** [CallLeg::reinvite]; the exception of [updateLocalBody] counts as the error -500. *)
Definition reinvite (hdrs : list Z) (body : mime) (relayed : bool) (r_cseq : Z) (establishing : bool) (s : st) : st * Z :=
  let '(s, res) := match updateLocalBody body s with
                   | (s, None) => (s, -500)
                   | (s, Some b) => let '(d, res) := dg_send B_INVITE b hdrs (-1) (bdlg s) in (upd_dlg LH d s, res)
                   end in
  if res <? 0 then
    let s := if relayed then relayErr LH B_INVITE r_cseq true res s else s in
    (stopCall s, -1)
  else
    let k := u32 (dg_cseq (bdlg s) - 1) in
    let s := if relayed
             then set_est (est_invite_cseq s) r_cseq (set_relayed (im_set k (fake_invite r_cseq) (relayed_req s)) s)
             else set_est (est_invite_cseq s) 0 s in
    let s := saveSessionDescription LE body s in
    (if establishing then set_est k (est_invite_other_cseq s) s else s, as_int k).

(** [SessionUpdate::apply] *)
Definition apply_update (u : update_op) (s : st) : st * option Z :=
  match u with
  | PutOnHold => putOnHoldImpl s
  | ResumeHeld => let '(s, c) := resumeHeldImpl s in (s, Some c)
  | Reinvite hdrs body establishing relayed r_cseq =>
      let '(s, c) := reinvite hdrs body relayed r_cseq establishing s in (s, Some c)
  end.

(** The loop of [applyPendingUpdate]. *)
Fixpoint apply_loop (n : nat) (s : st) : st * option unit :=
  match n, updates s with
  | S n, u :: _ =>
      let? (s, c) := apply_update (su_op u) s in
      if 0 <=? c
      then (on_leg (fun l => l_set_updates (mk_su (su_op u) c :: tl (pending_updates l)) l) s, Some tt)
      else apply_loop n (on_leg (fun l => l_set_updates (tl (pending_updates l)) l) s)
  | _, _ => (s, Some tt)
  end.

Definition applyPendingUpdate (s : st) : st * option unit :=
  if negb (canUpdateSession s) then (s, Some tt) else apply_loop (length (updates s)) s.

Definition updateSession (u : update_op) (s : st) : st * option unit :=
  if negb (canUpdateSession s) || match updates s with [] => false | _ => true end
  then (on_leg (fun l => l_set_updates (pending_updates l ++ [mk_su u (-1)]) l) s, Some tt)
  else
    let? (s, c) := apply_update u s in
    (if 0 <=? c then on_leg (fun l => l_set_updates (pending_updates l ++ [mk_su u c]) l) s else s, Some tt).

Definition putOnHold (s : st) : st * option unit := updateSession PutOnHold s.
Definition resumeHeld (s : st) : st * option unit := updateSession ResumeHeld s.

(** [SessionUpdateTimer::fire]: the timer of the updates has expired. *)
Definition timer_fire (s : st) : st :=
  fst (postEvent LE (local_tag s) (EvApp ApplyPendingUpdates) (on_leg (l_set_timer false) s)).

(** ** Media sessions *)

(** [new AmB2BMedia(..)]: an object without references. *)
Definition new_media (s : st) : st * media_id := (set_new_medias (S (new_medias s)) s, (local_tag s, new_medias s)).

(** A new object with a reference to store, when media are relayed. *)
Definition leg_media (mode : relay_mode) (s : st) : st * option media_id :=
  match mode with
  | RTP_Direct => (s, None)
  | _ => let '(s, m) := new_media s in (media_ref 1 (Some m) s, Some m)
  end.

(** The rounds of the loop of [changeOtherLegsRtpMode]. *)
Fixpoint change_legs (new_mode : relay_mode) (l done : list other_leg) (s : st) : st :=
  match l with
  | [] => s
  | o :: l =>
      let '(s, m) := leg_media new_mode (release o s) in
      let s := match m with
               | Some _ => if bool_decide (other_id s = ol_id o) then setMediaSession m s else s
               | None => s
               end in
      let o := mk_ol (ol_id o) m in
      let s := on_leg (l_set_legs (done ++ o :: l)) s in
      let s := fst (postEvent LE (ol_id o) (EvApp (ChangeRtpMode new_mode m)) (media_ref 1 m s)) in
      change_legs new_mode l (done ++ [o]) s
  end.

Definition changeOtherLegsRtpMode (new_mode : relay_mode) (s : st) : st := change_legs new_mode (legs s) [] s.

(** The mode is sent to the other leg, with the media session. *)
Definition relay_mode_change (new_mode : relay_mode) (s : st) : st :=
  if bool_decide (other_id s = []) then s
  else fst (b_relayEvent LE (EvApp (ChangeRtpMode new_mode (media_session s))) (media_ref 1 (media_session s) s)).

Definition settled (c : CallStatus) : bool := match c with NoReply | Ringing => false | _ => true end.

Definition changeRtpMode (new_mode : relay_mode) (s : st) : st :=
  if bool_decide (new_mode = rtp_relay_mode s) then s
  else
    let s := setRtpRelayMode new_mode (clearRtpReceiverRelay s) in
    if settled (status s) then
      let s := match new_mode with
               | RTP_Direct => s
               | _ => let '(s, m) := new_media s in setMediaSession (Some m) s
               end in
      relay_mode_change new_mode s
    else match legs s with
         | [] => relay_mode_change new_mode s
         | _ => changeOtherLegsRtpMode new_mode s
         end.

(** [changeRtpMode] with the media session of an event. *)
Definition changeRtpMode_to (new_mode : relay_mode) (new_media : option media_id) (s : st) : st :=
  let mode_changed := negb (bool_decide (rtp_relay_mode s = new_mode)) in
  let s := setRtpRelayMode new_mode (clearRtpReceiverRelay s) in
  if settled (status s) then setMediaSession new_media s
  else match legs s with
       | [] => setMediaSession new_media s
       | _ => if mode_changed then changeOtherLegsRtpMode new_mode s else s
       end.

(** ** Adding, connecting and replacing legs *)

Definition push_leg (o : other_leg) (s : st) : st :=
  let s := on_leg (fun l => l_set_legs (other_legs l ++ [o]) l) s in
  if bool_decide (status s = Disconnected) then updateCallStatus NoReply s else s.

(** [addNewCallee]: the leg [callee] was made for this call; it is returned as it is started. *)
Definition addNewCallee (callee : st) (e : leg_event) (mode : relay_mode) (s : st) : st * st :=
  let id := local_tag callee in
  let '(s, m) := leg_media mode s in
  let callee := setRtpRelayMode mode callee in
  let callee := match m with Some _ => setMediaSession m callee | None => callee end in
  let s := on_leg (fun l => l_set_legs (other_legs l ++ [mk_ol id m]) l) s in
  let s := fst (postEvent LE id (EvApp e) s) in
  (if bool_decide (status s = Disconnected) then updateCallStatus NoReply s else s, callee).

(** The common end of [addExistingCallee] and [replaceExistingLeg]: [ev] is the event with
    the new media session. *)
Definition add_by_event (to id : list Z) (ev : option media_id -> leg_event) (s : st) : st :=
  let '(s, m) := leg_media (rtp_relay_mode s) s in
  let '(s, posted) := postEvent LE to (EvApp (ev m)) (media_ref 1 m s) in
  if posted then push_leg (mk_ol id m) s else media_ref (-1) m s.

Definition addExistingCallee (session_tag : list Z) (rc : reconnect) (s : st) : st :=
  add_by_event session_tag session_tag (fun m => ReconnectLeg (setMedia m (rtp_relay_mode s) rc)) s.

(** The constructors of [ReconnectLegEvent]. *)
Definition reconnect_invite (tag : list Z) (inv : b2b_req) : reconnect :=
  mk_rc (q_body inv) (q_hdrs inv) (q_cseq inv) true None RTP_Direct tag false.
Definition reconnect_as (role_a : bool) (tag hdrs : list Z) (body : mime) : reconnect :=
  mk_rc body hdrs 0 false None RTP_Direct tag role_a.

Definition addCallee_existing (session_tag : list Z) (inv : b2b_req) (s : st) : st :=
  addExistingCallee session_tag (reconnect_invite (local_tag s) inv) s.

Definition addCallee_tag (session_tag hdrs : list Z) (s : st) : st :=
  addExistingCallee session_tag (reconnect_as (negb (a_leg s)) (local_tag s) hdrs (established_body s)) s.

Definition addCallee_invite (callee : st) (inv : b2b_req) (s : st) : st * st :=
  addNewCallee callee (ConnectLeg (q_body inv) (q_hdrs inv) (q_cseq inv) (q_max_forwards inv) true) (rtp_relay_mode s) s.

Definition addCallee_hdrs (callee : st) (hdrs : list Z) (s : st) : st * st :=
  let body := match media (non_hold_sdp (ext s)) with
              | [] => established_body s
              | _ => sdp2body (non_hold_sdp (ext s)) (established_body s)
              end in
  addNewCallee callee (ConnectLeg body hdrs 0 (est_invite_max_forwards s) false) (rtp_relay_mode s) s.

(** The id of the new entry is not known yet. *)
Definition replaceExistingLeg (session_tag : list Z) (rc : reconnect) (s : st) : st :=
  add_by_event session_tag [] (fun m => ReplaceLeg (local_tag s) (setMedia m (rtp_relay_mode s) rc)) s.

Definition replaceExistingLeg_invite (session_tag : list Z) (inv : b2b_req) (s : st) : st :=
  replaceExistingLeg session_tag (reconnect_invite (local_tag s) inv) s.

Definition replaceExistingLeg_hdrs (session_tag hdrs : list Z) (s : st) : st :=
  replaceExistingLeg session_tag (reconnect_as (negb (a_leg s)) (local_tag s) hdrs (established_body s)) s.

(** [onB2BConnect] *)
Definition onB2BConnect (body : mime) (hdrs : list Z) (r_cseq r_max_forwards : Z) (relayed_invite : bool) (s : st) : st * option unit :=
  if negb (bool_decide (status s = Disconnected)) then (s, Some tt)
  else
    let s := set_relay_only true s in
    match updateLocalBody body s with
    | (s, None) => (relayError LH B_INVITE r_cseq true 500 (lit "Server Internal Error") s, None)
    | (s, Some b) =>
        let '(d, res) := dg_send B_INVITE b hdrs (as_int (u32 (r_max_forwards - 1))) (bdlg s) in
        let s := upd_dlg LH d s in
        if res <? 0 then (stopCall (relayErr LH B_INVITE r_cseq true res s), Some tt)
        else
          let s := updateCallStatus NoReply s in
          let k := u32 (dg_cseq (bdlg s) - 1) in
          let s := if relayed_invite then set_relayed (im_set k (fake_invite r_cseq) (relayed_req s)) s else s in
          let s := if body_empty body then s else saveSessionDescription LE body s in
          (set_est k (if relayed_invite then r_cseq else 0) s, Some tt)
    end.

(** The answer with which [acceptPendingInvite] accepts an INVITE: every address is set to
    zero. *)
Definition zero_conn (zero : list Z) (c : SdpConnection) : SdpConnection :=
  match address c with [] => c | _ => mk_conn (network c) (addrType c) zero end.

Definition fake_offer : AmSdp :=
  mk_sdp 0 (mk_origin (lit "sems") 0 0 conn0) (lit "sems") [] (mk_conn NT_IN AT_V4 (lit "0.0.0.0")) []
    [mk_media MT_AUDIO 0 0 TP_RTPAVP conn0 DirUndefined [] false false
       [mk_payload MT_NONE 0 [] (-1) [] [] (-1)] []] origin0.

Definition accept_sdp (invite : mime) : AmSdp :=
  let d := match hasContentType SIP_APPLICATION_SDP invite with
           | Some r => match le_parse P (getPayload r invite) with Some d => d | None => fake_offer end
           | None => fake_offer
           end in
  let zero := match addrType (s_conn d) with AT_V6 => lit "::" | _ => lit "0.0.0.0" end in
  Sdp.set_media (map (fun m => mk_media (m_type m) (m_port m) (nports m) (transport m) (zero_conn zero (m_conn m)) (m_dir m) (m_fmt m)
                             (m_send m) (m_recv m) (payloads m) (m_attributes m)) (media d))
    (set_conn (zero_conn zero (s_conn d)) d).

Definition acceptPendingInvite (c : Z) (invite : mime) (s : st) : st :=
  let body := sdp2body (accept_sdp invite) mime_empty_body in
  let '(s, b) := updateLocalBody body s in
  let body := match b with Some b => b | None => body end in
  let s := fst (dlg_reply LH (mk_breq B_INVITE c 0 invite [] 0 0 []) 200 (lit "OK") body [] false s) in
  if bool_decide (status s = Connected) then s else updateCallStatus Connected s.

(** [onB2BReconnect] *)
Definition onB2BReconnect (rc : reconnect) (s : st) : st * option unit :=
  let s := set_relayed [] (clearRtpReceiverRelay (clear_other s)) in
  let s := match dg_uas_inv (bdlg s) with Some (c, b) => acceptPendingInvite c b s | None => s end in
  let s := set_a_leg (rc_role_a rc) (set_other (rc_tag rc) s) in
  let s := updateCallStatus NoReply (set_relay_only true s) in
  let s := setRtpRelayMode (rc_mode rc) s in
  let s := match rc_media rc with Some _ => setMediaSession (rc_media rc) s | None => s end in
  updateSession (Reinvite (rc_hdrs rc) (rc_body rc) true (rc_relayed_invite rc) (rc_cseq rc)) s.

(** [onB2BReplace]; without another leg the event taken is neither sent nor deleted. *)
Definition onB2BReplace (rc : reconnect) (s : st) : st :=
  match other_id s, legs s with
  | [], [] => s
  | _, _ =>
      let id := match other_id s, legs s with [], o :: _ => ol_id o | i, _ => i end in
      let s := fst (postEvent LE (rc_tag rc) (EvApp (ReplaceInProgress id)) s) in
      let s := fst (postEvent LE id (EvApp (ReconnectLeg rc)) s) in
      let s := removeOtherLeg id s in
      match legs s, other_id s with [], [] => stopCall s | _, _ => s end
  end.

(** [onB2BReplaceInProgress]: the first entry without id gets one. *)
Fixpoint name_leg (id : list Z) (l : list other_leg) : list other_leg :=
  match l with
  | [] => []
  | o :: l => match ol_id o with [] => mk_ol id (ol_media o) :: l | _ => o :: name_leg id l end
  end.

Definition onB2BReplaceInProgress (dst : list Z) (s : st) : st := on_leg (fun l => l_set_legs (name_leg dst (other_legs l)) l) s.

(** [disconnect] *)
Definition disconnect (hold_remote preserve_media : bool) (s : st) : st * option unit :=
  match status s with
  | Disconnecting | Disconnected => (s, Some tt)
  | c =>
      let s := if settled c then s else terminateNotConnectedLegs s in
      let s := if preserve_media then s else clearRtpReceiverRelay s in
      let s := match rtp_relay_mode s with
               | RTP_Direct => s
               | _ => if preserve_media then s else let '(s, m) := new_media s in setMediaSession (Some m) s
               end in
      let s := set_relayed [] (set_est 0 (est_invite_other_cseq s) (set_relay_only false (clear_other s))) in
      if negb hold_remote || on_hold (ext s) then (updateCallStatus Disconnected s, Some tt)
      else putOnHold (updateCallStatus Disconnecting s)
  end.

(** ** Requests of the own side *)

(** [CallLeg::onInvite] *)
Definition onInvite (req : b2b_req) (s : st) : st :=
  if bool_decide (status s = Disconnected)
  then set_recvd (im_insert (q_cseq req) req (recvd_req s))
         (set_max_forwards (q_max_forwards req) (set_est (q_cseq req) (est_invite_other_cseq s) s))
  else s.

(** [CallLeg::onBye] *)
Definition onBye (req : b2b_req) (s : st) : st :=
  setStopped (clearRtpReceiverRelay (updateCallStatus Disconnected (terminateNotConnectedLegs s))).

(** [CallLeg::onOtherBye] *)
Definition onOtherBye (req : b2b_req) (s : st) : st * bool := b_onOtherBye req (updateCallStatus Disconnected s).

Definition set_cancel (h : list Z) (s : st) : st := on_leg (l_set_cancel h) s.

(** [CallLeg::onCancel]; [None] of [filterReasonHdr] does not happen. *)
Definition onCancel (req : b2b_req) (s : st) : st :=
  if (bool_decide (status s = Ringing) || bool_decide (status s = NoReply)) && a_leg s then
    let s := updateCallStatus Disconnected s in
    let saved := cancel_hdrs (ext s) in
    let h := match filterReasonHdr (q_hdrs req) with Some h => h | None => [] end in
    set_cancel saved (stopCall (set_cancel h s))
  else s.

(** [AmSession::onSipRequest] *)
Definition session_request (req : b2b_req) (s : st) : st :=
  let answer code reason hdrs s := fst (dlg_reply LH req code reason mime_empty_body hdrs false s) in
  match q_method req with
  | B_INVITE => onInvite req s
  | B_ACK => s
  | B_BYE => onBye req (answer 200 (lit "OK") [] s)
  | B_CANCEL => onCancel req s
  | B_PRACK => answer 200 (lit "OK") [] s
  | B_UPDATE => if body_empty (q_body req) then answer 200 (lit "OK") [] s else answer 501 (lit "Not Implemented") [] s
  | B_METHOD m =>
      if bool_decide (m = lit "INFO") then
        match hasContentType (cs "application/dtmf-relay") (q_body req) with
        | Some _ => answer 200 (lit "OK") [] s
        | None => answer 415 (lit "Unsupported Media Type") (lit "Accept: application/dtmf-relay" ++ CRLF) s
        end
      else answer 501 (lit "Not Implemented") [] s
  | _ => answer 501 (lit "Not Implemented") [] s
  end.

(** The methods of a leg; [AmSession::onSipReply] has no effect on it. *)
Definition LV : virtuals := mk_virtuals session_request (fun _ s => s) onBye onOtherBye terminateLeg terminateOtherLeg.

(** [CallLeg::onSipRequest] *)
Definition leg_onSipRequest (req : b2b_req) (s : st) : st :=
  let answer code reason s := fst (dlg_reply LH req code reason mime_empty_body [] false s) in
  if (bool_decide (status s = Disconnected) || bool_decide (status s = Disconnecting)) && bool_decide (other_id s = []) then
    let s := if bool_decide (q_method req = B_INVITE) && dg_connected (bdlg s)
             then answer 500 (lit "Server Internal Error") s else session_request req s in
    if bool_decide (q_method req = B_BYE) then stopCall s else s
  else if bool_decide (status s = Disconnected) && bool_decide (q_method req = B_BYE) then answer 200 (lit "OK") s
  else onSipRequest LE LH LV req s.

(** ** Replies to the own side *)

(** The final reply to an update in progress. *)
Definition update_replied (r : b2b_rpl) (s : st) : st :=
  match updates s with
  | u :: us =>
      if (200 <=? r_code r) && (request_cseq u =? as_int (r_cseq r)) then
        if r_code r =? 491
        then on_leg (fun l => l_set_timer true (l_set_updates (mk_su (su_op u) (-1) :: us) l)) s
        else on_leg (l_set_updates us) s
      else s
  | [] => s
  end.

(** The status of a leg that waits for the reply to its first INVITE. *)
Definition initial_status (r : b2b_rpl) (s : st) : st :=
  if (r_cseq r =? est_invite_cseq s) && bool_decide (r_method r = B_INVITE) &&
     (bool_decide (status s = NoReply) || bool_decide (status s = Ringing)) then
    if (100 <? r_code r) && (r_code r <? 200) then
      if bool_decide (status s = NoReply) && negb (bool_decide (r_to_tag r = [])) then updateCallStatus Ringing s else s
    else if (200 <=? r_code r) && (r_code r <? 300) then updateCallStatus Connected s
    else if 300 <=? r_code r then terminateLeg (updateCallStatus Disconnected s)
    else s
  else s.

(** [CallLeg::onSipReply] *)
Definition leg_onSipReply (r : b2b_rpl) (s : st) : st :=
  let s := if (300 <=? r_code r) && bool_decide (r_method r = B_INVITE) then offerRejected s else s in
  initial_status r (onSipReply LE LH LV r (update_replied r s)).

(** [CallLeg::onInvite2xx] *)
Definition leg_onInvite2xx (r : b2b_rpl) (s : st) : st := onInvite2xx LH r s.

(** ** Time-outs *)

Definition leg_onRemoteDisappeared (s : st) : st :=
  if bool_decide (status s = Connected)
  then updateCallStatus Disconnected (b_onRemoteDisappeared LH LV (clearRtpReceiverRelay s)) else s.

Definition leg_onNoAck (s : st) : st := b_onNoAck LH LV (updateCallStatus Disconnected s).
Definition leg_onNoPrack (req : b2b_req) (s : st) : st := sess_onNoPrack LH req (updateCallStatus Disconnected s).
Definition leg_onRtpTimeout (s : st) : st := b_onRtpTimeout LH LV (updateCallStatus Disconnected s).
Definition leg_onSessionTimeout (s : st) : st := b_onSessionTimeout LH LV (updateCallStatus Disconnected s).

(** ** Events of the other legs *)

(** [onB2BReply] *)
Definition is_initial (r : b2b_rpl) (forward : bool) (s : st) : bool :=
  bool_decide (r_method r = B_INVITE) && (bool_decide (status s = NoReply) || bool_decide (status s = Ringing)) &&
  (((r_cseq r =? est_invite_cseq s) && forward) || negb forward).

Definition onB2BReply (r : b2b_rpl) (forward : bool) (trans_method : b2b_meth) (sender : list Z) (s : st) : st * option unit :=
  if is_initial r forward s then onInitialReply r forward s
  else if negb (bool_decide (other_id s = sender)) && negb (bool_decide (other_id s = r_from_tag r)) then (s, Some tt)
  else onB2BEvent LE LH LV (EvReply r forward trans_method sender) s.

(** [CallLeg::onB2BEvent] *)
Definition leg_onB2BEvent (e : b2b_event leg_event) (s : st) : st * option unit :=
  match e with
  | EvReply r forward m sender => onB2BReply r forward m sender s
  | EvRequest req forward => onB2BEvent LE LH LV (EvRequest req (forward && sip_relay_only s)) s
  | EvTerminate => onB2BEvent LE LH LV EvTerminate s
  | EvApp (ConnectLeg body hdrs c f relayed) => onB2BConnect body hdrs c f relayed s
  | EvApp (ReconnectLeg rc) => onB2BReconnect rc s
  | EvApp (ReplaceLeg _ rc) => (onB2BReplace rc s, Some tt)
  | EvApp (ReplaceInProgress dst) => (onB2BReplaceInProgress dst s, Some tt)
  | EvApp (DisconnectLeg h p) => disconnect h p s
  | EvApp (ChangeRtpMode mode m) => (changeRtpMode_to mode m s, Some tt)
  | EvApp ResumeHeldLeg => resumeHeld s
  | EvApp ApplyPendingUpdates => applyPendingUpdate s
  | EvApp (CallLegTerminate h) =>
      let saved := cancel_hdrs (ext s) in
      (set_cancel saved (terminateLeg (set_cancel h s)), Some tt)
  end.

(** The event queue: the event is handled and deleted.  [onB2BReconnect] and [onB2BReplace]
    mark it as processed. *)
Definition process_event (e : b2b_event leg_event) (s : st) : st * option unit :=
  let '(s, r) := leg_onB2BEvent e s in
  (match e with
   | EvApp (ReconnectLeg rc) => media_ref (-1) (rc_media rc) s
   | EvApp (ChangeRtpMode _ m) => media_ref (-1) m s
   | _ => s
   end, r).

(** ** The begin and the end of a leg *)

Definition new_leg : leg := mk_leg Disconnected [] false sdp0 PreserveHoldStatus [] false [].

(** The A leg. *)
Definition new_caller (tag : list Z) (d : D) : st :=
  mk_b2b _ _ _ [] false true [] [] 0 0 0 [] mime_empty_body 0 false RTP_Direct None (fun _ => 0) 0 tag d [] new_leg.

(** A leg that is added to the leg [caller]. *)
Definition new_callee (tag : list Z) (d : D) (caller : st) : st :=
  mk_b2b _ _ _ (local_tag caller) false (negb (a_leg caller)) [] [] 0 0 0 [] mime_empty_body 0 false (rtp_relay_mode caller) None
    (fun _ => 0) 0 tag d [] new_leg.

(** [~CallLeg] and [~AmB2BSession] *)
Definition delete_leg (s : st) : st :=
  clearRtpReceiverRelay (on_leg (l_set_legs []) (fold_left (fun s o => release o s) (legs s) s)).

End CallLeg.
