(* ===== verification/CallLegRefs.v ===== *)
(** * References to media sessions

    Legs hold references to [AmB2BMedia] objects in their media session and in the entries of
    their other legs, and events carry references from leg to leg.  An object is deleted when
    its count falls to zero.  Here: no operation of a leg releases a reference that it does not
    hold, so that in a system of legs no object is deleted while a leg or an event refers to
    it. *)

From Stdlib Require Import ZArith Lia Ascii String.
From stdpp Require Import base list.
From S2P Require Import Prelude SipMsg MimeBody ParseCommon Sdp CallLegHelpers B2BSession CallLeg.

Local Open Scope Z_scope.
Local Open Scope bool_scope.

Definition ind (m : option media_id) (i : media_id) : Z := if bool_decide (m = Some i) then 1 else 0.

Fixpoint legs_held (l : list other_leg) (i : media_id) : Z :=
  match l with [] => 0 | o :: l => ind (ol_media o) i + legs_held l i end.

Definition carried (e : b2b_event leg_event) (i : media_id) : Z :=
  match e with
  | EvApp (ReconnectLeg rc) | EvApp (ReplaceLeg _ rc) => ind (rc_media rc) i
  | EvApp (ChangeRtpMode _ m) => ind m i
  | _ => 0
  end.

Fixpoint carried_all (q : list (list Z * b2b_event leg_event)) (i : media_id) : Z :=
  match q with [] => 0 | x :: q => carried (snd x) i + carried_all q i end.

Lemma ind_range m i : 0 <= ind m i <= 1.
Proof. unfold ind. case_bool_decide; lia. Qed.

Lemma ind_none i : ind None i = 0.
Proof. done. Qed.

Lemma ind_zero m : (forall i, ind m i = 0) -> m = None.
Proof. destruct m as [m|]; [|done]. intros H. specialize (H m). unfold ind in H. by rewrite bool_decide_true in H. Qed.

Lemma legs_held_app l k i : legs_held (l ++ k) i = legs_held l i + legs_held k i.
Proof. induction l as [|o l IH]; cbn; [done|]. rewrite IH. lia. Qed.

Lemma legs_held_nonneg l i : 0 <= legs_held l i.
Proof. induction l as [|o l IH]; cbn; [done|]. pose proof (ind_range (ol_media o) i). lia. Qed.

Lemma carried_all_app q k i : carried_all (q ++ k) i = carried_all q i + carried_all k i.
Proof. induction q as [|o q IH]; cbn; [done|]. rewrite IH. lia. Qed.

Lemma carried_nonneg e i : 0 <= carried e i.
Proof. destruct e as [| | |[]]; cbn; try lia; apply ind_range. Qed.

Section Balance.
Context {D : Type} {LD : LegDialog D}.
Implicit Types s t : b2b D leg leg_event.

(** What a leg holds, and what it has counted beyond what it holds and has sent away. *)
Definition held s (i : media_id) : Z := ind (media_session s) i + legs_held (other_legs (ext s)) i.
Definition balance s (i : media_id) : Z := media_refs s i - held s i - carried_all (out s) i.

(** From [s] to [t] no reference too much was released, and the queue of updates is the same. *)
Record mono s t : Prop := {
  mono_bal : forall i, balance s i <= balance t i;
  mono_upd : pending_updates (ext t) = pending_updates (ext s);
  mono_tag : local_tag t = local_tag s
}.

Lemma mono_refl s : mono s s.
Proof. split; [|done|done]. intros i. lia. Qed.

Lemma mono_trans s t u : mono s t -> mono t u -> mono s u.
Proof. intros [H1 H2 H3] [H4 H5 H6]. split; [|congruence|congruence]. intros i. specialize (H1 i). specialize (H4 i). lia. Qed.

(** Changes of fields that have nothing to do with references. *)
Lemma mono_same s t u :
  mono s t -> media_refs u = media_refs t -> media_session u = media_session t -> out u = out t ->
  other_legs (ext u) = other_legs (ext t) -> pending_updates (ext u) = pending_updates (ext t) -> local_tag u = local_tag t -> mono s u.
Proof.
  intros H E1 E2 E3 E4 E5 E6. eapply mono_trans; [exact H|]. split; [|done|done].
  intros i. unfold balance, held. rewrite E1, E2, E3, E4. lia.
Qed.

Lemma balance_ref d m s i : balance (media_ref d m s) i = balance s i + d * ind m i.
Proof.
  unfold balance, held. destruct m as [m|]; [|cbn [media_ref]; rewrite ind_none; lia].
  cbn [media_ref set_refs media_refs media_session ext out].
  assert (Hi : ind (Some m) i = if bool_decide (i = m) then 1 else 0) by (unfold ind; repeat case_bool_decide; congruence).
  rewrite Hi. case_bool_decide; lia.
Qed.

Lemma balance_media m s i : balance (set_media m s) i = balance s i + ind (media_session s) i - ind m i.
Proof. unfold balance, held. cbn. lia. Qed.

Lemma balance_legs l s i :
  balance (on_leg (l_set_legs l) s) i = balance s i + legs_held (other_legs (ext s)) i - legs_held l i.
Proof. unfold balance, held. cbn. lia. Qed.

Lemma balance_post to e s i : balance (post to e s) i = balance s i - carried e i.
Proof. unfold balance, held. cbn. rewrite carried_all_app. cbn. lia. Qed.

Lemma media_ref_fields d m s :
  pending_updates (ext (media_ref d m s)) = pending_updates (ext s) /\ local_tag (media_ref d m s) = local_tag s /\
  other_legs (ext (media_ref d m s)) = other_legs (ext s) /\ media_session (media_ref d m s) = media_session s /\
  other_id (media_ref d m s) = other_id s.
Proof. by destruct m. Qed.

(** ** Fields that hold no references *)

Lemma mono_field s t u :
  media_refs u = media_refs t -> media_session u = media_session t -> out u = out t ->
  other_legs (ext u) = other_legs (ext t) -> pending_updates (ext u) = pending_updates (ext t) -> local_tag u = local_tag t ->
  mono s t -> mono s u.
Proof. intros. by apply (mono_same s t u). Qed.

Lemma mono_set_other s t v : mono s t -> mono s (set_other v t). Proof. by apply mono_field. Qed.
Lemma mono_set_relayed s t v : mono s t -> mono s (set_relayed v t). Proof. by apply mono_field. Qed.
Lemma mono_set_recvd s t v : mono s t -> mono s (set_recvd v t). Proof. by apply mono_field. Qed.
Lemma mono_set_est s t c o : mono s t -> mono s (set_est c o t). Proof. by apply mono_field. Qed.
Lemma mono_set_refer s t v : mono s t -> mono s (set_refer_map v t). Proof. by apply mono_field. Qed.
Lemma mono_set_established s t b h : mono s t -> mono s (set_established b h t). Proof. by apply mono_field. Qed.
Lemma mono_setStopped s t : mono s t -> mono s (setStopped t). Proof. by apply mono_field. Qed.
Lemma mono_set_relay_only s t v : mono s t -> mono s (set_relay_only v t). Proof. by apply mono_field. Qed.
Lemma mono_set_a_leg s t v : mono s t -> mono s (set_a_leg v t). Proof. by apply mono_field. Qed.
Lemma mono_set_max_forwards s t v : mono s t -> mono s (set_max_forwards v t). Proof. by apply mono_field. Qed.
Lemma mono_setRtpRelayMode s t v : mono s t -> mono s (setRtpRelayMode v t). Proof. by apply mono_field. Qed.
Lemma mono_set_new_medias s t v : mono s t -> mono s (set_new_medias v t). Proof. by apply mono_field. Qed.
Lemma mono_set_bdlg s t v : mono s t -> mono s (set_bdlg v t). Proof. by apply mono_field. Qed.
Lemma mono_status s t c : mono s t -> mono s (updateCallStatus c t). Proof. by apply mono_field. Qed.
Lemma mono_on_hold s t v : mono s t -> mono s (on_leg (l_set_on_hold v) t). Proof. by apply mono_field. Qed.
Lemma mono_hold s t v : mono s t -> mono s (on_leg (l_set_hold v) t). Proof. by apply mono_field. Qed.
Lemma mono_non_hold s t v : mono s t -> mono s (on_leg (l_set_sdp v) t). Proof. by apply mono_field. Qed.
Lemma mono_timer s t v : mono s t -> mono s (on_leg (l_set_timer v) t). Proof. by apply mono_field. Qed.
Lemma mono_cancel s t v : mono s t -> mono s (set_cancel v t). Proof. by apply mono_field. Qed.

(** ** References taken and released *)

Lemma mono_clear s t : mono s t -> mono s (clearRtpReceiverRelay t).
Proof.
  intros Hs. eapply mono_trans; [exact Hs|]. unfold clearRtpReceiverRelay.
  destruct (media_ref_fields (-1) (media_session t) t) as (E1 & E2 & _ & E4 & _).
  case_match; [apply mono_refl| |]; (split; [|exact E1|exact E2]); intros i; rewrite balance_media, balance_ref, E4, ind_none; lia.
Qed.

(** The old media session is not released. *)
Lemma mono_setMedia s t m : mono s t -> mono s (setMediaSession m t).
Proof.
  intros Hs. eapply mono_trans; [exact Hs|]. unfold setMediaSession.
  destruct (media_ref_fields 1 m (set_media m t)) as (E1 & E2 & _). split; [|by rewrite E1|by rewrite E2].
  intros i. rewrite balance_ref, balance_media. pose proof (ind_range (media_session t) i). lia.
Qed.

Lemma take_leg_held id l o k : take_leg id l = Some (o, k) -> forall i, legs_held l i = ind (ol_media o) i + legs_held k i.
Proof.
  revert o k. induction l as [|x l IH]; intros o k; cbn [take_leg]; [done|]. case_bool_decide.
  - intros [= -> ->] i. done.
  - destruct (take_leg id l) as [[y k']|]; [|done]. intros [= -> <-] i. cbn [legs_held]. rewrite (IH _ _ eq_refl i). lia.
Qed.

Lemma mono_drop s t id : mono s t -> mono s (drop_leg id t).
Proof.
  intros Hs. eapply mono_trans; [exact Hs|]. unfold drop_leg, release.
  destruct (take_leg id _) as [[o k]|] eqn:Ht; [|apply mono_refl].
  destruct (media_ref_fields (-1) (ol_media o) t) as (E1 & E2 & E3 & _). split; [|exact E1|exact E2].
  intros i. rewrite balance_legs, balance_ref, E3, (take_leg_held _ _ _ _ Ht i). lia.
Qed.

End Balance.

(** Applies the rules backwards until nothing is left of the code. *)
Ltac mono_rule := first
  [ simple apply mono_set_other | simple apply mono_set_relayed | simple apply mono_set_recvd | simple apply mono_set_est | simple apply mono_set_refer
  | simple apply mono_set_established | simple apply mono_setStopped | simple apply mono_set_relay_only | simple apply mono_set_a_leg | simple apply mono_set_max_forwards
  | simple apply mono_setRtpRelayMode | simple apply mono_set_new_medias | simple apply mono_set_bdlg | simple apply mono_status | simple apply mono_on_hold | simple apply mono_hold
  | simple apply mono_non_hold | simple apply mono_timer | simple apply mono_cancel | simple apply mono_clear | simple apply mono_setMedia | simple apply mono_drop ].

Ltac mono_more := fail.

Ltac mono_step :=
  match goal with
  | |- mono ?s ?s => apply mono_refl
  | H : mono ?s ?t |- mono ?s ?t => exact H
  | |- mono ?s (match ?p with _ => _ end) => mono_case s p
  | |- mono ?s (fst (match ?p with _ => _ end)) => mono_case s p
  | |- mono _ (fst (_, _)) => cbn [fst]
  | |- _ => first [mono_rule | mono_more]
  end
with mono_case s p :=
  match p with
  | match ?q with _ => _ end => mono_case s q
  | _ =>
    match type of p with
    | prod _ _ => first [ let H := fresh "Hm" in assert (H : mono s (fst p)) by (solve [repeat mono_step]); destruct p; cbn [fst] in H
                        | destruct p eqn:? ]
    | _ => destruct p eqn:?
    end
  end.

Ltac mono := repeat mono_step.

(** ** The operations *)

Section Ops.
Context {D : Type} {LD : LegDialog D} (P : @leg_env D).
Implicit Types s t : b2b D leg leg_event.

Local Notation "'LE'" := (LE P).
Local Notation "'LH'" := (LH P).
Local Notation "'LV'" := (LV P).

Hypothesis refused_mono : forall r t, mono t (onBLegRefused P r t).

Lemma mono_refused s t r : mono s t -> mono s (onBLegRefused P r t).
Proof. intros H. eapply mono_trans; [exact H|apply refused_mono]. Qed.

(** An event that carries nothing. *)
Lemma mono_post s t to e : (forall i, carried e i = 0) -> mono s t -> mono s (post to e t).
Proof.
  intros He H. eapply mono_trans; [exact H|]. split; [|done|done]. intros i. rewrite balance_post, He. lia.
Qed.

Lemma mono_post_terminate s t to : mono s t -> mono s (post_terminate P to t).
Proof. intros H. unfold post_terminate. case_match; [by apply mono_post|done]. Qed.

(** What is posted or deleted with an event that carries references is what it carries. *)
Lemma post_balance to y t :
  (forall i, balance t i - carried (EvApp y) i <= balance (fst (postEvent LE to (EvApp y) t)) i) /\
  pending_updates (ext (fst (postEvent LE to (EvApp y) t))) = pending_updates (ext t) /\
  local_tag (fst (postEvent LE to (EvApp y) t)) = local_tag t.
Proof.
  assert (Hm : forall m u, u = media_ref (-1) m t -> (forall i, balance u i = balance t i - ind m i) /\
    pending_updates (ext u) = pending_updates (ext t) /\ local_tag u = local_tag t).
  { intros m u ->. destruct (media_ref_fields (-1) m t) as (E1 & E2 & _). split; [|done]. intros i. rewrite balance_ref. lia. }
  assert (Ht : forall x u, mono u (post_terminate P x u)) by (intros; apply mono_post_terminate, mono_refl).
  unfold postEvent. destruct (alive LE to); cbn [fst].
  { split; [|done]. intros i. rewrite balance_post. lia. }
  cbn [delete_event CallLeg.LE]. destruct y as [| rc | sender rc | | | mode m | | |]; cbn [delete_leg_event carried];
    try (split; [intros i; lia|done]); unfold delete_reconnect.
  - destruct (Hm (rc_media rc) _ eq_refl) as (H1 & H2 & H3). destruct (Ht (rc_tag rc) (media_ref (-1) (rc_media rc) t)) as [B U T].
    split; [|split; congruence]. intros i. specialize (B i). rewrite H1 in B. lia.
  - destruct (Hm (rc_media rc) _ eq_refl) as (H1 & H2 & H3). destruct (Ht (rc_tag rc) (media_ref (-1) (rc_media rc) t)) as [B U T].
    destruct (Ht sender (post_terminate P (rc_tag rc) (media_ref (-1) (rc_media rc) t))) as [B' U' T'].
    split; [|split; congruence]. intros i. specialize (B i). specialize (B' i). rewrite H1 in B. lia.
  - destruct (Hm m _ eq_refl) as (H1 & H2 & H3). split; [|done]. intros i. rewrite H1. lia.
Qed.

Lemma mono_postEvent s t to e : (forall i, carried e i = 0) -> mono s t -> mono s (fst (postEvent LE to e t)).
Proof.
  intros He H. eapply mono_trans; [exact H|]. destruct e as [q f|r f m g| |y].
  1-3: unfold postEvent; case_match; [apply mono_post; [done|apply mono_refl]|apply mono_refl].
  destruct (post_balance to y t) as (B & U & T). split; [|done|done]. intros i. specialize (B i). rewrite He in B. lia.
Qed.

Lemma mono_relayEvent s t e : (forall i, carried e i = 0) -> mono s t -> mono s (fst (b_relayEvent LE e t)).
Proof.
  intros He H. unfold b_relayEvent. case_match.
  - cbn [fst]. destruct e as [| | |y]; try exact H. cbn [delete_event CallLeg.LE].
    destruct y as [| rc | sender rc | | | mode m | | |]; try exact H; cbn [carried] in He; cbn [delete_leg_event]; unfold delete_reconnect.
    + apply ind_zero in He as ->. by apply mono_post_terminate.
    + apply ind_zero in He as ->. by do 2 apply mono_post_terminate.
    + by apply ind_zero in He as ->.
  - pose proof (mono_postEvent s t (other_id t) e He H) as Hp. destruct (postEvent _ _ _ t). exact Hp.
Qed.

Ltac mono_more ::= first [ simple apply mono_refused | simple apply mono_post_terminate | simple apply mono_postEvent; [done|] | simple apply mono_relayEvent; [done|] ].

Lemma mono_offerRejected s t : mono s t -> mono s (offerRejected t).
Proof. intros H. unfold offerRejected, holdRejected. mono. Qed.

Lemma mono_completed s t : mono s t -> mono s (leg_onSdpCompleted t).
Proof. intros H. unfold leg_onSdpCompleted, holdAccepted, resumeAccepted. mono. Qed.

Lemma mono_transFinished s t : mono s t -> mono s (leg_onTransFinished P t).
Proof. intros H. unfold leg_onTransFinished. mono. Qed.

Lemma mono_updateLocalSdp s t d : mono s t -> mono s (fst (updateLocalSdp P d t)).
Proof. intros H. unfold updateLocalSdp, adjustOffer. mono. Qed.

Lemma mono_updateLocalBody s t b : mono s t -> mono s (fst (updateLocalBody P b t)).
Proof.
  intros H. unfold updateLocalBody. mono.
  all: match goal with E : updateLocalSdp P ?d ?t = _ |- _ => pose proof (mono_updateLocalSdp s t d H) as Hm; rewrite E in Hm; exact Hm end.
Qed.

Lemma mono_upd_dlg s t d : mono s t -> mono s (upd_dlg LH d t).
Proof.
  intros H. unfold upd_dlg. induction (_ - _)%nat as [|n IH]; [exact (mono_set_bdlg _ _ _ H)|]. exact (mono_completed _ _ IH).
Qed.

Lemma mono_dlg_reply s t q c r b h n : mono s t -> mono s (fst (dlg_reply LH q c r b h n t)).
Proof.
  intros H. unfold dlg_reply, onReplySent. destruct (dg_reply _ _ _ _ _ _ _) as [d err]. cbn [fst]. apply (mono_upd_dlg _ _ d) in H.
  repeat case_match; cbn [h_onTransFinished CallLeg.LH]; try apply mono_transFinished; mono.
Qed.

Lemma mono_dlg_ack s t c b h : mono s t -> mono s (fst (dlg_ack LH c b h t)).
Proof.
  intros H. unfold dlg_ack. destruct (dg_ack _ _ _ _) as [d err]. cbn [fst]. apply (mono_upd_dlg _ _ d) in H.
  case_match; [done|]. by apply mono_transFinished.
Qed.

Lemma mono_dlg_bye s t h : mono s t -> mono s (dlg_bye LH h t).
Proof.
  intros H. unfold dlg_bye. destruct (dg_bye _ _) as [d [c|]]; apply (mono_upd_dlg _ _ d) in H; [|done].
  cbn [h_onTransFinished CallLeg.LH]. apply mono_transFinished. mono.
Qed.

Ltac mono_more ::= first
  [ simple apply mono_refused | simple apply mono_post_terminate | simple apply mono_postEvent; [done|] | simple apply mono_relayEvent; [done|] | simple apply mono_offerRejected
  | simple apply mono_completed | simple apply mono_transFinished | simple apply mono_updateLocalSdp | simple apply mono_updateLocalBody | simple apply mono_upd_dlg
  | simple apply mono_dlg_reply | simple apply mono_dlg_ack | simple apply mono_dlg_bye ].

Lemma mono_save s t b : mono s t -> mono s (saveSessionDescription LE b t).
Proof. intros H. unfold saveSessionDescription. mono. Qed.

Lemma mono_update_sdp s t b : mono s t -> mono s (fst (updateSessionDescription LE b t)).
Proof. intros H. unfold updateSessionDescription. mono. Qed.

Lemma mono_reinvite_est s t : mono s t -> mono s (fst (sendEstablishedReInvite LH t)).
Proof.
  intros H. unfold sendEstablishedReInvite. cbn [h_updateLocalBody CallLeg.LH]. mono.
Qed.

(** *** Other legs *)

(** The entries are released one by one and told to end; [kept] is the last one that stays. *)
Lemma terminate_legs_balance l kept t kept' t' :
  terminate_legs P l kept t = (kept', t') ->
  (forall i, balance t i - legs_held l i + match kept' with Some o => ind (ol_media o) i | None => 0 end <=
    balance t' i + match kept with Some o => ind (ol_media o) i | None => 0 end) /\
  pending_updates (ext t') = pending_updates (ext t) /\ local_tag t' = local_tag t /\ other_legs (ext t') = other_legs (ext t).
Proof.
  revert kept t. induction l as [|o l IH]; intros kept t; cbn [terminate_legs legs_held].
  - intros [= -> ->]. split; [intros i; lia|done].
  - case_bool_decide.
    + intros Ht. apply IH in Ht as (B & R). split; [|done]. intros i. specialize (B i).
      destruct kept as [k|]; [pose proof (ind_range (ol_media k) i)|]; lia.
    + intros Ht. apply IH in Ht as (B & U & T & L). unfold release in *.
      destruct (media_ref_fields (-1) (ol_media o) t) as (E1 & E2 & E3 & _).
      set (u := media_ref (-1) (ol_media o) t) in *.
      assert (Hu : mono u (fst (postEvent LE (ol_id o) (terminate_event u) u))).
      { apply mono_postEvent; [|apply mono_refl]. intros i. unfold terminate_event. by destruct (cancel_hdrs _). }
      assert (Hl : other_legs (ext (fst (postEvent LE (ol_id o) (terminate_event u) u))) = other_legs (ext u)).
      { unfold postEvent, terminate_event. destruct (cancel_hdrs _); by destruct (alive LE _). }
      destruct Hu as [B2 U2 T2]. split; [|split; [congruence|split; congruence]].
      intros i. specialize (B i). specialize (B2 i). unfold u at 1 in B2. rewrite balance_ref in B2. lia.
Qed.

Lemma mono_terminate_legs s t : mono s t -> mono s (terminateNotConnectedLegs P t).
Proof.
  intros H. eapply mono_trans; [exact H|]. unfold terminateNotConnectedLegs.
  destruct (terminate_legs _ _ _ _) as [kept t'] eqn:Ht. apply terminate_legs_balance in Ht as (B & U & T & L).
  split; [|done|done]. intros i. rewrite balance_legs, L. specialize (B i). destruct kept; cbn [legs_held]; lia.
Qed.

Lemma mono_removeOtherLeg s t id : mono s t -> mono s (removeOtherLeg id t).
Proof. intros H. unfold removeOtherLeg. mono. Qed.

Lemma mono_clear_other s t : mono s t -> mono s (clear_other t).
Proof. intros H. unfold clear_other. mono. Qed.

Ltac mono_more ::= first
  [ simple apply mono_refused | simple apply mono_post_terminate | simple apply mono_postEvent; [done|] | simple apply mono_relayEvent; [done|] | simple apply mono_offerRejected
  | simple apply mono_completed | simple apply mono_transFinished | simple apply mono_updateLocalSdp | simple apply mono_updateLocalBody | simple apply mono_upd_dlg
  | simple apply mono_dlg_reply | simple apply mono_dlg_ack | simple apply mono_dlg_bye | simple apply mono_save | simple apply mono_update_sdp | simple apply mono_reinvite_est
  | simple apply mono_terminate_legs | simple apply mono_removeOtherLeg | simple apply mono_clear_other ].

Lemma mono_terminateLeg s t : mono s t -> mono s (terminateLeg P t).
Proof. intros H. unfold terminateLeg, b_terminateLeg. mono. Qed.

Lemma mono_terminateOtherLeg s t : mono s t -> mono s (terminateOtherLeg P t).
Proof. intros H. unfold terminateOtherLeg, b_terminateOtherLeg. cbn [h_relayEvent CallLeg.LH]. mono. Qed.

Lemma mono_stopCall s t : mono s t -> mono s (stopCall P t).
Proof. intros H. unfold stopCall. apply mono_terminateLeg, mono_terminateOtherLeg. mono. Qed.

Lemma mono_relayError s t m c f code r : mono s t -> mono s (relayError LH m c f code r t).
Proof. intros H. unfold relayError. cbn [h_relayEvent CallLeg.LH]. mono. Qed.

Lemma mono_relayErr s t m c f e : mono s t -> mono s (relayErr LH m c f e t).
Proof. apply mono_relayError. Qed.

Lemma mono_local_body s t m b : mono s t -> mono s (fst (local_body LH m b t)).
Proof. intros H. unfold local_body. cbn [h_updateLocalBody CallLeg.LH]. mono. Qed.

Lemma mono_relaySip_reply s t q r : mono s t -> mono s (fst (relaySip_reply LE LH q r t)).
Proof.
  intros H. unfold relaySip_reply, save_body. apply (mono_local_body _ _ (q_method q) (r_body r)) in H. mono.
Qed.

Lemma mono_relaySip_request s t q : mono s t -> mono s (fst (relaySip_request LE LH q t)).
Proof.
  intros H. unfold relaySip_request, save_body. apply (mono_local_body _ _ (q_method q) (q_body q)) in H. mono.
Qed.

Ltac mono_ops := first
  [ simple apply mono_refused | simple apply mono_post_terminate | simple apply mono_postEvent; [done|] | simple apply mono_relayEvent; [done|] | simple apply mono_offerRejected
  | simple apply mono_completed | simple apply mono_transFinished | simple apply mono_updateLocalSdp | simple apply mono_updateLocalBody | simple apply mono_upd_dlg
  | simple apply mono_dlg_reply | simple apply mono_dlg_ack | simple apply mono_dlg_bye | simple apply mono_save | simple apply mono_update_sdp | simple apply mono_reinvite_est
  | simple apply mono_terminate_legs | simple apply mono_removeOtherLeg | simple apply mono_clear_other | simple apply mono_terminateLeg | simple apply mono_terminateOtherLeg
  | simple apply mono_stopCall | simple apply mono_relayError | simple apply mono_relayErr | simple apply mono_relaySip_reply | simple apply mono_relaySip_request ].

Ltac mono_more ::= mono_ops.

(** *** Replies of the other legs *)

Lemma mono_relaySipReply s t r : mono s t -> mono s (fst (relaySipReply P r t)).
Proof. intros H. unfold relaySipReply. mono. Qed.

Lemma mono_setOther s t id f : mono s t -> mono s (fst (setOther id f t)).
Proof. intros H. unfold setOther. mono. Qed.

Ltac mono_more ::= first [ mono_ops | simple apply mono_relaySipReply | simple apply mono_setOther ].

Lemma mono_relay_or_stop s t r : mono s t -> mono s (fst (relay_or_stop P r t)).
Proof. intros H. unfold relay_or_stop. mono. Qed.

Lemma mono_forget s t : mono s t -> mono s (forget_legs t).
Proof.
  intros H. eapply mono_trans; [exact H|]. unfold forget_legs, release. destruct (other_legs (ext t)) as [|o l] eqn:El.
  - split; [|done|done]. intros i. rewrite balance_legs, El. cbn. lia.
  - destruct (media_ref_fields (-1) (ol_media o) t) as (E1 & E2 & E3 & _). split; [|exact E1|exact E2].
    intros i. rewrite balance_legs, balance_ref, E3, El. cbn [legs_held]. pose proof (legs_held_nonneg l i). lia.
Qed.

Lemma mono_1xx s t r f : mono s t -> mono s (fst (b2bInitial1xx P r f t)).
Proof.
  intros H. unfold b2bInitial1xx. mono. all: by apply mono_relay_or_stop; mono.
Qed.

Lemma mono_2xx s t r f : mono s t -> mono s (fst (b2bInitial2xx P r f t)).
Proof.
  intros H. unfold b2bInitial2xx. pose proof (mono_setOther _ _ (r_from_tag r) f H). destruct (setOther _ _ _) as [u set]. cbn [fst] in *.
  assert (Hf : mono s (forget_legs (terminateNotConnectedLegs P u))) by (apply mono_forget; mono). mono.
Qed.

Lemma mono_err s t r f : mono s t -> mono s (fst (b2bInitialErr P r f t)).
Proof. intros H. unfold b2bInitialErr. mono. Qed.

Lemma mono_initial s t r f : mono s t -> mono s (fst (onInitialReply P r f t)).
Proof. intros H. unfold onInitialReply. repeat case_match; [by apply mono_1xx|by apply mono_2xx|by apply mono_err]. Qed.

(** *** Changes of the session *)

Lemma mono_send_hold s t b : mono s t -> mono s (fst (send_hold P b t)).
Proof. intros H. unfold send_hold. mono. Qed.

Lemma mono_reinvite s t h b f c e : mono s t -> mono s (fst (reinvite P h b f c e t)).
Proof. intros H. unfold reinvite. mono. Qed.

Lemma mono_apply_update s t u : mono s t -> mono s (fst (apply_update P u t)).
Proof.
  intros H. destruct u as [| |h b e f c]; cbn [apply_update].
  - unfold putOnHoldImpl. mono. match goal with E : send_hold P ?b ?x = _, Hx : mono s ?x |- _ => apply (mono_send_hold _ _ b) in Hx; by rewrite E in Hx end.
  - assert (Hr : mono s (fst (resumeHeldImpl P t))); [|by destruct (resumeHeldImpl P t)].
    unfold resumeHeldImpl. mono. by apply mono_send_hold.
  - pose proof (mono_reinvite _ _ h b f c e H) as Hr. by destruct (reinvite _ _ _ _ _ _ _).
Qed.

(** *** Media sessions *)

Lemma leg_media_spec mode t t' m :
  leg_media mode t = (t', m) ->
  (forall i, balance t' i = balance t i + ind m i) /\ pending_updates (ext t') = pending_updates (ext t) /\
  local_tag t' = local_tag t /\ other_legs (ext t') = other_legs (ext t) /\ (mode = RTP_Direct <-> m = None).
Proof.
  unfold leg_media, new_media. destruct mode; intros [<- <-]%pair_equal_spec.
  - split; [intros i; rewrite ind_none; lia|]. split_and!; done.
  - split; [|split_and!; done]. intros i. rewrite balance_ref. change (balance (set_new_medias _ t) i) with (balance t i). lia.
  - split; [|split_and!; done]. intros i. rewrite balance_ref. change (balance (set_new_medias _ t) i) with (balance t i). lia.
Qed.

Lemma mono_change_legs s mode l dn t : other_legs (ext t) = dn ++ l -> mono s t -> mono s (change_legs P mode l dn t).
Proof.
  revert dn t. induction l as [|o l IH]; intros dn t El H; cbn [change_legs]; [done|].
  destruct (media_ref_fields (-1) (ol_media o) t) as (E1 & E2 & E3 & _).
  destruct (leg_media mode (release o t)) as [u m] eqn:Hu. apply leg_media_spec in Hu as (B & U & T & L & _). unfold release in *.
  set (v := match m with Some _ => _ | None => u end).
  assert (Hv : mono u v) by (unfold v; mono).
  assert (Lv : other_legs (ext v) = other_legs (ext u)).
  { unfold v. destruct m; [|done]. case_match; [|done]. unfold setMediaSession. by destruct (media_ref_fields 1 (Some m) (set_media (Some m) u)) as (_ & _ & -> & _). }
  set (w := on_leg (l_set_legs (dn ++ mk_ol (ol_id o) m :: l)) v).
  destruct (media_ref_fields 1 m w) as (F1 & F2 & F3 & _).
  destruct (post_balance (ol_id o) (ChangeRtpMode mode m) (media_ref 1 m w)) as (B2 & U2 & T2).
  assert (L2 : other_legs (ext (fst (postEvent LE (ol_id o) (EvApp (ChangeRtpMode mode m)) (media_ref 1 m w)))) = other_legs (ext w)).
  { unfold postEvent. case_match; [exact F3|]. cbn [delete_event CallLeg.LE delete_leg_event].
    cbn [fst]. by destruct (media_ref_fields (-1) m (media_ref 1 m w)) as (_ & _ & -> & _). }
  apply IH; [rewrite <- app_assoc; exact L2|].
  eapply mono_trans; [exact H|]. destruct Hv as [Bv Uv Tv].
  change (pending_updates (ext w)) with (pending_updates (ext v)) in *. change (local_tag w) with (local_tag v) in *.
  split; [|cbn [ol_id]; congruence|cbn [ol_id]; congruence].
  intros i. specialize (B i). specialize (Bv i). specialize (B2 i). rewrite balance_ref in B, B2. cbn [carried] in B2.
  assert (Bw : balance w i = balance v i + ind (ol_media o) i - ind m i).
  { unfold w. rewrite balance_legs, Lv, L, E3, El, !legs_held_app. cbn [legs_held ol_media]. lia. }
  cbn [ol_id]. lia.
Qed.

Lemma mono_changeOther s t mode : mono s t -> mono s (changeOtherLegsRtpMode P mode t).
Proof. by apply mono_change_legs. Qed.

Lemma mono_relay_mode s t mode : mono s t -> mono s (relay_mode_change P mode t).
Proof.
  intros H. eapply mono_trans; [exact H|]. unfold relay_mode_change, b_relayEvent. case_bool_decide; [apply mono_refl|].
  set (m := media_session t). destruct (media_ref_fields 1 m t) as (E1 & E2 & _ & _ & E5). rewrite E5.
  rewrite (bool_decide_false (other_id t = [])) by done.
  destruct (post_balance (other_id t) (ChangeRtpMode mode m) (media_ref 1 m t)) as (B & U & T).
  destruct (postEvent _ _ _ _) as [u posted]. cbn [fst] in *. split; [|congruence|congruence].
  intros i. specialize (B i). rewrite balance_ref in B. cbn [carried] in B. lia.
Qed.

Ltac mono_more ::= first
  [ mono_ops | simple apply mono_relaySipReply | simple apply mono_setOther | simple apply mono_relay_mode | simple apply mono_changeOther ].

Lemma mono_changeRtpMode s t mode : mono s t -> mono s (changeRtpMode P mode t).
Proof. intros H. unfold changeRtpMode, new_media. mono. Qed.

Lemma mono_changeRtpMode_to s t mode m : mono s t -> mono s (changeRtpMode_to P mode m t).
Proof. intros H. unfold changeRtpMode_to. mono. Qed.

(** *** Adding and replacing legs *)

Lemma push_leg_spec o t :
  (forall i, balance (push_leg o t) i = balance t i - ind (ol_media o) i) /\
  pending_updates (ext (push_leg o t)) = pending_updates (ext t) /\ local_tag (push_leg o t) = local_tag t.
Proof.
  assert (Hb : forall i, balance (on_leg (fun l => l_set_legs (other_legs l ++ [o]) l) t) i = balance t i - ind (ol_media o) i).
  { intros i. unfold balance, held. cbn. rewrite legs_held_app. cbn. lia. }
  unfold push_leg. case_match; (split; [exact Hb|done]).
Qed.

Lemma mono_add_by_event s t to id ev :
  (forall m i, carried (EvApp (ev m)) i = ind m i) -> mono s t -> mono s (add_by_event P to id ev t).
Proof.
  intros Hev H. eapply mono_trans; [exact H|]. unfold add_by_event.
  destruct (leg_media _ t) as [u m] eqn:Hu. apply leg_media_spec in Hu as (B & U & T & _).
  destruct (media_ref_fields 1 m u) as (E1 & E2 & _).
  destruct (post_balance to (ev m) (media_ref 1 m u)) as (B2 & U2 & T2). destruct (postEvent _ _ _ _) as [v posted]. cbn [fst] in *.
  assert (Bv : forall i, balance t i + ind m i <= balance v i).
  { intros i. specialize (B i). specialize (B2 i). rewrite balance_ref, Hev in B2. lia. }
  destruct posted.
  - destruct (push_leg_spec (mk_ol id m) v) as (B3 & U3 & T3). split; [|congruence|congruence].
    intros i. specialize (Bv i). rewrite B3. cbn [ol_media]. lia.
  - destruct (media_ref_fields (-1) m v) as (F1 & F2 & _). split; [|congruence|congruence].
    intros i. specialize (Bv i). rewrite balance_ref. lia.
Qed.

Lemma mono_addExisting s t tag rc : mono s t -> mono s (addExistingCallee P tag rc t).
Proof. by apply mono_add_by_event. Qed.

Lemma mono_replaceExisting s t tag rc : mono s t -> mono s (replaceExistingLeg P tag rc t).
Proof. by apply mono_add_by_event. Qed.

(** The caller and the new leg. *)
Lemma mono_addNewCallee s t callee e mode :
  (forall i, carried (EvApp e) i = 0) -> mono s t ->
  mono s (fst (addNewCallee P callee e mode t)) /\ mono callee (snd (addNewCallee P callee e mode t)).
Proof.
  intros He H. unfold addNewCallee. destruct (leg_media mode t) as [u m] eqn:Hu. apply leg_media_spec in Hu as (B & U & T & _).
  cbn [fst snd]. split; [|pose proof (mono_refl callee); mono].
  set (v := on_leg _ u).
  assert (Hv : mono t v).
  { split; [|exact U|exact T]. intros i. specialize (B i). unfold v, balance, held in *. cbn. rewrite legs_held_app. cbn. lia. }
  pose proof (mono_trans _ _ _ H Hv) as Hs. apply (mono_postEvent _ _ (local_tag callee) (EvApp e) He) in Hs. mono.
Qed.

Lemma mono_connect s t b h c f r : mono s t -> mono s (fst (onB2BConnect P b h c f r t)).
Proof. intros H. unfold onB2BConnect. mono. Qed.

Lemma mono_accept s t c b : mono s t -> mono s (acceptPendingInvite P c b t).
Proof. intros H. unfold acceptPendingInvite. mono. Qed.

(** The reference that a replacement carries is sent on, or lost with it. *)
Lemma replace_balance rc t :
  (forall i, balance t i - ind (rc_media rc) i <= balance (onB2BReplace P rc t) i) /\
  pending_updates (ext (onB2BReplace P rc t)) = pending_updates (ext t) /\ local_tag (onB2BReplace P rc t) = local_tag t.
Proof.
  unfold onB2BReplace. set (id := match other_id t, other_legs (ext t) with [], o :: _ => ol_id o | i, _ => i end).
  assert (Hstay : (forall i, balance t i - ind (rc_media rc) i <= balance t i) /\ pending_updates (ext t) = pending_updates (ext t) /\ local_tag t = local_tag t).
  { split; [|done]. intros i. pose proof (ind_range (rc_media rc) i). lia. }
  assert (Hgo : forall u, u = fst (postEvent LE id (EvApp (ReconnectLeg rc)) (fst (postEvent LE (rc_tag rc) (EvApp (ReplaceInProgress id)) t))) ->
    let v := removeOtherLeg id u in
    let w := match other_legs (ext v), other_id v with [], [] => stopCall P v | _, _ => v end in
    (forall i, balance t i - ind (rc_media rc) i <= balance w i) /\ pending_updates (ext w) = pending_updates (ext t) /\ local_tag w = local_tag t).
  { intros u -> v w. assert (H1 : mono t (fst (postEvent LE (rc_tag rc) (EvApp (ReplaceInProgress id)) t))) by (apply mono_postEvent; [done|apply mono_refl]).
    destruct H1 as [B1 U1 T1].
    destruct (post_balance id (ReconnectLeg rc) (fst (postEvent LE (rc_tag rc) (EvApp (ReplaceInProgress id)) t))) as (B2 & U2 & T2).
    set (u := fst (postEvent LE id _ _)) in *. assert (Hw : mono u w) by (unfold w, v; pose proof (mono_refl u); mono).
    destruct Hw as [B3 U3 T3]. split; [|split; congruence].
    intros i. specialize (B1 i). specialize (B2 i). specialize (B3 i). cbn [carried] in B2. lia. }
  destruct (other_id t), (other_legs (ext t)); first [exact Hstay | exact (Hgo _ eq_refl)].
Qed.

Lemma mono_name_leg s t dst : mono s t -> mono s (onB2BReplaceInProgress dst t).
Proof.
  intros H. eapply mono_trans; [exact H|]. split; [|done|done]. intros i. unfold balance, held. cbn.
  assert (legs_held (name_leg dst (other_legs (ext t))) i = legs_held (other_legs (ext t)) i) as ->; [|lia].
  induction (other_legs (ext t)) as [|o l IH]; [done|]. cbn [name_leg]. destruct (ol_id o); cbn; [done|]. by rewrite IH.
Qed.

Ltac mono_more ::= first
  [ mono_ops | simple apply mono_relaySipReply | simple apply mono_setOther | simple apply mono_relay_mode | simple apply mono_changeOther
  | simple apply mono_initial | simple apply mono_connect | simple apply mono_accept ].

(** *** Messages of the own side *)

Lemma mono_onBye s t q : mono s t -> mono s (onBye P q t).
Proof. intros H. unfold onBye. mono. Qed.

Lemma mono_onOtherBye s t q : mono s t -> mono s (fst (onOtherBye q t)).
Proof. intros H. unfold onOtherBye, b_onOtherBye. mono. Qed.

Lemma mono_onCancel s t q : mono s t -> mono s (onCancel P q t).
Proof. intros H. unfold onCancel. mono. Qed.

Lemma mono_session_request s t q : mono s t -> mono s (session_request P q t).
Proof.
  intros H. unfold session_request, onInvite.
  repeat (first [ simple apply mono_onBye | simple apply mono_onCancel | mono_step ]).
Qed.

Ltac mono_more ::= first
  [ mono_ops | simple apply mono_relaySipReply | simple apply mono_setOther | simple apply mono_relay_mode | simple apply mono_changeOther
  | simple apply mono_initial | simple apply mono_connect | simple apply mono_accept | simple apply mono_onBye | simple apply mono_onOtherBye
  | simple apply mono_onCancel | simple apply mono_session_request ].

Lemma mono_b_onSipRequest s t q : mono s t -> mono s (onSipRequest LE LH LV q t).
Proof.
  intros H. unfold onSipRequest. cbn [v_session_request v_onBye CallLeg.LV h_relayEvent CallLeg.LH].
  mono.
Qed.

Lemma mono_leg_onSipRequest s t q : mono s t -> mono s (leg_onSipRequest P q t).
Proof.
  intros H. unfold leg_onSipRequest.
  repeat (first [ simple apply mono_b_onSipRequest | mono_step ]).
Qed.

Lemma mono_b_onSipReply s t r : mono s t -> mono s (onSipReply LE LH LV r t).
Proof.
  intros H. unfold onSipReply, reply_done. cbn [v_session_reply CallLeg.LV h_relayEvent CallLeg.LH]. mono.
Qed.

Lemma mono_initial_status s t r : mono s t -> mono s (initial_status P r t).
Proof. intros H. unfold initial_status. mono. Qed.

Lemma mono_request s t q f : mono s t -> mono s (fst (b2b_request LE LH LV q f t)).
Proof. intros H. unfold b2b_request. cbn [v_onOtherBye CallLeg.LV]. mono. Qed.

Lemma mono_reply s t r f : mono s t -> mono s (fst (b2b_reply LE LH LV r f t)).
Proof. intros H. unfold b2b_reply. cbn [v_terminateLeg v_terminateOtherLeg CallLeg.LV]. mono. Qed.

Lemma mono_onB2BReply s t r f m g : mono s t -> mono s (fst (onB2BReply P r f m g t)).
Proof.
  intros H. unfold onB2BReply. cbn [onB2BEvent].
  repeat (first [ simple apply mono_reply | mono_step ]).
Qed.

Lemma mono_sess_end s t : mono s t -> mono s (sess_end LH t).
Proof. intros H. unfold sess_end. mono. Qed.

(** ** The queue of updates *)

(** Only the first update can be in progress. *)
Definition upd_ok t : Prop :=
  match pending_updates (ext t) with [] => True | _ :: us => Forall (fun u => request_cseq u = -1) us end.

(** A step that takes the references [k] of an event from the leg. *)
Record ok_step (k : media_id -> Z) s t : Prop := {
  ok_bal : forall i, balance s i - k i <= balance t i;
  ok_upd : upd_ok s -> upd_ok t;
  ok_tag : local_tag t = local_tag s
}.

Definition none : media_id -> Z := fun _ => 0.

Lemma mono_ok s t : mono s t -> ok_step none s t.
Proof. intros [B U T]. split; [|by unfold upd_ok; rewrite U|done]. intros i. specialize (B i). unfold none. lia. Qed.

Lemma ok_trans s t u : ok_step none s t -> ok_step none t u -> ok_step none s u.
Proof.
  intros [B1 U1 T1] [B2 U2 T2]. split; [|tauto|congruence]. intros i. specialize (B1 i). specialize (B2 i). unfold none in *. lia.
Qed.

(** A change of the updates after a step without one. *)
Lemma ok_updates s t us :
  mono s t -> (upd_ok s -> match us with [] => True | _ :: us => Forall (fun u => request_cseq u = -1) us end) ->
  ok_step none s (on_leg (l_set_updates us) t).
Proof. intros [B U T] Hu. split; [|exact Hu|exact T]. exact (ok_bal _ _ _ (mono_ok _ _ (Build_mono _ _ B U T))). Qed.

Lemma tail_ok t u us : pending_updates (ext t) = u :: us -> upd_ok t -> match us with [] => True | _ :: us => Forall (fun u => request_cseq u = -1) us end.
Proof. intros E. unfold upd_ok. rewrite E. destruct us; [done|]. by intros [_ H]%Forall_cons. Qed.

Lemma ok_apply_loop n t : ok_step none t (fst (apply_loop P n t)).
Proof.
  revert t. induction n as [|n IH]; intros t; cbn [apply_loop]; [apply mono_ok, mono_refl|].
  destruct (pending_updates (ext t)) as [|u us] eqn:Eu; [apply mono_ok, mono_refl|].
  pose proof (mono_apply_update t t (su_op u) (mono_refl t)) as Ha. destruct (apply_update P (su_op u) t) as [t1 [c|]]; cbn [fst] in *; [|by apply mono_ok].
  pose proof (mono_upd _ _ Ha) as E1. rewrite Eu in E1. case_match.
  - unfold on_leg. cbn [fst]. rewrite E1. cbn [tl]. apply ok_updates; [done|]. unfold upd_ok. by rewrite Eu.
  - eapply ok_trans; [|apply IH]. unfold on_leg. rewrite E1. cbn [tl]. apply ok_updates; [done|]. by apply (tail_ok t u us).
Qed.

Lemma ok_applyPendingUpdate t : ok_step none t (fst (applyPendingUpdate P t)).
Proof. unfold applyPendingUpdate. case_match; [apply mono_ok, mono_refl|apply ok_apply_loop]. Qed.

Lemma ok_updateSession t u : ok_step none t (fst (updateSession P u t)).
Proof.
  unfold updateSession. destruct (negb _ || _) eqn:Ec.
  - unfold on_leg. cbn [fst]. apply ok_updates; [apply mono_refl|]. unfold upd_ok. destruct (pending_updates (ext t)) as [|v us]; [intros _; constructor|].
    intros H. cbn [app]. apply Forall_app_2; [done|]. by apply Forall_singleton.
  - apply orb_false_iff in Ec as [_ Ec]. destruct (pending_updates (ext t)) as [|v us] eqn:Eu; [|done].
    pose proof (mono_apply_update t t u (mono_refl t)) as Ha. destruct (apply_update P u t) as [t1 [c|]]; cbn [fst] in *; [|by apply mono_ok].
    case_match; [|by apply mono_ok]. unfold on_leg. rewrite (mono_upd _ _ Ha), Eu. apply ok_updates; [done|]. intros _. constructor.
Qed.

Lemma ok_update_replied t r : ok_step none t (update_replied r t).
Proof.
  unfold update_replied. destruct (pending_updates (ext t)) as [|u us] eqn:Eu; [apply mono_ok, mono_refl|].
  repeat case_match; try apply mono_ok, mono_refl.
  - apply (ok_trans _ (on_leg (l_set_updates (mk_su (su_op u) (-1) :: us)) t)).
    + apply ok_updates; [apply mono_refl|]. unfold upd_ok. by rewrite Eu.
    + apply mono_ok. eapply mono_field; last apply mono_refl; done.
  - apply ok_updates; [apply mono_refl|]. by apply (tail_ok t u us).
Qed.

Lemma ok_leg_onSipReply t r : ok_step none t (leg_onSipReply P r t).
Proof.
  unfold leg_onSipReply. set (u := if _ && _ : bool then offerRejected t else t).
  assert (Hu : mono t u) by (unfold u; pose proof (mono_refl t); mono).
  eapply ok_trans; [by apply mono_ok|]. eapply ok_trans; [apply (ok_update_replied u r)|].
  apply mono_ok, mono_initial_status, mono_b_onSipReply, mono_refl.
Qed.

Lemma ok_disconnect t h p : ok_step none t (fst (disconnect P h p t)).
Proof.
  unfold disconnect. assert (Hr := mono_refl t). destruct (call_status (ext t)) eqn:Ec; try (by apply mono_ok).
  all: set (u := set_relayed [] _); assert (Hu : mono t u) by (unfold u, new_media; mono).
  all: clearbody u; case_match; [apply mono_ok; cbn [fst]; by apply mono_status|].
  all: apply (ok_trans _ (updateCallStatus Disconnecting u)); [by apply mono_ok, mono_status|apply ok_updateSession].
Qed.

Lemma ok_reconnect t rc : ok_step none t (fst (onB2BReconnect P rc t)).
Proof.
  unfold onB2BReconnect. assert (Hr := mono_refl t). eapply ok_trans; [|apply ok_updateSession]. apply mono_ok. mono.
Qed.

(** ** Everything a leg can do *)

Inductive leg_op :=
| LRequest (req : b2b_req) | LReply (r : b2b_rpl) | LInvite2xx (r : b2b_rpl) | LEvent (e : b2b_event leg_event)
| LTransFinished | LSdpCompleted | LTimer | LRtpTimeout | LSessionTimeout | LDisappeared | LNoAck | LNoPrack (req : b2b_req)
| LPutOnHold | LResumeHeld | LStop | LDisconnect (hold_remote preserve_media : bool) | LChangeRtpMode (mode : relay_mode)
| LAddExisting (tag : list Z) (rc : reconnect) | LReplaceExisting (tag : list Z) (rc : reconnect)
| LAddNew (callee : b2b D leg leg_event) (e : leg_event) (mode : relay_mode) | LDelete.

Definition leg_run (op : leg_op) s : b2b D leg leg_event :=
  match op with
  | LRequest req => leg_onSipRequest P req s
  | LReply r => leg_onSipReply P r s
  | LInvite2xx r => leg_onInvite2xx P r s
  | LEvent e => fst (process_event P e s)
  | LTransFinished => leg_onTransFinished P s
  | LSdpCompleted => leg_onSdpCompleted s
  | LTimer => timer_fire P s
  | LRtpTimeout => leg_onRtpTimeout P s
  | LSessionTimeout => leg_onSessionTimeout P s
  | LDisappeared => leg_onRemoteDisappeared P s
  | LNoAck => leg_onNoAck P s
  | LNoPrack req => leg_onNoPrack P req s
  | LPutOnHold => fst (putOnHold P s)
  | LResumeHeld => fst (resumeHeld P s)
  | LStop => stopCall P s
  | LDisconnect h p => fst (disconnect P h p s)
  | LChangeRtpMode mode => changeRtpMode P mode s
  | LAddExisting tag rc => addExistingCallee P tag rc s
  | LReplaceExisting tag rc => replaceExistingLeg P tag rc s
  | LAddNew callee e mode => fst (addNewCallee P callee e mode s)
  | LDelete => delete_leg s
  end.

(** The references that an operation takes over: those of the event that it handles. *)
Definition taken (op : leg_op) : media_id -> Z := match op with LEvent e => carried e | _ => none end.

(** A new leg is sent an event without references. *)
Definition op_ok (op : leg_op) : Prop := match op with LAddNew _ e _ => forall i, carried (EvApp e) i = 0 | _ => True end.

Lemma delete_held s : mono s (delete_leg s).
Proof.
  unfold delete_leg. apply mono_clear.
  assert (Hf : forall l t, (forall i, balance (fold_left (fun s o => release o s) l t) i = balance t i - legs_held l i) /\
    pending_updates (ext (fold_left (fun s o => release o s) l t)) = pending_updates (ext t) /\
    local_tag (fold_left (fun s o => release o s) l t) = local_tag t /\
    other_legs (ext (fold_left (fun s o => release o s) l t)) = other_legs (ext t)).
  { induction l as [|o l IH]; intros t; cbn [fold_left legs_held]; [split; [intros i; lia|done]|].
    destruct (IH (release o t)) as (B & U & T & L). unfold release in *. destruct (media_ref_fields (-1) (ol_media o) t) as (E1 & E2 & E3 & _).
    split; [|split_and!; congruence]. intros i. rewrite B, balance_ref. lia. }
  destruct (Hf (other_legs (ext s)) s) as (B & U & T & L). split; [|exact U|exact T].
  intros i. rewrite balance_legs, B, L. cbn. lia.
Qed.

(** An event is handled and its references are released. *)
Lemma ok_process_event e s : ok_step (carried e) s (fst (process_event P e s)).
Proof.
  assert (Hr := mono_refl s).
  assert (H0 : forall t, ok_step none s t -> (forall i, carried e i = 0) -> ok_step (carried e) s t).
  { intros t [B U T] Hc. split; [|done|done]. intros i. specialize (B i). rewrite Hc. unfold none in B. lia. }
  assert (H1 : forall t m, ok_step none s t -> (forall i, carried e i = ind m i) -> ok_step (carried e) s (media_ref (-1) m t)).
  { intros t m [B U T] Hc. destruct (media_ref_fields (-1) m t) as (E1 & E2 & _). split; [|unfold upd_ok in *; by rewrite E1|congruence].
    intros i. specialize (B i). rewrite balance_ref, Hc. unfold none in B. lia. }
  unfold process_event. destruct e as [q f|r f m g| |y]; cbn [leg_onB2BEvent].
  - pose proof (mono_request _ _ q (f && sip_relay_only s) Hr) as H. cbn [onB2BEvent]. destruct (b2b_request _ _ _ _ _ _). apply H0; [by apply mono_ok|done].
  - pose proof (mono_onB2BReply _ _ r f m g Hr) as H. destruct (onB2BReply _ _ _ _ _ _). apply H0; [by apply mono_ok|done].
  - cbn. apply H0; [|done]. apply mono_ok. mono.
  - destruct y as [b h c f r| rc | sender rc | dst | h p | mode m | | |h].
    + pose proof (mono_connect _ _ b h c f r Hr) as H. destruct (onB2BConnect _ _ _ _ _ _ _). apply H0; [by apply mono_ok|done].
    + pose proof (ok_reconnect s rc) as H. destruct (onB2BReconnect _ _ _). by apply H1.
    + cbn [fst]. destruct (replace_balance rc s) as (B & U & T). split; [exact B|unfold upd_ok; by rewrite U|exact T].
    + cbn [fst]. apply H0; [|done]. by apply mono_ok, mono_name_leg.
    + pose proof (ok_disconnect s h p) as H. destruct (disconnect _ _ _ _). by apply H0.
    + cbn [fst]. apply H1; [|done]. by apply mono_ok, mono_changeRtpMode_to.
    + pose proof (ok_updateSession s ResumeHeld) as H. unfold resumeHeld. destruct (updateSession _ _ _). by apply H0.
    + pose proof (ok_applyPendingUpdate s) as H. destruct (applyPendingUpdate _ _). by apply H0.
    + cbn [fst]. apply H0; [|done]. apply mono_ok. mono.
Qed.

Lemma ok_leg_run op s : op_ok op -> ok_step (taken op) s (leg_run op s).
Proof.
  intros Hop. assert (Hr := mono_refl s). destruct op; cbn [leg_run taken];
    try (apply ok_process_event || apply ok_updateSession || apply ok_disconnect || apply ok_leg_onSipReply); apply mono_ok.
  - by apply mono_leg_onSipRequest.
  - unfold leg_onInvite2xx, onInvite2xx. mono.
  - mono.
  - mono.
  - unfold timer_fire. mono.
  - unfold leg_onRtpTimeout, b_onRtpTimeout. cbn [v_terminateOtherLeg CallLeg.LV]. apply mono_sess_end. mono.
  - unfold leg_onSessionTimeout, b_onSessionTimeout. cbn [v_terminateOtherLeg CallLeg.LV]. apply mono_sess_end. mono.
  - unfold leg_onRemoteDisappeared, b_onRemoteDisappeared. cbn [v_terminateOtherLeg CallLeg.LV].
    repeat (first [simple apply mono_sess_end | mono_step]).
  - unfold leg_onNoAck, b_onNoAck. cbn [v_terminateOtherLeg CallLeg.LV]. mono.
  - unfold leg_onNoPrack, sess_onNoPrack. mono.
  - mono.
  - by apply mono_changeRtpMode.
  - by apply mono_addExisting.
  - by apply mono_replaceExisting.
  - by apply mono_addNewCallee.
  - by apply delete_held.
Qed.

End Ops.
