(* ===== verification/CallLegSystem.v ===== *)
(** * Systems of call legs

    Legs and the events in flight between them.  A step is an operation of one leg, the
    delivery of an event, the start of a leg, or the end of one.  In every system that is
    reached the count of an [AmB2BMedia] object is at least the number of legs, entries of
    other legs and events that refer to it, and every leg has at most one update of its
    session in progress, the first of its queue. *)

From Stdlib Require Import ZArith Lia Ascii String.
From stdpp Require Import base list.
From S2P Require Import Prelude SipMsg MimeBody DialogMsg Rel100 OfferAnswer OfferAnswerSpec SipDialog SipDialogInv ParseCommon Sdp CallLegHelpers B2BSession DialogLeg CallLeg CallLegRefs.

Local Open Scope Z_scope.
Local Open Scope bool_scope.

Section System.
Context {D : Type} {LD : LegDialog D} (P : @leg_env D).
Implicit Types s t : b2b D leg leg_event.

Hypothesis refused_mono : forall r t, mono t (onBLegRefused P r t).

(** The legs, the events in flight with their receivers, and the references that legs which
    have ended counted, less those that events of theirs released. *)
Record sys := mk_sys {
  members : list (b2b D leg leg_event);
  queue : list (list Z * b2b_event leg_event);
  gone : media_id -> Z
}.

(** The events that a leg has posted leave it. *)
Definition flush s : b2b D leg leg_event :=
  mk_b2b _ _ _ (other_id s) (sip_relay_only s) (a_leg s) (relayed_req s) (recvd_req s) (est_invite_cseq s) (est_invite_other_cseq s)
    (est_invite_max_forwards s) (refer_id_map s) (established_body s) (body_hash s) (sess_stopped s) (rtp_relay_mode s) (media_session s)
    (media_refs s) (new_medias s) (local_tag s) (bdlg s) [] (ext s).

(** What the deletion of an event that was not handled posts. *)
Definition told (to : list Z) : list (list Z * b2b_event leg_event) := if le_alive P to then [(to, EvTerminate)] else [].

Definition deletion_posts (e : b2b_event leg_event) : list (list Z * b2b_event leg_event) :=
  match e with
  | EvApp (ReconnectLeg rc) => told (rc_tag rc)
  | EvApp (ReplaceLeg sender rc) => told (rc_tag rc) ++ told sender
  | _ => []
  end.

(** What a leg does by itself. *)
Definition own_op (op : @leg_op D) : Prop :=
  match op with LEvent _ | LDelete | LAddNew _ _ _ => False | _ => True end.

Inductive step : sys -> sys -> Prop :=
| SCaller l q g tag d :
    step (mk_sys l q g) (mk_sys (l ++ [new_caller tag d]) q g)
| SAct l1 l2 q g s op :
    own_op op ->
    let s' := leg_run P op s in
    step (mk_sys (l1 ++ s :: l2) q g) (mk_sys (l1 ++ flush s' :: l2) (q ++ out s') g)
| SDeliver l1 l2 q1 q2 g s e :
    let s' := leg_run P (LEvent e) s in
    step (mk_sys (l1 ++ s :: l2) (q1 ++ (local_tag s, e) :: q2) g) (mk_sys (l1 ++ flush s' :: l2) (q1 ++ q2 ++ out s') g)
| SCallee l1 l2 q g s tag d e mode :
    (forall i, carried (EvApp e) i = 0) ->
    let r := addNewCallee P (new_callee tag d s) e mode s in
    step (mk_sys (l1 ++ s :: l2) q g) (mk_sys (l1 ++ flush (fst r) :: l2 ++ [snd r]) (q ++ out (fst r)) g)
| SEnd l1 l2 q g s :
    let s' := delete_leg s in
    step (mk_sys (l1 ++ s :: l2) q g) (mk_sys (l1 ++ l2) q (fun i => g i + media_refs s' i))
| SDeleteEvent l q1 q2 g to e :
    step (mk_sys l (q1 ++ (to, e) :: q2) g) (mk_sys l (q1 ++ q2 ++ deletion_posts e) (fun i => g i - carried e i)).

Definition start : sys := mk_sys [] [] (fun _ => 0).

Inductive reachable : sys -> Prop :=
| R_start : reachable start
| R_step w w' : reachable w -> step w w' -> reachable w'.

(** The count of an object, and those that refer to it. *)
Fixpoint sum (f : b2b D leg leg_event -> Z) (l : list (b2b D leg leg_event)) : Z :=
  match l with [] => 0 | s :: l => f s + sum f l end.

Definition refcount (w : sys) (i : media_id) : Z := sum (fun s => media_refs s i) (members w) + gone w i.
Definition users (w : sys) (i : media_id) : Z := sum (fun s => held s i) (members w) + carried_all (queue w) i.

Lemma sum_app f l k : sum f (l ++ k) = sum f l + sum f k.
Proof. induction l as [|s l IH]; cbn; [done|]. rewrite IH. lia. Qed.

Lemma deletion_carries e i : carried_all (deletion_posts e) i = 0.
Proof.
  assert (Ht : forall to, carried_all (told to) i = 0) by (intros to; unfold told; by case_match).
  destruct e as [| | |[]]; try done; cbn [deletion_posts]; rewrite ?carried_all_app, ?Ht; done.
Qed.

(** Between the steps a leg has nothing posted, and its queue of updates is in order. *)
Definition at_rest s : Prop := out s = [] /\ upd_ok s.

Definition sys_ok (w : sys) : Prop := Forall at_rest (members w) /\ forall i, users w i <= refcount w i.

(** What a step of one leg does to the sums. *)
Lemma flush_rest s : upd_ok s -> at_rest (flush s).
Proof. by intros H. Qed.

Lemma member_step k s t :
  out s = [] -> ok_step k s t ->
  forall i, media_refs s i - held s i - k i <= media_refs (flush t) i - held (flush t) i - carried_all (out t) i.
Proof.
  intros Ho [B _ _] i. specialize (B i). unfold balance in B. rewrite Ho in B. cbn [carried_all] in B.
  change (media_refs (flush t) i) with (media_refs t i). change (held (flush t) i) with (held t i). lia.
Qed.

Lemma step_ok w w' : sys_ok w -> step w w' -> sys_ok w'.
Proof.
  intros [Hr Hc] Hs. destruct Hs as [l q g tag d|l1 l2 q g s op Hop s'|l1 l2 q1 q2 g s e s'|l1 l2 q g s tag d e mode He r|l1 l2 q g s s'|l q1 q2 g to e].
  all: unfold users, refcount in *; cbn [members queue gone] in *.
  all: try (apply Forall_app in Hr as [Hr1 Hr2]; apply Forall_cons in Hr2 as [[Ho Hu] Hr2]).
  - split; [apply Forall_app_2; [done|]; by apply Forall_singleton|].
    intros i. specialize (Hc i). unfold users, refcount; cbn [members queue gone]. rewrite !sum_app. cbn [sum]. change (held (new_caller tag d) i) with 0. change (media_refs (new_caller tag d) i) with 0. lia.
  - assert (Hok : ok_step none s s').
    { assert (op_ok op) as Hk by (by destruct op). destruct (ok_leg_run P refused_mono op s Hk) as [B U T].
      assert (taken op = none) as Et by (by destruct op). rewrite Et in B. by split. }
    split; [apply Forall_app_2; [done|]; apply Forall_cons; split; [by apply flush_rest, (ok_upd _ _ _ Hok)|done]|].
    intros i. specialize (Hc i). pose proof (member_step _ _ _ Ho Hok i) as Hm. unfold none in Hm. unfold users, refcount; cbn [members queue gone].
    rewrite !sum_app, ?carried_all_app in *. cbn [sum] in *. lia.
  - pose proof (ok_leg_run P refused_mono (LEvent e) s I) as Hok. fold s' in Hok.
    split; [apply Forall_app_2; [done|]; apply Forall_cons; split; [by apply flush_rest, (ok_upd _ _ _ Hok)|done]|].
    intros i. specialize (Hc i). pose proof (member_step _ _ _ Ho Hok i) as Hm. cbn [taken] in Hm. unfold users, refcount; cbn [members queue gone].
    rewrite !sum_app, ?carried_all_app in *. cbn [sum carried_all snd] in *. lia.
  - destruct (mono_addNewCallee P s s (new_callee tag d s) e mode He (mono_refl s)) as [H1 H2]. fold r in H1, H2.
    apply mono_ok in H1 as Hok. assert (Hn : out (snd r) = []).
    { unfold r, addNewCallee. destruct (leg_media mode s) as [u [m|]]; cbn [snd]; [|done]. unfold setMediaSession. by destruct m. }
    assert (Hk := mono_ok _ _ H2).
    split.
    + apply Forall_app_2; [done|]. apply Forall_cons. split; [by apply flush_rest, (ok_upd _ _ _ Hok)|].
      apply Forall_app_2; [done|]. apply Forall_singleton. split; [done|]. by apply (ok_upd _ _ _ Hk).
    + intros i. specialize (Hc i). pose proof (member_step _ _ _ Ho Hok i) as Hm. pose proof (member_step none (new_callee tag d s) (snd r) eq_refl Hk i) as Hn'.
      unfold none in *. rewrite Hn in Hn'. cbn [carried_all] in Hn'. unfold users, refcount; cbn [members queue gone].
      change (media_refs (flush (snd r)) i) with (media_refs (snd r) i) in Hn'. change (held (flush (snd r)) i) with (held (snd r) i) in Hn'.
      change (media_refs (new_callee tag d s) i) with 0 in Hn'. change (held (new_callee tag d s) i) with 0 in Hn'.
      rewrite !sum_app, ?carried_all_app in *. cbn [sum] in *. rewrite ?sum_app. cbn [sum].
      clear -Hc Hm Hn'. clearbody r. lia.
  - split; [by apply Forall_app_2|]. intros i. specialize (Hc i). pose proof (mono_bal _ _ (delete_held s) i) as Hm.
    fold s' in Hm. unfold balance in Hm. unfold users, refcount; cbn [members queue gone]. assert (Hos : out s' = []).
    { unfold s', delete_leg. rewrite <- Ho. clear. generalize (other_legs (ext s)) as l. intros l.
      assert (Hl : forall l t, out (fold_left (fun s o => release o s) l t) = out t).
      { clear. induction l as [|o l IH]; intros t; [done|]. cbn [fold_left]. rewrite IH. unfold release. by destruct (ol_media o). }
      unfold clearRtpReceiverRelay. case_match; cbn; try rewrite <- (Hl l s); try done; unfold media_ref; by case_match. }
    rewrite Ho, Hos in Hm. cbn [carried_all] in Hm. pose proof (legs_held_nonneg (other_legs (ext s')) i).
    assert (0 <= held s' i) by (unfold held; pose proof (ind_range (media_session s') i); lia).
    rewrite !sum_app in *. cbn [sum] in *. lia.
  - split; [done|]. intros i. specialize (Hc i). unfold users, refcount; cbn [members queue gone]. rewrite !carried_all_app in *. rewrite deletion_carries. cbn [carried_all snd] in Hc. lia.
Qed.

Lemma reachable_ok w : reachable w -> sys_ok w.
Proof. induction 1 as [|w w' _ IH Hs]; [split; [constructor|by intros i]|by apply (step_ok w)]. Qed.

Lemma sum_member f l s : (forall t, 0 <= f t) -> In s l -> f s <= sum f l.
Proof.
  intros Hf. induction l as [|x l IH]; [done|]. intros [->|Hin]; cbn [sum].
  - assert (0 <= sum f l); [|lia]. clear IH. induction l as [|y l IH]; cbn; [done|]. pose proof (Hf y). lia.
  - specialize (IH Hin). pose proof (Hf x). lia.
Qed.

Lemma held_nonneg s i : 0 <= held s i.
Proof. unfold held. pose proof (ind_range (media_session s) i). pose proof (legs_held_nonneg (other_legs (ext s)) i). lia. Qed.

Lemma carried_all_nonneg q i : 0 <= carried_all q i.
Proof. induction q as [|x q IH]; cbn; [done|]. pose proof (carried_nonneg (snd x) i). lia. Qed.

(** C32: Media sessions are not deleted too early.  However calls are forked, connected,
    reconnected, replaced, put on hold and ended, and however the events between the legs
    are interleaved, delivered or lost: the reference count of an [AmB2BMedia] object is at
    least the number of references to it in legs, in their entries of other legs and in
    events in flight.  In particular it is positive, so that the object still exists, as long
    as a leg uses it. *)
Theorem media_not_deleted_early w :
  reachable w ->
  (forall i, users w i <= refcount w i) /\
  (forall s i, In s (members w) -> media_session s = Some i -> 1 <= refcount w i) /\
  (forall s o i, In s (members w) -> In o (other_legs (ext s)) -> ol_media o = Some i -> 1 <= refcount w i).
Proof.
  intros [_ Hc]%reachable_ok. split; [exact Hc|].
  assert (Hm : forall s i, In s (members w) -> held s i <= refcount w i).
  { intros s i Hin. specialize (Hc i). unfold users in Hc. pose proof (carried_all_nonneg (queue w) i).
    pose proof (sum_member (fun s => held s i) (members w) s (fun t => held_nonneg t i) Hin). cbn beta in *. lia. }
  split.
  - intros s i Hin Hs. specialize (Hm s i Hin). unfold held, ind in Hm. rewrite Hs, bool_decide_true in Hm by done.
    pose proof (legs_held_nonneg (other_legs (ext s)) i). lia.
  - intros s o i Hin Ho Hs. specialize (Hm s i Hin). unfold held in Hm. pose proof (ind_range (media_session s) i).
    assert (1 <= legs_held (other_legs (ext s)) i); [|lia]. clear -Ho Hs. induction (other_legs (ext s)) as [|x l IH]; [done|].
    cbn [legs_held]. pose proof (legs_held_nonneg l i). pose proof (ind_range (ol_media x) i). destruct Ho as [->|Ho].
    + unfold ind. rewrite Hs, bool_decide_true by done. lia.
    + specialize (IH Ho). lia.
Qed.

(** C34: One update of a session at a time.  In every system that is reached, of the updates
    that a leg has queued (holding, resuming, reconnecting) only the first can have a
    re-INVITE under way; the others have not been sent. *)
Theorem one_update_at_a_time w s u us :
  reachable w -> In s (members w) -> pending_updates (ext s) = u :: us -> Forall (fun v => hasCSeq v = false) us.
Proof.
  intros [Hr _]%reachable_ok Hin Hu. rewrite Forall_forall in Hr. apply list_elem_of_In in Hin. destruct (Hr s Hin) as [_ Hok].
  unfold upd_ok in Hok. rewrite Hu in Hok. eapply Forall_impl; [exact Hok|]. intros v Hv. unfold hasCSeq. by rewrite Hv.
Qed.

End System.

(** ** Witnesses *)

#[local] Instance system_dialog : LegDialog (@oa cstring) := leg_dialog rel_env.

(** Surroundings in which every leg is alive and descriptions are left as they are. *)
Definition demo_leg_env : @leg_env (@oa cstring) :=
  mk_lenv (fun _ => true) (fun _ => 0) (fun _ => true) (fun _ => true) (fun _ => false) (fun _ h => h) (fun _ => None) (fun _ => [])
    (fun _ d => Some d) (fun _ => sdp0) (fun d => d) (fun d => d) (fun _ s => s).

Definition demo_caller : b2b (@oa cstring) leg leg_event := new_caller (lit "a") (oa_init rel_env true).

Definition demo_called :=
  addNewCallee demo_leg_env (new_callee (lit "b") (oa_init rel_env true) demo_caller)
    (ConnectLeg mime_empty_body [] 7 70 true) RTP_Relay demo_caller.

(** A call with two legs and relayed media. *)
Definition demo_call : sys (D := @oa cstring) :=
  mk_sys [flush (fst demo_called); snd demo_called] (out (fst demo_called)) (fun _ => 0).

Lemma media_not_deleted_early_witness : reachable demo_leg_env demo_call /\ 1 <= refcount demo_call (lit "a", 0%nat).
Proof.
  assert (Hr : reachable demo_leg_env demo_call).
  { eapply R_step; [eapply R_step; [apply R_start|apply (SCaller _ [] [] _ (lit "a") (oa_init rel_env true))]|].
    apply (SCallee _ [] [] [] (fun _ => 0) demo_caller (lit "b") (oa_init rel_env true) (ConnectLeg mime_empty_body [] 7 70 true) RTP_Relay).
    done. }
  split; [exact Hr|].
  apply (proj1 (proj2 (media_not_deleted_early demo_leg_env (fun _ t => mono_refl t) demo_call Hr)) (snd demo_called)); [|done].
  right. left. done.
Defined.

Definition demo_connected : @oa cstring := set_status Rel100.Connected (oa_init rel_env true).
Definition demo_talking : b2b (@oa cstring) leg leg_event := new_caller (lit "a") demo_connected.
Definition demo_held := leg_run demo_leg_env LPutOnHold demo_talking.
Definition demo_resumed := leg_run demo_leg_env LResumeHeld (flush demo_held).

(** A leg that is put on hold and resumed at once. *)
Definition demo_hold : sys (D := @oa cstring) := mk_sys [flush demo_resumed] (out demo_held ++ out demo_resumed) (fun _ => 0).

Lemma one_update_at_a_time_witness :
  map request_cseq (pending_updates (ext (flush demo_resumed))) = [10; -1] /\
  Forall (fun v => hasCSeq v = false) [mk_su ResumeHeld (-1)].
Proof.
  split; [vm_compute; done|].
  apply (one_update_at_a_time demo_leg_env (fun _ t => mono_refl t) demo_hold (flush demo_resumed) (mk_su PutOnHold 10)).
  - eapply R_step; [eapply R_step; [eapply R_step; [apply R_start|apply (SCaller _ [] [] _ (lit "a") demo_connected)]|]|].
    + apply (SAct _ [] [] [] (fun _ => 0) demo_talking LPutOnHold I).
    + apply (SAct _ [] [] (out demo_held) (fun _ => 0) (flush demo_held) LResumeHeld I).
  - by left.
  - vm_compute. done.
Defined.
