(* ===== verification/CallLegProps.v ===== *)
(** * What a call leg does with its other legs

    Forking: the first 2xx decides which leg the call is connected with, the others are told
    to end, and what they answer later is not heard.  Stopping a call tells everybody.  Then
    what the code does with the entries of legs that it should not. *)

From Stdlib Require Import ZArith Lia Ascii String.
From stdpp Require Import base list.
From S2P Require Import Prelude SipMsg MimeBody DialogMsg Rel100 OfferAnswer OfferAnswerSpec SipDialog Exchanges SipDialogInv ParseCommon SipHeader Sdp CallLegHelpers B2BSession DialogLeg CallLeg CallLegRefs CallLegSystem.

Local Open Scope Z_scope.
Local Open Scope bool_scope.

Section Forking.
Context {D : Type} {LD : LegDialog D} (P : @leg_env D).
Implicit Types s t : b2b D leg leg_event.

Local Notation "'LE'" := (LE P).
Local Notation "'LH'" := (LH P).

(** Sending a message: who the other legs are and the status stay, unless the leg is about to
    be disconnected; what is posted is for the leg itself. *)
Record keeps s t : Prop := {
  k_other : other_id t = other_id s;
  k_legs : other_legs (ext t) = other_legs (ext s);
  k_cancel : cancel_hdrs (ext t) = cancel_hdrs (ext s);
  k_stopped : sess_stopped t = sess_stopped s;
  k_status : call_status (ext s) <> Disconnecting -> call_status (ext t) = call_status (ext s);
  k_out : exists k, out t = out s ++ k /\ Forall (fun x => snd x = EvApp ApplyPendingUpdates) k
}.

Lemma leg_keeps_same s t :
  other_id t = other_id s -> other_legs (ext t) = other_legs (ext s) -> cancel_hdrs (ext t) = cancel_hdrs (ext s) ->
  sess_stopped t = sess_stopped s -> call_status (ext t) = call_status (ext s) -> out t = out s -> keeps s t.
Proof. intros. split; try done. exists []. by rewrite app_nil_r. Qed.

Lemma keeps_refl s : keeps s s.
Proof. by apply leg_keeps_same. Qed.

Lemma leg_keeps_trans s t u : keeps s t -> keeps t u -> keeps s u.
Proof.
  intros [A1 B1 C1 D1 E1 (k1 & F1 & G1)] [A2 B2 C2 D2 E2 (k2 & F2 & G2)]. split; try congruence.
  - intros Hs. rewrite E2; [by apply E1|]. by rewrite E1.
  - exists (k1 ++ k2). rewrite F2, F1, app_assoc. split; [done|by apply Forall_app_2].
Qed.

Lemma leg_keeps_completed s : keeps s (leg_onSdpCompleted s).
Proof.
  unfold leg_onSdpCompleted, holdAccepted, resumeAccepted. destruct (hold (ext s)); try by apply leg_keeps_same.
  case_bool_decide as Hd; [|by apply leg_keeps_same]. split; try done. exists []. by rewrite app_nil_r.
Qed.

Lemma keeps_transFinished s : keeps s (leg_onTransFinished P s).
Proof.
  unfold leg_onTransFinished. case_match; [apply keeps_refl|]. case_match; [apply keeps_refl|].
  unfold postEvent. case_match; [|apply keeps_refl]. split; try done. eexists. split; [done|]. by apply Forall_singleton.
Qed.

Lemma keeps_updateLocalSdp d s : keeps s (fst (updateLocalSdp P d s)).
Proof. unfold updateLocalSdp, adjustOffer. repeat case_match; simplify_eq; by apply leg_keeps_same. Qed.

Lemma keeps_updateLocalBody b s : keeps s (fst (updateLocalBody P b s)).
Proof.
  unfold updateLocalBody. repeat (case_match; try apply keeps_refl); cbn [fst].
  all: match goal with E : updateLocalSdp P ?d ?t = _ |- _ => pose proof (keeps_updateLocalSdp d t) as Hk; rewrite E in Hk; exact Hk end.
Qed.

Lemma keeps_local_body m b s : keeps s (fst (local_body LH m b s)).
Proof. unfold local_body. case_match; [apply keeps_updateLocalBody|apply keeps_refl]. Qed.

Lemma keeps_upd_dlg d s : keeps s (upd_dlg LH d s).
Proof.
  unfold upd_dlg. induction (_ - _)%nat as [|n IH]; [by apply leg_keeps_same|]. eapply leg_keeps_trans; [exact IH|apply leg_keeps_completed].
Qed.

Lemma keeps_save m b s : keeps s (save_body LE m b s).
Proof. unfold save_body, saveSessionDescription. repeat case_match; by apply leg_keeps_same. Qed.

Lemma keeps_dlg_reply q c r b h n s : keeps s (fst (dlg_reply LH q c r b h n s)).
Proof.
  unfold dlg_reply, onReplySent. destruct (dg_reply _ _ _ _ _ _ _) as [d err]. cbn [fst].
  eapply leg_keeps_trans; [apply (keeps_upd_dlg d)|]. case_match; [|apply keeps_refl].
  case_match; [|apply keeps_refl]. eapply leg_keeps_trans; [|apply keeps_transFinished]. by apply leg_keeps_same.
Qed.

Lemma keeps_dlg_bye h s : keeps s (dlg_bye LH h s).
Proof.
  unfold dlg_bye. destruct (dg_bye _ _) as [d [c|]]; [|apply keeps_upd_dlg].
  eapply leg_keeps_trans; [apply (keeps_upd_dlg d)|]. eapply leg_keeps_trans; [|apply keeps_transFinished]. by apply leg_keeps_same.
Qed.

Lemma keeps_relaySip q r s : keeps s (fst (relaySip_reply LE LH q r s)).
Proof.
  unfold relaySip_reply. pose proof (keeps_local_body (q_method q) (r_body r) s) as H1.
  destruct (local_body _ _ _ _) as [s1 [b|]]; [|exact H1]. cbn [fst] in *.
  match goal with |- context [dlg_reply _ ?q ?c ?m ?b ?h ?n ?t] => pose proof (keeps_dlg_reply q c m b h n t) as H2; destruct (dlg_reply LH q c m b h n t) as [s2 err] end.
  cbn [fst] in *. case_match; cbn [fst]; [by eapply leg_keeps_trans|]. eapply leg_keeps_trans; [exact H1|]. eapply leg_keeps_trans; [exact H2|apply keeps_save].
Qed.

Lemma keeps_relaySipReply r s : keeps s (fst (relaySipReply P r s)).
Proof. unfold relaySipReply. case_match; [apply keeps_relaySip|apply keeps_refl]. Qed.

Lemma keeps_reinvite_est s : keeps s (fst (sendEstablishedReInvite LH s)).
Proof.
  unfold sendEstablishedReInvite. case_match; [apply keeps_refl|]. cbn [h_updateLocalBody CallLeg.LH].
  pose proof (keeps_updateLocalBody (established_body s) s) as H1. destruct (updateLocalBody _ _ _) as [s1 [b|]]; [|exact H1].
  destruct (dg_reinvite _ _) as [d r]. cbn [fst] in *. eapply leg_keeps_trans; [exact H1|apply keeps_upd_dlg].
Qed.

(** ** The legs that are told to end *)

(** The events of [terminateNotConnectedLegs] for the legs other than [w]. *)
Definition ends (w : list Z) (e : b2b_event leg_event) (l : list other_leg) : list (list Z * b2b_event leg_event) :=
  (fun o => (ol_id o, e)) <$> filter (fun o => ol_id o <> w /\ le_alive P (ol_id o) = true) l.

Definition last_entry (w : list Z) (l : list other_leg) : option other_leg := last (filter (fun o => ol_id o = w) l).

Lemma post_end to s :
  fst (postEvent LE to (terminate_event s) s) = if le_alive P to then post to (terminate_event s) s else s.
Proof.
  unfold postEvent. change (alive LE to) with (le_alive P to). destruct (le_alive P to); [done|].
  unfold terminate_event. by destruct (cancel_hdrs (ext s)).
Qed.

Lemma terminate_legs_spec l kept s :
  let '(k, t) := terminate_legs P l kept s in
  k = match last_entry (other_id s) l with Some o => Some o | None => kept end /\
  other_id t = other_id s /\ ext t = ext s /\ sess_stopped t = sess_stopped s /\ out t = out s ++ ends (other_id s) (terminate_event s) l.
Proof.
  revert kept s. induction l as [|o l IH]; intros kept s; cbn [terminate_legs].
  { cbn. by rewrite app_nil_r. }
  unfold last_entry, ends in *. rewrite !filter_cons. case_bool_decide as Ho.
  - specialize (IH (Some o) s). destruct (terminate_legs P l (Some o) s) as [k t]. destruct IH as (-> & H1 & H2 & H3 & H4).
    rewrite (decide_True _ _ Ho), (decide_False (P := _ /\ _)) by (intros [? _]; done). split_and!; try done.
    rewrite last_cons. by destruct (last _).
  - rewrite (decide_False _ _ Ho), post_end.
    assert (Hr : other_id (release o s) = other_id s /\ ext (release o s) = ext s /\ sess_stopped (release o s) = sess_stopped s /\ out (release o s) = out s)
      by (unfold release; by destruct (ol_media o)). destruct Hr as (R1 & R2 & R3 & R4).
    assert (He : terminate_event (release o s) = terminate_event s) by (unfold terminate_event; by rewrite R2).
    rewrite He. destruct (le_alive P (ol_id o)) eqn:Ha.
    + specialize (IH kept (post (ol_id o) (terminate_event s) (release o s))).
      destruct (terminate_legs _ _ _ _) as [k t]. change (terminate_event (post ?a ?b ?u)) with (terminate_event u) in IH. rewrite He in IH.
      cbn [post other_id ext sess_stopped out] in IH. rewrite R1, R2, R3, R4 in IH.
      destruct IH as (-> & H1 & H2 & H3 & H4). rewrite decide_True by done. split_and!; try done. rewrite H4. cbn. by rewrite <- app_assoc.
    + specialize (IH kept (release o s)). destruct (terminate_legs _ _ _ _) as [k t]. rewrite He, R1, R2, R3, R4 in IH.
      rewrite (decide_False (P := _ /\ _)) by (intros [_ ?]; congruence). done.
Qed.

(** The entries that are left, and what is posted. *)
Lemma terminated_spec s :
  let t := terminateNotConnectedLegs P s in
  ext t = l_set_legs (option_list (last_entry (other_id s) (other_legs (ext s)))) (ext s) /\
  other_id t = other_id s /\ sess_stopped t = sess_stopped s /\
  out t = out s ++ ends (other_id s) (terminate_event s) (other_legs (ext s)).
Proof.
  unfold terminateNotConnectedLegs. pose proof (terminate_legs_spec (other_legs (ext s)) None s) as H.
  destruct (terminate_legs _ _ _ _) as [k t]. destruct H as (-> & H1 & H2 & H3 & H4). cbn [on_leg set_ext ext other_id sess_stopped out].
  rewrite H2. by destruct (last_entry _ _).
Qed.

Lemma last_entry_id w l o : last_entry w l = Some o -> ol_id o = w.
Proof.
  intros H. unfold last_entry in H. apply last_Some in H as [k H].
  assert (Hin : o ∈ filter (fun o => ol_id o = w) l) by (rewrite H; apply elem_of_app; right; constructor). by apply list_elem_of_filter in Hin as [? _].
Qed.

Lemma last_entry_kept w l : last_entry w (option_list (last_entry w l)) = last_entry w l.
Proof.
  destruct (last_entry w l) as [o|] eqn:H; [|done]. apply last_entry_id in H. unfold last_entry. change (option_list (Some o)) with [o].
  rewrite filter_cons, decide_True by done. done.
Qed.

Lemma ends_kept w e l : ends w e (option_list (last_entry w l)) = [].
Proof.
  destruct (last_entry w l) as [o|] eqn:H; [|done]. apply last_entry_id in H. unfold ends. change (option_list (Some o)) with [o].
  rewrite filter_cons, decide_False by (intros [? _]; done). done.
Qed.

Lemma drop_kept w l s :
  other_legs (ext s) = option_list (last_entry w l) ->
  ext (drop_leg w s) = l_set_legs [] (ext s) /\ other_id (drop_leg w s) = other_id s /\
  sess_stopped (drop_leg w s) = sess_stopped s /\ out (drop_leg w s) = out s.
Proof.
  intros H. unfold drop_leg, release. rewrite H. destruct (last_entry w l) as [o|] eqn:Ho.
  - apply last_entry_id in Ho. change (option_list (Some o)) with [o]. cbn [take_leg]. rewrite bool_decide_true by done. by destruct (ol_media o).
  - change (option_list None) with (@nil other_leg) in *. cbn [take_leg]. split; [|done]. destruct (ext s) eqn:He. cbn in *. by subst.
Qed.

Lemma clear_fields s :
  ext (clearRtpReceiverRelay s) = ext s /\ other_id (clearRtpReceiverRelay s) = other_id s /\
  sess_stopped (clearRtpReceiverRelay s) = sess_stopped s /\ out (clearRtpReceiverRelay s) = out s.
Proof. unfold clearRtpReceiverRelay. destruct (rtp_relay_mode s); [done| |]; by destruct (media_session s). Qed.

(** The other leg itself is told with an event of its own. *)
Definition end_other s : list (list Z * b2b_event leg_event) :=
  match other_id s with [] => [] | id => if le_alive P id then [(id, terminate_event s)] else [] end.

Lemma relay_end s :
  let t := match cancel_hdrs (ext s), other_id s with
           | _ :: _, _ :: _ => fst (b_relayEvent LE (EvApp (CallLegTerminate (cancel_hdrs (ext s)))) s)
           | _, _ => b_terminateOtherLeg LH s
           end in
  ext t = ext s /\ other_id t = other_id s /\ sess_stopped t = sess_stopped s /\ out t = out s ++ end_other s.
Proof.
  assert (Hn : out s = out s ++ []) by (by rewrite app_nil_r).
  unfold end_other, terminate_event, b_terminateOtherLeg, b_relayEvent, postEvent.
  destruct (cancel_hdrs (ext s)) as [|h hs], (other_id s) as [|c cs] eqn:Ho; cbn [h_relayEvent CallLeg.LH]; try (rewrite bool_decide_true by done; done);
    rewrite ?bool_decide_false by done; unfold b_relayEvent, postEvent; rewrite ?Ho, ?bool_decide_false by done;
    change (alive LE) with (le_alive P); destruct (le_alive P (c :: cs)); cbn; rewrite ?Ho; done.
Qed.

(** ** Stopping a call *)

Lemma terminateLeg_spec s :
  call_status (ext s) <> Disconnecting ->
  exists k, out (terminateLeg P s) = out s ++ k /\ Forall (fun x => snd x = EvApp ApplyPendingUpdates) k /\
    other_id (terminateLeg P s) = other_id s /\ other_legs (ext (terminateLeg P s)) = other_legs (ext s) /\
    call_status (ext (terminateLeg P s)) = call_status (ext s) /\ sess_stopped (terminateLeg P s) = true.
Proof.
  intros Hs. destruct (clear_fields (setStopped s)) as (C1 & C2 & C3 & C4).
  assert (Hk : exists h, terminateLeg P s = dlg_bye LH h (clearRtpReceiverRelay (setStopped s))).
  { unfold terminateLeg, b_terminateLeg. destruct (cancel_hdrs (ext s)); by eexists. }
  destruct Hk as [h ->]. destruct (keeps_dlg_bye h (clearRtpReceiverRelay (setStopped s))) as [A B _ X S (k & K & F)].
  rewrite C1, C2, C3, C4 in *. exists k. split_and!; try done. by apply S.
Qed.

Lemma stop_spec s :
  let t := stopCall P s in
  exists k, out t = out s ++ ends (other_id s) (terminate_event s) (other_legs (ext s)) ++ end_other s ++ k /\
    Forall (fun x => snd x = EvApp ApplyPendingUpdates) k /\
    other_id t = other_id s /\ other_legs (ext t) = [] /\ call_status (ext t) = Disconnected /\ sess_stopped t = true.
Proof.
  unfold stopCall. set (s0 := if bool_decide (call_status (ext s) = Disconnected) then s else _).
  assert (H0 : ext s0 = l_set_status Disconnected (ext s) /\ other_id s0 = other_id s /\ out s0 = out s).
  { unfold s0. case_bool_decide as Hd; [|done]. split; [|done]. destruct (ext s) eqn:He. cbn in *. by subst. }
  destruct H0 as (E0 & O0 & U0). assert (T0 : terminate_event s0 = terminate_event s) by (unfold terminate_event; by rewrite E0).
  destruct (terminated_spec s0) as (E1 & O1 & _ & U1). set (s1 := terminateNotConnectedLegs P s0) in *.
  destruct (terminated_spec s1) as (E2 & O2 & _ & U2). set (s2 := terminateNotConnectedLegs P s1) in *.
  rewrite E1, E0 in E2, U2. rewrite O1, O0 in *. cbn [other_legs l_set_legs l_set_status] in *. rewrite E0 in *. cbn [other_legs l_set_status] in *.
  rewrite last_entry_kept in E2. rewrite ends_kept, app_nil_r in U2.
  pose proof (relay_end s2) as H3. cbv zeta in H3. match type of H3 with ext ?v = _ /\ _ => set (s3 := v) in * end.
  destruct H3 as (E3 & O3 & _ & U3). rewrite O2 in O3.
  assert (Ht : forall u, terminateOtherLeg P s1 = u -> ext u = l_set_legs [] (ext s2) /\ other_id u = other_id s /\ out u = out s2 ++ end_other s2).
  { intros u <-. unfold terminateOtherLeg. rewrite (bool_decide_false (call_status (ext s1) = Connected)) by (by rewrite E1). fold s2. cbv zeta.
    fold s3. destruct (drop_kept (other_id s3) (other_legs (ext s)) s3) as (E4 & O4 & _ & U4).
    { rewrite E3, O3, E2. done. }
    rewrite bool_decide_true by (rewrite E4, E3, E2; done). rewrite E4, O4, U4, E3, O3, U3. done. }
  destruct (Ht _ eq_refl) as (E5 & O5 & U5).
  destruct (terminateLeg_spec (terminateOtherLeg P s1)) as (k & K1 & K2 & K3 & K4 & K5 & K6); [rewrite E5, E2; done|].
  exists k. rewrite K1, K3, K4, K5, K6, O5, U5, U2, U1, U0, E5, E2. split_and!; try done. rewrite T0, <- !app_assoc. f_equal. f_equal. f_equal.
  unfold end_other, terminate_event. by rewrite E2, O2.
Qed.

(** Stopping a call ends all of it.  The leg is Disconnected, stopped and has no entry of
    another leg any more, and every leg that exists and that it knew by its tag, connected or
    not, was sent the event that ends it (with the headers of the CANCEL where there was
    one). *)
Theorem stop_ends_all s :
  let t := stopCall P s in
  call_status (ext t) = Disconnected /\ sess_stopped t = true /\ other_legs (ext t) = [] /\
  forall id, id <> [] -> id = other_id s \/ In id (map ol_id (other_legs (ext s))) -> le_alive P id = true ->
    In (id, terminate_event s) (out t).
Proof.
  destruct (stop_spec s) as (k & K1 & _ & _ & K4 & K5 & K6). cbv zeta in *. split_and!; [done..|].
  intros id Hne Hin Ha. rewrite K1. apply in_or_app. right. apply in_or_app.
  destruct (decide (id = other_id s)) as [->|Hd].
  - right. apply in_or_app. left. unfold end_other. destruct (other_id s); [done|]. rewrite Ha. by left.
  - left. destruct Hin as [|Hin]; [done|]. apply in_map_iff in Hin as (o & <- & Ho). unfold ends.
    apply list_elem_of_In, list_elem_of_fmap. exists o. split; [done|]. apply list_elem_of_filter. split; [done|]. by apply list_elem_of_In.
Qed.

(** ** Forking *)

Lemma setOther_spec w f s :
  other_id s = w \/ In w (map ol_id (other_legs (ext s))) ->
  exists t, setOther w f s = (t, true) /\ other_id t = w /\ ext t = ext s /\ out t = out s.
Proof.
  intros Hw. unfold setOther. case_bool_decide as Ho; [by exists s|]. destruct Hw as [|Hw]; [done|].
  apply in_map_iff in Hw as (o & Hid & Hin). destruct (List.find _ _) as [p|] eqn:Hf.
  - eexists. split; [done|]. destruct (clear_fields (set_other w s)) as (C1 & C2 & _ & C4). unfold setMediaSession.
    destruct (ol_media p), f; cbn; by rewrite ?C1, ?C2, ?C4.
  - apply find_none with (x := o) in Hf; [|done]. by apply bool_decide_eq_false in Hf.
Qed.

Lemma forget_spec s :
  ext (forget_legs s) = l_set_legs [] (ext s) /\ other_id (forget_legs s) = other_id s /\ out (forget_legs s) = out s.
Proof. unfold forget_legs, release. destruct (other_legs (ext s)) as [|o l]; [done|]. by destruct (ol_media o). Qed.

(** The leg that answered first, as it is before the answer is passed on. *)
Lemma chosen_spec w f s :
  other_id s = w \/ In w (map ol_id (other_legs (ext s))) ->
  exists t, setOther w f s = (t, true) /\
    let u := forget_legs (terminateNotConnectedLegs P t) in
    other_id u = w /\ ext u = l_set_legs [] (ext s) /\ out u = out s ++ ends w (terminate_event s) (other_legs (ext s)).
Proof.
  intros Hw. destruct (setOther_spec w f s Hw) as (t & Hs & Ho & He & Hu). exists t. split; [done|]. cbv zeta.
  destruct (terminated_spec t) as (E1 & O1 & _ & U1). destruct (forget_spec (terminateNotConnectedLegs P t)) as (E2 & O2 & U2).
  assert (Ht : terminate_event t = terminate_event s) by (unfold terminate_event; by rewrite He).
  rewrite E2, O2, U2, E1, O1, U1, He, Ho, Hu, Ht. done.
Qed.

(** The answer is passed on, or the call is stopped. *)
Lemma answered_spec w f r s t :
  call_status (ext s) = NoReply \/ call_status (ext s) = Ringing ->
  other_id s = w \/ In w (map ol_id (other_legs (ext s))) -> r_from_tag r = w ->
  b2bInitial2xx P r f s = (t, Some tt) ->
  other_id t = w /\ other_legs (ext t) = [] /\
  (call_status (ext t) = Connected \/ call_status (ext t) = Disconnected /\ sess_stopped t = true) /\
  exists k, out t = out s ++ ends w (terminate_event s) (other_legs (ext s)) ++ k.
Proof.
  intros Hst Hw Hr. unfold b2bInitial2xx. rewrite Hr. destruct (chosen_spec w f s Hw) as (t0 & -> & Hu). cbn [negb].
  set (u := forget_legs _) in *. destruct Hu as (O & E & U).
  assert (Hsu : call_status (ext u) <> Disconnecting) by (rewrite E; cbn; destruct Hst; congruence).
  assert (Hlu : other_legs (ext u) = []) by (by rewrite E).
  destruct f; cbn [negb].
  - pose proof (keeps_relaySipReply r u) as Hk. destruct (relaySipReply P r u) as [v [z|]]; [|done]. cbn [fst] in Hk.
    destruct Hk as [A B _ _ _ (k & K & _)]. destruct (z =? 0); intros [= <-].
    + cbn [updateCallStatus on_leg set_ext ext other_id other_legs call_status l_set_status out]. split_and!; [congruence..|by left|].
      exists k. by rewrite K, U, <- app_assoc.
    + destruct (stop_spec v) as (j & J1 & _ & J3 & J4 & J5 & J6). cbv zeta in *. split_and!; [congruence|done|by right|].
      eexists. rewrite J1, K, U, <- !app_assoc. done.
  - set (x := saveSessionDescription LE (r_body r) u). intros Ht. apply pair_equal_spec in Ht as [<- _].
    destruct (keeps_reinvite_est x) as [A B _ _ _ (k & K & _)].
    assert (Hx : other_id x = other_id u /\ ext x = ext u /\ out x = out u) by (unfold x, saveSessionDescription; by case_match).
    destruct Hx as (X1 & X2 & X3). cbn [updateCallStatus on_leg set_ext ext other_id other_legs call_status l_set_status out].
    split_and!; [congruence..|by left|]. exists k. by rewrite K, X3, U, <- app_assoc.
Qed.

(** C33: The first leg that answers gets the call.  A leg that waits for the answer of one of
    the legs it has forked to, on a 2xx from the leg [w]: [w] becomes the other leg, all the
    others that exist are sent the event that ends them and [w] is not, no entry is left, and
    the leg is Connected, or the call was stopped when the answer could not be passed on.
    When it is Connected the answers that legs other than [w] send later change nothing. *)
Theorem first_2xx_wins w r f m sender s t :
  call_status (ext s) = NoReply \/ call_status (ext s) = Ringing ->
  other_id s = w \/ In w (map ol_id (other_legs (ext s))) -> r_from_tag r = w ->
  r_method r = B_INVITE -> 200 <= r_code r < 300 -> (f = true -> r_cseq r = est_invite_cseq s) ->
  leg_onB2BEvent P (EvReply r f m sender) s = (t, Some tt) ->
  other_id t = w /\ other_legs (ext t) = [] /\
  (call_status (ext t) = Connected \/ call_status (ext t) = Disconnected /\ sess_stopped t = true) /\
  (exists k, out t = out s ++ ends w (terminate_event s) (other_legs (ext s)) ++ k) /\
  (call_status (ext t) = Connected ->
   forall r' f' m' sender', sender' <> w -> r_from_tag r' <> w -> leg_onB2BEvent P (EvReply r' f' m' sender') t = (t, Some tt)).
Proof.
  intros Hst Hw Hr Hm Hc Hq He. cbn [leg_onB2BEvent] in *. unfold onB2BReply in He at 1.
  replace (is_initial r f s) with true in He.
  2: { symmetry. unfold is_initial. rewrite bool_decide_true by done. destruct f; cbn [negb].
       - rewrite (proj2 (Z.eqb_eq _ _) (Hq eq_refl)). destruct Hst as [-> | ->]; done.
       - destruct Hst as [-> | ->]; rewrite andb_false_r; done. }
  unfold onInitialReply in He. rewrite (proj2 (Z.ltb_ge _ _)), (proj2 (Z.ltb_lt _ _)) in He by lia.
  destruct (answered_spec w f r s t Hst Hw Hr He) as (A & B & C & K). split_and!; try done.
  intros Hcon r' f' m' sender' H1 H2. unfold onB2BReply, is_initial. rewrite Hcon, A.
  rewrite (bool_decide_false (w = sender')), (bool_decide_false (w = r_from_tag r')) by congruence.
  rewrite !(bool_decide_false (Connected = _)) by done. by rewrite andb_false_r.
Qed.

End Forking.

(** ** Entries and events that are lost *)

Section Lost.
Context {D : Type} {LD : LegDialog D} (P : @leg_env D).
Implicit Types s : b2b D leg leg_event.

Lemma take_leg_none id l : Forall (fun o => ol_id o <> id) l -> take_leg id l = None.
Proof. induction 1 as [|o l Ho _ IH]; cbn [take_leg]; [done|]. by rewrite bool_decide_false, IH. Qed.

(** [clear_other] forgets the tag of the other leg, but its entry stays: it is looked for
    with the tag that was cleared before.  [removeOtherLeg] with the tag removes it. *)
Theorem clear_other_keeps_entry s o :
  other_id s <> [] -> other_legs (ext s) = [o] -> ol_id o = other_id s ->
  other_legs (ext (clear_other s)) = [o] /\ other_legs (ext (removeOtherLeg (other_id s) s)) = [].
Proof.
  intros Hne Hl Ho. unfold clear_other, removeOtherLeg, drop_leg, release. rewrite bool_decide_true by done. cbn [set_other ext]. rewrite Hl.
  rewrite take_leg_none by (apply Forall_singleton; congruence). split; [done|].
  cbn [take_leg]. rewrite bool_decide_true by done. done.
Qed.

(** A leg without another leg that is asked to be replaced: nobody is told, and the
    references that the event carries are never released. *)
Theorem replace_without_leg sender rc s i :
  other_id s = [] -> other_legs (ext s) = [] -> rc_media rc = Some i ->
  process_event P (EvApp (ReplaceLeg sender rc)) s = (s, Some tt) /\ carried (EvApp (ReplaceLeg sender rc)) i = 1.
Proof.
  intros H1 H2 H3. unfold process_event. cbn [leg_onB2BEvent]. unfold onB2BReplace. rewrite H1, H2. split; [done|].
  cbn [carried]. rewrite H3. unfold ind. by rewrite bool_decide_true.
Qed.

End Lost.

(** ** Witnesses *)

#[local] Instance fork_dialog : LegDialog (@oa cstring) := leg_dialog rel_env.

(** A leg that has received an INVITE and calls two others. *)
Definition fork_invited : b2b (@oa cstring) leg leg_event :=
  onInvite (fake_invite 1) (new_caller (lit "a") (invited rel_env true)).

Definition fork_add (tag : list Z) (s : b2b (@oa cstring) leg leg_event) :=
  fst (addCallee_invite demo_leg_env (new_callee tag (oa_init rel_env true) s) (fake_invite 1) s).

Definition fork_calling := flush (fork_add (lit "c") (fork_add (lit "b") fork_invited)).

Definition fork_ok : b2b_rpl := mk_brpl 200 (lit "OK") 1 B_INVITE (lit "c") (lit "tc") [] (sdp_text (cs "v=0")) [] 0.

Definition fork_answered := fst (leg_onB2BEvent demo_leg_env (EvReply fork_ok true B_INVITE (lit "c")) fork_calling).

Lemma first_2xx_wins_witness :
  other_id fork_answered = lit "c" /\ out fork_answered = [(lit "b", EvTerminate)] /\
  leg_onB2BEvent demo_leg_env
    (EvReply (mk_brpl 200 (lit "OK") 1 B_INVITE (lit "b") (lit "tb") [] (sdp_text (cs "v=0")) [] 0) true B_INVITE (lit "b")) fork_answered =
    (fork_answered, Some tt).
Proof.
  destruct (first_2xx_wins demo_leg_env (lit "c") fork_ok true B_INVITE (lit "c") fork_calling fork_answered) as (H1 & _ & _ & _ & H2).
  - left. vm_compute. done.
  - right. vm_compute. right. left. done.
  - done.
  - done.
  - vm_compute. done.
  - intros _. vm_compute. done.
  - vm_compute. done.
  - split; [exact H1|]. split; [vm_compute; done|]. apply H2; vm_compute; done.
Defined.

Lemma stop_ends_all_witness : In (lit "b", EvTerminate) (out (stopCall demo_leg_env fork_calling)).
Proof.
  apply (proj2 (proj2 (proj2 (stop_ends_all demo_leg_env fork_calling))) (lit "b")); [vm_compute; done| |done].
  right. vm_compute. left. done.
Defined.
