(* ===== verification/Dns.v ===== *)
(** * DNS messages

    Model of [core/sip/parse_dns.cpp]: skipping and expanding names, and the loop over the
    records of a message.  The buffer of a message is a list of bytes; a pointer into it is a
    position, [e] the end of the message, which may lie before the end of the buffer.  A byte
    that is read or written outside of its buffer is a fault. *)

From Stdlib Require Import ZArith Lia.
From stdpp Require Import base list.
From S2P Require Import Prelude.

Local Open Scope Z_scope.
Local Open Scope bool_scope.

(** ** Results *)

(** The result of a function that may return an error ([-1]), leave a buffer, or run out of
    the rounds that a loop of the model has. *)
Inductive dres (A : Type) := DOk (a : A) | DErr | DFault | DFuel.
Arguments DOk {A} a.
Arguments DErr {A}.
Arguments DFault {A}.
Arguments DFuel {A}.

Definition dbind {A B : Type} (x : dres A) (f : A -> dres B) : dres B :=
  match x with DOk a => f a | DErr => DErr | DFault => DFault | DFuel => DFuel end.

Notation "'let!' x := e 'in' k" := (dbind e (fun x => k)) (at level 10, x pattern, e at level 100, k at level 200).

(** Neither a fault nor out of rounds. *)
Definition returns {A : Type} (P : A -> Prop) (x : dres A) : Prop :=
  match x with DOk a => P a | DErr => True | DFault | DFuel => False end.

Lemma returns_bind {A B : Type} (P : A -> Prop) (Q : B -> Prop) x (f : A -> dres B) :
  returns P x -> (forall a, P a -> returns Q (f a)) -> returns Q (dbind x f).
Proof. destruct x; cbn; auto. Qed.

Lemma returns_impl {A : Type} (P Q : A -> Prop) (x : dres A) : returns P x -> (forall a, P a -> Q a) -> returns Q x.
Proof. destruct x; cbn; auto. Qed.

(** ** Bytes *)

Definition NS_MAXDNAME : Z := 1025.
Definition HEADER_OFFSET : Z := 12.
Definition SECTION_COUNTS_OFF : Z := 4.

Section Message.
Context (m : list Z) (e : Z).

(** The byte at a position. *)
Definition rd (p : Z) : dres Z :=
  if p <? 0 then DFault else match m !! Z.to_nat p with Some c => DOk c | None => DFault end.

(** The [n] bytes from a position on. *)
Fixpoint rd_bytes (n : nat) (p : Z) : dres (list Z) :=
  match n with
  | O => DOk []
  | S n => let! c := rd p in let! l := rd_bytes n (p + 1) in DOk (c :: l)
  end.

(** [dns_get_16] and [dns_get_32] *)
Definition dns_get_16 (p : Z) : dres Z := let! a := rd p in let! b := rd (p + 1) in DOk (a * 256 + b).

Definition dns_get_32 (p : Z) : dres Z := let! a := dns_get_16 p in let! b := dns_get_16 (p + 2) in DOk (a * 65536 + b).

(** [dns_msg_count] *)
Definition dns_msg_count (sect : Z) : dres Z := dns_get_16 (SECTION_COUNTS_OFF + 2 * sect).

(** ** Names *)

(** [dns_skip_name]: the position behind a name. *)
Fixpoint skip_loop (fuel : nat) (p : Z) : dres Z :=
  match fuel with
  | O => DFuel
  | S fuel =>
      if negb (p <? e) then DErr
      else
        let! c := rd p in
        if c =? 0 then (if p + 1 <? e then DOk (p + 1) else DErr)
        else if negb (Z.land c 192 =? 0) then
          if e - p <? 2 then DErr else if p + 2 <? e then DOk (p + 2) else DErr
        else if e - p <? c + 1 then DErr
        else skip_loop fuel (p + c + 1)
  end.

Definition dns_skip_name (p : Z) : dres Z := skip_loop (S (Z.to_nat (e - p))) p.

(** The variables of [dns_expand_name]: [x_ptr] is the position behind the name once a
    pointer was followed ([is_ptr]), [x_buf] what is in the buffer, [x_len] what is left of
    it. *)
Record expand := mk_x { x_p : Z; x_ptr : option Z; x_jumps : Z; x_len : Z; x_buf : list Z }.

Inductive expand_step := XGo (x : expand) | XDone (name : list Z) (p : Z).

(** Writing to a buffer of [cap] bytes. *)
Definition wr (cap : Z) (buf l : list Z) : dres (list Z) :=
  if Z.of_nat (length buf) + Z.of_nat (length l) <=? cap then DOk (buf ++ l) else DFault.

(** One round of the loop of [dns_expand_name]. *)
Definition expand_round (cap : Z) (x : expand) : dres expand_step :=
  let p := x_p x in
  if negb (p <? e) then DErr
  else
    let! c := rd p in
    if c =? 0 then
      if x_len x =? 0 then DErr
      else
        let! _ := wr cap (x_buf x) [0] in
        DOk (XDone (x_buf x) (match x_ptr x with Some q => q | None => p + 1 end))
    else if Z.land c 192 =? 192 then
      if e <=? p + 1 then DErr
      else
        let! d := rd (p + 1) in
        let l_off := Z.lor (Z.shiftl (Z.land c 63) 8) d in
        if e <? p + 2 then DErr
        else if e <=? l_off + 1 then DErr
        else
          let ptr := match x_ptr x with Some q => q | None => p + 2 end in
          if 256 <? x_jumps x + 1 then DErr
          else DOk (XGo (mk_x l_off (Some ptr) (x_jumps x + 1) (x_len x) (x_buf x)))
    else if negb (Z.land c 63 =? c) then DErr
    else if e <=? p + c + 1 then DErr
    else if x_len x <=? c then DErr
    else
      let! l := rd_bytes (Z.to_nat c) (p + 1) in
      let! buf := wr cap (x_buf x) l in
      let len := x_len x - c in
      let! d := rd (p + c + 1) in
      if d =? 0 then DOk (XGo (mk_x (p + c + 1) (x_ptr x) (x_jumps x) len buf))
      else if len - 1 =? 0 then DErr
      else
        let! buf := wr cap buf [46] in
        DOk (XGo (mk_x (p + c + 1) (x_ptr x) (x_jumps x) (len - 1) buf)).

Fixpoint expand_loop (fuel : nat) (cap : Z) (x : expand) : dres (list Z * Z) :=
  match fuel with
  | O => DFuel
  | S fuel =>
      let! s := expand_round cap x in
      match s with XGo x => expand_loop fuel cap x | XDone name p => DOk (name, p) end
  end.

(** [dns_expand_name]: the name, and the position behind it. *)
Definition dns_expand_name (p len : Z) : dres (list Z * Z) :=
  expand_loop (Z.to_nat (len + 258)) len (mk_x p None 0 len []).

(** ** Records *)

Record dns_record := mk_rr {
  rr_name : list Z; rr_type : Z; rr_class : Z; rr_ttl : Z; rr_rdata_len : Z; rr_rdata : Z
}.

Inductive dns_section_type := dns_s_an | dns_s_ns | dns_s_ar.

Definition section_num (s : dns_section_type) : Z := match s with dns_s_an => 1 | dns_s_ns => 2 | dns_s_ar => 3 end.

(** The query section: the position behind [n] queries. *)
Fixpoint skip_queries (n : nat) (p : Z) : dres Z :=
  match n with
  | O => DOk p
  | S n =>
      let! p := dns_skip_name p in
      if e <? p + 4 then DErr else skip_queries n (p + 4)
  end.

(** A record, and the position behind it. *)
Definition parse_record (p : Z) : dres (dns_record * Z) :=
  let! (name, p) := dns_expand_name p NS_MAXDNAME in
  if e <? p + 8 then DErr
  else
    let! t := dns_get_16 p in
    let! c := dns_get_16 (p + 2) in
    let! ttl := dns_get_32 (p + 4) in
    if e <? p + 8 + 2 then DErr
    else
      let! n := dns_get_16 (p + 8) in
      if e <? p + 10 + n then DErr
      else DOk (mk_rr name t c ttl n (p + 10), p + 10 + n).

Section Fct.
Context {A : Type} (fct : dns_record -> dns_section_type -> A -> dres A).

(** The records of a section; [fct] is called for each. *)
Fixpoint parse_records (s : dns_section_type) (n : nat) (p : Z) (a : A) : dres (Z * A) :=
  match n with
  | O => DOk (p, a)
  | S n =>
      let! (rr, p) := parse_record p in
      let! a := fct rr s a in
      parse_records s n p a
  end.

Fixpoint parse_sections (l : list dns_section_type) (p : Z) (a : A) : dres A :=
  match l with
  | [] => DOk a
  | s :: l =>
      let! n := dns_msg_count (section_num s) in
      let! (p, a) := parse_records s (Z.to_nat n) p a in
      parse_sections l p a
  end.

(** [dns_msg_parse] *)
Definition dns_msg_parse (a : A) : dres A :=
  if e <=? HEADER_OFFSET then DErr
  else
    let! q := dns_msg_count 0 in
    let! p := skip_queries (Z.to_nat q) HEADER_OFFSET in
    parse_sections [dns_s_an; dns_s_ns; dns_s_ar] p a.

End Fct.
End Message.

(** ** No byte outside of the message is read *)

Section Bounds.
Context (m : list Z) (e : Z).
Context (Hm : e <= Z.of_nat (length m)) (Hb : Forall (fun c => 0 <= c < 256) m).

Lemma rd_ok p : 0 <= p < e -> exists c, rd m p = DOk c /\ 0 <= c < 256.
Proof using Hm Hb.
  intros Hp. unfold rd. rewrite (proj2 (Z.ltb_ge _ _)) by lia.
  destruct (m !! Z.to_nat p) as [c|] eqn:Hc; [|apply lookup_ge_None in Hc; lia].
  exists c. split; [done|]. rewrite Forall_lookup in Hb. by apply (Hb _ _ Hc).
Qed.

Lemma rd_returns p : 0 <= p < e -> returns (fun c => 0 <= c < 256) (rd m p).
Proof using Hm Hb. intros Hp. destruct (rd_ok p Hp) as (c & -> & H). done. Qed.

Lemma rd_bytes_returns n p : 0 <= p -> p + Z.of_nat n <= e -> returns (fun l => length l = n) (rd_bytes m n p).
Proof using Hm Hb.
  revert p. induction n as [|n IH]; intros p H1 H2; cbn [rd_bytes]; [done|].
  eapply returns_bind; [apply rd_returns; lia|]. intros c _.
  eapply returns_bind; [apply IH; lia|]. intros l Hl. cbn in *. lia.
Qed.

Lemma get_16_returns p : 0 <= p -> p + 2 <= e -> returns (fun c => 0 <= c < 65536) (dns_get_16 m p).
Proof using Hm Hb.
  intros H1 H2. unfold dns_get_16. eapply returns_bind; [apply rd_returns; lia|]. intros a Ha.
  eapply returns_bind; [apply rd_returns; lia|]. intros b Hb'. cbn. cbv beta in *. lia.
Qed.

Lemma get_32_returns p : 0 <= p -> p + 4 <= e -> returns (fun c => 0 <= c < 4294967296) (dns_get_32 m p).
Proof using Hm Hb.
  intros H1 H2. unfold dns_get_32. eapply returns_bind; [apply get_16_returns; lia|]. intros a Ha.
  eapply returns_bind; [apply get_16_returns; lia|]. intros b Hb'. cbn. cbv beta in *. lia.
Qed.

Lemma skip_loop_returns n p : 0 <= p -> (Z.to_nat (e - p) < n)%nat -> returns (fun q => p < q < e) (skip_loop m e n p).
Proof using Hm Hb.
  revert p. induction n as [|n IH]; intros p Hp Hn; [lia|]. cbn [skip_loop].
  destruct (Z.ltb_spec p e); cbn [negb]; [|done].
  eapply returns_bind; [apply rd_returns; lia|]. intros c Hc. cbv beta in Hc.
  repeat case_match; try done; cbn; try lia.
  eapply returns_impl; [apply IH; lia|]. cbv beta. lia.
Qed.

Lemma skip_name_returns p : 0 <= p -> returns (fun q => p < q < e) (dns_skip_name m e p).
Proof using Hm Hb. intros Hp. apply skip_loop_returns; [done|lia]. Qed.

(** The buffer and what is left of it make up the whole; the rounds left are enough. *)
Definition expand_ok (cap : Z) (fuel : nat) (x : expand) : Prop :=
  0 <= x_p x /\ 0 <= x_jumps x <= 256 /\ 0 <= x_len x /\ Z.of_nat (length (x_buf x)) + x_len x = cap /\
  (match x_ptr x with Some q => 0 < q <= e | None => True end) /\ x_len x + 257 - x_jumps x <= Z.of_nat fuel.

Lemma wr_returns cap buf l :
  Z.of_nat (length buf) + Z.of_nat (length l) <= cap -> wr cap buf l = DOk (buf ++ l).
Proof. intros H. unfold wr. by rewrite (proj2 (Z.leb_le _ _)). Qed.

Lemma l_off_pos c d : 0 <= d < 256 -> 0 <= Z.lor (Z.shiftl (Z.land c 63) 8) d.
Proof. intros Hd. apply Z.lor_nonneg. split; [|lia]. apply Z.shiftl_nonneg, Z.land_nonneg. lia. Qed.

Lemma expand_loop_returns cap fuel x :
  expand_ok cap fuel x -> returns (fun r => Z.of_nat (length (fst r)) < cap /\ 0 < snd r <= e) (expand_loop m e fuel cap x).
Proof using Hm Hb.
  revert x. induction fuel as [|fuel IH]; intros x (H1 & H2 & H3 & H4 & H5 & H6); [lia|].
  cbn [expand_loop]. unfold expand_round. destruct (Z.ltb_spec (x_p x) e); cbn [negb]; [|done].
  destruct (rd_ok (x_p x)) as (c & -> & Hc); [lia|]. cbn [dbind].
  destruct (Z.eqb_spec c 0) as [->|Hc0].
  { destruct (Z.eqb_spec (x_len x) 0); [done|]. rewrite wr_returns by (cbn; lia). cbn. split; [lia|]. destruct (x_ptr x); lia. }
  destruct (Z.land c 192 =? 192).
  { destruct (Z.leb_spec e (x_p x + 1)); [done|]. destruct (rd_ok (x_p x + 1)) as (d & -> & Hd); [lia|]. cbn [dbind].
    pose proof (l_off_pos c d Hd). set (l_off := Z.lor _ d) in *.
    destruct (Z.ltb_spec e (x_p x + 2)); [done|]. destruct (Z.leb_spec e (l_off + 1)); [done|].
    destruct (Z.ltb_spec 256 (x_jumps x + 1)); [done|]. cbn [dbind]. apply IH.
    unfold expand_ok. cbn. split_and!; try lia. all: destruct (x_ptr x); lia. }
  destruct (negb _); [done|]. destruct (Z.leb_spec e (x_p x + c + 1)); [done|]. destruct (Z.leb_spec (x_len x) c); [done|].
  pose proof (rd_bytes_returns (Z.to_nat c) (x_p x + 1) ltac:(lia) ltac:(lia)) as Hl.
  destruct (rd_bytes _ _ _) as [l| | |]; try done. cbn [returns dbind] in *. rewrite wr_returns by lia. cbn [dbind].
  destruct (rd_ok (x_p x + c + 1)) as (d & -> & Hd); [lia|]. cbn [dbind].
  destruct (d =? 0).
  { cbn [dbind]. apply IH. unfold expand_ok. cbn. rewrite length_app. split_and!; try lia; done. }
  destruct (Z.eqb_spec (x_len x - c - 1) 0); [done|].
  rewrite wr_returns by (rewrite length_app; cbn; lia). cbn [dbind]. apply IH. unfold expand_ok. cbn. rewrite !length_app. cbn. split_and!; try lia; done.
Qed.

Lemma expand_name_returns p len :
  0 <= p -> 0 < len -> returns (fun r => Z.of_nat (length (fst r)) < len /\ 0 < snd r <= e) (dns_expand_name m e p len).
Proof using Hm Hb. intros Hp Hl. apply expand_loop_returns. unfold expand_ok. cbn. lia. Qed.

Lemma skip_queries_returns n p : 0 <= p <= e -> returns (fun q => 0 <= q <= e) (skip_queries m e n p).
Proof using Hm Hb.
  revert p. induction n as [|n IH]; intros p Hp; cbn [skip_queries]; [done|].
  eapply returns_bind; [apply skip_name_returns; lia|]. intros q Hq. cbv beta in Hq.
  destruct (Z.ltb_spec e (q + 4)); [done|]. apply IH. lia.
Qed.

(** What a record is known to be when [fct] sees it. *)
Definition rr_ok (rr : dns_record) : Prop :=
  Z.of_nat (length (rr_name rr)) < NS_MAXDNAME /\ 0 <= rr_rdata rr /\ 0 <= rr_rdata_len rr /\ rr_rdata rr + rr_rdata_len rr <= e.

Lemma parse_record_returns p : 0 <= p -> returns (fun r => rr_ok (fst r) /\ 0 <= snd r <= e) (parse_record m e p).
Proof using Hm Hb.
  intros Hp. unfold parse_record. eapply returns_bind; [apply expand_name_returns; [lia|done]|].
  intros [name q] [Hn Hq]. cbn [fst snd] in *. destruct (Z.ltb_spec e (q + 8)); [done|].
  eapply returns_bind; [apply get_16_returns; lia|]. intros t Ht. eapply returns_bind; [apply get_16_returns; lia|]. intros c Hc.
  eapply returns_bind; [apply get_32_returns; lia|]. intros ttl Httl. destruct (Z.ltb_spec e (q + 8 + 2)); [done|].
  eapply returns_bind; [apply get_16_returns; lia|]. intros n Hn'. cbv beta in *. destruct (Z.ltb_spec e (q + 10 + n)); [done|].
  cbn. unfold rr_ok. cbn. lia.
Qed.

Section Fct.
Context {A : Type} (fct : dns_record -> dns_section_type -> A -> dres A) (I : A -> Prop).
Context (Hf : forall rr s a, rr_ok rr -> I a -> returns I (fct rr s a)).

Lemma parse_records_returns s n p a :
  0 <= p <= e -> I a -> returns (fun r => 0 <= fst r <= e /\ I (snd r)) (parse_records m e fct s n p a).
Proof using Hm Hb Hf.
  revert p a. induction n as [|n IH]; intros p a Hp Ha; cbn [parse_records]; [done|].
  eapply returns_bind; [apply parse_record_returns; lia|]. intros [rr q] [Hr Hq].
  eapply returns_bind; [by apply Hf|]. intros b Hb'. by apply IH.
Qed.

Lemma parse_sections_returns l p a : 12 < e -> 0 <= p <= e -> I a -> returns I (parse_sections m e fct l p a).
Proof using Hm Hb Hf.
  intros He. revert p a. induction l as [|s l IH]; intros p a Hp Ha; cbn [parse_sections]; [done|].
  eapply returns_bind; [apply get_16_returns; unfold SECTION_COUNTS_OFF; destruct s; cbn; lia|]. intros n _.
  eapply returns_bind; [by apply parse_records_returns|]. intros [q b] [Hq Hb']. by apply IH.
Qed.

Lemma msg_parse_returns a : I a -> returns I (dns_msg_parse m e fct a).
Proof using Hm Hb Hf.
  intros Ha. unfold dns_msg_parse, HEADER_OFFSET. destruct (Z.leb_spec e 12); [done|].
  eapply returns_bind; [apply get_16_returns; unfold SECTION_COUNTS_OFF; lia|]. intros n _.
  eapply returns_bind; [apply skip_queries_returns; lia|]. intros p Hp. by apply parse_sections_returns.
Qed.

End Fct.
End Bounds.

(** The records of a message in order, with their sections. *)
Definition dns_records (m : list Z) (e : Z) : dres (list (dns_section_type * dns_record)) :=
  dns_msg_parse m e (fun rr s a => DOk (a ++ [(s, rr)])) [].

(** C36: whatever bytes arrive, parsing a DNS message ends, reads only bytes of the message
    and stays inside the buffer for names, also when names contain pointers in circles; the
    names of the records fit their field and the data of the records lie in the message. *)
Theorem dns_parse_safe m e :
  e <= Z.of_nat (length m) -> Forall (fun c => 0 <= c < 256) m ->
  dns_records m e = DErr \/
  exists l, dns_records m e = DOk l /\ Forall (fun x => rr_ok e (snd x)) l.
Proof.
  intros Hm Hb. pose proof (msg_parse_returns m e Hm Hb (fun rr s a => DOk (a ++ [(s, rr)])) (Forall (fun x => rr_ok e (snd x)))) as H.
  unfold dns_records. specialize (H ltac:(intros rr s a Hr Ha; cbn; apply Forall_app_2; [done|by apply Forall_singleton]) [] ltac:(constructor)).
  destruct (dns_msg_parse _ _ _ _) as [l| | |]; try done; [right; by exists l|by left].
Qed.

(** ** Names are expanded *)

(** What stands at a position: labels up to a zero byte, or labels and then a pointer to
    more of them.  [j] is the number of pointers, [q] the position behind the name. *)
Inductive name_at (m : list Z) (e : Z) : Z -> list (list Z) -> Z -> Z -> Prop :=
| NameEnd p : p < e -> rd m p = DOk 0 -> name_at m e p [] 0 (p + 1)
| NameLabel p c l ls j q :
    rd m p = DOk c -> 0 < c < 64 -> rd_bytes m (Z.to_nat c) (p + 1) = DOk l -> p + c + 1 < e ->
    name_at m e (p + c + 1) ls j q -> name_at m e p (l :: ls) j q
| NamePtr p hi lo ls j q :
    rd m p = DOk (192 + hi) -> rd m (p + 1) = DOk lo -> 0 <= hi < 64 -> 0 <= lo < 256 -> p + 2 <= e ->
    hi * 256 + lo + 1 < e -> ls <> [] ->
    name_at m e (hi * 256 + lo) ls j q -> name_at m e p ls (j + 1) (p + 2).

(** The text of a name. *)
Fixpoint dotted (ls : list (list Z)) : list Z :=
  match ls with [] => [] | [l] => l | l :: ls => l ++ [46] ++ dotted ls end.

Lemma name_at_jumps m e p ls j q : name_at m e p ls j q -> 0 <= j.
Proof. induction 1; lia. Qed.

(** The first byte of a name is zero exactly when it has no labels. *)
Lemma name_at_first m e p ls j q :
  name_at m e p ls j q -> exists c, rd m p = DOk c /\ p < e /\ (ls = [] <-> c = 0).
Proof.
  destruct 1 as [p Hp H|p c l ls j q H Hc Hl Hp _|p hi lo ls j q H1 H2 Hh Hl Hp Ho Hn _].
  - by exists 0.
  - exists c. split_and!; [done|lia|]. split; [done|lia].
  - exists (192 + hi). split_and!; [done|lia|]. split; [done|lia].
Qed.

Lemma rd_bytes_length m n p l : rd_bytes m n p = DOk l -> length l = n.
Proof.
  revert p l. induction n as [|n IH]; intros p l; cbn [rd_bytes]; [by intros [= <-]|].
  destruct (rd m p) as [c| | |]; cbn; try done. destruct (rd_bytes m n (p + 1)) as [k| | |] eqn:Hk; cbn; try done.
  intros [= <-]. cbn. f_equal. by eapply IH.
Qed.

Lemma high_bits c n : 0 <= c < 256 -> 8 <= n -> Z.testbit c n = false.
Proof.
  intros Hc Hn. destruct (Z.eq_dec c 0) as [->|]; [apply Z.bits_0|]. apply Z.bits_above_log2; [lia|].
  pose proof (proj1 (Z.log2_lt_pow2 c 8 ltac:(lia))). lia.
Qed.

(** Bits of the first byte of a label and of a pointer. *)
Lemma label_byte c : 0 < c < 64 -> Z.land c 192 = 0 /\ Z.land c 63 = c.
Proof.
  intros Hc. split.
  - apply Z.bits_inj'. intros n Hn. rewrite Z.land_spec, Z.bits_0. destruct (Z.le_gt_cases 6 n).
    + rewrite (Z.bits_above_log2 c) by (try lia; pose proof (Z.log2_lt_pow2 c 6); lia). done.
    + replace (Z.testbit 192 n) with false; [apply andb_false_r|]. assert (n = 0 \/ n = 1 \/ n = 2 \/ n = 3 \/ n = 4 \/ n = 5) as Hd by lia.
      by destruct Hd as [->|[->|[->|[->|[->| ->]]]]].
  - change 63 with (Z.ones 6). rewrite Z.land_ones by lia. apply Z.mod_small. lia.
Qed.

Lemma pointer_byte hi lo :
  0 <= hi < 64 -> 0 <= lo < 256 -> Z.land (192 + hi) 192 = 192 /\ Z.lor (Z.shiftl (Z.land (192 + hi) 63) 8) lo = hi * 256 + lo.
Proof.
  intros Hh Hl. assert (Ha : Z.land (192 + hi) 63 = hi).
  { change 63 with (Z.ones 6). rewrite Z.land_ones by lia. rewrite Z.add_comm. change 192 with (3 * 2 ^ 6). rewrite Z_mod_plus_full. apply Z.mod_small. lia. }
  assert (Hd : 192 + hi = Z.lor 192 hi).
  { rewrite <- Z.lxor_lor, <- Z.add_nocarry_lxor; [done| |]; destruct (Z.eq_dec hi 0) as [->|]; try done;
      rewrite Z.land_comm; apply label_byte; lia. }
  split.
  - rewrite Hd, Z.land_lor_distr_l. destruct (Z.eq_dec hi 0) as [->|]; [done|]. rewrite (proj1 (label_byte hi ltac:(lia))). done.
  - rewrite Ha, Z.shiftl_mul_pow2 by lia. rewrite <- Z.lxor_lor, <- Z.add_nocarry_lxor; [lia| |].
    all: apply Z.bits_inj'; intros n Hn; rewrite Z.land_spec, Z.bits_0; destruct (Z.le_gt_cases 8 n) as [H8|H8];
      [rewrite (high_bits lo n) by lia; apply andb_false_r|rewrite Z.mul_pow2_bits_low by lia; done].
Qed.

Lemma dotted_cons l ls : dotted (l :: ls) = l ++ match ls with [] => [] | _ => 46 :: dotted ls end.
Proof. destruct ls; [by rewrite app_nil_r|done]. Qed.

Lemma expand_loop_name m e cap p ls j q :
  name_at m e p ls j q -> forall fuel x,
  x_p x = p -> 0 <= x_jumps x <= 256 -> x_jumps x + j <= 256 -> Z.of_nat (length (x_buf x)) + x_len x = cap ->
  Z.of_nat (length (dotted ls)) < x_len x -> x_len x + 257 - x_jumps x <= Z.of_nat fuel ->
  expand_loop m e fuel cap x = DOk (x_buf x ++ dotted ls, match x_ptr x with Some r => r | None => q end).
Proof.
  induction 1 as [p Hp H|p c l ls j q H Hc Hl Hp Hn IH|p hi lo ls j q H1 H2 Hh Hl Hp Ho Hne Hn IH];
    intros fuel x Hx Hj Hjj Hcap Hd Hf; (destruct fuel as [|fuel]; [lia|]); cbn [expand_loop]; unfold expand_round; rewrite Hx.
  - rewrite (proj2 (Z.ltb_lt p e)), H by done. cbn [negb dbind Z.eqb]. rewrite (proj2 (Z.eqb_neq (x_len x) 0)) by (cbn in Hd; lia).
    rewrite wr_returns by (cbn in *; lia). cbn [dbind]. by rewrite app_nil_r.
  - rewrite (proj2 (Z.ltb_lt p e)), H by lia. cbn [negb dbind]. destruct (label_byte c Hc) as [Hb1 Hb2]. apply rd_bytes_length in Hl as Hll.
    rewrite (proj2 (Z.eqb_neq c 0)), Hb1, Hb2 by lia. change (0 =? 192) with false. rewrite Z.eqb_refl. cbn [negb].
    rewrite (proj2 (Z.leb_gt e (p + c + 1))) by lia.
    rewrite dotted_cons, length_app in Hd. rewrite (proj2 (Z.leb_gt (x_len x) c)) by lia.
    rewrite Hl. cbn [dbind]. rewrite wr_returns by lia. cbn [dbind].
    destruct (name_at_first _ _ _ _ _ _ Hn) as (d & Hrd & _ & Hd0). rewrite Hrd. cbn [dbind].
    destruct (Z.eqb_spec d 0) as [Hz|Hz].
    + apply Hd0 in Hz as ->. cbn [dbind]. rewrite IH; cbn [x_p x_jumps x_buf x_len x_ptr]; try done; rewrite ?length_app; cbn [length dotted] in *; try lia.
      by rewrite !app_nil_r.
    + assert (Hls : ls <> []) by (intros ->; by apply Hz, Hd0).
      assert (Hd' : Z.of_nat (length l + S (length (dotted ls))) < x_len x) by (destruct ls; [done|exact Hd]).
      rewrite (proj2 (Z.eqb_neq _ 0)) by lia. rewrite wr_returns by (rewrite length_app; cbn; lia). cbn [dbind].
      rewrite IH; cbn [x_p x_jumps x_buf x_len x_ptr]; try done; rewrite ?length_app; cbn [length] in *; try lia.
      rewrite dotted_cons, <- !app_assoc. by destruct ls.
  - rewrite (proj2 (Z.ltb_lt p e)), H1 by lia. cbn [negb dbind]. destruct (pointer_byte hi lo Hh Hl) as [Hb1 Hb2].
    rewrite (proj2 (Z.eqb_neq (192 + hi) 0)), Hb1 by lia. rewrite Z.eqb_refl, (proj2 (Z.leb_gt e (p + 1))), H2 by lia. cbn [dbind].
    rewrite Hb2, (proj2 (Z.ltb_ge e (p + 2))), (proj2 (Z.leb_gt e _)) by lia. pose proof (name_at_jumps _ _ _ _ _ _ Hn).
    rewrite (proj2 (Z.ltb_ge 256 _)) by lia. cbn [dbind]. rewrite IH; cbn [x_p x_jumps x_buf x_len x_ptr]; try done; try lia; by destruct (x_ptr x).
Qed.

(** Names are expanded into their labels.  A name of a message, written out or with
    pointers to other names in it (at most 256 of them), whose text fits the buffer, is
    expanded into its labels with dots between them, and reading goes on behind the name:
    behind its zero byte, or behind the first pointer. *)
Theorem dns_name_expanded m e p ls j q :
  name_at m e p ls j q -> j <= 256 -> Z.of_nat (length (dotted ls)) < NS_MAXDNAME ->
  dns_expand_name m e p NS_MAXDNAME = DOk (dotted ls, q).
Proof.
  intros Hn Hj Hd. unfold dns_expand_name. pose proof (name_at_jumps _ _ _ _ _ _ Hn). unfold NS_MAXDNAME in *.
  rewrite (expand_loop_name m e 1025 p ls j q Hn); cbn [x_p x_jumps x_buf x_len x_ptr length app]; try done; lia.
Qed.

(** ** Written messages are read back *)

(** The bytes [l] stand at a position. *)
Definition at_pos (m : list Z) (p : Z) (l : list Z) : Prop := rd_bytes m (length l) p = DOk l.

Lemma at_cons m p c l : at_pos m p (c :: l) <-> rd m p = DOk c /\ at_pos m (p + 1) l.
Proof.
  unfold at_pos. cbn [length rd_bytes]. destruct (rd m p) as [d| | |]; cbn; try (split; [done|by intros [? _]]).
  destruct (rd_bytes m (length l) (p + 1)) as [k| | |]; cbn; split; (try by intros [_ ?]); (try done).
  - by intros [= -> ->].
  - by intros [[= ->] [= ->]].
Qed.

Lemma at_app m p a b : at_pos m p (a ++ b) <-> at_pos m p a /\ at_pos m (p + Z.of_nat (length a)) b.
Proof.
  revert p. induction a as [|c a IH]; intros p; cbn [app length].
  - replace (p + Z.of_nat 0) with p by lia. by split; [|intros [_ ?]].
  - rewrite !at_cons, IH. replace (p + 1 + Z.of_nat (length a)) with (p + Z.of_nat (S (length a))) by lia. tauto.
Qed.

Lemma at_self pre m : at_pos (pre ++ m) (Z.of_nat (length pre)) m.
Proof.
  revert pre. induction m as [|c m IH]; intros pre; [done|]. apply at_cons. split.
  - unfold rd. rewrite (proj2 (Z.ltb_ge _ _)), Nat2Z.id, lookup_app_r, Nat.sub_diag by lia. done.
  - specialize (IH (pre ++ [c])). rewrite <- app_assoc, length_app in IH. cbn in IH.
    by replace (Z.of_nat (length pre) + 1) with (Z.of_nat (length pre + 1)) by lia.
Qed.

Definition be16 (n : Z) : list Z := [n / 256; n mod 256].
Definition be32 (n : Z) : list Z := be16 (n / 65536) ++ be16 (n mod 65536).

Lemma at_be16 m p n : at_pos m p (be16 n) -> dns_get_16 m p = DOk n.
Proof.
  unfold be16. rewrite !at_cons. intros (H1 & H2 & _). unfold dns_get_16. rewrite H1, H2. cbn. f_equal. pose proof (Z.div_mod n 256). lia.
Qed.

Lemma at_be32 m p n : at_pos m p (be32 n) -> dns_get_32 m p = DOk n.
Proof.
  unfold be32. rewrite at_app. intros [H1%at_be16 H2%at_be16]. cbn [length be16 Z.of_nat] in H2. unfold dns_get_32.
  rewrite H1. cbn [dbind]. change (p + Z.of_nat 2) with (p + 2) in H2. rewrite H2. cbn. f_equal. pose proof (Z.div_mod n 65536). lia.
Qed.

(** A name without pointers. *)
Fixpoint enc_name (ls : list (list Z)) : list Z :=
  match ls with [] => [0] | l :: ls => Z.of_nat (length l) :: l ++ enc_name ls end.

Definition label_ok (l : list Z) : Prop := (0 < length l < 64)%nat.

(** A record and a query, as they are written. *)
Record wrr := mk_wrr { w_name : list (list Z); w_type : Z; w_class : Z; w_ttl : Z; w_data : list Z }.
Record wquery := mk_wq { wq_name : list (list Z); wq_type : Z; wq_class : Z }.

Definition enc_rr (w : wrr) : list Z :=
  enc_name (w_name w) ++ be16 (w_type w) ++ be16 (w_class w) ++ be32 (w_ttl w) ++ be16 (Z.of_nat (length (w_data w))) ++ w_data w.

Definition enc_query (q : wquery) : list Z := enc_name (wq_name q) ++ be16 (wq_type q) ++ be16 (wq_class q).

Definition enc_msg (id flags : Z) (qs : list wquery) (an ns ar : list wrr) : list Z :=
  be16 id ++ be16 flags ++ be16 (Z.of_nat (length qs)) ++ be16 (Z.of_nat (length an)) ++ be16 (Z.of_nat (length ns)) ++
  be16 (Z.of_nat (length ar)) ++ concat (enc_query <$> qs) ++ concat (enc_rr <$> an) ++ concat (enc_rr <$> ns) ++ concat (enc_rr <$> ar).

Definition name_ok (ls : list (list Z)) : Prop := Forall label_ok ls /\ Z.of_nat (length (dotted ls)) < NS_MAXDNAME.

(** A record that is read is the one that was written. *)
Definition reads_as (m : list Z) (s : dns_section_type) (w : wrr) (x : dns_section_type * dns_record) : Prop :=
  fst x = s /\ rr_name (snd x) = dotted (w_name w) /\ rr_type (snd x) = w_type w /\ rr_class (snd x) = w_class w /\
  rr_ttl (snd x) = w_ttl w /\ rr_rdata_len (snd x) = Z.of_nat (length (w_data w)) /\ at_pos m (rr_rdata (snd x)) (w_data w).

Section Written.
Context (m : list Z) (e : Z).

Lemma at_name p ls :
  Forall label_ok ls -> at_pos m p (enc_name ls) -> p + Z.of_nat (length (enc_name ls)) <= e ->
  name_at m e p ls 0 (p + Z.of_nat (length (enc_name ls))).
Proof.
  intros Hl. revert p. induction Hl as [|l ls Hl _ IH]; intros p Ha He; cbn [enc_name length] in *; apply at_cons in Ha as [Hc Ha].
  - apply NameEnd; [lia|done].
  - apply at_app in Ha as [Ha1 Ha2]. rewrite length_app in *. unfold label_ok in Hl.
    assert (0 < length (enc_name ls))%nat by (destruct ls; cbn; lia).
    specialize (IH (p + Z.of_nat (length l) + 1)). replace (p + 1 + Z.of_nat (length l)) with (p + Z.of_nat (length l) + 1) in Ha2 by lia.
    replace (p + Z.of_nat (S (length l + length (enc_name ls)))) with (p + Z.of_nat (length l) + 1 + Z.of_nat (length (enc_name ls))) by lia.
    apply (NameLabel m e p (Z.of_nat (length l)) l); try lia; try done; [by rewrite Nat2Z.id|]. apply IH; [done|lia].
Qed.

Lemma at_skip p ls fuel :
  Forall label_ok ls -> at_pos m p (enc_name ls) -> p + Z.of_nat (length (enc_name ls)) < e -> (length (enc_name ls) <= fuel)%nat ->
  skip_loop m e fuel p = DOk (p + Z.of_nat (length (enc_name ls))).
Proof.
  intros Hl. revert p fuel. induction Hl as [|l ls Hl _ IH]; intros p fuel Ha He Hf; cbn [enc_name length] in *; apply at_cons in Ha as [Hc Ha];
    (destruct fuel as [|fuel]; [lia|]); cbn [skip_loop]; rewrite (proj2 (Z.ltb_lt p e)), Hc by lia; cbn [negb dbind].
  - cbn [Z.eqb]. change (Z.of_nat 1) with 1 in *. by rewrite (proj2 (Z.ltb_lt _ _)) by lia.
  - apply at_app in Ha as [Ha1 Ha2]. rewrite length_app in *. unfold label_ok in Hl.
    rewrite (proj2 (Z.eqb_neq _ 0)) by lia. rewrite (proj1 (label_byte (Z.of_nat (length l)) ltac:(lia))). cbn [Z.eqb negb].
    rewrite (proj2 (Z.ltb_ge _ _)) by lia. replace (p + 1 + Z.of_nat (length l)) with (p + Z.of_nat (length l) + 1) in Ha2 by lia.
    rewrite IH; [f_equal; lia|done|lia|lia].
Qed.

Lemma at_queries qs p :
  Forall (fun q => name_ok (wq_name q)) qs -> at_pos m p (concat (enc_query <$> qs)) -> 0 <= p ->
  p + Z.of_nat (length (concat (enc_query <$> qs))) <= e ->
  skip_queries m e (length qs) p = DOk (p + Z.of_nat (length (concat (enc_query <$> qs)))).
Proof.
  intros Hq. revert p. induction Hq as [|q qs [Hq _] _ IH]; intros p Ha Hp He; [cbn; f_equal; lia|].
  change (concat (enc_query <$> q :: qs)) with (enc_query q ++ concat (enc_query <$> qs)) in *. cbn [length skip_queries].
  apply at_app in Ha as [Ha1 Ha2]. rewrite length_app in *. assert (Hlen : length (enc_query q) = (length (enc_name (wq_name q)) + 4)%nat)
    by (unfold enc_query; by rewrite length_app). rewrite Hlen in *. unfold enc_query in Ha1. apply at_app in Ha1 as [Ha1 _].
  unfold dns_skip_name. rewrite (at_skip p (wq_name q)); [|done|done|lia|lia]. cbn [dbind].
  rewrite (proj2 (Z.ltb_ge _ _)) by lia.
  replace (p + Z.of_nat (length (enc_name (wq_name q)) + 4)) with (p + Z.of_nat (length (enc_name (wq_name q))) + 4) in Ha2 by lia.
  rewrite IH; [f_equal; lia|done|lia|lia].
Qed.

Lemma at_record w p :
  name_ok (w_name w) -> at_pos m p (enc_rr w) -> p + Z.of_nat (length (enc_rr w)) <= e -> forall s,
  exists rr, parse_record m e p = DOk (rr, p + Z.of_nat (length (enc_rr w))) /\ reads_as m s w (s, rr).
Proof.
  intros [Hl Hd] Ha He s. assert (Hlen : length (enc_rr w) = (length (enc_name (w_name w)) + 10 + length (w_data w))%nat)
    by (unfold enc_rr; rewrite !length_app; cbn; lia). rewrite Hlen in *. unfold enc_rr in Ha.
  rewrite !at_app in Ha. destruct Ha as (A1 & A2 & A3 & A4 & A5 & A6). change (length (be16 _)) with 2%nat in *. change (length (be32 _)) with 4%nat in *.
  set (n := Z.of_nat (length (enc_name (w_name w)))) in *.
  pose proof (at_name p (w_name w) Hl A1 ltac:(lia)) as Hn. fold n in Hn.
  apply dns_name_expanded in Hn; [|lia|done]. unfold parse_record. rewrite Hn. cbn [dbind].
  apply at_be16 in A2, A3, A5. apply at_be32 in A4. change (Z.of_nat 2) with 2 in *. change (Z.of_nat 4) with 4 in *.
  rewrite (proj2 (Z.ltb_ge e (p + n + 8))), A2 by lia. cbn [dbind]. rewrite A3. cbn [dbind].
  replace (p + n + 4) with (p + n + 2 + 2) by lia. rewrite A4. cbn [dbind].
  rewrite (proj2 (Z.ltb_ge e (p + n + 8 + 2))) by lia. replace (p + n + 8) with (p + n + 2 + 2 + 4) by lia. rewrite A5. cbn [dbind].
  rewrite (proj2 (Z.ltb_ge e _)) by lia. eexists. split; [f_equal; apply pair_equal_spec; split; [reflexivity|lia]|].
  unfold reads_as. cbn. split_and!; try done. by replace (p + n + 10) with (p + n + 2 + 2 + 4 + 2) by lia.
Qed.

Lemma at_records s ws p l :
  Forall (fun w => name_ok (w_name w)) ws -> at_pos m p (concat (enc_rr <$> ws)) -> p + Z.of_nat (length (concat (enc_rr <$> ws))) <= e ->
  exists k, parse_records m e (fun rr s a => DOk (a ++ [(s, rr)])) s (length ws) p l =
    DOk (p + Z.of_nat (length (concat (enc_rr <$> ws))), l ++ k) /\ Forall2 (reads_as m s) ws k.
Proof.
  intros Hw. revert p l. induction Hw as [|w ws Hw _ IH]; intros p l Ha He.
  { exists []. split; [cbn; rewrite app_nil_r; do 2 f_equal; lia|constructor]. }
  change (concat (enc_rr <$> w :: ws)) with (enc_rr w ++ concat (enc_rr <$> ws)) in *. cbn [length parse_records].
  apply at_app in Ha as [Ha1 Ha2]. rewrite length_app in *. destruct (at_record w p Hw Ha1 ltac:(lia) s) as (rr & -> & Hr). cbn [dbind].
  destruct (IH (p + Z.of_nat (length (enc_rr w))) (l ++ [(s, rr)]) Ha2 ltac:(lia)) as (k & -> & Hk).
  exists ((s, rr) :: k). split; [|by constructor]. rewrite <- app_assoc. cbn [app]. do 2 f_equal. lia.
Qed.

End Written.

(** C37: a DNS message is read as it was written.  Whatever queries and records (with names
    written out) a message carries, its records come out in order, each in its section, with
    name, type, class, time to live, and the position of its data. *)
Theorem dns_message_roundtrip id flags qs an ns ar :
  Forall (fun q => name_ok (wq_name q)) qs -> Forall (fun w => name_ok (w_name w)) (an ++ ns ++ ar) ->
  qs <> [] \/ an ++ ns ++ ar <> [] ->
  let m := enc_msg id flags qs an ns ar in
  exists k1 k2 k3, dns_records m (Z.of_nat (length m)) = DOk (k1 ++ k2 ++ k3) /\
    Forall2 (reads_as m dns_s_an) an k1 /\ Forall2 (reads_as m dns_s_ns) ns k2 /\ Forall2 (reads_as m dns_s_ar) ar k3.
Proof.
  intros Hq Hw Hne m. rewrite !Forall_app in Hw. destruct Hw as (Hw1 & Hw2 & Hw3).
  assert (Ha : at_pos m 0 (enc_msg id flags qs an ns ar)) by exact (at_self [] m). unfold enc_msg in Ha. rewrite !at_app in Ha.
  destruct Ha as (_ & _ & A3 & A4 & A5 & A6 & A7 & A8 & A9 & A10). change (length (be16 _)) with 2%nat in *.
  change (at_pos m 4 (be16 (Z.of_nat (length qs)))) in A3. change (at_pos m 6 (be16 (Z.of_nat (length an)))) in A4.
  change (at_pos m 8 (be16 (Z.of_nat (length ns)))) in A5. change (at_pos m 10 (be16 (Z.of_nat (length ar)))) in A6.
  change (0 + Z.of_nat 2 + Z.of_nat 2 + Z.of_nat 2 + Z.of_nat 2 + Z.of_nat 2 + Z.of_nat 2) with 12 in *.
  assert (Hlen : Z.of_nat (length m) = 12 + Z.of_nat (length (concat (enc_query <$> qs))) + Z.of_nat (length (concat (enc_rr <$> an))) +
    Z.of_nat (length (concat (enc_rr <$> ns))) + Z.of_nat (length (concat (enc_rr <$> ar)))) by (unfold m, enc_msg; rewrite !length_app; cbn; lia).
  apply at_be16 in A3, A4, A5, A6. unfold dns_records, dns_msg_parse, HEADER_OFFSET, dns_msg_count, SECTION_COUNTS_OFF.
  rewrite (proj2 (Z.leb_gt _ _)).
  2: { clear -Hlen Hne. assert (Hc : forall (A : Type) (f : A -> list Z) l, (forall a, f a <> []) -> l <> [] -> (0 < length (concat (f <$> l)))%nat).
       { intros A f [|a l] Hf Hl; [done|]. change (concat (f <$> a :: l)) with (f a ++ concat (f <$> l)). specialize (Hf a). rewrite length_app.
         destruct (f a); [done|cbn; lia]. }
       assert (Hn : forall w, enc_rr w <> []) by (intros w; unfold enc_rr; by destruct (w_name w)).
       destruct Hne as [Hne|Hne]; [pose proof (Hc _ enc_query qs ltac:(intros q; unfold enc_query; by destruct (wq_name q)) Hne); lia|].
       destruct an; [|pose proof (Hc _ enc_rr (w :: an) Hn ltac:(done)); lia]. destruct ns; [|pose proof (Hc _ enc_rr (w :: ns) Hn ltac:(done)); lia].
       cbn [app] in Hne. pose proof (Hc _ enc_rr ar Hn Hne). lia. }
  change (4 + 2 * 0) with 4. rewrite A3. cbn [dbind]. rewrite Nat2Z.id, (at_queries m _ qs 12) by (done || lia). cbn [dbind parse_sections section_num].
  unfold dns_msg_count, SECTION_COUNTS_OFF. change (4 + 2 * 1) with 6. change (4 + 2 * 2) with 8. change (4 + 2 * 3) with 10.
  rewrite A4. cbn [dbind]. rewrite Nat2Z.id. destruct (at_records m (Z.of_nat (length m)) dns_s_an an _ [] Hw1 A8 ltac:(lia)) as (k1 & -> & K1). cbn [dbind].
  rewrite A5. cbn [dbind]. rewrite Nat2Z.id. destruct (at_records m (Z.of_nat (length m)) dns_s_ns ns _ ([] ++ k1) Hw2 A9 ltac:(lia)) as (k2 & -> & K2). cbn [dbind].
  rewrite A6. cbn [dbind]. rewrite Nat2Z.id. destruct (at_records m (Z.of_nat (length m)) dns_s_ar ar _ (([] ++ k1) ++ k2) Hw3 A10 ltac:(lia)) as (k3 & -> & K3). cbn [dbind].
  exists k1, k2, k3. split_and!; try done. cbn [app]. by rewrite app_assoc.
Qed.

(** ** Witnesses *)

(** An answer for the name a.b, whose second record points to the name of the query. *)
Definition demo_answer : list Z :=
  [0; 1; 128; 0; 0; 1; 0; 1; 0; 0; 0; 0] ++ [1; 97; 1; 98; 0; 0; 1; 0; 1] ++ [192; 12; 0; 1; 0; 1; 0; 0; 0; 60; 0; 4; 10; 0; 0; 1].

Lemma dns_parse_safe_witness :
  dns_records demo_answer 37 = DOk [(dns_s_an, mk_rr [97; 46; 98] 1 1 60 4 33)] /\
  (dns_records demo_answer 30 = DErr \/ exists l, dns_records demo_answer 30 = DOk l /\ Forall (fun x => rr_ok 30 (snd x)) l).
Proof.
  split; [vm_compute; done|]. apply dns_parse_safe; [cbn; lia|]. unfold demo_answer. repeat (constructor; [lia|]). constructor.
Defined.

Lemma dns_name_expanded_witness : dns_expand_name demo_answer 37 21 NS_MAXDNAME = DOk ([97; 46; 98], 23).
Proof.
  apply (dns_name_expanded demo_answer 37 21 [[97]; [98]] 1 23); [|lia|vm_compute; done].
  apply (NamePtr demo_answer 37 21 0 12 _ 0 17); try done; try lia.
  apply (NameLabel demo_answer 37 12 1 [97]); try done. apply (NameLabel demo_answer 37 14 1 [98]); try done. apply (NameEnd demo_answer 37 16); done.
Defined.

Lemma dns_message_roundtrip_witness :
  let m := enc_msg 7 0 [mk_wq [[97]] 1 1] [mk_wrr [[97]; [98]] 1 1 60 [10; 0; 0; 1]] [] [] in
  exists k1 k2 k3, dns_records m (Z.of_nat (length m)) = DOk (k1 ++ k2 ++ k3) /\
    Forall2 (reads_as m dns_s_an) [mk_wrr [[97]; [98]] 1 1 60 [10; 0; 0; 1]] k1 /\ Forall2 (reads_as m dns_s_ns) [] k2 /\ Forall2 (reads_as m dns_s_ar) [] k3.
Proof.
  apply dns_message_roundtrip.
  - constructor; [|constructor]. split; [constructor; [unfold label_ok; cbn; lia|constructor]|vm_compute; done].
  - constructor; [|constructor]. split; [repeat (constructor; [unfold label_ok; cbn; lia|]); constructor|vm_compute; done].
  - by left.
Defined.
