(* ===== verification/Resolver.v ===== *)
(** * The resolver

    Model of [core/sip/resolver.cpp]: the records of DNS answers, the choice between SRV
    records, the cache, and the resolution of the destinations of a request into a set of
    targets.

    An entry is a value with an address of its own ([e_id]): entries are not changed once they
    have been read, and they are compared by address.  Their reference counts are left out, and
    so is [fill_ip_list], which is not called.  A method that returns an [int] returns it with
    the state; using a null pointer is a fault. *)

From Stdlib Require Import ZArith Lia String.
From stdpp Require Import base list.
From S2P Require Import Prelude Dns.

Local Open Scope Z_scope.
Local Open Scope bool_scope.

(** ** Records and entries *)

Inductive address_type := IPv4 | IPv6.

#[global] Instance address_type_eq_dec : EqDecision address_type.
Proof. solve_decision. Defined.

Definition dns_r_a : Z := 1.
Definition dns_r_aaaa : Z := 28.
Definition dns_r_srv : Z := 33.
Definition dns_r_naptr : Z := 35.

Record ip_entry := mk_ip { ip_type : address_type; ip_addr : list Z }.

Record srv_entry := mk_srv { srv_p : Z; srv_w : Z; srv_port : Z; srv_target : list Z }.

Record naptr_record := mk_naptr {
  na_order : Z; na_pref : Z; na_flags : list Z; na_services : list Z; na_regexp : list Z; na_replace : list Z
}.

(** The vector [ip_vec] of the three classes. *)
Inductive entry_body := IpEntry (l : list ip_entry) | SrvEntry (l : list srv_entry) | NaptrEntry (l : list naptr_record).

Record dns_entry := mk_entry { e_id : nat; e_expire : Z; e_body : entry_body }.

Definition body_size (b : entry_body) : nat :=
  match b with IpEntry l => length l | SrvEntry l => length l | NaptrEntry l => length l end.

(** A C string ends at the first zero byte. *)
Fixpoint c_str (l : list Z) : list Z := match l with [] => [] | c :: l => if c =? 0 then [] else c :: c_str l end.

(** [std::stable_sort] *)
Fixpoint sort_insert {A : Type} (less : A -> A -> bool) (x : A) (l : list A) : list A :=
  match l with [] => [x] | y :: l => if less y x then y :: sort_insert less x l else x :: y :: l end.

Fixpoint stable_sort {A : Type} (less : A -> A -> bool) (l : list A) : list A :=
  match l with [] => [] | x :: l => sort_insert less x (stable_sort less l) end.

Definition srv_less (l r : srv_entry) : bool :=
  if negb (srv_p l =? srv_p r) then srv_p l <? srv_p r else srv_w l <? srv_w r.

Definition naptr_less (l r : naptr_record) : bool :=
  if negb (na_order l =? na_order r) then na_order l <? na_order r else na_pref l <? na_pref r.

(** [init] *)
Definition init (b : entry_body) : entry_body :=
  match b with
  | IpEntry l => IpEntry l
  | SrvEntry l => SrvEntry (stable_sort srv_less l)
  | NaptrEntry l => NaptrEntry (stable_sort naptr_less l)
  end.

(** [make_entry] *)
Definition make_entry (t : Z) : option entry_body :=
  if t =? dns_r_srv then Some (SrvEntry [])
  else if (t =? dns_r_a) || (t =? dns_r_aaaa) then Some (IpEntry [])
  else if t =? dns_r_naptr then Some (NaptrEntry [])
  else None.

(** *** Reading records *)

Section Rdata.
Context (m : list Z) (e : Z).

(** [dns_ip_entry::get_rr] *)
Definition ip_get_rr (rr : dns_record) : dres (option ip_entry) :=
  if rr_type rr =? dns_r_a then let! a := rd_bytes m 4 (rr_rdata rr) in DOk (Some (mk_ip IPv4 a))
  else if rr_type rr =? dns_r_aaaa then let! a := rd_bytes m 16 (rr_rdata rr) in DOk (Some (mk_ip IPv6 a))
  else DOk None.

(** [dns_srv_entry::get_rr] *)
Definition srv_get_rr (rr : dns_record) : dres (option srv_entry) :=
  if negb (rr_type rr =? dns_r_srv) then DOk None
  else
    match dns_expand_name m e (rr_rdata rr + 6) NS_MAXDNAME with
    | DErr => DOk None
    | DFault => DFault
    | DFuel => DFuel
    | DOk (name, _) =>
        let! p := dns_get_16 m (rr_rdata rr) in
        let! w := dns_get_16 m (rr_rdata rr + 2) in
        let! port := dns_get_16 m (rr_rdata rr + 4) in
        DOk (Some (mk_srv p w port (c_str name)))
    end.

(** The loop over the four fields of a NAPTR record. *)
Fixpoint naptr_fields (n : nat) (p : Z) : dres (option (list (list Z))) :=
  match n with
  | O => DOk (Some [])
  | S n =>
      if e <=? p then DOk None
      else
        let! len := rd m p in
        if e - (p + 1) <? len then DOk None
        else
          let! f := rd_bytes m (Z.to_nat len) (p + 1) in
          let! l := naptr_fields n (p + 1 + len) in
          DOk (match l with Some l => Some (f :: l) | None => None end)
  end.

(** [dns_naptr_entry::get_rr] *)
Definition naptr_get_rr (rr : dns_record) : dres (option naptr_record) :=
  if negb (rr_type rr =? dns_r_naptr) then DOk None
  else
    let! order := dns_get_16 m (rr_rdata rr) in
    let! pref := dns_get_16 m (rr_rdata rr + 2) in
    let! l := naptr_fields 4 (rr_rdata rr + 4) in
    DOk (match l with Some [f; s; r; x] => Some (mk_naptr order pref f s r x) | _ => None end).

(** [dns_entry::add_rr] *)
Definition add_rr (rr : dns_record) (now : Z) (x : dns_entry) : dres dns_entry :=
  let push b := mk_entry (e_id x) (if e_expire x <? rr_ttl rr + now then rr_ttl rr + now else e_expire x) b in
  match e_body x with
  | IpEntry l => let! r := ip_get_rr rr in DOk (match r with Some r => push (IpEntry (l ++ [r])) | None => x end)
  | SrvEntry l => let! r := srv_get_rr rr in DOk (match r with Some r => push (SrvEntry (l ++ [r])) | None => x end)
  | NaptrEntry l => let! r := naptr_get_rr rr in DOk (match r with Some r => push (NaptrEntry (l ++ [r])) | None => x end)
  end.

(** *** Maps by name, in the order of the names *)

Fixpoint name_less (a b : list Z) : bool :=
  match a, b with
  | [], [] => false
  | [], _ :: _ => true
  | _ :: _, [] => false
  | x :: a, y :: b => if x =? y then name_less a b else x <? y
  end.

Definition name_map : Type := list (list Z * dns_entry).

Fixpoint nm_find (k : list Z) (l : name_map) : option dns_entry :=
  match l with [] => None | (j, x) :: l => if bool_decide (j = k) then Some x else nm_find k l end.

(** [map::insert] of a name that is not there. *)
Fixpoint nm_insert (k : list Z) (x : dns_entry) (l : name_map) : name_map :=
  match l with
  | [] => [(k, x)]
  | (j, y) :: l' => if name_less j k then (j, y) :: nm_insert k x l' else (k, x) :: l
  end.

Fixpoint nm_update (k : list Z) (x : dns_entry) (l : name_map) : name_map :=
  match l with [] => [] | (j, y) :: l => if bool_decide (j = k) then (j, x) :: l else (j, y) :: nm_update k x l end.

Definition nm_erase (k : list Z) (l : name_map) : name_map := List.filter (fun x => negb (bool_decide (fst x = k))) l.

(** [rr_to_dns_entry]; [next] is the address of the next entry. *)
Definition rr_to_dns_entry (now : Z) (rr : dns_record) (t : dns_section_type) (a : name_map * nat) : dres (name_map * nat) :=
  let '(l, next) := a in
  match t with
  | dns_s_ns => DOk a
  | _ =>
      let name := c_str (rr_name rr) in
      match nm_find name l with
      | Some x => let! x := add_rr rr now x in DOk (nm_update name x l, next)
      | None =>
          match make_entry (rr_type rr) with
          | None => DOk a
          | Some b => let! x := add_rr rr now (mk_entry next 0 b) in DOk (nm_insert name x l, S next)
          end
      end
  end.

End Rdata.

(** ** Handles *)

(** [dns_handle]; an entry with its address. *)
Record dns_handle := mk_h {
  srv_e : option (nat * list srv_entry); srv_n : Z; srv_used : Z; h_port : Z;
  ip_e : option (nat * list ip_entry); ip_n : Z
}.

Definition new_handle : dns_handle := mk_h None 0 0 0 None 0.

Definition h_set_srv e n u h := mk_h e n u (h_port h) (ip_e h) (ip_n h).
Definition h_set_ip e n h := mk_h (srv_e h) (srv_n h) (srv_used h) (h_port h) e n.
Definition h_set_port p h := mk_h (srv_e h) (srv_n h) (srv_used h) p (ip_e h) (ip_n h).

(** A [sockaddr_storage]: family, address and port. *)
Record sockaddr := mk_sa { sa_family : option address_type; sa_addr : list Z; sa_port : Z }.

Definition sa_zero : sockaddr := mk_sa None [] 0.
Definition am_set_port (p : Z) (a : sockaddr) : sockaddr := mk_sa (sa_family a) (sa_addr a) p.
Definition set_address (t : address_type) (l : list Z) (a : sockaddr) : sockaddr := mk_sa (Some t) l (sa_port a).

Definition valid (h : dns_handle) : bool :=
  match ip_e h, srv_e h with None, None => false | _, _ => true end.

Definition eoip (h : dns_handle) : bool :=
  match srv_e h with Some _ => (srv_n h =? -1) && (ip_n h =? -1) | None => ip_n h =? -1 end.

(** [dns_ip_entry::next_ip] *)
Definition ip_next_ip (x : nat * list ip_entry) (h : dns_handle) (a : sockaddr) : dns_handle * sockaddr * Z :=
  let h := match ip_e h with
           | Some y => if bool_decide (fst y = fst x) then h else h_set_ip (Some x) 0 h
           | None => h_set_ip (Some x) 0 h
           end in
  if ip_n h <? 0 then (h, a, -1)
  else match snd x !! Z.to_nat (ip_n h) with
       | None => (h, a, -1)
       | Some r =>
           let n := ip_n h + 1 in
           (h_set_ip (ip_e h) (if Z.of_nat (length (snd x)) <=? n then -1 else n) h, set_address (ip_type r) (ip_addr r) a, 0)
       end.

Definition MAX_SRV_RR : Z := 32.

(** The records of the current priority that were not chosen yet, with the sums of their
    weights; the sum, and the index behind the priority. *)
Fixpoint srv_group (l : list srv_entry) (p i used w_sum : Z) : list (Z * Z) * Z * Z :=
  match l with
  | [] => ([], w_sum, i)
  | x :: l =>
      if srv_p x =? p then
        if Z.land (Z.shiftl 1 i) used =? 0 then
          let '(k, w, j) := srv_group l p (i + 1) used (w_sum + srv_w x) in ((w_sum + srv_w x, i) :: k, w, j)
        else srv_group l p (i + 1) used w_sum
      else ([], w_sum, i)
  end.

(** The choice of the next record: its index, and the handle after it.  [r] is the random
    number. *)
Definition srv_choose (vec : list srv_entry) (r : Z) (h : dns_handle) : option (Z * dns_handle) * bool :=
  let size := Z.min (Z.of_nat (length vec)) MAX_SRV_RR in
  let idx := srv_n h in
  match vec !! Z.to_nat idx with
  | None => (None, false)
  | Some first =>
      let '(lst, w_sum, i) := srv_group (drop (Z.to_nat idx) (take 32 vec)) (srv_p first) idx (srv_used h) 0 in
      match lst with
      | _ :: _ :: _ =>
          if negb (w_sum =? 0) then
            (match List.find (fun x => r mod (w_sum + 1) <=? fst x) lst with
             | Some (_, k) => Some (k, h_set_srv (srv_e h) idx (Z.lor (srv_used h) (Z.shiftl 1 k)) h)
             | None => None
             end, true)
          else
            (match lst with
             | (_, k) :: _ => Some (k, h_set_srv (srv_e h) (if i <? size then i else idx + 1) (srv_used h) h)
             | [] => None
             end, false)
      | [(_, k)] =>
          (Some (k, h_set_srv (srv_e h) (if i <? size then i else if w_sum =? 0 then idx + 1 else -1) (srv_used h) h), false)
      | [] => (None, false)
      end
  end.

(** ** The resolver *)

(** The buckets of the cache, the random numbers drawn and the queries sent so far, the
    address of the next entry, and the clock. *)
Record resolver := mk_res { cache : Z -> name_map; r_random : nat; r_queries : nat; r_next : nat; r_now : Z }.

(** The surroundings: random numbers, the answers to queries (a buffer of the system's
    [res_search] and the length it returns), the hash function, [inet_pton] for both
    families, and the setting [disable_srv]. *)
Record res_env := mk_renv {
  random : nat -> Z;
  res_search : nat -> list Z -> Z -> option (list Z * Z);
  hash : list Z -> Z;
  inet_pton4 : list Z -> option (list Z);
  inet_pton6 : list Z -> option (list Z);
  disable_srv : bool
}.

Definition NI_MAXHOST : nat := 1025.
Definition DNS_CACHE_SIZE : Z := 128.

Section Resolver.
Context (E : res_env).

(** [am_inet_pton] *)
Definition am_inet_pton (src : list Z) : option (address_type * list Z) :=
  let v6 s := match inet_pton6 E s with Some a => Some (IPv6, a) | None => None end in
  match src with
  | [] => None
  | c :: rest =>
      if bool_decide (NI_MAXHOST - 1 < length src)%nat then None
      else if (c =? 91) && (bool_decide (last src = Some 93)) then v6 (removelast rest)
      else match inet_pton4 E src with Some a => Some (IPv4, a) | None => v6 src end
  end.

(** *** The cache *)

Definition bucket_of (name : list Z) : Z := hash E name mod DNS_CACHE_SIZE.

Definition set_bucket (i : Z) (l : name_map) (s : resolver) : resolver :=
  mk_res (fun j => if j =? i then l else cache s j) (r_random s) (r_queries s) (r_next s) (r_now s).

(** [dns_bucket::insert], [dns_bucket::find] and [dns_bucket::remove] *)
Definition cache_insert (name : list Z) (x : dns_entry) (s : resolver) : resolver * bool :=
  let b := bucket_of name in
  match nm_find name (cache s b) with
  | Some _ => (s, false)
  | None => (set_bucket b (nm_insert name x (cache s b)) s, true)
  end.

Definition cache_find (name : list Z) (s : resolver) : resolver * option dns_entry :=
  let b := bucket_of name in
  match nm_find name (cache s b) with
  | None => (s, None)
  | Some x => if e_expire x <=? r_now s then (set_bucket b (nm_erase name (cache s b)) s, None) else (s, Some x)
  end.

Definition cache_remove (name : list Z) (s : resolver) : resolver * bool :=
  let b := bucket_of name in
  match nm_find name (cache s b) with
  | Some _ => (set_bucket b (nm_erase name (cache s b)) s, true)
  | None => (s, false)
  end.

(** The loop of [run] over a bucket: the iterator is moved on twice when an entry is
    erased. *)
Fixpoint purge (now : Z) (l : name_map) : name_map :=
  match l with
  | [] => []
  | (k, x) :: l =>
      if e_expire x <=? now then match l with [] => [] | y :: l => y :: purge now l end
      else (k, x) :: purge now l
  end.

(** One round of [run]. *)
Definition run_round (i : Z) (s : resolver) : resolver := set_bucket i (purge (r_now s) (cache s i)) s.

(** *** Queries *)

Definition NS_PACKETSZ : Z := 512.

(** [query_dns]: the entries of the answer, or [None] for the result -1. *)
Definition query_dns (name : list Z) (t : Z) (s : resolver) : dres (resolver * option name_map) :=
  let s' n := mk_res (cache s) (r_random s) (S (r_queries s)) n (r_now s) in
  match res_search E (r_queries s) name t with
  | None => DOk (s' (r_next s), None)
  | Some (buf, len) =>
      match dns_msg_parse buf len (rr_to_dns_entry buf len (r_now s)) ([], r_next s) with
      | DErr => DOk (s' (r_next s), None)
      | DFault => DFault
      | DFuel => DFuel
      | DOk (l, next) =>
          let l := List.filter (fun x => negb (body_size (e_body (snd x)) =? 0)%nat) l in
          DOk (s' next, Some (map (fun x => (fst x, mk_entry (e_id (snd x)) (e_expire (snd x)) (init (e_body (snd x))))) l))
      end
  end.

(** The result of a method: the state, the handle, the address and the returned value. *)
Definition rout : Type := dres (resolver * dns_handle * sockaddr * Z).

Section Next.
Context (resolve : list Z -> dns_handle -> sockaddr -> resolver -> rout).

Definition draw (s : resolver) : resolver := mk_res (cache s) (S (r_random s)) (r_queries s) (r_next s) (r_now s).

Definition srv_port_of (p : Z) : Z := if p =? 0 then 5060 else p.

(** [dns_srv_entry::next_ip] *)
Definition srv_next_ip (x : nat * list srv_entry) (h : dns_handle) (a : sockaddr) (s : resolver) : rout :=
  let same := match srv_e h with Some y => bool_decide (fst y = fst x) | None => false end in
  if same && negb (ip_n h =? -1) then
    let a := am_set_port (srv_port_of (h_port h)) a in
    match ip_e h with
    | None => DFault
    | Some y => let '(h, a, r) := ip_next_ip y h a in DOk (s, h, a, r)
    end
  else
    let h := if same then h else h_set_srv (Some x) 0 0 h in
    if (srv_n h <? 0) || (Z.of_nat (length (snd x)) <=? srv_n h) || (MAX_SRV_RR <=? srv_n h) then DOk (s, h, a, -1)
    else
      let h := match ip_e h with Some _ => h_set_ip None 0 h | None => h end in
      let '(choice, drawn) := srv_choose (snd x) (random E (r_random s)) h in
      let s := if drawn then draw s else s in
      match choice with
      | None => DOk (s, h, a, -1)
      | Some (k, h) =>
          match snd x !! Z.to_nat k with
          | None => DFault
          | Some r =>
              let h := h_set_port (srv_port r) h in
              let a := am_set_port (srv_port_of (srv_port r)) a in
              match am_inet_pton (srv_target r) with
              | Some (t, l) => DOk (s, h_set_ip (ip_e h) (-1) h, set_address t l a, 0)
              | None => resolve (srv_target r) h a s
              end
          end
      end.

(** [next_ip] of the three classes. *)
Definition entry_next_ip (x : dns_entry) (h : dns_handle) (a : sockaddr) (s : resolver) : rout :=
  match e_body x with
  | IpEntry l => let '(h, a, r) := ip_next_ip (e_id x, l) h a in DOk (s, h, a, r)
  | SrvEntry l => srv_next_ip (e_id x, l) h a s
  | NaptrEntry _ => DOk (s, h, a, -1)
  end.

(** [dns_handle::next_ip] *)
Definition handle_next_ip (h : dns_handle) (a : sockaddr) (s : resolver) : rout :=
  if negb (valid h) || eoip h then DOk (s, h, a, -1)
  else match srv_e h, ip_e h with
       | Some x, _ => srv_next_ip x h a s
       | None, Some x => let '(h, a, r) := ip_next_ip x h a in DOk (s, h, a, r)
       | None, None => DFault
       end.

(** A name without its final dot. *)
Definition name_key (name : list Z) : list Z := if bool_decide (last name = Some 46) then removelast name else name.

(** The queries of [resolve_name], one after the other. *)
Fixpoint query_types (types : list Z) (name : list Z) (h : dns_handle) (a : sockaddr) (s : resolver) : rout :=
  match types with
  | [] => DOk (s, h, a, -1)
  | t :: types =>
      let! (s, l) := query_dns name t s in
      match l with
      | None => query_types types name h a s
      | Some l =>
          let s := fold_left (fun s x => fst (cache_insert (fst x) (snd x) s)) l s in
          match nm_find name l with
          | Some x => entry_next_ip x h a s
          | None => query_types types name h a s
          end
      end
  end.

(** The body of [resolve_name]; [v6] tells whether the types have IPv6. *)
Definition resolve_body (v6 : bool) (t : Z) (name : list Z) (h : dns_handle) (a : sockaddr) (s : resolver) : rout :=
  if valid h then if eoip h then DOk (s, h, a, -1) else handle_next_ip h a s
  else
    match (if (t =? dns_r_srv) || (t =? dns_r_naptr) then None else am_inet_pton name) with
    | Some (ty, l) => DOk (s, h_set_ip (ip_e h) (-1) (h_set_srv (srv_e h) (-1) (srv_used h) h), set_address ty l a, 0)
    | None =>
        let '(s, x) := cache_find (name_key name) s in
        match x with
        | Some x => entry_next_ip x h a s
        | None => query_types (t :: if (t =? dns_r_a) && v6 then [dns_r_aaaa] else []) name h a s
        end
    end.

End Next.

(** [resolve_name]: the methods call each other at most once per record. *)
Fixpoint resolve_name (fuel : nat) (v6 : bool) (t : Z) (name : list Z) (h : dns_handle) (a : sockaddr) (s : resolver) : rout :=
  match fuel with
  | O => DFuel
  | S fuel => resolve_body (resolve_name fuel true dns_r_a) v6 t name h a s
  end.

Definition DEPTH : nat := 67.

(** ** Destinations and targets *)

Record sip_destination := mk_dest { d_host : list Z; d_port : Z; d_trsp : list Z }.

Definition lower (c : Z) : Z := Z.lor c 32.

(** The name of the SRV records of a transport; [None] for another transport. *)
Definition srv_name (host trsp : list Z) : option (list Z) :=
  let pre := [95; 115; 105; 112; 46; 95] in
  if bool_decide (trsp = []) || bool_decide (map lower trsp = [117; 100; 112]) then Some (pre ++ [117; 100; 112] ++ [46] ++ host)
  else if bool_decide (map lower trsp = [116; 99; 112]) then Some (pre ++ [116; 99; 112] ++ [46] ++ host)
  else None.

(** The port, when none was set. *)
Definition default_port (port : Z) (a : sockaddr) : sockaddr :=
  if sa_port a =? 0 then am_set_port (if port =? 0 then 5060 else port) a else a.

(** [set_destination_ip] *)
Definition set_destination_ip (d : sip_destination) (a : sockaddr) (h : dns_handle) (s : resolver) : rout :=
  match am_inet_pton (d_host d) with
  | Some (t, l) => DOk (s, h, default_port (d_port d) (am_set_port (d_port d) (set_address t l a)), 0)
  | None =>
      let by_name h s :=
        let! (s, h, a, r) := resolve_name DEPTH true dns_r_a (d_host d) h sa_zero s in
        if r <? 0 then DOk (s, h, a, -478) else DOk (s, h, default_port (d_port d) a, 0) in
      match (if (d_port d =? 0) && negb (disable_srv E) then srv_name (d_host d) (d_trsp d) else None) with
      | None => by_name h s
      | Some n =>
          let! (s, h, a, r) := resolve_name DEPTH true dns_r_srv n h a s in
          if r =? 0 then DOk (s, h, a, 0) else by_name h s
      end
  end.

Definition SIP_TRSP_SIZE_MAX : nat := 4.

Definition dest_trsp (t : list Z) : list Z := if bool_decide (length t <= SIP_TRSP_SIZE_MAX)%nat then t else [].

Definition sip_target : Type := sockaddr * list Z.

(** The loop over the addresses of a handle. *)
Fixpoint more_targets (fuel : nat) (trsp : list Z) (h : dns_handle) (a : sockaddr) (s : resolver) : dres (resolver * list sip_target) :=
  match fuel with
  | O => DFuel
  | S fuel =>
      let! (s, h, b, r) := handle_next_ip (resolve_name DEPTH true dns_r_a) h a s in
      if r =? 0 then let! (s, l) := more_targets fuel trsp h b s in DOk (s, (a, trsp) :: l)
      else DOk (s, [(a, trsp)])
  end.

(** The rounds of the loop: one per address, or one per SRV record. *)
Definition rounds (h : dns_handle) : nat :=
  67 + match ip_e h with Some x => length (snd x) | None => 0 end.

(** [resolve_targets]: the value returned, and the targets. *)
Fixpoint resolve_targets (l : list sip_destination) (targets : list sip_target) (s : resolver) : dres (resolver * list sip_target * Z) :=
  match l with
  | [] => DOk (s, targets, 0)
  | d :: l =>
      let! (s, h, a, r) := set_destination_ip d sa_zero new_handle s in
      if negb (r =? 0) then DOk (s, targets, -478)
      else
        let! (s, k) := more_targets (rounds h) (dest_trsp (d_trsp d)) h a s in
        resolve_targets l (targets ++ k) s
  end.

End Resolver.
