(* ===== verification/ResolverProps.v ===== *)
(** * What the resolver does

    The choice between SRV records: with positive weights and addresses as targets every
    record is used once and in the order of the priorities.  Resolving ends.  The cache serves
    an entry until it expires and not longer.  Then what the code does with other records. *)

From Stdlib Require Import ZArith Lia String.
From stdpp Require Import base list list_numbers sorting.
From S2P Require Import Prelude Dns Resolver.

Local Open Scope Z_scope.
Local Open Scope bool_scope.

(** ** The records of a priority *)

(** The indices from [i] on, [n] of them, whose bit is not set. *)
Definition unused (used i : Z) (n : nat) : list Z := filter (fun k => Z.testbit used k = false) (seqZ i (Z.of_nat n)).

Lemma bit_unset used i : 0 <= i -> (Z.land (Z.shiftl 1 i) used =? 0) = negb (Z.testbit used i).
Proof.
  intros Hi. rewrite Z.shiftl_1_l. destruct (Z.testbit used i) eqn:Hb; cbn [negb].
  - apply Z.eqb_neq. intros H. assert (Hc : Z.testbit (Z.land (2 ^ i) used) i = true) by (rewrite Z.land_spec, Z.pow2_bits_true by lia; done).
    by rewrite H, Z.bits_0 in Hc.
  - apply Z.eqb_eq, Z.bits_inj'. intros n Hn. rewrite Z.land_spec, Z.bits_0. destruct (Z.eq_dec i n) as [->|Hne]; [by rewrite Hb, andb_false_r|].
    by rewrite Z.pow2_bits_false.
Qed.

Lemma unused_cons used i n :
  unused used i (S n) = (if Z.testbit used i then [] else [i]) ++ unused used (i + 1) n.
Proof.
  unfold unused. replace (Z.of_nat (S n)) with (Z.succ (Z.of_nat n)) by lia. rewrite seqZ_cons by lia. rewrite filter_cons, Z.pred_succ.
  replace (Z.succ i) with (i + 1) by lia. by destruct (Z.testbit used i).
Qed.

Lemma unused_zero i n : unused 0 i n = seqZ i (Z.of_nat n).
Proof.
  revert i. induction n as [|n IH]; intros i; [done|]. rewrite unused_cons, Z.bits_0, IH.
  replace (Z.of_nat (S n)) with (Z.succ (Z.of_nat n)) by lia. rewrite (seqZ_cons i) by lia. rewrite Z.pred_succ. done.
Qed.

Lemma unused_app used i n k : unused used i (n + k) = unused used i n ++ unused used (i + Z.of_nat n) k.
Proof. unfold unused. rewrite Nat2Z.inj_add, seqZ_app, filter_app by lia. done. Qed.

Lemma elem_of_unused used i n k : k ∈ unused used i n <-> Z.testbit used k = false /\ i <= k < i + Z.of_nat n.
Proof. unfold unused. rewrite list_elem_of_filter, elem_of_seqZ. done. Qed.

Lemma unused_nodup used i n : NoDup (unused used i n).
Proof. apply NoDup_filter, NoDup_seqZ. Qed.

(** The records of a priority at the front of a list. *)
Definition is_group (p : Z) (g rest : list srv_entry) : Prop :=
  Forall (fun x => srv_p x = p) g /\ match rest with x :: _ => srv_p x <> p | [] => True end.

Lemma group_spec l p i used w :
  0 <= i ->
  let '(lst, w', j) := srv_group l p i used w in
  exists g rest, l = g ++ rest /\ is_group p g rest /\ j = i + Z.of_nat (length g) /\ map snd lst = unused used i (length g) /\
    (Forall (fun x => 0 < srv_w x) l -> match last lst with Some x => fst x = w' /\ w < w' | None => w' = w end).
Proof.
  revert i w. induction l as [|x l IH]; intros i w Hi; cbn [srv_group].
  { exists [], []. split_and!; try done; try (split; [constructor|done]); cbn; lia. }
  destruct (Z.eqb_spec (srv_p x) p) as [Hp|Hp].
  2: { exists [], (x :: l). split_and!; try done; try (split; [constructor|done]); cbn; lia. }
  rewrite bit_unset by done. destruct (Z.testbit used i) eqn:Hb; cbn [negb].
  - specialize (IH (i + 1) w ltac:(lia)). destruct (srv_group l p (i + 1) used w) as [[lst w'] j].
    destruct IH as (g & rest & -> & [Hg Hr] & -> & Hm & Hw). exists (x :: g), rest. split_and!; try done.
    + split; [by constructor|done].
    + cbn [length]. lia.
    + cbn [length]. by rewrite unused_cons, Hb.
    + intros Hpos. apply Hw. by inversion Hpos.
  - specialize (IH (i + 1) (w + srv_w x) ltac:(lia)). destruct (srv_group l p (i + 1) used (w + srv_w x)) as [[lst w'] j].
    destruct IH as (g & rest & -> & [Hg Hr] & -> & Hm & Hw). exists (x :: g), rest. split_and!; try done.
    + split; [by constructor|done].
    + cbn [length]. lia.
    + cbn [length map snd]. by rewrite unused_cons, Hb, Hm.
    + intros Hpos. apply Forall_cons in Hpos as [Hx Hpos]. specialize (Hw Hpos). rewrite last_cons.
      destruct (last lst) as [y|]; cbn [fst]; [lia|]. subst. lia.
Qed.

(** A record is found for every random number. *)
Lemma found_spec (lst : list (Z * Z)) w r :
  match last lst with Some x => fst x = w | None => False end -> 0 < w ->
  exists s k, List.find (fun x => r mod (w + 1) <=? fst x) lst = Some (s, k) /\ k ∈ map snd lst.
Proof.
  intros Hl Hw. destruct (List.find _ lst) as [[s k]|] eqn:Hf.
  - exists s, k. split; [done|]. apply find_some in Hf as [Hin _]. apply list_elem_of_In, in_map_iff. by exists (s, k).
  - destruct (last lst) as [x|] eqn:Hx; [|done]. apply last_Some in Hx as [l ->].
    apply find_none with (x := x) in Hf; [|apply in_or_app; right; by left]. pose proof (Z.mod_pos_bound r (w + 1)). lia.
Qed.

Lemma testbit_mark used k x : 0 <= k -> 0 <= x -> Z.testbit (Z.lor used (Z.shiftl 1 k)) x = Z.testbit used x || (k =? x).
Proof. intros Hk Hx. by rewrite Z.lor_spec, Z.shiftl_1_l, Z.pow2_bits_eqb by done. Qed.

Lemma unused_mark used i n k :
  0 <= i -> k ∈ unused used i n -> unused used i n ≡ₚ k :: unused (Z.lor used (Z.shiftl 1 k)) i n.
Proof.
  intros Hi Hk. apply elem_of_unused in Hk as [Hb Hr].
  apply NoDup_Permutation; [apply unused_nodup|constructor; [|apply unused_nodup]|].
  - rewrite elem_of_unused. intros [Ht _]. rewrite testbit_mark, Z.eqb_refl, orb_true_r in Ht by lia. done.
  - intros x. rewrite elem_of_cons, !elem_of_unused. split.
    + intros [Hx Hxr]. destruct (Z.eq_dec x k) as [->|Hne]; [by left|right]. rewrite testbit_mark, Hx by lia. split; [|done].
      apply Z.eqb_neq. lia.
    + intros [->|[Hx Hxr]]; [done|]. rewrite testbit_mark in Hx by lia. apply orb_false_iff in Hx as [? _]. done.
Qed.

Lemma is_group_unique p g rest g' rest' : g ++ rest = g' ++ rest' -> is_group p g rest -> is_group p g' rest' -> g = g' /\ rest = rest'.
Proof.
  revert g'. induction g as [|x g IH]; intros [|y g'] E [H1 H2] [H3 H4]; cbn [app] in *; try done.
  - subst. apply Forall_cons in H3 as [H3 _]. done.
  - subst. apply Forall_cons in H1 as [H1 _]. done.
  - injection E as -> E. apply Forall_cons in H1 as [_ H1]. apply Forall_cons in H3 as [_ H3].
    destruct (IH g' E (conj H1 H2) (conj H3 H4)) as [-> ->]. done.
Qed.

(** The records that can still be chosen. *)
Definition remaining (vec : list srv_entry) (idx used : Z) : list Z := unused used idx (length (drop (Z.to_nat idx) vec)).

(** The current priority has a record left, and those behind it have all of theirs. *)
Definition ready (vec : list srv_entry) (idx used : Z) : Prop :=
  0 <= idx /\ exists p g rest, drop (Z.to_nat idx) vec = g ++ rest /\ is_group p g rest /\ unused used idx (length g) <> [] /\
    forall k, idx + Z.of_nat (length g) <= k -> Z.testbit used k = false.

Lemma group_exists l : l <> [] -> exists p g rest, l = g ++ rest /\ is_group p g rest /\ g <> [].
Proof.
  destruct l as [|x l]; [done|]. intros _. exists (srv_p x). pose proof (group_spec (x :: l) (srv_p x) 0 0 0 ltac:(lia)) as H.
  destruct (srv_group _ _ _ _ _) as [[lst w] j]. destruct H as (g & rest & E & Hg & _). exists g, rest. split_and!; [done|done|].
  intros ->. cbn in E. subst. by destruct Hg as [_ ?].
Qed.

Lemma ready_start vec : vec <> [] -> ready vec 0 0.
Proof.
  intros Hv. split; [lia|]. destruct (group_exists vec Hv) as (p & g & rest & -> & Hg & Hne). exists p, g, rest. split_and!; try done.
  - destruct g as [|x g]; [done|]. cbn [length]. by rewrite unused_cons, Z.bits_0.
  - intros k _. apply Z.bits_0.
Qed.

Lemma ready_first vec idx used :
  ready vec idx used -> exists first, vec !! Z.to_nat idx = Some first /\ idx < Z.of_nat (length vec).
Proof.
  intros (Hi & p & g & rest & Hd & Hg & Hu & _). destruct g as [|x g]; [done|]. exists x.
  assert (Hl : vec !! Z.to_nat idx = Some x).
  { rewrite <- (Nat.add_0_r (Z.to_nat idx)), <- lookup_drop, Hd. done. }
  split; [done|]. apply lookup_lt_Some in Hl. lia.
Qed.

(** One choice: a record of the current priority that is left; the others stay. *)
Lemma choose_ready vec r h :
  (length vec <= 32)%nat -> Forall (fun x => 0 < srv_w x) vec -> ready vec (srv_n h) (srv_used h) ->
  exists k idx used b first x, srv_choose vec r h = (Some (k, h_set_srv (srv_e h) idx used h), b) /\
    vec !! Z.to_nat (srv_n h) = Some first /\ vec !! Z.to_nat k = Some x /\ srv_p x = srv_p first /\ k ∈ remaining vec (srv_n h) (srv_used h) /\
    (idx = -1 /\ remaining vec (srv_n h) (srv_used h) = [k] \/
     ready vec idx used /\ remaining vec (srv_n h) (srv_used h) ≡ₚ k :: remaining vec idx used).
Proof.
  intros Hlen Hw Hready. destruct (ready_first _ _ _ Hready) as (first & Hfirst & Hidx).
  destruct Hready as (Hi & p & g & rest & Hd & Hg & Hu & Hrest). set (idx := srv_n h) in *. set (used := srv_used h) in *.
  unfold srv_choose. fold idx used. rewrite Hfirst. rewrite take_ge by lia.
  assert (Hp : srv_p first = p).
  { destruct g as [|y g]; [done|]. rewrite <- (Nat.add_0_r (Z.to_nat idx)), <- lookup_drop, Hd in Hfirst. injection Hfirst as ->. by destruct Hg as [[? _]%Forall_cons _]. }
  rewrite Hp. pose proof (group_spec (drop (Z.to_nat idx) vec) p idx used 0 Hi) as Hs.
  destruct (srv_group _ _ _ _ _) as [[lst w] j]. destruct Hs as (g' & rest' & Hd' & Hg' & -> & Hm & Hsum).
  assert (g' = g /\ rest' = rest) as [-> ->] by (apply (is_group_unique p); [congruence|done|done]).
  specialize (Hsum (Forall_drop _ _ _ Hw)).
  assert (Hmem : forall k, k ∈ unused used idx (length g) -> exists x, vec !! Z.to_nat k = Some x /\ srv_p x = p).
  { intros k Hk. apply elem_of_unused in Hk as [_ Hk]. destruct Hg as [Hg _]. destruct (g !! Z.to_nat (k - idx)) as [x|] eqn:Hx; [|apply lookup_ge_None in Hx; lia].
    exists x. split; [|by apply (proj1 (Forall_lookup _ _) Hg _ _ Hx)]. replace (Z.to_nat k) with (Z.to_nat idx + Z.to_nat (k - idx))%nat by lia.
    rewrite <- lookup_drop, Hd. apply lookup_app_l_Some. done. }
  assert (Hrem : remaining vec idx used = unused used idx (length g) ++ unused used (idx + Z.of_nat (length g)) (length rest))
    by (unfold remaining; rewrite Hd, length_app; apply unused_app).
  assert (Hdl : length (drop (Z.to_nat idx) vec) = (length g + length rest)%nat) by (by rewrite Hd, length_app). rewrite length_drop in Hdl.
  destruct lst as [|[s1 k1] [|x2 lst]].
  - cbn in Hm. by rewrite <- Hm in Hu.
  - cbn [map snd last] in *. destruct Hsum as [Hs1 Hs2]. cbn [fst] in Hs1. destruct (Hmem k1) as (x & Hx & Hxp); [rewrite <- Hm; constructor|].
    rewrite <- Hm in Hrem. rewrite (proj2 (Z.eqb_neq w 0)) by lia. eexists k1, _, used, false, first, x. split; [done|]. split_and!; try done; [congruence|rewrite Hrem; constructor|].
    unfold MAX_SRV_RR. destruct (Z.ltb_spec (idx + Z.of_nat (length g)) (Z.min (Z.of_nat (length vec)) 32)).
    + right. assert (Hdr : drop (Z.to_nat (idx + Z.of_nat (length g))) vec = rest).
      { replace (Z.to_nat (idx + Z.of_nat (length g))) with (Z.to_nat idx + length g)%nat by lia. rewrite <- drop_drop, Hd. apply drop_app_length. }
      split.
      * split; [lia|]. destruct (group_exists rest) as (p2 & g2 & rest2 & -> & Hg2 & Hne); [destruct rest; [cbn in *; lia|done]|].
        exists p2, g2, rest2. split_and!; try done; [|intros k Hk; apply Hrest; lia].
        destruct g2 as [|y g2]; [done|]. cbn [length]. by rewrite unused_cons, Hrest by lia.
      * unfold remaining at 2. by rewrite Hdr, Hrem.
    + left. split; [done|]. rewrite Hrem. destruct rest; [done|cbn in *; lia].
  - assert (Hlast : match last ((s1, k1) :: x2 :: lst) with Some x => fst x = w | None => False end) by (destruct (last _) eqn:E; [by destruct Hsum|by apply last_None in E]).
    assert (Hw0 : 0 < w) by (destruct (last _) eqn:E; [by destruct Hsum|by apply last_None in E]).
    destruct (found_spec _ w r Hlast Hw0) as (s & k & Hf & Hk). rewrite (proj2 (Z.eqb_neq w 0)) by lia. cbn [negb]. rewrite Hf.
    rewrite Hm in Hk. destruct (Hmem k Hk) as (x & Hx & Hxp). apply elem_of_unused in Hk as Hkr.
    eexists k, idx, _, true, first, x. split; [done|]. split_and!; try done; [congruence|rewrite Hrem; apply elem_of_app; by left|]. right. split.
    + split; [done|]. exists p, g, rest. split_and!; try done.
      * intros Hn. apply unused_mark in Hk; [|done]. rewrite Hn, <- Hm in Hk. apply Permutation_length in Hk. done.
      * intros k' Hk'. rewrite testbit_mark by lia. rewrite Hrest by done. apply Z.eqb_neq. lia.
    + apply unused_mark; [done|]. fold (remaining vec idx used). rewrite Hrem. apply elem_of_app. by left.
Qed.

Lemma sorted_lookup {A : Type} (R : A -> A -> Prop) l i j x y :
  StronglySorted R l -> (i < j)%nat -> l !! i = Some x -> l !! j = Some y -> R x y.
Proof.
  intros Hs. revert i j. induction Hs as [|z l _ IH Hz]; intros i j Hij Hi Hj; [done|].
  destruct j as [|j]; [lia|]. destruct i as [|i]; cbn in *; [|by apply (IH i j); try lia].
  injection Hi as ->. by apply (proj1 (Forall_lookup _ _) Hz _ _ Hj).
Qed.

(** ** Every SRV record once, in the order of the priorities *)

Section Srv.
Context (E : res_env) (id : nat) (vec : list srv_entry).
Context (Hlen : (length vec <= 32)%nat) (Hw : Forall (fun x => 0 < srv_w x) vec).
Context (Hlit : Forall (fun x => is_Some (am_inet_pton E (srv_target x))) vec).
Context (Hsort : StronglySorted (fun x y => srv_p x <= srv_p y) vec).

(** The address that a record stands for. *)
Definition srv_addr (x : srv_entry) : sockaddr :=
  match am_inet_pton E (srv_target x) with Some (t, l) => mk_sa (Some t) l (srv_port_of (srv_port x)) | None => sa_zero end.

Definition rec_at (k : Z) : srv_entry := nth (Z.to_nat k) vec (mk_srv 0 0 0 []).

Lemma rec_at_lookup k x : vec !! Z.to_nat k = Some x -> rec_at k = x.
Proof. intros H. unfold rec_at. rewrite nth_lookup, H. done. Qed.

(** The handle between two calls. *)
Definition between (idx used port : Z) : dns_handle := mk_h (Some (id, vec)) idx used port None (-1).

(** The call on a handle that is on the entry, from its index on. *)
Lemma srv_pick resolve idx used port ipn a s b :
  ready vec idx used -> (b = true -> ipn = -1) ->
  let h := if b : bool then mk_h (Some (id, vec)) idx used port None ipn else new_handle in
  (b = false -> idx = 0 /\ used = 0) ->
  exists k idx' used' port' s', srv_next_ip E resolve (id, vec) h a s = DOk (s', between idx' used' port', srv_addr (rec_at k), 0) /\
    k ∈ remaining vec idx used /\ srv_p (rec_at k) = srv_p (rec_at idx) /\
    (idx' = -1 /\ remaining vec idx used = [k] \/
     ready vec idx' used' /\ remaining vec idx used ≡ₚ k :: remaining vec idx' used').
Proof using Hlen Hw Hlit.
  intros Hr Hb h Hf. destruct (ready_first _ _ _ Hr) as (first & Hfirst & Hidx). pose proof (proj1 Hr).
  set (h1 := mk_h (Some (id, vec)) idx used (if b then port else 0) None (if b then ipn else 0)).
  destruct (choose_ready vec (random E (r_random s)) h1 Hlen Hw Hr) as (k & idx' & used' & d & f & x & Hc & Hf1 & Hx & Hp & Hk & Hrem).
  cbn [srv_n srv_used h1] in *. assert (f = first) as -> by congruence.
  pose proof (proj1 (Forall_lookup _ _) Hlit _ _ Hx) as [[t l] Ht].
  exists k, idx', used', (srv_port x), (if d then draw s else s). rewrite (rec_at_lookup k x Hx), (rec_at_lookup idx first Hfirst).
  split_and!; try done. unfold srv_next_ip, srv_addr. rewrite Ht.
  assert (Hh : (let same := match srv_e h with Some y => bool_decide (fst y = id) | None => false end in
    (same && negb (ip_n h =? -1)) = false /\ (if same then h else h_set_srv (Some (id, vec)) 0 0 h) = h1)).
  { unfold h, h1. destruct b; cbn.
    - rewrite bool_decide_true by done. by rewrite (Hb eq_refl).
    - by destruct (Hf eq_refl) as [-> ->]. }
  cbv zeta in Hh. cbn [fst]. destruct Hh as [-> ->]. cbn [srv_n h1 snd ip_e]. unfold MAX_SRV_RR.
  rewrite (proj2 (Z.ltb_ge _ _)), (proj2 (Z.leb_gt _ _)), (proj2 (Z.leb_gt _ _)) by lia. cbn [orb]. fold h1. rewrite Hc.
  rewrite Hx. rewrite Ht. done.
Qed.

Lemma later_priority idx used k : ready vec idx used -> k ∈ remaining vec idx used -> srv_p (rec_at idx) <= srv_p (rec_at k).
Proof using Hlen Hsort.
  intros Hr Hk. destruct (ready_first _ _ _ Hr) as (x & Hx & Hlt). pose proof (proj1 Hr). unfold remaining in Hk.
  apply elem_of_unused in Hk as [_ Hk]. rewrite length_drop in Hk.
  destruct (vec !! Z.to_nat k) as [y|] eqn:Hy; [|apply lookup_ge_None in Hy; lia]. rewrite (rec_at_lookup _ _ Hx), (rec_at_lookup _ _ Hy).
  destruct (Z.eq_dec idx k) as [->|Hne]; [assert (x = y) by congruence; subst; lia|].
  apply (sorted_lookup _ vec (Z.to_nat idx) (Z.to_nat k) x y Hsort); [lia|done|done].
Qed.

(** The records left are used one after the other. *)
Lemma more_srv_targets n trsp idx used port a s fuel :
  ready vec idx used -> length (remaining vec idx used) = n -> (n < fuel)%nat ->
  exists s' ks, more_targets E fuel trsp (between idx used port) a s = DOk (s', (a, trsp) :: map (fun k => (srv_addr (rec_at k), trsp)) ks) /\
    ks ≡ₚ remaining vec idx used /\ StronglySorted (fun x y => srv_p x <= srv_p y) (map rec_at ks).
Proof using Hlen Hw Hlit Hsort.
  revert idx used port a s fuel. induction n as [|n IH]; intros idx used port a s fuel Hr Hn Hf.
  { destruct Hr as (_ & p & g & rest & Hd & _ & Hu & _). unfold remaining in Hn. rewrite Hd, length_app, unused_app, length_app in Hn.
    destruct (unused used idx (length g)); [done|cbn in Hn; lia]. }
  destruct fuel as [|fuel]; [lia|]. cbn [more_targets].
  destruct (srv_pick (resolve_name E DEPTH true dns_r_a) idx used port (-1) a s true Hr ltac:(done) ltac:(done)) as (k & idx' & used' & port' & s' & Hp & Hk & Hpk & Hrem).
  assert (Hh : handle_next_ip E (resolve_name E DEPTH true dns_r_a) (between idx used port) a s = DOk (s', between idx' used' port', srv_addr (rec_at k), 0)).
  { unfold handle_next_ip, valid, eoip. cbn [ip_e srv_e srv_n ip_n between]. pose proof (proj1 Hr). rewrite (proj2 (Z.eqb_neq idx (-1))) by lia. exact Hp. }
  rewrite Hh. cbn [dbind Z.eqb].
  assert (Hall : forall ks, (forall j, j ∈ ks -> j ∈ remaining vec idx used) -> Forall (fun y => srv_p (rec_at k) <= srv_p y) (map rec_at ks)).
  { intros ks Hin. apply Forall_forall. intros y Hy. apply list_elem_of_fmap in Hy as (j & -> & Hj). rewrite Hpk. eapply later_priority; [exact Hr|by apply Hin]. }
  destruct Hrem as [[-> Hrem]|[Hr' Hrem]].
  - destruct fuel as [|fuel]; [rewrite Hrem in Hn; cbn in Hn; lia|]. cbn [more_targets]. unfold handle_next_ip, valid, eoip. cbn [ip_e srv_e srv_n ip_n between Z.eqb negb andb orb dbind].
    exists s', [k]. rewrite Hrem. split_and!; try done. cbn. repeat constructor.
  - destruct (IH idx' used' port' (srv_addr (rec_at k)) s' fuel Hr') as (s2 & ks & Hm & Hks & Hs).
    { apply Permutation_length in Hrem. cbn in Hrem. lia. }
    { lia. }
    rewrite Hm. cbn [dbind]. exists s2, (k :: ks). split_and!; [done|by rewrite Hrem, Hks|]. cbn [map]. constructor; [done|].
    apply Hall. intros j Hj. rewrite Hrem. apply elem_of_cons. right. by rewrite <- Hks.
Qed.

End Srv.

(** ** The entries as [init] leaves them *)

Lemma sort_insert_perm {A : Type} (less : A -> A -> bool) x l : sort_insert less x l ≡ₚ x :: l.
Proof. induction l as [|y l IH]; cbn [sort_insert]; [done|]. case_match; [|done]. rewrite IH. apply Permutation_swap. Qed.

Lemma stable_sort_perm {A : Type} (less : A -> A -> bool) l : stable_sort less l ≡ₚ l.
Proof. induction l as [|x l IH]; cbn [stable_sort]; [done|]. by rewrite sort_insert_perm, IH. Qed.

Lemma srv_sorted l : StronglySorted (fun x y => srv_p x <= srv_p y) (stable_sort srv_less l).
Proof.
  induction l as [|x l IH]; cbn [stable_sort]; [constructor|]. induction IH as [|y k Hk IHk Hy]; cbn [sort_insert]; [repeat constructor|].
  destruct (srv_less y x) eqn:Hl; unfold srv_less in Hl; destruct (Z.eqb_spec (srv_p y) (srv_p x)) as [He|He]; cbn [negb] in Hl.
  1,2: constructor; [done|]; rewrite sort_insert_perm; apply Forall_cons; split; [lia|done].
  - constructor; [by constructor|]. apply Forall_cons. split; [lia|]. eapply Forall_impl; [exact Hy|]. cbn. lia.
  - constructor; [by constructor|]. apply Forall_cons. split; [lia|]. eapply Forall_impl; [exact Hy|]. cbn. lia.
Qed.

(** C38: SRV records are used as RFC 2782 says.  For an entry of at most 32 records in any
    order, with weights above zero and addresses as targets, whatever random numbers are
    drawn: the first call on a fresh handle yields an address, and going through the handle
    then ends with a list of targets that has every record exactly once, those of a lower
    priority value before the others. *)
Theorem srv_all_once E id expire l trsp s :
  l <> [] -> (length l <= 32)%nat -> Forall (fun x => 0 < srv_w x) l ->
  Forall (fun x => is_Some (am_inet_pton E (srv_target x))) l ->
  exists s1 h a s2 recs,
    entry_next_ip E (resolve_name E DEPTH true dns_r_a) (mk_entry id expire (init (SrvEntry l))) new_handle sa_zero s = DOk (s1, h, a, 0) /\
    more_targets E (rounds h) trsp h a s1 = DOk (s2, map (fun x => (srv_addr E x, trsp)) recs) /\
    recs ≡ₚ l /\ StronglySorted (fun x y => srv_p x <= srv_p y) recs.
Proof.
  cbn [init]. pose proof (stable_sort_perm srv_less l) as Hperm. pose proof (srv_sorted l) as Hsort. set (vec := stable_sort srv_less l) in *.
  intros Hne Hlen Hw Hlit. rewrite <- Hperm in Hlen, Hw, Hlit.
  assert (Hne' : vec <> []) by (intros Hv; rewrite Hv in Hperm; by apply Permutation_nil in Hperm). clear Hne. rename Hne' into Hne. setoid_rewrite <- Hperm.
  clearbody vec. pose proof (ready_start vec Hne) as Hr.
  destruct (srv_pick E id vec Hlen Hw Hlit (resolve_name E DEPTH true dns_r_a) 0 0 0 0 sa_zero s false Hr ltac:(done) ltac:(done))
    as (k & idx & used & port & s1 & Hp & Hk & Hpk & Hrem).
  assert (Hvec : map (rec_at vec) (remaining vec 0 0) = vec).
  { unfold remaining. change (drop (Z.to_nat 0) vec) with vec. rewrite unused_zero. unfold rec_at.
    apply list_eq. intros i. rewrite list_lookup_fmap. destruct (decide (i < length vec)%nat) as [Hi|Hi].
    - rewrite lookup_seqZ_lt by lia. cbn. replace (Z.to_nat (0 + Z.of_nat i)) with i by lia. rewrite nth_lookup.
      by destruct (vec !! i) eqn:Hv; [|apply lookup_ge_None in Hv; lia].
    - rewrite lookup_seqZ_ge by lia. cbn. symmetry. apply lookup_ge_None. lia. }
  exists s1, (between id vec idx used port), (srv_addr E (rec_at vec k)).
  destruct Hrem as [[-> Hrem]|[Hr' Hrem]].
  - exists s1, [rec_at vec k]. split_and!; [exact Hp|done| |repeat constructor].
    transitivity (map (rec_at vec) (remaining vec 0 0)); [by rewrite Hrem|by rewrite Hvec].
  - assert (Hn : (length (remaining vec idx used) < rounds (between id vec idx used port))%nat).
    { apply Permutation_length in Hrem. cbn in Hrem. apply (f_equal length) in Hvec. rewrite length_map in Hvec. unfold rounds. cbn. lia. }
    destruct (more_srv_targets E id vec Hlen Hw Hlit Hsort _ trsp idx used port (srv_addr E (rec_at vec k)) s1 _ Hr' eq_refl Hn) as (s2 & ks & Hm & Hks & Hs).
    exists s2, (rec_at vec k :: map (rec_at vec) ks). split_and!; [exact Hp| | |].
    + rewrite Hm. cbn [map]. by rewrite map_map.
    + transitivity (map (rec_at vec) (remaining vec 0 0)); [|by rewrite Hvec]. rewrite Hrem. cbn [map]. by rewrite Hks.
    + constructor; [done|]. apply Forall_forall. intros y Hy. apply list_elem_of_fmap in Hy as (j & -> & Hj). rewrite Hpk.
      apply (later_priority vec Hlen Hsort 0 0); [done|]. rewrite Hrem, elem_of_cons. right. by rewrite <- Hks.
Qed.

(** ** Resolving ends *)

(** The choices that are left. *)
Definition choices (h : dns_handle) : Z := if srv_n h <? 0 then 0 else Z.max 0 (32 - srv_n h) + Z.of_nat (length (unused (srv_used h) 0 32)).

Lemma choices_bound h : 0 <= choices h <= 64.
Proof.
  unfold choices. destruct (Z.ltb_spec (srv_n h) 0); [lia|].
  assert (length (unused (srv_used h) 0 32) <= 32)%nat; [|lia]. unfold unused. etransitivity; [apply length_filter|]. done.
Qed.

Lemma choose_less vec r h k h' b :
  0 <= srv_n h < 32 -> srv_choose vec r h = (Some (k, h'), b) ->
  choices h' < choices h /\ srv_e h' = srv_e h /\ ip_e h' = ip_e h /\ ip_n h' = ip_n h.
Proof.
  intros Hi. unfold srv_choose. destruct (vec !! Z.to_nat (srv_n h)) as [first|] eqn:Hf; [|done].
  set (l := drop (Z.to_nat (srv_n h)) (take 32 vec)).
  assert (Hl : exists k, l = first :: k /\ (length l <= 32 - Z.to_nat (srv_n h))%nat).
  { unfold l. rewrite length_drop, length_take. exists (drop (S (Z.to_nat (srv_n h))) (take 32 vec)). split; [|lia].
    apply drop_S. rewrite lookup_take, decide_True by lia. done. }
  destruct Hl as (lt & Hl & Hll). pose proof (group_spec l (srv_p first) (srv_n h) (srv_used h) 0 ltac:(lia)) as Hg.
  destruct (srv_group l _ _ _ _) as [[lst w] i]. destruct Hg as (g & rest & Hd & [Hg1 Hg2] & -> & Hm & _).
  assert (Hg : (0 < length g <= 32 - Z.to_nat (srv_n h))%nat).
  { rewrite Hd, length_app in Hll. split; [|lia]. destruct g; [|cbn; lia]. cbn in Hd. subst rest. rewrite Hl in Hg2. done. }
  assert (Hkeep : forall idx, idx = -1 \/ srv_n h < idx -> choices (h_set_srv (srv_e h) idx (srv_used h) h) < choices h).
  { intros idx Hx. unfold choices. cbn [h_set_srv srv_n srv_used]. rewrite (proj2 (Z.ltb_ge (srv_n h) 0)) by lia.
    destruct (Z.ltb_spec idx 0); lia. }
  destruct lst as [|[s1 k1] [|x2 lst]]; [done| |].
  - intros [= <- <- _]. split; [|done]. apply Hkeep. destruct (_ <? _); [lia|]. destruct (w =? 0); lia.
  - destruct (w =? 0); cbn [negb].
    + intros [= <- <- _]. split; [|done]. apply Hkeep. destruct (_ <? _); lia.
    + destruct (List.find _ _) as [[s' k']|] eqn:Hfd; [|done]. intros [= <- <- _]. split; [|done].
      apply find_some in Hfd as [Hin _]. apply (in_map snd) in Hin. rewrite Hm in Hin. apply list_elem_of_In, elem_of_unused in Hin as [Hb Hk]. cbn [snd] in *.
      unfold choices. cbn [h_set_srv srv_n srv_used]. rewrite (proj2 (Z.ltb_ge (srv_n h) 0)) by lia.
      assert (Hp := unused_mark (srv_used h) 0 32 k' ltac:(lia) ltac:(apply elem_of_unused; split; [done|lia])). apply Permutation_length in Hp. cbn [length] in Hp. lia.
Qed.

Section Ends.
Context (E : res_env).

(** The answers are bytes, and shorter than their buffer. *)
Definition answers_ok : Prop :=
  forall n name t buf len, res_search E n name t = Some (buf, len) -> len + 16 <= Z.of_nat (length buf) /\ Forall (fun c => 0 <= c < 256) buf.

(** The call returns; a handle on an SRV entry stays on it, and an address costs a choice. *)
Definition srv_post (h : dns_handle) (x : rout) : Prop :=
  match x with
  | DFuel => False
  | DOk (_, h', _, r) => srv_e h' = srv_e h /\ ip_e h' = None /\ (r = 0 -> choices h' < choices h)
  | _ => True
  end.

Lemma srv_next_ends resolve x h a s :
  ip_e h = None ->
  let h0 := if match srv_e h with Some y => bool_decide (fst y = fst x) | None => false end then h else h_set_srv (Some x) 0 0 h in
  (forall name h' a s, srv_e h' = srv_e h0 -> ip_e h' = None -> choices h' < choices h0 -> srv_post h' (resolve name h' a s)) ->
  srv_post h0 (srv_next_ip E resolve x h a s).
Proof.
  intros Hip h0 Hres. unfold srv_next_ip. fold h0. assert (Hip0 : ip_e h0 = None) by (unfold h0; by case_match).
  case_match; [by rewrite Hip|]. destruct (_ || _ || _) eqn:Hc; [by cbn|]. apply orb_false_iff in Hc as [[Hc1 Hc2]%orb_false_iff Hc3].
  unfold MAX_SRV_RR in *. rewrite Hip0.
  destruct (srv_choose (snd x) _ h0) as [[[k h']|] d] eqn:Hch; [|by cbn].
  apply choose_less in Hch as (Hless & He & Hi & Hn); [|lia]. destruct (snd x !! Z.to_nat k) as [r|]; [|done].
  destruct (am_inet_pton E (srv_target r)) as [[t l]|].
  - cbn. rewrite Hi. done.
  - assert (Hh : srv_post (h_set_port (srv_port r) h') (resolve (srv_target r) (h_set_port (srv_port r) h') (am_set_port (srv_port_of (srv_port r)) a) (if d then draw s else s)))
      by (apply Hres; cbn; [done|congruence|done]).
    unfold srv_post in *. destruct (resolve _ _ _ _) as [[[[s' h2] b] z]| | |]; try done. destruct Hh as (H1 & H2 & H3). cbn in *.
    split_and!; [congruence|done|]. intros Hz. specialize (H3 Hz). unfold choices in *. cbn in *. lia.
Qed.

(** A handle on an SRV entry. *)
Lemma resolve_srv_ends n v6 t name h a s :
  srv_e h <> None -> ip_e h = None -> choices h < Z.of_nat n -> srv_post h (resolve_name E n v6 t name h a s).
Proof.
  revert v6 t name h a s. induction n as [|n IH]; intros v6 t name h a s Hs Hi Hn; [pose proof (choices_bound h); lia|].
  cbn [resolve_name]. unfold resolve_body, valid. rewrite Hi. destruct (srv_e h) as [x|] eqn:Hx; [|done].
  assert (Hself : srv_e h = srv_e h /\ ip_e h = None /\ (-1 = 0 -> choices h < choices h)) by done.
  destruct (eoip h) eqn:He; [by cbn; rewrite Hx|]. unfold handle_next_ip, valid. rewrite Hi, Hx, He. cbn [negb orb].
  pose proof (srv_next_ends (resolve_name E n true dns_r_a) x h a s Hi) as Hp. cbv zeta in Hp. rewrite Hx, bool_decide_true in Hp by done.
  apply Hp. intros name' h' a' s' E1 E2 E3. apply IH; [by rewrite E1, Hx|done|lia].
Qed.

Definition one_kind (h : dns_handle) : Prop := srv_e h = None \/ ip_e h = None.

Definition kind_post (x : rout) : Prop := match x with DFuel => False | DOk (_, h, _, _) => one_kind h | _ => True end.

Lemma srv_post_kind h x : srv_post h x -> kind_post x.
Proof. destruct x as [[[[s h'] a] r]| | |]; try done. intros (_ & H & _). by right. Qed.

Lemma ip_next_keeps x h a : srv_e (fst (fst (ip_next_ip x h a))) = srv_e h.
Proof. unfold ip_next_ip. destruct (ip_e h) as [y|]; [case_bool_decide|]; repeat case_match; done. Qed.

Lemma ip_next_kind x h a s : srv_e h = None -> kind_post (let '(h, a, r) := ip_next_ip x h a in DOk (s, h, a, r)).
Proof. intros Hs. pose proof (ip_next_keeps x h a) as H. destruct (ip_next_ip x h a) as [[h' a'] r]. left. cbn in H. congruence. Qed.

Lemma entry_next_ends x h a s :
  srv_e h = None -> ip_e h = None -> kind_post (entry_next_ip E (resolve_name E 66 true dns_r_a) x h a s).
Proof.
  intros Hs Hi. unfold entry_next_ip. destruct (e_body x) as [l|l|l]; [by apply ip_next_kind| |by left].
  pose proof (srv_next_ends (resolve_name E 66 true dns_r_a) (e_id x, l) h a s Hi) as Hp. cbv zeta in Hp. rewrite Hs in Hp.
  eapply srv_post_kind, Hp. intros name' h' a' s' E1 E2 E3. apply resolve_srv_ends; [by rewrite E1|done|].
  pose proof (choices_bound h'). lia.
Qed.

(** *** The answers are read *)

Lemma add_rr_returns m e rr now x :
  e + 16 <= Z.of_nat (length m) -> Forall (fun c => 0 <= c < 256) m -> rr_ok e rr -> returns (fun _ => True) (add_rr m e rr now x).
Proof.
  intros Hm Hb (_ & H1 & H2 & H3). assert (Hm' : e <= Z.of_nat (length m)) by lia.
  unfold add_rr. destruct (e_body x).
  - unfold ip_get_rr. eapply returns_bind with (P := fun _ => True); [|done]. repeat case_match; try done;
      (eapply returns_bind; [apply (rd_bytes_returns m (e + 16)); lia || done|done]).
  - unfold srv_get_rr. eapply returns_bind with (P := fun _ => True); [|done]. case_match; [done|].
    pose proof (expand_name_returns m e Hm' Hb (rr_rdata rr + 6) NS_MAXDNAME ltac:(lia) ltac:(done)) as Hx.
    destruct (dns_expand_name _ _ _ _) as [[name q]| | |]; try done.
    do 3 (eapply returns_bind; [apply (get_16_returns m (e + 16)); lia || done|intros ? _]). done.
  - unfold naptr_get_rr. eapply returns_bind with (P := fun _ => True); [|done]. case_match; [done|].
    do 2 (eapply returns_bind; [apply (get_16_returns m (e + 16)); lia || done|intros ? _]).
    eapply returns_bind with (P := fun _ => True); [|done].
    assert (Hf : forall n p, 0 <= p -> returns (fun _ => True) (naptr_fields m e n p)); [|apply Hf; lia].
    induction n as [|n IH]; intros p Hp; cbn [naptr_fields]; [done|]. destruct (Z.leb_spec e p); [done|].
    eapply returns_bind; [apply (rd_returns m e Hm' Hb); lia|]. intros len Hlen. cbv beta in Hlen. destruct (Z.ltb_spec (e - (p + 1)) len); [done|].
    eapply returns_bind; [apply (rd_bytes_returns m e Hm' Hb); lia|]. intros f _.
    eapply returns_bind; [apply IH; lia|]. done.
Qed.

Lemma query_returns name t s : answers_ok -> returns (fun _ => True) (query_dns E name t s).
Proof.
  intros Hok. unfold query_dns. destruct (res_search _ _ _ _) as [[buf len]|] eqn:Hr; [|done]. destruct (Hok _ _ _ _ _ Hr) as [Hl Hb].
  pose proof (msg_parse_returns buf len ltac:(lia) Hb (rr_to_dns_entry buf len (r_now s)) (fun _ => True)) as H.
  assert (Hf : forall rr t a, rr_ok len rr -> True -> returns (fun _ => True) (rr_to_dns_entry buf len (r_now s) rr t a)).
  { intros rr t' [l next] Hrr _. unfold rr_to_dns_entry. destruct t'; try done; repeat case_match; try done;
      (eapply returns_bind; [by apply add_rr_returns|done]). }
  specialize (H Hf ([], r_next s) I). destruct (dns_msg_parse _ _ _ _) as [[l next]| | |]; done.
Qed.

(** A query gives entries or none. *)
Lemma query_no_error name t s : answers_ok -> match query_dns E name t s with DOk _ => True | _ => False end.
Proof.
  intros Hok. pose proof (query_returns name t s Hok) as H. unfold query_dns in *. destruct (res_search _ _ _ _) as [[buf len]|]; [|done].
  by destruct (dns_msg_parse _ _ _ _) as [[l n]| | |].
Qed.

Lemma query_types_ends types name h a s :
  answers_ok -> srv_e h = None -> ip_e h = None -> kind_post (query_types E (resolve_name E 66 true dns_r_a) types name h a s).
Proof.
  intros Hok Hs Hi. revert s. induction types as [|t types IH]; intros s; cbn [query_types]; [by left|].
  pose proof (query_returns name t s Hok) as Hq. destruct (query_dns E name t s) as [[s' [l|]]| | |]; try done; cbn [dbind]; [|apply IH].
  case_match; [by apply entry_next_ends|apply IH].
Qed.

Lemma resolve_step n v6 t name h a s :
  resolve_name E (S n) v6 t name h a s = resolve_body E (resolve_name E n true dns_r_a) v6 t name h a s.
Proof. done. Qed.

Lemma resolve_ends v6 t name h a s : answers_ok -> one_kind h -> kind_post (resolve_name E DEPTH v6 t name h a s).
Proof.
  intros Hok Hk. destruct (srv_e h) as [x|] eqn:Hs.
  { assert (Hi : ip_e h = None) by (destruct Hk; congruence). eapply srv_post_kind, resolve_srv_ends; [by rewrite Hs|done|].
    pose proof (choices_bound h). unfold DEPTH. lia. }
  change DEPTH with (S 66). rewrite resolve_step. unfold resolve_body, handle_next_ip, valid. rewrite Hs. destruct (ip_e h) as [y|] eqn:Hi.
  - destruct (eoip h); [by left|]. cbn [negb orb]. by apply ip_next_kind.
  - match goal with |- context [match ?x with Some _ => _ | None => _ end] => destruct x as [[ty l]|] end.
    + by left.
    + destruct (cache_find _ _ _) as [s' [x|]]; [by apply entry_next_ends|by apply query_types_ends].
Qed.

(** The addresses that are left. *)
Definition left_over (h : dns_handle) : Z :=
  match srv_e h, ip_e h with
  | Some _, _ => choices h
  | None, Some x => if ip_n h <? 0 then 0 else Z.max 0 (Z.of_nat (length (snd x)) - ip_n h)
  | None, None => 0
  end.

Lemma next_ends h a s :
  one_kind h ->
  match handle_next_ip E (resolve_name E DEPTH true dns_r_a) h a s with
  | DFuel => False
  | DOk (_, h', _, r) => one_kind h' /\ (r = 0 -> left_over h' < left_over h)
  | _ => True
  end.
Proof.
  intros Hk. unfold handle_next_ip, valid. destruct (ip_e h) as [y|] eqn:Hi, (srv_e h) as [x|] eqn:Hs; cbn [negb orb]; try (destruct Hk; congruence).
  - destruct (eoip h) eqn:He; [by split|]. unfold eoip in He. rewrite Hs in He. unfold ip_next_ip. rewrite Hi, bool_decide_true by done.
    destruct (Z.ltb_spec (ip_n h) 0); [by split; [left|]|]. destruct (snd y !! Z.to_nat (ip_n h)) as [r|] eqn:Hr; [|by split; [left|]].
    split; [by left|]. intros _. unfold left_over. cbn. rewrite Hs, Hi. apply lookup_lt_Some in Hr. rewrite (proj2 (Z.ltb_ge (ip_n h) 0)) by lia.
    destruct (Z.leb_spec (Z.of_nat (length (snd y))) (ip_n h + 1)); cbn; [lia|]. rewrite (proj2 (Z.ltb_ge (ip_n h + 1) 0)) by lia. lia.
  - destruct (eoip h) eqn:He; [by split; [right|]|].
    pose proof (srv_next_ends (resolve_name E DEPTH true dns_r_a) x h a s Hi) as Hp. cbv zeta in Hp. rewrite Hs, bool_decide_true in Hp by done.
    assert (Hp' : srv_post h (srv_next_ip E (resolve_name E DEPTH true dns_r_a) x h a s)).
    { apply Hp. intros name' h' a' s' E1 E2 E3. apply resolve_srv_ends; [by rewrite E1, Hs|done|]. pose proof (choices_bound h'). unfold DEPTH. lia. }
    destruct (srv_next_ip _ _ _ _ _ _) as [[[[s' h'] b] r]| | |]; try done. destruct Hp' as (H1 & H2 & H3). split; [by right|].
    intros Hz. unfold left_over. rewrite H1, Hs. by apply H3.
  - by split; [left|].
Qed.

Lemma left_over_nonneg h : 0 <= left_over h.
Proof. unfold left_over. pose proof (choices_bound h). repeat case_match; lia. Qed.

Lemma more_targets_ends fuel trsp h a s :
  one_kind h -> left_over h < Z.of_nat fuel -> match more_targets E fuel trsp h a s with DFuel => False | _ => True end.
Proof.
  revert h a s. induction fuel as [|fuel IH]; intros h a s Hk Hf; [pose proof (left_over_nonneg h); lia|].
  cbn [more_targets]. pose proof (next_ends h a s Hk) as Hn.
  destruct (handle_next_ip _ _ _ _ _) as [[[[s' h'] b] r]| | |]; try done. destruct Hn as [Hk' Hl]. cbn [dbind].
  destruct (Z.eqb_spec r 0) as [->|]; [|done]. specialize (IH h' b s' Hk' ltac:(specialize (Hl eq_refl); lia)).
  destruct (more_targets E fuel trsp h' b s') as [[s2 l]| | |]; done.
Qed.

Lemma destination_ends d a h s : answers_ok -> one_kind h -> kind_post (set_destination_ip E d a h s).
Proof.
  intros Hok Hk. unfold set_destination_ip. destruct (am_inet_pton E (d_host d)) as [[t l]|]; [done|].
  assert (Hb : forall h s, one_kind h -> kind_post
    (let! (s, h, a, r) := resolve_name E DEPTH true dns_r_a (d_host d) h sa_zero s in
     if r <? 0 then DOk (s, h, a, -478) else DOk (s, h, default_port (d_port d) a, 0))).
  { intros h' s' Hk'. pose proof (resolve_ends true dns_r_a (d_host d) h' sa_zero s' Hok Hk') as H.
    destruct (resolve_name _ _ _ _ _ _ _ _) as [[[[s2 h2] a2] r]| | |]; try done. cbn [dbind]. by case_match. }
  destruct (if _ && _ then _ else _) as [n|]; [|by apply Hb].
  pose proof (resolve_ends true dns_r_srv n h a s Hok Hk) as H.
  destruct (resolve_name _ _ _ _ _ _ _ _) as [[[[s2 h2] a2] r]| | |]; try done. cbn [dbind]. case_match; [done|by apply Hb].
Qed.

End Ends.

(** *** Enough rounds *)

Lemma left_over_rounds h : left_over h < Z.of_nat (rounds h).
Proof.
  unfold left_over, rounds. pose proof (choices_bound h). destruct (srv_e h); [lia|]. destruct (ip_e h); [|lia]. case_match; lia.
Qed.

Lemma targets_not_fuel E l targets s : answers_ok E -> resolve_targets E l targets s <> DFuel.
Proof.
  intros Hok. revert targets s. induction l as [|d l IH]; intros targets s; cbn [resolve_targets]; [done|].
  pose proof (destination_ends E d sa_zero new_handle s Hok ltac:(by left)) as Hd.
  destruct (set_destination_ip E d sa_zero new_handle s) as [[[[s1 h] a] r]| | |]; try done. cbn [dbind kind_post] in *.
  destruct (negb (r =? 0)); [done|].
  pose proof (more_targets_ends E (rounds h) (dest_trsp (d_trsp d)) h a s1 Hd (left_over_rounds h)) as Hm.
  destruct (more_targets _ _ _ _ _ _) as [[s2 k]| | |]; try done. apply IH.
Qed.

(** *** Without a fault *)

(** The last sum is that of all. *)
Lemma group_last l p i used w :
  let '(lst, w', _) := srv_group l p i used w in
  (match last lst with Some x => fst x = w' | None => w' = w end) /\ (Forall (fun x => 0 <= srv_w x) l -> w <= w').
Proof.
  revert i w. induction l as [|x l IH]; intros i w; cbn [srv_group]; [by split|]. destruct (_ =? p); [|by split].
  destruct (_ =? 0).
  - specialize (IH (i + 1) (w + srv_w x)). destruct (srv_group l _ _ _ _) as [[lst w'] j]. destruct IH as [H1 H2]. split.
    + rewrite last_cons. by destruct (last lst).
    + intros [Hx Hl]%Forall_cons. specialize (H2 Hl). lia.
  - specialize (IH (i + 1) w). destruct (srv_group l _ _ _ _) as [[lst w'] j]. destruct IH as [H1 H2]. split; [done|]. intros [_ Hl]%Forall_cons. by apply H2.
Qed.

(** A record that is chosen is there, and one is chosen as long as none was. *)
Lemma choose_there vec r h :
  0 <= srv_n h < 32 -> Forall (fun x => 0 <= srv_w x) vec -> is_Some (vec !! Z.to_nat (srv_n h)) ->
  match srv_choose vec r h with
  | (Some (k, _), _) => is_Some (vec !! Z.to_nat k)
  | (None, _) => srv_used h <> 0
  end.
Proof.
  intros Hi Hw [first Hf]. unfold srv_choose. rewrite Hf. set (l := drop (Z.to_nat (srv_n h)) (take 32 vec)).
  assert (Hl : exists lt, l = first :: lt).
  { unfold l. eexists. apply drop_S. rewrite lookup_take, decide_True by lia. done. }
  destruct Hl as [lt Hl]. assert (Hlw : Forall (fun x => 0 <= srv_w x) l) by (by apply Forall_drop, Forall_take).
  assert (Hll : (Z.to_nat (srv_n h) + length l <= length vec)%nat).
  { apply lookup_lt_Some in Hf. unfold l. rewrite length_drop, length_take. lia. }
  pose proof (group_spec l (srv_p first) (srv_n h) (srv_used h) 0 ltac:(lia)) as Hg. pose proof (group_last l (srv_p first) (srv_n h) (srv_used h) 0) as Hlast.
  destruct (srv_group l _ _ _ _) as [[lst w] i]. destruct Hg as (g & rest & Hd & [Hg1 Hg2] & -> & Hm & _). destruct Hlast as [Hlast Hpos]. specialize (Hpos Hlw).
  assert (Hin : forall k, k ∈ map snd lst -> is_Some (vec !! Z.to_nat k)).
  { intros k. rewrite Hm, elem_of_unused. intros [_ Hk]. apply lookup_lt_is_Some. rewrite Hd, length_app in Hll. lia. }
  assert (Hne : lst = [] -> srv_used h <> 0).
  { intros -> H0. rewrite H0, unused_zero in Hm. destruct g as [|x g]; [cbn in Hd; subst rest; rewrite Hl in Hg2; done|].
    apply (f_equal length) in Hm. rewrite length_seqZ in Hm. cbn [map length] in Hm. lia. }
  destruct lst as [|[s1 k1] [|x2 lst]]; [by apply Hne|by apply Hin; left|].
  destruct (Z.eqb_spec w 0) as [->|Hw0]; cbn [negb]; [by apply Hin; left|].
  destruct (found_spec ((s1, k1) :: x2 :: lst) w r) as (s' & k & -> & Hk); [|lia|by apply Hin].
  destruct (last ((s1, k1) :: x2 :: lst)) eqn:Hx; [done|]. by apply last_None in Hx.
Qed.

Section Total.
Context (E : res_env) (Hok : answers_ok E).

(** An SRV entry has records, with addresses as targets and weights that are not negative. *)
Definition plain_entry (x : dns_entry) : Prop :=
  match e_body x with
  | SrvEntry l => l <> [] /\ Forall (fun r => is_Some (am_inet_pton E (srv_target r))) l /\ Forall (fun r => 0 <= srv_w r) l
  | _ => True
  end.

Definition plain_map (l : name_map) : Prop := Forall (fun x => plain_entry (snd x)) l.
Definition plain_cache (s : resolver) : Prop := forall i, plain_map (cache s i).
Definition plain_answers : Prop := forall name t s s' l, query_dns E name t s = DOk (s', Some l) -> plain_map l.

Context (Hans : plain_answers).

(** A handle on an SRV entry has given an address. *)
Definition good_handle (h : dns_handle) : Prop :=
  one_kind h /\ match srv_e h with Some x => plain_entry (mk_entry (fst x) 0 (SrvEntry (snd x))) /\ ip_n h = -1 | None => True end.

Definition total (x : rout) : Prop := match x with DOk (s, h, _, _) => plain_cache s /\ good_handle h | _ => False end.

Lemma srv_next_total resolve x h a s :
  plain_cache s -> plain_entry (mk_entry (fst x) 0 (SrvEntry (snd x))) -> ip_e h = None -> srv_e h = None \/ (srv_e h = Some x /\ ip_n h = -1) ->
  total (srv_next_ip E resolve x h a s).
Proof.
  intros Hs Hx Hi Hh. unfold srv_next_ip. set (same := match srv_e h with Some _ => _ | None => _ end).
  assert (Hsame : same && negb (ip_n h =? -1) = false) by (unfold same; destruct Hh as [-> | [-> ->]]; [done|by rewrite andb_false_r]). rewrite Hsame.
  set (h0 := if same then h else h_set_srv (Some x) 0 0 h).
  assert (H0 : srv_e h0 = Some x /\ ip_e h0 = None /\ (ip_n h0 = -1 \/ (srv_n h0 = 0 /\ srv_used h0 = 0))).
  { unfold h0, same. destruct Hh as [-> | [Hh Hn]]; [by cbn; auto|]. rewrite Hh, bool_decide_true by done. auto. }
  clearbody h0. destruct H0 as (H1 & H2 & H3). pose proof Hx as (Hne & Hlit & Hw). cbn [e_body] in Hne, Hlit, Hw.
  assert (Hgood : forall h', srv_e h' = Some x -> ip_e h' = None -> ip_n h' = -1 -> good_handle h') by (intros h' K1 K2 K3; split; [by right|by rewrite K1]).
  destruct (_ || _ || _) eqn:Hc.
  { cbn. split; [done|]. destruct H3 as [H3|[H3 _]]; [by apply Hgood|]. rewrite H3 in Hc. unfold MAX_SRV_RR in Hc.
    rewrite (proj2 (Z.leb_gt _ 0)) in Hc by (destruct (snd x); [done|cbn [length]; lia]). done. }
  apply orb_false_iff in Hc as [[Hc1 Hc2]%orb_false_iff Hc3]. unfold MAX_SRV_RR in *. rewrite H2.
  pose proof (choose_there (snd x) (random E (r_random s)) h0 ltac:(lia) Hw ltac:(apply lookup_lt_is_Some; lia)) as Hch.
  destruct (srv_choose (snd x) _ h0) as [[[k h']|] d] eqn:Hce.
  - apply choose_less in Hce as (_ & He & Hip & _); [|lia]. destruct Hch as [r Hr]. rewrite Hr.
    assert (Ht : is_Some (am_inet_pton E (srv_target r))) by (rewrite Forall_forall in Hlit; by eapply Hlit, list_elem_of_lookup_2).
    destruct Ht as [[t l] ->]. cbn. split; [by destruct d|]. apply Hgood; cbn; congruence.
  - cbn. split; [by destruct d|]. destruct H3 as [H3|[_ H3]]; [by apply Hgood|done].
Qed.

Lemma ip_next_total x h a s : plain_cache s -> srv_e h = None -> total (let '(h, a, r) := ip_next_ip x h a in DOk (s, h, a, r)).
Proof.
  intros Hs Hn. pose proof (ip_next_keeps x h a) as H. destruct (ip_next_ip x h a) as [[h' a'] r]. cbn in H |- *. rewrite Hn in H.
  split; [done|]. split; [by left|by rewrite H].
Qed.

Lemma entry_next_total resolve x h a s :
  plain_cache s -> plain_entry x -> srv_e h = None -> ip_e h = None -> total (entry_next_ip E resolve x h a s).
Proof.
  intros Hs Hx Hn Hi. unfold entry_next_ip. unfold plain_entry in Hx. destruct (e_body x) as [l|l|l] eqn:Hb; [by apply ip_next_total| |].
  - apply srv_next_total; try done. by left.
  - cbn. split; [done|]. split; [by left|by rewrite Hn].
Qed.

Lemma find_plain k l x : plain_map l -> nm_find k l = Some x -> plain_entry x.
Proof. induction l as [|[j y] l IH]; [done|]. intros [Hy Hl]%Forall_cons. cbn. case_bool_decide; [by intros [= <-]|by apply IH]. Qed.

Lemma insert_plain k x l : plain_map l -> plain_entry x -> plain_map (nm_insert k x l).
Proof.
  induction l as [|[j y] l IH]; intros Hl Hx; cbn [nm_insert]; [by repeat constructor|]. pose proof Hl as [Hy Hl']%Forall_cons.
  destruct (name_less j k); constructor; try done. by apply IH.
Qed.

Lemma cache_insert_plain k x s : plain_cache s -> plain_entry x -> plain_cache (fst (cache_insert E k x s)).
Proof.
  intros Hs Hx. unfold cache_insert. destruct (nm_find _ _); [done|]. intros i. cbn. destruct (i =? _); [by apply insert_plain|done].
Qed.

Lemma cache_inserts_plain l s : plain_cache s -> plain_map l -> plain_cache (fold_left (fun s x => fst (cache_insert E (fst x) (snd x) s)) l s).
Proof. revert s. induction l as [|x l IH]; intros s Hs Hl; [done|]. apply Forall_cons in Hl as [Hx Hl]. cbn. apply IH; [by apply cache_insert_plain|done]. Qed.

Lemma cache_find_plain k s s' o : plain_cache s -> cache_find E k s = (s', o) -> plain_cache s' /\ (forall x, o = Some x -> plain_entry x).
Proof.
  intros Hs. unfold cache_find. destruct (nm_find k _) as [x|] eqn:Hf; [|by intros [= <- <-]]. destruct (_ <=? _); intros [= <- <-].
  - split; [|done]. intros i. cbn. destruct (i =? _); [|done]. unfold plain_map, nm_erase. apply List.Forall_forall. intros y [Hy _]%filter_In.
    specialize (Hs (bucket_of E k)). unfold plain_map in Hs. rewrite List.Forall_forall in Hs. by apply Hs.
  - split; [done|]. intros y [= <-]. by eapply find_plain.
Qed.

Lemma query_cache name t s s' o : query_dns E name t s = DOk (s', o) -> cache s' = cache s.
Proof. unfold query_dns. destruct (res_search _ _ _ _) as [[buf len]|]; [destruct (dns_msg_parse _ _ _ _) as [[l n]| | |]|]; by intros [= <- _]. Qed.

Lemma query_types_total resolve types name h a s :
  plain_cache s -> srv_e h = None -> ip_e h = None -> total (query_types E resolve types name h a s).
Proof.
  intros Hs Hn Hi. revert s Hs. induction types as [|t types IH]; intros s Hs; cbn [query_types].
  { split; [done|]. split; [by left|by rewrite Hn]. }
  pose proof (query_no_error E name t s Hok) as Hq. destruct (query_dns E name t s) as [[s' o]| | |] eqn:Hqd; try done. clear Hq.
  assert (Hs' : plain_cache s') by (intros i; rewrite (query_cache _ _ _ _ _ Hqd); apply Hs). cbn [dbind].
  destruct o as [l|]; [|by apply IH]. pose proof (Hans _ _ _ _ _ Hqd) as Hl. pose proof (cache_inserts_plain l s' Hs' Hl) as Hs2.
  destruct (nm_find name l) as [x|] eqn:Hf; [|by apply IH]. apply entry_next_total; try done. by eapply find_plain.
Qed.

Lemma handle_next_total resolve h a s : plain_cache s -> good_handle h -> total (handle_next_ip E resolve h a s).
Proof.
  intros Hs Hh. unfold handle_next_ip. destruct (negb (valid h) || eoip h) eqn:Hv; [done|]. apply orb_false_iff in Hv as [Hv%negb_false_iff _].
  unfold valid in Hv. destruct Hh as [Hk Hg]. destruct (srv_e h) as [x|] eqn:Hx.
  - destruct Hg as [Hp Hn]. destruct Hk as [Hk|Hk]; [congruence|]. apply srv_next_total; try done. by right.
  - destruct (ip_e h) as [y|] eqn:Hi; [|done]. by apply ip_next_total.
Qed.

Lemma resolve_total n v6 t name h a s : plain_cache s -> good_handle h -> total (resolve_name E (S n) v6 t name h a s).
Proof.
  intros Hs Hh. rewrite resolve_step. unfold resolve_body. destruct (valid h) eqn:Hv.
  { destruct (eoip h); [done|]. by apply handle_next_total. }
  unfold valid in Hv. destruct (ip_e h) eqn:Hi; [done|]. destruct (srv_e h) eqn:Hx; [done|].
  match goal with |- context [match ?x with Some _ => _ | None => _ end] => destruct x as [[ty l]|] end.
  - cbn. split; [done|]. split; [by left|]. done.
  - destruct (cache_find _ _ _) as [s' o] eqn:Hc. apply cache_find_plain in Hc as [Hs' Ho]; [|done].
    destruct o as [x|]; [apply entry_next_total; auto|by apply query_types_total].
Qed.

Lemma destination_total d a h s : plain_cache s -> good_handle h -> total (set_destination_ip E d a h s).
Proof.
  intros Hs Hh. unfold set_destination_ip. destruct (am_inet_pton E (d_host d)) as [[t l]|]; [done|]. change DEPTH with (S 66).
  assert (Hb : forall h s, plain_cache s -> good_handle h -> total
    (let! (s, h, a, r) := resolve_name E (S 66) true dns_r_a (d_host d) h sa_zero s in
     if r <? 0 then DOk (s, h, a, -478) else DOk (s, h, default_port (d_port d) a, 0))).
  { intros h' s' Hs' Hh'. pose proof (resolve_total 66 true dns_r_a (d_host d) h' sa_zero s' Hs' Hh') as H.
    destruct (resolve_name _ _ _ _ _ _ _ _) as [[[[s2 h2] a2] r]| | |]; try done. cbn [dbind]. by case_match. }
  destruct (if _ && _ then _ else _) as [n|]; [|by apply Hb].
  pose proof (resolve_total 66 true dns_r_srv n h a s Hs Hh) as H.
  destruct (resolve_name _ _ _ _ _ _ _ _) as [[[[s2 h2] a2] r]| | |]; try done. cbn [dbind]. destruct H as [H1 H2]. case_match; [done|by apply Hb].
Qed.

Lemma more_targets_total fuel trsp h a s :
  plain_cache s -> good_handle h -> left_over h < Z.of_nat fuel -> exists s' l, more_targets E fuel trsp h a s = DOk (s', l) /\ plain_cache s' /\ l <> [].
Proof.
  revert h a s. induction fuel as [|fuel IH]; intros h a s Hs Hh Hf; [pose proof (left_over_nonneg h); lia|].
  cbn [more_targets]. pose proof (next_ends E h a s (proj1 Hh)) as Hn. pose proof (handle_next_total (resolve_name E DEPTH true dns_r_a) h a s Hs Hh) as Ht.
  destruct (handle_next_ip _ _ _ _ _) as [[[[s' h'] b] r]| | |]; try done. destruct Hn as [_ Hl], Ht as [Hs' Hh']. cbn [dbind].
  destruct (Z.eqb_spec r 0) as [->|]; [|by eauto]. destruct (IH h' b s' Hs' Hh' ltac:(specialize (Hl eq_refl); lia)) as (s2 & l & -> & Hs2 & _). cbn [dbind]. by eauto.
Qed.

End Total.

(** C39: resolving ends.  For every list of destinations, whatever the cache holds, whatever
    random numbers are drawn and whatever bytes the name servers answer (as long as they
    leave 16 bytes of the buffer free), the rounds and nested calls that the definitions have
    are enough: [resolve_targets] does not loop.  When the SRV records in the cache and in the
    answers have addresses as targets (none of their entries is empty or has a negative
    weight) it returns: with 0 and at least one target for each destination, or with -478 and
    those of the destinations before the one that cannot be resolved; the targets are added
    behind those that were there.  An SRV record with a name as its target can make it go
    through a null pointer instead ([srv_name_faults]). *)
Theorem resolve_targets_end E l targets s :
  answers_ok E ->
  resolve_targets E l targets s <> DFuel /\
  (plain_answers E -> plain_cache E s ->
   exists s' more r, resolve_targets E l targets s = DOk (s', targets ++ more, r) /\
     (r = 0 /\ (length l <= length more)%nat \/ r = -478)).
Proof.
  intros Hok. split; [by apply targets_not_fuel|]. intros Hans. revert targets s. induction l as [|d l IH]; intros targets s Hs; cbn [resolve_targets].
  { exists s, [], 0. rewrite app_nil_r. split; [done|]. left. cbn. lia. }
  pose proof (destination_total E Hok Hans d sa_zero new_handle s Hs ltac:(split; [by left|done])) as Hd.
  destruct (set_destination_ip E d sa_zero new_handle s) as [[[[s1 h] a] r]| | |]; try done. destruct Hd as [Hs1 Hh]. cbn [dbind].
  destruct (negb (r =? 0)).
  { exists s1, [], (-478). rewrite app_nil_r. split; [done|by right]. }
  destruct (more_targets_total E (rounds h) (dest_trsp (d_trsp d)) h a s1 Hs1 Hh (left_over_rounds h)) as (s2 & k & -> & Hs2 & Hk). cbn [dbind].
  destruct (IH (targets ++ k) s2 Hs2) as (s3 & more & r' & -> & Hr). exists s3, (k ++ more), r'. rewrite app_assoc. split; [done|].
  destruct Hr as [[-> Hr]|Hr]; [left|by right]. split; [done|]. rewrite length_app. cbn. destruct k; [done|]. cbn. lia.
Qed.

(** ** The cache *)

Inductive cache_op := CInsert (name : list Z) (x : dns_entry) | CFind (name : list Z) | CPurge (bucket : Z) | CTick (d : Z).

Definition cache_do (E : res_env) (s : resolver) (o : cache_op) : resolver :=
  match o with
  | CInsert name x => fst (cache_insert E name x s)
  | CFind name => fst (cache_find E name s)
  | CPurge i => run_round i s
  | CTick d => mk_res (cache s) (r_random s) (r_queries s) (r_next s) (r_now s + d)
  end.

Definition op_forward (o : cache_op) : Prop := match o with CTick d => 0 <= d | _ => True end.

Lemma nm_find_insert k j x l : k <> j -> nm_find k (nm_insert j x l) = nm_find k l.
Proof.
  intros Hne. induction l as [|[i y] l IH]; cbn [nm_insert nm_find].
  - by rewrite bool_decide_false by congruence.
  - destruct (name_less i j); cbn [nm_find]; [by rewrite IH|]. by rewrite (bool_decide_false (j = k)) by congruence.
Qed.

Lemma nm_find_erase k j l : k <> j -> nm_find k (nm_erase j l) = nm_find k l.
Proof.
  intros Hne. induction l as [|[i y] l IH]; cbn [nm_erase List.filter nm_find fst]; [done|].
  case_bool_decide as Hi; cbn [negb].
  - subst. unfold nm_erase in IH. by rewrite IH, bool_decide_false by congruence.
  - cbn [nm_find]. unfold nm_erase in IH. by rewrite IH.
Qed.

Lemma nm_find_purge now k x l : nm_find k l = Some x -> now < e_expire x -> nm_find k (purge now l) = Some x.
Proof.
  revert l. fix IH 1. intros [|[i y] l] Hf Hx; [done|]. cbn [purge nm_find] in *.
  destruct (Z.leb_spec (e_expire y) now) as [He|He].
  - case_bool_decide; [injection Hf as ->; lia|]. destruct l as [|[j z] l]; [done|]. cbn [nm_find] in *.
    case_bool_decide; [done|]. by apply IH.
  - cbn [nm_find]. case_bool_decide; [done|]. by apply IH.
Qed.

Section Cache.
Context (E : res_env).

Definition bound (s : resolver) (name : list Z) : option dns_entry := nm_find name (cache s (bucket_of E name)).

Lemma bound_set s name i l :
  bound (set_bucket i l s) name = if bucket_of E name =? i then nm_find name l else bound s name.
Proof. unfold bound. cbn. by destruct (bucket_of E name =? i). Qed.

Lemma bound_kept o s name x :
  op_forward o -> bound s name = Some x -> r_now (cache_do E s o) < e_expire x -> bound (cache_do E s o) name = Some x.
Proof.
  intros Ho Hb Hx. destruct o as [k y|k|i|d]; cbn [cache_do] in *.
  - unfold cache_insert. destruct (nm_find k _) eqn:Hk; [done|]. cbn [fst]. rewrite bound_set.
    destruct (Z.eqb_spec (bucket_of E name) (bucket_of E k)) as [He|]; [|done].
    destruct (decide (name = k)) as [->|Hne]; [unfold bound in Hb; congruence|]. rewrite nm_find_insert by done. rewrite <- He. exact Hb.
  - unfold cache_find in *. destruct (nm_find k _) as [y|] eqn:Hk; [|done]. destruct (Z.leb_spec (e_expire y) (r_now s)); [|done]. cbn [fst] in *. rewrite bound_set.
    destruct (Z.eqb_spec (bucket_of E name) (bucket_of E k)) as [He|]; [|done].
    destruct (decide (name = k)) as [->|Hne]; [unfold bound in Hb; rewrite Hk in Hb; injection Hb as ->; cbn in Hx; lia|].
    rewrite nm_find_erase by done. rewrite <- He. exact Hb.
  - unfold run_round in *. rewrite bound_set. destruct (Z.eqb_spec (bucket_of E name) i) as [<-|]; [|done]. by apply nm_find_purge.
  - exact Hb.
Qed.

Lemma now_forward o s : op_forward o -> r_now s <= r_now (cache_do E s o).
Proof.
  intros Ho. destruct o; cbn [cache_do op_forward] in *; [| |done|cbn; lia].
  - unfold cache_insert. case_match; done.
  - unfold cache_find. repeat case_match; done.
Qed.

Lemma run_forward ops s : Forall op_forward ops -> r_now s <= r_now (fold_left (cache_do E) ops s).
Proof.
  intros Ho. revert s. induction Ho as [|o ops Ho _ IH]; intros s; cbn [fold_left]; [done|].
  pose proof (now_forward o s Ho). specialize (IH (cache_do E s o)). lia.
Qed.

(** C40: the cache serves an entry as long as it is valid, and not longer.  After any
    insertions, look-ups and rounds of the thread that removes old entries, while time goes
    on, a name that had an entry still gets it as long as the entry has not expired; and no
    look-up ever returns an entry that has. *)
Theorem cache_serves ops s name x :
  Forall op_forward ops -> bound s name = Some x ->
  let s' := fold_left (cache_do E) ops s in
  (r_now s' < e_expire x -> cache_find E name s' = (s', Some x)) /\
  (forall y t, cache_find E name s' = (t, Some y) -> r_now s' < e_expire y).
Proof.
  intros Ho Hb s'. split.
  - assert (Hk : r_now s' < e_expire x -> bound s' name = Some x).
    { unfold s'. clear s'. revert s Hb. induction Ho as [|o ops Ho Hos IH]; intros s Hb Hx; cbn [fold_left] in *; [done|].
      apply IH; [|done]. apply bound_kept; [done|done|]. pose proof (run_forward ops (cache_do E s o) Hos). lia. }
    intros Hx. specialize (Hk Hx). unfold bound in Hk. unfold cache_find. rewrite Hk, (proj2 (Z.leb_gt _ _)) by done. done.
  - intros y t. unfold cache_find. destruct (nm_find name _) as [z|]; [|done]. destruct (Z.leb_spec (e_expire z) (r_now s')); [done|].
    by intros [= _ ->].
Qed.

(** ** Records that are lost or not read well *)

(** An SRV record whose target is a name: the handle is already valid when the name is to be
    resolved, so that it is asked for its next address, through a null pointer. *)
Theorem srv_name_faults id expire x s :
  am_inet_pton E (srv_target x) = None ->
  entry_next_ip E (resolve_name E DEPTH true dns_r_a) (mk_entry id expire (SrvEntry [x])) new_handle sa_zero s = DFault.
Proof.
  intros Ht. unfold entry_next_ip. cbn [e_body e_id]. unfold srv_next_ip. cbn [srv_e new_handle andb fst snd h_set_srv srv_n ip_e length].
  change ((0 <? 0) || (Z.of_nat 1 <=? 0) || (MAX_SRV_RR <=? 0)) with false. cbv iota.
  assert (Hc : exists n, srv_choose [x] (random E (r_random s)) (h_set_srv (Some (id, [x])) 0 0 new_handle) =
    (Some (0, h_set_srv (Some (id, [x])) n 0 (h_set_srv (Some (id, [x])) 0 0 new_handle)), false)).
  { unfold srv_choose. change ([x] !! Z.to_nat (srv_n (h_set_srv (Some (id, [x])) 0 0 new_handle))) with (Some x).
    change (drop _ (take 32 [x])) with [x]. cbn [srv_group srv_n srv_used h_set_srv]. rewrite Z.eqb_refl. by eexists. }
  destruct Hc as [n ->]. change ([x] !! Z.to_nat 0) with (Some x). cbv iota beta. rewrite Ht. change DEPTH with (S 66). rewrite resolve_step.
  unfold resolve_body, valid, eoip. cbn [ip_e srv_e h_set_port h_set_srv srv_n ip_n new_handle]. change (0 =? -1) with false. rewrite andb_false_r.
  unfold handle_next_ip, valid, eoip. cbn [ip_e srv_e h_set_port h_set_srv srv_n ip_n new_handle negb orb]. change (0 =? -1) with false. rewrite andb_false_r.
  unfold srv_next_ip. cbn [srv_e h_set_port h_set_srv fst]. by rewrite bool_decide_true.
Qed.

End Cache.

(** ** Examples and witnesses *)

(** Texts of digits count as addresses; there are no name servers. *)
Definition demo_pton (l : list Z) : option (list Z) := match l with x :: _ => if (48 <=? x) && (x <=? 57) then Some l else None | [] => None end.
Definition demo_res_env : res_env := mk_renv (fun n => Z.of_nat n * 7) (fun _ _ _ => None) (fun _ => 0) demo_pton (fun _ => None) false.
Definition demo_resolver : resolver := mk_res (fun _ => []) 0 0 0 100.

Definition demo_records : list srv_entry := [mk_srv 2 5 5070 [51]; mk_srv 1 10 5060 [49]; mk_srv 1 20 0 [50]].

(** The ports of the targets that a list of records leads to. *)
Definition ports_of (l : list srv_entry) : dres (list Z) :=
  let! (s, h, a, r) := entry_next_ip demo_res_env (resolve_name demo_res_env DEPTH true dns_r_a) (mk_entry 0 0 (init (SrvEntry l))) new_handle sa_zero demo_resolver in
  let! (s, k) := more_targets demo_res_env (rounds h) [] h a s in DOk (map (fun x => sa_port (fst x)) k).

(** Of two records of the same priority without weight only the first is used when a record
    of another priority follows. *)
Theorem zero_weights_lost : ports_of [mk_srv 1 0 5060 [49]; mk_srv 1 0 5061 [50]; mk_srv 2 1 5062 [51]] = DOk [5060; 5062].
Proof. vm_compute. reflexivity. Qed.

(** A target that is a name is left out without being resolved when the record before it has
    an address. *)
Theorem named_target_skipped : ports_of [mk_srv 1 1 5060 [49]; mk_srv 2 1 5061 [120]; mk_srv 3 1 5062 [51]] = DOk [5060; 5062].
Proof. vm_compute. reflexivity. Qed.

(** An answer of 512 bytes whose last record is an address record without data: the address
    is read behind the buffer. *)
Definition short_answer : list Z :=
  [0; 1; 128; 0; 0; 0; 0; 2; 0; 0; 0; 0] ++ [0; 0; 16; 0; 1; 0; 0; 0; 60] ++ be16 478 ++ repeat 0 478 ++ [0; 0; 1; 0; 1; 0; 0; 0; 60; 0; 0].

Theorem address_read_behind :
  length short_answer = 512%nat /\ dns_msg_parse short_answer 512 (rr_to_dns_entry short_answer 512 0) ([], 0%nat) = DFault.
Proof. vm_compute. done. Qed.

(** Of two entries that have expired the second one stays. *)
Theorem purge_skips : purge 10 [([97], mk_entry 0 5 (IpEntry [])); ([98], mk_entry 1 5 (IpEntry []))] = [([98], mk_entry 1 5 (IpEntry []))].
Proof. reflexivity. Qed.

Lemma srv_all_once_witness :
  ports_of demo_records = DOk [5060; 5060; 5070] /\
  exists s1 h a s2 recs,
    entry_next_ip demo_res_env (resolve_name demo_res_env DEPTH true dns_r_a) (mk_entry 0 0 (init (SrvEntry demo_records))) new_handle sa_zero demo_resolver = DOk (s1, h, a, 0) /\
    more_targets demo_res_env (rounds h) [] h a s1 = DOk (s2, map (fun x => (srv_addr demo_res_env x, [])) recs) /\
    recs ≡ₚ demo_records /\ StronglySorted (fun x y => srv_p x <= srv_p y) recs.
Proof.
  split; [vm_compute; done|]. apply (srv_all_once demo_res_env 0 0 demo_records [] demo_resolver); [done|cbn; lia| |].
  - repeat (constructor; [cbn; lia|]). constructor.
  - repeat (constructor; [vm_compute; by eexists|]). constructor.
Defined.

Lemma resolve_targets_end_witness :
  let l := [mk_dest [97; 46; 98] 0 []; mk_dest [49] 5060 []] in
  let s := cache_do demo_res_env demo_resolver (CInsert (default [] (srv_name [97; 46; 98] [])) (mk_entry 0 200 (SrvEntry demo_records))) in
  exists s' more r, resolve_targets demo_res_env l [] s = DOk (s', [] ++ more, r) /\ (r = 0 /\ (2 <= length more)%nat \/ r = -478).
Proof.
  apply (resolve_targets_end demo_res_env [mk_dest [97; 46; 98] 0 []; mk_dest [49] 5060 []] []).
  - intros n name t buf len H. discriminate H.
  - intros name t s s' l H. discriminate H.
  - intros i. cbn. destruct (i =? _); [|constructor]. constructor; [|constructor]. split; [done|].
    split; repeat (constructor; [(vm_compute; by eexists) || done|]); constructor.
Defined.

Definition demo_entry : dns_entry := mk_entry 0 200 (IpEntry [mk_ip IPv4 [10; 0; 0; 1]]).
Definition demo_cached : resolver := cache_do demo_res_env demo_resolver (CInsert [97] demo_entry).
Definition demo_ops : list cache_op := [CTick 50; CPurge 0; CInsert [98] (mk_entry 1 160 (IpEntry [])); CTick 20; CFind [98]].

Lemma cache_serves_witness :
  let s := fold_left (cache_do demo_res_env) demo_ops demo_cached in cache_find demo_res_env [97] s = (s, Some demo_entry).
Proof.
  apply (cache_serves demo_res_env demo_ops demo_cached [97] demo_entry); [|reflexivity|vm_compute; reflexivity].
  repeat (constructor; [cbn; lia || done|]). constructor.
Defined.
