(* ===== verification/AppTimer.v ===== *)
(** * The timers of applications

    Model of core/AmAppTimer.h and core/AmAppTimer.cpp over the timer wheel: named timers,
    which post an event to the queue of a session, and direct timers, which call a handler.
    Sessions set and remove their timers from their own threads while the thread of the wheel
    turns it and fires the timers of a tick one after another: a tick and every callback are
    steps of their own, and setting and removing timers may come between any two of them.

    The timer objects are in a heap: a timer that is fired, linked or deleted when its object
    is gone is a fault.  The address of a new object is any that is not in use, so that an
    address may come back. *)

From Stdlib Require Import ZArith Lia Permutation.
From stdpp Require Import base list gmap.
From S2P Require Import Prelude Wheeltimer TimerObjects.

Local Open Scope Z_scope.

(** ** Data *)

(** [app_timer] and [direct_app_timer]: whom the timer belongs to. *)
Inductive app_key := AppT (q_id : list Z) (timer_id : Z) | DirectT (dt : nat).

#[global] Instance app_key_eq_dec : EqDecision app_key.
Proof. solve_decision. Defined.

(** [AmAppTimer]: the wheel, the objects that exist, the maps [user_timers] and
    [direct_timers], the timers of the present tick that are still to be fired, and what was
    posted or called.  A pointer to a timer is kept with the expiry of its object. *)
Record app_timers := mk_at {
  at_wheel : wheeltimer;
  at_heap : gmap nat app_key;
  user_timers : gmap (list Z) (gmap Z timer);
  direct_timers : gmap nat timer;
  at_firing : list timer;
  at_events : list app_key
}.

Definition app_init : app_timers := mk_at wheeltimer_init ∅ ∅ ∅ [] [].

Definition at_set_wheel w s := mk_at w (at_heap s) (user_timers s) (direct_timers s) (at_firing s) (at_events s).
Definition at_set_heap h s := mk_at (at_wheel s) h (user_timers s) (direct_timers s) (at_firing s) (at_events s).
Definition at_set_user u s := mk_at (at_wheel s) (at_heap s) u (direct_timers s) (at_firing s) (at_events s).
Definition at_set_direct d s := mk_at (at_wheel s) (at_heap s) (user_timers s) d (at_firing s) (at_events s).
Definition at_set_firing l s := mk_at (at_wheel s) (at_heap s) (user_timers s) (direct_timers s) l (at_events s).
Definition at_post k s := mk_at (at_wheel s) (at_heap s) (user_timers s) (direct_timers s) (at_firing s) (at_events s ++ [k]).

(** [delete t] *)
Definition at_delete (t : timer) (s : app_timers) : option app_timers :=
  match at_heap s !! tm_ptr t with Some _ => Some (at_set_heap (base.delete (tm_ptr t) (at_heap s)) s) | None => None end.

(** ** Operations *)

(** [erase_timer]: the timer that was registered. *)
Definition erase_timer (q : list Z) (id : Z) (s : app_timers) : app_timers * option timer :=
  match user_timers s !! q with
  | None => (s, None)
  | Some m =>
      match m !! id with
      | None => (s, None)
      | Some t =>
          let m := base.delete id m in
          (at_set_user (if bool_decide (m = ∅) then base.delete q (user_timers s) else <[q := m]> (user_timers s)) s, Some t)
      end
  end.

(** [user_timers[q][id] = t] *)
Definition put_timer (q : list Z) (id : Z) (t : timer) (s : app_timers) : app_timers :=
  at_set_user (<[q := <[id := t]> (default ∅ (user_timers s !! q))]> (user_timers s)) s.

(** [create_timer]; [p] is the address of the new object. *)
Definition create_timer (q : list Z) (id expires : Z) (p : nat) (s : app_timers) : app_timers * timer :=
  let t := mk_timer p expires in
  (put_timer q id t (at_set_heap (<[p := AppT q id]> (at_heap s)) s), t).

Definition MAX_TIMER_SECONDS : Z := 365 * 24 * 3600.

(** The ticks of a time-out, which is given in microseconds. *)
Definition timeout_ticks (timeout : Z) : Z :=
  if timeout <? 0 then 0
  else if MAX_TIMER_SECONDS * 1000000 <? timeout then MAX_TIMER_SECONDS * 1000000 / TIMER_RESOLUTION
  else timeout / TIMER_RESOLUTION.

Definition on_wheel (f : wheeltimer -> wheeltimer) (s : app_timers) : app_timers := at_set_wheel (f (at_wheel s)) s.

(** [setTimer] of a named timer *)
Definition setTimer (q : list Z) (id timeout : Z) (p : nat) (s : app_timers) : app_timers :=
  let expires := u32 (timeout_ticks timeout + wall_clock (at_wheel s)) in
  let '(s, old) := erase_timer q id s in
  let s := on_wheel (remove_timer old) s in
  let '(s, t) := create_timer q id expires p s in
  on_wheel (insert_timer t) s.

(** [removeTimer] and [removeTimers] of named timers *)
Definition removeTimer (q : list Z) (id : Z) (s : app_timers) : app_timers :=
  let '(s, old) := erase_timer q id s in on_wheel (remove_timer old) s.

Definition removeTimers (q : list Z) (s : app_timers) : app_timers :=
  match user_timers s !! q with
  | None => s
  | Some m =>
      at_set_user (base.delete q (user_timers s))
        (fold_left (fun s x => on_wheel (remove_timer (Some (snd x))) s) (map_to_list m) s)
  end.

(** [setTimer] and [removeTimer] of direct timers; the expiry is not limited. *)
Definition setTimer_direct (dt : nat) (timeout : Z) (p : nat) (s : app_timers) : app_timers :=
  let t := mk_timer p (u32 (timeout / TIMER_RESOLUTION + wall_clock (at_wheel s))) in
  let old := direct_timers s !! dt in
  let s := at_set_heap (<[p := DirectT dt]> (at_heap s)) s in
  on_wheel (insert_timer t) (at_set_direct (<[dt := t]> (direct_timers s)) (on_wheel (remove_timer old) s)).

Definition removeTimer_direct (dt : nat) (s : app_timers) : app_timers :=
  match direct_timers s !! dt with
  | Some t => at_set_direct (base.delete dt (direct_timers s)) (on_wheel (remove_timer (Some t)) s)
  | None => s
  end.

(** [app_timer_cb] *)
Definition app_timer_cb (t : timer) (q : list Z) (id : Z) (s : app_timers) : option app_timers :=
  match erase_timer q id s with
  | (s, Some t') => if (tm_ptr t' =? tm_ptr t)%nat then at_delete t (at_post (AppT q id) s) else Some (put_timer q id t' s)
  | (s, None) => Some s
  end.

(** [direct_app_timer_cb] *)
Definition direct_app_timer_cb (t : timer) (dt : nat) (s : app_timers) : option app_timers :=
  match direct_timers s !! dt with
  | Some t' =>
      if (tm_ptr t' =? tm_ptr t)%nat
      then match at_delete t (at_set_direct (base.delete dt (direct_timers s)) s) with
           | Some s => Some (at_post (DirectT dt) s)
           | None => None
           end
      else Some s
  | None => Some s
  end.

(** The first of the timers that are to be fired: [fire] of its class. *)
Definition fire_next (s : app_timers) : option app_timers :=
  match at_firing s with
  | [] => Some s
  | t :: l =>
      let s := at_set_firing l s in
      match at_heap s !! tm_ptr t with
      | Some (AppT q id) => app_timer_cb t q id s
      | Some (DirectT dt) => direct_app_timer_cb t dt s
      | None => None
      end
  end.

(** [turn_wheel] up to the firing: a fault if a timer that is linked into the wheel does not
    exist. *)
Definition tick (s : app_timers) : option app_timers :=
  if forallb (fun t => bool_decide (is_Some (at_heap s !! tm_ptr t))) (timers_of (at_wheel s)) then
    match reqs_objects (reqs_backlog (at_wheel s)) (at_heap s), turn_wheel (at_wheel s) with
    | Some h, Some (w, fired) => Some (at_set_firing fired (at_set_heap h (at_set_wheel w s)))
    | _, _ => None
    end
  else None.

(** ** Runs *)

Inductive app_label :=
| LSet (q : list Z) (id timeout : Z) (p : nat)
| LRemove (q : list Z) (id : Z)
| LRemoveAll (q : list Z)
| LSetDirect (dt : nat) (timeout : Z) (p : nat)
| LRemoveDirect (dt : nat)
| LTick
| LFire.

Definition app_do (l : app_label) (s : app_timers) : option app_timers :=
  match l with
  | LSet q id timeout p => Some (setTimer q id timeout p s)
  | LRemove q id => Some (removeTimer q id s)
  | LRemoveAll q => Some (removeTimers q s)
  | LSetDirect dt timeout p => Some (setTimer_direct dt timeout p s)
  | LRemoveDirect dt => Some (removeTimer_direct dt s)
  | LTick => tick s
  | LFire => fire_next s
  end.

(** A new object has an address that is not in use; the wheel turns when all timers of the
    last tick were fired, and not over the end of its clock. *)
Definition enabled (l : app_label) (s : app_timers) : bool :=
  match l with
  | LSet _ _ _ p | LSetDirect _ _ p => bool_decide (at_heap s !! p = None)
  | LTick => bool_decide (at_firing s = []) && (wall_clock (at_wheel s) <? u32_mod - 1)
  | LFire => negb (bool_decide (at_firing s = []))
  | _ => true
  end.

Inductive app_run : list app_label -> app_timers -> app_timers -> Prop :=
| run_nil s : app_run [] s s
| run_cons l ls s s1 s2 : enabled l s = true -> app_do l s = Some s1 -> app_run ls s1 s2 -> app_run (l :: ls) s s2.

(** The run of a list of calls, computed. *)
Fixpoint app_exec (ls : list app_label) (s : app_timers) : option app_timers :=
  match ls with
  | [] => Some s
  | l :: ls => if enabled l s then match app_do l s with Some s => app_exec ls s | None => None end else None
  end.

Lemma app_exec_run ls s s' : app_exec ls s = Some s' -> app_run ls s s'.
Proof.
  revert s. induction ls as [|l ls IH]; intros s; cbn; [intros [= ->]; constructor|].
  destruct (enabled l s) eqn:He; [|done]. destruct (app_do l s) eqn:Hd; [|done]. intros H. econstructor; eauto.
Qed.

Definition app_reach (s : app_timers) : Prop := exists ls, app_run ls app_init s.

(** ** The invariant *)

(** The timer that is registered for a key. *)
Definition armed (s : app_timers) (k : app_key) : option timer :=
  match k with
  | AppT q id => m ← user_timers s !! q; m !! id
  | DirectT dt => direct_timers s !! dt
  end.

(** Registered timers exist and are pending or being fired; those that are pending are
    registered; every object is registered or will be deleted; no request and no link leads
    to an object that does not exist. *)
Record at_inv (w : wheeltimer) (h : gmap nat app_key) (a : app_key -> option timer) (f : list timer) : Prop := {
  ai_wheel : wheel_wf w;
  ai_reqs : reqs_ok w;
  ai_armed k t : a k = Some t -> h !! tm_ptr t = Some k /\ t ∈ pending w ++ f /\ (tm_ptr t ∉ removed w) /\ is_u32 (tm_expires t);
  ai_pending t : t ∈ pending w -> exists k, a k = Some t;
  ai_firing t : t ∈ f -> is_Some (h !! tm_ptr t);
  ai_nodup : NoDup (tm_ptr <$> pending w ++ f);
  ai_linked t : t ∈ timers_of w -> is_Some (h !! tm_ptr t);
  ai_objects : exists h', reqs_objects (reqs_backlog w) h = Some h' /\ forall p, h' !! p = if decide (p ∈ removed w) then None else h !! p;
  ai_live p k : h !! p = Some k -> p ∈ removed w \/ exists t, a k = Some t /\ tm_ptr t = p
}.

(** *** Setting and removing *)

Definition upd_armed (a : app_key -> option timer) (k : app_key) (v : option timer) : app_key -> option timer :=
  fun k' => if decide (k' = k) then v else a k'.

Lemma inv_ext w h a a' f : (forall k, a' k = a k) -> at_inv w h a f -> at_inv w h a' f.
Proof.
  intros Ha [H1 H2 H3 H4 H5 H6 H7 H8 H9]. constructor; try done.
  - intros k t. rewrite Ha. apply H3.
  - intros t [k Hk]%H4. exists k. by rewrite Ha.
  - intros p k Hp. destruct (H9 p k Hp) as [?|(t & ? & ?)]; [by left|right]. exists t. by rewrite Ha.
Qed.

Lemma inv_unarm w h a f k t : at_inv w h a f -> a k = Some t -> at_inv (remove_timer (Some t) w) h (upd_armed a k None) f.
Proof.
  intros [H1 H2 H3 H4 H5 H6 H7 (h' & H8 & H8') H9] Hk. destruct (H3 k t Hk) as (Hh & Hp & Hr & He).
  constructor; try done.
  - apply Forall_app. split; [done|]. by apply Forall_singleton.
  - intros k' t'. unfold upd_armed. case_decide as Hd; [done|]. intros Hk'. destruct (H3 k' t' Hk') as (Hh' & Hp' & Hr' & He').
    assert (Hne : tm_ptr t' <> tm_ptr t) by congruence. split; [done|]. rewrite pending_remove, removed_remove. split; [|split; [|done]].
    + apply elem_of_app. apply elem_of_app in Hp' as [Hp'|Hp']; [left|by right]. apply elem_of_filterb. by rewrite (proj2 (Nat.eqb_neq _ _)).
    + intros [?|?%list_elem_of_singleton]%elem_of_app; done.
  - intros t'. rewrite pending_remove. intros [[k' Hk']%H4 Hne%negb_true_iff%Nat.eqb_neq]%elem_of_filterb. exists k'.
    unfold upd_armed. rewrite decide_False; [done|]. intros ->. rewrite Hk in Hk'. by injection Hk' as ->.
  - rewrite pending_remove. eapply sublist_NoDup; [exact H6|]. apply fmap_sublist, sublist_app; [apply filter_sublist|done].
  - exists (base.delete (tm_ptr t) h'). rewrite removed_remove. change (reqs_backlog (remove_timer (Some t) w)) with (reqs_backlog w ++ [mk_req t false]).
    rewrite reqs_objects_app, H8. cbn. rewrite H8', decide_False, Hh by done.
    split; [done|]. intros p. rewrite lookup_delete, H8'. apply removed_objects.
  - intros p k' Hp'. rewrite removed_remove. destruct (H9 p k' Hp') as [?|(t' & Hk' & <-)]; [left; apply elem_of_app; by left|].
    destruct (decide (k' = k)) as [->|Hne]; [|right; exists t'; unfold upd_armed; by rewrite decide_False].
    rewrite Hk in Hk'. injection Hk' as ->. left. apply elem_of_app. right. by left.
Qed.

Lemma inv_arm w h a f k p e :
  at_inv w h a f -> a k = None -> h !! p = None -> is_u32 e ->
  at_inv (insert_timer (mk_timer p e) w) (<[p := k]> h) (upd_armed a k (Some (mk_timer p e))) f.
Proof.
  intros [H1 H2 H3 H4 H5 H6 H7 (h' & H8 & H8') H9] Hk Hp He.
  assert (Hfresh : forall t, is_Some (h !! tm_ptr t) -> tm_ptr t <> p) by (intros t [x Hx] <-; congruence).
  assert (Hrem : p ∉ removed w).
  { intros (r & Hr & Hi & <-)%removed_elem. clear -H8 Hr Hp. revert h Hp H8. induction Hr as [r l|r x l Hr IH]; intros h Hp; cbn; [by rewrite Hp|].
    destruct (h !! tm_ptr (rq_t x)) eqn:Hx; [|done]. destruct (rq_insert x); apply IH; [done|]. by apply lookup_delete_None; right. }
  assert (Hall : forall t, t ∈ pending w ++ f -> tm_ptr t <> p).
  { intros t [[k' Hk']%H4|Ht%H5]%elem_of_app; apply Hfresh; [|done]. destruct (H3 _ _ Hk') as [-> _]. eauto. }
  constructor; rewrite ?pending_insert, ?removed_insert; try done.
  - apply Forall_app. split; [done|]. by apply Forall_singleton.
  - intros k' t. unfold upd_armed. case_decide as Hd.
    + intros [= <-]. rewrite Hd. cbn [tm_ptr tm_expires]. rewrite lookup_insert_eq. split_and!; try done. by left.
    + intros Hk'. destruct (H3 k' t Hk') as (Hh' & Hp' & Hr' & He'). rewrite lookup_insert_ne by (intros Hx; rewrite <- Hx in Hh'; congruence). split_and!; try done. by right.
  - intros t [->|[k' Hk']%H4]%elem_of_cons; [exists k; unfold upd_armed; by rewrite decide_True|].
    exists k'. unfold upd_armed. rewrite decide_False; [done|]. by intros ->; rewrite Hk in Hk'.
  - intros t Ht. rewrite lookup_insert_ne; [by apply H5|]. apply not_eq_sym, Hall, elem_of_app. by right.
  - cbn. apply NoDup_cons. split; [|done]. intros (t & -> & Ht)%list_elem_of_fmap. by apply (Hall t).
  - intros t Ht. rewrite lookup_insert_ne; [by apply H7|]. apply not_eq_sym, Hfresh. by apply H7.
  - exists (<[p := k]> h'). change (reqs_backlog (insert_timer ?t w)) with (reqs_backlog w ++ [mk_req t true]). rewrite reqs_objects_app, (reqs_objects_fresh _ _ h') by done. cbn.
    rewrite lookup_insert_eq. split; [done|]. intros p'. rewrite !lookup_insert. case_decide as Hd; [|by rewrite H8'].
    rewrite decide_False by (by subst). done.
  - intros p' k'. rewrite lookup_insert. case_decide as Hd.
    + intros [= <-]. right. exists (mk_timer p e). unfold upd_armed. by rewrite decide_True.
    + intros Hp'. destruct (H9 p' k' Hp') as [?|(t & Hk' & Ht)]; [by left|right]. exists t. unfold upd_armed.
      rewrite decide_False; [done|]. by intros ->; rewrite Hk in Hk'.
Qed.

(** *** Ticks and callbacks *)

Lemma inv_tick w h a :
  at_inv w h a [] -> wall_clock w < u32_mod - 1 ->
  exists h' w' fired,
    reqs_objects (reqs_backlog w) h = Some h' /\ turn_wheel w = Some (w', fired) /\ at_inv w' h' a fired /\
    wall_clock w' = wall_clock w + 1 /\
    (forall t, t ∈ fired <-> t ∈ pending w /\ due (wall_clock w + 1) t = true) /\
    (forall t, t ∈ pending w' <-> t ∈ pending w /\ due (wall_clock w + 1) t = false).
Proof.
  intros [H1 H2 H3 H4 H5 H6 H7 (h' & H8 & H8') H9] Hc. rewrite app_nil_r in H6.
  destruct (turn_wheel_spec w H1 H2) as (w' & fired & Ht & Hw & Hb & Hwf & Hf & Hr); [lia|].
  exists h', w', fired. fold (pending w) in Hf, Hr.
  assert (Hp' : pending w' = timers_of w') by (unfold pending; by rewrite Hb).
  assert (Hrm : removed w' = []) by (unfold removed; by rewrite Hb).
  assert (Ef : forall t, t ∈ fired <-> t ∈ pending w /\ due (wall_clock w + 1) t = true) by (intros t; rewrite Hf; apply elem_of_filterb).
  assert (Er : forall t, t ∈ pending w' <-> t ∈ pending w /\ due (wall_clock w + 1) t = false)
    by (intros t; rewrite Hp', Hr, elem_of_filterb, negb_true_iff; done).
  assert (Hobj : forall t, t ∈ pending w -> exists k, a k = Some t /\ h' !! tm_ptr t = Some k).
  { intros t [k Hk]%H4. exists k. split; [done|]. destruct (H3 k t Hk) as (? & _ & ? & _). by rewrite H8', decide_False. }
  split_and!; try done. constructor; rewrite ?Hrm; try done.
  - by apply reqs_ok_nil.
  - intros k t Hk. destruct (H3 k t Hk) as (Hh & Hp & Hn & He). rewrite app_nil_r in Hp. split_and!; try done.
    + by rewrite H8', decide_False.
    + apply elem_of_app. rewrite Ef, Er. destruct (due _ t); tauto.
    + by apply not_elem_of_nil.
  - intros t [Ht' _]%Er. by apply H4.
  - intros t [Ht' _]%Ef. destruct (Hobj t Ht') as (k & _ & ->). eauto.
  - by rewrite Hp', Hr, Hf, filter_parts.
  - intros t. rewrite <- Hp'. intros [Ht' _]%Er. destruct (Hobj t Ht') as (k & _ & ->). eauto.
  - exists h'. rewrite Hb. split; [done|]. intros p. by rewrite decide_False by apply not_elem_of_nil.
  - intros p k. rewrite H8'. case_decide; [done|]. intros Hp. right. by destruct (H9 p k Hp).
Qed.

(** No request is about a registered timer that is being fired. *)
Lemma firing_no_request w h a f k t :
  at_inv w h a (t :: f) -> a k = Some t -> Forall (fun rq => tm_ptr (rq_t rq) <> tm_ptr t) (reqs_backlog w).
Proof.
  intros [H1 H2 H3 H4 H5 H6 H7 H8 H9] Hk. destruct (H3 k t Hk) as (_ & _ & Hr & _).
  apply Forall_forall. intros rq Hrq He. destruct (rq_insert rq) eqn:Hi.
  - assert (Hp : rq_t rq ∈ pending w).
    { apply inserted_pending; [done|done|]. intros r Hr' Hi' He'. apply Hr, removed_elem. exists r. by rewrite <- He, <- He'. }
    rewrite fmap_app in H6. apply NoDup_app in H6 as (_ & H6 & _). apply (H6 (tm_ptr t)).
    + rewrite <- He. by apply list_elem_of_fmap_2.
    + by left.
  - apply Hr, removed_elem. by exists rq.
Qed.

(** The timer that is fired is the registered one when the addresses are the same. *)
Lemma firing_same w h a f k t t' : at_inv w h a (t :: f) -> a k = Some t' -> tm_ptr t' = tm_ptr t -> t' = t.
Proof.
  intros [H1 H2 H3 H4 H5 H6 H7 H8 H9] Hk He. destruct (H3 k t' Hk) as (_ & Hp & _).
  rewrite fmap_app in H6. cbn in H6. apply NoDup_app in H6 as (_ & H6 & [Hn _]%NoDup_cons).
  apply elem_of_app in Hp as [Hp|[->|Hp]%elem_of_cons]; [exfalso|done|exfalso].
  - apply (H6 (tm_ptr t)); [|by left]. rewrite <- He. by apply list_elem_of_fmap_2.
  - apply Hn. rewrite <- He. by apply list_elem_of_fmap_2.
Qed.

Lemma inv_fire_own w h a f k t :
  at_inv w h a (t :: f) -> a k = Some t -> at_inv w (base.delete (tm_ptr t) h) (upd_armed a k None) f.
Proof.
  intros Hinv Hk. pose proof (firing_no_request _ _ _ _ _ _ Hinv Hk) as Hno. destruct Hinv as [H1 H2 H3 H4 H5 H6 H7 (h' & H8 & H8') H9].
  destruct (H3 k t Hk) as (Hh & _ & Hr & _).
  rewrite fmap_app in H6. cbn in H6. pose proof H6 as (Hnd & Hdis & [Hnf Hnd']%NoDup_cons)%NoDup_app.
  assert (Hpend : forall t', t' ∈ pending w -> tm_ptr t' <> tm_ptr t).
  { intros t' Ht' He. apply (Hdis (tm_ptr t)); [|by left]. rewrite <- He. by apply list_elem_of_fmap_2. }
  assert (Hfir : forall t', t' ∈ f -> tm_ptr t' <> tm_ptr t) by (intros t' Ht' He; apply Hnf; rewrite <- He; by apply list_elem_of_fmap_2).
  constructor; try done.
  - intros k' t'. unfold upd_armed. case_decide as Hd; [done|]. intros Hk'. destruct (H3 k' t' Hk') as (Hh' & Hp' & Hr' & He').
    assert (Hne : tm_ptr t' <> tm_ptr t) by congruence. rewrite lookup_delete_ne by done. split_and!; try done.
    apply elem_of_app. apply elem_of_app in Hp' as [?|[->|?]%elem_of_cons]; [by left|done|by right].
  - intros t' Ht'. destruct (H4 t' Ht') as [k' Hk']. exists k'. unfold upd_armed. rewrite decide_False; [done|]. intros ->.
    rewrite Hk in Hk'. injection Hk' as ->. by apply (Hpend t').
  - intros t' Ht'. rewrite lookup_delete_ne by (apply not_eq_sym; by apply Hfir). apply H5. by right.
  - rewrite fmap_app. apply NoDup_app. split_and!; try done. intros p Hp Hp'. apply (Hdis p Hp). by right.
  - intros t' Ht'. rewrite lookup_delete_ne; [by apply H7|]. intros He.
    apply (Hpend t'); [|done]. apply pending_kept; [done|]. intros r Hr' Hi Her. eapply Forall_forall in Hno; [|exact Hr']. congruence.
  - exists (base.delete (tm_ptr t) h'). split; [by apply reqs_objects_other|]. intros p. rewrite !lookup_delete, H8'. by repeat case_decide.
  - intros p k'. rewrite lookup_delete. case_decide as Hd; [done|]. intros Hp. destruct (H9 p k' Hp) as [?|(t' & Hk' & Ht')]; [by left|right].
    exists t'. unfold upd_armed. rewrite decide_False; [done|]. intros ->. rewrite Hk in Hk'. injection Hk' as ->. done.
Qed.

Lemma inv_fire_other w h a f t :
  at_inv w h a (t :: f) -> (forall k, a k <> Some t) -> at_inv w h a f.
Proof.
  intros [H1 H2 H3 H4 H5 H6 H7 H8 H9] Hno. constructor; try done.
  - intros k t' Hk. destruct (H3 k t' Hk) as (? & Hp & ?). split; [done|]. split; [|done].
    apply elem_of_app. apply elem_of_app in Hp as [?|[->|?]%elem_of_cons]; [by left| |by right]. by destruct (Hno k).
  - intros t' Ht'. apply H5. by right.
  - rewrite fmap_app in H6 |- *. apply NoDup_app in H6 as (? & Hdis & [_ ?]%NoDup_cons). apply NoDup_app. split_and!; try done.
    intros p Hp Hp'. apply (Hdis p Hp). by right.
Qed.

(** ** The operations keep the invariant *)

Definition Inv (s : app_timers) : Prop := at_inv (at_wheel s) (at_heap s) (armed s) (at_firing s).

(** What setting and removing leave alone. *)
Definition same_rest (s s' : app_timers) : Prop :=
  at_firing s' = at_firing s /\ at_events s' = at_events s /\ wall_clock (at_wheel s') = wall_clock (at_wheel s).

Lemma armed_put q id t s k : armed (put_timer q id t s) k = upd_armed (armed s) (AppT q id) (Some t) k.
Proof.
  unfold upd_armed. destruct k as [q' id'|dt]; cbn; [|by rewrite decide_False].
  rewrite lookup_insert. destruct (decide (q = q')) as [->|Hq]; [|rewrite decide_False by congruence; done].
  cbn. rewrite lookup_insert. destruct (decide (id = id')) as [->|Hi]; [by rewrite decide_True|].
  rewrite decide_False by congruence. by destruct (user_timers s !! q').
Qed.

Lemma erase_spec q id s :
  let r := erase_timer q id s in
  r.2 = armed s (AppT q id) /\ (forall k, armed r.1 k = upd_armed (armed s) (AppT q id) None k) /\
  at_wheel r.1 = at_wheel s /\ at_heap r.1 = at_heap s /\ at_firing r.1 = at_firing s /\ at_events r.1 = at_events s.
Proof.
  unfold erase_timer. cbn. destruct (user_timers s !! q) as [m|] eqn:Hq; cbn.
  2: { split_and!; try done. intros k. unfold upd_armed. case_decide as Hd; [|done]. subst. cbn. by rewrite Hq. }
  destruct (m !! id) as [t|] eqn:Hi; cbn.
  2: { split_and!; try done. intros k. unfold upd_armed. case_decide as Hd; [|done]. subst. cbn. by rewrite Hq. }
  split_and!; try done. intros k. unfold upd_armed. destruct k as [q' id'|dt]; cbn; [|by rewrite decide_False].
  destruct (decide (q = q')) as [->|Hne].
  - assert (Hl : (if bool_decide (base.delete id m = ∅) then base.delete q' (user_timers s) else <[q' := base.delete id m]> (user_timers s)) !! q'
      ≫= lookup id' = base.delete id m !! id').
    { case_bool_decide as He; [rewrite lookup_delete_eq, He; cbn; by rewrite lookup_empty|by rewrite lookup_insert_eq]. }
    etransitivity; [exact Hl|]. rewrite lookup_delete, Hq. destruct (decide (id = id')) as [->|]; [by rewrite decide_True|].
    rewrite decide_False by congruence. done.
  - rewrite decide_False by congruence. case_bool_decide; [by rewrite lookup_delete_ne|by rewrite lookup_insert_ne].
Qed.

Lemma removeTimer_spec q id s :
  Inv s -> let s' := removeTimer q id s in
  Inv s' /\ same_rest s s' /\ at_heap s' = at_heap s /\ (forall k, armed s' k = upd_armed (armed s) (AppT q id) None k).
Proof.
  intros Hs. unfold removeTimer. pose proof (erase_spec q id s) as (H1 & H2 & H3 & H4 & H5 & H6). destruct (erase_timer q id s) as [s1 old]. cbn [fst snd] in *.
  assert (Ha : forall k, armed (on_wheel (remove_timer old) s1) k = armed s1 k) by done.
  split_and!; try done; [|split_and!; try done; cbn; rewrite H3; by destruct old].
  unfold Inv. eapply inv_ext; [intros k; rewrite Ha; apply H2|]. cbn. rewrite H3, H4, H5. destruct old as [t|].
  - by apply inv_unarm.
  - eapply inv_ext; [|exact Hs]. intros k. unfold upd_armed. case_decide; [congruence|done].
Qed.

(** Registering a new timer. *)
Lemma inv_new s s' k p e :
  Inv s -> armed s k = None -> at_heap s !! p = None -> is_u32 e ->
  at_wheel s' = insert_timer (mk_timer p e) (at_wheel s) -> at_heap s' = <[p := k]> (at_heap s) -> at_firing s' = at_firing s ->
  (forall k', armed s' k' = upd_armed (armed s) k (Some (mk_timer p e)) k') -> Inv s'.
Proof. intros Hs Hk Hp He E1 E2 E3 E4. unfold Inv. rewrite E1, E2, E3. eapply inv_ext; [exact E4|]. by apply inv_arm. Qed.

Lemma is_u32_mod z : is_u32 (u32 z).
Proof. unfold is_u32, u32. apply Z.mod_pos_bound. reflexivity. Qed.

Lemma setTimer_spec q id timeout p s :
  Inv s -> at_heap s !! p = None -> let s' := setTimer q id timeout p s in
  let t := mk_timer p (u32 (timeout_ticks timeout + wall_clock (at_wheel s))) in
  Inv s' /\ same_rest s s' /\ (forall k, armed s' k = upd_armed (armed s) (AppT q id) (Some t) k).
Proof.
  intros Hs Hp. cbv zeta. unfold setTimer. pose proof (removeTimer_spec q id s Hs) as (H1 & (H2 & H3 & H4) & H5 & H6). unfold removeTimer in *.
  destruct (erase_timer q id s) as [s1 old]. set (s2 := on_wheel (remove_timer old) s1) in *. clearbody s2.
  cbn [create_timer]. set (t := mk_timer p _).
  assert (Ha : forall k, armed (on_wheel (insert_timer t) (put_timer q id t (at_set_heap (<[p := AppT q id]> (at_heap s2)) s2))) k = upd_armed (armed s2) (AppT q id) (Some t) k).
  { intros k. apply (armed_put q id t (at_set_heap (<[p := AppT q id]> (at_heap s2)) s2)). }
  split_and!; try done.
  - apply (inv_new s2 _ (AppT q id) p (tm_expires t) H1); try done; [by rewrite H6; unfold upd_armed; rewrite decide_True|by rewrite H5|apply is_u32_mod].
  - intros k. rewrite Ha. unfold upd_armed. case_decide; [done|]. by rewrite H6; unfold upd_armed; rewrite decide_False.
Qed.

Lemma removeTimer_direct_spec dt s :
  Inv s -> let s' := removeTimer_direct dt s in
  Inv s' /\ same_rest s s' /\ (forall k, armed s' k = upd_armed (armed s) (DirectT dt) None k).
Proof.
  intros Hs. cbv zeta. unfold removeTimer_direct. destruct (direct_timers s !! dt) as [t|] eqn:Ht.
  - assert (Ha : forall k, armed (at_set_direct (base.delete dt (direct_timers s)) (on_wheel (remove_timer (Some t)) s)) k = upd_armed (armed s) (DirectT dt) None k).
    { intros k. unfold upd_armed. destruct k as [q id|dt']; cbn; [by rewrite decide_False|]. rewrite lookup_delete.
      destruct (decide (dt = dt')) as [->|]; [by rewrite decide_True|by rewrite decide_False by congruence]. }
    split_and!; try done. unfold Inv. eapply inv_ext; [exact Ha|]. by apply inv_unarm.
  - split_and!; try done. intros k. unfold upd_armed. case_decide; [by subst|done].
Qed.

Lemma setTimer_direct_spec dt timeout p s :
  Inv s -> at_heap s !! p = None -> let s' := setTimer_direct dt timeout p s in
  let t := mk_timer p (u32 (timeout / TIMER_RESOLUTION + wall_clock (at_wheel s))) in
  Inv s' /\ same_rest s s' /\ (forall k, armed s' k = upd_armed (armed s) (DirectT dt) (Some t) k).
Proof.
  intros Hs Hp. cbv zeta. unfold setTimer_direct. set (t := mk_timer p _). set (s' := on_wheel (insert_timer t) _).
  assert (Ha : forall k, armed s' k = upd_armed (armed s) (DirectT dt) (Some t) k).
  { intros k. unfold upd_armed. destruct k as [q id|dt']; cbn; [by rewrite decide_False|]. rewrite lookup_insert.
    destruct (decide (dt = dt')) as [->|]; [by rewrite decide_True|by rewrite decide_False by congruence]. }
  assert (Hrest : same_rest s s') by (split_and!; try done; cbn; by destruct (direct_timers s !! dt)). split_and!; try done.
  pose proof (removeTimer_direct_spec dt s Hs) as (H1 & _ & H3). unfold removeTimer_direct in *.
  assert (Hx : Inv (at_set_direct (base.delete dt (direct_timers s)) (on_wheel (remove_timer (direct_timers s !! dt)) s)) /\
    forall k, armed (at_set_direct (base.delete dt (direct_timers s)) (on_wheel (remove_timer (direct_timers s !! dt)) s)) k = upd_armed (armed s) (DirectT dt) None k).
  { destruct (direct_timers s !! dt) eqn:Hd; [done|]. rewrite delete_id by done. by destruct s. }
  destruct Hx as [Hi Hx]. set (s1 := at_set_direct (base.delete dt (direct_timers s)) (on_wheel (remove_timer (direct_timers s !! dt)) s)) in *.
  apply (inv_new s1 s' (DirectT dt) p (tm_expires t) Hi); try done; [by rewrite Hx; unfold upd_armed; rewrite decide_True|apply is_u32_mod|].
  intros k. rewrite Ha. unfold upd_armed at 1 2. case_decide; [done|]. by rewrite Hx; unfold upd_armed; rewrite decide_False.
Qed.

(** Removing the timers of a list of keys. *)
Lemma inv_unarm_list (q : list Z) (l : list (Z * timer)) w h a f :
  NoDup l.*1 -> (forall id t, (id, t) ∈ l -> a (AppT q id) = Some t) -> at_inv w h a f ->
  at_inv (fold_left (fun w x => remove_timer (Some (snd x)) w) l w) h
    (fun k => match k with AppT q' id => if decide (q' = q /\ id ∈ l.*1) then None else a k | _ => a k end) f.
Proof.
  revert w a. induction l as [|[id t] l IH]; intros w a Hnd Ha Hs; cbn [fold_left].
  - eapply inv_ext; [|exact Hs]. intros [q' id|dt]; [|done]. rewrite decide_False; [done|]. intros [_ []%not_elem_of_nil].
  - cbn in Hnd. apply NoDup_cons in Hnd as [Hni Hnd].
    pose proof (inv_unarm _ _ _ _ (AppT q id) t Hs (Ha id t ltac:(by left))) as Hs'. eapply IH in Hs'; [|done|].
    + eapply inv_ext; [|exact Hs']. intros [q' id'|dt]; [|unfold upd_armed; by rewrite decide_False]. cbn. unfold upd_armed.
      destruct (decide (q' = q /\ id' ∈ id :: l.*1)) as [[-> Hin]|Hno].
      * destruct (decide (q = q /\ id' ∈ l.*1)); [done|]. apply elem_of_cons in Hin as [->|Hin]; [by rewrite decide_True|naive_solver].
      * rewrite decide_False by (intros [-> ?]; apply Hno; split; [done|by right]).
        rewrite decide_False; [done|]. intros [= -> ->]. apply Hno. split; [done|by left].
    + intros id' t' Hin. unfold upd_armed. rewrite decide_False; [apply Ha; by right|]. intros [= ->]. apply Hni.
      apply list_elem_of_fmap. by exists (id, t').
Qed.

Lemma removeTimers_spec q s :
  Inv s -> let s' := removeTimers q s in
  Inv s' /\ same_rest s s' /\ (forall k, armed s' k = match k with AppT q' _ => if decide (q' = q) then None else armed s k | _ => armed s k end).
Proof.
  intros Hs. cbv zeta. unfold removeTimers. destruct (user_timers s !! q) as [m|] eqn:Hm.
  2: { split_and!; try done. intros [q' id|dt]; [|done]. case_decide; [|done]. subst. cbn. by rewrite Hm. }
  assert (Hfold : forall l s, let s' := fold_left (fun s x => on_wheel (remove_timer (Some (snd x))) s) l s in
    at_wheel s' = fold_left (fun w (x : Z * timer) => remove_timer (Some (snd x)) w) l (at_wheel s) /\ at_heap s' = at_heap s /\ user_timers s' = user_timers s /\
    direct_timers s' = direct_timers s /\ same_rest s s').
  { clear. induction l as [|x l IH]; intros s; cbn [fold_left]; [done|]. cbv zeta in IH.
    destruct (IH (on_wheel (remove_timer (Some (snd x))) s)) as (-> & -> & -> & -> & (E1 & E2 & E3)). by split_and!. }
  destruct (Hfold (map_to_list m) s) as (F1 & F2 & F3 & F4 & F5). set (s1 := fold_left _ (map_to_list m) s) in *. clearbody s1. clear Hfold.
  assert (Ha : forall k, armed (at_set_user (base.delete q (user_timers s)) s1) k = match k with AppT q' _ => if decide (q' = q) then None else armed s k | _ => armed s k end).
  { intros [q' id|dt]; cbn; [|by rewrite F4]. rewrite lookup_delete. destruct (decide (q = q')) as [->|]; [by rewrite decide_True|by rewrite decide_False by congruence]. }
  split_and!; try done. unfold Inv. cbn. rewrite F1, F2. destruct F5 as (-> & _ & _).
  eapply inv_ext; [|apply (inv_unarm_list q _ _ _ (armed s)); [apply NoDup_fst_map_to_list| |exact Hs]].
  - intros k. rewrite Ha. destruct k as [q' id|dt]; [|done]. destruct (decide (q' = q)) as [->|Hne].
    + case_decide as Hd; [done|]. cbn. rewrite Hm. cbn. destruct (m !! id) as [t|] eqn:Hid; [|done]. destruct Hd. split; [done|].
      apply list_elem_of_fmap. exists (id, t). split; [done|]. by apply elem_of_map_to_list.
    + by rewrite decide_False by (by intros [? _]).
  - intros id t Hin%elem_of_map_to_list. cbn. by rewrite Hm.
Qed.

(** A timer that is fired: its event is posted if it is the registered one, and it is then
    gone; otherwise nothing happens. *)
Lemma fire_spec s t l :
  Inv s -> at_firing s = t :: l ->
  exists s', fire_next s = Some s' /\ Inv s' /\ at_firing s' = l /\ at_wheel s' = at_wheel s /\
    ((exists k, armed s k = Some t /\ (forall k', armed s' k' = upd_armed (armed s) k None k') /\ at_events s' = at_events s ++ [k]) \/
     ((forall k, armed s k <> Some t) /\ (forall k, armed s' k = armed s k) /\ at_events s' = at_events s)).
Proof.
  intros Hs Hf. pose proof Hs as Hs0. unfold Inv in Hs0. rewrite Hf in Hs0. destruct (ai_firing _ _ _ _ Hs0 t ltac:(by left)) as [k Hk].
  unfold fire_next. rewrite Hf. cbn [at_set_firing at_heap]. rewrite Hk. set (s0 := at_set_firing l s).
  assert (Hother : forall k', armed s k' = Some t -> k' = k) by (intros k' Hk'; destruct (ai_armed _ _ _ _ Hs0 k' t Hk') as [? _]; congruence).
  assert (Hmiss : armed s k <> Some t -> Inv s0 /\ forall k', armed s k' <> Some t).
  { intros Hne. assert (Hno : forall k', armed s k' <> Some t) by (intros k' Hk'; by rewrite (Hother k' Hk') in Hk').
    split; [|done]. by eapply inv_fire_other. }
  assert (Hown : armed s k = Some t -> at_inv (at_wheel s) (base.delete (tm_ptr t) (at_heap s)) (upd_armed (armed s) k None) l) by (intros; by eapply inv_fire_own).
  destruct k as [q id|dt].
  - unfold app_timer_cb. pose proof (erase_spec q id s0) as (H1 & H2 & H3 & H4 & H5 & H6). change (armed s0) with (armed s) in H1, H2.
    destruct (erase_timer q id s0) as [s1 [t'|]]; cbn [fst snd] in *.
    + destruct (Nat.eqb_spec (tm_ptr t') (tm_ptr t)) as [He|He].
      * assert (t' = t) as -> by (exact (firing_same _ _ _ _ _ _ _ Hs0 (eq_sym H1) He)).
        unfold at_delete. cbn [at_post at_heap]. rewrite H4. cbn [s0 at_set_firing at_heap]. rewrite Hk. eexists. split; [reflexivity|]. cbn. rewrite H3, H5, H6.
        split_and!; try done; [|left; exists (AppT q id); split_and!; try done].
        unfold Inv. cbn. rewrite H3, H5. eapply inv_ext; [exact H2|]. by apply Hown.
      * destruct Hmiss as [Hi Hno]; [congruence|].
        assert (Ha : forall k, armed (put_timer q id t' s1) k = armed s k).
        { intros k. rewrite armed_put. unfold upd_armed. case_decide as Hd; [by subst|]. rewrite H2. unfold upd_armed. by rewrite decide_False. }
        exists (put_timer q id t' s1). split_and!; try done; [|by right].
        unfold Inv. eapply inv_ext; [exact Ha|]. cbn. by rewrite H3, H4, H5.
    + destruct Hmiss as [Hi Hno]; [congruence|].
      assert (Ha : forall k, armed s1 k = armed s k).
      { intros k. rewrite H2. unfold upd_armed. case_decide as Hd; [by subst|done]. }
      exists s1. split_and!; try done; [|by right]. unfold Inv. eapply inv_ext; [exact Ha|]. by rewrite H3, H4, H5.
  - unfold direct_app_timer_cb. change (direct_timers s0 !! dt) with (armed s (DirectT dt)). destruct (armed s (DirectT dt)) as [t'|] eqn:Ht.
    + destruct (Nat.eqb_spec (tm_ptr t') (tm_ptr t)) as [He|He].
      * assert (t' = t) as -> by (exact (firing_same _ _ _ _ _ _ _ Hs0 Ht He)).
        unfold at_delete. cbn [at_set_direct at_heap s0 at_set_firing]. rewrite Hk. eexists. split; [reflexivity|].
        set (s' := at_post _ _).
        assert (Ha : forall k, armed s' k = upd_armed (armed s) (DirectT dt) None k).
        { intros k. unfold upd_armed. destruct k as [q id|dt']; cbn; [by rewrite decide_False|]. rewrite lookup_delete.
          destruct (decide (dt = dt')) as [->|]; [by rewrite decide_True|by rewrite decide_False by congruence]. }
        split_and!; try done; [|by left; exists (DirectT dt)]. unfold Inv. eapply inv_ext; [exact Ha|]. by apply Hown.
      * destruct Hmiss as [Hi Hno]; [congruence|]. exists s0. split_and!; try done. by right.
    + destruct Hmiss as [Hi Hno]; [congruence|]. exists s0. split_and!; try done. by right.
Qed.

(** A tick. *)
Lemma tick_spec s :
  Inv s -> enabled LTick s = true ->
  exists s', tick s = Some s' /\ Inv s' /\ wall_clock (at_wheel s') = wall_clock (at_wheel s) + 1 /\ at_events s' = at_events s /\
    (forall k, armed s' k = armed s k) /\
    (forall t, t ∈ at_firing s' <-> t ∈ pending (at_wheel s) /\ due (wall_clock (at_wheel s) + 1) t = true) /\
    (forall t, t ∈ pending (at_wheel s') <-> t ∈ pending (at_wheel s) /\ due (wall_clock (at_wheel s) + 1) t = false).
Proof.
  intros Hs [Hf%bool_decide_eq_true Hc%Z.ltb_lt]%andb_true_iff. unfold Inv in Hs. rewrite Hf in Hs.
  destruct (inv_tick _ _ _ Hs Hc) as (h' & w' & fired & H1 & H2 & H3 & H4 & H5 & H6).
  unfold tick. rewrite (proj2 (forallb_forall _ _)), H1, H2.
  - eexists. split; [reflexivity|]. by split_and!.
  - intros t Ht. apply bool_decide_eq_true. apply (ai_linked _ _ _ _ Hs), list_elem_of_In, Ht.
Qed.

Lemma app_step l s : Inv s -> enabled l s = true -> exists s', app_do l s = Some s' /\ Inv s'.
Proof.
  intros Hs He. destruct l as [q id to p|q id|q|dt to p|dt| |]; cbn [app_do].
  - eexists. split; [done|]. apply setTimer_spec; [done|]. by apply bool_decide_eq_true in He.
  - eexists. split; [done|]. by apply removeTimer_spec.
  - eexists. split; [done|]. by apply removeTimers_spec.
  - eexists. split; [done|]. apply setTimer_direct_spec; [done|]. by apply bool_decide_eq_true in He.
  - eexists. split; [done|]. by apply removeTimer_direct_spec.
  - destruct (tick_spec s Hs He) as (s' & ? & ? & _). eauto.
  - cbn in He. destruct (at_firing s) as [|t l] eqn:Hf; [done|]. destruct (fire_spec s t l Hs Hf) as (s' & ? & ? & _). eauto.
Qed.

Lemma app_init_inv : Inv app_init.
Proof.
  constructor; cbn.
  - split; [done|]. split; [done|]. intros w p t Ht. unfold slot in Ht. cbn in Ht. rewrite lookup_empty in Ht. by apply elem_of_nil in Ht.
  - constructor.
  - intros [q id|dt] t; cbn; by rewrite lookup_empty.
  - intros t Ht. by apply elem_of_nil in Ht.
  - intros t Ht. by apply elem_of_nil in Ht.
  - constructor.
  - intros t Ht. by apply elem_of_nil in Ht.
  - exists ∅. split; [done|]. intros p. by case_decide.
  - intros p k. by rewrite lookup_empty.
Qed.

Lemma run_inv ls s s' : app_run ls s s' -> Inv s -> Inv s'.
Proof.
  induction 1 as [|l ls s s1 s2 He Hd _ IH]; [done|]. intros Hs. apply IH.
  destruct (app_step l s Hs He) as (s3 & Hd' & Hs'). congruence.
Qed.

(** C15: the timers of applications are safe.  However sessions set and remove timers between
    ticks and callbacks, no step uses, links or deletes a timer object that does not exist,
    and no object is lost: each is registered, or the wheel has been told to delete it. *)
Theorem app_timers_safe s l :
  app_reach s -> enabled l s = true ->
  app_do l s <> None /\
  forall p k, at_heap s !! p = Some k -> p ∈ removed (at_wheel s) \/ exists t, armed s k = Some t /\ tm_ptr t = p.
Proof.
  intros [ls Hr] He. pose proof (run_inv _ _ _ Hr app_init_inv) as Hs. split; [|apply Hs].
  destruct (app_step l s Hs He) as (s' & -> & _). done.
Qed.

(** ** When a timer goes off *)

(** Whether a call sets or removes the timer of a key. *)
Definition touches (l : app_label) (k : app_key) : bool :=
  match l, k with
  | LSet q id _ _, AppT q' id' | LRemove q id, AppT q' id' => bool_decide (q = q') && (id =? id')
  | LRemoveAll q, AppT q' _ => bool_decide (q = q')
  | LSetDirect dt _ _, DirectT dt' | LRemoveDirect dt, DirectT dt' => (dt =? dt')%nat
  | _, _ => false
  end.

(** How often the event of a key was posted. *)
Definition posts (k : app_key) (s : app_timers) : nat := length (List.filter (fun k' => bool_decide (k' = k)) (at_events s)).

Definition clock (s : app_timers) : Z := wall_clock (at_wheel s).

Lemma posts_same k s s' : at_events s' = at_events s -> posts k s' = posts k s.
Proof. unfold posts. by intros ->. Qed.

Lemma posts_app k k' s s' : at_events s' = at_events s ++ [k'] -> posts k s' = (posts k s + if decide (k' = k) then 1 else 0)%nat.
Proof. unfold posts. intros ->. rewrite List.filter_app, length_app. cbn. by repeat case_decide; case_bool_decide. Qed.

(** What a step does to a key that it does not touch. *)
Lemma untouched l s s' k :
  Inv s -> enabled l s = true -> app_do l s = Some s' -> touches l k = false ->
  (l = LTick /\ clock s' = clock s + 1 /\ armed s' k = armed s k /\ posts k s' = posts k s) \/
  (l = LFire /\ clock s' = clock s /\ exists t f, at_firing s = t :: f /\ at_firing s' = f /\
     ((armed s k = Some t /\ armed s' k = None /\ posts k s' = S (posts k s)) \/
      (armed s k <> Some t /\ armed s' k = armed s k /\ posts k s' = posts k s))) \/
  (clock s' = clock s /\ armed s' k = armed s k /\ posts k s' = posts k s /\ at_firing s' = at_firing s).
Proof.
  intros Hs He Hd Ht. assert (Hn : forall k' v, k <> k' -> upd_armed (armed s) k' v k = armed s k) by (intros; unfold upd_armed; by rewrite decide_False).
  destruct l as [q id to p|q id|q|dt to p|dt| |]; cbn [app_do] in Hd.
  - injection Hd as <-. destruct (setTimer_spec q id to p s Hs) as (_ & (R1 & R2 & R3) & Ha); [by apply bool_decide_eq_true in He|].
    right; right. rewrite Ha, (posts_same k s) by done. rewrite Hn; [done|]. intros ->. cbn in Ht. by rewrite bool_decide_true, Z.eqb_refl in Ht.
  - injection Hd as <-. destruct (removeTimer_spec q id s Hs) as (_ & (R1 & R2 & R3) & _ & Ha).
    right; right. rewrite Ha, (posts_same k s) by done. rewrite Hn; [done|]. intros ->. cbn in Ht. by rewrite bool_decide_true, Z.eqb_refl in Ht.
  - injection Hd as <-. destruct (removeTimers_spec q s Hs) as (_ & (R1 & R2 & R3) & Ha).
    right; right. rewrite Ha, (posts_same k s) by done. destruct k as [q' id|dt]; [|done]. rewrite decide_False; [done|]. intros ->. cbn in Ht. by rewrite bool_decide_true in Ht.
  - injection Hd as <-. destruct (setTimer_direct_spec dt to p s Hs) as (_ & (R1 & R2 & R3) & Ha); [by apply bool_decide_eq_true in He|].
    right; right. rewrite Ha, (posts_same k s) by done. rewrite Hn; [done|]. intros ->. cbn in Ht. by rewrite Nat.eqb_refl in Ht.
  - injection Hd as <-. destruct (removeTimer_direct_spec dt s Hs) as (_ & (R1 & R2 & R3) & Ha).
    right; right. rewrite Ha, (posts_same k s) by done. rewrite Hn; [done|]. intros ->. cbn in Ht. by rewrite Nat.eqb_refl in Ht.
  - destruct (tick_spec s Hs He) as (s1 & Hd' & _ & Hc & Hev & Ha & _). rewrite Hd in Hd'. injection Hd' as <-. left. by rewrite Ha, (posts_same k s).
  - right; left. cbn in He. destruct (at_firing s) as [|t f] eqn:Hf; [done|]. destruct (fire_spec s t f Hs Hf) as (s1 & Hd' & _ & Hl & Hw & Hcase).
    rewrite Hd in Hd'. injection Hd' as <-. unfold clock. rewrite Hw. split_and!; try done. exists t, f. split_and!; try done.
    destruct Hcase as [(k' & Hk' & Ha & Hev)|(Hno & Ha & Hev)].
    + rewrite (posts_app k k' s) by done. destruct (decide (k' = k)) as [->|Hne]; [left; rewrite Ha, Nat.add_1_r; unfold upd_armed; by rewrite decide_True|right].
      rewrite Nat.add_0_r, Ha, Hn by (by apply not_eq_sym). split_and!; try done.
      intros Hk. destruct (ai_armed _ _ _ _ Hs _ _ Hk) as [? _], (ai_armed _ _ _ _ Hs _ _ Hk') as [? _]. congruence.
    + right. by rewrite Ha, (posts_same k s).
Qed.

(** Until the tick [e] the timer waits; it is fired in that tick, and then it is gone. *)
Definition on_time (k : app_key) (t : timer) (e : Z) (n : nat) (s : app_timers) : Prop :=
  (armed s k = Some t /\ posts k s = n /\ (t ∈ at_firing s -> clock s = e) /\ (t ∉ at_firing s -> clock s < e)) \/
  (armed s k = None /\ posts k s = S n /\ e <= clock s).

Lemma due_when t c d x :
  tm_expires t = c + d -> 0 <= c -> 0 <= d <= 2147483648 -> c < x <= c + Z.max 1 d -> c + Z.max 1 d < u32_mod ->
  due x t = true <-> x = c + Z.max 1 d.
Proof.
  intros He Hc Hd Hx Hm. destruct t as [p e]. cbn in He. subst e.
  destruct (due x _) eqn:Hdue; [split; [intros _|done]|split; [done|]].
  - destruct (Z.eq_dec x (c + Z.max 1 d)); [done|]. rewrite (proj2 (due_false (c + d) x p ltac:(unfold is_u32, u32_mod in *; lia) ltac:(unfold is_u32, u32_mod in *; lia))) in Hdue; [done|lia].
  - intros ->. apply due_false in Hdue; unfold is_u32, u32_mod in *; lia.
Qed.

Lemma on_time_step l s s' k t c d n :
  Inv s -> enabled l s = true -> app_do l s = Some s' -> touches l k = false ->
  tm_expires t = c + d -> 0 <= c <= clock s -> 0 <= d <= 2147483648 -> c + Z.max 1 d < u32_mod ->
  on_time k t (c + Z.max 1 d) n s -> on_time k t (c + Z.max 1 d) n s'.
Proof.
  intros Hs He Hd Ht Hex Hc Hdd Hmax Hon.
  destruct (untouched l s s' k Hs He Hd Ht) as [(-> & Hcl & Ha & Hp)|[(-> & Hcl & t0 & f & Hf & Hf' & Hcase)|(Hcl & Ha & Hp & Hf)]].
  - cbn [enabled] in He. pose proof He as [Hf%bool_decide_eq_true Hm%Z.ltb_lt]%andb_true_iff.
    destruct (tick_spec s Hs He) as (s1 & Hd' & _ & _ & _ & _ & Hfir & _). cbn [app_do] in Hd. rewrite Hd in Hd'. injection Hd' as <-.
    destruct Hon as [(Hk & Hn & _ & Hw)|(Hk & Hn & Hle)]; [left|right; rewrite Ha, Hp; split_and!; try done; lia].
    rewrite Ha, Hp. split; [done|]. split; [done|]. rewrite Hf in Hw. specialize (Hw (not_elem_of_nil _)).
    destruct (ai_armed _ _ _ _ Hs k t Hk) as (_ & Hpend & _). rewrite Hf, app_nil_r in Hpend.
    rewrite (Hfir t). fold (clock s) in *. rewrite (due_when t c d (clock s + 1)) by lia. rewrite Hcl. split; [by intros [_ ?]|].
    intros Hno. destruct (Z.eq_dec (clock s + 1) (c + Z.max 1 d)); [tauto|lia].
  - destruct Hon as [(Hk & Hn & Hw1 & Hw2)|(Hk & Hn & Hle)].
    + rewrite Hf in Hw1, Hw2. destruct Hcase as [(Hk0 & Hk' & Hp)|(Hk0 & Hk' & Hp)].
      * right. assert (t0 = t) as -> by congruence. rewrite Hk', Hp, Hcl, Hn, Hw1 by (by left). by split_and!.
      * left. rewrite Hk', Hp, Hcl, Hf'. assert (t0 <> t) by congruence. split_and!; try done.
        -- intros Hin. apply Hw1. by right.
        -- intros Hno. apply Hw2. intros [->|?]%elem_of_cons; done.
    + right. destruct Hcase as [(Hk0 & _)|(_ & -> & ->)]; [congruence|]. by rewrite Hcl.
  - unfold on_time. by rewrite Hcl, Ha, Hp, Hf.
Qed.

Lemma timeout_ticks_bound timeout : 0 <= timeout_ticks timeout <= 2147483648.
Proof.
  unfold timeout_ticks, MAX_TIMER_SECONDS, TIMER_RESOLUTION. destruct (Z.ltb_spec timeout 0); [lia|].
  destruct (Z.ltb_spec (365 * 24 * 3600 * 1000000) timeout); [vm_compute; split; congruence|].
  pose proof (Z.div_le_mono timeout (365 * 24 * 3600 * 1000000) 20000 eq_refl ltac:(lia)) as Hd.
  change (365 * 24 * 3600 * 1000000 / 20000) with 1576800000 in Hd. pose proof (Z.div_pos timeout 20000 ltac:(lia) eq_refl). lia.
Qed.

(** A timer that is left alone is on time. *)
Lemma on_time_run k t c d n ls s s' :
  app_run ls s s' -> Inv s -> Forall (fun l => touches l k = false) ls ->
  tm_expires t = c + d -> 0 <= c <= clock s -> 0 <= d <= 2147483648 -> c + Z.max 1 d < u32_mod ->
  on_time k t (c + Z.max 1 d) n s -> on_time k t (c + Z.max 1 d) n s'.
Proof.
  induction 1 as [|l ls s1 s2 s3 Hen Hdo Hrun IH]; intros Hs Hl Hex Hc Hd He Hon; [done|].
  apply Forall_cons in Hl as [Ht Hl]. apply IH; try done.
  - destruct (app_step l s1 Hs Hen) as (s4 & Hd4 & ?). congruence.
  - destruct (untouched l s1 s2 k Hs Hen Hdo Ht) as [(_ & -> & _)|[(_ & -> & _)|(-> & _)]]; lia.
  - eapply on_time_step; [exact Hs|done..].
Qed.

Lemma on_time_end k t e n s : on_time k t e n s -> (clock s < e -> posts k s = n) /\ (e <= clock s -> at_firing s = [] -> posts k s = S n).
Proof.
  intros [(_ & Hn & H1 & H2)|(_ & Hn & H1)]; split; intros; try done; try lia.
  destruct (decide (t ∈ at_firing s)) as [Hin|Hni]; [|by specialize (H2 Hni); lia].
  match goal with H : at_firing s = [] |- _ => rewrite H in Hin end. by apply elem_of_nil in Hin.
Qed.

(** A timer that is set and left alone. *)
Lemma timer_goes_off s q id timeout p ls s' :
  let k := AppT q id in
  let e := clock s + Z.max 1 (timeout_ticks timeout) in
  app_reach s -> at_heap s !! p = None -> e < u32_mod ->
  app_run ls (setTimer q id timeout p s) s' -> Forall (fun l => touches l k = false) ls ->
  (clock s' < e -> posts k s' = posts k s) /\
  (e <= clock s' -> at_firing s' = [] -> posts k s' = S (posts k s)).
Proof.
  intros k e [ls0 Hr] Hp He Hrun Hl. pose proof (run_inv _ _ _ Hr app_init_inv) as Hs. clear ls0 Hr.
  pose proof (timeout_ticks_bound timeout) as Hd. pose proof (ai_wheel _ _ _ _ Hs) as [Hc _]. fold (clock s) in Hc. unfold is_u32 in Hc.
  destruct (setTimer_spec q id timeout p s Hs Hp) as (Hs1 & (R1 & R2 & R3) & Ha).
  fold (clock s) in Ha. rewrite u32_small in Ha by (unfold is_u32, u32_mod in *; lia).
  set (t := mk_timer p (timeout_ticks timeout + clock s)) in Ha.
  assert (Hon : on_time k t e (posts k s) (setTimer q id timeout p s)).
  { left. rewrite Ha, (posts_same k s) by done. unfold clock. rewrite R1, R3. unfold upd_armed. rewrite decide_True by done.
    fold (clock s). split_and!; try done; [|lia].
    intros Hin. destruct (ai_firing _ _ _ _ Hs t Hin) as [x Hx]. cbn in Hx. congruence. }
  assert (Hc1 : clock s <= clock (setTimer q id timeout p s)) by (unfold clock; rewrite R3; lia).
  apply (on_time_end k t e). eapply on_time_run; [exact Hrun|exact Hs1|exact Hl|cbn; lia|lia|done|done|exact Hon].
Qed.

(** C16: an application timer goes off once, and in its tick.  A timer that is set, and neither
    set again nor removed while other timers are set, removed and fired: with a time-out of [d]
    ticks its event is not posted before the tick [max 1 d] from now, and when the timers of
    that tick have been fired it has been posted exactly once. *)
Theorem app_timer_exact s q id timeout p ls s' :
  let k := AppT q id in
  let e := clock s + Z.max 1 (timeout_ticks timeout) in
  app_reach s -> at_heap s !! p = None -> e < u32_mod ->
  app_run ls (setTimer q id timeout p s) s' -> Forall (fun l => touches l k = false) ls ->
  (clock s' < e -> posts k s' = posts k s) /\
  (e <= clock s' -> at_firing s' = [] -> posts k s' = S (posts k s)).
Proof. apply timer_goes_off. Qed.

(** Whether a call sets the timer of a key. *)
Definition sets (l : app_label) (k : app_key) : bool :=
  match l with LSet _ _ _ _ | LSetDirect _ _ _ => touches l k | _ => false end.

(** A timer that was removed is silent.  After [removeTimer] has returned the event of the
    timer is not posted any more, even if the timer was already being fired, until it is set
    again. *)
Theorem removed_timer_silent s q id ls s' :
  let k := AppT q id in
  app_reach s -> app_run ls (removeTimer q id s) s' -> Forall (fun l => sets l k = false) ls -> posts k s' = posts k s.
Proof.
  intros k [ls0 Hr] Hrun Hl. pose proof (run_inv _ _ _ Hr app_init_inv) as Hs. clear ls0 Hr.
  destruct (removeTimer_spec q id s Hs) as (Hs1 & (_ & R2 & _) & _ & Ha). specialize (Ha k). unfold upd_armed in Ha. rewrite decide_True in Ha by done.
  rewrite <- (posts_same k s (removeTimer q id s)) by done. clear R2. revert Hl Ha Hs1. clear Hs.
  induction Hrun as [|l ls s1 s2 s3 Hen Hdo Hrun IH]; intros Hl Ha Hs1; [done|]. apply Forall_cons in Hl as [Hl Hls].
  assert (Hs2 : Inv s2) by (destruct (app_step l s1 Hs1 Hen) as (s4 & Hd4 & ?); congruence).
  assert (Hgoal : armed s2 k = None /\ posts k s2 = posts k s1); [|destruct Hgoal as [H1 <-]; by apply IH].
  destruct (touches l k) eqn:Ht.
  - destruct l as [q' id' to p|q' id'|q'|dt to p|dt| |]; unfold k in Hl, Ht; cbn [sets touches] in Hl, Ht; try congruence; cbn [app_do] in Hdo; injection Hdo as <-.
    + destruct (removeTimer_spec q' id' s1 Hs1) as (_ & (_ & R & _) & _ & Ha'). rewrite Ha', (posts_same k s1) by done. unfold upd_armed. by destruct (decide (k = AppT q' id')).
    
    + destruct (removeTimers_spec q' s1 Hs1) as (_ & (_ & R & _) & Ha'). rewrite Ha', (posts_same k s1) by done. unfold k at 1. by destruct (decide (q = q')).
  - destruct (untouched l s1 s2 k Hs1 Hen Hdo Ht) as [(_ & _ & -> & ->)|[(_ & _ & t & f & _ & _ & Hcase)|(_ & -> & -> & _)]]; try done.
    destruct Hcase as [(Hk & _)|(_ & -> & ->)]; [congruence|done].
Qed.

(** ** Witnesses *)

Definition demo_set : app_timers := setTimer [97] 1 40000 0 app_init.
Definition demo_fired : app_timers := default app_init (app_exec [LSet [98] 1 20000 1; LTick; LRemove [98] 1; LFire; LTick; LFire] demo_set).

Lemma demo_reach : app_reach demo_set.
Proof. exists [LSet [97] 1 40000 0]. apply app_exec_run. reflexivity. Qed.

Lemma app_timers_safe_witness : app_do LTick demo_set <> None.
Proof. apply (app_timers_safe demo_set LTick); [exact demo_reach|reflexivity]. Defined.

Lemma app_timer_exact_witness : clock demo_fired = 2 /\ posts (AppT [97] 1) demo_fired = 1%nat.
Proof.
  split; [vm_compute; reflexivity|].
  apply (app_timer_exact app_init [97] 1 40000 0 [LSet [98] 1 20000 1; LTick; LRemove [98] 1; LFire; LTick; LFire] demo_fired).
  - exists []. constructor.
  - reflexivity.
  - reflexivity.
  - apply app_exec_run. vm_compute. reflexivity.
  - repeat constructor.
  - vm_compute. discriminate.
  - vm_compute. reflexivity.
Defined.

Lemma removed_timer_silent_witness : posts (AppT [97] 1) (removeTimer [97] 1 demo_set) = 0%nat.
Proof.
  apply (removed_timer_silent demo_set [97] 1 []); [exact demo_reach|constructor|constructor].
Defined.
