(* ===== verification/HdrText.v ===== *)
(** * Headers as text

    Model of the functions of core/AmSipMsg.cpp on the text of the headers of a message
    ([findHeader], [getHeader], [removeHeader], [addOptionTag], [removeOptionTag]) and of
    those of core/AmUtils.cpp on header values ([strip_header_params], [get_header_param],
    [key_in_list], [explode], [trim]).  A [std::string] is a list of bytes, a position in it
    a natural number.

    The specification is a list of pairs of a name and a value: on the text of such a list the
    functions do what the list says. *)

From Stdlib Require Import ZArith Lia Ascii String.
From stdpp Require Import base list.
From S2P Require Import Prelude ParseCommon AmUtils SipHeader.

Local Open Scope Z_scope.
Local Open Scope bool_scope.

(** ** Positions and characters *)

Definition substr (l : list Z) (p n : nat) : list Z := take n (drop p l).

Definition hlower (c : Z) : Z := if (65 <=? c) && (c <=? 90) then c + 32 else c.

(** The comparison of a name with the text: what is left of both. *)
Fixpoint cmp_name (l name : list Z) : list Z * list Z :=
  match l, name with
  | c :: l', n :: name' => if hlower c =? n then cmp_name l' name' else (l, name)
  | _, _ => (l, name)
  end.

(** Whether a colon follows, behind blanks and tabs. *)
Fixpoint col_follows (l : list Z) : bool :=
  match l with
  | c :: l' => if (c =? 32) || (c =? HTAB) then col_follows l' else c =? HCOLON
  | [] => false
  end.

Fixpoint skip_line (l : list Z) : list Z :=
  match l with [] => [] | c :: l' => if c =? LF then l' else skip_line l' end.

(** The text up to the end of the line. *)
Fixpoint until_eol (l : list Z) : list Z :=
  match l with [] => [] | c :: l' => if (c =? CR) || (c =? LF) then [] else c :: until_eol l' end.

(** The loop over the lines: the text behind the name of the first header with that name.
    Each round leaves at least one character behind. *)
Fixpoint find_loop (fuel : nat) (l name : list Z) : option (list Z) :=
  match fuel, l with
  | S fuel, _ :: _ =>
      let '(r, n) := cmp_name l name in
      if bool_decide (n = []) && col_follows r then Some r else find_loop fuel (skip_line r) name
  | _, _ => None
  end.

(** [findHeader]: the begin and the end of the value, and the position behind the name. *)
Definition findHeader (hdrs hdr_name : list Z) (skip : nat) : option (nat * nat * nat) :=
  if (length hdrs <=? skip)%nat then None
  else
    match find_loop (length hdrs) (drop skip hdrs) (map hlower hdr_name) with
    | None => None
    | Some r =>
        match skip_sp r with
        | c :: v =>
            if c =? HCOLON then
              let pos1 := (length hdrs - length (skip_sp v))%nat in
              Some (pos1, (pos1 + length (until_eol (skip_sp v)))%nat, (length hdrs - length r)%nat)
            else None
        | [] => None
        end
    end.

(** [getHeader] *)
Fixpoint get_loop (fuel : nat) (hdrs hdr_name : list Z) (single : bool) (skip : nat) (ret : list Z) : list Z :=
  match fuel with
  | O => ret
  | S fuel =>
      match findHeader hdrs hdr_name skip with
      | None => ret
      | Some (pos1, pos2, _) =>
          let v := substr hdrs pos1 (pos2 - pos1) in
          if (skip =? 0)%nat then
            if single then v else get_loop fuel hdrs hdr_name single (pos2 + 1) (ret ++ v)
          else get_loop fuel hdrs hdr_name single (pos2 + 1) (ret ++ lit ", " ++ v)
      end
  end.

Definition getHeader (hdrs hdr_name : list Z) (single : bool) : list Z :=
  if bool_decide (hdr_name = []) then [] else get_loop (S (length hdrs)) hdrs hdr_name single 0 [].

(** [getHeader] with a compact name *)
Definition getHeader_compact (hdrs hdr_name compact : list Z) (single : bool) : list Z :=
  let res := getHeader hdrs hdr_name single in
  if bool_decide (res = []) then getHeader hdrs compact single else res.

Definition hasHeader (hdrs hdr_name : list Z) : bool :=
  match findHeader hdrs hdr_name 0 with Some _ => true | None => false end.

(** [removeHeader]: the text, and whether a header was found.  Each round takes away a name and
    a colon. *)
Fixpoint skip_eol (l : list Z) : list Z :=
  match l with c :: l' => if (c =? CR) || (c =? LF) then skip_eol l' else l | [] => [] end.

Fixpoint remove_loop (fuel : nat) (hdrs hdr_name : list Z) (found : bool) : list Z * bool :=
  match fuel with
  | O => (hdrs, found)
  | S fuel =>
      match findHeader hdrs hdr_name 0 with
      | None => (hdrs, found)
      | Some (_, pos2, hdr_start) =>
          remove_loop fuel (take (hdr_start - length hdr_name) hdrs ++ skip_eol (drop pos2 hdrs)) hdr_name true
      end
  end.

Definition removeHeader (hdrs hdr_name : list Z) : list Z * bool := remove_loop (S (length hdrs)) hdrs hdr_name false.

(** ** Lists of options *)

(** [explode] with a delimiter of one character, without empty parts *)
Fixpoint split_on (d : Z) (l : list Z) : list (list Z) :=
  match l with
  | [] => [[]]
  | c :: l' => if c =? d then [] :: split_on d l' else match split_on d l' with x :: r => (c :: x) :: r | [] => [[c]] end
  end.

Definition explode (l : list Z) (d : Z) : list (list Z) := List.filter (fun x => negb (bool_decide (x = []))) (split_on d l).

(** [trim(s, " ")] *)
Definition trim_sp (l : list Z) : list Z := rev (skip_sp (rev (skip_sp l))).

(** [addOptionTag] *)
Definition addOptionTag (hdrs hdr_name tag : list Z) : list Z :=
  let options := getHeader hdrs hdr_name false in
  if bool_decide (options = []) then hdrs ++ hdr_line (hdr_name, tag)
  else if existsb (fun x => bool_decide (trim_sp x = tag)) (explode options 44) then hdrs
  else match findHeader hdrs hdr_name 0 with
       | None => hdrs ++ hdr_line (hdr_name, tag)
       | Some (pos1, _, _) => take pos1 hdrs ++ tag ++ lit ", " ++ drop pos1 hdrs
       end.

(** The loop of [removeOptionTag]: [o_hdr] is assigned, not appended to, for every entry but
    the first. *)
Fixpoint keep_options (l : list (list Z)) (first : bool) (tag o_hdr : list Z) (found : bool) : list Z * bool :=
  match l with
  | [] => (o_hdr, found)
  | x :: l =>
      if bool_decide (trim_sp x = tag) then keep_options l false tag o_hdr true
      else keep_options l false tag ((if first then o_hdr else lit ", ") ++ x) found
  end.

(** [removeOptionTag] *)
Definition removeOptionTag (hdrs hdr_name tag : list Z) : list Z :=
  let options := getHeader hdrs hdr_name false in
  if bool_decide (options = []) then hdrs
  else
    let '(o_hdr, found) := keep_options (explode options 44) true tag [] false in
    if negb found then hdrs
    else
      let hdrs := fst (removeHeader hdrs hdr_name) in
      if bool_decide (o_hdr = []) then hdrs else hdrs ++ hdr_line (hdr_name, o_hdr).

(** ** Values *)

Fixpoint until_c (d : Z) (l : list Z) : list Z :=
  match l with [] => [] | c :: l' => if c =? d then [] else c :: until_c d l' end.

(** [strip_header_params] *)
Definition strip_header_params (l : list Z) : list Z := until_c 59 (skip_sp l).

(** [find(c, pos)] *)
Fixpoint find_from (d : Z) (l : list Z) : option nat :=
  match l with [] => None | c :: l' => if c =? d then Some 0%nat else option_map S (find_from d l') end.

Definition find_c (d : Z) (l : list Z) (pos : nat) : option nat := option_map (Nat.add pos) (find_from d (drop pos l)).

(** The value of a parameter: up to the next [;] or the end of the line. *)
Fixpoint until_param (l : list Z) : list Z :=
  match l with [] => [] | c :: l' => if (c =? 59) || (c =? LF) || (c =? CR) then [] else c :: until_param l' end.

(** [get_header_param]; the name is not empty, so that each round moves on. *)
Fixpoint param_loop (fuel : nat) (l name : list Z) (pos : nat) : list Z :=
  match fuel with
  | O => []
  | S fuel =>
      if (length l <=? pos)%nat then []
      else
        match find_c 59 l pos with
        | None => []
        | Some pos =>
            let n := length name in
            if (pos + n + 1 <? length l)%nat then
              if bool_decide (substr l (pos + 1) n = name) && bool_decide (l !! (pos + 1 + n)%nat = Some 61)
              then until_param (drop (pos + 1 + n + 1) l)
              else param_loop fuel l name (pos + 1 + n)
            else param_loop fuel l name (pos + n)
        end
  end.

Definition get_header_param (l name : list Z) : list Z := param_loop (S (length l)) l name 0.

(** [key_in_list] *)
Definition list_sep (d c : Z) : bool := (c =? 32) || (c =? d) || (c =? LF).

Fixpoint back_over (d : Z) (l : list Z) (pos : nat) : nat :=
  match pos with
  | O => O
  | S p => match l !! pos with Some c => if list_sep d c then back_over d l p else pos | None => pos end
  end.

Fixpoint skip_seps (d : Z) (l : list Z) : list Z :=
  match l with c :: l' => if list_sep d c then skip_seps d l' else l | [] => [] end.

Fixpoint key_loop (fuel : nat) (l key : list Z) (d : Z) (pos : nat) : bool :=
  match fuel with
  | O => false
  | S fuel =>
      if (length l <=? pos)%nat then false
      else
        let pos_n := find_c d l pos in
        let pos2 := back_over d l (match pos_n with Some i => i | None => length l - 1 end) in
        if bool_decide (substr l pos (pos2 + 1 - pos) = key) then true
        else match pos_n with
             | None => false
             | Some i =>
                 let r := skip_seps d (drop i l) in
                 if bool_decide (r = []) then false else key_loop fuel l key d (length l - length r)
             end
  end.

Definition key_in_list (l key : list Z) (d : Z) : bool := key_loop (S (length l)) l key d 0.

(** ** The text of a list of headers *)

(** Names are compared without regard to case. *)
Definition same_name (a b : list Z) : bool := bool_decide (map hlower a = map hlower b).

(** The values of the headers with a name; the first of them with what follows it. *)
Definition h_values (nm : list Z) (l : list (list Z * list Z)) : list (list Z) :=
  map snd (List.filter (fun h => same_name (fst h) nm) l).

Fixpoint first_hdr (nm : list Z) (l : list (list Z * list Z)) : option (list Z * list (list Z * list Z)) :=
  match l with
  | [] => None
  | (n, v) :: l => if same_name n nm then Some (v, l) else first_hdr nm l
  end.

Lemma hlower_name c : name_char (hlower c) = name_char c.
Proof.
  unfold hlower. destruct ((65 <=? c) && (c <=? 90)) eqn:H; [|done]. apply andb_true_iff in H as [H1%Z.leb_le H2%Z.leb_le].
  unfold name_char, text_char, HCOLON, SP, HTAB, CR, LF.
  repeat match goal with |- context [?a =? ?b] => rewrite (proj2 (Z.eqb_neq a b)) by lia end. done.
Qed.

Lemma name_char_text c : name_char c = true -> text_char c = true.
Proof. unfold name_char. by intros [? _]%andb_true_iff. Qed.

Lemma good_name_chars n : good_name n = true -> n <> [] /\ forallb name_char n = true.
Proof. unfold good_name. intros [H1%negb_true_iff%Nat.eqb_neq H2]%andb_true_iff. split; [|done]. by intros ->. Qed.

(** The comparison at the beginning of a line. *)
Lemma cmp_line n nm rest :
  forallb name_char n = true -> forallb name_char nm = true ->
  let '(r, m) := cmp_name (n ++ HCOLON :: rest) nm in
  if decide (map hlower n = nm) then r = HCOLON :: rest /\ m = []
  else (exists a, forallb name_char a = true /\ r = a ++ HCOLON :: rest) /\ (m = [] -> col_follows r = false).
Proof.
  revert nm. induction n as [|c n IH]; intros nm Hn Hm; cbn [app map cmp_name].
  - destruct nm as [|x nm]; [by rewrite decide_True|]. cbn in Hm. apply andb_true_iff in Hm as [Hx _]. apply name_char_spec in Hx.
    change (hlower HCOLON) with HCOLON. destruct (Z.eqb_spec HCOLON x) as [<-|_]; [tauto|]. rewrite decide_False by done.
    split; [by exists []|done].
  - cbn in Hn. apply andb_true_iff in Hn as [Hc Hn]. destruct nm as [|x nm].
    + rewrite decide_False by done. split; [exists (c :: n); cbn; by rewrite Hc, Hn|]. intros _. cbn. apply name_char_spec in Hc.
      change 32 with SP. rewrite !(proj2 (Z.eqb_neq c _)) by tauto. done.
    + cbn in Hm. apply andb_true_iff in Hm as [Hx Hm]. destruct (Z.eqb_spec (hlower c) x) as [->|Hne].
      * specialize (IH nm Hn Hm). destruct (cmp_name _ nm) as [r m]. destruct (decide (map hlower n = nm)) as [He|He].
        -- rewrite decide_True by congruence. done.
        -- rewrite decide_False by congruence. done.
      * rewrite decide_False by congruence. split; [exists (c :: n); cbn; by rewrite Hc, Hn|done].
Qed.

Lemma skip_line_text a r : LF ∉ a -> skip_line (a ++ LF :: r) = r.
Proof.
  induction a as [|c a IH]; cbn; [done|]. intros [Hc Ha]%not_elem_of_cons. rewrite (proj2 (Z.eqb_neq _ _)) by congruence. by apply IH.
Qed.

Lemma text_no_lf a : forallb text_char a = true -> LF ∉ a.
Proof. rewrite forallb_forall. intros H Hin%list_elem_of_In. by specialize (H _ Hin). Qed.

Lemma text_names a : forallb name_char a = true -> forallb text_char a = true.
Proof. rewrite !forallb_forall. intros H x Hx. by apply name_char_text, H. Qed.

Lemma good_value_spec v : good_value v = true -> forallb text_char v = true /\ skip_sp v = v /\ v <> [].
Proof.
  destruct v as [|c v]; [done|]. cbn [good_value]. intros [H1%negb_true_iff H2]%andb_true_iff. split; [done|]. split; [|done].
  unfold IS_WSP in H1. apply orb_false_iff in H1 as [H1 _]. unfold SP in H1. cbn. by rewrite Z.eqb_sym, H1.
Qed.

(** The text behind a header line. *)
Lemma skip_rest a v r : forallb name_char a = true -> forallb text_char v = true -> skip_line (a ++ HCOLON :: SP :: v ++ CRLF ++ r) = r.
Proof.
  intros Ha%text_names%text_no_lf Hv%text_no_lf. replace (a ++ HCOLON :: SP :: v ++ CRLF ++ r) with ((a ++ HCOLON :: SP :: v ++ [CR]) ++ LF :: r)
    by (rewrite <- !app_assoc; cbn; by rewrite <- !app_assoc).
  apply skip_line_text. rewrite elem_of_app, !elem_of_cons, elem_of_app, list_elem_of_singleton. intros [?|[?|[?|[?|?]]]]; done.
Qed.

Definition good_hdrs (l : list (list Z * list Z)) : Prop := forallb good_hdr l = true.

Lemma hdr_lines_pair n v l : hdr_lines ((n, v) :: l) = n ++ HCOLON :: SP :: v ++ CRLF ++ hdr_lines l.
Proof. unfold hdr_lines. cbn [map concat]. unfold hdr_line. cbn [fst snd]. by rewrite <- !app_assoc. Qed.

Lemma find_lines l nm fuel :
  good_hdrs l -> forallb name_char nm = true -> (length (hdr_lines l) <= fuel)%nat ->
  find_loop fuel (hdr_lines l) (map hlower nm) =
  option_map (fun x => HCOLON :: SP :: fst x ++ CRLF ++ hdr_lines (snd x)) (first_hdr nm l).
Proof.
  intros Hl Hn. revert fuel. induction l as [|[n v] l IH]; intros fuel Hf; [by destruct fuel|].
  unfold good_hdrs in Hl. cbn in Hl. apply andb_true_iff in Hl as [[[Hn0 Hn1]%good_name_chars (Hv & _ & _)%good_value_spec]%andb_true_iff Hl].
  rewrite hdr_lines_pair in *. destruct n as [|c n]; [done|]. cbn [app] in *. destruct fuel as [|fuel]; [cbn in Hf; lia|].
  cbn [find_loop first_hdr]. assert (Hm : forallb name_char (map hlower nm) = true).
  { rewrite forallb_forall in *. intros x (y & <- & Hy)%in_map_iff. rewrite hlower_name. by apply Hn. }
  pose proof (cmp_line (c :: n) (map hlower nm) (SP :: v ++ CRLF ++ hdr_lines l) Hn1 Hm) as Hc. cbn [app] in Hc.
  destruct (cmp_name _ _) as [r m]. unfold same_name. destruct (decide (map hlower (c :: n) = map hlower nm)) as [He|He].
  - destruct Hc as [-> ->]. rewrite bool_decide_true by done. by rewrite bool_decide_true by done.
  - destruct Hc as ((a & Ha & ->) & Hcol). rewrite (bool_decide_false (map hlower (c :: n) = _)) by done.
    assert (Hno : bool_decide (m = []) && col_follows (a ++ HCOLON :: SP :: v ++ CRLF ++ hdr_lines l) = false)
      by (case_bool_decide; [by rewrite Hcol|done]).
    rewrite Hno, skip_rest by done. apply IH; [done|]. repeat first [rewrite length_app in Hf | progress cbn in Hf]. lia.
Qed.

Lemma first_hdr_split nm l v l' :
  first_hdr nm l = Some (v, l') ->
  exists l1 n, l = l1 ++ (n, v) :: l' /\ same_name n nm = true /\ forallb (fun h => negb (same_name (fst h) nm)) l1 = true.
Proof.
  induction l as [|[n w] l IH]; cbn; [done|]. destruct (same_name n nm) eqn:Hs.
  - intros [= -> ->]. by exists [], n.
  - intros (l1 & n' & -> & Hn & H1)%IH. exists ((n, w) :: l1), n'. cbn. by rewrite Hs, H1.
Qed.

Lemma first_hdr_none nm l : first_hdr nm l = None -> h_values nm l = [].
Proof. unfold h_values. induction l as [|[n w] l IH]; cbn; [done|]. by destruct (same_name n nm). Qed.

Lemma h_values_first nm l v l' : first_hdr nm l = Some (v, l') -> h_values nm l = v :: h_values nm l'.
Proof.
  unfold h_values. induction l as [|[n w] l IH]; cbn; [done|]. destruct (same_name n nm); [by intros [= -> ->]|done].
Qed.

Lemma drop_suffix {A} (x y : list A) : drop (length (x ++ y) - length y) (x ++ y) = y.
Proof. rewrite length_app. replace (length x + length y - length y)%nat with (length x) by lia. apply drop_app_length. Qed.

Lemma until_eol_text v r : forallb text_char v = true -> until_eol (v ++ CRLF ++ r) = v.
Proof.
  induction v as [|c v IH]; [done|]. cbn [app until_eol forallb]. unfold text_char at 1. rewrite andb_true_iff, negb_true_iff, !orb_false_iff.
  intros [[[_ H1] H2] H3]. by rewrite H1, H2, IH.
Qed.

(** A text from which the header lines [l] start, or the line end before them. *)
Definition at_lines (hdrs : list Z) (skip : nat) (l : list (list Z * list Z)) : Prop :=
  drop skip hdrs = hdr_lines l \/ drop skip hdrs = LF :: hdr_lines l.

Lemma find_at hdrs skip l nm :
  at_lines hdrs skip l -> good_hdrs l -> good_name nm = true -> (skip < length hdrs)%nat ->
  find_loop (length hdrs) (drop skip hdrs) (map hlower nm) =
  option_map (fun x => HCOLON :: SP :: fst x ++ CRLF ++ hdr_lines (snd x)) (first_hdr nm l).
Proof.
  intros Hat Hl [Hne Hn]%good_name_chars Hs. pose proof (length_drop hdrs skip) as Hlen. destruct Hat as [E|E]; rewrite E in Hlen |- *.
  - apply find_lines; [done|done|]. lia.
  - destruct (length hdrs) as [|n]; [lia|]. cbn [find_loop cmp_name]. destruct nm as [|c nm]; [done|]. cbn [map] in *.
    pose proof Hn as [Hc _]%andb_true_iff. rewrite <- hlower_name in Hc. apply name_char_spec in Hc.
    change (hlower LF) with LF. destruct (Z.eqb_spec LF (hlower c)); [by destruct Hc as (_ & _ & _ & [] & _)|]. rewrite bool_decide_false by done. cbn [andb skip_line].
    change (LF =? LF) with true. cbn iota. change (hlower c :: map hlower nm) with (map hlower (c :: nm)).
    apply find_lines; [done|done|]. cbn [length] in Hlen. lia.
Qed.

(** *** [findHeader] *)

Lemma findHeader_lines hdrs skip l nm :
  at_lines hdrs skip l -> good_hdrs l -> good_name nm = true ->
  match first_hdr nm l with
  | None => findHeader hdrs nm skip = None
  | Some (v, l') =>
      let p := (length hdrs - length (v ++ CRLF ++ hdr_lines l'))%nat in
      findHeader hdrs nm skip = Some (p, (p + length v)%nat, (p - 2)%nat) /\
      drop p hdrs = v ++ CRLF ++ hdr_lines l' /\ (2 <= p)%nat /\ (p + length v + 1 < length hdrs)%nat
  end.
Proof.
  intros Hat Hl Hn. unfold findHeader. destruct (Nat.leb_spec (length hdrs) skip) as [Hs|Hs].
  - assert (Hd : drop skip hdrs = []) by (by apply drop_ge). destruct Hat as [E|E]; rewrite Hd in E; [|done].
    destruct l as [|[n v] l]; [done|]. rewrite hdr_lines_pair in E. by destruct n.
  - rewrite (find_at hdrs skip l nm) by done. destruct (first_hdr nm l) as [[v l']|] eqn:Hf; cbn [option_map fst snd]; [|done].
    destruct (first_hdr_split nm l v l' Hf) as (l1 & n & -> & _ & _).
    assert (Hx : exists x, hdrs = (x ++ [HCOLON; SP]) ++ (v ++ CRLF ++ hdr_lines l')).
    { unfold at_lines in Hat. rewrite hdr_lines_app, hdr_lines_pair in Hat. rewrite <- (take_drop skip hdrs). destruct Hat as [-> | ->].
      - exists (take skip hdrs ++ hdr_lines l1 ++ n). by rewrite <- !app_assoc.
      - exists (take skip hdrs ++ LF :: hdr_lines l1 ++ n). by rewrite <- !app_assoc; cbn; rewrite <- !app_assoc. }
    unfold good_hdrs in Hl. rewrite forallb_app in Hl. cbn in Hl. apply andb_true_iff in Hl as [_ [[_ (Hv & Hsp & Hne)%good_value_spec]%andb_true_iff _]%andb_true_iff]. cbn [snd] in Hv, Hsp, Hne.
    set (rest := v ++ CRLF ++ hdr_lines l') in *.
    assert (Hs1 : skip_sp (HCOLON :: SP :: rest) = HCOLON :: SP :: rest) by done.
    assert (Hs2 : skip_sp (SP :: rest) = rest).
    { cbn. unfold rest. destruct v as [|c v]; [done|]. cbn [app]. cbn [skip_sp] in Hsp |- *. destruct (c =? 32); [|done].
      exfalso. assert (Hlen : forall l, (length (skip_sp l) <= length l)%nat) by (clear; induction l as [|y l IH]; cbn; [lia|destruct (y =? 32); cbn; lia]).
      specialize (Hlen v). rewrite Hsp in Hlen. cbn in Hlen. lia. }
    rewrite Hs1. change (HCOLON =? HCOLON) with true. cbn iota. rewrite Hs2. assert (Hu : until_eol rest = v) by (by apply until_eol_text). rewrite Hu.
    destruct Hx as [x ->]. split; [|split; [apply drop_suffix|]].
    + f_equal. f_equal. cbn [length]. lia.
    + unfold rest. repeat first [rewrite length_app | progress cbn [length CRLF]]. destruct v; [done|]. cbn [length]. lia.
Qed.

(** *** [getHeader] *)

Lemma drop_behind (hdrs v r : list Z) p : drop p hdrs = v ++ CRLF ++ r -> drop (p + length v + 1) hdrs = LF :: r.
Proof.
  intros Hd. replace (p + length v + 1)%nat with (p + (length v + 1))%nat by lia. rewrite <- drop_drop, Hd.
  replace (length v + 1)%nat with (length (v ++ [CR]))%nat by (rewrite length_app; cbn; lia).
  replace (v ++ CRLF ++ r) with ((v ++ [CR]) ++ LF :: r) by (by rewrite <- app_assoc). apply drop_app_length.
Qed.

Lemma get_loop_lines hdrs nm single l fuel skip ret :
  (skip <> 0)%nat -> drop skip hdrs = LF :: hdr_lines l -> good_hdrs l -> good_name nm = true -> (length l < fuel)%nat ->
  get_loop fuel hdrs nm single skip ret = ret ++ concat (map (fun v => lit ", " ++ v) (h_values nm l)).
Proof.
  intros Hs Hd Hl Hn. revert skip l ret Hs Hd Hl. induction fuel as [|fuel IH]; intros skip l ret Hs Hd Hl Hf; [lia|].
  cbn [get_loop]. pose proof (findHeader_lines hdrs skip l nm (or_intror Hd) Hl Hn) as H. destruct (first_hdr nm l) as [[v l']|] eqn:Hfst.
  - cbv zeta in H. destruct H as (-> & Hdr & _ & _). set (p := (length hdrs - _)%nat) in *. rewrite (proj2 (Nat.eqb_neq _ _)) by done.
    unfold substr. replace (p + length v - p)%nat with (length v) by lia. rewrite Hdr, take_app_length.
    destruct (first_hdr_split _ _ _ _ Hfst) as (l1 & n & El & _ & _).
    rewrite (IH (p + length v + 1)%nat l').
    + rewrite (h_values_first _ _ _ _ Hfst). cbn [map concat]. by rewrite <- !app_assoc.
    + lia.
    + by apply drop_behind.
    + rewrite El in Hl. unfold good_hdrs in *. rewrite forallb_app in Hl. cbn in Hl. by apply andb_true_iff in Hl as [_ [_ ?]%andb_true_iff].
    + rewrite El, length_app in Hf. cbn in Hf. lia.
  - rewrite H, (first_hdr_none _ _ Hfst). cbn. by rewrite app_nil_r.
Qed.

(** The values joined as [getHeader] does it. *)
Definition joined (vs : list (list Z)) : list Z :=
  match vs with [] => [] | v :: vs => v ++ concat (map (fun v => lit ", " ++ v) vs) end.

Lemma lines_length l : good_hdrs l -> (length l <= length (hdr_lines l))%nat.
Proof.
  intros _. induction l as [|[n v] l IH]; [done|]. rewrite hdr_lines_pair. repeat first [rewrite length_app | progress cbn [length]]. lia.
Qed.

Lemma first_good nm l v l' : good_hdrs l -> first_hdr nm l = Some (v, l') -> good_hdrs l' /\ good_value v = true /\ (length l' < length l)%nat.
Proof.
  intros Hl (l1 & n & -> & _ & _)%first_hdr_split. unfold good_hdrs in *. rewrite forallb_app in Hl. cbn in Hl.
  apply andb_true_iff in Hl as [_ [[_ ?]%andb_true_iff ?]%andb_true_iff]. rewrite length_app. cbn. split_and!; [done|done|lia].
Qed.

Lemma getHeader_lines l nm single :
  good_hdrs l -> good_name nm = true ->
  getHeader (hdr_lines l) nm single = if single then default [] (head (h_values nm l)) else joined (h_values nm l).
Proof.
  intros Hl Hn. unfold getHeader. rewrite bool_decide_false by (by intros ->). cbn [get_loop].
  pose proof (findHeader_lines (hdr_lines l) 0 l nm (or_introl eq_refl) Hl Hn) as H. destruct (first_hdr nm l) as [[v l']|] eqn:Hf.
  - cbv zeta in H. destruct H as (-> & Hd & H2 & _). set (p := (length (hdr_lines l) - _)%nat) in *. cbn [Nat.eqb].
    unfold substr. replace (p + length v - p)%nat with (length v) by lia. rewrite Hd, take_app_length.
    rewrite (h_values_first _ _ _ _ Hf). destruct single; [done|]. destruct (first_good _ _ _ _ Hl Hf) as (Hl' & _ & Hlen).
    rewrite (get_loop_lines (hdr_lines l) nm false l'); [done|lia|by apply drop_behind|done|done|].
    pose proof (lines_length l Hl). lia.
  - rewrite H, (first_hdr_none _ _ Hf). by destruct single.
Qed.

(** *** [removeHeader] *)

Definition others (nm : list Z) (l : list (list Z * list Z)) : list (list Z * list Z) :=
  List.filter (fun h => negb (same_name (fst h) nm)) l.

Lemma skip_eol_lines l : good_hdrs l -> skip_eol (CRLF ++ hdr_lines l) = hdr_lines l.
Proof.
  intros Hl. cbn. destruct l as [|[n v] l]; [done|]. rewrite hdr_lines_pair. unfold good_hdrs in Hl. cbn in Hl.
  apply andb_true_iff in Hl as [[[Hne Hn]%good_name_chars _]%andb_true_iff _]. destruct n as [|c n]; [done|]. cbn in Hn |- *.
  apply andb_true_iff in Hn as [Hc%name_char_spec _]. by rewrite !(proj2 (Z.eqb_neq c _)) by tauto.
Qed.

Lemma others_first nm l l1 : forallb (fun h => negb (same_name (fst h) nm)) l1 = true -> others nm (l1 ++ l) = l1 ++ others nm l.
Proof.
  unfold others. intros H. rewrite List.filter_app. f_equal. rewrite forallb_forall in H. induction l1 as [|h l1 IH]; [done|]. cbn.
  rewrite H by (by left). f_equal. apply IH. intros x Hx. apply H. by right.
Qed.

Lemma remove_loop_lines nm l fuel found :
  good_hdrs l -> good_name nm = true -> (length l < fuel)%nat ->
  remove_loop fuel (hdr_lines l) nm found = (hdr_lines (others nm l), found || existsb (fun h => same_name (fst h) nm) l).
Proof.
  intros Hl Hn. revert l found Hl. induction fuel as [|fuel IH]; intros l found Hl Hf; [lia|]. cbn [remove_loop].
  pose proof (findHeader_lines (hdr_lines l) 0 l nm (or_introl eq_refl) Hl Hn) as H. destruct (first_hdr nm l) as [[v l']|] eqn:Hfst.
  - cbv zeta in H. destruct H as (-> & Hd & H2 & _). set (p := (length (hdr_lines l) - _)%nat) in *.
    destruct (first_hdr_split _ _ _ _ Hfst) as (l1 & n & El & Hsame & H1). destruct (first_good _ _ _ _ Hl Hfst) as (Hl' & _ & Hlen).
    rewrite <- drop_drop, Hd, drop_app_length, skip_eol_lines by done.
    assert (Hnl : length n = length nm) by (apply bool_decide_eq_true in Hsame; apply (f_equal length) in Hsame; by rewrite !length_map in Hsame).
    assert (Ht : take (p - 2 - length nm) (hdr_lines l) = hdr_lines l1).
    { rewrite El, hdr_lines_app, hdr_lines_pair. replace (p - 2 - length nm)%nat with (length (hdr_lines l1)); [apply take_app_length|].
      unfold p. rewrite El, hdr_lines_app, hdr_lines_pair. repeat first [rewrite length_app | progress cbn [length]]. lia. }
    rewrite Ht, <- hdr_lines_app, IH.
    + rewrite El, others_first, others_first, existsb_app, existsb_app by done. cbn. rewrite Hsame. cbn. by rewrite !orb_true_r.
    + rewrite El in Hl. unfold good_hdrs in *. rewrite forallb_app in Hl |- *. cbn in Hl.
      apply andb_true_iff in Hl as [-> [_ ->]%andb_true_iff]. done.
    + rewrite El in Hf. rewrite !length_app in *. cbn in Hf. lia.
  - rewrite H. assert (Hno : forallb (fun h => negb (same_name (fst h) nm)) l = true).
    { clear -Hfst. induction l as [|[n v] l IH]; [done|]. cbn in *. destruct (same_name n nm); [done|]. by apply IH. }
    rewrite <- (app_nil_r l) at 2. rewrite others_first by done. cbn. rewrite app_nil_r. f_equal.
    assert (existsb (fun h => same_name (fst h) nm) l = false) as ->; [|by rewrite orb_false_r].
    clear -Hno. induction l as [|h l IH]; [done|]. cbn in *. apply andb_true_iff in Hno as [->%negb_true_iff ?]. by apply IH.
Qed.

Lemma removeHeader_lines nm l :
  good_hdrs l -> good_name nm = true ->
  removeHeader (hdr_lines l) nm = (hdr_lines (others nm l), existsb (fun h => same_name (fst h) nm) l).
Proof. intros Hl Hn. unfold removeHeader. apply remove_loop_lines; [done|done|]. pose proof (lines_length l Hl). lia. Qed.

(** *** Options *)

(** The options that the values list. *)
Definition options (vs : list (list Z)) : list (list Z) := map trim_sp (concat (map (fun v => explode v 44) vs)).

Definition has_option (tag : list Z) (vs : list (list Z)) : bool := existsb (fun x => bool_decide (x = tag)) (options vs).

(** [tag] put in front of the first header with a name. *)
Fixpoint add_first (nm tag : list Z) (l : list (list Z * list Z)) : list (list Z * list Z) :=
  match l with
  | [] => []
  | (n, v) :: l => if same_name n nm then (n, tag ++ lit ", " ++ v) :: l else (n, v) :: add_first nm tag l
  end.

Definition add_option (nm tag : list Z) (l : list (list Z * list Z)) : list (list Z * list Z) :=
  match h_values nm l with
  | [] => l ++ [(nm, tag)]
  | vs => if has_option tag vs then l else add_first nm tag l
  end.

Section Options.
Context (tag : list Z) (Htag : tag <> []).

Local Notation "'P'" := (fun x : list Z => bool_decide (trim_sp x = tag)).

Lemma split_nonempty d l : split_on d l <> [].
Proof. induction l as [|c l IH]; cbn; [done|]. destruct (c =? d); [done|]. by destruct (split_on d l). Qed.

Lemma split_app d a b : existsb P (split_on d (a ++ d :: b)) = existsb P (split_on d a) || existsb P (split_on d b).
Proof.
  enough (H : split_on d (a ++ d :: b) = split_on d a ++ split_on d b) by (by rewrite H, existsb_app).
  induction a as [|c a IH]; cbn; [by rewrite Z.eqb_refl|]. destruct (c =? d); cbn; [by rewrite IH|]. rewrite IH.
  pose proof (split_nonempty d a). by destruct (split_on d a).
Qed.

Lemma split_blank d l : d <> 32 -> existsb P (split_on d (32 :: l)) = existsb P (split_on d l).
Proof.
  intros Hd. cbn [split_on]. rewrite (proj2 (Z.eqb_neq 32 d)) by congruence. pose proof (split_nonempty d l). by destruct (split_on d l).
Qed.

Lemma explode_split d l : existsb P (explode l d) = existsb P (split_on d l).
Proof.
  unfold explode. induction (split_on d l) as [|x r IH]; cbn; [done|]. case_bool_decide as Hx; cbn; [|by rewrite IH].
  subst. change (trim_sp []) with (@nil Z). by rewrite bool_decide_false, IH by (by apply not_eq_sym).
Qed.

Lemma joined_options vs : existsb P (explode (joined vs) 44) = has_option tag vs.
Proof.
  assert (Hopt : has_option tag vs = existsb (fun v => existsb P (split_on 44 v)) vs).
  { unfold has_option, options. induction vs as [|v vs IH]; [done|]. cbn. rewrite map_app, existsb_app, IH. f_equal.
    rewrite <- explode_split. induction (explode v 44) as [|x r IHr]; [done|]. cbn. by rewrite IHr. }
  rewrite Hopt, explode_split. clear Hopt. destruct vs as [|v vs]; cbn [joined existsb].
  - cbn [split_on existsb]. change (trim_sp []) with (@nil Z). rewrite bool_decide_false; [done|congruence].
  - revert v. induction vs as [|w vs IH]; intros v; cbn [map concat existsb]; [by rewrite app_nil_r, orb_false_r|].
    change (lit ", ") with [44; 32]. cbn [app]. rewrite split_app, split_blank by done. f_equal. apply IH.
Qed.

Lemma addOptionTag_lines nm l :
  good_hdrs l -> good_name nm = true -> addOptionTag (hdr_lines l) nm tag = hdr_lines (add_option nm tag l).
Proof.
  intros Hl Hn. unfold addOptionTag, add_option. rewrite getHeader_lines by done. destruct (h_values nm l) as [|v vs] eqn:Hv.
  - cbn [joined]. rewrite bool_decide_true by done. rewrite hdr_lines_app. f_equal. unfold hdr_lines. cbn. by rewrite app_nil_r.
  - assert (Hne : joined (v :: vs) <> []).
    { destruct (first_hdr nm l) as [[w l']|] eqn:Hf; [|by rewrite (first_hdr_none _ _ Hf) in Hv]. rewrite (h_values_first _ _ _ _ Hf) in Hv. injection Hv as <- _.
      destruct (first_good _ _ _ _ Hl Hf) as (_ & Hg & _). by destruct w. }
    rewrite bool_decide_false by done. rewrite joined_options. destruct (has_option tag (v :: vs)); [done|].
    pose proof (findHeader_lines (hdr_lines l) 0 l nm (or_introl eq_refl) Hl Hn) as H. destruct (first_hdr nm l) as [[w l']|] eqn:Hf; [|by rewrite (first_hdr_none _ _ Hf) in Hv].
    cbv zeta in H. destruct H as (-> & Hd & _ & _). set (p := (length (hdr_lines l) - _)%nat) in *.
    destruct (first_hdr_split _ _ _ _ Hf) as (l1 & n & El & Hsame & H1).
    assert (Ha : add_first nm tag l = l1 ++ (n, tag ++ lit ", " ++ w) :: l').
    { rewrite El. clear -H1 Hsame. induction l1 as [|[n' v'] l1 IH]; cbn; [by rewrite Hsame|]. cbn in H1. apply andb_true_iff in H1 as [->%negb_true_iff H1]. by rewrite IH. }
    rewrite Ha, hdr_lines_app, hdr_lines_pair, Hd.
    assert (Ht : take p (hdr_lines l) = hdr_lines l1 ++ n ++ [HCOLON; SP]).
    { replace (hdr_lines l) with ((hdr_lines l1 ++ n ++ [HCOLON; SP]) ++ w ++ CRLF ++ hdr_lines l')
        by (by rewrite El, hdr_lines_app, hdr_lines_pair, <- !app_assoc).
      replace p with (length (hdr_lines l1 ++ n ++ [HCOLON; SP])); [apply take_app_length|].
      unfold p. rewrite El, hdr_lines_app, hdr_lines_pair. repeat first [rewrite length_app | progress cbn [length]]. lia. }
    by rewrite Ht, <- !app_assoc.
Qed.
End Options.

(** *** Any text *)

Lemma cmp_suffix l nm : exists a, l = a ++ fst (cmp_name l nm) /\ (snd (cmp_name l nm) = [] -> length a = length nm).
Proof.
  revert nm. induction l as [|c l IH]; intros nm; [exists []; by destruct nm|]. destruct nm as [|x nm]; [by exists []|]. cbn [cmp_name].
  destruct (hlower c =? x); [|by exists []]. destruct (IH nm) as (a & Ha & Hs). exists (c :: a). cbn. split; [by rewrite <- Ha|].
  intros Hn. by rewrite Hs.
Qed.

Lemma skip_line_suffix l : exists a, l = a ++ skip_line l.
Proof. induction l as [|c l [a IH]]; [by exists []|]. cbn. destruct (c =? LF); [by exists [c]|]. exists (c :: a). cbn. by rewrite <- IH. Qed.

(** What is found stands behind the name. *)
Lemma find_loop_suffix fuel l nm r : find_loop fuel l nm = Some r -> exists a, l = a ++ r /\ (length nm <= length a)%nat.
Proof.
  revert l. induction fuel as [|fuel IH]; intros l; [done|]. destruct l as [|c l]; [done|]. cbn [find_loop].
  destruct (cmp_suffix (c :: l) nm) as (a & Ha & Hs). destruct (cmp_name (c :: l) nm) as [r' n]. cbn [fst snd] in *.
  destruct (bool_decide (n = []) && col_follows r') eqn:Hb.
  - intros [= ->]. apply andb_true_iff in Hb as [Hn%bool_decide_eq_true _]. exists a. split; [done|]. rewrite Hs by done. lia.
  - intros (b & Hb' & Hlen)%IH. destruct (skip_line_suffix r') as [x Hx]. exists (a ++ x ++ b).
    rewrite <- !app_assoc, <- Hb', <- Hx. split; [done|]. rewrite !length_app. lia.
Qed.

Lemma skip_sp_suffix l : exists a, l = a ++ skip_sp l.
Proof. induction l as [|c l [a IH]]; [by exists []|]. cbn. destruct (c =? 32); [|by exists []]. exists (c :: a). cbn. by rewrite <- IH. Qed.

Lemma skip_eol_length l : (length (skip_eol l) <= length l)%nat.
Proof. induction l as [|c l IH]; cbn; [lia|]. destruct ((c =? CR) || (c =? LF)); cbn; lia. Qed.

Lemma findHeader_bounds hdrs nm p1 p2 st :
  findHeader hdrs nm 0 = Some (p1, p2, st) -> (length nm <= st)%nat /\ (st < p1)%nat /\ (p1 <= p2)%nat /\ (p1 <= length hdrs)%nat.
Proof.
  unfold findHeader. destruct (length hdrs <=? 0)%nat; [done|]. change (drop 0 hdrs) with hdrs. destruct (find_loop _ hdrs _) as [r|] eqn:Hf; [|done].
  destruct (find_loop_suffix _ _ _ _ Hf) as (a & -> & Hlen). rewrite length_map in Hlen. destruct (skip_sp_suffix r) as [b Hb].
  destruct (skip_sp r) as [|c v]; [done|]. destruct (c =? HCOLON); [|done]. destruct (skip_sp_suffix v) as [d Hd]. intros [= <- <- <-].
  apply (f_equal length) in Hb, Hd. rewrite length_app in *. cbn [length] in Hb. lia.
Qed.

(** After [removeHeader] no header of that name is left, whatever the text was: the rounds it
    has are enough. *)
Theorem removeHeader_gone hdrs nm : findHeader (fst (removeHeader hdrs nm)) nm 0 = None.
Proof.
  unfold removeHeader. assert (H : forall fuel h found, (length h < fuel)%nat -> findHeader (fst (remove_loop fuel h nm found)) nm 0 = None).
  { clear hdrs. induction fuel as [|fuel IH]; intros h found Hf; [lia|]. cbn [remove_loop].
    destruct (findHeader h nm 0) as [[[p1 p2] st]|] eqn:He; [|done]. apply IH.
    destruct (findHeader_bounds _ _ _ _ _ He) as (H1 & H2 & H3 & H4). rewrite length_app, length_take.
    pose proof (skip_eol_length (drop p2 h)) as H5. rewrite length_drop in H5. lia. }
  apply H. lia.
Qed.

(** *** Values *)

Lemma until_c_text d a r : d ∉ a -> until_c d (a ++ d :: r) = a.
Proof.
  induction a as [|c a IH]; cbn; [by rewrite Z.eqb_refl|]. intros [Hc Ha]%not_elem_of_cons.
  rewrite (proj2 (Z.eqb_neq _ _)) by congruence. by rewrite IH.
Qed.

Lemma until_c_all d a : d ∉ a -> until_c d a = a.
Proof.
  induction a as [|c a IH]; cbn; [done|]. intros [Hc Ha]%not_elem_of_cons. rewrite (proj2 (Z.eqb_neq _ _)) by congruence. by rewrite IH.
Qed.

Lemma find_from_text d a r : d ∉ a -> find_from d (a ++ d :: r) = Some (length a).
Proof.
  induction a as [|c a IH]; cbn; [by rewrite Z.eqb_refl|]. intros [Hc Ha]%not_elem_of_cons.
  rewrite (proj2 (Z.eqb_neq _ _)) by congruence. by rewrite IH.
Qed.

Lemma find_from_none d a : d ∉ a -> find_from d a = None.
Proof.
  induction a as [|c a IH]; cbn; [done|]. intros [Hc Ha]%not_elem_of_cons. rewrite (proj2 (Z.eqb_neq _ _)) by congruence. by rewrite IH.
Qed.

(** A value with one parameter, and one without. *)
Lemma param_found a name v : 59 ∉ a -> get_header_param (a ++ 59 :: name ++ 61 :: v) name = until_param v.
Proof.
  intros Ha. unfold get_header_param. cbn [param_loop]. assert (Hl : length (a ++ 59 :: name ++ 61 :: v) = (length a + length name + length v + 2)%nat)
    by (repeat first [rewrite length_app | progress cbn [length]]; lia).
  rewrite Hl. rewrite (proj2 (Nat.leb_gt _ _)) by lia. unfold find_c. rewrite drop_0, find_from_text by done. cbn [option_map Nat.add].
  assert (Hd : forall n x, drop (length a + 1 + n) (a ++ 59 :: x) = drop n x).
  { intros n x. rewrite <- Nat.add_assoc, drop_app_add. done. }
  assert (Hv : until_param (drop (length a + 1 + length name + 1) (a ++ 59 :: name ++ 61 :: v)) = until_param v).
  { replace (length a + 1 + length name + 1)%nat with (length a + 1 + (length name + 1))%nat by lia. by rewrite Hd, drop_app_add. }
  destruct (Nat.ltb_spec (length a + length name + 1) (length a + length name + length v + 2)) as [_|H]; [|lia].
  assert (Hs : substr (a ++ 59 :: name ++ 61 :: v) (length a + 1) (length name) = name).
  { unfold substr. replace (length a + 1)%nat with (length a + 1 + 0)%nat by lia. rewrite Hd, drop_0. apply take_app_length. }
  assert (He : (a ++ 59 :: name ++ 61 :: v) !! (length a + 1 + length name)%nat = Some 61).
  { rewrite lookup_app_r by lia. replace (length a + 1 + length name - length a)%nat with (S (length name)) by lia. by apply (list_lookup_middle name v 61). }
  by rewrite Hs, He, !bool_decide_true by done.
Qed.

Lemma param_missing a name : 59 ∉ a -> get_header_param a name = [].
Proof. intros Ha. unfold get_header_param. cbn [param_loop]. case_match; [done|]. unfold find_c. by rewrite drop_0, find_from_none. Qed.

(** Numbers as values. *)
Definition is_uint (n : Z) : Prop := 0 <= n <= UINT_MAX.

Lemma digits_no c n : is_uint n -> IS_DIGIT c = false -> c ∉ int2str n.
Proof.
  intros Hn Hc Hin. destruct (int2str_digits n Hn) as (_ & Hd & _). rewrite forallb_forall in Hd.
  rewrite (Hd c) in Hc by (by apply list_elem_of_In). done.
Qed.

Lemma digits_value n r : is_uint n -> forallb text_char r = true -> good_value (int2str n ++ r) = true.
Proof.
  intros Hn Hr. destruct (int2str_digits n Hn) as (Hne & Hd & _). destruct (int2str n) as [|c d]; [done|]. cbn [app good_value].
  assert (Ht : forall x, IS_DIGIT x = true -> text_char x = true /\ IS_WSP x = false).
  { intros x Hx%is_digit_range. unfold text_char, IS_WSP, CR, LF, SP, HTAB.
    repeat match goal with |- context [?a =? ?b] => rewrite (proj2 (Z.eqb_neq a b)) by lia end. done. }
  pose proof Hd as Hd'. cbn in Hd. apply andb_true_iff in Hd as [Hc Hd]. destruct (Ht c Hc) as [_ ->]. cbn [negb andb].
  change (c :: d ++ r) with ((c :: d) ++ r). rewrite forallb_app, Hr, andb_true_r. apply forallb_forall. intros x Hx.
  rewrite forallb_forall in Hd'. by apply Ht, Hd'.
Qed.

(** *** The contract *)

Lemma explode_tag tag : 44 ∉ tag -> tag <> [] -> explode tag 44 = [tag].
Proof.
  intros Hc Hne. unfold explode. assert (Hs : split_on 44 tag = [tag]).
  { clear Hne. induction tag as [|c tag IH]; [done|]. apply not_elem_of_cons in Hc as [Hc Ht]. cbn [split_on].
    rewrite (proj2 (Z.eqb_neq c 44)) by congruence. by rewrite IH. }
  rewrite Hs. cbn. by rewrite bool_decide_false.
Qed.

Lemma same_name_refl n : same_name n n = true.
Proof. by apply bool_decide_eq_true. Qed.

Lemma has_option_added tag nm l :
  44 ∉ tag -> tag <> [] -> trim_sp tag = tag -> has_option tag (h_values nm (add_option nm tag l)) = true.
Proof.
  intros Hc Hne Ht. assert (H1 : forall v, has_option tag (tag :: v) = true).
  { intros v. unfold has_option, options. cbn. rewrite explode_tag by done. cbn. by rewrite Ht, bool_decide_true. }
  unfold add_option. destruct (h_values nm l) as [|v vs] eqn:Hv.
  - unfold h_values in *. rewrite List.filter_app, map_app, Hv. cbn. rewrite same_name_refl. apply H1.
  - destruct (has_option tag (v :: vs)) eqn:Ho; [by rewrite Hv|].
    assert (Hf : h_values nm (add_first nm tag l) = (tag ++ lit ", " ++ v) :: vs).
    { clear Ho. unfold h_values in *. induction l as [|[n w] l IH]; [done|]. cbn in *. destruct (same_name n nm) eqn:Hs; cbn in *; rewrite Hs; cbn.
      - by injection Hv as -> ->.
      - by apply IH. }
    rewrite Hf. unfold has_option, options. cbn [map concat]. rewrite map_app, existsb_app. apply orb_true_iff. left.
    assert (He : existsb (fun x => bool_decide (trim_sp x = tag)) (explode (tag ++ lit ", " ++ v) 44) = true).
    { rewrite explode_split by done. change (lit ", " ++ v) with (44 :: 32 :: v). rewrite split_app by done. apply orb_true_iff. left.
      rewrite <- explode_split, explode_tag by done. cbn. by rewrite Ht, bool_decide_true. }
    revert He. induction (explode _ 44) as [|x r IH]; [done|]. cbn. destruct (bool_decide (trim_sp x = tag)); cbn; [done|apply IH].
Qed.

(** *** Options that are added *)

Lemma others_none nm l : h_values nm l = [] -> others nm l = l.
Proof.
  unfold h_values, others. induction l as [|h l IH]; [done|]. cbn. destruct (same_name h.1 nm); cbn; [done|]. intros H. by rewrite IH.
Qed.

Lemma h_values_app nm l k : h_values nm (l ++ k) = h_values nm l ++ h_values nm k.
Proof. unfold h_values. by rewrite List.filter_app, map_app. Qed.

Lemma add_first_other nm nm' tag l : same_name nm nm' = false -> h_values nm' (add_first nm tag l) = h_values nm' l.
Proof.
  intros Hs. unfold h_values. induction l as [|[n v] l IH]; [done|]. cbn. destruct (same_name n nm) eqn:Hn; cbn.
  - assert (same_name n nm' = false) as ->; [|done]. apply bool_decide_eq_false. apply bool_decide_eq_true in Hn. apply bool_decide_eq_false in Hs. congruence.
  - destruct (same_name n nm'); cbn; by rewrite IH.
Qed.

Lemma h_values_add_other nm nm' tag l : same_name nm nm' = false -> h_values nm' (add_option nm tag l) = h_values nm' l.
Proof.
  intros Hs. unfold add_option. destruct (h_values nm l).
  - rewrite h_values_app. unfold h_values at 2. cbn. by rewrite Hs, app_nil_r.
  - destruct (has_option tag _); [done|]. by apply add_first_other.
Qed.

(** An option that is new stands first. *)
Lemma h_values_added nm tag l : has_option tag (h_values nm l) = false ->
  exists r, head (h_values nm (add_option nm tag l)) = Some (tag ++ r) /\ (r = [] \/ exists v, r = lit ", " ++ v).
Proof.
  intros Ho. unfold add_option. destruct (h_values nm l) as [|v vs] eqn:Hv.
  - exists []. rewrite h_values_app, Hv, app_nil_r. unfold h_values. cbn. rewrite same_name_refl. split; [done|by left].
  - rewrite Ho. exists (lit ", " ++ v). split; [|right; by exists v]. clear Ho.
    unfold h_values in *. induction l as [|[n w] l IH]; [done|]. cbn in *. destruct (same_name n nm) eqn:Hs; cbn in *; rewrite Hs; cbn; [|by apply IH].
    by injection Hv as -> _.
Qed.

Lemma good_value_app t r : good_value t = true -> forallb text_char r = true -> good_value (t ++ r) = true.
Proof.
  destruct t as [|c t]; [done|]. unfold good_value. cbn [app]. intros [-> Ht]%andb_true_iff Hr. cbn [andb]. by rewrite app_comm_cons, forallb_app, Ht, Hr.
Qed.

Lemma good_add_option nm tag l : good_hdrs l -> good_hdr (nm, tag) = true -> good_hdrs (add_option nm tag l).
Proof.
  intros Hl Hg. unfold add_option, good_hdrs in *. destruct (h_values nm l).
  - rewrite forallb_app, Hl. cbn [forallb]. by rewrite Hg.
  - destruct (has_option tag _); [done|]. induction l as [|[n v] l IH]; [done|]. cbn [add_first forallb] in *.
    apply andb_true_iff in Hl as [Hh Hl]. destruct (same_name n nm); cbn [forallb]; rewrite ?Hh, ?Hl, ?IH by done; [|done].
    rewrite andb_true_r. unfold good_hdr in *. cbn [fst snd] in *. apply andb_true_iff in Hh as [-> Hv]. apply andb_true_iff in Hg as [_ Ht].
    apply good_value_app; [done|]. rewrite forallb_app. by destruct (good_value_spec _ Hv) as (-> & _).
Qed.

(** C20: the functions on header texts implement a list of headers.  On the text of a list of
    well-formed headers [getHeader] returns the first value of a name or all of them joined by
    commas, [hasHeader] says whether there is one, [removeHeader] leaves exactly the headers
    with other names, and [addOptionTag] changes the list as [add_option] says, after which the
    option is listed. *)
Theorem header_text_refines l nm tag :
  good_hdrs l -> good_name nm = true -> 44 ∉ tag -> tag <> [] -> trim_sp tag = tag ->
  getHeader (hdr_lines l) nm true = default [] (head (h_values nm l)) /\
  getHeader (hdr_lines l) nm false = joined (h_values nm l) /\
  hasHeader (hdr_lines l) nm = negb (bool_decide (h_values nm l = [])) /\
  removeHeader (hdr_lines l) nm = (hdr_lines (others nm l), negb (bool_decide (h_values nm l = []))) /\
  addOptionTag (hdr_lines l) nm tag = hdr_lines (add_option nm tag l) /\
  has_option tag (h_values nm (add_option nm tag l)) = true.
Proof.
  intros Hl Hn Hc Hne Ht. assert (Hex : existsb (fun h => same_name (fst h) nm) l = negb (bool_decide (h_values nm l = []))).
  { unfold h_values. clear. induction l as [|h l IH]; cbn; [done|]. destruct (same_name h.1 nm); cbn; [done|exact IH]. }
  split_and!.
  - by apply (getHeader_lines l nm true).
  - by apply (getHeader_lines l nm false).
  - unfold hasHeader. pose proof (findHeader_lines (hdr_lines l) 0 l nm (or_introl eq_refl) Hl Hn) as H. destruct (first_hdr nm l) as [[v l']|] eqn:Hf.
    + cbv zeta in H. destruct H as [-> _]. by rewrite (h_values_first _ _ _ _ Hf).
    + by rewrite H, (first_hdr_none _ _ Hf).
  - by rewrite removeHeader_lines, Hex.
  - by apply addOptionTag_lines.
  - by apply has_option_added.
Qed.

(** [removeOptionTag] loses the options before the last one that it keeps, and leaves an
    empty one. *)
Theorem remove_option_loses :
  removeOptionTag (hdr_lines [(lit "Require", lit "100rel,timer,path")]) (lit "Require") (lit "timer") = hdr_lines [(lit "Require", lit ", path")].
Proof. vm_compute. reflexivity. Qed.

(** A header whose name and colon are parted by a tab hides the following ones of its name. *)
Theorem tab_before_colon_hides :
  getHeader (lit "k" ++ [HTAB] ++ lit ": a" ++ CRLF ++ hdr_lines [(lit "k", lit "b")]) (lit "k") false = [].
Proof. vm_compute. reflexivity. Qed.

Definition demo_hdrs : list (list Z * list Z) := [(lit "Supported", lit "100rel"); (lit "X-A", lit "1"); (lit "supported", lit "path")].

Lemma header_text_refines_witness :
  addOptionTag (hdr_lines demo_hdrs) (lit "Supported") (lit "timer") =
    hdr_lines [(lit "Supported", lit "timer, 100rel"); (lit "X-A", lit "1"); (lit "supported", lit "path")] /\
  fst (removeHeader (hdr_lines demo_hdrs) (lit "Supported")) = hdr_lines [(lit "X-A", lit "1")].
Proof.
  destruct (header_text_refines demo_hdrs (lit "Supported") (lit "timer")) as (_ & _ & _ & H1 & H2 & _).
  - vm_compute. reflexivity.
  - vm_compute. reflexivity.
  - apply (bool_decide_unpack (44 ∉ lit "timer")); vm_compute; exact I.
  - done.
  - vm_compute. reflexivity.
  - split; [rewrite H2|rewrite H1]; vm_compute; reflexivity.
Defined.
