(* ===== verification/SessionTimer.v ===== *)
(** * Session timers

    Model of core/plug-in/session_timer/SessionTimer.h and .cpp (RFC 4028): the handler that
    a session has for its session timer.  It adds headers to the requests and replies that are
    sent, reads those of the messages that arrive, and sets two timers of the session: one
    after which the session has expired, and, if this side is the refresher, one after which it
    refreshes the session.

    Headers are texts ([HdrText]).  What the handler asks of its session and dialog is a list of
    calls; the timers among them are those of [AppTimer].  The reading of the configuration is
    left out. *)

From Stdlib Require Import ZArith Lia Ascii String.
From stdpp Require Import base list gmap.
From S2P Require Import Prelude Wheeltimer DialogMsg Rel100 ParseCommon AmUtils SipHeader AppTimer HdrText.

Local Open Scope Z_scope.
Local Open Scope bool_scope.

(** ** Data *)

Definition SIP_HDR_SUPPORTED : list Z := lit "Supported".
Definition SIP_HDR_REQUIRE : list Z := lit "Require".
Definition SIP_HDR_SESSION_EXPIRES : list Z := lit "Session-Expires".
Definition SIP_HDR_SESSION_EXPIRES_COMPACT : list Z := lit "x".
Definition SIP_HDR_MIN_SE : list Z := lit "Min-SE".
Definition TIMER_OPTION_TAG : list Z := lit "timer".

Definition ID_SESSION_INTERVAL_TIMER : Z := -1.
Definition ID_SESSION_REFRESH_TIMER : Z := -2.

(** [AmSessionTimerConfig] *)
Record sst_config := mk_sst_config { EnableSessionTimer : bool; SessionExpires : Z; MinimumTimer : Z; MaximumTimer : Z }.

Definition sst_default : sst_config := mk_sst_config true 120 90 900.

Inductive SessionRefresher := refresh_local | refresh_remote.
Inductive SessionRefresherRole := UAC | UAS.

#[global] Instance SessionRefresher_eq_dec : EqDecision SessionRefresher.
Proof. solve_decision. Defined.
#[global] Instance SessionRefresherRole_eq_dec : EqDecision SessionRefresherRole.
Proof. solve_decision. Defined.

(** [SessionTimer]; of a request that was sent its method and headers are kept. *)
Record sst := mk_sst {
  session_timer_conf : sst_config;
  sent_requests : gmap Z (sip_meth * list Z);
  remote_timer_aware : bool;
  min_se : Z;
  session_interval : Z;
  session_refresher : SessionRefresher;
  session_refresher_role : SessionRefresherRole;
  accept_501_reply : bool
}.

(** The calls on the session and its dialog. *)
Inductive sst_call :=
| CSetTimer (id secs : Z)
| CRemoveTimer (id : Z)
| CSessionTimeout
| CClearRemoteTag
| CSendRequest (m : sip_meth) (hdrs : list Z)
| CSetStatus (st : Status)
| CUpdateCSeq (old new : Z).

(** The constructor, and [configure]; two fields are not initialised and have any value. *)
Definition sst_new (conf : sst_config) (accept_501 aware : bool) (role : SessionRefresherRole) : sst :=
  mk_sst conf ∅ aware (MinimumTimer conf) (SessionExpires conf) refresh_remote role accept_501.

Definition sst_set_sent r t := mk_sst (session_timer_conf t) r (remote_timer_aware t) (min_se t) (session_interval t) (session_refresher t) (session_refresher_role t) (accept_501_reply t).
Definition sst_set_interval i t := mk_sst (session_timer_conf t) (sent_requests t) (remote_timer_aware t) (min_se t) i (session_refresher t) (session_refresher_role t) (accept_501_reply t).
Definition sst_set_refresher r o t := mk_sst (session_timer_conf t) (sent_requests t) (remote_timer_aware t) (min_se t) (session_interval t) r o (accept_501_reply t).
Definition sst_set_remote a m t := mk_sst (session_timer_conf t) (sent_requests t) a m (session_interval t) (session_refresher t) (session_refresher_role t) (accept_501_reply t).

(** ** Timers *)

Definition sst_removeTimers : list sst_call := [CRemoveTimer ID_SESSION_REFRESH_TIMER; CRemoveTimer ID_SESSION_INTERVAL_TIMER].

Definition setTimers (t : sst) : list sst_call :=
  CSetTimer ID_SESSION_INTERVAL_TIMER (session_interval t) ::
  if bool_decide (session_refresher t = refresh_local) then [CSetTimer ID_SESSION_REFRESH_TIMER (session_interval t / 2)] else [].

Definition retryRefreshTimer : list sst_call := [CSetTimer ID_SESSION_REFRESH_TIMER 2].

(** [str2i(strip_header_params(hdr), i)] *)
Definition hdr_number (hdr : list Z) : option Z := str2i (strip_header_params hdr).

(** [updateTimer] with a request.  The third argument of [getHeader] for Supported is a string
    literal, which converts to [bool]: the first header of that name is read, and no compact
    one. *)
Definition updateTimer_request (m : sip_meth) (hdrs : list Z) (t : sst) : sst * list sst_call :=
  if meth_eqb m M_INVITE || meth_eqb m M_UPDATE then
    let aware := key_in_list (getHeader hdrs SIP_HDR_SUPPORTED true) TIMER_OPTION_TAG 44 in
    let se := getHeader_compact hdrs SIP_HDR_SESSION_EXPIRES SIP_HDR_SESSION_EXPIRES_COMPACT true in
    let rem := if bool_decide (se = []) then None else hdr_number se in
    let min_hdr := getHeader hdrs SIP_HDR_MIN_SE true in
    let i_minse := if bool_decide (min_hdr = []) then min_se t else default (min_se t) (hdr_number min_hdr) in
    let t := sst_set_remote aware (if min_se t <? i_minse then i_minse else min_se t) t in
    let conf_se := SessionExpires (session_timer_conf t) in
    let interval :=
      match rem with
      | None => conf_se
      | Some r =>
          let i := if r <? conf_se then r else conf_se in
          if i <? min_se t then min_se t else i
      end in
    let t := sst_set_interval interval t in
    let t := if aware && negb (bool_decide (se = [])) && bool_decide (get_header_param se (lit "refresher") = lit "uac")
             then sst_set_refresher refresh_remote UAC t else sst_set_refresher refresh_local UAS t in
    (t, sst_removeTimers ++ setTimers t)
  else if meth_eqb m M_BYE then (t, sst_removeTimers)
  else (t, []).

(** [updateTimer] with a reply *)
Definition updateTimer_reply (code : Z) (hdrs : list Z) (t : sst) : sst * list sst_call :=
  if negb (EnableSessionTimer (session_timer_conf t)) then (t, [])
  else if ((code <? 200) || (300 <=? code)) && negb (accept_501_reply t && (code =? 501)) then (t, [])
  else
    let se := getHeader_compact hdrs SIP_HDR_SESSION_EXPIRES SIP_HDR_SESSION_EXPIRES_COMPACT true in
    let t := sst_set_refresher refresh_local UAC t in
    let t :=
      if bool_decide (se = []) then t
      else
        let t := match hdr_number se with
                 | None => t
                 | Some i => sst_set_interval (if i <? min_se t then min_se t else i) t
                 end in
        if bool_decide (get_header_param se (lit "refresher") = lit "uas") then sst_set_refresher refresh_remote UAS t else t in
    (t, sst_removeTimers ++ setTimers t).

(** ** Messages that are sent *)

Definition add_hdr (hdrs name value : list Z) : list Z := hdrs ++ hdr_line (name, value).

(** [onSendRequest]: [status] is that of the dialog. *)
Definition onSendRequest (status : Status) (m : sip_meth) (cseq : Z) (to_tag hdrs : list Z) (t : sst) : sst * list sst_call * list Z :=
  if meth_eqb m M_BYE then (t, sst_removeTimers, hdrs)
  else
    let t := if EnableSessionTimer (session_timer_conf t) && (meth_eqb m M_INVITE || meth_eqb m M_UPDATE) && bool_decide (status = Disconnected)
             then sst_set_sent (<[cseq := (m, hdrs)]> (sent_requests t)) t else t in
    let hdrs := addOptionTag hdrs SIP_HDR_SUPPORTED TIMER_OPTION_TAG in
    if negb (meth_eqb m M_INVITE) && negb (meth_eqb m M_UPDATE) then (t, [], hdrs)
    else
      let hdrs := fst (removeHeader hdrs SIP_HDR_SESSION_EXPIRES) in
      let hdrs := fst (removeHeader hdrs SIP_HDR_MIN_SE) in
      let se := int2str (session_interval t) ++
        if bool_decide (to_tag = []) then [] else lit ";refresher=" ++ if bool_decide (session_refresher t = refresh_local) then lit "uac" else lit "uas" in
      (t, [], add_hdr (add_hdr hdrs SIP_HDR_SESSION_EXPIRES se) SIP_HDR_MIN_SE (int2str (min_se t))).

(** [onSendReply]: the headers of the reply. *)
Definition onSendReply (m : sip_meth) (code : Z) (hdrs : list Z) (t : sst) : list Z :=
  if (negb (meth_eqb m M_INVITE) && negb (meth_eqb m M_UPDATE)) || (code <? 200) || (300 <=? code) then hdrs
  else
    let hdrs := addOptionTag hdrs SIP_HDR_SUPPORTED TIMER_OPTION_TAG in
    let hdrs :=
      if (bool_decide (session_refresher_role t = UAC) && bool_decide (session_refresher t = refresh_remote)) ||
         (bool_decide (session_refresher_role t = UAS) && remote_timer_aware t)
      then addOptionTag hdrs SIP_HDR_REQUIRE TIMER_OPTION_TAG
      else removeOptionTag hdrs SIP_HDR_REQUIRE TIMER_OPTION_TAG in
    let hdrs := fst (removeHeader hdrs SIP_HDR_SESSION_EXPIRES) in
    add_hdr hdrs SIP_HDR_SESSION_EXPIRES
      (int2str (session_interval t) ++ lit ";refresher=" ++ if bool_decide (session_refresher_role t = UAC) then lit "uac" else lit "uas").

(** ** Messages that arrive *)

Definition onSipRequest (m : sip_meth) (hdrs : list Z) (t : sst) : sst * list sst_call := updateTimer_request m hdrs t.

(** The request is sent again with the interval of a 422: [None] when it was not; the dialog
    asks the handler for the headers of the request it sends.  The status is set back: where the
    code compares it first, it already is the old one. *)
Definition resend (status old_status : Status) (req_method : sip_meth) (cseq dlg_cseq : Z) (sent : bool) (t : sst) : sst * list sst_call * bool :=
  match sent_requests t !! cseq with
  | None => (t, [], false)
  | Some (_, hdrs) =>
      let '(t, calls, hdrs) := onSendRequest status req_method dlg_cseq [] hdrs t in
      let calls := CClearRemoteTag :: calls ++ [CSendRequest req_method hdrs] in
      if sent then
        (sst_set_sent (base.delete cseq (sent_requests t)) t, calls ++ [CSetStatus old_status; CUpdateCSeq cseq dlg_cseq], true)
      else (t, calls, false)
  end.

(** The 422 of [onSipReply] *)
Definition interval_too_small (status old_status : Status) (req_method : sip_meth) (cseq dlg_cseq : Z) (sent : bool) (hdrs : list Z) (t : sst)
  : sst * list sst_call * bool :=
  let min_hdr := getHeader hdrs SIP_HDR_MIN_SE true in
  if bool_decide (min_hdr = []) then (t, [], false)
  else match hdr_number min_hdr with
       | None => (t, [], false)
       | Some i =>
           if i <=? MaximumTimer (session_timer_conf t)
           then resend status old_status req_method cseq dlg_cseq sent (sst_set_interval i t)
           else (t, [], false)
       end.

(** [onSipReply]: [status] is that of the dialog after the reply, [dlg_cseq] its next CSeq, and
    [sent] whether a request can be sent. *)
Definition onSipReply (status old_status : Status) (dlg_cseq : Z) (sent : bool) (req_method m : sip_meth) (code cseq : Z) (hdrs : list Z) (t : sst)
  : sst * list sst_call * bool :=
  let inv_upd := meth_eqb m M_INVITE || meth_eqb m M_UPDATE in
  let '(t, calls, processed) :=
    if EnableSessionTimer (session_timer_conf t) && inv_upd then
      let '(t, calls, processed) :=
        if (code =? 422) && negb (bool_decide (status = Connected))
        then interval_too_small status old_status req_method cseq dlg_cseq sent hdrs t else (t, [], false) in
      if processed then (t, calls, true)
      else if (200 <=? code) && negb (bool_decide (old_status = Connected))
           then (sst_set_sent (base.delete cseq (sent_requests t)) t, calls, false) else (t, calls, false)
    else (t, [], false) in
  if processed then (t, calls, true)
  else if inv_upd then let '(t, more) := updateTimer_reply code hdrs t in (t, calls ++ more, false)
  else (t, calls, false).

(** [onTimeoutEvent]; [refreshed] is the result of [refresh]. *)
Definition onTimeoutEvent (status : Status) (id : Z) (refreshed : bool) (t : sst) : list sst_call :=
  if bool_decide (status = Disconnecting) || bool_decide (status = Disconnected) then []
  else if id =? ID_SESSION_REFRESH_TIMER then
    if bool_decide (session_refresher t = refresh_local) then if refreshed then [] else retryRefreshTimer else []
  else if id =? ID_SESSION_INTERVAL_TIMER then [CSessionTimeout]
  else [].

(** [process] of a time-out event *)
Definition sst_process (status : Status) (id : Z) (refreshed : bool) (t : sst) : list sst_call :=
  if (-2 <=? id) && (id <=? -1) then onTimeoutEvent status id refreshed t else [].

(** [checkSessionExpires]: what an INVITE is answered, if it is refused. *)
Definition checkSessionExpires (conf : sst_config) (hdrs : list Z) : option (Z * list Z) :=
  let se := getHeader_compact hdrs SIP_HDR_SESSION_EXPIRES SIP_HDR_SESSION_EXPIRES_COMPACT true in
  if bool_decide (se = []) then None
  else match hdr_number se with
       | Some i => if i <? MinimumTimer conf then Some (422, hdr_line (SIP_HDR_MIN_SE, int2str (MinimumTimer conf))) else None
       | None => Some (400, [])
       end.

(** ** The calls on timers

    [AmSession::setTimer], which posts the event at once when the time is over, and
    [removeTimer].  [p] is the address of a new timer object. *)

Definition timer_label (tag : list Z) (c : sst_call) (p : nat) : option app_label :=
  match c with
  | CSetTimer id secs => if secs * 1000000 <=? 5000 then None else Some (LSet tag id (secs * 1000000) p)
  | CRemoveTimer id => Some (LRemove tag id)
  | _ => None
  end.

Definition do_timer (tag : list Z) (s : app_timers) (x : sst_call * nat) : app_timers :=
  match timer_label tag (fst x) (snd x) with
  | Some (LSet q id to p) => setTimer q id to p s
  | Some (LRemove q id) => removeTimer q id s
  | _ => s
  end.

Definition do_timers (tag : list Z) (calls : list (sst_call * nat)) (s : app_timers) : app_timers := fold_left (do_timer tag) calls s.

(** ** The texts of the headers *)

(** A number with a parameter. *)
Lemma number_text n role : is_uint n -> hdr_number (int2str n ++ lit ";refresher=" ++ role) = Some n.
Proof.
  intros Hn. unfold hdr_number, strip_header_params. destruct (int2str_digits n Hn) as (Hne & Hd & _).
  assert (Hs : skip_sp (int2str n ++ lit ";refresher=" ++ role) = int2str n ++ 59 :: lit "refresher=" ++ role).
  { destruct (int2str n) as [|c d]; [done|]. cbn in Hd. apply andb_true_iff in Hd as [Hc%is_digit_range _]. cbn [app skip_sp].
    by rewrite (proj2 (Z.eqb_neq c 32)) by lia. }
  rewrite Hs, until_c_text by (by apply digits_no). by apply str2i_int2str.
Qed.

Lemma number_plain n : is_uint n -> hdr_number (int2str n) = Some n.
Proof.
  intros Hn. unfold hdr_number, strip_header_params. destruct (int2str_digits n Hn) as (Hne & Hd & _).
  assert (Hs : skip_sp (int2str n) = int2str n).
  { destruct (int2str n) as [|c d]; [done|]. cbn in Hd. apply andb_true_iff in Hd as [Hc%is_digit_range _]. cbn [skip_sp].
    by rewrite (proj2 (Z.eqb_neq c 32)) by lia. }
  rewrite Hs, until_c_all by (by apply digits_no). by apply str2i_int2str.
Qed.

Lemma refresher_text n v : is_uint n -> get_header_param (int2str n ++ lit ";refresher=" ++ v) (lit "refresher") = until_param v.
Proof. intros Hn. apply (param_found (int2str n) (lit "refresher") v). by apply digits_no. Qed.

Lemma refresher_none n : is_uint n -> get_header_param (int2str n) (lit "refresher") = [].
Proof. intros Hn. apply param_missing. by apply digits_no. Qed.

(** The headers of an application and of the other handlers of the session: neither
    Session-Expires nor Min-SE, and the option of the timer is not listed as supported yet.
    Other options may be, such as the 100rel that [Am100rel] adds. *)
Record plain_hdrs (l : list (list Z * list Z)) : Prop := {
  ph_good : good_hdrs l;
  ph_no_se : h_values SIP_HDR_SESSION_EXPIRES l = [];
  ph_no_min : h_values SIP_HDR_MIN_SE l = [];
  ph_no_timer : has_option TIMER_OPTION_TAG (h_values SIP_HDR_SUPPORTED l) = false
}.

Lemma good_app l k : good_hdrs l -> good_hdrs k -> good_hdrs (l ++ k).
Proof. unfold good_hdrs. intros Hl Hk. by rewrite forallb_app, Hl, Hk. Qed.

Lemma add_hdr_lines l n v : add_hdr (hdr_lines l) n v = hdr_lines (l ++ [(n, v)]).
Proof. unfold add_hdr. rewrite hdr_lines_app. unfold hdr_lines at 3. cbn. by rewrite app_nil_r. Qed.

Lemma remove_absent l nm : good_hdrs l -> good_name nm = true -> h_values nm l = [] -> fst (removeHeader (hdr_lines l) nm) = hdr_lines l.
Proof. intros Hl Hn Hv. rewrite removeHeader_lines by done. cbn [fst]. by rewrite others_none. Qed.

Definition se_value (t : sst) (to_tag : list Z) : list Z :=
  int2str (session_interval t) ++
  if bool_decide (to_tag = []) then [] else lit ";refresher=" ++ if bool_decide (session_refresher t = refresh_local) then lit "uac" else lit "uas".

(** The headers [l] with the option of the timer. *)
Definition with_supported (l : list (list Z * list Z)) : list (list Z * list Z) := add_option SIP_HDR_SUPPORTED TIMER_OPTION_TAG l.
Definition with_required (l : list (list Z * list Z)) : list (list Z * list Z) := add_option SIP_HDR_REQUIRE TIMER_OPTION_TAG (with_supported l).

(** The headers of a request with [l] that the handler has seen. *)
Definition request_hdrs (t : sst) (to_tag : list Z) (l : list (list Z * list Z)) : list (list Z * list Z) :=
  with_supported l ++ [(SIP_HDR_SESSION_EXPIRES, se_value t to_tag); (SIP_HDR_MIN_SE, int2str (min_se t))].

Lemma good_supported l : plain_hdrs l -> good_hdrs (with_supported l).
Proof. intros [Hl _ _ _]. by apply good_add_option. Qed.

Lemma good_required l : plain_hdrs l -> good_hdrs (with_required l).
Proof. intros Hl. by apply good_add_option; [apply good_supported|]. Qed.

(** Adding options changes no other header. *)
Lemma supported_values nm l : same_name SIP_HDR_SUPPORTED nm = false -> h_values nm (with_supported l) = h_values nm l.
Proof. apply h_values_add_other. Qed.

Lemma required_values nm l : same_name SIP_HDR_REQUIRE nm = false -> same_name SIP_HDR_SUPPORTED nm = false -> h_values nm (with_required l) = h_values nm l.
Proof. intros H1 H2. unfold with_required. rewrite h_values_add_other by done. by apply supported_values. Qed.

(** What the handler makes of the headers of a request. *)
Lemma request_text status m cseq to_tag l t :
  (m = M_INVITE \/ m = M_UPDATE) -> plain_hdrs l ->
  exists t', onSendRequest status m cseq to_tag (hdr_lines l) t = (t', [], hdr_lines (request_hdrs t to_tag l)) /\
    (forall r, sst_set_sent r t' = sst_set_sent r t).
Proof.
  intros Hm Hl. unfold onSendRequest.
  assert (Hb : meth_eqb m M_BYE = false /\ negb (meth_eqb m M_INVITE) && negb (meth_eqb m M_UPDATE) = false) by (by destruct Hm as [-> | ->]).
  destruct Hb as [-> ->]. set (t' := if _ && _ && _ then _ else t).
  assert (Ht : session_interval t' = session_interval t /\ min_se t' = min_se t /\ session_refresher t' = session_refresher t /\ forall r, sst_set_sent r t' = sst_set_sent r t)
    by (unfold t'; by destruct (_ && _ && _)).
  clearbody t'. destruct Ht as (E1 & E2 & E3 & E4). exists t'. split; [|done]. rewrite E1, E2, E3. do 2 f_equal.
  pose proof (good_supported _ Hl) as Hg. destruct Hl as [Hl Hse Hmin _].
  rewrite addOptionTag_lines by done. fold (with_supported l).
  rewrite !remove_absent by (done || by rewrite supported_values). rewrite !add_hdr_lines. unfold request_hdrs. by rewrite <- app_assoc.
Qed.

Lemma good_request t to_tag l : plain_hdrs l -> is_uint (session_interval t) -> is_uint (min_se t) -> good_hdrs (request_hdrs t to_tag l).
Proof.
  intros Hl Hi Hm. apply good_app; [by apply good_supported|]. unfold good_hdrs, good_hdr. cbn [forallb fst snd].
  assert (H1 : good_value (se_value t to_tag) = true) by (apply digits_value; [done|]; repeat case_bool_decide; done).
  assert (H2 : good_value (int2str (min_se t)) = true) by (rewrite <- (app_nil_r (int2str _)); by apply digits_value). by rewrite H1, H2.
Qed.

Lemma tail_values a b :
  let k := [(SIP_HDR_SESSION_EXPIRES, a); (SIP_HDR_MIN_SE, b)] in
  h_values SIP_HDR_SUPPORTED k = [] /\ h_values SIP_HDR_SESSION_EXPIRES k = [a] /\ h_values SIP_HDR_MIN_SE k = [b].
Proof. vm_compute. split_and!; reflexivity. Qed.

(** What the other side reads in it. *)
Lemma request_reads t to_tag l :
  plain_hdrs l -> is_uint (session_interval t) -> is_uint (min_se t) ->
  let hdrs := hdr_lines (request_hdrs t to_tag l) in
  getHeader hdrs SIP_HDR_SESSION_EXPIRES true = se_value t to_tag /\ getHeader hdrs SIP_HDR_MIN_SE true = int2str (min_se t) /\
  key_in_list (getHeader hdrs SIP_HDR_SUPPORTED true) TIMER_OPTION_TAG 44 = true.
Proof.
  intros Hl Hi Hm hdrs. pose proof (good_request t to_tag l Hl Hi Hm) as Hg. unfold hdrs.
  rewrite (getHeader_lines _ SIP_HDR_SESSION_EXPIRES true), (getHeader_lines _ SIP_HDR_MIN_SE true), (getHeader_lines _ SIP_HDR_SUPPORTED true) by done.
  destruct (tail_values (se_value t to_tag) (int2str (min_se t))) as (V1 & V2 & V3). destruct Hl as [Hl Hse Hmin Hno].
  unfold request_hdrs. rewrite !h_values_app, V1, V2, V3, !supported_values, Hse, Hmin, app_nil_r by done. split; [done|]. split; [done|].
  destruct (h_values_added _ _ _ Hno) as (r & Hr & Hd). fold (with_supported l) in Hr. destruct (h_values SIP_HDR_SUPPORTED (with_supported l)) as [|w ws]; [done|].
  injection Hr as ->. by destruct Hd as [-> | [v ->]].
Qed.

Lemma compact_first hdrs nm c v : v <> [] -> getHeader hdrs nm true = v -> getHeader_compact hdrs nm c true = v.
Proof. intros Hv Hg. unfold getHeader_compact. by rewrite Hg, bool_decide_false. Qed.

(** The interval that both sides will use: the smaller wish, but not below either minimum. *)
Definition agreed (t u : sst) : Z :=
  Z.max (Z.min (session_interval t) (SessionExpires (session_timer_conf u))) (Z.max (min_se t) (min_se u)).

(** The request at the other side. *)
Lemma request_in m l t u to_tag :
  (m = M_INVITE \/ m = M_UPDATE) -> plain_hdrs l -> is_uint (session_interval t) -> is_uint (min_se t) ->
  exists u', onSipRequest m (hdr_lines (request_hdrs t to_tag l)) u = (u', sst_removeTimers ++ setTimers u') /\
    session_interval u' = agreed t u /\ min_se u' = Z.max (min_se t) (min_se u) /\ remote_timer_aware u' = true /\
    session_timer_conf u' = session_timer_conf u /\
    (session_refresher u', session_refresher_role u') =
      if negb (bool_decide (to_tag = [])) && bool_decide (session_refresher t = refresh_local) then (refresh_remote, UAC) else (refresh_local, UAS).
Proof.
  intros Hm Hl Hi Hs. unfold onSipRequest, updateTimer_request.
  assert (meth_eqb m M_INVITE || meth_eqb m M_UPDATE = true) as -> by (by destruct Hm as [-> | ->]).
  destruct (request_reads t to_tag l Hl Hi Hs) as (Hse & Hmin & Hsup).
  set (hdrs := hdr_lines (request_hdrs t to_tag l)) in *. clearbody hdrs. rewrite Hsup.
  destruct (int2str_digits _ Hi) as (Hne & _). destruct (int2str_digits _ Hs) as (Hne' & _).
  assert (Hsene : se_value t to_tag <> []) by (unfold se_value; by destruct (int2str (session_interval t))).
  rewrite (compact_first _ _ _ _ Hsene Hse), Hmin, (bool_decide_eq_false_2 _ Hsene), (bool_decide_eq_false_2 _ Hne').
  assert (Hnum : hdr_number (se_value t to_tag) = Some (session_interval t)).
  { unfold se_value. destruct (bool_decide (to_tag = [])); [rewrite app_nil_r; by apply number_plain|by apply number_text]. }
  assert (Hpar : bool_decide (get_header_param (se_value t to_tag) (lit "refresher") = lit "uac") = negb (bool_decide (to_tag = [])) && bool_decide (session_refresher t = refresh_local)).
  { unfold se_value. destruct (bool_decide (to_tag = [])); cbn [negb andb]; [by rewrite app_nil_r, refresher_none|]. rewrite refresher_text by exact Hi.
    by destruct (bool_decide (session_refresher t = refresh_local)). }
  rewrite Hnum, (number_plain _ Hs), Hpar. cbn [default andb negb]. eexists. split; [reflexivity|].
  assert (Hmx : (if min_se u <? min_se t then min_se t else min_se u) = Z.max (min_se t) (min_se u)) by (destruct (Z.ltb_spec (min_se u) (min_se t)); lia).
  destruct (negb _ && _);
    cbn [id sst_set_refresher sst_set_interval sst_set_remote session_interval min_se remote_timer_aware session_timer_conf session_refresher session_refresher_role];
    rewrite Hmx; unfold agreed; split_and!; try reflexivity.
  all: destruct (Z.ltb_spec (session_interval t) (SessionExpires (session_timer_conf u))); match goal with |- context [?a <? ?b] => destruct (Z.ltb_spec a b) end; lia.
Qed.

(** The reply. *)
Definition reply_hdrs (u : sst) (l : list (list Z * list Z)) : list (list Z * list Z) :=
  with_required l ++
  [(SIP_HDR_SESSION_EXPIRES, int2str (session_interval u) ++ lit ";refresher=" ++ if bool_decide (session_refresher_role u = UAC) then lit "uac" else lit "uas")].

Lemma reply_text m l u :
  (m = M_INVITE \/ m = M_UPDATE) -> plain_hdrs l -> remote_timer_aware u = true ->
  (session_refresher_role u = UAC -> session_refresher u = refresh_remote) ->
  onSendReply m 200 (hdr_lines l) u = hdr_lines (reply_hdrs u l).
Proof.
  intros Hm Hl Ha Hr. unfold onSendReply.
  assert ((negb (meth_eqb m M_INVITE) && negb (meth_eqb m M_UPDATE)) || (200 <? 200) || (300 <=? 200) = false) as -> by (by destruct Hm as [-> | ->]).
  assert ((bool_decide (session_refresher_role u = UAC) && bool_decide (session_refresher u = refresh_remote)) ||
    (bool_decide (session_refresher_role u = UAS) && remote_timer_aware u) = true) as ->.
  { rewrite Ha. destruct (session_refresher_role u); [by rewrite Hr|done]. }
  pose proof (good_supported _ Hl) as Hg. pose proof (good_required _ Hl) as Hg'. destruct Hl as [Hl Hse _ _].
  rewrite addOptionTag_lines by done. fold (with_supported l). rewrite addOptionTag_lines by done. fold (with_required l).
  rewrite remove_absent by (done || by rewrite required_values). apply add_hdr_lines.
Qed.

(** The reply at the side that has sent the request. *)
Lemma reply_in old c sent m l u t cseq :
  (m = M_INVITE \/ m = M_UPDATE) -> plain_hdrs l -> is_uint (session_interval u) -> EnableSessionTimer (session_timer_conf t) = true ->
  min_se t <= session_interval u ->
  exists t', onSipReply Connected old c sent m m 200 cseq (hdr_lines (reply_hdrs u l)) t = (t', sst_removeTimers ++ setTimers t', false) /\
    session_interval t' = session_interval u /\ min_se t' = min_se t /\ session_timer_conf t' = session_timer_conf t /\
    session_refresher t' = if bool_decide (session_refresher_role u = UAS) then refresh_remote else refresh_local.
Proof.
  intros Hm Hl Hi He Hle. unfold onSipReply. assert (meth_eqb m M_INVITE || meth_eqb m M_UPDATE = true) as -> by (by destruct Hm as [-> | ->]).
  rewrite He. cbn [andb]. change (200 =? 422) with false. change (200 <=? 200) with true. cbn [andb].
  set (se := int2str (session_interval u) ++ lit ";refresher=" ++ if bool_decide (session_refresher_role u = UAC) then lit "uac" else lit "uas").
  assert (Hse : getHeader (hdr_lines (reply_hdrs u l)) SIP_HDR_SESSION_EXPIRES true = se).
  { assert (Hg : good_hdrs [(SIP_HDR_SESSION_EXPIRES, se)]).
    { unfold good_hdrs, good_hdr. cbn [forallb fst snd].
      assert (good_value se = true) as ->; [|done]. apply digits_value; [done|]. by destruct (bool_decide (session_refresher_role u = UAC)). }
    rewrite (getHeader_lines _ SIP_HDR_SESSION_EXPIRES true); [|by apply good_app; [apply good_required|]|done].
    unfold reply_hdrs. fold se. rewrite h_values_app, required_values by done. by rewrite (ph_no_se _ Hl). }
  set (hdrs := hdr_lines (reply_hdrs u l)) in *. clearbody hdrs.
  assert (Hne : se <> []) by (unfold se; destruct (int2str_digits _ Hi) as [? _]; by destruct (int2str (session_interval u))).
  assert (Hnum : hdr_number se = Some (session_interval u)) by (by apply number_text).
  assert (Hpar : bool_decide (get_header_param se (lit "refresher") = lit "uas") = bool_decide (session_refresher_role u = UAS)).
  { unfold se. rewrite refresher_text by done. by destruct (session_refresher_role u). }
  clearbody se. clear Hl Hm.
  assert (Hupd : forall t0, session_timer_conf t0 = session_timer_conf t -> min_se t0 = min_se t ->
    exists t', updateTimer_reply 200 hdrs t0 = (t', sst_removeTimers ++ setTimers t') /\ session_interval t' = session_interval u /\ min_se t' = min_se t /\
      session_timer_conf t' = session_timer_conf t /\ session_refresher t' = if bool_decide (session_refresher_role u = UAS) then refresh_remote else refresh_local).
  { intros t0 E1 E2. unfold updateTimer_reply. rewrite E1, He. change ((200 <? 200) || (300 <=? 200)) with false. cbn [negb andb].
    rewrite (compact_first _ _ _ _ Hne Hse), (bool_decide_eq_false_2 _ Hne), Hnum, Hpar. eexists. split; [reflexivity|].
    assert (Hlt : (session_interval u <? min_se t0) = false) by (apply Z.ltb_ge; lia).
    destruct (bool_decide (session_refresher_role u = UAS));
      cbn [sst_set_refresher sst_set_interval session_interval min_se session_timer_conf session_refresher]; rewrite Hlt; by split_and!. }
  destruct (negb (bool_decide (old = Connected))).
  - destruct (Hupd (sst_set_sent (base.delete cseq (sent_requests t)) t) eq_refl eq_refl) as (t' & -> & H). by exists t'.
  - destruct (Hupd t eq_refl eq_refl) as (t' & -> & H). by exists t'.
Qed.

(** ** The two sides *)

(** A request of [A] to [B] and its 200: both sides with their calls. *)
Definition exchange (old : Status) (m : sip_meth) (cseq : Z) (to_tag : list Z) (l l' : list (list Z * list Z)) (A B : sst)
  : sst * list sst_call * (sst * list sst_call) :=
  let '(A, _, h) := onSendRequest old m cseq to_tag (hdr_lines l) A in
  let '(B, calls_b) := onSipRequest m h B in
  let '(A, calls_a, _) := onSipReply Connected old 0 true m m 200 cseq (onSendReply m 200 (hdr_lines l') B) A in
  (A, calls_a, (B, calls_b)).

(** [X] refreshes a session with [Y] that both let expire after [I] seconds. *)
Record in_step (I : Z) (X Y : sst) : Prop := {
  is_local : session_refresher X = refresh_local;
  is_remote : session_refresher Y = refresh_remote;
  is_interval : session_interval X = I /\ session_interval Y = I;
  is_enabled : EnableSessionTimer (session_timer_conf X) = true /\ EnableSessionTimer (session_timer_conf Y) = true;
  is_range : is_uint I /\ is_uint (min_se X) /\ is_uint (min_se Y);
  is_agreed : I = Z.max (Z.min I (SessionExpires (session_timer_conf Y))) (Z.max (min_se X) (min_se Y)) /\
              I = Z.max (Z.min I (SessionExpires (session_timer_conf X))) (Z.max (min_se X) (min_se Y))
}.

(** What the two sides have to ask of their sessions then. *)
Definition refresher_calls (I : Z) : list sst_call :=
  sst_removeTimers ++ [CSetTimer ID_SESSION_INTERVAL_TIMER I; CSetTimer ID_SESSION_REFRESH_TIMER (I / 2)].
Definition other_calls (I : Z) : list sst_call := sst_removeTimers ++ [CSetTimer ID_SESSION_INTERVAL_TIMER I].

Lemma sent_same t t' : (forall r, sst_set_sent r t' = sst_set_sent r t) ->
  session_interval t' = session_interval t /\ min_se t' = min_se t /\ session_timer_conf t' = session_timer_conf t.
Proof. intros H. specialize (H ∅). unfold sst_set_sent in H. injection H. by intros. Qed.

(** The initial INVITE. *)
Lemma initial_exchange A B l l' cseq :
  plain_hdrs l -> plain_hdrs l' -> EnableSessionTimer (session_timer_conf A) = true -> EnableSessionTimer (session_timer_conf B) = true ->
  session_interval A = SessionExpires (session_timer_conf A) ->
  is_uint (session_interval A) -> is_uint (SessionExpires (session_timer_conf B)) -> is_uint (min_se A) -> is_uint (min_se B) ->
  let I := agreed A B in
  let '(A', calls_a, (B', calls_b)) := exchange Disconnected M_INVITE cseq [] l l' A B in
  in_step I B' A' /\ calls_a = other_calls I /\ calls_b = refresher_calls I.
Proof.
  intros Hl Hl' HeA HeB Hconf Hi HseB HmA HmB I. unfold exchange.
  destruct (request_text Disconnected M_INVITE cseq [] l A (or_introl eq_refl) Hl) as (A1 & -> & HA1%sent_same).
  destruct (request_in M_INVITE l A B [] (or_introl eq_refl) Hl Hi HmA) as (B1 & -> & E1 & E2 & E3 & E4 & [= E5 E6]).
  assert (HI : is_uint I) by (unfold I, agreed, is_uint in *; lia). fold I in E1.
  rewrite reply_text; [|by left|done|done|congruence]. destruct HA1 as (F1 & F2 & F3).
  destruct (reply_in Disconnected 0 true M_INVITE l' B1 A1 cseq (or_introl eq_refl) Hl') as (A2 & -> & G1 & G2 & G3 & G4);
    [by rewrite E1|by rewrite F3|rewrite E1, F2; unfold I, agreed; lia|].
  rewrite E6, bool_decide_true in G4 by done. rewrite E1 in G1. rewrite F2 in G2. rewrite F3 in G3. unfold setTimers. rewrite E5, G4, E1, G1. split_and!; [|done|done].
  constructor; try done; [by rewrite E4, G3|rewrite E2, G2; unfold is_uint in *; lia|]. rewrite G3, E4, E2, G2, <- Hconf. unfold I, agreed. lia.
Qed.

(** A request of the refresher. *)
Lemma refresher_exchange I X Y m l l' cseq to_tag :
  (m = M_INVITE \/ m = M_UPDATE) -> plain_hdrs l -> plain_hdrs l' -> to_tag <> [] -> in_step I X Y ->
  let '(X', calls_x, (Y', calls_y)) := exchange Connected m cseq to_tag l l' X Y in
  in_step I X' Y' /\ calls_x = refresher_calls I /\ calls_y = other_calls I.
Proof.
  intros Hm Hl Hl' Htag [HX HY [IX IY] [EX EY] (HI & HmX & HmY) [Hag Hag']]. unfold exchange.
  destruct (request_text Connected m cseq to_tag l X Hm Hl) as (X1 & -> & HX1%sent_same).
  destruct (request_in m l X Y to_tag Hm Hl ltac:(by rewrite IX) HmX) as (Y1 & -> & E1 & E2 & E3 & E4 & E56).
  rewrite (bool_decide_false (to_tag = [])), HX in E56 by done. cbn in E56. injection E56 as E5 E6.
  assert (HA : agreed X Y = I) by (unfold agreed; rewrite IX; lia). rewrite HA in E1.
  rewrite reply_text; [|done|done|done|done]. destruct HX1 as (F1 & F2 & F3).
  destruct (reply_in Connected 0 true m l' Y1 X1 cseq Hm Hl') as (X2 & -> & G1 & G2 & G3 & G4); [by rewrite E1|by rewrite F3|rewrite E1, F2; lia|].
  rewrite E6, bool_decide_false in G4 by done. rewrite E1 in G1. rewrite F2 in G2. rewrite F3 in G3. unfold setTimers. rewrite E5, G4, E1, G1. split_and!; [|done|done].
  constructor; try done; [by rewrite E4, G3|rewrite E2, G2; unfold is_uint in *; lia|]. rewrite E4, E2, G2, G3. lia.
Qed.

(** A request of the other side. *)
Lemma other_exchange I X Y m l l' cseq to_tag :
  (m = M_INVITE \/ m = M_UPDATE) -> plain_hdrs l -> plain_hdrs l' -> to_tag <> [] -> in_step I X Y ->
  let '(Y', calls_y, (X', calls_x)) := exchange Connected m cseq to_tag l l' Y X in
  in_step I X' Y' /\ calls_x = refresher_calls I /\ calls_y = other_calls I.
Proof.
  intros Hm Hl Hl' Htag [HX HY [IX IY] [EX EY] (HI & HmX & HmY) [Hag Hag']]. unfold exchange.
  destruct (request_text Connected m cseq to_tag l Y Hm Hl) as (Y1 & -> & HY1%sent_same).
  destruct (request_in m l Y X to_tag Hm Hl ltac:(by rewrite IY) HmY) as (X1 & -> & E1 & E2 & E3 & E4 & E56).
  rewrite (bool_decide_false (to_tag = [])), HY in E56 by done. cbn in E56. injection E56 as E5 E6.
  assert (HA : agreed Y X = I) by (unfold agreed; rewrite IY; lia). rewrite HA in E1.
  rewrite reply_text; [|done|done|done|congruence]. destruct HY1 as (F1 & F2 & F3).
  destruct (reply_in Connected 0 true m l' X1 Y1 cseq Hm Hl') as (Y2 & -> & G1 & G2 & G3 & G4); [by rewrite E1|by rewrite F3|rewrite E1, F2; lia|].
  rewrite E6, bool_decide_true in G4 by done. rewrite E1 in G1. rewrite F2 in G2. rewrite F3 in G3. unfold setTimers. rewrite E5, G4, E1, G1. split_and!; [|done|done].
  constructor; try done; [by rewrite E4, G3|rewrite E2, G2; unfold is_uint in *; lia|]. rewrite E4, E2, G2, G3. lia.
Qed.

(** C17: the two ends of a session agree on its timer.  When one side, whose interval is still
    the configured one, sends the initial INVITE and the other one answers it with 200, each
    through its enabled session timer and with headers of their applications and other
    handlers ([plain_hdrs]), both use the same interval, which is the smaller of what they
    wish but not below what either requires; the answering side is the refresher and the
    other one is not; both set the timer after which the session has expired to the interval,
    and the refresher the timer of its refresh to half of it.  A later re-INVITE or UPDATE
    that is answered with 200, sent by the refresher or by the other side, keeps the interval
    and the refresher and sets the timers again. *)
Theorem session_timers_agree :
  (forall A B l l' cseq,
     plain_hdrs l -> plain_hdrs l' -> EnableSessionTimer (session_timer_conf A) = true -> EnableSessionTimer (session_timer_conf B) = true ->
     session_interval A = SessionExpires (session_timer_conf A) ->
     is_uint (session_interval A) -> is_uint (SessionExpires (session_timer_conf B)) -> is_uint (min_se A) -> is_uint (min_se B) ->
     let I := agreed A B in
     let '(A', calls_a, (B', calls_b)) := exchange Disconnected M_INVITE cseq [] l l' A B in
     in_step I B' A' /\ calls_a = other_calls I /\ calls_b = refresher_calls I) /\
  (forall I X Y m l l' cseq to_tag,
     (m = M_INVITE \/ m = M_UPDATE) -> plain_hdrs l -> plain_hdrs l' -> to_tag <> [] -> in_step I X Y ->
     (let '(X', calls_x, (Y', calls_y)) := exchange Connected m cseq to_tag l l' X Y in
      in_step I X' Y' /\ calls_x = refresher_calls I /\ calls_y = other_calls I) /\
     (let '(Y', calls_y, (X', calls_x)) := exchange Connected m cseq to_tag l l' Y X in
      in_step I X' Y' /\ calls_x = refresher_calls I /\ calls_y = other_calls I)).
Proof.
  split; [exact initial_exchange|]. intros I X Y m l l' cseq to_tag Hm Hl Hl' Htag Hs.
  split; [by apply refresher_exchange|by apply other_exchange].
Qed.

(** ** An interval that is too small *)

Lemma min_values a : h_values SIP_HDR_MIN_SE [(SIP_HDR_MIN_SE, a)] = [a].
Proof. vm_compute. reflexivity. Qed.

Lemma check_request conf t l to_tag :
  plain_hdrs l -> is_uint (session_interval t) -> is_uint (min_se t) ->
  checkSessionExpires conf (hdr_lines (request_hdrs t to_tag l)) =
  if session_interval t <? MinimumTimer conf then Some (422, hdr_lines [(SIP_HDR_MIN_SE, int2str (MinimumTimer conf))]) else None.
Proof.
  intros Hl Hi Hs. unfold checkSessionExpires. destruct (request_reads t to_tag l Hl Hi Hs) as (Hse & _).
  assert (Hne : se_value t to_tag <> []) by (unfold se_value; destruct (int2str_digits _ Hi) as [? _]; by destruct (int2str (session_interval t))).
  assert (Hnum : hdr_number (se_value t to_tag) = Some (session_interval t)).
  { unfold se_value. destruct (bool_decide (to_tag = [])); [rewrite app_nil_r; by apply number_plain|by apply number_text]. }
  rewrite (compact_first _ _ _ _ Hne Hse), (bool_decide_eq_false_2 _ Hne), Hnum. destruct (_ <? _); [|done].
  do 2 f_equal. unfold hdr_lines. cbn [map concat]. by rewrite app_nil_r.
Qed.

(** C19: a session interval that is too small is corrected in one more round.  An initial
    INVITE, sent through an enabled session timer with [plain_hdrs], whose interval is below
    the minimum of the other side is answered with 422 and that minimum; if that minimum is
    not above the own maximum and the INVITE can be sent, it is sent again with it, under the
    dialog's next CSeq [c], the old entry is dropped, and the other side does not refuse it.
    A minimum above the own maximum ends the attempt, as the code means to. *)
Theorem too_small_retried A conf l cseq old c :
  plain_hdrs l -> EnableSessionTimer (session_timer_conf A) = true -> is_uint (session_interval A) -> is_uint (min_se A) -> is_uint (MinimumTimer conf) ->
  session_interval A < MinimumTimer conf <= MaximumTimer (session_timer_conf A) -> c <> cseq ->
  exists hdrs h,
    let '(A1, _, sent) := onSendRequest Disconnected M_INVITE cseq [] (hdr_lines l) A in
    checkSessionExpires conf sent = Some (422, hdrs) /\
    let '(A2, calls, processed) := onSipReply Disconnected old c true M_INVITE M_INVITE 422 cseq hdrs A1 in
    processed = true /\ calls = [CClearRemoteTag; CSendRequest M_INVITE h; CSetStatus old; CUpdateCSeq cseq c] /\
    checkSessionExpires conf h = None /\ session_interval A2 = MinimumTimer conf /\
    sent_requests A2 !! cseq = None /\ sent_requests A2 !! c = Some (M_INVITE, hdr_lines l).
Proof.
  intros Hl He Hi Hm Hmin Hrange Hc. set (n := MinimumTimer conf) in *.
  exists (hdr_lines [(SIP_HDR_MIN_SE, int2str n)]).
  pose proof (request_text Disconnected M_INVITE cseq [] l A (or_introl eq_refl) Hl) as (A1 & HA1 & Hsame%sent_same). rewrite HA1.
  assert (HA : A1 = sst_set_sent (<[cseq := (M_INVITE, hdr_lines l)]> (sent_requests A)) A).
  { unfold onSendRequest in HA1. rewrite He in HA1. change (meth_eqb M_INVITE M_BYE) with false in HA1. change (meth_eqb M_INVITE M_INVITE) with true in HA1. cbn [orb andb negb] in HA1.
    rewrite bool_decide_true in HA1 by done. by injection HA1 as <- _. }
  clear HA1. destruct Hsame as (F1 & F2 & F3). rewrite check_request by done. fold n. rewrite (proj2 (Z.ltb_lt _ _)) by lia.
  set (A' := sst_set_interval n A1).
  destruct (request_text Disconnected M_INVITE c [] l A' (or_introl eq_refl) Hl) as (A3 & HA3 & Hsame3%sent_same).
  exists (hdr_lines (request_hdrs A' [] l)). split; [done|].
  assert (Hnum : getHeader (hdr_lines [(SIP_HDR_MIN_SE, int2str n)]) SIP_HDR_MIN_SE true = int2str n).
  { assert (Hg : good_hdrs [(SIP_HDR_MIN_SE, int2str n)]).
    { unfold good_hdrs, good_hdr. cbn [forallb fst snd]. assert (good_value (int2str n) = true) as ->; [|done]. rewrite <- (app_nil_r (int2str n)). by apply digits_value. }
    rewrite (getHeader_lines _ SIP_HDR_MIN_SE true) by done. by rewrite min_values. }
  assert (Hne : int2str n <> []) by (by destruct (int2str_digits n Hmin)).
  unfold onSipReply. rewrite F3, He. change (meth_eqb M_INVITE M_INVITE || meth_eqb M_INVITE M_UPDATE) with true. change (422 =? 422) with true.
  rewrite bool_decide_false by done. cbn [andb negb]. unfold interval_too_small. rewrite Hnum, (bool_decide_eq_false_2 _ Hne), (number_plain n Hmin), F3.
  rewrite (proj2 (Z.leb_le _ _)) by lia. fold A'. unfold resend.
  assert (HS : sent_requests A' = <[cseq := (M_INVITE, hdr_lines l)]> (sent_requests A)) by (unfold A'; by rewrite HA).
  rewrite HS, lookup_insert_eq, HA3. cbn [app].
  assert (HS3 : sent_requests A3 = <[c := (M_INVITE, hdr_lines l)]> (sent_requests A')).
  { unfold onSendRequest in HA3. change (session_timer_conf A') with (session_timer_conf A1) in HA3. rewrite F3, He in HA3.
    change (meth_eqb M_INVITE M_BYE) with false in HA3. change (meth_eqb M_INVITE M_INVITE) with true in HA3. cbn [orb andb negb] in HA3. rewrite bool_decide_true in HA3 by done. by injection HA3 as <- _. }
  destruct Hsame3 as (G1 & _ & _). split_and!; try done.
  - rewrite check_request; [|done|done|by rewrite <- F2 in Hm]. change (session_interval A') with n. by rewrite Z.ltb_irrefl.
  - cbn [sst_set_sent sent_requests]. apply lookup_delete_eq.
  - cbn [sst_set_sent sent_requests]. rewrite HS3. rewrite lookup_delete_ne by congruence. apply lookup_insert_eq.
Qed.

(** ** A session that is not refreshed expires *)

Lemma app_run_snoc ls s s1 l s2 : app_run ls s s1 -> enabled l s1 = true -> app_do l s1 = Some s2 -> app_run (ls ++ [l]) s s2.
Proof. induction 1; intros He Hd; cbn; econstructor; eauto. constructor. Qed.

Lemma reach_step l s s' : app_reach s -> enabled l s = true -> app_do l s = Some s' -> app_reach s'.
Proof. intros [ls Hr] He Hd. exists (ls ++ [l]). by eapply app_run_snoc. Qed.

Lemma setTimer_heap q id to p s : at_heap (setTimer q id to p s) = <[p := AppT q id]> (at_heap s).
Proof.
  unfold setTimer. pose proof (erase_spec q id s) as (_ & _ & _ & Hh & _). destruct (erase_timer q id s) as [s1 old]. cbn in *. by rewrite Hh.
Qed.

Lemma ticks_of_seconds I : 0 < I <= MAX_TIMER_SECONDS -> timeout_ticks (I * 1000000) = 50 * I.
Proof.
  intros HI. unfold timeout_ticks, TIMER_RESOLUTION. rewrite (proj2 (Z.ltb_ge _ _)) by lia. rewrite (proj2 (Z.ltb_ge _ _)) by lia.
  replace (I * 1000000) with ((50 * I) * 20000) by lia. by apply Z.div_mul.
Qed.

(** The messages on which the handler sets its timers anew: an INVITE or UPDATE that has
    arrived, and a 2xx to one that was sent. *)
Inductive renews (t : sst) : sst -> list sst_call -> Prop :=
| rn_request m hdrs t' calls :
    m = M_INVITE \/ m = M_UPDATE -> onSipRequest m hdrs t = (t', calls) -> renews t t' calls
| rn_reply status old c sent req_m m code cseq hdrs t' calls :
    m = M_INVITE \/ m = M_UPDATE -> 200 <= code < 300 -> EnableSessionTimer (session_timer_conf t) = true ->
    onSipReply status old c sent req_m m code cseq hdrs t = (t', calls, false) -> renews t t' calls.

Lemma renews_calls t t' calls : renews t t' calls -> calls = sst_removeTimers ++ setTimers t'.
Proof.
  intros [m hdrs u cs Hm H|status old c sent rm m code cseq hdrs u cs Hm Hc He H].
  - unfold onSipRequest, updateTimer_request in H. assert (Hmb : meth_eqb m M_INVITE || meth_eqb m M_UPDATE = true) by (by destruct Hm as [-> | ->]).
    rewrite Hmb in H. cbv zeta in H. by injection H as <- <-.
  - unfold onSipReply in H. assert (Hmb : meth_eqb m M_INVITE || meth_eqb m M_UPDATE = true) by (by destruct Hm as [-> | ->]). rewrite Hmb, He in H.
    cbn [andb] in H. rewrite (proj2 (Z.eqb_neq code 422)) in H by lia. cbn [andb] in H.
    assert (Hu : forall t0 u calls, session_timer_conf t0 = session_timer_conf t -> updateTimer_reply code hdrs t0 = (u, calls) -> calls = sst_removeTimers ++ setTimers u).
    { clear H. intros t0 u' calls0 E H. unfold updateTimer_reply in H. rewrite E, He, (proj2 (Z.ltb_ge code 200)), (proj2 (Z.leb_gt 300 code)) in H by lia.
      cbn [negb orb andb] in H. cbv zeta in H. by injection H as <- <-. }
    destruct ((200 <=? code) && _).
    + destruct (updateTimer_reply _ _ _) as [u' more] eqn:E in H. apply Hu in E; [|done]. injection H as <- <-. exact E.
    + destruct (updateTimer_reply _ _ _) as [u' more] eqn:E in H. apply Hu in E; [|done]. injection H as <- <-. exact E.
Qed.

(** The timers after such a message: the interval is set first, the refresh only by the
    refresher. *)
Lemma renewed_timers tag t p1 p2 s :
  0 < session_interval t ->
  let s0 := removeTimer tag ID_SESSION_INTERVAL_TIMER (removeTimer tag ID_SESSION_REFRESH_TIMER s) in
  let s1 := setTimer tag ID_SESSION_INTERVAL_TIMER (session_interval t * 1000000) p1 s0 in
  do_timers tag (zip (sst_removeTimers ++ setTimers t) [0; 0; p1; p2]%nat) s =
  if bool_decide (session_refresher t = refresh_local) && (0 <? session_interval t / 2)
  then setTimer tag ID_SESSION_REFRESH_TIMER (session_interval t / 2 * 1000000) p2 s1 else s1.
Proof.
  intros HI s0 s1. unfold sst_removeTimers, setTimers.
  assert (Hb : (session_interval t * 1000000 <=? 5000) = false) by (apply Z.leb_gt; lia).
  case_bool_decide; cbn [app zip zip_with andb]; unfold do_timers; cbn [fold_left]; unfold do_timer; cbn [timer_label fst snd]; rewrite Hb; [|done].
  assert (Hd : 0 <= session_interval t / 2) by (apply Z.div_pos; lia).
  destruct (Z.ltb_spec 0 (session_interval t / 2)) as [Hp|Hp].
  - by rewrite (proj2 (Z.leb_gt _ _)) by lia.
  - by rewrite (proj2 (Z.leb_le _ _)) by lia.
Qed.

(** After the old timers were removed. *)
Lemma removed_both tag k s :
  app_reach s ->
  let s0 := removeTimer tag ID_SESSION_INTERVAL_TIMER (removeTimer tag ID_SESSION_REFRESH_TIMER s) in
  app_reach s0 /\ clock s0 = clock s /\ at_heap s0 = at_heap s /\ posts k s0 = posts k s.
Proof.
  intros Hr s0. pose proof (reach_step (LRemove tag ID_SESSION_REFRESH_TIMER) s _ Hr eq_refl eq_refl) as Hr1.
  pose proof (reach_step (LRemove tag ID_SESSION_INTERVAL_TIMER) _ _ Hr1 eq_refl eq_refl) as Hr2. cbn [app_do] in Hr1, Hr2. split; [done|].
  destruct Hr as [ls0 Hr0]. pose proof (run_inv _ _ _ Hr0 app_init_inv) as Hs.
  destruct (removeTimer_spec tag ID_SESSION_REFRESH_TIMER s Hs) as (Hsa & (_ & E1 & E2) & E3 & _).
  destruct (removeTimer_spec tag ID_SESSION_INTERVAL_TIMER _ Hsa) as (_ & (_ & F1 & F2) & F3 & _). fold s0 in F1, F2, F3.
  unfold clock. rewrite F2, E2, F3, E3. split_and!; try done. unfold posts. by rewrite F1, E1.
Qed.

(** C18: a session that is not refreshed expires, at its time.  When an INVITE or UPDATE that
    arrives, or a 2xx to one that was sent, has gone through the handler and its calls on the
    timers of the session were carried out, then with the interval [I] it has stored: as long
    as nothing sets or removes the timer of the interval, its event is not posted before [I]
    seconds (50 ticks each) have passed, and it has been posted exactly once when the timers
    of that tick were fired; the refresher's event to refresh the session comes in the same
    way after [I / 2] seconds.  In a session that is not being ended the first event times the
    session out, and the second one makes the refresher refresh it, again in two seconds when
    that fails.  [I] is not above the longest timer, and the clock does not wrap meanwhile. *)
Theorem session_expires tag t t' calls p1 p2 s ls s' status refreshed :
  let I := session_interval t' in
  let k := AppT tag ID_SESSION_INTERVAL_TIMER in
  let r := AppT tag ID_SESSION_REFRESH_TIMER in
  renews t t' calls -> 0 < I <= MAX_TIMER_SECONDS -> clock s + 50 * I < u32_mod ->
  app_reach s -> at_heap s !! p1 = None -> at_heap s !! p2 = None -> p1 <> p2 ->
  app_run ls (do_timers tag (zip calls [0; 0; p1; p2]%nat) s) s' ->
  status <> Disconnecting -> status <> Disconnected ->
  (Forall (fun l => touches l k = false) ls ->
     (clock s' < clock s + 50 * I -> posts k s' = posts k s) /\
     (clock s + 50 * I <= clock s' -> at_firing s' = [] -> posts k s' = S (posts k s))) /\
  (session_refresher t' = refresh_local -> 1 < I -> Forall (fun l => touches l r = false) ls ->
     (clock s' < clock s + 50 * (I / 2) -> posts r s' = posts r s) /\
     (clock s + 50 * (I / 2) <= clock s' -> at_firing s' = [] -> posts r s' = S (posts r s))) /\
  sst_process status ID_SESSION_INTERVAL_TIMER refreshed t' = [CSessionTimeout] /\
  (session_refresher t' = refresh_local ->
     sst_process status ID_SESSION_REFRESH_TIMER refreshed t' = if refreshed then [] else [CSetTimer ID_SESSION_REFRESH_TIMER 2]).
Proof.
  intros I k r Hren%renews_calls HI Hmax Hr Hp1 Hp2 Hne Hrun Hst1 Hst2. subst calls.
  destruct (removed_both tag k s Hr) as (Hr0 & C1 & C2 & C3). destruct (removed_both tag r s Hr) as (_ & _ & _ & C4).
  rewrite renewed_timers in Hrun by lia. fold I in Hrun. set (s0 := removeTimer tag ID_SESSION_INTERVAL_TIMER _) in *.
  set (s1 := setTimer tag ID_SESSION_INTERVAL_TIMER (I * 1000000) p1 s0) in *.
  assert (En1 : at_heap s1 !! p2 = None) by (unfold s1; rewrite setTimer_heap, C2; by rewrite lookup_insert_ne).
  split_and!; [| |unfold sst_process, onTimeoutEvent; by rewrite !bool_decide_false by done|
    intros Hloc; unfold sst_process, onTimeoutEvent; rewrite !(bool_decide_false (status = _)) by done; by rewrite Hloc, bool_decide_true].
  - intros Hls. assert (Hlater : exists ls1, app_run ls1 s1 s' /\ Forall (fun l => touches l k = false) ls1).
    { destruct (bool_decide _ && _); [|by exists ls]. exists (LSet tag ID_SESSION_REFRESH_TIMER (I / 2 * 1000000) p2 :: ls). split.
      - econstructor; [|reflexivity|exact Hrun]. cbn. by apply bool_decide_eq_true.
      - constructor; [|done]. cbn. by rewrite bool_decide_true. }
    destruct Hlater as (ls1 & Hrun1 & Hls1).
    destruct (timer_goes_off s0 tag ID_SESSION_INTERVAL_TIMER (I * 1000000) p1 ls1 s') as [H1 H2]; [done|by rewrite C2|rewrite C1, ticks_of_seconds by done; lia|done|done|].
    rewrite C1, ticks_of_seconds in H1, H2 by done. rewrite Z.max_r in H1, H2 by lia. fold k in H1, H2. rewrite C3 in H1, H2. by split.
  - intros Hloc HI1 Hls. assert (Hh : 0 < I / 2 <= I) by (split; [apply Z.div_str_pos; lia|apply Z.div_le_upper_bound; lia]).
    rewrite Hloc, bool_decide_true in Hrun by done. rewrite (proj2 (Z.ltb_lt _ _)) in Hrun by lia. cbn [andb] in Hrun.
    assert (Hs1 : app_reach s1 /\ clock s1 = clock s /\ posts r s1 = posts r s).
    { assert (Hen : enabled (LSet tag ID_SESSION_INTERVAL_TIMER (I * 1000000) p1) s0 = true) by (cbn; rewrite C2; by apply bool_decide_eq_true).
      split; [exact (reach_step _ s0 s1 Hr0 Hen eq_refl)|]. destruct Hr0 as [ls0 Hr0]. pose proof (run_inv _ _ _ Hr0 app_init_inv) as Hs.
      destruct (setTimer_spec tag ID_SESSION_INTERVAL_TIMER (I * 1000000) p1 s0 Hs ltac:(by rewrite C2)) as (_ & (_ & R2 & R3) & _). fold s1 in R2, R3.
      split; [rewrite <- C1; unfold clock; by rewrite R3|]. rewrite <- C4. unfold posts. by rewrite R2. }
    destruct Hs1 as (Hr1 & D1 & D2).
    destruct (timer_goes_off s1 tag ID_SESSION_REFRESH_TIMER (I / 2 * 1000000) p2 ls s') as [H1 H2]; [done|done|rewrite D1, ticks_of_seconds by lia; lia|done|done|].
    rewrite D1, ticks_of_seconds in H1, H2 by lia. rewrite Z.max_r in H1, H2 by lia. fold r in H1, H2. rewrite D2 in H1, H2. by split.
Qed.

(** ** Headers that are not seen *)

(** A second Supported header is not read, nor is one with the compact name: the peer's support
    of the extension goes unnoticed, and it is not left to refresh the session although it asks
    for it. *)
Theorem compact_supported_unseen :
  let t := sst_new sst_default true false UAC in
  let se := (SIP_HDR_SESSION_EXPIRES, lit "100;refresher=uac") in
  session_refresher (fst (onSipRequest M_INVITE (hdr_lines [(SIP_HDR_SUPPORTED, TIMER_OPTION_TAG); se]) t)) = refresh_remote /\
  session_refresher (fst (onSipRequest M_INVITE (hdr_lines [(lit "k", TIMER_OPTION_TAG); se]) t)) = refresh_local /\
  session_refresher (fst (onSipRequest M_INVITE (hdr_lines [(SIP_HDR_SUPPORTED, lit "100rel"); (SIP_HDR_SUPPORTED, TIMER_OPTION_TAG); se]) t)) = refresh_local.
Proof. vm_compute. split_and!; reflexivity. Qed.

(** ** Witnesses *)

Definition demo_a : sst := sst_new (mk_sst_config true 1800 90 3600) true false UAC.
Definition demo_b : sst := sst_new (mk_sst_config true 600 120 900) true false UAC.

(** With the option that [Am100rel] adds. *)
Definition demo_app : list (list Z * list Z) := [(lit "X-A", lit "1"); (SIP_HDR_SUPPORTED, lit "100rel")].

Lemma demo_plain : plain_hdrs demo_app.
Proof. split; vm_compute; reflexivity. Qed.

Lemma session_timers_agree_witness :
  let '(A', calls_a, (B', calls_b)) := exchange Disconnected M_INVITE 10 [] demo_app [] demo_a demo_b in
  in_step 600 B' A' /\ calls_a = other_calls 600 /\ calls_b = refresher_calls 600.
Proof.
  apply (proj1 session_timers_agree demo_a demo_b demo_app [] 10);
    [exact demo_plain|done|done|done|done|unfold is_uint; vm_compute; split; congruence..].
Defined.

Lemma too_small_retried_witness :
  exists hdrs h,
    let '(A1, _, sent) := onSendRequest Disconnected M_INVITE 10 [] (hdr_lines demo_app) (sst_set_interval 60 demo_a) in
    checkSessionExpires (session_timer_conf demo_b) sent = Some (422, hdrs) /\
    let '(A2, calls, processed) := onSipReply Disconnected Trying 11 true M_INVITE M_INVITE 422 10 hdrs A1 in
    processed = true /\ calls = [CClearRemoteTag; CSendRequest M_INVITE h; CSetStatus Trying; CUpdateCSeq 10 11] /\
    checkSessionExpires (session_timer_conf demo_b) h = None /\ session_interval A2 = 120 /\
    sent_requests A2 !! 10 = None /\ sent_requests A2 !! 11 = Some (M_INVITE, hdr_lines demo_app).
Proof.
  apply (too_small_retried (sst_set_interval 60 demo_a) (session_timer_conf demo_b) demo_app 10 Trying 11);
    [exact demo_plain|done|unfold is_uint; vm_compute; split; congruence..|done].
Defined.

(** A session of two seconds, after an INVITE without Session-Expires. *)
Definition demo_short : sst := sst_new (mk_sst_config true 2 1 900) true false UAC.
Definition demo_renewed : sst * list sst_call := onSipRequest M_INVITE (hdr_lines demo_app) demo_short.
Definition demo_expired : app_timers :=
  default app_init (app_exec (repeat LTick 50 ++ [LFire] ++ repeat LTick 50 ++ [LFire])
                      (do_timers [97] (zip (snd demo_renewed) [0; 0; 5; 6]%nat) app_init)).

Lemma session_expires_witness :
  posts (AppT [97] (-1)) demo_expired = 1%nat /\ posts (AppT [97] (-2)) demo_expired = 1%nat.
Proof.
  assert (Hls : forall k, Forall (fun l => touches l k = false) (repeat LTick 50 ++ [LFire] ++ repeat LTick 50 ++ [LFire])).
  { intros k. cbn [repeat app]. repeat constructor. }
  destruct (session_expires [97] demo_short (fst demo_renewed) (snd demo_renewed) 5 6 app_init
              (repeat LTick 50 ++ [LFire] ++ repeat LTick 50 ++ [LFire]) demo_expired Connected true) as (H1 & H2 & _);
    [eapply (rn_request demo_short M_INVITE (hdr_lines demo_app)); [by left|reflexivity] | done | done | exists []; constructor | done | done | done
    | apply app_exec_run; vm_compute; reflexivity | done | done |].
  split.
  - apply (H1 (Hls _)); vm_compute; congruence.
  - apply (H2 eq_refl eq_refl (Hls _)); vm_compute; congruence.
Defined.
