(* ===== verification/Subscription.v ===== *)
(** * Subscriptions

    Model of core/AmSipSubscription.h and .cpp (RFC 6665): the subscriptions that share a
    dialog, with the part of core/AmBasicSipDialog.cpp that they use (the pending requests of
    the peer, [reply], the count of usages).

    A subscription is an object with an address; it has two direct timers of [AppTimer].  The
    handlers call each other back: a reply that is sent by [reply] is handed to [onReplySent],
    which may remove the subscription and with it reply to other requests.  The handler of
    replies is an argument [hook] of the functions that reply; [onReplySent] closes the circle.
    A subscription that is used after it was deleted, and an iterator that is followed after
    its element was erased, is a fault ([None]). *)

From Stdlib Require Import ZArith Lia Ascii String.
From stdpp Require Import base list gmap sorting.
From S2P Require Import Prelude Wheeltimer ParseCommon AmUtils SipHeader AppTimer HdrText.

Local Open Scope Z_scope.
Local Open Scope bool_scope.

(** ** Data *)

Inductive Role := Subscriber | Notifier.
Inductive SubscriptionState := SubState_init | SubState_notify_wait | SubState_pending | SubState_active | SubState_terminated.
Inductive SubscriptionTimerId := RFC6665_TIMER_N | SUBSCRIPTION_EXPIRE.
Inductive sub_meth := SUBSCRIBE | REFER | NOTIFY | OTHER.

#[global] Instance Role_eq_dec : EqDecision Role.
Proof. solve_decision. Defined.
#[global] Instance SubscriptionState_eq_dec : EqDecision SubscriptionState.
Proof. solve_decision. Defined.
#[global] Instance sub_meth_eq_dec : EqDecision sub_meth.
Proof. solve_decision. Defined.

(** [SingleSubscription] *)
Record single := mk_single {
  sub_state : SubscriptionState;
  pending_subscribe : Z;
  s_expires : Z;
  s_event : list Z;
  s_id : list Z;
  s_role : Role
}.

Definition s_set_state st x := mk_single st (pending_subscribe x) (s_expires x) (s_event x) (s_id x) (s_role x).
Definition s_set_pending n x := mk_single (sub_state x) n (s_expires x) (s_event x) (s_id x) (s_role x).
Definition s_set_expires n x := mk_single (sub_state x) (pending_subscribe x) n (s_event x) (s_id x) (s_role x).

(** What is read of requests and replies. *)
Record sub_request := mk_sq { sq_method : sub_meth; sq_cseq : Z; sq_to_tag : list Z; sq_hdrs : list Z }.
Record sub_reply := mk_sr { sr_code : Z; sr_cseq_method : sub_meth; sr_to_tag : list Z; sr_hdrs : list Z }.

(** [SIPSubscriptionEvent] *)
Inductive SubscriptionStatus := SubscribeActive | SubscribeFailed | SubscribeTerminated | SubscribePending | SubscriptionTimeout.

(** What goes out: replies of the dialog, and events to the session of a subscription dialog. *)
Inductive sub_out :=
| OReply (cseq code : Z)
| OEvent (st : SubscriptionStatus) (expires code : Z).

(** [AmSipSubscription] and its dialog.  The list of subscriptions is in order, with the address
    of each; an iterator of the list is the address of its element.  [is_dialog] says that the
    object is an [AmSipSubscriptionDialog], which overrides the callbacks. *)
Record sipsub := mk_ss {
  subs : list (nat * single);
  uas_cseq_map : gmap Z nat;
  uac_cseq_map : gmap Z nat;
  allow_subless_notify : bool;
  is_dialog : bool;
  usages : Z;
  remote_tag : list Z;
  uas_trans : gmap Z sub_request;
  ss_timers : app_timers;
  ev_q : list (SubscriptionTimerId * nat);
  ss_out : list sub_out
}.

Definition ss_set_subs l s := mk_ss l (uas_cseq_map s) (uac_cseq_map s) (allow_subless_notify s) (is_dialog s) (usages s) (remote_tag s) (uas_trans s) (ss_timers s) (ev_q s) (ss_out s).
Definition ss_set_uas m s := mk_ss (subs s) m (uac_cseq_map s) (allow_subless_notify s) (is_dialog s) (usages s) (remote_tag s) (uas_trans s) (ss_timers s) (ev_q s) (ss_out s).
Definition ss_set_uac m s := mk_ss (subs s) (uas_cseq_map s) m (allow_subless_notify s) (is_dialog s) (usages s) (remote_tag s) (uas_trans s) (ss_timers s) (ev_q s) (ss_out s).
Definition ss_set_usages n s := mk_ss (subs s) (uas_cseq_map s) (uac_cseq_map s) (allow_subless_notify s) (is_dialog s) n (remote_tag s) (uas_trans s) (ss_timers s) (ev_q s) (ss_out s).
Definition ss_set_tag g s := mk_ss (subs s) (uas_cseq_map s) (uac_cseq_map s) (allow_subless_notify s) (is_dialog s) (usages s) g (uas_trans s) (ss_timers s) (ev_q s) (ss_out s).
Definition ss_set_trans m s := mk_ss (subs s) (uas_cseq_map s) (uac_cseq_map s) (allow_subless_notify s) (is_dialog s) (usages s) (remote_tag s) m (ss_timers s) (ev_q s) (ss_out s).
Definition ss_set_timers a s := mk_ss (subs s) (uas_cseq_map s) (uac_cseq_map s) (allow_subless_notify s) (is_dialog s) (usages s) (remote_tag s) (uas_trans s) a (ev_q s) (ss_out s).
Definition ss_set_ev q s := mk_ss (subs s) (uas_cseq_map s) (uac_cseq_map s) (allow_subless_notify s) (is_dialog s) (usages s) (remote_tag s) (uas_trans s) (ss_timers s) q (ss_out s).
Definition ss_emit o s := mk_ss (subs s) (uas_cseq_map s) (uac_cseq_map s) (allow_subless_notify s) (is_dialog s) (usages s) (remote_tag s) (uas_trans s) (ss_timers s) (ev_q s) (ss_out s ++ [o]).

(** What a call gets from outside: the address of a new subscription and of a new timer object,
    whether a reply with some CSeq can be sent, the time, and the local tag of the dialog. *)
Record sub_env := mk_env { new_sub : nat; new_timer : nat; can_send : Z -> bool; unix_clock : Z; local_tag : list Z }.

(** ** One subscription *)

(** The members [timer_n] and [timer_expires] of the object at an address. *)
Definition timer_n (a : nat) : nat := 2 * a.
Definition timer_expires (a : nat) : nat := 2 * a + 1.

Definition sub_of_timer (dt : nat) : SubscriptionTimerId * nat :=
  (if Nat.even dt then RFC6665_TIMER_N else SUBSCRIPTION_EXPIRE, Nat.div2 dt).

(** (64 + 4) times T1, in microseconds *)
Definition RFC6665_TIMER_N_DURATION : Z := (64 + 4) * 500 * 1000.

Fixpoint get_sub (l : list (nat * single)) (a : nat) : option single :=
  match l with [] => None | (b, x) :: l => if (b =? a)%nat then Some x else get_sub l a end.

Fixpoint put_sub (l : list (nat * single)) (a : nat) (x : single) : list (nat * single) :=
  match l with [] => [] | (b, y) :: l => if (b =? a)%nat then (b, x) :: l else (b, y) :: put_sub l a x end.

Definition upd_sub (a : nat) (f : single -> single) (s : sipsub) : option sipsub :=
  x ← get_sub (subs s) a; Some (ss_set_subs (put_sub (subs s) a (f x)) s).

Definition set_sub_timer (dt : nat) (timeout : Z) (p : nat) (s : sipsub) : sipsub :=
  ss_set_timers (setTimer_direct dt timeout p (ss_timers s)) s.

Definition remove_sub_timer (dt : nat) (s : sipsub) : sipsub :=
  ss_set_timers (removeTimer_direct dt (ss_timers s)) s.

(** [setState]: nothing leads out of the terminated state; the count of usages is unsigned. *)
Definition setState (a : nat) (st : SubscriptionState) (s : sipsub) : option sipsub :=
  x ← get_sub (subs s) a;
  if bool_decide (sub_state x = SubState_terminated) then Some s
  else
    let s := ss_set_subs (put_sub (subs s) a (s_set_state st x)) s in
    Some (if bool_decide (st = SubState_terminated) then ss_set_usages (u32 (usages s - 1)) s else s).

Definition sub_terminate (a : nat) (s : sipsub) : option sipsub := setState a SubState_terminated s.

Definition sub_terminated (a : nat) (s : sipsub) : option bool :=
  x ← get_sub (subs s) a; Some (bool_decide (sub_state x = SubState_terminated)).

Definition is_subscribe (m : sub_meth) : bool := bool_decide (m = SUBSCRIBE) || bool_decide (m = REFER).

(** [onFailureReply]: overridden by the subscription dialog. *)
Definition onFailureReply (code : Z) (s : sipsub) : sipsub :=
  if is_dialog s then ss_emit (OEvent SubscribeFailed 0 code) s else s.

(** The codes that end a usage (RFC 5057). *)
Definition ends_subscription (code : Z) : bool := (code =? 405) || (code =? 489) || (code =? 481) || (code =? 501).

Definition EVENT_HDR : list Z := lit "Event".
Definition EXPIRES_HDR : list Z := lit "Expires".
Definition SUBSCRIPTION_STATE_HDR : list Z := lit "Subscription-State".

(** The first half of [replyFSM]: the final reply to a SUBSCRIBE or REFER. *)
Definition reply_to_subscribe (E : sub_env) (a : nat) (r : sub_reply) (s : sipsub) : option sipsub :=
  x ← get_sub (subs s) a;
  s ← (if 300 <=? sr_code r then
         if bool_decide (sub_state x = SubState_notify_wait) || ends_subscription (sr_code r)
         then s ← sub_terminate a s; Some (onFailureReply (sr_code r) s)
         else Some s
       else
         let s := if bool_decide (remote_tag s = []) then ss_set_tag (sr_to_tag r) s else s in
         let expires_txt := strip_header_params (getHeader (sr_hdrs r) EXPIRES_HDR true) in
         match (if bool_decide (expires_txt = []) then None else str2int expires_txt) with
         | Some n =>
             if n =? 0 then Some s
             else
               let s := set_sub_timer (timer_expires a) (n * 1000000) (new_timer E) s in
               s ← upd_sub a (s_set_expires (n + unix_clock E)) s;
               Some (remove_sub_timer (timer_n a) s)
         | None =>
             if bool_decide (sr_cseq_method r = SUBSCRIBE)
             then s ← sub_terminate a s; Some (onFailureReply (sr_code r) s)
             else Some s
         end);
  upd_sub a (fun x => s_set_pending (pending_subscribe x - 1) x) s.

(** The second half: the final reply to a NOTIFY, whose headers say what becomes of the
    subscription.  A number that cannot be read counts as zero. *)
Definition reply_to_notify (E : sub_env) (a : nat) (req : sub_request) (r : sub_reply) (s : sipsub) : option sipsub :=
  if 300 <=? sr_code r then
    if ends_subscription (sr_code r) then s ← sub_terminate a s; Some (onFailureReply (sr_code r) s) else Some s
  else
    let txt := getHeader (sq_hdrs req) SUBSCRIPTION_STATE_HDR true in
    let expires_txt := get_header_param txt (lit "expires") in
    let n := if bool_decide (expires_txt = []) then 0 else default 0 (str2int expires_txt) in
    let s := remove_sub_timer (timer_n a) s in
    let st := strip_header_params txt in
    let set st :=
      s ← setState a st s;
      let s := set_sub_timer (timer_expires a) (n * 1000000) (new_timer E) s in
      upd_sub a (s_set_expires (n + unix_clock E)) s in
    if negb (n =? 0) && bool_decide (st = lit "active") then set SubState_active
    else if negb (n =? 0) && bool_decide (st = lit "pending") then set SubState_pending
    else sub_terminate a s.

(** [replyFSM] *)
Definition replyFSM (E : sub_env) (a : nat) (req : sub_request) (r : sub_reply) (s : sipsub) : option sipsub :=
  if sr_code r <? 200 then Some s
  else if is_subscribe (sq_method req) then reply_to_subscribe E a r s
  else if bool_decide (sr_cseq_method r = NOTIFY) then reply_to_notify E a req r s
  else Some s.

(** ** The dialog *)

Section hooks.
Variable E : sub_env.
Variable hook : sub_request -> sub_reply -> sipsub -> option sipsub.

(** [AmBasicSipDialog::reply] and [onReplyTxed]: the request must be pending. *)
Definition sub_dlg_reply (req : sub_request) (code : Z) (hdrs : list Z) (s : sipsub) : option sipsub :=
  match uas_trans s !! sq_cseq req with
  | None => Some s
  | Some _ =>
      if can_send E (sq_cseq req) then
        s ← hook req (mk_sr code (sq_method req) (if 100 <? code then local_tag E else []) hdrs) (ss_emit (OReply (sq_cseq req) code) s);
        Some (if 200 <=? code then ss_set_trans (base.delete (sq_cseq req) (uas_trans s)) s else s)
      else Some s
  end.

(** ** Removing subscriptions *)

Definition removeSubFromUACCSeqMap (a : nat) (s : sipsub) : sipsub :=
  ss_set_uac (filter (fun x => snd x <> a) (uac_cseq_map s)) s.

(** The loop of [removeSubFromUASCSeqMap] over the CSeqs, in order: an entry of the
    subscription is erased and its request, if it is still pending, answered 481. *)
Fixpoint reply_481_loop (l : list Z) (a : nat) (s : sipsub) : option sipsub :=
  match l with
  | [] => Some s
  | c :: l =>
      if bool_decide (uas_cseq_map s !! c = Some a) then
        let s := ss_set_uas (base.delete c (uas_cseq_map s)) s in
        s ← match uas_trans s !! c with Some req => sub_dlg_reply req 481 [] s | None => Some s end;
        reply_481_loop l a s
      else reply_481_loop l a s
  end.

Definition removeSubFromUASCSeqMap (a : nat) (s : sipsub) : option sipsub :=
  reply_481_loop (merge_sort Z.le (map fst (map_to_list (uas_cseq_map s)))) a s.

(** [~SingleSubscription] *)
Definition delete_sub (a : nat) (s : sipsub) : sipsub :=
  remove_sub_timer (timer_expires a) (remove_sub_timer (timer_n a) s).

(** [removeSubscription]: deletes the object and erases the element. *)
Definition removeSubscription (a : nat) (s : sipsub) : option sipsub :=
  let s := removeSubFromUACCSeqMap a s in
  s ← removeSubFromUASCSeqMap a s;
  _ ← get_sub (subs s) a;
  let s := delete_sub a s in
  Some (ss_set_subs (List.filter (fun x => negb (fst x =? a)%nat) (subs s)) s).

End hooks.

(** [onReplySent]: calls itself through the replies of [removeSubscription]. *)
Fixpoint onReplySent (fuel : nat) (E : sub_env) (req : sub_request) (r : sub_reply) (s : sipsub) : option sipsub :=
  match fuel with
  | O => None
  | S fuel =>
      match uas_cseq_map s !! sq_cseq req with
      | None => Some s
      | Some a =>
          let s := ss_set_uas (base.delete (sq_cseq req) (uas_cseq_map s)) s in
          s ← replyFSM E a req r s;
          t ← sub_terminated a s;
          if t : bool then removeSubscription E (onReplySent fuel E) a s else Some s
      end
  end.

(** A reply may remove a subscription, which replies to its other requests; these replies find
    no entry any more. *)
Definition REPLY_DEPTH : nat := 2.
Definition sent_hook (E : sub_env) : sub_request -> sub_reply -> sipsub -> option sipsub := onReplySent REPLY_DEPTH E.

(** ** Requests *)

(** [onNotify]: does nothing but in a subscription dialog, which replies, so that the state is
    brought up to date, and then reads the state of the subscription. *)
Definition onNotify (E : sub_env) (a : nat) (req : sub_request) (s : sipsub) : option sipsub :=
  if is_dialog s then
    s ← sub_dlg_reply E (sent_hook E) req 200 [] s;
    x ← get_sub (subs s) a;
    Some (ss_emit match sub_state x with
                  | SubState_pending => OEvent SubscribePending (u32 (s_expires x)) 0
                  | SubState_active => OEvent SubscribeActive (u32 (s_expires x)) 0
                  | SubState_terminated => OEvent SubscribeTerminated 0 0
                  | _ => OEvent SubscribeFailed 0 0
                  end s)
  else Some s.

(** [requestFSM] *)
Definition requestFSM (E : sub_env) (a : nat) (req : sub_request) (s : sipsub) : option sipsub :=
  if is_subscribe (sq_method req) then
    x ← get_sub (subs s) a;
    s ← (if bool_decide (sub_state x = SubState_init) then setState a SubState_notify_wait s else Some s);
    Some (set_sub_timer (timer_n a) RFC6665_TIMER_N_DURATION (new_timer E) s)
  else if bool_decide (sq_method req = NOTIFY) then onNotify E a req s
  else Some s.

(** [SingleSubscription::onRequestIn]: while a SUBSCRIBE is pending another one is answered
    500 (with a Retry-After header). *)
Definition single_onRequestIn (E : sub_env) (a : nat) (req : sub_request) (s : sipsub) : option (sipsub * bool) :=
  if is_subscribe (sq_method req) then
    x ← get_sub (subs s) a;
    if negb (pending_subscribe x =? 0) then s ← sub_dlg_reply E (sent_hook E) req 500 [] s; Some (s, false)
    else
      s ← upd_sub a (fun x => s_set_pending (pending_subscribe x + 1) x) s;
      s ← requestFSM E a req s; Some (s, true)
  else s ← requestFSM E a req s; Some (s, true).

(** [SingleSubscription::onRequestSent] *)
Definition single_onRequestSent (E : sub_env) (a : nat) (req : sub_request) (s : sipsub) : option sipsub :=
  s ← (if is_subscribe (sq_method req) then upd_sub a (fun x => s_set_pending (pending_subscribe x + 1) x) s else Some s);
  requestFSM E a req s.

(** The Event header: the name and the id. *)
Definition event_of (hdrs : list Z) : list Z * list Z :=
  let ev := getHeader hdrs EVENT_HDR true in (strip_header_params ev, get_header_param ev (lit "id")).

(** [makeSubscription] *)
Definition makeSubscription (req : sub_request) (uac : bool) : option single :=
  let role := if uac then Subscriber else Notifier in
  match sq_method req with
  | SUBSCRIBE => let '(ev, id) := event_of (sq_hdrs req) in Some (mk_single SubState_init 0 0 ev id role)
  | REFER => Some (mk_single SubState_init 0 0 (lit "refer") (int2str (sq_cseq req)) role)
  | _ => None
  end.

(** [createSubscription] *)
Definition createSubscription (E : sub_env) (req : sub_request) (uac : bool) (s : sipsub) : sipsub * option nat :=
  match makeSubscription req uac with
  | None => (s, None)
  | Some x => (ss_set_subs (subs s ++ [(new_sub E, x)]) (ss_set_usages (u32 (usages s + 1)) s), Some (new_sub E))
  end.

Definition sub_matches (role : Role) (event id : list Z) (x : nat * single) : bool :=
  let no_id := bool_decide (id = []) && bool_decide (event = lit "refer") in
  bool_decide (s_role (snd x) = role) && bool_decide (s_event (snd x) = event) && (no_id || bool_decide (s_id (snd x) = id)).

(** [findSubscription]: a terminated one that matches is removed. *)
Definition findSubscription (E : sub_env) (role : Role) (event id : list Z) (s : sipsub) : option (sipsub * option nat) :=
  match List.find (sub_matches role event id) (subs s) with
  | None => Some (s, None)
  | Some (a, x) =>
      if bool_decide (sub_state x = SubState_terminated)
      then s ← removeSubscription E (sent_hook E) a s; Some (s, None)
      else Some (s, Some a)
  end.

(** [matchSubscription] *)
Definition matchSubscription (E : sub_env) (req : sub_request) (uac : bool) (s : sipsub) : option (sipsub * option nat) :=
  if (negb uac && bool_decide (sq_to_tag req = [])) || (uac && bool_decide (remote_tag s = [])) ||
     bool_decide (sq_method req = REFER) || bool_decide (subs s = [])
  then Some (createSubscription E req uac s)
  else
    let find role :=
      let '(event, id) := event_of (sq_hdrs req) in
      m ← findSubscription E role event id s;
      match m with
      | (s, None) => if bool_decide (sq_method req = SUBSCRIBE) then Some (createSubscription E req uac s) else Some (s, None)
      | m => Some m
      end in
    match sq_method req with
    | SUBSCRIBE => find (if uac then Subscriber else Notifier)
    | NOTIFY => find (if uac then Notifier else Subscriber)
    | _ => Some (s, None)
    end.

(** [AmSipSubscription::onRequestIn]: whether the request goes on. *)
Definition onRequestIn (E : sub_env) (req : sub_request) (s : sipsub) : option (sipsub * bool) :=
  m ← matchSubscription E req false s;
  let '(s, it) := m in
  t ← match it with Some a => sub_terminated a s | None => Some true end;
  match it with
  | Some a => if t : bool then s ← sub_dlg_reply E (sent_hook E) req 481 [] s; Some (s, false)
              else single_onRequestIn E a req (ss_set_uas (<[sq_cseq req := a]> (uas_cseq_map s)) s)
  | None =>
      if bool_decide (sq_method req = NOTIFY) && allow_subless_notify s then Some (s, true)
      else s ← sub_dlg_reply E (sent_hook E) req 481 [] s; Some (s, false)
  end.

(** [AmSipSubscription::onRequestSent] *)
Definition onRequestSent (E : sub_env) (req : sub_request) (s : sipsub) : option sipsub :=
  m ← matchSubscription E req true s;
  match m with
  | (s, None) => Some s
  | (s, Some a) => single_onRequestSent E a req (ss_set_uac (<[sq_cseq req := a]> (uac_cseq_map s)) s)
  end.

(** ** Replies and time-outs *)

(** [onReplyIn]: whether the reply goes on. *)
Definition onReplyIn (E : sub_env) (req : sub_request) (r : sub_reply) (s : sipsub) : option (sipsub * bool) :=
  match uac_cseq_map s !! sq_cseq req with
  | None => Some (s, bool_decide (sq_method req = NOTIFY) && allow_subless_notify s)
  | Some a =>
      let s := ss_set_uac (base.delete (sq_cseq req) (uac_cseq_map s)) s in
      s ← replyFSM E a req r s;
      t ← sub_terminated a s;
      s ← (if t : bool then removeSubscription E (sent_hook E) a s else Some s);
      Some (s, true)
  end.

(** [onTimeout]: [a] is the address that the event carries.  A subscription dialog tells its
    session in any case. *)
Definition onTimeout (E : sub_env) (a : nat) (s : sipsub) : option sipsub :=
  s ← match get_sub (subs s) a with
      | None => Some s
      | Some _ => s ← sub_terminate a s; removeSubscription E (sent_hook E) a s
      end;
  Some (if is_dialog s then ss_emit (OEvent SubscriptionTimeout 0 0) s else s).

(** [terminate] of all, [isActive], [subscriptionExists] *)
Definition terminate_all (s : sipsub) : option sipsub :=
  fold_left (fun r a => s ← r; sub_terminate a s) (map fst (subs s)) (Some s).

Definition isActive (s : sipsub) : bool := existsb (fun x => bool_decide (sub_state (snd x) = SubState_active)) (subs s).

Definition subscriptionExists (E : sub_env) (role : Role) (event id : list Z) (s : sipsub) : option (sipsub * bool) :=
  m ← findSubscription E role event id s; Some (fst m, bool_decide (snd m <> None)).

(** [~AmSipSubscription] *)
Fixpoint destroy_loop (fuel : nat) (E : sub_env) (s : sipsub) : option sipsub :=
  match subs s, fuel with
  | [], _ => Some s
  | (a, _) :: _, S fuel => s ← removeSubscription E (sent_hook E) a s; destroy_loop fuel E s
  | _, O => None
  end.

Definition destroy (E : sub_env) (s : sipsub) : option sipsub := destroy_loop (length (subs s)) E s.

(** [AmSipSubscriptionDialog::subscribe]: the headers of the request *)
Definition subscribe_hdrs (event event_id accept : list Z) (expires : Z) : list (list Z * list Z) :=
  (if bool_decide (event = []) then [] else [(EVENT_HDR, event ++ if bool_decide (event_id = []) then [] else lit ";id=" ++ event_id)]) ++
  (if bool_decide (accept = []) then [] else [(lit "Accept", accept)]) ++
  (if 0 <=? expires then [(EXPIRES_HDR, int2str expires)] else []).

(** ** The system

    The dialog hands requests and replies to the subscriptions, the session replies and
    handles time-outs, and the thread of the timers fires them. *)

Inductive sub_label :=
| SRequestIn (req : sub_request)
| SRequestSent (req : sub_request)
| SReplyIn (req : sub_request) (r : sub_reply)
| SReply (req : sub_request) (code : Z) (hdrs : list Z)
| STimeout
| STerminate
| STimer (l : app_label).

(** The steps of the timer thread and the named timers of sessions; a direct timer that is fired
    calls [SingleSubscription::onTimer] of its subscription, which posts an event. *)
Definition onTimer (dt : nat) (s : sipsub) : option sipsub :=
  _ ← get_sub (subs s) (snd (sub_of_timer dt)); Some (ss_set_ev (ev_q s ++ [sub_of_timer dt]) s).

Definition on_event (s : option sipsub) (k : app_key) : option sipsub :=
  s ← s; match k with DirectT dt => onTimer dt s | AppT _ _ => Some s end.

Definition timer_step (l : app_label) (s : sipsub) : option sipsub :=
  w ← app_do l (ss_timers s);
  fold_left on_event (drop (length (at_events (ss_timers s))) (at_events w)) (Some (ss_set_timers w s)).

Definition sub_do (E : sub_env) (l : sub_label) (s : sipsub) : option sipsub :=
  match l with
  | SRequestIn req => m ← onRequestIn E req (ss_set_trans (<[sq_cseq req := req]> (uas_trans s)) s); Some (fst m)
  | SRequestSent req => onRequestSent E req s
  | SReplyIn req r => m ← onReplyIn E req r s; Some (fst m)
  | SReply req code hdrs => sub_dlg_reply E (sent_hook E) req code hdrs s
  | STimeout => match ev_q s with [] => Some s | (_, a) :: q => onTimeout E a (ss_set_ev q s) end
  | STerminate => terminate_all s
  | STimer l => timer_step l s
  end.

(** New objects have addresses that are not in use; the direct timers are those of the
    subscriptions. *)
Definition sub_enabled (E : sub_env) (l : sub_label) (s : sipsub) : bool :=
  match l with
  | STimer (LSetDirect _ _ _) | STimer (LRemoveDirect _) => false
  | STimer l => enabled l (ss_timers s)
  | _ => bool_decide (get_sub (subs s) (new_sub E) = None) && bool_decide (at_heap (ss_timers s) !! new_timer E = None)
  end.

Inductive sub_run : list (sub_env * sub_label) -> sipsub -> sipsub -> Prop :=
| sub_nil s : sub_run [] s s
| sub_cons E l ls s s1 s2 : sub_enabled E l s = true -> sub_do E l s = Some s1 -> sub_run ls s1 s2 -> sub_run ((E, l) :: ls) s s2.

Definition ss_init (allow dialog : bool) (tag : list Z) : sipsub := mk_ss [] ∅ ∅ allow dialog 0 tag ∅ app_init [] [].
