(* ===== verification/SubscriptionProps.v ===== *)
(** * Subscriptions: theorems

    The invariant of the subscriptions of a dialog over everything that messages, the session
    and the timers do, the end of a subscription that is not refreshed, and a whole exchange
    between a subscriber and a notifier. *)

From Stdlib Require Import ZArith Lia Ascii String.
From stdpp Require Import base list gmap sorting.
From S2P Require Import Prelude Wheeltimer ParseCommon AmUtils SipHeader AppTimer HdrText Subscription.

Local Open Scope Z_scope.
Local Open Scope bool_scope.

(** ** The list of subscriptions *)

Definition is_live (x : nat * single) : bool := negb (bool_decide (sub_state (snd x) = SubState_terminated)).

(** The usages that count. *)
Definition live (l : list (nat * single)) : Z := Z.of_nat (length (List.filter is_live l)).

Lemma get_sub_elem l a : is_Some (get_sub l a) <-> a ∈ l.*1.
Proof.
  induction l as [|[b x] l IH]; cbn; [split; [by intros []|by intros ?%elem_of_nil]|].
  destruct (Nat.eqb_spec b a) as [->|Hne]; [split; [by left|done]|]. rewrite IH, elem_of_cons. split; [by right|by intros [?|?]; [congruence|]].
Qed.

Lemma put_sub_keys l a x : (put_sub l a x).*1 = l.*1.
Proof. induction l as [|[b y] l IH]; cbn; [done|]. destruct (b =? a)%nat; cbn; [done|]. by rewrite IH. Qed.

Lemma get_put_sub l a x b : is_Some (get_sub l a) -> get_sub (put_sub l a x) b = if (a =? b)%nat then Some x else get_sub l b.
Proof.
  induction l as [|[c y] l IH]; cbn; [by intros []|]. intros Ha. destruct (Nat.eqb_spec c a) as [->|Hne]; cbn.
  - by destruct (Nat.eqb_spec a b).
  - destruct (Nat.eqb_spec c b) as [->|Hb]; [by rewrite (proj2 (Nat.eqb_neq a b)) by congruence|]. by apply IH.
Qed.

Lemma live_put l a x y :
  get_sub l a = Some y -> live (put_sub l a x) = live l + (if is_live (a, x) then 1 else 0) - (if is_live (a, y) then 1 else 0).
Proof.
  unfold live. induction l as [|[b z] l IH]; cbn [get_sub put_sub]; [done|]. destruct (Nat.eqb_spec b a) as [->|Hne].
  - intros [= ->]. cbn [List.filter]. unfold is_live. cbn [snd]. destruct (bool_decide _), (bool_decide _); cbn [negb length]; lia.
  - intros Hy. specialize (IH Hy). cbn [List.filter]. destruct (is_live (b, z)); cbn [length]; lia.
Qed.

Definition without (a : nat) (l : list (nat * single)) : list (nat * single) := List.filter (fun x => negb (fst x =? a)%nat) l.

Lemma get_without a b l : get_sub (without a l) b = if (a =? b)%nat then None else get_sub l b.
Proof.
  unfold without. induction l as [|[c y] l IH]; cbn; [by destruct (a =? b)%nat|].
  destruct (Nat.eqb_spec c a) as [->|Hne]; cbn; rewrite IH; destruct (Nat.eqb_spec a b) as [->|Hb]; try done.
  by rewrite (proj2 (Nat.eqb_neq c b)) by done.
Qed.

Lemma without_sublist a l : sublist (without a l).*1 l.*1.
Proof. unfold without. induction l as [|[b x] l IH]; cbn; [done|]. destruct (b =? a)%nat; cbn; by constructor. Qed.

(** Removing a terminated subscription does not change the count. *)
Lemma live_without a l x : NoDup l.*1 -> get_sub l a = Some x -> sub_state x = SubState_terminated -> live (without a l) = live l.
Proof.
  unfold live, without. induction l as [|[b z] l IH]; cbn [get_sub]; [done|]. intros [Hb Hl]%NoDup_cons. destruct (Nat.eqb_spec b a) as [->|Hne].
  - intros [= ->] Hx. cbn [List.filter fst]. rewrite Nat.eqb_refl. cbn [negb]. unfold is_live at 2. cbn [snd]. rewrite bool_decide_true by done. cbn [negb].
    f_equal. f_equal. f_equal. clear IH. induction l as [|[c w] l IH]; cbn; [done|]. apply not_elem_of_cons in Hb as [Hc Hb]. apply NoDup_cons in Hl as [_ Hl].
    cbn in Hc. rewrite (proj2 (Nat.eqb_neq c a)) by congruence. cbn. f_equal. by apply IH.
  - intros Hy Hx. specialize (IH Hl Hy Hx). cbn [List.filter fst]. rewrite (proj2 (Nat.eqb_neq b a)) by done. cbn [negb List.filter].
    destruct (is_live (b, z)); cbn [length]; lia.
Qed.

(** ** The invariant *)

(** A timer of the subscription runs, or its event is waiting. *)
Definition guarded (s : sipsub) (a : nat) : Prop :=
  armed (ss_timers s) (DirectT (timer_n a)) <> None \/ armed (ss_timers s) (DirectT (timer_expires a)) <> None \/ exists id, (id, a) ∈ ev_q s.

(** All but the subscription [ex] are guarded. *)
Record inv_but (ex : option nat) (s : sipsub) : Prop := {
  si_timers : Inv (ss_timers s);
  si_nodup : NoDup (subs s).*1;
  si_uas c a : uas_cseq_map s !! c = Some a -> is_Some (get_sub (subs s) a);
  si_uac c a : uac_cseq_map s !! c = Some a -> is_Some (get_sub (subs s) a);
  si_trans c req : uas_trans s !! c = Some req -> sq_cseq req = c;
  si_usages : usages s = u32 (live (subs s));
  si_armed dt : armed (ss_timers s) (DirectT dt) <> None -> is_Some (get_sub (subs s) (snd (sub_of_timer dt)));
  si_guard a : is_Some (get_sub (subs s) a) -> Some a <> ex -> guarded s a;
  si_plain : is_dialog s = false
}.

Lemma inv_weaken ex s : inv_but None s -> inv_but ex s.
Proof. intros [H1 H2 H3 H4 H5 H6 H7 H8 H9]. constructor; try done. intros a Ha _. by apply H8. Qed.

(** What replies change: nothing of this. *)
Definition core (s : sipsub) := (subs s, uac_cseq_map s, usages s, remote_tag s, ss_timers s, ev_q s, is_dialog s, allow_subless_notify s).

Definition trans_ok (s : sipsub) : Prop := forall c req, uas_trans s !! c = Some req -> sq_cseq req = c.

Lemma quiet_reply fuel E req code hdrs s :
  uas_cseq_map s !! sq_cseq req = None -> trans_ok s ->
  exists s', sub_dlg_reply E (onReplySent (S fuel) E) req code hdrs s = Some s' /\ core s' = core s /\ uas_cseq_map s' = uas_cseq_map s /\ trans_ok s'.
Proof.
  intros Hc Ht. unfold sub_dlg_reply. destruct (uas_trans s !! sq_cseq req) as [q|]; [|by exists s].
  destruct (can_send E (sq_cseq req)); [|by exists s]. cbn [onReplySent ss_emit uas_cseq_map]. rewrite Hc. cbn [mbind option_bind].
  eexists. split; [reflexivity|]. destruct (200 <=? code); (split_and!; try done). intros c q' H. cbn in H. apply lookup_delete_Some in H as [_ H]. by apply Ht.
Qed.

Lemma loop_481 fuel E a l s :
  trans_ok s ->
  exists s', reply_481_loop E (onReplySent (S fuel) E) l a s = Some s' /\ core s' = core s /\ trans_ok s' /\
    forall c, uas_cseq_map s' !! c = if decide (c ∈ l /\ uas_cseq_map s !! c = Some a) then None else uas_cseq_map s !! c.
Proof.
  revert s. induction l as [|c l IH]; intros s Ht; cbn [reply_481_loop].
  { by exists s. }
  case_bool_decide as Hc.
  - set (s1 := ss_set_uas _ s).
    assert (H1 : exists s2, match uas_trans s1 !! c with Some req => sub_dlg_reply E (onReplySent (S fuel) E) req 481 [] s1 | None => Some s1 end = Some s2 /\
      core s2 = core s /\ uas_cseq_map s2 = uas_cseq_map s1 /\ trans_ok s2).
    { destruct (uas_trans s1 !! c) as [req|] eqn:Hr; [|by exists s1]. apply (quiet_reply fuel E req 481 [] s1); [|done].
      rewrite (Ht c req Hr). apply lookup_delete_eq. }
    destruct H1 as (s2 & -> & Hcore & Hm & Ht2). cbn [mbind option_bind]. destruct (IH s2 Ht2) as (s' & -> & Hcore' & Ht' & Hm').
    exists s'. split_and!; try done; [by rewrite Hcore'|]. intros c'. rewrite Hm', Hm. cbn [s1 ss_set_uas uas_cseq_map]. rewrite lookup_delete.
    destruct (decide (c = c')) as [<-|Hne]; [rewrite (decide_True (P := _ ∈ _ :: _ /\ _)) by (split; [by left|done]); by case_decide|].
    assert ((c' ∈ l /\ uas_cseq_map s !! c' = Some a) <-> (c' ∈ c :: l /\ uas_cseq_map s !! c' = Some a)) as Hiff by (rewrite elem_of_cons; intuition congruence).
    by rewrite (decide_ext _ _ _ _ Hiff).
  - destruct (IH s Ht) as (s' & -> & Hcore' & Ht' & Hm'). exists s'. split_and!; try done. intros c'. rewrite Hm'.
    assert ((c' ∈ l /\ uas_cseq_map s !! c' = Some a) <-> (c' ∈ c :: l /\ uas_cseq_map s !! c' = Some a)) as Hiff by (rewrite elem_of_cons; intuition congruence).
    by rewrite (decide_ext _ _ _ _ Hiff).
Qed.

(** Removing the timers of a subscription. *)
Lemma remove_timers a s :
  Inv (ss_timers s) -> let s' := delete_sub a s in
  Inv (ss_timers s') /\ at_heap (ss_timers s') = at_heap (ss_timers s) /\
  forall dt, armed (ss_timers s') (DirectT dt) = if (Nat.div2 dt =? a)%nat then None else armed (ss_timers s) (DirectT dt).
Proof.
  intros Hs. cbv zeta. unfold delete_sub. cbn [remove_sub_timer ss_set_timers ss_timers].
  destruct (removeTimer_direct_spec (timer_n a) _ Hs) as (H1 & _ & A1). destruct (removeTimer_direct_spec (timer_expires a) _ H1) as (H2 & _ & A2).
  split_and!; [done| |].
  - unfold removeTimer_direct. repeat case_match; done.
  - intros dt. rewrite A2. unfold upd_armed. case_decide as Hd.
    + injection Hd as ->. unfold timer_expires. rewrite Nat.add_1_r, Nat.div2_succ_double, Nat.eqb_refl. done.
    + rewrite A1. unfold upd_armed. case_decide as Hd'.
      * injection Hd' as ->. unfold timer_n. by rewrite Nat.div2_double, Nat.eqb_refl.
      * destruct (Nat.eqb_spec (Nat.div2 dt) a) as [He|]; [|done]. exfalso. rewrite (Nat.div2_odd dt), He in Hd, Hd'. unfold timer_n, timer_expires in *.
        destruct (Nat.odd dt); cbn [Nat.b2n] in *; rewrite ?Nat.add_0_r in *; congruence.
Qed.

Lemma guarded_ext s s' a :
  (forall dt, Nat.div2 dt = a -> armed (ss_timers s) (DirectT dt) <> None -> armed (ss_timers s') (DirectT dt) <> None) -> ev_q s' = ev_q s ->
  guarded s a -> guarded s' a.
Proof.
  intros Ht Hq [H|[H|H]]; [left|right; left|right; right; by rewrite Hq].
  - apply Ht; [apply Nat.div2_double|done].
  - apply Ht; [unfold timer_expires; by rewrite Nat.add_1_r, Nat.div2_succ_double|done].
Qed.

(** What [removeSubscription] does. *)
Lemma remove_effect fuel E a s :
  Inv (ss_timers s) -> trans_ok s -> is_Some (get_sub (subs s) a) ->
  exists s', removeSubscription E (onReplySent (S fuel) E) a s = Some s' /\ Inv (ss_timers s') /\ trans_ok s' /\
    subs s' = without a (subs s) /\ usages s' = usages s /\ ev_q s' = ev_q s /\ is_dialog s' = is_dialog s /\ allow_subless_notify s' = allow_subless_notify s /\
    at_heap (ss_timers s') = at_heap (ss_timers s) /\
    (forall c b, uas_cseq_map s' !! c = Some b -> b <> a /\ uas_cseq_map s !! c = Some b) /\
    (forall c b, uac_cseq_map s' !! c = Some b -> b <> a /\ uac_cseq_map s !! c = Some b) /\
    (forall dt, armed (ss_timers s') (DirectT dt) = if (Nat.div2 dt =? a)%nat then None else armed (ss_timers s) (DirectT dt)).
Proof.
  intros Hi Htr [x Ha]. unfold removeSubscription. set (s0 := removeSubFromUACCSeqMap a s).
  destruct (loop_481 fuel E a (merge_sort Z.le (map fst (map_to_list (uas_cseq_map s0)))) s0) as (s1 & Hl & Hcore & Ht & Hm); [exact Htr|].
  unfold removeSubFromUASCSeqMap. rewrite Hl. cbn [mbind option_bind]. unfold core in Hcore. cbn [s0 removeSubFromUACCSeqMap ss_set_uac subs uac_cseq_map usages remote_tag ss_timers ev_q is_dialog allow_subless_notify] in Hcore.
  injection Hcore as E1 E2 E3 E4 E5 E6 E7 E8. rewrite E1, Ha. cbn [mbind option_bind]. eexists. split; [reflexivity|].
  destruct (remove_timers a s1) as (T1 & T2 & T3); [by rewrite E5|].
  cbn [ss_set_subs ss_timers subs usages allow_subless_notify delete_sub remove_sub_timer ss_set_timers uas_cseq_map uac_cseq_map ev_q is_dialog] in *. rewrite E5 in T1, T2, T3. rewrite E1, E2, E3, E5, E6, E7, E8, T2.
  split_and!; try done.
  - intros c b. rewrite Hm. case_decide as Hd; [done|]. intros Hc. split; [|done]. intros ->. apply Hd. split; [|done].
    rewrite merge_sort_Permutation. apply list_elem_of_fmap. exists (c, a). split; [done|]. by apply elem_of_map_to_list.
  - by intros c b [Hc Hb]%map_lookup_filter_Some.
Qed.

(** [removeSubscription] of a terminated subscription. *)
Lemma remove_spec fuel E ex a s x :
  inv_but ex s -> ex = None \/ ex = Some a -> get_sub (subs s) a = Some x -> sub_state x = SubState_terminated ->
  exists s', removeSubscription E (onReplySent (S fuel) E) a s = Some s' /\ inv_but None s' /\
    at_heap (ss_timers s') = at_heap (ss_timers s) /\ subs s' = without a (subs s) /\ usages s' = usages s /\ allow_subless_notify s' = allow_subless_notify s.
Proof.
  intros Hs Hex Ha Hx. destruct (remove_effect fuel E a s (si_timers _ _ Hs) (si_trans _ _ Hs) (mk_is_Some _ _ Ha)) as (s' & H1 & Ht & Htr & E1 & E3 & E6 & E7 & E8 & E9 & Hu & Hc & T3).
  exists s'. split_and!; try done.
  assert (Hg : forall b, b <> a -> is_Some (get_sub (subs s) b) -> is_Some (get_sub (without a (subs s)) b)).
  { intros b Hb H. by rewrite get_without, (proj2 (Nat.eqb_neq a b)). }
  constructor; rewrite ?E1, ?E3, ?E7.
  - done.
  - eapply sublist_NoDup; [apply (si_nodup _ _ Hs)|apply without_sublist].
  - intros c b [Hb H]%Hu. apply Hg; [done|]. by eapply (si_uas _ _ Hs).
  - intros c b [Hb H]%Hc. apply Hg; [done|]. by eapply (si_uac _ _ Hs).
  - exact Htr.
  - rewrite (si_usages _ _ Hs). f_equal. symmetry. eapply live_without; [apply (si_nodup _ _ Hs)|done|done].
  - intros dt. rewrite T3. destruct (Nat.eqb_spec (Nat.div2 dt) a) as [|Hd]; [done|]. intros H. apply Hg; [done|]. by apply (si_armed _ _ Hs).
  - intros b Hb _. rewrite get_without in Hb. destruct (Nat.eqb_spec a b) as [|Hne]; [by destruct Hb|].
    apply (guarded_ext s); [|done|apply (si_guard _ _ Hs); [done|destruct Hex as [->| ->]; congruence]].
    intros dt Hd. by rewrite T3, Hd, (proj2 (Nat.eqb_neq b a)) by done.
  - apply Hs.
Qed.

(** ** One subscription *)

(** Changing a subscription but for its state, or its state but not to or from the end. *)
Lemma put_inv ex s a x y :
  inv_but ex s -> get_sub (subs s) a = Some x -> is_live (a, y) = is_live (a, x) -> inv_but ex (ss_set_subs (put_sub (subs s) a y) s).
Proof.
  intros Hs Ha Hl. assert (Hg : forall b, is_Some (get_sub (put_sub (subs s) a y) b) <-> is_Some (get_sub (subs s) b)) by (intros; by rewrite !get_sub_elem, put_sub_keys).
  constructor; cbn [ss_set_subs subs ss_timers uas_cseq_map uac_cseq_map uas_trans usages is_dialog]; try (by apply Hs).
  - rewrite put_sub_keys. apply (si_nodup _ _ Hs).
  - intros c b Hc. rewrite Hg. by eapply (si_uas _ _ Hs).
  - intros c b Hc. rewrite Hg. by eapply (si_uac _ _ Hs).
  - rewrite (live_put _ _ _ _ Ha), Hl, (si_usages _ _ Hs). f_equal. lia.
  - intros dt Hd. rewrite Hg. by apply (si_armed _ _ Hs).
  - intros b Hb He. rewrite Hg in Hb. exact (si_guard _ _ Hs b Hb He).
Qed.

(** [setState]; a terminated subscription need not be guarded any more. *)
Lemma setState_spec ex s a x st :
  inv_but ex s -> get_sub (subs s) a = Some x ->
  exists s' y, setState a st s = Some s' /\ inv_but ex s' /\ get_sub (subs s') a = Some y /\ ss_timers s' = ss_timers s /\
    (sub_state y = if bool_decide (sub_state x = SubState_terminated) then SubState_terminated else st) /\
    pending_subscribe y = pending_subscribe x.
Proof.
  intros Hs Ha. unfold setState. rewrite Ha. cbn [mbind option_bind]. case_bool_decide as Hx; [exists s, x; by rewrite Hx|].
  set (s1 := ss_set_subs _ s).
  assert (Hget : get_sub (subs s1) a = Some (s_set_state st x)) by (cbn; rewrite get_put_sub, Nat.eqb_refl; [done|by rewrite Ha]).
  case_bool_decide as Hst.
  - exists (ss_set_usages (u32 (usages s1 - 1)) s1), (s_set_state st x). split_and!; try done.
    assert (Hg : forall b, is_Some (get_sub (put_sub (subs s) a (s_set_state st x)) b) <-> is_Some (get_sub (subs s) b)) by (intros; by rewrite !get_sub_elem, put_sub_keys).
    constructor; cbn [s1 ss_set_usages ss_set_subs subs ss_timers uas_cseq_map uac_cseq_map uas_trans usages is_dialog]; try (by apply Hs).
    + rewrite put_sub_keys. apply (si_nodup _ _ Hs).
    + intros c b Hc. rewrite Hg. by eapply (si_uas _ _ Hs).
    + intros c b Hc. rewrite Hg. by eapply (si_uac _ _ Hs).
    + rewrite (live_put _ _ _ _ Ha), (si_usages _ _ Hs). unfold is_live at 1 2. cbn [snd s_set_state sub_state]. rewrite Hst, !bool_decide_true, (bool_decide_false (sub_state x = _)) by done. cbn [negb].
      unfold u32. rewrite Zminus_mod_idemp_l. f_equal. lia.
    + intros dt Hd. rewrite Hg. by apply (si_armed _ _ Hs).
    + intros b Hb He. rewrite Hg in Hb. exact (si_guard _ _ Hs b Hb He).
  - exists s1, (s_set_state st x). split_and!; try done. eapply put_inv; [done|done|]. unfold is_live. cbn [snd s_set_state sub_state]. by rewrite !bool_decide_false.
Qed.

Lemma upd_spec ex s a x f :
  inv_but ex s -> get_sub (subs s) a = Some x -> sub_state (f x) = sub_state x ->
  exists s', upd_sub a f s = Some s' /\ inv_but ex s' /\ get_sub (subs s') a = Some (f x) /\ ss_timers s' = ss_timers s /\ ev_q s' = ev_q s.
Proof.
  intros Hs Ha Hf. unfold upd_sub. rewrite Ha. cbn [mbind option_bind]. eexists. split; [reflexivity|]. split_and!; try done.
  - eapply put_inv; [done|done|]. unfold is_live. cbn [snd]. by rewrite Hf.
  - cbn. rewrite get_put_sub, Nat.eqb_refl; [done|by rewrite Ha].
Qed.

Lemma inv_same ex s s' :
  subs s' = subs s -> uas_cseq_map s' = uas_cseq_map s -> uac_cseq_map s' = uac_cseq_map s -> uas_trans s' = uas_trans s -> usages s' = usages s ->
  ss_timers s' = ss_timers s -> ev_q s' = ev_q s -> is_dialog s' = is_dialog s -> inv_but ex s -> inv_but ex s'.
Proof.
  destruct s, s'; cbn. intros -> -> -> -> -> -> -> -> [H1 H2 H3 H4 H5 H6 H7 H8 H9]. by constructor.
Qed.

Lemma reguard ex s a : inv_but ex s -> ex = None \/ ex = Some a -> guarded s a -> inv_but None s.
Proof.
  intros [H1 H2 H3 H4 H5 H6 H7 H8 H9] Hex Hg. constructor; try done. intros b Hb _. destruct (decide (b = a)) as [->|Hne]; [done|].
  apply H8; [done|]. destruct Hex as [->| ->]; congruence.
Qed.

(** The timers of a subscription, by their number. *)
Definition own_timer (a dt : nat) : Prop := dt = timer_n a \/ dt = timer_expires a.

Lemma own_timer_sub a dt : own_timer a dt -> Nat.div2 dt = a.
Proof. intros [->| ->]; unfold timer_n, timer_expires; [apply Nat.div2_double|rewrite Nat.add_1_r; apply Nat.div2_succ_double]. Qed.

(** New timers: the subscriptions other than [a] keep theirs. *)
Lemma timers_inv ex s a dt v w :
  inv_but ex s -> ex = None \/ ex = Some a -> own_timer a dt -> (v <> None -> is_Some (get_sub (subs s) a)) -> Inv w ->
  (forall k, armed w k = upd_armed (armed (ss_timers s)) (DirectT dt) v k) -> inv_but (Some a) (ss_set_timers w s).
Proof.
  intros Hs Hex Hdt Hv Hw Ha. assert (Ha' : forall d, armed w (DirectT d) = if decide (d = dt) then v else armed (ss_timers s) (DirectT d)).
  { intros d. rewrite Ha. unfold upd_armed. destruct (decide (d = dt)) as [->|]; [by rewrite decide_True|by rewrite decide_False by congruence]. }
  constructor; cbn [ss_set_timers subs ss_timers uas_cseq_map uac_cseq_map uas_trans usages is_dialog]; try (by apply Hs); [done| |].
  - intros d. rewrite Ha'. destruct (decide (d = dt)) as [->|]; [|apply (si_armed _ _ Hs)]. intros H%Hv. cbn. by rewrite (own_timer_sub a dt).
  - intros b Hb Hne. apply (guarded_ext s); [|done|apply (si_guard _ _ Hs); [done|destruct Hex as [->| ->]; congruence]].
    intros d Hd. cbn [ss_set_timers ss_timers]. rewrite Ha'. destruct (decide (d = dt)) as [->|]; [|done]. rewrite (own_timer_sub a dt Hdt) in Hd. congruence.
Qed.

Lemma set_timer_spec ex s a dt to p :
  inv_but ex s -> ex = None \/ ex = Some a -> own_timer a dt -> is_Some (get_sub (subs s) a) -> at_heap (ss_timers s) !! p = None ->
  let s' := set_sub_timer dt to p s in
  inv_but None s' /\ forall d, armed (ss_timers s') (DirectT d) = if decide (d = dt) then Some (mk_timer p (u32 (to / TIMER_RESOLUTION + clock (ss_timers s)))) else armed (ss_timers s) (DirectT d).
Proof.
  intros Hs Hex Hdt Ha Hp. cbv zeta. unfold set_sub_timer. destruct (setTimer_direct_spec dt to p (ss_timers s) (si_timers _ _ Hs) Hp) as (H1 & _ & H2).
  assert (H3 : forall d, armed (setTimer_direct dt to p (ss_timers s)) (DirectT d) = if decide (d = dt) then Some (mk_timer p (u32 (to / TIMER_RESOLUTION + clock (ss_timers s)))) else armed (ss_timers s) (DirectT d)).
  { intros d. rewrite H2. unfold upd_armed. destruct (decide (d = dt)) as [->|]; [by rewrite decide_True|by rewrite decide_False by congruence]. }
  split; [|exact H3]. eapply (reguard (Some a) _ a); [|by right|].
  - eapply timers_inv; [exact Hs|exact Hex|exact Hdt|done|exact H1|exact H2].
  - destruct Hdt as [->| ->]; [left|right; left]; cbn [ss_set_timers ss_timers]; by rewrite H3, decide_True.
Qed.

Lemma unset_timer_spec ex s a dt :
  inv_but ex s -> ex = None \/ ex = Some a -> own_timer a dt ->
  let s' := remove_sub_timer dt s in
  inv_but (Some a) s' /\ at_heap (ss_timers s') = at_heap (ss_timers s) /\ clock (ss_timers s') = clock (ss_timers s) /\
  forall d, armed (ss_timers s') (DirectT d) = if decide (d = dt) then None else armed (ss_timers s) (DirectT d).
Proof.
  intros Hs Hex Hdt. cbv zeta. unfold remove_sub_timer. destruct (removeTimer_direct_spec dt (ss_timers s) (si_timers _ _ Hs)) as (H1 & (_ & _ & H4) & H2).
  split_and!; cbn [ss_set_timers ss_timers]; try done.
  - eapply timers_inv; [exact Hs|exact Hex|exact Hdt|done|exact H1|exact H2].
  - unfold removeTimer_direct. by case_match.
  - intros d. rewrite H2. unfold upd_armed. destruct (decide (d = dt)) as [->|]; [by rewrite decide_True|by rewrite decide_False by congruence].
Qed.

(** The state after a handler of the subscription [a]: if it is not terminated, it is guarded. *)
Definition handled (a : nat) (s : sipsub) : Prop :=
  exists y, get_sub (subs s) a = Some y /\ inv_but (Some a) s /\ (sub_state y <> SubState_terminated -> inv_but None s).

Lemma after_live a s y : get_sub (subs s) a = Some y -> inv_but None s -> handled a s.
Proof. intros Hy Hs. exists y. split_and!; [done|by apply inv_weaken|done]. Qed.

Lemma terminate_after ex a s x :
  inv_but ex s -> ex = None \/ ex = Some a -> get_sub (subs s) a = Some x -> exists s', sub_terminate a s = Some s' /\ handled a s' /\ is_dialog s' = false.
Proof.
  intros Hs Hex Ha. destruct (setState_spec ex s a x SubState_terminated Hs Ha) as (s' & y & H1 & H2 & H3 & _ & H5 & _). exists s'. split_and!; [done| |apply H2].
  exists y. split_and!; [done| |].
  - destruct Hex as [->| ->]; [by apply inv_weaken|done].
  - rewrite H5. by case_bool_decide.
Qed.

Lemma upd_after a s f : handled a s -> (forall x, sub_state (f x) = sub_state x) -> exists s', upd_sub a f s = Some s' /\ handled a s'.
Proof.
  intros (y & Hy & Hs & Hl) Hf. destruct (upd_spec (Some a) s a y f Hs Hy (Hf y)) as (s' & H1 & H2 & H3 & _). exists s'. split; [done|]. exists (f y). split_and!; [done|done|].
  rewrite Hf. intros H. destruct (upd_spec None s a y f (Hl H) Hy (Hf y)) as (s'' & H1' & H2' & _). congruence.
Qed.

Lemma plain_failure code s : is_dialog s = false -> onFailureReply code s = s.
Proof. unfold onFailureReply. by intros ->. Qed.

Definition fresh (E : sub_env) (s : sipsub) : Prop := at_heap (ss_timers s) !! new_timer E = None.

Lemma reply_to_subscribe_spec E a r s x :
  inv_but None s -> get_sub (subs s) a = Some x -> fresh E s -> exists s', reply_to_subscribe E a r s = Some s' /\ handled a s'.
Proof.
  intros Hs Ha Hf. unfold reply_to_subscribe. rewrite Ha. cbn [mbind option_bind].
  match goal with |- exists s', mbind _ ?m = _ /\ _ => assert (Hmid : exists s1, m = Some s1 /\ handled a s1) end.
  2: { destruct Hmid as (s1 & -> & Hs1). cbn [mbind option_bind]. by apply upd_after. }
  destruct (terminate_after None a s x Hs (or_introl eq_refl) Ha) as (st & Ht & Hst & Hp). destruct (300 <=? sr_code r).
  { destruct (_ || _); [|exists s; split; [done|by eapply after_live]]. rewrite Ht. cbn [mbind option_bind]. by exists st; rewrite plain_failure. }
  set (s1 := if bool_decide (remote_tag s = []) then _ else s).
  assert (Hs1 : inv_but None s1) by (unfold s1; case_bool_decide; [by eapply inv_same, Hs|done]).
  assert (Ha1 : get_sub (subs s1) a = Some x) by (unfold s1; by case_bool_decide).
  assert (Hf1 : fresh E s1) by (unfold s1; by case_bool_decide). clearbody s1. clear st Ht Hst Hp.
  destruct (if bool_decide _ then None else _) as [n|].
  - destruct (n =? 0); [exists s1; split; [done|by eapply after_live]|].
    destruct (set_timer_spec None s1 a (timer_expires a) (n * 1000000) (new_timer E)) as [H1 H1a]; [done|by left|by right|by rewrite Ha1|done|].
    set (s2 := set_sub_timer _ _ _ s1) in *. assert (Ha2 : get_sub (subs s2) a = Some x) by done.
    destruct (upd_spec None s2 a x (s_set_expires (n + unix_clock E)) H1 Ha2 eq_refl) as (s3 & -> & H3 & H3a & H3t & H3q). cbn [mbind option_bind].
    destruct (unset_timer_spec None s3 a (timer_n a) H3 (or_introl eq_refl) (or_introl eq_refl)) as (H4 & _ & _ & H4a).
    eexists. split; [reflexivity|]. eapply after_live; [exact H3a|]. eapply (reguard (Some a) _ a); [exact H4|by right|]. right; left. rewrite H4a, decide_False by (unfold timer_n, timer_expires; lia).
    rewrite H3t, H1a, decide_True; done.
  - case_bool_decide; [|exists s1; split; [done|by eapply after_live]].
    destruct (terminate_after None a s1 x Hs1 (or_introl eq_refl) Ha1) as (st & -> & Hst & Hp). cbn [mbind option_bind]. by exists st; rewrite plain_failure.
Qed.

Lemma reply_to_notify_spec E a req r s x :
  inv_but None s -> get_sub (subs s) a = Some x -> fresh E s -> exists s', reply_to_notify E a req r s = Some s' /\ handled a s'.
Proof.
  intros Hs Ha Hf. unfold reply_to_notify. destruct (300 <=? sr_code r).
  { destruct (ends_subscription _); [|exists s; split; [done|by eapply after_live]].
    destruct (terminate_after None a s x Hs (or_introl eq_refl) Ha) as (st & -> & Hst & Hp). cbn [mbind option_bind]. by exists st; rewrite plain_failure. }
  set (n := if bool_decide _ then 0 else _). clearbody n.
  destruct (unset_timer_spec None s a (timer_n a) Hs (or_introl eq_refl) (or_introl eq_refl)) as (H1 & H1h & _). set (s1 := remove_sub_timer (timer_n a) s) in *.
  assert (Ha1 : get_sub (subs s1) a = Some x) by done. assert (Hf1 : fresh E s1) by (unfold fresh; by rewrite H1h). clearbody s1.
  assert (Hset : forall st, exists s', (s2 ← setState a st s1; upd_sub a (s_set_expires (n + unix_clock E)) (set_sub_timer (timer_expires a) (n * 1000000) (new_timer E) s2)) = Some s' /\ handled a s').
  { intros st. destruct (setState_spec (Some a) s1 a x st H1 Ha1) as (s2 & y & -> & H2 & Hy & Ht & _). cbn [mbind option_bind].
    destruct (set_timer_spec (Some a) s2 a (timer_expires a) (n * 1000000) (new_timer E)) as [H3 _]; [done|by right|by right|by rewrite Hy|unfold fresh in Hf1; by rewrite Ht|].
    destruct (upd_spec None _ a y (s_set_expires (n + unix_clock E)) H3 Hy eq_refl) as (s4 & -> & H4 & H4a & _). exists s4. split; [done|]. by eapply after_live. }
  destruct (_ && bool_decide (_ = lit "active")); [apply Hset|]. destruct (_ && bool_decide (_ = lit "pending")); [apply Hset|].
  destruct (terminate_after (Some a) a s1 x H1 (or_intror eq_refl) Ha1) as (s2 & H2 & H3 & _). by exists s2.
Qed.

Lemma replyFSM_spec E a req r s x :
  inv_but None s -> get_sub (subs s) a = Some x -> fresh E s -> exists s', replyFSM E a req r s = Some s' /\ handled a s'.
Proof.
  intros Hs Ha Hf. unfold replyFSM. assert (Hid : exists s', Some s = Some s' /\ handled a s') by (exists s; split; [done|by eapply after_live]).
  destruct (sr_code r <? 200); [done|]. destruct (is_subscribe _); [by eapply reply_to_subscribe_spec|]. case_bool_decide; [by eapply reply_to_notify_spec|done].
Qed.

(** After a handler the subscription is removed if it is terminated. *)
Lemma after_removed fuel E a s :
  handled a s -> exists s', (t ← sub_terminated a s; if t : bool then removeSubscription E (onReplySent (S fuel) E) a s else Some s) = Some s' /\ inv_but None s'.
Proof.
  intros (y & Hy & Hs & Hl). unfold sub_terminated. rewrite Hy. cbn [mbind option_bind]. case_bool_decide as Ht; [|exists s; split; [done|by apply Hl]].
  destruct (remove_spec fuel E (Some a) a s y Hs (or_intror eq_refl) Hy Ht) as (s' & H1 & H2 & _). by exists s'.
Qed.

Lemma onReplySent_spec fuel E req r s :
  inv_but None s -> fresh E s -> exists s', onReplySent (S (S fuel)) E req r s = Some s' /\ inv_but None s'.
Proof.
  intros Hs Hf. cbn [onReplySent]. destruct (uas_cseq_map s !! sq_cseq req) as [a|] eqn:Ha; [|by exists s].
  destruct (si_uas _ _ Hs _ _ Ha) as [x Hx]. set (s1 := ss_set_uas _ s).
  assert (Hs1 : inv_but None s1).
  { destruct Hs as [H1 H2 H3 H4 H5 H6 H7 H8 H9]. constructor; try done. intros c b Hc. cbn [s1 ss_set_uas uas_cseq_map] in Hc. apply lookup_delete_Some in Hc as [_ Hc]. by eapply H3. }
  destruct (replyFSM_spec E a req r s1 x Hs1 Hx Hf) as (s2 & -> & H2). cbn [mbind option_bind]. by apply (after_removed fuel E a s2).
Qed.

(** [reply] of the dialog *)
Lemma sub_dlg_reply_spec E req code hdrs s :
  inv_but None s -> fresh E s -> exists s', sub_dlg_reply E (sent_hook E) req code hdrs s = Some s' /\ inv_but None s'.
Proof.
  intros Hs Hf. unfold sub_dlg_reply. destruct (uas_trans s !! _); [|by exists s]. destruct (can_send E _); [|by exists s].
  destruct (onReplySent_spec 0 E req (mk_sr code (sq_method req) (if 100 <? code then local_tag E else []) hdrs) (ss_emit (OReply (sq_cseq req) code) s)) as (s1 & H1 & H2);
    [by eapply inv_same, Hs|done|].
  unfold sent_hook, REPLY_DEPTH. rewrite H1. cbn [mbind option_bind]. eexists. split; [reflexivity|]. destruct (200 <=? code); [|done].
  destruct H2 as [I1 I2 I3 I4 I5 I6 I7 I8 I9]. constructor; try done. intros c q Hc. cbn [ss_set_trans uas_trans] in Hc. apply lookup_delete_Some in Hc as [_ Hc]. by apply I5.
Qed.

(** ** Requests *)

Lemma find_get f l a x : NoDup l.*1 -> List.find f l = Some (a, x) -> get_sub l a = Some x.
Proof.
  intros Hn [Hin%list_elem_of_In _]%find_some. induction l as [|[b y] l IH]; [by apply elem_of_nil in Hin|]. apply NoDup_cons in Hn as [Hb Hn]. cbn.
  apply elem_of_cons in Hin as [[= -> ->]|Hin]; [by rewrite Nat.eqb_refl|]. rewrite (proj2 (Nat.eqb_neq b a)); [by apply IH|].
  intros ->. apply Hb. apply list_elem_of_fmap. by exists (a, x).
Qed.

Lemma find_spec E role ev id s :
  inv_but None s ->
  exists s' it, findSubscription E role ev id s = Some (s', it) /\ inv_but None s' /\ at_heap (ss_timers s') = at_heap (ss_timers s) /\
    (forall b, get_sub (subs s) b = None -> get_sub (subs s') b = None) /\
    (forall a, it = Some a -> exists x, get_sub (subs s') a = Some x /\ sub_state x <> SubState_terminated).
Proof.
  intros Hs. unfold findSubscription. destruct (List.find _ _) as [[a x]|] eqn:Hf; [|by exists s, None]. apply find_get in Hf; [|apply (si_nodup _ _ Hs)].
  case_bool_decide as Hx.
  - destruct (remove_spec 1 E None a s x Hs (or_introl eq_refl) Hf Hx) as (s' & H1 & H2 & H3 & H4 & _). unfold sent_hook, REPLY_DEPTH. rewrite H1. cbn [mbind option_bind].
    exists s', None. split_and!; try done. intros b Hb. by rewrite H4, get_without, Hb; destruct (a =? b)%nat.
  - exists s, (Some a). split_and!; try done. intros b [= <-]. by exists x.
Qed.

Lemma get_sub_app l a x b : get_sub l a = None -> get_sub (l ++ [(a, x)]) b = if (a =? b)%nat then Some x else get_sub l b.
Proof.
  induction l as [|[c y] l IH]; cbn; [by destruct (a =? b)%nat|]. destruct (Nat.eqb_spec c a) as [|Hne]; [done|]. intros Hl.
  destruct (Nat.eqb_spec c b) as [->|]; [by rewrite (proj2 (Nat.eqb_neq a b)) by congruence|by apply IH].
Qed.

(** A subscription that was just made. *)
Definition made (E : sub_env) (req : sub_request) (s : sipsub) : Prop :=
  exists x, get_sub (subs s) (new_sub E) = Some x /\ sub_state x = SubState_init /\ pending_subscribe x = 0 /\
    is_subscribe (sq_method req) = true /\ inv_but (Some (new_sub E)) s.

Lemma create_spec E req uac s :
  inv_but None s -> get_sub (subs s) (new_sub E) = None ->
  let '(s', it) := createSubscription E req uac s in
  ss_timers s' = ss_timers s /\ ((it = None /\ s' = s) \/ (it = Some (new_sub E) /\ made E req s')).
Proof.
  intros Hs Hn. unfold createSubscription. destruct (makeSubscription req uac) as [x|] eqn:Hm; [|split; [done|by left]]. split; [done|right]. split; [done|].
  assert (Hg : forall b, is_Some (get_sub (subs s) b) -> is_Some (get_sub (subs s ++ [(new_sub E, x)]) b)) by (intros b Hb; rewrite get_sub_app by done; by destruct (_ =? _)%nat).
  assert (Hx : sub_state x = SubState_init /\ pending_subscribe x = 0 /\ is_subscribe (sq_method req) = true).
  { unfold makeSubscription in Hm. destruct (sq_method req); try done; [destruct (event_of (sq_hdrs req))|]; by injection Hm as <-. }
  destruct Hx as (Hx1 & Hx2 & Hx3). exists x. split_and!; try done; [by cbn; rewrite get_sub_app, Nat.eqb_refl|].
  constructor; cbn [ss_set_subs ss_set_usages subs ss_timers uas_cseq_map uac_cseq_map uas_trans usages is_dialog]; try (by apply Hs).
  - rewrite fmap_app. apply NoDup_app. split_and!; [apply (si_nodup _ _ Hs)| |apply NoDup_singleton].
    intros b Hb ->%list_elem_of_singleton. apply get_sub_elem in Hb as [y Hy]. cbn in Hy. congruence.
  - intros c b Hc. apply Hg. by eapply (si_uas _ _ Hs).
  - intros c b Hc. apply Hg. by eapply (si_uac _ _ Hs).
  - rewrite (si_usages _ _ Hs). unfold live, u32. rewrite Zplus_mod_idemp_l, List.filter_app, length_app. cbn [List.filter].
    assert (is_live (new_sub E, x) = true) as -> by (unfold is_live; cbn [snd]; by rewrite Hx1). cbn [length]. f_equal. lia.
  - intros dt Hd. apply Hg. by apply (si_armed _ _ Hs).
  - intros b Hb Hne. rewrite get_sub_app in Hb by done. rewrite (proj2 (Nat.eqb_neq _ b)) in Hb by congruence. apply (si_guard _ _ Hs); done.
Qed.

Lemma match_spec E req uac s :
  inv_but None s -> get_sub (subs s) (new_sub E) = None ->
  exists s' it, matchSubscription E req uac s = Some (s', it) /\ at_heap (ss_timers s') = at_heap (ss_timers s) /\
    ((inv_but None s' /\ forall a, it = Some a -> exists x, get_sub (subs s') a = Some x /\ sub_state x <> SubState_terminated) \/
     (it = Some (new_sub E) /\ made E req s')).
Proof.
  intros Hs Hn.
  assert (Hcr : forall s, inv_but None s -> get_sub (subs s) (new_sub E) = None -> exists s' it, Some (createSubscription E req uac s) = Some (s', it) /\ at_heap (ss_timers s') = at_heap (ss_timers s) /\
    ((inv_but None s' /\ forall a, it = Some a -> exists x, get_sub (subs s') a = Some x /\ sub_state x <> SubState_terminated) \/ (it = Some (new_sub E) /\ made E req s'))).
  { clear s Hs Hn. intros s Hs Hn. pose proof (create_spec E req uac s Hs Hn) as Hc. destruct (createSubscription E req uac s) as [s' it]. exists s', it. destruct Hc as [-> [[-> ->]|Hc]]; split_and!; try done; [by left|by right]. }
  unfold matchSubscription. destruct (_ || _); [by apply Hcr|]. destruct (event_of (sq_hdrs req)) as [ev id].
  assert (Hfind : forall role, exists s' it, (m ← findSubscription E role ev id s;
      match m with (s, None) => if bool_decide (sq_method req = SUBSCRIBE) then Some (createSubscription E req uac s) else Some (s, None) | m => Some m end) = Some (s', it) /\
      at_heap (ss_timers s') = at_heap (ss_timers s) /\
    ((inv_but None s' /\ forall a, it = Some a -> exists x, get_sub (subs s') a = Some x /\ sub_state x <> SubState_terminated) \/ (it = Some (new_sub E) /\ made E req s'))).
  { intros role. destruct (find_spec E role ev id s Hs) as (s1 & it & -> & H1 & H2 & H3 & H4). cbn [mbind option_bind].
    destruct it as [a|]; [exists s1, (Some a); split_and!; try done; by left|]. case_bool_decide; [|exists s1, None; split_and!; try done; by left].
    destruct (Hcr s1 H1 (H3 _ Hn)) as (s2 & it & H5 & H6 & H7). exists s2, it. split_and!; try done. by rewrite H6. }
  destruct (sq_method req); [apply Hfind|by exists s, None; split_and!; try done; left|apply Hfind|by exists s, None; split_and!; try done; left].
Qed.

Lemma requestFSM_spec E ex a req s x :
  inv_but ex s -> ex = None \/ (ex = Some a /\ is_subscribe (sq_method req) = true) -> get_sub (subs s) a = Some x -> fresh E s ->
  exists s', requestFSM E a req s = Some s' /\ inv_but None s'.
Proof.
  intros Hs Hex Ha Hf. unfold requestFSM. destruct (is_subscribe (sq_method req)) eqn:Hm.
  - rewrite Ha. cbn [mbind option_bind].
    assert (H1 : exists s1 y, (if bool_decide (sub_state x = SubState_init) then setState a SubState_notify_wait s else Some s) = Some s1 /\ inv_but ex s1 /\ get_sub (subs s1) a = Some y /\ ss_timers s1 = ss_timers s).
    { case_bool_decide; [|by exists s, x]. destruct (setState_spec ex s a x SubState_notify_wait Hs Ha) as (s1 & y & H1 & H2 & H3 & H4 & _). by exists s1, y. }
    destruct H1 as (s1 & y & -> & H1 & Hy & Ht). cbn [mbind option_bind]. eexists. split; [reflexivity|].
    eapply (set_timer_spec ex s1 a); [done|tauto|by left|by rewrite Hy|unfold fresh in Hf; by rewrite Ht].
  - destruct Hex as [->|[_ ?]]; [|done]. exists s. split; [|done]. unfold onNotify. rewrite (si_plain _ _ Hs). by case_bool_decide.
Qed.

Lemma map_inv ex s m m' :
  inv_but ex s -> (forall c a, m !! c = Some a -> is_Some (get_sub (subs s) a)) -> (forall c a, m' !! c = Some a -> is_Some (get_sub (subs s) a)) ->
  inv_but ex (ss_set_uas m (ss_set_uac m' s)).
Proof. intros [H1 H2 H3 H4 H5 H6 H7 H8 H9] Hm Hm'. by constructor. Qed.

Lemma map_add ex s c a : inv_but ex s -> is_Some (get_sub (subs s) a) ->
  inv_but ex (ss_set_uas (<[c := a]> (uas_cseq_map s)) s) /\ inv_but ex (ss_set_uac (<[c := a]> (uac_cseq_map s)) s).
Proof.
  intros Hs Ha. split.
  - eapply (inv_same ex (ss_set_uas (<[c := a]> (uas_cseq_map s)) (ss_set_uac (uac_cseq_map s) s))); try done. apply map_inv; [done| |apply (si_uac _ _ Hs)].
    intros c' b [[_ <-]|[_ H]]%lookup_insert_Some; [done|]. by eapply (si_uas _ _ Hs).
  - eapply (inv_same ex (ss_set_uas (uas_cseq_map s) (ss_set_uac (<[c := a]> (uac_cseq_map s)) s))); try done. apply map_inv; [done|apply (si_uas _ _ Hs)|].
    intros c' b [[_ <-]|[_ H]]%lookup_insert_Some; [done|]. by eapply (si_uac _ _ Hs).
Qed.

Lemma onRequestIn_spec E req s :
  inv_but None s -> get_sub (subs s) (new_sub E) = None -> fresh E s -> exists s' b, onRequestIn E req s = Some (s', b) /\ inv_but None s'.
Proof.
  intros Hs Hn Hf. unfold onRequestIn. destruct (match_spec E req false s Hs Hn) as (s1 & it & -> & Hh & Hcase). cbn [mbind option_bind].
  assert (Hf1 : fresh E s1) by (unfold fresh; by rewrite Hh).
  destruct it as [a|].
  - assert (Hx : exists ex x, get_sub (subs s1) a = Some x /\ sub_state x <> SubState_terminated /\ inv_but ex s1 /\
      (ex = None \/ ex = Some a /\ is_subscribe (sq_method req) = true /\ pending_subscribe x = 0)).
    { destruct Hcase as [[H1 H2]|[[= ->] (x & H1 & H2 & H3 & H4 & H5)]].
      - destruct (H2 a eq_refl) as (x & Hx & Hne). exists None, x. split_and!; try done. by left.
      - exists (Some (new_sub E)), x. split_and!; try done; [by rewrite H2|by right]. }
    destruct Hx as (ex & x & Hx & Hne & H1 & Hex). unfold sub_terminated. rewrite Hx. cbn [mbind option_bind]. rewrite bool_decide_false by done.
    destruct (map_add ex s1 (sq_cseq req) a H1 (mk_is_Some _ _ Hx)) as [H2 _]. set (s2 := ss_set_uas _ s1) in *.
    unfold single_onRequestIn. destruct (is_subscribe (sq_method req)) eqn:Hm.
    + change (get_sub (subs s2) a) with (get_sub (subs s1) a). rewrite Hx. cbn [mbind option_bind]. destruct (Z.eqb_spec (pending_subscribe x) 0) as [Hp|Hp]; cbn [negb].
      * destruct (upd_spec ex s2 a x (fun x => s_set_pending (pending_subscribe x + 1) x) H2 Hx eq_refl) as (s3 & -> & H3 & Hx3 & Ht & _). cbn [mbind option_bind].
        destruct (requestFSM_spec E ex a req s3 (s_set_pending (pending_subscribe x + 1) x) H3) as (s4 & -> & H4); [destruct Hex as [?|(? & _)]; [by left|by right]|exact Hx3|unfold fresh; by rewrite Ht|]. by exists s4, true.
      * destruct Hex as [->|(_ & _ & ?)]; [|done]. destruct (sub_dlg_reply_spec E req 500 [] s2 H2 Hf1) as (s3 & -> & H3). by exists s3, false.
    + destruct Hex as [->|(_ & ? & _)]; [|done]. destruct (requestFSM_spec E None a req s2 x H2) as (s4 & -> & H4); [by left|exact Hx|done|]. by exists s4, true.
  - cbn [mbind option_bind]. destruct Hcase as [[H1 _]|[? _]]; [|done]. destruct (_ && _); [by exists s1, true|].
    destruct (sub_dlg_reply_spec E req 481 [] s1 H1 Hf1) as (s3 & -> & H3). by exists s3, false.
Qed.

Lemma onRequestSent_spec E req s :
  inv_but None s -> get_sub (subs s) (new_sub E) = None -> fresh E s -> exists s', onRequestSent E req s = Some s' /\ inv_but None s'.
Proof.
  intros Hs Hn Hf. unfold onRequestSent. destruct (match_spec E req true s Hs Hn) as (s1 & it & -> & Hh & Hcase). cbn [mbind option_bind].
  assert (Hf1 : fresh E s1) by (unfold fresh; by rewrite Hh).
  destruct it as [a|]; [|destruct Hcase as [[H1 _]|[? _]]; [by exists s1|done]].
  assert (Hx : exists ex x, get_sub (subs s1) a = Some x /\ inv_but ex s1 /\ (ex = None \/ ex = Some a /\ is_subscribe (sq_method req) = true)).
  { destruct Hcase as [[H1 H2]|[[= ->] (x & H1 & H2 & H3 & H4 & H5)]].
    - destruct (H2 a eq_refl) as (x & Hx & Hne). exists None, x. split_and!; try done. by left.
    - exists (Some (new_sub E)), x. split_and!; try done. by right. }
  destruct Hx as (ex & x & Hx & H1 & Hex). destruct (map_add ex s1 (sq_cseq req) a H1 (mk_is_Some _ _ Hx)) as [_ H2]. set (s2 := ss_set_uac _ s1) in *.
  unfold single_onRequestSent.
  assert (H3 : exists s3 y, (if is_subscribe (sq_method req) then upd_sub a (fun x => s_set_pending (pending_subscribe x + 1) x) s2 else Some s2) = Some s3 /\ inv_but ex s3 /\
    get_sub (subs s3) a = Some y /\ ss_timers s3 = ss_timers s2).
  { destruct (is_subscribe _); [|by exists s2, x]. destruct (upd_spec ex s2 a x (fun x => s_set_pending (pending_subscribe x + 1) x) H2 Hx eq_refl) as (s3 & H3 & H4 & Hx3 & Ht & _). by eexists s3, _. }
  destruct H3 as (s3 & y & -> & H3 & Hy & Ht). cbn [mbind option_bind]. eapply requestFSM_spec; [done|tauto|exact Hy|unfold fresh; by rewrite Ht].
Qed.

Lemma onReplyIn_spec E req r s : inv_but None s -> fresh E s -> exists s' b, onReplyIn E req r s = Some (s', b) /\ inv_but None s'.
Proof.
  intros Hs Hf. unfold onReplyIn. destruct (uac_cseq_map s !! sq_cseq req) as [a|] eqn:Ha; [|by eexists s, _].
  destruct (si_uac _ _ Hs _ _ Ha) as [x Hx]. set (s1 := ss_set_uac _ s).
  assert (Hs1 : inv_but None s1).
  { destruct Hs as [H1 H2 H3 H4 H5 H6 H7 H8 H9]. constructor; try done. intros c b Hc. cbn [s1 ss_set_uac uac_cseq_map] in Hc. apply lookup_delete_Some in Hc as [_ Hc]. by eapply H4. }
  destruct (replyFSM_spec E a req r s1 x Hs1 Hx Hf) as (s2 & -> & H2). cbn [mbind option_bind].
  destruct (after_removed 1 E a s2 H2) as (s3 & H3 & H4). unfold sub_terminated in *. destruct H2 as (y & Hy & _). rewrite Hy in *. cbn [mbind option_bind] in *.
  unfold sent_hook, REPLY_DEPTH. rewrite H3. by exists s3, true.
Qed.

Lemma onTimeout_spec E a s :
  inv_but (Some a) s -> fresh E s ->
  exists s', onTimeout E a s = Some s' /\ inv_but None s' /\ subs s' = without a (subs s).
Proof.
  intros Hs Hf. unfold onTimeout. destruct (get_sub (subs s) a) as [x|] eqn:Hx.
  - destruct (setState_spec (Some a) s a x SubState_terminated Hs Hx) as (s1 & y & H1 & H2 & Hy & Ht & Hst & _).
    assert (Hsub : without a (subs s1) = without a (subs s)).
    { unfold setState in H1. rewrite Hx in H1. cbn [mbind option_bind] in H1. case_bool_decide; injection H1 as <-; [done|]. cbn [ss_set_usages ss_set_subs subs].
      clear. induction (subs s) as [|[b z] l IH]; [done|]. cbn. destruct (Nat.eqb_spec b a) as [->|Hne]; cbn; [by rewrite Nat.eqb_refl|]. rewrite (proj2 (Nat.eqb_neq b a)) by done. unfold without in IH. cbn. by rewrite IH. }
    unfold sub_terminate. rewrite H1. cbn [mbind option_bind]. assert (sub_state y = SubState_terminated) as Hy' by (rewrite Hst; by case_bool_decide).
    destruct (remove_spec 1 E (Some a) a s1 y H2 (or_intror eq_refl) Hy Hy') as (s2 & H3 & H4 & _ & H5 & _).
    unfold sent_hook, REPLY_DEPTH. rewrite H3. cbn [mbind option_bind]. rewrite (si_plain _ _ H4). exists s2. by rewrite H5, Hsub.
  - cbn [mbind option_bind]. rewrite (si_plain _ _ Hs). exists s. split_and!; [done| |].
    + destruct Hs as [H1 H2 H3 H4 H5 H6 H7 H8 H9]. constructor; try done. intros b Hb _. apply H8; [done|]. intros [= ->]. rewrite Hx in Hb. by destruct Hb.
    + unfold without. clear -Hx. induction (subs s) as [|[b z] l IH]; [done|]. cbn in *. destruct (b =? a)%nat; [done|]. cbn. by rewrite <- IH.
Qed.

Lemma terminate_all_spec s : inv_but None s -> exists s', terminate_all s = Some s' /\ inv_but None s'.
Proof.
  intros Hs. unfold terminate_all. assert (Hl : forall a, a ∈ map fst (subs s) -> is_Some (get_sub (subs s) a)) by (intros a Ha; by apply get_sub_elem).
  revert Hs Hl. generalize (map fst (subs s)) as l. intros l. revert s. induction l as [|a l IH]; intros s Hs Hl; [by exists s|]. cbn [fold_left mbind option_bind].
  destruct (Hl a ltac:(by left)) as [x Hx]. destruct (setState_spec None s a x SubState_terminated Hs Hx) as (s1 & y & H1 & H2 & Hy & _).
  unfold sub_terminate at 2. rewrite H1. apply IH; [done|]. intros b Hb. apply get_sub_elem.
  assert (Hk : (subs s1).*1 = (subs s).*1).
  { unfold setState in H1. rewrite Hx in H1. cbn [mbind option_bind] in H1. case_bool_decide; injection H1 as <-; [done|]. cbn. by rewrite put_sub_keys. }
  rewrite Hk. apply get_sub_elem, Hl. by right.
Qed.

(** ** The timers *)

Lemma armed_same_inv s w :
  inv_but None s -> Inv w -> (forall dt, armed w (DirectT dt) = armed (ss_timers s) (DirectT dt)) -> inv_but None (ss_set_timers w s).
Proof.
  intros [H1 H2 H3 H4 H5 H6 H7 H8 H9] Hw Ha. constructor; try done.
  - intros dt. cbn [ss_set_timers ss_timers subs]. rewrite Ha. apply H7.
  - intros a Hx He. apply (guarded_ext s); [|done|by apply H8]. intros dt _. cbn [ss_set_timers ss_timers]. by rewrite Ha.
Qed.

(** What a step of the timers does to direct timers. *)
Lemma timer_cases l w :
  Inv w -> enabled l w = true -> (forall dt, touches l (DirectT dt) = false) ->
  exists w', app_do l w = Some w' /\ Inv w' /\
    ((at_events w' = at_events w /\ (forall dt, armed w' (DirectT dt) = armed w (DirectT dt))) \/
     (exists k, at_events w' = at_events w ++ [k] /\ armed w k <> None /\ forall dt, armed w' (DirectT dt) = if decide (DirectT dt = k) then None else armed w (DirectT dt))).
Proof.
  intros Hw He Ht. destruct l as [q id to p|q id|q|dt to p|dt| |]; cbn [app_do].
  - destruct (setTimer_spec q id to p w Hw) as (H1 & (_ & H2 & _) & H3); [by apply bool_decide_eq_true in He|]. eexists. split_and!; [done|done|left; split; [done|]]. intros dt. by rewrite H3.
  - destruct (removeTimer_spec q id w Hw) as (H1 & (_ & H2 & _) & _ & H3). eexists. split_and!; [done|done|left; split; [done|]]. intros dt. by rewrite H3.
  - destruct (removeTimers_spec q w Hw) as (H1 & (_ & H2 & _) & H3). eexists. split_and!; [done|done|left; split; [done|]]. intros dt. by rewrite H3.
  - specialize (Ht dt). cbn in Ht. by rewrite Nat.eqb_refl in Ht.
  - specialize (Ht dt). cbn in Ht. by rewrite Nat.eqb_refl in Ht.
  - destruct (tick_spec w Hw He) as (w' & H1 & H2 & _ & H3 & H4 & _). exists w'. split_and!; [done|done|left; split; [done|]]. intros dt. apply H4.
  - cbn in He. destruct (at_firing w) as [|t f] eqn:Hf; [done|]. destruct (fire_spec w t f Hw Hf) as (w' & H1 & H2 & _ & _ & Hc). exists w'. split_and!; [done|done|].
    destruct Hc as [(k & H3 & H4 & H5)|(_ & H4 & H5)]; [right; exists k|by left]. split_and!; [done|by rewrite H3|]. intros dt. by rewrite H4.
Qed.

Lemma timer_step_spec E l s :
  inv_but None s -> sub_enabled E (STimer l) s = true -> exists s', timer_step l s = Some s' /\ inv_but None s'.
Proof.
  intros Hs He. assert (Hen : enabled l (ss_timers s) = true /\ forall dt, touches l (DirectT dt) = false) by (by destruct l).
  destruct Hen as [Hen Ht]. destruct (timer_cases l _ (si_timers _ _ Hs) Hen Ht) as (w & Hd & Hw & Hc). unfold timer_step. rewrite Hd. cbn [mbind option_bind].
  destruct Hc as [[-> Ha]|(k & -> & Hk & Ha)].
  - rewrite drop_all. cbn [fold_left]. eexists. split; [reflexivity|]. by apply armed_same_inv.
  - rewrite drop_app_length. cbn [fold_left on_event mbind option_bind]. destruct k as [q id|dt].
    + eexists. split; [reflexivity|]. apply armed_same_inv; [done|done|]. intros d. by rewrite Ha, decide_False.
    + unfold onTimer. cbn [ss_set_timers subs]. destruct (si_armed _ _ Hs dt Hk) as [x Hx]. rewrite Hx. cbn [mbind option_bind]. eexists. split; [reflexivity|].
      destruct Hs as [H1 H2 H3 H4 H5 H6 H7 H8 H9]. constructor; try done; cbn [ss_set_ev ss_set_timers ss_timers subs].
      * intros d. rewrite Ha. case_decide; [done|]. apply H7.
      * intros b Hb _. unfold guarded. cbn [ss_set_ev ss_set_timers ss_timers ev_q]. destruct (decide (b = Nat.div2 dt)) as [->|Hne].
        { right; right. eexists. apply elem_of_app. right. apply list_elem_of_singleton. reflexivity. }
        assert (Hk2 : forall d, own_timer b d -> armed w (DirectT d) = armed (ss_timers s) (DirectT d)).
        { intros d Hdo%own_timer_sub. rewrite Ha, decide_False; [done|]. intros [= ->]. congruence. }
        rewrite (Hk2 (timer_n b)), (Hk2 (timer_expires b)) by first [by left|by right]. destruct (H8 b Hb ltac:(done)) as [?|[?|[id ?]]]; [by left|right; by left|].
        right; right. exists id. apply elem_of_app. by left.
Qed.

(** Every step. *)
Lemma sub_step E l s : inv_but None s -> sub_enabled E l s = true -> exists s', sub_do E l s = Some s' /\ inv_but None s'.
Proof.
  intros Hs He. destruct l as [req|req|req r|req code hdrs| | |l].
  7: by eapply timer_step_spec.
  all: cbn [sub_enabled] in He; apply andb_true_iff in He as [Hn%bool_decide_eq_true Hf%bool_decide_eq_true]; cbn [sub_do].
  - destruct (onRequestIn_spec E req (ss_set_trans (<[sq_cseq req := req]> (uas_trans s)) s)) as (s' & b & -> & H); [|done|done|by exists s'].
    destruct Hs as [H1 H2 H3 H4 H5 H6 H7 H8 H9]. constructor; try done. intros c q Hc. cbn [ss_set_trans uas_trans] in Hc. apply lookup_insert_Some in Hc as [[<- <-]|[_ Hc]]; [done|by apply H5].
  - by apply onRequestSent_spec.
  - destruct (onReplyIn_spec E req r s Hs Hf) as (s' & b & -> & H). by exists s'.
  - by apply sub_dlg_reply_spec.
  - destruct (ev_q s) as [|[id a] q] eqn:Hq; [by exists s|]. destruct (onTimeout_spec E a (ss_set_ev q s)) as (s' & H1 & H2 & _); [|done|by exists s'].
    destruct Hs as [H1 H2 H3 H4 H5 H6 H7 H8 H9]. constructor; try done. intros b Hb Hne. destruct (H8 b Hb ltac:(done)) as [?|[?|[id' Hin]]]; [by left|right; by left|].
    right; right. exists id'. cbn. rewrite Hq in Hin. apply elem_of_cons in Hin as [[= -> ->]|?]; [done|done].
  - by apply terminate_all_spec.
Qed.

Lemma ss_init_inv allow tag : inv_but None (ss_init allow false tag).
Proof.
  constructor; cbn; try done.
  - exact app_init_inv.
  - constructor.
Qed.

Lemma sub_run_inv ls s s' : sub_run ls s s' -> inv_but None s -> inv_but None s'.
Proof.
  induction 1 as [|E l ls s s1 s2 He Hd _ IH]; [done|]. intros Hs. apply IH. destruct (sub_step E l s Hs He) as (s3 & Hd' & ?). congruence.
Qed.

(** The end of all subscriptions: the loop removes every one, and no timer is left that would
    fire on a deleted object. *)
Theorem destroy_leaves_nothing allow tag ls s E :
  sub_run ls (ss_init allow false tag) s ->
  exists s', destroy E s = Some s' /\ subs s' = [] /\ (forall dt, armed (ss_timers s') (DirectT dt) = None) /\ uas_cseq_map s' = ∅ /\ uac_cseq_map s' = ∅.
Proof.
  intros Hr. pose proof (sub_run_inv _ _ _ Hr (ss_init_inv allow tag)) as [H1 _ H3 H4 H5 _ H7 _ _]. clear Hr. unfold destroy.
  cut (forall fuel, (length (subs s) <= fuel)%nat -> exists s', destroy_loop fuel E s = Some s' /\ subs s' = [] /\
    (forall dt, armed (ss_timers s') (DirectT dt) = None) /\ uas_cseq_map s' = ∅ /\ uac_cseq_map s' = ∅); [intros H; by apply H|].
  assert (Hempty : forall fuel s, subs s = [] -> (forall c a, uas_cseq_map s !! c = Some a -> is_Some (get_sub [] a)) -> (forall c a, uac_cseq_map s !! c = Some a -> is_Some (get_sub [] a)) ->
    (forall dt, armed (ss_timers s) (DirectT dt) <> None -> is_Some (get_sub [] (snd (sub_of_timer dt)))) ->
    exists s', destroy_loop fuel E s = Some s' /\ subs s' = [] /\ (forall dt, armed (ss_timers s') (DirectT dt) = None) /\ uas_cseq_map s' = ∅ /\ uac_cseq_map s' = ∅).
  { clear. intros fuel s Hsub H3 H4 H7. exists s. split_and!; try done; [by destruct fuel; cbn; rewrite Hsub| | |].
    - intros dt. destruct (armed _ _) eqn:He; [|done]. destruct (H7 dt) as [? Hx]; [by rewrite He|done].
    - apply map_empty. intros c. destruct (uas_cseq_map s !! c) eqn:He; [|done]. by destruct (H3 _ _ He).
    - apply map_empty. intros c. destruct (uac_cseq_map s !! c) eqn:He; [|done]. by destruct (H4 _ _ He). }
  intros fuel. revert s H1 H3 H4 H5 H7. induction fuel as [|fuel IH]; intros s H1 H3 H4 H5 H7 Hl.
  - destruct (subs s) as [|[a x] l] eqn:Hsub; [|cbn in Hl; lia]. by apply Hempty.
  - destruct (subs s) as [|[a x] l] eqn:Hsub.
    { by apply Hempty. }
    cbn [destroy_loop]. rewrite Hsub. destruct (remove_effect 1 E a s H1 H5) as (s' & Hrm & R1 & R2 & R3 & _ & _ & _ & _ & _ & R4 & R5 & R6); [by rewrite Hsub; cbn; rewrite Nat.eqb_refl|].
    unfold sent_hook, REPLY_DEPTH. rewrite Hrm. cbn [mbind option_bind].
    assert (Hg : forall b, b <> a -> is_Some (get_sub (subs s) b) -> is_Some (get_sub (subs s') b)) by (intros b Hb H; by rewrite R3, get_without, (proj2 (Nat.eqb_neq a b))).
    apply IH; [done| | |done| |].
    + intros c b [Hb H]%R4. apply Hg; [done|]. rewrite Hsub. by eapply H3.
    + intros c b [Hb H]%R5. apply Hg; [done|]. rewrite Hsub. by eapply H4.
    + intros dt. rewrite R6. destruct (Nat.eqb_spec (Nat.div2 dt) a) as [|Hd]; [done|]. intros H. apply Hg; [done|]. rewrite Hsub. by apply H7.
    + rewrite R3, Hsub. unfold without. cbn [List.filter fst]. rewrite Nat.eqb_refl. cbn [negb]. pose proof (List.filter_length_le (fun x => negb (fst x =? a)%nat) l). cbn in Hl. lia.
Qed.

(** C21: the subscriptions of a dialog are safe.  For an [AmSipSubscription] on its own (not in
    an [AmSipSubscriptionDialog], whose [onNotify] uses a deleted subscription,
    [terminating_notify_faults]), whatever requests and replies come and go, in
    whatever order the session replies and timers go off, no handler uses a subscription that
    was deleted or an iterator that is no longer valid, and the handlers do not call each
    other without end; the usages of the dialog are the subscriptions that are not terminated;
    and no subscription is forgotten: one of its timers runs, or its time-out is waiting. *)
Theorem subscriptions_safe allow tag ls s E l :
  sub_run ls (ss_init allow false tag) s -> sub_enabled E l s = true ->
  sub_do E l s <> None /\
  usages s = u32 (live (subs s)) /\
  (forall a, is_Some (get_sub (subs s) a) -> guarded s a) /\
  (forall dt, armed (ss_timers s) (DirectT dt) <> None -> is_Some (get_sub (subs s) (snd (sub_of_timer dt)))).
Proof.
  intros Hr He. pose proof (sub_run_inv _ _ _ Hr (ss_init_inv allow tag)) as Hs. destruct (sub_step E l s Hs He) as (s' & -> & _).
  split_and!; [done|apply Hs| |apply Hs]. intros a Ha. by apply (si_guard _ _ Hs).
Qed.

(** ** The end of a subscription *)

(** How many time-outs of the expiry of a subscription are waiting. *)
Definition expiries (a : nat) (s : sipsub) : nat :=
  length (List.filter (fun x => match fst x with SUBSCRIPTION_EXPIRE => (snd x =? a)%nat | _ => false end) (ev_q s)).

(** A run of the timers alone: no message comes any more. *)
Definition quiet (l : sub_env * sub_label) : Prop := match snd l with STimer _ => True | _ => False end.

Lemma timer_step_app l s s' : timer_step l s = Some s' -> app_do l (ss_timers s) = Some (ss_timers s').
Proof.
  unfold timer_step. destruct (app_do l (ss_timers s)) as [w|]; [|done]. cbn [mbind option_bind]. intros H. f_equal.
  change w with (ss_timers (ss_set_timers w s)). revert H. generalize (ss_set_timers w s) as s0. generalize (drop (length (at_events (ss_timers s))) (at_events w)) as ks. clear.
  intros ks. induction ks as [|k ks IH]; intros s0; cbn [fold_left]; [by intros [= ->]|]. destruct (on_event (Some s0) k) as [s1|] eqn:He.
  - intros H%IH. rewrite <- H. cbn in He. destruct k as [q id|dt]; [by injection He as ->|]. unfold onTimer in He. destruct (get_sub _ _); [|done]. by injection He as <-.
  - clear. intros H. exfalso. by induction ks.
Qed.

Lemma expiries_step E l s s' a :
  inv_but None s -> sub_enabled E (STimer l) s = true -> timer_step l s = Some s' ->
  (expiries a s' + posts (DirectT (timer_expires a)) (ss_timers s) = expiries a s + posts (DirectT (timer_expires a)) (ss_timers s'))%nat.
Proof.
  intros Hs He. assert (Hen : enabled l (ss_timers s) = true /\ forall dt, touches l (DirectT dt) = false) by (by destruct l). destruct Hen as [Hen Ht].
  destruct (timer_cases l _ (si_timers _ _ Hs) Hen Ht) as (w & Hd & Hw & Hc). unfold timer_step. rewrite Hd. cbn [mbind option_bind].
  destruct Hc as [[Hev _]|(k & Hev & Hk & _)].
  - rewrite Hev, drop_all. intros [= <-]. unfold expiries. cbn [ss_set_timers ev_q ss_timers]. rewrite (posts_same _ (ss_timers s) w) by done. lia.
  - rewrite Hev, drop_app_length. cbn [fold_left on_event mbind option_bind]. destruct k as [q id|dt].
    + intros [= <-]. unfold expiries. cbn [ss_set_timers ev_q ss_timers]. rewrite (posts_app _ (AppT q id) (ss_timers s) w Hev), decide_False by done. lia.
    + unfold onTimer. destruct (get_sub _ _); [|done]. cbn [mbind option_bind]. intros [= <-]. unfold expiries. cbn [ss_set_timers ss_set_ev ev_q ss_timers].
      rewrite (posts_app _ (DirectT dt) (ss_timers s) w Hev), List.filter_app, length_app. cbn [List.filter sub_of_timer fst snd].
      assert (Hiff : (if Nat.even dt then false else (Nat.div2 dt =? a)%nat) = bool_decide (DirectT dt = DirectT (timer_expires a))).
      { unfold timer_expires. destruct (Nat.even dt) eqn:Hev'.
        - rewrite bool_decide_false; [done|]. intros [= Hd2]. replace dt with (2 * a + 1)%nat in Hev' by lia. by rewrite Nat.even_odd in Hev'.
        - assert (Hodd : dt = (2 * Nat.div2 dt + 1)%nat) by (rewrite (Nat.div2_odd dt) at 1; unfold Nat.odd; rewrite Hev'; done).
          destruct (Nat.eqb_spec (Nat.div2 dt) a) as [<-|Hne]; [by rewrite bool_decide_true by congruence|]. rewrite bool_decide_false; [done|]. intros [= Hd2]. apply Hne. lia. }
      destruct (Nat.even dt); cbn [fst snd]; [|destruct (Nat.div2 dt =? a)%nat];
        (destruct (decide (DirectT dt = DirectT (timer_expires a))) as [Hx|Hx]; [rewrite bool_decide_true in Hiff by done|rewrite bool_decide_false in Hiff by done]);
        try done; cbn [length]; lia.
Qed.

Lemma quiet_run ls s s' a :
  sub_run ls s s' -> Forall quiet ls -> inv_but None s ->
  (expiries a s' + posts (DirectT (timer_expires a)) (ss_timers s) = expiries a s + posts (DirectT (timer_expires a)) (ss_timers s'))%nat /\
  exists ls', app_run ls' (ss_timers s) (ss_timers s') /\ Forall (fun l => touches l (DirectT (timer_expires a)) = false) ls'.
Proof.
  induction 1 as [|E l ls s s1 s2 He Hd _ IH]; intros Hq Hs; [split; [lia|by exists []; split; constructor]|].
  apply Forall_cons in Hq as [Hl Hq]. destruct l as [| | | | | |l]; try done. cbn [sub_do] in Hd.
  destruct (timer_step_spec E l s Hs He) as (s3 & Hd' & Hs1). assert (s3 = s1) as -> by congruence.
  pose proof (expiries_step E l s s1 a Hs He Hd) as H1. destruct (IH Hq Hs1) as (H2 & ls' & H3 & H4). split; [lia|].
  exists (l :: ls'). split; [|constructor; [by destruct l|done]]. econstructor; [|by apply timer_step_app|done]. by destruct l.
Qed.

Lemma set_direct_rest dt to p w : same_rest w (setTimer_direct dt to p w).
Proof. unfold setTimer_direct, same_rest. cbn. by destruct (direct_timers w !! dt). Qed.

Lemma remove_direct_rest dt w : same_rest w (removeTimer_direct dt w).
Proof. unfold removeTimer_direct, same_rest. by destruct (direct_timers w !! dt). Qed.

Lemma same_rest_trans w1 w2 w3 : same_rest w1 w2 -> same_rest w2 w3 -> same_rest w1 w3.
Proof. unfold same_rest. intros (-> & -> & ->) (-> & -> & ->). done. Qed.

(** The fields that the machines of a subscription leave alone. *)
Definition frame (s : sipsub) := (uas_cseq_map s, uac_cseq_map s, uas_trans s, ev_q s, is_dialog s, allow_subless_notify s, ss_out s, (subs s).*1).

(** A running timer of a subscription, and when it was set. *)
Definition expires_at (E : sub_env) (a : nat) (n : Z) (s s' : sipsub) : Prop :=
  armed (ss_timers s') (DirectT (timer_expires a)) = Some (mk_timer (new_timer E) (u32 (n * 1000000 / TIMER_RESOLUTION + clock (ss_timers s)))) /\
  armed (ss_timers s') (DirectT (timer_n a)) = None /\ same_rest (ss_timers s) (ss_timers s').

(** A SUBSCRIBE is accepted: the time is as the reply says. *)
Lemma subscribe_accepted E a req r s x n :
  inv_but None s -> get_sub (subs s) a = Some x -> fresh E s -> is_subscribe (sq_method req) = true -> 200 <= sr_code r < 300 ->
  strip_header_params (getHeader (sr_hdrs r) EXPIRES_HDR true) <> [] -> str2int (strip_header_params (getHeader (sr_hdrs r) EXPIRES_HDR true)) = Some n -> n <> 0 ->
  exists s' y, replyFSM E a req r s = Some s' /\ inv_but None s' /\ get_sub (subs s') a = Some y /\
    y = mk_single (sub_state x) (pending_subscribe x - 1) (n + unix_clock E) (s_event x) (s_id x) (s_role x) /\
    expires_at E a n s s' /\ frame s' = frame s /\ usages s' = usages s /\
    remote_tag s' = if bool_decide (remote_tag s = []) then sr_to_tag r else remote_tag s.
Proof.
  intros Hs Ha Hf Hm Hc Hne Hn Hn0. unfold replyFSM, reply_to_subscribe. destruct (Z.ltb_spec (sr_code r) 200); [lia|]. rewrite Hm, Ha. cbn [mbind option_bind].
  destruct (Z.leb_spec 300 (sr_code r)); [lia|]. rewrite (bool_decide_false (_ = [])), Hn, (proj2 (Z.eqb_neq n 0)) by done.
  set (s1 := if bool_decide (remote_tag s = []) then _ else s).
  assert (Hs1 : inv_but None s1) by (unfold s1; case_bool_decide; [by eapply inv_same, Hs|done]).
  assert (Hf1 : ss_timers s1 = ss_timers s /\ subs s1 = subs s /\ frame s1 = frame s /\ usages s1 = usages s /\ remote_tag s1 = if bool_decide (remote_tag s = []) then sr_to_tag r else remote_tag s) by (unfold s1; by case_bool_decide).
  clearbody s1. destruct Hf1 as (F1 & F2 & F3 & F4 & F5).
  destruct (set_timer_spec None s1 a (timer_expires a) (n * 1000000) (new_timer E)) as [H1 H1a]; [done|by left|by right|by rewrite F2, Ha|unfold fresh in Hf; by rewrite F1|].
  set (s2 := set_sub_timer _ _ _ s1) in *. assert (Ha2 : get_sub (subs s2) a = Some x) by (cbn; by rewrite F2).
  destruct (upd_spec None s2 a x (s_set_expires (n + unix_clock E)) H1 Ha2 eq_refl) as (s3 & E3 & H3 & H3a & H3t & H3q). rewrite E3. cbn [mbind option_bind].
  destruct (unset_timer_spec None s3 a (timer_n a) H3 (or_introl eq_refl) (or_introl eq_refl)) as (H4 & _ & _ & H4a).
  assert (H4' : inv_but None (remove_sub_timer (timer_n a) s3)).
  { eapply (reguard (Some a) _ a); [exact H4|by right|]. right; left. rewrite H4a, decide_False by (unfold timer_n, timer_expires; lia). by rewrite H3t, H1a, decide_True. }
  destruct (upd_spec None _ a (s_set_expires (n + unix_clock E) x) (fun x => s_set_pending (pending_subscribe x - 1) x) H4' H3a eq_refl) as (s5 & E5 & H5 & H5a & H5t & H5q).
  assert (Hfr : frame s5 = frame s1 /\ usages s5 = usages s1 /\ remote_tag s5 = remote_tag s1).
  { unfold upd_sub in E3, E5. rewrite Ha2 in E3. injection E3 as <-. cbn [remove_sub_timer ss_set_timers ss_set_subs subs s2 set_sub_timer] in E5.
    rewrite get_put_sub, Nat.eqb_refl in E5 by (by rewrite F2, Ha). injection E5 as <-. unfold frame. cbn. by rewrite !put_sub_keys. }
  destruct Hfr as (R1 & R2 & R3). exists s5. eexists. rewrite R1, R2, R3. split_and!; [exact E5|exact H5|exact H5a|done| |done|done|done].
  unfold expires_at. rewrite H5t, !H4a, decide_False, (decide_True (P := timer_n a = timer_n a)) by (unfold timer_n, timer_expires; lia || done).
  rewrite H3t, H1a, decide_True, F1 by done. split_and!; try done. cbn [remove_sub_timer ss_set_timers ss_timers]. rewrite H3t. cbn [s2 set_sub_timer ss_set_timers ss_timers]. rewrite F1.
  eapply same_rest_trans; [apply set_direct_rest|apply remove_direct_rest].
Qed.

(** C22: a subscription that is not refreshed ends, at its time.  In an [AmSipSubscription] on its
    own, after a SUBSCRIBE was answered with 2xx and an Expires header of [n] seconds, at most
    42949672 (the timers of subscriptions are not clipped, and a longer one goes off early),
    with a clock that does not wrap meanwhile, and while no further message comes, the
    time-out of the subscription is not posted before [n] seconds (50 ticks each) have passed;
    it has been posted once when the timers of that tick were fired, and handling it removes
    the subscription. *)
Theorem subscription_expires allow tag ls0 s E req r a x n s1 ls s2 :
  sub_run ls0 (ss_init allow false tag) s -> sub_enabled E (SReplyIn req r) s = true ->
  uac_cseq_map s !! sq_cseq req = Some a -> get_sub (subs s) a = Some x -> sub_state x <> SubState_terminated ->
  is_subscribe (sq_method req) = true -> 200 <= sr_code r < 300 ->
  strip_header_params (getHeader (sr_hdrs r) EXPIRES_HDR true) = int2str n -> 0 < n <= 42949672 ->
  clock (ss_timers s) + 50 * n < u32_mod ->
  sub_do E (SReplyIn req r) s = Some s1 -> sub_run ls s1 s2 -> Forall quiet ls ->
  (clock (ss_timers s2) < clock (ss_timers s) + 50 * n -> expiries a s2 = expiries a s1) /\
  (clock (ss_timers s) + 50 * n <= clock (ss_timers s2) -> at_firing (ss_timers s2) = [] ->
     expiries a s2 = S (expiries a s1) /\
     forall E', sub_enabled E' STimeout s2 = true -> exists s3, onTimeout E' a s2 = Some s3 /\ get_sub (subs s3) a = None).
Proof.
  intros Hr He Ha Hx Hl Hm Hc Htxt Hn Hmax Hd Hrun Hq. pose proof (sub_run_inv _ _ _ Hr (ss_init_inv allow tag)) as Hs. clear ls0 Hr.
  cbn [sub_enabled] in He. apply andb_true_iff in He as [_ Hf%bool_decide_eq_true]. cbn [sub_do] in Hd. unfold onReplyIn in Hd. rewrite Ha in Hd.
  set (s0 := ss_set_uac _ s) in Hd.
  assert (Hs0 : inv_but None s0).
  { destruct Hs as [H1 H2 H3 H4 H5 H6 H7 H8 H9]. constructor; try done. intros c b Hcb. cbn [s0 ss_set_uac uac_cseq_map] in Hcb. apply lookup_delete_Some in Hcb as [_ Hcb]. by eapply H4. }
  assert (Hstr : str2int (int2str n) = Some n) by (apply str2int_int2str; unfold INT_MAX; lia).
  destruct (subscribe_accepted E a req r s0 x n Hs0 Hx Hf Hm Hc) as (s1' & y & Hfsm & Hs1 & Hy & Ey & (T1 & T2 & T3 & T4 & T5) & _); [|by rewrite Htxt|lia|].
  { rewrite Htxt. intros H0. by rewrite H0 in Hstr; cbn in Hstr; injection Hstr; lia. }
  rewrite Hfsm in Hd. cbn [mbind option_bind] in Hd. unfold sub_terminated in Hd. rewrite Hy in Hd. cbn [mbind option_bind] in Hd. rewrite bool_decide_false in Hd by (by subst y). injection Hd as ->.
  change (ss_timers s0) with (ss_timers s) in T1, T3, T4, T5. fold (clock (ss_timers s1)) (clock (ss_timers s)) in T5.
  pose proof (ai_wheel _ _ _ _ (si_timers _ _ Hs)) as [Hck _]. fold (clock (ss_timers s)) in Hck. unfold is_u32 in Hck.
  assert (Hd50 : n * 1000000 / TIMER_RESOLUTION = 50 * n) by (unfold TIMER_RESOLUTION; replace (n * 1000000) with (50 * n * 20000) by lia; by apply Z.div_mul).
  rewrite Hd50, u32_small in T1 by (unfold is_u32, u32_mod in *; lia). set (t := mk_timer (new_timer E) (50 * n + clock (ss_timers s))) in *.
  set (k := DirectT (timer_expires a)) in *.
  assert (Hon : on_time k t (clock (ss_timers s) + Z.max 1 (50 * n)) (posts k (ss_timers s1)) (ss_timers s1)).
  { left. split_and!; try done; [|intros _; lia]. rewrite T3. intros Hin. destruct (ai_firing _ _ _ _ (si_timers _ _ Hs) t Hin) as [z Hz]. cbn in Hz. unfold fresh in Hf. congruence. }
  destruct (quiet_run ls s1 s2 a Hrun Hq Hs1) as (Hcnt & ls' & Hrun' & Hq').
  pose proof (on_time_run k t (clock (ss_timers s)) (50 * n) _ ls' _ _ Hrun' (si_timers _ _ Hs1) Hq' ltac:(cbn; lia) ltac:(lia) ltac:(lia) ltac:(lia) Hon) as Hend.
  apply on_time_end in Hend as [He1 He2]. replace (Z.max 1 (50 * n)) with (50 * n) in * by lia. fold k in Hcnt. split.
  - intros H%He1. lia.
  - intros H1 H2. specialize (He2 H1 H2). split; [lia|]. intros E' HE'. apply andb_true_iff in HE' as [_ Hf'%bool_decide_eq_true].
    pose proof (sub_run_inv _ _ _ Hrun Hs1) as Hs2. destruct (onTimeout_spec E' a s2 (inv_weaken _ _ Hs2) Hf') as (s3 & H3 & _ & H5). exists s3. split; [done|]. by rewrite H5, get_without, Nat.eqb_refl.
Qed.

(** ** An exchange

    A subscriber [A] and a notifier [B], each with a new dialog: SUBSCRIBE, its 200 with the
    time, NOTIFY with the active state and its 200. *)

Definition event_text (ev id : list Z) : list Z := ev ++ if bool_decide (id = []) then [] else lit ";id=" ++ id.

Definition notify_hdrs (ev id : list Z) (n : Z) : list (list Z * list Z) :=
  [(EVENT_HDR, event_text ev id); (SUBSCRIPTION_STATE_HDR, lit "active;expires=" ++ int2str n)].

Definition sub_exchange (ea1 ea2 ea3 ea4 eb1 eb2 eb3 eb4 : sub_env) (cA cB n : Z) (ev id accept tagA tagB : list Z) (A B : sipsub) : option (sipsub * sipsub) :=
  let sub := mk_sq SUBSCRIBE cA [] (hdr_lines (subscribe_hdrs ev id accept n)) in
  let ntf := mk_sq NOTIFY cB tagA (hdr_lines (notify_hdrs ev id n)) in
  let time := hdr_lines [(EXPIRES_HDR, int2str n)] in
  A ← sub_do ea1 (SRequestSent sub) A;
  B ← sub_do eb1 (SRequestIn sub) B;
  B ← sub_do eb2 (SReply sub 200 time) B;
  A ← sub_do ea2 (SReplyIn sub (mk_sr 200 SUBSCRIBE tagB time)) A;
  B ← sub_do eb3 (SRequestSent ntf) B;
  A ← sub_do ea3 (SRequestIn ntf) A;
  A ← sub_do ea4 (SReply ntf 200 []) A;
  B ← sub_do eb4 (SReplyIn ntf (mk_sr 200 NOTIFY tagA [])) B;
  Some (A, B).

(** The texts that are used: not empty, without separators and line ends. *)
Definition plain_text (l : list Z) : Prop := forallb text_char l = true /\ 59 ∉ l.

Lemma until_param_plain l : plain_text l -> until_param l = l.
Proof.
  intros [Ht Hs]. induction l as [|c l IH]; [done|]. cbn in *. apply andb_true_iff in Ht as [Hc Ht]. apply not_elem_of_cons in Hs as [H59 Hs].
  unfold text_char in Hc. rewrite negb_true_iff, !orb_false_iff in Hc. destruct Hc as [[_ Hcr] Hlf]. rewrite (proj2 (Z.eqb_neq c 59)), Hcr, Hlf by done. cbn. by rewrite IH.
Qed.

Section texts.
Variables (ev id accept : list Z) (n : Z).
Hypothesis Hev : good_value ev = true.
Hypothesis Hev59 : 59 ∉ ev.
Hypothesis Hid : plain_text id.
Hypothesis Hacc : accept = [] \/ good_value accept = true.
Hypothesis Hn : is_uint n.

Lemma event_text_good : good_value (event_text ev id) = true.
Proof.
  unfold event_text. case_bool_decide; [by rewrite app_nil_r|]. destruct ev as [|c l]; [done|]. cbn [app good_value] in *. apply andb_true_iff in Hev as [-> Hl]. cbn [andb].
  change (c :: l ++ lit ";id=" ++ id) with ((c :: l) ++ lit ";id=" ++ id). rewrite !forallb_app, Hl. destruct Hid as [-> _]. done.
Qed.

Lemma event_text_read : strip_header_params (event_text ev id) = ev /\ get_header_param (event_text ev id) (lit "id") = id.
Proof.
  destruct (good_value_spec _ Hev) as (_ & Hsp & Hne). unfold event_text, strip_header_params.
  assert (Hskip : forall r, skip_sp (ev ++ r) = ev ++ r).
  { intros r. destruct ev as [|c l]; [done|]. cbn [app skip_sp] in *. destruct (c =? 32) eqn:Hc; [|done]. apply Z.eqb_eq in Hc as ->. done. }
  case_bool_decide as Hi.
  - rewrite app_nil_r, Hsp, until_c_all, param_missing by done. by rewrite Hi.
  - rewrite Hskip. change (lit ";id=" ++ id) with (59 :: lit "id" ++ 61 :: id). rewrite until_c_text, param_found by done. split; [done|]. by apply until_param_plain.
Qed.

Lemma event_hdr_read l : good_hdrs l -> h_values EVENT_HDR l = [event_text ev id] -> event_of (hdr_lines l) = (ev, id).
Proof.
  intros Hl Hv. unfold event_of. rewrite (getHeader_lines l EVENT_HDR true) by done. rewrite Hv. change (default [] (head [event_text ev id])) with (event_text ev id). destruct event_text_read as [-> ->]. done.
Qed.

Lemma subscribe_event : event_of (hdr_lines (subscribe_hdrs ev id accept n)) = (ev, id).
Proof.
  destruct (good_value_spec _ Hev) as (_ & _ & Hne).
  assert (Hnum : good_value (int2str n) = true) by (rewrite <- (app_nil_r (int2str n)); by apply digits_value).
  unfold subscribe_hdrs. rewrite (bool_decide_false (ev = [])) by done. fold (event_text ev id). generalize event_text_good as Hg. intros Hg.
  assert (Hle : (0 <=? n) = true) by (apply Z.leb_le; destruct Hn; lia). rewrite Hle. revert Hnum. generalize (int2str n) as v. intros v Hv.
  apply event_hdr_read; (destruct (bool_decide_reflect (accept = [])) as [Ha|Ha]; [|destruct Hacc as [?|Hac]; [done|]]).
  - unfold good_hdrs. cbn. unfold good_hdr. cbn [fst snd]. by rewrite Hg, Hv.
  - unfold good_hdrs. cbn. unfold good_hdr. cbn [fst snd]. by rewrite Hg, Hv, Hac.
  - reflexivity.
  - reflexivity.
Qed.

Lemma notify_read :
  event_of (hdr_lines (notify_hdrs ev id n)) = (ev, id) /\
  getHeader (hdr_lines (notify_hdrs ev id n)) SUBSCRIPTION_STATE_HDR true = lit "active;expires=" ++ int2str n.
Proof.
  unfold notify_hdrs. assert (Hnum : forallb text_char (int2str n) = true).
  { assert (good_value (int2str n) = true) as (H & _ & _)%good_value_spec by (rewrite <- (app_nil_r (int2str n)); by apply digits_value). done. }
  generalize event_text_good as Hg. intros Hg. revert Hnum. generalize (int2str n) as v. intros v Hv.
  assert (Hgood : good_hdrs [(EVENT_HDR, event_text ev id); (SUBSCRIPTION_STATE_HDR, lit "active;expires=" ++ v)]).
  { unfold good_hdrs. cbn [forallb]. unfold good_hdr. cbn [fst snd]. rewrite Hg. change (good_value (lit "active;expires=" ++ v)) with (forallb text_char (lit "active;expires=" ++ v)). by rewrite forallb_app, Hv. }
  split; [apply event_hdr_read; [done|reflexivity]|]. by rewrite (getHeader_lines _ SUBSCRIPTION_STATE_HDR true) by done.
Qed.

Lemma state_text_read :
  strip_header_params (lit "active;expires=" ++ int2str n) = lit "active" /\ get_header_param (lit "active;expires=" ++ int2str n) (lit "expires") = int2str n.
Proof.
  assert (Hp : plain_text (int2str n)).
  { split; [|by apply digits_no]. assert (good_value (int2str n) = true) as (H & _ & _)%good_value_spec by (rewrite <- (app_nil_r (int2str n)); by apply digits_value). done. }
  revert Hp. generalize (int2str n) as v. intros v Hp. split; [done|].
  change (lit "active;expires=" ++ v) with (lit "active" ++ 59 :: lit "expires" ++ 61 :: v). rewrite param_found by (apply (bool_decide_unpack _); by vm_compute). by apply until_param_plain.
Qed.

Lemma time_read : strip_header_params (getHeader (hdr_lines [(EXPIRES_HDR, int2str n)]) EXPIRES_HDR true) = int2str n.
Proof.
  assert (Hg : good_value (int2str n) = true) by (rewrite <- (app_nil_r (int2str n)); by apply digits_value). assert (Hs : 59 ∉ int2str n) by (by apply digits_no).
  revert Hg Hs. generalize (int2str n) as v. intros v Hg Hs. rewrite (getHeader_lines _ EXPIRES_HDR true); [|unfold good_hdrs; cbn [forallb]; unfold good_hdr; cbn [fst snd]; by rewrite Hg|done].
  change (default [] (head (h_values EXPIRES_HDR [(EXPIRES_HDR, v)]))) with v. unfold strip_header_params. apply good_value_spec in Hg as (_ & -> & _). by apply until_c_all.
Qed.

End texts.

(** *** The steps *)

Section steps.
Variables (ev id hs hn time txt num tagA tagB : list Z) (n cA cB : Z).
Hypothesis Hhs : event_of hs = (ev, id).
Hypothesis Hhn : event_of hn = (ev, id).
Hypothesis Hst : getHeader hn SUBSCRIPTION_STATE_HDR true = txt.
Hypothesis Htxt : strip_header_params txt = lit "active" /\ get_header_param txt (lit "expires") = num.
Hypothesis Htime : strip_header_params (getHeader time EXPIRES_HDR true) = num.
Hypothesis Hnum : num <> [] /\ str2int num = Some n.
Hypothesis Hn : n <> 0.
Hypothesis Htags : tagA <> [] /\ tagB <> [].

Let sub := mk_sq SUBSCRIBE cA [] hs.
Let ntf := mk_sq NOTIFY cB tagA hn.

(** The state of a side: one subscription. *)
Definition side (al : bool) (tag : list Z) (a : nat) (x : single) (uas uac : gmap Z nat) (tr : gmap Z sub_request) (T : app_timers) (out : list sub_out) : sipsub :=
  mk_ss [(a, x)] uas uac al false 1 tag tr T [] out.

Definition single_in (st : SubscriptionState) (pend exp : Z) (role : Role) : single := mk_single st pend exp ev id role.

Lemma num_facts : bool_decide (num = []) = false /\ (n =? 0) = false /\ bool_decide (tagA = []) = false /\ bool_decide (tagB = []) = false.
Proof. destruct Hnum, Htags. split_and!; try (by apply bool_decide_false). by apply Z.eqb_neq. Qed.

Lemma matched a st pend exp role : sub_matches role ev id (a, mk_single st pend exp ev id role) = true.
Proof. unfold sub_matches. cbn [snd s_role s_event s_id]. rewrite (bool_decide_true (role = role)), (bool_decide_true (ev = ev)), (bool_decide_true (id = id)), orb_true_r by done. done. Qed.

Ltac run :=
  let Hf1 := fresh in let Hf2 := fresh in let Hf3 := fresh in let Hf4 := fresh in let Hx1 := fresh in let Hx2 := fresh in let Hnum2 := fresh in
  destruct num_facts as (Hf1 & Hf2 & Hf3 & Hf4); pose proof (proj1 Htxt) as Hx1; pose proof (proj2 Htxt) as Hx2; pose proof (proj2 Hnum) as Hnum2;
  repeat (progress (cbn -[event_of getHeader strip_header_params get_header_param str2int setTimer_direct removeTimer_direct app_init lit Z.mul merge_sort timer_n timer_expires sub_matches removeSubscription];
    unfold createSubscription, makeSubscription, matchSubscription, findSubscription, single_onRequestSent, single_onRequestIn, requestFSM, setState, upd_sub, sub_terminated,
      sub_dlg_reply, replyFSM, reply_to_subscribe, reply_to_notify, onReplyIn, onRequestIn, onRequestSent, onNotify, ntf, side, single_in;
    change (is_subscribe SUBSCRIBE) with true; change (is_subscribe NOTIFY) with false; change (bool_decide (NOTIFY = REFER)) with false; change (bool_decide (NOTIFY = NOTIFY)) with true; change (bool_decide (lit "active" = lit "active")) with true;
    change (bool_decide (SubState_notify_wait = SubState_terminated)) with false; change (bool_decide (SubState_active = SubState_terminated)) with false;
    rewrite ?Hhs, ?Hhn, ?Hst, ?Hx1, ?Hx2, ?Htime, ?Hnum2, ?Hf1, ?Hf2, ?Hf3, ?Hf4, ?matched, ?Nat.eqb_refl, ?lookup_singleton_eq, ?lookup_insert_eq, ?lookup_empty, ?delete_singleton_eq, ?delete_insert_eq, ?delete_empty)); try reflexivity.

Lemma sent_subscribe E al :
  sub_do E (SRequestSent sub) (ss_init al false []) =
  Some (side al [] (new_sub E) (single_in SubState_notify_wait 1 0 Subscriber) ∅ {[cA := new_sub E]} ∅
    (setTimer_direct (timer_n (new_sub E)) RFC6665_TIMER_N_DURATION (new_timer E) app_init) []).
Proof. run. Qed.

Lemma got_subscribe E al tag :
  sub_do E (SRequestIn sub) (ss_init al false tag) =
  Some (side al tag (new_sub E) (single_in SubState_notify_wait 1 0 Notifier) {[cA := new_sub E]} ∅ {[cA := sub]}
    (setTimer_direct (timer_n (new_sub E)) RFC6665_TIMER_N_DURATION (new_timer E) app_init) []).
Proof. run. Qed.

Lemma answered_subscribe E al b T :
  can_send E cA = true ->
  sub_do E (SReply sub 200 time) (side al tagA b (single_in SubState_notify_wait 1 0 Notifier) {[cA := b]} ∅ {[cA := sub]} T []) =
  Some (side al tagA b (single_in SubState_notify_wait 0 (n + unix_clock E) Notifier) ∅ ∅ ∅
    (removeTimer_direct (timer_n b) (setTimer_direct (timer_expires b) (n * 1000000) (new_timer E) T)) [OReply cA 200]).
Proof. intros Hc. run. rewrite Hc. run. Qed.
Lemma accepted_subscribe E al a T :
  sub_do E (SReplyIn sub (mk_sr 200 SUBSCRIBE tagB time)) (side al [] a (single_in SubState_notify_wait 1 0 Subscriber) ∅ {[cA := a]} ∅ T []) =
  Some (side al tagB a (single_in SubState_notify_wait 0 (n + unix_clock E) Subscriber) ∅ ∅ ∅
    (removeTimer_direct (timer_n a) (setTimer_direct (timer_expires a) (n * 1000000) (new_timer E) T)) []).
Proof. run. Qed.

Lemma sent_notify E al b e T out :
  sub_do E (SRequestSent ntf) (side al tagA b (single_in SubState_notify_wait 0 e Notifier) ∅ ∅ ∅ T out) =
  Some (side al tagA b (single_in SubState_notify_wait 0 e Notifier) ∅ {[cB := b]} ∅ T out).
Proof. run. Qed.

Lemma got_notify E al a e T :
  sub_do E (SRequestIn ntf) (side al tagB a (single_in SubState_notify_wait 0 e Subscriber) ∅ ∅ ∅ T []) =
  Some (side al tagB a (single_in SubState_notify_wait 0 e Subscriber) {[cB := a]} ∅ {[cB := ntf]} T []).
Proof. run. Qed.

Lemma answered_notify E al a e T :
  can_send E cB = true ->
  sub_do E (SReply ntf 200 []) (side al tagB a (single_in SubState_notify_wait 0 e Subscriber) {[cB := a]} ∅ {[cB := ntf]} T []) =
  Some (side al tagB a (single_in SubState_active 0 (n + unix_clock E) Subscriber) ∅ ∅ ∅
    (setTimer_direct (timer_expires a) (n * 1000000) (new_timer E) (removeTimer_direct (timer_n a) T)) [OReply cB 200]).
Proof. intros Hc. run. rewrite Hc. run. Qed.

Lemma accepted_notify E al b e T out :
  sub_do E (SReplyIn ntf (mk_sr 200 NOTIFY tagA [])) (side al tagA b (single_in SubState_notify_wait 0 e Notifier) ∅ {[cB := b]} ∅ T out) =
  Some (side al tagA b (single_in SubState_active 0 (n + unix_clock E) Notifier) ∅ ∅ ∅
    (setTimer_direct (timer_expires b) (n * 1000000) (new_timer E) (removeTimer_direct (timer_n b) T)) out).
Proof. run. Qed.

End steps.

(** The timers that an exchange leaves. *)
Definition expiry_runs (a : nat) (n : Z) (p : nat) (s : sipsub) : Prop :=
  armed (ss_timers s) (DirectT (timer_n a)) = None /\
  armed (ss_timers s) (DirectT (timer_expires a)) = Some (mk_timer p (u32 (n * 1000000 / TIMER_RESOLUTION + clock (ss_timers s)))).

Lemma final_timers a n p T :
  let T' := setTimer_direct (timer_expires a) (n * 1000000) p (removeTimer_direct (timer_n a) T) in
  armed T' (DirectT (timer_n a)) = None /\ armed T' (DirectT (timer_expires a)) = Some (mk_timer p (u32 (n * 1000000 / TIMER_RESOLUTION + clock T'))).
Proof.
  cbv zeta. set (T1 := removeTimer_direct (timer_n a) T). set (T2 := setTimer_direct _ _ _ T1). destruct (set_direct_rest (timer_expires a) (n * 1000000) p T1) as (_ & _ & Hc). fold T2 in Hc.
  cbn [armed]. unfold clock. rewrite Hc. cbn [T2 setTimer_direct on_wheel at_set_wheel at_set_direct at_set_heap direct_timers]. rewrite lookup_insert_eq. split; [|done].
  rewrite lookup_insert_ne by (unfold timer_n, timer_expires; lia). unfold T1, removeTimer_direct. destruct (direct_timers T !! timer_n a) eqn:Ht; [|done]. cbn. apply lookup_delete_eq.
Qed.

(** C23: a subscriber and a notifier agree.  When a SUBSCRIBE for any event and id, its 200 with
    a time of [n] seconds, a NOTIFY with the active state and its 200 have gone through the
    subscriptions of two new dialogs, each side has exactly one subscription, active, with the
    event and the id of the SUBSCRIBE, in the roles of subscriber and notifier; nothing is
    pending, and on both sides the timer of the expiry runs with [n] seconds and timer N is
    off. *)
Theorem subscribe_notify_agree al bl ea1 ea2 ea3 ea4 eb1 eb2 eb3 eb4 cA cB n ev id accept tagA tagB :
  good_value ev = true -> 59 ∉ ev -> plain_text id -> accept = [] \/ good_value accept = true -> 0 < n <= INT_MAX -> tagA <> [] -> tagB <> [] ->
  can_send eb2 cA = true -> can_send ea4 cB = true ->
  exists A B, sub_exchange ea1 ea2 ea3 ea4 eb1 eb2 eb3 eb4 cA cB n ev id accept tagA tagB (ss_init al false []) (ss_init bl false tagA) = Some (A, B) /\
    subs A = [(new_sub ea1, mk_single SubState_active 0 (n + unix_clock ea4) ev id Subscriber)] /\
    subs B = [(new_sub eb1, mk_single SubState_active 0 (n + unix_clock eb4) ev id Notifier)] /\
    expiry_runs (new_sub ea1) n (new_timer ea4) A /\ expiry_runs (new_sub eb1) n (new_timer eb4) B /\
    (forall s, s = A \/ s = B -> uas_cseq_map s = ∅ /\ uac_cseq_map s = ∅ /\ uas_trans s = ∅ /\ usages s = 1 /\ isActive s = true).
Proof.
  intros Hev H59 Hid Hacc Hn HtA HtB Hc1 Hc2. assert (Hu : is_uint n) by (unfold is_uint, UINT_MAX, INT_MAX in *; lia).
  pose proof (subscribe_event ev id accept n Hev H59 Hid Hacc Hu) as F1. destruct (notify_read ev id n Hev H59 Hid Hu) as [F2 F3].
  pose proof (state_text_read n Hu) as F4. pose proof (time_read n Hu) as F5.
  assert (F6 : int2str n <> [] /\ str2int (int2str n) = Some n).
  { split; [|apply str2int_int2str; lia]. by destruct (int2str_digits n Hu) as (? & _). }
  assert (Hn0 : n <> 0) by lia. assert (Htt : tagA <> [] /\ tagB <> []) by done. unfold sub_exchange.
  revert F1 F2 F3 F4 F5 F6. generalize (hdr_lines (subscribe_hdrs ev id accept n)) as hs, (hdr_lines (notify_hdrs ev id n)) as hn, (hdr_lines [(EXPIRES_HDR, int2str n)]) as time.
  generalize (lit "active;expires=" ++ int2str n) as txt. generalize (int2str n) as num. intros num txt hs hn time F1 F2 F3 F4 F5 F6.
  erewrite sent_subscribe by eassumption. cbn [mbind option_bind]. erewrite got_subscribe by eassumption. cbn [mbind option_bind].
  erewrite answered_subscribe by eassumption. cbn [mbind option_bind]. erewrite accepted_subscribe by eassumption. cbn [mbind option_bind].
  erewrite sent_notify by eassumption. cbn [mbind option_bind]. erewrite got_notify by eassumption. cbn [mbind option_bind].
  erewrite answered_notify by eassumption. cbn [mbind option_bind]. erewrite accepted_notify by eassumption. cbn [mbind option_bind].
  eexists _, _. split; [reflexivity|]. split_and!; [done|done|apply final_timers|apply final_timers|]. by intros s [->| ->].
Qed.

(** ** What the code does otherwise *)

Fixpoint sub_exec (ls : list (sub_env * sub_label)) (s : sipsub) : option sipsub :=
  match ls with
  | [] => Some s
  | (E, l) :: ls => if sub_enabled E l s then s ← sub_do E l s; sub_exec ls s else None
  end.

Lemma sub_exec_run ls s s' : sub_exec ls s = Some s' -> sub_run ls s s'.
Proof.
  revert s. induction ls as [|[E l] ls IH]; intros s; cbn [sub_exec]; [intros [= ->]; constructor|].
  destruct (sub_enabled E l s) eqn:He; [|done]. destruct (sub_do E l s) eqn:Hd; [|done]. intros H. econstructor; eauto.
Qed.

Definition demo_env (a p : nat) : sub_env := mk_env a p (fun _ => true) 0 (lit "b").
Definition demo_subscribe (cseq : Z) (to_tag : list Z) : sub_request := mk_sq SUBSCRIBE cseq to_tag (hdr_lines [(EVENT_HDR, lit "presence")]).
Definition demo_notify (cseq : Z) (st : list Z) : sub_request := mk_sq NOTIFY cseq (lit "a") (hdr_lines [(EVENT_HDR, lit "presence"); (SUBSCRIPTION_STATE_HDR, st)]).
Definition demo_time : list Z := hdr_lines [(EXPIRES_HDR, lit "60")].

(** What is seen of a run: the subscriptions with their events, states and pending requests,
    and what was sent. *)
Definition seen (s : option sipsub) : option (list (list Z * SubscriptionState * Z) * list sub_out) :=
  option_map (fun s => (map (fun x => (s_event (snd x), sub_state (snd x), pending_subscribe (snd x))) (subs s), ss_out s)) s.

(** The 500 to a SUBSCRIBE that comes while another one is pending is handled like the reply to
    that one: a subscription that waits for its first NOTIFY is ended, and the pending SUBSCRIBE
    answered 481. *)
Theorem overlapping_subscribe_ends :
  let first := [(demo_env 0 0, SRequestIn (demo_subscribe 1 []))] in
  seen (sub_exec first (ss_init false false (lit "a"))) = Some ([(lit "presence", SubState_notify_wait, 1)], []) /\
  seen (sub_exec (first ++ [(demo_env 1 1, SRequestIn (demo_subscribe 2 (lit "b")))]) (ss_init false false (lit "a"))) = Some ([], [OReply 2 500; OReply 1 481]).
Proof. vm_compute. split; reflexivity. Qed.

(** In a subscription that is active the same 500 takes back the count of pending requests; with
    the reply to the first one it is below zero, and no SUBSCRIBE is accepted any more. *)
Theorem refresh_refused_for_good :
  let before :=
    [(demo_env 0 0, SRequestIn (demo_subscribe 1 [])); (demo_env 1 1, SReply (demo_subscribe 1 []) 200 demo_time);
     (demo_env 1 2, SRequestSent (demo_notify 7 (lit "active;expires=60"))); (demo_env 1 2, SReplyIn (demo_notify 7 (lit "active;expires=60")) (mk_sr 200 NOTIFY [] []));
     (demo_env 1 3, SRequestIn (demo_subscribe 2 (lit "b"))); (demo_env 1 4, SRequestIn (demo_subscribe 3 (lit "b")));
     (demo_env 1 4, SReply (demo_subscribe 2 (lit "b")) 200 demo_time)] in
  seen (sub_exec before (ss_init false false (lit "a"))) = Some ([(lit "presence", SubState_active, -1)], [OReply 1 200; OReply 3 500; OReply 2 200]) /\
  seen (sub_exec (before ++ [(demo_env 1 5, SRequestIn (demo_subscribe 4 (lit "b")))]) (ss_init false false (lit "a"))) =
    Some ([(lit "presence", SubState_active, -2)], [OReply 1 200; OReply 3 500; OReply 2 200; OReply 4 500]).
Proof. vm_compute. split; reflexivity. Qed.

(** A provisional reply takes away the entry of its request: the final reply is ignored, and the
    SUBSCRIBE stays pending. *)
Theorem provisional_loses_entry :
  let trying := (demo_env 1 1, SReplyIn (demo_subscribe 1 []) (mk_sr 100 SUBSCRIBE [] [])) in
  let ok := (demo_env 1 1, SReplyIn (demo_subscribe 1 []) (mk_sr 200 SUBSCRIBE (lit "b") demo_time)) in
  let sent := (demo_env 0 0, SRequestSent (demo_subscribe 1 [])) in
  seen (sub_exec [sent; ok] (ss_init false false [])) = Some ([(lit "presence", SubState_notify_wait, 0)], []) /\
  seen (sub_exec [sent; trying; ok] (ss_init false false [])) = Some ([(lit "presence", SubState_notify_wait, 1)], []).
Proof. vm_compute. split; reflexivity. Qed.

(** A subscription dialog uses a subscription after it was deleted: when a NOTIFY ends it, the
    reply to the NOTIFY removes it, and then its state is read. *)
Theorem terminating_notify_faults :
  let before := [(demo_env 0 0, SRequestSent (demo_subscribe 1 [])); (demo_env 1 1, SReplyIn (demo_subscribe 1 []) (mk_sr 200 SUBSCRIBE (lit "b") demo_time))] in
  let notified st := seen (sub_exec (before ++ [(demo_env 1 2, SRequestIn (demo_notify 5 st))]) (ss_init false true [])) in
  seen (sub_exec before (ss_init false true [])) <> None /\
  notified (lit "active;expires=60") = Some ([(lit "presence", SubState_active, 0)], [OReply 5 200; OEvent SubscribeActive 60 0]) /\
  notified (lit "terminated") = None.
Proof. vm_compute. split_and!; [discriminate|reflexivity|reflexivity]. Qed.

(** A time-out carries the address of its subscription: one that is waiting when its
    subscription is removed ends a new subscription that got the same address. *)
Theorem stale_timeout_ends_other :
  let before :=
    [(demo_env 0 0, SRequestSent (demo_subscribe 1 [])); (demo_env 1 1, SReplyIn (demo_subscribe 1 []) (mk_sr 200 SUBSCRIBE (lit "b") (hdr_lines [(EXPIRES_HDR, lit "1")])))] ++
    repeat (demo_env 1 2, STimer LTick) 50 ++ [(demo_env 1 2, STimer LFire)] ++
    [(demo_env 1 2, SRequestSent (demo_subscribe 2 (lit "b"))); (demo_env 1 3, SReplyIn (demo_subscribe 2 (lit "b")) (mk_sr 481 SUBSCRIBE [] []));
     (demo_env 0 4, SRequestSent (mk_sq SUBSCRIBE 9 [] (hdr_lines [(EVENT_HDR, lit "dialog")])))] in
  seen (sub_exec before (ss_init false false [])) = Some ([(lit "dialog", SubState_notify_wait, 1)], []) /\
  seen (sub_exec (before ++ [(demo_env 1 5, STimeout)]) (ss_init false false [])) = Some ([], []).
Proof. vm_compute. split; reflexivity. Qed.

(** ** Witnesses *)

Definition demo_sub : sipsub := default (ss_init false false []) (sub_exec [(demo_env 0 0, SRequestSent (demo_subscribe 1 []))] (ss_init false false [])).

Lemma subscriptions_safe_witness : sub_do (demo_env 1 1) (SRequestSent (demo_subscribe 2 [])) demo_sub <> None.
Proof.
  refine (proj1 (subscriptions_safe false [] [(demo_env 0 0, SRequestSent (demo_subscribe 1 []))] demo_sub (demo_env 1 1) (SRequestSent (demo_subscribe 2 [])) _ _)).
  - apply sub_exec_run. vm_compute. reflexivity.
  - vm_compute. reflexivity.
Defined.

Definition demo_reply : sub_reply := mk_sr 200 SUBSCRIBE (lit "b") (hdr_lines [(EXPIRES_HDR, lit "1")]).
Definition demo_accepted : sipsub := default demo_sub (sub_do (demo_env 1 1) (SReplyIn (demo_subscribe 1 []) demo_reply) demo_sub).
Definition demo_ticks : list (sub_env * sub_label) := repeat (demo_env 1 2, STimer LTick) 50 ++ [(demo_env 1 2, STimer LFire)].
Definition demo_ended : sipsub := default demo_sub (sub_exec demo_ticks demo_accepted).

Lemma subscription_expires_witness : expiries 0 demo_ended = 1%nat.
Proof.
  refine (proj1 (proj2 (subscription_expires false [] [(demo_env 0 0, SRequestSent (demo_subscribe 1 []))] demo_sub (demo_env 1 1) (demo_subscribe 1 []) demo_reply 0
    (mk_single SubState_notify_wait 1 0 (lit "presence") [] Subscriber) 1 demo_accepted demo_ticks demo_ended _ _ _ _ _ _ _ _ _ _ _ _ _) _ _)).
  - apply sub_exec_run. vm_compute. reflexivity.
  - vm_compute. reflexivity.
  - vm_compute. reflexivity.
  - vm_compute. reflexivity.
  - done.
  - reflexivity.
  - cbn. lia.
  - vm_compute. reflexivity.
  - lia.
  - vm_compute. reflexivity.
  - vm_compute. reflexivity.
  - apply sub_exec_run. vm_compute. reflexivity.
  - repeat constructor.
  - vm_compute. congruence.
  - vm_compute. reflexivity.
Defined.

Lemma subscribe_notify_agree_witness :
  exists A B, sub_exchange (demo_env 0 0) (demo_env 1 1) (demo_env 1 2) (demo_env 1 2) (demo_env 0 0) (demo_env 1 1) (demo_env 1 2) (demo_env 1 2) 1 1 60 (lit "presence") [] [] (lit "a") (lit "b")
    (ss_init false false []) (ss_init false false (lit "a")) = Some (A, B) /\
    subs A = [(0%nat, mk_single SubState_active 0 60 (lit "presence") [] Subscriber)].
Proof.
  destruct (subscribe_notify_agree false false (demo_env 0 0) (demo_env 1 1) (demo_env 1 2) (demo_env 1 2) (demo_env 0 0) (demo_env 1 1) (demo_env 1 2) (demo_env 1 2) 1 1 60 (lit "presence") [] [] (lit "a") (lit "b"))
    as (A & B & H1 & H2 & _); try done.
  - apply (bool_decide_unpack _). by vm_compute.
  - split; [done|]. apply not_elem_of_nil.
  - by left.
  - exists A, B. by split.
Defined.
